(* ===== verification/_CoqProject ===== *)
-Q . S2P
Prelude.v
JsString.v
JsNumber.v
Money.v
Store.v
Workspaces.v
Chat.v
Ledger.v
LedgerConcurrency.v
JsDate.v
InviteCodes.v
Invites.v
InviteWithdrawal.v
InviteAdmin.v
Csv.v
InviteCsv.v
EvidenceDigest.v
Json.v
LedgerPages.v
Payments.v
Sse.v
SignUpRequest.v
ApiKeys.v
RateLimiter.v
Analytics.v
SignUp.v
Der.v
X509.v
Attestation.v
VerdictCache.v
TeeEvidence.v
StatusProjection.v
Liveness.v
OperatorAlerts.v
ExternalCatalog.v
StatusService.v
OpenAiError.v
ConfigCatalog.v
ChatApi.v
GatewayPolicy.v
ClientDimension.v
ResponseShaping.v
StreamRelay.v
Metering.v
Gateway.v
SecretEnvelope.v
SidecarConfig.v
EndpointAdmin.v
EndpointHistory.v
SpVmRegistry.v
EvidenceGate.v
TrustTiers.v
ImportPlan.v
BundleSchema.v
ExportBundle.v
DataMigration.v
MigrationRestores.v
EvidenceBundle.v
Snapshots.v
EvidenceService.v
ExternalEvidence.v
ModelDiscovery.v
MailDelivery.v
MailService.v
FeedbackForm.v
Feedback.v
Activity.v
GenerationLog.v
ConsoleApi.v
DeploymentGraph.v
