(* ===== verification/Prelude.v ===== *)
(** * Confidential Router: verification library

    A shallow embedding of the core of the router API (TypeScript,
    [apps/router-api/src/app]), of its attestation library ([libs/attestation/src])
    and of the console's own verification ([apps/router-ui/src/components/chat/
    verification], below [ui:]) and attestation panel ([.../chat/attestation], below
    [panel:]), with theorems about the definitions.  This file is
    the root: it documents the whole library and holds the prelude.  Paths below
    are relative to [apps/router-api/src/app] unless they start with [libs] or [ui:].

    ** The program and its parts

    The router sells access to models.  Money lives in an append-only ledger
    ([billing/]) beside a balance column per workspace; every call that moves
    money carries an idempotency key with a unique index.  Accounts are created by
    invitation ([invites/], [auth/sign-up-gate.service.ts]): a code has seats, a
    redemption takes one and writes a grant to the ledger in one transaction.
    Sign-in codes are mailed only to those an account exists for or would be made for;
    a new account gets a workspace, its grants and a welcome ([auth/]), and an account
    that has used its first credit may earn a second one by a survey whose provider signs
    what it delivers ([feedback/]).  The console keeps chats ([chat/]), shows activity and the log of
    generations ([activity/]), manages keys, credit and invitations over GraphQL
    ([api/graphql/]) and reports a few events to the analytics host ([analytics/]).
    Models may be served by external endpoints ([external-endpoints/]): a sidecar
    attests each and answers verdicts; a poll projects the verdicts on rows, lets
    go of what the sidecar no longer confirms, rebuilds the catalogue the gateway
    routes by, publishes a health summary and raises alerts ([alerts/], [mail/]).
    An operator registers, edits, switches and approves endpoints and keeps the list
    of trusted measurements; every such call renders the sidecar's file and rebuilds
    the catalogue, and the upstream's key is sealed before it is stored ([secrets/]).
    Requests come in with an API key ([api-keys/], [api/v1/api-key.guard.ts]).  The
    gateway ([api/v1/]) resolves the model in the catalogue of the configuration
    ([catalog/]) or the external one, admits the request (credit, spend limit, four
    token buckets), forwards it, relays the answer or the stream of events in its
    rewritten form, and has [metering/] write one row, charge the key and debit the
    ledger.  Credit is bought through a payment provider, by a checkout or an
    automatic top-up ([billing/]), and every event a provider confirms is written
    to the ledger under a key of its own.
    An operator mints and watches invitations ([invites/]), carries them between
    deployments as a CSV file, and carries a whole deployment to a fresh one as one
    gzipped document that is planned before it is written ([data-migration/]).
    The router publishes the evidence of the endpoints it serves and of the external
    ones behind it ([evidence/], [external-endpoints/external-evidence.service.ts]):
    pollers fetch each host's bundle, file it once per publication and serve it
    again.  Mail goes out through one service and comes back as the provider's
    signed notifications, which keep the table of addresses that take no mail
    ([mail/]).
    The attestation library verifies the evidence a host serves and reads what a
    root certificate says about its machine.  The console runs the same checks in
    the reader's browser ([ui:]), asks the registry of signed machine measurements,
    asks the browser extension for a second opinion, keeps the composer shut
    until its own checks stand, and draws the signed deployment ([panel:]).

    ** Files, from the bottom up

    - [Prelude]: the result type, notation, tactics, hint databases and list lemmas.
    - [JsString], [JsNumber], [JsDate], [Json]: what the sources use of JavaScript
      strings (code units), number texts, dates and values of unknown shape.
    - [Money]: [billing/money.ts], [metering/pricing.ts].
    - [Store]: the tables, their indexes and the conditional one-row update, from
      [db/entities]; [Ledger]: [billing/ledger.service.ts] as functions on the
      store, and the abstract ledger it refines; [LedgerConcurrency]: [record] as a
      machine whose steps are its database round trips, and interleavings;
      [LedgerPages]: the paged listing with [common/cursor.ts].
    - [Payments]: [billing/billing.service.ts], [auto-top-up.service.ts], the three
      providers and [credits.gateway.ts], over [Ledger].
    - [ApiKeys]: [api-keys/] and the guard; [RateLimiter]: [api/v1/rate-limiter.ts]
      and [rate-limit.service.ts]; [ConfigCatalog]: [catalog/]; [OpenAiError]:
      [api/v1/openai-error.ts], the exception filter, [upstream-failure.ts] and
      [upstream-fetch.ts]; [GatewayPolicy]: [gateway-policy.service.ts],
      [routed-model.ts], [model-demand.ts].
    - [Sse], [ClientDimension], [ResponseShaping], [StreamRelay]: [api/v1/sse.ts],
      [client-dimension.ts], [response-shaping.ts] with [completions-bridge.ts] and
      [metering/token-estimator.ts], and [stream-relay.ts] as a machine over what
      arrives and which timers fire.
    - [Metering]: [metering/] and [generation-recorder.service.ts]; [Gateway]:
      [gateway.service.ts], which calls all of these, with [litellm.client.ts],
      [external-upstream.client.ts] and the two read controllers.
    - [InviteCodes], [Invites], [InviteWithdrawal]: [invites/invite-code.ts],
      [invites/invites.service.ts] with the gate and [invites/signup-grant.service.ts],
      [invites/invite-withdrawal.service.ts].
    - [InviteAdmin]: [invites/invite-admin.service.ts], [invite-generator.ts],
      [invite-stats.service.ts], [invite-attribution.service.ts]; [Csv]:
      [activity/csv.ts]; [InviteCsv]: [invites/invite-codes-csv.ts] and
      [invite-codes-transfer.service.ts].
    - [Workspaces]: [auth/workspace-provisioning.service.ts] and
      [workspace-scope.service.ts]; [SignUpRequest]: [invites/sign-up-invite.ts],
      [auth/sign-up-mail-gate.plugin.ts] and the mail callbacks of [auth/auth.options.ts];
      [SignUp]: [auth/sign-up-provisioning.service.ts], the hooks of [auth.options.ts]
      and the bootstrap token; [Analytics]: [analytics/] with the taxonomy of [libs/types]
      and the ingest.
    - [Chat], [ChatApi]: [chat/chat.service.ts] and [api/graphql/chat/chat.resolver.ts];
      [Activity], [GenerationLog]: [activity/]; [FeedbackForm], [Feedback]: [feedback/],
      a delivery also as a machine of round trips; [ConsoleApi]: [api/graphql/errors.ts]
      and the resolvers of keys, credits and invitations, over all of these.
    - [ImportPlan], [BundleSchema], [ExportBundle], [DataMigration]:
      [data-migration/import-plan.ts], the schema and then the rest of
      [export-bundle.ts], and [data-export.service.ts] with [data-import.service.ts]
      and the account calls of [auth/auth.service.ts]; [MigrationRestores]: what an
      export followed by an import does.
    - [EvidenceDigest]: [libs/types/src/evidence-digest.ts] and
      [libs/attestation/src/fingerprint.ts], with base64 written out.
    - [Der], [X509], [Attestation], [VerdictCache]: [crypto-secp256k1.ts],
      [cert-chain.ts], [jws.ts] with [verify.ts], and [cache.ts] with the entry point,
      all of [libs/attestation/src].
    - [TeeEvidence]: [libs/attestation/src/root-tee-evidence.ts], the protobuf walker,
      the report at its offsets and the key binding.
    - [StatusProjection]: [external-endpoints/status-projection.ts]; [Liveness]:
      [external-endpoint-liveness.ts], [external-endpoint-health.ts], [measurement.ts];
      [OperatorAlerts]: [alerts/operator-alerts.service.ts] over
      [mail/mail.service.ts]; [ExternalCatalog]: [external-catalog.service.ts];
      [StatusService]: [external-endpoint-status.service.ts] and one poll of its
      poller, which calls all of these.
    - [SecretEnvelope]: [secrets/]; [SidecarConfig]: [sidecar-config.ts] and its
      writer; [EndpointAdmin]: [external-endpoint-admin.service.ts] and
      [listen-port.ts] as handlers over the tables, with the specification each call
      refines; [EndpointHistory]: any sequence of its calls, polls and boots;
      [ModelDiscovery]: [external-model-discovery.service.ts] and
      [sidecar-admin.client.ts].
    - [EvidenceBundle], [Snapshots], [EvidenceService]: [evidence/evidence-digest.ts]
      with [evidence-bundle.ts], the table of snapshots with [record] as a machine of
      round trips, and [evidence.service.ts] with [evidence-poller.ts]
      and the relay of [evidence.controller.ts]; [ExternalEvidence]:
      [external-endpoints/external-evidence.service.ts].
    - [MailDelivery]: [mail/resend-webhook.ts], [mail-delivery.service.ts] and
      [mail-webhook.controller.ts]; [MailService]: [mail/mail.service.ts] with
      [mail-settings.ts], [recipient-window.ts], [email-code-throttle.ts] and the
      choice of a transport.
    - [SpVmRegistry], [EvidenceGate], [TrustTiers]: [ui:sp-vm-registry.ts],
      [ui:evidence-gate.ts], and [ui:tiers.ts] with [ui:extension-bridge.ts] and
      [ui:use-verification.ts], whose hook is a step relation; [DeploymentGraph]:
      [panel:graph-model.ts].

    ** How code is represented

    A service is a record of its state and a function per method, from state to
    state; a method that may throw answers in [result], and a database transaction
    that throws leaves its store.  What a process supplies, a clock, a random id,
    a transport, is an argument.  Libraries and platform calls are parameters:
    [X509Library], [Crypto] and [Platform] are classes with a small instance each,
    so the pipeline runs; so are AES-GCM ([Aead]), the URL parser ([UrlParser]) and
    what the page asks of its browser ([RegistryPlatform], [EvidenceGate.page]), the
    URL serialiser ([UrlPlatform]), gzip, UTF-8, JSON and SHA-256 of an upload
    ([BundlePlatform]), what zod knows of an instant and a URL ([SchemaLibrary]), X.509
    and SHA-256 for a published bundle ([EvidencePlatform]), what the database's columns
    accept of one ([SnapshotDatabase]), the HMAC and the text codecs of the webhooks
    ([WebhookPlatform]), the cursors' base64 JSON ([CursorCodec]), the parameters of a
    callback URL ([CallbackUrl]), the lookup of accounts by Better Auth ([AuthAdapter])
    and what hosts and mail, payment and analytics providers answer, with
    laws as classes of their own where a theorem needs them; the YAML serialiser,
    the collation of names, SHA-256, JSON parsing, text codecs and the Unicode case
    mapping are never defined here.  [VerifyCache] is the interface between the
    verifier and its cache, with laws the client is proved against and
    [MemoryCache] satisfies.  Amounts and times are unbounded integers with the
    safe-integer checks where the code has them; 32-bit shifts in [Der] wrap.  The
    token buckets are exact, in units of 1/60000 of a token, where the code uses
    doubles; a quotient the code rounds ([Metering.double_quotient]) is the double
    nearest to it.  A request's waiting and streaming are lists of events (text
    arrived, a timer fired, the client left), and a theorem holds for every list.
    A catalogue projection, like any transaction, is all or nothing.

    A method is one step unless its file makes it a machine of round trips
    ([LedgerConcurrency], [Snapshots], [Feedback]).  The code awaits between the
    statements of a call and of a poll, so calls that overlap can interleave inside what
    is one step in [EndpointHistory], [Chat] and the services without a transaction; the
    theorems there are about calls that follow one another.

    ** What is shown

    - The ledger: the balance column is the sum of the rows after any call, the
      service refines the abstract ledger on every branch, a repeated key cannot
      charge twice, and any interleaving of calls commits each event once and ends.
    - Invitations: a redemption is all or nothing and once per account, a seat is
      never oversold, the gate asks what the redemption will, a withdrawal kills
      exactly what it names and is undone by a restore.
    - External endpoints: a row is verified exactly on a live admitting verdict,
      rows stay well formed, polls do not flap or count twice; only confirmed
      endpoints are routable; outages are declared once per run and answered once;
      alerts are spaced and nothing suppressed goes unmentioned.
    - Endpoint administration: every call refines its specification; the keys of the
      tables stay keys and no call writes a row the renderer refuses; a failed call
      has changed nothing, or only the file is at fault; other endpoints' models are
      out of reach.  Over any history of calls, polls and boots a serving row was
      admitted under its present target, its pin is what its timeline last says, and a
      model is routed to only when an answer of the sidecar within the grace period
      named its endpoint.
      A sealed secret opens only where it was sealed; only what the sidecar reads
      makes a new file.
    - The console: the composer opens exactly when every check stands, and then the
      extension's verifier accepts the document; an open composer rests on every check
      of the endpoint last asked about, whatever answers come late, and once the effect
      of a render has run that is the endpoint on screen; a registry answer is a
      signature over that measurement; the badge never says more than was checked; the
      graph draws what the document warrants, and a green container is signed and its
      digest declared for its repository.
    - Attestation: a chain and a verdict are accepted exactly when every stage
      holds; cached verdicts are recent answers to the same question; the protobuf
      and DER readers invert their encoders and stay in bounds; the key binding and
      the policy flags are what the report's bytes say.
    - The gateway: a request is admitted in one order and a refusal costs no budget;
      only verified endpoints are routed to; what is listed is what resolves; the
      upstream gets the client's body but for two members; a stream is relayed event
      by event however the network cuts it; a failure reaches the client by the
      channel still open; a forwarded request is handed to the recorder once and leaves one
      row, but for the answer that cannot be read and the row a column refuses, is
      charged once, and the client is told its cost.  Buckets never grant over their
      limit, for keys nor for workspaces; in exact arithmetic a refusal says when to come
      back.
    - Payments: a redelivered webhook credits nothing, whatever billing did in between;
      automatic charges are spaced by the cooldown; a walk along the ledger's cursors is
      the listing.
    - Accounts: the invitation of a request survives the carrier to the mail gate, who
      is admitted redeems, the welcome names the credit that was given, a survey pays an
      account once also beside an import of its ledger.
    - The console's calls: keys answer to the members of their workspace, chats to their
      owner; errors keep what is internal inside; a discovered list shows what it names,
      within bounds; activity and the log count each generation once; analytics post the
      taxonomy and nothing else.
    - Keys: a minted secret authenticates, a revoked one is refused for ever.
    - Invitation administration: a status filter selects the status shown, freshly
      minted codes are new and their rows are what was handed out, the daily series
      counts each row once; the codes file lists every code, and reads back for the codes
      it can carry; an import writes the rows of the file, cell by cell, and touches
      nothing else.
    - Data migration: the file reads back to the bundle it was written from exactly when
      the bundle is within the schema's bounds; an import into a deployment that holds
      only its operators' accounts and rows restores every table beside them, also after
      an attempt that stopped part-way, a second import changes nothing, and every API
      key goes on working.
    - Published evidence: a publication the columns accept is filed once however replicas
      interleave,
      the state shown is the newest snapshot's, pages and windows are the table's, a
      body over the budget is never held, one failing host stops no other; what is
      relayed for an upstream is bound to the key its sidecar pinned, and a relay
      that goes stale is declared once.
    - Mail: a delivery is accepted exactly when it is signed and recent; the row of an
      address is its history of events, a repeat of the last one not counted; no address,
      in whatever case it is written, is mailed more codes an hour than the configuration
      allows, whatever the provider answers.
    - Formats: amounts, instants, codes, digests and CSV records round-trip; one
      spelling per digest.

    Some theorems record behaviour that a comment of the source does not lead one to
    expect: [Liveness.reportless_run_is_silent], [Der.tbs_length_overflows],
    [TeeEvidence.network_error_overwritten],
    [Payments.topup_settled_at_once_credits_twice],
    [Payments.partial_refunds_debit_the_running_total],
    [ApiKeys.stale_edit_restores_key], [ConfigCatalog.renaming_an_endpoint_fails_boot],
    [Metering.overlong_finish_reason_is_free], [SpVmRegistry.null_entry_rejects],
    [EvidenceGate.other_kind_opens_the_page], [InviteAdmin.operator_who_redeemed],
    [InviteCsv.withdrawn_spent_code_can_return],
    [MigrationRestores.import_can_share_a_port], [EvidenceBundle.two_paddings],
    [EvidenceService.a_tied_snapshot_is_on_no_page],
    [EvidenceService.a_returning_digest_is_one_entry],
    [MailDelivery.a_late_redelivery_counts_twice],
    [Chat.a_racing_append_returns_a_pruned_thread], [Chat.long_refusal_hides_the_cut],
    [Chat.blank_question_leaves_the_title], [Workspaces.last_resort_slug_does_not_fit],
    [SignUpRequest.a_broken_cookie_throws], [ConsoleApi.odd_cents_are_an_internal_error],
    [ConsoleApi.a_null_code_throws], [Feedback.the_second_delivery_is_refused],
    [Snapshots.an_overlong_quote_format_is_not_filed],
    [TrustTiers.a_frame_shows_the_old_verdict], and the exceptions in
    [Gateway.forwarded_requests_are_metered].

    ** Fuel

    Loops that are not structural take fuel, with a bound that is always enough:
    one turn per byte for [Der.find_point] and [TeeEvidence.fields_from] (each turn
    moves forward; [TeeEvidence.for_fields_spec] shows the answer does not depend
    on it), ten groups for a varint as in the source, one digit per bit for
    decimal and hexadecimal texts, one group per unit in
    [InviteCodes.formatInviteCode], one turn per unit in [Sse.split_loop].  The two
    attempts of [OpenAiError.postToUpstream] are the source's own bound, as are the
    five of [InviteAdmin.insertBatch].  [InviteAdmin.generate_from] takes one turn per
    code asked for, [InviteCsv.export_from] one page per code and one
    more, [ImportPlan.replace_from] one turn per unit.  A run of [Snapshots.record]
    ends within three round trips, and [EvidenceService.walk_snapshots] takes one page
    per row and one more.  A [Feedback.run_delivery] ends within six round trips;
    [GenerationLog.export_chunks] takes one chunk per row and one more,
    [Activity.starts_from] one turn per bucket of the span, and
    [SignUpRequest.decode_units] one turn per unit.  The five slugs of
    [Workspaces.try_slugs] and the four wraps of [ConsoleApi.exceptionOf] are the
    source's own bounds.

    ** What is not modelled

    The transports themselves (HTTP servers and clients, GraphQL's own execution,
    sockets and timers), which are the arguments and the event lists above; Better Auth,
    TypeORM, zod's two predicates and the other platform libraries, which are not of the
    repository; the wording of mail templates and of log lines; resolvers and controllers
    that only present rows; the console's React components; declarations of entities and
    migrations, whose columns and indexes are part of the definitions that rely on them;
    the Go sidecar, in another language, which is known by its answers; tools, test
    stands and fixtures.  Concurrent refreshes of the catalogue, and polls that overlap,
    are one step each.  Parameters a type checker rules out are not modelled as values.
*)

From stdpp Require Export base tactics option list gmap sorting.
From Stdlib Require Export ZArith Lia.

#[global] Open Scope Z_scope.

(** ** Fallible computations

    A TypeScript function that may throw is a function into [result E A], where
    [E] enumerates the errors it throws.  The bind is stdpp's [x ← m; k]. *)
Inductive result (E A : Type) : Type :=
| Ok (a : A)
| Err (e : E).
Arguments Ok {E A} a.
Arguments Err {E A} e.

#[global] Instance result_ret {E} : MRet (result E) := fun A a => Ok a.
#[global] Instance result_bind {E} : MBind (result E) :=
  fun A B f m => match m with Ok a => f a | Err e => Err e end.
#[global] Instance result_fmap {E} : FMap (result E) :=
  fun A B f m => match m with Ok a => Ok (f a) | Err e => Err e end.

Definition is_ok {E A} (r : result E A) : bool :=
  match r with Ok _ => true | Err _ => false end.

(** [if (wrong) throw err] followed by the rest of the function. *)
Definition throw_if {E} (wrong : bool) (err : E) : result E unit :=
  if wrong then Err err else Ok tt.

Declare Scope router_scope.
Delimit Scope router_scope with router.
Open Scope router_scope.

Notation "'throw' e 'when' b ; k" := (match throw_if b e with Ok _ => k | Err e' => Err e' end)
  (at level 100, b at next level, e at next level, k at level 200, right associativity,
   format "'throw'  e  'when'  b ;  '//' k") : router_scope.

Lemma bind_ok {E A B} (m : result E A) (f : A -> result E B) b :
  (m ≫= f) = Ok b <-> exists a, m = Ok a /\ f a = Ok b.
Proof.
  destruct m; cbn; split; [eauto | by intros (? & [= <-] & ?) | done | by intros (? & ? & ?)].
Qed.

Lemma throw_if_ok {E} b (e : E) u : throw_if b e = Ok u <-> b = false.
Proof. unfold throw_if; destruct b, u; split; done. Qed.

(** ** Automation *)

(** Case analysis on whatever the goal or a hypothesis matches on, keeping the
    equation and discharging the branches that contradict each other. *)
Ltac case_all :=
  repeat match goal with
  | H : Ok _ = Ok _ |- _ => injection H; clear H; intros; subst
  | H : Err _ = Err _ |- _ => injection H; clear H; intros; subst
  | H : Some _ = Some _ |- _ => injection H; clear H; intros; subst
  | H : Ok _ = Err _ |- _ => discriminate H
  | H : Err _ = Ok _ |- _ => discriminate H
  | H : Some _ = None |- _ => discriminate H
  | H : None = Some _ |- _ => discriminate H
  | H : true = false |- _ => discriminate H
  | H : false = true |- _ => discriminate H
  | H : (_, _) = (_, _) |- _ => injection H; clear H; intros; subst
  end.

Ltac inv_match :=
  repeat (case_all; match goal with
  | H : context [match ?x with _ => _ end] |- _ =>
      let E := fresh "E" in destruct x eqn:E; cbn in H; try discriminate H
  end); case_all.

Ltac split_goal_match :=
  repeat (match goal with
  | |- context [match ?x with _ => _ end] => let E := fresh "E" in destruct x eqn:E; cbn
  end; try done).

(** Boolean tests on [Z] to propositions, in every hypothesis and the goal. *)
Ltac zbool :=
  repeat match goal with
  | H : _ && _ = true |- _ => apply andb_true_iff in H as [? ?]
  | H : _ || _ = false |- _ => apply orb_false_iff in H as [? ?]
  | H : negb _ = true |- _ => apply negb_true_iff in H
  | H : negb _ = false |- _ => apply negb_false_iff in H
  | H : (_ =? _) = true |- _ => apply Z.eqb_eq in H
  | H : (_ =? _) = false |- _ => apply Z.eqb_neq in H
  | H : (_ <? _) = true |- _ => apply Z.ltb_lt in H
  | H : (_ <? _) = false |- _ => apply Z.ltb_ge in H
  | H : (_ <=? _) = true |- _ => apply Z.leb_le in H
  | H : (_ <=? _) = false |- _ => apply Z.leb_gt in H
  | H : bool_decide _ = true |- _ => apply bool_decide_eq_true in H
  | H : bool_decide _ = false |- _ => apply bool_decide_eq_false in H
  end.

(** [o !== null] *)
Definition is_some {A} (o : option A) : bool := match o with Some _ => true | None => false end.

(** ** Sums over lists *)
Definition sumZ (l : list Z) : Z := foldr Z.add 0 l.

Lemma sumZ_app l1 l2 : sumZ (l1 ++ l2) = sumZ l1 + sumZ l2.
Proof. induction l1 as [|x l1 IH]; cbn; [done|]. fold (sumZ (l1 ++ l2)); fold (sumZ l1). lia. Qed.

Lemma sumZ_nonneg l : Forall (fun x => 0 <= x) l -> 0 <= sumZ l.
Proof. induction 1; cbn; [lia|]. fold (sumZ l). lia. Qed.

Lemma sumZ_perm l l' : l ≡ₚ l' -> sumZ l = sumZ l'.
Proof. unfold sumZ. induction 1 as [|x l l' _ IH|x y l|l1 l2 l3 _ IH1 _ IH2]; cbn; [done|lia|lia|congruence]. Qed.

(** ** [Array.prototype.find] and friends *)
Definition find_first {A} (p : A -> bool) (l : list A) : option A := List.find p l.

Lemma find_first_app {A} (p : A -> bool) l1 l2 :
  find_first p (l1 ++ l2) = match find_first p l1 with Some x => Some x | None => find_first p l2 end.
Proof. induction l1 as [|x l1 IH]; cbn; [done|]. destruct (p x); [done|]. apply IH. Qed.

Lemma find_first_some {A} (p : A -> bool) l x :
  find_first p l = Some x -> x ∈ l /\ p x = true.
Proof. intros [H1 H2]%List.find_some. split; [by apply list_elem_of_In|done]. Qed.

Lemma find_first_none {A} (p : A -> bool) l :
  find_first p l = None <-> forall x, x ∈ l -> p x = false.
Proof.
  split.
  - intros H x Hx%list_elem_of_In. by eapply List.find_none.
  - induction l as [|y l IH]; intros H; [done|]. cbn.
    rewrite (H y) by set_solver. apply IH. set_solver.
Qed.

(** ** Lists without duplicates *)
Lemma nodup_map_inj {A B} (f : A -> B) l x y :
  NoDup (map f l) -> x ∈ l -> y ∈ l -> f x = f y -> x = y.
Proof.
  induction l as [|z l IH]; cbn; [set_solver|].
  intros [Hz Hl]%NoDup_cons [->|Hx]%elem_of_cons [->|Hy]%elem_of_cons Hf; [done| | |by apply IH].
  - destruct Hz. rewrite Hf. by apply list_elem_of_fmap_2.
  - destruct Hz. rewrite <- Hf. by apply list_elem_of_fmap_2.
Qed.

(** A list whose keys do not decrease. *)
Lemma sorted_map_strong {A} (f : A -> Z) l :
  Sorted Z.le (map f l) -> StronglySorted (fun a b => f a <= f b) l.
Proof.
  intros Hs. apply Sorted_StronglySorted in Hs; [|exact Z.le_trans]. revert Hs.
  induction l as [|x l IH]; [constructor|]. intros Hs. cbn [map] in Hs.
  apply StronglySorted_inv in Hs as [Hs Hall]. constructor; [by apply IH|].
  apply Forall_forall. intros y Hy. apply (proj1 (Forall_forall _ _) Hall (f y)). by apply list_elem_of_fmap_2.
Qed.

Lemma filter_all {A} (p : A -> bool) l : Forall (fun x => p x = true) l -> List.filter p l = l.
Proof. induction 1 as [|x l Hx _ IH]; cbn; [done|]. by rewrite Hx, IH. Qed.

Lemma filter_nothing {A} (p : A -> bool) l : Forall (fun x => p x = false) l -> List.filter p l = [].
Proof. induction 1 as [|x l Hx _ IH]; cbn; [done|]. by rewrite Hx. Qed.

Lemma filter_andb {A} (p q : A -> bool) l : List.filter (fun x => p x && q x) l = List.filter q (List.filter p l).
Proof. induction l as [|x l IH]; cbn; [done|]. destruct (p x); cbn; [|done]. by rewrite IH. Qed.

Lemma elem_of_filter_b {A} (p : A -> bool) l x : x ∈ List.filter p l <-> x ∈ l /\ p x = true.
Proof. by rewrite !list_elem_of_In, filter_In. Qed.

Lemma filter_comm {A} (p q : A -> bool) l : List.filter p (List.filter q l) = List.filter q (List.filter p l).
Proof. rewrite <- !filter_andb. apply filter_ext. intros a. apply andb_comm. Qed.

#[global] Instance filter_perm {A} (p : A -> bool) : Proper ((≡ₚ) ==> (≡ₚ)) (List.filter p).
Proof.
  induction 1 as [|x l l' _ IH|x y l|l l' l'' _ IH1 _ IH2]; cbn in *.
  - done.
  - destruct (p x); by rewrite ?IH.
  - destruct (p x), (p y); by first [reflexivity | constructor].
  - by etrans.
Qed.

Lemma filter_sublist {A} (p : A -> bool) l : sublist (List.filter p l) l.
Proof. induction l as [|x l IH]; cbn; [constructor|]. destruct (p x); by constructor. Qed.

Lemma map_sublist {A B} (f : A -> B) l l' : sublist l l' -> sublist (map f l) (map f l').
Proof. induction 1; cbn; by constructor. Qed.

Lemma sublist_NoDup {A} (l l' : list A) : sublist l l' -> NoDup l' -> NoDup l.
Proof. intros H Hl. by eapply sublist_NoDup. Qed.

(** An element exchanged for one that counts for less. *)
Lemma sum_list_insert_lt {A} (f : A -> nat) ws i w w' :
  ws !! i = Some w -> (f w' < f w)%nat -> (sum_list (map f (<[i := w']> ws)) < sum_list (map f ws))%nat.
Proof.
  revert i; induction ws as [|x ws IH]; intros [|i] Hi Hf; cbn in *; simplify_eq; [lia|].
  specialize (IH i Hi Hf).
  change (f x + sum_list (map f (<[i := w']> ws)) < f x + sum_list (map f ws))%nat. lia.
Qed.

(** ** [Array.prototype.sort], a stable sort: [before a b] is a negative comparison *)
Fixpoint insert_by {A} (before : A -> A -> bool) (x : A) (l : list A) : list A :=
  match l with
  | [] => [x]
  | y :: r => if before y x then y :: insert_by before x r else x :: y :: r
  end.

Definition sort_by {A} (before : A -> A -> bool) (l : list A) : list A := foldr (insert_by before) [] l.

Lemma insert_by_perm {A} (before : A -> A -> bool) x l : insert_by before x l ≡ₚ x :: l.
Proof. induction l as [|y l IH]; cbn; [done|]. destruct (before y x); [|done]. rewrite IH. constructor. Qed.

Lemma sort_by_perm {A} (before : A -> A -> bool) l : sort_by before l ≡ₚ l.
Proof. induction l as [|x l IH]; cbn; [done|]. rewrite insert_by_perm. by constructor. Qed.

Lemma sort_by_sorted {A} (before : A -> A -> bool) l :
  (forall a b, before a b = false \/ before b a = false) ->
  (forall a b c, before b a = false -> before c b = false -> before c a = false) ->
  StronglySorted (fun a b => before b a = false) (sort_by before l).
Proof.
  intros Hasym Htrans. induction l as [|x l IH]; cbn; [constructor|]. fold (sort_by before l).
  induction IH as [|y r Hr IHr Hy]; cbn; [repeat constructor|].
  destruct (before y x) eqn:E.
  - constructor; [done|]. rewrite insert_by_perm. constructor; [|done]. destruct (Hasym y x); congruence.
  - constructor; [by constructor|]. constructor; [done|]. eapply Forall_impl; [exact Hy|]. cbn. eauto.
Qed.

Lemma StronglySorted_weaken {A} (R S : A -> A -> Prop) l : (forall a b, R a b -> S a b) -> StronglySorted R l -> StronglySorted S l.
Proof. intros H. induction 1; constructor; [done|]. eapply Forall_impl; [done|auto]. Qed.

Lemma nodup_sorted {A B} (key : A -> B) before l : NoDup (map key l) -> NoDup (map key (sort_by before l)).
Proof. by rewrite sort_by_perm. Qed.

Lemma nodup_filter {A B} (key : A -> B) p l : NoDup (map key l) -> NoDup (map key (List.filter p l)).
Proof. apply sublist_NoDup, map_sublist, filter_sublist. Qed.

(** A stable sort of a selection, and of a list with a last row. *)

Section Sorting.
Context {A : Type} (before : A -> A -> bool).
Context (Hasym : forall a b, before a b = false \/ before b a = false).
Context (Htrans : forall a b c, before b a = false -> before c b = false -> before c a = false).

Lemma insert_by_first x l : (forall y, y ∈ l -> before y x = false) -> insert_by before x l = x :: l.
Proof. destruct l as [|y l]; [done|]. intros H. cbn. by rewrite (H y) by left. Qed.

Lemma filter_insert p x l : StronglySorted (fun a b => before b a = false) l ->
  List.filter p (insert_by before x l) = if p x then insert_by before x (List.filter p l) else List.filter p l.
Proof.
  induction 1 as [|y l Hl IH Hy]; [cbn; by destruct (p x)|]. cbn [insert_by]. destruct (before y x) eqn:E.
  - cbn [List.filter]. rewrite IH. destruct (p x), (p y); cbn; by rewrite ?E.
  - cbn [List.filter]. destruct (p x) eqn:Ex; [|done]. destruct (p y) eqn:Ey; [cbn; by rewrite E|].
    symmetry. apply insert_by_first. intros z [Hz%list_elem_of_In _]%list_elem_of_In%List.filter_In.
    rewrite Forall_forall in Hy. by eapply Htrans, Hy.
Qed.

Lemma sort_by_filter p l : sort_by before (List.filter p l) = List.filter p (sort_by before l).
Proof.
  induction l as [|x l IH]; [done|]. cbn [sort_by foldr List.filter]. fold (sort_by before l).
  rewrite filter_insert by by apply sort_by_sorted. rewrite <- IH. by destruct (p x).
Qed.

(** Nothing comes after a last row: it is read last. *)
Lemma sort_by_snoc l x : (forall y, y ∈ l -> before x y = false) -> sort_by before (l ++ [x]) = sort_by before l ++ [x].
Proof.
  induction l as [|y l IH]; intros H; [done|]. cbn [app sort_by foldr]. fold (sort_by before (l ++ [x])) (sort_by before l).
  rewrite IH by (intros z Hz; apply H; by right). clear IH.
  assert (Hy : before x y = false) by (apply H; by left). induction (sort_by before l) as [|z r IH]; cbn; [by rewrite Hy|].
  destruct (before z y); [by rewrite IH|done].
Qed.
End Sorting.

(** ** Hint database of the development *)
Create HintDb router.
Create Rewrite HintDb router.
#[export] Hint Rewrite @sumZ_app @find_first_app : router.
