(* ===== verification/JsString.v ===== *)
(** * JavaScript strings

    A JavaScript string is a sequence of UTF-16 code units; [length], [slice],
    [indexOf] and [===] all work on the units.  [jstr] is that sequence, and a
    literal in [js_scope] is decoded from UTF-8, so a character outside ASCII
    counts the units the engine counts.  The operations below are the ones the
    modelled sources call. *)

From S2P Require Import Prelude.
From Stdlib Require Import NArith Strings.Byte.

Inductive jstr : Type := Js (units : list N).

Definition units (s : jstr) : list N := let 'Js u := s in u.

(** ** Literals *)

(** UTF-8 bytes to UTF-16 units; [n] continuation bytes of [acc] are pending. *)
Fixpoint utf16_of_utf8 (acc : N) (pending : nat) (bs : list byte) : list N :=
  let emit c := if (c <? 65536)%N then [c]
                else [(55296 + (c - 65536) / 1024)%N; (56320 + (c - 65536) mod 1024)%N] in
  match bs with
  | [] => []
  | b :: bs =>
      let n := Byte.to_N b in
      match pending with
      | O => if (n <? 128)%N then n :: utf16_of_utf8 0 0 bs
             else if (n <? 224)%N then utf16_of_utf8 (n - 192)%N 1 bs
             else if (n <? 240)%N then utf16_of_utf8 (n - 224)%N 2 bs
             else utf16_of_utf8 (n - 240)%N 3 bs
      | S O => emit (acc * 64 + (n - 128))%N ++ utf16_of_utf8 0 0 bs
      | S p => utf16_of_utf8 (acc * 64 + (n - 128))%N p bs
      end
  end.

Definition jstr_parse (bs : list byte) : jstr := Js (utf16_of_utf8 0 0 bs).

Fixpoint ascii_bytes (u : list N) : option (list byte) :=
  match u with
  | [] => Some []
  | c :: u =>
      if (c <? 128)%N
      then match Byte.of_N c, ascii_bytes u with Some b, Some bs => Some (b :: bs) | _, _ => None end
      else None
  end.

Definition jstr_print (s : jstr) : option (list byte) := ascii_bytes (units s).

Declare Scope js_scope.
Delimit Scope js_scope with js.
Bind Scope js_scope with jstr.
String Notation jstr jstr_parse jstr_print : js_scope.
#[global] Open Scope js_scope.

#[global] Instance jstr_eq_dec : EqDecision jstr.
Proof. solve_decision. Defined.

#[global] Instance jstr_countable : Countable jstr :=
  inj_countable' units Js (fun s => match s with Js _ => eq_refl end).

#[global] Instance jstr_inhabited : Inhabited jstr := populate (Js []).

Definition jeqb (a b : jstr) : bool := bool_decide (a = b).

Lemma jeqb_eq a b : jeqb a b = true <-> a = b.
Proof. apply bool_decide_eq_true. Qed.

Lemma jeqb_neq a b : jeqb a b = false <-> a <> b.
Proof. apply bool_decide_eq_false. Qed.

Lemma jeqb_refl a : jeqb a a = true.
Proof. by apply jeqb_eq. Qed.

Lemma jeqb_sym a b : jeqb a b = jeqb b a.
Proof. unfold jeqb. by apply bool_decide_ext. Qed.

(** ** Operations *)

Definition jlength (s : jstr) : Z := Z.of_nat (length (units s)).

Definition japp (a b : jstr) : jstr := Js (units a ++ units b).
Infix "+++" := japp (at level 60, right associativity) : js_scope.

Lemma japp_assoc a b c : japp a (japp b c) = japp (japp a b) c.
Proof. unfold japp; cbn. by rewrite app_assoc. Qed.

Lemma jlength_app a b : jlength (japp a b) = jlength a + jlength b.
Proof. unfold jlength; cbn. rewrite length_app. lia. Qed.

Lemma jlength_nonneg s : 0 <= jlength s.
Proof. unfold jlength. lia. Qed.

Lemma japp_inj_l a b c : japp a b = japp a c -> b = c.
Proof. destruct b, c; unfold japp; cbn. by intros [= ->%app_inv_head]. Qed.

Lemma japp_inj_r a b c : japp a c = japp b c -> a = b.
Proof. destruct a, b; unfold japp; cbn. by intros [= ->%app_inv_tail]. Qed.

(** [s.slice(0, n)] and [s.slice(n)] for [n >= 0]. *)
Definition jtake (n : Z) (s : jstr) : jstr := Js (take (Z.to_nat n) (units s)).
Definition jdrop (n : Z) (s : jstr) : jstr := Js (drop (Z.to_nat n) (units s)).

(** [s.slice(i, j)] for [0 <= i <= j]. *)
Definition jslice (i j : Z) (s : jstr) : jstr := jtake (j - i) (jdrop i s).

Definition jrepeat (c : N) (n : Z) : jstr := Js (replicate (Z.to_nat n) c).

(** [padStart] and [padEnd] with a one-unit filler. *)
Definition jpadStart (s : jstr) (n : Z) (c : N) : jstr := japp (jrepeat c (n - jlength s)) s.
Definition jpadEnd (s : jstr) (n : Z) (c : N) : jstr := japp s (jrepeat c (n - jlength s)).

Fixpoint prefixb (p s : list N) : bool :=
  match p, s with
  | [], _ => true
  | c :: p, d :: s => (c =? d)%N && prefixb p s
  | _ :: _, [] => false
  end.

Definition jstartsWith (s p : jstr) : bool := prefixb (units p) (units s).

Definition jendsWith (s p : jstr) : bool := prefixb (reverse (units p)) (reverse (units s)).

Lemma prefixb_spec p s : prefixb p s = true <-> exists r, s = p ++ r.
Proof.
  revert s; induction p as [|c p IH]; intros s; cbn.
  - split; [by exists s | done].
  - destruct s as [|d s]; [split; [done | by intros [r ?]]|].
    rewrite andb_true_iff, N.eqb_eq, IH.
    split; [intros [-> [r ->]]; by exists r | intros [r [= -> ->]]; eauto].
Qed.

(** [s.indexOf(p)]; [None] for [-1]. *)
Fixpoint index_of (p s : list N) : option nat :=
  if prefixb p s then Some O
  else match s with
       | [] => None
       | _ :: s => match index_of p s with Some i => Some (S i) | None => None end
       end.

Definition jincludes (s p : jstr) : bool :=
  match index_of (units p) (units s) with Some _ => true | None => false end.

(** [s.split(c)] for a one-unit separator, and [l.join(sep)]. *)
Fixpoint split_on (c : N) (s : list N) : list (list N) :=
  match s with
  | [] => [[]]
  | d :: s =>
      let r := split_on c s in
      if (d =? c)%N then [] :: r
      else match r with [] => [[d]] | h :: t => (d :: h) :: t end
  end.

Definition jsplit (c : N) (s : jstr) : list jstr := map Js (split_on c (units s)).

Fixpoint jjoin (sep : jstr) (l : list jstr) : jstr :=
  match l with
  | [] => Js []
  | [s] => s
  | s :: l => japp s (japp sep (jjoin sep l))
  end.

(** ** Character classes *)

Definition is_digit (c : N) : bool := (48 <=? c)%N && (c <=? 57)%N.
Definition is_lower (c : N) : bool := (97 <=? c)%N && (c <=? 122)%N.
Definition is_upper (c : N) : bool := (65 <=? c)%N && (c <=? 90)%N.

(** The ECMAScript [WhiteSpace] and [LineTerminator] units: [\s], and what
    [trim] removes. *)
Definition is_space (c : N) : bool :=
  ((9 <=? c) && (c <=? 13) || (c =? 32) || (c =? 160) || (c =? 5760)
   || (8192 <=? c) && (c <=? 8202) || (c =? 8232) || (c =? 8233) || (c =? 8239)
   || (c =? 8287) || (c =? 12288) || (c =? 65279))%N.

Fixpoint drop_while (p : N -> bool) (s : list N) : list N :=
  match s with
  | [] => []
  | c :: r => if p c then drop_while p r else s
  end.

Definition trim_units (u : list N) : list N :=
  reverse (drop_while is_space (reverse (drop_while is_space u))).

Definition jtrim (s : jstr) : jstr := Js (trim_units (units s)).

(** [replace(/^p+|p+$/g, '')] *)
Definition strip_ends (p : N -> bool) (u : list N) : list N := reverse (drop_while p (reverse (drop_while p u))).

(** [replace(/p+/g, c)], [inside] a run already replaced. *)
Fixpoint replace_runs (p : N -> bool) (c : N) (inside : bool) (u : list N) : list N :=
  match u with
  | [] => []
  | d :: u => if negb (p d) then d :: replace_runs p c false u
              else if inside then replace_runs p c true u else c :: replace_runs p c true u
  end.

(** [replace(/\/+$/, '')] *)
Definition without_trailing_slashes (s : jstr) : jstr := Js (reverse (drop_while (fun c => c =? 47)%N (reverse (units s)))).

(** [value ? ... : null] and [if (!value)]: null and the empty string are absent. *)
Definition present (s : option jstr) : option jstr :=
  match s with Some t => if jlength t =? 0 then None else Some t | None => None end.

(** What [/c+$/] takes off, read from the other end. *)
Lemma drop_while_run p c u : (forall d, p d = true -> d = c) -> exists k, u = replicate k c ++ drop_while p u.
Proof.
  intros Hp. induction u as [|d u [k IH]]; [by exists 0%nat|]. cbn [drop_while]. destruct (p d) eqn:E; [|by exists 0%nat].
  rewrite (Hp d E). exists (S k). cbn. by rewrite <- IH.
Qed.

Lemma replace_runs_all (P : N -> Prop) p c inside u :
  (forall d, p d = false -> P d) -> P c -> Forall P (replace_runs p c inside u).
Proof.
  intros Hp Hc. revert inside. induction u as [|d u IH]; intros inside; cbn [replace_runs]; [constructor|].
  destruct (p d) eqn:E; cbn [negb]; [destruct inside; [apply IH|by constructor]|constructor; [by apply Hp|apply IH]].
Qed.

Lemma drop_while_all (P : N -> Prop) p u : Forall P u -> Forall P (drop_while p u).
Proof. induction 1 as [|c u Hc Hu IH]; cbn; [constructor|]. destruct (p c); [done|by constructor]. Qed.

Lemma strip_ends_all (P : N -> Prop) p u : Forall P u -> Forall P (strip_ends p u).
Proof. intros H. unfold strip_ends. by apply Forall_reverse, drop_while_all, Forall_reverse, drop_while_all. Qed.

Lemma drop_while_id p u : forallb (fun c => negb (p c)) u = true -> drop_while p u = u.
Proof. destruct u as [|c u]; cbn; [done|]. by destruct (p c). Qed.

Lemma trim_units_id u : forallb (fun c => negb (is_space c)) u = true -> trim_units u = u.
Proof.
  intros H. unfold trim_units. rewrite (drop_while_id _ u H), drop_while_id; [apply reverse_involutive|].
  rewrite forallb_forall in *. intros c Hc. apply H.
  rewrite <- list_elem_of_In in *. by rewrite elem_of_reverse in Hc.
Qed.

(** ASCII case mapping. *)
Definition lower_unit (c : N) : N := if is_upper c then (c + 32)%N else c.
Definition upper_unit (c : N) : N := if is_lower c then (c - 32)%N else c.

(** ** [String(n)] and [Number(digits)] *)

(** The decimal digits of [n]; [fuel] bounds their number. *)
Fixpoint digits_fuel (fuel : nat) (n : N) : list N :=
  match fuel with
  | O => []
  | S fuel =>
      if (n <? 10)%N then [(48 + n)%N]
      else digits_fuel fuel (n / 10)%N ++ [(48 + n mod 10)%N]
  end.

(** One digit per bit is enough. *)
Definition digits_of (n : N) : list N := digits_fuel (N.to_nat (N.size n) + 1) n.

(** The value of a digit string. *)
Definition value_of (u : list N) : Z :=
  foldl (fun acc c => acc * 10 + (Z.of_N c - 48)) 0 u.

(** [String(z)] for an integer below [1e21], where no exponent is printed. *)
Definition jstring_of_Z (z : Z) : jstr :=
  if z <? 0 then Js (45%N :: digits_of (Z.to_N (- z))) else Js (digits_of (Z.to_N z)).

Lemma value_of_snoc u c : value_of (u ++ [c]) = value_of u * 10 + (Z.of_N c - 48).
Proof. unfold value_of. by rewrite foldl_app. Qed.

Lemma value_of_zeros k u : value_of (replicate k 48%N ++ u) = value_of u.
Proof. induction k as [|k IH]; [done|]. exact IH. Qed.

Lemma value_of_zeros_r u k : value_of (u ++ replicate k 48%N) = value_of u * 10 ^ Z.of_nat k.
Proof.
  revert u; induction k as [|k IH]; intros u; cbn [replicate].
  - rewrite app_nil_r. change (10 ^ Z.of_nat 0) with 1. lia.
  - change (48%N :: replicate k 48%N) with ([48%N] ++ replicate k 48%N).
    rewrite app_assoc, IH, value_of_snoc, Nat2Z.inj_succ, Z.pow_succ_r by lia. lia.
Qed.

Lemma digits_fuel_value fuel n : (n < 2 ^ N.of_nat fuel)%N -> (0 < fuel)%nat ->
  value_of (digits_fuel fuel n) = Z.of_N n.
Proof.
  revert n; induction fuel as [|fuel IH]; intros n Hn Hf; [lia|].
  cbn [digits_fuel]. destruct (N.ltb_spec n 10) as [H|H].
  - unfold value_of; cbn. lia.
  - pose proof (N.Div0.div_mod n 10) as Hd. pose proof (N.mod_lt n 10 ltac:(done)) as Hm.
    rewrite Nat2N.inj_succ, N.pow_succ_r' in Hn.
    rewrite value_of_snoc, IH; [lia| |].
    + apply N.Div0.div_lt_upper_bound; lia.
    + destruct fuel; [cbn in Hn; lia | lia].
Qed.

Lemma digits_of_value n : value_of (digits_of n) = Z.of_N n.
Proof.
  apply digits_fuel_value; [|lia].
  rewrite Nat2N.inj_add, N2Nat.id.
  eapply N.lt_le_trans; [apply N.size_gt|].
  apply N.pow_le_mono_r; lia.
Qed.

Lemma digits_fuel_digit fuel n : forallb is_digit (digits_fuel fuel n) = true.
Proof.
  revert n; induction fuel as [|fuel IH]; intros n; cbn [digits_fuel]; [done|].
  destruct (N.ltb_spec n 10) as [H|H].
  - cbn [forallb]. unfold is_digit. rewrite andb_true_r, andb_true_iff, !N.leb_le. lia.
  - rewrite forallb_app, IH. cbn [forallb andb]. pose proof (N.mod_lt n 10 ltac:(done)).
    generalize dependent (n mod 10)%N; intros m Hm.
    unfold is_digit. rewrite andb_true_r, andb_true_iff, !N.leb_le. lia.
Qed.

Lemma digits_of_digit n : forallb is_digit (digits_of n) = true.
Proof. apply digits_fuel_digit. Qed.

Lemma digits_of_nonempty n : digits_of n <> [].
Proof.
  unfold digits_of. rewrite Nat.add_comm. cbn. case_match; [done|]. by destruct (digits_fuel _ _).
Qed.

Lemma digits_fuel_length fuel n k : (n < 10 ^ N.of_nat k)%N -> (0 < k)%nat ->
  (length (digits_fuel fuel n) <= k)%nat.
Proof.
  revert fuel n; induction k as [|k IH]; intros fuel n Hn Hk; [lia|].
  destruct fuel as [|fuel]; cbn [digits_fuel]; [cbn; lia|].
  destruct (N.ltb_spec n 10) as [H|H]; [cbn; lia|].
  rewrite Nat2N.inj_succ, N.pow_succ_r' in Hn.
  rewrite length_app; cbn. enough (length (digits_fuel fuel (n / 10)) <= k)%nat by lia.
  destruct k as [|k]; [cbn in Hn; lia|].
  apply IH; [|lia]. apply N.Div0.div_lt_upper_bound; lia.
Qed.

Lemma digits_of_length n k : (n < 10 ^ N.of_nat k)%N -> (0 < k)%nat -> (length (digits_of n) <= k)%nat.
Proof. apply digits_fuel_length. Qed.

(** A digit is neither a blank nor a sign nor a point. *)
Lemma jstring_of_Z_inj z z' : jstring_of_Z z = jstring_of_Z z' -> z = z'.
Proof.
  assert (Hd : forall n m, digits_of n = 45%N :: digits_of m -> False).
  { intros n m H. pose proof (digits_of_digit n) as D. by rewrite H in D. }
  unfold jstring_of_Z. destruct (Z.ltb_spec z 0), (Z.ltb_spec z' 0); intros [= E].
  - apply (f_equal value_of) in E. rewrite !digits_of_value in E. lia.
  - by destruct (Hd (Z.to_N z') (Z.to_N (- z))).
  - by destruct (Hd (Z.to_N z) (Z.to_N (- z'))).
  - apply (f_equal value_of) in E. rewrite !digits_of_value in E. lia.
Qed.

Lemma digit_not_space c : is_digit c = true -> is_space c = false.
Proof.
  unfold is_digit. rewrite andb_true_iff, !N.leb_le. intros [H1 H2].
  unfold is_space.
  repeat match goal with
  | |- context [(?a <=? ?b)%N] => destruct (N.leb_spec a b); try lia
  | |- context [(?a =? ?b)%N] => destruct (N.eqb_spec a b); try lia
  end; done.
Qed.

Lemma forallb_impl {A} (p q : A -> bool) l :
  (forall x, p x = true -> q x = true) -> forallb p l = true -> forallb q l = true.
Proof. rewrite !forallb_forall. eauto. Qed.

Lemma digits_of_trim n : trim_units (digits_of n) = digits_of n.
Proof.
  apply trim_units_id. eapply forallb_impl; [|apply digits_of_digit].
  intros c Hc. by rewrite digit_not_space.
Qed.

#[export] Hint Resolve digits_of_digit digits_of_nonempty : router.
#[export] Hint Rewrite jlength_app value_of_snoc digits_of_value digits_of_trim : router.

(** ** Ordering

    [a < b] on strings compares the code units lexicographically; it is also the
    order a database sorts identifiers in under a binary collation. *)

Fixpoint units_ltb (a b : list N) : bool :=
  match a, b with
  | [], [] => false
  | [], _ :: _ => true
  | _ :: _, [] => false
  | x :: a, y :: b => (x <? y)%N || (x =? y)%N && units_ltb a b
  end.

Definition jltb (a b : jstr) : bool := units_ltb (units a) (units b).

Lemma units_ltb_irrefl a : units_ltb a a = false.
Proof. induction a as [|x a IH]; cbn; [done|]. rewrite N.ltb_irrefl, N.eqb_refl. exact IH. Qed.

Lemma units_ltb_trans a b c : units_ltb a b = true -> units_ltb b c = true -> units_ltb a c = true.
Proof.
  revert b c; induction a as [|x a IH]; intros [|y b] [|z c]; cbn; try done.
  rewrite !orb_true_iff, !andb_true_iff, !N.ltb_lt, !N.eqb_eq.
  intros [H1|[-> H1]] [H2|[-> H2]]; [left; lia | left; lia | left; lia | right; eauto].
Qed.

Lemma units_ltb_total a b : units_ltb a b = false -> units_ltb b a = false -> a = b.
Proof.
  revert b; induction a as [|x a IH]; intros [|y b]; cbn; try done.
  rewrite !orb_false_iff, !andb_false_iff, !N.ltb_ge, !N.eqb_neq.
  intros [H1 H1'] [H2 H2']. assert (x = y) as -> by lia.
  f_equal. destruct H1', H2'; try done. by apply IH.
Qed.

Lemma jltb_total a b : jltb a b = false -> jltb b a = false -> a = b.
Proof. destruct a, b; unfold jltb; cbn. intros H1 H2. f_equal. by apply units_ltb_total. Qed.

Lemma jltb_irrefl a : jltb a a = false.
Proof. apply units_ltb_irrefl. Qed.

Lemma jltb_trans a b c : jltb a b = true -> jltb b c = true -> jltb a c = true.
Proof. apply units_ltb_trans. Qed.

#[export] Hint Resolve jltb_irrefl jltb_trans : router.

(** ** Lower-case hexadecimal *)

Definition is_hex (c : N) : bool := is_digit c || (97 <=? c)%N && (c <=? 102)%N.

Lemma is_hex_ascii c : is_hex c = true -> (c < 128)%N /\ lower_unit c = c /\ is_space c = false.
Proof.
  unfold is_hex. rewrite orb_true_iff. intros [H|H].
  - pose proof (digit_not_space c H). unfold is_digit in H. apply andb_true_iff in H as [H1 H2].
    apply N.leb_le in H1, H2. split_and!; [lia| |done]. unfold lower_unit, is_upper.
    destruct (N.leb_spec 65 c); [lia|done].
  - apply andb_true_iff in H as [H1 H2]. apply N.leb_le in H1, H2. split_and!; [lia| |].
    + unfold lower_unit, is_upper. destruct (N.leb_spec 65 c), (N.leb_spec c 90); cbn; lia.
    + unfold is_space. repeat match goal with
        | |- context [(?a <=? ?b)%N] => destruct (N.leb_spec a b); try lia
        | |- context [(?a =? ?b)%N] => destruct (N.eqb_spec a b); try lia
        end; done.
Qed.

Lemma map_lower_hex u : forallb is_hex u = true -> map lower_unit u = u.
Proof.
  induction u as [|c u IH]; cbn; [done|]. rewrite andb_true_iff. intros [Hc Hu].
  destruct (is_hex_ascii c Hc) as (_ & -> & _). by rewrite IH.
Qed.

Lemma jtrim_hex s : forallb is_hex (units s) = true -> jtrim s = s.
Proof.
  intros H. unfold jtrim. rewrite trim_units_id; [by destruct s|].
  eapply forallb_impl; [|exact H]. intros c Hc. destruct (is_hex_ascii c Hc) as (_ & _ & ->). done.
Qed.

(** ** Rows found by a unique string key *)
Lemma find_key {A} (key : A -> jstr) l id x : NoDup (map key l) ->
  find_first (fun y => jeqb (key y) id) l = Some x <-> x ∈ l /\ key x = id.
Proof.
  intros Hnd. split.
  - intros [Hx Hk%jeqb_eq]%find_first_some. done.
  - intros [Hx <-]. destruct (find_first _ l) as [y|] eqn:E.
    + apply find_first_some in E as [Hy Hk%jeqb_eq]. f_equal. by apply (nodup_map_inj key l).
    + apply (proj1 (find_first_none _ _)) with (x := x) in E; [|done]. by rewrite jeqb_refl in E.
Qed.

Lemma find_key_none {A} (key : A -> jstr) l id :
  find_first (fun y => jeqb (key y) id) l = None <-> id ∉ map key l.
Proof.
  rewrite find_first_none. split.
  - intros H (x & -> & Hx)%list_elem_of_fmap. specialize (H x Hx). by rewrite jeqb_refl in H.
  - intros H x Hx. apply jeqb_neq. intros <-. apply H. by apply list_elem_of_fmap_2.
Qed.

(** [[...new Set(l)]]: the first of each. *)
Fixpoint distinct (seen : list jstr) (l : list jstr) : list jstr :=
  match l with
  | [] => []
  | x :: l => if existsb (jeqb x) seen then distinct seen l else x :: distinct (x :: seen) l
  end.

Lemma distinct_spec seen l :
  NoDup (distinct seen l) /\ forall x, x ∈ distinct seen l <-> x ∈ l /\ x ∉ seen.
Proof.
  revert seen; induction l as [|y l IH]; intros seen; cbn; [split; [constructor|set_solver]|].
  destruct (existsb (jeqb y) seen) eqn:E.
  - apply existsb_exists in E as (z & Hz%list_elem_of_In & <-%jeqb_eq). destruct (IH seen) as [H1 H2].
    split; [done|]. intros x. rewrite H2, elem_of_cons. split; [naive_solver|]. intros [[->|?] ?]; naive_solver.
  - assert (Hy : y ∉ seen).
    { intros Hy. apply not_true_iff_false in E. apply E, existsb_exists. exists y.
      split; [by apply list_elem_of_In|apply jeqb_refl]. }
    destruct (IH (y :: seen)) as [H1 H2]. split.
    + constructor; [|done]. rewrite H2. set_solver.
    + intros x. rewrite elem_of_cons, H2, elem_of_cons, elem_of_cons. split; [set_solver|].
      intros [[->|Hx] Hs]; [by left|]. destruct (decide (x = y)) as [->|Hne]; [by left|right]. set_solver.
Qed.

(** [new Set(l).has(v)], and [v IN (l)]. *)
Definition listed (v : jstr) (l : list jstr) : bool := existsb (fun x => jeqb x v) l.

Lemma listed_iff v l : listed v l = true <-> v ∈ l.
Proof.
  unfold listed. rewrite existsb_exists. split.
  - intros (x & Hx%list_elem_of_In & ->%jeqb_eq). done.
  - intros H. exists v. split; [by apply list_elem_of_In|apply jeqb_refl].
Qed.

Lemma listed_false ids id : listed id ids = false <-> id ∉ ids.
Proof. rewrite <- listed_iff. by destruct (listed id ids). Qed.

Section Parted.
Context {A : Type} (key : A -> jstr).

Lemma filter_unlisted ids l : (forall x, x ∈ l -> key x ∉ ids) -> List.filter (fun x => negb (listed (key x) ids)) l = l.
Proof. intros H. apply filter_all, Forall_forall. intros x Hx. by apply negb_true_iff, listed_false, H. Qed.

Lemma filter_listed ids l : (forall x, x ∈ l -> key x ∈ ids) -> List.filter (fun x => negb (listed (key x) ids)) l = [].
Proof. intros H. apply filter_nothing, Forall_forall. intros x Hx. by apply negb_false_iff, listed_iff, H. Qed.

Lemma filter_out l1 l2 : NoDup (map key (l1 ++ l2)) ->
  List.filter (fun x => negb (listed (key x) (map key l1))) (l1 ++ l2) = l2 /\
  List.filter (fun x => negb (listed (key x) (map key l2))) (l1 ++ l2) = l1.
Proof.
  rewrite map_app. intros (_ & Hd & _)%NoDup_app. rewrite !List.filter_app.
  rewrite (filter_listed (map key l1) l1), (filter_listed (map key l2) l2) by (intros; by apply list_elem_of_fmap_2).
  rewrite app_nil_r. split; apply filter_unlisted; intros x Hx Hk; [eapply Hd; [exact Hk|by apply list_elem_of_fmap_2]|].
  eapply Hd; [by apply list_elem_of_fmap_2|exact Hk].
Qed.

Lemma filter_taken n l : NoDup (map key l) -> List.filter (fun x => negb (listed (key x) (map key (take n l)))) l = drop n l.
Proof. intros H. rewrite <- (take_drop n l) in H. destruct (filter_out _ _ H) as [H1 _]. by rewrite take_drop in H1. Qed.

Lemma filter_dropped n l : NoDup (map key l) -> List.filter (fun x => negb (listed (key x) (map key (drop n l)))) l = take n l.
Proof. intros H. rewrite <- (take_drop n l) in H. destruct (filter_out _ _ H) as [_ H1]. by rewrite take_drop in H1. Qed.
End Parted.

(** ** Sorting by code units *)

Lemma sort_by_key_sorted {A} (key : A -> jstr) l :
  StronglySorted (fun a b => jltb (key b) (key a) = false) (sort_by (fun a b => jltb (key a) (key b)) l).
Proof.
  apply sort_by_sorted.
  - intros a b. destruct (jltb (key a) (key b)) eqn:E1; [|by left]. destruct (jltb (key b) (key a)) eqn:E2; [|by right].
    pose proof (jltb_trans _ _ _ E1 E2) as H. by rewrite jltb_irrefl in H.
  - intros a b c H1 H2. destruct (jltb (key c) (key a)) eqn:E; [|done]. destruct (jltb (key a) (key b)) eqn:E3.
    + by rewrite (jltb_trans _ _ _ E E3) in H2.
    + pose proof (jltb_total _ _ E3 H1) as Eq. rewrite Eq in E. congruence.
Qed.

(** Rows with keys of their own sort to one list, whatever order they come in. *)
Lemma sort_by_key_ext {A} (key : A -> jstr) l l' : NoDup (map key l) -> l ≡ₚ l' ->
  sort_by (fun a b => jltb (key a) (key b)) l = sort_by (fun a b => jltb (key a) (key b)) l'.
Proof.
  intros Hnd Hp. apply (StronglySorted_unique_strong (fun a b => jltb (key b) (key a) = false)).
  - intros a b Ha Hb H1 H2. rewrite sort_by_perm in Ha. rewrite sort_by_perm, <- Hp in Hb.
    apply (nodup_map_inj key l); [done..|]. by apply jltb_total.
  - apply sort_by_key_sorted.
  - apply sort_by_key_sorted.
  - by rewrite !sort_by_perm.
Qed.

Lemma sort_jltb_ext l l' : NoDup l -> NoDup l' -> (forall x, x ∈ l <-> x ∈ l') -> sort_by jltb l = sort_by jltb l'.
Proof.
  intros Hl Hl' He. apply (sort_by_key_ext (fun x => x)); [by rewrite map_id|by apply NoDup_Permutation].
Qed.

(** Cutting at a separator: a part on each side of it, and one part where it does not occur. *)
Lemma split_on_app c u v : split_on c (u ++ c :: v) = split_on c u ++ split_on c v.
Proof.
  induction u as [|d u IH]; cbn [app split_on].
  - by rewrite N.eqb_refl.
  - rewrite IH. destruct (d =? c)%N; [done|]. destruct (split_on c u) eqn:E; [|done]. destruct u; cbn in E; [done|].
    by repeat case_match.
Qed.

Lemma split_on_none c u : forallb (fun d => negb (d =? c)%N) u = true -> split_on c u = [u].
Proof.
  induction u as [|d u IH]; [done|]. cbn [forallb split_on]. intros [Hd Hu]%andb_true_iff.
  apply negb_true_iff in Hd. by rewrite Hd, IH.
Qed.
