(* ===== verification/JsNumber.v ===== *)
(** * Numbers read from texts

    [Number(text)] where the code reads a header, a cursor or a timestamp. *)

From Stdlib Require Import QArith.
From S2P Require Import Prelude JsString.

(** [Number(text)] when finite: a plain run of digits, or [other_number] of the rest
    of the grammar (blanks, signs, fractions, exponents, other bases). *)
Definition Number_of_text (other_number : jstr -> option Q) (text : jstr) : option Q :=
  match units text with
  | (_ :: _) as u => if forallb is_digit u then Some (inject_Z (value_of u)) else other_number text
  | [] => Some 0%Q
  end.

Lemma Number_of_digits other_number n : Number_of_text other_number (Js (digits_of n)) = Some (inject_Z (Z.of_N n)).
Proof.
  unfold Number_of_text. cbn [units]. pose proof (digits_of_value n) as Ev. pose proof (digits_of_digit n) as Hd.
  destruct (digits_of n) as [|c u]; [by rewrite <- Ev|]. by rewrite Hd, Ev.
Qed.
