(* ===== verification/Money.v ===== *)
(** * Money and pricing

    [billing/money.ts] and the cost function of [metering/pricing.ts].  An amount
    is an integer number of micro-USD, kept below [Number.MAX_SAFE_INTEGER]; on
    that range every operation the sources use is exact, so amounts are [Z] and
    the range checks are written where the code writes them. *)

From S2P Require Import Prelude JsString.

(** ** [billing/money.ts] *)

Definition MICROS_PER_USD : Z := 1000000.
Definition MICROS_PER_CENT : Z := 10000.
Definition MAX_SAFE_INTEGER : Z := 9007199254740991.

Inductive money_error := InvalidMicroAmountError (message : jstr).

Definition isSafeInteger (z : Z) : bool := (- MAX_SAFE_INTEGER <=? z) && (z <=? MAX_SAFE_INTEGER).

Definition dquote : jstr := Js [34%N].

(** [/^\d+$/] and [/^-?\d+$/]. *)
Definition all_digits (u : list N) : bool :=
  match u with [] => false | _ => forallb is_digit u end.

Definition integer_text (u : list N) : bool :=
  match u with 45%N :: r => all_digits r | _ => all_digits u end.

(** [Number(text)] on a text [integer_text] accepts.  Beyond the safe range the
    engine rounds, and the rounded value is beyond the safe range too. *)
Definition Number_of_integer (u : list N) : Z :=
  match u with 45%N :: r => - value_of r | _ => value_of u end.

Definition parseMicros (value field : jstr) : result money_error Z :=
  let text := trim_units (units value) in
  throw InvalidMicroAmountError
          (field +++ " must be an integer number of micro-USD, got " +++ dquote +++ value +++ dquote +++ ".")
    when negb (integer_text text);
  let parsed := Number_of_integer text in
  throw InvalidMicroAmountError (field +++ " is out of range.") when negb (isSafeInteger parsed);
  Ok parsed.

(** [/^(\d+)(?:\.(\d{1,6}))?$/.exec(text)]: the whole and the fractional digits. *)
Fixpoint span_digits (u : list N) : list N * list N :=
  match u with
  | [] => ([], [])
  | c :: r => if is_digit c then let '(ds, rest) := span_digits r in (c :: ds, rest) else ([], u)
  end.

Definition usd_match (u : list N) : option (list N * list N) :=
  match span_digits u with
  | ([], _) => None
  | (whole, []) => Some (whole, [])
  | (whole, 46%N :: fraction) =>
      if all_digits fraction && (length fraction <=? 6)%nat then Some (whole, fraction) else None
  | _ => None
  end.

Definition usdToMicros (value field : jstr) : result money_error Z :=
  let text := jtrim value in
  match usd_match (units text) with
  | None =>
      Err (InvalidMicroAmountError
             (field +++ " must be a positive USD amount with at most six decimal places, got "
              +++ dquote +++ value +++ dquote +++ "."))
  | Some (whole, fraction) =>
      let micros := value_of whole * MICROS_PER_USD + value_of (units (jpadEnd (Js fraction) 6 48%N)) in
      throw InvalidMicroAmountError (field +++ " must be greater than zero.") when micros <=? 0;
      throw InvalidMicroAmountError (field +++ " is out of range.") when negb (isSafeInteger micros);
      Ok micros
  end.

Definition formatMicros (value : Z) : jstr := jstring_of_Z value.

Definition microsToUsdString (value : Z) : jstr :=
  let negative := value <? 0 in
  let absolute := Z.abs value in
  let whole := absolute / MICROS_PER_USD in
  let fraction := jpadStart (jstring_of_Z (absolute mod MICROS_PER_USD)) 6 48%N in
  (if negative then "-" else "") +++ jstring_of_Z whole +++ "." +++ fraction.

(** [value % MICROS_PER_CENT] is reached with a positive [value] only.  The second
    message quotes [value / MICROS_PER_CENT] as a decimal fraction; [quotient] is
    that text. *)
Definition microsToCents (value : Z) : result money_error Z :=
  throw InvalidMicroAmountError "A charge must be a positive amount." when value <=? 0;
  let quotient :=
    jstring_of_Z (value / MICROS_PER_CENT) +++ "." +++
    Js (reverse (drop_while (fun c => c =? 48)%N (reverse
         (units (jpadStart (jstring_of_Z (value mod MICROS_PER_CENT)) 4 48%N))))) in
  throw InvalidMicroAmountError
          ("A charge must be a whole number of cents; " +++ jstring_of_Z value
           +++ " micro-USD is " +++ quotient +++ " cents.")
    when negb (value mod MICROS_PER_CENT =? 0);
  Ok (value / MICROS_PER_CENT).

Definition centsToMicros (cents : Z) : Z := cents * MICROS_PER_CENT.

(** ** [metering/pricing.ts] *)

Record TokenUsage := { promptTokens : Z; completionTokens : Z }.
Record ModelPricing := { promptPer1mMicros : Z; completionPer1mMicros : Z }.

Definition PER_MILLION : Z := 1000000.

(** [Math.ceil(n / d)]: while [n] is a safe integer the quotient cannot round onto
    an integer it is not, so the ceiling is the integer one. *)
Definition ceil_div (n d : Z) : Z := - (- n / d).

Definition computeCostMicros (usage : TokenUsage) (pricing : ModelPricing) : Z :=
  let numerator :=
    Z.max 0 (promptTokens usage) * promptPer1mMicros pricing
    + Z.max 0 (completionTokens usage) * completionPer1mMicros pricing in
  ceil_div numerator PER_MILLION.

(** ** Helper lemmas *)

Lemma all_digits_digits n : all_digits (digits_of n) = true.
Proof.
  unfold all_digits. destruct (digits_of n) eqn:E; [by destruct (digits_of_nonempty n)|].
  rewrite <- E. apply digits_of_digit.
Qed.

Lemma jstring_nonneg z : 0 <= z -> jstring_of_Z z = Js (digits_of (Z.to_N z)).
Proof. intros H. unfold jstring_of_Z. by rewrite (proj2 (Z.ltb_ge z 0) H). Qed.

(** A digit string starts with a digit, never with the minus sign. *)
Lemma integer_text_digits n : integer_text (digits_of n) = true.
Proof.
  pose proof (digits_of_digit n) as Hd. pose proof (all_digits_digits n) as Ha.
  destruct (digits_of n) as [|c u]; [done|]. cbn in Hd. apply andb_true_iff in Hd as [Hc _].
  unfold integer_text. unfold is_digit in Hc.
  destruct (decide (c = 45%N)) as [->|Hne]; [done|].
  repeat case_match; done.
Qed.

Lemma Number_digits n : Number_of_integer (digits_of n) = Z.of_N n.
Proof.
  pose proof (digits_of_digit n) as Hd. pose proof (digits_of_value n) as Hv.
  destruct (digits_of n) as [|c u]; [done|]. cbn in Hd. apply andb_true_iff in Hd as [Hc _].
  unfold Number_of_integer. unfold is_digit in Hc.
  destruct (decide (c = 45%N)) as [->|Hne]; [done|].
  repeat case_match; done.
Qed.

Lemma span_digits_app u r :
  forallb is_digit u = true -> (match r with c :: _ => is_digit c = false | [] => True end) ->
  span_digits (u ++ r) = (u, r).
Proof.
  induction u as [|c u IH]; cbn; intros Hu Hr.
  - destruct r as [|c r]; [done|]. cbn. by rewrite Hr.
  - apply andb_true_iff in Hu as [-> Hu]. by rewrite (IH Hu Hr).
Qed.

Lemma forallb_app_true {A} (p : A -> bool) l1 l2 :
  forallb p l1 = true -> forallb p l2 = true -> forallb p (l1 ++ l2) = true.
Proof. rewrite forallb_app. by intros -> ->. Qed.

Lemma fraction_facts f : 0 <= f < 1000000 ->
  let u := units (jpadStart (jstring_of_Z f) 6 48%N) in
  length u = 6%nat /\ forallb is_digit u = true /\ value_of u = f.
Proof.
  intros Hf u. subst u. unfold jpadStart. rewrite jstring_nonneg by lia. cbn.
  unfold jlength; cbn. set (n := Z.to_N f).
  assert (Hn : (n < 10 ^ N.of_nat 6)%N) by (cbn; lia).
  pose proof (digits_of_length n 6 Hn ltac:(lia)) as Hl.
  split; [|split].
  - rewrite length_app, length_replicate. lia.
  - apply forallb_app_true; [|apply digits_of_digit].
    generalize (Z.to_nat (6 - Z.of_nat (length (digits_of n)))). intros k; by induction k.
  - rewrite value_of_zeros, digits_of_value. lia.
Qed.

Lemma trim_no_space u : forallb (fun c => is_digit c || (c =? 46)%N) u = true -> trim_units u = u.
Proof.
  intros H. apply trim_units_id. eapply forallb_impl; [|exact H].
  intros c [Hc|Hc%N.eqb_eq]%orb_true_iff; [by rewrite digit_not_space | by subst].
Qed.

Lemma digits_or_dot u : forallb is_digit u = true -> forallb (fun c => is_digit c || (c =? 46)%N) u = true.
Proof. apply forallb_impl. by intros c ->. Qed.

Lemma ceil_div_spec n d : 0 < d -> d * (ceil_div n d - 1) < n <= d * ceil_div n d.
Proof. intros Hd. unfold ceil_div. pose proof (Z.mul_div_le (- n) d Hd). pose proof (Z.mul_succ_div_gt (- n) d Hd). lia. Qed.

Lemma ceil_div_unique n d c : 0 < d -> d * (c - 1) < n <= d * c -> ceil_div n d = c.
Proof. intros Hd Hc. pose proof (ceil_div_spec n d Hd). nia. Qed.

#[export] Hint Resolve all_digits_digits integer_text_digits : router.

(** ** Properties *)

(** The Micros wire format round-trips: every safe integer is printed by
    [formatMicros] as a text [parseMicros] reads back to the same amount. *)
Theorem parseMicros_formatMicros v field :
  - MAX_SAFE_INTEGER <= v <= MAX_SAFE_INTEGER -> parseMicros (formatMicros v) field = Ok v.
Proof.
  intros Hv.
  assert (Hs : isSafeInteger v = true) by (unfold isSafeInteger; apply andb_true_iff; lia).
  unfold parseMicros, formatMicros, jstring_of_Z, throw_if.
  destruct (Z.ltb_spec v 0) as [Hn|Hp]; cbn [units].
  - assert (Ht : trim_units (45%N :: digits_of (Z.to_N (- v))) = 45%N :: digits_of (Z.to_N (- v))).
    { apply trim_units_id. cbn [forallb]. rewrite andb_true_iff. split; [done|].
      eapply forallb_impl; [|apply digits_of_digit]. intros c Hc. by rewrite digit_not_space. }
    rewrite Ht. cbn [integer_text Number_of_integer]. rewrite all_digits_digits, digits_of_value. cbn [negb].
    replace (- Z.of_N (Z.to_N (- v))) with v by lia. by rewrite Hs.
  - rewrite digits_of_trim, integer_text_digits, Number_digits. cbn [negb].
    replace (Z.of_N (Z.to_N v)) with v by lia. by rewrite Hs.
Qed.

Lemma parseMicros_formatMicros_witness : parseMicros (formatMicros (-1234567)) "amount" = Ok (-1234567).
Proof. apply (parseMicros_formatMicros (-1234567) "amount"). unfold MAX_SAFE_INTEGER. lia. Defined.

(** The human USD format round-trips: a positive safe amount printed by
    [microsToUsdString] is read back exactly by [usdToMicros]. *)
Theorem usdToMicros_microsToUsdString v field :
  0 < v <= MAX_SAFE_INTEGER -> usdToMicros (microsToUsdString v) field = Ok v.
Proof.
  intros Hv. unfold usdToMicros, microsToUsdString, jtrim, MICROS_PER_USD.
  rewrite (proj2 (Z.ltb_ge v 0)), Z.abs_eq by lia.
  pose proof (Z.mod_pos_bound v 1000000 ltac:(lia)) as Hm.
  destruct (fraction_facts (v mod 1000000) Hm) as (Hlen & Hdig & Hval).
  set (frac := jpadStart _ 6 48%N) in *. rewrite jstring_nonneg by (apply Z.div_pos; lia).
  set (whole := digits_of (Z.to_N (v / 1000000))).
  assert (Hw : forallb is_digit whole = true) by apply digits_of_digit.
  unfold japp. cbn [units app].
  rewrite trim_no_space by (apply forallb_app_true; [by apply digits_or_dot | cbn; by apply digits_or_dot]).
  unfold usd_match.
  rewrite (span_digits_app whole (46%N :: units frac) Hw) by done.
  destruct whole as [|w0 ws] eqn:Ew; [by destruct (digits_of_nonempty _ Ew)|].
  assert (Ha : all_digits (units frac) && (length (units frac) <=? 6)%nat = true).
  { rewrite Hlen. destruct (units frac); [done|]. cbn in *. by rewrite Hdig. }
  rewrite Ha. unfold jpadEnd, jlength. cbn [units]. rewrite Hlen. cbn [units japp jrepeat replicate].
  rewrite app_nil_r, Hval. subst whole. rewrite <- Ew, digits_of_value, Z2N.id by (apply Z.div_pos; lia).
  replace (v / 1000000 * 1000000 + v mod 1000000) with v by (pose proof (Z.div_mod v 1000000); lia).
  unfold throw_if. rewrite (proj2 (Z.leb_gt v 0)) by lia.
  assert (Hs : isSafeInteger v = true) by (unfold isSafeInteger; apply andb_true_iff; unfold MAX_SAFE_INTEGER in *; lia).
  by rewrite Hs.
Qed.

Lemma usdToMicros_microsToUsdString_witness :
  usdToMicros (microsToUsdString 20000001) "grant" = Ok 20000001.
Proof. apply (usdToMicros_microsToUsdString 20000001 "grant"). unfold MAX_SAFE_INTEGER. lia. Defined.

Lemma microsToCents_ok v c : microsToCents v = Ok c <-> 0 < c /\ v = centsToMicros c.
Proof.
  unfold microsToCents, centsToMicros, throw_if, MICROS_PER_CENT. cbv zeta.
  destruct (Z.leb_spec v 0) as [H|H]; [split; [done|lia]|].
  destruct (Z.eqb_spec (v mod 10000) 0) as [Hm|Hm]; cbn [negb].
  - pose proof (Z.div_mod v 10000 ltac:(lia)) as Hd. split.
    + intros [= <-]. nia.
    + intros [Hc ->]. by rewrite Z.div_mul.
  - split; [done|]. intros [Hc ->]. by rewrite Z.mod_mul in Hm.
Qed.

(** A charge is accepted exactly when it is a positive whole number of cents,
    and the cents handed to the payment provider are then worth exactly the micros
    that were asked for: no charge is rounded. *)
Theorem microsToCents_exact v :
  (forall c, microsToCents v = Ok c -> centsToMicros c = v) /\
  (is_ok (microsToCents v) = true <-> 0 < v /\ v mod MICROS_PER_CENT = 0).
Proof.
  split.
  - by intros c [_ ->]%microsToCents_ok.
  - unfold microsToCents, throw_if. cbv zeta. destruct (Z.leb_spec v 0); cbn; [split; [done|lia]|].
    destruct (Z.eqb_spec (v mod MICROS_PER_CENT) 0); cbn; [tauto|]. split; [done|tauto].
Qed.

(** The price of a generation is the exact quotient rounded up: it never
    undercharges, it overcharges by less than one micro-USD, a request that
    consumed a priced token is never free, and splitting a request never makes it
    cheaper. *)
Theorem computeCostMicros_rounds_up u p :
  0 <= promptPer1mMicros p -> 0 <= completionPer1mMicros p ->
  let exact := Z.max 0 (promptTokens u) * promptPer1mMicros p
               + Z.max 0 (completionTokens u) * completionPer1mMicros p in
  PER_MILLION * (computeCostMicros u p - 1) < exact <= PER_MILLION * computeCostMicros u p /\
  (0 < exact -> 0 < computeCostMicros u p) /\
  0 <= computeCostMicros u p /\
  (forall u1 u2, promptTokens u = promptTokens u1 + promptTokens u2 ->
     completionTokens u = completionTokens u1 + completionTokens u2 ->
     computeCostMicros u p <= computeCostMicros u1 p + computeCostMicros u2 p).
Proof.
  intros Hp Hc exact. pose proof (ceil_div_spec exact PER_MILLION eq_refl) as Hs.
  assert (He : 0 <= exact) by (subst exact; nia).
  change (computeCostMicros u p) with (ceil_div exact PER_MILLION).
  unfold PER_MILLION in *. split_and!; [lia | lia | lia | lia |].
  intros u1 u2 H1 H2. unfold computeCostMicros, PER_MILLION.
  set (n1 := Z.max 0 (promptTokens u1) * _ + _). pose proof (ceil_div_spec n1 1000000 eq_refl) as Hn1.
  set (n2 := Z.max 0 (promptTokens u2) * _ + _). pose proof (ceil_div_spec n2 1000000 eq_refl) as Hn2.
  assert (exact <= n1 + n2) by (subst exact n1 n2; rewrite H1, H2; nia). lia.
Qed.

Lemma computeCostMicros_rounds_up_witness :
  computeCostMicros {| promptTokens := 1; completionTokens := 0 |}
    {| promptPer1mMicros := 500000; completionPer1mMicros := 1500000 |} = 1 /\
  (0 < 500000 -> 0 < computeCostMicros {| promptTokens := 1; completionTokens := 0 |}
    {| promptPer1mMicros := 500000; completionPer1mMicros := 1500000 |}).
Proof.
  split; [reflexivity|].
  apply (computeCostMicros_rounds_up {| promptTokens := 1; completionTokens := 0 |}
           {| promptPer1mMicros := 500000; completionPer1mMicros := 1500000 |}); cbn; lia.
Defined.
