(* ===== verification/Store.v ===== *)
(** * The store: entities and statements

    The rows of [db/entities/] that billing and invitations read and write, the
    tables as one record, and the SQL statements as functions on it.  A statement
    either returns the new store or fails with the error the driver raises; a
    transaction is a sequence of them in the [result] monad, so a failure leaves
    the caller with the store it started from, which is the rollback. *)

From S2P Require Import Prelude JsString Money.

(** ** Rows *)

Inductive CreditTransactionKind := purchase | usage | refund | adjustment | auto_topup | grant.

#[global] Instance kind_eq_dec : EqDecision CreditTransactionKind.
Proof. solve_decision. Defined.

Record CreditTransaction := {
  ct_id : jstr;
  ct_workspaceId : jstr;
  ct_kind : CreditTransactionKind;
  ct_amountMicros : Z;
  ct_reference : option jstr;
  ct_description : option jstr;
  ct_idempotencyKey : jstr;
  ct_createdAt : Z
}.

(** A workspace row, keyed by its [id] in the table. *)
Record Workspace := {
  balanceMicros : Z;
  stripeCustomerId : option jstr;
  autoTopUpEnabled : bool;
  autoTopUpThresholdMicros : option Z;
  autoTopUpAmountMicros : option Z;
  autoTopUpLastAt : option Z;
  firstRequestAt : option Z;
  ws_createdAt : Z
}.

(** An invitation code, keyed by its [id]. *)
Record InviteCode := {
  ic_code : jstr;
  ic_grantMicros : Z;
  ic_campaign : jstr;
  ic_maxRedemptions : Z;
  ic_redemptionCount : Z;
  ic_expiresAt : option Z;
  ic_disabledAt : option Z;
  ic_note : option jstr;
  ic_issuedByUserId : option jstr;
  ic_createdAt : Z
}.

Record InviteRedemption := {
  ir_id : jstr;
  ir_inviteCodeId : jstr;
  ir_userId : jstr;
  ir_workspaceId : jstr;
  ir_creditTransactionId : jstr;
  ir_ipHash : option jstr;
  ir_userAgentHash : option jstr;
  ir_redeemedAt : Z
}.

Record Store := {
  workspaces : gmap jstr Workspace;
  credit_transactions : list CreditTransaction;
  invite_codes : gmap jstr InviteCode;
  invite_redemptions : list InviteRedemption
}.

(** ** Errors a service raises *)

Inductive InviteUnusableReason := not_found | expired | exhausted | disabled.

#[global] Instance reason_eq_dec : EqDecision InviteUnusableReason.
Proof. solve_decision. Defined.

Inductive error :=
| NotFoundException (message : jstr)
| BadRequestException (message : jstr)
| InsufficientCreditsError (balance amount : Z)
| LedgerSignError (kind : CreditTransactionKind) (amount : Z)
| InviteClaimLostError (reason : InviteUnusableReason)
| InviteTargetError (message : jstr)
| InvalidAmount (e : money_error)
| UniqueViolation                      (* QueryFailedError, SQLSTATE 23505 *)
| ProviderError (message : jstr).      (* whatever the payment provider throws *)

(** [isUniqueViolation] of [ledger.service.ts]. *)
Definition isUniqueViolation (e : error) : bool :=
  match e with UniqueViolation => true | _ => false end.

(** ** Statements *)

Definition set_workspaces (f : gmap jstr Workspace -> gmap jstr Workspace) (db : Store) : Store :=
  {| workspaces := f (workspaces db); credit_transactions := credit_transactions db;
     invite_codes := invite_codes db; invite_redemptions := invite_redemptions db |}.

Definition set_invite_codes (f : gmap jstr InviteCode -> gmap jstr InviteCode) (db : Store) : Store :=
  {| workspaces := workspaces db; credit_transactions := credit_transactions db;
     invite_codes := f (invite_codes db); invite_redemptions := invite_redemptions db |}.

(** [UPDATE workspaces SET … WHERE id = :id AND …]: the new store and [affected]. *)
Definition update_workspace (id : jstr) (cond : Workspace -> bool) (f : Workspace -> Workspace)
    (db : Store) : Store * Z :=
  match workspaces db !! id with
  | Some w => if cond w then (set_workspaces (<[id := f w]>) db, 1) else (db, 0)
  | None => (db, 0)
  end.

Definition update_invite_code (id : jstr) (cond : InviteCode -> bool) (f : InviteCode -> InviteCode)
    (db : Store) : Store * Z :=
  match invite_codes db !! id with
  | Some c => if cond c then (set_invite_codes (<[id := f c]>) db, 1) else (db, 0)
  | None => (db, 0)
  end.

(** [INSERT INTO credit_transactions]: primary key [id], unique [idempotencyKey]. *)
Definition insert_credit_transaction (row : CreditTransaction) (db : Store) : result error Store :=
  throw UniqueViolation
    when existsb (fun r => jeqb (ct_id r) (ct_id row)
                           || jeqb (ct_idempotencyKey r) (ct_idempotencyKey row))
                 (credit_transactions db);
  Ok {| workspaces := workspaces db; credit_transactions := credit_transactions db ++ [row];
        invite_codes := invite_codes db; invite_redemptions := invite_redemptions db |}.

(** [INSERT INTO invite_redemptions]: primary key [id], unique [userId]. *)
Definition insert_invite_redemption (row : InviteRedemption) (db : Store) : result error Store :=
  throw UniqueViolation
    when existsb (fun r => jeqb (ir_id r) (ir_id row) || jeqb (ir_userId r) (ir_userId row))
                 (invite_redemptions db);
  Ok {| workspaces := workspaces db; credit_transactions := credit_transactions db;
        invite_codes := invite_codes db; invite_redemptions := invite_redemptions db ++ [row] |}.

Definition add_balance (delta : Z) (w : Workspace) : Workspace :=
  {| balanceMicros := balanceMicros w + delta; stripeCustomerId := stripeCustomerId w;
     autoTopUpEnabled := autoTopUpEnabled w; autoTopUpThresholdMicros := autoTopUpThresholdMicros w;
     autoTopUpAmountMicros := autoTopUpAmountMicros w; autoTopUpLastAt := autoTopUpLastAt w;
     firstRequestAt := firstRequestAt w; ws_createdAt := ws_createdAt w |}.

(** ** The ledger invariant

    The balance column is the running sum of the workspace's ledger rows, and the
    two indexes the ledger relies on hold. *)

Definition amount_for (id : jstr) (t : CreditTransaction) : Z :=
  if jeqb (ct_workspaceId t) id then ct_amountMicros t else 0.

Definition ledger_sum (id : jstr) (ts : list CreditTransaction) : Z := sumZ (map (amount_for id) ts).

Record ledger_ok (db : Store) : Prop := {
  ok_balance : forall id w, workspaces db !! id = Some w ->
    balanceMicros w = ledger_sum id (credit_transactions db);
  ok_ids : NoDup (map ct_id (credit_transactions db));
  ok_keys : NoDup (map ct_idempotencyKey (credit_transactions db));
  ok_owner : Forall (fun t => is_Some (workspaces db !! ct_workspaceId t)) (credit_transactions db)
}.

Lemma ledger_sum_app id l1 l2 : ledger_sum id (l1 ++ l2) = ledger_sum id l1 + ledger_sum id l2.
Proof. unfold ledger_sum. by rewrite map_app, sumZ_app. Qed.

Lemma ledger_sum_one id t : ledger_sum id [t] = amount_for id t.
Proof. unfold ledger_sum; cbn. lia. Qed.

#[export] Hint Rewrite ledger_sum_app ledger_sum_one : router.

(** A store with one workspace and nothing else, for concrete instances. *)
Definition plain_workspace (createdAt : Z) : Workspace :=
  {| balanceMicros := 0; stripeCustomerId := None; autoTopUpEnabled := false;
     autoTopUpThresholdMicros := None; autoTopUpAmountMicros := None; autoTopUpLastAt := None;
     firstRequestAt := None; ws_createdAt := createdAt |}.

Definition one_workspace (id : jstr) : Store :=
  {| workspaces := {[id := plain_workspace 0]}; credit_transactions := []; invite_codes := ∅;
     invite_redemptions := [] |}.

Lemma one_workspace_ok id : ledger_ok (one_workspace id).
Proof.
  split; [|constructor|constructor|constructor].
  intros i w H. cbn in H. apply lookup_singleton_Some in H as [_ <-]. reflexivity.
Qed.

(** ** Lemmas about statements *)

Lemma update_workspace_affected id cond f db db' n :
  update_workspace id cond f db = (db', n) ->
  (n = 0 /\ db' = db) \/
  (n = 1 /\ exists w, workspaces db !! id = Some w /\ cond w = true /\
                      db' = set_workspaces (<[id := f w]>) db).
Proof. unfold update_workspace. intros H. repeat case_match; simplify_eq; eauto 10. Qed.

Lemma insert_credit_transaction_ok row db db' :
  insert_credit_transaction row db = Ok db' <->
  (ct_id row ∉ map ct_id (credit_transactions db)) /\
  (ct_idempotencyKey row ∉ map ct_idempotencyKey (credit_transactions db)) /\
  db' = {| workspaces := workspaces db; credit_transactions := credit_transactions db ++ [row];
           invite_codes := invite_codes db; invite_redemptions := invite_redemptions db |}.
Proof.
  unfold insert_credit_transaction, throw_if.
  destruct (existsb _ _) eqn:E.
  - apply existsb_exists in E as (r & Hr%list_elem_of_In & He).
    split; [done|]. intros (H1 & H2 & _).
    apply orb_true_iff in He as [He%jeqb_eq|He%jeqb_eq]; [destruct H1 | destruct H2]; rewrite <- He;
      by apply list_elem_of_fmap_2.
  - assert (Hn : forall r, r ∈ credit_transactions db ->
        ct_id r <> ct_id row /\ ct_idempotencyKey r <> ct_idempotencyKey row).
    { intros r Hr. split; intros He; apply not_true_iff_false in E; apply E, existsb_exists;
        exists r; rewrite <- list_elem_of_In; split; [done| |done|]; rewrite He, jeqb_refl;
        [done | by rewrite orb_true_r]. }
    split; [intros [= <-]; split_and!; [| |done] | by intros (_ & _ & ->)];
      intros (r & He & Hr)%list_elem_of_fmap; by destruct (Hn r Hr).
Qed.
