(* ===== verification/Workspaces.v ===== *)
(** * Workspaces: who owns one and who may act in it

    [auth/workspace-provisioning.service.ts] and [auth/workspace-scope.service.ts]
    over [db/entities/workspace-member.entity.ts] and the name and slug columns of
    [db/entities/workspace.entity.ts]; the other columns of a workspace are the rows
    of [Store].  A [varchar] of PostgreSQL refuses a longer value, the one of SQLite
    does not. *)

From S2P Require Import Prelude JsString Store.

Inductive WorkspaceRole := role_owner | role_member.

#[global] Instance workspace_role_eq_dec : EqDecision WorkspaceRole.
Proof. solve_decision. Defined.

Record WorkspaceMember := { dm_workspaceId : jstr; dm_userId : jstr; dm_role : WorkspaceRole; dm_createdAt : Z }.

Record WorkspaceName := { wn_name : jstr; wn_slug : jstr }.

(** Names by workspace id, memberships by age, and the rest of the database. *)
Record Tenancy := {
  tn_names : gmap jstr WorkspaceName;
  tn_members : list WorkspaceMember;
  tn_store : Store
}.

Inductive scope_error := access_refused (message : jstr) | no_workspace (message : jstr).

(** ** The scope of a request *)

Definition membership_of (userId workspaceId : jstr) (m : WorkspaceMember) : bool :=
  jeqb (dm_userId m) userId && jeqb (dm_workspaceId m) workspaceId.

Definition roleOf (userId workspaceId : jstr) (t : Tenancy) : option WorkspaceRole :=
  dm_role <$> find_first (membership_of userId workspaceId) (tn_members t).

Definition requireMembership (userId workspaceId : jstr) (minimumRole : WorkspaceRole) (t : Tenancy) : result scope_error jstr :=
  let refusal := Err (access_refused "You do not have access to this workspace.") in
  match roleOf userId workspaceId t with
  | None => refusal
  | Some role =>
      if bool_decide (minimumRole = role_owner) && negb (bool_decide (role = role_owner)) then refusal
      else match tn_names t !! workspaceId with
           | None => Err (no_workspace "Workspace not found.")
           | Some _ => Ok workspaceId
           end
  end.

(** [order: { createdAt: 'ASC' }] *)
Definition older (a b : WorkspaceMember) : bool := dm_createdAt a <? dm_createdAt b.

Definition with_workspace (t : Tenancy) (m : WorkspaceMember) : list (jstr * WorkspaceRole) :=
  match tn_names t !! dm_workspaceId m with Some _ => [(dm_workspaceId m, dm_role m)] | None => [] end.

Definition listForUser (userId : jstr) (t : Tenancy) : list (jstr * WorkspaceRole) :=
  flat_map (with_workspace t) (sort_by older (List.filter (fun m => jeqb (dm_userId m) userId) (tn_members t))).

Definition owns (userId : jstr) (m : WorkspaceMember) : bool :=
  jeqb (dm_userId m) userId && bool_decide (dm_role m = role_owner).

(** The workspace a membership row names, when there is one. *)
Definition workspace_of (t : Tenancy) (m : option WorkspaceMember) : option jstr :=
  m ← m; _ ← tn_names t !! dm_workspaceId m; Some (dm_workspaceId m).

Definition defaultForUser (userId : jstr) (t : Tenancy) : option jstr :=
  workspace_of t (head (sort_by older (List.filter (owns userId) (tn_members t)))).

(** ** The personal workspace *)

Definition MAX_SLUG_LENGTH : Z := 48.
Definition SLUG_COLUMN : Z := 64.
Definition NAME_COLUMN : Z := 255.

Record CreatedUser := { nu_id : jstr; nu_email : jstr; nu_name : option jstr }.

Inductive provisioning_error := slug_taken | value_too_long.

(** [randomUUID()] in the order of the calls, the clock, and whether the database
    holds a [varchar] to its length. *)
Record provision_env := { pe_uuid : nat -> jstr; pe_now : Z; pe_varchar : bool }.

Definition slug_unit (c : N) : bool := is_lower c || is_digit c.
Definition dash : N := 45.

Section Provisioning.
Context (toLowerCase : jstr -> jstr).

(** The part before the first [@], in lower case, its other runs dashes. *)
Definition slug_base (email : jstr) : jstr :=
  let local := default (Js []) (head (jsplit 64 email)) in
  let dashed := replace_runs (fun c => negb (slug_unit c)) dash false (units (toLowerCase local)) in
  let base := jtake MAX_SLUG_LENGTH (Js (strip_ends (fun c => (c =? dash)%N) dashed)) in
  if jlength base =? 0 then "workspace" else base.

Definition slug_taken_in (t : Tenancy) (slug : jstr) : bool :=
  existsb (fun kn => jeqb (wn_slug (snd kn)) slug) (map_to_list (tn_names t)).

Definition slug_candidate (env : provision_env) (base : jstr) (attempt : nat) : jstr :=
  match attempt with O => base | S _ => base +++ "-" +++ jtake 6 (pe_uuid env attempt) end.

(** Attempts [attempt] and later, [tries] of them; the id took the first [randomUUID()]. *)
Fixpoint try_slugs (env : provision_env) (t : Tenancy) (base : jstr) (attempt tries : nat) : jstr :=
  match tries with
  | O => base +++ "-" +++ pe_uuid env attempt
  | S tries =>
      let candidate := slug_candidate env base attempt in
      if slug_taken_in t candidate then try_slugs env t base (S attempt) tries else candidate
  end.

Definition allocateSlug (env : provision_env) (email : jstr) (t : Tenancy) : jstr := try_slugs env t (slug_base email) 0 5.

Definition new_workspace (now : Z) : Workspace :=
  {| balanceMicros := 0; stripeCustomerId := None; autoTopUpEnabled := false; autoTopUpThresholdMicros := None;
     autoTopUpAmountMicros := None; autoTopUpLastAt := None; firstRequestAt := None; ws_createdAt := now |}.

(** [user.name?.trim() || user.email] *)
Definition workspace_name (user : CreatedUser) : jstr := default (nu_email user) (present (jtrim <$> nu_name user)).

Definition ensurePersonalWorkspace (env : provision_env) (user : CreatedUser) (t : Tenancy)
    : result provisioning_error (Tenancy * jstr) :=
  match workspace_of t (find_first (owns (nu_id user)) (tn_members t)) with
  | Some existing => Ok (t, existing)
  | None =>
      let id := pe_uuid env 0 in
      let row := {| wn_name := workspace_name user; wn_slug := allocateSlug env (nu_email user) t |} in
      throw slug_taken when slug_taken_in t (wn_slug row);
      throw value_too_long when pe_varchar env && ((SLUG_COLUMN <? jlength (wn_slug row)) || (NAME_COLUMN <? jlength (wn_name row)));
      Ok ({| tn_names := <[id := row]> (tn_names t);
             tn_members := tn_members t ++ [{| dm_workspaceId := id; dm_userId := nu_id user; dm_role := role_owner; dm_createdAt := pe_now env |}];
             tn_store := set_workspaces (<[id := new_workspace (pe_now env)]>) (tn_store t) |}, id)
  end.
End Provisioning.

(** ** The invariant *)

Definition member_key (m : WorkspaceMember) : jstr * jstr := (dm_workspaceId m, dm_userId m).

Record tenancy_ok (t : Tenancy) : Prop := {
  to_members : NoDup (map member_key (tn_members t));
  to_workspace : forall m, m ∈ tn_members t -> is_Some (tn_names t !! dm_workspaceId m);
  to_slugs : forall i j a b, tn_names t !! i = Some a -> tn_names t !! j = Some b -> wn_slug a = wn_slug b -> i = j;
  to_rows : forall i, is_Some (tn_names t !! i) <-> is_Some (workspaces (tn_store t) !! i)
}.

(** ** Lemmas *)

Lemma slug_taken_in_spec t slug : slug_taken_in t slug = true <-> exists i n, tn_names t !! i = Some n /\ wn_slug n = slug.
Proof.
  unfold slug_taken_in. rewrite existsb_exists. split.
  - intros ([i n] & Hin%list_elem_of_In%elem_of_map_to_list & He%jeqb_eq). by exists i, n.
  - intros (i & n & Hn & <-). exists (i, n). split; [by apply list_elem_of_In, elem_of_map_to_list|apply jeqb_refl].
Qed.

(** Before its last resort, a slug is free. *)
Lemma try_slugs_free env t base attempt tries :
  slug_taken_in t (base +++ "-" +++ pe_uuid env (attempt + tries)) = false ->
  slug_taken_in t (try_slugs env t base attempt tries) = false.
Proof.
  revert attempt. induction tries as [|tries IH]; intros attempt; cbn [try_slugs].
  - by rewrite Nat.add_0_r.
  - intros H. destruct (slug_taken_in t (slug_candidate env base attempt)) eqn:E; [|done].
    apply IH. by replace (S attempt + tries)%nat with (attempt + S tries)%nat by lia.
Qed.

Lemma requireMembership_ok userId workspaceId minimumRole t w :
  requireMembership userId workspaceId minimumRole t = Ok w <->
  w = workspaceId /\ is_Some (tn_names t !! workspaceId) /\
  exists role, roleOf userId workspaceId t = Some role /\ (minimumRole = role_owner -> role = role_owner).
Proof.
  unfold requireMembership. destruct (roleOf userId workspaceId t) as [role|].
  2:{ split; [done|]. by intros (_ & _ & ? & ? & _). }
  destruct (bool_decide (minimumRole = role_owner) && negb (bool_decide (role = role_owner))) eqn:E.
  - split; [done|]. intros (_ & _ & r & [= <-] & H). apply andb_true_iff in E as [E1 E2].
    apply bool_decide_eq_true in E1. apply negb_true_iff, bool_decide_eq_false in E2. by destruct E2; apply H.
  - destruct (tn_names t !! workspaceId) as [n|].
    + split; [|by intros (-> & _)]. intros [= <-]. split; [done|]. split; [by exists n|]. exists role. split; [done|].
      intros ->. cbn in E. by apply negb_false_iff, bool_decide_eq_true in E.
    + split; [done|]. by intros (_ & [? ?] & _).
Qed.

Lemma roleOf_snoc userId workspaceId t m :
  roleOf userId workspaceId {| tn_names := tn_names t; tn_members := tn_members t ++ [m]; tn_store := tn_store t |} =
  match roleOf userId workspaceId t with
  | Some r => Some r
  | None => if membership_of userId workspaceId m then Some (dm_role m) else None
  end.
Proof.
  unfold roleOf. cbn [tn_members]. rewrite find_first_app. destruct (find_first _ (tn_members t)); [done|]. cbn.
  by destruct (membership_of userId workspaceId m).
Qed.

Lemma roleOf_none userId workspaceId t : (forall m, m ∈ tn_members t -> dm_workspaceId m <> workspaceId) -> roleOf userId workspaceId t = None.
Proof.
  intros H. unfold roleOf. rewrite (proj2 (find_first_none _ _)); [done|].
  intros m Hm. unfold membership_of. rewrite (proj2 (jeqb_neq _ _) (H m Hm)). apply andb_false_r.
Qed.

(** What a successful call is: the workspace there was, or a new one. *)
Lemma ensure_cases lower env user t t' w : ensurePersonalWorkspace lower env user t = Ok (t', w) ->
  (t' = t /\ workspace_of t (find_first (owns (nu_id user)) (tn_members t)) = Some w) \/
  (workspace_of t (find_first (owns (nu_id user)) (tn_members t)) = None /\ w = pe_uuid env 0 /\
   slug_taken_in t (allocateSlug lower env (nu_email user) t) = false /\
   t' = {| tn_names := <[w := {| wn_name := workspace_name user; wn_slug := allocateSlug lower env (nu_email user) t |}]> (tn_names t);
           tn_members := tn_members t ++ [{| dm_workspaceId := w; dm_userId := nu_id user; dm_role := role_owner; dm_createdAt := pe_now env |}];
           tn_store := set_workspaces (<[w := new_workspace (pe_now env)]>) (tn_store t) |}).
Proof.
  unfold ensurePersonalWorkspace. destruct (workspace_of t _) as [e|]; [intros [= <- <-]; by left|].
  destruct (throw_if _ _) eqn:E1; [|done]. apply throw_if_ok in E1. destruct (throw_if _ _); [|done].
  intros [= <- <-]. right. done.
Qed.

Lemma workspace_of_none t user : tenancy_ok t ->
  workspace_of t (find_first (owns user) (tn_members t)) = None -> forall m, m ∈ tn_members t -> owns user m = false.
Proof.
  intros Hok H. apply find_first_none. destruct (find_first _ _) as [m|] eqn:E; [|done].
  apply find_first_some in E as [Hm _]. cbn in H. destruct (to_workspace _ Hok m Hm) as [n Hn]. by rewrite Hn in H.
Qed.

Lemma workspace_of_owner t user w : tenancy_ok t -> workspace_of t (find_first (owns user) (tn_members t)) = Some w ->
  is_Some (tn_names t !! w) /\ roleOf user w t = Some role_owner.
Proof.
  intros Hok H. destruct (find_first _ _) as [m|] eqn:E; [|done]. cbn in H.
  destruct (tn_names t !! dm_workspaceId m) as [n|] eqn:En; [|done]. cbn in H. injection H as <-. split; [by exists n|].
  apply find_first_some in E as [Hm [Hu Hr]%andb_true_iff]. apply jeqb_eq in Hu. apply bool_decide_eq_true in Hr.
  unfold roleOf. destruct (find_first (membership_of user (dm_workspaceId m)) _) as [m'|] eqn:E'; cbn.
  - apply find_first_some in E' as [Hm' [H1 H2]%andb_true_iff]. apply jeqb_eq in H1, H2.
    assert (m' = m) as -> by (apply (nodup_map_inj member_key (tn_members t)); [apply Hok|done|done|unfold member_key; congruence]).
    by rewrite Hr.
  - rewrite find_first_none in E'. specialize (E' m Hm). unfold membership_of in E'. by rewrite Hu, !jeqb_refl in E'.
Qed.

(** A new workspace with its owner, beside what there was. *)
Definition founded (w : jstr) (name : WorkspaceName) (userId : jstr) (now : Z) (t : Tenancy) : Tenancy :=
  {| tn_names := <[w := name]> (tn_names t);
     tn_members := tn_members t ++ [{| dm_workspaceId := w; dm_userId := userId; dm_role := role_owner; dm_createdAt := now |}];
     tn_store := set_workspaces (<[w := new_workspace now]>) (tn_store t) |}.

Section Founded.
Context (t : Tenancy) (w : jstr) (name : WorkspaceName) (userId : jstr) (now : Z).
Context (Hok : tenancy_ok t) (Hfresh : tn_names t !! w = None).

Lemma no_members_yet m : m ∈ tn_members t -> dm_workspaceId m <> w.
Proof. intros Hm Hw. destruct (to_workspace _ Hok m Hm) as [n Hn]. by rewrite Hw, Hfresh in Hn. Qed.

Lemma founded_ok : slug_taken_in t (wn_slug name) = false -> tenancy_ok (founded w name userId now t).
Proof.
  intros Hslug. assert (Hnew : forall i n, tn_names t !! i = Some n -> wn_slug n <> wn_slug name).
  { intros i n Hn He. apply not_true_iff_false in Hslug. apply Hslug, slug_taken_in_spec. by exists i, n. }
  split; cbn [tn_members tn_names tn_store founded].
  - rewrite map_app. apply NoDup_app. split; [apply Hok|]. split; [|apply NoDup_singleton].
    intros k (m & -> & Hm)%list_elem_of_fmap Hk%list_elem_of_singleton. injection Hk as Hw _. by apply (no_members_yet m Hm).
  - intros m [Hm| ->%list_elem_of_singleton]%elem_of_app; [|cbn; rewrite lookup_insert_eq; by eexists].
    rewrite lookup_insert_ne by (intros E; by apply (no_members_yet m Hm)). by apply Hok.
  - intros i j a b. rewrite !lookup_insert_Some. intros [[<- <-]|[_ Ha]] [[<- <-]|[_ Hb]] He; [done| | |].
    + by destruct (Hnew j b Hb).
    + by destruct (Hnew i a Ha).
    + by eapply (to_slugs _ Hok).
  - intros i. cbn. destruct (decide (i = w)) as [->|Hi]; [rewrite !lookup_insert_eq; split; by eexists|].
    rewrite !lookup_insert_ne by done. apply Hok.
Qed.

Lemma founded_role u i : roleOf u i (founded w name userId now t) =
  if jeqb i w then (if jeqb u userId then Some role_owner else None) else roleOf u i t.
Proof.
  change (roleOf u i (founded w name userId now t)) with
    (roleOf u i {| tn_names := tn_names t; tn_members := tn_members t ++ [{| dm_workspaceId := w; dm_userId := userId; dm_role := role_owner; dm_createdAt := now |}]; tn_store := tn_store t |}).
  rewrite roleOf_snoc. unfold membership_of; cbn. rewrite (jeqb_sym w i), (jeqb_sym userId u).
  destruct (jeqb i w) eqn:E.
  - apply jeqb_eq in E as ->. rewrite roleOf_none by exact no_members_yet. by rewrite andb_true_r.
  - rewrite andb_false_r. by destruct (roleOf u i t).
Qed.

Lemma founded_owner : (forall m, m ∈ tn_members t -> owns userId m = false) ->
  workspace_of (founded w name userId now t) (find_first (owns userId) (tn_members (founded w name userId now t))) = Some w.
Proof.
  intros Hno. cbn [founded tn_members tn_names]. rewrite find_first_app, (proj2 (find_first_none _ _) Hno). cbn. unfold owns. cbn.
  rewrite jeqb_refl, bool_decide_eq_true_2 by done. cbn. by rewrite lookup_insert_eq.
Qed.
End Founded.

Lemma ensure_again lower env user t w : workspace_of t (find_first (owns (nu_id user)) (tn_members t)) = Some w ->
  ensurePersonalWorkspace lower env user t = Ok (t, w).
Proof. intros H. unfold ensurePersonalWorkspace. by rewrite H. Qed.

(** ** Theorems *)

(** A user gets one personal workspace: the call keeps the tables' invariant and
    answers a workspace the user owns; a later call, whatever it draws, answers the
    same one and writes nothing; and a call that makes one does so for a user who
    owned none, with a balance of nothing and a slug no workspace had, lets that user
    in as owner and nobody else, and changes no other workspace or membership. *)
Theorem personal_workspace_is_made_once lower env user t t' w :
  tenancy_ok t -> tn_names t !! pe_uuid env 0 = None ->
  ensurePersonalWorkspace lower env user t = Ok (t', w) ->
  tenancy_ok t' /\ roleOf (nu_id user) w t' = Some role_owner /\
  (forall env', ensurePersonalWorkspace lower env' user t' = Ok (t', w)) /\
  (t' = t \/
   ((forall m, m ∈ tn_members t -> owns (nu_id user) m = false) /\
    (exists row, workspaces (tn_store t') = <[w := row]> (workspaces (tn_store t)) /\ balanceMicros row = 0) /\
    (forall name, tn_names t' !! w = Some name -> slug_taken_in t (wn_slug name) = false) /\
    (forall u minimum, requireMembership u w minimum t' = Ok w <-> u = nu_id user) /\
    (forall i, i <> w -> tn_names t' !! i = tn_names t !! i) /\ (forall u i, i <> w -> roleOf u i t' = roleOf u i t))).
Proof.
  intros Hok Hfresh H. destruct (ensure_cases _ _ _ _ _ _ H) as [[-> He]|(Hno & Hw & Hslug & ->)].
  - destruct (workspace_of_owner _ _ _ Hok He) as [_ Hr]. split; [done|]. split; [done|]. split; [|by left].
    intros env'. by apply ensure_again.
  - rewrite <- Hw in Hfresh. pose proof (workspace_of_none _ _ Hok Hno) as Hnone.
    fold (founded w {| wn_name := workspace_name user; wn_slug := allocateSlug lower env (nu_email user) t |} (nu_id user) (pe_now env) t).
    set (name := {| wn_name := workspace_name user; wn_slug := _ |}).
    split; [by apply founded_ok|]. split; [by rewrite founded_role, !jeqb_refl|].
    split; [intros env'; by apply ensure_again, founded_owner|]. right. split; [done|]. split; [by eexists|].
    split; [intros n; cbn; rewrite lookup_insert_eq; by intros [= <-]|]. split; [|split].
    + intros u minimum. rewrite requireMembership_ok, founded_role, jeqb_refl by done. split.
      * intros (_ & _ & r & Hr & _). destruct (jeqb u (nu_id user)) eqn:E; [by apply jeqb_eq|done].
      * intros ->. rewrite jeqb_refl. split; [done|]. cbn. rewrite lookup_insert_eq. split; [by eexists|]. by exists role_owner.
    + intros i Hi. cbn. by rewrite lookup_insert_ne.
    + intros u i Hi. rewrite founded_role by done. by rewrite (proj2 (jeqb_neq _ _) Hi).
Qed.

(** Whatever the address and whatever the case mapping makes of it, a slug before its
    suffix is one to forty-eight letters, digits and dashes. *)
Theorem slug_base_shape lower email :
  Forall (fun c => slug_unit c = true \/ c = dash) (units (slug_base lower email)) /\
  1 <= jlength (slug_base lower email) <= MAX_SLUG_LENGTH.
Proof.
  unfold slug_base. set (u := strip_ends _ _).
  assert (Hu : Forall (fun c => slug_unit c = true \/ c = dash) u).
  { apply strip_ends_all, replace_runs_all; [|by right]. intros d Hd. left. by apply negb_false_iff in Hd. }
  destruct (Z.eqb_spec (jlength (jtake MAX_SLUG_LENGTH (Js u))) 0) as [_|Hne].
  - split; [|by vm_compute]. rewrite Forall_forall. intros c Hc. left.
    by repeat (apply elem_of_cons in Hc as [->|Hc]; [reflexivity|]); apply elem_of_nil in Hc.
  - revert Hne. unfold jlength, jtake, MAX_SLUG_LENGTH; cbn [units]. intros Hne. split; [by apply Forall_take|].
    rewrite length_take in *. lia.
Qed.

Definition empty_tenancy : Tenancy :=
  {| tn_names := ∅; tn_members := [];
     tn_store := {| workspaces := ∅; credit_transactions := []; invite_codes := ∅; invite_redemptions := [] |} |}.

Lemma empty_tenancy_ok : tenancy_ok empty_tenancy.
Proof.
  split; cbn; [apply NoDup_nil_2|by intros m ?%elem_of_nil| |].
  - intros i j a b H. by rewrite lookup_empty in H.
  - intros i. rewrite !lookup_empty. split; by intros [? ?].
Qed.

Definition sample_user : CreatedUser := {| nu_id := "u1"; nu_email := "Ada.L@example.com"; nu_name := Some "  Ada "%js |}.
Definition sample_env : provision_env := {| pe_uuid n := jpadStart (jstring_of_Z (Z.of_nat n)) 6 48; pe_now := 7; pe_varchar := true |}.
Definition sample_lower (s : jstr) : jstr := Js (map lower_unit (units s)).

Lemma personal_workspace_is_made_once_witness :
  exists t', ensurePersonalWorkspace sample_lower sample_env sample_user empty_tenancy = Ok (t', "000000"%js) /\
  tn_names t' !! ("000000"%js) = Some {| wn_name := "Ada"; wn_slug := "ada-l" |} /\ tenancy_ok t'.
Proof.
  eexists. split; [vm_compute; reflexivity|]. split; [reflexivity|].
  apply (personal_workspace_is_made_once sample_lower sample_env sample_user empty_tenancy _ "000000");
    [exact empty_tenancy_ok|reflexivity|vm_compute; reflexivity].
Defined.

(** The last resort of a long address does not fit its column. *)
Definition crowded (base : jstr) : Tenancy :=
  {| tn_names := {[ ("a"%js) := {| wn_name := "a"; wn_slug := base |}; ("b"%js) := {| wn_name := "b"; wn_slug := base +++ "-aaaaaa" |} ]};
     tn_members := []; tn_store := tn_store empty_tenancy |}.

Example last_resort_slug_does_not_fit :
  let base : jstr := "a-rather-long-mailbox-name-here" in
  let env := {| pe_uuid _ := "aaaaaaaa-aaaa-4aaa-8aaa-aaaaaaaaaaaa"; pe_now := 0; pe_varchar := true |} in
  ensurePersonalWorkspace sample_lower env {| nu_id := "u"; nu_email := base +++ "@example.com"; nu_name := None |} (crowded base) = Err value_too_long.
Proof. vm_compute. reflexivity. Qed.
