(* ===== verification/Chat.v ===== *)
(** * Console chat transcripts

    [chat/chat.service.ts] over [db/entities/chat-thread.entity.ts] and
    [chat-message.entity.ts]: the two tables, one definition per method, and the caps
    of [ChatSchema].  Rows of one timestamp are read in the order they were written.

    A call is one step here.  The code awaits its statements one after another outside a
    transaction, so calls that race can interleave between them; what that costs the
    caps is shown at the end ([a_racing_append_returns_a_pruned_thread]). *)

From S2P Require Import Prelude JsString.

Inductive ChatRole := chat_user | chat_assistant.

#[global] Instance chat_role_eq_dec : EqDecision ChatRole.
Proof. solve_decision. Defined.

Record ChatThread := {
  th_id : jstr;
  th_workspaceId : jstr;
  th_userId : jstr;
  th_title : jstr;
  th_modelId : jstr;
  th_createdAt : Z;
  th_updatedAt : Z
}.

Record ChatMessage := {
  cm_id : jstr;
  cm_threadId : jstr;
  cm_role : ChatRole;
  cm_content : jstr;
  cm_error : option jstr;
  cm_createdAt : Z
}.

Record ChatTables := { chat_threads : list ChatThread; chat_messages : list ChatMessage }.

Record ThreadScope := { sc_workspaceId : jstr; sc_userId : jstr }.

#[global] Instance scope_eq_dec : EqDecision ThreadScope.
Proof. solve_decision. Defined.

Record ChatConfig := {
  ch_enabled : bool;
  maxMessageChars : Z;
  maxThreads : Z;
  maxMessagesPerThread : Z;
  credentialTtl : Z
}.

Inductive chat_error := thread_not_found | message_too_long (max : Z) | error_too_wide.

Definition DEFAULT_TITLE : jstr := "New conversation".
Definition TRUNCATED : jstr := "This answer was longer than the deployment stores and has been cut short here.".
Definition MAX_ERROR_CHARS : Z := 512.

(** The ellipsis is U+2026. *)
Definition titleFrom (content : jstr) : jstr :=
  let oneLine := jtrim (Js (replace_runs is_space 32 false (units content))) in
  if jlength oneLine =? 0 then DEFAULT_TITLE
  else if jlength oneLine <=? 48 then oneLine else jtake 47 oneLine +++ Js [8230%N].

(** ** Statements *)

Definition scope_of (t : ChatThread) : ThreadScope := {| sc_workspaceId := th_workspaceId t; sc_userId := th_userId t |}.

(** [where: { workspaceId, userId }] *)
Definition mine (scope : ThreadScope) (t : ChatThread) : bool :=
  jeqb (th_workspaceId t) (sc_workspaceId scope) && jeqb (th_userId t) (sc_userId scope).

Definition in_thread (threadId : jstr) (m : ChatMessage) : bool := jeqb (cm_threadId m) threadId.

(** [updatedAt DESC] and [createdAt ASC] *)
Definition more_recent (a b : ChatThread) : bool := th_updatedAt b <? th_updatedAt a.
Definition earlier_turn (a b : ChatMessage) : bool := cm_createdAt a <? cm_createdAt b.

Definition threads_of (scope : ThreadScope) (c : ChatTables) : list ChatThread :=
  sort_by more_recent (List.filter (mine scope) (chat_threads c)).

Definition turns_of (threadId : jstr) (c : ChatTables) : list ChatMessage :=
  sort_by earlier_turn (List.filter (in_thread threadId) (chat_messages c)).

(** [DELETE FROM chat_threads WHERE id IN (…)], with the cascade of the messages. *)
Definition delete_threads (ids : list jstr) (c : ChatTables) : ChatTables :=
  {| chat_threads := List.filter (fun t => negb (listed (th_id t) ids)) (chat_threads c);
     chat_messages := List.filter (fun m => negb (listed (cm_threadId m) ids)) (chat_messages c) |}.

Definition delete_messages (ids : list jstr) (c : ChatTables) : ChatTables :=
  {| chat_threads := chat_threads c;
     chat_messages := List.filter (fun m => negb (listed (cm_id m) ids)) (chat_messages c) |}.

Definition update_thread (row : ChatThread) (c : ChatTables) : ChatTables :=
  {| chat_threads := map (fun t => if jeqb (th_id t) (th_id row) then row else t) (chat_threads c); chat_messages := chat_messages c |}.

(** [threads.save(thread)]: the row of that id is replaced, or inserted when there is none. *)
Definition save_thread (row : ChatThread) (c : ChatTables) : ChatTables :=
  if listed (th_id row) (map th_id (chat_threads c)) then update_thread row c
  else {| chat_threads := chat_threads c ++ [row]; chat_messages := chat_messages c |}.

(** ** The service *)

Section Service.
Context (config : ChatConfig).

Definition listThreads (scope : ThreadScope) (c : ChatTables) : list ChatThread :=
  take (Z.to_nat (maxThreads config)) (threads_of scope c).

Definition requireThread (scope : ThreadScope) (threadId : jstr) (c : ChatTables) : result chat_error ChatThread :=
  match find_first (fun t => jeqb (th_id t) threadId && mine scope t) (chat_threads c) with
  | None => Err thread_not_found
  | Some thread => Ok thread
  end.

Definition threadWithMessages (scope : ThreadScope) (threadId : jstr) (c : ChatTables)
    : result chat_error (ChatThread * list ChatMessage) :=
  thread ← requireThread scope threadId c;
  Ok (thread, take (Z.to_nat (maxMessagesPerThread config)) (turns_of (th_id thread) c)).

Definition pruneThreads (scope : ThreadScope) (c : ChatTables) : ChatTables :=
  match drop (Z.to_nat (maxThreads config)) (threads_of scope c) with
  | [] => c
  | stale => delete_threads (map th_id stale) c
  end.

Definition pruneMessages (threadId : jstr) (c : ChatTables) : ChatTables :=
  let keep := maxMessagesPerThread config in
  let total := Z.of_nat (length (List.filter (in_thread threadId) (chat_messages c))) in
  if total <=? keep then c
  else delete_messages (map cm_id (take (Z.to_nat (total - keep)) (turns_of threadId c))) c.

Definition createThread (scope : ThreadScope) (modelId uuid : jstr) (now : Z) (c : ChatTables) : ChatTables * ChatThread :=
  let thread := {| th_id := uuid; th_workspaceId := sc_workspaceId scope; th_userId := sc_userId scope;
                   th_title := DEFAULT_TITLE; th_modelId := modelId; th_createdAt := now; th_updatedAt := now |} in
  (pruneThreads scope {| chat_threads := chat_threads c ++ [thread]; chat_messages := chat_messages c |}, thread).

Definition with_model (modelId : jstr) (t : ChatThread) : ChatThread :=
  {| th_id := th_id t; th_workspaceId := th_workspaceId t; th_userId := th_userId t; th_title := th_title t;
     th_modelId := modelId; th_createdAt := th_createdAt t; th_updatedAt := th_updatedAt t |}.

Definition setThreadModel (scope : ThreadScope) (threadId modelId : jstr) (c : ChatTables)
    : result chat_error (ChatTables * ChatThread) :=
  thread ← requireThread scope threadId c;
  let thread := with_model modelId thread in
  Ok (save_thread thread c, thread).

Record AppendInput := {
  ap_scope : ThreadScope;
  ap_threadId : jstr;
  ap_role : ChatRole;
  ap_content : jstr;
  ap_error : option jstr
}.

Definition withinMessageCap (input : AppendInput) : result chat_error (jstr * option jstr) :=
  let max := maxMessageChars config in
  let error := ap_error input in
  if jlength (ap_content input) <=? max then Ok (ap_content input, error)
  else match ap_role input with
       | chat_user => Err (message_too_long max)
       | chat_assistant =>
           Ok (jslice 0 max (ap_content input),
               Some (jtake MAX_ERROR_CHARS match present error with Some error => error +++ " " +++ TRUNCATED | None => TRUNCATED end))
       end.

(** The thread after a turn: its opening question names it, once. *)
Definition touched (input : AppendInput) (content : jstr) (now : Z) (t : ChatThread) : ChatThread :=
  {| th_id := th_id t; th_workspaceId := th_workspaceId t; th_userId := th_userId t;
     th_title := if bool_decide (ap_role input = chat_user) && jeqb (th_title t) DEFAULT_TITLE then titleFrom content else th_title t;
     th_modelId := th_modelId t; th_createdAt := th_createdAt t; th_updatedAt := now |}.

(** The insert refuses an [error] its [varchar(512)] cannot hold. *)
Definition appendMessage (input : AppendInput) (uuid : jstr) (now : Z) (c : ChatTables)
    : result chat_error (ChatTables * ChatMessage) :=
  bounded ← withinMessageCap input;
  thread ← requireThread (ap_scope input) (ap_threadId input) c;
  let message := {| cm_id := uuid; cm_threadId := th_id thread; cm_role := ap_role input; cm_content := fst bounded;
                    cm_error := snd bounded; cm_createdAt := now |} in
  throw error_too_wide when match cm_error message with Some e => MAX_ERROR_CHARS <? jlength e | None => false end;
  let c := {| chat_threads := chat_threads c; chat_messages := chat_messages c ++ [message] |} in
  let c := save_thread (touched input (fst bounded) now thread) c in
  Ok (pruneMessages (th_id thread) c, message).

Definition deleteThread (scope : ThreadScope) (threadId : jstr) (c : ChatTables) : result chat_error ChatTables :=
  thread ← requireThread scope threadId c;
  Ok (delete_threads [th_id thread] c).

(** ** A history of calls *)

Inductive chat_call :=
| call_create (scope : ThreadScope) (modelId uuid : jstr) (now : Z)
| call_model (scope : ThreadScope) (threadId modelId : jstr)
| call_append (input : AppendInput) (uuid : jstr) (now : Z)
| call_delete (scope : ThreadScope) (threadId : jstr).

Definition call_scope (call : chat_call) : ThreadScope :=
  match call with call_create s _ _ _ | call_model s _ _ | call_delete s _ => s | call_append input _ _ => ap_scope input end.

(** A call that throws leaves the tables alone. *)
Definition serve_call (call : chat_call) (c : ChatTables) : ChatTables :=
  match call with
  | call_create scope modelId uuid now => fst (createThread scope modelId uuid now c)
  | call_model scope threadId modelId => match setThreadModel scope threadId modelId c with Ok (c, _) => c | Err _ => c end
  | call_append input uuid now => match appendMessage input uuid now c with Ok (c, _) => c | Err _ => c end
  | call_delete scope threadId => match deleteThread scope threadId c with Ok c => c | Err _ => c end
  end.

(** [randomUUID()] names no row that is there. *)
Definition fresh_call (call : chat_call) (c : ChatTables) : Prop :=
  match call with
  | call_create _ _ uuid _ => uuid ∉ map th_id (chat_threads c)
  | call_append _ uuid _ => uuid ∉ map cm_id (chat_messages c)
  | _ => True
  end.

Inductive chat_reachable : ChatTables -> Prop :=
| chat_start : chat_reachable {| chat_threads := []; chat_messages := [] |}
| chat_step call c : chat_reachable c -> fresh_call call c -> chat_reachable (serve_call call c).
End Service.

Lemma more_recent_weak : (forall a b, more_recent a b = false \/ more_recent b a = false) /\
  (forall a b c, more_recent b a = false -> more_recent c b = false -> more_recent c a = false).
Proof. unfold more_recent. split; intros *; rewrite ?Z.ltb_ge; lia. Qed.

Lemma earlier_turn_weak : (forall a b, earlier_turn a b = false \/ earlier_turn b a = false) /\
  (forall a b c, earlier_turn b a = false -> earlier_turn c b = false -> earlier_turn c a = false).
Proof. unfold earlier_turn. split; intros *; rewrite ?Z.ltb_ge; lia. Qed.

(** ** Lemmas: the tables' keys *)

Record keys_ok (c : ChatTables) : Prop := {
  ko_threads : NoDup (map th_id (chat_threads c));
  ko_messages : NoDup (map cm_id (chat_messages c));
  ko_parent : forall m, m ∈ chat_messages c -> cm_threadId m ∈ map th_id (chat_threads c)
}.

Lemma delete_threads_keys ids c : keys_ok c -> keys_ok (delete_threads ids c).
Proof.
  intros [H1 H2 H3]. split; cbn [chat_threads chat_messages delete_threads]; [by apply nodup_filter..|].
  intros m [Hm Hl]%elem_of_filter_b. destruct (proj1 (list_elem_of_fmap _ _ _) (H3 m Hm)) as (t & Ht & Hin).
  rewrite Ht. apply list_elem_of_fmap_2, elem_of_filter_b. by rewrite <- Ht.
Qed.

Lemma delete_messages_keys ids c : keys_ok c -> keys_ok (delete_messages ids c).
Proof.
  intros [H1 H2 H3]. split; cbn [chat_threads chat_messages delete_messages]; [done|by apply nodup_filter|].
  intros m [Hm _]%elem_of_filter_b. by apply H3.
Qed.

Lemma save_thread_found row c : th_id row ∈ map th_id (chat_threads c) -> save_thread row c = update_thread row c.
Proof. intros H%listed_iff. unfold save_thread. by rewrite H. Qed.

Lemma update_thread_ids row c : map th_id (chat_threads (update_thread row c)) = map th_id (chat_threads c).
Proof.
  cbn. rewrite map_map. apply map_ext. intros t. destruct (jeqb (th_id t) (th_id row)) eqn:E; [|done]. by apply jeqb_eq in E.
Qed.

Lemma update_thread_keys row c : keys_ok c -> keys_ok (update_thread row c).
Proof.
  intros [H1 H2 H3]. split; [by rewrite update_thread_ids|done|]. intros m Hm. rewrite update_thread_ids. by apply H3.
Qed.

Lemma pruneThreads_keys config scope c : keys_ok c -> keys_ok (pruneThreads config scope c).
Proof. intros H. unfold pruneThreads. destruct (drop _ _); [done|by apply delete_threads_keys]. Qed.

Lemma pruneMessages_keys config id c : keys_ok c -> keys_ok (pruneMessages config id c).
Proof. intros H. unfold pruneMessages. destruct (_ <=? _); [done|by apply delete_messages_keys]. Qed.

Lemma requireThread_ok scope id c t : requireThread scope id c = Ok t -> t ∈ chat_threads c /\ th_id t = id /\ mine scope t = true.
Proof.
  unfold requireThread. destruct (find_first _ _) as [t'|] eqn:E; [|done]. intros [= ->].
  apply find_first_some in E as [Hin [Hid Hm]%andb_true_iff]. apply jeqb_eq in Hid. done.
Qed.

(** ** Lemmas: what each statement does to a transcript *)

(** A scope sees the same threads, and in each of them the same turns. *)
Definition same_view (s : ThreadScope) (c c' : ChatTables) : Prop :=
  List.filter (mine s) (chat_threads c') = List.filter (mine s) (chat_threads c) /\
  forall t, t ∈ chat_threads c -> mine s t = true ->
  List.filter (in_thread (th_id t)) (chat_messages c') = List.filter (in_thread (th_id t)) (chat_messages c).

Lemma same_view_refl s c : same_view s c c.
Proof. done. Qed.

Lemma same_view_trans s c1 c2 c3 : same_view s c1 c2 -> same_view s c2 c3 -> same_view s c1 c3.
Proof.
  intros [T1 M1] [T2 M2]. split; [by rewrite T2|]. intros t Ht Hs. rewrite M2, M1; try done.
  assert (Hin : t ∈ List.filter (mine s) (chat_threads c2)) by (by rewrite T1, elem_of_filter_b). by apply elem_of_filter_b in Hin as [? _].
Qed.

Lemma mine_spec s t : mine s t = true <-> scope_of t = s.
Proof.
  unfold mine, scope_of. rewrite andb_true_iff, !jeqb_eq. destruct s as [w u]; cbn. split; [by intros [-> ->]|]. by intros [= -> ->].
Qed.

Lemma mine_other s s' t : s <> s' -> mine s t = true -> mine s' t = false.
Proof. rewrite mine_spec. intros Hne <-. apply not_true_iff_false. rewrite mine_spec. done. Qed.

Section Elsewhere.
Context (s s' : ThreadScope) (Hne : s <> s').

Lemma delete_threads_view ids c : keys_ok c -> (forall t, t ∈ chat_threads c -> th_id t ∈ ids -> mine s t = true) ->
  same_view s' c (delete_threads ids c).
Proof.
  intros Hk Hids. assert (Hnot : forall t, t ∈ chat_threads c -> mine s' t = true -> th_id t ∉ ids).
  { intros t Ht Hm Hin. by rewrite (mine_other s s' t Hne (Hids t Ht Hin)) in Hm. }
  split; cbn [delete_threads chat_threads chat_messages].
  - rewrite filter_comm. apply filter_unlisted. intros t [Ht Hm]%elem_of_filter_b. by apply Hnot.
  - intros t Ht Hm. rewrite filter_comm. apply filter_unlisted. intros m [_ ->%jeqb_eq]%elem_of_filter_b. by apply Hnot.
Qed.

Lemma delete_messages_view ids c : (forall m, m ∈ chat_messages c -> cm_id m ∈ ids -> exists t, t ∈ chat_threads c /\ mine s t = true /\ cm_threadId m = th_id t) ->
  keys_ok c -> same_view s' c (delete_messages ids c).
Proof.
  intros Hids Hk. split; [done|]. intros t' Ht' Hm'. cbn [delete_messages chat_messages]. rewrite filter_comm. apply filter_unlisted.
  intros m [Hm He%jeqb_eq]%elem_of_filter_b Hin. destruct (Hids m Hm Hin) as (t & Ht & Hs & E).
  assert (t = t') as -> by (apply (nodup_map_inj th_id (chat_threads c)); [apply Hk|done|done|congruence]).
  by rewrite (mine_other s s' t' Hne Hs) in Hm'.
Qed.

Lemma update_thread_view row old c : keys_ok c -> old ∈ chat_threads c -> th_id old = th_id row -> mine s old = true -> mine s row = true ->
  same_view s' c (update_thread row c).
Proof.
  intros Hk Hold Hid Ho Hr. split; [|done]. cbn [update_thread chat_threads].
  assert (Hsame : forall t, t ∈ chat_threads c -> th_id t = th_id row -> t = old).
  { intros t Ht E. apply (nodup_map_inj th_id (chat_threads c)); [apply Hk|done|done|congruence]. }
  revert Hsame. generalize (chat_threads c). intros l. induction l as [|t l IH]; intros Hsame; [done|]. cbn [map List.filter].
  rewrite IH by (intros; apply Hsame; [by right|done]). destruct (jeqb (th_id t) (th_id row)) eqn:E; [|done].
  apply jeqb_eq in E. rewrite (Hsame t ltac:(by left) E). by rewrite !(mine_other s s' _ Hne).
Qed.

Lemma add_thread_view t c : mine s t = true -> same_view s' c {| chat_threads := chat_threads c ++ [t]; chat_messages := chat_messages c |}.
Proof.
  intros Hm. split; [|done]. cbn [chat_threads]. rewrite List.filter_app. cbn [List.filter].
  by rewrite (mine_other s s' t Hne Hm), app_nil_r.
Qed.

Lemma add_message_view m t c : keys_ok c -> t ∈ chat_threads c -> mine s t = true -> cm_threadId m = th_id t ->
  same_view s' c {| chat_threads := chat_threads c; chat_messages := chat_messages c ++ [m] |}.
Proof.
  intros Hk Ht Hm E. split; [done|]. intros t' Ht' Hm'. cbn [chat_messages]. rewrite List.filter_app. cbn [List.filter].
  replace (in_thread (th_id t') m) with false; [by rewrite app_nil_r|]. symmetry. apply jeqb_neq. rewrite E. intros E'.
  assert (t = t') as -> by (by apply (nodup_map_inj th_id (chat_threads c)); [apply Hk| | |]).
  by rewrite (mine_other s s' t' Hne Hm) in Hm'.
Qed.
End Elsewhere.

(** What a scope reads depends on its view alone. *)
Lemma find_mine s id l : find_first (fun t => jeqb (th_id t) id && mine s t) l = find_first (fun t => jeqb (th_id t) id) (List.filter (mine s) l).
Proof.
  unfold find_first. induction l as [|t l IH]; [done|]. cbn [List.find List.filter]. destruct (mine s t); cbn [List.find].
  - by rewrite andb_true_r, IH.
  - by rewrite andb_false_r.
Qed.

Lemma same_view_reads config s c c' : same_view s c c' ->
  listThreads config s c' = listThreads config s c /\ forall id, threadWithMessages config s id c' = threadWithMessages config s id c.
Proof.
  intros [HT HM]. split; [unfold listThreads, threads_of; by rewrite HT|]. intros id. unfold threadWithMessages.
  assert (Hr : requireThread s id c' = requireThread s id c) by (unfold requireThread; by rewrite !find_mine, HT). rewrite Hr.
  destruct (requireThread s id c) as [t|e] eqn:E; [|done]. apply requireThread_ok in E as (Ht & _ & Hm).
  cbn. unfold turns_of. by rewrite HM.
Qed.

(** ** Lemmas: the prunes *)

Lemma in_take {A} n (l : list A) x : x ∈ take n l -> x ∈ l.
Proof. intros H. rewrite <- (take_drop n l). apply elem_of_app. by left. Qed.

Lemma in_drop {A} n (l : list A) x : x ∈ drop n l -> x ∈ l.
Proof. intros H. rewrite <- (take_drop n l). apply elem_of_app. by right. Qed.

Lemma elem_of_turns id c m : m ∈ turns_of id c <-> m ∈ chat_messages c /\ cm_threadId m = id.
Proof. unfold turns_of. rewrite sort_by_perm, elem_of_filter_b. unfold in_thread. by rewrite jeqb_eq. Qed.

Lemma elem_of_threads s c t : t ∈ threads_of s c <-> t ∈ chat_threads c /\ mine s t = true.
Proof. unfold threads_of. by rewrite sort_by_perm, elem_of_filter_b. Qed.


Section Prunes.
Context (config : ChatConfig).

Lemma threads_of_pruned scope c : keys_ok c ->
  threads_of scope (pruneThreads config scope c) = take (Z.to_nat (maxThreads config)) (threads_of scope c).
Proof.
  intros Hk. set (n := Z.to_nat (maxThreads config)).
  assert (E : threads_of scope (delete_threads (map th_id (drop n (threads_of scope c))) c) = take n (threads_of scope c)).
  { unfold threads_of at 1. cbn [delete_threads chat_threads]. rewrite filter_comm.
    rewrite (sort_by_filter more_recent) by apply more_recent_weak. fold (threads_of scope c).
    apply filter_dropped, nodup_sorted, nodup_filter, Hk. }
  unfold pruneThreads. fold n. destruct (drop n (threads_of scope c)) as [|t stale] eqn:Ed; [|exact E].
  rewrite <- (take_drop n (threads_of scope c)) at 1. by rewrite Ed, app_nil_r.
Qed.

Lemma turns_of_pruned threadId c : keys_ok c ->
  turns_of threadId (pruneMessages config threadId c) =
  drop (length (turns_of threadId c) - Z.to_nat (maxMessagesPerThread config)) (turns_of threadId c).
Proof.
  intros Hk. assert (Hl : length (turns_of threadId c) = length (List.filter (in_thread threadId) (chat_messages c)))
    by (unfold turns_of; by rewrite sort_by_perm).
  unfold pruneMessages. rewrite <- Hl. destruct (Z.leb_spec (Z.of_nat (length (turns_of threadId c))) (maxMessagesPerThread config)).
  - replace (_ - _)%nat with 0%nat by lia. done.
  - unfold turns_of at 1. cbn [delete_messages chat_messages]. rewrite filter_comm.
    rewrite (sort_by_filter earlier_turn) by apply earlier_turn_weak. fold (turns_of threadId c).
    destruct (Z.leb_spec 0 (maxMessagesPerThread config)).
    + rewrite Z2Nat.inj_sub, Nat2Z.id by done. apply filter_taken, nodup_sorted, nodup_filter, Hk.
    + rewrite take_ge, drop_ge by lia. apply filter_listed. intros m Hm. by apply list_elem_of_fmap_2.
Qed.

Lemma turns_elsewhere threadId id c : keys_ok c -> id <> threadId -> turns_of id (pruneMessages config threadId c) = turns_of id c.
Proof.
  intros Hk Hne. unfold pruneMessages. destruct (_ <=? _); [done|]. unfold turns_of at 1. cbn [delete_messages chat_messages].
  rewrite filter_comm, filter_unlisted; [done|]. intros m [Hm He%jeqb_eq]%elem_of_filter_b (m' & Hid & Hin)%list_elem_of_fmap.
  apply in_take, elem_of_turns in Hin as [Hin' He'].
  assert (m = m') as -> by (by apply (nodup_map_inj cm_id (chat_messages c)); [apply Hk| | |]). congruence.
Qed.

Lemma pruneThreads_view s s' c : s <> s' -> keys_ok c -> same_view s' c (pruneThreads config s c).
Proof.
  intros Hne Hk. unfold pruneThreads. destruct (drop _ _) as [|t0 l0] eqn:Ed; [done|]. apply (delete_threads_view s s' Hne); [done|].
  intros t Ht (t' & Hid & Hin)%list_elem_of_fmap.
  rewrite <- Ed in Hin. apply in_drop, elem_of_threads in Hin as [Hin' Hm].
  assert (t = t') as -> by (by apply (nodup_map_inj th_id (chat_threads c)); [apply Hk| | |]). done.
Qed.

Lemma pruneMessages_view s s' t c : s <> s' -> keys_ok c -> t ∈ chat_threads c -> mine s t = true ->
  same_view s' c (pruneMessages config (th_id t) c).
Proof.
  intros Hne Hk Ht Hm. unfold pruneMessages. destruct (_ <=? _); [done|]. apply (delete_messages_view s s' Hne); [|done].
  intros m Hin (m' & Hid & Hin')%list_elem_of_fmap. exists t. split; [done|]. split; [done|].
  apply in_take, elem_of_turns in Hin' as [Hin2 He].
  by assert (m = m') as -> by (by apply (nodup_map_inj cm_id (chat_messages c)); [apply Hk| | |]).
Qed.

(** ** Lemmas: an append *)

Lemma appendMessage_ok input uuid now c c' m : appendMessage config input uuid now c = Ok (c', m) ->
  exists bounded t, withinMessageCap config input = Ok bounded /\ requireThread (ap_scope input) (ap_threadId input) c = Ok t /\
  m = {| cm_id := uuid; cm_threadId := th_id t; cm_role := ap_role input; cm_content := fst bounded; cm_error := snd bounded; cm_createdAt := now |} /\
  (forall e, snd bounded = Some e -> jlength e <= MAX_ERROR_CHARS) /\
  c' = pruneMessages config (th_id t) (update_thread (touched input (fst bounded) now t)
         {| chat_threads := chat_threads c; chat_messages := chat_messages c ++ [m] |}).
Proof.
  unfold appendMessage. intros (bounded & Hb & H)%bind_ok. apply bind_ok in H as (t & Ht & H).
  destruct (throw_if _ _) eqn:E; [|done]. apply throw_if_ok in E. injection H as <- <-. exists bounded, t. split; [done|].
  split; [done|]. split; [done|]. split.
  - cbn [cm_error] in E. intros e He. rewrite He in E. by apply Z.ltb_ge in E.
  - apply requireThread_ok in Ht as (Ht & _). rewrite save_thread_found; [done|exact (list_elem_of_fmap_2 th_id _ _ Ht)].
Qed.

Lemma setThreadModel_ok scope id modelId c c' t' : setThreadModel scope id modelId c = Ok (c', t') ->
  exists t, requireThread scope id c = Ok t /\ c' = update_thread (with_model modelId t) c.
Proof.
  intros (t & Ht & H)%bind_ok. injection H as <- _. exists t. split; [done|]. apply requireThread_ok in Ht as (Ht & _).
  rewrite save_thread_found; [done|exact (list_elem_of_fmap_2 th_id _ _ Ht)].
Qed.

Lemma add_message_keys m c : keys_ok c -> cm_id m ∉ map cm_id (chat_messages c) -> cm_threadId m ∈ map th_id (chat_threads c) ->
  keys_ok {| chat_threads := chat_threads c; chat_messages := chat_messages c ++ [m] |}.
Proof.
  intros [H1 H2 H3] Hf Hp. split; cbn [chat_threads chat_messages]; [done| |].
  - rewrite map_app. apply NoDup_app. split; [done|]. split; [|apply NoDup_singleton]. by intros x Hx ->%list_elem_of_singleton.
  - intros m' [Hm| ->%list_elem_of_singleton]%elem_of_app; [by apply H3|done].
Qed.

Lemma add_thread_keys t c : keys_ok c -> th_id t ∉ map th_id (chat_threads c) ->
  keys_ok {| chat_threads := chat_threads c ++ [t]; chat_messages := chat_messages c |}.
Proof.
  intros [H1 H2 H3] Hf. split; cbn [chat_threads chat_messages]; [|done|].
  - rewrite map_app. apply NoDup_app. split; [done|]. split; [|apply NoDup_singleton]. by intros x Hx ->%list_elem_of_singleton.
  - intros m Hm. rewrite map_app. apply elem_of_app. left. by apply H3.
Qed.

Lemma serve_call_keys call c : keys_ok c -> fresh_call call c -> keys_ok (serve_call config call c).
Proof.
  intros Hk Hf. destruct call as [s modelId uuid now|s id modelId|input uuid now|s id]; cbn [serve_call fresh_call] in *.
  - apply pruneThreads_keys. by apply add_thread_keys.
  - destruct (setThreadModel s id modelId c) as [[c' t]|e] eqn:E; [|done]. apply setThreadModel_ok in E as (t' & _ & ->). by apply update_thread_keys.
  - destruct (appendMessage config input uuid now c) as [[c' m]|e] eqn:E; [|done].
    apply appendMessage_ok in E as (b & t & _ & Ht & Hm & _ & ->). apply requireThread_ok in Ht as (Ht & _ & _).
    apply pruneMessages_keys, update_thread_keys, add_message_keys; [done|by rewrite Hm|]. rewrite Hm. by apply (list_elem_of_fmap_2 th_id).
  - destruct (deleteThread s id c) as [c'|e] eqn:E; [|done]. apply bind_ok in E as (t & _ & [= <-]). by apply delete_threads_keys.
Qed.

Lemma serve_call_view call c s' : keys_ok c -> fresh_call call c -> call_scope call <> s' -> same_view s' c (serve_call config call c).
Proof.
  intros Hk Hf Hne. destruct call as [s modelId uuid now|s id modelId|input uuid now|s id]; cbn [serve_call fresh_call call_scope] in *.
  - unfold createThread. cbn [fst]. set (t := {| th_id := uuid |}).
    eapply same_view_trans; [apply (add_thread_view s s' Hne t); unfold mine; cbn; by rewrite !jeqb_refl|].
    apply pruneThreads_view; [done|]. by apply add_thread_keys.
  - destruct (setThreadModel s id modelId c) as [[c' t]|e] eqn:E; [|done]. apply setThreadModel_ok in E as (t' & (Ht & Hid & Hm)%requireThread_ok & ->).
    by apply (update_thread_view s s' Hne (with_model modelId t') t').
  - destruct (appendMessage config input uuid now c) as [[c' m]|e] eqn:E; [|done].
    apply appendMessage_ok in E as (b & t & _ & Ht & Hm & _ & ->). apply requireThread_ok in Ht as (Ht & _ & Hs).
    set (c1 := {| chat_threads := chat_threads c; chat_messages := chat_messages c ++ [m] |}).
    assert (Hk1 : keys_ok c1) by (apply add_message_keys; [done|by rewrite Hm|]; rewrite Hm; by apply (list_elem_of_fmap_2 th_id)).
    set (row := touched input (fst b) now t). eapply same_view_trans; [apply (add_message_view (ap_scope input) s' Hne m t); [done..|by rewrite Hm]|].
    eapply same_view_trans; [apply (update_thread_view (ap_scope input) s' Hne row t); [done..|exact Hs|exact Hs]|].
    apply (pruneMessages_view (ap_scope input) s' row); [done|by apply update_thread_keys| |exact Hs].
    cbn [update_thread chat_threads]. apply list_elem_of_fmap. exists t. split; [|done]. change (th_id row) with (th_id t). by rewrite jeqb_refl.
  - destruct (deleteThread s id c) as [c'|e] eqn:E; [|done]. apply bind_ok in E as (t & (Ht & Hid & Hm)%requireThread_ok & [= <-]).
    apply (delete_threads_view s s' Hne); [done|]. intros t' Ht' E%list_elem_of_singleton.
    by assert (t' = t) as -> by (by apply (nodup_map_inj th_id (chat_threads c)); [apply Hk| | |]).
Qed.
End Prunes.

(** ** Lemmas: the caps *)

(** One line of at most forty-eight units, spaces its only white space. *)
Definition list_label (title : jstr) : Prop :=
  jlength title <= 48 /\ Forall (fun c => is_space c = false \/ c = 32%N) (units title).

Lemma default_title_label : list_label DEFAULT_TITLE.
Proof. split; [by vm_compute|]. rewrite Forall_forall. intros c Hc. by repeat (apply elem_of_cons in Hc as [->|Hc]; [vm_compute; auto|]); apply elem_of_nil in Hc. Qed.

Lemma titleFrom_label content : list_label (titleFrom content).
Proof.
  unfold titleFrom. set (u := replace_runs is_space 32 false (units content)).
  assert (Hu : Forall (fun c => is_space c = false \/ c = 32%N) (strip_ends is_space u)).
  { apply strip_ends_all, replace_runs_all; by auto. }
  unfold jtrim. cbn [units]. change (trim_units u) with (strip_ends is_space u).
  destruct (_ =? 0); [apply default_title_label|]. destruct (Z.leb_spec (jlength (Js (strip_ends is_space u))) 48); [by split|].
  split; cbn [units japp jtake].
  - unfold jlength, jtake, japp. cbn [units]. rewrite length_app, length_take. cbn. lia.
  - apply Forall_app. split; [by apply Forall_take|]. apply Forall_singleton. by left.
Qed.

Section Caps.
Context (config : ChatConfig).

Record caps_ok (c : ChatTables) : Prop := {
  co_threads : forall s, Z.of_nat (length (List.filter (mine s) (chat_threads c))) <= maxThreads config;
  co_turns : forall id, Z.of_nat (length (List.filter (in_thread id) (chat_messages c))) <= maxMessagesPerThread config;
  co_chars : forall m, m ∈ chat_messages c -> jlength (cm_content m) <= maxMessageChars config;
  co_errors : forall m e, m ∈ chat_messages c -> cm_error m = Some e -> jlength e <= MAX_ERROR_CHARS;
  co_titles : forall t, t ∈ chat_threads c -> list_label (th_title t)
}.

Lemma sublist_filter_length {A} (p : A -> bool) l l' : sublist l l' -> (length (List.filter p l) <= length (List.filter p l'))%nat.
Proof. induction 1 as [|x l l' _ IH|x l l' _ IH]; cbn; [done| |]; destruct (p x); cbn; lia. Qed.

Lemma sublist_elem {A} (l l' : list A) x : sublist l l' -> x ∈ l -> x ∈ l'.
Proof. induction 1 as [|y l l' _ IH|y l l' _ IH]; [done| |]; rewrite ?elem_of_cons; naive_solver. Qed.

(** A delete keeps the caps. *)
Lemma caps_sublist c c' : sublist (chat_threads c') (chat_threads c) -> sublist (chat_messages c') (chat_messages c) -> caps_ok c -> caps_ok c'.
Proof.
  intros Ht Hm [H1 H2 H3 H4 H5]. split.
  - intros s. specialize (H1 s). pose proof (sublist_filter_length (mine s) _ _ Ht). lia.
  - intros id. specialize (H2 id). pose proof (sublist_filter_length (in_thread id) _ _ Hm). lia.
  - intros m Hin. apply H3. by eapply sublist_elem.
  - intros m e Hin. apply H4. by eapply sublist_elem.
  - intros t Hin. apply H5. by eapply sublist_elem.
Qed.

Lemma filter_map_same {A} (p : A -> bool) (f : A -> A) l : (forall x, x ∈ l -> p (f x) = p x) ->
  List.filter p (map f l) = map f (List.filter p l).
Proof.
  induction l as [|x l IH]; intros H; [done|]. cbn [map List.filter]. rewrite (H x) by left.
  rewrite IH by (intros; apply H; by right). by destruct (p x).
Qed.

Lemma update_thread_caps row old c : keys_ok c -> old ∈ chat_threads c -> th_id old = th_id row -> scope_of row = scope_of old ->
  list_label (th_title row) -> caps_ok c -> caps_ok (update_thread row c).
Proof.
  intros Hk Hold Hid Hs Ht [H1 H2 H3 H4 H5]. split; cbn [update_thread chat_messages chat_threads]; [|done..|].
  - intros s. rewrite filter_map_same, length_map; [done|]. intros t Hin. destruct (jeqb (th_id t) (th_id row)) eqn:E; [|done].
    apply jeqb_eq in E. assert (t = old) as -> by (apply (nodup_map_inj th_id (chat_threads c)); [apply Hk|done|done|congruence]).
    unfold mine. injection Hs as -> ->. done.
  - intros t (t' & -> & Hin)%list_elem_of_fmap. destruct (jeqb _ _); [done|by apply H5].
Qed.

Lemma create_caps s modelId uuid now c : 0 <= maxThreads config -> keys_ok c -> uuid ∉ map th_id (chat_threads c) -> caps_ok c ->
  caps_ok (fst (createThread config s modelId uuid now c)).
Proof.
  intros Hpos Hk Hf Hc. unfold createThread. cbn [fst]. set (t := {| th_id := uuid |}).
  set (c1 := {| chat_threads := chat_threads c ++ [t]; chat_messages := chat_messages c |}).
  assert (Hk1 : keys_ok c1) by by apply add_thread_keys.
  assert (Hsub : sublist (chat_threads (pruneThreads config s c1)) (chat_threads c1) /\ sublist (chat_messages (pruneThreads config s c1)) (chat_messages c1)).
  { unfold pruneThreads. destruct (drop _ _); [done|]. split; apply filter_sublist. }
  destruct Hsub as [Ht Hm]. destruct Hc as [H1 H2 H3 H4 H5]. split.
  - intros s'. destruct (decide (s = s')) as [<-|Hne].
    + pose proof (threads_of_pruned config s c1 Hk1) as E. apply (f_equal length) in E. unfold threads_of at 1 in E.
      rewrite sort_by_perm, length_take in E. lia.
    + assert (Hv : same_view s' c1 (pruneThreads config s c1)) by by apply pruneThreads_view.
      rewrite (proj1 Hv). cbn [c1 chat_threads]. rewrite List.filter_app. cbn [List.filter].
      replace (mine s' t) with false; [rewrite app_nil_r; apply H1|]. symmetry. apply (mine_other s s' t Hne).
      unfold mine. cbn. by rewrite !jeqb_refl.
  - intros id. specialize (H2 id). pose proof (sublist_filter_length (in_thread id) _ _ Hm). cbn [c1 chat_messages] in *. lia.
  - intros m Hin. apply H3. by apply (sublist_elem _ _ _ Hm).
  - intros m e Hin. apply H4. by apply (sublist_elem _ _ _ Hm).
  - intros t' Hin%(sublist_elem _ _ _ Ht). apply elem_of_app in Hin as [Hin| ->%list_elem_of_singleton]; [by apply H5|apply default_title_label].
Qed.

Lemma withinMessageCap_content input b : 0 <= maxMessageChars config -> withinMessageCap config input = Ok b ->
  fst b = jtake (maxMessageChars config) (ap_content input) /\ jlength (fst b) <= maxMessageChars config /\
  (ap_role input = chat_user -> fst b = ap_content input).
Proof.
  intros Hpos. unfold withinMessageCap. destruct (Z.leb_spec (jlength (ap_content input)) (maxMessageChars config)) as [Hl|Hl].
  - intros [= <-]. cbn [fst]. split; [|done]. unfold jtake, jlength in *. rewrite take_ge by lia. by destruct (ap_content input).
  - destruct (ap_role input); [done|]. intros [= <-]. cbn [fst]. unfold jslice, jdrop. rewrite Z.sub_0_r.
    change (Z.to_nat 0) with 0%nat. rewrite drop_0. unfold jlength, jtake in *. cbn [units]. rewrite length_take.
    split; [done|]. split; [lia|done].
Qed.

Lemma append_caps input uuid now c c' m : 0 <= maxMessagesPerThread config -> 0 <= maxMessageChars config -> keys_ok c -> uuid ∉ map cm_id (chat_messages c) ->
  appendMessage config input uuid now c = Ok (c', m) -> caps_ok c -> caps_ok c'.
Proof.
  intros Hpos Hchars Hk Hf (b & t & Hb & Ht & Hm & He & ->)%appendMessage_ok [H1 H2 H3 H4 H5].
  apply requireThread_ok in Ht as (Ht & _ & _). set (c1 := {| chat_threads := chat_threads c; chat_messages := chat_messages c ++ [m] |}).
  assert (Hk1 : keys_ok c1) by (apply add_message_keys; [done|by rewrite Hm|]; rewrite Hm; by apply (list_elem_of_fmap_2 th_id)).
  set (row := touched input (fst b) now t). assert (Hk2 : keys_ok (update_thread row c1)) by by apply update_thread_keys.
  assert (Hsub : sublist (chat_messages (pruneMessages config (th_id t) (update_thread row c1))) (chat_messages c1) /\
                 chat_threads (pruneMessages config (th_id t) (update_thread row c1)) = chat_threads (update_thread row c1)).
  { unfold pruneMessages. destruct (_ <=? _); [done|]. split; [apply filter_sublist|done]. }
  destruct Hsub as [Hsub Hths].
  assert (Htitle : list_label (th_title row)) by (cbn; destruct (_ && _); [apply titleFrom_label|by apply H5]). split.
  - intros s. rewrite Hths. cbn [update_thread chat_threads c1]. rewrite filter_map_same, length_map; [done|]. intros t' Hin.
    destruct (jeqb (th_id t') (th_id row)) eqn:E; [|done]. apply jeqb_eq in E. change (th_id row) with (th_id t) in E.
    by assert (t' = t) as -> by (by apply (nodup_map_inj th_id (chat_threads c)); [apply Hk| | |]).
  - intros id. destruct (decide (id = th_id t)) as [->|Hne].
    + pose proof (turns_of_pruned config (th_id t) _ Hk2) as E. apply (f_equal length) in E. rewrite length_drop in E.
      unfold turns_of at 1 in E. rewrite sort_by_perm in E. lia.
    + pose proof (turns_elsewhere config (th_id t) id _ Hk2 Hne) as E. apply (f_equal length) in E. unfold turns_of in E.
      rewrite !sort_by_perm in E. rewrite E. cbn [update_thread chat_messages c1]. rewrite List.filter_app. cbn [List.filter].
      replace (in_thread id m) with false; [rewrite app_nil_r; apply H2|]. symmetry. apply jeqb_neq. rewrite Hm. cbn. congruence.
  - intros m' Hin%(sublist_elem _ _ _ Hsub). apply elem_of_app in Hin as [Hin| ->%list_elem_of_singleton]; [by apply H3|].
    rewrite Hm. cbn [cm_content]. by apply (withinMessageCap_content input b Hchars).
  - intros m' e Hin%(sublist_elem _ _ _ Hsub). apply elem_of_app in Hin as [Hin| ->%list_elem_of_singleton]; [by apply H4|].
    rewrite Hm. cbn [cm_error]. apply He.
  - intros t' Hin. rewrite Hths in Hin. apply list_elem_of_fmap in Hin as (t0 & -> & Hin). destruct (jeqb _ _); [done|by apply H5].
Qed.

Context (Hthreads : 0 <= maxThreads config) (Hturns : 0 <= maxMessagesPerThread config) (Hchars : 0 <= maxMessageChars config).

Lemma serve_call_caps call c : keys_ok c -> fresh_call call c -> caps_ok c -> caps_ok (serve_call config call c).
Proof.
  intros Hk Hf Hc. destruct call as [s modelId uuid now|s id modelId|input uuid now|s id]; cbn [serve_call fresh_call] in *.
  - by apply create_caps.
  - destruct (setThreadModel s id modelId c) as [[c' t]|e] eqn:E; [|done]. apply setThreadModel_ok in E as (t' & (Ht & Hid & Hm)%requireThread_ok & ->).
    apply (update_thread_caps _ t'); [done..| |done]. exact (co_titles _ Hc t' Ht).
  - destruct (appendMessage config input uuid now c) as [[c' m]|e] eqn:E; [|done]. by eapply append_caps.
  - destruct (deleteThread s id c) as [c'|e] eqn:E; [|done]. apply bind_ok in E as (t & _ & [= <-]).
    eapply caps_sublist; [apply filter_sublist..|done].
Qed.

Lemma reachable_ok c : chat_reachable config c -> keys_ok c /\ caps_ok c.
Proof.
  induction 1 as [|call c _ [Hk Hc] Hf].
  - split; split; cbn; try (intros; lia); try (by intros ? ?%elem_of_nil); try (by intros ? ? ?%elem_of_nil); apply NoDup_nil_2.
  - split; [by apply serve_call_keys|by apply serve_call_caps].
Qed.
End Caps.

Lemma reachable_keys config c : chat_reachable config c -> keys_ok c.
Proof.
  induction 1 as [|call c _ Hk Hf]; [|by apply serve_call_keys]. split; cbn; [apply NoDup_nil_2..|by intros ? ?%elem_of_nil].
Qed.

Lemma jendsWith_app a b : jendsWith (a +++ b) b = true.
Proof. unfold jendsWith, japp; cbn [units]. rewrite reverse_app. apply prefixb_spec. by eexists. Qed.

Lemma pruned_require config s id threadId c : requireThread s id (pruneMessages config threadId c) = requireThread s id c.
Proof. unfold pruneMessages. by destruct (_ <=? _). Qed.

Lemma saved_require s row t c : keys_ok c -> t ∈ chat_threads c -> th_id t = th_id row -> mine s row = true ->
  requireThread s (th_id row) (update_thread row c) = Ok row.
Proof.
  intros Hk Ht Hid Hm. unfold requireThread. destruct (find_first _ _) as [r|] eqn:E.
  - apply find_first_some in E as [(t' & -> & Hin)%list_elem_of_fmap [E _]%andb_true_iff]. apply jeqb_eq in E.
    destruct (jeqb (th_id t') (th_id row)) eqn:E'; [done|]. by rewrite E, jeqb_refl in E'.
  - rewrite find_first_none in E. specialize (E row). cbn beta in E. rewrite jeqb_refl, Hm in E. discriminate E.
    cbn [update_thread chat_threads]. apply list_elem_of_fmap. exists t. split; [|done]. by rewrite Hid, jeqb_refl.
Qed.

(** The UTF-16 units of content a member has stored in a workspace. *)
Definition stored_chars (s : ThreadScope) (c : ChatTables) : Z :=
  sumZ (map (fun t => sumZ (map (fun m => jlength (cm_content m)) (turns_of (th_id t) c))) (threads_of s c)).

Lemma sumZ_le_length {A} (f : A -> Z) k l : (forall x, x ∈ l -> f x <= k) -> sumZ (map f l) <= Z.of_nat (length l) * k.
Proof.
  induction l as [|x l IH]; intros H; [done|]. cbn [map sumZ foldr length]. fold (sumZ (map f l)).
  specialize (IH ltac:(intros; apply H; by right)). specialize (H x ltac:(by left)). lia.
Qed.

(** ** Theorems *)

(** What a member can store is bounded, by the product the configuration names, as long
    as calls do not overlap: a member of a workspace has at most [maxThreads] threads
    there, a thread at most [maxMessagesPerThread] turns, a turn at most
    [maxMessageChars] units and an error its column holds; a title is one line of at most
    forty-eight units; and every turn stored is a turn of a stored thread. *)
Theorem transcripts_are_bounded config c s :
  0 <= maxThreads config -> 0 <= maxMessagesPerThread config -> 0 <= maxMessageChars config -> chat_reachable config c ->
  caps_ok config c /\ stored_chars s c <= maxThreads config * maxMessagesPerThread config * maxMessageChars config /\
  (forall m, m ∈ chat_messages c -> exists t, t ∈ chat_threads c /\ m ∈ turns_of (th_id t) c).
Proof.
  intros Ht Hm Hc Hr. destruct (reachable_ok config Ht Hm Hc c Hr) as [Hk Hcaps]. split; [done|]. split.
  - unfold stored_chars. etrans.
    + apply (sumZ_le_length _ (maxMessagesPerThread config * maxMessageChars config)). intros t _. etrans.
      * apply (sumZ_le_length _ (maxMessageChars config)). intros m [Hin _]%elem_of_turns. exact (co_chars _ _ Hcaps m Hin).
      * apply Z.mul_le_mono_nonneg_r; [done|]. unfold turns_of. rewrite sort_by_perm. apply Hcaps.
    + rewrite <- Z.mul_assoc. apply Z.mul_le_mono_nonneg_r; [by apply Z.mul_nonneg_nonneg|]. unfold threads_of. rewrite sort_by_perm. apply Hcaps.
  - intros m Hin. pose proof (ko_parent _ Hk m Hin) as (t & E & Ht')%list_elem_of_fmap. exists t.
    split; [done|]. by rewrite elem_of_turns.
Qed.

(** C35. A call in one scope is invisible in every other: another member, or the same
    member in another workspace, lists and reads exactly what they did, whether the
    call went through or threw; what a scope reads is its own threads and their turns;
    and a thread of someone else is answered as a thread there is not. *)
Theorem a_call_stays_in_its_scope config c call s :
  chat_reachable config c -> fresh_call call c -> s <> call_scope call ->
  listThreads config s (serve_call config call c) = listThreads config s c /\
  (forall id, threadWithMessages config s id (serve_call config call c) = threadWithMessages config s id c) /\
  (forall id t turns, threadWithMessages config s id c = Ok (t, turns) ->
     scope_of t = s /\ th_id t = id /\ Forall (fun m => cm_threadId m = id) turns) /\
  (forall t, t ∈ chat_threads c -> scope_of t <> s -> threadWithMessages config s (th_id t) c = Err thread_not_found).
Proof.
  intros Hr Hf Hne. pose proof (reachable_keys _ _ Hr) as Hk.
  destruct (same_view_reads config s c _ (serve_call_view config call c s Hk Hf (not_eq_sym Hne))) as [H1 H2].
  split; [done|]. split; [done|]. split.
  - intros id t turns H. unfold threadWithMessages in H. apply bind_ok in H as (t' & (_ & Hid & Hm)%requireThread_ok & [= <- <-]).
    apply mine_spec in Hm. split; [done|]. split; [done|]. rewrite <- Hid. apply Forall_forall. by intros m [_ E]%in_take%elem_of_turns.
  - intros t Ht Hs. unfold threadWithMessages, requireThread. destruct (find_first _ _) as [t'|] eqn:E; [|done].
    apply find_first_some in E as [Hin [E Hm]%andb_true_iff]. apply jeqb_eq in E. apply mine_spec in Hm.
    assert (t' = t) as -> by (by apply (nodup_map_inj th_id (chat_threads c)); [apply Hk| | |]). done.
Qed.

(** An append keeps the end of the conversation: the thread is read back with the new
    turn last, after as many of the turns before it as the cap leaves; the turn holds
    the question whole, or the answer cut to the ceiling with the cut in its error; and
    the thread is the most recently used, under its old title or, when it had none and
    the turn is a question, under that question. *)
Theorem append_keeps_the_newest config c input uuid now c' m :
  1 <= maxMessagesPerThread config -> 0 <= maxMessageChars config -> chat_reachable config c -> uuid ∉ map cm_id (chat_messages c) ->
  (forall m', m' ∈ turns_of (ap_threadId input) c -> cm_createdAt m' <= now) ->
  appendMessage config input uuid now c = Ok (c', m) ->
  let keep := Z.to_nat (maxMessagesPerThread config) in
  let turns := turns_of (ap_threadId input) c ++ [m] in
  (exists t, t ∈ chat_threads c /\ th_id t = ap_threadId input /\ scope_of t = ap_scope input /\
     threadWithMessages config (ap_scope input) (ap_threadId input) c' =
       Ok (touched input (cm_content m) now t, drop (length turns - keep) turns)) /\
  cm_content m = jtake (maxMessageChars config) (ap_content input) /\
  (ap_role input = chat_user -> cm_content m = ap_content input) /\
  (cm_content m <> ap_content input -> exists note, cm_error m = Some (jtake MAX_ERROR_CHARS note) /\ jendsWith note TRUNCATED = true) /\
  last (drop (length turns - keep) turns) = Some m.
Proof.
  intros Hkeep Hchars Hr Hf Hold Ha keep turns. pose proof (reachable_keys _ _ Hr) as Hk.
  apply appendMessage_ok in Ha as (b & t & Hb & Hreq & Hm & _ & ->). apply requireThread_ok in Hreq as (Ht & Hid & Hs).
  destruct (withinMessageCap_content _ _ _ Hchars Hb) as (Hb1 & _ & Hb2).
  assert (Hcm : cm_content m = fst b) by by rewrite Hm.
  assert (Hlast : last (drop (length turns - keep) turns) = Some m).
  { unfold turns. rewrite length_app. cbn [length]. rewrite skipn_app, last_app.
    replace (length (turns_of (ap_threadId input) c) + 1 - keep - length (turns_of (ap_threadId input) c))%nat with 0%nat by (unfold keep; lia). done. }
  split; [|split; [by rewrite Hcm|split; [by rewrite Hcm|split; [|done]]]].
  - exists t. split; [done|]. split; [done|]. split; [by apply mine_spec|]. rewrite Hcm.
    set (c1 := {| chat_threads := chat_threads c; chat_messages := chat_messages c ++ [m] |}).
    assert (Hk1 : keys_ok c1) by (apply add_message_keys; [done|by rewrite Hm|]; rewrite Hm; by apply (list_elem_of_fmap_2 th_id)).
    set (row := touched input (fst b) now t). assert (Hk2 : keys_ok (update_thread row c1)) by by apply update_thread_keys.
    pose proof (saved_require (ap_scope input) row t c1 Hk1 Ht eq_refl Hs) as Hsave. change (th_id row) with (th_id t) in Hsave.
    unfold threadWithMessages. rewrite <- Hid, pruned_require, Hsave. cbn [mbind result_bind]. change (th_id row) with (th_id t). rewrite turns_of_pruned by done. do 2 f_equal.
    assert (E : turns_of (th_id t) (update_thread row c1) = turns).
    { unfold turns_of at 1. cbn [update_thread chat_messages c1]. rewrite List.filter_app. cbn [List.filter].
      replace (in_thread (th_id t) m) with true by (symmetry; apply jeqb_eq; by rewrite Hm). unfold turns. rewrite <- Hid.
      apply sort_by_snoc. intros y [Hy Hyt%jeqb_eq]%elem_of_filter_b. apply Z.ltb_ge. rewrite Hm. cbn [cm_createdAt].
      apply Hold, elem_of_turns. by rewrite <- Hid. }
    rewrite E. apply take_ge. rewrite length_drop. fold keep. lia.
  - rewrite Hcm. intros Hcut. rewrite Hm. cbn [cm_error]. unfold withinMessageCap in Hb.
    destruct (_ <=? _); [by injection Hb as <-|]. destruct (ap_role input); [done|]. injection Hb as <-. cbn [snd].
    eexists. split; [reflexivity|]. destruct (present (ap_error input)) as [e|]; [|by vm_compute]. rewrite japp_assoc. apply jendsWith_app.
Qed.

(** ** Examples *)

Definition chat_sample : ChatConfig := {| ch_enabled := true; maxMessageChars := 10; maxThreads := 1; maxMessagesPerThread := 2; credentialTtl := 7200000 |}.
Definition ada : ThreadScope := {| sc_workspaceId := "w"; sc_userId := "ada" |}.
Definition bob : ThreadScope := {| sc_workspaceId := "w"; sc_userId := "bob" |}.
Definition says (role : ChatRole) (content : jstr) (error : option jstr) : AppendInput :=
  {| ap_scope := ada; ap_threadId := "t1"; ap_role := role; ap_content := content; ap_error := error |}.

Definition started : ChatTables := serve_call chat_sample (call_create ada "m" "t1" 1) {| chat_threads := []; chat_messages := [] |}.
Definition asked : ChatTables := serve_call chat_sample (call_append (says chat_user "hi  there" None) "a" 2) started.
Definition answered : ChatTables := serve_call chat_sample (call_append (says chat_assistant "hello yourself" None) "b" 3) asked.

Lemma answered_reachable : chat_reachable chat_sample answered.
Proof.
  apply chat_step; [apply chat_step; [apply chat_step; [apply chat_start|]|]|]; cbn [fresh_call].
  - by intros ?%elem_of_nil.
  - change (map cm_id (chat_messages started)) with (@nil jstr). by intros ?%elem_of_nil.
  - change (map cm_id (chat_messages asked)) with ["a" : jstr]. by intros ?%list_elem_of_singleton.
Qed.

Lemma transcripts_are_bounded_witness :
  map th_title (threads_of ada answered) = ["hi there" : jstr] /\ stored_chars ada answered = 19 /\
  stored_chars ada answered <= 1 * 2 * 10.
Proof.
  split; [vm_compute; reflexivity|]. split; [vm_compute; reflexivity|].
  apply (transcripts_are_bounded chat_sample answered ada); [done..|exact answered_reachable].
Defined.

Lemma a_call_stays_in_its_scope_witness :
  let call := call_create bob "m" "t2" 4 in
  map th_id (threads_of bob (serve_call chat_sample call answered)) = ["t2" : jstr] /\
  listThreads chat_sample ada (serve_call chat_sample call answered) = listThreads chat_sample ada answered.
Proof.
  intros call. split; [vm_compute; reflexivity|].
  apply (a_call_stays_in_its_scope chat_sample answered call ada); [exact answered_reachable| |done].
  cbn [call fresh_call]. change (map th_id (chat_threads answered)) with ["t1" : jstr]. by intros ?%list_elem_of_singleton.
Defined.

Definition third_turn : result chat_error (ChatTables * ChatMessage) :=
  appendMessage chat_sample (says chat_user "again?" None) "c" 3 answered.

Lemma append_keeps_the_newest_witness :
  match third_turn with
  | Ok (c', m) => cm_content m = "again?"%js /\ map cm_id (turns_of "t1" c') = ["b"; "c" : jstr]
  | Err _ => False
  end.
Proof.
  destruct third_turn as [[c' m]|e] eqn:E; [|by vm_compute in E].
  destruct (append_keeps_the_newest chat_sample answered (says chat_user "again?" None) "c" 3 c' m) as (_ & _ & H & _); [done|done|exact answered_reachable| | |exact E|].
  - change (map cm_id (chat_messages answered)) with ["a"; "b" : jstr]. by intros [?|?%list_elem_of_singleton]%elem_of_cons.
  - intros m' Hm'. change (turns_of (ap_threadId (says chat_user "again?" None)) answered) with (chat_messages answered) in Hm'.
    assert (H : Forall (fun m => (cm_createdAt m <=? 3) = true) (chat_messages answered)) by (repeat constructor).
    rewrite Forall_forall in H. by apply Z.leb_le, H.
  - split; [by apply H|]. vm_compute in E. injection E as <- _. reflexivity.
Defined.

(** A first question of spaces names nothing, so a later one does. *)
Example blank_question_leaves_the_title :
  let c := serve_call chat_sample (call_append (says chat_user "  " None) "a" 2) started in
  map th_title (chat_threads c) = [DEFAULT_TITLE] /\
  map th_title (chat_threads (serve_call chat_sample (call_append (says chat_user "why?" None) "b" 3) c)) = ["why?" : jstr].
Proof. vm_compute. done. Qed.

(** A refusal as long as its column leaves no room to say that the answer was cut. *)
Example long_refusal_hides_the_cut :
  let refusal := jrepeat 120 512 in
  withinMessageCap chat_sample (says chat_assistant "hello yourself" (Some refusal)) = Ok ("hello your"%js, Some refusal).
Proof. vm_compute. done. Qed.

(** An append that has read its thread, a new thread whose pruning drops that thread, and the
    append's [save]: the upsert brings the thread back, one over the cap. *)
Example a_racing_append_returns_a_pruned_thread :
  let after_create := serve_call chat_sample (call_create ada "m" "t2" 4) answered in
  match requireThread ada "t1" answered with
  | Ok t => (Z.of_nat (length (threads_of ada after_create)),
             Z.of_nat (length (threads_of ada (save_thread (touched (says chat_user "late" None) "late" 5 t) after_create))))
  | Err _ => (0, 0)
  end = (maxThreads chat_sample, maxThreads chat_sample + 1).
Proof. vm_compute. reflexivity. Qed.
