(* ===== verification/Ledger.v ===== *)
(** * The credits ledger

    [billing/ledger.service.ts]: the single writer of [credit_transactions] and of
    the balance column, one definition per method.  The lemmas show that the
    balance is the sum of the rows after every call, and that the service refines
    an abstract ledger keyed by idempotency key.  Calls in flight at once are in
    [LedgerConcurrency]. *)

From S2P Require Import Prelude JsString Money Store.

(** ** The service *)

Record LedgerEntryInput := {
  in_workspaceId : jstr;
  in_kind : CreditTransactionKind;
  in_amountMicros : Z;
  in_idempotencyKey : jstr;
  in_reference : option jstr;
  in_description : option jstr
}.

Record LedgerEntry := {
  le_transaction : CreditTransaction;
  le_balanceMicros : Z;
  le_replayed : bool
}.

Record CreditsBalance := { cb_balanceMicros : Z; cb_spendable : bool }.

Inductive required_sign := positive_sign | negative_sign | any_sign.

Definition REQUIRED_SIGN (k : CreditTransactionKind) : required_sign :=
  match k with
  | purchase => positive_sign
  | auto_topup => positive_sign
  | grant => positive_sign
  | usage => negative_sign
  | refund => negative_sign
  | adjustment => any_sign
  end.

Definition MAY_OVERDRAW (k : CreditTransactionKind) : bool :=
  match k with usage | refund => true | _ => false end.

Definition toBalance (allowOverdraftMicros balance : Z) : CreditsBalance :=
  {| cb_balanceMicros := balance; cb_spendable := 0 <? balance + allowOverdraftMicros |}.

Definition balanceOf (allowOverdraftMicros : Z) (db : Store) (workspaceId : jstr) : result error CreditsBalance :=
  match workspaces db !! workspaceId with
  | None => Err (NotFoundException "Workspace not found.")
  | Some w => Ok (toBalance allowOverdraftMicros (balanceMicros w))
  end.

Definition assertSign (input : LedgerEntryInput) : result error unit :=
  let required := REQUIRED_SIGN (in_kind input) in
  let wrong :=
    (in_amountMicros input =? 0)
    || match required with
       | positive_sign => in_amountMicros input <? 0
       | negative_sign => 0 <? in_amountMicros input
       | any_sign => false
       end in
  throw_if wrong (LedgerSignError (in_kind input) (in_amountMicros input)).

(** What the process supplies when a row is written: [randomUUID()] and [new Date()]. *)
Record write_env := { env_uuid : jstr; env_now : Z }.

Definition append (env : write_env) (input : LedgerEntryInput) (db : Store) : result error (Store * LedgerEntry) :=
  let allowOverdraw := MAY_OVERDRAW (in_kind input) in
  let delta := in_amountMicros input in
  let guarded := negb allowOverdraw && (delta <? 0) in
  let cond w := if guarded then 0 <=? balanceMicros w + delta else true in
  let '(db1, affected) := update_workspace (in_workspaceId input) cond (add_balance delta) db in
  if affected =? 0 then
    match workspaces db1 !! in_workspaceId input with
    | None => Err (NotFoundException "Workspace not found.")
    | Some w => Err (InsufficientCreditsError (balanceMicros w) delta)
    end
  else
    let row := {| ct_id := env_uuid env; ct_workspaceId := in_workspaceId input; ct_kind := in_kind input;
                  ct_amountMicros := delta; ct_reference := in_reference input;
                  ct_description := in_description input; ct_idempotencyKey := in_idempotencyKey input;
                  ct_createdAt := env_now env |} in
    db2 ← insert_credit_transaction row db1;
    let balance := match workspaces db2 !! in_workspaceId input with
                   | Some w => balanceMicros w | None => 0 end in
    Ok (db2, {| le_transaction := row; le_balanceMicros := balance; le_replayed := false |}).

Definition appendWithin (env : write_env) (input : LedgerEntryInput) (db : Store)
    : result error (Store * LedgerEntry) :=
  _ ← assertSign input; append env input db.

Definition findByIdempotencyKey (db : Store) (key : jstr) : option CreditTransaction :=
  find_first (fun t => jeqb (ct_idempotencyKey t) key) (credit_transactions db).

Definition replay (db : Store) (t : CreditTransaction) : LedgerEntry :=
  {| le_transaction := t;
     le_balanceMicros := match workspaces db !! ct_workspaceId t with
                         | Some w => balanceMicros w | None => 0 end;
     le_replayed := true |}.

(** [record] with nothing running beside it: the transaction either commits or
    leaves the store as it was. *)
Definition record (env : write_env) (input : LedgerEntryInput) (db : Store) : Store * result error LedgerEntry :=
  match assertSign input with
  | Err e => (db, Err e)
  | Ok _ =>
      match findByIdempotencyKey db (in_idempotencyKey input) with
      | Some existing => (db, Ok (replay db existing))
      | None =>
          match append env input db with
          | Ok (db', entry) => (db', Ok entry)
          | Err e =>
              if negb (isUniqueViolation e) then (db, Err e)
              else match findByIdempotencyKey db (in_idempotencyKey input) with
                   | None => (db, Err e)
                   | Some winner => (db, Ok (replay db winner))
                   end
          end
      end
  end.

Record GenerationDebit := { gd_workspaceId : jstr; gd_generationId : jstr; gd_amountMicros : Z }.

Definition debit_input (d : GenerationDebit) : LedgerEntryInput :=
  {| in_workspaceId := gd_workspaceId d; in_kind := usage; in_amountMicros := - gd_amountMicros d;
     in_reference := Some (gd_generationId d);
     in_idempotencyKey := "generation:" +++ gd_generationId d; in_description := None |}.

Definition debitGeneration (env : write_env) (d : GenerationDebit) (db : Store)
    : Store * result error (option LedgerEntry) :=
  if gd_amountMicros d <=? 0 then (db, Ok None)
  else let '(db', r) := record env (debit_input d) db in
       (db', match r with Ok e => Ok (Some e) | Err e => Err e end).

(** ** Statements of the sequential part *)

Lemma assertSign_ok input u :
  assertSign input = Ok u <->
  in_amountMicros input <> 0 /\
  match REQUIRED_SIGN (in_kind input) with
  | positive_sign => 0 < in_amountMicros input
  | negative_sign => in_amountMicros input < 0
  | any_sign => True
  end.
Proof.
  unfold assertSign. rewrite throw_if_ok, orb_false_iff, Z.eqb_neq.
  destruct (REQUIRED_SIGN _); rewrite ?Z.ltb_ge; intuition lia.
Qed.

(** What a committed append did, field by field. *)
Lemma append_ok env input db db' entry :
  append env input db = Ok (db', entry) ->
  exists w, workspaces db !! in_workspaceId input = Some w /\
    (MAY_OVERDRAW (in_kind input) = false -> in_amountMicros input < 0 ->
       0 <= balanceMicros w + in_amountMicros input) /\
    workspaces db' = <[in_workspaceId input := add_balance (in_amountMicros input) w]> (workspaces db) /\
    credit_transactions db' = credit_transactions db ++ [le_transaction entry] /\
    invite_codes db' = invite_codes db /\ invite_redemptions db' = invite_redemptions db /\
    (ct_id (le_transaction entry) ∉ map ct_id (credit_transactions db)) /\
    (in_idempotencyKey input ∉ map ct_idempotencyKey (credit_transactions db)) /\
    le_transaction entry =
      {| ct_id := env_uuid env; ct_workspaceId := in_workspaceId input; ct_kind := in_kind input;
         ct_amountMicros := in_amountMicros input; ct_reference := in_reference input;
         ct_description := in_description input; ct_idempotencyKey := in_idempotencyKey input;
         ct_createdAt := env_now env |} /\
    le_balanceMicros entry = balanceMicros w + in_amountMicros input /\ le_replayed entry = false.
Proof.
  unfold append.
  destruct (update_workspace _ _ _ db) as [db1 n] eqn:Eu.
  apply update_workspace_affected in Eu as [[-> ->]|[-> (w & Hw & Hc & ->)]]; cbn [Z.eqb].
  { by destruct (workspaces db !! _). }
  change (1 =? 0) with false. cbv iota.
  intros (db2 & (Hid & Hkey & ->)%insert_credit_transaction_ok & [= <- <-])%bind_ok.
  exists w. cbn in *. rewrite lookup_insert_eq. split_and!; try done.
  intros Ho Ha. rewrite Ho in Hc. cbn in Hc. rewrite (proj2 (Z.ltb_lt _ _) Ha) in Hc. cbn in Hc. lia.
Qed.

Lemma findByIdempotencyKey_some db key t :
  findByIdempotencyKey db key = Some t -> t ∈ credit_transactions db /\ ct_idempotencyKey t = key.
Proof. by intros [H1 H2%jeqb_eq]%find_first_some. Qed.

Lemma findByIdempotencyKey_none db key :
  findByIdempotencyKey db key = None <-> key ∉ map ct_idempotencyKey (credit_transactions db).
Proof.
  unfold findByIdempotencyKey. rewrite find_first_none. split.
  - intros H (t & -> & Ht)%list_elem_of_fmap. apply H in Ht. by rewrite jeqb_refl in Ht.
  - intros H t Ht. apply not_true_iff_false. intros He%jeqb_eq. apply H. rewrite <- He.
    by apply list_elem_of_fmap_2.
Qed.

Lemma amount_for_self t : amount_for (ct_workspaceId t) t = ct_amountMicros t.
Proof. unfold amount_for. by rewrite jeqb_refl. Qed.

Lemma amount_for_other id t : ct_workspaceId t <> id -> amount_for id t = 0.
Proof. unfold amount_for. by intros ->%jeqb_neq. Qed.

Lemma NoDup_snoc {A} (l : list A) x : NoDup l -> x ∉ l -> NoDup (l ++ [x]).
Proof.
  intros Hl Hx. apply NoDup_app. split_and!; [done| |apply NoDup_singleton].
  intros y Hy ->%list_elem_of_singleton. by apply Hx.
Qed.

Lemma ledger_ok_append env input db db' entry :
  ledger_ok db -> append env input db = Ok (db', entry) -> ledger_ok db'.
Proof.
  intros [Hb Hi Hk Ho] (w & Hw & _ & Hws & Hct & _ & _ & Hid & Hkey & Ht & _)%append_ok.
  assert (Hwid : ct_workspaceId (le_transaction entry) = in_workspaceId input) by by rewrite Ht.
  split; rewrite ?Hct, ?map_app.
  - intros id w' Hw'. rewrite Hws in Hw'. rewrite ledger_sum_app, ledger_sum_one.
    destruct (decide (id = in_workspaceId input)) as [->|Hne].
    + rewrite lookup_insert_eq in Hw'. injection Hw' as <-. cbn.
      rewrite (Hb _ _ Hw), <- Hwid, amount_for_self, Ht. done.
    + rewrite lookup_insert_ne in Hw' by done. rewrite (Hb _ _ Hw'), amount_for_other by congruence. lia.
  - apply NoDup_snoc; [done|]. by rewrite Ht in Hid |- *.
  - apply NoDup_snoc; [done|]. by rewrite Ht.
  - apply Forall_app; split.
    + eapply Forall_impl; [exact Ho|]. intros t [w' Hw']. rewrite Hws.
      destruct (decide (ct_workspaceId t = in_workspaceId input)) as [->|Hne];
        [rewrite lookup_insert_eq | rewrite lookup_insert_ne by done]; eauto.
    + repeat constructor. rewrite Hws, Hwid, lookup_insert_eq. eauto.
Qed.

#[export] Hint Resolve ledger_ok_append : router.

(** ** Properties of the sequential service *)

(** C1. The balance column never diverges from the ledger: [record] preserves the
    invariant that every workspace's balance is the sum of its rows, that row ids
    and idempotency keys are unique and that every row belongs to a workspace,
    whatever it answers; and when it answers an error nothing was written. *)
Theorem record_preserves_ledger env input db db' r :
  ledger_ok db -> record env input db = (db', r) ->
  ledger_ok db' /\ (is_ok r = false -> db' = db).
Proof.
  unfold record. intros Hok H.
  destruct (assertSign input) as [u|e]; [|by injection H as <- <-].
  destruct (findByIdempotencyKey db _); [by injection H as <- <-|].
  destruct (append env input db) as [[db1 e]|e] eqn:Ea.
  - injection H as <- <-. split; [by eapply ledger_ok_append | done].
  - destruct (negb _); [by injection H as <- <-|]. by injection H as <- <-.
Qed.

Definition example_input (kind : CreditTransactionKind) (amount : Z) (key : jstr) : LedgerEntryInput :=
  {| in_workspaceId := "ws"; in_kind := kind; in_amountMicros := amount;
     in_idempotencyKey := key; in_reference := None; in_description := None |}.

Lemma record_preserves_ledger_witness :
  let r := record {| env_uuid := "u"; env_now := 7 |} (example_input usage (-5) "generation:g")
             (one_workspace "ws") in
  ledger_ok (fst r) /\ balanceMicros <$> (workspaces (fst r) !! ("ws" : jstr)) = Some (-5).
Proof.
  intros r. split; [|by vm_compute].
  exact (proj1 (record_preserves_ledger _ _ _ _ (snd r) (one_workspace_ok "ws") (surjective_pairing r))).
Defined.

(** ** Abstract specification

    What the ledger promises, with no index, no cached column and no retry: a set
    of accounts and one entry per idempotency key; a balance is the sum of the
    account's entries. *)

Record ledger_spec := { sp_accounts : gset jstr; sp_entries : gmap jstr CreditTransaction }.

Definition sp_balance (id : jstr) (m : gmap jstr CreditTransaction) : Z :=
  ledger_sum id (map snd (map_to_list m)).

Definition sp_record (env : write_env) (input : LedgerEntryInput) (s : ledger_spec)
    : ledger_spec * result error LedgerEntry :=
  let ws := in_workspaceId input in
  let delta := in_amountMicros input in
  match assertSign input with
  | Err e => (s, Err e)
  | Ok _ =>
      match sp_entries s !! in_idempotencyKey input with
      | Some t => (s, Ok {| le_transaction := t; le_balanceMicros := sp_balance (ct_workspaceId t) (sp_entries s);
                            le_replayed := true |})
      | None =>
          if negb (bool_decide (ws ∈ sp_accounts s)) then (s, Err (NotFoundException "Workspace not found."))
          else if negb (MAY_OVERDRAW (in_kind input)) && (delta <? 0)
                  && (sp_balance ws (sp_entries s) + delta <? 0)
          then (s, Err (InsufficientCreditsError (sp_balance ws (sp_entries s)) delta))
          else
            let row := {| ct_id := env_uuid env; ct_workspaceId := ws; ct_kind := in_kind input;
                          ct_amountMicros := delta; ct_reference := in_reference input;
                          ct_description := in_description input;
                          ct_idempotencyKey := in_idempotencyKey input; ct_createdAt := env_now env |} in
            ({| sp_accounts := sp_accounts s; sp_entries := <[in_idempotencyKey input := row]> (sp_entries s) |},
             Ok {| le_transaction := row; le_balanceMicros := sp_balance ws (sp_entries s) + delta;
                   le_replayed := false |})
      end
  end.

Definition by_key (t : CreditTransaction) : jstr * CreditTransaction := (ct_idempotencyKey t, t).

Definition ledger_abs (db : Store) : ledger_spec :=
  {| sp_accounts := dom (workspaces db); sp_entries := list_to_map (map by_key (credit_transactions db)) |}.

Lemma map_fst_by_key ts : map fst (map by_key ts) = map ct_idempotencyKey ts.
Proof. by rewrite map_map. Qed.

Lemma ledger_sum_perm id l1 l2 : l1 ≡ₚ l2 -> ledger_sum id l1 = ledger_sum id l2.
Proof. induction 1; unfold ledger_sum in *; cbn in *; unfold sumZ in *; cbn in *; lia. Qed.

#[global] Instance ledger_sum_proper id : Proper (Permutation ==> eq) (ledger_sum id).
Proof. intros l1 l2. apply ledger_sum_perm. Qed.

Lemma sp_balance_abs id ts :
  NoDup (map ct_idempotencyKey ts) -> sp_balance id (list_to_map (map by_key ts)) = ledger_sum id ts.
Proof.
  intros H. unfold sp_balance.
  rewrite map_to_list_to_map by (rewrite <- list_fmap_compose; exact H).
  rewrite map_map. by rewrite map_id.
Qed.

Lemma abs_lookup ts key :
  NoDup (map ct_idempotencyKey ts) ->
  (list_to_map (map by_key ts) : gmap jstr CreditTransaction) !! key =
  find_first (fun t => jeqb (ct_idempotencyKey t) key) ts.
Proof.
  induction ts as [|t ts IH]; cbn; intros H; [apply lookup_empty|].
  apply NoDup_cons in H as [Hn H]. destruct (jeqb (ct_idempotencyKey t) key) eqn:E.
  - apply jeqb_eq in E as <-. by rewrite lookup_insert_eq.
  - apply jeqb_neq in E. rewrite lookup_insert_ne by done. by apply IH.
Qed.

Lemma abs_snoc ts t :
  (ct_idempotencyKey t ∉ map ct_idempotencyKey ts) ->
  (list_to_map (map by_key (ts ++ [t])) : gmap jstr CreditTransaction) =
  <[ct_idempotencyKey t := t]> (list_to_map (map by_key ts)).
Proof.
  intros H. rewrite map_app. change (map by_key [t]) with [(ct_idempotencyKey t, t)].
  rewrite list_to_map_snoc; [done|].
  intros Hin. apply H. rewrite <- map_fst_by_key. exact Hin.
Qed.

(** The service refines the abstract ledger: from a store that satisfies the
    invariant and with a fresh row id, [record] answers and moves the abstraction
    exactly as the specification does, on every branch: a wrong sign, a repeated
    key, an unknown workspace, a refused withdrawal and a commit. *)
Theorem record_refines_spec env input db :
  ledger_ok db -> (env_uuid env ∉ map ct_id (credit_transactions db)) ->
  sp_record env input (ledger_abs db) =
  (ledger_abs (fst (record env input db)), snd (record env input db)).
Proof.
  intros Hok Hid. pose proof Hok as [Hb _ Hk Ho]. unfold sp_record, record.
  destruct (assertSign input) as [u|e]; [|done]. cbn [ledger_abs sp_entries sp_accounts].
  rewrite abs_lookup by done. fold (findByIdempotencyKey db (in_idempotencyKey input)).
  destruct (findByIdempotencyKey db (in_idempotencyKey input)) as [t|] eqn:Ef.
  { apply findByIdempotencyKey_some in Ef as [Ht _]. unfold replay. cbn. rewrite sp_balance_abs by done.
    rewrite Forall_forall in Ho. destruct (Ho t Ht) as [w Hw]. by rewrite Hw, (Hb _ _ Hw). }
  rewrite sp_balance_abs by done. apply findByIdempotencyKey_none in Ef.
  unfold append, update_workspace.
  destruct (workspaces db !! in_workspaceId input) as [w|] eqn:Hw.
  2: { rewrite bool_decide_eq_false_2 by (by rewrite not_elem_of_dom). cbn. by rewrite Hw. }
  rewrite bool_decide_eq_true_2 by (by apply elem_of_dom_2 in Hw). rewrite <- (Hb _ _ Hw). cbn [negb].
  set (guarded := negb (MAY_OVERDRAW _) && _). set (delta := in_amountMicros input).
  destruct (guarded && (balanceMicros w + delta <? 0)) eqn:Eg.
  { apply andb_true_iff in Eg as [-> Hneg]. rewrite Z.ltb_lt in Hneg.
    rewrite (proj2 (Z.leb_gt _ _)) by done. cbn. by rewrite Hw. }
  assert (Hc : (if guarded then 0 <=? balanceMicros w + delta else true) = true)
    by (destruct guarded; cbn in Eg; [apply Z.ltb_ge in Eg; by apply Z.leb_le | done]).
  rewrite Hc. change (1 =? 0) with false. cbv iota.
  set (row := {| ct_id := _; ct_workspaceId := _ |}).
  rewrite (proj2 (insert_credit_transaction_ok row _ _)) by (split_and!; done).
  cbn. rewrite lookup_insert_eq. cbn. f_equal. unfold ledger_abs; cbn. f_equal.
  - by rewrite dom_insert_lookup_L by (by eexists).
  - by rewrite abs_snoc.
Qed.

Lemma record_refines_spec_witness :
  let r := record {| env_uuid := "u"; env_now := 7 |} (example_input adjustment (-5) "adj") (one_workspace "ws") in
  sp_record {| env_uuid := "u"; env_now := 7 |} (example_input adjustment (-5) "adj") (ledger_abs (one_workspace "ws"))
  = (ledger_abs (fst r), snd r) /\ snd r = Err (InsufficientCreditsError 0 (-5)).
Proof.
  intros r. split; [|by vm_compute].
  apply record_refines_spec; [apply one_workspace_ok | by apply not_elem_of_nil].
Defined.

(** A repeated event cannot charge twice: once an event was recorded, every
    later [record] under the same idempotency key, whatever else it carries, leaves
    the store alone and answers with the row the first one wrote. *)
Theorem record_idempotent env input db db1 e env' input' :
  record env input db = (db1, Ok e) ->
  in_idempotencyKey input' = in_idempotencyKey input ->
  record env' input' db1 =
    (db1, match assertSign input' with
          | Err err => Err err
          | Ok _ => Ok (replay db1 (le_transaction e))
          end).
Proof.
  intros H Hk.
  assert (Hf : findByIdempotencyKey db1 (in_idempotencyKey input) = Some (le_transaction e)).
  { unfold record in H. destruct (assertSign input); [|done].
    destruct (findByIdempotencyKey db _) as [t|] eqn:Ef.
    { by injection H as <- <-. }
    destruct (append env input db) as [[db' e']|err] eqn:Ea.
    - injection H as -> ->. apply append_ok in Ea as (w & _ & _ & _ & Hct & _ & _ & _ & _ & Ht & _).
      unfold findByIdempotencyKey in *. rewrite Hct, find_first_app, Ef, Ht. cbn. by rewrite jeqb_refl.
    - by destruct (negb _). }
  unfold record. rewrite Hk, Hf. by destruct (assertSign input').
Qed.

Lemma record_idempotent_witness :
  let env := {| env_uuid := "u"; env_now := 7 |} in
  let once := record env (example_input purchase 100 "cs_1") (one_workspace "ws") in
  fst (record {| env_uuid := "v"; env_now := 9 |} (example_input purchase 100 "cs_1") (fst once)) = fst once.
Proof.
  intros env once.
  assert (H := record_idempotent env (example_input purchase 100 "cs_1") (one_workspace "ws") (fst once)
    {| le_transaction := {| ct_id := "u"; ct_workspaceId := "ws"; ct_kind := purchase; ct_amountMicros := 100;
         ct_reference := None; ct_description := None; ct_idempotencyKey := "cs_1"; ct_createdAt := 7 |};
       le_balanceMicros := 100; le_replayed := false |}
    {| env_uuid := "v"; env_now := 9 |} (example_input purchase 100 "cs_1")).
  rewrite H; [reflexivity | by vm_compute | reflexivity].
Defined.
