(* ===== verification/LedgerConcurrency.v ===== *)
(** * Concurrent ledger writers

    Several calls of [LedgerService.record] in flight at once.  A call awaits the
    database four times at most: the lookup of its idempotency key, the append
    transaction, the second lookup when that transaction lost the insert race, and
    the balance read of a replay.  Each of these is one atomic step; between two
    steps of a call any other call may run.  The module proves that the ledger's
    guarantees do not depend on the schedule. *)

From S2P Require Import Prelude JsString Money Store Ledger.

(** Where a call stands: what it awaits next. *)
Inductive pc :=
| Lookup                                   (* await findByIdempotencyKey *)
| Write                                    (* await the append transaction *)
| Relookup                                 (* lost the insert: look the winner up *)
| Replay (t : CreditTransaction)           (* await the balance of the existing row *)
| Done (r : result error LedgerEntry).

Record writer := { w_env : write_env; w_input : LedgerEntryInput; w_pc : pc }.

Definition goto (w : writer) (p : pc) : writer := {| w_env := w_env w; w_input := w_input w; w_pc := p |}.

(** [record] runs [assertSign] before it first awaits. *)
Definition start (env : write_env) (input : LedgerEntryInput) : writer :=
  {| w_env := env; w_input := input;
     w_pc := match assertSign input with Err e => Done (Err e) | Ok _ => Lookup end |}.

(** One atomic step of one call; [None] once it has answered. *)
Definition writer_step (db : Store) (w : writer) : option (Store * writer) :=
  match w_pc w with
  | Lookup =>
      Some (db, goto w (match findByIdempotencyKey db (in_idempotencyKey (w_input w)) with
                        | Some existing => Replay existing
                        | None => Write
                        end))
  | Write =>
      Some (match append (w_env w) (w_input w) db with
            | Ok (db', entry) => (db', goto w (Done (Ok entry)))
            | Err e => (db, goto w (if negb (isUniqueViolation e) then Done (Err e) else Relookup))
            end)
  | Relookup =>
      Some (db, goto w (match findByIdempotencyKey db (in_idempotencyKey (w_input w)) with
                        | None => Done (Err UniqueViolation)
                        | Some winner => Replay winner
                        end))
  | Replay t => Some (db, goto w (Done (Ok (replay db t))))
  | Done _ => None
  end.

Definition system : Type := Store * list writer.

Inductive sys_step : system -> system -> Prop :=
| sys_step_at i db ws w db' w' :
    ws !! i = Some w -> writer_step db w = Some (db', w') ->
    sys_step (db, ws) (db', <[i := w']> ws).

Definition reachable : system -> system -> Prop := rtc sys_step.

(** The entry a finished call committed itself, as opposed to replayed. *)
Definition committed (w : writer) : option CreditTransaction :=
  match w_pc w with
  | Done (Ok e) => if le_replayed e then None else Some (le_transaction e)
  | _ => None
  end.

(** Steps a call has left, an upper bound. *)
Definition remaining (w : writer) : nat :=
  match w_pc w with Lookup => 4 | Write => 3 | Relookup => 2 | Replay _ => 1 | Done _ => 0 end.

Definition all_remaining (ws : list writer) : nat := sum_list (map remaining ws).

(** ** One step *)

Lemma writer_step_store db w db' w' :
  writer_step db w = Some (db', w') ->
  (db' = db /\ committed w' = None) \/
  (exists e, append (w_env w) (w_input w) db = Ok (db', e) /\ w_pc w' = Done (Ok e) /\
             committed w' = Some (le_transaction e)).
Proof.
  unfold writer_step, goto, committed.
  destruct (w_pc w) as [| | |t|r] eqn:Ep; intros H; try discriminate H.
  - injection H as <- <-. left. cbn. by destruct (findByIdempotencyKey _ _).
  - destruct (append _ _ db) as [[db1 e]|e] eqn:Ea; injection H as <- <-.
    + right. exists e. cbn. split_and!; [done|done|].
      apply append_ok in Ea as (x & Hx). destruct_and! Hx. by destruct (le_replayed e).
    + left. cbn. by destruct (negb _).
  - injection H as <- <-. left. cbn. by destruct (findByIdempotencyKey _ _).
  - injection H as <- <-. by left.
Qed.

Lemma writer_step_rows db w db' w' :
  writer_step db w = Some (db', w') ->
  credit_transactions db' =
  credit_transactions db ++ match committed w' with Some t => [t] | None => [] end.
Proof.
  intros [[-> ->]|(e & Ha & _ & ->)]%writer_step_store; [by rewrite app_nil_r|].
  by apply append_ok in Ha as (x & Hx); destruct_and! Hx.
Qed.

Lemma writer_step_ledger_ok db w db' w' : ledger_ok db -> writer_step db w = Some (db', w') -> ledger_ok db'.
Proof. intros Hok [[-> _]|(e & Ha & _)]%writer_step_store; eauto with router. Qed.

Lemma writer_step_same db w db' w' :
  writer_step db w = Some (db', w') -> w_env w' = w_env w /\ w_input w' = w_input w.
Proof. unfold writer_step. intros H. repeat case_match; simplify_eq; done. Qed.

Lemma writer_step_remaining db w db' w' :
  writer_step db w = Some (db', w') -> (remaining w' < remaining w)%nat.
Proof.
  unfold writer_step, remaining, goto. destruct (w_pc w); intros H; try done;
    repeat case_match; simplify_eq; cbn in *; repeat case_match; simplify_eq; lia.
Qed.

Lemma writer_step_not_committed db w db' w' : writer_step db w = Some (db', w') -> committed w = None.
Proof. unfold writer_step, committed. by destruct (w_pc w). Qed.

(** ** The invariant of a system *)

(** What a call's position says about the store: the row it is about to answer
    with is in the ledger under its own key, and a lost race has a winner. *)
Definition position_ok (db : Store) (w : writer) : Prop :=
  let own t := t ∈ credit_transactions db /\ ct_idempotencyKey t = in_idempotencyKey (w_input w) in
  match w_pc w with
  | Lookup | Write => True
  | Relookup => in_idempotencyKey (w_input w) ∈ map ct_idempotencyKey (credit_transactions db)
  | Replay t => own t
  | Done (Ok e) => own (le_transaction e)
  | Done (Err e) => e <> UniqueViolation
  end.

Definition fresh_uuid (db : Store) (w : writer) : Prop :=
  committed w = None -> env_uuid (w_env w) ∉ map ct_id (credit_transactions db).

Record sys_ok (db0 : Store) (s : system) : Prop := {
  sys_ledger : ledger_ok (fst s);
  sys_rows : credit_transactions (fst s) ≡ₚ credit_transactions db0 ++ omap committed (snd s);
  sys_position : Forall (position_ok (fst s)) (snd s);
  sys_fresh : Forall (fresh_uuid (fst s)) (snd s);
  sys_uuids : NoDup (map (fun w => env_uuid (w_env w)) (snd s))
}.

Lemma position_ok_mono db db' w :
  (forall t, t ∈ credit_transactions db -> t ∈ credit_transactions db') ->
  position_ok db w -> position_ok db' w.
Proof.
  intros Hs. unfold position_ok. destruct (w_pc w) as [| | |t|[e|e]]; try done.
  - intros (t & -> & Ht)%list_elem_of_fmap. apply list_elem_of_fmap_2. by apply Hs.
  - intros [? ?]; eauto.
  - intros [? ?]; eauto.
Qed.

(** With a fresh row id the only unique index an append can violate is the key. *)
Lemma append_unique env input db e :
  (env_uuid env ∉ map ct_id (credit_transactions db)) ->
  append env input db = Err e -> isUniqueViolation e = true ->
  in_idempotencyKey input ∈ map ct_idempotencyKey (credit_transactions db).
Proof.
  intros Hid Ha He. unfold append in Ha.
  destruct (update_workspace _ _ _ db) as [db1 n] eqn:Eu.
  assert (Hrows : credit_transactions db1 = credit_transactions db).
  { by apply update_workspace_affected in Eu as [[_ ->]|(_ & w & _ & _ & ->)]. }
  destruct (n =? 0); [by repeat case_match; simplify_eq|].
  set (row := {| ct_id := _; ct_workspaceId := _ |}) in Ha.
  destruct (decide (in_idempotencyKey input ∈ map ct_idempotencyKey (credit_transactions db))) as [|Hn]; [done|].
  rewrite (proj2 (insert_credit_transaction_ok row db1 _)) in Ha by (rewrite Hrows; split_and!; done).
  done.
Qed.

Lemma position_ok_step db w db' w' :
  fresh_uuid db w -> position_ok db w -> writer_step db w = Some (db', w') -> position_ok db' w'.
Proof.
  intros Hf Hp H. pose proof (writer_step_not_committed _ _ _ _ H) as Hnc. specialize (Hf Hnc).
  unfold writer_step in H. unfold position_ok in *. destruct (w_pc w) as [| | |t|r] eqn:Ep; [..|done].
  - injection H as <- <-. cbn. destruct (findByIdempotencyKey _ _) eqn:E; [|done].
    by apply findByIdempotencyKey_some in E.
  - destruct (append _ _ db) as [[db1 e]|e] eqn:Ea; injection H as <- <-; cbn.
    + apply append_ok in Ea as (x & Hx). destruct_and! Hx.
      split; [|by match goal with H : le_transaction e = _ |- _ => rewrite H end].
      match goal with H : credit_transactions db1 = _ |- _ => rewrite H end. set_solver.
    + destruct (isUniqueViolation e) eqn:Eu; cbn; [by eapply append_unique|]. by intros ->.
  - injection H as <- <-. cbn. destruct (findByIdempotencyKey _ _) eqn:E.
    + by apply findByIdempotencyKey_some in E.
    + by apply findByIdempotencyKey_none in E.
  - by injection H as <- <-.
Qed.

Lemma omap_insert_perm {A B} (f : A -> option B) (l : list A) i x y :
  l !! i = Some x -> f x = None ->
  omap f (<[i := y]> l) ≡ₚ omap f l ++ match f y with Some b => [b] | None => [] end.
Proof.
  revert i; induction l as [|a l IH]; intros [|i]; cbn; try done.
  - intros [= ->] ->. destruct (f y); [by rewrite <- Permutation_cons_append | by rewrite app_nil_r].
  - intros Hi Hx. destruct (f a); cbn; by rewrite (IH i Hi Hx).
Qed.

Lemma map_insert_same {A B} (f : A -> B) (l : list A) i x y :
  l !! i = Some x -> f y = f x -> map f (<[i := y]> l) = map f l.
Proof.
  intros Hi Hf. revert i Hi. induction l as [|a l IH]; intros [|i] Hi; cbn in *; simplify_eq.
  - by rewrite Hf.
  - f_equal. exact (IH i Hi).
Qed.

Lemma fresh_step db w db' w' x :
  writer_step db w = Some (db', w') -> env_uuid (w_env x) <> env_uuid (w_env w) ->
  fresh_uuid db x -> fresh_uuid db' x.
Proof.
  intros H Hne Hf Hc. apply writer_step_store in H as [[-> _]|(e & Ha & _)]; [by apply Hf|].
  apply append_ok in Ha as (v & Hv). destruct_and! Hv.
  match goal with H : credit_transactions db' = _ |- _ => rewrite H, map_app end.
  intros [Hin|Hin]%elem_of_app; [by apply Hf|].
  cbn in Hin. apply list_elem_of_singleton in Hin.
  match goal with H : le_transaction e = _ |- _ => rewrite H in Hin end. by cbn in Hin.
Qed.

Lemma fresh_step_self db w db' w' :
  writer_step db w = Some (db', w') -> fresh_uuid db w -> fresh_uuid db' w'.
Proof.
  intros H Hf Hc. rewrite (writer_step_rows _ _ _ _ H), Hc, app_nil_r.
  rewrite (proj1 (writer_step_same _ _ _ _ H)). apply Hf. by eapply writer_step_not_committed.
Qed.

Lemma Forall_insert_step {A} (P Q : A -> Prop) (l : list A) i x y :
  l !! i = Some x -> Forall P l -> Q y ->
  (forall j z, j <> i -> l !! j = Some z -> P z -> Q z) -> Forall Q (<[i := y]> l).
Proof.
  intros Hi Hl Hy Ho. apply Forall_lookup. intros j z Hj.
  destruct (decide (j = i)) as [->|Hne].
  - rewrite list_lookup_insert_eq in Hj by (by eapply lookup_lt_Some). by injection Hj as <-.
  - rewrite list_lookup_insert_ne in Hj by done. eapply Ho; eauto. by eapply Forall_lookup in Hl.
Qed.

Lemma sys_ok_step db0 s s' : sys_ok db0 s -> sys_step s s' -> sys_ok db0 s'.
Proof.
  intros Hok Hst. destruct Hst as [i db ws w db' w' Hi Hs]. destruct Hok as [Hl Hr Hp Hf Hu]. cbn in *.
  pose proof (writer_step_not_committed _ _ _ _ Hs) as Hnc.
  pose proof (writer_step_rows _ _ _ _ Hs) as Hrows.
  pose proof (proj1 (Forall_lookup _ _) Hf _ _ Hi) as Hfw.
  pose proof (proj1 (Forall_lookup _ _) Hp _ _ Hi) as Hpw.
  split; cbn.
  - by eapply writer_step_ledger_ok.
  - rewrite Hrows, Hr, (omap_insert_perm _ _ _ _ w' Hi Hnc). by rewrite app_assoc.
  - eapply Forall_insert_step; [exact Hi | exact Hp | by eapply position_ok_step |].
    intros j z _ _. apply position_ok_mono. intros t. rewrite Hrows. set_solver.
  - eapply Forall_insert_step; [exact Hi | exact Hf | by eapply fresh_step_self |].
    intros j z Hne Hz. eapply fresh_step; [exact Hs|]. intros He. apply Hne.
    apply (NoDup_lookup _ j i (env_uuid (w_env w)) Hu);
      [rewrite <- He|]; by apply (f_equal (fmap (fun w => env_uuid (w_env w)))) in Hz, Hi;
      rewrite <- list_lookup_fmap in *.
  - by rewrite (map_insert_same _ _ _ _ w' Hi) by (by rewrite (proj1 (writer_step_same _ _ _ _ Hs))).
Qed.

(** A fresh batch of calls against a store that satisfies the ledger invariant. *)
Definition calls (l : list (write_env * LedgerEntryInput)) : list writer :=
  map (fun '(env, input) => start env input) l.

Definition fresh_calls (db : Store) (l : list (write_env * LedgerEntryInput)) : Prop :=
  NoDup (map (fun c => env_uuid (fst c)) l) /\
  Forall (fun c => env_uuid (fst c) ∉ map ct_id (credit_transactions db)) l.

Lemma start_facts db env input :
  committed (start env input) = None /\ position_ok db (start env input) /\
  w_env (start env input) = env /\ w_input (start env input) = input.
Proof.
  unfold start, committed, position_ok. cbn.
  destruct (assertSign input) eqn:E; [done|]. split_and!; try done. intros ->.
  by unfold assertSign, throw_if in E; repeat case_match.
Qed.

Lemma sys_ok_start db l : ledger_ok db -> fresh_calls db l -> sys_ok db (db, calls l).
Proof.
  intros Hl [Hn Hf]. split; cbn; [done| | | |].
  - replace (omap committed (calls l)) with (@nil CreditTransaction); [by rewrite app_nil_r|].
    unfold calls. clear Hn Hf. induction l as [|[env input] l IH]; cbn; [done|].
    by rewrite (proj1 (start_facts db env input)).
  - apply Forall_forall. intros w ([env input] & -> & _)%list_elem_of_fmap. apply start_facts.
  - apply Forall_forall. intros w ([env input] & -> & Hin)%list_elem_of_fmap _.
    rewrite Forall_forall in Hf. exact (Hf _ Hin).
  - unfold calls. rewrite map_map. by erewrite map_ext; [exact Hn|]; intros [env input].
Qed.

Lemma sys_ok_reachable db0 s s' : sys_ok db0 s -> reachable s s' -> sys_ok db0 s'.
Proof. intros H Hr; revert H. induction Hr; eauto using sys_ok_step. Qed.

(** ** Schedules

    A list of indices is a schedule; running it performs the steps it names. *)

Definition step_at (s : system) (i : nat) : system :=
  match snd s !! i with
  | Some w => match writer_step (fst s) w with
              | Some (db', w') => (db', <[i := w']> (snd s))
              | None => s
              end
  | None => s
  end.

Definition run_schedule (s : system) (sched : list nat) : system := foldl step_at s sched.

Lemma step_at_reachable s i : reachable s (step_at s i).
Proof.
  unfold step_at. destruct s as [db ws]; cbn.
  destruct (ws !! i) as [w|] eqn:Hi; [|apply rtc_refl].
  destruct (writer_step db w) as [[db' w']|] eqn:Hs; [|apply rtc_refl].
  eapply rtc_l, rtc_refl. by econstructor.
Qed.

Lemma run_schedule_reachable sched s : reachable s (run_schedule s sched).
Proof.
  revert s; induction sched as [|i sched IH]; intros s; [apply rtc_refl|].
  cbn. etrans; [apply (step_at_reachable s i) | apply IH].
Qed.

(** ** Properties *)

(** The answer a finished call gave. *)
Definition answer (w : writer) : option LedgerEntry :=
  match w_pc w with Done (Ok e) => Some e | _ => None end.

Lemma committed_answer w t :
  committed w = Some t -> exists e, answer w = Some e /\ le_transaction e = t /\ le_replayed e = false.
Proof. unfold committed, answer. intros H. repeat case_match; simplify_eq; eauto. Qed.

Lemma answer_committed w e : answer w = Some e -> le_replayed e = false -> committed w = Some (le_transaction e).
Proof. unfold committed, answer. intros H1 H2. destruct (w_pc w) as [| | | |[]]; simplify_eq. by rewrite H2. Qed.

Lemma omap_two {A B} (f : A -> option B) (l : list A) i j x y a b :
  i <> j -> l !! i = Some x -> l !! j = Some y -> f x = Some a -> f y = Some b ->
  exists r, omap f l ≡ₚ a :: b :: r.
Proof.
  revert i j; induction l as [|c l IH]; intros [|i] [|j] Hne Hi Hj Ha Hb; cbn in *; simplify_eq.
  - rewrite Ha. assert (Hin : b ∈ omap f l) by (apply list_elem_of_omap; exists y; split; [by eapply list_elem_of_lookup_2|done]).
    apply elem_of_Permutation in Hin as [r Hr]. exists r. by rewrite Hr.
  - rewrite Hb. assert (Hin : a ∈ omap f l) by (apply list_elem_of_omap; exists x; split; [by eapply list_elem_of_lookup_2|done]).
    apply elem_of_Permutation in Hin as [r Hr]. exists r. rewrite Hr. apply Permutation_swap.
  - assert (Hij : i <> j) by congruence.
    destruct (IH i j Hij Hi Hj Ha Hb) as [r Hr]. destruct (f c) as [z|]; [|by exists r].
    exists (z :: r). rewrite Hr. exact (Permutation_middle [a; b] r z).
Qed.

(** C2. Exactly once, under every schedule: whatever order the steps of any number
    of concurrent calls run in, the ledger invariant holds in every reachable
    state; the rows are the original ones plus exactly one per call that committed;
    no call ends with a unique-index error; two answered calls with the same
    idempotency key were given the same row, and at most one of them wrote it. *)
Theorem concurrent_exactly_once db l s :
  ledger_ok db -> fresh_calls db l -> reachable (db, calls l) s ->
  ledger_ok (fst s) /\
  credit_transactions (fst s) ≡ₚ credit_transactions db ++ omap committed (snd s) /\
  (forall i w, snd s !! i = Some w -> w_pc w <> Done (Err UniqueViolation)) /\
  (forall i j w1 w2 e1 e2, i <> j -> snd s !! i = Some w1 -> snd s !! j = Some w2 ->
     answer w1 = Some e1 -> answer w2 = Some e2 ->
     in_idempotencyKey (w_input w1) = in_idempotencyKey (w_input w2) ->
     le_transaction e1 = le_transaction e2 /\ (le_replayed e1 = true \/ le_replayed e2 = true)).
Proof.
  intros Hok Hfr Hr. pose proof (sys_ok_reachable db _ _ (sys_ok_start db l Hok Hfr) Hr) as [Hl Hrows Hp _ _].
  pose proof (ok_keys _ Hl) as Hnd.
  split_and!; [done|done| |].
  - intros i w Hi Hd. pose proof (proj1 (Forall_lookup _ _) Hp _ _ Hi) as Hw.
    unfold position_ok in Hw. by rewrite Hd in Hw.
  - intros i j w1 w2 e1 e2 Hne Hi Hj H1 H2 Hk.
    assert (Hown : forall n w e, snd s !! n = Some w -> answer w = Some e ->
              le_transaction e ∈ credit_transactions (fst s) /\
              ct_idempotencyKey (le_transaction e) = in_idempotencyKey (w_input w)).
    { intros n w e Hn Ha. pose proof (proj1 (Forall_lookup _ _) Hp _ _ Hn) as Hw.
      unfold position_ok, answer in *. by repeat case_match; simplify_eq. }
    destruct (Hown _ _ _ Hi H1) as [Hin1 Hk1], (Hown _ _ _ Hj H2) as [Hin2 Hk2].
    assert (Heq : le_transaction e1 = le_transaction e2).
    { eapply nodup_map_inj; [exact Hnd|done|done|congruence]. }
    split; [done|]. destruct (le_replayed e1) eqn:R1; [by left|]. destruct (le_replayed e2) eqn:R2; [by right|].
    exfalso. destruct (omap_two committed (snd s) i j w1 w2 _ _ Hne Hi Hj
      (answer_committed _ _ H1 R1) (answer_committed _ _ H2 R2)) as [r Hperm].
    assert (Hdup : NoDup (map ct_idempotencyKey
               (credit_transactions db ++ le_transaction e1 :: le_transaction e2 :: r))).
    { apply (NoDup_Permutation_proper _ _ (fmap_Permutation ct_idempotencyKey _ _ (Permutation_app_head _ Hperm))).
      by apply (NoDup_Permutation_proper _ _ (fmap_Permutation ct_idempotencyKey _ _ Hrows)). }
    rewrite map_app, Heq in Hdup. apply NoDup_app in Hdup as (_ & _ & Hdup).
    apply NoDup_cons in Hdup as [Hdup _]. apply Hdup. cbn. by left.
Qed.

(** Two deliveries of one webhook, both past the lookup before either writes. *)
Definition racing_calls : list (write_env * LedgerEntryInput) :=
  [({| env_uuid := "u1"; env_now := 1 |}, example_input purchase 100 "cs_1");
   ({| env_uuid := "u2"; env_now := 2 |}, example_input purchase 100 "cs_1")].

Definition raced : system :=
  run_schedule (one_workspace "ws", calls racing_calls) [0; 1; 1; 0; 0; 0]%nat.

Lemma racing_calls_fresh : fresh_calls (one_workspace "ws") racing_calls.
Proof. split; [|repeat constructor; set_solver]. apply (bool_decide_unpack _). by vm_compute. Qed.

Lemma concurrent_exactly_once_witness :
  ledger_ok (fst raced) /\
  map answer (snd raced) <> [None; None] /\
  balanceMicros <$> (workspaces (fst raced) !! ("ws" : jstr)) = Some 100.
Proof.
  split; [|split; [by vm_compute | by vm_compute]].
  apply (concurrent_exactly_once (one_workspace "ws") racing_calls raced);
    [apply one_workspace_ok | apply racing_calls_fresh | apply run_schedule_reachable].
Defined.

Lemma sys_step_decreases s s' : sys_step s s' -> (all_remaining (snd s') < all_remaining (snd s))%nat.
Proof.
  intros Hst. destruct Hst as [i db ws w db' w' Hi Hs]. cbn.
  eapply sum_list_insert_lt; [exact Hi | by eapply writer_step_remaining].
Qed.

Lemma all_remaining_start l : (all_remaining (calls l) <= 4 * length l)%nat.
Proof.
  unfold all_remaining, calls. induction l as [|[env input] l IH]; cbn; [lia|].
  unfold remaining at 1, start at 1. cbn. destruct (assertSign input); lia.
Qed.

(** No schedule runs for ever and none gets stuck: [n] concurrent calls take at
    most [4 * n] database round trips between them, and a state in which no call
    can take a step is one in which every call has answered. *)
Theorem concurrent_terminates db l s n :
  nsteps sys_step n (db, calls l) s ->
  (n <= 4 * length l)%nat /\
  ((forall s', ~ sys_step s s') <-> Forall (fun w => exists r, w_pc w = Done r) (snd s)).
Proof.
  intros Hn. split.
  - enough (H : (n + all_remaining (snd s) <= all_remaining (calls l))%nat)
      by (pose proof (all_remaining_start l); lia).
    change (calls l) with (snd (db, calls l)). revert Hn. generalize (db, calls l) as s0. intros s0 Hn.
    induction Hn as [|n x y z Hs Hr IH]; [cbn; lia|]. apply sys_step_decreases in Hs. lia.
  - destruct s as [db' ws]; cbn. split.
    + intros Hstuck. apply Forall_lookup. intros i w Hi. destruct (w_pc w) eqn:Ep; [..|by eexists];
        exfalso; (destruct (writer_step db' w) as [[db2 w2]|] eqn:Es;
          [by apply (Hstuck (db2, <[i := w2]> ws)); econstructor |]);
        unfold writer_step in Es; rewrite Ep in Es; done.
    + intros Hall s' Hst. inversion Hst as [i ? ? w ? w' Hi Hs]; subst.
      destruct (proj1 (Forall_lookup _ _) Hall _ _ Hi) as [r Hr].
      unfold writer_step in Hs. by rewrite Hr in Hs.
Qed.

Lemma step_at_step s i db' w w' :
  snd s !! i = Some w -> writer_step (fst s) w = Some (db', w') -> sys_step s (step_at s i).
Proof. intros Hi Hs. unfold step_at. destruct s as [db ws]; cbn in *. rewrite Hi, Hs. by econstructor. Qed.

Lemma concurrent_terminates_witness :
  Forall (fun w => exists r, w_pc w = Done r) (snd raced) /\ (6 <= 4 * length racing_calls)%nat.
Proof.
  assert (Hn : nsteps sys_step 6 (one_workspace "ws", calls racing_calls) raced).
  { unfold raced, run_schedule. cbn [foldl].
    do 1 (eapply nsteps_l; [eapply (step_at_step _ 0); reflexivity |]).
    do 2 (eapply nsteps_l; [eapply (step_at_step _ 1); reflexivity |]).
    do 3 (eapply nsteps_l; [eapply (step_at_step _ 0); reflexivity |]). apply nsteps_O. }
  destruct (concurrent_terminates _ _ _ _ Hn) as [Hle _]. split; [|exact Hle].
  repeat constructor; eexists; by vm_compute.
Defined.
