(* ===== verification/JsDate.v ===== *)
(** * JavaScript dates

    A [Date] is the number of milliseconds since the epoch, a [Z]; comparisons and
    differences are those of [getTime()].  [toISOString] renders it with the
    proleptic Gregorian calendar, as the language specifies. *)

From S2P Require Import Prelude JsString.

Definition MS_PER_DAY : Z := 86400000.

(** Year, month and day of a day number counted from 1970-01-01. *)
Definition civil_of_days (days : Z) : Z * Z * Z :=
  let z := days + 719468 in
  let era := z / 146097 in
  let doe := z - era * 146097 in
  let yoe := (doe - doe / 1460 + doe / 36524 - doe / 146096) / 365 in
  let doy := doe - (365 * yoe + yoe / 4 - yoe / 100) in
  let mp := (5 * doy + 2) / 153 in
  let d := doy - (153 * mp + 2) / 5 + 1 in
  let m := if mp <? 10 then mp + 3 else mp - 9 in
  (yoe + era * 400 + (if m <=? 2 then 1 else 0), m, d).

Definition pad (n w : Z) : jstr := jpadStart (jstring_of_Z n) w 48%N.

Definition iso_year (y : Z) : jstr :=
  if (0 <=? y) && (y <=? 9999) then pad y 4
  else if y <? 0 then "-" +++ pad (- y) 6 else "+" +++ pad y 6.

Definition toISOString (t : Z) : jstr :=
  let '(y, m, d) := civil_of_days (t / MS_PER_DAY) in
  let ms := t mod MS_PER_DAY in
  iso_year y +++ "-" +++ pad m 2 +++ "-" +++ pad d 2 +++ "T" +++
  pad (ms / 3600000) 2 +++ ":" +++ pad (ms / 60000 mod 60) 2 +++ ":" +++
  pad (ms / 1000 mod 60) 2 +++ "." +++ pad (ms mod 1000) 3 +++ "Z".

Example toISOString_epoch : toISOString 0 = "1970-01-01T00:00:00.000Z".
Proof. vm_compute. reflexivity. Qed.

Example toISOString_leap : toISOString 1709164799999 = "2024-02-28T23:59:59.999Z".
Proof. vm_compute. reflexivity. Qed.

(** ** Reading an instant back *)

Definition days_of_civil (y m d : Z) : Z :=
  let y' := if m <=? 2 then y - 1 else y in
  let era := y' / 400 in
  let yoe := y' - era * 400 in
  let mp := if m <=? 2 then m + 9 else m - 3 in
  let doy := (153 * mp + 2) / 5 + d - 1 in
  era * 146097 + (yoe * 365 + yoe / 4 - yoe / 100 + doy) - 719468.

Definition number_at (u : list N) : option Z := if forallb is_digit u then Some (value_of u) else None.

(** [Date.parse] of the format [toISOString] writes, with a date the calendar has;
    the language leaves no choice there. *)
Definition parse_iso (s : jstr) : option Z :=
  match units s with
  | [y1; y2; y3; y4; c1; m1; m2; c2; d1; d2; c3; h1; h2; c4; n1; n2; c5; s1; s2; c6; f1; f2; f3; c7] =>
      if negb (bool_decide ([c1; c2; c3; c4; c5; c6; c7] = [45; 45; 84; 58; 58; 46; 90]%N)) then None
      else
        y ← number_at [y1; y2; y3; y4]; m ← number_at [m1; m2]; d ← number_at [d1; d2];
        h ← number_at [h1; h2]; n ← number_at [n1; n2]; sec ← number_at [s1; s2]; ms ← number_at [f1; f2; f3];
        let days := days_of_civil y m d in
        if bool_decide (civil_of_days days = (y, m, d)) && (h <? 24) && (n <? 60) && (sec <? 60)
        then Some (days * MS_PER_DAY + h * 3600000 + n * 60000 + sec * 1000 + ms) else None
  | _ => None
  end.

(** The instants whose year has four digits. *)
Definition four_digit_year (t : Z) : Prop :=
  let '(y, _, _) := civil_of_days (t / MS_PER_DAY) in 0 <= y <= 9999.

Lemma days_of_civil_of_days days : let '(y, m, d) := civil_of_days days in
  days_of_civil y m d = days /\ 1 <= m <= 12 /\ 1 <= d <= 31.
Proof.
  unfold civil_of_days. set (z := days + 719468). set (era := z / 146097). set (doe := z - era * 146097).
  assert (Hdoe : 0 <= doe <= 146096) by (unfold doe, era; Z.to_euclidean_division_equations; lia).
  set (yoe := (doe - doe / 1460 + doe / 36524 - doe / 146096) / 365).
  assert (Hyoe : 0 <= yoe <= 399) by (unfold yoe; Z.to_euclidean_division_equations; lia).
  set (doy := doe - (365 * yoe + yoe / 4 - yoe / 100)).
  assert (Hdoy : 0 <= doy <= 365) by (unfold doy, yoe; Z.to_euclidean_division_equations; lia).
  set (mp := (5 * doy + 2) / 153).
  assert (Hmp : 0 <= mp <= 11) by (unfold mp; Z.to_euclidean_division_equations; lia).
  assert (Hd : 1 <= doy - (153 * mp + 2) / 5 + 1 <= 31) by (unfold mp; Z.to_euclidean_division_equations; lia).
  assert (Hera : (yoe + era * 400) / 400 = era) by (Z.to_euclidean_division_equations; lia).
  clearbody yoe. unfold days_of_civil.
  destruct (Z.ltb_spec mp 10) as [H10|H10].
  - destruct (Z.leb_spec (mp + 3) 2); [lia|]. rewrite Z.add_0_r, Hera.
    replace (yoe + era * 400 - era * 400) with yoe by lia. replace (mp + 3 - 3) with mp by lia.
    split; [|lia]. unfold doy, doe, z. lia.
  - destruct (Z.leb_spec (mp - 9) 2); [|lia]. replace (yoe + era * 400 + 1 - 1) with (yoe + era * 400) by lia.
    rewrite Hera. replace (yoe + era * 400 - era * 400) with yoe by lia. replace (mp - 9 + 9) with mp by lia.
    split; [|lia]. unfold doy, doe, z. lia.
Qed.

(** A number padded with zeros to its width. *)
Lemma pad_spec n w : 0 <= n < 10 ^ w -> 0 < w ->
  let u := units (pad n w) in length u = Z.to_nat w /\ number_at u = Some n.
Proof.
  intros Hn Hw. unfold pad, jpadStart, jrepeat, jlength, japp, number_at, jstring_of_Z. cbn [units].
  destruct (Z.ltb_spec n 0); [lia|]. cbn [units].
  assert (Hl : (length (digits_of (Z.to_N n)) <= Z.to_nat w)%nat).
  { apply digits_of_length; [|lia]. apply N2Z.inj_lt. rewrite N2Z.inj_pow, nat_N_Z, Z2N.id, Z2Nat.id by lia.
    change (Z.of_N 10) with 10. lia. }
  rewrite length_app, length_replicate, forallb_app, digits_of_digit, andb_true_r, value_of_zeros, digits_of_value, Z2N.id by lia.
  split; [lia|]. assert (Hz : forall k, forallb is_digit (replicate k 48%N) = true) by (by induction k).
  by rewrite Hz.
Qed.

(** The digits of a padded number, named. *)
Lemma pad_units n w : 0 <= n < 10 ^ w -> 0 < w ->
  exists u, pad n w = Js u /\ length u = Z.to_nat w /\ number_at u = Some n.
Proof. intros Hn Hw. destruct (pad_spec n w Hn Hw) as [H1 H2]. exists (units (pad n w)). split; [by destruct (pad n w)|done]. Qed.

(** An instant survives its text, as long as its year has four digits. *)
Lemma parse_iso_toISOString t : four_digit_year t -> parse_iso (toISOString t) = Some t.
Proof.
  unfold four_digit_year, toISOString. pose proof (days_of_civil_of_days (t / MS_PER_DAY)) as Hciv.
  destruct (civil_of_days (t / MS_PER_DAY)) as [[y m] d] eqn:Ec. destruct Hciv as (Hdays & Hm & Hd). intros Hy.
  set (ms := t mod MS_PER_DAY). assert (Hms : 0 <= ms < 86400000) by (apply Z.mod_pos_bound; done).
  assert (Ht : t = t / MS_PER_DAY * MS_PER_DAY + ms) by (unfold ms; pose proof (Z.div_mod t MS_PER_DAY ltac:(done)); lia).
  assert (Hiso : iso_year y = pad y 4).
  { unfold iso_year. destruct (Z.leb_spec 0 y), (Z.leb_spec y 9999); try lia; done. }
  rewrite Hiso.
  assert (Hh : 0 <= ms / 3600000 < 24) by (Z.to_euclidean_division_equations; lia).
  assert (Hn : 0 <= ms / 60000 mod 60 < 60) by (apply Z.mod_pos_bound; done).
  assert (Hs : 0 <= ms / 1000 mod 60 < 60) by (apply Z.mod_pos_bound; done).
  assert (Hf : 0 <= ms mod 1000 < 1000) by (apply Z.mod_pos_bound; done).
  destruct (pad_units y 4 ltac:(lia) ltac:(done)) as (uy & -> & Ly & Vy).
  destruct (pad_units m 2 ltac:(lia) ltac:(done)) as (um & -> & Lm & Vm).
  destruct (pad_units d 2 ltac:(lia) ltac:(done)) as (ud & -> & Ld & Vd).
  destruct (pad_units (ms / 3600000) 2 ltac:(lia) ltac:(done)) as (uh & -> & Lh & Vh).
  destruct (pad_units (ms / 60000 mod 60) 2 ltac:(lia) ltac:(done)) as (un & -> & Ln & Vn).
  destruct (pad_units (ms / 1000 mod 60) 2 ltac:(lia) ltac:(done)) as (us & -> & Ls & Vs).
  destruct (pad_units (ms mod 1000) 3 ltac:(lia) ltac:(done)) as (uf & -> & Lf & Vf).
  destruct uy as [|y1 [|y2 [|y3 [|y4 [|]]]]]; try discriminate Ly. destruct um as [|m1 [|m2 [|]]]; try discriminate Lm.
  destruct ud as [|d1 [|d2 [|]]]; try discriminate Ld. destruct uh as [|h1 [|h2 [|]]]; try discriminate Lh.
  destruct un as [|n1 [|n2 [|]]]; try discriminate Ln. destruct us as [|s1 [|s2 [|]]]; try discriminate Ls.
  destruct uf as [|f1 [|f2 [|f3 [|]]]]; try discriminate Lf.
  unfold parse_iso, japp. cbn [units app]. rewrite bool_decide_eq_true_2 by reflexivity. cbn [negb].
  rewrite Vy, Vm, Vd, Vh, Vn, Vs, Vf. cbn [mbind option_bind]. rewrite Hdays, Ec.
  rewrite bool_decide_eq_true_2 by done. rewrite !(proj2 (Z.ltb_lt _ _)) by lia. cbn [andb]. f_equal.
  rewrite Ht at 2. rewrite <- Z.add_assoc, <- Z.add_assoc, <- Z.add_assoc. f_equal.
  clear. clearbody ms. Z.to_euclidean_division_equations; lia.
Qed.
