(* ===== verification/InviteCodes.v ===== *)
(** * Invitation codes

    [invites/invite-code.ts]: minting, normalising, formatting and masking a code.
    [toUpperCase] is the language's Unicode case mapping and [randomInt] the
    platform's generator; both are arguments.  [inviteUrl] is left
    out: it is the platform's URL serializer. *)

From S2P Require Import Prelude JsString.

Definition INVITE_CODE_ALPHABET : jstr := "23456789ABCDEFGHJKMNPQRSTVWXYZ".
Definition GROUP_LENGTH : Z := 4.
Definition GROUPS : Z := 3.
Definition INVITE_CODE_LENGTH : Z := GROUP_LENGTH * GROUPS.

(** [[\s\-_]] *)
Definition SEPARATORS (c : N) : bool := (is_space c || (c =? 45) || (c =? 95))%N.

Definition normaliseInviteCode (toUpperCase : jstr -> jstr) (value : jstr) : jstr :=
  toUpperCase (Js (List.filter (fun c => negb (SEPARATORS c)) (units (jtrim value)))).

(** The loop that slices four units at a time; [fuel] bounds the groups. *)
Fixpoint groups_of (fuel : nat) (u : list N) : list jstr :=
  match fuel with
  | O => []
  | S fuel => match u with [] => [] | _ => Js (take 4 u) :: groups_of fuel (drop 4 u) end
  end.

(** One group per unit is more than enough. *)
Definition formatInviteCode (normalised : jstr) : jstr :=
  jjoin "-" (groups_of (length (units normalised)) (units normalised)).

Definition in_alphabet (c : N) : bool := existsb (N.eqb c) (units INVITE_CODE_ALPHABET).

Definition looksLikeInviteCode (normalised : jstr) : bool :=
  (jlength normalised =? INVITE_CODE_LENGTH) && forallb in_alphabet (units normalised).

(** [INVITE_CODE_ALPHABET[i]], the empty string out of range. *)
Definition alphabet_at (i : Z) : jstr := jslice i (i + 1) INVITE_CODE_ALPHABET.

(** [draw k] is the [k]-th answer of [randomInt(30)]. *)
Definition mintInviteCode (draw : nat -> Z) : jstr :=
  foldl (fun code k => code +++ alphabet_at (draw k)) (Js []) (seq 0 (Z.to_nat INVITE_CODE_LENGTH)).

(** [/^[a-z0-9][a-z0-9._-]{0,63}$/] *)
Definition isInviteCampaignTag (value : jstr) : bool :=
  match units value with
  | [] => false
  | c :: r =>
      (is_lower c || is_digit c) && (length r <=? 63)%nat &&
      forallb (fun d => is_lower d || is_digit d || (d =? 46)%N || (d =? 95)%N || (d =? 45)%N) r
  end.

Definition maskInviteCode (normalised : jstr) : jstr :=
  formatInviteCode (jtake GROUP_LENGTH normalised +++ jrepeat 8226 (Z.max (jlength normalised - GROUP_LENGTH) 0)).

(** ** Lemmas *)

(** A unit that neither [trim] nor the separators remove. *)
Definition plain (c : N) : Prop := (c < 128)%N /\ SEPARATORS c = false.

Lemma in_alphabet_spec c : in_alphabet c = true ->
  plain c /\ upper_unit c = c /\ plain (lower_unit c) /\ upper_unit (lower_unit c) = c.
Proof.
  unfold in_alphabet, plain. rewrite existsb_exists. intros (x & Hx & ->%N.eqb_eq).
  assert (H : Forall (fun c => ((c < 128)%N /\ SEPARATORS c = false) /\ upper_unit c = c /\
     ((lower_unit c < 128)%N /\ SEPARATORS (lower_unit c) = false) /\ upper_unit (lower_unit c) = c)
     (units INVITE_CODE_ALPHABET)).
  { apply (bool_decide_eq_true _). vm_compute. reflexivity. }
  rewrite Forall_forall in H. apply H. by apply list_elem_of_In.
Qed.

Lemma plain_not_space c : plain c -> is_space c = false.
Proof. intros [_ H]. unfold SEPARATORS in H. by destruct (is_space c). Qed.

Lemma alphabet_at_spec i : 0 <= i < 30 -> exists c, alphabet_at i = Js [c] /\ in_alphabet c = true.
Proof.
  intros Hi.
  assert (H : Forall (fun n => match alphabet_at (Z.of_nat n) with Js [c] => in_alphabet c = true | _ => False end)
                (seq 0 30)).
  { repeat (apply Forall_cons_2; [vm_compute; reflexivity|]). apply Forall_nil_2. }
  rewrite Forall_forall in H. specialize (H (Z.to_nat i)). rewrite Z2Nat.id in H by lia.
  destruct (alphabet_at i) as [[|c [|? ?]]]; [..|by exists c; split; [|apply H, elem_of_seq; lia]|];
    exfalso; apply H, elem_of_seq; lia.
Qed.

Lemma mint_fold (draw : nat -> Z) l : forall code, (forall k, 0 <= draw k < 30) -> forallb in_alphabet (units code) = true ->
  let minted := foldl (fun code k => code +++ alphabet_at (draw k)) code l in
  length (units minted) = (length (units code) + length l)%nat /\ forallb in_alphabet (units minted) = true.
Proof.
  induction l as [|k l IH]; intros code Hd Hc; cbn [foldl]; [cbn; split; [lia|done]|].
  destruct (alphabet_at_spec (draw k) (Hd k)) as (c & -> & Ha).
  destruct (IH (code +++ Js [c]) Hd) as [H1 H2].
  { unfold japp. cbn [units]. rewrite forallb_app, Hc. cbn [forallb]. by rewrite Ha. }
  cbv zeta in *. rewrite H1. split; [|done]. unfold japp. cbn [units]. rewrite length_app. cbn. lia.
Qed.

Lemma Forall_app_1_3 {A} (P : A -> Prop) a b d :
  Forall P (a ++ b ++ d) -> Forall P a /\ Forall P b /\ Forall P d.
Proof. by rewrite !Forall_app. Qed.

(** Reading three dashed groups. *)
Lemma normalise_dashed toUpperCase a b d :
  (forall s, Forall (fun c => (c < 128)%N) (units s) -> toUpperCase s = Js (map upper_unit (units s))) ->
  Forall plain (a ++ b ++ d) ->
  normaliseInviteCode toUpperCase (Js (a ++ 45%N :: b ++ 45%N :: d)) = Js (map upper_unit (a ++ b ++ d)).
Proof.
  intros Hup (Ha & Hb & Hd)%Forall_app_1_3.
  assert (Hf : forall u, Forall plain u -> List.filter (fun c => negb (SEPARATORS c)) u = u).
  { intros u Hu. apply filter_all, Forall_forall. intros c Hc.
    rewrite Forall_forall in Hu. by destruct (Hu c Hc) as [_ ->]. }
  unfold normaliseInviteCode, jtrim. cbn [units]. rewrite trim_units_id.
  2:{ rewrite !forallb_app. cbn [forallb]. rewrite forallb_app. cbn [forallb].
      assert (Hs : forall u, Forall plain u -> forallb (fun c => negb (is_space c)) u = true).
      { intros u Hu. apply forallb_forall. intros c Hc%list_elem_of_In. rewrite Forall_forall in Hu.
        by rewrite plain_not_space by (by apply Hu). }
      by rewrite !Hs. }
  rewrite List.filter_app. cbn [List.filter]. change (SEPARATORS 45) with true. cbn [negb].
  rewrite List.filter_app. cbn [List.filter]. change (SEPARATORS 45) with true. cbn [negb].
  rewrite !Hf by done. apply Hup. cbn [units]. rewrite !Forall_app.
  split_and!; (eapply Forall_impl; [eassumption|by intros ? []]).
Qed.

Lemma alphabet_plain u : forallb in_alphabet u = true ->
  Forall plain u /\ map upper_unit u = u /\ Forall plain (map lower_unit u) /\ map upper_unit (map lower_unit u) = u.
Proof.
  induction u as [|c u IH]; cbn [forallb map]; [done|]. intros [Hc Hu]%andb_true_iff.
  destruct (in_alphabet_spec c Hc) as (H1 & H2 & H3 & H4), (IH Hu) as (E1 & E2 & E3 & E4).
  rewrite H2, E2, H4, E4. split_and!; try done; by constructor.
Qed.

(** A code is three groups of four. *)
Lemma looksLike_groups c : looksLikeInviteCode c = true ->
  exists a b d, units c = a ++ b ++ d /\ length a = 4%nat /\ length b = 4%nat /\ length d = 4%nat /\
    forallb in_alphabet a = true /\ forallb in_alphabet b = true /\ forallb in_alphabet d = true /\
    formatInviteCode c = Js (a ++ 45%N :: b ++ 45%N :: d).
Proof.
  destruct c as [u]. unfold looksLikeInviteCode, jlength. cbn [units]. intros [Hl%Z.eqb_eq Hf]%andb_true_iff.
  unfold INVITE_CODE_LENGTH, GROUP_LENGTH, GROUPS in Hl.
  assert (Hlen : length u = 12%nat) by lia. clear Hl.
  do 12 (destruct u as [|? u]; [done|]). destruct u; [|done].
  eexists [_; _; _; _], [_; _; _; _], [_; _; _; _]. split; [reflexivity|]. cbn in Hf |- *.
  rewrite !andb_true_iff in *. tauto.
Qed.

(** The display form, in capitals or not, reads back as the code. *)
Lemma normalise_format toUpperCase c :
  (forall s, Forall (fun c => (c < 128)%N) (units s) -> toUpperCase s = Js (map upper_unit (units s))) ->
  looksLikeInviteCode c = true ->
  jlength (formatInviteCode c) = 14 /\
  normaliseInviteCode toUpperCase (formatInviteCode c) = c /\
  normaliseInviteCode toUpperCase (Js (map lower_unit (units (formatInviteCode c)))) = c.
Proof.
  intros Hup Hc. destruct (looksLike_groups c Hc) as (a & b & d & Hu & La & Lb & Ld & Fa & Fb & Fd & ->).
  assert (Hall : forallb in_alphabet (a ++ b ++ d) = true) by (by rewrite !forallb_app, Fa, Fb, Fd).
  destruct (alphabet_plain _ Hall) as (H1 & H2 & H3 & H4). split_and!.
  - unfold jlength. cbn [units]. rewrite length_app. cbn [length]. rewrite length_app. cbn [length]. lia.
  - rewrite normalise_dashed, H2, <- Hu by done. by destruct c.
  - cbn [units]. rewrite map_app. cbn [map]. rewrite map_app. cbn [map]. change (lower_unit 45) with 45%N.
    rewrite !map_app in H3. rewrite normalise_dashed by done.
    rewrite <- !map_app, H4, <- Hu. by destruct c.
Qed.

(** ** Properties *)

(** Minting, showing and reading a code agree: whatever [randomInt] draws in
    range, the minted string has the shape of a code; the display form of a code,
    in capitals or not, reads back as that code; and the masked form, for a log,
    depends on its first group alone. *)
Theorem invite_code_roundtrip toUpperCase :
  (forall s, Forall (fun c => (c < 128)%N) (units s) -> toUpperCase s = Js (map upper_unit (units s))) ->
  (forall draw : nat -> Z, (forall k, 0 <= draw k < 30) -> looksLikeInviteCode (mintInviteCode draw) = true) /\
  (forall c, looksLikeInviteCode c = true ->
     jlength (formatInviteCode c) = 14 /\
     normaliseInviteCode toUpperCase (formatInviteCode c) = c /\
     normaliseInviteCode toUpperCase (Js (map lower_unit (units (formatInviteCode c)))) = c) /\
  (forall c d, looksLikeInviteCode c = true -> looksLikeInviteCode d = true ->
     jtake GROUP_LENGTH c = jtake GROUP_LENGTH d -> maskInviteCode c = maskInviteCode d).
Proof.
  intros Hup. split_and!.
  - intros draw Hd. unfold mintInviteCode.
    destruct (mint_fold draw (seq 0 (Z.to_nat INVITE_CODE_LENGTH)) (Js []) Hd) as [H1 H2]; [done|].
    unfold looksLikeInviteCode, jlength. rewrite H1, H2, length_seq. reflexivity.
  - intros c Hc. by apply normalise_format.
  - intros c d Hc Hd Heq. unfold maskInviteCode. rewrite Heq.
    apply andb_true_iff in Hc as [->%Z.eqb_eq _], Hd as [->%Z.eqb_eq _]. done.
Qed.

Lemma invite_code_roundtrip_witness :
  normaliseInviteCode (fun s => Js (map upper_unit (units s))) (formatInviteCode "ABCDEFGH2345") = "ABCDEFGH2345" /\
  maskInviteCode "ABCDEFGH2345" = maskInviteCode "ABCDZZZZZZZZ".
Proof.
  destruct (invite_code_roundtrip (fun s => Js (map upper_unit (units s))) (fun s _ => eq_refl)) as (_ & H2 & H3).
  split; [apply (H2 "ABCDEFGH2345"); reflexivity | apply (H3 "ABCDEFGH2345" "ABCDZZZZZZZZ"); reflexivity].
Defined.

Example formatInviteCode_ex : formatInviteCode "ABCDEFGH2345" = "ABCD-EFGH-2345".
Proof. vm_compute. reflexivity. Qed.

Example maskInviteCode_ex : maskInviteCode "ABCDEFGH2345" = "ABCD-••••-••••".
Proof. vm_compute. reflexivity. Qed.
