(* ===== verification/Invites.v ===== *)
(** * Redeeming invitations at sign-up

    [invites/invites.service.ts], the gate in front of it
    ([invites/invite-requirement.ts], [auth/sign-up-gate.service.ts]) and the
    operator's sign-up grant ([invites/signup-grant.service.ts]).  The row a
    redemption read before its transaction opened is an argument of the
    transaction, so the theorems hold whatever ran in between. *)

From stdpp Require Import fin_maps.
From S2P Require Import Prelude JsString Store Ledger InviteCodes.

(** ** Data *)

Inductive InviteLookup :=
| lookup_valid (grantMicros : Z) (campaign : jstr)
| lookup_invalid (reason : InviteUnusableReason).

Inductive refused_reason := unusable (r : InviteUnusableReason) | already_redeemed | redeem_error.

Inductive InviteRedemptionOutcome :=
| granted (grantMicros : Z) (campaign creditTransactionId redemptionId : jstr)
| no_code
| refused (reason : refused_reason).

Record SignUpInvite := {
  si_code : option jstr;
  si_ip : option jstr;
  si_userAgent : option jstr
}.

Definition NO_SIGN_UP_INVITE : SignUpInvite := {| si_code := None; si_ip := None; si_userAgent := None |}.

Record RedeemOnSignUpInput := {
  ri_userId : jstr;
  ri_workspaceId : jstr;
  ri_invite : SignUpInvite
}.

Definition unusableReason (invite : InviteCode) (now : Z) : option InviteUnusableReason :=
  match ic_disabledAt invite with
  | Some _ => Some disabled
  | None =>
      if match ic_expiresAt invite with Some e => e <=? now | None => false end then Some expired
      else if ic_maxRedemptions invite <=? ic_redemptionCount invite then Some exhausted
      else None
  end.

(** [findOne({ where: { code } })]: the row and its id. *)
Definition find_by_code (db : Store) (code : jstr) : option (jstr * InviteCode) :=
  find_first (fun kc => jeqb (ic_code (snd kc)) code) (map_to_list (invite_codes db)).

Definition take_seat (c : InviteCode) : InviteCode :=
  {| ic_code := ic_code c; ic_grantMicros := ic_grantMicros c; ic_campaign := ic_campaign c;
     ic_maxRedemptions := ic_maxRedemptions c; ic_redemptionCount := ic_redemptionCount c + 1;
     ic_expiresAt := ic_expiresAt c; ic_disabledAt := ic_disabledAt c; ic_note := ic_note c;
     ic_issuedByUserId := ic_issuedByUserId c; ic_createdAt := ic_createdAt c |}.

(** The [WHERE] of the claim, beside the id. *)
Definition seat_free (now : Z) (c : InviteCode) : bool :=
  (ic_redemptionCount c <? ic_maxRedemptions c) &&
  match ic_disabledAt c with None => true | Some _ => false end &&
  match ic_expiresAt c with None => true | Some e => now <? e end.

Definition claimSeat (id : jstr) (now : Z) (db : Store) : result error Store :=
  let '(db1, affected) := update_invite_code id (seat_free now) take_seat db in
  if affected =? 0 then
    Err (InviteClaimLostError match invite_codes db1 !! id with
                              | Some current => default exhausted (unusableReason current now)
                              | None => not_found
                              end)
  else Ok db1.

(** What the process supplies to a redemption: the two [randomUUID()]s and the two
    readings of the clock. *)
Record redeem_env := { re_ledger : write_env; re_redemptionId : jstr; re_now : Z }.

Section Redemption.
(** The language's case mapping, the platform's SHA-256 and [auth.secret]. *)
Context (toUpperCase : jstr -> jstr) (sha256_hex : jstr -> jstr) (secret : jstr).

Definition saltedHash (value : jstr) : jstr := jtake 64 (sha256_hex (secret +++ ":" +++ value)).

Definition fingerprint (value : option jstr) : option jstr := saltedHash <$> present value.

Definition lookup_code (db : Store) (raw : jstr) (now : Z) : InviteLookup :=
  let code := normaliseInviteCode toUpperCase raw in
  if negb (looksLikeInviteCode code) then lookup_invalid not_found
  else match find_by_code db code with
  | None => lookup_invalid not_found
  | Some (_, found) =>
      match unusableReason found now with
      | Some reason => lookup_invalid reason
      | None => lookup_valid (ic_grantMicros found) (ic_campaign found)
      end
  end.

Definition grant_input (id : jstr) (invite : InviteCode) (input : RedeemOnSignUpInput) : LedgerEntryInput :=
  {| in_workspaceId := ri_workspaceId input; in_kind := grant; in_amountMicros := ic_grantMicros invite;
     in_reference := Some (ic_campaign invite);
     in_description := Some ("Invitation credit · " +++ ic_campaign invite);
     in_idempotencyKey := "invite:" +++ id +++ ":" +++ ri_userId input |}.

(** The transaction's body: claim a seat, credit the workspace, record it. *)
Definition grant_invite (env : redeem_env) (id : jstr) (invite : InviteCode) (input : RedeemOnSignUpInput)
    (db : Store) : result error (Store * InviteRedemptionOutcome) :=
  db1 ← claimSeat id (re_now env) db;
  entry ← appendWithin (re_ledger env) (grant_input id invite input) db1;
  let row := {| ir_id := re_redemptionId env; ir_inviteCodeId := id; ir_userId := ri_userId input;
                ir_workspaceId := ri_workspaceId input;
                ir_creditTransactionId := ct_id (le_transaction (snd entry));
                ir_ipHash := fingerprint (si_ip (ri_invite input));
                ir_userAgentHash := fingerprint (si_userAgent (ri_invite input));
                ir_redeemedAt := re_now env |} in
  db3 ← insert_invite_redemption row (fst entry);
  Ok (db3, granted (ic_grantMicros invite) (ic_campaign invite) (ct_id (le_transaction (snd entry)))
             (re_redemptionId env)).

(** The transaction of a redemption that read [invite] under [id], and what
    [redeem] and [redeemOnSignUp] make of its errors. *)
Definition redeem_commit (env : redeem_env) (id : jstr) (invite : InviteCode) (input : RedeemOnSignUpInput)
    (db : Store) : Store * InviteRedemptionOutcome :=
  match grant_invite env id invite input db with
  | Ok (db', outcome) => (db', outcome)
  | Err (InviteClaimLostError reason) => (db, refused (unusable reason))
  | Err e => (db, refused (if isUniqueViolation e then already_redeemed else redeem_error))
  end.

(** The reads of [redeem]: a refusal, or the row the transaction will use. *)
Definition redeem_read (env : redeem_env) (input : RedeemOnSignUpInput) (db : Store)
    : InviteRedemptionOutcome + (jstr * InviteCode) :=
  let code := normaliseInviteCode toUpperCase (default "" (si_code (ri_invite input))) in
  if negb (looksLikeInviteCode code) then inl (refused (unusable not_found))
  else match find_by_code db code with
  | None => inl (refused (unusable not_found))
  | Some (id, invite) =>
      match unusableReason invite (re_now env) with
      | Some reason => inl (refused (unusable reason))
      | None => inr (id, invite)
      end
  end.

Definition redeemOnSignUp (env : redeem_env) (input : RedeemOnSignUpInput) (db : Store)
    : Store * InviteRedemptionOutcome :=
  match present (si_code (ri_invite input)) with
  | None => (db, no_code)
  | Some _ =>
      match redeem_read env input db with
      | inl outcome => (db, outcome)
      | inr (id, invite) => redeem_commit env id invite input db
      end
  end.

Definition redemptionOf (db : Store) (userId : jstr) : option InviteRedemption :=
  find_first (fun r => jeqb (ir_userId r) userId) (invite_redemptions db).

(** ** The gate *)

Inductive SignUpRefusalReason := missing | unusable_code (r : InviteUnusableReason).
Inductive SignUpRefusalCode := invite_required | invite_already_claimed | invite_expired_or_unknown.

Definition signUpRefusalCodeOf (reason : SignUpRefusalReason) : SignUpRefusalCode :=
  match reason with
  | missing => invite_required
  | unusable_code exhausted => invite_already_claimed
  | unusable_code _ => invite_expired_or_unknown
  end.

Definition SIGN_UP_REFUSAL_MESSAGES (c : SignUpRefusalCode) : jstr :=
  match c with
  | invite_required => "Registration on this deployment is by invitation. Sign up with the link you were sent."
  | invite_already_claimed => "This invitation has already been claimed. Ask for a new one."
  | invite_expired_or_unknown => "This invitation cannot be used. Check the link you were sent, or ask for a new one."
  end.

Definition refusalFor (db : Store) (invite : SignUpInvite) (now : Z) : option SignUpRefusalReason :=
  match present (si_code invite) with
  | None => Some missing
  | Some code =>
      match lookup_code db code now with
      | lookup_valid _ _ => None
      | lookup_invalid reason => Some (unusable_code reason)
      end
  end.

(** [None] lets the sign-up through; a code is the refusal that is thrown. *)
Definition admit_sign_up (required : bool) (db : Store) (invite : SignUpInvite) (bootstrap : bool) (now : Z)
    : option SignUpRefusalCode :=
  if negb required || bootstrap then None
  else signUpRefusalCodeOf <$> refusalFor db invite now.

Definition admits (required : bool) (db : Store) (invite : SignUpInvite) (now : Z) : bool :=
  if negb required then true
  else match refusalFor db invite now with None => true | Some _ => false end.
End Redemption.

(** ** The sign-up grant *)

Definition SIGNUP_GRANT_REFERENCE : jstr := "signup".

Inductive SignUpGrantOutcome :=
| sg_granted (grantMicros : Z) (creditTransactionId : jstr)
| sg_replayed (creditTransactionId : jstr)
| sg_disabled
| sg_refused.

Definition signup_input (grantMicros : Z) (userId workspaceId : jstr) : LedgerEntryInput :=
  {| in_workspaceId := workspaceId; in_kind := grant; in_amountMicros := grantMicros;
     in_reference := Some SIGNUP_GRANT_REFERENCE; in_description := Some "Credit granted at sign-up";
     in_idempotencyKey := "signup:" +++ userId |}.

Definition grantOnSignUp (env : write_env) (grantMicros : Z) (userId workspaceId : jstr) (db : Store)
    : Store * SignUpGrantOutcome :=
  if grantMicros <=? 0 then (db, sg_disabled)
  else match record env (signup_input grantMicros userId workspaceId) db with
  | (db', Ok entry) =>
      (db', if le_replayed entry then sg_replayed (ct_id (le_transaction entry))
            else sg_granted grantMicros (ct_id (le_transaction entry)))
  | (db', Err _) => (db', sg_refused)
  end.

(** ** Lemmas *)

Lemma seat_free_usable c now : seat_free now c = true <-> unusableReason c now = None.
Proof.
  unfold seat_free, unusableReason. destruct (ic_disabledAt c); [by rewrite andb_false_r|].
  rewrite andb_true_r. destruct (ic_expiresAt c) as [e|].
  - destruct (Z.leb_spec e now), (Z.ltb_spec now e), (Z.leb_spec (ic_maxRedemptions c) (ic_redemptionCount c)),
      (Z.ltb_spec (ic_redemptionCount c) (ic_maxRedemptions c)); cbn; try lia; done.
  - destruct (Z.leb_spec (ic_maxRedemptions c) (ic_redemptionCount c)),
      (Z.ltb_spec (ic_redemptionCount c) (ic_maxRedemptions c)); cbn; try lia; done.
Qed.

(** The claim in terms of the row it finds. *)
Lemma claimSeat_eq id now db :
  claimSeat id now db =
  match invite_codes db !! id with
  | None => Err (InviteClaimLostError not_found)
  | Some c => match unusableReason c now with
              | Some reason => Err (InviteClaimLostError reason)
              | None => Ok (set_invite_codes (<[id := take_seat c]>) db)
              end
  end.
Proof.
  unfold claimSeat, update_invite_code. destruct (invite_codes db !! id) as [c|] eqn:Ec; cbn.
  - pose proof (seat_free_usable c now) as Hf. destruct (seat_free now c); cbn.
    + by rewrite (proj1 Hf eq_refl).
    + rewrite Ec. destruct (unusableReason c now) eqn:Eu; [done|]. discriminate (proj2 Hf eq_refl).
  - by rewrite Ec.
Qed.

Definition redemption_clash (row : InviteRedemption) (db : Store) : bool :=
  existsb (fun r => jeqb (ir_id r) (ir_id row) || jeqb (ir_userId r) (ir_userId row)) (invite_redemptions db).

Lemma redemption_clash_false row db : redemption_clash row db = false <->
  (ir_id row ∉ map ir_id (invite_redemptions db)) /\ (ir_userId row ∉ map ir_userId (invite_redemptions db)).
Proof.
  unfold redemption_clash. split.
  - intros H. split; intros (r & Heq & Hr)%list_elem_of_fmap; apply not_true_iff_false in H; apply H, existsb_exists;
      exists r; (split; [by apply list_elem_of_In|]); rewrite Heq, jeqb_refl; [done|by rewrite orb_true_r].
  - intros [H1 H2]. apply not_true_iff_false. intros (r & Hr%list_elem_of_In & He)%existsb_exists.
    apply orb_true_iff in He as [He%jeqb_eq|He%jeqb_eq]; [apply H1|apply H2]; rewrite <- He;
      by apply list_elem_of_fmap_2.
Qed.

(** A positive grant to the ledger, on every branch. *)
Definition ledger_clash (env : write_env) (key : jstr) (db : Store) : bool :=
  existsb (fun r => jeqb (ct_id r) (env_uuid env) || jeqb (ct_idempotencyKey r) key) (credit_transactions db).

Definition ledger_row (env : write_env) (input : LedgerEntryInput) : CreditTransaction :=
  {| ct_id := env_uuid env; ct_workspaceId := in_workspaceId input; ct_kind := in_kind input;
     ct_amountMicros := in_amountMicros input; ct_reference := in_reference input;
     ct_description := in_description input; ct_idempotencyKey := in_idempotencyKey input;
     ct_createdAt := env_now env |}.

(** The store after a committed entry. *)
Definition with_entry (env : write_env) (input : LedgerEntryInput) (w : Workspace) (db : Store) : Store :=
  {| workspaces := <[in_workspaceId input := add_balance (in_amountMicros input) w]> (workspaces db);
     credit_transactions := credit_transactions db ++ [ledger_row env input];
     invite_codes := invite_codes db; invite_redemptions := invite_redemptions db |}.

Lemma append_grant env input db : in_kind input = grant ->
  append env input db =
  match workspaces db !! in_workspaceId input with
  | None => Err (NotFoundException "Workspace not found.")
  | Some w =>
      if (in_amountMicros input <? 0) && (balanceMicros w + in_amountMicros input <? 0)
      then Err (InsufficientCreditsError (balanceMicros w) (in_amountMicros input))
      else if ledger_clash env (in_idempotencyKey input) db then Err UniqueViolation
      else Ok (with_entry env input w db,
               {| le_transaction := ledger_row env input;
                  le_balanceMicros := balanceMicros w + in_amountMicros input; le_replayed := false |})
  end.
Proof.
  intros Hk. unfold append, update_workspace. rewrite Hk. cbn [MAY_OVERDRAW negb andb].
  destruct (workspaces db !! in_workspaceId input) as [w|] eqn:Hw.
  2:{ cbn. rewrite ?Hw. reflexivity. }
  destruct (Z.ltb_spec (in_amountMicros input) 0) as [Hneg|Hpos]; cbn [andb].
  - rewrite Z.leb_antisym. destruct (Z.ltb_spec (balanceMicros w + in_amountMicros input) 0) as [Hb|Hb]; cbn [negb].
    { cbn. by rewrite Hw. }
    change (1 =? 0) with false. cbv iota. unfold insert_credit_transaction, throw_if.
    change (existsb _ _) with (ledger_clash env (in_idempotencyKey input) db).
    destruct (ledger_clash env (in_idempotencyKey input) db); [done|]. cbn. rewrite lookup_insert_eq. cbn.
    unfold with_entry, ledger_row. by rewrite Hk.
  - change (1 =? 0) with false. cbv iota. unfold insert_credit_transaction, throw_if.
    change (existsb _ _) with (ledger_clash env (in_idempotencyKey input) db).
    destruct (ledger_clash env (in_idempotencyKey input) db); [done|]. cbn. rewrite lookup_insert_eq. cbn.
    unfold with_entry, ledger_row. by rewrite Hk.
Qed.

(** ** The invariant of redemptions *)

Definition seats_taken (id : jstr) (rs : list InviteRedemption) : Z :=
  Z.of_nat (length (List.filter (fun r => jeqb (ir_inviteCodeId r) id) rs)).

(** The ledger row behind a redemption. *)
Definition redemption_credit (ts : list CreditTransaction) (r : InviteRedemption) : Prop :=
  exists t, t ∈ ts /\ ct_id t = ir_creditTransactionId r /\ ct_kind t = grant /\ 0 < ct_amountMicros t /\
    ct_workspaceId t = ir_workspaceId r /\
    ct_idempotencyKey t = "invite:" +++ ir_inviteCodeId r +++ ":" +++ ir_userId r.

Record invites_ok (db : Store) : Prop := {
  io_seats : forall id c, invite_codes db !! id = Some c ->
    seats_taken id (invite_redemptions db) = ic_redemptionCount c /\ ic_redemptionCount c <= ic_maxRedemptions c;
  io_users : NoDup (map ir_userId (invite_redemptions db));
  io_ids : NoDup (map ir_id (invite_redemptions db));
  io_credits : Forall (redemption_credit (credit_transactions db)) (invite_redemptions db);
  io_codes : Forall (fun r => is_Some (invite_codes db !! ir_inviteCodeId r)) (invite_redemptions db)
}.

Lemma seats_taken_snoc id rs r :
  seats_taken id (rs ++ [r]) = seats_taken id rs + (if jeqb (ir_inviteCodeId r) id then 1 else 0).
Proof.
  unfold seats_taken. rewrite List.filter_app, length_app. cbn [List.filter].
  destruct (jeqb _ id); cbn [length]; lia.
Qed.

Section RedemptionProofs.
Context (sha256_hex : jstr -> jstr) (secret : jstr).

Definition redemption_row (env : redeem_env) (id : jstr) (input : RedeemOnSignUpInput) : InviteRedemption :=
  {| ir_id := re_redemptionId env; ir_inviteCodeId := id; ir_userId := ri_userId input;
     ir_workspaceId := ri_workspaceId input; ir_creditTransactionId := env_uuid (re_ledger env);
     ir_ipHash := fingerprint sha256_hex secret (si_ip (ri_invite input));
     ir_userAgentHash := fingerprint sha256_hex secret (si_userAgent (ri_invite input));
     ir_redeemedAt := re_now env |}.

(** The store a committed redemption leaves. *)
Definition redeemed (env : redeem_env) (id : jstr) (invite c : InviteCode) (w : Workspace)
    (input : RedeemOnSignUpInput) (db : Store) : Store :=
  {| workspaces := <[ri_workspaceId input := add_balance (ic_grantMicros invite) w]> (workspaces db);
     credit_transactions := credit_transactions db ++ [ledger_row (re_ledger env) (grant_input id invite input)];
     invite_codes := <[id := take_seat c]> (invite_codes db);
     invite_redemptions := invite_redemptions db ++ [redemption_row env id input] |}.

(** What a redemption answers, by the row it finds inside its transaction. *)
Definition redemption_answer (env : redeem_env) (id : jstr) (invite : InviteCode) (input : RedeemOnSignUpInput)
    (db : Store) : Store * InviteRedemptionOutcome :=
  match invite_codes db !! id with
  | None => (db, refused (unusable not_found))
  | Some c =>
      match unusableReason c (re_now env) with
      | Some reason => (db, refused (unusable reason))
      | None =>
          if ic_grantMicros invite <=? 0 then (db, refused redeem_error)
          else match workspaces db !! ri_workspaceId input with
          | None => (db, refused redeem_error)
          | Some w =>
              if ledger_clash (re_ledger env) ("invite:" +++ id +++ ":" +++ ri_userId input) db
                 || redemption_clash (redemption_row env id input) db
              then (db, refused already_redeemed)
              else (redeemed env id invite c w input db,
                    granted (ic_grantMicros invite) (ic_campaign invite) (env_uuid (re_ledger env))
                      (re_redemptionId env))
          end
      end
  end.

Lemma redeem_commit_eq env id invite input db :
  redeem_commit sha256_hex secret env id invite input db = redemption_answer env id invite input db.
Proof.
  unfold redeem_commit, grant_invite, redemption_answer. rewrite claimSeat_eq.
  destruct (invite_codes db !! id) as [c|]; [|done].
  destruct (unusableReason c (re_now env)) as [reason|]; [done|]. cbn [mbind result_bind].
  unfold appendWithin, assertSign, throw_if. cbn [grant_input in_kind in_amountMicros REQUIRED_SIGN].
  destruct (Z.leb_spec (ic_grantMicros invite) 0) as [Hg|Hg].
  { destruct (Z.eqb_spec (ic_grantMicros invite) 0); [done|].
    by rewrite (proj2 (Z.ltb_lt _ _)) by lia. }
  rewrite (proj2 (Z.eqb_neq _ _)), (proj2 (Z.ltb_ge _ _)) by lia. cbn [orb mbind result_bind].
  rewrite append_grant by done.
  cbn [set_invite_codes workspaces grant_input in_workspaceId in_amountMicros in_idempotencyKey].
  destruct (workspaces db !! ri_workspaceId input) as [w|]; [|done].
  rewrite (proj2 (Z.ltb_ge (ic_grantMicros invite) 0)) by lia. cbn [andb].
  set (key := "invite:" +++ id +++ ":" +++ ri_userId input).
  change (ledger_clash (re_ledger env) key (set_invite_codes _ db)) with (ledger_clash (re_ledger env) key db).
  destruct (ledger_clash (re_ledger env) key db); [done|]. cbn [orb mbind result_bind fst snd].
  unfold insert_invite_redemption, throw_if. cbn [le_transaction].
  change (existsb _ _) with (redemption_clash (redemption_row env id input) db).
  by destruct (redemption_clash _ db).
Qed.
End RedemptionProofs.

Lemma ledger_clash_false env key db : ledger_clash env key db = false <->
  (env_uuid env ∉ map ct_id (credit_transactions db)) /\
  (key ∉ map ct_idempotencyKey (credit_transactions db)).
Proof.
  unfold ledger_clash. split.
  - intros H. split; intros (r & Heq & Hr)%list_elem_of_fmap; apply not_true_iff_false in H; apply H, existsb_exists;
      exists r; (split; [by apply list_elem_of_In|]); rewrite Heq, jeqb_refl; [done|by rewrite orb_true_r].
  - intros [H1 H2]. apply not_true_iff_false. intros (r & Hr%list_elem_of_In & He)%existsb_exists.
    apply orb_true_iff in He as [He%jeqb_eq|He%jeqb_eq]; [apply H1|apply H2]; rewrite <- He;
      by apply list_elem_of_fmap_2.
Qed.

Lemma redemption_credit_mono ts t r : redemption_credit ts r -> redemption_credit (ts ++ [t]) r.
Proof. intros (t' & Ht & H). exists t'. split; [|done]. apply elem_of_app. by left. Qed.

(** The two invariants over a committed redemption. *)
Lemma redeemed_invites_ok sha256_hex secret env id invite c w input db :
  invites_ok db -> invite_codes db !! id = Some c -> unusableReason c (re_now env) = None ->
  0 < ic_grantMicros invite -> redemption_clash (redemption_row sha256_hex secret env id input) db = false ->
  invites_ok (redeemed sha256_hex secret env id invite c w input db).
Proof.
  intros [Hs Hu Hi Hc Hk] Hid Hus Hg [Hn1 Hn2]%redemption_clash_false.
  split; cbn [redeemed invite_codes invite_redemptions credit_transactions].
  - intros id' c' Hc'. rewrite seats_taken_snoc. cbn [redemption_row ir_inviteCodeId].
    destruct (decide (id' = id)) as [->|Hne].
    + rewrite lookup_insert_eq in Hc'. injection Hc' as <-. rewrite jeqb_refl. destruct (Hs id c Hid) as [-> Hle].
      apply seat_free_usable in Hus. unfold seat_free in Hus. cbn [take_seat ic_redemptionCount ic_maxRedemptions].
      apply andb_true_iff in Hus as [[Hlt%Z.ltb_lt _]%andb_true_iff _]. lia.
    + rewrite lookup_insert_ne in Hc' by done. rewrite (proj2 (jeqb_neq _ _)), Z.add_0_r by done. by apply Hs.
  - rewrite map_app. by apply NoDup_snoc.
  - rewrite map_app. by apply NoDup_snoc.
  - apply Forall_app. split.
    + eapply Forall_impl; [exact Hc|]. intros r. apply redemption_credit_mono.
    + apply Forall_singleton. eexists. split; [apply elem_of_app; right; by left|]. done.
  - apply Forall_app. split.
    + eapply Forall_impl; [exact Hk|]. intros r Hr. by apply lookup_insert_is_Some'; right.
    + apply Forall_singleton. cbn. rewrite lookup_insert_eq. by eexists.
Qed.

Lemma redeemed_ledger_ok sha256_hex secret env id invite c w input db :
  ledger_ok db -> workspaces db !! ri_workspaceId input = Some w -> 0 < ic_grantMicros invite ->
  ledger_clash (re_ledger env) ("invite:" +++ id +++ ":" +++ ri_userId input) db = false ->
  ledger_ok (redeemed sha256_hex secret env id invite c w input db).
Proof.
  intros Hok Hw Hg Hcl.
  assert (Ha : append (re_ledger env) (grant_input id invite input) db =
    Ok (with_entry (re_ledger env) (grant_input id invite input) w db,
        {| le_transaction := ledger_row (re_ledger env) (grant_input id invite input);
           le_balanceMicros := balanceMicros w + ic_grantMicros invite; le_replayed := false |})).
  { rewrite append_grant by done. cbn [grant_input in_workspaceId in_amountMicros in_idempotencyKey].
    rewrite Hw, (proj2 (Z.ltb_ge (ic_grantMicros invite) 0)) by lia. cbn [andb]. by rewrite Hcl. }
  apply ledger_ok_append in Ha; [|done]. destruct Ha as [H1 H2 H3 H4]. by split.
Qed.

(** ** Properties *)

(** C14. One grant per account, and all of it or none: whatever row a redemption
    read before its transaction, committing it keeps the seats of every code within
    their number and equal to its redemptions, one redemption per user, a positive
    grant in the ledger behind each, and the ledger's own invariant; a refusal
    leaves the store as it was, and a grant credits exactly that workspace by
    exactly the code's terms and takes exactly one seat. *)
Theorem redemption_is_atomic sha256_hex secret env id invite input db db' outcome :
  invites_ok db -> ledger_ok db ->
  redeem_commit sha256_hex secret env id invite input db = (db', outcome) ->
  invites_ok db' /\ ledger_ok db' /\
  match outcome with
  | granted g campaign tx rid =>
      g = ic_grantMicros invite /\ 0 < g /\
      (exists c w, invite_codes db !! id = Some c /\ workspaces db !! ri_workspaceId input = Some w /\
         invite_codes db' = <[id := take_seat c]> (invite_codes db) /\
         workspaces db' = <[ri_workspaceId input := add_balance g w]> (workspaces db)) /\
      redemptionOf db (ri_userId input) = None /\ is_Some (redemptionOf db' (ri_userId input))
  | _ => db' = db
  end.
Proof.
  intros Hio Hlo. rewrite redeem_commit_eq. unfold redemption_answer.
  destruct (invite_codes db !! id) as [c|] eqn:Hid; [|by intros [= <- <-]].
  destruct (unusableReason c (re_now env)) eqn:Hus; [by intros [= <- <-]|].
  destruct (Z.leb_spec (ic_grantMicros invite) 0) as [Hg|Hg]; [by intros [= <- <-]|].
  destruct (workspaces db !! ri_workspaceId input) as [w|] eqn:Hw; [|by intros [= <- <-]].
  destruct (ledger_clash _ _ db || _) eqn:Hcl; [by intros [= <- <-]|].
  apply orb_false_iff in Hcl as [Hcl Hrc]. intros [= <- <-].
  split; [by apply redeemed_invites_ok|]. split; [by apply redeemed_ledger_ok|].
  apply redemption_clash_false in Hrc as [_ Hnu]. cbn in Hnu.
  split_and!; [done|done|by exists c, w| |].
  - unfold redemptionOf. by apply find_key_none.
  - unfold redemptionOf. cbn [redeemed invite_redemptions]. rewrite find_first_app.
    destruct (find_first _ (invite_redemptions db)); [by eexists|]. cbn. rewrite jeqb_refl. by eexists.
Qed.

(** What a redemption answers: by the row found inside the transaction and in
    this order, a code that is gone, disabled, expired or out of seats is refused by
    that reason; a worthless code or a missing workspace is an error; an account or
    an event already recorded is refused as already redeemed; and everything else is
    granted on the terms read. *)
Theorem redeem_commit_outcome sha256_hex secret env id invite input db :
  snd (redeem_commit sha256_hex secret env id invite input db) =
  match invite_codes db !! id with
  | None => refused (unusable not_found)
  | Some c =>
      match unusableReason c (re_now env) with
      | Some reason => refused (unusable reason)
      | None =>
          if (ic_grantMicros invite <=? 0) || bool_decide (workspaces db !! ri_workspaceId input = None)
          then refused redeem_error
          else if bool_decide (env_uuid (re_ledger env) ∈ map ct_id (credit_transactions db)) ||
                  bool_decide ("invite:" +++ id +++ ":" +++ ri_userId input
                               ∈ map ct_idempotencyKey (credit_transactions db)) ||
                  bool_decide (re_redemptionId env ∈ map ir_id (invite_redemptions db)) ||
                  bool_decide (ri_userId input ∈ map ir_userId (invite_redemptions db))
          then refused already_redeemed
          else granted (ic_grantMicros invite) (ic_campaign invite) (env_uuid (re_ledger env)) (re_redemptionId env)
      end
  end.
Proof.
  rewrite redeem_commit_eq. unfold redemption_answer.
  destruct (invite_codes db !! id) as [c|]; [|done]. destruct (unusableReason c _); [done|].
  destruct (ic_grantMicros invite <=? 0); [done|]. cbn [orb].
  destruct (workspaces db !! ri_workspaceId input) as [w|]; [|done]. rewrite bool_decide_eq_false_2 by done.
  pose proof (ledger_clash_false (re_ledger env) ("invite:" +++ id +++ ":" +++ ri_userId input) db) as H1.
  pose proof (redemption_clash_false (redemption_row sha256_hex secret env id input) db) as H2. cbn in H2.
  destruct (ledger_clash _ _ db); cbn [orb].
  - destruct (bool_decide _) eqn:E1; [done|]. destruct (bool_decide (_ ∈ map ct_idempotencyKey _)) eqn:E2; [done|].
    apply bool_decide_eq_false in E1, E2. by destruct (proj2 H1 (conj E1 E2)).
  - destruct (proj1 H1 eq_refl) as [N1 N2]. rewrite !(bool_decide_eq_false_2 (_ ∈ map ct_id _)) by done.
    rewrite (bool_decide_eq_false_2 (_ ∈ map ct_idempotencyKey _)) by done. cbn [orb].
    destruct (redemption_clash _ db).
    + destruct (bool_decide _) eqn:E1; [done|]. destruct (bool_decide (_ ∈ map ir_userId _)) eqn:E2; [done|].
      apply bool_decide_eq_false in E1, E2. by destruct (proj2 H2 (conj E1 E2)).
    + destruct (proj1 H2 eq_refl) as [N3 N4]. by rewrite !bool_decide_eq_false_2.
Qed.

Definition example_code : InviteCode :=
  {| ic_code := "ABCDEFGH2345"; ic_grantMicros := 100; ic_campaign := "launch"; ic_maxRedemptions := 1;
     ic_redemptionCount := 0; ic_expiresAt := None; ic_disabledAt := None; ic_note := None;
     ic_issuedByUserId := None; ic_createdAt := 0 |}.

Definition example_store : Store := set_invite_codes (<["c1" : jstr := example_code]>) (one_workspace "ws").

Definition example_redeem_env (u r : jstr) : redeem_env :=
  {| re_ledger := {| env_uuid := u; env_now := 7 |}; re_redemptionId := r; re_now := 7 |}.

Definition example_signup (user : jstr) : RedeemOnSignUpInput :=
  {| ri_userId := user; ri_workspaceId := "ws";
     ri_invite := {| si_code := Some "abcd-efgh-2345"; si_ip := None; si_userAgent := None |} |}.

Lemma example_store_ok : invites_ok example_store /\ ledger_ok example_store.
Proof.
  split; [split|].
  - intros id c Hc. cbn in Hc. apply lookup_insert_Some in Hc as [[<- <-]|[_ Hc]]; [done|].
    by rewrite lookup_empty in Hc.
  - constructor.
  - constructor.
  - constructor.
  - constructor.
  - destruct (one_workspace_ok "ws") as [H1 H2 H3 H4]. by split.
Qed.

Lemma redemption_is_atomic_witness :
  let first := redeem_commit (fun s => s) "secret" (example_redeem_env "u1" "r1") "c1" example_code (example_signup "alice")
                 example_store in
  snd first = granted 100 "launch" "u1" "r1" /\ invites_ok (fst first) /\ ledger_ok (fst first) /\
  snd (redeem_commit (fun s => s) "secret" (example_redeem_env "u2" "r2") "c1" example_code (example_signup "bob")
         (fst first)) = refused (unusable exhausted).
Proof.
  intros first.
  destruct (redemption_is_atomic (fun s => s) "secret" (example_redeem_env "u1" "r1") "c1" example_code
    (example_signup "alice") example_store (fst first) (snd first) (proj1 example_store_ok) (proj2 example_store_ok)
    (surjective_pairing first)) as (H1 & H2 & _).
  split_and!; [vm_compute; reflexivity|exact H1|exact H2|vm_compute; reflexivity].
Defined.

(** The gate asks the question the redemption will: on an invite-only
    deployment a sign-up is let through exactly when the redemption's own reads, at
    the same instant and with nothing in between, find a code it may claim; and a
    refusal tells apart only a missing code and a spent one. *)
Theorem admit_iff_redeemable toUpperCase db input env :
  let invite := ri_invite input in
  (admit_sign_up toUpperCase true db invite false (re_now env) = None <->
     present (si_code invite) <> None /\ exists row, redeem_read toUpperCase env input db = inr row) /\
  admits toUpperCase true db invite (re_now env) =
    bool_decide (admit_sign_up toUpperCase true db invite false (re_now env) = None) /\
  (forall code, admit_sign_up toUpperCase true db invite false (re_now env) = Some code ->
     match code with
     | invite_required => present (si_code invite) = None
     | invite_already_claimed => redeem_read toUpperCase env input db = inl (refused (unusable exhausted))
     | invite_expired_or_unknown => exists r, r <> exhausted /\
         redeem_read toUpperCase env input db = inl (refused (unusable r))
     end).
Proof.
  intros invite. unfold admit_sign_up, admits. cbn [negb orb]. unfold refusalFor, redeem_read, lookup_code. fold invite.
  assert (Hp : forall t, present (si_code invite) = Some t -> si_code invite = Some t).
  { unfold present. intros t. destruct (si_code invite) as [s|]; [|done]. by destruct (_ =? _). }
  destruct (present (si_code invite)) as [raw|] eqn:Ep.
  2:{ cbn. split_and!; [|reflexivity|by intros code [= <-]]. split; [done|by intros []]. }
  rewrite (Hp raw eq_refl). cbn [default from_option]. unfold id.
  destruct (looksLikeInviteCode _); cbn [negb].
  2:{ cbn. split_and!; [by split; [|intros [_ []]]|reflexivity|].
      intros code [= <-]. by exists not_found. }
  destruct (find_by_code db _) as [[id found]|].
  2:{ cbn. split_and!; [by split; [|intros [_ []]]|reflexivity|].
      intros code [= <-]. by exists not_found. }
  destruct (unusableReason found (re_now env)) as [reason|].
  - cbn. split_and!; [by split; [|intros [_ []]]|reflexivity|].
    intros code [= <-]. destruct reason; cbn; try done; (eexists; split; [|reflexivity]; done).
  - cbn. split_and!; [split; [|done]|reflexivity|done]. intros _. split; [done|by eexists].
Qed.

(** The sign-up grant is once per account and cannot fail the sign-up: it keeps
    the ledger's invariant, writes nothing unless it answers [granted], and once it
    has been granted every later call for that user, on the same terms or others,
    answers with that row and changes nothing. *)
Theorem signup_grant_once env grantMicros user ws db db' outcome :
  ledger_ok db -> grantOnSignUp env grantMicros user ws db = (db', outcome) ->
  ledger_ok db' /\
  match outcome with
  | sg_granted g tx =>
      g = grantMicros /\ 0 < g /\
      (exists w, workspaces db !! ws = Some w /\ workspaces db' = <[ws := add_balance g w]> (workspaces db)) /\
      forall env' g' ws', 0 < g' -> grantOnSignUp env' g' user ws' db' = (db', sg_replayed tx)
  | _ => db' = db
  end.
Proof.
  intros Hok. unfold grantOnSignUp. destruct (Z.leb_spec grantMicros 0) as [Hg|Hg]; [by intros [= <- <-]|].
  set (input := signup_input grantMicros user ws).
  assert (Hsign : forall g w, 0 < g -> assertSign (signup_input g user w) = Ok tt).
  { intros g w Hpos. apply assertSign_ok. cbn. lia. }
  unfold record at 1. unfold input at 1. rewrite (Hsign _ _ Hg). fold input.
  destruct (findByIdempotencyKey db _) as [t|] eqn:Ef; [by intros [= <- <-]|].
  destruct (append env input db) as [[db1 e]|err] eqn:Ea.
  - pose proof (append_ok _ _ _ _ _ Ea) as (w & Hw & _ & Hws & Hct & _ & _ & _ & _ & Ht & _ & Hr).
    rewrite Hr. intros [= <- <-]. split; [by eapply ledger_ok_append|]. split_and!; [done|done|by exists w|].
    intros env' g' ws' Hg'. rewrite (proj2 (Z.leb_gt _ _)) by done. unfold record. rewrite Hsign by done.
    assert (Hf : findByIdempotencyKey db1 (in_idempotencyKey (signup_input g' user ws')) = Some (le_transaction e)).
    { unfold findByIdempotencyKey in *. rewrite Hct, find_first_app. change (in_idempotencyKey (signup_input g' user ws'))
        with (in_idempotencyKey input). rewrite Ef, Ht. cbn. by rewrite jeqb_refl. }
    by rewrite Hf.
  - destruct (negb _); by intros [= <- <-].
Qed.

Lemma signup_grant_once_witness :
  let first := grantOnSignUp {| env_uuid := "u1"; env_now := 7 |} 500 "alice" "ws" example_store in
  snd first = sg_granted 500 "u1" /\ ledger_ok (fst first) /\
  grantOnSignUp {| env_uuid := "u2"; env_now := 9 |} 700 "alice" "ws" (fst first) = (fst first, sg_replayed "u1").
Proof.
  intros first. assert (Hout : snd first = sg_granted 500 "u1") by (vm_compute; reflexivity).
  destruct (signup_grant_once {| env_uuid := "u1"; env_now := 7 |} 500 "alice" "ws" example_store (fst first)
    (sg_granted 500 "u1") (proj2 example_store_ok)) as (H1 & _ & _ & _ & H2).
  { rewrite <- Hout. apply surjective_pairing. }
  split_and!; [exact Hout|exact H1|]. apply (H2 {| env_uuid := "u2"; env_now := 9 |} 700 "ws"). lia.
Defined.
