(* ===== verification/InviteWithdrawal.v ===== *)
(** * Withdrawing and restoring invitation codes

    [invites/invite-withdrawal.service.ts]: the kill switch over the table of
    codes.  Each method is one transaction, a function on the store; an
    [InviteTargetError] is a refusal before it opens. *)

From stdpp Require Import fin_maps.
From S2P Require Import Prelude JsString Store Ledger InviteCodes Invites.

(** ** Requests *)

Record InviteWithdrawalRequest := {
  wr_id : option jstr;
  wr_code : option jstr;
  wr_campaign : option jstr;
  wr_unspentOnly : bool
}.

Record InviteWithdrawal := {
  wd_target : jstr;
  wd_matched : Z;
  wd_withdrawn : Z;
  wd_alreadyWithdrawn : Z;
  wd_spent : Z
}.

Record InviteRestoration := {
  rs_target : jstr;
  rs_matched : Z;
  rs_restored : Z;
  rs_alreadyUsable : Z
}.

Inductive Named := by_id (id : jstr) | by_code_value (code : jstr) | by_campaign (campaign : jstr).

Record Target := { tg_named : Named; tg_unspentOnly : bool }.

Definition ONE_TARGET : jstr :=
  "Name exactly one of a code or a campaign — one leaked invitation, or a whole mailing.".

Definition BAD_CODE (code : jstr) : jstr :=
  "“" +++ code +++ "” is not the shape of an invitation code (twelve characters, as in ABCD-EFGH-JKMN).".

(** [value?.trim() ? ... : null]: the trimmed value, when it is not blank. *)
Definition named (value : option jstr) : option jstr :=
  match value with
  | Some s => if jlength (jtrim s) =? 0 then None else Some (jtrim s)
  | None => None
  end.

Definition count_named (l : list (option jstr)) : Z :=
  Z.of_nat (length (List.filter (fun o => match o with Some _ => true | None => false end) l)).

Definition targetOf (toUpperCase : jstr -> jstr) (request : InviteWithdrawalRequest) : result error Target :=
  let id := named (wr_id request) in
  let code := match named (wr_code request) with
              | Some _ => normaliseInviteCode toUpperCase <$> wr_code request
              | None => None
              end in
  let campaign := named (wr_campaign request) in
  let target n := Ok {| tg_named := n; tg_unspentOnly := wr_unspentOnly request |} in
  if 1 <? count_named [id; code; campaign] then Err (InviteTargetError ONE_TARGET)
  else match id, code, campaign with
  | Some i, _, _ => target (by_id i)
  | None, Some c, _ =>
      if negb (looksLikeInviteCode c) then Err (InviteTargetError (BAD_CODE (default "" (wr_code request))))
      else target (by_code_value c)
  | None, None, Some c => target (by_campaign c)
  | None, None, None => Err (InviteTargetError ONE_TARGET)
  end.

Definition nameOf (t : Target) : jstr :=
  match tg_named t with
  | by_id id => "invitation " +++ id
  | by_code_value code => formatInviteCode code
  | by_campaign campaign => campaign
  end.

(** [targetSql] and [parametersOf] as the predicate they select. *)
Definition targets (t : Target) (id : jstr) (c : InviteCode) : bool :=
  match tg_named t with
  | by_id i => jeqb id i
  | by_code_value code => jeqb (ic_code c) code
  | by_campaign campaign => jeqb (ic_campaign c) campaign
  end.

(** ** Statements *)

Definition is_withdrawn (c : InviteCode) : bool := match ic_disabledAt c with Some _ => true | None => false end.

Definition set_disabledAt (d : option Z) (c : InviteCode) : InviteCode :=
  {| ic_code := ic_code c; ic_grantMicros := ic_grantMicros c; ic_campaign := ic_campaign c;
     ic_maxRedemptions := ic_maxRedemptions c; ic_redemptionCount := ic_redemptionCount c;
     ic_expiresAt := ic_expiresAt c; ic_disabledAt := d; ic_note := ic_note c;
     ic_issuedByUserId := ic_issuedByUserId c; ic_createdAt := ic_createdAt c |}.

(** The rows a [WHERE] selects, and an [UPDATE] of them. *)
Definition count_codes (p : jstr -> InviteCode -> bool) (db : Store) : Z :=
  Z.of_nat (length (List.filter (uncurry p) (map_to_list (invite_codes db)))).

Definition update_codes (p : jstr -> InviteCode -> bool) (f : InviteCode -> InviteCode) (db : Store) : Store * Z :=
  (set_invite_codes (map_imap (fun id c => Some (if p id c then f c else c))) db, count_codes p db).

Definition census (t : Target) (db : Store) : Z * Z :=
  (count_codes (targets t) db, count_codes (fun id c => targets t id c && is_withdrawn c) db).

(** What the [UPDATE] of [stamp] selects. *)
Definition stamped_rows (t : Target) (id : jstr) (c : InviteCode) : bool :=
  targets t id c && negb (is_withdrawn c) &&
  (if tg_unspentOnly t then ic_redemptionCount c <? ic_maxRedemptions c else true).

Definition stamp (t : Target) (now : Z) (db : Store) : Store * Z :=
  update_codes (stamped_rows t) (set_disabledAt (Some now)) db.

Definition clear_withdrawal (t : Target) (db : Store) : Store * Z :=
  update_codes (fun id c => targets t id c && is_withdrawn c) (set_disabledAt None) db.

(** ** The service *)

Section Withdrawal.
Context (toUpperCase : jstr -> jstr).

Definition withdraw (request : InviteWithdrawalRequest) (now : Z) (db : Store)
    : result error (Store * InviteWithdrawal) :=
  target ← targetOf toUpperCase request;
  let '(matched, alreadyWithdrawn) := census target db in
  let '(db', withdrawn) := stamp target now db in
  Ok (db', {| wd_target := nameOf target; wd_matched := matched; wd_withdrawn := withdrawn;
              wd_alreadyWithdrawn := alreadyWithdrawn;
              wd_spent := Z.max (matched - alreadyWithdrawn - withdrawn) 0 |}).

Definition restore (request : InviteWithdrawalRequest) (db : Store) : result error (Store * InviteRestoration) :=
  target ← targetOf toUpperCase {| wr_id := wr_id request; wr_code := wr_code request;
                                   wr_campaign := wr_campaign request; wr_unspentOnly := false |};
  let '(matched, withdrawn) := census target db in
  let '(db', restored) := clear_withdrawal target db in
  Ok (db', {| rs_target := nameOf target; rs_matched := matched; rs_restored := restored;
              rs_alreadyUsable := matched - withdrawn |}).
End Withdrawal.

Definition describeWithdrawal (r : InviteWithdrawal) : jstr :=
  if wd_matched r =? 0 then wd_target r +++ ": nothing matched. No codes were changed."
  else
    let notes :=
      (if 0 <? wd_alreadyWithdrawn r then [jstring_of_Z (wd_alreadyWithdrawn r) +++ " already withdrawn"] else []) ++
      (if 0 <? wd_spent r then [jstring_of_Z (wd_spent r) +++ " spent and left in circulation"] else []) in
    let tail := match notes with [] => Js [] | _ => " (" +++ jjoin ", " notes +++ ")" end in
    wd_target r +++ ": withdrew " +++ jstring_of_Z (wd_withdrawn r) +++ " of " +++ jstring_of_Z (wd_matched r) +++
    " codes" +++ tail +++ ".".

Definition describeRestoration (r : InviteRestoration) : jstr :=
  if rs_matched r =? 0 then rs_target r +++ ": nothing matched. No codes were changed."
  else
    let tail := if 0 <? rs_alreadyUsable r then " (" +++ jstring_of_Z (rs_alreadyUsable r) +++ " were not withdrawn)"
                else Js [] in
    rs_target r +++ ": restored " +++ jstring_of_Z (rs_restored r) +++ " of " +++ jstring_of_Z (rs_matched r) +++
    " codes" +++ tail +++ ".".

#[global] Opaque ONE_TARGET BAD_CODE.

(** ** Lemmas *)

Lemma update_codes_lookup p f db id :
  invite_codes (fst (update_codes p f db)) !! id = (fun c => if p id c then f c else c) <$> invite_codes db !! id.
Proof. cbn. rewrite map_lookup_imap. by destruct (invite_codes db !! id). Qed.

Lemma count_codes_split p q db :
  count_codes p db = count_codes (fun id c => p id c && q id c) db + count_codes (fun id c => p id c && negb (q id c)) db.
Proof.
  unfold count_codes. induction (map_to_list (invite_codes db)) as [|[id c] l IH]; [done|].
  cbn [List.filter uncurry]. destruct (p id c), (q id c); cbn [andb negb length]; lia.
Qed.

Lemma count_codes_ext p q db : (forall id c, p id c = q id c) -> count_codes p db = count_codes q db.
Proof.
  intros H. unfold count_codes. f_equal. f_equal. apply List.filter_ext. intros [id c]. apply H.
Qed.

Lemma count_codes_agree p q db :
  (forall id c, invite_codes db !! id = Some c -> p id c = q id c) -> count_codes p db = count_codes q db.
Proof.
  intros H. unfold count_codes. f_equal.
  assert (Hall : forall ic, ic ∈ map_to_list (invite_codes db) -> uncurry p ic = uncurry q ic)
    by (intros [id c] Hc%elem_of_map_to_list; by apply H).
  induction (map_to_list _) as [|ic l IH]; [done|]. cbn [List.filter]. rewrite Hall by (by left).
  destruct (uncurry q ic); cbn [length]; by rewrite IH by (intros ic' Hic; apply Hall; by right).
Qed.

Lemma count_codes_nonneg p db : 0 <= count_codes p db.
Proof. unfold count_codes. lia. Qed.

Lemma count_codes_none p db :
  (forall id c, invite_codes db !! id = Some c -> p id c = false) -> count_codes p db = 0.
Proof.
  intros H. unfold count_codes.
  assert (Hf : List.filter (uncurry p) (map_to_list (invite_codes db)) = []); [|by rewrite Hf].
  assert (Hall : forall ic, ic ∈ map_to_list (invite_codes db) -> uncurry p ic = false)
    by (intros [id c] Hc%elem_of_map_to_list; by apply H).
  induction (map_to_list _) as [|ic l IH]; [done|]. cbn [List.filter]. rewrite Hall by (by left).
  apply IH. intros ic' Hic. apply Hall. by right.
Qed.

(** What a withdrawal writes, row by row. *)
Lemma withdraw_ok toUpperCase request now db db' r :
  withdraw toUpperCase request now db = Ok (db', r) ->
  exists t, targetOf toUpperCase request = Ok t /\ tg_unspentOnly t = wr_unspentOnly request /\
    db' = fst (stamp t now db) /\
    r = {| wd_target := nameOf t; wd_matched := count_codes (targets t) db;
           wd_withdrawn := count_codes (stamped_rows t) db;
           wd_alreadyWithdrawn := count_codes (fun id c => targets t id c && is_withdrawn c) db;
           wd_spent := Z.max (count_codes (targets t) db -
             count_codes (fun id c => targets t id c && is_withdrawn c) db - count_codes (stamped_rows t) db) 0 |}.
Proof.
  unfold withdraw. intros (t & Ht & H)%bind_ok. injection H as <- <-. exists t. split_and!; try done.
  revert Ht. unfold targetOf. destruct (1 <? _); [done|].
  destruct (named (wr_id request)); [by intros [= <-]|].
  destruct (match named (wr_code request) with Some _ => _ | None => _ end).
  - destruct (negb _); [done|]. by intros [= <-].
  - destruct (named (wr_campaign request)); [by intros [= <-]|done].
Qed.

(** Stamping is idempotent: a stamped row is withdrawn, so none is selected twice. *)
Lemma stamped_lookup t now db id c : invite_codes db !! id = Some c ->
  invite_codes (fst (stamp t now db)) !! id =
    Some (if stamped_rows t id c then set_disabledAt (Some now) c else c).
Proof. intros Hc. unfold stamp. rewrite update_codes_lookup, Hc. done. Qed.

Lemma targets_set_disabledAt t id d c : targets t id (set_disabledAt d c) = targets t id c.
Proof. unfold targets. by destruct (tg_named t). Qed.

Lemma stamp_again t now now' db :
  let db' := fst (stamp t now db) in stamp t now' db' = (db', 0).
Proof.
  cbv zeta. set (db' := fst (stamp t now db)).
  assert (Hno : forall id c, invite_codes db' !! id = Some c -> stamped_rows t id c = false).
  { intros id c Hc. subst db'. unfold stamp in Hc. rewrite update_codes_lookup in Hc.
    destruct (invite_codes db !! id) as [c0|]; [|done]. cbn in Hc. injection Hc as <-.
    destruct (stamped_rows t id c0) eqn:E; [|done].
    unfold stamped_rows. cbn [is_withdrawn set_disabledAt ic_disabledAt negb]. by rewrite andb_false_r. }
  unfold stamp, update_codes. rewrite count_codes_none by done. f_equal. destruct db' as [ws ct ic ir]. cbn in *.
  unfold set_invite_codes. cbn. f_equal. apply map_eq. intros id. rewrite map_lookup_imap.
  destruct (ic !! id) as [c|] eqn:Ec; [|done]. cbn. by rewrite (Hno id c Ec).
Qed.

(** The three numbers of a withdrawal. *)
Lemma withdraw_counts t db :
  let already := count_codes (fun id c => targets t id c && is_withdrawn c) db in
  let withdrawn := count_codes (stamped_rows t) db in
  0 <= count_codes (targets t) db - already - withdrawn /\
  (tg_unspentOnly t = false -> count_codes (targets t) db - already - withdrawn = 0).
Proof.
  cbv zeta. rewrite (count_codes_split (targets t) (fun _ c => is_withdrawn c)).
  rewrite (count_codes_split (fun id c => targets t id c && negb (is_withdrawn c))
             (fun _ c => if tg_unspentOnly t then ic_redemptionCount c <? ic_maxRedemptions c else true)).
  change (count_codes (stamped_rows t) db) with
    (count_codes (fun id c => targets t id c && negb (is_withdrawn c) &&
       (if tg_unspentOnly t then ic_redemptionCount c <? ic_maxRedemptions c else true)) db).
  set (rest := count_codes (fun id c => _ && negb (if tg_unspentOnly t then _ else _)) db).
  assert (Hrest : 0 <= rest) by apply count_codes_nonneg. split; [lia|]. intros Hu. unfold rest in *. rewrite Hu.
  rewrite (count_codes_none (fun id c => _ && negb true)); [lia|]. intros. by rewrite andb_false_r.
Qed.

(** ** Properties *)

(** The kill switch: a withdrawal moves no money and no redemption; every code
    it names, the spent ones it was told to spare apart, is unusable from then on
    for the reason [disabled]; a code withdrawn before keeps its timestamp and one
    not named is untouched; the numbers add up; and saying it again changes
    nothing. *)
Theorem withdraw_kills toUpperCase request now db db' r :
  withdraw toUpperCase request now db = Ok (db', r) ->
  exists t, targetOf toUpperCase request = Ok t /\
    workspaces db' = workspaces db /\ credit_transactions db' = credit_transactions db /\
    invite_redemptions db' = invite_redemptions db /\
    (forall id c, invite_codes db !! id = Some c -> exists c', invite_codes db' !! id = Some c' /\
       (targets t id c = false \/ is_withdrawn c = true -> c' = c) /\
       (targets t id c = true -> wr_unspentOnly request = false \/ ic_redemptionCount c < ic_maxRedemptions c ->
          forall now', unusableReason c' now' = Some disabled)) /\
    wd_matched r = wd_withdrawn r + wd_alreadyWithdrawn r + wd_spent r /\
    (wr_unspentOnly request = false -> wd_spent r = 0) /\
    forall now', exists r', withdraw toUpperCase request now' db' = Ok (db', r') /\ wd_withdrawn r' = 0.
Proof.
  intros (t & Ht & Hu & -> & ->)%withdraw_ok. exists t. destruct (withdraw_counts t db) as [Hn Hz].
  split_and!; try done.
  - intros id c Hc. eexists. split; [by apply stamped_lookup|]. split.
    + intros [Hn'|Hw]; unfold stamped_rows; [by rewrite Hn'|]. by rewrite Hw, andb_false_r.
    + intros Htg Hsp now'. unfold stamped_rows. rewrite Htg. destruct (is_withdrawn c) eqn:Ew; cbn [andb negb].
      { unfold unusableReason. unfold is_withdrawn in Ew. by destruct (ic_disabledAt c). }
      rewrite Hu. destruct Hsp as [->|Hlt]; [done|]. rewrite (proj2 (Z.ltb_lt _ _) Hlt). by destruct (wr_unspentOnly request).
  - cbn [wd_matched wd_withdrawn wd_alreadyWithdrawn wd_spent]. lia.
  - cbn [wd_spent]. rewrite <- Hu. intros Hf. rewrite (Hz Hf). done.
  - intros now'. unfold withdraw. rewrite Ht. cbn [mbind result_bind]. rewrite stamp_again. cbn zeta.
    destruct (census t _). eexists. split; reflexivity.
Qed.

Lemma filter_length_perm {A} (p : A -> bool) l l' : l ≡ₚ l' ->
  length (List.filter p l) = length (List.filter p l').
Proof.
  induction 1 as [|x l l' _ IH|x y l|l1 l2 l3 _ IH1 _ IH2]; cbn [List.filter]; [done|..].
  - destruct (p x); cbn [length]; lia.
  - by destruct (p x), (p y).
  - lia.
Qed.

(** Counting after an update is counting the updated rows. *)
Lemma count_codes_update q p f db :
  count_codes q (fst (update_codes p f db)) = count_codes (fun id c => q id (if p id c then f c else c)) db.
Proof.
  unfold count_codes. cbn [fst update_codes set_invite_codes invite_codes]. f_equal.
  set (g := fun kc : jstr * InviteCode => (fst kc, if p (fst kc) (snd kc) then f (snd kc) else snd kc)).
  assert (Hp : map_to_list (map_imap (fun id c => Some (if p id c then f c else c)) (invite_codes db)) ≡ₚ
               map g (map_to_list (invite_codes db))).
  { apply NoDup_Permutation.
    - apply NoDup_map_to_list.
    - apply (NoDup_fmap_1 fst). change (NoDup (map fst (map g (map_to_list (invite_codes db))))).
      rewrite map_map. apply (NoDup_fst_map_to_list (invite_codes db)).
    - intros [id c]. rewrite elem_of_map_to_list, map_lookup_imap, list_elem_of_fmap. split.
      + destruct (invite_codes db !! id) as [c0|] eqn:E; [|done]. cbn. intros [= <-]. exists (id, c0).
        split; [done|]. by apply elem_of_map_to_list.
      + intros ([id0 c0] & [= -> ->] & H%elem_of_map_to_list). cbn. by rewrite H. }
  rewrite (filter_length_perm _ _ _ Hp). clear Hp. induction (map_to_list _) as [|[id c] l IH]; [done|].
  cbn [map List.filter uncurry g fst snd]. destruct (q id _); cbn [length]; by rewrite IH.
Qed.

Lemma count_codes_zero p db : count_codes p db = 0 ->
  forall id c, invite_codes db !! id = Some c -> p id c = false.
Proof.
  unfold count_codes. intros H id c Hc%elem_of_map_to_list. destruct (p id c) eqn:E; [|done].
  assert (Hin : In (id, c) (List.filter (uncurry p) (map_to_list (invite_codes db))))
    by (apply List.filter_In; split; [by apply list_elem_of_In|done]).
  destruct (List.filter _ _); [done|cbn in H; lia].
Qed.

(** Restoring undoes a withdrawal: one that found none of its codes already
    withdrawn, and spared none, is taken back exactly, the store being the one it
    started from, and the two count the same codes. *)
Theorem restore_undoes_withdraw toUpperCase request now db db' r :
  wr_unspentOnly request = false ->
  withdraw toUpperCase request now db = Ok (db', r) -> wd_alreadyWithdrawn r = 0 ->
  exists r', restore toUpperCase request db' = Ok (db, r') /\
    rs_restored r' = wd_withdrawn r /\ rs_matched r' = wd_matched r /\ rs_alreadyUsable r' = 0.
Proof.
  intros Hu H Hz. apply withdraw_ok in H as (t & Ht & Htu & -> & ->). rewrite Hu in Htu.
  cbn [wd_alreadyWithdrawn wd_withdrawn wd_matched] in *.
  unfold restore. rewrite <- Hu.
  replace {| wr_id := wr_id request; wr_code := wr_code request; wr_campaign := wr_campaign request;
             wr_unspentOnly := wr_unspentOnly request |} with request by (by destruct request).
  rewrite Ht. cbn [mbind result_bind].
  assert (Hsel : forall id c, invite_codes db !! id = Some c ->
            stamped_rows t id c = targets t id c /\ (targets t id c = true -> is_withdrawn c = false)).
  { intros id c Hc. pose proof (count_codes_zero _ _ Hz id c Hc) as Hn. cbv beta in Hn. unfold stamped_rows.
    rewrite Htu, andb_true_r. destruct (targets t id c); [|done]. cbn [andb] in *. by rewrite Hn. }
  set (upd := fun id c => if stamped_rows t id c then set_disabledAt (Some now) c else c).
  assert (Hcount : forall q, count_codes q (fst (stamp t now db)) = count_codes (fun id c => q id (upd id c)) db)
    by (intros q; apply count_codes_update).
  assert (Hm : count_codes (targets t) (fst (stamp t now db)) = count_codes (targets t) db).
  { rewrite Hcount. apply count_codes_ext. intros id c. subst upd. cbv beta.
    destruct (stamped_rows t id c); [apply targets_set_disabledAt|done]. }
  assert (Hw : count_codes (fun id c => targets t id c && is_withdrawn c) (fst (stamp t now db)) =
               count_codes (stamped_rows t) db).
  { rewrite Hcount. rewrite (count_codes_split (stamped_rows t) (fun id c => true)).
    rewrite (count_codes_none (fun id c => stamped_rows t id c && negb true)) by (intros; apply andb_false_r).
    rewrite Z.add_0_r. apply count_codes_agree. intros id c Hc. destruct (Hsel id c Hc) as [Hs Hw]. subst upd. cbv beta.
    rewrite andb_true_r, Hs. destruct (targets t id c) eqn:E; cbn [andb].
    - by rewrite targets_set_disabledAt, E.
    - by rewrite E. }
  unfold census, clear_withdrawal. rewrite Hm, Hw. cbn [fst snd].
  destruct (withdraw_counts t db) as [_ Hn]. specialize (Hn Htu).
  eexists. split.
  - unfold update_codes. cbn iota. f_equal. f_equal. destruct db as [ws ct ic ir]. unfold set_invite_codes.
    cbn [fst stamp update_codes set_invite_codes workspaces credit_transactions invite_codes invite_redemptions] in *.
    f_equal. apply map_eq. intros id. rewrite !map_lookup_imap. destruct (ic !! id) as [c|] eqn:Ec; [|done]. cbn.
    destruct (Hsel id c Ec) as [Hs Hwd]. rewrite Hs. destruct (targets t id c) eqn:E.
    + rewrite targets_set_disabledAt, E. cbn. specialize (Hwd eq_refl). unfold is_withdrawn in Hwd.
      destruct c as [? ? ? ? ? ? [d|] ? ? ?]; [done|reflexivity].
    + by rewrite E.
  - cbn [rs_restored rs_matched rs_alreadyUsable]. split_and!; [|done|lia].
    change (count_codes (fun id c => targets t id c && is_withdrawn c) (fst (stamp t now db)) = count_codes (stamped_rows t) db).
    exact Hw.
Qed.

Definition example_withdrawal : InviteWithdrawalRequest :=
  {| wr_id := None; wr_code := None; wr_campaign := Some " launch "; wr_unspentOnly := false |}.

Lemma withdraw_kills_witness :
  exists db' r, withdraw (fun s => s) example_withdrawal 50 example_store = Ok (db', r) /\
    wd_withdrawn r = 1 /\ wd_matched r = wd_withdrawn r + wd_alreadyWithdrawn r + wd_spent r /\
    describeWithdrawal r = "launch: withdrew 1 of 1 codes.".
Proof.
  eexists _, _. split; [reflexivity|]. split; [vm_compute; reflexivity|].
  destruct (withdraw_kills (fun s => s) example_withdrawal 50 example_store _ _ eq_refl)
    as (t & _ & _ & _ & _ & _ & H & _).
  split; [exact H|vm_compute; reflexivity].
Defined.

Lemma restore_undoes_withdraw_witness :
  exists db' r r', withdraw (fun s => s) example_withdrawal 50 example_store = Ok (db', r) /\
    restore (fun s => s) example_withdrawal db' = Ok (example_store, r') /\ rs_restored r' = 1.
Proof.
  destruct (restore_undoes_withdraw (fun s => s) example_withdrawal 50 example_store _ _ eq_refl eq_refl)
    as (r' & H1 & H2 & _); [vm_compute; reflexivity|].
  eexists _, _, r'. split; [reflexivity|]. split; [exact H1|]. rewrite H2. vm_compute. reflexivity.
Defined.
