(* ===== verification/InviteAdmin.v ===== *)
(** * Invitation administration

    [invites/invite-admin.service.ts], [invite-generator.ts], [invite-stats.service.ts]
    and the reads of [invite-attribution.service.ts]: where a code stands, the two lists
    of the admin console, minting a batch, and the numbers of the dashboard.

    Identifiers fetched in chunks are fetched at once here; the links a mailing carries
    are built by the platform's URL serializer, a parameter. *)

From S2P Require Import Prelude JsString JsDate Store InviteCodes Invites InviteWithdrawal.

Inductive InviteCodeStatus := st_active | st_redeemed | st_expired | st_withdrawn.
Inductive SignUpOrigin := origin_invite | origin_bootstrap | origin_open.

#[global] Instance invite_status_eq_dec : EqDecision InviteCodeStatus.
Proof. solve_decision. Defined.
#[global] Instance sign_up_origin_eq_dec : EqDecision SignUpOrigin.
Proof. solve_decision. Defined.

(** A redemption of another deployment, carried here by a codes import. *)
Record InviteCarriedRedemption := {
  cr_id : jstr;
  cr_inviteCodeId : jstr;
  cr_email : option jstr;
  cr_redeemedAt : Z;
  cr_importedAt : Z
}.

(** Better Auth's [user] table, as far as it is read here. *)
Record Account := { ac_id : jstr; ac_email : jstr; ac_createdAt : Z }.

(** ** Where a code stands *)

Definition inviteCodeStatus (disabledAt expiresAt : option Z) (redemptionCount maxRedemptions now : Z) : InviteCodeStatus :=
  match disabledAt with
  | Some _ => st_withdrawn
  | None =>
      if maxRedemptions <=? redemptionCount then st_redeemed
      else if match expiresAt with Some e => e <=? now | None => false end then st_expired
      else st_active
  end.

Definition status_of (c : InviteCode) (now : Z) : InviteCodeStatus :=
  inviteCodeStatus (ic_disabledAt c) (ic_expiresAt c) (ic_redemptionCount c) (ic_maxRedemptions c) now.

(** The same as a [WHERE]. *)
Definition whereStatus (status : InviteCodeStatus) (now : Z) (c : InviteCode) : bool :=
  match status with
  | st_withdrawn => is_some (ic_disabledAt c)
  | st_redeemed => negb (is_some (ic_disabledAt c)) && (ic_maxRedemptions c <=? ic_redemptionCount c)
  | st_expired => negb (is_some (ic_disabledAt c)) && (ic_redemptionCount c <? ic_maxRedemptions c) &&
                  match ic_expiresAt c with Some e => e <=? now | None => false end
  | st_active => negb (is_some (ic_disabledAt c)) && (ic_redemptionCount c <? ic_maxRedemptions c) &&
                 match ic_expiresAt c with Some e => now <? e | None => true end
  end.

Definition signUpOrigin (userId : jstr) (redeemed : bool) (bootstrapId : option jstr) : SignUpOrigin :=
  if redeemed then origin_invite else if bool_decide (Some userId = bootstrapId) then origin_bootstrap else origin_open.

(** ** The list of codes *)

Record InviteCodeFilter := { cf_campaign : option jstr; cf_status : option InviteCodeStatus; cf_offset : Z; cf_limit : Z }.

Record InviteCodeRedeemer := { rd_userId : option jstr; rd_email : option jstr; rd_redeemedAt : Z; rd_carried : bool }.

(** The row with what is joined onto it. *)
Record AdminInviteCode := {
  am_id : jstr;
  am_row : InviteCode;
  am_status : InviteCodeStatus;
  am_issuedByEmail : option jstr;
  am_redeemers : list InviteCodeRedeemer
}.

Record Page (A : Type) := { pg_totalCount : Z; pg_nodes : list A }.
Arguments pg_totalCount {A} _.
Arguments pg_nodes {A} _.

(** [createdAt DESC, id ASC] *)
Definition newest_code (a b : jstr * InviteCode) : bool :=
  (ic_createdAt (snd b) <? ic_createdAt (snd a)) ||
  (ic_createdAt (snd a) =? ic_createdAt (snd b)) && jltb (fst a) (fst b).

Definition code_selected (filter : InviteCodeFilter) (now : Z) (row : jstr * InviteCode) : bool :=
  match present (cf_campaign filter) with Some campaign => jeqb (ic_campaign (snd row)) campaign | None => true end &&
  match cf_status filter with Some status => whereStatus status now (snd row) | None => true end.

Definition selected_codes (filter : InviteCodeFilter) (now : Z) (db : Store) : list (jstr * InviteCode) :=
  sort_by newest_code (List.filter (code_selected filter now) (map_to_list (invite_codes db))).

(** [.skip(offset).take(limit)] *)
Definition page_of {A} (offset limit : Z) (l : list A) : list A := take (Z.to_nat limit) (drop (Z.to_nat offset) l).

Definition oldest_first {A} (at_ : A -> Z) (l : list A) : list A := sort_by (fun a b => at_ a <? at_ b) l.

Section Admin.
Context (toLowerCase : jstr -> jstr).

(** [emailsOf], asked for one of its ids. *)
Definition email_of (accounts : list Account) (id : jstr) : option jstr :=
  ac_email <$> find_first (fun a => jeqb (ac_id a) id) accounts.

(** [accountsOf(addresses).get(address)]: the last account set under it. *)
Definition account_of (accounts : list Account) (addresses : list jstr) (address : jstr) : option jstr :=
  ac_id <$> find_first (fun a => existsb (jeqb (ac_email a)) addresses && jeqb (toLowerCase (ac_email a)) address)
              (reverse accounts).

(** [ORDER BY redeemedAt ASC, id ASC] *)
Definition carried_first (a b : InviteCarriedRedemption) : bool :=
  (cr_redeemedAt a <? cr_redeemedAt b) || (cr_redeemedAt a =? cr_redeemedAt b) && jltb (cr_id a) (cr_id b).

Definition carriedOf (carried : list InviteCarriedRedemption) (ids : list jstr) : list InviteCarriedRedemption :=
  sort_by carried_first (List.filter (fun r => existsb (jeqb (cr_inviteCodeId r)) ids) carried).

Definition redemptionsOf (redemptions : list InviteRedemption) (ids : list jstr) : list InviteRedemption :=
  oldest_first ir_redeemedAt (List.filter (fun r => existsb (jeqb (ir_inviteCodeId r)) ids) redemptions).

Definition admin_row (accounts : list Account) (carried : list InviteCarriedRedemption) (redemptions : list InviteRedemption)
    (now : Z) (row : jstr * InviteCode) : AdminInviteCode :=
  let addresses := omap cr_email carried in
  {| am_id := fst row; am_row := snd row; am_status := status_of (snd row) now;
     am_issuedByEmail := present (ic_issuedByUserId (snd row)) ≫= email_of accounts;
     am_redeemers :=
       map (fun r => {| rd_userId := present (cr_email r) ≫= account_of accounts addresses; rd_email := cr_email r;
                        rd_redeemedAt := cr_redeemedAt r; rd_carried := true |})
         (List.filter (fun r => jeqb (cr_inviteCodeId r) (fst row)) carried) ++
       map (fun r => {| rd_userId := Some (ir_userId r); rd_email := email_of accounts (ir_userId r);
                        rd_redeemedAt := ir_redeemedAt r; rd_carried := false |})
         (List.filter (fun r => jeqb (ir_inviteCodeId r) (fst row)) redemptions) |}.

Definition codes (filter : InviteCodeFilter) (now : Z) (db : Store) (accounts : list Account)
    (carried : list InviteCarriedRedemption) : Page AdminInviteCode :=
  let selected := selected_codes filter now db in
  let rows := page_of (cf_offset filter) (cf_limit filter) selected in
  let ids := map fst rows in
  {| pg_totalCount := Z.of_nat (length selected);
     pg_nodes := map (admin_row accounts (carriedOf carried ids) (redemptionsOf (invite_redemptions db) ids) now) rows |}.

(** ** The list of accounts *)

Record UserInviteAttribution := {
  ua_userId : jstr;
  ua_inviteCodeId : jstr;
  ua_code : jstr;
  ua_campaign : jstr;
  ua_redeemedAt : Z
}.

Record SignUpFilter := { sf_origin : option SignUpOrigin; sf_offset : Z; sf_limit : Z }.

Record AdminSignUp := {
  su_userId : jstr;
  su_email : jstr;
  su_createdAt : Z;
  su_origin : SignUpOrigin;
  su_invite : option UserInviteAttribution
}.

Definition newest_account (a b : Account) : bool :=
  (ac_createdAt b <? ac_createdAt a) || (ac_createdAt a =? ac_createdAt b) && jltb (ac_id a) (ac_id b).

Definition oldest_account (a b : Account) : bool :=
  (ac_createdAt a <? ac_createdAt b) || (ac_createdAt a =? ac_createdAt b) && jltb (ac_id a) (ac_id b).

Definition bootstrapAccountId (bootstrapEmail : jstr) (accounts : list Account) : option jstr :=
  match sort_by oldest_account accounts with
  | first :: _ => if jeqb (toLowerCase (ac_email first)) (toLowerCase bootstrapEmail) then Some (ac_id first) else None
  | [] => None
  end.

(** [forUsers], asked for one of them. *)
Definition attribution_of (db : Store) (userId : jstr) : option UserInviteAttribution :=
  r ← find_first (fun r => jeqb (ir_userId r) userId) (invite_redemptions db);
  c ← invite_codes db !! ir_inviteCodeId r;
  Some {| ua_userId := ir_userId r; ua_inviteCodeId := ir_inviteCodeId r; ua_code := ic_code c;
          ua_campaign := ic_campaign c; ua_redeemedAt := ir_redeemedAt r |}.

(** The left join of the account onto its redemption. *)
Definition redeemed_something (db : Store) (userId : jstr) : bool :=
  existsb (fun r => jeqb (ir_userId r) userId) (invite_redemptions db).

Definition account_selected (filter : SignUpFilter) (bootstrapId : option jstr) (db : Store) (a : Account) : bool :=
  match sf_origin filter with
  | None => true
  | Some origin_invite => redeemed_something db (ac_id a)
  | Some origin_bootstrap => jeqb (ac_id a) (default (Js []) bootstrapId)
  | Some origin_open => negb (redeemed_something db (ac_id a)) &&
      match present bootstrapId with Some id => negb (jeqb (ac_id a) id) | None => true end
  end.

Definition sign_up_row (bootstrapId : option jstr) (db : Store) (a : Account) : AdminSignUp :=
  let invite := attribution_of db (ac_id a) in
  {| su_userId := ac_id a; su_email := ac_email a; su_createdAt := ac_createdAt a;
     su_origin := signUpOrigin (ac_id a) (is_some invite) bootstrapId; su_invite := invite |}.

Definition signUps (filter : SignUpFilter) (bootstrapEmail : jstr) (db : Store) (accounts : list Account) : Page AdminSignUp :=
  let bootstrapId := bootstrapAccountId bootstrapEmail accounts in
  let selected := sort_by newest_account (List.filter (account_selected filter bootstrapId db) accounts) in
  {| pg_totalCount := Z.of_nat (length selected);
     pg_nodes := map (sign_up_row bootstrapId db) (page_of (sf_offset filter) (sf_limit filter) selected) |}.
End Admin.

(** ** Minting a batch *)

Record GenerateInvitesRequest := {
  gr_count : Z;
  gr_grantMicros : Z;
  gr_campaign : jstr;
  gr_maxRedemptions : Z;
  gr_expiresAt : option Z;
  gr_note : option jstr;
  gr_landingBaseUrl : jstr;
  gr_issuedByUserId : option jstr
}.

Record GeneratedInvite := { gi_id : jstr; gi_code : jstr; gi_url : jstr }.

(** [new URL] throws a [TypeError]; the driver throws the rest. *)
Inductive mint_error := invalid_url | from_driver (e : error).

Definition BATCH : Z := 250.
Definition MAX_BATCH_ATTEMPTS : nat := 5.

(** The platform's [URL]: parse, [searchParams.set], [toString]. *)
Class UrlPlatform := {
  URL : Type;
  new_URL : jstr -> option URL;
  searchParams_set : URL -> jstr -> jstr -> URL;
  url_toString : URL -> jstr
}.

(** [INSERT INTO invite_codes]: primary key [id], unique [code]; all the rows or none. *)
Fixpoint insert_invite_codes (rows : list (jstr * InviteCode)) (codes : gmap jstr InviteCode) : result error (gmap jstr InviteCode) :=
  match rows with
  | [] => Ok codes
  | (id, row) :: rest =>
      if is_some (codes !! id) || existsb (fun kc => jeqb (ic_code (snd kc)) (ic_code row)) (map_to_list codes)
      then Err UniqueViolation
      else insert_invite_codes rest (<[id := row]> codes)
  end.

Section Minting.
Context `{U : UrlPlatform}.
(** The [randomUUID()] and [mintInviteCode()] of a batch (by its first index), attempt and row. *)
Context (mint : Z -> nat -> nat -> jstr * jstr).

Definition inviteUrl (landingBaseUrl campaign code : jstr) : option jstr :=
  url ← new_URL landingBaseUrl;
  let url := searchParams_set url "invite" (formatInviteCode code) in
  let url := searchParams_set url "utm_source" "email" in
  let url := searchParams_set url "utm_medium" "invite" in
  let url := searchParams_set url "utm_campaign" campaign in
  Some (url_toString url).

Definition invite_row (request : GenerateInvitesRequest) (now : Z) (code : jstr) : InviteCode :=
  {| ic_code := code; ic_grantMicros := gr_grantMicros request; ic_campaign := gr_campaign request;
     ic_maxRedemptions := gr_maxRedemptions request; ic_redemptionCount := 0; ic_expiresAt := gr_expiresAt request;
     ic_disabledAt := None; ic_note := gr_note request; ic_issuedByUserId := gr_issuedByUserId request;
     ic_createdAt := now |}.

Definition batch_rows (request : GenerateInvitesRequest) (now minted : Z) (attempt size : nat) : list (jstr * InviteCode) :=
  map (fun i => (fst (mint minted attempt i), invite_row request now (snd (mint minted attempt i)))) (seq 0 size).

Definition minted_invite (request : GenerateInvitesRequest) (row : jstr * InviteCode) : option GeneratedInvite :=
  url ← inviteUrl (gr_landingBaseUrl request) (ic_campaign (snd row)) (ic_code (snd row));
  Some {| gi_id := fst row; gi_code := formatInviteCode (ic_code (snd row)); gi_url := url |}.

(** [retries] counts the attempts that remain after this one. *)
Fixpoint insertBatch (request : GenerateInvitesRequest) (now minted : Z) (size retries attempt : nat)
    (codes : gmap jstr InviteCode) : gmap jstr InviteCode * (list GeneratedInvite + mint_error) :=
  let rows := batch_rows request now minted attempt size in
  match mapM (minted_invite request) rows with
  | None => (codes, inr invalid_url)
  | Some invites =>
      match insert_invite_codes rows codes with
      | Ok codes' => (codes', inl invites)
      | Err e =>
          if negb (isUniqueViolation e) then (codes, inr (from_driver e))
          else match retries with
          | O => (codes, inr (from_driver e))
          | S retries => insertBatch request now minted size retries (S attempt) codes
          end
      end
  end.

(** The loop over batches from [minted] on; [fuel] bounds its turns. *)
Fixpoint generate_from (fuel : nat) (request : GenerateInvitesRequest) (now minted : Z) (codes : gmap jstr InviteCode)
    : gmap jstr InviteCode * (list GeneratedInvite + mint_error) :=
  match fuel with
  | O => (codes, inl [])
  | S fuel =>
      if minted <? gr_count request then
        let size := Z.to_nat (Z.min BATCH (gr_count request - minted)) in
        match insertBatch request now minted size (pred MAX_BATCH_ATTEMPTS) 1 codes with
        | (codes', inr e) => (codes', inr e)
        | (codes', inl batch) =>
            match generate_from fuel request now (minted + BATCH) codes' with
            | (codes'', inl rest) => (codes'', inl (batch ++ rest))
            | (codes'', inr e) => (codes'', inr e)
            end
        end
      else (codes, inl [])
  end.

(** One turn per code is more than enough. *)
Definition generateInvites (request : GenerateInvitesRequest) (now : Z) (db : Store)
    : Store * (list GeneratedInvite + mint_error) :=
  let '(codes', r) := generate_from (Z.to_nat (gr_count request)) request now 0 (invite_codes db) in
  (set_invite_codes (fun _ => codes') db, r).
End Minting.

(** ** The numbers of the dashboard *)

Record InviteCampaignStats := {
  ics_campaign : jstr;
  ics_issued : Z;
  ics_redeemed : Z;
  ics_redemptionRate : Z * Z;      (* a quotient, [(0, 1)] when nothing was issued *)
  ics_activated : Z;
  ics_grantedMicros : Z
}.

Record InviteTotals := {
  it_issued : Z;
  it_redeemed : Z;
  it_withdrawn : Z;
  it_redemptionRate : Z * Z;
  it_grantedMicros : Z;
  it_signUps : Z
}.

Record InviteDay := {
  dy_date : jstr;
  dy_codesIssued : Z;
  dy_codesRedeemed : Z;
  dy_signUpsInvited : Z;
  dy_signUpsBootstrap : Z;
  dy_signUpsOpen : Z
}.

Definition countZ {A} (p : A -> bool) (l : list A) : Z := Z.of_nat (length (List.filter p l)).

Definition rate (redeemed issued : Z) : Z * Z := if issued =? 0 then (0, 1) else (redeemed, issued).

Definition code_rows (db : Store) : list InviteCode := map snd (map_to_list (invite_codes db)).

(** [GROUP BY campaign ORDER BY MAX(createdAt) DESC, campaign ASC] *)
Definition campaignNames (db : Store) : list jstr :=
  let latest campaign :=
    match map ic_createdAt (List.filter (fun c => jeqb (ic_campaign c) campaign) (code_rows db)) with
    | t :: r => foldr Z.max t r
    | [] => 0
    end in
  sort_by (fun a b => (latest b <? latest a) || (latest a =? latest b) && jltb a b)
    (distinct [] (map ic_campaign (code_rows db))).

(** The redemptions of a campaign, joined to their code. *)
Definition redemptions_of_campaign (campaign : jstr) (db : Store) : list (InviteRedemption * InviteCode) :=
  omap (fun r => c ← invite_codes db !! ir_inviteCodeId r;
                 if jeqb (ic_campaign c) campaign then Some (r, c) else None) (invite_redemptions db).

Definition CHUNK : nat := 500.

Fixpoint chunks_of {A} (fuel n : nat) (l : list A) : list (list A) :=
  match fuel with
  | O => []
  | S fuel => match l with [] => [] | _ => take n l :: chunks_of fuel n (drop n l) end
  end.

(** [generations] is that table's [workspaceId] column; one chunk per id is more than enough. *)
Definition countActivated (generations workspaceIds : list jstr) : Z :=
  sumZ (map (fun chunk => Z.of_nat (length (distinct [] (List.filter (fun w => existsb (jeqb w) chunk) generations))))
          (chunks_of (length workspaceIds) CHUNK workspaceIds)).

Definition statsOf (generations : list jstr) (db : Store) (campaign : jstr) : InviteCampaignStats :=
  let issued := countZ (fun c => jeqb (ic_campaign c) campaign) (code_rows db) in
  let joined := redemptions_of_campaign campaign db in
  let redeemed := Z.of_nat (length joined) in
  {| ics_campaign := campaign; ics_issued := issued; ics_redeemed := redeemed;
     ics_redemptionRate := rate redeemed issued;
     ics_activated := countActivated generations (map (fun rc => ir_workspaceId (fst rc)) joined);
     ics_grantedMicros := sumZ (map (fun rc => ic_grantMicros (snd rc)) joined) |}.

Definition campaigns (generations : list jstr) (db : Store) (campaign : option jstr) : list InviteCampaignStats :=
  map (statsOf generations db) (match present campaign with Some c => [c] | None => campaignNames db end).

Definition totals (db : Store) (accounts : list Account) : InviteTotals :=
  let issued := Z.of_nat (length (code_rows db)) in
  let redeemed := Z.of_nat (length (invite_redemptions db)) in
  {| it_issued := issued; it_redeemed := redeemed;
     it_withdrawn := countZ (fun c => is_some (ic_disabledAt c)) (code_rows db);
     it_redemptionRate := rate redeemed issued;
     it_grantedMicros := sumZ (map ic_grantMicros (omap (fun r => invite_codes db !! ir_inviteCodeId r) (invite_redemptions db)));
     it_signUps := Z.of_nat (length accounts) |}.

(** *** The daily series *)

Definition inc_issued (d : InviteDay) : InviteDay :=
  {| dy_date := dy_date d; dy_codesIssued := dy_codesIssued d + 1; dy_codesRedeemed := dy_codesRedeemed d;
     dy_signUpsInvited := dy_signUpsInvited d; dy_signUpsBootstrap := dy_signUpsBootstrap d; dy_signUpsOpen := dy_signUpsOpen d |}.
Definition inc_redeemed (d : InviteDay) : InviteDay :=
  {| dy_date := dy_date d; dy_codesIssued := dy_codesIssued d; dy_codesRedeemed := dy_codesRedeemed d + 1;
     dy_signUpsInvited := dy_signUpsInvited d; dy_signUpsBootstrap := dy_signUpsBootstrap d; dy_signUpsOpen := dy_signUpsOpen d |}.
Definition inc_invited (d : InviteDay) : InviteDay :=
  {| dy_date := dy_date d; dy_codesIssued := dy_codesIssued d; dy_codesRedeemed := dy_codesRedeemed d;
     dy_signUpsInvited := dy_signUpsInvited d + 1; dy_signUpsBootstrap := dy_signUpsBootstrap d; dy_signUpsOpen := dy_signUpsOpen d |}.
Definition inc_bootstrap (d : InviteDay) : InviteDay :=
  {| dy_date := dy_date d; dy_codesIssued := dy_codesIssued d; dy_codesRedeemed := dy_codesRedeemed d;
     dy_signUpsInvited := dy_signUpsInvited d; dy_signUpsBootstrap := dy_signUpsBootstrap d + 1; dy_signUpsOpen := dy_signUpsOpen d |}.
Definition inc_open (d : InviteDay) : InviteDay :=
  {| dy_date := dy_date d; dy_codesIssued := dy_codesIssued d; dy_codesRedeemed := dy_codesRedeemed d;
     dy_signUpsInvited := dy_signUpsInvited d; dy_signUpsBootstrap := dy_signUpsBootstrap d; dy_signUpsOpen := dy_signUpsOpen d + 1 |}.

Definition zero_day (day : Z) : InviteDay :=
  {| dy_date := jtake 10 (toISOString (day * MS_PER_DAY)); dy_codesIssued := 0; dy_codesRedeemed := 0;
     dy_signUpsInvited := 0; dy_signUpsBootstrap := 0; dy_signUpsOpen := 0 |}.

Definition day_of (at_ : Z) : Z := at_ / MS_PER_DAY.

(** [const day = dayOf(at); if (day) f(day)]: [undefined] outside the series. *)
Definition on_day (firstDay : Z) (f : InviteDay -> InviteDay) (at_ : Z) (series : list InviteDay) : list InviteDay :=
  let i := day_of at_ - firstDay in
  if i <? 0 then series else alter f (Z.to_nat i) series.

Definition daily (days : Z) (bootstrapId : option jstr) (now : Z) (db : Store) (accounts : list Account) : list InviteDay :=
  let firstDay := day_of now - (days - 1) in
  let since := firstDay * MS_PER_DAY in
  let series := map (fun index => zero_day (firstDay + Z.of_nat index)) (seq 0 (Z.to_nat days)) in
  let issued := List.filter (fun c => since <=? ic_createdAt c) (code_rows db) in
  let series := foldl (fun s c => on_day firstDay inc_issued (ic_createdAt c) s) series issued in
  let series := foldl (fun s r => if since <=? ir_redeemedAt r then on_day firstDay inc_redeemed (ir_redeemedAt r) s else s)
                  series (invite_redemptions db) in
  foldl (fun s a =>
      if since <=? ac_createdAt a then
        on_day firstDay (if redeemed_something db (ac_id a) then inc_invited
                         else if bool_decide (Some (ac_id a) = bootstrapId) then inc_bootstrap else inc_open)
          (ac_createdAt a) s
      else s) series accounts.

(** ** Lemmas *)

Lemma whereStatus_iff status now c : whereStatus status now c = true <-> status_of c now = status.
Proof.
  unfold status_of, inviteCodeStatus, whereStatus.
  destruct (ic_disabledAt c), status; cbn; (try done); rewrite ?Z.ltb_antisym;
    destruct (ic_maxRedemptions c <=? ic_redemptionCount c); cbn; (try done);
    (destruct (ic_expiresAt c) as [e|]; cbn; [|done]); rewrite ?Z.ltb_antisym; by destruct (e <=? now).
Qed.

Lemma status_active_iff c now : status_of c now = st_active <-> unusableReason c now = None.
Proof.
  unfold status_of, inviteCodeStatus, unusableReason. destruct (ic_disabledAt c); [done|].
  destruct (ic_maxRedemptions c <=? ic_redemptionCount c); split_goal_match.
Qed.

Lemma elem_of_page {A} offset limit (l : list A) x : x ∈ page_of offset limit l -> x ∈ l.
Proof. unfold page_of. intros H. rewrite <- (take_drop (Z.to_nat offset) l). apply elem_of_app. right.
  rewrite <- (take_drop (Z.to_nat limit) (drop _ l)). apply elem_of_app. by left. Qed.

Lemma elem_of_selected filter now db id c :
  (id, c) ∈ selected_codes filter now db <-> invite_codes db !! id = Some c /\ code_selected filter now (id, c) = true.
Proof. unfold selected_codes. by rewrite sort_by_perm, elem_of_filter_b, elem_of_map_to_list. Qed.

(** *** Fresh codes *)

Definition codes_unique (codes : gmap jstr InviteCode) : Prop :=
  forall i j a b, codes !! i = Some a -> codes !! j = Some b -> ic_code a = ic_code b -> i = j.

Lemma is_some_false {A} (o : option A) : is_some o = false <-> o = None.
Proof. by destruct o. Qed.

Lemma code_free (codes : gmap jstr InviteCode) (c : jstr) :
  existsb (fun kc => jeqb (ic_code (snd kc)) c) (map_to_list codes) = false <->
  forall i a, codes !! i = Some a -> ic_code a <> c.
Proof.
  rewrite <- not_true_iff_false, existsb_exists. split.
  - intros H i a Hi E. apply H. exists (i, a). split; [by apply list_elem_of_In, elem_of_map_to_list|].
    by apply jeqb_eq.
  - intros H ([i a] & Hi%list_elem_of_In%elem_of_map_to_list & E%jeqb_eq). by eapply H.
Qed.

(** What an insert that goes through has done. *)
Definition inserted (rows : list (jstr * InviteCode)) (codes codes' : gmap jstr InviteCode) : Prop :=
  NoDup (map fst rows) /\ Forall (fun r => codes !! fst r = None) rows /\ codes' = list_to_map rows ∪ codes.

Lemma insert_invite_codes_ok rows : forall codes codes',
  insert_invite_codes rows codes = Ok codes' ->
  inserted rows codes codes' /\ (codes_unique codes -> codes_unique codes').
Proof.
  induction rows as [|[id row] rows IH]; intros codes codes'; cbn.
  { intros [= <-]. split; [|done]. split_and!; [constructor..|]. cbn. by rewrite (left_id_L ∅ (∪)). }
  destruct (is_some _ || _) eqn:E; [done|]. apply orb_false_iff in E as [E1%is_some_false E2].
  rewrite code_free in E2. intros H. destruct (IH _ _ H) as [(Hnd & Hnew & ->) Hu].
  assert (Hid : id ∉ map fst rows).
  { intros (r & -> & Hr)%list_elem_of_fmap. rewrite Forall_forall in Hnew. specialize (Hnew r Hr).
    cbn in Hnew. by rewrite lookup_insert_eq in Hnew. }
  split; [split_and!|].
  - cbn. by constructor.
  - constructor; [done|]. eapply Forall_impl; [exact Hnew|]. intros r. cbn. rewrite lookup_insert. by case_decide.
  - cbn. rewrite <- insert_union_r by (by apply not_elem_of_list_to_map_1). by rewrite insert_union_l.
  - intros Hc. apply Hu. intros i j a b. rewrite !lookup_insert. repeat case_decide; subst; try done.
    + intros [= <-] Hj E. by destruct (E2 j b Hj).
    + intros Hi [= <-] E. by destruct (E2 i a Hi).
    + apply Hc.
Qed.

Lemma inserted_nil codes : inserted [] codes codes.
Proof. split_and!; [constructor..|]. cbn. by rewrite (left_id_L ∅ (∪)). Qed.

Lemma inserted_app r1 r2 c0 c1 c2 : inserted r1 c0 c1 -> inserted r2 c1 c2 -> inserted (r1 ++ r2) c0 c2.
Proof.
  intros (H1 & F1 & ->) (H2 & F2 & ->).
  assert (Hd : forall r, r ∈ r2 -> fst r ∉ map fst r1 /\ c0 !! fst r = None).
  { intros r Hr. rewrite Forall_forall in F2. specialize (F2 r Hr). cbn in F2. apply lookup_union_None in F2 as [F2 F3].
    split; [by apply not_elem_of_list_to_map_2|done]. }
  assert (Hdis : forall id, id ∈ map fst r1 -> id ∉ map fst r2).
  { intros id Hi (r & -> & Hr)%list_elem_of_fmap. by destruct (Hd r Hr). }
  split_and!.
  - rewrite map_app. apply NoDup_app. split_and!; done.
  - apply Forall_app. split; [done|]. apply Forall_forall. intros r Hr. by apply Hd.
  - rewrite list_to_map_app, (assoc_L (∪)). f_equal. apply map_union_comm, map_disjoint_spec.
    intros id a b Ha%elem_of_list_to_map_2 Hb%elem_of_list_to_map_2.
    apply (Hdis id); [by apply (list_elem_of_fmap_2 fst _ (id, b))|by apply (list_elem_of_fmap_2 fst _ (id, a))].
Qed.

Section MintingLemmas.
Context `{U : UrlPlatform} (mint : Z -> nat -> nat -> jstr * jstr).

(** The rows that went in, however many batches of them. *)
Definition put_in (request : GenerateInvitesRequest) (now : Z) (rows : list (jstr * InviteCode))
    (codes codes' : gmap jstr InviteCode) : Prop :=
  inserted rows codes codes' /\ (codes_unique codes -> codes_unique codes') /\
  Forall (fun r => snd r = invite_row request now (ic_code (snd r))) rows.

Lemma put_in_app request now r1 r2 c0 c1 c2 :
  put_in request now r1 c0 c1 -> put_in request now r2 c1 c2 -> put_in request now (r1 ++ r2) c0 c2.
Proof.
  intros (H1 & U1 & F1) (H2 & U2 & F2). split_and!; [by eapply inserted_app|by auto|by apply Forall_app].
Qed.

Lemma put_in_nil request now codes : put_in request now [] codes codes.
Proof. split_and!; [apply inserted_nil|done|constructor]. Qed.

Lemma batch_rows_shape request now minted attempt size :
  length (batch_rows mint request now minted attempt size) = size /\
  Forall (fun r => snd r = invite_row request now (ic_code (snd r))) (batch_rows mint request now minted attempt size).
Proof.
  unfold batch_rows. rewrite length_map, length_seq. split; [done|]. apply Forall_forall.
  by intros r (i & -> & _)%list_elem_of_fmap.
Qed.

Lemma insert_invite_codes_err rows : forall codes e, insert_invite_codes rows codes = Err e -> e = UniqueViolation.
Proof. induction rows as [|[id row] rows IH]; intros codes e; cbn; [done|]. destruct (_ || _); [by intros [= <-]|apply IH]. Qed.

Lemma insertBatch_spec request now minted size retries : forall attempt codes codes' r,
  insertBatch mint request now minted size retries attempt codes = (codes', r) ->
  match r with
  | inl invites => exists rows, put_in request now rows codes codes' /\ length rows = size /\
                                mapM (minted_invite request) rows = Some invites
  | inr e => codes' = codes /\ (e = invalid_url \/ e = from_driver UniqueViolation)
  end.
Proof.
  induction retries as [|retries IH]; intros attempt codes codes' r; cbn [insertBatch];
    destruct (mapM _ _) as [invites|] eqn:Em; try (intros [= <- <-]; tauto);
    (destruct (insert_invite_codes _ _) as [c|e] eqn:Ei;
      [intros [= <- <-]; exists (batch_rows mint request now minted attempt size);
       destruct (batch_rows_shape request now minted attempt size), (insert_invite_codes_ok _ _ _ Ei); by split_and!|]);
    rewrite (insert_invite_codes_err _ _ _ Ei); cbn [isUniqueViolation negb]; [|by apply IH].
  intros [= <- <-]. tauto.
Qed.

Lemma mapM_app_some {A B} (f : A -> option B) l1 l2 k1 k2 :
  mapM f l1 = Some k1 -> mapM f l2 = Some k2 -> mapM f (l1 ++ l2) = Some (k1 ++ k2).
Proof. rewrite !mapM_Some. apply Forall2_app. Qed.

Lemma generate_from_spec request now fuel : forall minted codes codes' r,
  (Z.to_nat (gr_count request - minted) <= fuel)%nat ->
  generate_from mint fuel request now minted codes = (codes', r) ->
  exists rows, put_in request now rows codes codes' /\
    match r with
    | inl invites => length rows = Z.to_nat (gr_count request - minted) /\ mapM (minted_invite request) rows = Some invites
    | inr e => (length rows < Z.to_nat (gr_count request - minted))%nat /\ (e = invalid_url \/ e = from_driver UniqueViolation)
    end.
Proof.
  induction fuel as [|fuel IH]; intros minted codes codes' r Hf; cbn [generate_from].
  { intros [= <- <-]. exists []. split; [apply put_in_nil|]. cbn. split; [lia|done]. }
  destruct (minted <? gr_count request) eqn:Hm; zbool.
  2:{ intros [= <- <-]. exists []. split; [apply put_in_nil|]. cbn. split; [lia|done]. }
  destruct (insertBatch _ _ _ _ _ _ _ _) as [c1 r1] eqn:E1. apply insertBatch_spec in E1. destruct r1 as [batch|e].
  2:{ intros [= <- <-]. destruct E1 as [-> He]. exists []. split; [apply put_in_nil|]. cbn. split; [lia|done]. }
  destruct E1 as (rows & Hin & Hlen & Hmap). destruct (generate_from _ _ _ _ _ _) as [c2 r2] eqn:E2.
  apply IH in E2 as (rows' & Hin' & Hr); [|unfold BATCH in *; lia].
  destruct r2 as [rest|e]; intros [= <- <-]; exists (rows ++ rows'); (split; [by eapply put_in_app|]);
    destruct Hr as [Hlen' Hr]; rewrite length_app; unfold BATCH in *.
  - split; [lia|by apply mapM_app_some].
  - split; [lia|done].
Qed.
End MintingLemmas.

(** *** Counting by day *)

Definition add_day (codesIssued codesRedeemed invited bootstrap open_ : Z) (d : InviteDay) : InviteDay :=
  {| dy_date := dy_date d; dy_codesIssued := dy_codesIssued d + codesIssued;
     dy_codesRedeemed := dy_codesRedeemed d + codesRedeemed; dy_signUpsInvited := dy_signUpsInvited d + invited;
     dy_signUpsBootstrap := dy_signUpsBootstrap d + bootstrap; dy_signUpsOpen := dy_signUpsOpen d + open_ |}.

Lemma add_day_0 d : add_day 0 0 0 0 0 d = d.
Proof. destruct d; unfold add_day; cbn; f_equal; lia. Qed.

Lemma add_day_add a b c e f a' b' c' e' f' d :
  add_day a b c e f (add_day a' b' c' e' f' d) = add_day (a' + a) (b' + b) (c' + c) (e' + e) (f' + f) d.
Proof. unfold add_day; cbn; f_equal; lia. Qed.

Lemma inc_as_add d :
  inc_issued d = add_day 1 0 0 0 0 d /\ inc_redeemed d = add_day 0 1 0 0 0 d /\ inc_invited d = add_day 0 0 1 0 0 d /\
  inc_bootstrap d = add_day 0 0 0 1 0 d /\ inc_open d = add_day 0 0 0 0 1 d.
Proof. destruct d; unfold add_day, inc_issued, inc_redeemed, inc_invited, inc_bootstrap, inc_open; cbn; split_and!; f_equal; lia. Qed.

Lemma countZ_cons {A} (p : A -> bool) x l : countZ p (x :: l) = (if p x then 1 else 0) + countZ p l.
Proof. unfold countZ. cbn. destruct (p x); cbn [length]; lia. Qed.

(** One day of a pass over [l]: the days of the series are untouched by the other rows. *)
Lemma pass_on_day {A} firstDay (at_ : A -> Z) (inc : A -> InviteDay -> InviteDay) l (i : nat) : forall series,
  foldl (fun s x => if firstDay * MS_PER_DAY <=? at_ x then on_day firstDay (inc x) (at_ x) s else s) series l !! i =
  (fun d => foldl (fun d x => if day_of (at_ x) =? firstDay + Z.of_nat i then inc x d else d) d l) <$> series !! i.
Proof.
  induction l as [|x l IH]; intros series; cbn [foldl]; [by destruct (series !! i)|].
  rewrite IH. clear IH. unfold on_day, day_of, MS_PER_DAY in *.
  assert (Hd : (firstDay * 86400000 <=? at_ x) = (0 <=? at_ x / 86400000 - firstDay)).
  { apply eq_true_iff_eq. rewrite !Z.leb_le. pose proof (Z.div_mod (at_ x) 86400000 ltac:(lia)).
    pose proof (Z.mod_pos_bound (at_ x) 86400000 ltac:(lia)). nia. }
  rewrite Hd. destruct (0 <=? _) eqn:E0; zbool.
  - destruct (_ <? 0) eqn:E1; zbool; [lia|].
    destruct (decide (Z.to_nat (at_ x / 86400000 - firstDay) = i)) as [<-|Hne].
    + rewrite list_lookup_alter_eq. rewrite Z2Nat.id by lia.
      replace (at_ x / 86400000 =? _) with true by (symmetry; apply Z.eqb_eq; lia).
      by destruct (series !! _).
    + rewrite list_lookup_alter_ne by done.
      replace (at_ x / 86400000 =? _) with false by (symmetry; apply Z.eqb_neq; lia). done.
  - replace (at_ x / 86400000 =? _) with false by (symmetry; apply Z.eqb_neq; lia). done.
Qed.

Lemma fold_filter {A B} (p : A -> bool) (f : B -> A -> B) l : forall b,
  foldl f b (List.filter p l) = foldl (fun b x => if p x then f b x else b) b l.
Proof. induction l as [|x l IH]; intros b; cbn; [done|]. destruct (p x); cbn; apply IH. Qed.

Lemma fold_issued {A} (p : A -> bool) l : forall d,
  foldl (fun d x => if p x then inc_issued d else d) d l = add_day (countZ p l) 0 0 0 0 d.
Proof.
  induction l as [|x l IH]; intros d; cbn [foldl]; [by rewrite add_day_0|]. rewrite IH, countZ_cons.
  destruct (p x); [|done]. destruct (inc_as_add d) as (-> & _). by rewrite add_day_add.
Qed.

Lemma fold_redeemed {A} (p : A -> bool) l : forall d,
  foldl (fun d x => if p x then inc_redeemed d else d) d l = add_day 0 (countZ p l) 0 0 0 d.
Proof.
  induction l as [|x l IH]; intros d; cbn [foldl]; [by rewrite add_day_0|]. rewrite IH, countZ_cons.
  destruct (p x); [|done]. destruct (inc_as_add d) as (_ & -> & _). by rewrite add_day_add.
Qed.

Lemma fold_sign_ups {A} (p q r : A -> bool) l : forall d,
  foldl (fun d x => if p x then (if q x then inc_invited else if r x then inc_bootstrap else inc_open) d else d) d l =
  add_day 0 0 (countZ (fun x => p x && q x) l) (countZ (fun x => p x && (negb (q x) && r x)) l)
    (countZ (fun x => p x && (negb (q x) && negb (r x))) l) d.
Proof.
  induction l as [|x l IH]; intros d; cbn [foldl]; [by rewrite add_day_0|]. rewrite IH, !countZ_cons.
  destruct (inc_as_add d) as (_ & _ & E1 & E2 & E3).
  destruct (p x), (q x), (r x); cbn [andb negb]; rewrite ?E1, ?E2, ?E3, ?add_day_add; try done; f_equal; lia.
Qed.

Lemma pass_issued firstDay l (i : nat) series :
  foldl (fun s c => on_day firstDay inc_issued (ic_createdAt c) s) series
    (List.filter (fun c => firstDay * MS_PER_DAY <=? ic_createdAt c) l) !! i =
  add_day (countZ (fun c => day_of (ic_createdAt c) =? firstDay + Z.of_nat i) l) 0 0 0 0 <$> series !! i.
Proof.
  rewrite fold_filter, (pass_on_day firstDay ic_createdAt (fun _ => inc_issued)).
  destruct (series !! i); cbn [fmap option_fmap option_map]; [|done]. by rewrite fold_issued.
Qed.

Lemma length_on_day firstDay f at_ series : length (on_day firstDay f at_ series) = length series.
Proof. unfold on_day. destruct (_ <? 0); [done|]. apply length_alter. Qed.

Lemma length_pass {A} (step : list InviteDay -> A -> list InviteDay) l :
  (forall s x, length (step s x) = length s) -> forall s, length (foldl step s l) = length s.
Proof. intros H. induction l as [|x l IH]; intros s; cbn [foldl]; [done|]. by rewrite IH, H. Qed.

Lemma countZ_split {A} (p q r : A -> bool) l :
  countZ (fun x => p x && q x) l + countZ (fun x => p x && (negb (q x) && r x)) l +
  countZ (fun x => p x && (negb (q x) && negb (r x))) l = countZ p l.
Proof. induction l as [|x l IH]; [done|]. rewrite !countZ_cons, <- IH. destruct (p x), (q x), (r x); cbn; lia. Qed.

(** ** Properties *)

(** The status a code is shown with is the status the list filters by, and "active"
    is exactly what a redemption accepts: for every status, the [WHERE] selects the
    codes of that status and no other; a code is active precisely when the lookup
    finds no reason to refuse it; so a filtered page holds only rows shown with the
    status asked for, each the row stored under its id, and its total is the number
    of codes standing there. *)
Theorem status_filter_is_the_status toLowerCase filter now db accounts carried :
  (forall status c, whereStatus status now c = true <-> status_of c now = status) /\
  (forall c, status_of c now = st_active <-> unusableReason c now = None) /\
  let page := codes toLowerCase filter now db accounts carried in
  Forall (fun node => invite_codes db !! am_id node = Some (am_row node) /\ am_status node = status_of (am_row node) now /\
                      (forall status, cf_status filter = Some status -> am_status node = status)) (pg_nodes page) /\
  (forall status, cf_status filter = Some status -> cf_campaign filter = None ->
     pg_totalCount page = count_codes (fun _ c => bool_decide (status_of c now = status)) db).
Proof.
  split_and!; [intros; apply whereStatus_iff|intros; apply status_active_iff|cbv zeta; split].
  - apply Forall_forall. intros node ([id c] & -> & Hin%elem_of_page%elem_of_selected)%list_elem_of_fmap.
    destruct Hin as [Hrow [_ Hsel]%andb_true_iff]. cbn in *. split_and!; [done..|].
    intros status Hs. rewrite Hs in Hsel. by apply whereStatus_iff.
  - intros status Hs Hc. cbn. unfold selected_codes, count_codes. rewrite (Permutation_length (sort_by_perm _ _)).
    f_equal. f_equal. apply List.filter_ext. intros [id c]. unfold code_selected. rewrite Hs, Hc. cbn.
    apply eq_true_iff_eq. by rewrite whereStatus_iff, bool_decide_eq_true.
Qed.

Definition origin_eqb (a b : SignUpOrigin) : bool := bool_decide (a = b).

(** A filter by origin selects the accounts shown with that origin, when every
    redemption names a code that exists and the operator's own account redeemed
    nothing; account ids are not empty. *)
Theorem origin_filter_is_the_origin toLowerCase origin bootstrapEmail db accounts :
  let bootstrapId := bootstrapAccountId toLowerCase bootstrapEmail accounts in
  Forall (fun r => is_Some (invite_codes db !! ir_inviteCodeId r)) (invite_redemptions db) ->
  Forall (fun a => ac_id a <> "") accounts ->
  (forall id, bootstrapId = Some id -> redeemed_something db id = false) ->
  forall a, a ∈ accounts ->
    account_selected {| sf_origin := Some origin; sf_offset := 0; sf_limit := 0 |} bootstrapId db a =
    origin_eqb (su_origin (sign_up_row bootstrapId db a)) origin.
Proof.
  intros bootstrapId Hfk Hids Hboot a Ha. rewrite Forall_forall in Hids. specialize (Hids a Ha). cbn beta in Hids.
  assert (Hred : is_some (attribution_of db (ac_id a)) = redeemed_something db (ac_id a)).
  { unfold attribution_of, redeemed_something. destruct (find_first _ _) as [r|] eqn:E; cbn.
    - apply find_first_some in E as [Hr Hu]. rewrite Forall_forall in Hfk. destruct (Hfk r Hr) as [c ->]. cbn.
      symmetry. apply existsb_exists. exists r. split; [by apply list_elem_of_In|done].
    - rewrite find_first_none in E. symmetry. apply not_true_iff_false. intros (r & Hr%list_elem_of_In & Hu)%existsb_exists.
      by rewrite E in Hu. }
  unfold account_selected, sign_up_row, origin_eqb. cbn. rewrite Hred. unfold signUpOrigin.
  assert (Hb : jeqb (ac_id a) (default (Js []) bootstrapId) = bool_decide (Some (ac_id a) = bootstrapId)).
  { apply eq_true_iff_eq. rewrite jeqb_eq, bool_decide_eq_true. destruct bootstrapId as [b|]; cbn; [|done].
    split; [by intros ->|by intros [= ->]]. }
  assert (Hp : match present bootstrapId with Some id => negb (jeqb (ac_id a) id) | None => true end =
               negb (bool_decide (Some (ac_id a) = bootstrapId))).
  { rewrite <- Hb. destruct bootstrapId as [[[|u b]]|]; cbn -[jeqb]; [|done|];
      (destruct (jeqb (ac_id a) (Js [])) eqn:E; [by apply jeqb_eq in E|done]). }
  destruct origin; rewrite ?Hb, ?Hp; destruct (redeemed_something db (ac_id a)) eqn:Er; cbn;
    (case_bool_decide as Hbo; cbn; try done); exfalso; specialize (Hboot (ac_id a)); rewrite <- Hbo in Hboot;
    by rewrite Hboot in Er.
Qed.

(** Minting a batch: whatever the random source draws and however often a batch is
    retried, the rows written are new identifiers with the terms asked for, no two
    codes share a value, nothing stored before is touched, and on success there are
    exactly as many as were asked for, each returned with its own id, its display
    form and its link; a failure leaves the complete batches before it and nothing
    of the one that failed. *)
Theorem minted_codes_are_fresh `{U : UrlPlatform} mint request now db db' r :
  codes_unique (invite_codes db) ->
  generateInvites mint request now db = (db', r) ->
  workspaces db' = workspaces db /\ credit_transactions db' = credit_transactions db /\
  invite_redemptions db' = invite_redemptions db /\
  codes_unique (invite_codes db') /\
  exists rows,
    NoDup (map fst rows) /\ Forall (fun row => invite_codes db !! fst row = None) rows /\
    invite_codes db' = list_to_map rows ∪ invite_codes db /\
    Forall (fun row => snd row = invite_row request now (ic_code (snd row))) rows /\
    match r with
    | inl invites =>
        length rows = Z.to_nat (gr_count request) /\
        Forall2 (fun row g => gi_id g = fst row /\ gi_code g = formatInviteCode (ic_code (snd row)) /\
                   inviteUrl (gr_landingBaseUrl request) (gr_campaign request) (ic_code (snd row)) = Some (gi_url g))
          rows invites
    | inr e => (length rows < Z.to_nat (gr_count request))%nat /\ (e = invalid_url \/ e = from_driver UniqueViolation)
    end.
Proof.
  intros Hu. unfold generateInvites. destruct (generate_from _ _ _ _ _ _) as [codes' r'] eqn:E. intros [= <- <-].
  apply generate_from_spec in E as (rows & ((Hnd & Hnew & Heq) & Hu' & Hrows) & Hr); [|lia].
  cbn. split_and!; try done; [by auto|]. exists rows. split_and!; try done. rewrite Z.sub_0_r in Hr.
  destruct r' as [invites|e]; destruct Hr as [Hlen Hr]; (split; [done|]); [|done].
  apply mapM_Some in Hr. rewrite Forall_forall in Hrows.
  apply Forall2_same_length_lookup_2; [by eapply Forall2_length|].
  intros i row g H1 H2. pose proof (Forall2_lookup_lr _ _ _ _ _ _ Hr H1 H2) as Hm. cbn beta in Hm.
  apply list_elem_of_lookup_2 in H1. specialize (Hrows row H1). cbn beta in Hrows. unfold minted_invite in Hm.
  rewrite Hrows in Hm |- *. cbn in Hm |- *. destruct (inviteUrl _ _ _) eqn:Eu; [|done]. cbn in Hm. injection Hm as <-. done.
Qed.

(** The daily series counts every row once, on its own UTC day: the series has one
    entry a day ending today, and each holds the codes issued, the codes redeemed
    and the accounts created on that day, invited, bootstrapped or open, so that
    the three add up to the accounts of the day. *)
Theorem daily_counts_each_row_once days bootstrapId now db accounts (i : nat) :
  let day := day_of now - (days - 1) + Z.of_nat i in
  let created a := day_of (ac_createdAt a) =? day in
  let invited a := redeemed_something db (ac_id a) in
  let operator a := bool_decide (Some (ac_id a) = bootstrapId) in
  length (daily days bootstrapId now db accounts) = Z.to_nat days /\
  forall entry, daily days bootstrapId now db accounts !! i = Some entry ->
    entry = {| dy_date := jtake 10 (toISOString (day * MS_PER_DAY));
               dy_codesIssued := countZ (fun c => day_of (ic_createdAt c) =? day) (code_rows db);
               dy_codesRedeemed := countZ (fun r => day_of (ir_redeemedAt r) =? day) (invite_redemptions db);
               dy_signUpsInvited := countZ (fun a => created a && invited a) accounts;
               dy_signUpsBootstrap := countZ (fun a => created a && (negb (invited a) && operator a)) accounts;
               dy_signUpsOpen := countZ (fun a => created a && (negb (invited a) && negb (operator a))) accounts |} /\
    dy_signUpsInvited entry + dy_signUpsBootstrap entry + dy_signUpsOpen entry = countZ created accounts.
Proof.
  intros day created invited operator. unfold daily. split.
  - rewrite (length_pass _ accounts), (length_pass _ (invite_redemptions db)), (length_pass _ (List.filter _ _)).
    + by rewrite length_map, length_seq.
    + intros. apply length_on_day.
    + intros s x. destruct (_ <=? _); [apply length_on_day|done].
    + intros s x. destruct (_ <=? _); [apply length_on_day|done].
  - intros entry. set (firstDay := day_of now - (days - 1)) in *.
    rewrite (pass_on_day firstDay ac_createdAt (fun a => if invited a then inc_invited else if operator a then inc_bootstrap else inc_open)).
    rewrite (pass_on_day firstDay ir_redeemedAt (fun _ => inc_redeemed)), pass_issued, list_lookup_fmap.
    destruct (seq _ _ !! i) as [index|] eqn:Ei; cbn [fmap option_fmap option_map]; [|done]. intros [= <-].
    apply lookup_seq in Ei as [-> _]. rewrite fold_redeemed, fold_sign_ups.
    unfold add_day, zero_day. cbn -[Z.add]. fold day. split; [f_equal; lia|]. rewrite ?Z.add_0_l, ?Z.add_0_r.
    apply (countZ_split created invited operator).
Qed.

(** ** Examples *)

Definition lower_ascii (s : jstr) : jstr := Js (map lower_unit (units s)).

Definition code_example (code : jstr) (taken : Z) (disabledAt : option Z) : InviteCode :=
  {| ic_code := code; ic_grantMicros := 25000000; ic_campaign := "launch"; ic_maxRedemptions := 1;
     ic_redemptionCount := taken; ic_expiresAt := None; ic_disabledAt := disabledAt; ic_note := None;
     ic_issuedByUserId := None; ic_createdAt := 86400000 |}.

Definition redemption_example (user : jstr) : InviteRedemption :=
  {| ir_id := "r-" +++ user; ir_inviteCodeId := "c1"; ir_userId := user; ir_workspaceId := "w-" +++ user;
     ir_creditTransactionId := "t-" +++ user; ir_ipHash := None; ir_userAgentHash := None; ir_redeemedAt := 86400005 |}.

Definition admin_store (redeemed_by : list jstr) : Store :=
  {| workspaces := ∅; credit_transactions := [];
     invite_codes := {[ ("c1" : jstr) := code_example "ABCDEFGH2345" 1 None; ("c2" : jstr) := code_example "BCDEFGHJ2345" 0 None ]};
     invite_redemptions := map redemption_example redeemed_by |}.

Definition accounts_example : list Account :=
  [{| ac_id := "op"; ac_email := "Ops@example.com"; ac_createdAt := 10 |};
   {| ac_id := "u1"; ac_email := "a@example.com"; ac_createdAt := 86400001 |};
   {| ac_id := "u2"; ac_email := "b@example.com"; ac_createdAt := 86400002 |}].

#[local] Instance url_platform_example : UrlPlatform :=
  {| URL := jstr; new_URL u := Some u; searchParams_set u k v := u +++ "&" +++ k +++ "=" +++ v; url_toString u := u |}.

Definition mint_example (minted : Z) (attempt i : nat) : jstr * jstr :=
  match attempt, i with
  | 1%nat, _ => ("n1", "ABCDEFGH2345")
  | _, O => ("n1", "CDEFGHJK2345")
  | _, _ => ("n2", "DEFGHJKM2345")
  end.

Definition generate_example : GenerateInvitesRequest :=
  {| gr_count := 2; gr_grantMicros := 5000000; gr_campaign := "launch"; gr_maxRedemptions := 1; gr_expiresAt := None;
     gr_note := None; gr_landingBaseUrl := "https://example.com/?"; gr_issuedByUserId := Some "op" |}.

Lemma status_filter_is_the_status_witness :
  let page := codes lower_ascii {| cf_campaign := None; cf_status := Some st_redeemed; cf_offset := 0; cf_limit := 10 |}
                1000 (admin_store ["u1"]) accounts_example [] in
  pg_totalCount page = 1 /\ map am_id (pg_nodes page) = ["c1"] /\ map am_status (pg_nodes page) = [st_redeemed].
Proof.
  destruct (status_filter_is_the_status lower_ascii
    {| cf_campaign := None; cf_status := Some st_redeemed; cf_offset := 0; cf_limit := 10 |} 1000 (admin_store ["u1"])
    accounts_example []) as (_ & _ & _ & Htotal).
  split; [rewrite (Htotal st_redeemed) by reflexivity; vm_compute; reflexivity|].
  split; vm_compute; reflexivity.
Defined.

Lemma origin_filter_is_the_origin_witness :
  bootstrapAccountId lower_ascii "ops@example.com" accounts_example = Some "op" /\
  account_selected {| sf_origin := Some origin_open; sf_offset := 0; sf_limit := 0 |} (Some "op") (admin_store ["u1"])
    {| ac_id := "u2"; ac_email := "b@example.com"; ac_createdAt := 86400002 |} = true.
Proof.
  split; [vm_compute; reflexivity|].
  etrans; [apply (origin_filter_is_the_origin lower_ascii origin_open "ops@example.com" (admin_store ["u1"]) accounts_example)|].
  - apply (bool_decide_eq_true_1 _). vm_compute. reflexivity.
  - repeat constructor; by intros [=].
  - vm_compute. by intros id [= <-].
  - by do 2 right; left.
  - vm_compute. reflexivity.
Defined.

(** An operator's account that also redeemed a code (a data import can merge it with
    one that did) is listed under "bootstrap" and shown as invited. *)
Example operator_who_redeemed : let db := admin_store ["op"] in
  map su_origin (pg_nodes (signUps lower_ascii {| sf_origin := Some origin_bootstrap; sf_offset := 0; sf_limit := 10 |}
    "ops@example.com" db accounts_example)) = [origin_invite].
Proof. vm_compute. reflexivity. Qed.

Lemma minted_codes_are_fresh_witness :
  exists db' invites, generateInvites mint_example generate_example 7 (admin_store []) = (db', inl invites) /\
    map gi_code invites = ["CDEF-GHJK-2345"; "DEFG-HJKM-2345"] /\ codes_unique (invite_codes db').
Proof.
  assert (Hu : codes_unique (invite_codes (admin_store []))).
  { intros i j a b. unfold admin_store. cbn [invite_codes]. rewrite !lookup_insert, !lookup_singleton.
    repeat case_decide; subst; try done; intros [= <-] [= <-]; by cbn. }
  destruct (generateInvites mint_example generate_example 7 (admin_store [])) as [db' r] eqn:E.
  pose proof (minted_codes_are_fresh mint_example generate_example 7 (admin_store []) db' r Hu E) as (_ & _ & _ & Hu' & _).
  assert (Hr : match r with inl invites => map gi_code invites = ["CDEF-GHJK-2345"; "DEFG-HJKM-2345"] | inr _ => False end).
  { replace r with (snd (generateInvites mint_example generate_example 7 (admin_store []))) by (by rewrite E).
    vm_compute. reflexivity. }
  destruct r as [invites|]; [|destruct Hr]. exists db', invites. exact (conj eq_refl (conj Hr Hu')).
Defined.

Lemma daily_counts_each_row_once_witness : exists entry,
  daily 3 (Some "op") 90000000 (admin_store ["u1"]) accounts_example !! 2%nat = Some entry /\
  dy_date entry = "1970-01-02" /\ dy_codesIssued entry = 2 /\
  dy_signUpsInvited entry + dy_signUpsBootstrap entry + dy_signUpsOpen entry = 2.
Proof.
  destruct (daily 3 (Some "op") 90000000 (admin_store ["u1"]) accounts_example !! 2%nat) as [entry|] eqn:E;
    [|vm_compute in E; discriminate E].
  exists entry. split; [done|].
  destruct (daily_counts_each_row_once 3 (Some "op") 90000000 (admin_store ["u1"]) accounts_example 2) as [_ H].
  destruct (H entry E) as [He Hsum]. rewrite Hsum. rewrite He. split_and!; vm_compute; reflexivity.
Defined.
