(* ===== verification/Csv.v ===== *)
(** * Comma-separated values

    [activity/csv.ts]: the writer of one record, the reader of a file, and the guard
    that keeps a spreadsheet from taking a cell for a formula.  The reader is the
    loop of the source over the units of the text, its variables a record. *)

From S2P Require Import Prelude JsString.

Definition QUOTE : N := 34%N.
Definition COMMA : N := 44%N.
Definition CR : N := 13%N.
Definition LF : N := 10%N.

(** [/^[=+\-@\t\r]/] *)
Definition formula_start (u : list N) : bool :=
  match u with c :: _ => existsb (N.eqb c) [61; 43; 45; 64; 9; 13]%N | [] => false end.

(** A quote, a comma or a line end. *)
Definition needs_quotes (u : list N) : bool := existsb (fun c => existsb (N.eqb c) [QUOTE; COMMA; CR; LF]) u.

(** Every quote written twice. *)
Definition double_quotes (u : list N) : list N := concat (map (fun c => if (c =? QUOTE)%N then [QUOTE; QUOTE] else [c]) u).

Definition guarded (u : list N) : list N := if formula_start u then 39%N :: u else u.

(** [None] is [null] and [undefined]; a number comes as its text. *)
Definition csvField (value : option jstr) : list N :=
  match value with
  | None => []
  | Some text =>
      let g := guarded (units text) in
      if needs_quotes g then QUOTE :: double_quotes g ++ [QUOTE] else g
  end.

Definition csvRow (values : list (option jstr)) : jstr :=
  Js (units (jjoin (Js [COMMA]) (map (fun v => Js (csvField v)) values)) ++ [CR; LF]).

(** ** The reader *)

Inductive csv_error := CsvSyntaxError (message : jstr) (line : Z).

Record Reader := {
  rd_records : list (list jstr);
  rd_record : list jstr;
  rd_field : list N;
  rd_quoted : bool;
  rd_wasQuoted : bool;
  rd_line : Z
}.

Definition endField (r : Reader) : Reader :=
  {| rd_records := rd_records r; rd_record := rd_record r ++ [Js (rd_field r)]; rd_field := []; rd_quoted := rd_quoted r;
     rd_wasQuoted := false; rd_line := rd_line r |}.

Definition endRecord (r : Reader) : Reader :=
  let r := endField r in
  let blank := match rd_record r with [f] => jlength f =? 0 | _ => false end in
  {| rd_records := if blank then rd_records r else rd_records r ++ [rd_record r]; rd_record := []; rd_field := rd_field r;
     rd_quoted := rd_quoted r; rd_wasQuoted := rd_wasQuoted r; rd_line := rd_line r |}.

Definition add_unit (c : N) (r : Reader) : Reader :=
  {| rd_records := rd_records r; rd_record := rd_record r; rd_field := rd_field r ++ [c]; rd_quoted := rd_quoted r;
     rd_wasQuoted := rd_wasQuoted r; rd_line := rd_line r |}.

Definition set_quoted (quoted wasQuoted : bool) (r : Reader) : Reader :=
  {| rd_records := rd_records r; rd_record := rd_record r; rd_field := rd_field r; rd_quoted := quoted;
     rd_wasQuoted := wasQuoted; rd_line := rd_line r |}.

Definition next_line (r : Reader) : Reader :=
  {| rd_records := rd_records r; rd_record := rd_record r; rd_field := rd_field r; rd_quoted := rd_quoted r;
     rd_wasQuoted := rd_wasQuoted r; rd_line := rd_line r + 1 |}.

Definition at_line (r : Reader) (what : jstr) : csv_error :=
  CsvSyntaxError ("Line " +++ jstring_of_Z (rd_line r) +++ ": " +++ what) (rd_line r).

Definition nonempty (u : list N) : bool := match u with [] => false | _ => true end.

Fixpoint read_units (u : list N) (r : Reader) : result csv_error Reader :=
  match u with
  | [] => Ok r
  | c :: rest =>
      if rd_quoted r then
        if (c =? QUOTE)%N then
          match rest with
          | c' :: rest' =>
              if (c' =? QUOTE)%N then read_units rest' (add_unit QUOTE r)
              else read_units rest (set_quoted false (rd_wasQuoted r) r)
          | [] => read_units rest (set_quoted false (rd_wasQuoted r) r)
          end
        else read_units rest (add_unit c (if (c =? LF)%N then next_line r else r))
      else if (c =? QUOTE)%N then
        throw (at_line r "a quote in the middle of an unquoted field.") when nonempty (rd_field r) || rd_wasQuoted r;
        read_units rest (set_quoted true true r)
      else if (c =? COMMA)%N then read_units rest (endField r)
      else if (c =? LF)%N || (c =? CR)%N then
        match rest with
        | c' :: rest' =>
            if (c =? CR)%N && (c' =? LF)%N then read_units rest' (next_line (endRecord r))
            else read_units rest (next_line (endRecord r))
        | [] => read_units rest (next_line (endRecord r))
        end
      else
        throw (at_line r "text after a closing quote.") when rd_wasQuoted r;
        read_units rest (add_unit c r)
  end.

Definition initial_reader : Reader :=
  {| rd_records := []; rd_record := []; rd_field := []; rd_quoted := false; rd_wasQuoted := false; rd_line := 1 |}.

Definition parseCsv (text : jstr) : result csv_error (list (list jstr)) :=
  let source := match units text with c :: rest => if (c =? 65279)%N then rest else c :: rest | [] => [] end in
  r ← read_units source initial_reader;
  throw (at_line r "a quoted field is never closed.") when rd_quoted r;
  if nonempty (rd_field r) || match rd_record r with [] => false | _ => true end
  then Ok (rd_records (endRecord r)) else Ok (rd_records r).

(** [/^'[=+\-@\t\r]/] *)
Definition unguardCsvField (value : jstr) : jstr :=
  match units value with
  | 39%N :: rest => if formula_start rest then Js rest else value
  | _ => value
  end.

(** ** Lemmas *)

Definition text_of (value : option jstr) : jstr := Js (guarded (units (default (Js []) value))).

(** A reader between two fields. *)
Definition at_field (records : list (list jstr)) (record : list jstr) (line : Z) : Reader :=
  {| rd_records := records; rd_record := record; rd_field := []; rd_quoted := false; rd_wasQuoted := false; rd_line := line |}.

(** A reader after the text of a field. *)
Definition after_field (records : list (list jstr)) (record : list jstr) (field : list N) (wasQuoted : bool) (line : Z) : Reader :=
  {| rd_records := records; rd_record := record; rd_field := field; rd_quoted := false; rd_wasQuoted := wasQuoted; rd_line := line |}.

Definition stops (rest : list N) : Prop := match rest with c :: _ => c = COMMA \/ c = CR | [] => True end.

Lemma read_quoted u rest records record : forall field line, stops rest ->
  exists line', read_units (double_quotes u ++ QUOTE :: rest)
    {| rd_records := records; rd_record := record; rd_field := field; rd_quoted := true; rd_wasQuoted := true; rd_line := line |} =
  read_units rest (after_field records record (field ++ u) true line').
Proof.
  induction u as [|c u IH]; intros field line Hr.
  - exists line. rewrite app_nil_r. cbn [double_quotes map concat app read_units rd_quoted].
    change (QUOTE =? QUOTE)%N with true. cbn iota.
    destruct rest as [|c' rest']; [done|]. destruct Hr as [-> | ->]; reflexivity.
  - unfold double_quotes. cbn [map concat]. fold (double_quotes u). rewrite <- app_assoc. destruct (c =? QUOTE)%N eqn:E.
    + apply N.eqb_eq in E as ->. cbn [app read_units rd_quoted]. change (QUOTE =? QUOTE)%N with true. cbn iota.
      destruct (IH (field ++ [QUOTE]) line Hr) as [line' E']. exists line'. rewrite <- app_assoc in E'. exact E'.
    + cbn [app read_units rd_quoted]. rewrite E.
      destruct (IH (field ++ [c]) (if (c =? LF)%N then line + 1 else line) Hr) as [line' E']. exists line'.
      rewrite <- app_assoc in E'. etrans; [|exact E']. by destruct (c =? LF)%N.
Qed.

Lemma read_plain u rest records record line : forall field, needs_quotes u = false ->
  read_units (u ++ rest) (after_field records record field false line) =
  read_units rest (after_field records record (field ++ u) false line).
Proof.
  induction u as [|c u IH]; intros field Hn; cbn [app]; [by rewrite app_nil_r|].
  cbn [needs_quotes existsb] in Hn. rewrite !orb_false_iff in Hn. destruct Hn as ((H1 & H2 & H3 & H4 & _) & Hu).
  cbn [read_units rd_quoted after_field]. rewrite H1, H2, H3, H4. cbn [orb throw_if rd_wasQuoted].
  change (add_unit c _) with (after_field records record (field ++ [c]) false line).
  by rewrite IH, <- app_assoc.
Qed.

(** One field, up to the comma or the line end after it. *)
Lemma read_field v rest records record line : stops rest -> rest <> [] ->
  exists wasQuoted line', read_units (csvField v ++ rest) (at_field records record line) =
    read_units rest (after_field records record (units (text_of v)) wasQuoted line').
Proof.
  intros Hr Hne. unfold csvField, text_of. destruct v as [t|]; cbn [default units]; [|by exists false, line].
  destruct (needs_quotes (guarded (units t))) eqn:E.
  - destruct (read_quoted (guarded (units t)) rest records record [] line Hr) as [line' H]. exists true, line'.
    cbn [app]. rewrite <- app_assoc. etrans; [|exact H]. reflexivity.
  - exists false, line. by apply (read_plain (guarded (units t)) rest records record line []).
Qed.

Lemma read_comma rest records record field wq line :
  read_units (COMMA :: rest) (after_field records record field wq line) = read_units rest (at_field records (record ++ [Js field]) line).
Proof. reflexivity. Qed.

Lemma read_end rest records record field wq line : record ++ [Js field] <> [Js []] ->
  read_units (CR :: LF :: rest) (after_field records record field wq line) =
  read_units rest (at_field (records ++ [record ++ [Js field]]) [] (line + 1)).
Proof.
  intros Hb. cbn [read_units rd_quoted after_field]. change (CR =? QUOTE)%N with false. change (CR =? COMMA)%N with false.
  change ((CR =? LF)%N || (CR =? CR)%N) with true. change ((CR =? CR)%N && (LF =? LF)%N) with true. cbn iota.
  f_equal. unfold endRecord, endField, next_line, at_field. cbn [rd_records rd_record rd_field rd_quoted rd_wasQuoted rd_line].
  destruct record as [|f record]; cbn [app] in *; [|by destruct record].
  by destruct field as [|c field].
Qed.

Definition row_units (values : list (option jstr)) : list N := units (jjoin (Js [COMMA]) (map (fun v => Js (csvField v)) values)).

Lemma row_units_cons v w values tl :
  row_units (v :: w :: values) ++ tl = csvField v ++ COMMA :: row_units (w :: values) ++ tl.
Proof.
  change (row_units (v :: w :: values)) with (csvField v ++ (COMMA :: row_units (w :: values))). by rewrite <- app_assoc.
Qed.

Lemma read_row values rest records : forall record line, values <> [] -> record ++ map text_of values <> [Js []] ->
  exists line', read_units (row_units values ++ CR :: LF :: rest) (at_field records record line) =
    read_units rest (at_field (records ++ [record ++ map text_of values]) [] line').
Proof.
  induction values as [|v values IH]; intros record line Hne Hb; [done|]. destruct values as [|w values].
  - destruct (read_field v (CR :: LF :: rest) records record line) as (wq & line' & E); [by right|done|].
    exists (line' + 1). change (row_units [v]) with (csvField v). rewrite E. cbn [map] in *.
    destruct (text_of v) as [t] eqn:Et. cbn [units]. by rewrite read_end.
  - destruct (read_field v (COMMA :: row_units (w :: values) ++ CR :: LF :: rest) records record line) as (wq & line' & E); [by left|done|].
    destruct (IH (record ++ [text_of v]) line') as [line'' E2]; [done| |].
    { rewrite <- app_assoc. exact Hb. }
    exists line''. rewrite row_units_cons, E, read_comma. rewrite <- app_assoc in E2.
    replace (Js (units (text_of v))) with (text_of v) by (by destruct (text_of v)). exact E2.
Qed.

Lemma read_rows rows : forall records line, Forall (fun values => values <> [] /\ map text_of values <> [Js []]) rows ->
  exists line', read_units (concat (map (fun values => units (csvRow values)) rows)) (at_field records [] line) =
    Ok (at_field (records ++ map (map text_of) rows) [] line').
Proof.
  induction rows as [|values rows IH]; intros records line Hall; [exists line; by rewrite app_nil_r|].
  apply Forall_cons in Hall as [[Hne Hb] Hall]. cbn [map concat].
  change (units (csvRow values)) with (row_units values ++ [CR; LF]). rewrite <- app_assoc. cbn [app].
  destruct (read_row values (concat (map (fun values => units (csvRow values)) rows)) records [] line Hne Hb) as [line' E].
  destruct (IH (records ++ [map text_of values]) line' Hall) as [line'' E2]. exists line''.
  rewrite E. cbn [app]. rewrite E2. by rewrite <- app_assoc.
Qed.

Definition starts_with_mark (rows : list (list (option jstr))) : bool :=
  match concat (map (fun values => units (csvRow values)) rows) with c :: _ => (c =? 65279)%N | [] => false end.

Lemma parse_rows rows :
  Forall (fun values => values <> [] /\ map text_of values <> [Js []]) rows -> starts_with_mark rows = false ->
  parseCsv (Js (concat (map (fun values => units (csvRow values)) rows))) = Ok (map (map text_of) rows).
Proof.
  intros Hall Hmark. unfold parseCsv. cbn [units].
  assert (Es : match concat (map (fun values => units (csvRow values)) rows) with
               | c :: rest => if (c =? 65279)%N then rest else c :: rest | [] => [] end =
               concat (map (fun values => units (csvRow values)) rows)).
  { unfold starts_with_mark in Hmark. destruct (concat _) as [|c u]; [done|]. by rewrite Hmark. }
  rewrite Es. destruct (read_rows rows [] 1 Hall) as [line' E].
  change initial_reader with (at_field [] [] 1). rewrite E. cbn. reflexivity.
Qed.

Lemma unguard_text_of text : unguardCsvField text = text -> unguardCsvField (text_of (Some text)) = text.
Proof.
  destruct text as [u]. intros Hu. change (text_of (Some (Js u))) with (Js (guarded u)). unfold guarded.
  destruct (formula_start u) eqn:Ef; [|exact Hu]. unfold unguardCsvField. cbn [units]. by rewrite Ef.
Qed.

(** ** Theorems *)

(** What is written reads back, whatever the texts hold, quotes, commas, line ends and
    formulas included: the records of the file are the rows, each field as it was
    stored with the guard in front of a formula, and taking the guard off gives the
    text, unless that text itself begins with an apostrophe before a formula.  Only a
    row of one empty field is lost, which is what a blank line is. *)
Theorem csv_roundtrip rows :
  Forall (fun values => values <> [] /\ map text_of values <> [Js []]) rows -> starts_with_mark rows = false ->
  parseCsv (Js (concat (map (fun values => units (csvRow values)) rows))) = Ok (map (map text_of) rows) /\
  forall text, unguardCsvField text = text -> unguardCsvField (text_of (Some text)) = text.
Proof. intros Hall Hmark. split; [by apply parse_rows|]. intros text. apply unguard_text_of. Qed.

Lemma csv_roundtrip_witness :
  parseCsv (Js (concat (map (fun values => units (csvRow values))
    [[Some ("=1+1" : jstr); Some (Js [97; 34; 44; 13; 10]%N); None]; [Some ("b" : jstr)]]))) =
  Ok [["'=1+1"; Js [97; 34; 44; 13; 10]%N; Js []]; ["b"]].
Proof.
  apply (csv_roundtrip [[Some ("=1+1" : jstr); Some (Js [97; 34; 44; 13; 10]%N); None]; [Some ("b" : jstr)]]);
    [repeat constructor; try done; vm_compute; by intros [=]|vm_compute; reflexivity].
Defined.
