(* ===== verification/InviteCsv.v ===== *)
(** * Invitation codes as a file

    [invites/invite-codes-csv.ts] and [invites/invite-codes-transfer.service.ts]: every
    code of the Codes tab out as CSV, and that file into another deployment, planned
    first and written whole or not at all.

    Chunked reads and inserts are one statement each.  The engine's [Date.parse] is
    consulted for instants this code does not write; SHA-256 and the case mappings
    are parameters. *)

From S2P Require Import Prelude JsString Money JsDate Csv Store InviteCodes Invites InviteWithdrawal InviteAdmin.

(** ** The rows of a file *)

Definition INVITE_CODES_CSV_HEADER : list jstr :=
  ["code"; "url"; "campaign"; "grantUsd"; "status"; "redeemedByEmail"; "redeemedAt"; "createdAt"; "expiresAt"; "withdrawnAt";
   "maxRedemptions"; "note"].

Definition MAX_INVITE_CODES_CSV_ROWS : Z := 50000.
Definition LIST_SEPARATOR : N := 59%N.
Definition MAX_SEATS : Z := 10000.

Definition status_text (s : InviteCodeStatus) : jstr :=
  match s with st_active => "active" | st_redeemed => "redeemed" | st_expired => "expired" | st_withdrawn => "withdrawn" end.

Definition STATUSES : list InviteCodeStatus := [st_active; st_redeemed; st_expired; st_withdrawn].

Record InviteCodeCsvRedeemer := { cv_email : option jstr; cv_redeemedAt : Z }.

Record InviteCodeCsvSource := {
  sc_code : jstr;
  sc_campaign : jstr;
  sc_grantMicros : Z;
  sc_status : InviteCodeStatus;
  sc_redeemers : list InviteCodeCsvRedeemer;
  sc_createdAt : Z;
  sc_expiresAt : option Z;
  sc_disabledAt : option Z;
  sc_maxRedemptions : Z;
  sc_note : option jstr
}.

Record InviteCodeCsvRow := {
  cw_row : Z;
  cw_code : jstr;
  cw_campaign : jstr;
  cw_grantMicros : Z;
  cw_maxRedemptions : Z;
  cw_redemptionCount : Z;
  cw_expiresAt : option Z;
  cw_disabledAt : option Z;
  cw_note : option jstr;
  cw_createdAt : Z;
  cw_redeemers : list InviteCodeCsvRedeemer;
  cw_status : InviteCodeStatus
}.

Record InviteCodeCsvRowError := { ce_row : Z; ce_message : jstr }.

Record InviteCodesCsvReading := {
  rg_rows : list InviteCodeCsvRow;
  rg_repeated : list InviteCodeCsvRow;
  rg_errors : list InviteCodeCsvRowError
}.

Inductive refused_file := InviteCodesCsvRefusedError (message : jstr).

(** ** Amounts and instants *)

(** [.replace(/0+$/, '')] *)
Definition strip_zeros (u : list N) : list N := reverse (drop_while (N.eqb 48) (reverse u)).

(** [Math.trunc] and [%] of an amount that is not negative. *)
Definition microsToUsd (micros : Z) : jstr :=
  let whole := micros / 1000000 in
  let fraction := strip_zeros (units (jpadStart (jstring_of_Z (micros mod 1000000)) 6 48%N)) in
  match fraction with
  | [] => jstring_of_Z whole
  | _ => jstring_of_Z whole +++ "." +++ Js fraction
  end.

(** [/^\d{1,12}(\.\d{1,6})?$/] and the amount it says; out of the safe range it is refused,
    as a sum of doubles there is too. *)
Definition usd_to_micros (value : jstr) : option Z :=
  match usd_match (units value) with
  | Some (whole, fraction) =>
      if (12 <? length whole)%nat then None
      else
        let micros := value_of whole * 1000000 + value_of (units (jpadEnd (Js fraction) 6 48%N)) in
        if isSafeInteger micros && (0 <? micros) then Some micros else None
  | None => None
  end.

(** [/^\d{4}-\d{2}-\d{2}T\d{2}:\d{2}:\d{2}(\.\d{1,3})?Z$/] *)
Definition iso_prefix (u : list N) : bool :=
  (length u =? 19)%nat &&
  forallb (fun ic => let '(i, c) := ic in
      match i with
      | 4%nat | 7%nat => (c =? 45)%N | 10%nat => (c =? 84)%N | 13%nat | 16%nat => (c =? 58)%N
      | _ => is_digit c
      end) (imap pair u).

Definition ISO_INSTANT (value : jstr) : bool :=
  let u := units value in
  iso_prefix (take 19 u) &&
  match drop 19 u with
  | [90%N] => true
  | 46%N :: rest =>
      match reverse rest with
      | 90%N :: digits => all_digits digits && (length digits <=? 3)%nat
      | _ => false
      end
  | _ => false
  end.

Definition instant (other_date : jstr -> option Z) (value : jstr) : option Z :=
  if ISO_INSTANT value then match parse_iso value with Some t => Some t | None => other_date value end else None.

(** ** Writing *)

Section Write.
Context `{U : UrlPlatform}.

Definition inviteCodesCsvHeader : jstr := csvRow (map Some INVITE_CODES_CSV_HEADER).

Definition joined (l : list jstr) : jstr := jjoin (Js [LIST_SEPARATOR]) l.

Definition csv_fields (code : InviteCodeCsvSource) (url : jstr) : list jstr :=
  [formatInviteCode (sc_code code);
   url;
   sc_campaign code;
   microsToUsd (sc_grantMicros code);
   status_text (sc_status code);
   joined (map (fun r => default (Js []) (cv_email r)) (sc_redeemers code));
   joined (map (fun r => toISOString (cv_redeemedAt r)) (sc_redeemers code));
   toISOString (sc_createdAt code);
   default (Js []) (toISOString <$> sc_expiresAt code);
   default (Js []) (toISOString <$> sc_disabledAt code);
   jstring_of_Z (sc_maxRedemptions code);
   default (Js []) (sc_note code)].

Definition inviteCodesCsvRow (code : InviteCodeCsvSource) (landingBaseUrl : jstr) : option jstr :=
  url ← inviteUrl landingBaseUrl (sc_campaign code) (sc_code code);
  Some (csvRow (map Some (csv_fields code url))).
End Write.

(** ** Reading *)

Section Read.
Context (toUpperCase toLowerCase : jstr -> jstr) (other_date : jstr -> option Z).

Definition sameHeader (header : list jstr) : bool := bool_decide (map jtrim header = INVITE_CODES_CSV_HEADER).

(** [/^[^\s@]+@[^\s@]+$/] *)
Definition email_shape (u : list N) : bool :=
  match split_on 64 u with
  | [name; host] => nonempty name && nonempty host && forallb (fun c => negb (is_space c)) (name ++ host)
  | _ => false
  end.

Definition readRedeemers (rawEmails rawRedeemedAt : jstr) : jstr + list InviteCodeCsvRedeemer :=
  if jlength rawRedeemedAt =? 0 then
    if jlength rawEmails =? 0 then inr [] else inl ("“redeemedByEmail” is set but “redeemedAt” is empty." : jstr)
  else
    let dates := map (fun v => instant other_date (jtrim v)) (jsplit LIST_SEPARATOR rawRedeemedAt) in
    let emails := map (fun v => toLowerCase (unguardCsvField (jtrim v))) (jsplit LIST_SEPARATOR rawEmails) in
    if existsb (fun d => match d with None => true | Some _ => false end) dates
    then inl ("“redeemedAt” must be UTC timestamps, separated by “;”." : jstr)
    else if negb (length emails =? length dates)%nat
    then inl ("“redeemedByEmail” and “redeemedAt” must list the same number of redemptions." : jstr)
    else if existsb (fun e => negb (jlength e =? 0) && ((320 <? jlength e) || negb (email_shape (units e)))) emails
    then inl ("“redeemedByEmail” holds something that is not an email address." : jstr)
    else inr (zip_with (fun d e => {| cv_email := present (Some e); cv_redeemedAt := default 0 d |}) dates emails).

(** [/^\d{1,5}$/] and the seats it says. *)
Definition seats_of (raw : jstr) : option Z :=
  let u := units raw in
  if all_digits u && (length u <=? 5)%nat && (1 <=? value_of u) && (value_of u <=? MAX_SEATS) then Some (value_of u) else None.

Definition column (fields : list jstr) (i : nat) : jstr := jtrim (default (Js []) (fields !! i)).

Definition optional_instant (raw : jstr) : option (option Z) :=
  if jlength raw =? 0 then Some None else Some <$> instant other_date raw.

Definition written_code (status : InviteCodeStatus) (maxRedemptions : Z) (redeemers : list InviteCodeCsvRedeemer)
    (withdrawnAt : option Z) (now : Z) : Z * option Z :=
  (match status with st_redeemed => maxRedemptions | _ => Z.of_nat (length redeemers) end,
   match status with st_withdrawn => Some (default now withdrawnAt) | _ => withdrawnAt end).

(** A validated row, or the sentence that says what is wrong with it. *)
Definition readRow (fields : list jstr) (row now : Z) : jstr + InviteCodeCsvRow :=
  if negb (length fields =? length INVITE_CODES_CSV_HEADER)%nat then
    inl ("Has " +++ jstring_of_Z (Z.of_nat (length fields)) +++ " column(s); the export has 12.")
  else
  let code := normaliseInviteCode toUpperCase (column fields 0) in
  let campaign := column fields 2 in
  let note := unguardCsvField (default (Js []) (fields !! 11%nat)) in
  if negb (looksLikeInviteCode code) then inl ("“code” is not an invitation code." : jstr)
  else if negb (isInviteCampaignTag campaign)
  then inl ("“campaign” must be a lowercase tag such as launch-2026-10-devs." : jstr)
  else match usd_to_micros (column fields 3) with
  | None => inl ("“grantUsd” must be a dollar amount above 0, such as 100 or 12.5." : jstr)
  | Some grantMicros =>
  match find_first (fun s => jeqb (status_text s) (column fields 4)) STATUSES with
  | None => inl ("“status” must be one of " +++ jjoin ", " (map status_text STATUSES) +++ ".")
  | Some status =>
  match instant other_date (column fields 7) with
  | None => inl ("“createdAt” must be a UTC timestamp such as 2026-10-10T09:30:00.000Z." : jstr)
  | Some createdAt =>
  match optional_instant (column fields 8) with
  | None => inl ("“expiresAt” must be empty or a UTC timestamp." : jstr)
  | Some expiresAt =>
  match optional_instant (column fields 9) with
  | None => inl ("“withdrawnAt” must be empty or a UTC timestamp." : jstr)
  | Some withdrawnAt =>
  match seats_of (column fields 10) with
  | None => inl ("“maxRedemptions” must be a whole number from 1 to " +++ jstring_of_Z MAX_SEATS +++ ".")
  | Some maxRedemptions =>
  if 512 <? jlength note then inl ("“note” is longer than 512 characters." : jstr)
  else match readRedeemers (column fields 5) (column fields 6) with
  | inl message => inl message
  | inr redeemers =>
  if maxRedemptions <? Z.of_nat (length redeemers) then
    inl ("Lists " +++ jstring_of_Z (Z.of_nat (length redeemers)) +++ " redemption(s) for a code with " +++
         jstring_of_Z maxRedemptions +++ " seat(s).")
  else
  let '(redemptionCount, disabledAt) := written_code status maxRedemptions redeemers withdrawnAt now in
  let effective := inviteCodeStatus disabledAt expiresAt redemptionCount maxRedemptions now in
  if negb (bool_decide (effective = status)) && negb (bool_decide (status = st_active) && bool_decide (effective = st_expired)) then
    inl ("“status” says " +++ status_text status +++ ", but the row’s dates and redemptions describe a code that is " +++
         status_text effective +++ ".")
  else
    inr {| cw_row := row; cw_code := code; cw_campaign := campaign; cw_grantMicros := grantMicros;
           cw_maxRedemptions := maxRedemptions; cw_redemptionCount := redemptionCount; cw_expiresAt := expiresAt;
           cw_disabledAt := disabledAt; cw_note := present (Some note); cw_createdAt := createdAt;
           cw_redeemers := redeemers; cw_status := effective |}
  end end end end end end end.

Definition file_message (m : jstr) : refused_file := InviteCodesCsvRefusedError m.

(** One record after the header. *)
Definition read_step (now : Z) (acc : InviteCodesCsvReading) (indexed : nat * list jstr) : InviteCodesCsvReading :=
  let row := Z.of_nat (fst indexed) + 2 in
  match readRow (snd indexed) row now with
  | inl message =>
      {| rg_rows := rg_rows acc; rg_repeated := rg_repeated acc; rg_errors := rg_errors acc ++ [{| ce_row := row; ce_message := message |}] |}
  | inr read =>
      if existsb (fun r => jeqb (cw_code r) (cw_code read)) (rg_rows acc)
      then {| rg_rows := rg_rows acc; rg_repeated := rg_repeated acc ++ [read]; rg_errors := rg_errors acc |}
      else {| rg_rows := rg_rows acc ++ [read]; rg_repeated := rg_repeated acc; rg_errors := rg_errors acc |}
  end.

Definition nothing_read : InviteCodesCsvReading := {| rg_rows := []; rg_repeated := []; rg_errors := [] |}.

Definition readInviteCodesCsv (text : jstr) (now : Z) : result refused_file InviteCodesCsvReading :=
  match parseCsv text with
  | Err (CsvSyntaxError message _) => Err (file_message ("This file is not valid CSV. " +++ message))
  | Ok records =>
      match records with
      | header :: data =>
          if negb (sameHeader header) then
            Err (file_message ("This is not an invitation codes export. Its first row must be exactly: " +++
                   jjoin "," INVITE_CODES_CSV_HEADER))
          else if (length data =? 0)%nat then Err (file_message "The file has a header and no codes.")
          else if MAX_INVITE_CODES_CSV_ROWS <? Z.of_nat (length data) then
            Err (file_message ("The file has " +++ jstring_of_Z (Z.of_nat (length data)) +++ " rows; one import takes at most " +++
                   jstring_of_Z MAX_INVITE_CODES_CSV_ROWS +++ "."))
          else Ok (foldl (read_step now) nothing_read (imap pair data))
      | [] =>
          Err (file_message ("This is not an invitation codes export. Its first row must be exactly: " +++
                 jjoin "," INVITE_CODES_CSV_HEADER))
      end
  end.
End Read.

(** ** The service *)

Definition EXPORT_PAGE : Z := 500.
Definition REPORT_LIST_CAP : nat := 200.

Inductive duplicate_reason := already_present | repeated_in_file.

Record InviteCodeImportDuplicate := { du_row : Z; du_code : jstr; du_reason : duplicate_reason }.

Record InviteCodesImportReport := {
  re_sha256 : jstr;
  re_applied : bool;
  re_ok : bool;
  re_totalRows : Z;
  re_toCreate : InviteCodeStatus -> Z;
  re_createCount : Z;
  re_campaigns : Z;
  re_redemptionsLinked : Z;
  re_redemptionsUnlinked : Z;
  re_duplicateCount : Z;
  re_duplicates : list InviteCodeImportDuplicate;
  re_errorCount : Z;
  re_errors : list InviteCodeCsvRowError
}.

Record InviteCodesExport := { ex_csv : jstr; ex_count : Z }.

(** The tables the transfer reads and writes. *)
Record Invitations := { iv_db : Store; iv_carried : list InviteCarriedRedemption; iv_accounts : list Account }.

Inductive import_error := file_refused (e : refused_file) | from_database (e : error).

Section Service.
Context `{U : UrlPlatform}.
Context (toUpperCase toLowerCase : jstr -> jstr) (other_date : jstr -> option Z) (sha256_hex : jstr -> jstr).

Definition source_of (code : AdminInviteCode) : InviteCodeCsvSource :=
  let c := am_row code in
  {| sc_code := ic_code c; sc_campaign := ic_campaign c; sc_grantMicros := ic_grantMicros c; sc_status := am_status code;
     sc_redeemers := map (fun r => {| cv_email := InviteAdmin.rd_email r; cv_redeemedAt := InviteAdmin.rd_redeemedAt r |}) (am_redeemers code);
     sc_createdAt := ic_createdAt c; sc_expiresAt := ic_expiresAt c; sc_disabledAt := ic_disabledAt c;
     sc_maxRedemptions := ic_maxRedemptions c; sc_note := ic_note c |}.

(** One page after another from [offset]; [fuel] bounds the pages. *)
Fixpoint export_from (fuel : nat) (filter : InviteCodeFilter) (landingBaseUrl : jstr) (now : Z) (s : Invitations) (offset : Z)
    (csv : jstr) (count : Z) : option InviteCodesExport :=
  match fuel with
  | O => None
  | S fuel =>
      let page := codes toLowerCase {| cf_campaign := cf_campaign filter; cf_status := cf_status filter; cf_offset := offset;
                                       cf_limit := EXPORT_PAGE |} now (iv_db s) (iv_accounts s) (iv_carried s) in
      rows ← mapM (fun code => inviteCodesCsvRow (source_of code) landingBaseUrl) (pg_nodes page);
      let csv := foldl japp csv rows in
      let count := count + Z.of_nat (length (pg_nodes page)) in
      if Z.of_nat (length (pg_nodes page)) <? EXPORT_PAGE then Some {| ex_csv := csv; ex_count := count |}
      else export_from fuel filter landingBaseUrl now s (offset + EXPORT_PAGE) csv count
  end.

(** One page per code and one more are enough; [None] is the [TypeError] of a landing page that is no URL. *)
Definition export (filter : InviteCodeFilter) (landingBaseUrl : jstr) (now : Z) (s : Invitations) : option InviteCodesExport :=
  export_from (S (size (invite_codes (iv_db s)))) filter landingBaseUrl now s 0 inviteCodesCsvHeader 0.

Definition code_here (db : Store) (code : jstr) : bool :=
  existsb (fun kc => jeqb (ic_code (snd kc)) code) (map_to_list (invite_codes db)).

Definition row_first (a b : InviteCodeImportDuplicate) : bool := du_row a <? du_row b.

Definition campaign_count (rows : list InviteCodeCsvRow) : Z := Z.of_nat (length (distinct [] (map cw_campaign rows))).

Definition planWithin (csv : jstr) (now : Z) (s : Invitations) : result refused_file (InviteCodesImportReport * list InviteCodeCsvRow) :=
  reading ← readInviteCodesCsv toUpperCase toLowerCase other_date csv now;
  let here row := code_here (iv_db s) (cw_code row) in
  let writes := List.filter (fun row => negb (here row)) (rg_rows reading) in
  let duplicate reason row := {| du_row := cw_row row; du_code := maskInviteCode (cw_code row); du_reason := reason |} in
  let duplicates := sort_by row_first
    (map (duplicate already_present) (List.filter here (rg_rows reading)) ++
     map (duplicate repeated_in_file) (rg_repeated reading)) in
  let addresses := concat (map (fun row => omap (fun r => present (cv_email r)) (cw_redeemers row)) writes) in
  let redemptions := sumZ (map (fun row => Z.of_nat (length (cw_redeemers row))) writes) in
  let linked := countZ (fun a => is_some (account_of toLowerCase (iv_accounts s) addresses a)) addresses in
  Ok ({| re_sha256 := sha256_hex csv; re_applied := false;
         re_ok := match rg_errors reading with [] => true | _ => false end;
         re_totalRows := Z.of_nat (length (rg_rows reading) + length (rg_repeated reading) + length (rg_errors reading));
         re_toCreate := fun status => countZ (fun row => bool_decide (cw_status row = status)) writes;
         re_createCount := Z.of_nat (length writes); re_campaigns := campaign_count writes;
         re_redemptionsLinked := linked; re_redemptionsUnlinked := redemptions - linked;
         re_duplicateCount := Z.of_nat (length duplicates); re_duplicates := take REPORT_LIST_CAP duplicates;
         re_errorCount := Z.of_nat (length (rg_errors reading)); re_errors := take REPORT_LIST_CAP (rg_errors reading) |}, writes).

Definition plan (csv : jstr) (now : Z) (s : Invitations) : result refused_file InviteCodesImportReport :=
  fst <$> planWithin csv now s.

Definition imported_code (row : InviteCodeCsvRow) : InviteCode :=
  {| ic_code := cw_code row; ic_grantMicros := cw_grantMicros row; ic_campaign := cw_campaign row;
     ic_maxRedemptions := cw_maxRedemptions row; ic_redemptionCount := cw_redemptionCount row; ic_expiresAt := cw_expiresAt row;
     ic_disabledAt := cw_disabledAt row; ic_note := cw_note row; ic_issuedByUserId := None; ic_createdAt := cw_createdAt row |}.

(** [code_uuid i] and [carried_uuid i j] are the identifiers drawn for the [i]-th row
    and for its [j]-th redeemer. *)
Definition carried_rows (code_uuid : nat -> jstr) (carried_uuid : nat -> nat -> jstr) (now : Z) (writes : list InviteCodeCsvRow)
    : list InviteCarriedRedemption :=
  concat (imap (fun i row => imap (fun j r =>
    {| cr_id := carried_uuid i j; cr_inviteCodeId := code_uuid i; cr_email := cv_email r; cr_redeemedAt := cv_redeemedAt r;
       cr_importedAt := now |}) (cw_redeemers row)) writes).

Definition insert_carried (rows table : list InviteCarriedRedemption) : result error (list InviteCarriedRedemption) :=
  foldl (fun acc row => table ← acc;
                        throw UniqueViolation when existsb (fun r => jeqb (cr_id r) (cr_id row)) table;
                        Ok (table ++ [row])) (Ok table) rows.

(** The whole import is one transaction. *)
Definition apply (code_uuid : nat -> jstr) (carried_uuid : nat -> nat -> jstr) (csv : jstr) (now : Z) (s : Invitations)
    : Invitations * result import_error InviteCodesImportReport :=
  match planWithin csv now s with
  | Err e => (s, Err (file_refused e))
  | Ok (report, writes) =>
      if negb (re_ok report) then (s, Ok report)
      else
        match insert_invite_codes (imap (fun i row => (code_uuid i, imported_code row)) writes) (invite_codes (iv_db s)) with
        | Err e => (s, Err (from_database e))
        | Ok codes' =>
            match insert_carried (carried_rows code_uuid carried_uuid now writes) (iv_carried s) with
            | Err e => (s, Err (from_database e))
            | Ok carried' =>
                ({| iv_db := set_invite_codes (fun _ => codes') (iv_db s); iv_carried := carried'; iv_accounts := iv_accounts s |},
                 Ok {| re_sha256 := re_sha256 report; re_applied := true; re_ok := re_ok report;
                       re_totalRows := re_totalRows report; re_toCreate := re_toCreate report;
                       re_createCount := re_createCount report; re_campaigns := re_campaigns report;
                       re_redemptionsLinked := re_redemptionsLinked report;
                       re_redemptionsUnlinked := re_redemptionsUnlinked report;
                       re_duplicateCount := re_duplicateCount report; re_duplicates := re_duplicates report;
                       re_errorCount := re_errorCount report; re_errors := re_errors report |})
            end
        end
  end.
End Service.

(** ** Lemmas: amounts, instants and cells *)













(** ** What can be carried *)

Section Portable.
Context (toUpperCase toLowerCase : jstr -> jstr) (other_date : jstr -> option Z).



Definition source_at (now : Z) (c : InviteCode) (rs : list InviteCodeCsvRedeemer) : InviteCodeCsvSource :=
  {| sc_code := ic_code c; sc_campaign := ic_campaign c; sc_grantMicros := ic_grantMicros c; sc_status := status_of c now;
     sc_redeemers := rs; sc_createdAt := ic_createdAt c; sc_expiresAt := ic_expiresAt c; sc_disabledAt := ic_disabledAt c;
     sc_maxRedemptions := ic_maxRedemptions c; sc_note := ic_note c |}.


Hypothesis upper_ascii : forall s, Forall (fun c => (c < 128)%N) (units s) -> toUpperCase s = Js (map upper_unit (units s)).
Hypothesis lower_empty : toLowerCase (Js []) = Js [].






























End Portable.

(** ** Lemmas: what a row that reads holds *)

Section Rows.
Context (toUpperCase toLowerCase : jstr -> jstr) (other_date : jstr -> option Z).

Notation readRow := (readRow toUpperCase toLowerCase other_date).
Notation read_step := (read_step toUpperCase toLowerCase other_date).

(** A row that was read: within its bounds, standing where it says, and as its status column says. *)
Record sound_row (now : Z) (r : InviteCodeCsvRow) : Prop := {
  s_code : looksLikeInviteCode (cw_code r) = true;
  s_campaign : isInviteCampaignTag (cw_campaign r) = true;
  s_grant : 0 < cw_grantMicros r <= MAX_SAFE_INTEGER;
  s_seats : 1 <= cw_maxRedemptions r <= MAX_SEATS;
  s_taken : Z.of_nat (length (cw_redeemers r)) <= cw_redemptionCount r <= cw_maxRedemptions r;
  s_status : status_of (imported_code r) now = cw_status r
}.

Lemma usd_to_micros_bounds value m : usd_to_micros value = Some m -> 0 < m <= MAX_SAFE_INTEGER.
Proof.
  unfold usd_to_micros. destruct (usd_match _) as [[w f]|]; [|done]. destruct (_ <? _)%nat; [done|].
  destruct (isSafeInteger _ && _) eqn:E; [|done]. intros [= <-]. apply andb_true_iff in E as [E1 E2%Z.ltb_lt].
  unfold isSafeInteger in E1. apply andb_true_iff in E1 as [_ E1%Z.leb_le]. split; [exact E2|exact E1].
Qed.

Lemma seats_of_bounds raw n : seats_of raw = Some n -> 1 <= n <= MAX_SEATS.
Proof.
  unfold seats_of. destruct (_ && _) eqn:E; [|done]. intros [= <-].
  apply andb_true_iff in E as [[_ E1%Z.leb_le]%andb_true_iff E2%Z.leb_le]. lia.
Qed.

Lemma readRow_sound fields row now r : readRow fields row now = inr r -> sound_row now r.
Proof.
  unfold readRow. destruct (negb (length fields =? _)%nat); [done|].
  destruct (negb (looksLikeInviteCode _)) eqn:Ec; [done|]. apply negb_false_iff in Ec.
  destruct (negb (isInviteCampaignTag _)) eqn:Et; [done|]. apply negb_false_iff in Et.
  destruct (usd_to_micros _) as [m|] eqn:Em; [|done]. destruct (find_first _ STATUSES) as [st|]; [|done].
  destruct (instant _ _) as [created|]; [|done]. destruct (optional_instant _ (column fields 8)) as [expires|]; [|done].
  destruct (optional_instant _ (column fields 9)) as [withdrawn|]; [|done]. destruct (seats_of _) as [seats|] eqn:Es; [|done].
  destruct (512 <? _); [done|]. destruct (readRedeemers _ _ _ _) as [|rs]; [done|].
  destruct (seats <? _) eqn:Er; [done|]. apply Z.ltb_ge in Er.
  destruct (written_code st seats rs withdrawn now) as [taken at_] eqn:Ew.
  destruct (negb _ && negb _); [done|]. intros [= <-].
  assert (Ht : Z.of_nat (length rs) <= taken <= seats) by (unfold written_code in Ew; destruct st; injection Ew as <- <-; lia).
  split; cbn; try done; [by eapply usd_to_micros_bounds|by eapply seats_of_bounds].
Qed.

Lemma read_steps_sound now records : forall acc, Forall (sound_row now) (rg_rows acc) ->
  Forall (sound_row now) (rg_rows (foldl (read_step now) acc records)).
Proof.
  induction records as [|[i fields] records IH]; intros acc Hacc; [done|]. cbn [foldl]. apply IH. unfold InviteCsv.read_step. cbn [fst snd].
  destruct (readRow _ _ _) as [m|r] eqn:E; [done|]. destruct (existsb _ _); cbn [rg_rows]; [done|].
  apply Forall_app. split; [done|]. constructor; [by eapply readRow_sound|done].
Qed.

Lemma read_file_sound csv now reading : readInviteCodesCsv toUpperCase toLowerCase other_date csv now = Ok reading ->
  Forall (sound_row now) (rg_rows reading).
Proof.
  unfold readInviteCodesCsv. destruct (parseCsv csv) as [[|header data]|[]]; try done.
  destruct (negb _); [done|]. destruct (_ =? 0)%nat; [done|]. destruct (_ <? _); [done|]. intros [= <-].
  by apply read_steps_sound.
Qed.

(** What the cells of a record say, as the row read from it holds it. *)
Record says (now : Z) (fields : list jstr) (row : InviteCodeCsvRow) : Prop := {
  sy_code : cw_code row = normaliseInviteCode toUpperCase (column fields 0);
  sy_campaign : cw_campaign row = column fields 2;
  sy_grant : usd_to_micros (column fields 3) = Some (cw_grantMicros row);
  sy_redeemers : readRedeemers toLowerCase other_date (column fields 5) (column fields 6) = inr (cw_redeemers row);
  sy_createdAt : instant other_date (column fields 7) = Some (cw_createdAt row);
  sy_expiresAt : if jlength (column fields 8) =? 0 then cw_expiresAt row = None
                 else is_Some (cw_expiresAt row) /\ instant other_date (column fields 8) = cw_expiresAt row;
  sy_withdrawnAt : if jlength (column fields 9) =? 0
                   then cw_disabledAt row = if jeqb (column fields 4) "withdrawn" then Some now else None
                   else is_Some (cw_disabledAt row) /\ instant other_date (column fields 9) = cw_disabledAt row;
  sy_seats : seats_of (column fields 10) = Some (cw_maxRedemptions row);
  sy_taken : cw_redemptionCount row =
             if jeqb (column fields 4) "redeemed" then cw_maxRedemptions row else Z.of_nat (length (cw_redeemers row));
  sy_note : cw_note row = present (Some (unguardCsvField (default (Js []) (fields !! 11%nat))))
}.

Lemma status_named st cell : find_first (fun s => jeqb (status_text s) cell) STATUSES = Some st -> cell = status_text st.
Proof.
  unfold STATUSES, find_first. cbn [List.find].
  repeat (destruct (jeqb _ cell) eqn:?; [intros [= <-]; by apply jeqb_eq in Heqb|clear Heqb]). done.
Qed.

Lemma optional_instant_says raw o : optional_instant other_date raw = Some o ->
  if jlength raw =? 0 then o = None else is_Some o /\ instant other_date raw = o.
Proof.
  unfold optional_instant. destruct (jlength raw =? 0); [by intros [= <-]|].
  destruct (instant other_date raw) as [t|]; [|done]. intros [= <-]. by split; [eexists|].
Qed.

Lemma readRow_says fields row now r : readRow fields row now = inr r -> says now fields r /\ cw_row r = row.
Proof.
  unfold readRow. destruct (negb (length fields =? _)%nat); [done|].
  destruct (negb (looksLikeInviteCode _)); [done|]. destruct (negb (isInviteCampaignTag _)); [done|].
  destruct (usd_to_micros _) as [m|] eqn:Em; [|done]. destruct (find_first _ STATUSES) as [st|] eqn:Est; [|done].
  apply status_named in Est.
  destruct (instant _ _) as [created|] eqn:Ei; [|done].
  destruct (optional_instant _ (column fields 8)) as [expires|] eqn:E8; [|done]. apply optional_instant_says in E8.
  destruct (optional_instant _ (column fields 9)) as [withdrawn|] eqn:E9; [|done]. apply optional_instant_says in E9.
  destruct (seats_of _) as [seats|] eqn:Es; [|done].
  destruct (512 <? _); [done|]. destruct (readRedeemers _ _ _ _) as [|rs] eqn:Er; [done|].
  destruct (seats <? _); [done|]. destruct (written_code st seats rs withdrawn now) as [taken at_] eqn:Ew.
  destruct (negb _ && negb _); [done|]. intros [= <-]. split; [|done].
  unfold written_code in Ew. split; cbn; rewrite ?Est; try done.
  - destruct (jlength (column fields 9) =? 0); [subst withdrawn; by destruct st; injection Ew as <- <-|].
    destruct E9 as [[t ->] E9]. destruct st; injection Ew as <- <-; (split; [by eexists|done]).
  - by destruct st; injection Ew as <- <-.
Qed.

(** The code a record names. *)
Definition code_named (fields : list jstr) : jstr := normaliseInviteCode toUpperCase (column fields 0).

Record read_of (now : Z) (records : list (nat * list jstr)) (reading : InviteCodesCsvReading) : Prop := {
  ro_rows : forall row, row ∈ rg_rows reading -> exists i fields, (i, fields) ∈ records /\ cw_row row = Z.of_nat i + 2 /\ says now fields row;
  ro_once : NoDup (map cw_code (rg_rows reading));
  ro_all : rg_errors reading = [] -> forall i fields, (i, fields) ∈ records -> code_named fields ∈ map cw_code (rg_rows reading)
}.

Lemma read_step_of now records acc i fields : read_of now records acc ->
  read_of now (records ++ [(i, fields)]) (read_step now acc (i, fields)).
Proof.
  intros [H1 H2 H3]. unfold InviteCsv.read_step. cbn [fst snd].
  assert (Hold : forall row, row ∈ rg_rows acc -> exists j fs, (j, fs) ∈ records ++ [(i, fields)] /\ cw_row row = Z.of_nat j + 2 /\ says now fs row).
  { intros row (j & fs & Hj & ?)%H1. exists j, fs. split; [apply elem_of_app; by left|done]. }
  destruct (readRow _ _ _) as [m|r] eqn:E.
  - split; cbn [rg_rows rg_errors]; [done|done|]. intros Hn. by apply app_eq_nil in Hn as [_ Hn].
  - apply readRow_says in E as [Hs Hr].
    destruct (existsb _ _) eqn:Ex; (split; cbn [rg_rows rg_errors]).
    + done.
    + done.
    + intros Hn j fs [Hj|[= -> ->]%list_elem_of_singleton]%elem_of_app; [by eapply H3|].
      apply existsb_exists in Ex as (x & Hx%list_elem_of_In & Ec%jeqb_eq). unfold code_named. rewrite <- (sy_code _ _ _ Hs), <- Ec.
      by apply list_elem_of_fmap_2.
    + intros row [Hin| ->%list_elem_of_singleton]%elem_of_app; [by apply Hold|]. exists i, fields. split_and!; [|done|done].
      apply elem_of_app. right. by apply list_elem_of_singleton.
    + rewrite map_app. cbn [map]. apply NoDup_app. split_and!; [done| |apply NoDup_singleton].
      intros c Hc ->%list_elem_of_singleton. apply not_true_iff_false in Ex. apply Ex, existsb_exists.
      apply list_elem_of_fmap in Hc as (x & Hx1 & Hx2%list_elem_of_In). exists x. split; [done|]. by rewrite Hx1, jeqb_refl.
    + intros Hn j fs Hj. rewrite map_app. apply elem_of_app. apply elem_of_app in Hj as [Hj|[= -> ->]%list_elem_of_singleton].
      * left. by eapply H3.
      * right. apply list_elem_of_singleton. unfold code_named. by rewrite <- (sy_code _ _ _ Hs).
Qed.

Lemma read_steps_of now records : forall before acc, read_of now before acc ->
  read_of now (before ++ records) (foldl (read_step now) acc records).
Proof.
  induction records as [|[i fields] records IH]; intros before acc H; cbn [foldl]; [by rewrite app_nil_r|].
  rewrite cons_middle, app_assoc. apply IH. by apply read_step_of.
Qed.

Lemma read_file_of csv now reading : readInviteCodesCsv toUpperCase toLowerCase other_date csv now = Ok reading ->
  exists header data, parseCsv csv = Ok (header :: data) /\ read_of now (imap pair data) reading.
Proof.
  unfold readInviteCodesCsv. destruct (parseCsv csv) as [[|header data]|[]]; try done.
  destruct (negb _); [done|]. destruct (_ =? 0)%nat; [done|]. destruct (_ <? _); [done|]. intros [= <-].
  exists header, data. split; [done|]. apply (read_steps_of now (imap pair data) []).
  split; cbn; [by intros row ?%not_elem_of_nil|constructor|by intros _ i fields ?%not_elem_of_nil].
Qed.

(** A code that is not live is never redeemed, then or later. *)
Lemma not_active_is_closed c now t : now <= t -> status_of c now <> st_active -> seat_free t c = false.
Proof.
  intros Ht. unfold status_of, inviteCodeStatus, seat_free. destruct (ic_disabledAt c); [by rewrite andb_false_r|].
  destruct (ic_maxRedemptions c <=? ic_redemptionCount c) eqn:E; [intros _; by rewrite (proj2 (Z.ltb_ge _ _)) by (by apply Z.leb_le)|].
  destruct (ic_expiresAt c) as [e|]; [|done]. destruct (Z.leb_spec e now); [|done]. intros _.
  by rewrite (proj2 (Z.ltb_ge t e)), andb_false_r by lia.
Qed.

(** *** Reading a whole file back *)


Hypothesis upper_ascii : forall s, Forall (fun c => (c < 128)%N) (units s) -> toUpperCase s = Js (map upper_unit (units s)).
Hypothesis lower_empty : toLowerCase (Js []) = Js [].



End Rows.

(** ** Theorems *)

Section Theorems.
Context `{U : UrlPlatform}.
Context (toUpperCase toLowerCase : jstr -> jstr) (other_date : jstr -> option Z) (sha256_hex : jstr -> jstr).

(** The text of a file: the header and one line per code. *)
Definition file_of (lines : list jstr) : jstr := Js (concat (map units (inviteCodesCsvHeader :: lines))).









Lemma insert_carried_ok rows : forall table table', insert_carried rows table = Ok table' -> table' = table ++ rows.
Proof.
  unfold insert_carried. induction rows as [|row rows IH]; intros table table'; cbn [foldl]; [intros [= <-]; by rewrite app_nil_r|].
  cbn [mbind result_bind]. destruct (existsb _ table); cbn.
  - intros H. exfalso. revert H. clear. induction rows as [|r rows IH]; [done|exact IH].
  - intros ->%IH. by rewrite <- app_assoc.
Qed.

Lemma elem_of_carried code_uuid carried_uuid now writes x :
  x ∈ carried_rows code_uuid carried_uuid now writes <->
  exists i row j r, writes !! i = Some row /\ cw_redeemers row !! j = Some r /\
    x = {| cr_id := carried_uuid i j; cr_inviteCodeId := code_uuid i; cr_email := cv_email r; cr_redeemedAt := cv_redeemedAt r;
           cr_importedAt := now |}.
Proof.
  unfold carried_rows. rewrite list_elem_of_In, in_concat. split.
  - intros (l & Hl%list_elem_of_In & Hx%list_elem_of_In). apply elem_of_lookup_imap in Hl as (i & row & -> & Hi).
    apply elem_of_lookup_imap in Hx as (j & r & -> & Hj). by exists i, row, j, r.
  - intros (i & row & j & r & Hi & Hj & ->). eexists. split; apply list_elem_of_In.
    + apply elem_of_lookup_imap. by exists i, row.
    + apply elem_of_lookup_imap. by exists j, r.
Qed.

(** A deployment holds a code. *)
Definition held (db : Store) (code : jstr) : Prop := exists id c, invite_codes db !! id = Some c /\ ic_code c = code.

Lemma code_here_held db code : code_here db code = true <-> held db code.
Proof.
  unfold code_here, held. rewrite existsb_exists. split.
  - intros ([id c] & Hin%list_elem_of_In%elem_of_map_to_list & Hc%jeqb_eq). by exists id, c.
  - intros (id & c & Hin & <-). exists (id, c). split; [by apply list_elem_of_In, elem_of_map_to_list|apply jeqb_refl].
Qed.

(** The row of the file, as a row of the table. *)
Record arrived (now : Z) (row : InviteCodeCsvRow) (c : InviteCode) : Prop := {
  av_code : ic_code c = cw_code row;
  av_campaign : ic_campaign c = cw_campaign row;
  av_grant : ic_grantMicros c = cw_grantMicros row;
  av_seats : ic_maxRedemptions c = cw_maxRedemptions row;
  av_taken : ic_redemptionCount c = cw_redemptionCount row;
  av_createdAt : ic_createdAt c = cw_createdAt row;
  av_expiresAt : ic_expiresAt c = cw_expiresAt row;
  av_disabledAt : ic_disabledAt c = cw_disabledAt row;
  av_note : ic_note c = cw_note row;
  av_issuer : ic_issuedByUserId c = None;
  av_bounds : 0 < ic_grantMicros c <= MAX_SAFE_INTEGER /\ 1 <= ic_maxRedemptions c <= MAX_SEATS /\
              0 <= ic_redemptionCount c <= ic_maxRedemptions c;
  av_status : status_of c now = cw_status row;
  av_closed : cw_status row <> st_active -> forall t, now <= t -> seat_free t c = false
}.

Lemma imported_code_arrives now row : sound_row now row -> arrived now row (imported_code row).
Proof.
  intros [H1 H2 H3 H4 H5 H6]. split; cbn; try done; [split_and!; lia|]. intros Hst t Ht. apply (not_active_is_closed _ now); [done|].
  by rewrite H6.
Qed.

(** What an applied import of a file has made of the tables: [records] are the file's,
    [writes] the rows written, numbered as their identifiers are drawn. *)
Record imported (code_uuid : nat -> jstr) (carried_uuid : nat -> nat -> jstr) (now : Z) (records : list (list jstr))
    (writes : list InviteCodeCsvRow) (s s' : Invitations) : Prop := {
  im_rows : Forall (fun row => ~ held (iv_db s) (cw_code row) /\
                       exists i fields, records !! i = Some fields /\ says toUpperCase toLowerCase other_date now fields row) writes;
  im_once : NoDup (map cw_code writes);
  im_all : Forall (fun fields => held (iv_db s) (code_named toUpperCase fields) \/
                                 code_named toUpperCase fields ∈ map cw_code writes) records;
  im_codes : forall i row, writes !! i = Some row -> invite_codes (iv_db s) !! code_uuid i = None /\
               exists c, invite_codes (iv_db s') !! code_uuid i = Some c /\ arrived now row c;
  im_others : forall id, (forall i row, writes !! i = Some row -> id <> code_uuid i) ->
                invite_codes (iv_db s') !! id = invite_codes (iv_db s) !! id;
  im_carried : exists carried, iv_carried s' = iv_carried s ++ carried /\
    forall x, x ∈ carried <-> exists i row j r, writes !! i = Some row /\ cw_redeemers row !! j = Some r /\
      x = {| cr_id := carried_uuid i j; cr_inviteCodeId := code_uuid i; cr_email := cv_email r; cr_redeemedAt := cv_redeemedAt r;
             cr_importedAt := now |};
  im_rest : workspaces (iv_db s') = workspaces (iv_db s) /\ credit_transactions (iv_db s') = credit_transactions (iv_db s) /\
            invite_redemptions (iv_db s') = invite_redemptions (iv_db s) /\ iv_accounts s' = iv_accounts s;
  im_unique : codes_unique (invite_codes (iv_db s)) -> codes_unique (invite_codes (iv_db s'))
}.

Lemma inserted_rows code_uuid writes codes codes' :
  inserted (imap (fun i row => (code_uuid i, imported_code row)) writes) codes codes' ->
  (forall i row, writes !! i = Some row -> codes !! code_uuid i = None /\ codes' !! code_uuid i = Some (imported_code row)) /\
  (forall id, (forall i row, writes !! i = Some row -> id <> code_uuid i) -> codes' !! id = codes !! id).
Proof.
  intros (Hnd & Hnew & ->). split.
  - intros i row Hi. assert (Hin : (code_uuid i, imported_code row) ∈ imap (fun i row => (code_uuid i, imported_code row)) writes).
    { apply elem_of_lookup_imap. by exists i, row. }
    rewrite Forall_forall in Hnew. split; [exact (Hnew _ Hin)|]. apply lookup_union_Some_l. by apply elem_of_list_to_map_1.
  - intros id Hid. apply lookup_union_r, not_elem_of_list_to_map_1. intros ([id' c] & -> & Hin)%list_elem_of_fmap.
    apply elem_of_lookup_imap in Hin as (i & row & [= -> _] & Hi). by apply (Hid i row Hi).
Qed.

(** C23. An import is all or nothing, and a code arrives as the file has it: a file with
    a malformed row, or one the database refuses, changes nothing.  Otherwise every record
    names a code that was already here or is written, once; a written code was not here,
    holds the terms, campaign, grant, seats, dates and note of its record's cells, counts
    the redemptions listed (all its seats when the record says redeemed), stands where the
    report says, and when that is not live can never be redeemed here; its redeemers are
    carried over one by one under its identifier, with their addresses and dates.  No
    code, account, credit, redemption or carried redemption already here is touched. *)
Theorem imported_codes_arrive_as_they_stood code_uuid carried_uuid csv now s s' r :
  apply toUpperCase toLowerCase other_date sha256_hex code_uuid carried_uuid csv now s = (s', r) ->
  match r with
  | Err _ => s' = s
  | Ok report =>
      if re_applied report then
        exists header records writes, parseCsv csv = Ok (header :: records) /\ re_ok report = true /\
          Z.of_nat (length writes) = re_createCount report /\
          (forall status, re_toCreate report status = countZ (fun row => bool_decide (cw_status row = status)) writes) /\
          imported code_uuid carried_uuid now records writes s s'
      else s' = s /\ re_ok report = false
  end.
Proof.
  unfold apply, planWithin. destruct (readInviteCodesCsv _ _ _ _ _) as [reading|e] eqn:Er; [|by intros [= <- <-]].
  cbn [mbind result_bind re_ok]. destruct (rg_errors reading) as [|err errs] eqn:Ee; [|by intros [= <- <-]]. cbn [negb].
  destruct (insert_invite_codes _ _) as [codes'|e] eqn:Ei; [|by intros [= <- <-]].
  destruct (insert_carried _ _) as [carried'|e] eqn:Ec; [|by intros [= <- <-]]. intros [= <- <-]. cbn [re_applied re_ok re_createCount re_toCreate].
  apply insert_invite_codes_ok in Ei as [Hins Huniq]. apply insert_carried_ok in Ec as ->.
  pose proof (read_file_sound _ _ _ _ _ _ Er) as Hsound. rewrite Forall_forall in Hsound.
  destruct (read_file_of _ _ _ _ _ _ Er) as (header & records & Hp & [R1 R2 R3]). apply inserted_rows in Hins as [Hnew Hold].
  set (writes := List.filter _ _) in *. exists header, records, writes. do 4 (split; [done|]).
  assert (Hw : forall row, row ∈ writes -> row ∈ rg_rows reading /\ ~ held (iv_db s) (cw_code row)).
  { intros row [Hrow Hnot%negb_true_iff]%elem_of_filter_b. split; [done|]. rewrite <- code_here_held. congruence. }
  split; cbn [iv_db iv_carried iv_accounts]; try done.
  - apply Forall_forall. intros row [Hrow Hnot]%Hw. split; [done|]. destruct (R1 row Hrow) as (i & fields & Hin & _ & Hs).
    exists i, fields. apply elem_of_lookup_imap in Hin as (j & x & [= -> ->] & Hj). by split.
  - eapply sublist_NoDup; [apply map_sublist, filter_sublist|exact R2].
  - apply Forall_forall. intros fields (i & Hi)%list_elem_of_lookup.
    assert (Hin : code_named toUpperCase fields ∈ map cw_code (rg_rows reading)) by (eapply (R3 Ee i), elem_of_lookup_imap; by exists i, fields).
    apply list_elem_of_fmap in Hin as (row & Hc & Hrow).
    rewrite Hc. destruct (code_here (iv_db s) (cw_code row)) eqn:Eh; [left; by apply code_here_held|]. right.
    apply list_elem_of_fmap_2, elem_of_filter_b. by rewrite Eh.
  - intros i row Hi. destruct (Hnew i row Hi) as [Hn Hs]. split; [done|]. eexists. split; [exact Hs|].
    apply imported_code_arrives, Hsound, Hw. by eapply list_elem_of_lookup_2.
  - eexists. split; [done|]. intros x. apply elem_of_carried.
Qed.

(** What a line of the file is the line of. *)
Definition line_of (landingBaseUrl : jstr) (now : Z) (row : jstr * InviteCode) (line : jstr) : Prop :=
  exists rs, inviteCodesCsvRow (source_at now (snd row) rs) landingBaseUrl = Some line.

Lemma mapM_total {A B} (f : A -> option B) l : (forall x, x ∈ l -> is_Some (f x)) ->
  exists k, mapM f l = Some k /\ Forall2 (fun x y => f x = Some y) l k.
Proof.
  induction l as [|x l IH]; intros H; [by exists []; split; [|constructor]|].
  destruct (H x ltac:(by left)) as [y Hy], IH as (k & Hk & Hf); [intros; apply H; by right|].
  exists (y :: k). cbn. rewrite Hy. cbn. rewrite Hk. by split; [|constructor].
Qed.

Lemma page_rows filter landingBaseUrl now s offset url : new_URL landingBaseUrl = Some url ->
  let page := codes toLowerCase {| cf_campaign := cf_campaign filter; cf_status := cf_status filter; cf_offset := offset;
                                   cf_limit := EXPORT_PAGE |} now (iv_db s) (iv_accounts s) (iv_carried s) in
  let rows := page_of offset EXPORT_PAGE (selected_codes filter now (iv_db s)) in
  length (pg_nodes page) = length rows /\
  exists lines, mapM (fun code => inviteCodesCsvRow (source_of code) landingBaseUrl) (pg_nodes page) = Some lines /\
    Forall2 (line_of landingBaseUrl now) rows lines.
Proof.
  intros Hurl page rows. unfold page, codes. cbn [pg_nodes cf_offset cf_limit].
  change (selected_codes _ now (iv_db s)) with (selected_codes filter now (iv_db s)). fold rows. split; [by rewrite length_map|].
  destruct (mapM_total (fun code => inviteCodesCsvRow (source_of code) landingBaseUrl)
    (map (admin_row toLowerCase (iv_accounts s) (carriedOf (iv_carried s) (map fst rows))
       (redemptionsOf (invite_redemptions (iv_db s)) (map fst rows)) now) rows)) as (lines & E & Hf).
  { intros code (row & -> & _)%list_elem_of_fmap. unfold inviteCodesCsvRow, inviteUrl. rewrite Hurl. cbn. by eexists. }
  exists lines. split; [exact E|]. rewrite Forall2_fmap_l in Hf. eapply Forall2_impl; [exact Hf|]. intros row line Hl. by eexists.
Qed.

Lemma export_from_spec filter landingBaseUrl now s url fuel : new_URL landingBaseUrl = Some url ->
  forall offset csv count, 0 <= offset ->
  (Z.to_nat (Z.of_nat (length (selected_codes filter now (iv_db s))) - offset) < fuel)%nat ->
  exists lines, export_from toLowerCase fuel filter landingBaseUrl now s offset csv count =
    Some {| ex_csv := foldl japp csv lines;
            ex_count := count + Z.of_nat (length (drop (Z.to_nat offset) (selected_codes filter now (iv_db s)))) |} /\
    Forall2 (line_of landingBaseUrl now) (drop (Z.to_nat offset) (selected_codes filter now (iv_db s))) lines.
Proof.
  intros Hurl. induction fuel as [|fuel IH]; intros offset csv count Ho Hfuel; [lia|]. cbn [export_from].
  destruct (page_rows filter landingBaseUrl now s offset url Hurl) as (Hlen & lines & -> & Hl). cbv zeta in Hlen. rewrite Hlen.
  cbn [mbind option_bind]. set (l := selected_codes filter now (iv_db s)) in *. unfold page_of in *.
  set (rest := drop (Z.to_nat offset) l) in *.
  destruct (Z.ltb_spec (Z.of_nat (length (take (Z.to_nat EXPORT_PAGE) rest))) EXPORT_PAGE) as [Hs|Hs].
  - exists lines. assert (Ht : take (Z.to_nat EXPORT_PAGE) rest = rest).
    { apply firstn_all2. rewrite length_take in Hs. unfold EXPORT_PAGE in *. lia. }
    by rewrite Ht in *.
  - rewrite length_take in *. unfold EXPORT_PAGE in *. assert (Hr : (500 <= length rest)%nat) by lia.
    assert (Hd : drop (Z.to_nat (offset + 500)) l = drop 500 rest) by (unfold rest; rewrite drop_drop; f_equal; lia).
    assert (Hll : (length rest = length l - Z.to_nat offset)%nat) by (unfold rest; apply length_drop).
    destruct (IH (offset + 500) (foldl japp csv lines) (count + Z.of_nat (length (take (Z.to_nat 500) rest)))) as (more & E & Hm); [lia|lia|].
    exists (lines ++ more). rewrite Hd in E, Hm. rewrite length_take in E. rewrite E, foldl_app. split.
    + do 2 f_equal. rewrite length_drop. lia.
    + rewrite <- (take_drop 500 rest). by apply Forall2_app.
Qed.

(** The export lists every code the filter names exactly once, in the order of the
    table, whatever the number of pages, each with its terms and where it stands now;
    it fails only on a landing page that is no URL. *)
Theorem export_lists_every_code filter landingBaseUrl now s url :
  new_URL landingBaseUrl = Some url ->
  let selected := selected_codes filter now (iv_db s) in
  exists lines, export toLowerCase filter landingBaseUrl now s =
    Some {| ex_csv := foldl japp inviteCodesCsvHeader lines; ex_count := Z.of_nat (length selected) |} /\
    Forall2 (line_of landingBaseUrl now) selected lines /\ NoDup (map fst selected) /\
    forall id c, (id, c) ∈ selected <-> invite_codes (iv_db s) !! id = Some c /\ code_selected filter now (id, c) = true.
Proof.
  intros Hurl selected.
  assert (Hn : NoDup (map fst selected)).
  { unfold selected, selected_codes. rewrite sort_by_perm. eapply sublist_NoDup; [apply map_sublist, filter_sublist|].
    apply NoDup_fst_map_to_list. }
  assert (Hsize : (length selected <= size (invite_codes (iv_db s)))%nat).
  { unfold selected, selected_codes. rewrite sort_by_perm. rewrite <- length_map_to_list. apply sublist_length, filter_sublist. }
  destruct (export_from_spec filter landingBaseUrl now s url (S (size (invite_codes (iv_db s)))) Hurl 0 inviteCodesCsvHeader 0)
    as (lines & E & Hl); [lia|fold selected; lia|].
  exists lines. split_and!; [exact E|exact Hl|exact Hn|]. intros id c. apply elem_of_selected.
Qed.
End Theorems.

(** ** Instances *)

#[local] Existing Instance url_platform_example.

Definition upper_text (s : jstr) : jstr := Js (map upper_unit (units s)).

Definition no_other_date (s : jstr) : option Z := None.


Definition live_item : InviteCode * list InviteCodeCsvRedeemer :=
  ({| ic_code := "BCDEFGHJ2345"; ic_grantMicros := 5000000; ic_campaign := "launch"; ic_maxRedemptions := 1;
      ic_redemptionCount := 0; ic_expiresAt := Some 172800000; ic_disabledAt := None; ic_note := None;
      ic_issuedByUserId := None; ic_createdAt := 86400000 |}, []).






Definition invitations_example : Invitations :=
  {| iv_db := admin_store ["u1"]; iv_carried := []; iv_accounts := accounts_example |}.

Definition file_example : jstr :=
  default (Js []) (file_of <$> mapM (fun item => inviteCodesCsvRow (source_at 90000000 (fst item) (snd item)) "https://example.com/?")
    [(code_example "CDEFGHJK2345" 1 None, [{| cv_email := Some "a@example.com"; cv_redeemedAt := 86400005 |}]); live_item]).

Definition code_uuid_example (i : nat) : jstr := "i" +++ jstring_of_Z (Z.of_nat i).
Definition carried_uuid_example (i j : nat) : jstr := "k" +++ jstring_of_Z (Z.of_nat i) +++ "-" +++ jstring_of_Z (Z.of_nat j).

(** Two codes are here; of the file's two, the redeemed one is new and stays redeemed. *)
Lemma imported_codes_arrive_as_they_stood_witness : exists s' report,
  apply upper_text lower_ascii no_other_date (fun s => s) code_uuid_example carried_uuid_example file_example 100000000
    invitations_example = (s', Ok report) /\
  re_createCount report = 1 /\ re_duplicateCount report = 1 /\ re_redemptionsLinked report = 1 /\
  invite_redemptions (iv_db s') = invite_redemptions (iv_db invitations_example).
Proof.
  destruct (apply upper_text lower_ascii no_other_date (fun s => s) code_uuid_example carried_uuid_example file_example 100000000
    invitations_example) as [s' r] eqn:E.
  pose proof (imported_codes_arrive_as_they_stood upper_text lower_ascii no_other_date (fun s => s) code_uuid_example
    carried_uuid_example file_example 100000000 invitations_example s' r E) as H.
  assert (Hr : match r with Ok report => re_applied report = true /\ re_createCount report = 1 /\ re_duplicateCount report = 1 /\
      re_redemptionsLinked report = 1 | Err _ => False end).
  { replace r with (snd (apply upper_text lower_ascii no_other_date (fun s => s) code_uuid_example carried_uuid_example
      file_example 100000000 invitations_example)) by (by rewrite E). vm_compute. split_and!; reflexivity. }
  destruct r as [report|]; [|destruct Hr]. destruct Hr as (Ha & Hc & Hd & Hl). rewrite Ha in H.
  destruct H as (header & records & writes & _ & _ & _ & _ & Him). exists s', report. split; [reflexivity|].
  split; [exact Hc|]. split; [exact Hd|]. split; [exact Hl|]. exact (proj1 (proj2 (proj2 (im_rest _ _ _ _ _ _ _ _ _ _ Him)))).
Defined.

Lemma export_lists_every_code_witness : exists lines,
  export lower_ascii {| cf_campaign := None; cf_status := Some st_redeemed; cf_offset := 0; cf_limit := 10 |} "https://example.com/?"
    90000000 invitations_example = Some {| ex_csv := foldl japp inviteCodesCsvHeader lines; ex_count := 1 |}.
Proof.
  destruct (export_lists_every_code (U := url_platform_example) lower_ascii {| cf_campaign := None; cf_status := Some st_redeemed; cf_offset := 0; cf_limit := 10 |}
    "https://example.com/?" 90000000 invitations_example "https://example.com/?" eq_refl) as (lines & E & _).
  exists lines. etrans; [exact E|]. by do 2 f_equal.
Defined.

(** The file has no column for the seats taken: a spent code that travelled without its
    redeemer and was withdrawn here leaves withdrawn, and the deployment it reaches can
    put back into circulation a code that cannot be redeemed where it came from. *)
Example withdrawn_spent_code_can_return :
  let c := code_example "ABCDEFGH2345" 1 (Some 86400007) in
  seat_free 90000000 (set_disabledAt None c) = false /\
  match readInviteCodesCsv upper_text lower_ascii no_other_date
    (file_of (default [] (mapM (fun s => inviteCodesCsvRow s "https://example.com/?") [source_at 90000000 c []]))) 90000000 with
  | Ok reading => map (fun row => (cw_status row, seat_free 90000000 (set_disabledAt None (imported_code row)))) (rg_rows reading)
  | Err _ => []
  end = [(st_withdrawn, true)].
Proof. vm_compute. split; reflexivity. Qed.
