(* ===== verification/EvidenceDigest.v ===== *)
(** * Evidence digests and certificate fingerprints

    [libs/types/src/evidence-digest.ts] and
    [libs/attestation/src/fingerprint.ts]: the spellings of a SHA-256 digest, the
    canonical one pins are compared in, and the comparison of fingerprints.  [btoa]
    and [atob] are written out; a binary string is the list of its byte values. *)

From S2P Require Import Prelude JsString.
From Stdlib Require Import NArith.

(** ** Base64 *)

(** The sixty-four digits of the standard alphabet. *)
Definition b64_digit (v : N) : N :=
  (if v <? 26 then 65 + v else if v <? 52 then 71 + v else if v <? 62 then v - 4
   else if v =? 62 then 43 else 47)%N.

Definition b64_value (c : N) : option N :=
  (if is_upper c then Some (c - 65) else if is_lower c then Some (c - 71) else if is_digit c then Some (c + 4)
   else if c =? 43 then Some 62 else if c =? 47 then Some 63 else None)%N.

(** Bytes to six-bit digits, the last group zero-filled. *)
Fixpoint sextets (bytes : list N) : list N :=
  (match bytes with
   | a :: b :: c :: r => a / 4 :: a mod 4 * 16 + b / 16 :: b mod 16 * 4 + c / 64 :: c mod 64 :: sextets r
   | [a; b] => [a / 4; a mod 4 * 16 + b / 16; b mod 16 * 4]
   | [a] => [a / 4; a mod 4 * 16]
   | [] => []
   end)%N.

(** Six-bit digits to bytes, the bits left over dropped. *)
Fixpoint octets (digits : list N) : list N :=
  (match digits with
   | s :: t :: u :: v :: r => s * 4 + t / 16 :: t mod 16 * 16 + u / 4 :: u mod 4 * 64 + v :: octets r
   | [s; t; u] => [s * 4 + t / 16; t mod 16 * 16 + u / 4]
   | [s; t] => [s * 4 + t / 16]
   | _ => []
   end)%N.

(** [btoa]: padded with [=] to a multiple of four. *)
Definition btoa (bytes : list N) : list N :=
  let s := map b64_digit (sextets bytes) in
  s ++ replicate (match (length s mod 4)%nat with 2%nat => 2 | 3%nat => 1 | _ => 0 end) 61%N.

Definition ascii_space (c : N) : bool := ((c =? 9) || (c =? 10) || (c =? 12) || (c =? 13) || (c =? 32))%N.

(** Up to [n] characters [c] off the end. *)
Fixpoint strip_last (n : nat) (c : N) (rev : list N) : list N :=
  match n, rev with
  | S n, d :: r => if (d =? c)%N then strip_last n c r else rev
  | _, _ => rev
  end.

Fixpoint all_some {A B} (f : A -> option B) (l : list A) : option (list B) :=
  match l with
  | [] => Some []
  | x :: l => match f x, all_some f l with Some y, Some ys => Some (y :: ys) | _, _ => None end
  end.

(** [atob], the forgiving decoder of the platform; [None] for its exception. *)
Definition atob (data : list N) : option (list N) :=
  let data := List.filter (fun c => negb (ascii_space c)) data in
  let data := if (length data mod 4 =? 0)%nat then reverse (strip_last 2 61%N (reverse data)) else data in
  if (length data mod 4 =? 1)%nat then None
  else octets <$> all_some b64_value data.

(** [replace] of one character by another, everywhere. *)
Definition replace_all (a b : N) (s : list N) : list N := map (fun c => if (c =? a)%N then b else c) s.

(** [replace(/=+$/, '')] *)
Definition strip_padding (s : list N) : list N := reverse (drop_while (fun c => (c =? 61)%N) (reverse s)).

(** The URL-safe alphabet, unpadded. *)
Definition url_safe (s : list N) : list N := strip_padding (replace_all 47 95 (replace_all 43 45 s)).

(** ** The digest *)

Definition EVIDENCE_DIGEST_PREFIX : jstr := "sha256/".
Definition EVIDENCE_DIGEST_HEX_PREFIX : jstr := "sha256:".

Definition is_b64url (c : N) : bool :=
  (is_upper c || is_lower c || is_digit c || (c =? 95) || (c =? 45))%N.

(** [[AEIMQUYcgkosw048]] *)
Definition ends_digest (c : N) : bool := existsb (N.eqb c) (units "AEIMQUYcgkosw048").

(** [/^[A-Za-z0-9_-]{42}[AEIMQUYcgkosw048]=?$/] *)
Definition BASE64URL_SHA256 (s : list N) : bool :=
  ((length s =? 43)%nat || (length s =? 44)%nat && bool_decide (s !! 43%nat = Some 61%N)) &&
  forallb is_b64url (take 42 s) &&
  match s !! 42%nat with Some c => ends_digest c | None => false end.

Definition is_hex_ci (c : N) : bool :=
  (is_digit c || (97 <=? c) && (c <=? 102) || (65 <=? c) && (c <=? 70))%N.

(** [/^[0-9a-fA-F]{64}$/] *)
Definition HEX_SHA256 (s : list N) : bool := (length s =? 64)%nat && forallb is_hex_ci s.

Definition isEvidenceDigest (value : jstr) : bool :=
  jstartsWith value EVIDENCE_DIGEST_PREFIX && BASE64URL_SHA256 (units (jdrop 7 value)).

Definition stripScheme (value : jstr) : jstr :=
  if jstartsWith value EVIDENCE_DIGEST_PREFIX then jdrop 7 value
  else if jstartsWith value EVIDENCE_DIGEST_HEX_PREFIX then jdrop 7 value
  else value.

(** [Number.parseInt(pair, 16)] of two lower-case hex digits. *)
Definition hex_value (c : N) : N := if is_digit c then (c - 48)%N else (c - 87)%N.

Fixpoint hex_bytes (hex : list N) : list N :=
  match hex with
  | c :: d :: r => (hex_value c * 16 + hex_value d)%N :: hex_bytes r
  | [c] => [hex_value c]
  | [] => []
  end.

Definition hexToBase64Url (hex : list N) : list N := url_safe (btoa (hex_bytes hex)).

Definition hex_digit (v : N) : N := if (v <? 10)%N then (48 + v)%N else (87 + v)%N.

(** [b.toString(16).padStart(2, '0')] for a byte. *)
Definition byte_hex (b : N) : list N :=
  units (jpadStart (Js (if (b <? 16)%N then [hex_digit b] else [hex_digit (b / 16); hex_digit (b mod 16)]%N)) 2 48%N).

Definition base64UrlToHex (encoded : list N) : option (list N) :=
  (fun bytes => concat (map byte_hex bytes)) <$> atob (replace_all 95 47 (replace_all 45 43 encoded)).

(** [None] is the [InvalidEvidenceDigestError]. *)
Definition normalizeEvidenceDigest (value : jstr) : option jstr :=
  let trimmed := jtrim value in
  if isEvidenceDigest trimmed
  then Some (EVIDENCE_DIGEST_PREFIX +++ Js (strip_padding (units (jdrop 7 trimmed))))
  else
    let hex := stripScheme trimmed in
    if HEX_SHA256 (units hex)
    then Some (EVIDENCE_DIGEST_PREFIX +++ Js (hexToBase64Url (map lower_unit (units hex))))
    else None.

(** The hex of a digest; [None] for either exception. *)
Definition evidenceDigestHex (value : jstr) : option jstr :=
  canonical ← normalizeEvidenceDigest value;
  Js <$> base64UrlToHex (units (jdrop 7 canonical)).

Definition formatEvidenceDigestHex (value : jstr) : option jstr :=
  (fun hex => EVIDENCE_DIGEST_HEX_PREFIX +++ hex) <$> evidenceDigestHex value.

Definition evidenceDigestEquals (a b : jstr) : option bool :=
  x ← normalizeEvidenceDigest a; y ← normalizeEvidenceDigest b; Some (jeqb x y).

(** ** Fingerprints *)

(** [/^sha256\/[A-Za-z0-9_-]+$/]; [value] is [None] when it is not a string. *)
Definition isFingerprint (value : option jstr) : bool :=
  match value with
  | Some s => jstartsWith s EVIDENCE_DIGEST_PREFIX && (7 <? jlength s) && forallb is_b64url (units (jdrop 7 s))
  | None => false
  end.

Definition base64UrlEncode (bytes : list N) : list N := url_safe (btoa bytes).

(** [SHA-256] is the platform's: [digest]. *)
Definition sha256Fingerprint (digest : list N -> list N) (der : list N) : jstr :=
  "sha256/" +++ Js (base64UrlEncode (digest der)).

(** The difference of two strings of one length, accumulated over every unit. *)
Definition fingerprint_diff (a b : list N) : N :=
  foldl (fun diff p => N.lor diff (N.lxor (fst p) (snd p))) 0%N (combine a b).

Definition fingerprintsEqual (a b : jstr) : bool :=
  if negb (jlength a =? jlength b) then false
  else (fingerprint_diff (units a) (units b) =? 0)%N.

Example evidenceDigestHex_ex :
  evidenceDigestHex "sha256/47DEQpj8HBSa-_TImW-5JCeuQeRkm5NMpJWZG3hSuFU=" =
  Some "e3b0c44298fc1c149afbf4c8996fb92427ae41e4649b934ca495991b7852b855".
Proof. vm_compute. reflexivity. Qed.

Example normalizeEvidenceDigest_ex :
  normalizeEvidenceDigest " sha256:E3B0C44298FC1C149AFBF4C8996FB92427AE41E4649B934CA495991B7852B855" =
  Some "sha256/47DEQpj8HBSa-_TImW-5JCeuQeRkm5NMpJWZG3hSuFU".
Proof. vm_compute. reflexivity. Qed.

(** ** Lemmas: base64 *)

(** Induction in steps of three or four elements. *)
Lemma list_ind_3 {A} (P : list A -> Prop) :
  P [] -> (forall a, P [a]) -> (forall a b, P [a; b]) -> (forall a b c r, P r -> P (a :: b :: c :: r)) ->
  forall l, P l.
Proof.
  intros H0 H1 H2 H3. fix IH 1. intros [|a [|b [|c r]]]; [done|apply H1|apply H2|apply H3, IH].
Qed.

Lemma list_ind_4 {A} (P : list A -> Prop) :
  P [] -> (forall a, P [a]) -> (forall a b, P [a; b]) -> (forall a b c, P [a; b; c]) ->
  (forall a b c d r, P r -> P (a :: b :: c :: d :: r)) -> forall l, P l.
Proof.
  intros H0 H1 H2 H3 H4. fix IH 1. intros [|a [|b [|c [|d r]]]]; [done|apply H1|apply H2|apply H3|apply H4, IH].
Qed.

Ltac Zify.zify_post_hook ::= Z.to_euclidean_division_equations.

Lemma octets_sextets bytes : Forall (fun b => (b < 256)%N) bytes -> octets (sextets bytes) = bytes.
Proof.
  induction bytes as [|a|a b|a b c r IH] using list_ind_3; cbn; rewrite ?Forall_cons; intros H; [done|..].
  - f_equal; lia.
  - repeat f_equal; lia.
  - rewrite IH by tauto. repeat f_equal; lia.
Qed.

Lemma sextets_lt bytes : Forall (fun b => (b < 256)%N) bytes -> Forall (fun s => (s < 64)%N) (sextets bytes).
Proof.
  induction bytes as [|a|a b|a b c r IH] using list_ind_3; cbn; rewrite ?Forall_cons; intros H; [done|..].
  - split_and!; [lia|lia|constructor].
  - split_and!; [lia..|constructor].
  - split_and!; [lia..|apply IH; tauto].
Qed.

Lemma octets_lt digits : Forall (fun s => (s < 64)%N) digits -> Forall (fun b => (b < 256)%N) (octets digits).
Proof.
  induction digits as [| | | |a b c d r IH] using list_ind_4; cbn; rewrite ?Forall_cons; intros H; try done.
  - split_and!; [lia|constructor].
  - split_and!; [lia|lia|constructor].
  - split_and!; [lia..|apply IH; tauto].
Qed.

(** A last group that leaves no bit behind. *)
Fixpoint tail_clear (digits : list N) : Prop :=
  match digits with
  | _ :: _ :: _ :: _ :: r => tail_clear r
  | [_; _; u] => (u mod 4 = 0)%N
  | [_; t] => (t mod 16 = 0)%N
  | [] => True
  | _ => False
  end.

Lemma sextets_octets digits :
  Forall (fun s => (s < 64)%N) digits -> tail_clear digits -> sextets (octets digits) = digits.
Proof.
  induction digits as [|a|a b|a b c|a b c d r IH] using list_ind_4; cbn; rewrite ?Forall_cons; intros H Ht; [done|done|..].
  - repeat f_equal; lia.
  - repeat f_equal; lia.
  - rewrite IH by tauto. repeat f_equal; lia.
Qed.

Lemma sextets_tail bytes : tail_clear (sextets bytes).
Proof. induction bytes using list_ind_3; cbn [sextets tail_clear]; [done|apply N.Div0.mod_mul|apply N.Div0.mod_mul|done]. Qed.

Lemma sextets_length bytes :
  exists k, (k < 3)%nat /\ (3 * length (sextets bytes) = 4 * length bytes + k)%nat.
Proof.
  induction bytes as [|a|a b|a b c r (k & Hk & IH)] using list_ind_3.
  - exists 0%nat. cbn. lia.
  - exists 2%nat. cbn. lia.
  - exists 1%nat. cbn. lia.
  - exists k. cbn [sextets length]. lia.
Qed.

Lemma octets_length digits :
  exists k, (k < 4)%nat /\ (4 * length (octets digits) + k = 3 * length digits)%nat.
Proof.
  induction digits as [|a|a b|a b c|a b c d r (k & Hk & IH)] using list_ind_4.
  - exists 0%nat. cbn. lia.
  - exists 3%nat. cbn. lia.
  - exists 2%nat. cbn. lia.
  - exists 1%nat. cbn. lia.
  - exists k. cbn [octets length]. lia.
Qed.

Ltac nleb := repeat match goal with
  | |- context [(?a <=? ?b)%N] => destruct (N.leb_spec a b); try lia
  | |- context [(?a <? ?b)%N] => destruct (N.ltb_spec a b); try lia
  | |- context [(?a =? ?b)%N] => destruct (N.eqb_spec a b); try lia
  end.

Lemma b64_value_digit v : (v < 64)%N -> b64_value (b64_digit v) = Some v.
Proof.
  intros Hv. unfold b64_digit, b64_value, is_upper, is_lower, is_digit.
  nleb; cbn; f_equal; lia.
Qed.

Lemma b64_digit_value c v : b64_value c = Some v -> b64_digit v = c /\ (v < 64)%N.
Proof.
  unfold b64_value, is_upper, is_lower, is_digit. nleb; cbn; intros [= <-]; unfold b64_digit; nleb; split; lia.
Qed.

Lemma all_some_map {A B} (f : A -> option B) (g : B -> A) l :
  Forall (fun y => f (g y) = Some y) l -> all_some f (map g l) = Some l.
Proof. induction 1 as [|y l Hy _ IH]; cbn; [done|]. by rewrite Hy, IH. Qed.

Lemma all_some_forall {A B} (f : A -> option B) l :
  Forall (fun x => is_Some (f x)) l -> exists ys, all_some f l = Some ys /\ Forall2 (fun x y => f x = Some y) l ys.
Proof.
  induction 1 as [|x l [y Hy] _ (ys & IH & H2)]; cbn; [by eexists|].
  rewrite Hy, IH. eexists; split; [done|]. by constructor.
Qed.

(** ** Lemmas: the URL-safe alphabet *)

Definition url_digit (v : N) : N := let c := b64_digit v in (if c =? 43 then 45 else if c =? 47 then 95 else c)%N.

(** A decidable property of the sixty-four digits, checked on each. *)
Lemma below_64 (P : N -> Prop) `{forall v, Decision (P v)} :
  forallb (fun v => bool_decide (P v)) (map N.of_nat (seq 0 64)) = true -> forall v, (v < 64)%N -> P v.
Proof.
  rewrite forallb_forall. intros Hp v Hv. apply (bool_decide_eq_true (P v)), Hp, list_elem_of_In, list_elem_of_fmap.
  exists (N.to_nat v). split; [lia|]. apply elem_of_seq. lia.
Qed.

Lemma url_digit_spec v : (v < 64)%N ->
  is_b64url (url_digit v) = true /\ url_digit v <> 61%N /\ (url_digit v < 128)%N /\
  replace_all 95 47 (replace_all 45 43 [url_digit v]) = [b64_digit v] /\
  replace_all 47 95 (replace_all 43 45 [b64_digit v]) = [url_digit v] /\
  is_space (url_digit v) = false /\ ascii_space (b64_digit v) = false /\ b64_digit v <> 61%N.
Proof.
  revert v. apply (below_64 (fun v =>
    is_b64url (url_digit v) = true /\ url_digit v <> 61%N /\ (url_digit v < 128)%N /\
    replace_all 95 47 (replace_all 45 43 [url_digit v]) = [b64_digit v] /\
    replace_all 47 95 (replace_all 43 45 [b64_digit v]) = [url_digit v] /\
    is_space (url_digit v) = false /\ ascii_space (b64_digit v) = false /\ b64_digit v <> 61%N)).
  vm_compute. reflexivity.
Qed.

Lemma is_b64url_digit c : is_b64url c = true -> exists v, (v < 64)%N /\ c = url_digit v.
Proof.
  unfold is_b64url, is_upper, is_lower, is_digit. rewrite !orb_true_iff, !andb_true_iff, !N.leb_le, !N.eqb_eq.
  intros [[[[H|H]|H]|H]|H]; [exists (c - 65)%N|exists (c - 71)%N|exists (c + 4)%N|exists 63%N|exists 62%N].
  1-3: unfold url_digit, b64_digit; nleb; split; lia.
  all: subst; done.
Qed.

Lemma ends_digest_digit v : (v < 64)%N -> ends_digest (url_digit v) = (v mod 4 =? 0)%N.
Proof.
  revert v. apply (below_64 (fun v => ends_digest (url_digit v) = (v mod 4 =? 0)%N)). vm_compute. reflexivity.
Qed.

Lemma replace_digits digits : Forall (fun s => (s < 64)%N) digits ->
  replace_all 95 47 (replace_all 45 43 (map url_digit digits)) = map b64_digit digits /\
  replace_all 47 95 (replace_all 43 45 (map b64_digit digits)) = map url_digit digits.
Proof.
  induction 1 as [|s l Hs _ [IH1 IH2]]; [done|].
  destruct (url_digit_spec s Hs) as (_ & _ & _ & [= H1] & [= H2] & _).
  cbn [map replace_all]. split; f_equal; try done; assumption.
Qed.

Lemma drop_while_pad k u : (match u with [] => True | c :: _ => c <> 61%N end) ->
  drop_while (fun c => (c =? 61)%N) (replicate k 61%N ++ u) = u.
Proof.
  intros Hu. induction k as [|k IH]; [|done]. destruct u as [|c u]; [done|]. cbn.
  by destruct (N.eqb_spec c 61).
Qed.

Lemma strip_padding_digits digits k : Forall (fun s => (s < 64)%N) digits ->
  strip_padding (map url_digit digits ++ replicate k 61%N) = map url_digit digits.
Proof.
  intros Hd. unfold strip_padding. rewrite reverse_app, reverse_replicate, drop_while_pad; [apply reverse_involutive|].
  destruct digits as [|s digits _] using rev_ind; [done|].
  rewrite map_app, reverse_app. cbn. apply Forall_app in Hd as [_ Hs]. rewrite Forall_singleton in Hs.
  by destruct (url_digit_spec s Hs) as (_ & ? & _).
Qed.

Lemma url_safe_btoa bytes : Forall (fun b => (b < 256)%N) bytes ->
  url_safe (btoa bytes) = map url_digit (sextets bytes).
Proof.
  intros Hb%sextets_lt. unfold url_safe, btoa. cbv zeta.
  set (k := match (_ mod 4)%nat with 2%nat => _ | _ => _ end). clearbody k.
  unfold replace_all in *. rewrite !map_app.
  destruct (replace_digits _ Hb) as [_ H]. unfold replace_all in H. rewrite H.
  rewrite (map_replicate) || idtac.
  assert (Hr : map (fun c => if (c =? 47)%N then 95%N else c) (map (fun c => if (c =? 43)%N then 45%N else c) (replicate k 61%N)) = replicate k 61%N)
    by (induction k; cbn; congruence).
  rewrite Hr. by apply strip_padding_digits.
Qed.

Lemma atob_digits digits : Forall (fun s => (s < 64)%N) digits -> (length digits mod 4 = 3)%nat ->
  atob (map b64_digit digits) = Some (octets digits).
Proof.
  intros Hd Hl. unfold atob.
  assert (Hf : List.filter (fun c => negb (ascii_space c)) (map b64_digit digits) = map b64_digit digits).
  { clear Hl. induction Hd as [|s l Hs _ IH]; cbn; [done|].
    destruct (url_digit_spec s Hs) as (_ & _ & _ & _ & _ & _ & -> & _). cbn. by rewrite IH. }
  rewrite Hf, length_map, Hl. cbn [Nat.eqb]. rewrite length_map, Hl. cbn [Nat.eqb].
  rewrite all_some_map; [done|]. eapply Forall_impl; [exact Hd|]. cbn. intros v. apply b64_value_digit.
Qed.

(** ** Lemmas: hexadecimal *)

Lemma hex_digit_value c : is_hex c = true -> hex_digit (hex_value c) = c /\ (hex_value c < 16)%N.
Proof.
  unfold is_hex, hex_value, hex_digit, is_digit. rewrite orb_true_iff, !andb_true_iff, !N.leb_le. intros H.
  repeat (nleb; cbn [andb orb] in *); split; (lia || done).
Qed.

Lemma is_hex_ci_lower c : is_hex_ci c = true -> is_hex (lower_unit c) = true.
Proof.
  unfold is_hex_ci, is_hex, lower_unit, is_upper, is_digit. rewrite !orb_true_iff, !andb_true_iff, !N.leb_le.
  intros H. nleb; cbn [andb]; rewrite ?orb_true_iff, ?andb_true_iff, ?N.leb_le; lia.
Qed.

Lemma hex_value_digit v : (v < 16)%N -> hex_value (hex_digit v) = v /\ is_hex (hex_digit v) = true.
Proof. intros Hv. unfold hex_digit, hex_value, is_hex, is_digit. repeat (nleb; cbn [andb orb] in *); split; (lia || done). Qed.

Lemma byte_hex_digits b : (b < 256)%N -> byte_hex b = [hex_digit (b / 16); hex_digit (b mod 16)].
Proof.
  intros Hb. unfold byte_hex, jpadStart, jlength, jrepeat, japp. cbn [units]. nleb; [|done].
  cbn. by rewrite N.div_small, N.mod_small.
Qed.

Lemma hex_bytes_byte_hex bytes : Forall (fun b => (b < 256)%N) bytes -> hex_bytes (concat (map byte_hex bytes)) = bytes.
Proof.
  induction 1 as [|b l Hb _ IH]; [done|]. cbn [map concat]. rewrite byte_hex_digits by done. cbn [app hex_bytes].
  rewrite IH. f_equal. rewrite !(fun v H => proj1 (hex_value_digit v H)) by lia. lia.
Qed.

Lemma byte_hex_hex_bytes k hex : length hex = (2 * k)%nat -> forallb is_hex hex = true ->
  concat (map byte_hex (hex_bytes hex)) = hex /\ Forall (fun b => (b < 256)%N) (hex_bytes hex) /\
  length (hex_bytes hex) = k.
Proof.
  revert hex; induction k as [|k IH]; intros hex Hl Hh.
  - destruct hex; [|done]. by split_and!; [|constructor|].
  - destruct hex as [|c [|d r]]; [done|cbn in Hl; lia|]. cbn [forallb] in Hh.
    apply andb_true_iff in Hh as [Hc [Hd Hr]%andb_true_iff].
    destruct (IH r) as (H1 & H2 & H3); [cbn in Hl; lia|done|].
    destruct (hex_digit_value c Hc) as [Ec Lc], (hex_digit_value d Hd) as [Ed Ld].
    cbn [hex_bytes map concat length]. rewrite H1, byte_hex_digits by lia. split_and!; [|constructor; [lia|done]|lia].
    cbn [app]. rewrite <- Ec at 3. rewrite <- Ed at 3. repeat f_equal; lia.
Qed.

Lemma concat_byte_hex bytes : Forall (fun b => (b < 256)%N) bytes ->
  length (concat (map byte_hex bytes)) = (2 * length bytes)%nat /\
  forallb is_hex (concat (map byte_hex bytes)) = true.
Proof.
  induction 1 as [|b l Hb _ [IH1 IH2]]; [done|]. cbn [map concat]. rewrite byte_hex_digits by done.
  cbn [app length forallb]. rewrite IH1, IH2, !(fun v H => proj2 (hex_value_digit v H)) by lia. split; [lia|done].
Qed.

(** ** The canonical spelling *)

(** The canonical form of thirty-two bytes. *)
Definition digest_of (bytes : list N) : jstr := EVIDENCE_DIGEST_PREFIX +++ Js (map url_digit (sextets bytes)).

Definition sha256_bytes (bytes : list N) : Prop := length bytes = 32%nat /\ Forall (fun b => (b < 256)%N) bytes.

Lemma sha256_sextets bytes : sha256_bytes bytes ->
  length (sextets bytes) = 43%nat /\ Forall (fun s => (s < 64)%N) (sextets bytes).
Proof.
  intros [Hl Hb]. split; [|by apply sextets_lt]. destruct (sextets_length bytes) as (k & Hk & H). lia.
Qed.

Lemma jstartsWith_app p s : jstartsWith (p +++ s) p = true.
Proof. unfold jstartsWith. apply prefixb_spec. by exists (units s). Qed.

Lemma jdrop_app p s n : n = jlength p -> jdrop n (p +++ s) = s.
Proof.
  intros ->. unfold jdrop, jlength, japp. cbn [units]. rewrite Nat2Z.id, drop_app_length. by destruct s.
Qed.

(** Forty-three digits whose last leaves no bit behind. *)
Lemma tail_clear_43 digits : length digits = 43%nat ->
  tail_clear digits <-> (exists u, digits !! 42%nat = Some u /\ (u mod 4 = 0)%N).
Proof.
  intros Hl. do 43 (destruct digits as [|? digits]; [done|]). destruct digits; [|done]. cbn.
  split; [eauto | by intros (u & [= <-] & ?)].
Qed.

Lemma digits_of_b64url s : forallb is_b64url s = true ->
  exists digits, Forall (fun v => (v < 64)%N) digits /\ s = map url_digit digits.
Proof.
  induction s as [|c s IH]; [by exists []|]. cbn. rewrite andb_true_iff. intros [Hc Hs]. destruct (IH Hs) as (ds & Hd & ->).
  destruct (is_b64url_digit c Hc) as (v & Hv & ->). exists (v :: ds). split; [by constructor|done].
Qed.

Lemma BASE64URL_SHA256_spec s : BASE64URL_SHA256 s = true ->
  exists bytes, sha256_bytes bytes /\ strip_padding s = map url_digit (sextets bytes).
Proof.
  unfold BASE64URL_SHA256. rewrite !andb_true_iff, orb_true_iff, andb_true_iff, !Nat.eqb_eq, bool_decide_eq_true.
  intros [[Hl H42] Hlast]. destruct (s !! 42%nat) as [c|] eqn:E42; [|done].
  assert (Hc : is_b64url c = true).
  { unfold ends_digest in Hlast. apply existsb_exists in Hlast as (x & Hx & Hcx%N.eqb_eq). subst x. clear -Hx.
    apply (proj1 (List.forallb_forall is_b64url _)) in Hx; [done|]. reflexivity. }
  assert (Hs : s = take 43 s ++ drop 43 s) by (by rewrite take_drop).
  assert (H43 : forallb is_b64url (take 43 s) = true).
  { rewrite (take_S_r s 42 c E42), forallb_app, H42. cbn. by rewrite Hc. }
  destruct (digits_of_b64url _ H43) as (ds & Hd & Ht).
  assert (Hlen : length ds = 43%nat).
  { assert (length (take 43 s) = 43%nat) as H by (rewrite length_take; lia). rewrite Ht, length_map in H. done. }
  assert (Htail : tail_clear ds).
  { apply tail_clear_43; [done|]. assert (Hu : take 43 s !! 42%nat = Some c) by (by rewrite lookup_take_lt by lia).
    rewrite Ht in Hu. apply list_lookup_fmap_Some in Hu as (u & Hu & Hcu). subst c.
    exists u. split; [done|].
    rewrite ends_digest_digit in Hlast; [by apply N.eqb_eq|]. by eapply Forall_lookup in Hd. }
  exists (octets ds). split.
  - split; [|by apply octets_lt]. destruct (octets_length ds) as (k & Hk & H). lia.
  - rewrite (sextets_octets ds Hd Htail). rewrite Hs, Ht.
    assert (Hdrop : exists k, drop 43 s = replicate k 61%N).
    { destruct Hl as [Hl|[Hl Hpad]]; [exists 0%nat; by apply drop_ge; lia|]. exists 1%nat.
      rewrite (drop_S s 61%N 43) by done. by rewrite drop_ge by lia. }
    destruct Hdrop as [k ->]. by apply strip_padding_digits.
Qed.

Lemma digest_of_valid bytes : sha256_bytes bytes -> BASE64URL_SHA256 (map url_digit (sextets bytes)) = true.
Proof.
  intros Hb. destruct (sha256_sextets bytes Hb) as [Hl Hd]. unfold BASE64URL_SHA256.
  rewrite length_map, Hl. cbn [Nat.eqb orb andb].
  assert (Hall : forall n, forallb is_b64url (take n (map url_digit (sextets bytes))) = true).
  { intros n. apply forallb_forall. intros c Hc%list_elem_of_In. apply elem_of_take in Hc as (i & Hi & _).
    apply list_lookup_fmap_Some in Hi as (v & Hv & Hcv). subst c. eapply Forall_lookup in Hd; [|done].
    by destruct (url_digit_spec v Hd) as [? _]. }
  rewrite Hall. cbn [andb]. rewrite list_lookup_fmap.
  pose proof (sextets_tail bytes) as Ht. apply (tail_clear_43 _ Hl) in Ht as (u & Hu & Hm). rewrite Hu.
  change (ends_digest (url_digit u) = true). rewrite ends_digest_digit; [by apply N.eqb_eq|]. by eapply Forall_lookup in Hd.
Qed.

(** What [normalizeEvidenceDigest] does with each spelling it accepts. *)

Lemma jtrim_forallb (p : N -> bool) s : (forall c, p c = true -> is_space c = false) ->
  forallb p (units s) = true -> jtrim s = s.
Proof.
  intros Hp Hs. unfold jtrim. rewrite trim_units_id; [by destruct s|].
  eapply forallb_impl; [|exact Hs]. intros c Hc. by rewrite (Hp c Hc).
Qed.

Lemma b64url_not_space c : is_b64url c = true -> is_space c = false.
Proof.
  intros Hc. destruct (is_b64url_digit c Hc) as (v & Hv & ->).
  by destruct (url_digit_spec v Hv) as (_ & _ & _ & _ & _ & ? & _).
Qed.

Lemma normalize_digest_of bytes : sha256_bytes bytes ->
  normalizeEvidenceDigest (digest_of bytes) = Some (digest_of bytes).
Proof.
  intros Hb. destruct (sha256_sextets bytes Hb) as [Hl Hd]. unfold normalizeEvidenceDigest.
  assert (Ht : jtrim (digest_of bytes) = digest_of bytes).
  { apply (jtrim_forallb (fun c => is_b64url c || (c =? 47)%N)).
    - intros c [Hc|Hc%N.eqb_eq]%orb_true_iff; [by apply b64url_not_space|by subst].
    - unfold digest_of, japp. cbn [units]. rewrite forallb_app. cbn [forallb].
      apply andb_true_iff. split; [reflexivity|]. apply forallb_forall. intros c Hc%list_elem_of_In.
      apply list_elem_of_fmap in Hc as (v & -> & Hv). rewrite Forall_forall in Hd.
      by destruct (url_digit_spec v (Hd v Hv)) as [-> _]. }
  rewrite Ht. unfold isEvidenceDigest, digest_of. rewrite jstartsWith_app, jdrop_app by reflexivity.
  cbn [units andb]. rewrite digest_of_valid by done. do 3 f_equal.
  rewrite <- (app_nil_r (map _ _)) at 1. exact (strip_padding_digits _ 0 Hd).
Qed.

Lemma normalize_some v d : normalizeEvidenceDigest v = Some d -> exists bytes, sha256_bytes bytes /\ d = digest_of bytes.
Proof.
  unfold normalizeEvidenceDigest. set (t := jtrim v). clearbody t.
  destruct (isEvidenceDigest t) eqn:E.
  - intros [= <-]. apply andb_true_iff in E as [_ E].
    destruct (BASE64URL_SHA256_spec _ E) as (bytes & Hb & Heq). exists bytes.
    split; [done|]. unfold digest_of. by rewrite <- Heq.
  - destruct (HEX_SHA256 _) eqn:Eh; [|done]. intros [= <-].
    apply andb_true_iff in Eh as [Hl%Nat.eqb_eq Hh].
    assert (Hlow : forallb is_hex (map lower_unit (units (stripScheme t))) = true).
    { apply forallb_forall. intros c Hc%list_elem_of_In. apply list_elem_of_fmap in Hc as (c' & -> & Hc').
      rewrite forallb_forall in Hh. specialize (Hh c'). rewrite <- list_elem_of_In in Hh. specialize (Hh Hc').
      by apply is_hex_ci_lower. }
    destruct (byte_hex_hex_bytes 32 (map lower_unit (units (stripScheme t)))) as (H1 & H2 & H3);
      [by rewrite length_map|done|].
    eexists; split; [by split|]. unfold hexToBase64Url, digest_of. by rewrite url_safe_btoa.
Qed.

Lemma hex_of_digest_of bytes : sha256_bytes bytes ->
  evidenceDigestHex (digest_of bytes) = Some (Js (concat (map byte_hex bytes))).
Proof.
  intros Hb. unfold evidenceDigestHex. rewrite normalize_digest_of by done. cbn [mbind option_bind].
  destruct (sha256_sextets bytes Hb) as [Hl Hd]. unfold digest_of. rewrite jdrop_app by reflexivity.
  unfold base64UrlToHex. cbn [units]. destruct (replace_digits _ Hd) as [-> _].
  rewrite atob_digits by (done || by rewrite Hl). rewrite octets_sextets by apply Hb. done.
Qed.

(** A hex spelling: an optional scheme and sixty-four hex digits of either case. *)
Definition hex_spelling (scheme hex : jstr) : Prop :=
  scheme ∈ [Js []; EVIDENCE_DIGEST_PREFIX; EVIDENCE_DIGEST_HEX_PREFIX] /\ HEX_SHA256 (units hex) = true.

Lemma is_hex_ci_facts c : is_hex_ci c = true -> is_space c = false /\ (c =? 115)%N = false.
Proof.
  unfold is_hex_ci, is_digit. rewrite !orb_true_iff, !andb_true_iff, !N.leb_le. intros H.
  unfold is_space. split; nleb; done.
Qed.

Lemma stripScheme_spelling scheme hex : hex_spelling scheme hex ->
  stripScheme (scheme +++ hex) = hex /\ jtrim (scheme +++ hex) = scheme +++ hex /\
  isEvidenceDigest (scheme +++ hex) = false.
Proof.
  intros [Hs Hh]. pose proof Hh as [Hl%Nat.eqb_eq Hf]%andb_true_iff.
  assert (Hno : jstartsWith hex EVIDENCE_DIGEST_PREFIX = false /\ jstartsWith hex EVIDENCE_DIGEST_HEX_PREFIX = false).
  { unfold jstartsWith. destruct hex as [[|c hex]]; [done|]. cbn [units forallb] in *.
    apply andb_true_iff in Hf as [Hc _]. destruct (is_hex_ci_facts c Hc) as [_ Hc'].
    cbn [prefixb EVIDENCE_DIGEST_PREFIX EVIDENCE_DIGEST_HEX_PREFIX units]. by rewrite (N.eqb_sym 115 c), Hc'. }
  assert (Ht : jtrim (scheme +++ hex) = scheme +++ hex).
  { apply (jtrim_forallb (fun c => negb (is_space c))); [by intros c ?%negb_true_iff|].
    unfold japp. cbn [units]. rewrite forallb_app, andb_true_iff. split.
    - rewrite !elem_of_cons, elem_of_nil in Hs. by destruct Hs as [->|[->|[->|?]]].
    - eapply forallb_impl; [|exact Hf]. intros c Hc. by destruct (is_hex_ci_facts c Hc) as [-> _]. }
  rewrite Ht. destruct Hno as [Hno1 Hno2].
  assert (Hsize : BASE64URL_SHA256 (units hex) = false) by (unfold BASE64URL_SHA256; by rewrite Hl).
  rewrite !elem_of_cons, elem_of_nil in Hs. destruct Hs as [->|[->|[->|?]]]; [| | |done].
  - split_and!; [|done|]; unfold stripScheme, isEvidenceDigest; change (Js [] +++ hex) with (Js ([] ++ units hex));
      destruct hex as [h]; cbn [units app] in *; by rewrite Hno1, ?Hno2.
  - split_and!; [|done|]; unfold stripScheme, isEvidenceDigest; rewrite jstartsWith_app, jdrop_app; by rewrite ?Hsize.
  - split_and!; [|done|]; unfold stripScheme, isEvidenceDigest.
    + by rewrite jstartsWith_app, jdrop_app.
    + done.
Qed.

Lemma normalize_hex_spelling scheme hex : hex_spelling scheme hex ->
  exists bytes, sha256_bytes bytes /\ map lower_unit (units hex) = concat (map byte_hex bytes) /\
    normalizeEvidenceDigest (scheme +++ hex) = Some (digest_of bytes).
Proof.
  intros Hsp. destruct (stripScheme_spelling _ _ Hsp) as (H1 & H2 & H3). destruct Hsp as [_ Hh].
  pose proof Hh as [Hl%Nat.eqb_eq Hf]%andb_true_iff.
  destruct (byte_hex_hex_bytes 32 (map lower_unit (units hex))) as (E1 & E2 & E3); [by rewrite length_map|..].
  { apply forallb_forall. intros c Hc%list_elem_of_In. apply list_elem_of_fmap in Hc as (c' & -> & Hc').
    rewrite forallb_forall in Hf. specialize (Hf c'). rewrite <- list_elem_of_In in Hf.
    by apply is_hex_ci_lower, Hf. }
  exists (hex_bytes (map lower_unit (units hex))). split_and!; [done..|].
  unfold normalizeEvidenceDigest. rewrite H2, H3, H1, Hh. unfold hexToBase64Url, digest_of.
  by rewrite url_safe_btoa.
Qed.

Lemma hex_spelling_of bytes : sha256_bytes bytes -> forall scheme,
  scheme ∈ [Js []; EVIDENCE_DIGEST_PREFIX; EVIDENCE_DIGEST_HEX_PREFIX] ->
  hex_spelling scheme (Js (concat (map byte_hex bytes))).
Proof.
  intros [Hl Hb] scheme Hs. split; [done|]. destruct (concat_byte_hex bytes Hb) as [H1 H2].
  unfold HEX_SHA256. cbn [units]. rewrite H1, Hl. cbn [Nat.eqb Nat.mul Nat.add andb].
  eapply forallb_impl; [|exact H2]. unfold is_hex, is_hex_ci. intros c [->| ->]%orb_true_iff; [done|].
  by rewrite orb_true_r.
Qed.

Lemma digest_of_inj a b : sha256_bytes a -> sha256_bytes b -> digest_of a = digest_of b -> a = b.
Proof.
  intros Ha Hb Heq. pose proof (hex_of_digest_of a Ha) as E1. pose proof (hex_of_digest_of b Hb) as E2.
  rewrite Heq, E2 in E1. injection E1 as E. destruct Ha as [_ Ha], Hb as [_ Hb].
  by rewrite <- (hex_bytes_byte_hex a Ha), <- (hex_bytes_byte_hex b Hb), E.
Qed.

(** One spelling per digest: whatever [normalizeEvidenceDigest] accepts, it
    returns an unpadded canonical digest that is its own normal form, and the
    spelling a screen shows for it is read back as the same digest. *)
Theorem normalizeEvidenceDigest_canonical v d :
  normalizeEvidenceDigest v = Some d ->
  isEvidenceDigest d = true /\ jlength d = 50 /\ normalizeEvidenceDigest d = Some d /\
  exists shown, formatEvidenceDigestHex v = Some shown /\ normalizeEvidenceDigest shown = Some d /\
    evidenceDigestEquals v shown = Some true.
Proof.
  intros Hv. destruct (normalize_some v d Hv) as (bytes & Hb & ->).
  destruct (sha256_sextets bytes Hb) as [Hl _].
  pose proof (hex_spelling_of bytes Hb EVIDENCE_DIGEST_HEX_PREFIX ltac:(set_solver)) as Hsp.
  destruct (normalize_hex_spelling _ _ Hsp) as (bytes' & Hb' & Heq & Hn).
  assert (bytes' = bytes) as ->.
  { cbn [units] in Heq. rewrite map_lower_hex in Heq by apply concat_byte_hex, Hb.
    destruct Hb as [_ Hb], Hb' as [_ Hb'].
    by rewrite <- (hex_bytes_byte_hex bytes Hb), <- (hex_bytes_byte_hex bytes' Hb'), Heq. }
  split_and!.
  - unfold isEvidenceDigest, digest_of. rewrite jstartsWith_app, jdrop_app by reflexivity. by apply digest_of_valid.
  - unfold digest_of. rewrite jlength_app. unfold jlength. cbn [units]. by rewrite length_map, Hl.
  - by apply normalize_digest_of.
  - exists (EVIDENCE_DIGEST_HEX_PREFIX +++ Js (concat (map byte_hex bytes))). split_and!; [|done|].
    + pose proof (hex_of_digest_of bytes Hb) as Hh. unfold formatEvidenceDigestHex, evidenceDigestHex in *.
      rewrite normalize_digest_of in Hh by done. by rewrite Hv, Hh.
    + unfold evidenceDigestEquals. rewrite Hv, Hn. cbn. by rewrite jeqb_refl.
Qed.

Definition sample_digest : jstr := "sha256/47DEQpj8HBSa-_TImW-5JCeuQeRkm5NMpJWZG3hSuFU=".

Lemma normalizeEvidenceDigest_canonical_witness :
  let d := default "" (normalizeEvidenceDigest sample_digest) in
  jlength d = 50 /\ normalizeEvidenceDigest d = Some d.
Proof.
  intros d. pose proof (normalizeEvidenceDigest_canonical sample_digest d) as H.
  destruct H as (_ & H1 & H2 & _); [vm_compute; reflexivity|]. split; [exact H1|exact H2].
Defined.

(** Pins compare the bytes, not the spelling: a digest spelled in hex, with
    either scheme or none and in either case, reads back as those sixty-four hex
    digits, and two accepted values are equal exactly when their hex is. *)
Theorem evidenceDigest_spellings_agree :
  (forall scheme hex, hex_spelling scheme hex ->
     evidenceDigestHex (scheme +++ hex) = Some (Js (map lower_unit (units hex)))) /\
  (forall a b, is_Some (normalizeEvidenceDigest a) -> is_Some (normalizeEvidenceDigest b) ->
     (evidenceDigestEquals a b = Some true <-> evidenceDigestHex a = evidenceDigestHex b)).
Proof.
  split.
  - intros scheme hex Hsp. destruct (normalize_hex_spelling _ _ Hsp) as (bytes & Hb & -> & Hn).
    pose proof (hex_of_digest_of bytes Hb) as Hh. unfold evidenceDigestHex in *.
    rewrite normalize_digest_of in Hh by done. by rewrite Hn.
  - intros a b [da Ha] [db Hb]. destruct (normalize_some a da Ha) as (ba & Hba & ->).
    destruct (normalize_some b db Hb) as (bb & Hbb & ->).
    pose proof (hex_of_digest_of ba Hba) as Ea. pose proof (hex_of_digest_of bb Hbb) as Eb.
    unfold evidenceDigestEquals, evidenceDigestHex in *. rewrite normalize_digest_of in Ea, Eb by done.
    rewrite Ha, Hb, Ea, Eb. cbn [mbind option_bind]. split.
    + intros [= ->%jeqb_eq%digest_of_inj]; done.
    + intros [= H]. destruct Hba as [Hla Hba], Hbb as [Hlb Hbb].
      rewrite <- (hex_bytes_byte_hex ba Hba), <- (hex_bytes_byte_hex bb Hbb), H. by rewrite jeqb_refl.
Qed.

Lemma evidenceDigest_spellings_agree_witness :
  let hex := "E3B0C44298FC1C149AFBF4C8996FB92427AE41E4649B934CA495991B7852B855" in
  evidenceDigestHex (EVIDENCE_DIGEST_HEX_PREFIX +++ hex) = Some (Js (map lower_unit (units hex))) /\
  evidenceDigestEquals hex sample_digest = Some true.
Proof.
  intros hex. destruct evidenceDigest_spellings_agree as [H1 H2]. split.
  - apply (H1 EVIDENCE_DIGEST_HEX_PREFIX hex). split; [|vm_compute; reflexivity].
    apply elem_of_cons. right. apply elem_of_cons. right. apply elem_of_cons. by left.
  - apply (H2 hex sample_digest); [eexists; vm_compute; reflexivity..|vm_compute; reflexivity].
Defined.

(** ** Comparing fingerprints *)

Lemma fingerprint_diff_acc l acc :
  foldl (fun diff p => N.lor diff (N.lxor (fst p) (snd p))) acc l = 0%N <->
  acc = 0%N /\ Forall (fun p => fst p = snd p) l.
Proof.
  revert acc; induction l as [|p l IH]; intros acc; cbn [foldl]; [by rewrite Forall_nil; tauto|].
  rewrite IH, N.lor_eq_0_iff, N.lxor_eq_0_iff, Forall_cons. tauto.
Qed.

(** The constant-time comparison is equality: two fingerprints compare equal
    exactly when they are the same string. *)
Theorem fingerprintsEqual_spec a b : fingerprintsEqual a b = true <-> a = b.
Proof.
  destruct a as [a], b as [b]. unfold fingerprintsEqual, jlength, fingerprint_diff. cbn [units].
  destruct (Z.eqb_spec (Z.of_nat (length a)) (Z.of_nat (length b))) as [Hl|Hl]; cbn [negb].
  2: split; [done|]. 2: by intros [= ->].
  rewrite N.eqb_eq, fingerprint_diff_acc. split.
  - intros [_ H]. f_equal. apply Nat2Z.inj in Hl. revert b Hl H.
    induction a as [|x a IH]; intros [|y b]; cbn [combine length]; try done. rewrite Forall_cons. cbn.
    intros Hl [-> H]. f_equal. apply IH; [lia|done].
  - intros [= ->]. split; [done|]. clear. induction b; cbn [combine]; constructor; done.
Qed.
