(* ===== verification/Json.v ===== *)
(** * Values of unknown shape

    What [JSON.parse] and [response.json()] return, and the operations the
    shape checks use on it: property access, [typeof] and [String].  The parser
    itself is the engine's, a parameter of the components that call it.  A
    number is carried as the text [String] prints for it, since no modelled code
    computes with one. *)

From S2P Require Import Prelude JsString.

#[local] Set Warnings "-register-all".

Inductive json :=
| JNull
| JBool (b : bool)
| JNumber (text : jstr)
| JString (s : jstr)
| JArray (items : list json)
| JObject (members : list (jstr * json)).

(** [v.name]; [None] is [undefined].  None of the names the sources read is a
    property of an array. *)
Definition member (name : jstr) (v : json) : option json :=
  match v with
  | JObject members => snd <$> find_first (fun kv => jeqb (fst kv) name) members
  | _ => None
  end.

(** [v === null || typeof v !== 'object'] is the negation. *)
Definition is_object (v : json) : bool :=
  match v with JArray _ | JObject _ => true | _ => false end.

(** Neither [null], an array nor a primitive. *)
Definition is_record (v : json) : bool := match v with JObject _ => true | _ => false end.

(** The string a property holds, when [typeof] says it is one. *)
Definition as_string (v : option json) : option jstr :=
  match v with Some (JString s) => Some s | _ => None end.

(** [v === t] for a text. *)
Definition is_text (t : jstr) (v : option json) : bool := match v with Some (JString s) => jeqb s t | _ => false end.

(** [Boolean(v)] *)
Definition json_truthy (v : option json) : bool :=
  match v with
  | None | Some JNull => false
  | Some (JBool b) => b
  | Some (JNumber text) => negb (jeqb text "0")
  | Some (JString s) => negb (jlength s =? 0)
  | Some (JArray _) | Some (JObject _) => true
  end.

(** [String(v)]; an array joins its elements, the null ones as nothing. *)
Fixpoint String_json (v : json) : jstr :=
  match v with
  | JNull => "null"
  | JBool true => "true"
  | JBool false => "false"
  | JNumber text => text
  | JString s => s
  | JArray items => jjoin "," (map (fun i => match i with JNull => Js [] | _ => String_json i end) items)
  | JObject _ => "[object Object]"
  end.

Definition String_of (v : option json) : jstr :=
  match v with Some v => String_json v | None => "undefined" end.

(** A non-empty string property. *)
Definition nonempty_string (v : option json) : option jstr :=
  match as_string v with Some s => if jlength s =? 0 then None else Some s | None => None end.

Lemma as_string_some v s : as_string v = Some s <-> v = Some (JString s).
Proof. destruct v as [[]|]; cbn; split; congruence. Qed.

Lemma nonempty_string_some v s : nonempty_string v = Some s <-> v = Some (JString s) /\ jlength s <> 0.
Proof.
  unfold nonempty_string. destruct (as_string v) as [s'|] eqn:E.
  - apply as_string_some in E as ->. destruct (Z.eqb_spec (jlength s') 0) as [H|H];
      (split; [congruence|intros [? ?]; congruence]) || (split; [intros [= ->]; done|intros [? ?]; congruence]).
  - split; [done|]. intros [H _]. apply as_string_some in H. congruence.
Qed.

(** ** The engine's reader and writer of JSON *)

Class JsonEngine := {
  json_parse : jstr -> option json;   (* [None] for its exception *)
  json_stringify : json -> jstr
}.

(** ** Reading *)

(** [v?.name] *)
Definition chain (v : option json) (name : jstr) : option json :=
  match v with Some v => member name v | None => None end.

(** [a ?? b] *)
Definition coalesce (a b : option json) : option json :=
  match a with None | Some JNull => b | Some _ => a end.

(** [value && typeof value === 'object' && !Array.isArray(value) ? value : null] *)
Definition asRecord (v : option json) : option json :=
  match v with Some (JObject m) => Some (JObject m) | _ => None end.

Definition array_items (v : option json) : option (list json) :=
  match v with Some (JArray items) => Some items | _ => None end.

(** The digits of a number's text: the integer part, the fraction, the exponent. *)
Fixpoint span_numerals (u : list N) : list N * list N :=
  match u with
  | c :: r => if is_digit c then let '(d, t) := span_numerals r in (c :: d, t) else ([], u)
  | [] => ([], [])
  end.

Definition exponent_of (u : list N) : Z :=
  match u with
  | 101%N :: 45%N :: d => - value_of d
  | 101%N :: 43%N :: d => value_of d
  | _ => 0
  end.

(** The number a text prints, as a sign and a multiple of a power of ten, [None] when it
    is not finite.  [String] prints digits, a fraction and, at the extremes, an exponent. *)
Definition number_parts (text : jstr) : option (Z * Z * Z) :=
  let '(sign, u) := match units text with
                    | c :: u => if (c =? 45)%N then (-1, u) else (1, c :: u)
                    | [] => (1, [])
                    end in
  match span_numerals u with
  | ([], _) => None
  | (whole, tail) =>
      let '(fraction, tail) := match tail with 46%N :: r => span_numerals r | _ => ([], tail) end in
      Some (sign, value_of (whole ++ fraction), exponent_of tail - Z.of_nat (length fraction))
  end.

(** [Math.trunc] of a finite number. *)
Definition number_trunc (text : jstr) : option Z :=
  '(sign, scaled, shift) ← number_parts text;
  Some (sign * (if 0 <=? shift then scaled * 10 ^ shift else scaled / 10 ^ (- shift))).

(** [value > bound] for a number of a JSON text, whose one infinite value that is not
    above the bound is the negative one. *)
Definition exceeds (bound : Z) (text : jstr) : bool :=
  match number_parts text with
  | Some (sign, scaled, shift) =>
      if 0 <=? shift then bound <? sign * scaled * 10 ^ shift else bound * 10 ^ (- shift) <? sign * scaled
  | None => negb (jstartsWith text "-")
  end.

(** [typeof value === 'number' && Number.isFinite(value) ? Math.max(0, Math.trunc(value)) : null] *)
Definition asCount (v : option json) : option Z :=
  match v with
  | Some (JNumber text) => match number_trunc text with Some n => Some (Z.max 0 n) | None => None end
  | _ => None
  end.

(** A number the code computes; below [1e21] [String] prints no exponent. *)
Definition JInt (z : Z) : json := JNumber (jstring_of_Z z).

(** ** Writing *)

(** [o.name = v], and [map.set(name, v)]: an existing key keeps its place. *)
Fixpoint set_member {A} (name : jstr) (v : A) (members : list (jstr * A)) : list (jstr * A) :=
  match members with
  | [] => [(name, v)]
  | (k, w) :: r => if jeqb k name then (k, v) :: r else (k, w) :: set_member name v r
  end.

Definition delete_member (name : jstr) (members : list (jstr * json)) : list (jstr * json) :=
  List.filter (fun kv => negb (jeqb (fst kv) name)) members.

Definition with_member (name : jstr) (v : json) (o : json) : json :=
  match o with JObject m => JObject (set_member name v m) | _ => o end.

(** [{ ...v }]: an array spreads its indices, a text its units. *)
Fixpoint indexed (i : Z) (items : list json) : list (jstr * json) :=
  match items with
  | [] => []
  | v :: r => (jstring_of_Z i, v) :: indexed (i + 1) r
  end.

Definition spread (v : json) : list (jstr * json) :=
  match v with
  | JObject m => m
  | JArray items => indexed 0 items
  | JString s => indexed 0 (map (fun c => JString (Js [c])) (units s))
  | _ => []
  end.

(** ** Lemmas *)

Lemma set_member_fresh {A} k (v : A) m : k ∉ map fst m -> set_member k v m = m ++ [(k, v)].
Proof.
  induction m as [|[j w] m IH]; cbn; [done|]. intros [Hne Hk]%not_elem_of_cons.
  rewrite (proj2 (jeqb_neq j k)) by congruence. by rewrite IH.
Qed.

Lemma member_set_eq name v m : member name (JObject (set_member name v m)) = Some v.
Proof.
  cbn. induction m as [|[k w] m IH]; cbn; [by rewrite jeqb_refl|]. destruct (jeqb k name) eqn:E; cbn; by rewrite E.
Qed.

Lemma member_set_ne name name' v m : name <> name' ->
  member name (JObject (set_member name' v m)) = member name (JObject m).
Proof.
  intros Hne. cbn. induction m as [|[k w] m IH]; cbn.
  - by rewrite (proj2 (jeqb_neq name' name)) by congruence.
  - destruct (jeqb k name') eqn:E; cbn; destruct (jeqb k name) eqn:E'; [|done|done|done].
    apply jeqb_eq in E, E'. congruence.
Qed.

Lemma member_delete_eq name m : member name (JObject (delete_member name m)) = None.
Proof.
  cbn. unfold delete_member. induction m as [|[k w] m IH]; cbn; [done|]. destruct (jeqb k name) eqn:E; cbn; [done|].
  by rewrite E.
Qed.

Lemma member_delete_ne name name' m : name <> name' ->
  member name (JObject (delete_member name' m)) = member name (JObject m).
Proof.
  intros Hne. cbn. unfold delete_member. induction m as [|[k w] m IH]; cbn; [done|].
  destruct (jeqb k name') eqn:E; cbn; destruct (jeqb k name) eqn:E'; try done.
  apply jeqb_eq in E, E'. congruence.
Qed.

Lemma asCount_nonneg v n : asCount v = Some n -> 0 <= n.
Proof. destruct v as [[]|]; cbn; try done. destruct (number_trunc text); [|done]. intros [= <-]. lia. Qed.

Lemma span_numerals_digits u v : forallb is_digit u = true ->
  match v with c :: _ => is_digit c = false | [] => True end -> span_numerals (u ++ v) = (u, v).
Proof.
  induction u as [|c u IH]; cbn [app span_numerals forallb].
  - intros _. destruct v as [|c v]; [done|]. cbn. by intros ->.
  - intros [Hc Hu]%andb_true_iff Hv. by rewrite Hc, IH.
Qed.

(** What [asCount] reads back from a number the code wrote. *)
Lemma asCount_JInt n : 0 <= n -> asCount (Some (JInt n)) = Some n.
Proof.
  intros Hn. unfold JInt, asCount, number_trunc, number_parts, jstring_of_Z. rewrite (proj2 (Z.ltb_ge _ _)) by done. cbn [units].
  pose proof (digits_fuel_digit (N.to_nat (N.size (Z.to_N n)) + 1) (Z.to_N n)) as Hd. fold (digits_of (Z.to_N n)) in Hd.
  assert (digits_of (Z.to_N n) <> []) as Hne by (unfold digits_of; rewrite Nat.add_1_r; cbn; destruct (_ <? 10)%N; [done|by destruct (digits_fuel _ _)]).
  pose proof (digits_of_value (Z.to_N n)) as Hv. destruct (digits_of (Z.to_N n)) as [|c d]; [done|].
  assert (is_digit c = true) as Hc by (cbn in Hd; by apply andb_true_iff in Hd as [? _]).
  assert ((c =? 45)%N = false) as Hm by (unfold is_digit in Hc; apply andb_true_iff in Hc as [Hc _]; apply N.leb_le in Hc; apply N.eqb_neq; lia).
  rewrite Hm, <- (app_nil_r (c :: d)), span_numerals_digits by done. cbn [exponent_of length Z.of_nat mbind option_bind]. rewrite app_nil_r.
  rewrite Hv, Z2N.id by done. cbn [Z.of_nat]. change (0 <=? 0 - 0) with true. cbv iota.
  change (10 ^ (0 - 0)) with 1. rewrite Z.mul_1_r, Z.mul_1_l. by rewrite Z.max_r.
Qed.
