(* ===== verification/LedgerPages.v ===== *)
(** * Paging through the ledger

    [LedgerService.page] of [billing/ledger.service.ts] and the opaque cursors of
    [common/cursor.ts].  A query is a function of the table it reads, so a reader
    walking the pages reads a sequence of tables.  JSON and the buffer codecs are
    the platform's. *)

From stdpp Require Import sorting.
From S2P Require Import Prelude JsString Json Money Store.

(** ** Cursors *)

Record Cursor := { cursor_value : Z; cursor_id : jstr }.

Inductive page_error := BadRequestException (message : jstr).

(** [Buffer.from(s, 'utf8').toString('base64url')] and back, and JSON. *)
Class CursorCodec := {
  to_base64url : jstr -> jstr;
  of_base64url : jstr -> jstr;
  JSON_stringify : json -> jstr;
  parse_json : jstr -> option json
}.

Section Cursors.
Context {K : CursorCodec}.

Definition encodeCursor (c : Cursor) : jstr :=
  to_base64url (JSON_stringify (JArray [JNumber (jstring_of_Z (cursor_value c)); JString (cursor_id c)])).

(** A number in a cursor is an integer, as [encodeCursor] writes it. *)
Definition decodeCursor (cursor : jstr) : result page_error Cursor :=
  match parse_json (of_base64url cursor) with
  | Some (JArray (JNumber text :: JString id :: _)) =>
      Ok {| cursor_value := Number_of_integer (units text); cursor_id := id |}
  | _ => Err (BadRequestException "Malformed cursor.")
  end.
End Cursors.

(** ** The query *)

Definition DEFAULT_PAGE_SIZE : Z := 20.
Definition MAX_PAGE_SIZE : Z := 200.

Record LedgerPageQuery := { pq_workspaceId : jstr; pq_first : option Z; pq_after : option jstr }.

Record LedgerPage := {
  lp_edges : list (jstr * CreditTransaction);
  lp_hasNextPage : bool;
  lp_endCursor : option jstr;
  lp_totalCount : Z
}.

(** [ORDER BY createdAt DESC, id DESC]: [a] is listed before [b]. *)
Definition newer (a b : CreditTransaction) : bool :=
  (ct_createdAt b <? ct_createdAt a) || (ct_createdAt a =? ct_createdAt b) && jltb (ct_id b) (ct_id a).

Definition listed_le (a b : CreditTransaction) : Prop := newer b a = false.

#[global] Instance listed_le_dec a b : Decision (listed_le a b).
Proof. unfold listed_le. apply _. Defined.

(** [createdAt < :cursorValue OR (createdAt = :cursorValue AND id < :cursorId)] *)
Definition past_cursor (c : Cursor) (t : CreditTransaction) : bool :=
  (ct_createdAt t <? cursor_value c) || (ct_createdAt t =? cursor_value c) && jltb (ct_id t) (cursor_id c).

Definition cursor_of (t : CreditTransaction) : Cursor := {| cursor_value := ct_createdAt t; cursor_id := ct_id t |}.

(** [WHERE entry.workspaceId = :workspaceId] *)
Definition of_workspace (id : jstr) (table : list CreditTransaction) : list CreditTransaction :=
  List.filter (fun t => jeqb (ct_workspaceId t) id) table.

Definition page_size (first : option Z) : Z := Z.min (Z.max (default DEFAULT_PAGE_SIZE first) 1) MAX_PAGE_SIZE.

Section Page.
Context {K : CursorCodec}.

Definition page (query : LedgerPageQuery) (table : list CreditTransaction) : result page_error LedgerPage :=
  let size := Z.to_nat (page_size (pq_first query)) in
  let mine := of_workspace (pq_workspaceId query) table in
  matching ← match pq_after query with
             | Some after =>
                 if jlength after =? 0 then Ok mine
                 else cursor ← decodeCursor after; Ok (List.filter (past_cursor cursor) mine)
             | None => Ok mine
             end;
  let rows := take (S size) (merge_sort listed_le matching) in
  let hasNextPage := (size <? length rows)%nat in
  let nodes := if hasNextPage then take size rows else rows in
  let edges := map (fun node => (encodeCursor (cursor_of node), node)) nodes in
  Ok {| lp_edges := edges; lp_hasNextPage := hasNextPage; lp_endCursor := fst <$> last edges;
        lp_totalCount := Z.of_nat (length mine) |}.

(** A reader: the first page, then the one after its end cursor while there is
    one.  [tables] are what each query in turn reads. *)
Fixpoint walk (tables : list (list CreditTransaction)) (query : LedgerPageQuery)
    : result page_error (list CreditTransaction) :=
  match tables with
  | [] => Ok []
  | table :: tables =>
      p ← page query table;
      let nodes := map snd (lp_edges p) in
      if lp_hasNextPage p then
        rest ← walk tables {| pq_workspaceId := pq_workspaceId query; pq_first := pq_first query;
                              pq_after := lp_endCursor p |};
        Ok (nodes ++ rest)
      else Ok nodes
  end.
End Page.

(** ** Lemmas: the order of the listing *)

Lemma newer_irrefl a : newer a a = false.
Proof. unfold newer. by rewrite Z.ltb_irrefl, jltb_irrefl, andb_false_r. Qed.

Lemma newer_spec a b : newer a b = true <->
  ct_createdAt b < ct_createdAt a \/ ct_createdAt a = ct_createdAt b /\ jltb (ct_id b) (ct_id a) = true.
Proof. unfold newer. by rewrite orb_true_iff, andb_true_iff, Z.ltb_lt, Z.eqb_eq. Qed.

Lemma newer_trans a b c : newer a b = true -> newer b c = true -> newer a c = true.
Proof. rewrite !newer_spec. intros [H1|[H1 J1]] [H2|[H2 J2]]; try (left; lia). right. split; [lia|]. eauto using jltb_trans. Qed.

Lemma newer_asym a b : newer a b = true -> newer b a = false.
Proof.
  intros H. destruct (newer b a) eqn:E; [|done]. pose proof (newer_trans _ _ _ H E) as H'. by rewrite newer_irrefl in H'.
Qed.

Lemma newer_total a b : ct_id a <> ct_id b -> newer a b = false -> newer b a = true.
Proof.
  intros Hid H. apply newer_spec. destruct (Z.lt_trichotomy (ct_createdAt a) (ct_createdAt b)) as [Hlt|[Heq|Hgt]].
  - by left.
  - right. split; [done|]. destruct (jltb (ct_id a) (ct_id b)) eqn:E; [done|]. destruct Hid. apply jltb_total; [done|].
    destruct (jltb (ct_id b) (ct_id a)) eqn:E'; [|done].
    assert (newer a b = true) by (apply newer_spec; auto). congruence.
  - assert (newer a b = true) by (apply newer_spec; auto). congruence.
Qed.

Lemma newer_trich a b :
  newer a b = true \/ (ct_createdAt a = ct_createdAt b /\ ct_id a = ct_id b) \/ newer b a = true.
Proof.
  destruct (newer a b) eqn:E; [by left|right]. destruct (decide (ct_id a = ct_id b)) as [Hid|Hid].
  - destruct (decide (ct_createdAt a = ct_createdAt b)) as [Hc|Hc]; [by left|right].
    apply newer_spec. left. destruct (Z.lt_trichotomy (ct_createdAt a) (ct_createdAt b)) as [?|[?|?]]; [done|done|].
    enough (newer a b = true) by congruence. apply newer_spec. by left.
  - right. by apply newer_total.
Qed.

#[global] Instance listed_le_trans : Transitive listed_le.
Proof.
  intros a b c H1 H2. unfold listed_le in *. apply not_true_iff_false. intros E.
  destruct (newer_trich a b) as [E1|[[Hc Hi]|E1]]; [|revert E H2; unfold newer; rewrite Hc, Hi; congruence|congruence].
  pose proof (newer_trans _ _ _ E E1). congruence.
Qed.

#[global] Instance listed_le_total : Total listed_le.
Proof. intros a b. unfold listed_le. destruct (newer b a) eqn:E; [right; by apply newer_asym|by left]. Qed.

(** ** Lemmas: sorted listings *)

(** The rows of a workspace in the order the screen lists them. *)
Definition listing (id : jstr) (table : list CreditTransaction) : list CreditTransaction :=
  merge_sort listed_le (of_workspace id table).

Abbreviation newest_first := (StronglySorted (fun a b => newer a b = true)).

Lemma newest_first_unique l1 l2 : newest_first l1 -> newest_first l2 -> l1 ≡ₚ l2 -> l1 = l2.
Proof.
  apply StronglySorted_unique_strong. intros a b _ _ H1 H2. apply newer_asym in H1. congruence.
Qed.

Lemma sort_newest_first l : NoDup (map ct_id l) -> newest_first (merge_sort listed_le l).
Proof.
  intros Hnd. pose proof (StronglySorted_merge_sort listed_le l) as Hs.
  pose proof (merge_sort_Permutation listed_le l) as Hp.
  assert (NoDup (map ct_id (merge_sort listed_le l))) as Hnd' by by rewrite Hp.
  clear Hp Hnd. induction Hs as [|x k Hs IH Hx]; [constructor|].
  cbn in Hnd'. apply NoDup_cons in Hnd' as [Hni Hnd']. constructor; [auto|].
  rewrite Forall_forall in *. intros y Hy. destruct (newer_trich x y) as [H|[[_ H]|H]]; [done| |].
  - destruct Hni. rewrite H. by apply list_elem_of_fmap_2.
  - apply Hx in Hy. unfold listed_le in Hy. congruence.
Qed.

Lemma sort_id l : newest_first l -> NoDup (map ct_id l) -> merge_sort listed_le l = l.
Proof.
  intros Hs Hnd. apply newest_first_unique; [by apply sort_newest_first|done|apply merge_sort_Permutation].
Qed.

Lemma past_cursor_newer x t : past_cursor (cursor_of x) t = newer x t.
Proof. unfold past_cursor, newer, cursor_of; cbn. by rewrite Z.eqb_sym. Qed.

(** What lies past a row of a listing is the rest of it. *)
Lemma past_suffix l x k : newest_first (l ++ x :: k) -> List.filter (past_cursor (cursor_of x)) (l ++ x :: k) = k.
Proof.
  intros Hs. rewrite List.filter_app. cbn [List.filter]. rewrite (past_cursor_newer x x), newer_irrefl.
  rewrite (filter_all _ k), (filter_nothing _ l); [done| |]; apply Forall_forall; intros y Hy; rewrite past_cursor_newer.
  - apply newer_asym. apply StronglySorted_app in Hs as [Hs _]. apply Hs; [done|constructor].
  - apply StronglySorted_app_1_r in Hs. inversion_clear Hs as [|?? _ Hx]. rewrite Forall_forall in Hx. by apply Hx.
Qed.

#[global] Instance of_workspace_perm id : Proper ((≡ₚ) ==> (≡ₚ)) (of_workspace id).
Proof. apply filter_perm. Qed.

Lemma of_workspace_nodup id t : NoDup (map ct_id t) -> NoDup (map ct_id (of_workspace id t)).
Proof. intros H. eapply sublist_NoDup; [|exact H]. apply map_sublist, filter_sublist. Qed.

Lemma elem_of_workspace id t table : t ∈ of_workspace id table <-> t ∈ table /\ ct_workspaceId t = id.
Proof. unfold of_workspace. by rewrite !list_elem_of_In, List.filter_In, jeqb_eq. Qed.

(** ** A growing table *)

(** [later] is [table] with rows appended to it since, each newer than its
    workspace's earlier rows. *)
Definition grown (table later : list CreditTransaction) : Prop :=
  NoDup (map ct_id later) /\
  exists added, later ≡ₚ added ++ table /\
    (forall a t, a ∈ added -> t ∈ table -> ct_workspaceId a = ct_workspaceId t -> newer a t = true).

(** The listing of a grown table is the earlier one below what was added. *)
Lemma grown_listing id table later : grown table later ->
  exists above, newest_first (above ++ listing id table) /\ of_workspace id later ≡ₚ above ++ listing id table.
Proof.
  intros (Hnd & added & Hp & Hnew).
  assert (NoDup (map ct_id (of_workspace id added ++ of_workspace id table))) as Hnd'.
  { apply (of_workspace_nodup id) in Hnd. rewrite Hp in Hnd. unfold of_workspace in *. by rewrite List.filter_app in Hnd. }
  rewrite map_app, NoDup_app in Hnd'. destruct Hnd' as (Ha & _ & Ht).
  exists (listing id added). split.
  - apply StronglySorted_app. unfold listing. split_and!; [|by apply sort_newest_first|by apply sort_newest_first].
    intros a t. rewrite !merge_sort_Permutation, !elem_of_workspace. intros [H1 H2] [H3 H4]. apply Hnew; congruence.
  - rewrite Hp. unfold listing. rewrite !merge_sort_Permutation. unfold of_workspace. by rewrite List.filter_app.
Qed.

(** ** The codecs *)

Definition ascii_text (s : jstr) : bool := forallb (fun c => (c <? 128)%N) (units s).

(** The largest instant of a [Date]. *)
Definition MAX_TIME : Z := 8640000000000000.

(** A number-and-string array survives [JSON] and the UTF-8 and base64url
    codecs, and its encoding is not empty. *)
Class CursorCodecLaws (K : CursorCodec) := {
  codec_roundtrip : forall value id, Z.abs value <= MAX_TIME -> ascii_text id = true ->
    let encoded := JArray [JNumber (jstring_of_Z value); JString id] in
    parse_json (of_base64url (to_base64url (JSON_stringify encoded))) = Some encoded;
  codec_nonempty : forall v, units (to_base64url (JSON_stringify v)) <> []
}.

(** A row as the store writes it: a timestamp and an identifier of hexadecimal
    digits and dashes. *)
Definition stored_row (t : CreditTransaction) : Prop :=
  Z.abs (ct_createdAt t) <= MAX_TIME /\ ascii_text (ct_id t) = true.

Lemma Number_of_jstring z : Number_of_integer (units (jstring_of_Z z)) = z.
Proof.
  unfold jstring_of_Z. destruct (Z.ltb_spec z 0); cbn [units].
  - cbn. rewrite digits_of_value. lia.
  - rewrite Number_digits. lia.
Qed.

Section Walk.
Context {K : CursorCodec} {L : CursorCodecLaws K}.

Lemma decode_encode_cursor c : Z.abs (cursor_value c) <= MAX_TIME -> ascii_text (cursor_id c) = true -> decodeCursor (encodeCursor c) = Ok c.
Proof.
  intros H1 H2. unfold decodeCursor, encodeCursor. rewrite codec_roundtrip by done. rewrite Number_of_jstring. by destruct c.
Qed.

Lemma decode_encode t : stored_row t -> decodeCursor (encodeCursor (cursor_of t)) = Ok (cursor_of t).
Proof. intros [H1 H2]. by apply decode_encode_cursor. Qed.

Lemma encode_nonempty c : (jlength (encodeCursor c) =? 0) = false.
Proof. unfold jlength, encodeCursor. apply Z.eqb_neq. pose proof (codec_nonempty (JArray [JNumber (jstring_of_Z (cursor_value c)); JString (cursor_id c)])) as H. by destruct (units _). Qed.

(** The page over the rows left to list. *)
Definition page_of (size : nat) (total : Z) (left : list CreditTransaction) : LedgerPage :=
  let edges := map (fun node => (encodeCursor (cursor_of node), node)) (take size left) in
  {| lp_edges := edges; lp_hasNextPage := (size <? length left)%nat; lp_endCursor := fst <$> last edges;
     lp_totalCount := total |}.

Lemma page_build size total (left : list CreditTransaction) :
  (let rows := take (S size) left in
   let hasNextPage := (size <? length rows)%nat in
   let nodes := if hasNextPage then take size rows else rows in
   let edges := map (fun node => (encodeCursor (cursor_of node), node)) nodes in
   {| lp_edges := edges; lp_hasNextPage := hasNextPage; lp_endCursor := fst <$> last edges;
      lp_totalCount := total |}) = page_of size total left.
Proof.
  cbv zeta. unfold page_of. rewrite length_take.
  destruct (Nat.ltb_spec size (length left)) as [H|H].
  - rewrite (proj2 (Nat.ltb_lt _ _)) by lia. by rewrite take_take, Nat.min_l by lia.
  - rewrite (proj2 (Nat.ltb_ge _ _)) by lia. by rewrite !take_ge by lia.
Qed.

Lemma first_page id first table :
  page {| pq_workspaceId := id; pq_first := first; pq_after := None |} table =
  Ok (page_of (Z.to_nat (page_size first)) (Z.of_nat (length (of_workspace id table))) (listing id table)).
Proof. unfold page; cbn [pq_first pq_workspaceId pq_after mbind]. cbn -[take merge_sort]. f_equal. apply page_build. Qed.

(** The page after a row of a listing, over a table that has grown since. *)
Lemma next_page id first table later seen x left :
  grown table later -> listing id table = seen ++ x :: left -> stored_row x ->
  page {| pq_workspaceId := id; pq_first := first; pq_after := Some (encodeCursor (cursor_of x)) |} later =
  Ok (page_of (Z.to_nat (page_size first)) (Z.of_nat (length (of_workspace id later))) left).
Proof.
  intros Hg Hl Hx. destruct (grown_listing id table later Hg) as (above & Hs & Hp).
  unfold page; cbn [pq_first pq_workspaceId pq_after]. rewrite encode_nonempty, decode_encode by done.
  cbn -[take merge_sort]. f_equal. rewrite <- page_build. cbv zeta.
  replace (merge_sort listed_le (List.filter (past_cursor (cursor_of x)) (of_workspace id later))) with left; [done|].
  rewrite Hl, (app_assoc above) in Hs, Hp.
  pose proof (past_suffix _ _ _ Hs) as Hsuf.
  assert (List.filter (past_cursor (cursor_of x)) (of_workspace id later) ≡ₚ left) as Hf by (by rewrite Hp, Hsuf).
  assert (newest_first left) as Hsl.
  { apply StronglySorted_app in Hs as (_ & _ & Hs). by inversion_clear Hs. }
  symmetry. apply newest_first_unique; [|done|by rewrite merge_sort_Permutation].
  apply sort_newest_first. destruct Hg as [Hnd _].
  eapply sublist_NoDup; [apply map_sublist, filter_sublist|by apply of_workspace_nodup].
Qed.

Lemma page_of_end size total left : (1 <= size < length left)%nat ->
  exists init x, take size left = init ++ [x] /\
    lp_endCursor (page_of size total left) = Some (encodeCursor (cursor_of x)).
Proof.
  intros H. destruct (take size left) as [|x l _] eqn:E using rev_ind.
  { apply (f_equal length) in E. rewrite length_take in E. cbn in E. lia. }
  exists l, x. split; [done|]. cbn. rewrite E, map_app. cbn [map]. by rewrite last_snoc.
Qed.

Lemma page_nodes size total left : map snd (lp_edges (page_of size total left)) = take size left.
Proof. cbn. rewrite map_map. apply map_id. Qed.

Lemma page_size_pos first : (1 <= Z.to_nat (page_size first))%nat.
Proof. unfold page_size, MAX_PAGE_SIZE. lia. Qed.

Lemma walk_from id first table tables seen x left :
  Forall (grown table) tables -> Forall stored_row (listing id table) ->
  listing id table = seen ++ x :: left -> (length left <= Z.to_nat (page_size first) * length tables)%nat ->
  walk tables {| pq_workspaceId := id; pq_first := first; pq_after := Some (encodeCursor (cursor_of x)) |} = Ok left.
Proof.
  intros Hg Hrows. revert seen x left. induction Hg as [|later tables Hl Hg IH]; intros seen x left Hlist Hlen.
  { destruct left; [done|cbn in *; lia]. }
  cbn [walk]. rewrite (next_page id first table later seen x left) by
    (done || (rewrite Hlist in Hrows; apply Forall_app in Hrows as [_ Hrows]; by inversion_clear Hrows)).
  cbn [mbind result_bind]. rewrite page_nodes. set (size := Z.to_nat (page_size first)) in *.
  set (p := page_of _ _ _). cbn [lp_hasNextPage p page_of].
  destruct (Nat.ltb_spec size (length left)) as [H|H]; cbn [pq_workspaceId pq_first].
  - destruct (page_of_end size (Z.of_nat (length (of_workspace id later))) left) as (init & y & Ht & He);
      [pose proof (page_size_pos first); lia|].
    fold p in He. rewrite He. rewrite (IH (seen ++ x :: init) y (drop size left)).
    + cbn [mbind result_bind]. by rewrite take_drop.
    + rewrite Hlist. rewrite <- (take_drop size left) at 1. rewrite Ht. by rewrite <- !app_assoc.
    + rewrite length_drop. cbn in Hlen. lia.
  - by rewrite take_ge by lia.
Qed.

(** A reader who follows the cursors from the first page on sees every row the
    workspace's ledger held when the walk began, newest first, none of them twice
    and none skipped, while the ledger grows under the walk between the pages: the
    rows read are the sorted rows of the first table, whatever was added to the
    tables the later pages read. *)
Theorem walk_is_the_listing id first table tables :
  NoDup (map ct_id table) -> Forall stored_row table -> Forall (grown table) tables ->
  (length (of_workspace id table) <= Z.to_nat (page_size first) * S (length tables))%nat ->
  walk (table :: tables) {| pq_workspaceId := id; pq_first := first; pq_after := None |} = Ok (listing id table) /\
  newest_first (listing id table) /\ listing id table ≡ₚ of_workspace id table.
Proof.
  intros Hnd Hrows Hg Hlen.
  assert (listing id table ≡ₚ of_workspace id table) as Hp by apply merge_sort_Permutation.
  split; [|split; [by apply sort_newest_first, of_workspace_nodup|done]].
  assert (Forall stored_row (listing id table)) as Hrows'.
  { rewrite Hp. rewrite !Forall_forall in *. intros t [Ht _]%elem_of_workspace. auto. }
  rewrite <- Hp in Hlen. cbn [walk]. rewrite first_page. cbn [mbind result_bind]. rewrite page_nodes.
  set (size := Z.to_nat (page_size first)) in *. set (p := page_of _ _ _). cbn [lp_hasNextPage p page_of].
  destruct (Nat.ltb_spec size (length (listing id table))) as [H|H]; cbn [pq_workspaceId pq_first].
  - destruct (page_of_end size (Z.of_nat (length (of_workspace id table))) (listing id table)) as (init & y & Ht & He);
      [pose proof (page_size_pos first); lia|].
    fold p in He. rewrite He, (walk_from id first table tables init y (drop size (listing id table))); [|done..| |].
    + cbn [mbind result_bind]. by rewrite take_drop.
    + rewrite <- (take_drop size (listing id table)) at 1. rewrite Ht. by rewrite <- app_assoc.
    + rewrite length_drop. lia.
  - by rewrite take_ge by lia.
Qed.
End Walk.

(** ** A concrete codec *)

(** The two fields with a comma between them; no text a number prints has one. *)
Definition plain_codec : CursorCodec := {|
  to_base64url := id; of_base64url := id;
  JSON_stringify v := match v with
                      | JArray [JNumber text; JString id] => text +++ "," +++ id
                      | _ => "?"
                      end;
  parse_json s := match index_of [44%N] (units s) with
                  | Some i => Some (JArray [JNumber (Js (take i (units s))); JString (Js (drop (S i) (units s)))])
                  | None => None
                  end
|}.

Lemma index_of_comma u r : forallb (fun c => negb (c =? 44)%N) u = true ->
  index_of [44%N] (u ++ 44%N :: r) = Some (length u).
Proof.
  induction u as [|c u IH]; [done|]. rewrite <- app_comm_cons. cbn [forallb index_of prefixb length].
  intros [Hc Hu]%andb_true_iff. rewrite N.eqb_sym in Hc. destruct (44 =? c)%N; [done|]. cbn. by rewrite IH.
Qed.

Lemma no_comma_number z : forallb (fun c => negb (c =? 44)%N) (units (jstring_of_Z z)) = true.
Proof.
  assert (forall n, forallb (fun c => negb (c =? 44)%N) (digits_of n) = true) as H.
  { intros n. pose proof (digits_fuel_digit (N.to_nat (N.size n) + 1) n) as Hd. rewrite forallb_forall in *.
    intros c Hc%Hd. unfold is_digit in Hc. apply andb_true_iff in Hc as [Hc _]. apply N.leb_le in Hc.
    apply negb_true_iff, N.eqb_neq. lia. }
  unfold jstring_of_Z. destruct (z <? 0); cbn; apply H.
Qed.

#[global] Instance plain_codec_laws : CursorCodecLaws plain_codec.
Proof.
  split.
  - intros v i _ _. cbn -[index_of jstring_of_Z]. rewrite index_of_comma by apply no_comma_number.
    rewrite take_app_length, <- Nat.add_1_r, <- drop_drop, drop_app_length. cbn. by destruct (jstring_of_Z v), i.
  - intros v. cbn. repeat case_match; cbn; try done. by destruct (units text).
Qed.

Definition example_row (id : jstr) (at_time : Z) : CreditTransaction :=
  {| ct_id := id; ct_workspaceId := "w"; ct_kind := usage; ct_amountMicros := -1; ct_reference := None;
     ct_description := None; ct_idempotencyKey := id; ct_createdAt := at_time |}.

Definition example_table : list CreditTransaction :=
  [example_row "a" 1000; example_row "c" 2000; example_row "b" 2000].

Lemma walk_is_the_listing_witness :
  walk (K := plain_codec)
    [example_table; example_row "d" 3000 :: example_table]
    {| pq_workspaceId := "w"; pq_first := Some 2; pq_after := None |}
  = Ok [example_row "c" 2000; example_row "b" 2000; example_row "a" 1000].
Proof.
  pose proof (walk_is_the_listing (K := plain_codec) "w" (Some 2) example_table [example_row "d" 3000 :: example_table]) as H.
  destruct H as [H _].
  - apply (bool_decide_unpack _). vm_compute. reflexivity.
  - repeat constructor; vm_compute; congruence.
  - constructor; [|constructor]. split; [apply (bool_decide_unpack _); vm_compute; reflexivity|].
    exists [example_row "d" 3000]. split; [reflexivity|]. intros a t Ha%list_elem_of_singleton Ht _. subst a.
    repeat (apply elem_of_cons in Ht as [->|Ht]; [reflexivity|]). by apply elem_of_nil in Ht.
  - vm_compute. lia.
  - rewrite H. vm_compute. reflexivity.
Defined.
