(* ===== verification/Payments.v ===== *)
(** * Payments over the ledger

    [billing/payment-provider.ts] and its three implementations,
    [billing/billing.service.ts], [billing/auto-top-up.service.ts],
    [billing/credits.gateway.ts] and [common/signed-link.ts].  Stripe's client, HMAC,
    base64url and the URL serializer are records of functions; what Stripe sends is
    data with the fields the code reads. *)

From S2P Require Import Prelude JsString Json Money Store Ledger.

(** ** Signed links *)

(** [base64url(JSON.stringify(…))], its reader and the HMAC. *)
Class LinkCodec := {
  link_encode : json -> jstr;
  link_decode : jstr -> option json;
  link_sign : jstr -> jstr -> jstr
}.

Definition Unauthorized (message : jstr) : error := ProviderError message.

Definition signLink `{LinkCodec} (secret : jstr) (claims : list (jstr * json)) (ttlMs now : Z) : jstr :=
  let body := link_encode (JObject (set_member "exp" (JInt (now + ttlMs)) claims)) in
  body +++ "." +++ link_sign secret body.

Definition verifyLink `{LinkCodec} (secret token audience : jstr) (now : Z) : result error json :=
  match jsplit 46%N token with
  | body :: signature :: _ =>
      if (jlength body =? 0) || (jlength signature =? 0) || negb (jeqb (link_sign secret body) signature)
      then Err (Unauthorized "This link is not valid.")
      else
        match link_decode body with
        | None => Err (Unauthorized "This link is not valid.")
        | Some JNull => Err (ProviderError "Cannot read properties of null")
        | Some claims =>
            if negb (is_text audience (member "aud" claims)) then Err (Unauthorized "This link is not valid.")
            else
              match member "exp" claims with
              | Some (JNumber exp) => if exceeds now exp then Ok claims else Err (Unauthorized "This link has expired.")
              | _ => Err (Unauthorized "This link has expired.")
              end
        end
  | _ => Err (Unauthorized "This link is not valid.")
  end.

(** ** The provider's interface *)

Record CheckoutRequest := {
  cq_workspaceId : jstr;
  cq_amountMicros : Z;
  cq_customerRef : option jstr;
  cq_email : option jstr;
  cq_successUrl : jstr;
  cq_cancelUrl : jstr
}.

Record CheckoutSession := { cs_url : jstr; cs_ref : jstr }.

Record LedgerEvent := {
  ev_workspaceId : jstr;
  ev_kind : CreditTransactionKind;
  ev_amountMicros : Z;
  ev_reference : jstr;
  ev_idempotencyKey : jstr;
  ev_description : option jstr;
  ev_customerRef : option jstr
}.

Record SavedCharge := {
  sc_workspaceId : jstr;
  sc_customerRef : jstr;
  sc_amountMicros : Z;
  sc_idempotencyKey : jstr;
  sc_description : option jstr
}.

Record PaymentProvider := {
  pp_name : jstr;
  pp_supportsCheckout : bool;
  pp_supportsSavedPaymentMethods : bool;
  pp_createCheckout : CheckoutRequest -> result error CheckoutSession;
  pp_handleWebhook : jstr -> option jstr -> result error (list LedgerEvent);
  pp_chargeSaved : SavedCharge -> result error (option LedgerEvent)
}.

(** The cents of an amount, the money error as a service error. *)
Definition cents_of (amountMicros : Z) : result error Z :=
  match microsToCents amountMicros with Ok c => Ok c | Err e => Err (InvalidAmount e) end.

Definition top_up_text (amountMicros : Z) : jstr := "Automatic top-up of $" +++ microsToUsdString amountMicros.

(** ** [DisabledPaymentProvider] *)

Definition PURCHASES_DISABLED_MESSAGE : jstr := "Buying credits is switched off on this deployment.".

Definition DisabledPaymentProvider : PaymentProvider :=
  {| pp_name := "disabled"; pp_supportsCheckout := false; pp_supportsSavedPaymentMethods := false;
     pp_createCheckout := fun _ => Err (ProviderError PURCHASES_DISABLED_MESSAGE);
     pp_handleWebhook := fun _ _ => Ok [];
     pp_chargeSaved := fun _ => Err (ProviderError PURCHASES_DISABLED_MESSAGE) |}.

(** ** [ManualPaymentProvider] *)

Definition MANUAL_CHECKOUT_AUDIENCE : jstr := "billing:manual-checkout".

Definition CHECKOUT_TTL_MS : Z := 60 * 60 * 1000.

(** The link of a checkout; [complete_url] puts the token in the page's query. *)
Definition manual_createCheckout `{LinkCodec} (secret uuid : jstr) (now : Z) (complete_url : jstr -> jstr)
    (request : CheckoutRequest) : result error CheckoutSession :=
  cents ← cents_of (cq_amountMicros request);
  let ref := "manual_cs_" +++ uuid in
  let token := signLink secret
    [("aud" : jstr, JString MANUAL_CHECKOUT_AUDIENCE); ("workspaceId" : jstr, JString (cq_workspaceId request));
     ("cents" : jstr, JInt cents); ("ref" : jstr, JString ref); ("successUrl" : jstr, JString (cq_successUrl request))]
    CHECKOUT_TTL_MS now in
  Ok {| cs_url := complete_url token; cs_ref := ref |}.

(** A claim of the type the signer gave it. *)
Definition claim_text (name : jstr) (claims : json) : jstr := default (Js []) (as_string (member name claims)).

Definition claim_count (name : jstr) (claims : json) : Z := default 0 (asCount (member name claims)).

Definition completeCheckout `{LinkCodec} (secret token : jstr) (now : Z) : result error (LedgerEvent * jstr) :=
  claims ← verifyLink secret token MANUAL_CHECKOUT_AUDIENCE now;
  let amountMicros := centsToMicros (claim_count "cents" claims) in
  let ref := claim_text "ref" claims in
  Ok ({| ev_workspaceId := claim_text "workspaceId" claims; ev_kind := purchase; ev_amountMicros := amountMicros;
         ev_reference := ref; ev_idempotencyKey := "manual:" +++ ref;
         ev_description := Some ("Manual top-up of $" +++ microsToUsdString amountMicros);
         ev_customerRef := Some ("manual_cus_" +++ claim_text "workspaceId" claims) |},
      claim_text "successUrl" claims).

Definition manual_chargeSaved (uuid : jstr) (charge : SavedCharge) : result error (option LedgerEvent) :=
  Ok (Some {| ev_workspaceId := sc_workspaceId charge; ev_kind := auto_topup; ev_amountMicros := sc_amountMicros charge;
              ev_reference := "manual_pi_" +++ uuid; ev_idempotencyKey := sc_idempotencyKey charge;
              ev_description := Some (default (top_up_text (sc_amountMicros charge)) (sc_description charge));
              ev_customerRef := Some (sc_customerRef charge) |}).

Definition ManualPaymentProvider `{LinkCodec} (secret uuid : jstr) (now : Z) (complete_url : jstr -> jstr) : PaymentProvider :=
  {| pp_name := "manual"; pp_supportsCheckout := true; pp_supportsSavedPaymentMethods := true;
     pp_createCheckout := manual_createCheckout secret uuid now complete_url;
     pp_handleWebhook := fun _ _ => Ok [];
     pp_chargeSaved := manual_chargeSaved uuid |}.

(** ** [StripePaymentProvider] *)

Definition AUTO_TOPUP_METADATA_KEY : jstr := "cr_auto_topup".
Definition WORKSPACE_METADATA_KEY : jstr := "cr_workspace_id".

(** [string | { id: string } | null] *)
Inductive Expandable := Plain (id : jstr) | Expanded (id : jstr).

Definition idOf (value : option Expandable) : option jstr :=
  match value with
  | Some (Plain id) => if jlength id =? 0 then None else Some id
  | Some (Expanded id) => Some id
  | None => None
  end.

Definition Metadata := jstr -> option jstr.

Record StripeSession := {
  ss_id : jstr;
  ss_client_reference_id : option jstr;
  ss_metadata : Metadata;
  ss_payment_status : jstr;
  ss_amount_total : option Z;
  ss_payment_intent : option Expandable;
  ss_customer : option Expandable
}.

Record PaymentIntent := {
  pi_id : jstr;
  pi_status : jstr;
  pi_amount : Z;
  pi_amount_received : Z;
  pi_metadata : Metadata;
  pi_customer : option Expandable
}.

Record StripeCharge := {
  ch_id : jstr;
  ch_amount_refunded : Z;
  ch_metadata : Metadata;
  ch_customer : option Expandable
}.

(** The events of [HANDLED_EVENTS], and any other. *)
Inductive StripeEvent :=
| checkout_session_completed (session : StripeSession)
| payment_intent_succeeded (intent : PaymentIntent)
| charge_refunded (charge : StripeCharge)
| unhandled_event.

Record SessionParams := {
  sp_client_reference_id : jstr;
  sp_customer : option jstr;
  sp_customer_email : option jstr;
  sp_customer_creation : option jstr;
  sp_success_url : jstr;
  sp_cancel_url : jstr;
  sp_metadata : list (jstr * jstr);
  sp_unit_amount : Z;
  sp_description : jstr
}.

Record IntentParams := {
  ip_amount : Z;
  ip_customer : jstr;
  ip_payment_method : jstr;
  ip_metadata : list (jstr * jstr);
  ip_idempotencyKey : jstr
}.

Record StripeCustomer := { cu_deleted : bool; cu_default_payment_method : option Expandable }.

(** Stripe's client. *)
Record StripeApi := {
  api_construct_event : jstr -> jstr -> option StripeEvent;   (* [None] for a bad signature *)
  api_create_session : SessionParams -> result error (option jstr * jstr);   (* its url and id *)
  api_retrieve_customer : jstr -> result error StripeCustomer;
  api_list_payment_methods : jstr -> result error (list jstr);
  api_create_intent : IntentParams -> result error PaymentIntent
}.

Definition stripe_createCheckout (api : StripeApi) (request : CheckoutRequest) : result error CheckoutSession :=
  cents ← cents_of (cq_amountMicros request);
  let metadata := [(WORKSPACE_METADATA_KEY, cq_workspaceId request)] in
  let known := present (cq_customerRef request) in
  '(url, id) ← api_create_session api
    {| sp_client_reference_id := cq_workspaceId request;
       sp_customer := cq_customerRef request;
       sp_customer_email := if known then None else cq_email request;
       sp_customer_creation := if known then None else Some ("always" : jstr);
       sp_success_url := cq_successUrl request; sp_cancel_url := cq_cancelUrl request; sp_metadata := metadata;
       sp_unit_amount := cents;
       sp_description := "$" +++ microsToUsdString (cq_amountMicros request) +++ " of prepaid credits" |};
  match present url with
  | None => Err (ProviderError ("Stripe returned checkout session " +++ id +++ " without a URL."))
  | Some url => Ok {| cs_url := url; cs_ref := id |}
  end.

Definition fromCheckout (session : StripeSession) : list LedgerEvent :=
  let workspaceId := match ss_client_reference_id session with
                     | Some id => Some id
                     | None => ss_metadata session WORKSPACE_METADATA_KEY
                     end in
  match present workspaceId, ss_amount_total session with
  | Some workspaceId, Some total =>
      if negb (jeqb (ss_payment_status session) "paid") || (total =? 0) then []
      else
        let paymentIntent := default (ss_id session) (idOf (ss_payment_intent session)) in
        [{| ev_workspaceId := workspaceId; ev_kind := purchase; ev_amountMicros := centsToMicros total;
            ev_reference := paymentIntent; ev_idempotencyKey := "stripe:payment:" +++ paymentIntent;
            ev_description := Some ("Credit purchase of $" +++ microsToUsdString (centsToMicros total));
            ev_customerRef := idOf (ss_customer session) |}]
  | _, _ => []
  end.

(** [intent.amount_received || intent.amount] *)
Definition intent_amount (intent : PaymentIntent) : Z :=
  if pi_amount_received intent =? 0 then pi_amount intent else pi_amount_received intent.

Definition fromAutoTopUp (intent : PaymentIntent) : list LedgerEvent :=
  if negb (bool_decide (pi_metadata intent AUTO_TOPUP_METADATA_KEY = Some ("true" : jstr))) then []
  else
    match present (pi_metadata intent WORKSPACE_METADATA_KEY) with
    | None => []
    | Some workspaceId =>
        let amountMicros := centsToMicros (intent_amount intent) in
        [{| ev_workspaceId := workspaceId; ev_kind := auto_topup; ev_amountMicros := amountMicros;
            ev_reference := pi_id intent; ev_idempotencyKey := "stripe:payment:" +++ pi_id intent;
            ev_description := Some (top_up_text amountMicros); ev_customerRef := idOf (pi_customer intent) |}]
    end.

Definition fromRefund (charge : StripeCharge) : list LedgerEvent :=
  match present (ch_metadata charge WORKSPACE_METADATA_KEY) with
  | Some workspaceId =>
      if ch_amount_refunded charge =? 0 then []
      else
        let amountMicros := centsToMicros (ch_amount_refunded charge) in
        [{| ev_workspaceId := workspaceId; ev_kind := refund; ev_amountMicros := - amountMicros; ev_reference := ch_id charge;
            ev_idempotencyKey := "stripe:refund:" +++ ch_id charge +++ ":" +++ jstring_of_Z (ch_amount_refunded charge);
            ev_description := Some ("Refund of $" +++ microsToUsdString amountMicros); ev_customerRef := idOf (ch_customer charge) |}]
  | None => []
  end.

Definition stripe_handleWebhook (api : StripeApi) (rawBody : jstr) (signature : option jstr) : result error (list LedgerEvent) :=
  match present signature with
  | None => Err (Unauthorized "Missing Stripe signature.")
  | Some signature =>
      match api_construct_event api rawBody signature with
      | None => Err (Unauthorized "Invalid Stripe signature.")
      | Some (checkout_session_completed session) => Ok (fromCheckout session)
      | Some (payment_intent_succeeded intent) => Ok (fromAutoTopUp intent)
      | Some (charge_refunded charge) => Ok (fromRefund charge)
      | Some unhandled_event => Ok []
      end
  end.

Definition defaultPaymentMethod (api : StripeApi) (customerRef : jstr) : result error (option jstr) :=
  customer ← api_retrieve_customer api customerRef;
  if cu_deleted customer then Ok None
  else match present (idOf (cu_default_payment_method customer)) with
       | Some saved => Ok (Some saved)
       | None => methods ← api_list_payment_methods api customerRef; Ok (head methods)
       end.

Definition stripe_chargeSaved (api : StripeApi) (charge : SavedCharge) : result error (option LedgerEvent) :=
  method ← defaultPaymentMethod api (sc_customerRef charge);
  match present method with
  | None => Ok None
  | Some method =>
      cents ← cents_of (sc_amountMicros charge);
      intent ← api_create_intent api
        {| ip_amount := cents; ip_customer := sc_customerRef charge; ip_payment_method := method;
           ip_metadata := [(AUTO_TOPUP_METADATA_KEY, "true" : jstr); (WORKSPACE_METADATA_KEY, sc_workspaceId charge)];
           ip_idempotencyKey := sc_idempotencyKey charge |};
      if negb (jeqb (pi_status intent) "succeeded") then Ok None
      else Ok (Some {| ev_workspaceId := sc_workspaceId charge; ev_kind := auto_topup;
                       ev_amountMicros := centsToMicros (intent_amount intent); ev_reference := pi_id intent;
                       ev_idempotencyKey := sc_idempotencyKey charge;
                       ev_description := Some (default (top_up_text (sc_amountMicros charge)) (sc_description charge));
                       ev_customerRef := Some (sc_customerRef charge) |})
  end.

Definition StripePaymentProvider (api : StripeApi) : PaymentProvider :=
  {| pp_name := "stripe"; pp_supportsCheckout := true; pp_supportsSavedPaymentMethods := true;
     pp_createCheckout := stripe_createCheckout api;
     pp_handleWebhook := stripe_handleWebhook api;
     pp_chargeSaved := stripe_chargeSaved api |}.

(** ** [BillingService] *)

Record BillingConfig := {
  bc_allowOverdraftMicros : Z;
  bc_minTopUpMicros : Z;
  bc_maxTopUpMicros : Z;
  bc_autoTopUpCooldown : Z;
  bc_checkoutReturnUrl : jstr
}.

Record AutoTopUpSettings := { at_enabled : bool; at_thresholdMicros : option Z; at_amountMicros : option Z }.

Record CreditsView := {
  cv_workspaceId : jstr;
  cv_balance : CreditsBalance;
  cv_minTopUpMicros : Z;
  cv_maxTopUpMicros : Z;
  cv_autoTopUp : AutoTopUpSettings;
  cv_purchasesAvailable : bool;
  cv_autoTopUpAvailable : bool;
  cv_lastAutoTopUpAt : option Z
}.

Definition with_customer (ref : jstr) (w : Workspace) : Workspace :=
  {| balanceMicros := balanceMicros w; stripeCustomerId := Some ref; autoTopUpEnabled := autoTopUpEnabled w;
     autoTopUpThresholdMicros := autoTopUpThresholdMicros w; autoTopUpAmountMicros := autoTopUpAmountMicros w;
     autoTopUpLastAt := autoTopUpLastAt w; firstRequestAt := firstRequestAt w; ws_createdAt := ws_createdAt w |}.

Definition with_claim (at_ : Z) (w : Workspace) : Workspace :=
  {| balanceMicros := balanceMicros w; stripeCustomerId := stripeCustomerId w; autoTopUpEnabled := autoTopUpEnabled w;
     autoTopUpThresholdMicros := autoTopUpThresholdMicros w; autoTopUpAmountMicros := autoTopUpAmountMicros w;
     autoTopUpLastAt := Some at_; firstRequestAt := firstRequestAt w; ws_createdAt := ws_createdAt w |}.

Definition with_settings (s : AutoTopUpSettings) (w : Workspace) : Workspace :=
  {| balanceMicros := balanceMicros w; stripeCustomerId := stripeCustomerId w; autoTopUpEnabled := at_enabled s;
     autoTopUpThresholdMicros := if at_enabled s then at_thresholdMicros s else None;
     autoTopUpAmountMicros := if at_enabled s then at_amountMicros s else None;
     autoTopUpLastAt := autoTopUpLastAt w; firstRequestAt := firstRequestAt w; ws_createdAt := ws_createdAt w |}.

Definition requireWorkspace (db : Store) (id : jstr) : result error Workspace :=
  match workspaces db !! id with Some w => Ok w | None => Err (NotFoundException "Workspace not found.") end.

Definition creditsView (config : BillingConfig) (provider : PaymentProvider) (db : Store) (id : jstr) : result error CreditsView :=
  w ← requireWorkspace db id;
  Ok {| cv_workspaceId := id; cv_balance := toBalance (bc_allowOverdraftMicros config) (balanceMicros w);
        cv_minTopUpMicros := bc_minTopUpMicros config; cv_maxTopUpMicros := bc_maxTopUpMicros config;
        cv_autoTopUp := {| at_enabled := autoTopUpEnabled w; at_thresholdMicros := autoTopUpThresholdMicros w;
                           at_amountMicros := autoTopUpAmountMicros w |};
        cv_purchasesAvailable := pp_supportsCheckout provider;
        cv_autoTopUpAvailable := pp_supportsSavedPaymentMethods provider; cv_lastAutoTopUpAt := autoTopUpLastAt w |}.

Definition assertTopUpAmount (config : BillingConfig) (amountMicros : Z) : result error unit :=
  if amountMicros <? bc_minTopUpMicros config then
    Err (BadRequestException ("The minimum top-up is $" +++ microsToUsdString (bc_minTopUpMicros config) +++ "."))
  else if bc_maxTopUpMicros config <? amountMicros then
    Err (BadRequestException ("The maximum top-up is $" +++ microsToUsdString (bc_maxTopUpMicros config) +++ "."))
  else _ ← cents_of amountMicros; Ok tt.

(** [topup] of the return URL; [set_query] is the platform's URL serializer. *)
Definition createCheckout (config : BillingConfig) (provider : PaymentProvider) (set_query : jstr -> jstr -> jstr -> jstr)
    (db : Store) (workspaceId : jstr) (amountMicros : Z) (email : option jstr) : result error CheckoutSession :=
  workspace ← requireWorkspace db workspaceId;
  _ ← assertTopUpAmount config amountMicros;
  pp_createCheckout provider
    {| cq_workspaceId := workspaceId; cq_amountMicros := amountMicros; cq_customerRef := stripeCustomerId workspace;
       cq_email := email; cq_successUrl := set_query (bc_checkoutReturnUrl config) "topup" "success";
       cq_cancelUrl := set_query (bc_checkoutReturnUrl config) "topup" "cancelled" |}.

Definition rememberCustomer (workspaceId customerRef : jstr) (db : Store) : Store :=
  fst (update_workspace workspaceId (fun w => match stripeCustomerId w with None => true | Some _ => false end)
         (with_customer customerRef) db).

Definition event_input (event : LedgerEvent) : LedgerEntryInput :=
  {| in_workspaceId := ev_workspaceId event; in_kind := ev_kind event; in_amountMicros := ev_amountMicros event;
     in_idempotencyKey := ev_idempotencyKey event; in_reference := Some (ev_reference event);
     in_description := ev_description event |}.

(** One event; each is written on its own, so what came before an error stays. *)
Definition apply_event (env : write_env) (event : LedgerEvent) (db : Store) : Store * result error LedgerEntry :=
  let db := match present (ev_customerRef event) with
            | Some ref => rememberCustomer (ev_workspaceId event) ref db
            | None => db
            end in
  record env (event_input event) db.

Fixpoint apply_events (events : list (write_env * LedgerEvent)) (db : Store) : Store * result error (list LedgerEntry) :=
  match events with
  | [] => (db, Ok [])
  | (env, event) :: rest =>
      match apply_event env event db with
      | (db, Err e) => (db, Err e)
      | (db, Ok entry) =>
          let '(db, applied) := apply_events rest db in
          (db, match applied with Ok l => Ok (entry :: l) | Err e => Err e end)
      end
  end.

(** [handleWebhook]; [envs] gives the id and the clock reading of each event. *)
Definition handleWebhook (provider : PaymentProvider) (envs : nat -> write_env) (rawBody : jstr) (signature : option jstr) (db : Store)
    : Store * result error (list LedgerEntry) :=
  match pp_handleWebhook provider rawBody signature with
  | Err e => (db, Err e)
  | Ok events => apply_events (imap (fun i event => (envs i, event)) events) db
  end.

(** Only reached when the manual provider is bound, which the caller checks. *)
Definition completeManualCheckout `{LinkCodec} (manual : bool) (secret : jstr) (env : write_env) (token : jstr) (db : Store)
    : Store * result error jstr :=
  if negb manual then (db, Err (NotFoundException "Not found."))
  else
    match completeCheckout secret token (env_now env) with
    | Err e => (db, Err e)
    | Ok (event, successUrl) =>
        let '(db, applied) := apply_event env event db in
        (db, match applied with Ok _ => Ok successUrl | Err e => Err e end)
    end.

Definition claimAutoTopUp (config : BillingConfig) (workspaceId : jstr) (now : Z) (db : Store) : Store * option Z :=
  let cutoff := now - bc_autoTopUpCooldown config in
  let '(db, affected) :=
    update_workspace workspaceId (fun w => match autoTopUpLastAt w with None => true | Some at_ => at_ <=? cutoff end)
      (with_claim now) db in
  (db, if affected =? 0 then None else Some now).

Definition setAutoTopUp (config : BillingConfig) (provider : PaymentProvider) (workspaceId : jstr) (settings : AutoTopUpSettings)
    (db : Store) : Store * result error CreditsView :=
  let checked :=
    _ ← requireWorkspace db workspaceId;
    if negb (at_enabled settings) then Ok tt
    else
      match at_thresholdMicros settings, at_amountMicros settings with
      | Some threshold, Some amount =>
          if threshold <? 0 then Err (BadRequestException "The automatic top-up threshold cannot be negative.")
          else
            _ ← assertTopUpAmount config amount;
            if pp_supportsSavedPaymentMethods provider then Ok tt
            else Err (BadRequestException ("The " +++ pp_name provider +++ " payment provider cannot charge a saved card."))
      | _, _ => Err (BadRequestException "Automatic top-up needs both a threshold and an amount.")
      end in
  match checked with
  | Err e => (db, Err e)
  | Ok _ =>
      let db := fst (update_workspace workspaceId (fun _ => true) (with_settings settings) db) in
      (db, creditsView config provider db workspaceId)
  end.

(** ** [AutoTopUpService] *)

Inductive NotCharged := disabled_topup | above_threshold | cooling_down | no_payment_method | failed_topup.

Inductive AutoTopUpOutcome := Not_charged (reason : NotCharged) | Charged (amountMicros : Z).

(** What [consider] reads before it claims: the customer and the amount to charge. *)
Definition plan_topup (provider : PaymentProvider) (w : option Workspace) : NotCharged + jstr * Z :=
  match w with
  | None => inl disabled_topup
  | Some w =>
      match autoTopUpEnabled w, autoTopUpThresholdMicros w, autoTopUpAmountMicros w, pp_supportsSavedPaymentMethods provider with
      | true, Some threshold, Some amount, true =>
          if threshold <=? balanceMicros w then inl above_threshold
          else match present (stripeCustomerId w) with
               | None => inl no_payment_method
               | Some customer => inr (customer, amount)
               end
      | _, _, _, _ => inl disabled_topup
      end
  end.

Definition saved_charge (workspaceId customer : jstr) (amountMicros claim : Z) : SavedCharge :=
  {| sc_workspaceId := workspaceId; sc_customerRef := customer; sc_amountMicros := amountMicros;
     sc_idempotencyKey := "autotopup:" +++ workspaceId +++ ":" +++ jstring_of_Z claim;
     sc_description := Some (top_up_text amountMicros) |}.

Definition consider (config : BillingConfig) (provider : PaymentProvider) (env : write_env) (workspaceId : jstr) (now : Z) (db : Store)
    : Store * AutoTopUpOutcome :=
  match plan_topup provider (workspaces db !! workspaceId) with
  | inl reason => (db, Not_charged reason)
  | inr (customer, amountMicros) =>
      match claimAutoTopUp config workspaceId now db with
      | (db, None) => (db, Not_charged cooling_down)
      | (db, Some claim) =>
          match pp_chargeSaved provider (saved_charge workspaceId customer amountMicros claim) with
          | Err _ => (db, Not_charged failed_topup)
          | Ok None => (db, Not_charged no_payment_method)
          | Ok (Some event) =>
              match apply_event env event db with
              | (db, Err _) => (db, Not_charged failed_topup)
              | (db, Ok _) => (db, Charged amountMicros)
              end
          end
      end
  end.

(** ** [LedgerCreditsGateway.debit]

    The answer, and whether the detached top-up check follows. *)
Definition debit_credits (env : write_env) (d : GenerationDebit) (db : Store) : Store * result error bool :=
  match debitGeneration env d db with
  | (db, Err e) => (db, Err e)
  | (db, Ok None) => (db, Ok false)
  | (db, Ok (Some entry)) => (db, Ok (negb (le_replayed entry)))
  end.

(** ** Lemmas *)

(** Recording under a fresh key, for a kind that is never refused for its balance. *)
Lemma record_fresh env input db w :
  workspaces db !! in_workspaceId input = Some w ->
  is_ok (assertSign input) = true ->
  (MAY_OVERDRAW (in_kind input) = false -> 0 <= in_amountMicros input) ->
  in_idempotencyKey input ∉ map ct_idempotencyKey (credit_transactions db) ->
  env_uuid env ∉ map ct_id (credit_transactions db) ->
  exists db' entry, record env input db = (db', Ok entry) /\ le_replayed entry = false /\
    workspaces db' = <[in_workspaceId input := add_balance (in_amountMicros input) w]> (workspaces db) /\
    credit_transactions db' = credit_transactions db ++ [le_transaction entry] /\
    ct_idempotencyKey (le_transaction entry) = in_idempotencyKey input /\ ct_id (le_transaction entry) = env_uuid env.
Proof.
  intros Hw Hs Ho Hk Hi. unfold record. destruct (assertSign input); [|done].
  apply findByIdempotencyKey_none in Hk as Hf. rewrite Hf. unfold append, update_workspace. rewrite Hw.
  assert ((if negb (MAY_OVERDRAW (in_kind input)) && (in_amountMicros input <? 0)
           then 0 <=? balanceMicros w + in_amountMicros input else true) = true) as ->.
  { destruct (MAY_OVERDRAW _); [done|]. cbn. by rewrite (proj2 (Z.ltb_ge _ _)) by auto. }
  cbv iota beta zeta. change (1 =? 0) with false. cbv iota.
  set (row := Build_CreditTransaction _ _ _ _ _ _ _ _). set (db1 := set_workspaces _ db).
  rewrite (proj2 (insert_credit_transaction_ok row db1 _) (conj Hi (conj Hk eq_refl))). cbn [mbind result_bind].
  eexists _, _. by split_and!.
Qed.

Lemma record_replays env input db t :
  is_ok (assertSign input) = true -> findByIdempotencyKey db (in_idempotencyKey input) = Some t ->
  record env input db = (db, Ok (replay db t)).
Proof. unfold record. destruct (assertSign input); [|done]. by intros _ ->. Qed.

Lemma record_found env input db db' entry : record env input db = (db', Ok entry) ->
  findByIdempotencyKey db' (in_idempotencyKey input) = Some (le_transaction entry) /\ is_ok (assertSign input) = true.
Proof.
  unfold record. destruct (assertSign input) as [u|e] eqn:Es; [|done]. destruct (findByIdempotencyKey db _) as [t|] eqn:E.
  - intros [= <- <-]. by split.
  - destruct (append env input db) as [[db1 en]|e] eqn:Ea.
    + intros [= <- <-]. apply append_ok in Ea as (w & _ & _ & _ & Hc & _ & _ & _ & _ & Ht & _). split; [|done].
      unfold findByIdempotencyKey in *. rewrite Hc, find_first_app, E, Ht. cbn. by rewrite jeqb_refl.
    + by destruct (negb _).
Qed.

Lemma remember_ledger id ref db :
  credit_transactions (rememberCustomer id ref db) = credit_transactions db /\
  (forall i w, workspaces db !! i = Some w -> exists w', workspaces (rememberCustomer id ref db) !! i = Some w' /\
     balanceMicros w' = balanceMicros w /\ autoTopUpLastAt w' = autoTopUpLastAt w /\
     (forall c, stripeCustomerId w = Some c -> w' = w) /\ (i = id -> is_Some (stripeCustomerId w'))).
Proof.
  unfold rememberCustomer, update_workspace. destruct (workspaces db !! id) as [w0|] eqn:E.
  - destruct (stripeCustomerId w0) as [c|] eqn:Ec; cbn; (split; [done|]); intros i w Hw.
    + exists w. split_and!; try done. intros ->. rewrite E in Hw. injection Hw as <-. by rewrite Ec.
    + destruct (decide (id = i)) as [<-|Hne].
      * rewrite lookup_insert_eq. eexists; split; [done|]. rewrite E in Hw. injection Hw as <-.
        split_and!; first [done | by rewrite Ec | by eexists].
      * rewrite lookup_insert_ne by done. exists w. by split_and!.
  - cbn. split; [done|]. intros i w Hw. exists w. split_and!; try done. intros ->. congruence.
Qed.

Lemma remember_again id ref db w : workspaces db !! id = Some w -> is_Some (stripeCustomerId w) -> rememberCustomer id ref db = db.
Proof. intros Hw [c Hc]. unfold rememberCustomer, update_workspace. by rewrite Hw, Hc. Qed.

Lemma apply_event_fresh env event db w :
  workspaces db !! ev_workspaceId event = Some w ->
  is_ok (assertSign (event_input event)) = true ->
  (MAY_OVERDRAW (ev_kind event) = false -> 0 <= ev_amountMicros event) ->
  ev_idempotencyKey event ∉ map ct_idempotencyKey (credit_transactions db) ->
  env_uuid env ∉ map ct_id (credit_transactions db) ->
  exists db' entry w', apply_event env event db = (db', Ok entry) /\ le_replayed entry = false /\
    workspaces db' !! ev_workspaceId event = Some w' /\ balanceMicros w' = balanceMicros w + ev_amountMicros event /\
    credit_transactions db' = credit_transactions db ++ [le_transaction entry] /\
    ct_idempotencyKey (le_transaction entry) = ev_idempotencyKey event /\ ct_id (le_transaction entry) = env_uuid env.
Proof.
  intros Hw Hs Ho Hk Hi. unfold apply_event.
  set (db0 := match present _ with Some ref => _ | None => db end).
  assert (exists w0, workspaces db0 !! ev_workspaceId event = Some w0 /\ balanceMicros w0 = balanceMicros w /\
            credit_transactions db0 = credit_transactions db) as (w0 & Hw0 & Hb0 & Hc0).
  { unfold db0. destruct (present _) as [ref|]; [|by exists w].
    destruct (remember_ledger (ev_workspaceId event) ref db) as [Hc Hr]. destruct (Hr _ _ Hw) as (w0 & Hw0 & Hb & _).
    exists w0. by split_and!. }
  destruct (record_fresh env (event_input event) db0 w0) as (db' & entry & Hrec & Hrep & Hws & Hct & Hkey & Hid);
    rewrite ?Hc0; try done.
  exists db', entry, (add_balance (ev_amountMicros event) w0). split_and!; try done.
  - rewrite Hws. apply lookup_insert_eq.
  - cbn. lia.
  - by rewrite Hct, Hc0.
Qed.

Lemma autotopup_is_not_stripe id claim intent :
  "autotopup:" +++ id +++ ":" +++ jstring_of_Z claim <> "stripe:payment:" +++ pi_id intent.
Proof. intros H. apply (f_equal (fun s => head (units s))) in H. discriminate H. Qed.

(** What [record] leaves of the workspaces: a balance may move, nothing else. *)
Lemma record_workspaces env input db db' r i w' : record env input db = (db', r) -> workspaces db' !! i = Some w' ->
  exists w delta, workspaces db !! i = Some w /\ w' = add_balance delta w \/ workspaces db !! i = Some w'.
Proof.
  unfold record. destruct (assertSign input); [|intros [= <- _] H; exists w', 0; by right].
  destruct (findByIdempotencyKey db _); [intros [= <- _] H; exists w', 0; by right|].
  destruct (append env input db) as [[db1 en]|e] eqn:Ea.
  - apply append_ok in Ea as (w & Hw & _ & Hws & _). intros [= <- _]. rewrite Hws.
    destruct (decide (in_workspaceId input = i)) as [<-|Hne].
    + rewrite lookup_insert_eq. intros [= <-]. exists w, (in_amountMicros input). by left.
    + rewrite lookup_insert_ne by done. intros H. exists w', 0. by right.
  - destruct (negb _); intros [= <- _] H; exists w', 0; by right.
Qed.

Lemma remembered_customer env input id ref db db' r w' :
  record env input (rememberCustomer id ref db) = (db', r) -> workspaces db' !! id = Some w' -> is_Some (stripeCustomerId w').
Proof.
  intros Hr Hw'. destruct (record_workspaces _ _ _ _ _ _ _ Hr Hw') as (w & delta & Hcase).
  assert (exists v, workspaces (rememberCustomer id ref db) !! id = Some v /\ stripeCustomerId v = stripeCustomerId w') as (v & Hv & <-).
  { destruct Hcase as [[Hw ->]|Hw]; eexists; by split. }
  clear Hcase Hr. unfold rememberCustomer, update_workspace in Hv. destruct (workspaces db !! id) as [w0|] eqn:E.
  - destruct (stripeCustomerId w0) eqn:Ec; cbn in Hv; [|rewrite lookup_insert_eq in Hv]; try rewrite E in Hv; injection Hv as <-; [by rewrite Ec|by eexists].
  - cbn in Hv. congruence.
Qed.

(** ** The two paths of an automatic top-up *)

Lemma snoc_fresh (key : CreditTransaction -> jstr) ts t k : k ∉ map key ts -> key t <> k -> k ∉ map key (ts ++ [t]).
Proof.
  intros H Hne. rewrite map_app. intros [Hin|Hin]%elem_of_app; [done|]. by apply list_elem_of_singleton in Hin.
Qed.

Lemma assert_positive event : (ev_kind event = auto_topup \/ ev_kind event = purchase) -> 0 < ev_amountMicros event ->
  is_ok (assertSign (event_input event)) = true.
Proof.
  intros Hk Ha. unfold assertSign. cbn [event_input in_kind in_amountMicros].
  destruct (ev_amountMicros event =? 0) eqn:E; [apply Z.eqb_eq in E; lia|].
  destruct Hk as [-> | ->]; cbn; by rewrite (proj2 (Z.ltb_ge _ _)) by lia.
Qed.

Lemma assert_refund event : ev_kind event = refund -> ev_amountMicros event < 0 -> is_ok (assertSign (event_input event)) = true.
Proof.
  intros Hk Ha. unfold assertSign. cbn [event_input in_kind in_amountMicros]. rewrite Hk.
  destruct (ev_amountMicros event =? 0) eqn:E; [apply Z.eqb_eq in E; lia|]. cbn. by rewrite (proj2 (Z.ltb_ge _ _)) by lia.
Qed.

(** An automatic top-up that Stripe settles at once is credited twice.  The charge is
    written under the claim's key, and the [payment_intent.succeeded] webhook of the
    same intent under [stripe:payment:<id>]: the keys differ, so the ledger takes both
    and the balance goes up by twice what was charged. *)
Theorem topup_settled_at_once_credits_twice api charge intent env1 env2 rawBody signature db w :
  defaultPaymentMethod api (sc_customerRef charge) = Ok (Some "pm") ->
  (forall params, ip_idempotencyKey params = sc_idempotencyKey charge -> api_create_intent api params = Ok intent) ->
  pi_status intent = "succeeded" -> 0 < intent_amount intent ->
  pi_metadata intent AUTO_TOPUP_METADATA_KEY = Some ("true" : jstr) ->
  pi_metadata intent WORKSPACE_METADATA_KEY = Some (sc_workspaceId charge) -> 0 < jlength (sc_workspaceId charge) ->
  is_ok (cents_of (sc_amountMicros charge)) = true ->
  (exists id claim, sc_idempotencyKey charge = "autotopup:" +++ id +++ ":" +++ jstring_of_Z claim) ->
  api_construct_event api rawBody signature = Some (payment_intent_succeeded intent) -> 0 < jlength signature ->
  workspaces db !! sc_workspaceId charge = Some w ->
  sc_idempotencyKey charge ∉ map ct_idempotencyKey (credit_transactions db) ->
  "stripe:payment:" +++ pi_id intent ∉ map ct_idempotencyKey (credit_transactions db) ->
  env_uuid env1 ∉ map ct_id (credit_transactions db) -> env_uuid env2 ∉ map ct_id (credit_transactions db) ->
  env_uuid env1 <> env_uuid env2 ->
  exists event db1 entry1 db2 entry2 w2,
    stripe_chargeSaved api charge = Ok (Some event) /\
    apply_event env1 event db = (db1, Ok entry1) /\
    handleWebhook (StripePaymentProvider api) (fun _ => env2) rawBody (Some signature) db1 = (db2, Ok [entry2]) /\
    le_replayed entry1 = false /\ le_replayed entry2 = false /\
    workspaces db2 !! sc_workspaceId charge = Some w2 /\
    balanceMicros w2 = balanceMicros w + 2 * centsToMicros (intent_amount intent) /\
    credit_transactions db2 = credit_transactions db ++ [le_transaction entry1; le_transaction entry2].
Proof.
  intros Hpm Hint Hst Hamt Hm1 Hm2 Hws Hcents (id & claim & Hkey) Hev Hsig Hw Hk1 Hk2 Hi1 Hi2 Hne.
  unfold stripe_chargeSaved. rewrite Hpm. cbn [mbind result_bind present]. change (jlength "pm" =? 0) with false. cbv iota.
  destruct (cents_of _) as [cents|]; [|done]. cbn [mbind result_bind]. rewrite Hint by done. cbn [mbind result_bind].
  rewrite Hst, jeqb_refl. cbn [negb].
  assert (0 < centsToMicros (intent_amount intent)) as Hpos by (unfold centsToMicros, MICROS_PER_CENT; lia).
  set (event := Build_LedgerEvent _ _ _ _ _ _ _). exists event.
  destruct (apply_event_fresh env1 event db w) as (db1 & entry1 & w1 & Ha1 & Hr1 & Hw1 & Hb1 & Hc1 & Hkk & Hid1); try done.
  { by apply assert_positive; [left|]. } { intros _. cbn. lia. }
  exists db1, entry1. unfold handleWebhook. cbn [StripePaymentProvider pp_handleWebhook]. unfold stripe_handleWebhook. cbn [present].
  rewrite (proj2 (Z.eqb_neq _ _)) by lia. rewrite Hev. unfold fromAutoTopUp. rewrite Hm1, Hm2, bool_decide_eq_true_2 by done. cbn [negb present].
  rewrite (proj2 (Z.eqb_neq (jlength (sc_workspaceId charge)) 0)) by lia.
  set (event2 := Build_LedgerEvent _ _ _ _ _ _ _).
  destruct (apply_event_fresh env2 event2 db1 w1) as (db2 & entry2 & w2 & Ha2 & Hr2 & Hw2 & Hb2 & Hc2 & _); try done.
  { by apply assert_positive; [left|]. } { intros _. cbn. lia. }
  { rewrite Hc1. apply snoc_fresh; [done|]. rewrite Hkk. cbn. rewrite Hkey. apply autotopup_is_not_stripe. }
  { rewrite Hc1. apply snoc_fresh; [done|]. by rewrite Hid1. }
  exists db2, entry2, w2. cbn [imap apply_events]. rewrite Ha2. split_and!; try done.
  - cbn in Hb1, Hb2. lia.
  - by rewrite Hc2, Hc1, <- app_assoc.
Qed.

(** Two partial refunds of one charge debit more than was refunded.  Stripe's
    [amount_refunded] is the running total; each webhook debits the whole of it under
    a key of its own, so after refunds reaching [first] and then [second] cents the
    ledger has taken [first + second]. *)
Theorem partial_refunds_debit_the_running_total charge1 charge2 env1 env2 db w id :
  ch_id charge2 = ch_id charge1 ->
  ch_metadata charge1 WORKSPACE_METADATA_KEY = Some id -> ch_metadata charge2 WORKSPACE_METADATA_KEY = Some id ->
  0 < jlength id -> 0 < ch_amount_refunded charge1 < ch_amount_refunded charge2 ->
  workspaces db !! id = Some w ->
  (forall amount, "stripe:refund:" +++ ch_id charge1 +++ ":" +++ jstring_of_Z amount ∉ map ct_idempotencyKey (credit_transactions db)) ->
  env_uuid env1 ∉ map ct_id (credit_transactions db) -> env_uuid env2 ∉ map ct_id (credit_transactions db) ->
  env_uuid env1 <> env_uuid env2 ->
  exists db2 entries w2,
    apply_events (map (pair env1) (fromRefund charge1) ++ map (pair env2) (fromRefund charge2)) db = (db2, Ok entries) /\
    workspaces db2 !! id = Some w2 /\
    balanceMicros w2 = balanceMicros w - centsToMicros (ch_amount_refunded charge1 + ch_amount_refunded charge2).
Proof.
  intros Hch Hm1 Hm2 Hid Hamt Hw Hk Hi1 Hi2 Hne. unfold fromRefund. rewrite Hm1, Hm2. cbn [present].
  rewrite (proj2 (Z.eqb_neq (jlength id) 0)) by lia. rewrite !(proj2 (Z.eqb_neq (ch_amount_refunded _) 0)) by lia. cbv zeta.
  set (event1 := Build_LedgerEvent _ _ _ _ _ _ (idOf (ch_customer charge1))).
  set (event2 := Build_LedgerEvent _ _ _ _ _ _ (idOf (ch_customer charge2))). cbn [map app apply_events].
  assert (centsToMicros (ch_amount_refunded charge1) < centsToMicros (ch_amount_refunded charge2) /\
          0 < centsToMicros (ch_amount_refunded charge1)) as Hpos by (unfold centsToMicros, MICROS_PER_CENT; lia).
  destruct (apply_event_fresh env1 event1 db w) as (db1 & entry1 & w1 & Ha1 & _ & Hw1 & Hb1 & Hc1 & Hkk & Hid1); try done.
  { apply assert_refund; [done|]. cbn. lia. } { apply Hk. }
  destruct (apply_event_fresh env2 event2 db1 w1) as (db2 & entry2 & w2 & Ha2 & _ & Hw2 & Hb2 & _); try done.
  { apply assert_refund; [done|]. cbn. lia. }
  { rewrite Hc1. apply snoc_fresh; [cbn; rewrite Hch; apply Hk|]. rewrite Hkk. cbn. rewrite Hch. intros H.
    do 3 apply japp_inj_l in H. apply jstring_of_Z_inj in H; lia. }
  { rewrite Hc1. apply snoc_fresh; [done|]. by rewrite Hid1. }
  rewrite Ha1, Ha2. eexists _, _, w2. split_and!; [done..|]. cbn in Hb1, Hb2. unfold centsToMicros in *. lia.
Qed.

(** ** Claims in any order of calls *)

(** The statements calls in flight make: a claim, an event written, a debit, settings saved. *)
Inductive billing_call :=
| Claims (now : Z)
| Applies (env : write_env) (event : LedgerEvent)
| Debits (env : write_env) (input : LedgerEntryInput)
| Saves (id : jstr) (settings : AutoTopUpSettings).

Definition billing_step (config : BillingConfig) (provider : PaymentProvider) (workspaceId : jstr) (s : Store * list Z) (call : billing_call)
    : Store * list Z :=
  let '(db, granted) := s in
  match call with
  | Claims now =>
      let '(db, claim) := claimAutoTopUp config workspaceId now db in
      (db, granted ++ option_list claim)
  | Applies env event => (fst (apply_event env event db), granted)
  | Debits env input => (fst (record env input db), granted)
  | Saves id settings => (fst (setAutoTopUp config provider id settings db), granted)
  end.

Definition last_claim (id : jstr) (db : Store) : option (option Z) := autoTopUpLastAt <$> workspaces db !! id.

(** A call of the ledger moves balances and nothing else of a workspace. *)
Lemma record_keeps {A} (f : Workspace -> A) env input db id : (forall delta w, f (add_balance delta w) = f w) ->
  f <$> workspaces (fst (record env input db)) !! id = f <$> workspaces db !! id.
Proof.
  intros Hf. unfold record. destruct (assertSign input); [|done]. destruct (findByIdempotencyKey db _); [done|].
  destruct (append env input db) as [[db1 en]|e] eqn:Ea; [|by destruct (negb _)].
  apply append_ok in Ea as (w & Hw & _ & Hws & _). cbn [fst]. rewrite Hws.
  destruct (decide (in_workspaceId input = id)) as [<-|Hne]; [|by rewrite lookup_insert_ne].
  rewrite lookup_insert_eq, Hw. cbn. by rewrite Hf.
Qed.

Lemma record_keeps_claim env input db id : last_claim id (fst (record env input db)) = last_claim id db.
Proof. by apply record_keeps. Qed.

Lemma update_keeps_claim i cond f db id : (forall w, autoTopUpLastAt (f w) = autoTopUpLastAt w) ->
  last_claim id (fst (update_workspace i cond f db)) = last_claim id db.
Proof.
  intros Hf. unfold last_claim, update_workspace. destruct (workspaces db !! i) as [w|] eqn:E; [|done]. destruct (cond w); [|done].
  cbn. destruct (decide (i = id)) as [<-|Hne]; [rewrite lookup_insert_eq, E; cbn; by rewrite Hf|by rewrite lookup_insert_ne].
Qed.

Lemma apply_keeps_claim env event db id : last_claim id (fst (apply_event env event db)) = last_claim id db.
Proof.
  unfold apply_event. rewrite record_keeps_claim. destruct (present _) as [ref|]; [|done]. by apply update_keeps_claim.
Qed.

Lemma settings_keep_claim config provider i settings db id :
  last_claim id (fst (setAutoTopUp config provider i settings db)) = last_claim id db.
Proof.
  unfold setAutoTopUp. destruct (requireWorkspace db i ≫= _); [|done]. cbn [fst]. by apply update_keeps_claim.
Qed.

Lemma claim_grants config id now db db' claim : claimAutoTopUp config id now db = (db', claim) ->
  match claim with
  | Some t => t = now /\ last_claim id db' = Some (Some now) /\
              (forall last, last_claim id db = Some (Some last) -> last + bc_autoTopUpCooldown config <= now)
  | None => db' = db
  end.
Proof.
  unfold claimAutoTopUp. destruct (update_workspace id _ _ db) as [db1 n] eqn:E.
  apply update_workspace_affected in E as [[-> ->]|[-> (w & Hw & Hc & ->)]]; [by intros [= <- <-]|].
  intros [= <- <-]. unfold last_claim; cbn. rewrite lookup_insert_eq, Hw. cbn. split_and!; [done..|].
  intros last [= Hl]. rewrite Hl in Hc. apply Z.leb_le in Hc. lia.
Qed.

Lemma Sorted_snoc {A} (R : A -> A -> Prop) l y : Sorted R l -> (forall x, last l = Some x -> R x y) -> Sorted R (l ++ [y]).
Proof.
  intros Hl Hy. induction Hl as [|x l Hl IH Hh]; cbn; [by repeat constructor|]. constructor.
  - apply IH. intros z Hz. apply Hy. destruct l; [done|exact Hz].
  - destruct l as [|z l]; cbn; constructor; [by apply Hy|by apply HdRel_inv in Hh].
Qed.

(** Automatic charges are spaced.  A charge needs a claim, and whatever calls run in
    between, in whatever order (other claims, debits, webhooks, changed settings), each
    claim a workspace grants is at least the cooldown after the one before it and
    after the one the row held at the start. *)
Theorem topup_claims_spaced config provider id db calls :
  let granted := snd (foldl (billing_step config provider id) (db, []) calls) in
  Sorted (fun a b => a + bc_autoTopUpCooldown config <= b) granted /\
  match last_claim id db, granted with
  | Some (Some last), t :: _ => last + bc_autoTopUpCooldown config <= t
  | _, _ => True
  end.
Proof.
  cbv zeta. set (spaced := fun a b => a + bc_autoTopUpCooldown config <= b). set (start := option_list (mjoin (last_claim id db))).
  assert (forall granted db', Sorted spaced (start ++ granted) ->
    last_claim id db' = (match last (start ++ granted) with Some t => Some (Some t) | None => last_claim id db end) ->
    Sorted spaced (start ++ snd (foldl (billing_step config provider id) (db', granted) calls))) as Hrun.
  { induction calls as [|call calls IH]; intros granted db' Hs Hl; [done|]. cbn [foldl]. destruct call; cbn [billing_step].
    - destruct (claimAutoTopUp config id now db') as [db1 claim] eqn:E. apply claim_grants in E.
      destruct claim as [t|]; cbn [option_list option_rect]; [|subst db1; rewrite app_nil_r; by apply IH].
      destruct E as (-> & Hnow & Hgap). apply IH; rewrite app_assoc; [|by rewrite last_snoc].
      apply Sorted_snoc; [done|]. intros x Hx. rewrite Hx in Hl. by apply Hgap.
    - apply IH; [done|]. by rewrite apply_keeps_claim.
    - apply IH; [done|]. by rewrite record_keeps_claim.
    - apply IH; [done|]. by rewrite settings_keep_claim. }
  specialize (Hrun [] db). rewrite app_nil_r in Hrun. unfold start in Hrun.
  destruct (last_claim id db) as [[l|]|] eqn:El; cbn [mjoin option_join option_list option_rect last app] in Hrun.
  - specialize (Hrun ltac:(by repeat constructor) eq_refl). apply Sorted_inv in Hrun as [Hs Hh]. split; [done|].
    destruct (snd _); [done|]. by apply HdRel_inv in Hh.
  - by specialize (Hrun ltac:(constructor) eq_refl).
  - by specialize (Hrun ltac:(constructor) eq_refl).
Qed.

(** ** Redelivered webhooks *)

(** What billing never takes back: a row under its key, a customer once known; and it
    makes no workspace. *)
Record kept (db db' : Store) : Prop := {
  kp_row : forall key t, findByIdempotencyKey db key = Some t -> findByIdempotencyKey db' key = Some t;
  kp_customer : forall id, match workspaces db !! id, workspaces db' !! id with
                           | Some w, Some w' => is_Some (stripeCustomerId w) -> is_Some (stripeCustomerId w')
                           | None, None => True
                           | _, _ => False
                           end
}.

#[global] Instance kept_preorder : PreOrder kept.
Proof.
  split; [intros db; split; [done|intros id; by destruct (workspaces db !! id)]|].
  intros a b c [H1 H2] [H3 H4]. split; [by auto|]. intros id. specialize (H2 id). specialize (H4 id).
  destruct (workspaces a !! id), (workspaces b !! id), (workspaces c !! id); try done. by auto.
Qed.

Lemma record_kept env input db : kept db (fst (record env input db)).
Proof.
  unfold record. destruct (assertSign input); [|done]. destruct (findByIdempotencyKey db _); [done|].
  destruct (append env input db) as [[db1 en]|e] eqn:Ea; [|by destruct (negb _)].
  apply append_ok in Ea as (w & Hw & _ & Hws & Hct & _). cbn [fst]. split.
  - intros key t Ht. unfold findByIdempotencyKey in *. by rewrite Hct, find_first_app, Ht.
  - intros id. rewrite Hws. destruct (decide (in_workspaceId input = id)) as [<-|Hne].
    + by rewrite lookup_insert_eq, Hw.
    + rewrite lookup_insert_ne by done. by destruct (workspaces db !! id).
Qed.

Lemma update_kept i cond f db : (forall w, is_Some (stripeCustomerId w) -> is_Some (stripeCustomerId (f w))) ->
  kept db (fst (update_workspace i cond f db)).
Proof.
  intros Hf. unfold update_workspace. destruct (workspaces db !! i) as [w|] eqn:E; [|done]. destruct (cond w); [|done].
  split; cbn; [done|]. intros id. destruct (decide (i = id)) as [<-|Hne].
  - rewrite lookup_insert_eq, E. by apply Hf.
  - rewrite lookup_insert_ne by done. by destruct (workspaces db !! id).
Qed.

Lemma remember_kept id ref db : kept db (rememberCustomer id ref db).
Proof. apply update_kept. intros w _. by eexists. Qed.

Lemma apply_kept env event db : kept db (fst (apply_event env event db)).
Proof. unfold apply_event. destruct (present _) as [ref|]; [|apply record_kept]. etrans; [apply remember_kept|apply record_kept]. Qed.

Lemma step_kept config provider id s call : kept (fst s) (fst (billing_step config provider id s call)).
Proof.
  destruct s as [db granted]. destruct call as [now|env event|env input|i settings]; cbn [billing_step fst].
  - unfold claimAutoTopUp. pose proof (update_kept id (fun w => match autoTopUpLastAt w with None => true | Some last => last <=? now - bc_autoTopUpCooldown config end)
      (with_claim now) db ltac:(done)) as H. by destruct (update_workspace _ _ _ _) as [db1 n].
  - apply apply_kept.
  - apply record_kept.
  - unfold setAutoTopUp. destruct (requireWorkspace db i ≫= _); [|done]. cbn [fst]. by apply update_kept.
Qed.

(** Calls of billing, each for its workspace, one after another. *)
Definition billing_calls (config : BillingConfig) (provider : PaymentProvider) (calls : list (jstr * billing_call)) (db : Store) : Store :=
  fst (foldl (fun s call => billing_step config provider (fst call) s (snd call)) (db, []) calls).

Lemma calls_kept config provider calls db : kept db (billing_calls config provider calls db).
Proof.
  unfold billing_calls. change db with (fst (db, [] : list Z)) at 1. generalize (db, [] : list Z).
  induction calls as [|[id call] calls IH]; intros s; [done|]. cbn [foldl fst snd]. etrans; [apply (step_kept config provider id s call)|apply IH].
Qed.

(** An event the store has: under its key, with nothing left to note of its customer. *)
Record settled (event : LedgerEvent) (t : CreditTransaction) (db : Store) : Prop := {
  se_sign : is_ok (assertSign (event_input event)) = true;
  se_row : findByIdempotencyKey db (ev_idempotencyKey event) = Some t;
  se_customer : match present (ev_customerRef event), workspaces db !! ev_workspaceId event with
                | Some _, Some w => is_Some (stripeCustomerId w)
                | _, _ => True
                end
}.

Lemma settled_kept event t db db' : settled event t db -> kept db db' -> settled event t db'.
Proof.
  intros [H1 H2 H3] [K1 K2]. split; [done|by apply K1|]. specialize (K2 (ev_workspaceId event)).
  destruct (present _); [|done]. destruct (workspaces db !! _), (workspaces db' !! _); try done. by apply K2.
Qed.

Lemma apply_event_settles env event db db' entry : apply_event env event db = (db', Ok entry) -> settled event (le_transaction entry) db'.
Proof.
  unfold apply_event. intros Ha. destruct (record_found _ _ _ _ _ Ha) as [Hf Hs]. split; [done..|].
  destruct (present (ev_customerRef event)) as [ref|]; [|done]. destruct (workspaces db' !! _) as [w|] eqn:Ew; [|done].
  by eapply remembered_customer.
Qed.

Lemma settled_replays env event t db : settled event t db -> apply_event env event db = (db, Ok (replay db t)).
Proof.
  intros [H1 H2 H3]. unfold apply_event.
  assert (match present (ev_customerRef event) with Some ref => rememberCustomer (ev_workspaceId event) ref db | None => db end = db) as ->.
  { destruct (present _) as [ref|]; [|done]. unfold rememberCustomer, update_workspace. destruct (workspaces db !! _) as [w|] eqn:E; [|done].
    by destruct H3 as [c ->]. }
  by apply record_replays.
Qed.

Lemma apply_events_settle events : forall db db' entries, apply_events events db = (db', Ok entries) ->
  kept db db' /\ Forall2 (fun event entry => settled event (le_transaction entry) db') (map snd events) entries.
Proof.
  induction events as [|[env event] events IH]; intros db db' entries; cbn [apply_events map snd].
  { intros [= <- <-]. by split. }
  destruct (apply_event env event db) as [db1 [entry|e]] eqn:Ea; [|done].
  destruct (apply_events events db1) as [db2 [l|e]] eqn:Er; [|done]. intros [= <- <-].
  apply IH in Er as [Hk Hl]. pose proof (apply_kept env event db) as Hk1. rewrite Ea in Hk1. split; [by etrans|].
  constructor; [|done]. eapply settled_kept; [by eapply apply_event_settles|done].
Qed.

Lemma settled_events_replay db events entries : Forall2 (fun event entry => settled event (le_transaction entry) db) events entries ->
  forall (envs : nat -> write_env), apply_events (imap (fun i event => (envs i, event)) events) db =
    (db, Ok (map (fun entry => replay db (le_transaction entry)) entries)).
Proof.
  induction 1 as [|event entry events entries H _ IH]; intros envs; [done|]. rewrite imap_cons. cbn [apply_events map].
  rewrite (settled_replays (envs 0%nat) _ _ _ H). rewrite (imap_ext _ (fun i event => ((envs ∘ S) i, event))) by done. by rewrite IH.
Qed.

Lemma imap_events (envs : nat -> write_env) (events : list LedgerEvent) : map snd (imap (fun i event => (envs i, event)) events) = events.
Proof.
  revert envs. induction events as [|event events IH]; intros envs; [done|]. rewrite imap_cons. cbn [map snd]. f_equal. exact (IH (envs ∘ S)).
Qed.

(** C24. A redelivered webhook credits nothing.  Once a delivery was answered, whatever
    billing does in between (claims, saved settings, debits, other events, for any
    workspace), a delivery that the provider reads as the same events is answered with
    the rows of the first, each marked as a replay, and the store is left exactly as it
    was: no row, no balance, no customer reference.  Each row is the one the ledger
    holds under the event's key. *)
Theorem redelivery_credits_once config provider envs rawBody signature db db1 entries calls envs' rawBody' signature' :
  handleWebhook provider envs rawBody signature db = (db1, Ok entries) ->
  pp_handleWebhook provider rawBody' signature' = pp_handleWebhook provider rawBody signature ->
  let db2 := billing_calls config provider calls db1 in
  exists entries',
    handleWebhook provider envs' rawBody' signature' db2 = (db2, Ok entries') /\
    map le_transaction entries' = map le_transaction entries /\ Forall (fun entry => le_replayed entry = true) entries' /\
    exists events, pp_handleWebhook provider rawBody signature = Ok events /\
      Forall2 (fun event entry => findByIdempotencyKey db2 (ev_idempotencyKey event) = Some (le_transaction entry)) events entries'.
Proof.
  unfold handleWebhook. intros H ->. destruct (pp_handleWebhook provider rawBody signature) as [events|e]; [|done].
  set (db2 := billing_calls config provider calls db1).
  apply apply_events_settle in H as [_ H]. rewrite imap_events in H.
  assert (H2 : Forall2 (fun event entry => settled event (le_transaction entry) db2) events entries).
  { eapply Forall2_impl; [exact H|]. intros event entry Hs. by eapply settled_kept, calls_kept. }
  eexists. split; [apply (settled_events_replay db2 events entries H2)|]. split; [by rewrite map_map|]. split.
  - apply Forall_forall. by intros x (entry & -> & _)%list_elem_of_fmap.
  - exists events. split; [done|]. apply Forall2_fmap_r. eapply Forall2_impl; [exact H2|]. intros event entry Hs. by destruct Hs.
Qed.

(** ** Witnesses *)

Definition example_metadata : Metadata :=
  fun k => if jeqb k AUTO_TOPUP_METADATA_KEY then Some ("true" : jstr)
           else if jeqb k WORKSPACE_METADATA_KEY then Some ("ws" : jstr) else None.

Definition example_intent : PaymentIntent :=
  {| pi_id := "pi_1"; pi_status := "succeeded"; pi_amount := 2000; pi_amount_received := 2000;
     pi_metadata := example_metadata; pi_customer := Some (Plain "cus_1") |}.

Definition example_api : StripeApi :=
  {| api_construct_event := fun _ _ => Some (payment_intent_succeeded example_intent);
     api_create_session := fun _ => Err (ProviderError "unused");
     api_retrieve_customer := fun _ => Ok {| cu_deleted := false; cu_default_payment_method := None |};
     api_list_payment_methods := fun _ => Ok ["pm" : jstr];
     api_create_intent := fun _ => Ok example_intent |}.

Definition example_charge (refunded : Z) : StripeCharge :=
  {| ch_id := "ch_1"; ch_amount_refunded := refunded; ch_metadata := example_metadata; ch_customer := None |}.

Definition env_of (uuid : jstr) : write_env := {| env_uuid := uuid; env_now := 5 |}.

Lemma topup_settled_at_once_credits_twice_witness :
  exists db2 w2, workspaces db2 !! ("ws" : jstr) = Some w2 /\ balanceMicros w2 = 40000000.
Proof.
  destruct (topup_settled_at_once_credits_twice example_api (saved_charge "ws" "cus_1" 20000000 7) example_intent
              (env_of "u1") (env_of "u2") "body" "sig" (one_workspace "ws") (plain_workspace 0))
    as (event & db1 & e1 & db2 & e2 & w2 & _ & _ & _ & _ & _ & Hw & Hb & _);
    [reflexivity|reflexivity|reflexivity|reflexivity|reflexivity|reflexivity|reflexivity|reflexivity| |reflexivity|reflexivity
    |reflexivity|cbn [one_workspace credit_transactions map]; apply not_elem_of_nil..| |].
  - exists "ws", 7. reflexivity.
  - discriminate.
  - exists db2, w2. split; [exact Hw|]. rewrite Hb. reflexivity.
Defined.

Lemma partial_refunds_debit_the_running_total_witness :
  exists db2 w2, workspaces db2 !! ("ws" : jstr) = Some w2 /\ balanceMicros w2 = - 13000000.
Proof.
  destruct (partial_refunds_debit_the_running_total (example_charge 500) (example_charge 800) (env_of "u1") (env_of "u2")
              (one_workspace "ws") (plain_workspace 0) "ws") as (db2 & entries & w2 & _ & Hw & Hb);
    [reflexivity|reflexivity|reflexivity|reflexivity|cbn; lia|reflexivity|intros amount; apply not_elem_of_nil
    |apply not_elem_of_nil|apply not_elem_of_nil|discriminate|].
  exists db2, w2. split; [exact Hw|]. rewrite Hb. reflexivity.
Defined.

Definition example_event : LedgerEvent :=
  {| ev_workspaceId := "ws"; ev_kind := purchase; ev_amountMicros := 5000000; ev_reference := "pi_2";
     ev_idempotencyKey := "stripe:payment:pi_2"; ev_description := None; ev_customerRef := Some ("cus_1" : jstr) |}.

Definition example_config : BillingConfig :=
  {| bc_allowOverdraftMicros := 0; bc_minTopUpMicros := 1000000; bc_maxTopUpMicros := 100000000; bc_autoTopUpCooldown := 60000;
     bc_checkoutReturnUrl := "https://router/billing" |}.

Definition example_webhook : PaymentProvider := StripePaymentProvider example_api.

(** A signed intent is delivered, spent from, and delivered again. *)
Lemma redelivery_credits_once_witness :
  let '(db1, first) := handleWebhook example_webhook (fun _ => env_of "u1") "body" (Some ("sig" : jstr)) (one_workspace "ws") in
  let spent := {| in_workspaceId := "ws"; in_kind := usage; in_amountMicros := -5; in_idempotencyKey := "generation:g"; in_reference := None; in_description := None |} in
  let db2 := billing_calls example_config example_webhook [("ws" : jstr, Debits (env_of "u2") spent)] db1 in
  is_ok first = true /\ length (credit_transactions db2) = 2%nat /\
  exists entries', handleWebhook example_webhook (fun _ => env_of "u9") "body" (Some ("sig" : jstr)) db2 = (db2, Ok entries').
Proof.
  destruct (handleWebhook example_webhook (fun _ => env_of "u1") "body" (Some ("sig" : jstr)) (one_workspace "ws")) as [db1 [entries|e]] eqn:E;
    [|vm_compute in E; discriminate E].
  cbv zeta. split; [reflexivity|]. split.
  - replace db1 with (fst (handleWebhook example_webhook (fun _ => env_of "u1") "body" (Some ("sig" : jstr)) (one_workspace "ws"))) by (by rewrite E).
    vm_compute. reflexivity.
  - destruct (redelivery_credits_once example_config _ _ _ _ _ _ _
      [("ws" : jstr, Debits (env_of "u2") {| in_workspaceId := "ws"; in_kind := usage; in_amountMicros := -5; in_idempotencyKey := "generation:g"; in_reference := None; in_description := None |})]
      (fun _ => env_of "u9") _ _ E eq_refl) as (entries' & H & _).
    exists entries'. exact H.
Defined.
