(* ===== verification/Sse.v ===== *)
(** * Server-sent events

    [api/v1/sse.ts]: cutting a byte-by-byte stream into events, reading an event's
    payload and writing one.  The relay feeds [splitSseEvents] whatever the socket
    delivers, so the central fact is that the cut does not depend on where the
    network cut the text. *)

From S2P Require Import Prelude JsString.

Definition EVENT_SEPARATOR : jstr := Js [10; 10]%N.

Record SseSplit := { events : list jstr; rest : jstr }.

(** The [while] of [splitSseEvents]; every turn consumes at least the separator. *)
Fixpoint split_loop (fuel : nat) (buffer : list N) : list jstr * list N :=
  match fuel with
  | O => ([], buffer)
  | S fuel =>
      match index_of (units EVENT_SEPARATOR) buffer with
      | Some index =>
          let '(events, rest) := split_loop fuel (drop (index + 2) buffer) in
          (Js (take (index + 2) buffer) :: events, rest)
      | None => ([], buffer)
      end
  end.

Definition splitSseEvents (buffer : jstr) : SseSplit :=
  let '(events, rest) := split_loop (length (units buffer)) (units buffer) in
  {| events := events; rest := Js rest |}.

(** [line.slice('data:'.length).replace(/^ /, '')] *)
Definition data_line (line : jstr) : jstr :=
  match units (jdrop 5 line) with
  | 32%N :: u => Js u
  | u => Js u
  end.

Definition newline : N := 10%N.

Definition dataPayloadOf (event : jstr) : option jstr :=
  match List.filter (fun line => jstartsWith line "data:") (jsplit newline event) with
  | [] => None
  | lines => Some (jjoin (Js [newline]) (map data_line lines))
  end.

Definition formatDataEvent (payload : jstr) : jstr := "data: " +++ payload +++ EVENT_SEPARATOR.

Definition SSE_HEARTBEAT : jstr := ": ping" +++ EVENT_SEPARATOR.

Definition SSE_DONE : jstr := formatDataEvent "[DONE]".

(** What the relay's read loop keeps between reads: the events cut so far and the
    partial tail. *)
Definition feed (state : list jstr * jstr) (chunk : jstr) : list jstr * jstr :=
  let split := splitSseEvents (snd state +++ chunk) in
  (fst state ++ events split, rest split).

(** ** Lemmas *)

Lemma index_of_nil p : p <> [] -> index_of p [] = None.
Proof. by destruct p. Qed.

Lemma index_of_bound p s i : index_of p s = Some i -> (i + length p <= length s)%nat.
Proof.
  revert i; induction s as [|c s IH]; intros i; cbn [index_of].
  - destruct (prefixb p []) eqn:E; [|done]. intros [= <-]. apply prefixb_spec in E as [r E].
    destruct p; [done|discriminate E].
  - destruct (prefixb p (c :: s)) eqn:E.
    + intros [= <-]. apply prefixb_spec in E as [r E]. apply (f_equal length) in E. rewrite length_app in E. lia.
    + destruct (index_of p s) as [j|] eqn:Ej; [|done]. intros [= <-]. specialize (IH j eq_refl). cbn. lia.
Qed.

(** The first occurrence stays the first when text is appended. *)
Lemma index_of_app p s r i : index_of p s = Some i -> index_of p (s ++ r) = Some i.
Proof.
  revert i; induction s as [|c s IH]; intros i; cbn [index_of app].
  - destruct (prefixb p []) eqn:E; [|done]. intros [= <-]. apply prefixb_spec in E as [k E].
    destruct p; [|discriminate E]. by destruct r.
  - destruct (prefixb p (c :: s)) eqn:E.
    + intros [= <-]. apply prefixb_spec in E as [k E]. rewrite (proj2 (prefixb_spec p (c :: s ++ r))); [done|].
      exists (k ++ r). by rewrite app_assoc, <- E.
    + destruct (index_of p s) as [j|] eqn:Ej; [|done]. intros [= <-].
      destruct (prefixb p (c :: s ++ r)) eqn:E'.
      * exfalso. apply not_true_iff_false in E. apply E. apply prefixb_spec in E' as [k Hk]. apply prefixb_spec.
        apply index_of_bound in Ej. exists (drop (length p) (c :: s)).
        rewrite app_comm_cons in Hk. apply (f_equal (take (length p))) in Hk as Ht.
        rewrite take_app_length, take_app_le in Ht by (cbn; lia). rewrite <- (take_drop (length p) (c :: s)) at 1. by rewrite Ht.
      * by rewrite (IH j eq_refl).
Qed.

(** Fuel beyond the length of the buffer changes nothing. *)
Lemma split_loop_fuel n m buffer : (length buffer <= n)%nat -> (length buffer <= m)%nat ->
  split_loop n buffer = split_loop m buffer.
Proof.
  revert m buffer; induction n as [|n IH]; intros m buffer Hn Hm.
  - destruct buffer; [|cbn in Hn; lia]. by destruct m.
  - destruct m as [|m]; [destruct buffer; [done|cbn in Hm; lia]|]. cbn [split_loop].
    destruct (index_of _ buffer) as [i|] eqn:E; [|done]. apply index_of_bound in E. cbn in E.
    by rewrite (IH m) by (rewrite length_drop; lia).
Qed.

Definition split_units (u : list N) : list jstr * list N := split_loop (length u) u.

Lemma split_units_step u :
  split_units u =
  match index_of (units EVENT_SEPARATOR) u with
  | Some i => let '(es, r) := split_units (drop (i + 2) u) in (Js (take (i + 2) u) :: es, r)
  | None => ([], u)
  end.
Proof.
  unfold split_units at 1. destruct u as [|c u]; [done|]. cbn [length split_loop].
  destruct (index_of _ _) as [i|] eqn:E; [|done]. apply index_of_bound in E. cbn in E.
  unfold split_units. by rewrite (split_loop_fuel _ (length (drop (i + 2) (c :: u))))
    by (rewrite length_drop; cbn; lia).
Qed.

(** Text appended to a buffer is cut from the tail the buffer left. *)
Lemma split_units_app u v :
  split_units (u ++ v) =
  let '(es, r) := split_units u in let '(es', r') := split_units (r ++ v) in (es ++ es', r').
Proof.
  induction u as [u IH] using (induction_ltof1 _ (@length N)). unfold ltof in IH.
  rewrite (split_units_step u). destruct (index_of _ u) as [i|] eqn:E.
  - pose proof (index_of_bound _ _ _ E) as Hb. cbn in Hb.
    rewrite (split_units_step (u ++ v)), (index_of_app _ _ _ _ E).
    rewrite drop_app_le, take_app_le by lia. rewrite IH by (rewrite length_drop; lia).
    destruct (split_units (drop (i + 2) u)) as [es r]. by destruct (split_units (r ++ v)) as [es' r'].
  - by destruct (split_units (u ++ v)).
Qed.

Lemma splitSseEvents_units s :
  splitSseEvents s = let '(es, r) := split_units (units s) in {| events := es; rest := Js r |}.
Proof. done. Qed.

Lemma splitSseEvents_nil s : index_of (units EVENT_SEPARATOR) (units s) = None ->
  splitSseEvents s = {| events := []; rest := s |}.
Proof. intros H. rewrite splitSseEvents_units, split_units_step, H. by destruct s. Qed.

(** The text a list of chunks carries. *)
Definition joined (chunks : list jstr) : jstr := Js (concat (map units chunks)).

Lemma feed_app state a b : feed state (a +++ b) = feed (feed state a) b.
Proof.
  destruct state as [es r]. unfold feed, japp; cbn [fst snd units].
  rewrite !splitSseEvents_units; cbn [units]. rewrite app_assoc, split_units_app.
  destruct (split_units (units r ++ units a)) as [es1 r1]; cbn [events rest units].
  destruct (split_units (r1 ++ units b)) as [es2 r2]; cbn [events rest]. by rewrite app_assoc.
Qed.

Lemma feed_nothing es r : index_of (units EVENT_SEPARATOR) (units r) = None -> feed (es, r) (Js []) = (es, r).
Proof.
  intros H. unfold feed, japp; cbn [fst snd units]. rewrite app_nil_r, splitSseEvents_nil by done.
  cbn. rewrite app_nil_r. by destruct r.
Qed.

Lemma split_rest_no_separator u : index_of (units EVENT_SEPARATOR) (snd (split_units u)) = None.
Proof.
  induction u as [u IH] using (induction_ltof1 _ (@length N)). unfold ltof in IH.
  rewrite split_units_step. destruct (index_of _ u) as [i|] eqn:E; [|done].
  pose proof (index_of_bound _ _ _ E) as Hb. cbn in Hb.
  specialize (IH (drop (i + 2) u)). rewrite length_drop in IH.
  destruct (split_units (drop (i + 2) u)) as [es r]. apply IH. lia.
Qed.

Lemma feed_chunks chunks es r : index_of (units EVENT_SEPARATOR) (units r) = None ->
  foldl feed (es, r) chunks = feed (es, r) (joined chunks).
Proof.
  revert es r; induction chunks as [|c chunks IH]; intros es r Hr; cbn [foldl].
  - unfold joined; cbn. by rewrite feed_nothing.
  - replace (joined (c :: chunks)) with (c +++ joined chunks) by done. rewrite feed_app.
    destruct (feed (es, r) c) as [es1 r1] eqn:E. apply IH.
    unfold feed in E. rewrite splitSseEvents_units in E. cbn [snd] in E.
    pose proof (split_rest_no_separator (units (r +++ c))) as Hn.
    destruct (split_units (units (r +++ c))) as [es2 r2]. injection E as _ <-. exact Hn.
Qed.

Lemma index_of_split p u i : index_of p u = Some i -> u = take i u ++ p ++ drop (i + length p) u.
Proof.
  revert i; induction u as [|c u IH]; intros i; cbn [index_of].
  - destruct (prefixb p []) eqn:E; [|done]. intros [= <-]. apply prefixb_spec in E as [r E]. by destruct p.
  - destruct (prefixb p (c :: u)) eqn:E.
    + intros [= <-]. apply prefixb_spec in E as [r ->]. cbn [take app Nat.add]. by rewrite drop_app_length.
    + destruct (index_of p u) as [j|] eqn:Ej; [|done]. intros [= <-]. cbn. f_equal. by apply IH.
Qed.

Lemma index_of_take p u i : index_of p u = Some i -> index_of p (take (i + length p) u) = Some i.
Proof.
  revert i; induction u as [|c u IH]; intros i; cbn [index_of].
  - destruct (prefixb p []) eqn:E; [|done]. intros [= <-]. by destruct p.
  - destruct (prefixb p (c :: u)) eqn:E.
    + intros [= <-]. apply prefixb_spec in E as [r E]. rewrite E. cbn [Nat.add]. rewrite take_app_length.
      assert (prefixb p p = true) as Hp by (apply prefixb_spec; exists []; by rewrite app_nil_r).
      destruct p; cbn [index_of]; by rewrite ?Hp.
    + destruct (index_of p u) as [j|] eqn:Ej; [|done]. intros [= <-]. cbn [Nat.add take index_of].
      destruct (prefixb p (c :: take (j + length p) u)) eqn:E'; [|by rewrite (IH j eq_refl)].
      exfalso. apply not_true_iff_false in E. apply E. apply prefixb_spec in E' as [r Hr]. apply prefixb_spec.
      exists (r ++ drop (j + length p) u). rewrite app_assoc, <- Hr. cbn. by rewrite take_drop.
Qed.

Lemma first_event i u : index_of (units EVENT_SEPARATOR) u = Some i ->
  exists body, Js (take (i + 2) u) = body +++ EVENT_SEPARATOR /\
    index_of (units EVENT_SEPARATOR) (units (Js (take (i + 2) u))) = Some (length (units body)).
Proof.
  intros E. pose proof (index_of_split _ _ _ E) as Hu. pose proof (index_of_bound _ _ _ E) as Hb.
  exists (Js (take i u)). cbn [units]. split.
  - unfold japp; cbn [units]. f_equal. rewrite Hu at 1. cbn in Hb.
    rewrite app_assoc, take_app_le by (rewrite length_app, length_take; cbn; lia).
    apply take_ge. rewrite length_app, length_take. cbn. lia.
  - rewrite length_take_le by (cbn in Hb; lia). exact (index_of_take _ _ _ E).
Qed.

(** Where the network cuts an event stream does not matter: feeding the text
    read by read, keeping the partial tail between reads, cuts exactly the events
    and leaves exactly the tail that the whole text in one read does; the events
    and the tail together are the text, byte for byte; every event ends with the
    blank line and holds no other; and the tail holds none. *)
Theorem split_any_chunking chunks :
  foldl feed ([], Js []) chunks = (events (splitSseEvents (joined chunks)), rest (splitSseEvents (joined chunks))) /\
  joined (events (splitSseEvents (joined chunks)) ++ [rest (splitSseEvents (joined chunks))]) = joined chunks /\
  Forall (fun e => exists body, e = body +++ EVENT_SEPARATOR /\
            index_of (units EVENT_SEPARATOR) (units e) = Some (length (units body)))
    (events (splitSseEvents (joined chunks))) /\
  index_of (units EVENT_SEPARATOR) (units (rest (splitSseEvents (joined chunks)))) = None.
Proof.
  split.
  { rewrite feed_chunks by done. unfold feed; cbn [fst snd app]. by destruct (joined chunks). }
  generalize (joined chunks) as s; clear chunks. intros [u].
  rewrite splitSseEvents_units; cbn [units].
  pose proof (split_rest_no_separator u) as Hrest.
  induction u as [u IH] using (induction_ltof1 _ (@length N)). unfold ltof in IH.
  rewrite split_units_step in *. destruct (index_of _ u) as [i|] eqn:E.
  - pose proof (index_of_bound _ _ _ E) as Hb. cbn in Hb.
    specialize (IH (drop (i + 2) u)). rewrite length_drop in IH. specialize (IH ltac:(lia)).
    destruct (split_units (drop (i + 2) u)) as [es r]; cbn [events rest snd units] in *.
    destruct (IH Hrest) as (Hj & He & Hr). split_and!; [|constructor; [|done]|done].
    + unfold joined in *. cbn [map app concat units] in *. injection Hj as Hj. rewrite Hj. by rewrite take_drop.
    + by apply first_event.
  - cbn [events rest units app]. split_and!; [by unfold joined; cbn; rewrite app_nil_r|constructor|done].
Qed.

(** A payload with no line break comes back from the event it was written to. *)
Lemma dataPayload_format payload :
  forallb (fun c => negb (c =? newline)%N) (units payload) = true ->
  dataPayloadOf (formatDataEvent payload) = Some payload.
Proof.
  intros H. unfold dataPayloadOf, jsplit, formatDataEvent, japp; cbn [units EVENT_SEPARATOR].
  replace ([100; 97; 116; 97; 58; 32]%N ++ units payload ++ [10; 10]%N)
    with (([100; 97; 116; 97; 58; 32]%N ++ units payload) ++ newline :: [newline]) by (by rewrite <- app_assoc).
    rewrite split_on_app, split_on_none by (by rewrite forallb_app, H). cbn. by destruct payload.
Qed.
