(* ===== verification/SignUpRequest.v ===== *)
(** * What a sign-up request carries

    [invites/sign-up-invite.ts], [auth/sign-up-method.ts], [auth/sign-up-mail-gate.plugin.ts]
    and the two mail callbacks of [auth/auth.options.ts]: the invitation read off a
    request, how the account was made, the carrier in front of the code route, and
    whether a sign-in credential may be mailed at all.  A request is the slice of
    Better Auth's context these read.  [decodeURIComponent] is written out; the
    parameters of a URL are the platform's. *)

From S2P Require Import Prelude JsString EvidenceDigest Json Store InviteCodes Invites.

(** ** [decodeURIComponent] *)

Definition lower_hex (c : N) : N := if is_upper c then (c + 32)%N else c.

(** [%XX] at the front: the byte and the rest. *)
Definition escaped_byte (u : list N) : option (N * list N) :=
  match u with
  | 37%N :: h :: l :: r =>
      if is_hex (lower_hex h) && is_hex (lower_hex l) then Some ((hex_value (lower_hex h) * 16 + hex_value (lower_hex l))%N, r) else None
  | _ => None
  end.

(** [n] continuation bytes behind [acc]. *)
Fixpoint continued (n : nat) (acc : N) (u : list N) : option (N * list N) :=
  match n with
  | O => Some (acc, u)
  | S n => '(b, r) ← escaped_byte u;
           if (N.land b 192 =? 128)%N then continued n (acc * 64 + (b - 128))%N r else None
  end.

(** How many bytes follow a first byte, its own bits, and the least code point so written. *)
Definition utf8_lead (b : N) : option (nat * N * N) :=
  if (b <? 128)%N then Some (0%nat, b, 0%N)
  else if (192 <=? b)%N && (b <? 224)%N then Some (1%nat, (b - 192)%N, 128%N)
  else if (224 <=? b)%N && (b <? 240)%N then Some (2%nat, (b - 224)%N, 2048%N)
  else if (240 <=? b)%N && (b <? 248)%N then Some (3%nat, (b - 240)%N, 65536%N)
  else None.

Definition utf16_units (p : N) : list N :=
  if (p <? 65536)%N then [p] else [(55296 + (p - 65536) / 1024)%N; (56320 + (p - 65536) mod 1024)%N].

Definition scalar_value (p : N) : bool := (p <? 1114112)%N && negb ((55296 <=? p)%N && (p <? 57344)%N).

Fixpoint decode_units (fuel : nat) (u : list N) : option (list N) :=
  match fuel, u with
  | _, [] => Some []
  | O, _ => None
  | S fuel, c :: r =>
      if negb (c =? 37)%N then t ← decode_units fuel r; Some (c :: t)
      else
        '(b, r) ← escaped_byte u;
        '(n, acc, least) ← utf8_lead b;
        '(p, r) ← continued n acc r;
        if (least <=? p)%N && scalar_value p then t ← decode_units fuel r; Some (utf16_units p ++ t) else None
  end.

(** [None] for its [URIError]; every turn takes at least one unit. *)
Definition decodeURIComponent (s : jstr) : option jstr := Js <$> decode_units (length (units s)) (units s).

(** ** The request *)

Definition INVITE_COOKIE_NAME : jstr := "cr_invite".
Definition INVITE_QUERY_PARAM : jstr := "invite".
Definition INVITE_BODY_FIELD : jstr := "inviteCode".

(** [get(name)]; [None] is [null]. *)
Definition HeaderBag := jstr -> option jstr.

Record SignUpRequestContext := {
  sq_path : option jstr;
  sq_body : option json;
  sq_query : option json;
  sq_headers : option HeaderBag;
  sq_requestHeaders : option HeaderBag
}.

Inductive request_error := URIError.

(** [new URL(value, 'http://invite.invalid').searchParams.get('invite')]: [None] when the
    constructor throws, the inner [None] for [null]. *)
Class CallbackUrl := { invite_param : jstr -> option (option jstr) }.

(** A non-empty string, trimmed. *)
Definition asCode (value : option json) : option jstr :=
  s ← as_string value; present (Some (jtrim s)).

Definition record_of (value : option json) : option json :=
  match value with Some v => if is_object v then Some v else None | None => None end.

Definition or_code (a b : option jstr) : option jstr := match a with Some c => Some c | None => b end.

Definition headers_of (context : SignUpRequestContext) : option HeaderBag :=
  match sq_headers context with Some h => Some h | None => sq_requestHeaders context end.

Definition header (headers : option HeaderBag) (name : jstr) : option jstr := headers ≫= fun h => h name.

Section Reading.
Context `{CallbackUrl}.

Definition inviteCodeInCallback (value : option json) : option jstr :=
  callbackUrl ← asCode value;
  found ← invite_param callbackUrl;
  asCode (JString <$> found).

(** The first pair of the cookie's name decides, whatever it holds. *)
Fixpoint cookie_pairs (pairs : list jstr) : result request_error (option jstr) :=
  match pairs with
  | [] => Ok None
  | kv :: rest =>
      match index_of [61%N] (units kv) with
      | Some (S n as at_) =>
          if jeqb (jtrim (jtake (Z.of_nat at_) kv)) INVITE_COOKIE_NAME
          then match decodeURIComponent (jtrim (jdrop (Z.of_nat at_ + 1) kv)) with
               | Some value => Ok (asCode (Some (JString value)))
               | None => Err URIError
               end
          else cookie_pairs rest
      | _ => cookie_pairs rest
      end
  end.

Definition inviteCookie (headers : option HeaderBag) : result request_error (option jstr) :=
  match present (header headers "cookie") with None => Ok None | Some cookie => cookie_pairs (jsplit 59 cookie) end.

(** The sources in front of the cookie. *)
Definition stated_code (context : SignUpRequestContext) : option jstr :=
  let body := record_of (sq_body context) in
  let query := record_of (sq_query context) in
  or_code (asCode (chain body INVITE_BODY_FIELD))
 (or_code (asCode (chain query INVITE_QUERY_PARAM))
 (or_code (asCode (chain query INVITE_BODY_FIELD))
 (or_code (inviteCodeInCallback (chain query "callbackURL"))
          (inviteCodeInCallback (chain body "callbackURL"))))).

Definition inviteCodeOf (context : SignUpRequestContext) (headers : option HeaderBag) : result request_error (option jstr) :=
  match stated_code context with
  | Some code => Ok (Some code)
  | None => inviteCookie headers
  end.

Definition clientIpOf (headers : option HeaderBag) : option jstr :=
  let forwarded := header headers "x-forwarded-for" in
  let first := jtrim <$> (forwarded ≫= fun f => head (jsplit 44 f)) in
  match present first with
  | Some ip => Some ip
  | None => present (header headers "x-real-ip")
  end.

Definition signUpInviteOf (context : option SignUpRequestContext) : result request_error SignUpInvite :=
  match context with
  | None => Ok NO_SIGN_UP_INVITE
  | Some context =>
      let headers := headers_of context in
      code ← inviteCodeOf context headers;
      Ok {| si_code := code; si_ip := clientIpOf headers; si_userAgent := header headers "user-agent" |}
  end.

(** ** How the account was made *)

Inductive SignUpMethod := by_password | by_email_code | by_magic_link | by_github | by_google.

Definition BOOTSTRAP_PATH : jstr := "/bootstrap".

Definition isBootstrapSignUp (context : option SignUpRequestContext) : bool :=
  bool_decide ((context ≫= sq_path) = Some BOOTSTRAP_PATH).

Definition signUpMethodOf (context : option SignUpRequestContext) : SignUpMethod :=
  let path := default (Js []) (context ≫= sq_path) in
  if jendsWith path "/callback/github" then by_github
  else if jendsWith path "/callback/google" then by_google
  else if jincludes path "/magic-link" then by_magic_link
  else if jendsWith path "/sign-in/email-otp" then by_email_code
  else by_password.

(** ** The carrier *)

Definition EMAIL_CODE_SEND_PATH : jstr := "/email-otp/send-verification-otp".

Definition with_query (q : json) (context : SignUpRequestContext) : SignUpRequestContext :=
  {| sq_path := sq_path context; sq_body := sq_body context; sq_query := Some q; sq_headers := sq_headers context; sq_requestHeaders := sq_requestHeaders context |}.

(** The hook in front of a route: the request it hands on. *)
Definition carry_invite (context : SignUpRequestContext) : result request_error SignUpRequestContext :=
  if negb (bool_decide (sq_path context = Some EMAIL_CODE_SEND_PATH)) then Ok context
  else
    invite ← signUpInviteOf (Some context);
    match present (si_code invite) with
    | None => Ok context
    | Some code =>
        let query := match record_of (sq_query context) with Some q => spread q | None => [] end in
        Ok (with_query (JObject (set_member INVITE_QUERY_PARAM (JString code) query)) context)
    end.

(** ** The mail gate *)

(** [findUserByEmail], when the context has an adapter to ask. *)
Definition account_known (adapter : option (jstr -> bool)) (address : jstr) : bool :=
  match adapter with Some find => find address | None => false end.

Definition mayMailSignUp (toLowerCase : jstr -> jstr) (email : jstr) (context : option SignUpRequestContext) (adapter : option (jstr -> bool))
    (admits : SignUpInvite -> bool) : result request_error bool :=
  let address := toLowerCase (jtrim email) in
  if account_known adapter address then Ok true
  else invite ← signUpInviteOf context; Ok (admits invite).

Inductive otp_type := otp_sign_in | otp_email_verification | otp_forget_password.

#[global] Instance otp_type_eq_dec : EqDecision otp_type.
Proof. solve_decision. Defined.

(** What a mail callback hands to the mailer: a code, a link, or nothing. *)
Inductive mailed := mail_code (email otp : jstr) | mail_link (email url : jstr).

Definition sendVerificationOTP (toLowerCase : jstr -> jstr) (mailGate : option (SignUpInvite -> bool)) (adapter : option (jstr -> bool))
    (email otp : jstr) (type : otp_type) (context : option SignUpRequestContext) : result request_error (option mailed) :=
  may ← match mailGate with None => Ok true | Some admits => mayMailSignUp toLowerCase email context adapter admits end;
  if negb may then Ok None
  else if negb (bool_decide (type = otp_sign_in)) then Ok None
  else Ok (Some (mail_code email otp)).

Definition sendMagicLink (toLowerCase : jstr -> jstr) (mailGate : option (SignUpInvite -> bool)) (adapter : option (jstr -> bool))
    (email url : jstr) (context : option SignUpRequestContext) : result request_error (option mailed) :=
  may ← match mailGate with None => Ok true | Some admits => mayMailSignUp toLowerCase email context adapter admits end;
  if negb may then Ok None else Ok (Some (mail_link email url)).
End Reading.

(** ** Lemmas *)

Lemma drop_while_idem p u : drop_while p (drop_while p u) = drop_while p u.
Proof. induction u as [|c u IH]; [done|]. cbn. destruct (p c) eqn:E; [done|]. cbn. by rewrite E. Qed.

Lemma drop_while_suffix p u : exists pre, u = pre ++ drop_while p u.
Proof. induction u as [|c u [pre IH]]; [by exists []|]. cbn. destruct (p c); [|by exists []]. exists (c :: pre). cbn. by rewrite <- IH. Qed.

Lemma drop_while_prefix p w r : drop_while p (w ++ r) = w ++ r -> drop_while p w = w.
Proof.
  destruct w as [|c w]; [done|]. cbn. destruct (p c) eqn:E; [|done]. intros H. exfalso.
  destruct (drop_while_suffix p (w ++ r)) as [pre Hp]. apply (f_equal length) in H, Hp. cbn in H. rewrite !length_app in *. lia.
Qed.

Lemma trim_units_idem u : trim_units (trim_units u) = trim_units u.
Proof.
  unfold trim_units. set (v := drop_while is_space u). set (w := drop_while is_space (reverse v)).
  assert (Hw : drop_while is_space (reverse w) = reverse w).
  { destruct (drop_while_suffix is_space (reverse v)) as [pre Hp]. fold w in Hp.
    apply (drop_while_prefix is_space (reverse w) (reverse pre)). rewrite <- reverse_app, <- Hp, reverse_involutive. apply drop_while_idem. }
  rewrite Hw, reverse_involutive. unfold w. by rewrite drop_while_idem.
Qed.

(** A code that was read is read again as itself. *)
Lemma asCode_again value c : asCode value = Some c -> asCode (Some (JString c)) = Some c.
Proof.
  unfold asCode. destruct (as_string value) as [s|]; [|done]. cbn. unfold jtrim. cbn [units].
  destruct (_ =? 0) eqn:E; [done|]. intros [= <-]. cbn [units]. by rewrite trim_units_idem, E.
Qed.

Lemma asCode_present value c : asCode value = Some c -> present (Some c) = Some c.
Proof.
  unfold asCode. destruct (as_string value) as [s|]; [|done]. cbn. destruct (_ =? 0) eqn:E; [done|]. intros [= <-]. by rewrite E.
Qed.

Section Requests.
Context `{CallbackUrl}.

Lemma callback_code value c : inviteCodeInCallback value = Some c -> exists v, asCode v = Some c.
Proof.
  unfold inviteCodeInCallback. destruct (asCode value) as [u|]; [|done]. cbn. destruct (invite_param u) as [found|]; [|done]. cbn. eauto.
Qed.

Lemma stated_code_again context c : stated_code context = Some c -> exists v, asCode v = Some c.
Proof.
  unfold stated_code, or_code.
  repeat match goal with |- context [match asCode ?v with Some _ => _ | None => _ end] => destruct (asCode v) eqn:?; [intros [= <-]; eauto|] end.
  destruct (inviteCodeInCallback _) eqn:E; [intros [= <-]; by eapply callback_code|]. apply callback_code.
Qed.

Lemma cookie_code pairs c : cookie_pairs pairs = Ok (Some c) -> exists v, asCode v = Some c.
Proof.
  induction pairs as [|kv rest IH]; [done|]. cbn [cookie_pairs]. destruct (index_of _ _) as [[|n]|]; [exact IH| |exact IH].
  destruct (jeqb _ _); [|exact IH]. destruct (decodeURIComponent _) as [value|]; [|done]. intros [= Hc]. eauto.
Qed.

Lemma inviteCodeOf_again context headers c : inviteCodeOf context headers = Ok (Some c) -> exists v, asCode v = Some c.
Proof.
  unfold inviteCodeOf. destruct (stated_code context) as [d|] eqn:E; [intros [= <-]; by eapply stated_code_again|].
  unfold inviteCookie. destruct (present _); [|done]. apply cookie_code.
Qed.

(** ** Theorems *)

(** C21. The invitation survives the route: whatever body a request for a sign-in code came
    with, once the carrier has handed it on and the route has put in its place a body
    without an invitation of its own, the gate reads the invitation the request
    arrived with, its fingerprint included. *)
Theorem carried_invitation_survives context carried body :
  sq_path context = Some EMAIL_CODE_SEND_PATH -> carry_invite context = Ok carried ->
  chain (record_of body) INVITE_BODY_FIELD = None -> chain (record_of body) "callbackURL" = None ->
  signUpInviteOf (Some {| sq_path := sq_path carried; sq_body := body; sq_query := sq_query carried;
                          sq_headers := sq_headers carried; sq_requestHeaders := sq_requestHeaders carried |}) =
  signUpInviteOf (Some context).
Proof.
  intros Hp Hc Hb1 Hb2. unfold carry_invite in Hc. rewrite Hp, bool_decide_eq_true_2 in Hc by done. cbn [negb] in Hc.
  unfold signUpInviteOf at 1 in Hc. cbn zeta in Hc. apply bind_ok in Hc as (invite & Hi & Hc).
  apply bind_ok in Hi as (code & Hcode & [= <-]). cbn [si_code] in Hc. unfold signUpInviteOf. cbn zeta. rewrite Hcode. cbn [mbind result_bind].
  destruct code as [c|].
  - destruct (inviteCodeOf_again _ _ _ Hcode) as [v Hv]. rewrite (asCode_present _ _ Hv) in Hc. injection Hc as <-.
    unfold inviteCodeOf, stated_code. cbn [sq_body sq_query with_query sq_headers sq_requestHeaders]. rewrite Hb1.
    change (record_of (Some (JObject ?m))) with (Some (JObject m)). cbn [chain]. rewrite member_set_eq. cbn [asCode as_string mbind option_bind or_code].
    change (present (Some (jtrim c))) with (asCode (Some (JString c))). by rewrite (asCode_again _ _ Hv).
  - injection Hc as <-. unfold inviteCodeOf in *.
    destruct (stated_code context) eqn:Es; [done|].
    assert (E : stated_code {| sq_path := sq_path context; sq_body := body; sq_query := sq_query context;
                               sq_headers := sq_headers context; sq_requestHeaders := sq_requestHeaders context |} = None).
    { revert Es. unfold stated_code. cbn [sq_body sq_query]. rewrite Hb1, Hb2. unfold or_code. cbn.
      destruct (asCode (chain (record_of (sq_body context)) INVITE_BODY_FIELD)); [done|].
      repeat match goal with |- context [match ?o with Some _ => _ | None => _ end] => destruct o eqn:?; [done|] end. done. }
    rewrite E. unfold headers_of in *. cbn [sq_headers sq_requestHeaders]. by rewrite Hcode.
Qed.

(** On an invite-only deployment the mail asks what the account asks: the callback hands a
    sign-in code to the mailer exactly when its address has an account or the gate in
    front of the insert would let this request create one, and then for a sign-in only; a
    link under the same condition.  Whether a code handed over also leaves is the hourly
    allowance's to say ([MailService.sendSignInCode]). *)
Theorem mail_asks_what_the_account_asks toUpperCase toLowerCase adapter db now email secret_ type context m url link :
  let gate := Some (fun invite => admits toUpperCase true db invite now) in
  let may := account_known adapter (toLowerCase (jtrim email)) = true \/
             exists invite, signUpInviteOf context = Ok invite /\ admit_sign_up toUpperCase true db invite false now = None in
  (sendVerificationOTP toLowerCase gate adapter email secret_ type context = Ok (Some m) <->
     type = otp_sign_in /\ m = mail_code email secret_ /\ may) /\
  (sendMagicLink toLowerCase gate adapter email url context = Ok (Some link) <-> link = mail_link email url /\ may).
Proof.
  intros gate may.
  assert (Hmay : mayMailSignUp toLowerCase email context adapter (fun invite => admits toUpperCase true db invite now) = Ok true <-> may).
  { unfold mayMailSignUp, may. destruct (account_known _ _); [by split; [left|]|].
    destruct (signUpInviteOf context) as [invite|e]; cbn [mbind result_bind].
    - unfold admits, admit_sign_up. cbn [negb orb]. destruct (refusalFor toUpperCase db invite now) as [r|] eqn:E.
      + split; [done|]. intros [?|(i & [= <-] & Ha)]; [done|]. rewrite E in Ha. done.
      + split; [|done]. intros _. right. exists invite. by rewrite E.
    - split; [done|]. by intros [?|(i & ? & _)]. }
  unfold sendVerificationOTP, sendMagicLink, gate. rewrite <- Hmay.
  destruct (mayMailSignUp _ _ _ _ _) as [[]|e]; cbn [mbind result_bind negb].
  - split; [|by split; [intros [= <-]|intros [-> _]]]. destruct (decide (type = otp_sign_in)) as [->|Hne].
    + rewrite bool_decide_eq_true_2 by done. cbn. by split; [intros [= <-]|intros (_ & -> & _)].
    + rewrite bool_decide_eq_false_2 by done. cbn. by split; [|intros [? _]].
  - split; (split; [done|]); [by intros (_ & _ & ?)|by intros [_ ?]].
  - split; (split; [done|]); [by intros (_ & _ & ?)|by intros [_ ?]].
Qed.
End Requests.

(** ** Examples *)

Definition no_callbacks : CallbackUrl := {| invite_param _ := None |}.

Definition code_request (body : option json) (headers : option HeaderBag) : SignUpRequestContext :=
  {| sq_path := Some EMAIL_CODE_SEND_PATH; sq_body := body; sq_query := None; sq_headers := headers; sq_requestHeaders := None |}.

Definition cookie_header (cookie : jstr) : option HeaderBag := Some (fun name => if jeqb name "cookie" then Some cookie else None).

Definition with_code : SignUpRequestContext :=
  code_request (Some (JObject [("email" : jstr, JString "a@b.c"); (INVITE_BODY_FIELD, JString " ABC ")])) None.

Lemma carried_invitation_survives_witness :
  @signUpInviteOf no_callbacks (Some {| sq_path := Some EMAIL_CODE_SEND_PATH; sq_body := Some (JObject [("email" : jstr, JString "a@b.c")]);
                          sq_query := Some (JObject [(INVITE_QUERY_PARAM, JString "ABC")]); sq_headers := None; sq_requestHeaders := None |}) =
  Ok {| si_code := Some "ABC"%js; si_ip := None; si_userAgent := None |}.
Proof.
  etrans; [apply (@carried_invitation_survives no_callbacks with_code
    (with_query (JObject [(INVITE_QUERY_PARAM, JString "ABC")]) with_code) (Some (JObject [("email" : jstr, JString "a@b.c")])))|]; vm_compute; reflexivity.
Defined.

(** A cookie is percent-decoded and trimmed. *)
Example cookie_is_decoded :
  @signUpInviteOf no_callbacks (Some (code_request None (cookie_header "theme=dark; cr_invite=%20%C3%A9A%20"))) =
  Ok {| si_code := Some (Js [233; 65]%N); si_ip := None; si_userAgent := None |}.
Proof. vm_compute. reflexivity. Qed.

(** A cookie that does not decode throws out of the reading, and so out of both hooks of
    an account's creation. *)
Example a_broken_cookie_throws :
  @signUpInviteOf no_callbacks (Some (code_request None (cookie_header "cr_invite=50%"))) = Err URIError.
Proof. vm_compute. reflexivity. Qed.
