(* ===== verification/ApiKeys.v ===== *)
(** * Credentials of the [/v1] surface

    [api-keys/api-key-token.ts], [api-keys/api-key.service.ts] over the rows of
    [db/entities/api-key.entity.ts], and the guard of [api/v1/api-key.guard.ts].
    SHA-256 over the UTF-8 bytes of a secret is a parameter, and the random bytes of
    a mint an argument.  A method that loads an entity and saves it later writes
    back every column it holds, which is what [save] is here. *)

From S2P Require Import Prelude JsString EvidenceDigest Store.

(** ** Tokens *)

Definition API_KEY_PREFIX : jstr := "sk-tee-v1-".
Definition API_KEY_ENTROPY_BYTES : nat := 32.
Definition API_KEY_DISPLAY_PREFIX_LENGTH : Z := 12.

Record MintedApiKey := { mk_secret : jstr; mk_keyHash : jstr; mk_prefix : jstr }.

Definition displayPrefixOf (secret : jstr) : jstr := jtake API_KEY_DISPLAY_PREFIX_LENGTH secret.

(** [^sk-tee-v1-[A-Za-z0-9_-]{43}$] *)
Definition looksLikeApiKey (value : jstr) : bool :=
  jstartsWith value API_KEY_PREFIX &&
  (let body := units (jdrop (jlength API_KEY_PREFIX) value) in
   (length body =? 43)%nat && forallb is_b64url body).

(** [/^Bearer\s+(\S+)$/i] on the trimmed header. *)
Definition bearerTokenOf (header : option jstr) : option jstr :=
  match header with
  | None => None
  | Some header =>
      let u := trim_units (units header) in
      let tail := drop 6 u in
      let token := drop_while is_space tail in
      if bool_decide (map lower_unit (take 6 u) = units "bearer")
         && negb (length token =? length tail)%nat && negb (length token =? 0)%nat
         && forallb (fun c => negb (is_space c)) token
      then Some (Js token) else None
  end.

(** ** Rows *)

Inductive ApiKeyPurpose := console_chat.

#[global] Instance purpose_eq_dec : EqDecision ApiKeyPurpose.
Proof. solve_decision. Defined.

Record ApiKey := {
  ak_id : jstr;
  ak_workspaceId : jstr;
  ak_name : jstr;
  ak_keyHash : jstr;
  ak_prefix : jstr;
  ak_purpose : option ApiKeyPurpose;
  ak_modelScope : option (list jstr);
  ak_spendLimitMicros : option Z;
  ak_spentTotalMicros : Z;
  ak_requestsPerMinute : option Z;
  ak_tokensPerMinute : option Z;
  ak_expiresAt : option Z;
  ak_lastUsedAt : option Z;
  ak_revokedAt : option Z;
  ak_createdByUserId : option jstr;
  ak_createdAt : Z
}.

Record CreateApiKeyInput := {
  ci_workspaceId : jstr;
  ci_createdByUserId : jstr;
  ci_name : jstr;
  ci_modelScope : option (list jstr);
  ci_spendLimitMicros : option Z;
  ci_requestsPerMinute : option Z;
  ci_tokensPerMinute : option Z;
  ci_expiresAt : option Z;
  ci_purpose : option ApiKeyPurpose
}.

(** Absent leaves a column alone; an inner [None] clears it. *)
Record UpdateApiKeyInput := {
  ui_name : option jstr;
  ui_modelScope : option (option (list jstr));
  ui_spendLimitMicros : option (option Z);
  ui_requestsPerMinute : option (option Z);
  ui_tokensPerMinute : option (option Z);
  ui_expiresAt : option (option Z)
}.

Inductive ApiKeyRejection := invalid_api_key | api_key_revoked | api_key_expired.

Record AuthenticatedApiKey := { au_key : ApiKey; au_workspaceId : jstr; au_workspace : Workspace }.

Definition normaliseScope (scope : option (list jstr)) : option (list jstr) :=
  match scope with
  | None | Some [] => None
  | Some scope => Some (distinct [] scope)
  end.

(** [UPDATE api_keys SET … WHERE id = :id] *)
Definition update_row (id : jstr) (f : ApiKey -> ApiKey) (table : list ApiKey) : list ApiKey :=
  map (fun k => if jeqb (ak_id k) id then f k else k) table.

(** [keys.save(key)] of an entity loaded before. *)
Definition save (key : ApiKey) (table : list ApiKey) : list ApiKey := update_row (ak_id key) (fun _ => key) table.

Section Service.
Context (sha256_hex : jstr -> jstr).

Definition hashApiKey (secret : jstr) : jstr := sha256_hex secret.

Definition mintApiKey (random : list N) : MintedApiKey :=
  let secret := API_KEY_PREFIX +++ Js (base64UrlEncode random) in
  {| mk_secret := secret; mk_keyHash := hashApiKey secret; mk_prefix := displayPrefixOf secret |}.

(** The unique index on [keyHash] and the primary key refuse a clash. *)
Definition create (input : CreateApiKeyInput) (uuid : jstr) (random : list N) (now : Z) (table : list ApiKey)
    : result error (list ApiKey * (ApiKey * jstr)) :=
  let minted := mintApiKey random in
  let key := {| ak_id := uuid; ak_workspaceId := ci_workspaceId input; ak_name := ci_name input;
                ak_keyHash := mk_keyHash minted; ak_prefix := mk_prefix minted; ak_purpose := ci_purpose input;
                ak_modelScope := normaliseScope (ci_modelScope input);
                ak_spendLimitMicros := ci_spendLimitMicros input; ak_spentTotalMicros := 0;
                ak_requestsPerMinute := ci_requestsPerMinute input; ak_tokensPerMinute := ci_tokensPerMinute input;
                ak_expiresAt := ci_expiresAt input; ak_lastUsedAt := None; ak_revokedAt := None;
                ak_createdByUserId := Some (ci_createdByUserId input); ak_createdAt := now |} in
  throw UniqueViolation
    when existsb (fun k => jeqb (ak_id k) uuid || jeqb (ak_keyHash k) (ak_keyHash key)) table;
  Ok (table ++ [key], (key, mk_secret minted)).

Definition authenticate (secret : jstr) (now : Z) (table : list ApiKey) (workspaces : gmap jstr Workspace)
    : result ApiKeyRejection AuthenticatedApiKey :=
  if negb (looksLikeApiKey secret) then Err invalid_api_key
  else
    match find_first (fun k => jeqb (ak_keyHash k) (hashApiKey secret)) table with
    | None => Err invalid_api_key
    | Some key =>
        match ak_revokedAt key with
        | Some _ => Err api_key_revoked
        | None =>
            if match ak_expiresAt key with Some e => e <=? now | None => false end then Err api_key_expired
            else
              match workspaces !! ak_workspaceId key with
              | None => Err invalid_api_key
              | Some workspace =>
                  Ok {| au_key := key; au_workspaceId := ak_workspaceId key; au_workspace := workspace |}
              end
        end
    end.
End Service.

Definition countLive (workspaceId : jstr) (table : list ApiKey) : Z :=
  Z.of_nat (length (List.filter (fun k => jeqb (ak_workspaceId k) workspaceId &&
                                        match ak_revokedAt k with None => true | Some _ => false end) table)).

(** [order: { createdAt: 'DESC' }] *)
Definition newest (a b : ApiKey) : Prop := ak_createdAt b <= ak_createdAt a.

#[global] Instance newest_dec a b : Decision (newest a b).
Proof. unfold newest. apply _. Defined.

Definition list_keys (workspaceId : jstr) (table : list ApiKey) : list ApiKey :=
  merge_sort newest (List.filter (fun k => jeqb (ak_workspaceId k) workspaceId) table).

Definition listLiveByPurpose (workspaceId : jstr) (purpose : ApiKeyPurpose) (createdByUserId : jstr)
    (table : list ApiKey) : list ApiKey :=
  merge_sort newest
    (List.filter (fun k => jeqb (ak_workspaceId k) workspaceId && bool_decide (ak_purpose k = Some purpose)
                           && bool_decide (ak_createdByUserId k = Some createdByUserId)
                           && match ak_revokedAt k with None => true | Some _ => false end) table).

Definition findInWorkspace (id workspaceId : jstr) (table : list ApiKey) : option ApiKey :=
  find_first (fun k => jeqb (ak_id k) id && jeqb (ak_workspaceId k) workspaceId) table.

(** The entity [update] saves. *)
Definition edited (key : ApiKey) (input : UpdateApiKeyInput) : ApiKey :=
  {| ak_id := ak_id key; ak_workspaceId := ak_workspaceId key; ak_name := default (ak_name key) (ui_name input);
     ak_keyHash := ak_keyHash key; ak_prefix := ak_prefix key; ak_purpose := ak_purpose key;
     ak_modelScope := match ui_modelScope input with Some s => normaliseScope s | None => ak_modelScope key end;
     ak_spendLimitMicros := default (ak_spendLimitMicros key) (ui_spendLimitMicros input);
     ak_spentTotalMicros := ak_spentTotalMicros key;
     ak_requestsPerMinute := default (ak_requestsPerMinute key) (ui_requestsPerMinute input);
     ak_tokensPerMinute := default (ak_tokensPerMinute key) (ui_tokensPerMinute input);
     ak_expiresAt := default (ak_expiresAt key) (ui_expiresAt input);
     ak_lastUsedAt := ak_lastUsedAt key; ak_revokedAt := ak_revokedAt key;
     ak_createdByUserId := ak_createdByUserId key; ak_createdAt := ak_createdAt key |}.

Definition update (key : ApiKey) (input : UpdateApiKeyInput) (table : list ApiKey) : list ApiKey :=
  save (edited key input) table.

Definition with_times (key : ApiKey) (lastUsedAt revokedAt : option Z) (spent : Z) : ApiKey :=
  {| ak_id := ak_id key; ak_workspaceId := ak_workspaceId key; ak_name := ak_name key;
     ak_keyHash := ak_keyHash key; ak_prefix := ak_prefix key; ak_purpose := ak_purpose key;
     ak_modelScope := ak_modelScope key; ak_spendLimitMicros := ak_spendLimitMicros key;
     ak_spentTotalMicros := spent; ak_requestsPerMinute := ak_requestsPerMinute key;
     ak_tokensPerMinute := ak_tokensPerMinute key; ak_expiresAt := ak_expiresAt key; ak_lastUsedAt := lastUsedAt;
     ak_revokedAt := revokedAt; ak_createdByUserId := ak_createdByUserId key; ak_createdAt := ak_createdAt key |}.

(** [key.revokedAt ??= new Date()] *)
Definition revoked (key : ApiKey) (now : Z) : ApiKey :=
  with_times key (ak_lastUsedAt key) (Some (default now (ak_revokedAt key))) (ak_spentTotalMicros key).

Definition revoke (key : ApiKey) (now : Z) (table : list ApiKey) : list ApiKey := save (revoked key now) table.

Definition markUsed (id : jstr) (at_ : Z) (table : list ApiKey) : list ApiKey :=
  update_row id (fun k => with_times k (Some at_) (ak_revokedAt k) (ak_spentTotalMicros k)) table.

(** [spentTotalMicros = spentTotalMicros + n], one statement. *)
Definition recordSpend (id : jstr) (costMicros : Z) (table : list ApiKey) : list ApiKey :=
  if costMicros <=? 0 then table
  else update_row id (fun k => with_times k (ak_lastUsedAt k) (ak_revokedAt k) (ak_spentTotalMicros k + costMicros)) table.

(** [ApiKeyGuard.canActivate]: the credential the request goes on with. *)
Definition canActivate (sha256_hex : jstr -> jstr) (authorization : option jstr) (now : Z) (table : list ApiKey)
    (workspaces : gmap jstr Workspace) : result ApiKeyRejection (list ApiKey * AuthenticatedApiKey) :=
  match bearerTokenOf authorization with
  | None => Err invalid_api_key
  | Some secret =>
      auth ← authenticate sha256_hex secret now table workspaces;
      Ok (markUsed (ak_id (au_key auth)) now table, auth)
  end.

(** ** Lemmas: a minted token *)

Lemma minted_body random : sha256_bytes random ->
  length (base64UrlEncode random) = 43%nat /\ forallb is_b64url (base64UrlEncode random) = true /\
  forallb (fun c => negb (is_space c)) (base64UrlEncode random) = true.
Proof.
  intros Hr. destruct (sha256_sextets random Hr) as [Hl Hd]. unfold base64UrlEncode.
  rewrite url_safe_btoa by apply Hr. rewrite length_map. split; [done|].
  rewrite !forallb_forall. rewrite Forall_forall in Hd.
  split; intros c (v & <- & Hv)%in_map_iff; destruct (url_digit_spec v) as (H1 & _ & _ & _ & _ & H2 & _);
    try (by apply Hd, list_elem_of_In); [done|by rewrite H2].
Qed.

Lemma minted_looks_right sha random : sha256_bytes random -> looksLikeApiKey (mk_secret (mintApiKey sha random)) = true.
Proof.
  intros Hr. destruct (minted_body random Hr) as (H1 & H2 & _). unfold looksLikeApiKey, mintApiKey; cbn [mk_secret].
  rewrite jstartsWith_app, jdrop_app by done. cbn [units andb]. by rewrite H1, H2.
Qed.

(** A text that neither starts nor ends with a space is its own trim. *)
Lemma trim_ends c u d : is_space c = false -> is_space d = false -> trim_units (c :: u ++ [d]) = c :: u ++ [d].
Proof.
  intros Hc Hd. unfold trim_units. cbn [drop_while]. rewrite Hc. rewrite app_comm_cons, reverse_snoc. cbn [drop_while].
  by rewrite Hd, <- reverse_snoc, reverse_involutive.
Qed.

Lemma drop_while_head p c u : p c = false -> drop_while p (c :: u) = c :: u.
Proof. intros H. cbn. by rewrite H. Qed.

(** A secret in a bearer header is read back. *)
Lemma bearer_minted sha random : sha256_bytes random ->
  bearerTokenOf (Some ("Bearer " +++ mk_secret (mintApiKey sha random))) = Some (mk_secret (mintApiKey sha random)).
Proof.
  intros Hr. destruct (minted_body random Hr) as (Hl & _ & Hs). unfold bearerTokenOf, mintApiKey, japp; cbn [mk_secret units].
  set (body := base64UrlEncode random) in *. clearbody body.
  change (units "Bearer ") with [66; 101; 97; 114; 101; 114; 32]%N.
  change (units API_KEY_PREFIX) with [115; 107; 45; 116; 101; 101; 45; 118; 49; 45]%N.
  set (head := [115; 107; 45; 116; 101; 101; 45; 118; 49; 45]%N).
  assert (forallb (fun c => negb (is_space c)) (head ++ body) = true) as Ht by (by rewrite forallb_app, Hs).
  assert (trim_units ([66; 101; 97; 114; 101; 114; 32]%N ++ head ++ body)
          = [66; 101; 97; 114; 101; 114; 32]%N ++ head ++ body) as ->.
  { destruct (head ++ body) as [|d l _] eqn:E using rev_ind; [done|].
    rewrite forallb_app in Ht. apply andb_true_iff in Ht as [_ Ht]. cbn in Ht.
    apply (trim_ends 66 ([101; 97; 114; 101; 114; 32]%N ++ l) d); [done|]. by destruct (is_space d). }
  cbn [app take drop]. change (map lower_unit _) with (units "bearer"). rewrite bool_decide_eq_true_2 by done.
  assert (drop_while is_space (32%N :: head ++ body) = head ++ body) as -> by done.
  rewrite Ht. cbn [length andb negb]. destruct (Nat.eqb_spec (length (head ++ body)) (S (length (head ++ body)))); [lia|].
  by destruct (Nat.eqb_spec (length (head ++ body)) 0).
Qed.

(** ** Lemmas: rows *)

Lemma find_map_same {A} (p : A -> bool) (f : A -> A) l : (forall x, x ∈ l -> p (f x) = p x) ->
  find_first p (map f l) = f <$> find_first p l.
Proof.
  unfold find_first. induction l as [|x l IH]; intros H; [done|]. cbn. rewrite H by constructor.
  destruct (p x); [done|]. apply IH. intros y Hy. apply H. by constructor.
Qed.

Lemma find_update_row (p : ApiKey -> bool) id f table : (forall k, p (f k) = p k) ->
  find_first p (update_row id f table) = (fun k => if jeqb (ak_id k) id then f k else k) <$> find_first p table.
Proof. intros H. apply find_map_same. intros k _. destruct (jeqb _ _); [apply H|done]. Qed.

(** Saving what was loaded from the row as it stands is the update of that row. *)
Lemma save_loaded table k g : NoDup (map ak_id table) -> k ∈ table -> ak_id (g k) = ak_id k ->
  save (g k) table = update_row (ak_id k) g table.
Proof.
  intros Hnd Hk Hid. unfold save, update_row. rewrite Hid. apply map_ext_in. intros r Hr%list_elem_of_In.
  destruct (jeqb (ak_id r) (ak_id k)) eqn:E; [|done]. apply jeqb_eq in E. by rewrite (nodup_map_inj ak_id table r k).
Qed.

Lemma findInWorkspace_some id ws table k :
  findInWorkspace id ws table = Some k -> k ∈ table /\ ak_id k = id /\ ak_workspaceId k = ws.
Proof. intros [Hk [H1 H2]%andb_true_iff]%find_first_some. by rewrite !jeqb_eq in *. Qed.

(** The row a [create] commits, and that no row before it had its id or its hash. *)
Definition created_row (sha256_hex : jstr -> jstr) (input : CreateApiKeyInput) (uuid : jstr) (random : list N) (now : Z) : ApiKey :=
  let minted := mintApiKey sha256_hex random in
  {| ak_id := uuid; ak_workspaceId := ci_workspaceId input; ak_name := ci_name input;
     ak_keyHash := mk_keyHash minted; ak_prefix := mk_prefix minted; ak_purpose := ci_purpose input;
     ak_modelScope := normaliseScope (ci_modelScope input);
     ak_spendLimitMicros := ci_spendLimitMicros input; ak_spentTotalMicros := 0;
     ak_requestsPerMinute := ci_requestsPerMinute input; ak_tokensPerMinute := ci_tokensPerMinute input;
     ak_expiresAt := ci_expiresAt input; ak_lastUsedAt := None; ak_revokedAt := None;
     ak_createdByUserId := Some (ci_createdByUserId input); ak_createdAt := now |}.

Lemma create_ok sha input uuid random now table table' key secret :
  create sha input uuid random now table = Ok (table', (key, secret)) ->
  key = created_row sha input uuid random now /\ secret = mk_secret (mintApiKey sha random) /\ table' = table ++ [key] /\
  forall r, r ∈ table -> ak_id r <> uuid /\ ak_keyHash r <> ak_keyHash key.
Proof.
  unfold create. fold (created_row sha input uuid random now). set (k := created_row _ _ _ _ _). intros Hc.
  destruct (throw_if _ _) eqn:Eq in Hc; [|done]. apply throw_if_ok in Eq. injection Hc as <- <- <-. split_and!; [done..|].
  intros r Hr'. apply not_true_iff_false in Eq. split; intros E; apply Eq, existsb_exists; exists r;
    rewrite E, jeqb_refl, ?orb_true_r; split; (done || by apply list_elem_of_In).
Qed.

(** Until it expires, the secret of a [create] is accepted for the row it made. *)
Lemma created_authenticates sha input uuid random now table table' key secret workspaces ws t :
  sha256_bytes random -> create sha input uuid random now table = Ok (table', (key, secret)) ->
  workspaces !! ci_workspaceId input = Some ws -> match ci_expiresAt input with Some e => t < e | None => True end ->
  authenticate sha secret t table' workspaces = Ok {| au_key := key; au_workspaceId := ci_workspaceId input; au_workspace := ws |}.
Proof.
  intros Hr Hc Hw He. destruct (create_ok _ _ _ _ _ _ _ _ _ Hc) as (Ek & -> & -> & Hfresh).
  unfold authenticate. rewrite minted_looks_right by done. cbn [negb]. rewrite find_first_app, (proj2 (find_first_none _ table)).
  - rewrite Ek. cbn. rewrite jeqb_refl. cbn. rewrite Hw. destruct (ci_expiresAt input) as [e|]; [|done]. by rewrite (proj2 (Z.leb_gt _ _)).
  - intros r [_ Hh]%Hfresh. apply jeqb_neq. by rewrite Ek in Hh.
Qed.

(** ** Theorems *)

Section Lifecycle.
Context (sha256_hex : jstr -> jstr).

(** C37. A secret authenticates from the moment it is minted: the row [create] commits is
    found again by [authenticate] at any time before its expiry, with its own
    workspace, from the bearer header that carries it; the row holds the hash and
    the first twelve characters of the secret only, an empty scope is no scope, and
    no other row changes. *)
Theorem minted_key_authenticates input uuid random now table table' key secret workspaces ws t :
  sha256_bytes random ->
  create sha256_hex input uuid random now table = Ok (table', (key, secret)) ->
  workspaces !! ci_workspaceId input = Some ws ->
  match ci_expiresAt input with Some e => t < e | None => True end ->
  authenticate sha256_hex secret t table' workspaces =
    Ok {| au_key := key; au_workspaceId := ci_workspaceId input; au_workspace := ws |} /\
  canActivate sha256_hex (Some ("Bearer " +++ secret)) t table' workspaces =
    Ok (table ++ [with_times key (Some t) None 0],
        {| au_key := key; au_workspaceId := ci_workspaceId input; au_workspace := ws |}) /\
  table' = table ++ [key] /\ ak_keyHash key = sha256_hex secret /\ ak_prefix key = jtake 12 secret /\
  (ci_modelScope input = Some [] -> ak_modelScope key = None).
Proof.
  intros Hr Hc Hw He. pose proof (created_authenticates _ _ _ _ _ _ _ _ _ _ _ _ Hr Hc Hw He) as Ha.
  destruct (create_ok _ _ _ _ _ _ _ _ _ Hc) as (Ek & -> & -> & Hfresh).
  split_and!; try done; [|by rewrite Ek..|by rewrite Ek; cbn; intros ->].
  unfold canActivate.
  rewrite bearer_minted by done. rewrite Ha. cbn [mbind result_bind au_key]. do 2 f_equal.
  unfold markUsed, update_row. rewrite map_app. cbn [map]. rewrite jeqb_refl, Ek. f_equal.
  rewrite <- (map_id table) at 2. apply map_ext_in. intros r [Hi _]%list_elem_of_In%Hfresh.
  destruct (jeqb (ak_id r) _) eqn:E; [|done]. by apply jeqb_eq in E.
Qed.

(** The requests that touch the table, each a statement or a load and a save with
    nothing in between. *)
Inductive key_request :=
| Creates (input : CreateApiKeyInput) (uuid : jstr) (random : list N) (now : Z)
| Edits (id workspaceId : jstr) (input : UpdateApiKeyInput)
| Revokes (id workspaceId : jstr) (now : Z)
| Presents (id : jstr) (at_ : Z)
| Spends (id : jstr) (costMicros : Z).

Definition serve (table : list ApiKey) (r : key_request) : list ApiKey :=
  match r with
  | Creates input uuid random now =>
      match create sha256_hex input uuid random now table with Ok (table, _) => table | Err _ => table end
  | Edits id workspaceId input =>
      match findInWorkspace id workspaceId table with Some key => update key input table | None => table end
  | Revokes id workspaceId now =>
      match findInWorkspace id workspaceId table with Some key => revoke key now table | None => table end
  | Presents id at_ => markUsed id at_ table
  | Spends id costMicros => recordSpend id costMicros table
  end.

(** A change of one row that keeps what a credential is found by and does not take
    a revocation back. *)
Definition keeps (f : ApiKey -> ApiKey) : Prop := forall k,
  ak_id (f k) = ak_id k /\ ak_keyHash (f k) = ak_keyHash k /\ (is_Some (ak_revokedAt k) -> is_Some (ak_revokedAt (f k))).

Lemma serve_shape table r : NoDup (map ak_id table) ->
  (exists id f, keeps f /\ serve table r = update_row id f table) \/
  (exists k, serve table r = table ++ [k] /\ ak_id k ∉ map ak_id table).
Proof.
  intros Hnd. assert (forall id, table = update_row id (fun k => k) table) as Hid.
  { intros id. unfold update_row. rewrite <- (map_id table) at 1. apply map_ext. intros k. by destruct (jeqb _ _). }
  assert (keeps (fun k => k)) as Hk by done.
  destruct r as [input uuid random now|id ws input|id ws now|id at_|id cost]; cbn [serve].
  - unfold create. destruct (throw_if _ _) eqn:E; [right|left; by exists uuid, (fun k => k)].
    apply throw_if_ok in E. eexists. split; [done|]. cbn. intros (k & Heq & Hin)%list_elem_of_fmap.
    apply not_true_iff_false in E. apply E, existsb_exists. exists k. rewrite Heq, jeqb_refl. split; [by apply list_elem_of_In|done].
  - left. destruct (findInWorkspace id ws table) as [k|] eqn:E; [|by exists id, (fun k => k)].
    apply findInWorkspace_some in E as (Hin & <- & _). exists (ak_id k), (fun k => edited k input). split; [done|].
    by apply (save_loaded table k (fun k => edited k input)).
  - left. destruct (findInWorkspace id ws table) as [k|] eqn:E; [|by exists id, (fun k => k)].
    apply findInWorkspace_some in E as (Hin & <- & _). exists (ak_id k), (fun k => revoked k now). split; [done|].
    by apply (save_loaded table k (fun k => revoked k now)).
  - left. by exists id, (fun k => with_times k (Some at_) (ak_revokedAt k) (ak_spentTotalMicros k)).
  - left. unfold recordSpend. destruct (cost <=? 0); [by exists id, (fun k => k)|].
    by exists id, (fun k => with_times k (ak_lastUsedAt k) (ak_revokedAt k) (ak_spentTotalMicros k + cost)).
Qed.

Lemma update_row_ids id f table : keeps f -> map ak_id (update_row id f table) = map ak_id table.
Proof.
  intros Hf. unfold update_row. rewrite map_map. apply map_ext. intros k. destruct (jeqb _ _); [apply Hf|done].
Qed.

Definition revoked_under (hash : jstr) (table : list ApiKey) : Prop :=
  exists k, find_first (fun k => jeqb (ak_keyHash k) hash) table = Some k /\ is_Some (ak_revokedAt k).

Lemma serve_keeps hash table r : NoDup (map ak_id table) -> revoked_under hash table ->
  NoDup (map ak_id (serve table r)) /\ revoked_under hash (serve table r).
Proof.
  intros Hnd (k & Hk & Hr). destruct (serve_shape table r Hnd) as [(id & f & Hf & ->)|(k' & -> & Hf)].
  - rewrite update_row_ids by done. split; [done|]. unfold revoked_under.
    rewrite find_update_row by (intros x; destruct (Hf x) as (_ & -> & _); done). rewrite Hk. cbn [fmap option_fmap option_map].
    eexists. split; [done|]. destruct (jeqb _ _); [by apply Hf|done].
  - rewrite map_app, NoDup_app. split.
    + split_and!; [done| |apply NoDup_singleton]. intros x Hx ->%list_elem_of_singleton. done.
    + exists k. by rewrite find_first_app, Hk.
Qed.

(** A revoked credential stays refused: whatever requests are served after the
    revocation, one after the other, in any number and order (new keys, edits,
    further revocations, uses and metered spend), the secret is answered with
    [api_key_revoked] and with nothing else. *)
Theorem revocation_is_final requests : forall secret table workspaces now,
  NoDup (map ak_id table) -> looksLikeApiKey secret = true ->
  revoked_under (sha256_hex secret) table ->
  authenticate sha256_hex secret now (foldl serve table requests) workspaces = Err api_key_revoked.
Proof.
  induction requests as [|r requests IH]; intros secret table workspaces now Hnd Hl Hr; cbn [foldl].
  - destruct Hr as (k & Hk & [at_ Ha]). unfold authenticate, hashApiKey. by rewrite Hl, Hk, Ha.
  - destruct (serve_keeps _ table r Hnd Hr). by apply IH.
Qed.

(** The premise that a load and its save are not interrupted matters: an edit that
    loaded the key before another request revoked it writes the row back as it was
    loaded, so the revocation and the spend metered in between are lost and the
    secret authenticates again. *)
Theorem stale_edit_restores_key secret table workspaces ws key input t cost now :
  NoDup (map ak_id table) -> looksLikeApiKey secret = true ->
  find_first (fun k => jeqb (ak_keyHash k) (sha256_hex secret)) table = Some key ->
  ak_revokedAt key = None -> ui_expiresAt input = Some None -> workspaces !! ak_workspaceId key = Some ws ->
  let table := recordSpend (ak_id key) cost (revoke key t table) in
  authenticate sha256_hex secret now table workspaces = Err api_key_revoked /\
  (let table := update key input table in
   authenticate sha256_hex secret now table workspaces =
     Ok {| au_key := edited key input; au_workspaceId := ak_workspaceId key; au_workspace := ws |}).
Proof.
  intros Hnd Hl Hk Hr He Hw. cbv zeta.
  assert (keeps (fun k => with_times k (ak_lastUsedAt k) (ak_revokedAt k) (ak_spentTotalMicros k + cost))) as Hks by done.
  set (spend := fun k => _) in Hks.
  assert (exists f, (forall k, ak_keyHash (f k) = ak_keyHash k /\ ak_id (f k) = ak_id k) /\ (forall k, ak_revokedAt (f k) = ak_revokedAt k) /\
            forall tb, recordSpend (ak_id key) cost tb = update_row (ak_id key) f tb) as (f & Hf & Hfr & Hrec).
  { unfold recordSpend. destruct (cost <=? 0); [|by exists spend]. exists (fun k => k). split_and!; [done..|].
    intros tb. unfold update_row. rewrite <- (map_id tb) at 1. apply map_ext. intros k. by destruct (jeqb _ _). }
  rewrite Hrec. apply find_first_some in Hk as Hk'. destruct Hk' as [Hin Hh]. apply jeqb_eq in Hh.
  unfold revoke. rewrite (save_loaded table key (fun k => revoked k t)) by done.
  unfold authenticate, hashApiKey. rewrite Hl. cbn [negb].
  set (p := fun k => jeqb (ak_keyHash k) (sha256_hex secret)) in *.
  assert (forall k, p (f k) = p k) as Hpf by (intros k; unfold p; by destruct (Hf k) as [-> _]).
  assert (forall k, p (revoked k t) = p k) as Hpr by done.
  assert (find_first p (update_row (ak_id key) f (update_row (ak_id key) (fun k => revoked k t) table)) = Some (f (revoked key t))) as E1.
  { rewrite !find_update_row by done. rewrite Hk. cbn. rewrite jeqb_refl. cbn. by rewrite jeqb_refl. }
  split; [by rewrite E1, Hfr|].
  assert (forall tb k, find_first p tb = Some k -> ak_id k = ak_id key ->
            find_first p (update key input tb) = Some (edited key input)) as E2.
  { intros tb k Hk1 Hk2. unfold update, save. cbn [edited ak_id].
    revert Hk1. unfold find_first. induction tb as [|r tb IH]; [done|]. cbn.
    destruct (jeqb (ak_id r) (ak_id key)) eqn:Er.
    - replace (p (edited key input)) with true; [done|]. symmetry. unfold p; cbn. rewrite Hh. apply jeqb_refl.
    - destruct (p r); [intros [= ->]; rewrite Hk2, jeqb_refl in Er; done|exact IH]. }
  rewrite (E2 _ _ E1); [|by destruct (Hf (revoked key t)) as [_ ->]].
  cbn. rewrite Hr, He. cbn. by rewrite Hw.
Qed.
End Lifecycle.

(** ** Witnesses *)

Definition example_workspace : Workspace :=
  {| balanceMicros := 0; stripeCustomerId := None; autoTopUpEnabled := false; autoTopUpThresholdMicros := None;
     autoTopUpAmountMicros := None; autoTopUpLastAt := None; firstRequestAt := None; ws_createdAt := 0 |}.

Definition example_create : CreateApiKeyInput :=
  {| ci_workspaceId := "w"; ci_createdByUserId := "u"; ci_name := "ci"; ci_modelScope := Some [];
     ci_spendLimitMicros := None; ci_requestsPerMinute := None; ci_tokensPerMinute := None;
     ci_expiresAt := Some 5000; ci_purpose := None |}.

Definition example_random : list N := replicate 32 7%N.
Definition example_hash (s : jstr) : jstr := "h" +++ s.
Definition example_minted : jstr := mk_secret (mintApiKey example_hash example_random).

Definition example_keys : list ApiKey :=
  match create example_hash example_create "k1" example_random 1000 [] with Ok (table, _) => table | Err _ => [] end.

Definition no_edit : UpdateApiKeyInput :=
  {| ui_name := Some "renamed"; ui_modelScope := None; ui_spendLimitMicros := None; ui_requestsPerMinute := None;
     ui_tokensPerMinute := None; ui_expiresAt := Some None |}.

Lemma minted_key_authenticates_witness :
  exists key, authenticate example_hash example_minted 4999 example_keys {[("w" : jstr) := example_workspace]} =
    Ok {| au_key := key; au_workspaceId := "w"; au_workspace := example_workspace |}.
Proof.
  destruct (create example_hash example_create "k1" example_random 1000 []) as [[table [key secret]]|] eqn:E;
    [|vm_compute in E; discriminate E].
  pose proof (minted_key_authenticates example_hash example_create "k1" example_random 1000 [] table key secret
    {[("w" : jstr) := example_workspace]} example_workspace 4999) as H.
  destruct H as (H & _).
  - split; [reflexivity|]. repeat constructor.
  - exact E.
  - apply lookup_singleton_eq.
  - vm_compute. reflexivity.
  - exists key. assert (secret = example_minted) as <- by (vm_compute in E; injection E; intros; subst; vm_compute; reflexivity).
    unfold example_keys. rewrite E. exact H.
Defined.

Lemma revocation_is_final_witness :
  authenticate example_hash example_minted 1500
    (foldl (serve example_hash) (serve example_hash example_keys (Revokes "k1" "w" 1200))
      [Edits "k1" "w" no_edit; Presents "k1" 1300; Spends "k1" 7; Revokes "k1" "w" 1400])
    {[("w" : jstr) := example_workspace]} = Err api_key_revoked.
Proof.
  apply (revocation_is_final example_hash).
  - vm_compute. repeat constructor. set_solver.
  - vm_compute. reflexivity.
  - eexists. split; [vm_compute; reflexivity|]. eexists. reflexivity.
Defined.

Lemma stale_edit_restores_key_witness :
  exists key,
  let table := recordSpend (ak_id key) 500 (revoke key 1200 example_keys) in
  authenticate example_hash example_minted 1500 table {[("w" : jstr) := example_workspace]} = Err api_key_revoked /\
  (let table := update key no_edit table in
   authenticate example_hash example_minted 1500 table {[("w" : jstr) := example_workspace]} =
     Ok {| au_key := edited key no_edit; au_workspaceId := ak_workspaceId key; au_workspace := example_workspace |}).
Proof.
  destruct example_keys as [|key rest] eqn:E; [vm_compute in E; discriminate E|].
  exists key. rewrite <- E. apply (stale_edit_restores_key example_hash).
  - vm_compute. repeat constructor. set_solver.
  - vm_compute. reflexivity.
  - rewrite E. vm_compute in E. injection E as <- <-. vm_compute. reflexivity.
  - vm_compute in E. injection E as <- _. reflexivity.
  - reflexivity.
  - vm_compute in E. injection E as <- _. apply lookup_singleton_eq.
Defined.
