(* ===== verification/RateLimiter.v ===== *)
(** * Rate limits

    [api/v1/rate-limiter.ts] and [api/v1/rate-limit.service.ts]: a token bucket with
    a one-minute capacity, and the four buckets a request is charged to.  The code
    keeps the units available as a fraction; every refill adds a multiple of a
    sixty-thousandth of a unit, so a bucket here holds that many sixty-thousandths
    and the arithmetic is exact, where the code's is rounded to doubles.  Limits are
    positive: the configuration and the console's inputs are validated to be. *)

From S2P Require Import Prelude JsString Money Store ApiKeys.

(** ** The limiter *)

Record RateLimitRequest := { rq_cost : Z; rq_limitPerMinute : Z }.

Record RateLimitDecision := {
  rd_allowed : bool;
  rd_limit : Z;
  rd_remaining : Z;
  rd_resetAt : Z;
  rd_retryAfterSeconds : Z
}.

(** [bk_available] counts sixty-thousandths of a unit. *)
Record Bucket := { bk_available : Z; bk_updatedAt : Z }.

Definition MS_PER_MINUTE : Z := 60000.
Definition SWEEP_THRESHOLD : Z := 10000.

Abbreviation Buckets := (gmap jstr Bucket).

(** Drops the buckets that have been idle for a minute, once there are many. *)
Definition sweep (now : Z) (buckets : Buckets) : Buckets :=
  if Z.of_nat (size buckets) <? SWEEP_THRESHOLD then buckets
  else filter (fun kv : jstr * Bucket => now - bk_updatedAt (snd kv) < MS_PER_MINUTE) buckets.

Section Limiter.
(** The sweep the limiter runs before it adds a bucket. *)
Variable sweep : Z -> Buckets -> Buckets.

Definition refill (bucket : jstr) (limitPerMinute now : Z) (buckets : Buckets) : Buckets * Bucket :=
  match buckets !! bucket with
  | None => (sweep now buckets, {| bk_available := limitPerMinute * MS_PER_MINUTE; bk_updatedAt := now |})
  | Some existing =>
      let refilled := (now - bk_updatedAt existing) * limitPerMinute in
      (buckets, {| bk_available := Z.min (limitPerMinute * MS_PER_MINUTE) (bk_available existing + refilled);
                   bk_updatedAt := now |})
  end.

Definition decide_ (state : Bucket) (request : RateLimitRequest) (allowed : bool) : RateLimitDecision :=
  let deficit := Z.max 0 (rq_cost request * MS_PER_MINUTE - bk_available state) in
  {| rd_allowed := allowed; rd_limit := rq_limitPerMinute request;
     rd_remaining := Z.max 0 (bk_available state / MS_PER_MINUTE);
     rd_resetAt := bk_updatedAt state + ceil_div deficit (rq_limitPerMinute request);
     rd_retryAfterSeconds := Z.max 1 (ceil_div deficit (rq_limitPerMinute request * 1000)) |}.

Definition take_units (state : Bucket) (cost : Z) : Bucket :=
  {| bk_available := bk_available state - cost * MS_PER_MINUTE; bk_updatedAt := bk_updatedAt state |}.

Definition consume (bucket : jstr) (request : RateLimitRequest) (now : Z) (buckets : Buckets)
    : Buckets * RateLimitDecision :=
  let '(buckets, state) := refill bucket (rq_limitPerMinute request) now buckets in
  let allowed := rq_cost request * MS_PER_MINUTE <=? bk_available state in
  let state := if allowed then take_units state (rq_cost request) else state in
  (<[bucket := state]> buckets, decide_ state request allowed).

Definition debit (bucket : jstr) (request : RateLimitRequest) (now : Z) (buckets : Buckets) : Buckets :=
  let '(buckets, state) := refill bucket (rq_limitPerMinute request) now buckets in
  <[bucket := {| bk_available := Z.max 0 (bk_available state - rq_cost request * MS_PER_MINUTE);
                 bk_updatedAt := bk_updatedAt state |}]> buckets.

(** ** Calls *)

Inductive limiter_call :=
| Consume (bucket : jstr) (request : RateLimitRequest) (now : Z)
| Debit (bucket : jstr) (request : RateLimitRequest) (now : Z).

Definition call_bucket (c : limiter_call) : jstr := match c with Consume b _ _ | Debit b _ _ => b end.
Definition call_request (c : limiter_call) : RateLimitRequest := match c with Consume _ r _ | Debit _ r _ => r end.
Definition call_time (c : limiter_call) : Z := match c with Consume _ _ t | Debit _ _ t => t end.

Definition serve_call (c : limiter_call) (buckets : Buckets) : Buckets * option RateLimitDecision :=
  match c with
  | Consume b r t => let '(buckets, d) := consume b r t buckets in (buckets, Some d)
  | Debit b r t => (debit b r t buckets, None)
  end.

Fixpoint serve_calls (cs : list limiter_call) (buckets : Buckets) : Buckets * list (option RateLimitDecision) :=
  match cs with
  | [] => (buckets, [])
  | c :: cs => let '(buckets, d) := serve_call c buckets in
               let '(buckets, ds) := serve_calls cs buckets in (buckets, d :: ds)
  end.

(** The units a call was granted on a bucket. *)
Definition granted_by (bucket : jstr) (c : limiter_call) (d : option RateLimitDecision) : Z :=
  match d with
  | Some d => if rd_allowed d && jeqb (call_bucket c) bucket then rq_cost (call_request c) else 0
  | None => 0
  end.

Definition granted (bucket : jstr) (cs : list limiter_call) (ds : list (option RateLimitDecision)) : Z :=
  sumZ (zip_with (granted_by bucket) cs ds).
End Limiter.

(** ** The budgets of a request *)

Record RateLimitsConfig := { rl_requestsPerMinute : Z; rl_tokensPerMinute : Z }.

(** The refusal is [openAiErrors.rateLimited] with the decision's headers. *)
Record RateLimitRefusal := { rr_scope : jstr; rr_decision : RateLimitDecision }.

Definition refused (d : RateLimitDecision) : RateLimitDecision :=
  {| rd_allowed := false; rd_limit := rd_limit d; rd_remaining := rd_remaining d; rd_resetAt := rd_resetAt d;
     rd_retryAfterSeconds := rd_retryAfterSeconds d |}.

Definition tighter (first second : RateLimitDecision) : RateLimitDecision :=
  if rd_remaining first <=? rd_remaining second then first else second.

Definition headersFor (d : RateLimitDecision) : list (jstr * jstr) :=
  [("X-RateLimit-Limit" : jstr, jstring_of_Z (rd_limit d));
   ("X-RateLimit-Remaining" : jstr, jstring_of_Z (rd_remaining d));
   ("X-RateLimit-Reset" : jstr, jstring_of_Z (ceil_div (rd_resetAt d) 1000))].

Definition refusal_message (r : RateLimitRefusal) : jstr := "Rate limit exceeded for this " +++ rr_scope r +++ ".".

Definition refusal_headers (r : RateLimitRefusal) : list (jstr * jstr) :=
  headersFor (rr_decision r) ++ [("Retry-After" : jstr, jstring_of_Z (rd_retryAfterSeconds (rr_decision r)))].

Definition req_key (key : ApiKey) : jstr := "req:key:" +++ ak_id key.
Definition req_ws (workspaceId : jstr) : jstr := "req:ws:" +++ workspaceId.
Definition tok_key (key : ApiKey) : jstr := "tok:key:" +++ ak_id key.
Definition tok_ws (workspaceId : jstr) : jstr := "tok:ws:" +++ workspaceId.

Section Service.
Variable sweep : Z -> Buckets -> Buckets.
Variable config : RateLimitsConfig.

Definition tokenLimitFor (key : ApiKey) : Z := default (rl_tokensPerMinute config) (ak_tokensPerMinute key).

(** One awaited call of the limiter per bucket; a refusal ends the method there. *)
Definition admit_limits (key : ApiKey) (now : Z) (buckets : Buckets)
    : Buckets * result RateLimitRefusal (list (jstr * jstr)) :=
  let perKey := default (rl_requestsPerMinute config) (ak_requestsPerMinute key) in
  let perWorkspace := rl_requestsPerMinute config in
  let '(buckets, keyDecision) :=
    consume sweep (req_key key) {| rq_cost := 1; rq_limitPerMinute := perKey |} now buckets in
  if negb (rd_allowed keyDecision) then (buckets, Err {| rr_scope := "API key"; rr_decision := keyDecision |}) else
  let '(buckets, workspaceDecision) :=
    consume sweep (req_ws (ak_workspaceId key)) {| rq_cost := 1; rq_limitPerMinute := perWorkspace |} now buckets in
  if negb (rd_allowed workspaceDecision)
  then (buckets, Err {| rr_scope := "workspace"; rr_decision := workspaceDecision |}) else
  let '(buckets, keyTokens) :=
    consume sweep (tok_key key) {| rq_cost := 0; rq_limitPerMinute := tokenLimitFor key |} now buckets in
  if rd_remaining keyTokens <=? 0
  then (buckets, Err {| rr_scope := "API key token"; rr_decision := refused keyTokens |}) else
  let '(buckets, workspaceTokens) :=
    consume sweep (tok_ws (ak_workspaceId key)) {| rq_cost := 0; rq_limitPerMinute := rl_tokensPerMinute config |} now buckets in
  if rd_remaining workspaceTokens <=? 0
  then (buckets, Err {| rr_scope := "workspace token"; rr_decision := refused workspaceTokens |})
  else (buckets, Ok (headersFor (tighter keyDecision workspaceDecision))).

Definition settle_limits (key : ApiKey) (totalTokens now : Z) (buckets : Buckets) : Buckets :=
  if totalTokens <=? 0 then buckets
  else
    let buckets := debit sweep (tok_key key) {| rq_cost := totalTokens; rq_limitPerMinute := tokenLimitFor key |} now buckets in
    debit sweep (tok_ws (ak_workspaceId key)) {| rq_cost := totalTokens; rq_limitPerMinute := rl_tokensPerMinute config |} now buckets.
End Service.

(** ** Lemmas: sweeping *)

(** A sweep drops only buckets idle for a minute, and adds none. *)
Class IdleSweep (sweep : Z -> Buckets -> Buckets) := {
  sweep_drops : forall now m k b, m !! k = Some b ->
    sweep now m !! k = Some b \/ sweep now m !! k = None /\ MS_PER_MINUTE <= now - bk_updatedAt b;
  sweep_adds_none : forall now m k, m !! k = None -> sweep now m !! k = None
}.

#[global] Instance sweep_idle : IdleSweep sweep.
Proof.
  split; intros now m k; [intros b Hb|intros Hk]; unfold sweep; destruct (_ <? _); auto.
  - destruct (decide (now - bk_updatedAt b < MS_PER_MINUTE)).
    + left. by apply map_lookup_filter_Some_2.
    + right. split; [|lia]. apply map_lookup_filter_None_2. right. intros b' Hb'. by replace b' with b by congruence.
  - apply map_lookup_filter_None_2. by left.
Qed.

(** The limiter that never forgets a bucket. *)
Definition keep_all (_ : Z) (m : Buckets) : Buckets := m.

#[global] Instance keep_all_idle : IdleSweep keep_all.
Proof. split; auto. Qed.

(** Every bucket holds a non-negative amount and was written by [now]. *)
Definition settled_by (now : Z) (m : Buckets) : Prop :=
  forall k b, m !! k = Some b -> 0 <= bk_available b /\ bk_updatedAt b <= now.

Definition sane (c : limiter_call) : Prop := 0 <= rq_cost (call_request c) /\ 0 < rq_limitPerMinute (call_request c).

(** What a bucket would hold if a call refilled it now, at this limit. *)
Definition level (m : Buckets) (bucket : jstr) (limit now : Z) : Z :=
  match m !! bucket with
  | Some b => Z.min (limit * MS_PER_MINUTE) (bk_available b + (now - bk_updatedAt b) * limit)
  | None => limit * MS_PER_MINUTE
  end.

Section Facts.
Context {sw : Z -> Buckets -> Buckets} {Hsw : IdleSweep sw}.

Lemma refill_state bucket limit now m :
  snd (refill sw bucket limit now m) = {| bk_available := level m bucket limit now; bk_updatedAt := now |}.
Proof. unfold refill, level. by destruct (m !! bucket). Qed.

(** The other buckets, after a refill, are as they were or idle and gone. *)
Lemma refill_other bucket limit now m k : k <> bucket ->
  fst (refill sw bucket limit now m) !! k = m !! k \/
  fst (refill sw bucket limit now m) !! k = None /\ exists b, m !! k = Some b /\ MS_PER_MINUTE <= now - bk_updatedAt b.
Proof.
  intros Hk. unfold refill. destruct (m !! bucket); cbn; [by left|].
  destruct (m !! k) as [b|] eqn:E.
  - destruct (sweep_drops now m k b E) as [->|[-> ?]]; [by left|right; eauto].
  - left. by apply sweep_adds_none.
Qed.

Lemma level_bounds m bucket limit now : settled_by now m -> 0 < limit ->
  0 <= level m bucket limit now <= limit * MS_PER_MINUTE.
Proof.
  intros Hm Hl. unfold level, MS_PER_MINUTE. destruct (m !! bucket) as [b|] eqn:E; [|lia].
  apply Hm in E. nia.
Qed.

Lemma level_later m bucket limit now now' : 0 < limit -> now <= now' ->
  level m bucket limit now' <= level m bucket limit now + (now' - now) * limit.
Proof. intros Hl Hn. unfold level. destruct (m !! bucket) as [b|]; nia. Qed.

(** A bucket idle for a minute is full: forgetting it changes no level. *)
Lemma idle_is_full b limit now : 0 < limit -> 0 <= bk_available b -> MS_PER_MINUTE <= now - bk_updatedAt b ->
  Z.min (limit * MS_PER_MINUTE) (bk_available b + (now - bk_updatedAt b) * limit) = limit * MS_PER_MINUTE.
Proof. intros. nia. Qed.

Lemma level_refill_other bucket limit now m k limit' : settled_by now m -> 0 < limit' -> k <> bucket ->
  forall state, level (<[bucket := state]> (fst (refill sw bucket limit now m))) k limit' now = level m k limit' now.
Proof.
  intros Hm Hl Hk state. unfold level. rewrite lookup_insert_ne by done.
  destruct (refill_other bucket limit now m k Hk) as [->|(-> & b & E & Hb)]; [done|].
  rewrite E. symmetry. apply idle_is_full; [done| |done]. by apply Hm in E as [? _].
Qed.

Lemma settled_insert now m bucket limit state : settled_by now m ->
  0 <= bk_available state -> bk_updatedAt state <= now ->
  settled_by now (<[bucket := state]> (fst (refill sw bucket limit now m))).
Proof.
  intros Hm H1 H2 k b. destruct (decide (k = bucket)) as [->|Hk].
  - rewrite lookup_insert_eq. by intros [= <-].
  - rewrite lookup_insert_ne by done.
    destruct (refill_other bucket limit now m k Hk) as [->|(-> & _)]; [by apply Hm|done].
Qed.

Lemma settled_later now now' m : now <= now' -> settled_by now m -> settled_by now' m.
Proof. intros H Hm k b [? ?]%Hm. lia. Qed.

(** ** Lemmas: one call *)

Lemma consume_eq bucket r now m :
  consume sw bucket r now m =
  let allowed := rq_cost r * MS_PER_MINUTE <=? level m bucket (rq_limitPerMinute r) now in
  let state := {| bk_available := level m bucket (rq_limitPerMinute r) now - (if allowed then rq_cost r * MS_PER_MINUTE else 0);
                  bk_updatedAt := now |} in
  (<[bucket := state]> (fst (refill sw bucket (rq_limitPerMinute r) now m)), decide_ state r allowed).
Proof.
  unfold consume. pose proof (refill_state bucket (rq_limitPerMinute r) now m) as Hs.
  destruct (refill sw bucket _ now m) as [m' state]. cbn [snd fst] in *. subst state. cbn [bk_available].
  destruct (_ <=? _); cbv zeta; unfold take_units; cbn; by rewrite ?Z.sub_0_r.
Qed.

Lemma debit_eq bucket r now m :
  debit sw bucket r now m =
  <[bucket := {| bk_available := Z.max 0 (level m bucket (rq_limitPerMinute r) now - rq_cost r * MS_PER_MINUTE);
                 bk_updatedAt := now |}]> (fst (refill sw bucket (rq_limitPerMinute r) now m)).
Proof.
  unfold debit. pose proof (refill_state bucket (rq_limitPerMinute r) now m) as Hs.
  destruct (refill sw bucket _ now m) as [m' state]. cbn [snd fst] in *. by subst state.
Qed.

Lemma level_insert m bucket limit now available :
  level (<[bucket := {| bk_available := available; bk_updatedAt := now |}]> m) bucket limit now =
  Z.min (limit * MS_PER_MINUTE) available.
Proof. unfold level. rewrite lookup_insert_eq. cbn. f_equal. lia. Qed.

Lemma call_settles c m : sane c -> settled_by (call_time c) m ->
  settled_by (call_time c) (fst (serve_call sw c m)).
Proof.
  intros [Hc Hl] Hm. pose proof (level_bounds m (call_bucket c) _ _ Hm Hl) as Hb.
  destruct c as [b r t|b r t]; cbn [serve_call call_bucket call_request call_time] in *.
  - rewrite consume_eq. cbn [fst]. apply settled_insert; cbn; [done| |lia].
    destruct (_ <=? _) eqn:E; zbool; lia.
  - rewrite debit_eq. cbn [fst]. apply settled_insert; cbn; [done|lia|lia].
Qed.

(** What a call takes from a bucket comes out of the bucket's level. *)
Lemma call_level c m bucket limit : sane c -> settled_by (call_time c) m -> 0 < limit ->
  (call_bucket c = bucket -> rq_limitPerMinute (call_request c) = limit) ->
  MS_PER_MINUTE * granted_by bucket c (snd (serve_call sw c m)) + level (fst (serve_call sw c m)) bucket limit (call_time c)
  <= level m bucket limit (call_time c).
Proof.
  intros [Hc Hl] Hm Hlim Heq. pose proof (level_bounds m (call_bucket c) _ _ Hm Hl) as Hb.
  destruct c as [b r t|b r t]; cbn [serve_call call_bucket call_request call_time] in *.
  - rewrite consume_eq. cbn [fst snd granted_by rd_allowed call_bucket call_request decide_].
    destruct (jeqb b bucket) eqn:Ej.
    + apply jeqb_eq in Ej as ->. rewrite Heq in * by done. rewrite level_insert.
      destruct (_ <=? _) eqn:E; zbool; cbn [andb]; unfold MS_PER_MINUTE in *; lia.
    + apply jeqb_neq in Ej. rewrite andb_false_r, level_refill_other by done. lia.
  - rewrite debit_eq. cbn [fst snd granted_by]. destruct (decide (b = bucket)) as [->|Hne].
    + rewrite Heq in * by done. rewrite level_insert. unfold MS_PER_MINUTE in *. nia.
    + rewrite level_refill_other by done. lia.
Qed.
End Facts.

(** ** Theorems: the limiter *)

(** The calls are made in this order, none before [t0] and none after [t1]. *)
Fixpoint in_order (t0 t1 : Z) (cs : list limiter_call) : Prop :=
  match cs with
  | [] => t0 <= t1
  | c :: cs => t0 <= call_time c /\ in_order (call_time c) t1 cs
  end.

(** However its calls are spaced, and whatever other buckets are called, filled,
    debited or swept in between, a bucket grants over any stretch of time at most
    one minute's capacity plus what the limit refills in that time. *)
Theorem bucket_never_over_grants bucket limit : 0 < limit -> forall cs t0 t1 m,
  settled_by t0 m -> in_order t0 t1 cs ->
  Forall (fun c => sane c /\ (call_bucket c = bucket -> rq_limitPerMinute (call_request c) = limit)) cs ->
  MS_PER_MINUTE * granted bucket cs (snd (serve_calls sweep cs m)) <= limit * (MS_PER_MINUTE + (t1 - t0)).
Proof.
  intros Hl.
  assert (forall cs t0 t1 m, settled_by t0 m -> in_order t0 t1 cs ->
    Forall (fun c => sane c /\ (call_bucket c = bucket -> rq_limitPerMinute (call_request c) = limit)) cs ->
    MS_PER_MINUTE * granted bucket cs (snd (serve_calls sweep cs m)) <= level m bucket limit t0 + limit * (t1 - t0)) as H.
  { induction cs as [|c cs IH]; intros t0 t1 m Hm Ho Hc; cbn [in_order serve_calls] in *.
    - pose proof (level_bounds m bucket limit t0 Hm Hl). unfold granted. cbn [zip_with sumZ foldr snd]. nia.
    - destruct Ho as [Ht Ho]. apply Forall_cons in Hc as [[Hs Hq] Hc].
      apply (settled_later t0 (call_time c)) in Hm; [|done].
      pose proof (call_level (sw := sweep) c m bucket limit Hs Hm Hl Hq) as Hlev.
      pose proof (call_settles (sw := sweep) c m Hs Hm) as Hset.
      pose proof (level_later m bucket limit t0 (call_time c) Hl Ht) as Hlate.
      destruct (serve_call sweep c m) as [m' d]; cbn [fst snd] in *.
      specialize (IH (call_time c) t1 m' Hset Ho Hc). destruct (serve_calls sweep cs m') as [m'' ds]; cbn [snd] in *.
      unfold granted in *. cbn [zip_with]. unfold sumZ at 1. cbn [foldr]. fold (sumZ (zip_with (granted_by bucket) cs ds)). lia. }
  intros cs t0 t1 m Hm Ho Hc. pose proof (H cs t0 t1 m Hm Ho Hc).
  pose proof (level_bounds m bucket limit t0 Hm Hl). lia.
Qed.

(** What the limiter has forgotten is full in the one that never forgets. *)
Definition forgets (now : Z) (m kept : Buckets) : Prop := settled_by now kept /\
  forall k, m !! k = kept !! k \/
            m !! k = None /\ exists b, kept !! k = Some b /\ MS_PER_MINUTE <= now - bk_updatedAt b.

Lemma forgets_level now m kept k limit : forgets now m kept -> 0 < limit -> level m k limit now = level kept k limit now.
Proof.
  intros [Hs H] Hl. unfold level. destruct (H k) as [->|(-> & b & E & Hb)]; [done|].
  rewrite E. symmetry. apply idle_is_full; [done| |done]. by apply Hs in E as [? _].
Qed.

Lemma forgets_refill now m kept bucket limit state : forgets now m kept ->
  0 <= bk_available state -> bk_updatedAt state <= now ->
  forgets now (<[bucket := state]> (fst (refill sweep bucket limit now m)))
              (<[bucket := state]> (fst (refill keep_all bucket limit now kept))).
Proof.
  intros [Hs H] H1 H2. split; [by apply settled_insert|]. intros k.
  assert (fst (refill keep_all bucket limit now kept) = kept) as -> by (unfold refill; by destruct (kept !! bucket)).
  destruct (decide (k = bucket)) as [->|Hk]; [left; by rewrite !lookup_insert_eq|]. rewrite !lookup_insert_ne by done.
  destruct (refill_other (sw := sweep) bucket limit now m k Hk) as [->|(-> & b & E & Hb)]; [apply H|].
  right. split; [done|]. destruct (H k) as [E'|(E' & _)]; [|congruence]. exists b. by rewrite <- E', E.
Qed.

Lemma forgets_call c m kept : sane c -> forgets (call_time c) m kept ->
  snd (serve_call sweep c m) = snd (serve_call keep_all c kept) /\
  forgets (call_time c) (fst (serve_call sweep c m)) (fst (serve_call keep_all c kept)).
Proof.
  intros [Hc Hl] Hf. pose proof (level_bounds kept (call_bucket c) _ _ (proj1 Hf) Hl) as Hb.
  destruct c as [b r t|b r t]; cbn [serve_call call_bucket call_request call_time] in *.
  - rewrite !consume_eq, (forgets_level t m kept) by done. cbn [fst snd]. split; [done|].
    apply forgets_refill; cbn; [done| |lia]. destruct (_ <=? _) eqn:E; zbool; lia.
  - rewrite !debit_eq, (forgets_level t m kept) by done. cbn [fst snd]. split; [done|].
    apply forgets_refill; cbn; [done|lia|lia].
Qed.

(** Sweeping is invisible: over every sequence of calls in time order, the limiter
    that drops idle buckets once there are ten thousand of them gives the decisions
    of one that keeps every bucket for ever. *)
Theorem sweep_is_invisible cs : forall t0 t1 m,
  settled_by t0 m -> in_order t0 t1 cs -> Forall sane cs ->
  snd (serve_calls sweep cs m) = snd (serve_calls keep_all cs m).
Proof.
  intros t0 t1 m Hm. assert (forgets t0 m m) as Hf by (split; [done|]; intros k; by left).
  clear Hm. revert Hf. generalize m at 1 3 as kept; intros kept. revert t0 m kept.
  induction cs as [|c cs IH]; intros t0 m kept Hf Ho Hc; [done|]. cbn [in_order serve_calls] in *.
  destruct Ho as [Ht Ho]. apply Forall_cons in Hc as [Hs Hc].
  assert (forgets (call_time c) kept m) as Hf'.
  { destruct Hf as [H1 H2]. split; [by eapply settled_later|]. intros k.
    destruct (H2 k) as [->|(-> & b & -> & Hb)]; [by left|right]. split; [done|]. exists b. split; [done|lia]. }
  destruct (forgets_call c kept m Hs Hf') as [E1 E2].
  destruct (serve_call sweep c kept) as [m1 d1], (serve_call keep_all c m) as [m2 d2]; cbn [fst snd] in *. subst d2.
  specialize (IH (call_time c) m2 m1 E2 Ho Hc).
  destruct (serve_calls sweep cs m1) as [m1' ds1], (serve_calls keep_all cs m2) as [m2' ds2]; cbn [snd] in *. by subst ds2.
Qed.

Lemma ceil_div_le n d k : 0 < d -> ceil_div n d <= k <-> n <= d * k.
Proof. intros Hd. pose proof (ceil_div_spec n d Hd). nia. Qed.

(** In exact arithmetic a refusal says when to come back: asked again for the same cost at
    the same limit, with no call on the bucket in between, the limiter allows it at every
    instant from [resetAt] on and at none before, and [retryAfterSeconds] is the smallest
    number of whole seconds, at least one, that reaches it.  The doubles of the code can
    put [resetAt] a millisecond early or late. *)
Theorem refusal_is_honest bucket r now later m :
  settled_by now m -> 0 < rq_limitPerMinute r -> 0 <= rq_cost r <= rq_limitPerMinute r -> now <= later ->
  let '(m1, d) := consume sweep bucket r now m in
  rd_allowed d = false ->
  rd_allowed (snd (consume sweep bucket r later m1)) = (rd_resetAt d <=? later) /\
  rd_resetAt d - now <= 1000 * rd_retryAfterSeconds d /\
  (1 < rd_retryAfterSeconds d -> 1000 * (rd_retryAfterSeconds d - 1) < rd_resetAt d - now).
Proof.
  intros Hm Hl Hc Hn. rewrite consume_eq. cbv zeta. cbn [rd_allowed decide_ rd_resetAt rd_retryAfterSeconds bk_updatedAt bk_available].
  intros E. rewrite E. zbool. rewrite Z.sub_0_r.
  set (L := rq_limitPerMinute r) in *. set (A := level m bucket L now) in *. set (C := rq_cost r * MS_PER_MINUTE) in *.
  pose proof (level_bounds m bucket L now Hm Hl) as Hb. fold A in Hb.
  assert (C <= L * MS_PER_MINUTE) as HC by (unfold C, MS_PER_MINUTE; nia).
  replace (Z.max 0 (C - A)) with (C - A) by lia. set (D := C - A) in *. assert (0 < D) as HD by lia.
  split_and!.
  - rewrite consume_eq. cbv zeta. cbn [snd rd_allowed decide_]. fold L C.
    unfold level at 1. rewrite lookup_insert_eq. cbn [bk_available bk_updatedAt].
    apply eq_iff_eq_true. rewrite !Z.leb_le. pose proof (ceil_div_le D L (later - now) Hl). unfold D in *. split; intros; nia.
  - pose proof (ceil_div_spec D (L * 1000) ltac:(lia)) as H1.
    assert (ceil_div D L <= 1000 * ceil_div D (L * 1000)) by (apply ceil_div_le; nia). lia.
  - intros H1. pose proof (ceil_div_spec D (L * 1000) ltac:(lia)) as H2. pose proof (ceil_div_spec D L Hl) as H3.
    replace (Z.max 1 (ceil_div D (L * 1000))) with (ceil_div D (L * 1000)) in * by lia. nia.
Qed.

(** ** Theorems: the budgets *)

Section Budgets.
Variable config : RateLimitsConfig.

(** What [/v1] asks of the service: one admission before a request is forwarded and
    one settlement after it. *)
Inductive budget_request :=
| AdmitRequest (key : ApiKey) (now : Z)
| SettleRequest (key : ApiKey) (totalTokens now : Z).

Definition budget_key (r : budget_request) : ApiKey := match r with AdmitRequest k _ | SettleRequest k _ _ => k end.
Definition budget_time (r : budget_request) : Z := match r with AdmitRequest _ t | SettleRequest _ _ t => t end.

Definition serve_budget (r : budget_request) (m : Buckets) : Buckets * bool :=
  match r with
  | AdmitRequest key now => let '(m, answer) := admit_limits sweep config key now m in (m, is_ok answer)
  | SettleRequest key n now => (settle_limits sweep config key n now m, false)
  end.

Fixpoint serve_budgets (rs : list budget_request) (m : Buckets) : list bool :=
  match rs with
  | [] => []
  | r :: rs => let '(m, ok) := serve_budget r m in ok :: serve_budgets rs m
  end.

(** The limits a key carries are positive, as the console's inputs are validated to
    be. *)
Definition limits_positive (key : ApiKey) : Prop :=
  match ak_requestsPerMinute key with Some n => 0 < n | None => True end /\
  match ak_tokensPerMinute key with Some n => 0 < n | None => True end.

Definition config_positive : Prop := 0 < rl_requestsPerMinute config /\ 0 < rl_tokensPerMinute config.

Definition counts (workspaceId : jstr) (r : budget_request) (ok : bool) : Z :=
  if ok && jeqb (ak_workspaceId (budget_key r)) workspaceId then 1 else 0.

Fixpoint times_in_order (t0 t1 : Z) (rs : list budget_request) : Prop :=
  match rs with
  | [] => t0 <= t1
  | r :: rs => t0 <= budget_time r /\ times_in_order (budget_time r) t1 rs
  end.

Lemma other_bucket workspaceId key : req_key key <> req_ws workspaceId /\ tok_key key <> req_ws workspaceId.
Proof. by split. Qed.

Lemma other_workspace_bucket w w' : tok_ws w <> req_ws w' /\ (req_ws w = req_ws w' -> w = w').
Proof. split; [done|]. apply japp_inj_l. Qed.

Lemma positive_limits key : config_positive -> limits_positive key ->
  0 < default (rl_requestsPerMinute config) (ak_requestsPerMinute key) /\ 0 < tokenLimitFor config key.
Proof.
  intros [? ?] [H1 H2]. unfold tokenLimitFor.
  destruct (ak_requestsPerMinute key), (ak_tokensPerMinute key); cbn [default from_option id]; done.
Qed.

(** One call of the service, seen from the workspace's request bucket: what it is
    granted there comes out of the bucket's level. *)
Definition spends (now : Z) (workspaceId : jstr) (n : Z) (m m' : Buckets) : Prop := settled_by now m ->
  settled_by now m' /\
  MS_PER_MINUTE * n + level m' (req_ws workspaceId) (rl_requestsPerMinute config) now
    <= level m (req_ws workspaceId) (rl_requestsPerMinute config) now.

Lemma spends_call c workspaceId m : 0 < rl_requestsPerMinute config -> sane c ->
  (call_bucket c = req_ws workspaceId -> rq_limitPerMinute (call_request c) = rl_requestsPerMinute config) ->
  spends (call_time c) workspaceId (granted_by (req_ws workspaceId) c (snd (serve_call sweep c m))) m
    (fst (serve_call sweep c m)).
Proof. intros Hr Hs Hq Hm. split; [by apply call_settles|by apply call_level]. Qed.

Lemma spends_elsewhere c workspaceId m : 0 < rl_requestsPerMinute config -> sane c ->
  call_bucket c <> req_ws workspaceId -> spends (call_time c) workspaceId 0 m (fst (serve_call sweep c m)).
Proof.
  intros Hr Hs Hne. pose proof (spends_call c workspaceId m Hr Hs ltac:(done)) as H.
  assert (granted_by (req_ws workspaceId) c (snd (serve_call sweep c m)) = 0) as E; [|by rewrite E in H].
  unfold granted_by. destruct (snd _); [|done]. apply jeqb_neq in Hne. by rewrite Hne, andb_false_r.
Qed.

Lemma spends_trans now w n1 n2 m1 m2 m3 : spends now w n1 m1 m2 -> spends now w n2 m2 m3 ->
  spends now w (n1 + n2) m1 m3.
Proof. intros H1 H2 H. destruct (H1 H) as [S1 L1], (H2 S1) as [S2 L2]. split; [done|lia]. Qed.

(** A call that grants at least what is counted. *)
Lemma spends_weaken now w n n' m m' : n' <= n -> spends now w n m m' -> spends now w n' m m'.
Proof. intros Hn H Hm. destruct (H Hm). split; [done|]. unfold MS_PER_MINUTE in *. lia. Qed.

Definition consume_call (b : jstr) (cost limit now : Z) : limiter_call :=
  Consume b {| rq_cost := cost; rq_limitPerMinute := limit |} now.

Lemma sane_call b cost limit now : 0 <= cost -> 0 < limit -> sane (consume_call b cost limit now).
Proof. by split. Qed.

Lemma serve_budget_spends r m workspaceId : config_positive -> limits_positive (budget_key r) ->
  spends (budget_time r) workspaceId (counts workspaceId r (snd (serve_budget r m))) m (fst (serve_budget r m)).
Proof.
  intros Hcfg Hkey. destruct (positive_limits _ Hcfg Hkey) as [Hp1 Hp2]. destruct Hcfg as [Hr Ht].
  destruct r as [key now|key n now]; cbn [budget_key budget_time serve_budget] in *.
  - unfold admit_limits. set (L := rl_requestsPerMinute config) in *.
    pose proof (spends_elsewhere (consume_call (req_key key) 1 (default L (ak_requestsPerMinute key)) now) workspaceId m
                  Hr (sane_call _ 1 _ _ ltac:(lia) Hp1) (proj1 (other_bucket workspaceId key))) as S1.
    cbn [serve_call consume_call call_time] in S1. destruct (consume _ (req_key key) _ now m) as [m1 d1]; cbn [fst] in S1.
    destruct (rd_allowed d1); cbn [negb]; [|exact S1].
    pose proof (spends_call (consume_call (req_ws (ak_workspaceId key)) 1 L now) workspaceId m1
                  Hr (sane_call _ 1 _ _ ltac:(lia) Hr) ltac:(done)) as S2.
    cbn [serve_call consume_call call_time] in S2. destruct (consume _ (req_ws _) _ now m1) as [m2 d2].
    cbn [fst snd granted_by consume_call call_bucket call_request rq_cost] in S2.
    assert (jeqb (req_ws (ak_workspaceId key)) (req_ws workspaceId) = jeqb (ak_workspaceId key) workspaceId) as E.
    { apply eq_iff_eq_true. rewrite !jeqb_eq. split; [apply other_workspace_bucket|congruence]. }
    rewrite E in S2. pose proof (spends_trans _ _ _ _ _ _ _ S1 S2) as S12.
    set (c := if jeqb (ak_workspaceId key) workspaceId then 1 else 0).
    assert (0 <= c) as Hc by (unfold c; destruct (jeqb _ _); lia).
    destruct (rd_allowed d2) eqn:E2; cbn [negb andb] in *; [|exact S12]. fold c in S12.
    pose proof (spends_elsewhere (consume_call (tok_key key) 0 (tokenLimitFor config key) now) workspaceId m2
                  Hr (sane_call _ 0 _ _ ltac:(lia) Hp2) (proj2 (other_bucket workspaceId key))) as S3.
    cbn [serve_call consume_call call_time] in S3. destruct (consume _ (tok_key key) _ now m2) as [m3 d3]; cbn [fst] in S3.
    pose proof (spends_trans _ _ _ _ _ _ _ S12 S3) as S123.
    destruct (rd_remaining d3 <=? 0); [eapply spends_weaken; [|exact S123]; cbn; lia|].
    pose proof (spends_elsewhere (consume_call (tok_ws (ak_workspaceId key)) 0 (rl_tokensPerMinute config) now) workspaceId m3
                  Hr (sane_call _ 0 _ _ ltac:(lia) Ht) (proj1 (other_workspace_bucket _ workspaceId))) as S4.
    cbn [serve_call consume_call call_time] in S4. destruct (consume _ (tok_ws _) _ now m3) as [m4 d4]; cbn [fst] in S4.
    destruct (rd_remaining d4 <=? 0); (eapply spends_weaken; [|exact (spends_trans _ _ _ _ _ _ _ S123 S4)]);
      unfold counts; cbn [fst snd is_ok andb budget_key]; fold c; lia.
  - unfold settle_limits. destruct (n <=? 0) eqn:En; cbn [fst snd counts andb]; [intros H; split; [done|lia]|]. zbool.
    pose proof (spends_elsewhere (Debit (tok_key key) {| rq_cost := n; rq_limitPerMinute := tokenLimitFor config key |} now) workspaceId m
                  Hr (conj (Z.lt_le_incl _ _ En) Hp2) (proj2 (other_bucket workspaceId key))) as S1.
    pose proof (spends_elsewhere (Debit (tok_ws (ak_workspaceId key)) {| rq_cost := n; rq_limitPerMinute := rl_tokensPerMinute config |} now) workspaceId
                  (debit sweep (tok_key key) {| rq_cost := n; rq_limitPerMinute := tokenLimitFor config key |} now m)
                  Hr (conj (Z.lt_le_incl _ _ En) Ht) (proj1 (other_workspace_bucket _ workspaceId))) as S2.
    exact (spends_trans _ _ _ _ _ _ _ S1 S2).
Qed.

(** C19. Minting keys does not multiply a tenant's budget: over any stretch of time and any
    interleaving of admissions and settlements by any number of keys, with whatever
    limits of their own, of any number of workspaces, the requests admitted for one
    workspace never exceed one minute of the deployment's limit plus what the limit
    refills in that time. *)
Theorem workspace_budget_is_shared workspaceId rs : forall t0 t1 m,
  config_positive -> Forall (fun r => limits_positive (budget_key r)) rs ->
  settled_by t0 m -> times_in_order t0 t1 rs ->
  MS_PER_MINUTE * sumZ (zip_with (counts workspaceId) rs (serve_budgets rs m))
  <= rl_requestsPerMinute config * (MS_PER_MINUTE + (t1 - t0)).
Proof.
  intros t0 t1 m Hcfg Hk Hm Ho.
  enough (MS_PER_MINUTE * sumZ (zip_with (counts workspaceId) rs (serve_budgets rs m))
          <= level m (req_ws workspaceId) (rl_requestsPerMinute config) t0 + rl_requestsPerMinute config * (t1 - t0)).
  { pose proof (level_bounds m (req_ws workspaceId) _ t0 Hm (proj1 Hcfg)). lia. }
  revert t0 m Hm Ho. induction rs as [|r rs IH]; intros t0 m Hm Ho; cbn [times_in_order serve_budgets] in *.
  - pose proof (level_bounds m (req_ws workspaceId) _ t0 Hm (proj1 Hcfg)). destruct Hcfg. cbn [zip_with sumZ foldr]. nia.
  - destruct Ho as [Ht Ho]. apply Forall_cons in Hk as [Hr Hk].
    apply (settled_later t0 (budget_time r)) in Hm; [|done].
    destruct (serve_budget_spends r m workspaceId Hcfg Hr Hm) as [S1 L1].
    pose proof (level_later m (req_ws workspaceId) _ t0 (budget_time r) (proj1 Hcfg) Ht) as Hlate.
    destruct (serve_budget r m) as [m' ok]; cbn [fst snd] in *. specialize (IH Hk _ _ S1 Ho).
    cbn [zip_with]. unfold sumZ at 1. cbn [foldr]. fold (sumZ (zip_with (counts workspaceId) rs (serve_budgets rs m'))). lia.
Qed.
End Budgets.

(** ** Witnesses *)

Lemma settled_empty t : settled_by t ∅.
Proof. intros k b. by rewrite lookup_empty. Qed.

Definition asks (b : jstr) (times : list Z) : list limiter_call := map (consume_call b 1 2) times.

Lemma asks_fit bucket b times : bucket = b ->
  Forall (fun c => sane c /\ (call_bucket c = bucket -> rq_limitPerMinute (call_request c) = 2)) (asks b times).
Proof. intros ->. apply Forall_forall. intros c (t & -> & _)%list_elem_of_fmap. split; [by apply sane_call|done]. Qed.

(** A limit of two: the third call within a minute is refused, one half a minute
    later is granted. *)
Lemma bucket_never_over_grants_witness :
  let cs := asks "b" [0; 0; 0; 30000] in
  granted "b" cs (snd (serve_calls sweep cs ∅)) = 3 /\
  MS_PER_MINUTE * granted "b" cs (snd (serve_calls sweep cs ∅)) <= 2 * (MS_PER_MINUTE + (30000 - 0)).
Proof.
  split; [vm_compute; reflexivity|].
  apply (bucket_never_over_grants "b" 2 ltac:(lia) _ 0 30000 ∅ (settled_empty 0)).
  - repeat split; cbn; lia.
  - by apply asks_fit.
Defined.

Lemma sweep_is_invisible_witness :
  let cs := asks "a" [0; 10] ++ asks "b" [20; 70000] in
  snd (serve_calls sweep cs ∅) = snd (serve_calls keep_all cs ∅).
Proof.
  apply (sweep_is_invisible _ 0 70000 ∅ (settled_empty 0)).
  - repeat split; cbn; lia.
  - apply Forall_forall. intros c [(t & -> & _)%list_elem_of_fmap|(t & -> & _)%list_elem_of_fmap]%elem_of_app; by apply sane_call.
Defined.

Definition drained : Buckets := {[("b" : jstr) := {| bk_available := 0; bk_updatedAt := 0 |}]}.

Lemma refusal_is_honest_witness :
  let r := {| rq_cost := 1; rq_limitPerMinute := 7 |} in
  let '(m1, d) := consume sweep "b" r 0 drained in
  rd_resetAt d = 8572 /\ rd_retryAfterSeconds d = 9 /\ rd_allowed (snd (consume sweep "b" r 8571 m1)) = false.
Proof.
  cbv zeta. pose proof (refusal_is_honest "b" {| rq_cost := 1; rq_limitPerMinute := 7 |} 0 8571 drained) as H.
  assert (settled_by 0 drained) as Hs.
  { intros k b Hk. unfold drained in Hk. apply lookup_singleton_Some in Hk as [_ <-]. cbn. lia. }
  specialize (H Hs ltac:(cbn; lia) ltac:(cbn; lia) ltac:(lia)). destruct (consume _ _ _ _ drained) as [m1 d] eqn:E.
  assert (rd_allowed d = false /\ rd_resetAt d = 8572 /\ rd_retryAfterSeconds d = 9) as (H1 & H2 & H3)
    by (vm_compute in E; injection E as <- <-; repeat split).
  destruct (H H1) as (H4 & _). rewrite H4, H2. auto.
Defined.

Definition key_of (id workspaceId : jstr) : ApiKey :=
  {| ak_id := id; ak_workspaceId := workspaceId; ak_name := "n"; ak_keyHash := id; ak_prefix := "sk-tee-v1-ab";
     ak_purpose := None; ak_modelScope := None; ak_spendLimitMicros := None; ak_spentTotalMicros := 0;
     ak_requestsPerMinute := Some 100; ak_tokensPerMinute := None; ak_expiresAt := None; ak_lastUsedAt := None;
     ak_revokedAt := None; ak_createdByUserId := None; ak_createdAt := 0 |}.

Definition small_budget : RateLimitsConfig := {| rl_requestsPerMinute := 2; rl_tokensPerMinute := 10 |}.

(** Three keys of one workspace share its two requests. *)
Lemma workspace_budget_is_shared_witness :
  let rs := map (fun k => AdmitRequest (key_of k "w") 0) ["k1"; "k2"; "k3"] in
  serve_budgets small_budget rs ∅ = [true; true; false] /\
  MS_PER_MINUTE * sumZ (zip_with (counts "w") rs (serve_budgets small_budget rs ∅)) <= 2 * (MS_PER_MINUTE + (0 - 0)).
Proof.
  split; [vm_compute; reflexivity|].
  apply (workspace_budget_is_shared small_budget "w" _ 0 0 ∅); [by split| |apply settled_empty|repeat split; cbn; lia].
  apply Forall_forall. intros r (k & -> & _)%list_elem_of_fmap. by split.
Defined.
