(* ===== verification/Analytics.v ===== *)
(** * Product analytics

    [libs/types/src/analytics/events.ts], [analytics/event-uuid.ts],
    [analytics.service.ts], [analytics-sink.ts], [analytics-health.ts] and the ingest of
    [api/analytics/analytics-ingest.controller.ts]: the taxonomy, the envelope of an
    event, the two sinks with what they count as lost, and what a browser may post.
    The answer of the analytics host, SHA-256 and the random ids are parameters. *)

From S2P Require Import Prelude JsString EvidenceDigest Json JsDate RateLimiter.

(** ** The taxonomy *)

Inductive AnalyticsEventName :=
| landing_view | cta_click | diagram_variant_shown | explainer_video_opened | code_copied | faq_opened | docs_link_click | waitlist_click
| signup_started | signup_completed | invite_redeemed | api_key_created | first_request_sent | model_requested | feedback_form_opened
| feedback_grant_applied.

#[global] Instance event_name_eq_dec : EqDecision AnalyticsEventName.
Proof. solve_decision. Defined.

Definition event_text (e : AnalyticsEventName) : jstr :=
  match e with
  | landing_view => "landing_view" | cta_click => "cta_click" | diagram_variant_shown => "diagram_variant_shown"
  | explainer_video_opened => "explainer_video_opened" | code_copied => "code_copied" | faq_opened => "faq_opened"
  | docs_link_click => "docs_link_click" | waitlist_click => "waitlist_click" | signup_started => "signup_started"
  | signup_completed => "signup_completed" | invite_redeemed => "invite_redeemed" | api_key_created => "api_key_created"
  | first_request_sent => "first_request_sent" | model_requested => "model_requested" | feedback_form_opened => "feedback_form_opened"
  | feedback_grant_applied => "feedback_grant_applied"
  end.

Definition ANALYTICS_EVENT_PROPERTIES (e : AnalyticsEventName) : list jstr :=
  match e with
  | landing_view => ["campaign"; "has_invite"; "utm_campaign"; "utm_content"; "utm_medium"; "utm_source"]
  | cta_click => ["campaign"; "has_invite"; "position"; "target"; "utm_campaign"]
  | diagram_variant_shown => ["variant"; "viewport_bucket"]
  | explainer_video_opened => ["has_invite"; "player"]
  | code_copied => ["has_invite"; "snippet"]
  | faq_opened => ["question_id"]
  | docs_link_click => ["destination"; "position"]
  | waitlist_click => ["position"]
  | signup_started => ["campaign"; "entry"; "has_invite"; "utm_campaign"]
  | signup_completed => ["campaign"; "has_invite"; "method"]
  | invite_redeemed => ["campaign"; "grant_micros"; "outcome"; "reason"]
  | api_key_created => ["campaign"; "has_spend_limit"; "keys_after"]
  | first_request_sent => ["campaign"; "client"; "had_invite_grant"; "hours_since_signup"; "model_slug"]
  | model_requested => ["model_slug"; "result"; "route"]
  | feedback_form_opened => ["grant_eligible"; "source"]
  | feedback_grant_applied => ["grant_micros"; "outcome"; "reason"]
  end.

Definition isAnalyticsProperty (e : AnalyticsEventName) (property : jstr) : bool := listed property (ANALYTICS_EVENT_PROPERTIES e).

Definition CONSOLE_INGEST_EVENTS : list AnalyticsEventName := [signup_started; feedback_form_opened].

(** [isConsoleIngestEventName]: the event a text names. *)
Definition console_event (value : option json) : option AnalyticsEventName :=
  match value with
  | Some (JString s) => find_first (fun e => jeqb (event_text e) s) CONSOLE_INGEST_EVENTS
  | _ => None
  end.

(** ** Event ids *)

Section EventUuid.
Context (sha256 : jstr -> list N).

Definition stamped (digest : list N) : list N :=
  let at_ i := default 0%N (digest !! i) in
  <[8%nat := N.lor (N.land (at_ 8%nat) 63) 128]> (<[6%nat := N.lor (N.land (at_ 6%nat) 15) 64]> digest).

Definition eventUuid (parts : list jstr) : jstr :=
  let hex := Js (concat (map byte_hex (stamped (take 16 (sha256 (jjoin (Js [0%N]) parts)))))) in
  jjoin "-" [jslice 0 8 hex; jslice 8 12 hex; jslice 12 16 hex; jslice 16 20 hex; jslice 20 32 hex].
End EventUuid.

(** ** Envelopes *)

Inductive property_value := text_value (s : jstr) | number_value (text : jstr) | bool_value (b : bool).

Definition PERSON_PROPERTIES : list jstr := ["campaign"; "signup_method"].

(** A [None] is [undefined]. *)
Record CaptureInput := {
  cp_event : AnalyticsEventName;
  cp_distinctId : option jstr;
  cp_uuid : jstr;
  cp_properties : list (jstr * option property_value);
  cp_person : list (jstr * option jstr);
  cp_timestamp : option Z
}.

Record AnalyticsEnvelope := {
  av_event : AnalyticsEventName;
  av_distinctId : jstr;
  av_uuid : jstr;
  av_timestamp : Z;
  av_properties : list (jstr * property_value);
  av_person : list (jstr * jstr);
  av_anonymous : bool
}.

Fixpoint declaredProperties (e : AnalyticsEventName) (properties : list (jstr * option property_value)) : list (jstr * property_value) :=
  match properties with
  | [] => []
  | (key, value) :: rest =>
      match value with
      | Some v => if isAnalyticsProperty e key then (key, v) :: declaredProperties e rest else declaredProperties e rest
      | None => declaredProperties e rest
      end
  end.

Definition personProperties (person : list (jstr * option jstr)) : list (jstr * jstr) :=
  flat_map (fun name => match find_first (fun kv => jeqb (fst kv) name) person with
                        | Some (_, Some value) => [(name, value)]
                        | _ => []
                        end) PERSON_PROPERTIES.

Definition envelope_of (input : CaptureInput) (randomUUID : jstr) (now : Z) : AnalyticsEnvelope :=
  let anonymous := negb (is_some (cp_distinctId input)) in
  {| av_event := cp_event input; av_distinctId := default randomUUID (cp_distinctId input); av_uuid := cp_uuid input;
     av_timestamp := default now (cp_timestamp input); av_properties := declaredProperties (cp_event input) (cp_properties input);
     av_person := if anonymous then [] else personProperties (cp_person input); av_anonymous := anonymous |}.

(** ** Sinks *)

Record AnalyticsHealth := { ah_deliverable : bool; ah_dropped : Z }.

Definition health_initial : AnalyticsHealth := {| ah_deliverable := false; ah_dropped := 0 |}.
Definition sinkConfigured (h : AnalyticsHealth) : AnalyticsHealth := {| ah_deliverable := true; ah_dropped := ah_dropped h |}.
Definition eventDropped (h : AnalyticsHealth) : AnalyticsHealth := {| ah_deliverable := ah_deliverable h; ah_dropped := ah_dropped h + 1 |}.

Inductive analytics_state := configured | not_configured.
Definition analytics_status (h : AnalyticsHealth) : analytics_state * Z :=
  (if ah_deliverable h then configured else not_configured, ah_dropped h).

Inductive AnalyticsSink := DisabledAnalyticsSink | PostHogSink (projectKey host : jstr).

Definition createAnalyticsSink (projectKey : option jstr) (host : jstr) (h : AnalyticsHealth) : AnalyticsHealth * AnalyticsSink :=
  match present projectKey with
  | None => (h, DisabledAnalyticsSink)
  | Some key => (sinkConfigured h, PostHogSink key host)
  end.

Definition property_json (v : property_value) : json :=
  match v with text_value s => JString s | number_value text => JNumber text | bool_value b => JBool b end.

Definition posthog_properties (e : AnalyticsEnvelope) : list (jstr * json) :=
  let given := map (fun kv => (fst kv, property_json (snd kv))) (av_properties e) in
  let ours := set_member "$lib" (JString "router-api") (set_member "$ip" JNull given) in
  let ours := if av_anonymous e then set_member "$process_person_profile" (JBool false) ours else ours in
  match av_person e with
  | [] => ours
  | person => set_member "$set" (JObject (map (fun kv => (fst kv, JString (snd kv))) person)) ours
  end.

(** The URL and the body of the POST. *)
Definition posthog_request (projectKey host : jstr) (e : AnalyticsEnvelope) : jstr * json :=
  (without_trailing_slashes host +++ "/capture/",
   JObject [("api_key" : jstr, JString projectKey); ("event" : jstr, JString (event_text (av_event e)));
            ("distinct_id" : jstr, JString (av_distinctId e)); ("uuid" : jstr, JString (av_uuid e));
            ("timestamp" : jstr, JString (toISOString (av_timestamp e))); ("properties" : jstr, JObject (posthog_properties e))]).

(** What the host makes of a request: [response.ok], or nothing back in time. *)
Inductive host_answer := host_accepts | host_refuses | host_unreachable.

Record Analytics := { an_sink : AnalyticsSink; an_health : AnalyticsHealth; an_sent : list ((jstr * json) * host_answer) }.

Section Capturing.
Context (host : jstr * json -> host_answer).

Definition sink_send (e : AnalyticsEnvelope) (a : Analytics) : Analytics :=
  match an_sink a with
  | DisabledAnalyticsSink => {| an_sink := an_sink a; an_health := eventDropped (an_health a); an_sent := an_sent a |}
  | PostHogSink key at_ =>
      let request := posthog_request key at_ e in
      let answer := host request in
      {| an_sink := an_sink a;
         an_health := match answer with host_accepts => an_health a | host_refuses | host_unreachable => eventDropped (an_health a) end;
         an_sent := an_sent a ++ [(request, answer)] |}
  end.

Definition capture (input : CaptureInput) (randomUUID : jstr) (now : Z) (a : Analytics) : Analytics := sink_send (envelope_of input randomUUID now) a.
End Capturing.

(** ** The ingest *)

Definition IDENTIFIED (e : AnalyticsEventName) : bool := match e with signup_started => false | _ => true end.
Definition MAX_VALUE_LENGTH : Z := 128.
Definition MAX_PROPERTIES : nat := 12.

Definition scalar_of (v : json) : option property_value :=
  match v with
  | JString s => if jlength s <=? MAX_VALUE_LENGTH then Some (text_value s) else None
  | JBool b => Some (bool_value b)
  | JNumber text => if is_some (number_parts text) then Some (number_value text) else None
  | _ => None
  end.

Definition scalars (properties : option json) : list (jstr * property_value) :=
  let entries := match properties with Some v => spread v | None => [] end in
  flat_map (fun kv => match scalar_of (snd kv) with Some v => [(fst kv, v)] | None => [] end) (take MAX_PROPERTIES entries).

Inductive ingest_error :=
| AnalyticsRateLimitedError (retryAfterSeconds : Z)
| event_not_allowed (event : jstr)
| no_session (event : AnalyticsEventName).

Record IngestRequest := { ig_ip : option jstr; ig_body : json; ig_user : option jstr; ig_now : Z; ig_uuid : jstr; ig_randomUUID : jstr }.

(** What the controller captures, and what it answers instead. *)
Definition ingest_input (sha256 : jstr -> list N) (r : IngestRequest) : result ingest_error CaptureInput :=
  match console_event (member "event" (ig_body r)) with
  | None => Err (event_not_allowed (String_of (member "event" (ig_body r))))
  | Some event =>
      if IDENTIFIED event && negb (is_some (ig_user r)) then Err (no_session event)
      else Ok {| cp_event := event; cp_distinctId := if IDENTIFIED event then ig_user r else None;
                 cp_uuid := eventUuid sha256 [event_text event; ig_uuid r];
                 cp_properties := map (fun kv => (fst kv, Some (snd kv))) (scalars (member "properties" (ig_body r)));
                 cp_person := []; cp_timestamp := None |}
  end.

Definition record_console_event (sha256 : jstr -> list N) (host : jstr * json -> host_answer) (ingestPerMinute : Z) (r : IngestRequest)
    (buckets : Buckets) (a : Analytics) : Buckets * (result ingest_error unit * Analytics) :=
  let key := "analytics:ip:" +++ default "unknown" (ig_ip r) in
  let '(buckets, d) := consume sweep key {| rq_cost := 1; rq_limitPerMinute := ingestPerMinute |} (ig_now r) buckets in
  if negb (rd_allowed d) then (buckets, (Err (AnalyticsRateLimitedError (rd_retryAfterSeconds d)), a))
  else match ingest_input sha256 r with
       | Err e => (buckets, (Err e, a))
       | Ok input => (buckets, (Ok tt, capture host input (ig_randomUUID r) (ig_now r) a))
       end.

(** ** Lemmas *)

Lemma declared_only e properties k v : (k, v) ∈ declaredProperties e properties ->
  isAnalyticsProperty e k = true /\ (k, Some v) ∈ properties.
Proof.
  induction properties as [|[key [w|]] rest IH]; cbn [declaredProperties]; [by intros ?%elem_of_nil| |].
  - destruct (isAnalyticsProperty e key) eqn:E.
    + intros [[= -> ->]|H]%elem_of_cons; [by split; [|left]|]. destruct (IH H) as [? ?]. split; [done|by right].
    + intros H. destruct (IH H) as [? ?]. split; [done|by right].
  - intros H. destruct (IH H) as [? ?]. split; [done|by right].
Qed.

(** No name the taxonomy declares is one the sink sets. *)
Definition ours (name : jstr) : bool := listed name ["$ip"; "$lib"; "$process_person_profile"; "$set"].

Lemma declared_is_not_ours e k : isAnalyticsProperty e k = true -> ours k = false.
Proof.
  unfold isAnalyticsProperty. intros H%listed_iff.
  assert (Ha : Forall (fun k => ours k = false) (ANALYTICS_EVENT_PROPERTIES e)) by (destruct e; repeat constructor).
  rewrite Forall_forall in Ha. by apply Ha.
Qed.

Lemma given_keys e properties name : ours name = true ->
  name ∉ map fst (map (fun kv : jstr * property_value => (fst kv, property_json (snd kv))) (declaredProperties e properties)).
Proof.
  intros Ho. rewrite map_map. cbn [fst]. intros ([k v] & -> & H)%list_elem_of_fmap. apply declared_only in H as [H _].
  apply declared_is_not_ours in H. cbn [fst] in Ho. by rewrite H in Ho.
Qed.

(** What the sink posts, for an envelope of [capture]. *)
Lemma posthog_properties_eq input randomUUID now :
  let e := envelope_of input randomUUID now in
  let given := map (fun kv => (fst kv, property_json (snd kv))) (declaredProperties (cp_event input) (cp_properties input)) in
  posthog_properties e =
    given ++ [("$ip" : jstr, JNull); ("$lib" : jstr, JString "router-api")] ++
    (if av_anonymous e then [("$process_person_profile" : jstr, JBool false)] else []) ++
    match av_person e with [] => [] | person => [("$set" : jstr, JObject (map (fun kv => (fst kv, JString (snd kv))) person))] end.
Proof.
  intros e given. unfold posthog_properties. cbn [av_properties e envelope_of]. fold given.
  assert (Hg : forall name, ours name = true -> name ∉ map fst given) by (intros name; apply given_keys).
  rewrite (set_member_fresh "$ip"), (set_member_fresh "$lib"), <- app_assoc.
  2:{ rewrite map_app, elem_of_app. intros [H|H%list_elem_of_singleton]; [|done]. revert H. by apply Hg. }
  2:{ by apply Hg. }
  set (base := given ++ _). assert (Hb : forall name, ours name = true -> name <> "$ip" -> name <> "$lib" -> name ∉ map fst base).
  { intros name Ho H1 H2. unfold base. rewrite map_app, elem_of_app. intros [H|H]; [revert H; by apply Hg|].
    cbn in H. apply elem_of_cons in H as [H|H%list_elem_of_singleton]; congruence. }
  assert (Ep : (if av_anonymous e then set_member "$process_person_profile" (JBool false) base else base) =
               base ++ if av_anonymous e then [("$process_person_profile" : jstr, JBool false)] else []).
  { destruct (av_anonymous e); [|by rewrite app_nil_r]. apply set_member_fresh, Hb; [reflexivity|by intros [=]..]. }
  rewrite Ep. clear Ep. assert (Hs : "$set" ∉ map fst (base ++ if av_anonymous e then [("$process_person_profile" : jstr, JBool false)] else [])).
  { rewrite map_app, elem_of_app. intros [H|H]; [revert H; apply Hb; [reflexivity|by intros [=]..]|].
    destruct (av_anonymous e); cbn in H; [apply list_elem_of_singleton in H; done|by apply elem_of_nil in H]. }
  unfold base in *. destruct (av_person e) as [|p ps]; [by rewrite app_nil_r, <- !app_assoc|].
  rewrite set_member_fresh by done. by rewrite <- !app_assoc.
Qed.

Lemma scalars_are_short properties k v : (k, v) ∈ scalars properties -> scalar_of (property_json v) = Some v.
Proof.
  unfold scalars. intros ([k' w] & _ & H)%list_elem_of_In%in_flat_map. cbv beta in H. cbn [fst snd] in H.
  destruct (scalar_of w) as [x|] eqn:E; [|destruct H]. destruct H as [[= -> ->]|[]].
  destruct w as [|b|text|s|items|m]; cbn in E; try done; try (by injection E as <-).
  - destruct (is_some (number_parts text)) eqn:En; [|done]. injection E as <-. unfold scalar_of, property_json. by rewrite En.
  - destruct (jlength s <=? MAX_VALUE_LENGTH) eqn:El; [|done]. injection E as <-. unfold scalar_of, property_json. by rewrite El.
Qed.

(** ** Theorems *)

Definition accepted (a : Analytics) : Z :=
  Z.of_nat (length (List.filter (fun s => match snd s with host_accepts => true | _ => false end) (an_sent a))).

(** Nothing is lost in silence: over any number of captures, whatever the sink and
    whatever the host answers, every event was accepted by the host or was counted as
    dropped, exactly once. *)
Theorem every_event_is_kept_or_counted host inputs a :
  let a' := foldl (fun a i => capture host (fst i) (fst (snd i)) (snd (snd i)) a) a (inputs : list (CaptureInput * (jstr * Z))) in
  ah_dropped (an_health a') + accepted a' = ah_dropped (an_health a) + accepted a + Z.of_nat (length inputs) /\
  (an_sink a = DisabledAnalyticsSink -> an_sent a' = an_sent a).
Proof.
  cbn zeta. revert a. induction inputs as [|[input [uuid now]] inputs IH]; intros a; cbn [foldl fst snd length]; [split; [lia|done]|].
  destruct (IH (capture host input uuid now a)) as [H1 H2]. rewrite H1. clear H1. split.
  - unfold capture, sink_send, accepted. destruct (an_sink a) as [|key at_]; cbn [an_health an_sent ah_dropped eventDropped]; [lia|].
    rewrite List.filter_app, length_app. cbn [List.filter snd]. destruct (host _); cbn [length eventDropped ah_dropped]; lia.
  - intros Hs. unfold capture, sink_send in *. rewrite Hs in *. by rewrite H2.
Qed.

(** What a browser can put into the analytics: a request the ingest accepts posts one
    of the two events it may assert, with properties the taxonomy declares for it,
    each a boolean, a finite number or a text of at most 128 units, beside the three
    the sink sets itself; a sign-up that started is posted under a random id, with no
    profile, whoever holds a session, and the other event under the account of the
    session; and a request it refuses posts nothing. *)
Theorem ingest_posts_the_taxonomy sha256 host perMinute r buckets a buckets' a' answer projectKey at_ :
  an_sink a = PostHogSink projectKey at_ ->
  record_console_event sha256 host perMinute r buckets a = (buckets', (answer, a')) ->
  match answer with
  | Err _ => a' = a
  | Ok _ =>
      exists e did uuid posted outcome,
        console_event (member "event" (ig_body r)) = Some e /\
        an_sent a' = an_sent a ++ [((without_trailing_slashes at_ +++ "/capture/",
          JObject [("api_key" : jstr, JString projectKey); ("event" : jstr, JString (event_text e)); ("distinct_id" : jstr, JString did);
                   ("uuid" : jstr, JString uuid); ("timestamp" : jstr, JString (toISOString (ig_now r)));
                   ("properties" : jstr, JObject posted)]), outcome)] /\
        (forall k v, (k, v) ∈ posted ->
           (isAnalyticsProperty e k = true /\ is_Some (scalar_of v)) \/
           (k, v) = ("$ip"%js, JNull) \/ (k, v) = ("$lib"%js, JString "router-api") \/
           (k, v) = ("$process_person_profile"%js, JBool false) /\ e = signup_started) /\
        ("$ip"%js, JNull) ∈ posted /\
        (e = signup_started -> did = ig_randomUUID r /\ ("$process_person_profile"%js, JBool false) ∈ posted) /\
        (e <> signup_started -> ig_user r = Some did)
  end.
Proof.
  intros Hsink. unfold record_console_event. destruct (consume _ _ _ _ _) as [b d]. destruct (negb (rd_allowed d)); [by intros [= <- <- <-]|].
  unfold ingest_input. destruct (console_event (member "event" (ig_body r))) as [e|] eqn:Ee; [|by intros [= <- <- <-]].
  destruct (IDENTIFIED e && negb (is_some (ig_user r))) eqn:Ei; [by intros [= <- <- <-]|].
  set (input := {| cp_event := e |}). intros [= <- <- <-]. unfold capture, sink_send. rewrite Hsink.
  pose proof (posthog_properties_eq input (ig_randomUUID r) (ig_now r)) as Hp. cbn zeta in Hp.
  set (env := envelope_of input (ig_randomUUID r) (ig_now r)) in *.
  exists e, (av_distinctId env), (av_uuid env), (posthog_properties env), (host (posthog_request projectKey at_ env)).
  assert (Hcon : e = signup_started \/ e = feedback_form_opened).
  { unfold console_event in Ee. destruct (member _ _) as [[]|]; try done. apply find_first_some in Ee as [He _].
    by apply elem_of_cons in He as [?|?%list_elem_of_singleton]; [left|right]. }
  assert (Hperson : av_person env = []) by (change (av_person env) with (if negb (is_some (cp_distinctId input)) then [] else @nil (jstr * jstr)); by destruct (is_some (cp_distinctId input))). rewrite Hperson, app_nil_r in Hp.
  split; [done|]. split; [done|]. rewrite Hp. split; [|split].
  - intros k v [([k' w] & [= -> ->] & Hw)%list_elem_of_fmap|[H|H]%elem_of_app]%elem_of_app.
    + left. apply declared_only in Hw as [Hd Hin]. split; [done|]. cbn [input cp_properties snd fst] in *.
      apply list_elem_of_fmap in Hin as ([k2 w2] & [= -> ->] & Hin). cbn. rewrite (scalars_are_short _ _ _ Hin). by eexists.
    + apply elem_of_cons in H as [H|H%list_elem_of_singleton]; auto.
    + destruct (av_anonymous env) eqn:Ea; [|by apply elem_of_nil in H]. apply list_elem_of_singleton in H. right; right; right.
      split; [done|]. destruct Hcon as [-> | ->]; [done|]. unfold env, input in Ea. cbn in Ea, Ei. by destruct (ig_user r).
  - apply elem_of_app. right. by left.
  - destruct Hcon as [-> | ->]; split; try done.
    + intros _. split; [done|]. apply elem_of_app. right. apply elem_of_app. right. by left.
    + intros _. unfold env, input. cbn in Ei |- *. by destruct (ig_user r).
Qed.

(** ** Event ids are version-4 UUIDs *)

(** [x] a hexadecimal digit, [y] one of [8], [9], [a] and [b], the rest themselves. *)
Definition variant_digit (c : N) : bool := existsb (N.eqb c) [56; 57; 97; 98]%N.

Definition fits (t c : N) : bool :=
  if (t =? 120)%N then is_hex c else if (t =? 121)%N then variant_digit c else (c =? t)%N.

Definition uuid_v4 (s : jstr) : bool :=
  (length (units s) =? 36)%nat && forallb (fun tc => fits (fst tc) (snd tc)) (zip (units "xxxxxxxx-xxxx-4xxx-yxxx-xxxxxxxxxxxx") (units s)).

(** What a test over every byte says of each. *)
Lemma every_byte (p : N -> bool) b : forallb p (map N.of_nat (seq 0 256)) = true -> (b < 256)%N -> p b = true.
Proof.
  intros H Hb. rewrite forallb_forall in H. apply H, in_map_iff. exists (N.to_nat b). rewrite N2Nat.id. split; [done|]. apply in_seq. lia.
Qed.

Lemma hex_of_byte b : (b < 256)%N -> is_hex (hex_digit (b / 16)) = true /\ is_hex (hex_digit (b mod 16)) = true.
Proof. intros Hb. by split; apply hex_value_digit; [apply N.Div0.div_lt_upper_bound; lia|apply N.mod_lt]. Qed.

Lemma version_byte b : (b < 256)%N -> let v := N.lor (N.land b 15) 64 in
  (v < 256)%N /\ hex_digit (v / 16) = 52%N /\ is_hex (hex_digit (v mod 16)) = true.
Proof.
  intros Hb v. pose proof (every_byte (fun b => let v := N.lor (N.land b 15) 64 in (v <? 256)%N && (hex_digit (v / 16) =? 52)%N && is_hex (hex_digit (v mod 16))) b ltac:(vm_compute; reflexivity) Hb) as H.
  cbn zeta in H. fold v in H. apply andb_true_iff in H as [[H1%N.ltb_lt H2%N.eqb_eq]%andb_true_iff H3]. done.
Qed.

Lemma variant_byte b : (b < 256)%N -> let v := N.lor (N.land b 63) 128 in
  (v < 256)%N /\ variant_digit (hex_digit (v / 16)) = true /\ is_hex (hex_digit (v mod 16)) = true.
Proof.
  intros Hb v. pose proof (every_byte (fun b => let v := N.lor (N.land b 63) 128 in (v <? 256)%N && variant_digit (hex_digit (v / 16)) && is_hex (hex_digit (v mod 16))) b ltac:(vm_compute; reflexivity) Hb) as H.
  cbn zeta in H. fold v in H. apply andb_true_iff in H as [[H1%N.ltb_lt H2]%andb_true_iff H3]. done.
Qed.

(** The digits of one byte, where it stands. *)
Lemma byte_digits b : (b < 256)%N -> exists c d, byte_hex b = [c; d] /\ is_hex c = true /\ is_hex d = true.
Proof. intros Hb. exists (hex_digit (b / 16)), (hex_digit (b mod 16)). rewrite byte_hex_digits by done. split; [done|]. by apply hex_of_byte. Qed.

(** The id of an event is a version-4 UUID, the only shape the host keeps. *)
Theorem event_id_is_a_uuid sha256 parts :
  sha256_bytes (sha256 (jjoin (Js [0%N]) parts)) -> uuid_v4 (eventUuid sha256 parts) = true.
Proof.
  unfold eventUuid. generalize (sha256 (jjoin (Js [0%N]) parts)). intros bytes [Hl Hb].
  assert (H16 : length (take 16 bytes) = 16%nat) by (rewrite length_take; lia).
  assert (Hb16 : Forall (fun b => (b < 256)%N) (take 16 bytes)) by by apply Forall_take.
  revert H16 Hb16. generalize (take 16 bytes). clear. intros bs H16 Hbs.
  do 16 (destruct bs as [|? bs]; [discriminate H16|]). destruct bs; [|discriminate H16]. clear H16.
  repeat match goal with H : Forall _ (_ :: _) |- _ => apply Forall_cons in H as [? H] end. clear Hbs.
  unfold stamped. cbn [lookup list_lookup default from_option insert list_insert].
  match goal with |- context [N.lor (N.land ?b 15) 64] => destruct (version_byte b) as (Hv & Hv1 & Hv2); [done|]; set (v := N.lor (N.land b 15) 64) in * end.
  match goal with |- context [N.lor (N.land ?b 63) 128] => destruct (variant_byte b) as (Hy & Hy1 & Hy2); [done|]; set (y := N.lor (N.land b 63) 128) in * end.
  cbn [map concat]. rewrite (byte_hex_digits v), (byte_hex_digits y) by done. rewrite Hv1. clearbody v y.
  repeat match goal with |- context [byte_hex ?b] => destruct (byte_digits b) as (? & ? & -> & ? & ?); [done|] end.
  revert Hy1 Hy2 Hv2. generalize (hex_digit (y / 16)) (hex_digit (y mod 16)) (hex_digit (v mod 16)). intros y1 y2 v2 Hy1 Hy2 Hv2.
  cbv -[is_hex variant_digit]. rewrite Hy1. repeat match goal with H : is_hex _ = true |- _ => rewrite H; clear H end. done.
Qed.

(** ** Examples *)

Definition posting : Analytics := {| an_sink := PostHogSink "k" "https://eu.example/"; an_health := health_initial; an_sent := [] |}.
Definition sample_digest (s : jstr) : list N := replicate 32 (N.of_nat (length (units s)) mod 256)%N.
Definition sign_up_opened : IngestRequest :=
  {| ig_ip := Some "10.0.0.1"%js;
     ig_body := JObject [("event" : jstr, JString "signup_started"); ("properties" : jstr, JObject [("campaign" : jstr, JString "launch"); ("email" : jstr, JString "a@b.c"); ("entry" : jstr, JNull)])];
     ig_user := Some "u1"%js; ig_now := 0; ig_uuid := "r1"; ig_randomUUID := "r2" |}.

Definition sign_up_posted : result ingest_error unit * Analytics :=
  snd (record_console_event sample_digest (fun _ => host_refuses) 60 sign_up_opened ∅ posting).

Lemma ingest_posts_the_taxonomy_witness :
  fst sign_up_posted = Ok tt /\ ah_dropped (an_health (snd sign_up_posted)) = 1 /\ exists s, an_sent (snd sign_up_posted) = [s].
Proof.
  assert (Ha : fst sign_up_posted = Ok tt) by (vm_compute; reflexivity).
  split; [exact Ha|]. split; [vm_compute; reflexivity|].
  pose proof (ingest_posts_the_taxonomy sample_digest (fun _ => host_refuses) 60 sign_up_opened ∅ posting
    (fst (record_console_event sample_digest (fun _ => host_refuses) 60 sign_up_opened ∅ posting))
    (snd sign_up_posted) (fst sign_up_posted) "k" "https://eu.example/" eq_refl) as H.
  rewrite Ha in H. destruct H as (e & did & uuid & posted & outcome & _ & Hsent & _).
  - rewrite <- Ha. unfold sign_up_posted. by destruct (record_console_event _ _ _ _ _ _) as [? [? ?]].
  - eexists. exact Hsent.
Defined.

Lemma event_id_is_a_uuid_witness :
  eventUuid sample_digest ["signup_completed"; "u1"] = "13131313-1313-4313-9313-131313131313"%js /\
  uuid_v4 (eventUuid sample_digest ["signup_completed"; "u1"]) = true.
Proof. split; [vm_compute; reflexivity|]. apply event_id_is_a_uuid. split; [reflexivity|]. apply Forall_replicate. vm_compute. reflexivity. Defined.
