(* ===== verification/SignUp.v ===== *)
(** * An account comes into existence

    [auth/sign-up-provisioning.service.ts], the two database hooks of
    [auth/auth.options.ts], [auth/bootstrap-admin.plugin.ts], [auth/admin-emails.ts] and
    [auth/sign-in-options.service.ts]: the workspace, the two grants, the events and the
    welcome of a new account, and the deployment's own token.  Better Auth, which
    inserts the row between the hooks, is not modelled; SHA-256 is a parameter. *)

From S2P Require Import Prelude JsString Store Workspaces Ledger InviteCodes Invites SignUpRequest Analytics.

(** ** Provisioning *)

Definition method_text (m : SignUpMethod) : jstr :=
  match m with by_password => "password" | by_email_code => "email_code" | by_magic_link => "magic_link" | by_github => "github" | by_google => "google" end.

Definition unusable_text (r : InviteUnusableReason) : jstr :=
  match r with not_found => "not_found" | expired => "expired" | exhausted => "exhausted" | disabled => "disabled" end.

Definition refused_text (r : refused_reason) : jstr :=
  match r with unusable r => unusable_text r | already_redeemed => "already_redeemed" | redeem_error => "error" end.

Record WelcomeMail := { wm_email : jstr; wm_name : option jstr; wm_startingCreditMicros : Z }.

Record Provisioned := {
  pr_workspaceId : jstr;
  pr_grant : SignUpGrantOutcome;
  pr_outcome : InviteRedemptionOutcome;
  pr_events : list CaptureInput;
  pr_welcome : WelcomeMail
}.

(** Ids and clock of the three writes. *)
Record sign_up_env := { su_provision : provision_env; su_grant : write_env; su_redeem : redeem_env }.

Section Provisioning.
Context (toLowerCase toUpperCase : jstr -> jstr) (sha256_hex : jstr -> jstr) (secret : jstr) (sha256 : jstr -> list N).
Context (grantMicros : Z).

(** [signup_completed], and [invite_redeemed] when a code was presented. *)
Definition sign_up_events (user : CreatedUser) (invite : SignUpInvite) (method : SignUpMethod) (outcome : InviteRedemptionOutcome) : list CaptureInput :=
  let campaign := match outcome with granted _ campaign _ _ => Some campaign | _ => None end in
  {| cp_event := signup_completed; cp_distinctId := Some (nu_id user); cp_uuid := eventUuid sha256 ["signup_completed"; nu_id user];
     cp_properties := [("has_invite" : jstr, Some (bool_value (is_some (si_code invite)))); ("campaign" : jstr, text_value <$> campaign);
                       ("method" : jstr, Some (text_value (method_text method)))];
     cp_person := [("campaign" : jstr, campaign); ("signup_method" : jstr, Some (method_text method))]; cp_timestamp := None |} ::
  match outcome with
  | no_code => []
  | granted grantMicros campaign _ redemptionId =>
      [{| cp_event := invite_redeemed; cp_distinctId := Some (nu_id user); cp_uuid := eventUuid sha256 ["invite_redeemed"; redemptionId];
          cp_properties := [("outcome" : jstr, Some (text_value "granted")); ("campaign" : jstr, Some (text_value campaign));
                            ("grant_micros" : jstr, Some (number_value (jstring_of_Z grantMicros)))];
          cp_person := []; cp_timestamp := None |}]
  | refused reason =>
      [{| cp_event := invite_redeemed; cp_distinctId := Some (nu_id user); cp_uuid := eventUuid sha256 ["invite_redeemed"; "refused"; nu_id user];
          cp_properties := [("outcome" : jstr, Some (text_value "refused")); ("reason" : jstr, Some (text_value (refused_text reason)))];
          cp_person := []; cp_timestamp := None |}]
  end.

Definition with_db (db : Store) (t : Tenancy) : Tenancy := {| tn_names := tn_names t; tn_members := tn_members t; tn_store := db |}.

Definition signup_credit (o : SignUpGrantOutcome) : Z := match o with sg_granted g _ => g | _ => 0 end.
Definition invite_credit (o : InviteRedemptionOutcome) : Z := match o with granted g _ _ _ => g | _ => 0 end.

Definition onUserCreated (env : sign_up_env) (user : CreatedUser) (invite : SignUpInvite) (method : SignUpMethod) (t : Tenancy)
    : result provisioning_error (Tenancy * Provisioned) :=
  '(t, workspace) ← ensurePersonalWorkspace toLowerCase (su_provision env) user t;
  let '(db, signUpGrant) := grantOnSignUp (su_grant env) grantMicros (nu_id user) workspace (tn_store t) in
  let '(db, outcome) := redeemOnSignUp toUpperCase sha256_hex secret (su_redeem env)
        {| ri_userId := nu_id user; ri_workspaceId := workspace; ri_invite := invite |} db in
  Ok (with_db db t,
      {| pr_workspaceId := workspace; pr_grant := signUpGrant; pr_outcome := outcome; pr_events := sign_up_events user invite method outcome;
         pr_welcome := {| wm_email := nu_email user; wm_name := nu_name user;
                          wm_startingCreditMicros := signup_credit signUpGrant + invite_credit outcome |} |}).

(** ** The hooks around the insert *)

Inductive hook_error := hook_request (e : request_error) | sign_up_refused (code : SignUpRefusalCode) | hook_provisioning (e : provisioning_error).

Context `{CallbackUrl}.

Definition before_create (required : bool) (context : option SignUpRequestContext) (now : Z) (db : Store) : result hook_error unit :=
  match signUpInviteOf context with
  | Err e => Err (hook_request e)
  | Ok invite =>
      match admit_sign_up toUpperCase required db invite (isBootstrapSignUp context) now with
      | Some code => Err (sign_up_refused code)
      | None => Ok tt
      end
  end.

Definition after_create (env : sign_up_env) (user : CreatedUser) (context : option SignUpRequestContext) (t : Tenancy)
    : result hook_error (Tenancy * Provisioned) :=
  match signUpInviteOf context with
  | Err e => Err (hook_request e)
  | Ok invite =>
      match onUserCreated env user invite (signUpMethodOf context) t with
      | Err e => Err (hook_provisioning e)
      | Ok out => Ok out
      end
  end.
End Provisioning.

(** ** The deployment's own token *)

(** Better Auth's table and its adapter: a lookup by address, and the insert, which runs
    the hooks above and is [None] when it throws. *)
Record AuthUser := { bu_id : jstr; bu_email : jstr; bu_emailVerified : bool }.

Class AuthAdapter := {
  findUserByEmail : jstr -> list AuthUser -> option AuthUser;
  createUser : jstr -> list AuthUser -> option (list AuthUser * AuthUser)
}.

Record BootstrapAdminOptions := { bo_token : jstr; bo_email : jstr }.

Inductive bootstrap_error := bootstrap_not_found | bootstrap_unauthorized (message : jstr) | bootstrap_insert_failed.

Definition secretsMatch (sha256 : jstr -> list N) (candidate expected : jstr) : bool := bool_decide (sha256 candidate = sha256 expected).

(** The handler, whose check of the table and whose insert may have other requests
    between them: [read] is the table it checked, [users] the one it writes.  The answer
    is the account the session is opened for. *)
Definition bootstrapAdmin `{AuthAdapter} (sha256 : jstr -> list N) (options : BootstrapAdminOptions) (token : jstr) (read users : list AuthUser)
    : list AuthUser * result bootstrap_error AuthUser :=
  let claimed := negb (bool_decide (length read = 0%nat)) in
  let existing := if claimed then findUserByEmail (bo_email options) read else None in
  if claimed && negb (is_some existing) then (users, Err bootstrap_not_found)
  else if negb (secretsMatch sha256 token (bo_token options)) then (users, Err (bootstrap_unauthorized "The bootstrap token is not valid."))
  else
    match existing with
    | Some user => (users, Ok user)
    | None =>
        match createUser (bo_email options) users with
        | Some (users, user) => (users, Ok user)
        | None =>
            match findUserByEmail (bo_email options) users with
            | Some winner => (users, Ok winner)
            | None => (users, Err bootstrap_insert_failed)
            end
        end
    end.

(** What the sign-in screen is told of it: [bootstrap], [adminRecovery]. *)
Definition bootstrapState (toLowerCase : jstr -> jstr) (bootstrapToken : option jstr) (bootstrapEmail : jstr) (users : list AuthUser) : bool * bool :=
  match bootstrapToken with
  | None => (false, false)
  | Some _ => if bool_decide (length users = 0%nat) then (true, false)
              else (false, existsb (fun u => jeqb (bu_email u) (toLowerCase bootstrapEmail)) users)
  end.

(** ** Operators *)

Definition isAdminEmail (toLowerCase : jstr -> jstr) (email : option jstr) (adminEmails : list jstr) : bool :=
  let allowed := List.filter (fun e => negb (jlength e =? 0)) (map (fun entry => toLowerCase (jtrim entry)) adminEmails) in
  match present email with
  | None => false
  | Some email => listed (toLowerCase (jtrim email)) allowed
  end.

(** [AdminGuard] behind [SessionGuard]: the session's user, if any. *)
Inductive guard_answer := let_through | unauthenticated | not_an_operator.

Definition guard_admin (toLowerCase : jstr -> jstr) (adminEmails : list jstr) (session : option jstr) : guard_answer :=
  match session with
  | None => unauthenticated
  | Some email => if isAdminEmail toLowerCase (Some email) adminEmails then let_through else not_an_operator
  end.

(** ** Lemmas: what each step does to the balances *)

Definition balance_in (i : jstr) (db : Store) : Z := default 0 (balanceMicros <$> workspaces db !! i).

Definition same_rows (db db' : Store) : Prop := forall i, is_Some (workspaces db' !! i) <-> is_Some (workspaces db !! i).

Lemma credited ws g w db db' : workspaces db !! ws = Some w -> workspaces db' = <[ws := add_balance g w]> (workspaces db) ->
  same_rows db db' /\ forall i, balance_in i db' = balance_in i db + if jeqb i ws then g else 0.
Proof.
  intros Hw E. unfold same_rows, balance_in. rewrite E. split; intros i; destruct (decide (i = ws)) as [->|Hi].
  - rewrite lookup_insert_eq, Hw. split; by eexists.
  - by rewrite lookup_insert_ne.
  - rewrite lookup_insert_eq, Hw, jeqb_refl. done.
  - rewrite lookup_insert_ne by done. rewrite (proj2 (jeqb_neq _ _) Hi). lia.
Qed.

Lemma uncredited ws db : same_rows db db /\ forall i, balance_in i db = balance_in i db + if jeqb i ws then 0 else 0.
Proof. split; [done|]. intros i. destruct (jeqb i ws); lia. Qed.

Lemma grant_effect env g user ws db db' o : ledger_ok db -> grantOnSignUp env g user ws db = (db', o) ->
  ledger_ok db' /\ same_rows db db' /\ forall i, balance_in i db' = balance_in i db + if jeqb i ws then signup_credit o else 0.
Proof.
  intros Hok H. destruct (signup_grant_once _ _ _ _ _ _ _ Hok H) as [Hok' Ho]. split; [done|].
  destruct o as [g' tx|tx| |]; cbn [signup_credit]; try (subst db'; apply uncredited).
  destruct Ho as (_ & _ & (w & Hw & E) & _). by eapply credited.
Qed.

Section Redeeming.
Context (toUpperCase : jstr -> jstr) (sha256_hex : jstr -> jstr) (secret : jstr).

Lemma redeem_cases env input db db' o : redeemOnSignUp toUpperCase sha256_hex secret env input db = (db', o) ->
  (db' = db /\ (o = no_code \/ exists r, o = refused r)) \/
  exists id invite, present (si_code (ri_invite input)) <> None /\ redeem_read toUpperCase env input db = inr (id, invite) /\
    redemption_answer sha256_hex secret env id invite input db = (db', o).
Proof.
  unfold redeemOnSignUp. destruct (present _) as [c|]; [|intros [= <- <-]; by left; split; [|left]].
  destruct (redeem_read toUpperCase env input db) as [r|[id invite]] eqn:E.
  - intros [= <- <-]. left. split; [done|]. right. revert E. unfold redeem_read.
    destruct (negb _); [intros [= <-]; eauto|]. destruct (find_by_code _ _) as [[? ?]|]; [|intros [= <-]; eauto].
    destruct (unusableReason _ _); [intros [= <-]; eauto|done].
  - rewrite redeem_commit_eq. intros H. right. by exists id, invite.
Qed.

Lemma redeem_effect env input db db' o : ledger_ok db -> redeemOnSignUp toUpperCase sha256_hex secret env input db = (db', o) ->
  ledger_ok db' /\ same_rows db db' /\
  (forall i, balance_in i db' = balance_in i db + if jeqb i (ri_workspaceId input) then invite_credit o else 0) /\
  (forall g campaign tx rid, o = granted g campaign tx rid -> is_Some (redemptionOf db' (ri_userId input))).
Proof.
  intros Hok [[-> Ho]|(id & invite & _ & _ & Ha)]%redeem_cases.
  - split; [done|]. destruct (uncredited (ri_workspaceId input) db) as [H1 H2]. split; [done|].
    split; [by destruct Ho as [-> | [r ->]]|]. by intros ? ? ? ? ->; destruct Ho as [?|[? ?]].
  - revert Ha. unfold redemption_answer. assert (Hstay : forall r, (db, refused r) = (db', o) -> ledger_ok db' /\ same_rows db db' /\
      (forall i, balance_in i db' = balance_in i db + if jeqb i (ri_workspaceId input) then invite_credit o else 0) /\
      (forall g campaign tx rid, o = granted g campaign tx rid -> is_Some (redemptionOf db' (ri_userId input)))).
    { intros r [= <- <-]. split; [done|]. destruct (uncredited (ri_workspaceId input) db) as [H1 H2]. split; [done|]. by split. }
    destruct (invite_codes db !! id) as [c|]; [|apply Hstay]. destruct (unusableReason c _); [apply Hstay|].
    destruct (Z.leb_spec (ic_grantMicros invite) 0) as [Hg|Hg]; [apply Hstay|].
    destruct (workspaces db !! ri_workspaceId input) as [w|] eqn:Hw; [|apply Hstay].
    destruct (ledger_clash _ _ db || _) eqn:Hcl; [apply Hstay|]. apply orb_false_iff in Hcl as [Hcl _]. clear Hstay.
    intros [= <- <-]. split; [by apply redeemed_ledger_ok|]. cbn [invite_credit].
    destruct (credited (ri_workspaceId input) (ic_grantMicros invite) w db (redeemed sha256_hex secret env id invite c w input db) Hw eq_refl) as [H1 H2].
    split; [done|]. split; [done|]. intros ? ? ? ? _. unfold redemptionOf. cbn [redeemed invite_redemptions]. rewrite find_first_app.
    destruct (find_first _ (invite_redemptions db)); [by eexists|]. cbn. rewrite jeqb_refl. by eexists.
Qed.

(** An account that has redeemed redeems nothing more. *)
Lemma redeem_again env input db : is_Some (redemptionOf db (ri_userId input)) ->
  exists o, redeemOnSignUp toUpperCase sha256_hex secret env input db = (db, o) /\ invite_credit o = 0.
Proof.
  intros [r Hr]. destruct (redeemOnSignUp _ _ _ env input db) as [db' o] eqn:E.
  destruct (redeem_cases _ _ _ _ _ E) as [[-> [-> | [r' ->]]]|(id & invite & _ & _ & Ha)]; [by eauto..|]. revert Ha. unfold redemption_answer.
  assert (Hc : redemption_clash (redemption_row sha256_hex secret env id input) db = true).
  { apply existsb_exists. exists r. unfold redemptionOf in Hr. apply find_first_some in Hr as [Hin Hu]. split; [by apply list_elem_of_In|].
    cbn. rewrite Hu. apply orb_true_r. }
  rewrite Hc, orb_true_r.
  destruct (invite_codes db !! id) as [c|]; [|by intros [= <- <-]; eauto]. destruct (unusableReason c _); [by intros [= <- <-]; eauto|].
  destruct (_ <=? _); [by intros [= <- <-]; eauto|]. destruct (workspaces db !! _); by intros [= <- <-]; eauto.
Qed.
End Redeeming.

Lemma founded_ledger w name userId now t : tenancy_ok t -> tn_names t !! w = None -> ledger_ok (tn_store t) ->
  ledger_ok (tn_store (founded w name userId now t)) /\ forall i, balance_in i (tn_store (founded w name userId now t)) = balance_in i (tn_store t).
Proof.
  intros Hok Hf [H1 H2 H3 H4]. assert (Hnone : workspaces (tn_store t) !! w = None).
  { apply eq_None_not_Some. rewrite <- (to_rows _ Hok), Hf. by intros [? ?]. }
  split; [split; cbn [founded tn_store set_workspaces workspaces credit_transactions]; [|done..|]|].
  - intros i r Hi. apply lookup_insert_Some in Hi as [[<- <-]|[_ Hi]]; [|by apply H1]. cbn [balanceMicros new_workspace].
    assert (Hnot : Forall (fun x => ct_workspaceId x <> w) (credit_transactions (tn_store t))).
    { eapply Forall_impl; [exact H4|]. intros x [r Hr] E. by rewrite E, Hnone in Hr. }
    clear -Hnot. unfold ledger_sum. induction Hnot as [|x l Hx _ IH]; [done|]. cbn [map sumZ foldr]. rewrite amount_for_other by done. exact IH.
  - eapply Forall_impl; [exact H4|]. intros x Hx. apply lookup_insert_is_Some'. by right.
  - intros i. unfold balance_in. cbn [founded tn_store set_workspaces workspaces]. destruct (decide (i = w)) as [->|Hi].
    + by rewrite lookup_insert_eq, Hnone.
    + by rewrite lookup_insert_ne.
Qed.

Lemma with_db_ok db t : tenancy_ok t -> same_rows (tn_store t) db -> tenancy_ok (with_db db t).
Proof. intros [H1 H2 H3 H4] Hs. split; cbn; [done..|]. intros i. by rewrite H4, (Hs i). Qed.

(** Rows of the ledger stay, so a grant is replayed after whatever a redemption did. *)
Lemma redeem_keeps_rows toUpperCase sha256_hex secret env input db db' o key x :
  redeemOnSignUp toUpperCase sha256_hex secret env input db = (db', o) ->
  findByIdempotencyKey db key = Some x -> findByIdempotencyKey db' key = Some x.
Proof.
  intros [[-> _]|(id & invite & _ & _ & Ha)]%redeem_cases; [done|]. revert Ha. unfold redemption_answer.
  destruct (invite_codes db !! id) as [c|]; [|by intros [= <- _]]. destruct (unusableReason c _); [by intros [= <- _]|].
  destruct (_ <=? _); [by intros [= <- _]|]. destruct (workspaces db !! _); [|by intros [= <- _]]. destruct (_ || _); [by intros [= <- _]|].
  intros [= <- _] Hx. unfold findByIdempotencyKey in *. cbn [redeemed credit_transactions]. by rewrite find_first_app, Hx.
Qed.

Lemma granted_row env g user ws db db' g' tx : ledger_ok db -> grantOnSignUp env g user ws db = (db', sg_granted g' tx) ->
  exists x, findByIdempotencyKey db' ("signup:" +++ user) = Some x /\ ct_id x = tx.
Proof.
  unfold grantOnSignUp, record. intros _. destruct (_ <=? _); [done|]. destruct (assertSign _); [|done].
  change (in_idempotencyKey (signup_input g user ws)) with ("signup:" +++ user).
  destruct (findByIdempotencyKey db _) as [x|] eqn:Ef; [done|].
  destruct (append env (signup_input g user ws) db) as [[db1 e]|err] eqn:Ea; [|by destruct (negb _)].
  destruct (le_replayed e); [done|]. intros [= <- _ <-]. exists (le_transaction e). split; [|done].
  apply append_ok in Ea as (_ & _ & _ & _ & Hct & _ & _ & _ & _ & Ht & _). unfold findByIdempotencyKey in *.
  rewrite Hct, find_first_app, Ef, Ht. cbn. by rewrite jeqb_refl.
Qed.

Lemma grant_replays env g user ws db x : 0 < g -> findByIdempotencyKey db ("signup:" +++ user) = Some x ->
  grantOnSignUp env g user ws db = (db, sg_replayed (ct_id x)).
Proof.
  intros Hg Hx. unfold grantOnSignUp. rewrite (proj2 (Z.leb_gt _ _)) by done. unfold record.
  assert (Hs : assertSign (signup_input g user ws) = Ok tt) by (apply assertSign_ok; cbn; lia). rewrite Hs.
  change (in_idempotencyKey (signup_input g user ws)) with ("signup:" +++ user). by rewrite Hx.
Qed.

(** What has to hold for an account's redemption to go through beside the code. *)
Record redemption_possible (env : sign_up_env) (userId : jstr) (db : Store) : Prop := {
  rp_codes : forall id c, invite_codes db !! id = Some c -> 0 < ic_grantMicros c;
  rp_user : redemptionOf db userId = None;
  rp_row : re_redemptionId (su_redeem env) ∉ map ir_id (invite_redemptions db);
  rp_uuid : env_uuid (re_ledger (su_redeem env)) ∉ map ct_id (credit_transactions db);
  rp_two : env_uuid (re_ledger (su_redeem env)) <> env_uuid (su_grant env);
  rp_key : forall id, "invite:" +++ id +++ ":" +++ userId ∉ map ct_idempotencyKey (credit_transactions db)
}.

Lemma ensure_frame lower env user t t' w : ensurePersonalWorkspace lower env user t = Ok (t', w) ->
  invite_codes (tn_store t') = invite_codes (tn_store t) /\ invite_redemptions (tn_store t') = invite_redemptions (tn_store t) /\
  credit_transactions (tn_store t') = credit_transactions (tn_store t).
Proof. by intros [[-> _]|(_ & _ & _ & ->)]%ensure_cases. Qed.

Lemma grant_rows env g user ws db db' o : grantOnSignUp env g user ws db = (db', o) ->
  invite_codes db' = invite_codes db /\ invite_redemptions db' = invite_redemptions db /\
  (credit_transactions db' = credit_transactions db \/
   exists x, credit_transactions db' = credit_transactions db ++ [x] /\ ct_id x = env_uuid env /\ ct_idempotencyKey x = "signup:" +++ user).
Proof.
  unfold grantOnSignUp, record. destruct (_ <=? _); [intros [= <- _]; auto|]. destruct (assertSign _); [|intros [= <- _]; auto].
  destruct (findByIdempotencyKey db _); [intros [= <- _]; auto|].
  destruct (append env _ db) as [[db1 e]|err] eqn:Ea; [|destruct (negb _); intros [= <- _]; auto]. intros [= <- _].
  apply append_ok in Ea as (_ & _ & _ & _ & Hct & Hc & Hr & _ & _ & Ht & _). split; [done|]. split; [done|]. right.
  exists (le_transaction e). split; [done|]. by rewrite Ht.
Qed.

Lemma same_beside_ledger_grant env g user ws db db' o : grantOnSignUp env g user ws db = (db', o) ->
  invite_codes db' = invite_codes db /\ invite_redemptions db' = invite_redemptions db.
Proof. by intros (? & ? & _)%grant_rows. Qed.

Lemma possible_after_grant env user g ws db db' o : ledger_ok db -> grantOnSignUp (su_grant env) g user ws db = (db', o) ->
  redemption_possible env user db -> redemption_possible env user db'.
Proof.
  intros _ (Hc & Hr & Ht)%grant_rows [H1 H2 H3 H4 H5 H6]. split; unfold redemptionOf; rewrite ?Hc, ?Hr; try done.
  - destruct Ht as [->|(x & -> & Hid & _)]; [done|]. rewrite map_app. intros [?|E%list_elem_of_singleton]%elem_of_app; [done|]. congruence.
  - intros id. destruct Ht as [->|(x & -> & _ & Hk)]; [done|]. rewrite map_app. intros [?|E%list_elem_of_singleton]%elem_of_app; [by apply (H6 id)|].
    rewrite Hk in E. by destruct id.
Qed.

(** The redemption of an invitation the gate admits, once its workspace is there. *)
Lemma admitted_is_granted toUpperCase sha256_hex secret env input db db' o :
  admit_sign_up toUpperCase true db (ri_invite input) false (re_now (su_redeem env)) = None ->
  is_Some (workspaces db !! ri_workspaceId input) -> redemption_possible env (ri_userId input) db ->
  redeemOnSignUp toUpperCase sha256_hex secret (su_redeem env) input db = (db', o) ->
  exists g campaign tx rid, o = granted g campaign tx rid /\ 0 < g.
Proof.
  intros [Hpres [[id invite] Hread]]%(admit_iff_redeemable toUpperCase db input (su_redeem env)) [w Hw] [H1 H2 H3 H4 _ H6].
  unfold redeemOnSignUp. destruct (present _); [|done]. rewrite Hread, redeem_commit_eq.
  assert (Hid : invite_codes db !! id = Some invite /\ unusableReason invite (re_now (su_redeem env)) = None).
  { revert Hread. unfold redeem_read. destruct (negb _); [done|]. destruct (find_by_code _ _) as [[id' c]|] eqn:E; [|done].
    destruct (unusableReason c _) eqn:Eu; [done|]. intros [= -> ->]. unfold find_by_code in E. apply find_first_some in E as [Hin _].
    by apply elem_of_map_to_list in Hin. }
  destruct Hid as [Hid Hus]. unfold redemption_answer. specialize (H1 _ _ Hid).
  rewrite Hid, Hus, (proj2 (Z.leb_gt _ _)), Hw by done.
  rewrite (proj2 (ledger_clash_false _ _ _)) by (split; [done|apply H6]).
  rewrite (proj2 (redemption_clash_false _ _)); [|split; [done|by apply find_key_none]]. cbn [orb]. intros [= _ <-]. eauto 6.
Qed.

(** ** Theorems *)

Section SignUps.
Context (toLowerCase toUpperCase : jstr -> jstr) (sha256_hex : jstr -> jstr) (secret : jstr) (sha256 : jstr -> list N) (grantMicros : Z).

(** The workspace there is before the grants. *)
Lemma provisioned env user t t' w : tenancy_ok t -> ledger_ok (tn_store t) -> tn_names t !! pe_uuid env 0 = None ->
  ensurePersonalWorkspace toLowerCase env user t = Ok (t', w) ->
  tenancy_ok t' /\ ledger_ok (tn_store t') /\ roleOf (nu_id user) w t' = Some role_owner /\
  workspace_of t' (find_first (owns (nu_id user)) (tn_members t')) = Some w /\
  forall i, balance_in i (tn_store t') = balance_in i (tn_store t).
Proof.
  intros Hok Hl Hf H. destruct (ensure_cases _ _ _ _ _ _ H) as [[-> He]|(Hno & Hw & Hslug & ->)].
  - destruct (workspace_of_owner _ _ _ Hok He) as [_ Hr]. done.
  - rewrite <- Hw in Hf. fold (founded w {| wn_name := workspace_name user; wn_slug := allocateSlug toLowerCase env (nu_email user) t |} (nu_id user) (pe_now env) t).
    set (name := {| wn_name := _; wn_slug := _ |}). destruct (founded_ledger w name (nu_id user) (pe_now env) t Hok Hf Hl) as [H1 H2].
    split; [by apply founded_ok|]. split; [done|]. split; [by rewrite founded_role, !jeqb_refl|]. split; [|done].
    apply founded_owner. by apply workspace_of_none.
Qed.

(** C12. The welcome names the credit that landed: provisioning keeps the tables' and the
    ledger's invariants, makes the user the owner of the workspace it reports, and
    raises the balance of that workspace, and of no other, by exactly the amount the
    welcome mail names, the sign-up grant and the invitation's together; and once both
    have been granted, a hook that runs again for the user, whatever request it runs
    for, finds the same workspace, changes nothing and names no credit. *)
Theorem welcome_names_the_credit env user invite method t t' out :
  tenancy_ok t -> ledger_ok (tn_store t) -> tn_names t !! pe_uuid (su_provision env) 0 = None ->
  onUserCreated toLowerCase toUpperCase sha256_hex secret sha256 grantMicros env user invite method t = Ok (t', out) ->
  let w := pr_workspaceId out in
  tenancy_ok t' /\ ledger_ok (tn_store t') /\ roleOf (nu_id user) w t' = Some role_owner /\
  (forall i, balance_in i (tn_store t') =
     balance_in i (tn_store t) + if jeqb i w then wm_startingCreditMicros (pr_welcome out) else 0) /\
  (forall g tx g' campaign tx' rid, pr_grant out = sg_granted g tx -> pr_outcome out = granted g' campaign tx' rid ->
     wm_startingCreditMicros (pr_welcome out) = g + g' /\
     forall env' invite' method', exists again,
       onUserCreated toLowerCase toUpperCase sha256_hex secret sha256 grantMicros env' user invite' method' t' = Ok (t', again) /\
       pr_workspaceId again = w /\ wm_startingCreditMicros (pr_welcome again) = 0).
Proof.
  intros Hok Hl Hf. unfold onUserCreated at 1. intros ([t1 w] & He & H)%bind_ok.
  destruct (provisioned _ _ _ _ _ Hok Hl Hf He) as (Hok1 & Hl1 & Hrole & Hown & Hb1). cbv beta iota in H.
  destruct (grantOnSignUp _ _ _ _ (tn_store t1)) as [db1 o1] eqn:Eg. destruct (redeemOnSignUp _ _ _ _ _ db1) as [db2 o2] eqn:Er.
  injection H as <- <-. cbn [pr_workspaceId pr_welcome pr_grant pr_outcome wm_startingCreditMicros].
  destruct (grant_effect _ _ _ _ _ _ _ Hl1 Eg) as (Hl2 & Hs1 & Hb2).
  destruct (redeem_effect _ _ _ _ _ _ _ _ Hl2 Er) as (Hl3 & Hs2 & Hb3 & Hred). cbn [ri_workspaceId ri_userId] in *.
  split; [apply with_db_ok; [done|]; intros i; by rewrite (Hs2 i), (Hs1 i)|]. split; [done|]. split; [exact Hrole|]. split.
  - intros i. cbn [with_db tn_store]. rewrite Hb3, Hb2, Hb1. destruct (jeqb i w); lia.
  - intros g tx g' campaign tx' rid -> ->. split; [done|]. intros env' invite' method'. unfold onUserCreated.
    rewrite (ensure_again toLowerCase (su_provision env') user (with_db db2 t1) w) by exact Hown. cbn [mbind result_bind with_db tn_store].
    destruct (signup_grant_once _ _ _ _ _ _ _ Hl1 Eg) as (_ & -> & Hpos & _). destruct (granted_row _ _ _ _ _ _ _ _ Hl1 Eg) as (x & Hx & _).
    rewrite (grant_replays _ _ _ _ _ x Hpos (redeem_keeps_rows _ _ _ _ _ _ _ _ _ _ Er Hx)). specialize (Hred _ _ _ _ eq_refl).
    destruct (redeem_again toUpperCase sha256_hex secret (su_redeem env') {| ri_userId := nu_id user; ri_workspaceId := w; ri_invite := invite' |} db2 Hred) as (o & -> & Ho).
    eexists. split; [reflexivity|]. cbn. by rewrite Ho.
Qed.

(** C15. Who the gate of an invite-only deployment admits redeems: when the hook in front of
    the insert lets a request through that is not the deployment's own token, the hook
    behind it, at the same instant and for an account that never redeemed, grants the
    invitation's credit, which is more than nothing. *)
Theorem who_is_admitted_redeems `{CallbackUrl} env user context t t' out :
  tenancy_ok t -> ledger_ok (tn_store t) -> tn_names t !! pe_uuid (su_provision env) 0 = None ->
  redemption_possible env (nu_id user) (tn_store t) ->
  isBootstrapSignUp context = false ->
  before_create toUpperCase true context (re_now (su_redeem env)) (tn_store t) = Ok tt ->
  after_create toLowerCase toUpperCase sha256_hex secret sha256 grantMicros env user context t = Ok (t', out) ->
  exists g campaign tx rid, pr_outcome out = granted g campaign tx rid /\ 0 < g.
Proof.
  intros Hok Hl Hf Hp Hboot Hbefore. unfold before_create in Hbefore. unfold after_create.
  destruct (signUpInviteOf context) as [invite|e]; [|done]. rewrite Hboot in Hbefore.
  destruct (admit_sign_up _ _ _ _ _ _) eqn:Ea in Hbefore; [done|]. clear Hbefore.
  destruct (onUserCreated _ _ _ _ _ _ env user invite _ t) as [[t2 out2]|e] eqn:Eo; [|done]. intros [= <- <-].
  unfold onUserCreated in Eo. apply bind_ok in Eo as ([t1 w] & He & H1).
  destruct (provisioned _ _ _ _ _ Hok Hl Hf He) as (Hok1 & Hl1 & _ & Hown & _). cbv beta iota in H1.
  destruct (grantOnSignUp _ _ _ _ (tn_store t1)) as [db1 o1] eqn:Eg. destruct (redeemOnSignUp _ _ _ _ _ db1) as [db2 o2] eqn:Er.
  injection H1 as <- <-. cbn [pr_outcome].
  assert (Hw : is_Some (workspaces db1 !! w)).
  { destruct (grant_effect _ _ _ _ _ _ _ Hl1 Eg) as (_ & Hs & _). rewrite (Hs w), <- (to_rows _ Hok1).
    by destruct (workspace_of_owner _ _ _ Hok1 Hown). }
  destruct (same_beside_ledger_grant _ _ _ _ _ _ _ Eg) as [Hc1 Hr1]. destruct (ensure_frame _ _ _ _ _ _ He) as (Hc0 & Hr0 & Ht0).
  set (input := {| ri_userId := nu_id user; ri_workspaceId := w; ri_invite := invite |}) in *.
  assert (Hp1 : redemption_possible env (nu_id user) (tn_store t1)) by (destruct Hp; split; unfold redemptionOf in *; rewrite ?Hc0, ?Hr0, ?Ht0; assumption).
  eapply (admitted_is_granted toUpperCase sha256_hex secret env input); [|exact Hw|eapply possible_after_grant; [exact Hl1|exact Eg|exact Hp1]|exact Er].
  assert (Hread : admit_sign_up toUpperCase true db1 invite false (re_now (su_redeem env)) = None).
  { rewrite <- Ea. unfold admit_sign_up, refusalFor, lookup_code, find_by_code. by rewrite Hc1, Hc0. }
  exact Hread.
Qed.
End SignUps.

(** The token opens one account: whatever came between its check and its insert, a
    request that is answered with an account presented a text the token's digest
    matches, and the account is the one at the configured address; the only account it
    ever creates is that one, on a deployment it had found empty; and a refusal changes
    nothing.  Of the adapter this takes that an insert adds the account it answers under
    its address, and that rows added later do not change who an address finds. *)
Theorem token_opens_one_account `{AuthAdapter} sha256 options token read later users' answer :
  (forall email us us' u, createUser email us = Some (us', u) -> us' = us ++ [u] /\ findUserByEmail email us' = Some u) ->
  (forall email us more u, findUserByEmail email us = Some u -> findUserByEmail email (us ++ more) = Some u) ->
  bootstrapAdmin sha256 options token read (read ++ later) = (users', answer) ->
  match answer with
  | Ok u => sha256 token = sha256 (bo_token options) /\ findUserByEmail (bo_email options) users' = Some u /\
            (users' = read ++ later \/ read = [] /\ users' = later ++ [u])
  | Err _ => users' = read ++ later
  end.
Proof.
  intros Hcreate Hlater. unfold bootstrapAdmin.
  destruct (bool_decide (length read = 0%nat)) eqn:Ec; cbn [negb andb].
  - apply bool_decide_eq_true, nil_length_inv in Ec as ->. cbn [is_some app]. unfold secretsMatch.
    destruct (bool_decide (sha256 token = _)) eqn:Es; cbn [negb]; [|by intros [= <- <-]]. apply bool_decide_eq_true in Es.
    destruct (createUser _ later) as [[us u]|] eqn:E.
    + intros [= <- <-]. destruct (Hcreate _ _ _ _ E) as [-> Hu]. auto.
    + destruct (findUserByEmail _ later) eqn:Ef; intros [= <- <-]; auto.
  - destruct (findUserByEmail (bo_email options) read) as [u|] eqn:Ef; cbn [is_some negb]; [|by intros [= <- <-]]. unfold secretsMatch.
    destruct (bool_decide (sha256 token = _)) eqn:Es; cbn [negb]; [|by intros [= <- <-]]. apply bool_decide_eq_true in Es.
    intros [= <- <-]. auto.
Qed.

(** ** Examples *)

Definition plain_adapter : AuthAdapter :=
  {| findUserByEmail email users := find_first (fun u => jeqb (bu_email u) email) users;
     createUser email users :=
       match find_first (fun u => jeqb (bu_email u) email) users with
       | Some _ => None
       | None => let u := {| bu_id := jstring_of_Z (Z.of_nat (length users)); bu_email := email; bu_emailVerified := true |} in Some (users ++ [u], u)
       end |}.

Definition operator_account : AuthUser := {| bu_id := "0"; bu_email := "ops@example.com"; bu_emailVerified := true |}.
Definition sample_options : BootstrapAdminOptions := {| bo_token := "secret"; bo_email := "ops@example.com" |}.

(** Two requests found the table empty; the second signs into what the first made. *)
Lemma token_opens_one_account_witness :
  @bootstrapAdmin plain_adapter units sample_options "secret" [] [operator_account] = ([operator_account], Ok operator_account) /\
  @findUserByEmail plain_adapter "ops@example.com" [operator_account] = Some operator_account.
Proof.
  assert (E : @bootstrapAdmin plain_adapter units sample_options "secret" [] ([] ++ [operator_account]) = ([operator_account], Ok operator_account)) by (vm_compute; reflexivity).
  split; [exact E|].
  destruct (@token_opens_one_account plain_adapter units sample_options "secret" [] [operator_account] [operator_account] (Ok operator_account)) as (_ & H & _); [| |exact E|exact H].
  - intros email us us' u. cbn. destruct (find_first _ us) eqn:Ef; [done|]. intros [= <- <-]. split; [done|].
    rewrite find_first_app, Ef. cbn. by rewrite jeqb_refl.
  - intros email us more u Hu. cbn in *. by rewrite find_first_app, Hu.
Defined.

Definition invited_tenancy : Tenancy := with_db (set_invite_codes (<["c1" : jstr := example_code]>) (tn_store empty_tenancy)) empty_tenancy.

Definition sample_sign_up_env : sign_up_env :=
  {| su_provision := sample_env; su_grant := {| env_uuid := "g1"; env_now := 7 |}; su_redeem := example_redeem_env "u1" "r1" |}.

Lemma invited_tenancy_ok : tenancy_ok invited_tenancy /\ ledger_ok (tn_store invited_tenancy).
Proof.
  split; [by apply with_db_ok; [apply empty_tenancy_ok|]|]. split; cbn; [|constructor..]. intros i r Hi. by rewrite lookup_empty in Hi.
Qed.

Definition provisioned_sample : result provisioning_error (Tenancy * Provisioned) :=
  onUserCreated sample_lower (fun s => Js (map upper_unit (units s))) (fun s => s) "s" sample_digest 20 sample_sign_up_env sample_user
    (ri_invite (example_signup "u1")) by_email_code invited_tenancy.

Lemma welcome_names_the_credit_witness :
  match provisioned_sample with
  | Ok (t', out) => wm_startingCreditMicros (pr_welcome out) = 120 /\ balance_in (pr_workspaceId out) (tn_store t') = 120 /\ length (pr_events out) = 2%nat
  | Err _ => False
  end.
Proof.
  destruct provisioned_sample as [[t' out]|e] eqn:E; [|vm_compute in E; discriminate E].
  destruct (welcome_names_the_credit _ _ _ _ _ _ _ _ _ _ _ _ _ (proj1 invited_tenancy_ok) (proj2 invited_tenancy_ok) (lookup_empty _) E) as (_ & _ & _ & Hb & _).
  assert (Ho : match provisioned_sample with Ok (_, out) => (wm_startingCreditMicros (pr_welcome out), length (pr_events out)) = (120, 2%nat) | Err _ => False end)
    by (vm_compute; reflexivity).
  rewrite E in Ho. injection Ho as Hw Hn. split; [exact Hw|]. split; [|exact Hn]. rewrite Hb, jeqb_refl, Hw. reflexivity.
Defined.

Definition invited_request : SignUpRequestContext :=
  {| sq_path := Some "/sign-in/email-otp"%js; sq_body := Some (Json.JObject [(INVITE_BODY_FIELD, Json.JString "abcd-efgh-2345")]);
     sq_query := None; sq_headers := None; sq_requestHeaders := None |}.

Lemma sample_redemption_possible : redemption_possible sample_sign_up_env "u1" (tn_store invited_tenancy).
Proof.
  split; cbn; try done; try by apply not_elem_of_nil.
  - intros id c Hc. apply lookup_insert_Some in Hc as [[<- <-]|[_ Hc]]; [done|]. by rewrite lookup_empty in Hc.
  - intros id. apply not_elem_of_nil.
Qed.

Lemma who_is_admitted_redeems_witness :
  exists t' out, @after_create sample_lower (fun s => Js (map upper_unit (units s))) (fun s => s) "s" sample_digest 20 no_callbacks sample_sign_up_env sample_user
      (Some invited_request) invited_tenancy = Ok (t', out) /\
    exists g campaign tx rid, pr_outcome out = granted g campaign tx rid /\ 0 < g.
Proof.
  destruct (@after_create sample_lower (fun s => Js (map upper_unit (units s))) (fun s => s) "s" sample_digest 20 no_callbacks sample_sign_up_env sample_user
      (Some invited_request) invited_tenancy) as [[t' out]|e] eqn:E; [|vm_compute in E; discriminate E].
  exists t', out. split; [reflexivity|].
  apply (@who_is_admitted_redeems sample_lower (fun s => Js (map upper_unit (units s))) (fun s => s) "s" sample_digest 20 no_callbacks sample_sign_up_env
    sample_user (Some invited_request) invited_tenancy t' out (proj1 invited_tenancy_ok) (proj2 invited_tenancy_ok) (lookup_empty _) sample_redemption_possible);
    [reflexivity|vm_compute; reflexivity|exact E].
Defined.
