(* ===== verification/Der.v ===== *)
(** * DER by hand

    [libs/attestation/src/crypto-secp256k1.ts]: the two places the verifier reads
    DER itself, the public point of a key and the signed part of a certificate.
    A byte is an [N] below 256; [buf[i]] out of range is [undefined]; [<<] and
    [|] work on 32-bit integers, wrap-around written out. *)

From S2P Require Import Prelude JsString.

(** [(z | 0)]: two's complement in 32 bits. *)
Definition to_int32 (z : Z) : Z :=
  let m := z mod 2 ^ 32 in if m <? 2 ^ 31 then m else m - 2 ^ 32.

(** [a.slice(start, end)] on an array of bytes; a negative end counts from the back. *)
Definition slice (a : list N) (start end_ : Z) : list N :=
  let len := Z.of_nat (length a) in
  let from := Z.min start len in
  let to := if end_ <? 0 then Z.max (len + end_) 0 else Z.min end_ len in
  take (Z.to_nat (to - from)) (drop (Z.to_nat from) a).

(** [a[i]] for [i >= 0]. *)
Definition byte_at (a : list N) (i : Z) : option N := a !! Z.to_nat i.

Definition SPKI_BIT_STRING_TAG : N := 3.
Definition SPKI_BIT_STRING_LEN : N := 66.
Definition SPKI_UNUSED_BITS : N := 0.
Definition UNCOMPRESSED_POINT_TAG : N := 4.
Definition UNCOMPRESSED_POINT_LEN : Z := 65.

(** [a[i] === b] *)
Definition byte_is (a : list N) (i : Z) (b : N) : bool :=
  match byte_at a i with Some c => (c =? b)%N | None => false end.

Definition point_at (spkiDer : list N) (i : Z) : bool :=
  byte_is spkiDer i SPKI_BIT_STRING_TAG && byte_is spkiDer (i + 1) SPKI_BIT_STRING_LEN &&
  byte_is spkiDer (i + 2) SPKI_UNUSED_BITS && byte_is spkiDer (i + 3) UNCOMPRESSED_POINT_TAG.

(** The loop; [fuel] bounds its turns. *)
Fixpoint find_point (fuel : nat) (spkiDer : list N) (i : Z) : result jstr (list N) :=
  match fuel with
  | O => Err "SPKI does not contain an uncompressed secp256k1 public point"
  | S fuel =>
      if i + 4 + UNCOMPRESSED_POINT_LEN <=? Z.of_nat (length spkiDer) + 1 then
        if point_at spkiDer i then Ok (slice spkiDer (i + 3) (i + 3 + UNCOMPRESSED_POINT_LEN))
        else find_point fuel spkiDer (i + 1)
      else Err "SPKI does not contain an uncompressed secp256k1 public point"
  end.

(** One turn per byte is more than enough. *)
Definition extractSecp256k1PublicPoint (spkiDer : list N) : result jstr (list N) :=
  find_point (length spkiDer) spkiDer 0.

(** [length] and [headerLen]. *)
Record der_length := { dl_length : Z; dl_headerLen : Z }.

(** [length = (length << 8) | b], [numBytes] times. *)
Fixpoint read_length_bytes (numBytes : nat) (buf : list N) (offset acc : Z) : result jstr Z :=
  match numBytes with
  | O => Ok acc
  | S numBytes =>
      match byte_at buf offset with
      | None => Err "truncated DER length"
      | Some b => read_length_bytes numBytes buf (offset + 1) (to_int32 (Z.lor (to_int32 (Z.shiftl acc 8)) (Z.of_N b)))
      end
  end.

Definition readDerLength (buf : list N) (offset : Z) : result jstr der_length :=
  match byte_at buf offset with
  | None => Err "truncated DER length"
  | Some first =>
      if (first <? 128)%N then Ok {| dl_length := Z.of_N first; dl_headerLen := 1 |}
      else
        let numBytes := N.land first 127 in
        if (numBytes =? 0)%N || (4 <? numBytes)%N then
          Err ("unsupported DER length form (" +++ jstring_of_Z (Z.of_N numBytes) +++ " bytes)")
        else
          len ← read_length_bytes (N.to_nat numBytes) buf (offset + 1) 0;
          Ok {| dl_length := len; dl_headerLen := 1 + Z.of_N numBytes |}
  end.

Definition extractTbsCertificate (certDer : list N) : result jstr (list N) :=
  if negb (byte_is certDer 0 48) then Err "certificate DER does not start with a SEQUENCE tag"
  else
    outer ← readDerLength certDer 1;
    let tbsStart := 1 + dl_headerLen outer in
    if negb (byte_is certDer tbsStart 48) then Err "TBSCertificate is not a SEQUENCE"
    else
      tbs ← readDerLength certDer (tbsStart + 1);
      let tbsEnd := tbsStart + 1 + dl_headerLen tbs + dl_length tbs in
      if Z.of_nat (length certDer) <? tbsEnd then Err "TBSCertificate extends beyond certificate bounds"
      else Ok (slice certDer tbsStart tbsEnd).

(** ** Lemmas *)

Lemma to_int32_small z : 0 <= z < 2 ^ 31 -> to_int32 z = z.
Proof. intros H. unfold to_int32. rewrite Z.mod_small by lia. by rewrite (proj2 (Z.ltb_lt _ _)) by lia. Qed.

Lemma to_int32_negative z : 2 ^ 31 <= z < 2 ^ 32 -> to_int32 z = z - 2 ^ 32.
Proof. intros H. unfold to_int32. rewrite Z.mod_small by lia. by rewrite (proj2 (Z.ltb_ge _ _)) by lia. Qed.

Lemma to_int32_range z : - 2 ^ 31 <= z < 0 -> to_int32 z = z.
Proof.
  intros H. unfold to_int32. replace (z mod 2 ^ 32) with (z + 2 ^ 32).
  - rewrite (proj2 (Z.ltb_ge _ _)) by lia. lia.
  - apply (Z.mod_unique_pos _ _ (-1)); lia.
Qed.

(** A byte below a multiple of 256 is added by [|]. *)
Lemma lor_byte k b : 0 <= b < 256 -> Z.lor (k * 256) b = k * 256 + b.
Proof.
  intros Hb. change 256 with (2 ^ 8). rewrite <- Z.shiftl_mul_pow2 by lia.
  assert (Hd : Z.land (Z.shiftl k 8) b = 0).
  { apply Z.bits_inj'. intros n Hn. rewrite Z.land_spec, Z.bits_0.
    destruct (Z.ltb_spec n 8).
    - by rewrite Z.shiftl_spec_low.
    - replace b with (b mod 2 ^ 8) by (apply Z.mod_small; lia).
      rewrite Z.mod_pow2_bits_high by lia. apply andb_false_r. }
  by rewrite <- Z.lxor_lor, <- Z.add_nocarry_lxor.
Qed.

(** One turn of the loop of [readDerLength]. *)
Definition push_byte (acc : Z) (b : N) : Z := to_int32 (Z.lor (to_int32 (Z.shiftl acc 8)) (Z.of_N b)).

Lemma push_byte_small acc b : 0 <= acc -> (b < 256)%N -> acc * 256 + Z.of_N b < 2 ^ 31 ->
  push_byte acc b = acc * 256 + Z.of_N b.
Proof.
  intros Ha Hb H. unfold push_byte. rewrite Z.shiftl_mul_pow2 by lia. change (2 ^ 8) with 256.
  rewrite (to_int32_small (acc * 256)), lor_byte by lia. apply to_int32_small. lia.
Qed.

Lemma push_byte_overflow acc b : (b < 256)%N -> 2 ^ 23 <= acc < 2 ^ 24 ->
  push_byte acc b = acc * 256 + Z.of_N b - 2 ^ 32.
Proof.
  intros Hb H. unfold push_byte. rewrite Z.shiftl_mul_pow2 by lia. change (2 ^ 8) with 256.
  rewrite (to_int32_negative (acc * 256)) by lia.
  replace (acc * 256 - 2 ^ 32) with ((acc - 2 ^ 24) * 256) by lia.
  rewrite lor_byte by lia. rewrite to_int32_range by lia. lia.
Qed.

Lemma byte_at_app pre l k : byte_at (pre ++ l) (Z.of_nat (length pre) + Z.of_nat k) = l !! k.
Proof.
  unfold byte_at. replace (Z.to_nat _) with (length pre + k)%nat by lia.
  by rewrite lookup_app_r, Nat.add_comm, Nat.add_sub by lia.
Qed.

Lemma read_length_bytes_app n pre l k acc :
  (k + n <= length l)%nat ->
  read_length_bytes n (pre ++ l) (Z.of_nat (length pre) + Z.of_nat k) acc =
  Ok (foldl push_byte acc (take n (drop k l))).
Proof.
  revert k acc. induction n as [|n IH]; intros k acc Hk; [done|]. cbn [read_length_bytes].
  rewrite byte_at_app. destruct (l !! k) as [b|] eqn:E; [|apply lookup_ge_None in E; lia].
  rewrite (drop_S _ _ _ E). cbn [take foldl]. rewrite <- (IH (S k)) by lia. f_equal. lia.
Qed.

(** The length bytes of DER, the shortest definite form. *)
Definition der_length_bytes (n : Z) : list N :=
  let b k := Z.to_N (n / 2 ^ k mod 256) in
  if n <? 128 then [Z.to_N n]
  else if n <? 2 ^ 8 then [129%N; b 0]
  else if n <? 2 ^ 16 then [130%N; b 8; b 0]
  else if n <? 2 ^ 24 then [131%N; b 16; b 8; b 0]
  else [132%N; b 24; b 16; b 8; b 0].

(** A TLV with the tag of a SEQUENCE. *)
Definition der_sequence (content : list N) : list N :=
  48%N :: der_length_bytes (Z.of_nat (length content)) ++ content.

Definition big_endian (bytes : list N) : Z := foldl (fun acc b => acc * 256 + Z.of_N b) 0 bytes.

Lemma big_endian_snoc bytes b : big_endian (bytes ++ [b]) = big_endian bytes * 256 + Z.of_N b.
Proof. unfold big_endian. by rewrite foldl_app. Qed.

Lemma push_bytes bytes : Forall (fun b => (b < 256)%N) bytes -> big_endian bytes < 2 ^ 31 ->
  foldl push_byte 0 bytes = big_endian bytes /\ 0 <= big_endian bytes.
Proof.
  induction bytes as [|b bytes IH] using rev_ind; intros Hb H; [by cbn|].
  rewrite big_endian_snoc in *. apply Forall_app in Hb as [Hbs [Hb _]%Forall_cons].
  destruct (Z.ltb_spec (big_endian bytes) (2 ^ 31)) as [Hl|Hl].
  - destruct (IH Hbs Hl) as [IH1 IH2]. rewrite foldl_app. cbn [foldl]. rewrite IH1, push_byte_small by lia. lia.
  - lia.
Qed.

Lemma readDerLength_encoded pre post n : 0 <= n < 2 ^ 31 ->
  readDerLength (pre ++ der_length_bytes n ++ post) (Z.of_nat (length pre)) =
  Ok {| dl_length := n; dl_headerLen := Z.of_nat (length (der_length_bytes n)) |}.
Proof.
  intros Hn. unfold readDerLength.
  replace (Z.of_nat (length pre)) with (Z.of_nat (length pre) + Z.of_nat 0) at 1 by lia.
  replace (Z.of_nat (length pre) + 1) with (Z.of_nat (length pre) + Z.of_nat 1) by lia.
  rewrite byte_at_app. unfold der_length_bytes.
  destruct (Z.ltb_spec n 128).
  { cbn [app lookup list_lookup]. rewrite (proj2 (N.ltb_lt _ _)) by lia. cbn [length]. f_equal. f_equal; lia. }
  destruct (Z.ltb_spec n (2 ^ 8)); [|destruct (Z.ltb_spec n (2 ^ 16)); [|destruct (Z.ltb_spec n (2 ^ 24))]];
    cbn [app lookup list_lookup]; change (_ <? 128)%N with false; cbv iota zeta;
    match goal with |- context [N.land ?a 127] => let v := eval vm_compute in (N.land a 127) in change (N.land a 127) with v end;
    match goal with |- context [(?a =? 0)%N || (4 <? ?a)%N] => change ((a =? 0)%N || (4 <? a)%N) with false end;
    cbv iota; rewrite read_length_bytes_app by (cbn; lia); cbn [mbind result_bind drop]; 
    match goal with |- context [take ?k (_ :: _)] => let v := eval vm_compute in k in change k with v end; cbn [take];
    rewrite ?firstn_O;
    match goal with |- context [foldl push_byte 0 ?l] =>
      assert (Hl : Forall (fun b => (b < 256)%N) l);
        [repeat apply Forall_cons_2; [..|apply Forall_nil_2]; Z.to_euclidean_division_equations; lia|];
      assert (Hv : big_endian l = n);
        [unfold big_endian; cbn [foldl]; rewrite ?Z2N.id by (apply Z.mod_pos_bound; lia);
         Z.to_euclidean_division_equations; lia|];
      rewrite (proj1 (push_bytes l Hl ltac:(lia))), Hv
    end; reflexivity.
Qed.

Lemma byte_is_app pre b post c : byte_is (pre ++ b :: post) (Z.of_nat (length pre)) c = (b =? c)%N.
Proof.
  unfold byte_is. replace (Z.of_nat (length pre)) with (Z.of_nat (length pre) + Z.of_nat 0) by lia.
  by rewrite byte_at_app.
Qed.

Lemma slice_middle pre l post :
  slice (pre ++ l ++ post) (Z.of_nat (length pre)) (Z.of_nat (length pre) + Z.of_nat (length l)) = l.
Proof.
  unfold slice. rewrite !length_app, (proj2 (Z.ltb_ge _ 0)), !Z.min_l by lia.
  replace (Z.to_nat (Z.of_nat (length pre))) with (length pre) by lia. rewrite drop_app_length.
  replace (Z.to_nat _) with (length l) by lia. apply take_app_length.
Qed.

Lemma byte_at_take cut l i b : byte_at (take cut l) i = Some b -> byte_at l i = Some b.
Proof. unfold byte_at. intros H. by apply lookup_take_Some in H as [H _]. Qed.

Lemma byte_is_take cut l i b : byte_is (take cut l) i b = true -> byte_is l i b = true.
Proof.
  unfold byte_is. destruct (byte_at (take cut l) i) eqn:E; [|done]. by rewrite (byte_at_take _ _ _ _ E).
Qed.

Lemma read_length_bytes_take n cut l offset acc r :
  read_length_bytes n (take cut l) offset acc = Ok r -> read_length_bytes n l offset acc = Ok r.
Proof.
  revert offset acc. induction n as [|n IH]; intros offset acc; [done|]. cbn [read_length_bytes].
  destruct (byte_at (take cut l) offset) eqn:E; [|done]. rewrite (byte_at_take _ _ _ _ E). apply IH.
Qed.

Lemma readDerLength_take cut l offset r : readDerLength (take cut l) offset = Ok r -> readDerLength l offset = Ok r.
Proof.
  unfold readDerLength. destruct (byte_at (take cut l) offset) as [first|] eqn:E; [|done].
  rewrite (byte_at_take _ _ _ _ E). destruct (first <? 128)%N; [done|]. cbv zeta. destruct (_ || _); [done|].
  rewrite !bind_ok. intros (len & Hlen%read_length_bytes_take & Hr). by exists len.
Qed.

(** What the reader has read when it answers. *)
Definition tbs_read (certDer : list N) (outer tbs : der_length) : Prop :=
  byte_is certDer 0 48 = true /\ readDerLength certDer 1 = Ok outer /\
  byte_is certDer (1 + dl_headerLen outer) 48 = true /\
  readDerLength certDer (1 + dl_headerLen outer + 1) = Ok tbs.

Definition tbs_end (outer tbs : der_length) : Z := 1 + dl_headerLen outer + 1 + dl_headerLen tbs + dl_length tbs.

Lemma extractTbsCertificate_ok certDer bytes :
  extractTbsCertificate certDer = Ok bytes <->
  exists outer tbs, tbs_read certDer outer tbs /\ tbs_end outer tbs <= Z.of_nat (length certDer) /\
    bytes = slice certDer (1 + dl_headerLen outer) (tbs_end outer tbs).
Proof.
  unfold extractTbsCertificate, tbs_read, tbs_end. split.
  - destruct (byte_is certDer 0 48); [|done]. cbn [negb]. intros (outer & Ho & H)%bind_ok. cbv zeta in H.
    destruct (byte_is certDer _ 48) eqn:Es; [|done]. cbn [negb] in H. apply bind_ok in H as (tbs & Ht & H).
    destruct (Z.ltb_spec (Z.of_nat (length certDer)) (1 + dl_headerLen outer + 1 + dl_headerLen tbs + dl_length tbs)); [done|].
    injection H as <-. by exists outer, tbs.
  - intros (outer & tbs & (H0 & Ho & Hs & Ht) & Hend & ->). rewrite H0. cbn [negb]. rewrite Ho.
    cbn [mbind result_bind]. cbv zeta. rewrite Hs. cbn [negb]. rewrite Ht. cbn [mbind result_bind]. cbv zeta.
    by rewrite (proj2 (Z.ltb_ge _ _)) by done.
Qed.

Lemma tbs_read_det certDer outer tbs outer' tbs' :
  tbs_read certDer outer tbs -> tbs_read certDer outer' tbs' -> outer' = outer /\ tbs' = tbs.
Proof.
  intros (_ & Ho & _ & Ht) (_ & Ho' & _ & Ht'). rewrite Ho in Ho'. injection Ho' as <-.
  rewrite Ht in Ht'. by injection Ht' as <-.
Qed.

Lemma tbs_read_take cut certDer outer tbs : tbs_read (take cut certDer) outer tbs -> tbs_read certDer outer tbs.
Proof.
  intros (H0 & Ho & Hs & Ht).
  split; [|split; [|split]]; eauto using byte_is_take, readDerLength_take.
Qed.

(** The reads of a certificate in DER. *)
Lemma tbs_read_encoded content rest :
  let tbs := der_sequence content in
  let certDer := der_sequence (tbs ++ rest) in
  let outer_len := Z.of_nat (length (tbs ++ rest)) in
  let tbs_len := Z.of_nat (length content) in
  outer_len < 2 ^ 31 ->
  tbs_read certDer
    {| dl_length := outer_len; dl_headerLen := Z.of_nat (length (der_length_bytes outer_len)) |}
    {| dl_length := tbs_len; dl_headerLen := Z.of_nat (length (der_length_bytes tbs_len)) |}.
Proof.
  intros tbs certDer outer_len tbs_len Hlen.
  set (pre := 48%N :: der_length_bytes outer_len).
  assert (Hc : certDer = pre ++ 48%N :: der_length_bytes tbs_len ++ content ++ rest).
  { unfold certDer, der_sequence, pre. fold outer_len. cbn [app]. unfold tbs, der_sequence. fold tbs_len.
    cbn [app]. by rewrite <- app_assoc. }
  assert (Hpre : Z.of_nat (length pre) = 1 + Z.of_nat (length (der_length_bytes outer_len))) by (cbn [pre length]; lia).
  unfold tbs_read. cbn [dl_headerLen]. rewrite <- Hpre. split_and!.
  - done.
  - apply (readDerLength_encoded [48%N] (tbs ++ rest)). split; [unfold outer_len; lia|done].
  - rewrite Hc. by rewrite byte_is_app.
  - rewrite Hc. replace (pre ++ 48%N :: _) with ((pre ++ [48%N]) ++ der_length_bytes tbs_len ++ content ++ rest)
      by (by rewrite <- app_assoc).
    replace (Z.of_nat (length pre) + 1) with (Z.of_nat (length (pre ++ [48%N]))) by (rewrite length_app; cbn; lia).
    apply readDerLength_encoded. unfold tbs_len. split; [lia|].
    unfold outer_len, tbs, der_sequence in Hlen. rewrite !length_app in Hlen. cbn [length] in Hlen.
    rewrite length_app in Hlen. lia.
Qed.

(** ** Theorems *)

(** The signed part of a certificate is found: in a certificate whose outer
    SEQUENCE starts with a SEQUENCE, in the shortest definite form DER requires
    and of less than 2 GiB, the reader returns that inner TLV, header and all,
    whatever follows it; and a certificate cut short before its end is refused. *)
Theorem extractTbsCertificate_der content rest :
  let tbs := der_sequence content in
  let certDer := der_sequence (tbs ++ rest) in
  Z.of_nat (length (tbs ++ rest)) < 2 ^ 31 ->
  extractTbsCertificate certDer = Ok tbs /\
  forall cut, (cut < length certDer - length rest)%nat -> is_ok (extractTbsCertificate (take cut certDer)) = false.
Proof.
  intros tbs certDer Hlen. pose proof (tbs_read_encoded content rest Hlen) as Hread. cbv zeta in Hread.
  fold tbs certDer in Hread. set (n := Z.of_nat (length (tbs ++ rest))) in *.
  set (pre := 48%N :: der_length_bytes n).
  assert (Hc : certDer = pre ++ tbs ++ rest) by done.
  assert (Hpre : 1 + Z.of_nat (length (der_length_bytes n)) = Z.of_nat (length pre)) by (cbn [pre length]; lia).
  assert (Hend : forall o t, tbs_read certDer o t ->
    1 + dl_headerLen o = Z.of_nat (length pre) /\ tbs_end o t = Z.of_nat (length pre) + Z.of_nat (length tbs)).
  { intros o t H. destruct (tbs_read_det _ _ _ _ _ Hread H) as [-> ->]. unfold tbs_end. cbn [dl_headerLen dl_length].
    split; [done|]. unfold tbs, der_sequence. cbn [length]. rewrite length_app. lia. }
  split.
  - apply extractTbsCertificate_ok. eexists _, _. split; [exact Hread|].
    destruct (Hend _ _ Hread) as [-> ->]. rewrite Hc, slice_middle, !length_app. split; [lia|done].
  - intros cut Hcut. destruct (extractTbsCertificate _) as [bytes|] eqn:E; [|done].
    apply extractTbsCertificate_ok in E as (o & t & Hr%tbs_read_take & Hle & _).
    destruct (Hend _ _ Hr) as [_ Hend']. rewrite Hend', length_take in Hle. rewrite Hc, !length_app in Hcut. lia.
Qed.

Lemma extractTbsCertificate_der_witness :
  Z.of_nat (length (der_sequence [1; 2; 3]%N ++ [9; 9]%N)) < 2 ^ 31 /\
  extractTbsCertificate [48; 7; 48; 3; 1; 2; 3; 9; 9]%N = Ok [48; 3; 1; 2; 3]%N.
Proof.
  split; [vm_compute; reflexivity|]. apply (extractTbsCertificate_der [1; 2; 3]%N [9; 9]%N). vm_compute. reflexivity.
Defined.

(** The guard on the certificate's bounds does not see a four-byte length of
    2 GiB or more: [length << 8] wraps to a negative number, so the end it is
    compared by lies before the start, and bytes are returned for a signed part
    the certificate cannot hold. *)
Theorem tbs_length_overflows outer b1 b2 b3 b4 rest :
  (outer < 128)%N -> (128 <= b1 < 256)%N -> (b2 < 256)%N -> (b3 < 256)%N -> (b4 < 256)%N ->
  let certDer := [48; outer; 48; 132; b1; b2; b3; b4]%N ++ rest in
  Z.of_nat (length certDer) < 2 ^ 31 ->
  Z.of_nat (length certDer) < big_endian [b1; b2; b3; b4] /\ is_ok (extractTbsCertificate certDer) = true.
Proof.
  intros Ho H1 H2 H3 H4 certDer Hlen. split; [unfold big_endian; cbn [foldl]; lia|].
  assert (Hv : foldl push_byte 0 [b1; b2; b3; b4] = big_endian [b1; b2; b3; b4] - 2 ^ 32).
  { change [b1; b2; b3; b4] with ([b1; b2; b3] ++ [b4]). rewrite foldl_app, big_endian_snoc. cbn [foldl].
    destruct (push_bytes [b1; b2; b3]) as [E _];
      [repeat apply Forall_cons_2; [lia..|apply Forall_nil_2]|unfold big_endian; cbn [foldl]; lia|].
    cbn [foldl] in E. rewrite E. apply push_byte_overflow; [done|]. unfold big_endian; cbn [foldl]. lia. }
  destruct (extractTbsCertificate certDer) as [|m] eqn:E; [done|]. exfalso.
  set (o := {| dl_length := Z.of_N outer; dl_headerLen := 1 |}).
  set (t := {| dl_length := big_endian [b1; b2; b3; b4] - 2 ^ 32; dl_headerLen := 1 + 4 |}).
  assert (Hok : extractTbsCertificate certDer = Ok (slice certDer (1 + 1) (tbs_end o t))); [|congruence].
  apply extractTbsCertificate_ok. exists o, t. split; [|split; [|reflexivity]].
  - split; [done|]. split; [|split; [done|]].
    + unfold readDerLength. change (byte_at certDer 1) with (Some outer). cbv iota.
      by rewrite (proj2 (N.ltb_lt _ _)) by done.
    + unfold readDerLength. change (1 + dl_headerLen o + 1) with (1 + 1 + 1). change (byte_at certDer (1 + 1 + 1)) with (Some 132%N).
      change (132 <? 128)%N with false. cbv iota zeta.
      change ((N.land 132 127 =? 0)%N || (4 <? N.land 132 127)%N) with false. cbv iota.
      change (N.to_nat (N.land 132 127)) with 4%nat.
      pose proof (read_length_bytes_app 4 [48; outer; 48; 132]%N ([b1; b2; b3; b4] ++ rest) 0 0 ltac:(cbn; lia)) as Hr.
      change (1 + 1 + 1 + 1) with (Z.of_nat (length [48; outer; 48; 132]%N) + Z.of_nat 0).
      change certDer with ([48; outer; 48; 132]%N ++ [b1; b2; b3; b4] ++ rest). rewrite Hr. cbn [mbind result_bind].
      change (take 4 (drop 0 ([b1; b2; b3; b4] ++ rest))) with [b1; b2; b3; b4]. by rewrite Hv.
  - assert (8 <= Z.of_nat (length certDer)) by (unfold certDer; rewrite length_app; cbn [length]; lia).
    unfold tbs_end, o, t, big_endian. cbn [dl_headerLen dl_length foldl]. lia.
Qed.

Lemma tbs_length_overflows_witness :
  9 < big_endian [128; 0; 0; 1]%N /\
  extractTbsCertificate [48; 7; 48; 132; 128; 0; 0; 1; 5]%N = Ok [] /\
  is_ok (extractTbsCertificate [48; 7; 48; 132; 128; 0; 0; 1; 5]%N) = true.
Proof.
  destruct (tbs_length_overflows 7 128 0 0 1 [5%N]) as [H1 H2]; try (vm_compute; reflexivity).
  - split; [discriminate|reflexivity].
  - split; [exact H1|]. split; [vm_compute; reflexivity|exact H2].
Defined.
