(* ===== verification/X509.v ===== *)
(** * Certificate chains

    [libs/attestation/src/cert-chain.ts].  The X.509 parser and the signature
    check are the library's ([@peculiar/x509]) and the curve's
    ([@noble/curves]): a class states the attributes of a parsed certificate the
    code reads, and everything below is proved for every instance of it. *)

From S2P Require Import Prelude JsString Der EvidenceDigest.

Record BasicConstraints := { ca : bool; pathLength : option Z }.

(** What the code reads off a parsed certificate.  A constructor or a call that
    throws answers with the message of its error. *)
Class X509Library := {
  cert : Type;
  X509Certificate : jstr -> result jstr cert;
  subject : cert -> jstr;
  issuer : cert -> jstr;
  notBefore : cert -> Z;
  notAfter : cert -> Z;
  rawData : cert -> list N;
  signature : cert -> list N;
  publicKey_rawData : cert -> list N;
  publicKey_algorithm : cert -> jstr * option jstr;
  getBasicConstraints : cert -> option BasicConstraints;
  getKeyUsages : cert -> option N;
  getExtension : cert -> jstr -> option (list N);
  keyCertSign : N;
  (** [child.verify({ publicKey: parent.publicKey, signatureOnly: true })] *)
  verify_signature : cert -> cert -> result jstr bool
}.

(** The hashes and the curve, from the platform and [@noble]. *)
Class Crypto := {
  sha256 : list N -> list N;
  secp256k1_verify : bool -> list N -> list N -> list N -> result jstr bool
}.

Section Chain.
Context {L : X509Library} {C : Crypto}.

Inductive chain_error := CertChainError (message : jstr).

Record ParsedChain := {
  pc_certs : list cert;
  pc_leaf : cert;
  pc_root : cert;
  pc_rootFingerprint : jstr
}.

(** A text in double quotes. *)
Definition quoted (s : jstr) : jstr := Js [34%N] +++ s +++ Js [34%N].

Definition isSecp256k1Cert (c : cert) : bool :=
  let '(name, namedCurve) := publicKey_algorithm c in
  jeqb name "ECDSA" && match namedCurve with Some curve => jeqb curve "K-256" | None => false end.

(** [true] is the compact form of a signature, [false] the DER one. *)
Definition verifySecp256k1 (signatureBytes signedBytes spkiDer : list N) : result jstr bool :=
  publicPoint ← extractSecp256k1PublicPoint spkiDer;
  secp256k1_verify (length signatureBytes =? 64)%nat signatureBytes (sha256 signedBytes) publicPoint.

Fixpoint parse_from (i : Z) (pems : list jstr) : result chain_error (list cert) :=
  match pems with
  | [] => Ok []
  | pem :: pems =>
      match X509Certificate pem with
      | Err message =>
          Err (CertChainError ("failed to parse certificate at index " +++ jstring_of_Z i +++ ": " +++ message))
      | Ok c => cs ← parse_from (i + 1) pems; Ok (c :: cs)
      end
  end.

Definition parseCertificates (pems : list jstr) : result chain_error (list cert) :=
  match pems with
  | [] => Err (CertChainError "certChain must contain at least one certificate")
  | _ => parse_from 0 pems
  end.

Definition verifyChildAgainstParent (child parent : cert) : result chain_error bool :=
  if isSecp256k1Cert parent then
    match tbs ← extractTbsCertificate (rawData child);
          verifySecp256k1 (signature child) tbs (publicKey_rawData parent) with
    | Ok b => Ok b
    | Err message => Err (CertChainError ("secp256k1 verification raised: " +++ message))
    end
  else
    match verify_signature child parent with
    | Ok b => Ok b
    | Err message => Err (CertChainError ("signature verification raised: " +++ message))
    end.

Definition not_a_ca (i : Z) (c : cert) : jstr :=
  "certificate at index " +++ jstring_of_Z i +++ " (" +++ quoted (subject c) +++
  ") is not a CA (BasicConstraints.cA missing or false)".

Definition path_exceeded (n : Z) (c : cert) (depth : Z) : jstr :=
  "pathLenConstraint=" +++ jstring_of_Z n +++ " on " +++ quoted (subject c) +++
  " is exceeded by chain depth " +++ jstring_of_Z depth.

Definition no_cert_sign (i : Z) (c : cert) : jstr :=
  "certificate at index " +++ jstring_of_Z i +++ " (" +++ quoted (subject c) +++
  ") does not assert keyCertSign in KeyUsage".

(** One turn of the loop of [assertIssuerHygiene]. *)
Definition check_issuer (i : Z) (issuer : cert) : result chain_error unit :=
  match getBasicConstraints issuer with
  | Some bc =>
      if negb (ca bc) then Err (CertChainError (not_a_ca i issuer))
      else
        match pathLength bc with
        | Some n => if n <? i - 1 then Err (CertChainError (path_exceeded n issuer (i - 1))) else Ok tt
        | None => Ok tt
        end ≫= fun _ =>
        match getKeyUsages issuer with
        | Some usages =>
            if (N.land usages keyCertSign =? 0)%N then Err (CertChainError (no_cert_sign i issuer)) else Ok tt
        | None => Ok tt
        end
  | None => Err (CertChainError (not_a_ca i issuer))
  end.

Fixpoint check_issuers (i : Z) (certs : list cert) : result chain_error unit :=
  match certs with
  | [] => Ok tt
  | c :: certs => check_issuer i c ≫= fun _ => check_issuers (i + 1) certs
  end.

(** Every certificate but the first. *)
Definition assertIssuerHygiene (certs : list cert) : result chain_error unit := check_issuers 1 (tail certs).

Fixpoint check_validity (now : Z) (certs : list cert) : result chain_error unit :=
  match certs with
  | [] => Ok tt
  | c :: certs =>
      if now <? notBefore c then
        Err (CertChainError ("certificate " +++ quoted (subject c) +++ " is not yet valid"))
      else if notAfter c <? now then
        Err (CertChainError ("certificate " +++ quoted (subject c) +++ " has expired"))
      else check_validity now certs
  end.

Definition check_link (i : Z) (child parent : cert) : result chain_error unit :=
  if negb (jeqb (issuer child) (subject parent)) then
    Err (CertChainError ("certificate at index " +++ jstring_of_Z i +++ " (" +++ quoted (subject child) +++
                         ") issuer does not match next certificate's subject"))
  else
    ok ← verifyChildAgainstParent child parent;
    if ok : bool then Ok tt
    else Err (CertChainError ("signature verification failed for certificate at index " +++ jstring_of_Z i +++
                              " (" +++ quoted (subject child) +++ ")")).

Fixpoint check_links (i : Z) (certs : list cert) : result chain_error unit :=
  match certs with
  | child :: ((parent :: _) as rest) => check_link i child parent ≫= fun _ => check_links (i + 1) rest
  | _ => Ok tt
  end.

Definition check_root (root : cert) : result chain_error unit :=
  if negb (jeqb (issuer root) (subject root)) then
    Err (CertChainError "chain does not terminate at a self-signed root certificate")
  else
    ok ← verifyChildAgainstParent root root;
    if ok : bool then Ok tt else Err (CertChainError "root self-signature is invalid").

Definition fingerprint_of (c : cert) : jstr := sha256Fingerprint sha256 (rawData c).

(** [now] is [options.now ?? new Date()]. *)
Definition validateChain (pems : list jstr) (now : Z) : result chain_error ParsedChain :=
  certs ← parseCertificates pems;
  match certs with
  | [] => Err (CertChainError "certChain must contain at least one certificate")
  | leaf :: rest =>
      _ ← check_validity now certs;
      _ ← assertIssuerHygiene certs;
      _ ← check_links 0 certs;
      let root := List.last rest leaf in
      _ ← check_root root;
      Ok {| pc_certs := certs; pc_leaf := leaf; pc_root := root; pc_rootFingerprint := fingerprint_of root |}
  end.

Definition rootFingerprintFromPem (pem : jstr) : result jstr jstr :=
  c ← X509Certificate pem; Ok (fingerprint_of c).
End Chain.

(** ** What a valid chain is *)

Section ChainSpec.
Context {L : X509Library} {C : Crypto}.

(** A signature that checks under the key of [parent]. *)
Definition signed_by (parent child : cert) : Prop := verifyChildAgainstParent child parent = Ok true.

(** The [i]-th certificate from the leaf may issue. *)
Definition may_issue (i : nat) (c : cert) : Prop :=
  exists bc, getBasicConstraints c = Some bc /\ ca bc = true /\
    (forall n, pathLength bc = Some n -> Z.of_nat i - 1 <= n) /\
    (forall usages, getKeyUsages c = Some usages -> N.land usages keyCertSign <> 0%N).

Record chain_valid (now : Z) (certs : list cert) : Prop := {
  cv_dates : Forall (fun c => notBefore c <= now <= notAfter c) certs;
  cv_issuers : forall i c, certs !! i = Some c -> (0 < i)%nat -> may_issue i c;
  cv_links : forall i child parent, certs !! i = Some child -> certs !! S i = Some parent ->
    issuer child = subject parent /\ signed_by parent child;
  cv_root : forall root, last certs = Some root -> issuer root = subject root /\ signed_by root root
}.

Lemma throw_ok {E A} (b : bool) (e : E) (x : result E A) y :
  (if b then Err e else x) = Ok y <-> b = false /\ x = Ok y.
Proof. destruct b; split; [done|by intros []|done|by intros []]. Qed.

Lemma bool_ok {E} (b : bool) (e : E) u : (if b then Ok tt else Err e) = Ok u <-> b = true.
Proof. destruct b, u; split; done. Qed.

Lemma parse_from_ok i pems certs :
  parse_from i pems = Ok certs <-> Forall2 (fun pem c => X509Certificate pem = Ok c) pems certs.
Proof.
  revert i certs. induction pems as [|pem pems IH]; intros i certs; cbn [parse_from].
  - split; [intros [= <-]; constructor|]. by inversion 1.
  - destruct (X509Certificate pem) as [c|m] eqn:E.
    + rewrite bind_ok. split.
      * intros (cs & Hcs & [= <-]). constructor; [done|by apply (IH (i + 1))].
      * intros (c' & cs & Hc & Hcs & ->)%Forall2_cons_inv_l. exists cs.
        split; [by apply IH|]. congruence.
    + split; [done|]. intros (c' & cs & Hc & Hcs & ->)%Forall2_cons_inv_l. congruence.
Qed.

Lemma parseCertificates_ok pems certs :
  parseCertificates pems = Ok certs <->
  pems <> [] /\ Forall2 (fun pem c => X509Certificate pem = Ok c) pems certs.
Proof.
  unfold parseCertificates. destruct pems as [|pem pems]; [split; [done|by intros []]|].
  rewrite parse_from_ok. split; [by split|by intros []].
Qed.

Lemma check_validity_ok now certs u :
  check_validity now certs = Ok u <-> Forall (fun c => notBefore c <= now <= notAfter c) certs.
Proof.
  induction certs as [|c certs IH]; cbn [check_validity].
  - destruct u. split; [constructor|done].
  - rewrite !throw_ok, IH, Forall_cons, Z.ltb_ge, Z.ltb_ge. lia || tauto.
Qed.

Lemma check_issuer_ok i c u : check_issuer (Z.of_nat i) c = Ok u <-> may_issue i c.
Proof.
  unfold check_issuer, may_issue. destruct (getBasicConstraints c) as [bc|].
  2:{ split; [done|]. by intros (? & ? & ?). }
  rewrite throw_ok, bind_ok, negb_false_iff. split.
  - intros (Hca & u0 & Hp & Hk). exists bc. split_and!; [done|done| |].
    + intros n Hn. rewrite Hn in Hp. apply throw_ok in Hp as [Hp%Z.ltb_ge _]. done.
    + intros us Hu. rewrite Hu in Hk. apply throw_ok in Hk as [Hk%N.eqb_neq _]. done.
  - intros (bc' & [= <-] & Hca & Hp & Hk). split; [done|]. exists tt. destruct u. split.
    + destruct (pathLength bc) as [n|]; [|done]. apply throw_ok. split; [|done]. apply Z.ltb_ge. by apply Hp.
    + destruct (getKeyUsages c) as [us|]; [|done]. apply throw_ok. split; [|done]. apply N.eqb_neq. by apply Hk.
Qed.

Lemma check_issuers_ok i certs u :
  check_issuers (Z.of_nat i) certs = Ok u <-> forall k c, certs !! k = Some c -> may_issue (i + k) c.
Proof.
  revert i. induction certs as [|c certs IH]; intros i; cbn [check_issuers].
  - destruct u. split; [intros _ k c'; by rewrite lookup_nil|done].
  - rewrite bind_ok. replace (Z.of_nat i + 1) with (Z.of_nat (S i)) by lia. split.
    + intros (v & Hc & Hr) [|k] c' Hk.
      * injection Hk as <-. rewrite Nat.add_0_r. by apply (check_issuer_ok i c v).
      * rewrite Nat.add_succ_r. by apply (proj1 (IH (S i)) Hr).
    + intros H. exists tt. split.
      * apply check_issuer_ok. specialize (H 0%nat c eq_refl). by rewrite Nat.add_0_r in H.
      * apply IH. intros k c' Hk. specialize (H (S k) c' Hk). by rewrite Nat.add_succ_r in H.
Qed.

Lemma check_link_ok i child parent u :
  check_link i child parent = Ok u <-> issuer child = subject parent /\ signed_by parent child.
Proof.
  unfold check_link, signed_by. rewrite throw_ok, negb_false_iff, jeqb_eq, bind_ok.
  split; [intros (Hi & b & Hb & Hu%bool_ok); by subst b|]. intros [Hi Hs]. split; [done|]. exists true.
  destruct u. by split.
Qed.

Lemma check_links_ok i certs u :
  check_links i certs = Ok u <->
  forall k child parent, certs !! k = Some child -> certs !! S k = Some parent ->
    issuer child = subject parent /\ signed_by parent child.
Proof.
  revert i. induction certs as [|c [|p certs] IH]; intros i; cbn [check_links].
  - destruct u. split; [intros _ k x y; by rewrite lookup_nil|done].
  - destruct u. split; [|done]. by intros _ [|k] x y Hx Hy.
  - rewrite bind_ok. split.
    + intros (v & Hl%check_link_ok & Hr) [|k] x y Hx Hy.
      * by injection Hx as <-; injection Hy as <-.
      * by apply (proj1 (IH (i + 1)) Hr k).
    + intros H. exists tt. split; [apply check_link_ok; by apply (H 0%nat)|].
      apply IH. intros k x y Hx Hy. by apply (H (S k)).
Qed.

Lemma check_root_ok root u : check_root root = Ok u <-> issuer root = subject root /\ signed_by root root.
Proof.
  unfold check_root, signed_by. rewrite throw_ok, negb_false_iff, jeqb_eq, bind_ok.
  split; [intros (Hi & b & Hb & Hu%bool_ok); by subst b|]. intros [Hi Hs]. split; [done|]. exists true.
  destruct u. by split.
Qed.

Lemma last_default (c : cert) certs : last (c :: certs) = Some (List.last certs c).
Proof.
  revert c. induction certs as [|d certs IH]; intros c; [done|]. change (last (c :: d :: certs)) with (last (d :: certs)).
  rewrite IH. f_equal. destruct certs as [|e certs]; [done|]. cbn. clear IH. revert e.
  induction certs as [|f certs IH]; intros e; [done|]. apply IH.
Qed.

(** C22. Chain validation decides exactly the chains it should: it succeeds if and
    only if there is at least one certificate, each parses, is within its dates
    and, unless it is the leaf, may issue at its depth; each is named and signed
    by the next; and the last is named and signed by itself.  The answer is then
    that chain, its first certificate, its last and the last one's fingerprint. *)
Theorem validateChain_iff pems now parsed :
  validateChain pems now = Ok parsed <->
  exists leaf root,
    Forall2 (fun pem c => X509Certificate pem = Ok c) pems (pc_certs parsed) /\
    chain_valid now (pc_certs parsed) /\
    head (pc_certs parsed) = Some leaf /\ last (pc_certs parsed) = Some root /\
    parsed = {| pc_certs := pc_certs parsed; pc_leaf := leaf; pc_root := root;
                pc_rootFingerprint := sha256Fingerprint sha256 (rawData root) |}.
Proof.
  unfold validateChain. rewrite bind_ok. split.
  - intros (certs & Hp%parseCertificates_ok & H). destruct certs as [|leaf rest]; [done|].
    apply bind_ok in H as (? & Hd%check_validity_ok & H). apply bind_ok in H as (? & Hi & H).
    apply bind_ok in H as (? & Hl & H). apply bind_ok in H as (? & Hr%check_root_ok & [= <-]).
    cbn [pc_certs]. exists leaf, (List.last rest leaf). split_and!; [apply Hp| |done|apply last_default|done].
    unfold assertIssuerHygiene in Hi. change 1 with (Z.of_nat 1) in Hi.
    split; [done| | |].
    + intros [|k] c Hc Hk; [lia|]. apply (proj1 (check_issuers_ok 1 rest _) Hi k c Hc).
    + by apply (check_links_ok 0 _ tt); destruct x1.
    + intros root. rewrite last_default. by intros [= <-].
  - destruct parsed as [certs lf rt fp]. cbn [pc_certs]. intros (leaf & root & Hp & [Hd Hi Hl Hr] & Hh & Hlast & Heq).
    injection Heq as -> -> ->. destruct certs as [|leaf' rest]; [done|]. injection Hh as ->.
    exists (leaf :: rest). split.
    { apply parseCertificates_ok. split; [by intros ->; inversion Hp|done]. }
    rewrite last_default in Hlast. injection Hlast as <-.
    apply bind_ok. exists tt. split; [by apply check_validity_ok|].
    apply bind_ok. exists tt. split.
    { unfold assertIssuerHygiene. change 1 with (Z.of_nat 1). apply check_issuers_ok. intros k c Hc.
      apply (Hi (S k) c Hc). lia. }
    apply bind_ok. exists tt. split; [by apply check_links_ok|].
    apply bind_ok. exists tt. split; [|done]. apply check_root_ok. apply Hr, last_default.
Qed.
End ChainSpec.
