(* ===== verification/Attestation.v ===== *)
(** * The attestation verifier

    [libs/attestation/src/jws.ts], [verify.ts] and [errors.ts]: the signature of
    the evidence, and the pipeline fetch, chain, trusted root, signature,
    freshness, channel binding.  HTTP, JSON, JOSE and text codecs are the
    platform's, stated by a class; each stage is a function into
    [result VerifyErr], as a [StageResult] is.  The branches for exceptions only a
    runtime without Web Crypto raises are left out. *)

From S2P Require Import Prelude JsString EvidenceDigest Json Der X509.

(** ** Wire types *)

Inductive EvidenceKind := DeploymentEvidence | ControlPlaneEvidence | KubernetesControlPlaneEvidence.

#[global] Instance EvidenceKind_eq_dec : EqDecision EvidenceKind.
Proof. solve_decision. Defined.

Definition kind_text (k : EvidenceKind) : jstr :=
  match k with
  | DeploymentEvidence => "DeploymentEvidence"
  | ControlPlaneEvidence => "ControlPlaneEvidence"
  | KubernetesControlPlaneEvidence => "KubernetesControlPlaneEvidence"
  end.

(** [KIND_VALUES.has(value)], and the kind it is then known to be. *)
Definition KIND_VALUES (value : jstr) : option EvidenceKind :=
  find_first (fun k => jeqb value (kind_text k))
    [DeploymentEvidence; ControlPlaneEvidence; KubernetesControlPlaneEvidence].

Record AttestationBundle := {
  ab_kind : EvidenceKind;
  ab_hostname : jstr;
  ab_issuedAt : jstr;
  ab_certFingerprint : jstr;
  ab_jws : jstr;
  ab_certChain : list jstr;
  ab_rootCaTeeQuote : option json;
  ab_tlsLeaf : option jstr
}.

(** The fields the verifier reads, and the object itself. *)
Record EvidencePayload := {
  ep_kind : EvidenceKind;
  ep_hostname : jstr;
  ep_issuedAt : jstr;
  ep_certFingerprint : jstr;
  ep_object : json
}.

Record TrustedRoot := { tr_name : jstr; tr_pem : jstr }.

Inductive VerifyStage := fetch_stage | cert_chain_stage | untrusted_root_stage | jws_stage | tls_fingerprint_stage.

Inductive ChannelBinding := observed | producer_asserted.

Record VerifyOk := {
  ok_kind : EvidenceKind;
  ok_payload : EvidencePayload;
  ok_matchedRoot : jstr * jstr;
  ok_rootCaTeeQuote : option json;
  ok_channelBinding : ChannelBinding
}.

(** [fail(stage, reason)] *)
Inductive VerifyErr := fail (stage : VerifyStage) (reason : jstr).

Definition VerifyResult : Type := result VerifyErr VerifyOk.

(** ** What the platform and the libraries provide *)

Inductive Response := response (ok : bool) (status : Z) (body : result jstr json).

Class Platform `{L : X509Library} := {
  (** The public key in the form [jose] takes. *)
  CryptoKey : Type;
  export_key : cert -> result jstr CryptoKey;
  compactVerify_RS256 : jstr -> CryptoKey -> result jstr (list N);
  decodeProtectedHeader : jstr -> result jstr json;
  TextEncoder : jstr -> list N;
  TextDecoder : list N -> jstr;
  JSON_parse : jstr -> result jstr json;
  (** [Date.parse]; [None] is [NaN]. *)
  Date_parse : jstr -> option Z;
  (** What [atob] says when it throws. *)
  atob_message : jstr
}.

Section Jws.
Context `{P : Platform} {C : Crypto}.

Inductive jws_error := JwsError (message : jstr).

Definition base64UrlDecode (s : jstr) : result jstr (list N) :=
  let swapped := Js (replace_all 95 47 (replace_all 45 43 (units s))) in
  let padded := jpadEnd swapped (jlength s + (4 - jlength s mod 4) mod 4) 61%N in
  match atob (units padded) with Some bytes => Ok bytes | None => Err atob_message end.

Definition verifyJwsRs256 (jws : jstr) (leaf : cert) : result jws_error (list N) :=
  match export_key leaf with
  | Err message => Err (JwsError ("failed to export leaf public key: " +++ message))
  | Ok key =>
      match compactVerify_RS256 jws key with
      | Err message => Err (JwsError ("signature verification failed: " +++ message))
      | Ok payload => Ok payload
      end
  end.

Definition verifyJwsEs256k (jws : jstr) (leaf : cert) : result jws_error (list N) :=
  if negb (isSecp256k1Cert leaf) then
    Err (JwsError "JWS alg is ES256K but leaf certificate key is not secp256k1")
  else
    match jsplit 46%N jws with
    | [headerB64; payloadB64; signatureB64] =>
        match signatureBytes ← base64UrlDecode signatureB64;
              payloadBytes ← base64UrlDecode payloadB64; Ok (signatureBytes, payloadBytes) with
        | Err message => Err (JwsError ("failed to decode JWS segment: " +++ message))
        | Ok (signatureBytes, payloadBytes) =>
            match verifySecp256k1 signatureBytes (TextEncoder (headerB64 +++ "." +++ payloadB64))
                    (publicKey_rawData leaf) with
            | Err message => Err (JwsError ("secp256k1 fallback verification raised: " +++ message))
            | Ok false => Err (JwsError "ES256K signature verification failed")
            | Ok true => Ok payloadBytes
            end
        end
    | _ => Err (JwsError "compact JWS must have exactly 3 segments")
    end.

Definition isEvidencePayload (value : json) : option EvidencePayload :=
  if negb (is_object value) then None
  else
    version ← as_string (member "version" value);
    if negb (jeqb version "1") then None
    else
      kind ← as_string (member "kind" value) ≫= KIND_VALUES;
      hostname ← nonempty_string (member "hostname" value);
      issuedAt ← nonempty_string (member "issuedAt" value);
      certFingerprint ← as_string (member "certFingerprint" value);
      if negb (jstartsWith certFingerprint "sha256/") then None
      else Some {| ep_kind := kind; ep_hostname := hostname; ep_issuedAt := issuedAt;
                   ep_certFingerprint := certFingerprint; ep_object := value |}.

Definition unsupported_alg (alg : jstr) : jstr :=
  "unsupported JWS alg " +++ quoted alg +++ " (expected RS256 or ES256K)".

Definition verifyJws (jws : jstr) (leaf : cert) : result jws_error EvidencePayload :=
  match decodeProtectedHeader jws with
  | Err message => Err (JwsError ("failed to decode JWS protected header: " +++ message))
  | Ok header =>
      let alg := default "<missing>" (as_string (member "alg" header)) in
      plaintext ← (if jeqb alg "RS256" then verifyJwsRs256 jws leaf
                   else if jeqb alg "ES256K" then verifyJwsEs256k jws leaf
                   else Err (JwsError (unsupported_alg alg)));
      match JSON_parse (TextDecoder plaintext) with
      | Err message => Err (JwsError ("failed to parse JWS payload as JSON: " +++ message))
      | Ok parsed =>
          match isEvidencePayload parsed with
          | Some payload => Ok payload
          | None => Err (JwsError "JWS payload is not a recognised evidence payload")
          end
      end
  end.
End Jws.

(** ** The pipeline *)

Definition EVIDENCE_PATH : jstr := "/.well-known/swarm-evidence".

Definition ALLOWED_CLOCK_SKEW_MS : Z := 60000.

(** A call of [fetch]: the promise rejects with a message or resolves. *)
Definition fetcher : Type := jstr -> result jstr Response.

Record VerifyParams := {
  vp_hostname : jstr;
  vp_observedTlsFingerprint : option jstr;
  vp_trustedRoots : list TrustedRoot;
  vp_fetcher : option fetcher;
  vp_now : option Z;
  vp_maxBundleAge : option Z
}.

(** [globalThis.fetch], when the runtime has one, and the readings of the clock
    where [params.now] is absent. *)
Record runtime := { global_fetch : option fetcher; chain_clock : Z; freshness_clock : Z }.

Section Pipeline.
Context `{P : Platform} {C : Crypto}.

Definition hostname_mismatch (hostname : jstr) : jstr :=
  "bundle hostname " +++ quoted hostname +++ " does not match request hostname".

(** [certChain]: a non-empty array of non-empty strings. *)
Definition chain_of (v : option json) : option (list jstr) :=
  match v with
  | Some (JArray ((_ :: _) as items)) => mapM (fun i => nonempty_string (Some i)) items
  | _ => None
  end.

Definition validateBundleShape (raw : json) (expectedHostname : jstr) : result VerifyErr AttestationBundle :=
  let reject reason := Err (fail fetch_stage reason) in
  if negb (is_object raw) then reject "response body is not a JSON object"
  else
    let v name := member name raw in
    if negb (match as_string (v "version") with Some s => jeqb s "1" | None => false end) then
      reject ("unsupported bundle version: " +++ String_of (v "version"))
    else
    match as_string (v "kind") ≫= KIND_VALUES with
    | None => reject ("unsupported bundle kind: " +++ String_of (v "kind"))
    | Some kind =>
    match nonempty_string (v "hostname") with
    | None => reject "bundle is missing hostname"
    | Some hostname =>
    if negb (jeqb hostname expectedHostname) then reject (hostname_mismatch hostname)
    else
    match as_string (v "issuedAt") with
    | None => reject "bundle is missing issuedAt"
    | Some issuedAt =>
    match as_string (v "certFingerprint") with
    | Some certFingerprint =>
    if negb (jstartsWith certFingerprint "sha256/") then reject "bundle certFingerprint is malformed"
    else
    match nonempty_string (v "jws") with
    | None => reject "bundle is missing jws"
    | Some jws =>
    match chain_of (v "certChain") with
    | None => reject "bundle certChain is missing or malformed"
    | Some certChain =>
    if match v "rootCaTeeQuote" with Some q => negb (is_object q) | None => false end then
      reject "bundle rootCaTeeQuote is malformed"
    else if match v "tlsLeaf" with
            | Some leaf => match nonempty_string (Some leaf) with Some _ => false | None => true end
            | None => false
            end then
      reject "bundle tlsLeaf is malformed"
    else Ok {| ab_kind := kind; ab_hostname := hostname; ab_issuedAt := issuedAt;
               ab_certFingerprint := certFingerprint; ab_jws := jws; ab_certChain := certChain;
               ab_rootCaTeeQuote := v "rootCaTeeQuote"; ab_tlsLeaf := as_string (v "tlsLeaf") |}
    end end
    | None => reject "bundle certFingerprint is malformed"
    end end end end.

Definition evidence_url (hostname : jstr) : jstr := "https://" +++ hostname +++ EVIDENCE_PATH.

Definition fetchBundle (rt : runtime) (params : VerifyParams) : result VerifyErr AttestationBundle :=
  let url := evidence_url (vp_hostname params) in
  match match vp_fetcher params with Some f => Some f | None => global_fetch rt end with
  | None => Err (fail fetch_stage "no fetcher available; pass params.fetcher or run with global fetch")
  | Some fetcher =>
      match fetcher url with
      | Err message => Err (fail fetch_stage ("request failed: " +++ message))
      | Ok (response ok status body) =>
          if negb ok then
            Err (fail fetch_stage ("unexpected status " +++ jstring_of_Z status +++ " from " +++ url))
          else
            match body with
            | Err message => Err (fail fetch_stage ("failed to parse response body as JSON: " +++ message))
            | Ok body => validateBundleShape body (vp_hostname params)
            end
      end
  end.

Definition runCertChainStage (bundle : AttestationBundle) (now : Z) : result VerifyErr ParsedChain :=
  match validateChain (ab_certChain bundle) now with
  | Err (CertChainError message) => Err (fail cert_chain_stage message)
  | Ok parsed => Ok parsed
  end.

(** The name and the fingerprint of the first root that matches. *)
Fixpoint runTrustedRootStage (rootFingerprint : jstr) (trustedRoots : list TrustedRoot)
    : result VerifyErr (jstr * jstr) :=
  match trustedRoots with
  | [] => Err (fail untrusted_root_stage (rootFingerprint +++ " not in trusted store"))
  | root :: rest =>
      match rootFingerprintFromPem (tr_pem root) with
      | Err message =>
          Err (fail untrusted_root_stage
                 ("failed to parse trusted root " +++ quoted (tr_name root) +++ ": " +++ message))
      | Ok fp =>
          if fingerprintsEqual fp rootFingerprint then Ok (tr_name root, fp)
          else runTrustedRootStage rootFingerprint rest
      end
  end.

Definition runJwsStage (bundle : AttestationBundle) (leaf : cert) (expectedHostname : jstr)
    : result VerifyErr EvidencePayload :=
  match verifyJws (ab_jws bundle) leaf with
  | Err (JwsError message) => Err (fail jws_stage message)
  | Ok payload =>
      if negb (bool_decide (ep_kind payload = ab_kind bundle)) then
        Err (fail jws_stage ("payload kind " +++ quoted (kind_text (ep_kind payload)) +++
                             " does not match bundle kind " +++ quoted (kind_text (ab_kind bundle))))
      else if negb (jeqb (ep_hostname payload) expectedHostname) then
        Err (fail jws_stage ("payload hostname " +++ quoted (ep_hostname payload) +++
                             " does not match request hostname"))
      else Ok payload
  end.

Definition runFreshnessStage (issuedAt : jstr) (maxBundleAge : option Z) (now : Z) : result VerifyErr unit :=
  match maxBundleAge with
  | None => Ok tt
  | Some maxBundleAge =>
      match Date_parse issuedAt with
      | None => Err (fail jws_stage ("payload.issuedAt " +++ quoted issuedAt +++ " is not a parseable timestamp"))
      | Some issued =>
          let age := now - issued in
          if maxBundleAge <? age then
            Err (fail jws_stage ("bundle age " +++ jstring_of_Z age +++ "ms exceeds maxBundleAge=" +++
                                 jstring_of_Z maxBundleAge +++ "ms"))
          else if age <? - ALLOWED_CLOCK_SKEW_MS then
            Err (fail jws_stage ("payload.issuedAt is " +++ jstring_of_Z (- age) +++
                                 "ms in the future, beyond allowed skew"))
          else Ok tt
      end
  end.

Definition runTlsFingerprintStage (payloadFingerprint : jstr) (observedFingerprint tlsLeafPem : option jstr)
    : result VerifyErr ChannelBinding :=
  match observedFingerprint with
  | Some fp =>
      if negb (fingerprintsEqual payloadFingerprint fp) then
        Err (fail tls_fingerprint_stage
               ("payload certFingerprint " +++ payloadFingerprint +++ " does not match observed " +++ fp))
      else Ok observed
  | None =>
      match tlsLeafPem with
      | Some pem =>
          match X509Certificate pem with
          | Err message => Err (fail tls_fingerprint_stage ("failed to parse bundle.tlsLeaf: " +++ message))
          | Ok c =>
              if negb (fingerprintsEqual payloadFingerprint (fingerprint_of c)) then
                Err (fail tls_fingerprint_stage
                       ("payload certFingerprint " +++ payloadFingerprint +++
                        " does not match bundle.tlsLeaf fingerprint " +++ fingerprint_of c))
              else Ok producer_asserted
          end
      | None => Err (fail tls_fingerprint_stage "no observed fingerprint and no tlsLeaf in bundle")
      end
  end.

Definition runPipeline (rt : runtime) (params : VerifyParams) : VerifyResult :=
  bundle ← fetchBundle rt params;
  chain ← runCertChainStage bundle (default (chain_clock rt) (vp_now params));
  matchedRoot ← runTrustedRootStage (pc_rootFingerprint chain) (vp_trustedRoots params);
  payload ← runJwsStage bundle (pc_leaf chain) (vp_hostname params);
  _ ← runFreshnessStage (ep_issuedAt payload) (vp_maxBundleAge params) (default (freshness_clock rt) (vp_now params));
  channelBinding ← runTlsFingerprintStage (ep_certFingerprint payload) (vp_observedTlsFingerprint params)
                     (ab_tlsLeaf bundle);
  Ok {| ok_kind := ep_kind payload; ok_payload := payload; ok_matchedRoot := matchedRoot;
        ok_rootCaTeeQuote := ab_rootCaTeeQuote bundle; ok_channelBinding := channelBinding |}.

(** The checks [verifyHostname] makes before any work. *)
Definition check_params (params : VerifyParams) : result VerifyErr unit :=
  if jlength (vp_hostname params) =? 0 then Err (fail fetch_stage "hostname must be a non-empty string")
  else if match vp_observedTlsFingerprint params with
          | Some fp => negb (isFingerprint (Some fp))
          | None => false
          end then
    Err (fail tls_fingerprint_stage "observedTlsFingerprint must match sha256/<base64url>")
  else Ok tt.
End Pipeline.

(** ** What an accepted verdict rests on *)

Section PipelineSpec.
Context `{P : Platform} {C : Crypto}.

(** The host answered 2xx with a body of the right shape for that hostname. *)
Definition served (rt : runtime) (params : VerifyParams) (bundle : AttestationBundle) : Prop :=
  exists f status body,
    match vp_fetcher params with Some f => Some f | None => global_fetch rt end = Some f /\
    f (evidence_url (vp_hostname params)) = Ok (response true status (Ok body)) /\
    validateBundleShape body (vp_hostname params) = Ok bundle.

(** The first configured root whose certificate hashes to [fp]; none before it
    fails to parse. *)
Definition trusted (trustedRoots : list TrustedRoot) (fp : jstr) (matched : jstr * jstr) : Prop :=
  exists i root, trustedRoots !! i = Some root /\ matched = (tr_name root, fp) /\
    rootFingerprintFromPem (tr_pem root) = Ok fp /\
    forall j root', (j < i)%nat -> trustedRoots !! j = Some root' ->
      exists fp', rootFingerprintFromPem (tr_pem root') = Ok fp' /\ fp' <> fp.

(** A compact JWS whose signature checks under the leaf's key, by one of the two
    supported algorithms, the one its header names. *)
Inductive jws_signed (jws : jstr) (leaf : cert) : list N -> Prop :=
| signed_rs256 header key payload :
    decodeProtectedHeader jws = Ok header -> member "alg" header = Some (JString "RS256") ->
    export_key leaf = Ok key -> compactVerify_RS256 jws key = Ok payload -> jws_signed jws leaf payload
| signed_es256k header h p s signatureBytes payload :
    decodeProtectedHeader jws = Ok header -> member "alg" header = Some (JString "ES256K") ->
    isSecp256k1Cert leaf = true -> jsplit 46%N jws = [h; p; s] ->
    base64UrlDecode s = Ok signatureBytes -> base64UrlDecode p = Ok payload ->
    verifySecp256k1 signatureBytes (TextEncoder (h +++ "." +++ p)) (publicKey_rawData leaf) = Ok true ->
    jws_signed jws leaf payload.

Definition signed_payload (jws : jstr) (leaf : cert) (payload : EvidencePayload) : Prop :=
  exists plaintext value, jws_signed jws leaf plaintext /\
    JSON_parse (TextDecoder plaintext) = Ok value /\ isEvidencePayload value = Some payload.

Definition fresh (issuedAt : jstr) (maxBundleAge : option Z) (now : Z) : Prop :=
  forall limit, maxBundleAge = Some limit ->
    exists issued, Date_parse issuedAt = Some issued /\ - ALLOWED_CLOCK_SKEW_MS <= now - issued <= limit.

(** The signed fingerprint is the one observed, or without one the bundle's own leaf's. *)
Definition bound (payloadFingerprint : jstr) (observedFp tlsLeaf : option jstr) (binding : ChannelBinding) : Prop :=
  match binding with
  | observed => observedFp = Some payloadFingerprint
  | producer_asserted => observedFp = None /\
      exists pem c, tlsLeaf = Some pem /\ X509Certificate pem = Ok c /\ fingerprint_of c = payloadFingerprint
  end.

Lemma fetchBundle_ok rt params bundle : fetchBundle rt params = Ok bundle <-> served rt params bundle.
Proof.
  unfold fetchBundle, served. destruct (match vp_fetcher params with Some f => _ | None => _ end) as [f|].
  2:{ split; [done|by intros (? & ? & ? & ? & ?)]. }
  destruct (f _) as [[ok status body]|m] eqn:Ef.
  2:{ split; [done|]. intros (? & ? & ? & [= <-] & ? & ?). congruence. }
  split.
  - destruct ok; [|done]. destruct body as [body|]; [|done]. cbn [negb]. intros H. by exists f, status, body.
  - intros (f' & st & b & [= <-] & Hf & Hv). rewrite Hf in Ef. injection Ef as <- <- <-. done.
Qed.

Lemma runTrustedRootStage_ok fp roots m : runTrustedRootStage fp roots = Ok m <-> trusted roots fp m.
Proof.
  induction roots as [|root roots IH]; cbn [runTrustedRootStage].
  - split; [done|]. intros (i & r & Hr & _). by rewrite lookup_nil in Hr.
  - destruct (rootFingerprintFromPem (tr_pem root)) as [fp'|e] eqn:E.
    2:{ split; [done|]. intros ([|i] & r & Hr & _ & Hf & Hlt); [injection Hr as ->; congruence|].
        destruct (Hlt 0%nat root ltac:(lia) eq_refl) as (? & ? & _). congruence. }
    destruct (fingerprintsEqual fp' fp) eqn:Eq.
    + apply fingerprintsEqual_spec in Eq as ->. split.
      * intros [= <-]. exists 0%nat, root. split_and!; try done. intros j; lia.
      * intros ([|i] & r & Hr & -> & Hf & Hlt); [by injection Hr as <-|].
        destruct (Hlt 0%nat root ltac:(lia) eq_refl) as (? & ? & ?). congruence.
    + assert (Hne : fp' <> fp) by (intros ->; by rewrite (proj2 (fingerprintsEqual_spec fp fp) eq_refl) in Eq).
      rewrite IH. split.
      * intros (i & r & Hr & Hm & Hf & Hlt). exists (S i), r. split_and!; [done..|].
        intros [|j] r' Hj Hr'; [injection Hr' as <-; by exists fp'|]. apply (Hlt j); [lia|done].
      * intros ([|i] & r & Hr & Hm & Hf & Hlt); [injection Hr as <-; congruence|].
        exists i, r. split_and!; [done..|]. intros j r' Hj. apply (Hlt (S j)). lia.
Qed.

Lemma verifyJws_ok jws leaf payload : verifyJws jws leaf = Ok payload <-> signed_payload jws leaf payload.
Proof.
  unfold verifyJws, signed_payload.
  assert (Htail : forall plaintext, match JSON_parse (TextDecoder plaintext) with
      | Err m => Err (JwsError ("failed to parse JWS payload as JSON: " +++ m))
      | Ok parsed => match isEvidencePayload parsed with
                     | Some payload => Ok payload
                     | None => Err (JwsError "JWS payload is not a recognised evidence payload") end
      end = Ok payload <->
      exists value, JSON_parse (TextDecoder plaintext) = Ok value /\ isEvidencePayload value = Some payload).
  { intros plaintext. destruct (JSON_parse _) as [v|]; [|split; [done|by intros (? & ? & ?)]].
    destruct (isEvidencePayload v) as [p|] eqn:Ev.
    - split; [intros [= ->]; by exists v|intros (? & [= <-] & ?); congruence].
    - split; [done|intros (? & [= <-] & ?); congruence]. }
  split.
  - destruct (decodeProtectedHeader jws) as [header|] eqn:Eh; [|done]. cbv zeta.
    intros (plaintext & Hs & (value & Hv)%Htail)%bind_ok. exists plaintext, value. split; [|done].
    destruct (as_string (member "alg" header)) as [alg|] eqn:Ea.
    2:{ cbn [default] in Hs. by change (jeqb "<missing>" "RS256") with false in Hs. }
    apply as_string_some in Ea. change (default "<missing>" (Some alg)) with alg in Hs.
    destruct (jeqb alg "RS256") eqn:E1; [apply jeqb_eq in E1 as ->|].
    + unfold verifyJwsRs256 in Hs. destruct (export_key leaf) as [key|] eqn:Ek; [|done].
      destruct (compactVerify_RS256 jws key) as [pl|] eqn:Ec; [|done]. injection Hs as ->. by eapply signed_rs256.
    + destruct (jeqb alg "ES256K") eqn:E2; [apply jeqb_eq in E2 as ->|done].
      unfold verifyJwsEs256k in Hs. destruct (isSecp256k1Cert leaf) eqn:El; [|done]. cbn [negb] in Hs.
      destruct (jsplit 46%N jws) as [|h [|p [|s [|]]]] eqn:Esp; try done.
      destruct (_ ≫= _) as [[sb pb]|] eqn:Ed; [|done].
      apply bind_ok in Ed as (sb' & Hsb & (pb' & Hpb & [= -> ->])%bind_ok).
      destruct (verifySecp256k1 _ _ _) as [[]|] eqn:Ev; try done. injection Hs as ->. by eapply signed_es256k.
  - intros (plaintext & value & Hs & Hv).
    assert (Hv' : exists value, JSON_parse (TextDecoder plaintext) = Ok value /\ isEvidencePayload value = Some payload) by eauto.
    apply Htail in Hv'. destruct Hs as [header key pl Hh Ha Hk Hc|header h p s sb pl Hh Ha Hl Hj Hsb Hpb Hver].
    + rewrite Hh. cbv zeta. rewrite Ha. cbn [as_string default]. rewrite jeqb_refl. unfold verifyJwsRs256.
      by rewrite Hk, Hc.
    + rewrite Hh. cbv zeta. rewrite Ha. cbn [as_string default]. change (jeqb "ES256K" "RS256") with false.
      rewrite jeqb_refl. unfold verifyJwsEs256k. rewrite Hl, Hj. cbn [negb]. rewrite Hsb. cbn [mbind result_bind].
      rewrite Hpb. cbn [mbind result_bind]. by rewrite Hver.
Qed.

Lemma runJwsStage_ok bundle leaf hostname payload :
  runJwsStage bundle leaf hostname = Ok payload <->
  signed_payload (ab_jws bundle) leaf payload /\ ep_kind payload = ab_kind bundle /\ ep_hostname payload = hostname.
Proof.
  unfold runJwsStage. destruct (verifyJws (ab_jws bundle) leaf) as [p|[m]] eqn:E.
  - rewrite !throw_ok, !negb_false_iff, bool_decide_eq_true, jeqb_eq. split.
    + intros (H1 & H2 & [= <-]). by rewrite verifyJws_ok in E.
    + intros (Hs%verifyJws_ok & H1 & H2). rewrite Hs in E. by injection E as <-.
  - split; [done|]. intros (Hs%verifyJws_ok & _). congruence.
Qed.

Lemma runFreshnessStage_ok issuedAt limit now u : runFreshnessStage issuedAt limit now = Ok u <-> fresh issuedAt limit now.
Proof.
  unfold runFreshnessStage, fresh. destruct limit as [limit|].
  2:{ destruct u. by split. }
  destruct (Date_parse issuedAt) as [issued|].
  - cbv zeta. rewrite !throw_ok, !Z.ltb_ge. split.
    + intros (H1 & H2 & _) l [= <-]. exists issued. split; [done|lia].
    + intros H. destruct (H limit eq_refl) as (i & [= <-] & Hi). destruct u. split_and!; [lia..|done].
  - split; [done|]. intros H. by destruct (H limit eq_refl) as (? & ? & ?).
Qed.

Lemma runTlsFingerprintStage_ok fp observedFp tlsLeaf b :
  runTlsFingerprintStage fp observedFp tlsLeaf = Ok b <-> bound fp observedFp tlsLeaf b.
Proof.
  unfold runTlsFingerprintStage, bound. destruct observedFp as [o|].
  - rewrite throw_ok, negb_false_iff, fingerprintsEqual_spec. split.
    + by intros [-> [= <-]].
    + destruct b; [by intros [= ->]|by intros [? _]].
  - destruct tlsLeaf as [pem|].
    2:{ split; [done|]. destruct b; [done|]. by intros (_ & ? & ? & ? & _). }
    destruct (X509Certificate pem) as [c|m] eqn:Ec.
    + rewrite throw_ok, negb_false_iff, fingerprintsEqual_spec. split.
      * intros [-> [= <-]]. split; [done|]. by exists pem, c.
      * destruct b; [done|]. intros (_ & p & c' & [= <-] & Hc & <-). rewrite Hc in Ec. by injection Ec as <-.
    + split; [done|]. destruct b; [done|]. intros (_ & p & c' & [= <-] & Hc & _). congruence.
Qed.

Lemma runPipeline_accepts rt params r :
  runPipeline rt params = Ok r <->
  exists bundle chain,
    served rt params bundle /\
    validateChain (ab_certChain bundle) (default (chain_clock rt) (vp_now params)) = Ok chain /\
    trusted (vp_trustedRoots params) (pc_rootFingerprint chain) (ok_matchedRoot r) /\
    signed_payload (ab_jws bundle) (pc_leaf chain) (ok_payload r) /\
    ep_kind (ok_payload r) = ab_kind bundle /\ ep_hostname (ok_payload r) = vp_hostname params /\
    fresh (ep_issuedAt (ok_payload r)) (vp_maxBundleAge params) (default (freshness_clock rt) (vp_now params)) /\
    bound (ep_certFingerprint (ok_payload r)) (vp_observedTlsFingerprint params) (ab_tlsLeaf bundle)
      (ok_channelBinding r) /\
    ok_kind r = ep_kind (ok_payload r) /\ ok_rootCaTeeQuote r = ab_rootCaTeeQuote bundle.
Proof.
  unfold runPipeline, runCertChainStage. split.
  - intros (bundle & Hb%fetchBundle_ok & H)%bind_ok. apply bind_ok in H as (chain & Hc & H).
    destruct (validateChain _ _) as [chain'|[m]] eqn:Ev in Hc; [|done]. injection Hc as ->.
    apply bind_ok in H as (m & Hm%runTrustedRootStage_ok & H). apply bind_ok in H as (p & Hp%runJwsStage_ok & H).
    apply bind_ok in H as (u & Hu%runFreshnessStage_ok & H).
    apply bind_ok in H as (b & Hbind%runTlsFingerprintStage_ok & [= <-]). exists bundle, chain. naive_solver.
  - destruct r as [k p m q b]. cbn [ok_kind ok_payload ok_matchedRoot ok_rootCaTeeQuote ok_channelBinding].
    intros (bundle & chain & Hb%fetchBundle_ok & Hc & Hm%runTrustedRootStage_ok & Hp & Hk & Hh & Hf & Hbd & -> & ->).
    rewrite Hb. cbn [mbind result_bind]. rewrite Hc. cbn [mbind result_bind]. rewrite Hm. cbn [mbind result_bind].
    rewrite (proj2 (runJwsStage_ok bundle (pc_leaf chain) (vp_hostname params) p) (conj Hp (conj Hk Hh))).
    cbn [mbind result_bind]. rewrite (proj2 (runFreshnessStage_ok _ _ _ tt) Hf). cbn [mbind result_bind].
    rewrite (proj2 (runTlsFingerprintStage_ok _ _ _ b) Hbd). done.
Qed.

(** C3. A verdict is [ok] exactly when every stage holds: the host served a
    well-shaped bundle for the hostname asked about; its chain validates; the
    chain's root is one of the trusted ones, the one named; the payload is signed
    by the leaf's key, is of the bundle's kind and for that hostname; it is within
    the age policy, clock skew allowed for; and its fingerprint is the certificate
    on the channel, or without channel access the one the bundle asserts.  The
    verdict carries that payload and says which. *)
Theorem runPipeline_iff rt params r :
  runPipeline rt params = Ok r <->
  exists bundle chain,
    served rt params bundle /\
    validateChain (ab_certChain bundle) (default (chain_clock rt) (vp_now params)) = Ok chain /\
    trusted (vp_trustedRoots params) (pc_rootFingerprint chain) (ok_matchedRoot r) /\
    signed_payload (ab_jws bundle) (pc_leaf chain) (ok_payload r) /\
    ep_kind (ok_payload r) = ab_kind bundle /\ ep_hostname (ok_payload r) = vp_hostname params /\
    fresh (ep_issuedAt (ok_payload r)) (vp_maxBundleAge params) (default (freshness_clock rt) (vp_now params)) /\
    bound (ep_certFingerprint (ok_payload r)) (vp_observedTlsFingerprint params) (ab_tlsLeaf bundle)
      (ok_channelBinding r) /\
    ok_kind r = ep_kind (ok_payload r) /\ ok_rootCaTeeQuote r = ab_rootCaTeeQuote bundle.
Proof. apply runPipeline_accepts. Qed.
End PipelineSpec.

(** ** A platform to run on

    The smallest instance of the interfaces: a certificate is its own PEM text, a
    digest the first 32 bytes, every signature checks.  It shows that the
    hypotheses below can hold and runs the pipeline end to end. *)

#[local] Instance toy_x509 : X509Library := {|
  cert := jstr;
  X509Certificate pem := if jlength pem =? 0 then Err "empty" else Ok pem;
  subject c := c;
  issuer c := c;
  notBefore _ := 0;
  notAfter _ := 1000000;
  rawData c := map (fun u => (u mod 256)%N) (units c);
  signature _ := [];
  publicKey_rawData _ := [];
  publicKey_algorithm _ := ("RSASSA-PKCS1-v1_5" : jstr, None);
  getBasicConstraints _ := None;
  getKeyUsages _ := None;
  getExtension _ _ := None;
  keyCertSign := 4;
  verify_signature _ _ := Ok true
|}.

#[local] Instance toy_crypto : Crypto := {|
  sha256 data := take 32 (map (fun b => (b mod 256)%N) data ++ replicate 32 0%N);
  secp256k1_verify _ _ _ _ := Ok true
|}.

Definition toy_payload : json :=
  JObject [("version" : jstr, JString "1"); ("kind" : jstr, JString "DeploymentEvidence");
           ("hostname" : jstr, JString "host"); ("issuedAt" : jstr, JString "then");
           ("certFingerprint" : jstr, JString (sha256Fingerprint sha256 (units "leaf")))].

#[local] Instance toy_platform : Platform := {|
  CryptoKey := jstr;
  export_key c := Ok (c : jstr);
  compactVerify_RS256 jws _ := Ok (units jws);
  decodeProtectedHeader _ := Ok (JObject [("alg" : jstr, JString "RS256")]);
  TextEncoder := units;
  TextDecoder := Js;
  JSON_parse s := if jeqb s "signed" then Ok toy_payload else Err "not JSON";
  Date_parse s := if jeqb s "then" then Some 500 else None;
  atob_message := "invalid"
|}.

Definition toy_bundle : json :=
  JObject [("version" : jstr, JString "1"); ("kind" : jstr, JString "DeploymentEvidence");
           ("hostname" : jstr, JString "host"); ("issuedAt" : jstr, JString "then");
           ("certFingerprint" : jstr, JString "sha256/x"); ("jws" : jstr, JString "signed");
           ("certChain" : jstr, JArray [JString "root"]); ("tlsLeaf" : jstr, JString "leaf")].

Definition toy_runtime : runtime :=
  {| global_fetch := Some (fun _ => Ok (response true 200 (Ok toy_bundle))); chain_clock := 600; freshness_clock := 600 |}.

Definition toy_params (pem : jstr) (limit : Z) : VerifyParams :=
  {| vp_hostname := "host"; vp_observedTlsFingerprint := None;
     vp_trustedRoots := [{| tr_name := "platform"; tr_pem := pem |}];
     vp_fetcher := None; vp_now := None; vp_maxBundleAge := Some limit |}.

Example pipeline_accepts : exists r, runPipeline toy_runtime (toy_params "root" 200) = Ok r /\
  ok_matchedRoot r = ("platform" : jstr, sha256Fingerprint sha256 (units "root")) /\
  ok_channelBinding r = producer_asserted.
Proof. vm_compute. eexists. split_and!; reflexivity. Qed.

Example pipeline_rejects :
  runPipeline toy_runtime (toy_params "other" 200) =
    Err (fail untrusted_root_stage (sha256Fingerprint sha256 (units "root") +++ " not in trusted store")) /\
  runPipeline toy_runtime (toy_params "root" 99) = Err (fail jws_stage "bundle age 100ms exceeds maxBundleAge=99ms").
Proof. vm_compute. split; reflexivity. Qed.
