(* ===== verification/VerdictCache.v ===== *)
(** * The verdict cache and the entry point

    [libs/attestation/src/cache.ts] and [verifyHostname] of [verify.ts].  What a
    cache promises its caller is a class; the caller's theorem is proved against
    it and [MemoryCache] is an instance.  A call is two steps, the lookup before
    the pipeline and the store after it, since other calls run in between. *)

From stdpp Require Import sorting.
From S2P Require Import Prelude JsString EvidenceDigest Json Der X509 Attestation.

(** ** The interface *)

(** [holds s k v e]: under [k] the cache has [v], until [e].  A cache invents
    nothing: what it answers is held and not yet due, and only a [set] makes it
    hold more, for [lifetime]. *)
Class VerifyCache (S : Type) := {
  cache_get : jstr -> Z -> S -> option VerifyResult * S;
  cache_set : jstr -> VerifyResult -> Z -> S -> S;
  holds : S -> jstr -> VerifyResult -> Z -> Prop;
  lifetime : Z;
  get_held key now s v : fst (cache_get key now s) = Some v -> exists e, holds s key v e /\ now < e;
  get_keeps key now s k v e : holds (snd (cache_get key now s)) k v e -> holds s k v e;
  set_holds key value now s k v e : holds (cache_set key value now s) k v e ->
    holds s k v e \/ (k = key /\ v = value /\ e = now + lifetime)
}.

(** ** MemoryCache *)

Record Entry := { en_expiresAt : Z; en_value : VerifyResult }.

Record MemoryCacheOptions := { ttlMs : Z; maxEntries : Z }.

(** The defaults of the constructor. *)
Definition default_options : MemoryCacheOptions := {| ttlMs := 60000; maxEntries := 256 |}.

(** A [Map] iterates in the order its keys were first set. *)
Definition MemoryCache : Type := list (jstr * Entry).

Definition map_get (key : jstr) (m : MemoryCache) : option Entry :=
  snd <$> find_first (fun kv => jeqb (fst kv) key) m.

Definition map_delete (key : jstr) (m : MemoryCache) : MemoryCache :=
  List.filter (fun kv => negb (jeqb (fst kv) key)) m.

Fixpoint map_set (key : jstr) (e : Entry) (m : MemoryCache) : MemoryCache :=
  match m with
  | [] => [(key, e)]
  | (k, e') :: m => if jeqb k key then (k, e) :: m else (k, e') :: map_set key e m
  end.

Definition mc_get (key : jstr) (now : Z) (m : MemoryCache) : option VerifyResult * MemoryCache :=
  match map_get key m with
  | None => (None, m)
  | Some entry => if en_expiresAt entry <=? now then (None, map_delete key m) else (Some (en_value entry), m)
  end.

Definition mc_set (o : MemoryCacheOptions) (key : jstr) (value : VerifyResult) (now : Z) (m : MemoryCache)
    : MemoryCache :=
  let evicted := if maxEntries o <=? Z.of_nat (length m) then
                   match m with [] => m | (first, _) :: _ => map_delete first m end
                 else m in
  map_set key {| en_expiresAt := now + ttlMs o; en_value := value |} evicted.

Lemma map_get_elem key m e : map_get key m = Some e -> (key, e) ∈ m.
Proof.
  unfold map_get. destruct (find_first _ m) as [[k e']|] eqn:E; [|done]. intros [= <-].
  apply find_first_some in E as [Hin Hk%jeqb_eq]. cbn in Hk. by subst k.
Qed.

Lemma map_delete_elem key m kv : kv ∈ map_delete key m <-> kv ∈ m /\ fst kv <> key.
Proof.
  unfold map_delete. rewrite list_elem_of_In, filter_In, <- list_elem_of_In, negb_true_iff, jeqb_neq. done.
Qed.

Lemma map_set_elem key e m kv : kv ∈ map_set key e m -> kv ∈ m \/ kv = (key, e).
Proof.
  induction m as [|[k e'] m IH]; cbn [map_set]; [rewrite list_elem_of_singleton; by right|].
  destruct (jeqb k key) eqn:Ek.
  - apply jeqb_eq in Ek as ->. rewrite !elem_of_cons. tauto.
  - rewrite !elem_of_cons. intros [->|H]; [by left; left|]. destruct (IH H); tauto.
Qed.

Lemma map_get_set key e m : map_get key (map_set key e m) = Some e.
Proof.
  unfold map_get. induction m as [|[k e'] m IH]; cbn [map_set]; [cbn; by rewrite jeqb_refl|].
  destruct (jeqb k key) eqn:Ek; cbn [find_first List.find fst]; rewrite Ek; [done|exact IH].
Qed.

Lemma map_set_keys key e m :
  map fst (map_set key e m) = map fst m ++ (if bool_decide (key ∈ map fst m) then [] else [key]).
Proof.
  induction m as [|[k e'] m IH]; cbn [map_set map fst app]; [done|]. destruct (jeqb k key) eqn:Ek.
  - apply jeqb_eq in Ek as ->. cbn [map fst]. rewrite bool_decide_eq_true_2 by (by left). by rewrite app_nil_r.
  - apply jeqb_neq in Ek. cbn [map fst]. rewrite IH. f_equal. f_equal.
    destruct (bool_decide_reflect (key ∈ map fst m)).
    + by rewrite bool_decide_eq_true_2 by (by right).
    + rewrite bool_decide_eq_false_2; [done|]. rewrite elem_of_cons. naive_solver.
Qed.

#[global] Program Instance MemoryCache_cache (o : MemoryCacheOptions) : VerifyCache MemoryCache := {|
  cache_get := mc_get;
  cache_set := mc_set o;
  holds m k v e := (k, {| en_expiresAt := e; en_value := v |}) ∈ m;
  lifetime := ttlMs o
|}.
Next Obligation.
  intros o key now m v. unfold mc_get. destruct (map_get key m) as [[e v']|] eqn:E; [|done].
  cbn [en_expiresAt en_value]. destruct (Z.leb_spec e now); [done|]. intros [= ->]. exists e.
  split; [by apply map_get_elem|done].
Qed.
Next Obligation.
  intros o key now m k v e. unfold mc_get. destruct (map_get key m) as [entry|]; [|done].
  destruct (_ <=? _); [|done]. cbn [snd]. by intros [H _]%map_delete_elem.
Qed.
Next Obligation.
  intros o key value now m k v e. unfold mc_set. intros [H|[= -> -> ->]]%map_set_elem; [left|by right].
  destruct (_ <=? _); [|done]. destruct m as [|[first e'] m]; [done|]. by apply map_delete_elem in H as [H _].
Qed.

(** ** The key *)

Section Key.
Context {C : Crypto} (TextEncoder : jstr -> list N).

Definition jle (a b : jstr) : Prop := jltb b a = false.

#[global] Instance jle_dec a b : Decision (jle a b).
Proof. unfold jle. apply _. Defined.

Definition roots_text (trustedRoots : list TrustedRoot) : jstr :=
  jjoin "" (merge_sort jle (map (fun r => tr_name r +++ " " +++ tr_pem r) trustedRoots)).

Definition trustedRootsDigest (trustedRoots : list TrustedRoot) : jstr :=
  Js (base64UrlEncode (sha256 (TextEncoder (roots_text trustedRoots)))).

Definition buildCacheKey (hostname : jstr) (observedTlsFingerprint : option jstr) (trustedRoots : list TrustedRoot)
    : jstr :=
  hostname +++ "|" +++ default "producer-asserted" observedTlsFingerprint +++ "|" +++ trustedRootsDigest trustedRoots.

(** [`${baseCacheKey}|${params.maxBundleAge ?? ''}`] *)
Definition cacheKey (params : VerifyParams) : jstr :=
  buildCacheKey (vp_hostname params) (vp_observedTlsFingerprint params) (vp_trustedRoots params) +++ "|" +++
  match vp_maxBundleAge params with Some age => jstring_of_Z age | None => Js [] end.
End Key.

(** ** [verifyHostname] *)

Section Verify.
Context `{P : Platform} {C : Crypto} {S : Type} {K : VerifyCache S}.

(** Up to the lookup: an answer, or the pipeline has to run. *)
Definition begin_call (params : VerifyParams) (now : Z) (s : S) : option VerifyResult * S :=
  match check_params params with
  | Err e => (Some (Err e), s)
  | Ok _ => cache_get (cacheKey TextEncoder params) now s
  end.

(** The pipeline and the store. *)
Definition finish_call (rt : runtime) (params : VerifyParams) (now : Z) (s : S) : VerifyResult * S :=
  let result := runPipeline rt params in
  (result, if is_ok result then cache_set (cacheKey TextEncoder params) result now s else s).

(** One call alone, with the readings of the cache's clock at its two steps. *)
Definition verifyHostname (rt : runtime) (params : VerifyParams) (asked stored : Z) (cache : option S)
    : VerifyResult * option S :=
  match cache with
  | None => (match check_params params with Err e => Err e | Ok _ => runPipeline rt params end, None)
  | Some s =>
      match begin_call params asked s with
      | (Some r, s1) => (r, Some s1)
      | (None, s1) => let '(r, s2) := finish_call rt params stored s1 in (r, Some s2)
      end
  end.

(** The steps of any number of calls, in the order they happen. *)
Inductive event := begins (params : VerifyParams) (now : Z) | finishes (rt : runtime) (params : VerifyParams) (now : Z).

Definition step (ev : event) (s : S) : option VerifyResult * S :=
  match ev with
  | begins params now => begin_call params now s
  | finishes rt params now => let '(r, s') := finish_call rt params now s in (Some r, s')
  end.

(** What each step answered, and the cache after them. *)
Fixpoint run_events (s : S) (events : list event) : list (option VerifyResult) * S :=
  match events with
  | [] => ([], s)
  | ev :: events =>
      let '(r, s1) := step ev s in
      let '(rs, s2) := run_events s1 events in (r :: rs, s2)
  end.

(** Only a call whose parameters passed the checks reaches its second step. *)
Definition wellformed (ev : event) : Prop :=
  match ev with begins _ _ => True | finishes _ params _ => check_params params = Ok tt end.
End Verify.

(** ** Lemmas *)

#[global] Instance jle_transitive : Transitive jle.
Proof.
  intros a b c Hab Hbc. unfold jle in *. destruct (jltb c a) eqn:E; [|done].
  destruct (jltb b c) eqn:E1; [by rewrite (jltb_trans b c a) in Hab|].
  by rewrite <- (jltb_total _ _ E1 Hbc), Hab in E.
Qed.

#[global] Instance jle_total : Total jle.
Proof.
  intros a b. unfold jle. destruct (jltb b a) eqn:E; [right|by left].
  destruct (jltb a b) eqn:E'; [|done]. pose proof (jltb_trans _ _ _ E E') as H. by rewrite jltb_irrefl in H.
Qed.

#[global] Instance jle_antisymm : AntiSymm eq jle.
Proof. intros a b H1 H2. symmetry. by apply jltb_total. Qed.

(** The order roots are listed in makes no difference. *)
Lemma roots_text_perm roots roots' : roots ≡ₚ roots' -> roots_text roots = roots_text roots'.
Proof.
  intros H. unfold roots_text. f_equal. apply (Sorted_unique jle).
  - apply Sorted_merge_sort, _.
  - apply Sorted_merge_sort, _.
  - rewrite !merge_sort_Permutation. by apply Permutation_map.
Qed.

(** Without a bar. *)
Definition no_bar (s : jstr) : Prop := (124 ∉ units s)%N.

Lemma no_bar_forallb p s : p 124%N = false -> forallb p (units s) = true -> no_bar s.
Proof. intros Hp Hs Hin%list_elem_of_In. rewrite forallb_forall in Hs. specialize (Hs _ Hin). congruence. Qed.

Lemma split_last a b a' b' : no_bar b -> no_bar b' -> a +++ "|" +++ b = a' +++ "|" +++ b' -> a = a' /\ b = b'.
Proof.
  destruct a as [a], b as [b], a' as [a'], b' as [b']. unfold no_bar, japp. cbn [units].
  change (units "|") with [124%N]. intros Hb Hb' [= H].
  assert (a = a' /\ b = b') as [-> ->]; [|done]. revert a' H. induction a as [|x a IH]; intros [|y a']; cbn [app].
  - by intros [= ->].
  - intros [= <- H]. destruct Hb. rewrite H. apply elem_of_app. right. by left.
  - intros [= -> H]. destruct Hb'. rewrite <- H. apply elem_of_app. right. by left.
  - intros [= -> H]. by destruct (IH a' H) as [-> ->].
Qed.

Lemma no_bar_fingerprint fp : isFingerprint (Some fp) = true -> no_bar fp /\ fp <> "producer-asserted".
Proof.
  unfold isFingerprint. intros [[Hp Hl]%andb_true_iff Hr]%andb_true_iff. split.
  - apply prefixb_spec in Hp as [r Hr']. unfold no_bar. rewrite Hr'.
    rewrite elem_of_app. intros [H|H]; [by revert H; apply (bool_decide_eq_true _)|].
    revert H. apply (no_bar_forallb is_b64url (Js r)); [done|]. cbn [units].
    unfold jdrop in Hr. cbn [units] in Hr. rewrite Hr' in Hr. exact Hr.
  - intros ->. by vm_compute in Hp.
Qed.

Lemma no_bar_age z : no_bar (jstring_of_Z z).
Proof.
  assert (H : forall n, no_bar (Js (digits_of n))) by (intros n; apply (no_bar_forallb is_digit); [done|apply digits_of_digit]).
  unfold jstring_of_Z. destruct (z <? 0); [|apply H]. unfold no_bar. cbn [units]. intros [?|Hin]%elem_of_cons; [done|].
  by apply (H _ Hin).
Qed.

Section CacheSpec.
Context `{P : Platform} {C : Crypto} {S : Type} {K : VerifyCache S}.

(** SHA-256 gives bytes. *)
Definition digest_bytes : Prop := forall data, Forall (fun b => (b < 256)%N) (sha256 data).

Lemma no_bar_digest roots : digest_bytes -> no_bar (trustedRootsDigest TextEncoder roots).
Proof.
  intros Hb. apply (no_bar_forallb is_b64url); [done|]. unfold trustedRootsDigest. cbn [units].
  specialize (Hb (TextEncoder (roots_text roots))). unfold base64UrlEncode. rewrite url_safe_btoa by done.
  apply sextets_lt in Hb. induction Hb as [|v vs Hv _ IH]; [done|]. cbn [map forallb].
  by rewrite (proj1 (url_digit_spec v Hv)).
Qed.

(** The question a verdict answers: two calls with the same one may share it. *)
Definition same_question (p p' : VerifyParams) : Prop :=
  vp_hostname p = vp_hostname p' /\ vp_observedTlsFingerprint p = vp_observedTlsFingerprint p' /\
  vp_maxBundleAge p = vp_maxBundleAge p' /\
  trustedRootsDigest TextEncoder (vp_trustedRoots p) = trustedRootsDigest TextEncoder (vp_trustedRoots p').

Lemma check_params_observed p : check_params p = Ok tt ->
  no_bar (default "producer-asserted" (vp_observedTlsFingerprint p)) /\
  vp_observedTlsFingerprint p <> Some "producer-asserted".
Proof.
  unfold check_params. rewrite !throw_ok. intros (_ & H & _). destruct (vp_observedTlsFingerprint p) as [fp|].
  - apply negb_false_iff, no_bar_fingerprint in H as [H1 H2]. split; [done|]. by intros [= ->].
  - split; [|done]. unfold no_bar. by apply (bool_decide_eq_true _).
Qed.

Lemma cacheKey_same p p' : digest_bytes -> check_params p = Ok tt -> check_params p' = Ok tt ->
  cacheKey TextEncoder p = cacheKey TextEncoder p' -> same_question p p'.
Proof.
  intros Hb [Ho Hn]%check_params_observed [Ho' Hn']%check_params_observed. unfold cacheKey, buildCacheKey.
  intros [Hk Ha]%split_last.
  2,3: match goal with |- no_bar (match ?x with _ => _ end) => destruct x end; [apply no_bar_age|apply not_elem_of_nil].
  assert (Hassoc : forall h o d, h +++ "|" +++ o +++ "|" +++ d = (h +++ "|" +++ o) +++ "|" +++ d)
    by (intros; by rewrite !japp_assoc).
  rewrite !Hassoc in Hk. apply split_last in Hk as [Hk Hd]; [|by apply no_bar_digest..].
  apply split_last in Hk as [Hh Hobs]; [|done..]. split_and!; [done| | |done].
  - destruct (vp_observedTlsFingerprint p), (vp_observedTlsFingerprint p'); cbn [default from_option id] in Hobs; congruence.
  - destruct (vp_maxBundleAge p) as [z|], (vp_maxBundleAge p') as [z'|]; [by apply jstring_of_Z_inj in Ha as ->| | |done].
    + unfold jstring_of_Z in Ha. destruct (z <? 0); [done|]. injection Ha as Ha. by destruct (digits_of_nonempty _ Ha).
    + unfold jstring_of_Z in Ha. destruct (z' <? 0); [done|]. injection Ha as Ha. by destruct (digits_of_nonempty _ (eq_sym Ha)).
Qed.

(** Whatever the cache holds in the end was there at the start or was stored by a
    pipeline that said [ok]. *)
Lemma run_events_holds s events k v e :
  holds (snd (run_events s events)) k v e -> holds s k v e \/
  exists j rt p now, events !! j = Some (finishes rt p now) /\ k = cacheKey TextEncoder p /\ v = runPipeline rt p /\
    is_ok v = true /\ e = now + lifetime.
Proof.
  revert s. induction events as [|ev events IH]; intros s; cbn [run_events]; [by left|].
  destruct (step ev s) as [r s1] eqn:Es. destruct (run_events s1 events) as [rs s2] eqn:Er. cbn [snd].
  intros H. specialize (IH s1). rewrite Er in IH. destruct (IH H) as [H1|(j & rt & p & now & Hj & Hrest)].
  2:{ right. by exists (Datatypes.S j), rt, p, now. }
  destruct ev as [p now|rt p now]; cbn [step] in Es.
  - left. unfold begin_call in Es. destruct (check_params p); [|by injection Es as <- <-].
    eapply (get_keeps (cacheKey TextEncoder p) now). by rewrite Es.
  - unfold finish_call in Es. injection Es as <- <-. destruct (is_ok (runPipeline rt p)) eqn:Eok; [|by left].
    apply set_holds in H1 as [H1|(-> & -> & ->)]; [by left|]. right. by exists 0%nat, rt, p, now.
Qed.

Lemma run_events_lookup s events i :
  fst (run_events s events) !! i = (fun ev => fst (step ev (snd (run_events s (take i events))))) <$> events !! i.
Proof.
  revert s i. induction events as [|ev events IH]; intros s i; cbn [run_events]; [done|].
  destruct i as [|i]; cbn [take run_events].
  - destruct (step ev s) as [r s1] eqn:Es. destruct (run_events s1 events) as [rs s2]. cbn. by rewrite Es.
  - destruct (step ev s) as [r s1] eqn:Es. destruct (run_events s1 events) as [rs s2] eqn:Er.
    destruct (run_events s1 (take i events)) as [rs' s2'] eqn:Er'. cbn [fst snd lookup list_lookup].
    specialize (IH s1 i). by rewrite Er, Er' in IH.
Qed.

(** A cached verdict is a recent one to the same question: over any
    interleaving of calls, started with a cache that holds nothing, a lookup that
    answers [ok] repeats what the pipeline said for the same hostname, the same
    observed fingerprint, the same age policy and the same digest of the trusted
    roots, less than the cache's lifetime before; the order the roots are listed
    in does not change that digest, and a verdict that is not [ok] is never
    repeated. *)
Theorem cached_verdicts_are_recent s events i p now v :
  digest_bytes -> (forall k v e, ~ holds s k v e) -> Forall wellformed events ->
  events !! i = Some (begins p now) -> check_params p = Ok tt ->
  fst (run_events s events) !! i = Some (Some v) ->
  (exists j rt p' stored, (j < i)%nat /\ events !! j = Some (finishes rt p' stored) /\
     same_question p p' /\ v = runPipeline rt p' /\ is_ok v = true /\ now < stored + lifetime) /\
  (forall roots', vp_trustedRoots p ≡ₚ roots' ->
     trustedRootsDigest TextEncoder (vp_trustedRoots p) = trustedRootsDigest TextEncoder roots').
Proof.
  intros Hb Hempty Hwf Hi Hp Hv. split; [|intros roots' Hr; unfold trustedRootsDigest; by rewrite (roots_text_perm _ _ Hr)].
  rewrite run_events_lookup, Hi in Hv. cbn [fmap option_fmap option_map step] in Hv. injection Hv as Hv.
  unfold begin_call in Hv. rewrite Hp in Hv. apply get_held in Hv as (e & Hh & He).
  apply run_events_holds in Hh as [Hh|(j & rt & p' & stored & Hj & Hk & -> & Hok & ->)]; [by destruct (Hempty _ _ _ Hh)|].
  apply lookup_take_Some in Hj as [Hj Hlt]. exists j, rt, p', stored. split_and!; [done|done| |done|done|done].
  apply cacheKey_same; [done|done| |done]. rewrite Forall_lookup in Hwf. exact (Hwf j _ Hj).
Qed.
End CacheSpec.

(** ** MemoryCache, sequence by sequence *)

(** A [get] ([None]) or a [set] of a value. *)
Definition cache_op : Type := jstr * Z * option VerifyResult.

Definition run_op (o : MemoryCacheOptions) (m : MemoryCache) (op : cache_op) : MemoryCache :=
  let '(key, now, value) := op in
  match value with Some v => mc_set o key v now m | None => snd (mc_get key now m) end.

Definition keys_ok (o : MemoryCacheOptions) (m : MemoryCache) : Prop :=
  NoDup (map fst m) /\ Z.of_nat (length m) <= Z.max 1 (maxEntries o).

Lemma map_delete_ok o key m : keys_ok o m -> keys_ok o (map_delete key m).
Proof.
  intros [Hd Hl]. split.
  - eapply sublist_NoDup; [apply map_sublist, filter_sublist|exact Hd].
  - pose proof (List.filter_length_le (fun kv => negb (jeqb (fst kv) key)) m). unfold map_delete. lia.
Qed.

Lemma map_set_ok o key e m : NoDup (map fst m) -> Z.of_nat (length m) < Z.max 1 (maxEntries o) \/ key ∈ map fst m /\ keys_ok o m ->
  keys_ok o (map_set key e m).
Proof.
  intros Hd Hl. assert (Hlen : length (map_set key e m) = length (map fst (map_set key e m))) by (symmetry; apply length_map).
  unfold keys_ok. rewrite Hlen, map_set_keys, length_app, length_map. destruct (bool_decide_reflect (key ∈ map fst m)) as [Hin|Hin].
  - rewrite app_nil_r. cbn [length]. split; [done|]. destruct Hl as [Hl|[_ [_ Hl]]]; lia.
  - destruct Hl as [Hl|[Hk _]]; [|done]. split; [|cbn [length]; lia].
    apply NoDup_app. split_and!; [done| |apply NoDup_singleton]. intros x Hx ->%list_elem_of_singleton. done.
Qed.

Lemma run_op_ok o m op : keys_ok o m -> keys_ok o (run_op o m op).
Proof.
  intros Hm. destruct op as [[key now] [v|]]; cbn [run_op].
  - unfold mc_set. cbv zeta. destruct (Z.leb_spec (maxEntries o) (Z.of_nat (length m))) as [H|H].
    + destruct m as [|[first e] m]; [apply map_set_ok; [constructor|left; cbn; lia]|].
      pose proof (map_delete_ok o first _ Hm) as [Hd _]. destruct Hm as [_ Hl].
      apply map_set_ok; [done|]. left. unfold map_delete. cbn [List.filter fst]. rewrite jeqb_refl. cbn [negb].
      pose proof (List.filter_length_le (fun kv => negb (jeqb (fst kv) first)) m). cbn [length] in Hl. lia.
    + destruct Hm as [Hd Hl]. apply map_set_ok; [done|]. left. lia.
  - unfold mc_get. destruct (map_get key m) as [e|]; [|done]. destruct (_ <=? _); [|done]. by apply map_delete_ok.
Qed.

(** The cache in memory stays within its size, keeps one entry per key,
    whatever is asked and stored in whatever order, and answers a stored verdict
    until its lifetime is over and not from then on. *)
Theorem memory_cache_bounded o ops :
  let m := foldl (run_op o) [] ops in
  NoDup (map fst m) /\ Z.of_nat (length m) <= Z.max 1 (maxEntries o) /\
  forall key v now now', fst (mc_get key now' (mc_set o key v now m)) = if now + ttlMs o <=? now' then None else Some v.
Proof.
  intros m. assert (Hok : keys_ok o m).
  { assert (H0 : keys_ok o []) by (split; [constructor|cbn [length]; lia]).
    unfold m. clear m. revert H0. generalize (@nil (jstr * Entry)). induction ops as [|op ops IH]; intros m0 Hm; [done|]. cbn [foldl]. by apply IH, run_op_ok. }
  destruct Hok as [Hd Hl]. split_and!; [done|done|]. intros key v now now'. unfold mc_get, mc_set. cbv zeta.
  rewrite map_get_set. cbn [en_expiresAt en_value]. by destruct (_ <=? _).
Qed.

(** Two callers within the lifetime, on the platform of [Attestation]. *)
#[local] Existing Instances toy_x509 toy_crypto toy_platform.

Definition toy_events : list event :=
  [begins (toy_params "root" 200) 0; finishes toy_runtime (toy_params "root" 200) 10; begins (toy_params "root" 200) 50].

#[local] Existing Instance MemoryCache_cache | 0.

Lemma cached_verdicts_are_recent_witness :
  let K := MemoryCache_cache default_options in
  exists j rt p' stored, (j < 2)%nat /\ toy_events !! j = Some (finishes rt p' stored) /\
    same_question (toy_params "root" 200) p' /\ runPipeline toy_runtime (toy_params "root" 200) = runPipeline rt p' /\
    50 < stored + 60000.
Proof.
  intros K.
  destruct (cached_verdicts_are_recent (S := MemoryCache) (K := K) [] toy_events 2 (toy_params "root" 200) 50
    (runPipeline toy_runtime (toy_params "root" 200))) as [(j & rt & p' & stored & H1 & H2 & H3 & H4 & _ & H5) _].
  - intros data. apply Forall_take. cbn [sha256 toy_crypto]. apply Forall_app. split.
    + apply Forall_forall. intros b (x & -> & _)%list_elem_of_fmap. apply N.mod_lt. discriminate.
    + apply Forall_replicate. vm_compute. reflexivity.
  - intros k v e H. inversion H.
  - repeat constructor.
  - reflexivity.
  - reflexivity.
  - vm_compute. reflexivity.
  - exists j, rt, p', stored. split_and!; try done.
Defined.
