(* ===== verification/TeeEvidence.v ===== *)
(** * What a root certificate says about its VM

    [libs/attestation/src/root-tee-evidence.ts]: the reader of the attestation
    extensions, with its hand-written protobuf walker, the fixed offsets of the
    SEV-SNP report and the key-binding check.  A byte is an [N] below 256, a
    [BigInt] an [N].  The walker is a generator consumed by [for ... of] loops, so
    an error in a later field is not raised once the loop has thrown: the loops
    are [for_fields] over a body that may throw. *)

From S2P Require Import Prelude JsString EvidenceDigest Json Der X509 Attestation.

Definition OID_CHALLENGE_TYPE : jstr := "1.3.6.1.3.8888.1.1".
Definition OID_NETWORK_TYPE : jstr := "1.3.6.1.3.8888.4".
Definition OID_TEE_EVIDENCE : jstr := "0.6.9.42.840.113741.1337.6".

Inductive RootEvidenceType := sev_snp_qemu | tdx_qemu | tdx_gcp | tdx_azure | sev_snp_azure.

#[global] Instance RootEvidenceType_eq_dec : EqDecision RootEvidenceType.
Proof. solve_decision. Defined.

Inductive RootNetworkType := network_trusted | network_untrusted.

Inductive RegistryFolder := folder_sev_snp | folder_tdx.

Record RootTcbVersion := { tcb_raw : jstr; tcb_bootLoader : N; tcb_tee : N; tcb_snp : N; tcb_microcode : N }.

Record RootReportPolicy := {
  po_raw : jstr;
  po_abiMajor : N;
  po_abiMinor : N;
  po_smtAllowed : bool;
  po_migrateMaAllowed : bool;
  po_debugAllowed : bool;
  po_singleSocketRequired : bool;
  po_ciphertextHiding : bool;
  po_pageSwapDisabled : bool
}.

Record RootReportSecurity := {
  rs_reportVersion : N;
  rs_guestSvn : N;
  rs_vmpl : N;
  rs_policy : RootReportPolicy;
  rs_launchTcb : RootTcbVersion;
  rs_currentTcb : RootTcbVersion;
  rs_reportedTcb : RootTcbVersion
}.

Record RootTeeEvidence := {
  te_type : RootEvidenceType;
  te_label : jstr;
  te_registryFolder : RegistryFolder;
  te_build : option jstr;
  te_reportMeasurement : option jstr;
  te_keyBinding : option bool;
  te_security : option RootReportSecurity
}.

Record RootAttestation := {
  ra_challengeType : option jstr;
  ra_networkType : option RootNetworkType;
  ra_carriesEvidence : bool;
  ra_evidence : option RootTeeEvidence;
  ra_error : option jstr
}.

Definition NO_ATTESTATION : RootAttestation :=
  {| ra_challengeType := None; ra_networkType := None; ra_carriesEvidence := false; ra_evidence := None;
     ra_error := None |}.

(** ** The protobuf walker *)

Definition MAX_VARINT_BYTES : nat := 10.

Definition MALFORMED_VARINT : jstr := "TEE evidence: malformed varint".

(** [groups] more groups of seven bits at [at_], shifted by [shift]. *)
Fixpoint varint_groups (groups : nat) (message : list N) (at_ : nat) (value shift : N) : result jstr (N * nat) :=
  match groups with
  | O => Err MALFORMED_VARINT
  | S groups =>
      match message !! at_ with
      | None => Err MALFORMED_VARINT
      | Some byte =>
          let value := N.lor value (N.shiftl (N.land byte 127) shift) in
          if (N.land byte 128 =? 0)%N then Ok (value, S at_)
          else varint_groups groups message (S at_) value (shift + 7)
      end
  end.

(** The value and the position after it. *)
Definition varint (message : list N) (start : nat) : result jstr (N * nat) :=
  varint_groups MAX_VARINT_BYTES message start 0 0.

Inductive ProtoField :=
| bytes_field (number : N) (bytes : list N)
| varint_field (number value : N)
| skipped_field (number : N).

Section Walker.
(** [String] of a double, for a field number past [2^53]. *)
Context (double_text : N -> jstr).

Definition number_text (n : N) : jstr :=
  if (n <=? 2 ^ 53)%N then jstring_of_Z (Z.of_N n) else double_text n.

Definition bad_number (number : N) : jstr := "TEE evidence: invalid field number " +++ number_text number.
Definition past_the_end (number claimed : N) : jstr :=
  "TEE evidence: field " +++ number_text number +++ " claims " +++ jstring_of_Z (Z.of_N claimed) +++
  " bytes, past the end of the message".
Definition truncated_fixed (number : N) : jstr :=
  "TEE evidence: field " +++ number_text number +++ " has a truncated fixed-width value".
Definition bad_wire (number wire : N) : jstr :=
  "TEE evidence: field " +++ number_text number +++ " has unsupported wire type " +++ jstring_of_Z (Z.of_N wire).

(** One turn of the generator: the field at [cursor] and where the next begins. *)
Definition next_field (message : list N) (cursor : nat) : result jstr (ProtoField * nat) :=
  tag ← varint message cursor;
  let cursor := snd tag in
  let number := N.shiftr (fst tag) 3 in
  let wire := N.land (fst tag) 7 in
  if (number =? 0)%N then Err (bad_number number)
  else if (wire =? 0)%N then
    value ← varint message cursor;
    Ok (varint_field number (fst value), snd value)
  else if (wire =? 2)%N then
    len ← varint message cursor;
    if (N.of_nat (length message) <? N.of_nat (snd len) + fst len)%N then Err (past_the_end number (fst len))
    else
      let end_ := (snd len + N.to_nat (fst len))%nat in
      Ok (bytes_field number (take (N.to_nat (fst len)) (drop (snd len) message)), end_)
  else if (wire =? 1)%N || (wire =? 5)%N then
    let width := if (wire =? 1)%N then 8%nat else 4%nat in
    if (length message <? cursor + width)%nat then Err (truncated_fixed number)
    else Ok (skipped_field number, (cursor + width)%nat)
  else Err (bad_wire number wire).

(** [for (const field of fields(message)) { body }] from [cursor], [acc] being
    what the body assigns; [fuel] bounds the turns. *)
Fixpoint fields_from {A} (fuel : nat) (body : ProtoField -> A -> result jstr A) (message : list N) (cursor : nat)
    (acc : A) : result jstr A :=
  match fuel with
  | O => Ok acc
  | S fuel =>
      if (cursor <? length message)%nat then
        next ← next_field message cursor;
        acc ← body (fst next) acc;
        fields_from fuel body message (snd next) acc
      else Ok acc
  end.

(** A turn consumes a byte at least: one turn per byte is enough. *)
Definition for_fields {A} (body : ProtoField -> A -> result jstr A) (message : list N) (acc : A) : result jstr A :=
  fields_from (length message) body message 0 acc.
End Walker.

(** ** Reads at constants *)

Definition SNP_REPORT_BYTES : nat := 1184.
Definition SNP_VERSION_OFFSET : nat := 0.
Definition SNP_GUEST_SVN_OFFSET : nat := 4.
Definition SNP_POLICY_OFFSET : nat := 8.
Definition SNP_VMPL_OFFSET : nat := 48.
Definition SNP_CURRENT_TCB_OFFSET : nat := 56.
Definition SNP_REPORT_DATA_OFFSET : nat := 80.
Definition SNP_REPORT_DATA_BYTES : nat := 64.
Definition SNP_MEASUREMENT_OFFSET : nat := 144.
Definition SNP_MEASUREMENT_BYTES : nat := 48.
Definition SNP_REPORTED_TCB_OFFSET : nat := 384.
Definition SNP_LAUNCH_TCB_OFFSET : nat := 496.

Definition POLICY_BIT_DEBUG : N := 19.
Definition POLICY_BIT_CIPHERTEXT_HIDING : N := 24.
Definition POLICY_BIT_PAGE_SWAP_DISABLED : N := 25.
Definition POLICY_BIT_SMT : N := 16.
Definition POLICY_BIT_MIGRATE_MA : N := 18.
Definition POLICY_BIT_SINGLE_SOCKET : N := 20.

Definition TCB_BYTE_BOOT_LOADER : N := 0.
Definition TCB_BYTE_TEE : N := 1.
Definition TCB_BYTE_SNP : N := 6.
Definition TCB_BYTE_MICROCODE : N := 7.

Definition SPKI_DIGEST_BYTES : nat := 32.

(** [bytes.subarray(start, start + n)] *)
Definition subarray (bytes : list N) (start n : nat) : list N := take n (drop start bytes).

(** [index] runs from [width - 1] down; [BigInt(undefined)] throws. *)
Fixpoint read_le (bytes : list N) (offset width : nat) (value : N) : option N :=
  match width with
  | O => Some value
  | S index => byte ← bytes !! (offset + index)%nat; read_le bytes offset index (N.lor (N.shiftl value 8) byte)
  end.

Definition readUintLE (bytes : list N) (offset width : nat) : option N := read_le bytes offset width 0.
Definition readUint32LE (bytes : list N) (offset : nat) : option N := readUintLE bytes offset 4.
Definition readUint64LE (bytes : list N) (offset : nat) : option N := readUintLE bytes offset 8.

(** [value.toString(16)]; [fuel] bounds the digits. *)
Fixpoint hex_fuel (fuel : nat) (n : N) : list N :=
  match fuel with
  | O => []
  | S fuel => if (n <? 16)%N then [hex_digit n] else hex_fuel fuel (n / 16) ++ [hex_digit (n mod 16)]
  end.

Definition hex_text (n : N) : jstr := Js (hex_fuel (S (N.to_nat (N.size n))) n).

Definition toHex (bytes : list N) : jstr := Js (concat (map byte_hex bytes)).

Definition bitSet (value bit : N) : bool := (N.land (N.shiftr value bit) 1 =? 1)%N.

Definition tcbByte (value index : N) : N := N.land (N.shiftr value (index * 8)) 255.

Definition policyOf (policy : N) : RootReportPolicy := {|
  po_raw := "0x" +++ hex_text policy;
  po_abiMinor := N.land policy 255;
  po_abiMajor := N.land (N.shiftr policy 8) 255;
  po_smtAllowed := bitSet policy POLICY_BIT_SMT;
  po_migrateMaAllowed := bitSet policy POLICY_BIT_MIGRATE_MA;
  po_debugAllowed := bitSet policy POLICY_BIT_DEBUG;
  po_singleSocketRequired := bitSet policy POLICY_BIT_SINGLE_SOCKET;
  po_ciphertextHiding := bitSet policy POLICY_BIT_CIPHERTEXT_HIDING;
  po_pageSwapDisabled := bitSet policy POLICY_BIT_PAGE_SWAP_DISABLED
|}.

Definition tcbOf (tcb : N) : RootTcbVersion := {|
  tcb_raw := "0x" +++ jpadStart (hex_text tcb) 16 48;
  tcb_bootLoader := tcbByte tcb TCB_BYTE_BOOT_LOADER;
  tcb_tee := tcbByte tcb TCB_BYTE_TEE;
  tcb_snp := tcbByte tcb TCB_BYTE_SNP;
  tcb_microcode := tcbByte tcb TCB_BYTE_MICROCODE
|}.

Definition securityFieldsOf (report : list N) : option RootReportSecurity :=
  version ← readUint32LE report SNP_VERSION_OFFSET;
  guestSvn ← readUint32LE report SNP_GUEST_SVN_OFFSET;
  vmpl ← readUint32LE report SNP_VMPL_OFFSET;
  policy ← readUint64LE report SNP_POLICY_OFFSET;
  launch ← readUint64LE report SNP_LAUNCH_TCB_OFFSET;
  current ← readUint64LE report SNP_CURRENT_TCB_OFFSET;
  reported ← readUint64LE report SNP_REPORTED_TCB_OFFSET;
  Some {| rs_reportVersion := version; rs_guestSvn := guestSvn; rs_vmpl := vmpl; rs_policy := policyOf policy;
          rs_launchTcb := tcbOf launch; rs_currentTcb := tcbOf current; rs_reportedTcb := tcbOf reported |}.

(** Only the first 32 bytes of [reportData] are compared. *)
Definition bindsPublicKey (reportData spki : list N) : bool :=
  if negb (length spki =? SPKI_DIGEST_BYTES)%nat || (length reportData <? SPKI_DIGEST_BYTES)%nat then false
  else (fingerprint_diff (take SPKI_DIGEST_BYTES reportData) spki =? 0)%N.

(** ** Labels *)

Definition LABELS (t : RootEvidenceType) : jstr :=
  match t with
  | sev_snp_qemu => "AMD SEV-SNP (QEMU)"
  | tdx_qemu => "Intel TDX (QEMU)"
  | tdx_gcp => "Intel TDX (GCP)"
  | tdx_azure => "Intel TDX (Azure)"
  | sev_snp_azure => "AMD SEV-SNP (Azure)"
  end.

Definition FOLDERS (t : RootEvidenceType) : RegistryFolder :=
  match t with sev_snp_qemu | sev_snp_azure => folder_sev_snp | tdx_qemu | tdx_gcp | tdx_azure => folder_tdx end.

Definition BRANCH_FIELDS (number : N) : option RootEvidenceType :=
  match number with
  | 1%N => Some sev_snp_qemu
  | 2%N => Some tdx_qemu
  | 3%N => Some tdx_gcp
  | 4%N => Some tdx_azure
  | 5%N => Some sev_snp_azure
  | _ => None
  end.

Definition EMPTY_EVIDENCE : jstr := "the root certificate carries an empty TEE evidence extension".
Definition MANY_BRANCHES : jstr := "the root certificate’s TEE evidence carries more than one hardware branch".
Definition NO_BRANCH : jstr :=
  "unrecognised evidence format: the root certificate’s TEE evidence carries no hardware branch this reader recognises".
Definition NO_HCL : jstr := "the root certificate’s Azure evidence carries no HCL report".
Definition SHORT_HCL : jstr := "the root certificate’s HCL report is shorter than its runtime data".
Definition RUNTIME_NOT_JSON : jstr := "the root certificate’s HCL runtime data is not JSON".
Definition NO_REPORT : jstr := "the root certificate’s SEV-SNP evidence carries no attestation report".
Definition SHORT_REPORT (n : nat) : jstr :=
  "the root certificate’s SEV-SNP attestation report is " +++ jstring_of_Z (Z.of_nat n) +++
  " bytes, expected at least " +++ jstring_of_Z (Z.of_nat SNP_REPORT_BYTES).
Definition UNDEFINED_BIGINT : jstr := "Cannot convert undefined to a BigInt".
Definition BAD_NETWORK (text : jstr) : jstr :=
  "the root's network type extension " +++ OID_NETWORK_TYPE +++ " is " +++ quoted text +++
  ", not " +++ quoted "trusted" +++ " or " +++ quoted "untrusted".
#[global] Opaque EMPTY_EVIDENCE MANY_BRANCHES NO_BRANCH NO_HCL SHORT_HCL RUNTIME_NOT_JSON NO_REPORT SHORT_REPORT
  UNDEFINED_BIGINT BAD_NETWORK MALFORMED_VARINT.

(** [or_throw]: [None] is an exception with that message. *)
Definition or_throw {A} (message : jstr) (v : option A) : result jstr A :=
  match v with Some a => Ok a | None => Err message end.

(** ** The reader *)

Definition HCL_MAGIC : jstr := "HCLA".
Definition HCL_HEADER_BYTES : nat := 32.
Definition HCL_HW_REPORT_AREA_BYTES : nat := 1184.
Definition HCL_RUNTIME_HEADER_OFFSET : nat := HCL_HEADER_BYTES + HCL_HW_REPORT_AREA_BYTES.
Definition HCL_RUNTIME_SIZE_OFFSET : nat := HCL_RUNTIME_HEADER_OFFSET + 16.
Definition HCL_RUNTIME_DATA_OFFSET : nat := HCL_RUNTIME_HEADER_OFFSET + 20.
Definition TDREPORT_DATA_OFFSET : nat := 128.

Definition TAG_OCTET_STRING : N := 4.
Definition TAG_UTF8_STRING : N := 12.

Section Reader.
Context `{P : Platform} {C : Crypto} (double_text : N -> jstr).

Definition unwrapDERString (value : list N) : option jstr :=
  match value with
  | tag :: len :: content =>
      if negb ((tag =? TAG_OCTET_STRING)%N || (tag =? TAG_UTF8_STRING)%N) then None
      else if (127 <? len)%N || negb (N.of_nat (length value) =? len + 2)%N then None
      else Some (TextDecoder content)
  | _ => None
  end.

Definition extensionText (value : list N) : jstr := jtrim (default (TextDecoder value) (unwrapDERString value)).

(** [text || null] *)
Definition or_null (text : jstr) : option jstr := if jlength text =? 0 then None else Some text.

Definition userDataOf (runtime : list N) : result jstr (list N) :=
  match JSON_parse (TextDecoder runtime) with
  | Err _ | Ok JNull => Err RUNTIME_NOT_JSON
  | Ok v =>
      match as_string (member "user-data" v) with
      | Some hex =>
          if Nat.even (length (units hex)) && forallb is_hex_ci (units hex)
          then Ok (hex_bytes (map lower_unit (units hex))) else Ok []
      | None => Ok []
      end
  end.

(** [build], [reportMeasurement], [keyBinding] and [security] of an answer. *)
Definition report_fields : Type := option jstr * option jstr * option bool * option RootReportSecurity.

Definition measurement_of (report : list N) : jstr :=
  toHex (subarray report SNP_MEASUREMENT_OFFSET SNP_MEASUREMENT_BYTES).

(** The last [bytes] field with number 1. *)
Definition hcl_field (field : ProtoField) (hcl : option (list N)) : result jstr (option (list N)) :=
  match field with
  | bytes_field number bytes => Ok (if (number =? 1)%N then Some bytes else hcl)
  | _ => Ok hcl
  end.

Definition azureFields (snp : bool) (branch spki : list N) : result jstr report_fields :=
  found ← for_fields double_text hcl_field branch None;
  match found with
  | None => Err NO_HCL
  | Some hcl =>
      if (length hcl <? HCL_RUNTIME_DATA_OFFSET)%nat || negb (jeqb (TextDecoder (subarray hcl 0 4)) HCL_MAGIC)
      then Err NO_HCL
      else
        runtimeSize ← or_throw UNDEFINED_BIGINT (readUintLE hcl HCL_RUNTIME_SIZE_OFFSET 4);
        if (N.of_nat (length hcl) <? N.of_nat HCL_RUNTIME_DATA_OFFSET + runtimeSize)%N then Err SHORT_HCL
        else
          let runtime := subarray hcl HCL_RUNTIME_DATA_OFFSET (N.to_nat runtimeSize) in
          let hardware := subarray hcl HCL_HEADER_BYTES HCL_HW_REPORT_AREA_BYTES in
          let reportDataOffset := if snp then SNP_REPORT_DATA_OFFSET else TDREPORT_DATA_OFFSET in
          let reportData := subarray hardware reportDataOffset SNP_REPORT_DATA_BYTES in
          keyBinding ← (if bindsPublicKey reportData (sha256 runtime)
                        then userData ← userDataOf runtime; Ok (bindsPublicKey userData spki)
                        else Ok false);
          if negb snp then Ok (None, None, Some keyBinding, None)
          else
            security ← or_throw UNDEFINED_BIGINT (securityFieldsOf hardware);
            Ok (None, Some (measurement_of hardware), Some keyBinding, Some security)
  end.

(** The inner loop of [snpReport]: the report and the build it names. *)
Definition snp_inner (field : ProtoField) (found : option (list N) * option jstr)
    : result jstr (option (list N) * option jstr) :=
  let '(raw, build) := found in
  match field with
  | bytes_field number bytes =>
      Ok (if (number =? 1)%N then Some bytes else raw,
          if (number =? 5)%N then or_null (jtrim (TextDecoder bytes)) else build)
  | _ => Ok found
  end.

Definition snp_outer (field : ProtoField) (found : option (list N) * option jstr)
    : result jstr (option (list N) * option jstr) :=
  match field with
  | bytes_field number bytes =>
      if (number =? 1)%N then for_fields double_text snp_inner bytes found else Ok found
  | _ => Ok found
  end.

Definition snpReport (branch : list N) : result jstr (list N * option jstr) :=
  found ← for_fields double_text snp_outer branch (None, None);
  match fst found with
  | None => Err NO_REPORT
  | Some raw =>
      if (length raw <? SNP_REPORT_BYTES)%nat then Err (SHORT_REPORT (length raw)) else Ok (raw, snd found)
  end.

(** The loop of [decodeEvidence]: the branch, of which there is to be one. *)
Definition branch_field (field : ProtoField) (found : option (RootEvidenceType * list N))
    : result jstr (option (RootEvidenceType * list N)) :=
  match field with
  | bytes_field number bytes =>
      match BRANCH_FIELDS number with
      | None => Ok found
      | Some t => match found with Some _ => Err MANY_BRANCHES | None => Ok (Some (t, bytes)) end
      end
  | _ => Ok found
  end.

Definition evidence_of (t : RootEvidenceType) (f : report_fields) : RootTeeEvidence :=
  let '(build, measurement, keyBinding, security) := f in
  {| te_type := t; te_label := LABELS t; te_registryFolder := FOLDERS t; te_build := build;
     te_reportMeasurement := measurement; te_keyBinding := keyBinding; te_security := security |}.

(** What the branch of a type carries. *)
Definition branch_fields (t : RootEvidenceType) (branch spki : list N) : result jstr report_fields :=
  match t with
  | tdx_azure => azureFields false branch spki
  | sev_snp_azure => azureFields true branch spki
  | tdx_qemu | tdx_gcp => Ok (None, None, None, None)
  | sev_snp_qemu =>
      report ← snpReport branch;
      security ← or_throw UNDEFINED_BIGINT (securityFieldsOf (fst report));
      Ok (snd report, Some (measurement_of (fst report)),
          Some (bindsPublicKey (subarray (fst report) SNP_REPORT_DATA_OFFSET SNP_REPORT_DATA_BYTES) spki),
          Some security)
  end.

Definition decodeEvidence (serialized spki : list N) : result jstr RootTeeEvidence :=
  if (length serialized =? 0)%nat then Err EMPTY_EVIDENCE
  else
    found ← for_fields double_text branch_field serialized None;
    match found with
    | None => Err NO_BRANCH
    | Some (t, branch) => evidence_of t <$> branch_fields t branch spki
    end.

Definition spkiDigest (root : cert) : list N := sha256 (publicKey_rawData root).

Definition network_type (text : jstr) : option RootNetworkType :=
  if jeqb text "trusted" then Some network_trusted
  else if jeqb text "untrusted" then Some network_untrusted else None.

Definition readRootAttestation (root : cert) : RootAttestation :=
  match getExtension root OID_CHALLENGE_TYPE, getExtension root OID_NETWORK_TYPE,
        getExtension root OID_TEE_EVIDENCE with
  | None, None, None => NO_ATTESTATION
  | challenge, network, evidenceBytes =>
      let text := extensionText <$> network in
      let networkType := text ≫= network_type in
      let networkError := match text, networkType with Some t, None => Some (BAD_NETWORK t) | _, _ => None end in
      let decoded := (fun bytes => decodeEvidence bytes (spkiDigest root)) <$> evidenceBytes in
      {| ra_challengeType := challenge ≫= fun c => or_null (extensionText c);
         ra_networkType := networkType;
         ra_carriesEvidence := match evidenceBytes with Some _ => true | None => false end;
         ra_evidence := match decoded with Some (Ok e) => Some e | _ => None end;
         ra_error := match decoded with Some (Err message) => Some message | _ => networkError end |}
  end.
End Reader.

(** ** Lemmas: the walker *)

(** A decidable property of the first [n] numbers, checked on each. *)
Lemma below_n (k : nat) (Q : N -> Prop) `{forall v, Decision (Q v)} :
  forallb (fun v => bool_decide (Q v)) (map N.of_nat (seq 0 k)) = true -> forall v, (v < N.of_nat k)%N -> Q v.
Proof.
  rewrite forallb_forall. intros Hp v Hv. apply (bool_decide_eq_true (Q v)), Hp, list_elem_of_In, list_elem_of_fmap.
  exists (N.to_nat v). split; [lia|]. apply elem_of_seq. lia.
Qed.

Lemma group_bits v : (v < 128)%N ->
  N.land v 127 = v /\ N.land v 128 = 0%N /\ N.land (v + 128) 127 = v /\ N.land (v + 128) 128 <> 0%N.
Proof.
  revert v. apply (below_n 128 (fun v => N.land v 127 = v /\ N.land v 128 = 0%N /\ N.land (v + 128) 127 = v /\
    N.land (v + 128) 128 <> 0%N)). vm_compute. reflexivity.
Qed.

(** A number is its low bits and its high ones. *)
Lemma split_bits n k : N.lor (n mod 2 ^ k) (N.shiftl (n / 2 ^ k) k) = n.
Proof.
  apply N.bits_inj. intros i. rewrite N.lor_spec. destruct (N.ltb_spec i k).
  - rewrite N.mod_pow2_bits_low, N.shiftl_spec_low by done. by rewrite orb_false_r.
  - rewrite N.mod_pow2_bits_high, N.shiftl_spec_high' by done. cbn [orb].
    rewrite N.div_pow2_bits. f_equal. lia.
Qed.

(** The varint of a protobuf writer, at most [groups] groups. *)
Fixpoint encode_groups (groups : nat) (n : N) : list N :=
  match groups with
  | O => []
  | S groups => if (n <? 128)%N then [n] else (n mod 128 + 128)%N :: encode_groups groups (n / 128)
  end.

Definition encode_varint (n : N) : list N := encode_groups MAX_VARINT_BYTES n.

Lemma lookup_after {A} (pre : list A) x post : (pre ++ x :: post) !! length pre = Some x.
Proof. by rewrite lookup_app_r, Nat.sub_diag by done. Qed.

Lemma varint_groups_encoded groups n pre post value shift :
  (n < 2 ^ (7 * N.of_nat groups))%N -> (0 < groups)%nat ->
  varint_groups groups (pre ++ encode_groups groups n ++ post) (length pre) value shift =
  Ok (N.lor value (N.shiftl n shift), (length pre + length (encode_groups groups n))%nat).
Proof.
  revert n pre value shift. induction groups as [|groups IH]; intros n pre value shift Hn Hg; [lia|].
  cbn [varint_groups encode_groups]. destruct (N.ltb_spec n 128) as [Hs|Hs].
  - cbn [app]. rewrite lookup_after. destruct (group_bits n Hs) as (-> & -> & _). cbn [length]. do 2 f_equal. lia.
  - assert (Hm : (n mod 128 < 128)%N) by (apply N.mod_lt; discriminate).
    cbn [app]. rewrite lookup_after. destruct (group_bits _ Hm) as (_ & _ & -> & Hne).
    rewrite (proj2 (N.eqb_neq _ _) Hne).
    replace (pre ++ (n mod 128 + 128)%N :: encode_groups groups (n / 128) ++ post)
      with ((pre ++ [(n mod 128 + 128)%N]) ++ encode_groups groups (n / 128) ++ post) by (by rewrite <- app_assoc).
    replace (S (length pre)) with (length (pre ++ [(n mod 128 + 128)%N])) by (rewrite length_app; cbn; lia).
    replace (7 * N.of_nat (S groups))%N with (7 + 7 * N.of_nat groups)%N in Hn by lia. rewrite N.pow_add_r in Hn.
    rewrite IH.
    + rewrite length_app. cbn [length]. f_equal. f_equal; [|lia]. rewrite <- N.lor_assoc. f_equal.
      rewrite (N.add_comm shift 7), <- N.shiftl_shiftl, <- N.shiftl_lor. f_equal. exact (split_bits n 7).
    + apply N.Div0.div_lt_upper_bound. exact Hn.
    + destruct groups; [|lia]. change (2 ^ 7 * 2 ^ (7 * N.of_nat 0))%N with 128%N in Hn. lia.
Qed.

Lemma varint_encoded n pre post : (n < 2 ^ 70)%N ->
  varint (pre ++ encode_varint n ++ post) (length pre) = Ok (n, (length pre + length (encode_varint n))%nat).
Proof.
  intros Hn. unfold varint, encode_varint. rewrite varint_groups_encoded by (exact Hn || (unfold MAX_VARINT_BYTES; lia)).
  by rewrite N.shiftl_0_r, N.lor_0_l.
Qed.

(** A field on the wire. *)
Inductive wire_field :=
| on_wire_bytes (number : N) (bytes : list N)
| on_wire_varint (number value : N)
| on_wire_fixed64 (number : N) (payload : list N)
| on_wire_fixed32 (number : N) (payload : list N).

Definition wire_number (w : wire_field) : N :=
  match w with
  | on_wire_bytes n _ | on_wire_varint n _ | on_wire_fixed64 n _ | on_wire_fixed32 n _ => n
  end.

Definition wire_type (w : wire_field) : N :=
  match w with on_wire_varint _ _ => 0 | on_wire_fixed64 _ _ => 1 | on_wire_bytes _ _ => 2 | on_wire_fixed32 _ _ => 5 end.

Definition wire_payload (w : wire_field) : list N :=
  match w with
  | on_wire_bytes _ bytes => encode_varint (N.of_nat (length bytes)) ++ bytes
  | on_wire_varint _ value => encode_varint value
  | on_wire_fixed64 _ p | on_wire_fixed32 _ p => p
  end.

Definition encode_field (w : wire_field) : list N := encode_varint (wire_number w * 8 + wire_type w) ++ wire_payload w.

Definition encode_message (fs : list wire_field) : list N := concat (map encode_field fs).

Definition read_field (w : wire_field) : ProtoField :=
  match w with
  | on_wire_bytes n bytes => bytes_field n bytes
  | on_wire_varint n value => varint_field n value
  | on_wire_fixed64 n _ | on_wire_fixed32 n _ => skipped_field n
  end.

(** A field number is not 0 and everything fits its ten groups. *)
Definition wire_ok (w : wire_field) : Prop :=
  (0 < wire_number w < 2 ^ 67)%N /\
  match w with
  | on_wire_bytes _ bytes => (N.of_nat (length bytes) < 2 ^ 70)%N
  | on_wire_varint _ value => (value < 2 ^ 70)%N
  | on_wire_fixed64 _ p => length p = 8%nat
  | on_wire_fixed32 _ p => length p = 4%nat
  end.

Lemma tag_parts number wire : (wire < 8)%N ->
  N.shiftr (number * 8 + wire) 3 = number /\ N.land (number * 8 + wire) 7 = wire.
Proof.
  intros Hw. rewrite N.shiftr_div_pow2. change 7%N with (N.ones 3). rewrite N.land_ones.
  change (2 ^ 3)%N with 8%N. split.
  - symmetry. apply (N.div_unique _ _ _ wire); lia.
  - symmetry. apply (N.mod_unique _ _ number); lia.
Qed.

Lemma encode_varint_nonempty n : (0 < length (encode_varint n))%nat.
Proof. unfold encode_varint, MAX_VARINT_BYTES. cbn [encode_groups]. destruct (n <? 128)%N; cbn [length]; lia. Qed.

Lemma encode_field_nonempty w : (0 < length (encode_field w))%nat.
Proof. unfold encode_field. rewrite length_app. pose proof (encode_varint_nonempty (wire_number w * 8 + wire_type w)). lia. Qed.

Section WalkerSpec.
Context (double_text : N -> jstr).

Lemma next_field_encoded pre w post : wire_ok w ->
  next_field double_text (pre ++ encode_field w ++ post) (length pre) =
  Ok (read_field w, (length pre + length (encode_field w))%nat).
Proof.
  intros [Hn Hw]. unfold next_field, encode_field.
  assert (Hwire : (wire_type w < 8)%N) by (by destruct w). destruct (tag_parts (wire_number w) _ Hwire) as [Hnum Hty].
  set (tag := (wire_number w * 8 + wire_type w)%N) in *.
  assert (Htag : (tag < 2 ^ 70)%N) by (unfold tag; change (2 ^ 70)%N with (2 ^ 67 * 8)%N; lia).
  set (head := pre ++ encode_varint tag).
  replace (pre ++ (encode_varint tag ++ wire_payload w) ++ post) with (pre ++ encode_varint tag ++ wire_payload w ++ post)
    by (by rewrite !app_assoc).
  rewrite varint_encoded by done. cbn [mbind result_bind fst snd]. cbv zeta. rewrite Hnum, Hty.
  replace (length pre + length (encode_varint tag))%nat with (length head) by (unfold head; by rewrite length_app).
  replace (pre ++ encode_varint tag ++ wire_payload w ++ post) with (head ++ wire_payload w ++ post)
    by (unfold head; by rewrite <- app_assoc).
  rewrite (proj2 (N.eqb_neq _ 0)) by lia.
  replace (length pre + length (encode_varint tag ++ wire_payload w))%nat with (length head + length (wire_payload w))%nat
    by (unfold head; rewrite !length_app; lia).
  destruct w as [number bytes|number value|number p|number p]; cbn [wire_type wire_payload read_field wire_number] in *.
  - change (2 =? 0)%N with false. change (2 =? 2)%N with true. cbv iota.
    rewrite <- app_assoc. rewrite varint_encoded by done. cbn [mbind result_bind fst snd].
    rewrite (proj2 (N.ltb_ge _ _)) by (rewrite !length_app; lia). cbv zeta. rewrite Nat2N.id.
    f_equal. f_equal; [|rewrite length_app; lia]. f_equal.
    rewrite app_assoc. replace (length head + length (encode_varint (N.of_nat (length bytes))))%nat
      with (length (head ++ encode_varint (N.of_nat (length bytes)))) by (by rewrite length_app).
    by rewrite drop_app_length, take_app_length.
  - change (0 =? 0)%N with true. cbv iota. rewrite varint_encoded by done. done.
  - change (1 =? 0)%N with false. change (1 =? 2)%N with false. change ((1 =? 1)%N || (1 =? 5)%N) with true. cbv iota zeta.
    change (1 =? 1)%N with true. cbv iota. rewrite (proj2 (Nat.ltb_ge _ _)) by (rewrite !length_app; lia). by rewrite Hw.
  - change (5 =? 0)%N with false. change (5 =? 2)%N with false. change ((5 =? 1)%N || (5 =? 5)%N) with true. cbv iota zeta.
    change (5 =? 1)%N with false. cbv iota. rewrite (proj2 (Nat.ltb_ge _ _)) by (rewrite !length_app; lia). by rewrite Hw.
Qed.

(** What a loop does with the fields one after the other. *)
Fixpoint visit {A} (body : ProtoField -> A -> result jstr A) (fs : list ProtoField) (acc : A) : result jstr A :=
  match fs with
  | [] => Ok acc
  | f :: fs => acc ← body f acc; visit body fs acc
  end.

Lemma fields_from_encoded {A} (body : ProtoField -> A -> result jstr A) fs fuel pre acc :
  Forall wire_ok fs -> (length (encode_message fs) <= fuel)%nat ->
  fields_from double_text fuel body (pre ++ encode_message fs) (length pre) acc = visit body (map read_field fs) acc.
Proof.
  intros Hfs. revert fuel pre acc. induction Hfs as [|w fs Hw _ IH]; intros fuel pre acc Hfuel.
  - rewrite app_nil_r. destruct fuel; [done|]. cbn [fields_from]. by rewrite Nat.ltb_irrefl.
  - change (encode_message (w :: fs)) with (encode_field w ++ encode_message fs) in *.
    rewrite length_app in Hfuel. pose proof (encode_field_nonempty w). destruct fuel as [|fuel]; [lia|].
    cbn [fields_from map visit]. rewrite (proj2 (Nat.ltb_lt _ _)) by (rewrite !length_app; lia).
    rewrite next_field_encoded by done. cbn [mbind result_bind fst snd].
    destruct (body (read_field w) acc) as [acc'|m]; [|done]. cbn [mbind result_bind].
    rewrite <- length_app, app_assoc. apply IH. lia.
Qed.

(** A turn reads forward, within the message, and a [bytes] field is a part of it. *)
Lemma varint_groups_forward groups message at_ value shift r :
  varint_groups groups message at_ value shift = Ok r -> (at_ < snd r <= length message)%nat.
Proof.
  revert at_ value shift. induction groups as [|groups IH]; intros at_ value shift; cbn [varint_groups]; [done|].
  destruct (message !! at_) as [b|] eqn:E; [|done]. apply lookup_lt_Some in E. cbv zeta.
  destruct (_ =? 0)%N; [intros [= <-]; cbn; lia|]. intros H%IH. lia.
Qed.

Lemma next_field_forward message cursor f next :
  next_field double_text message cursor = Ok (f, next) ->
  (cursor < next <= length message)%nat /\
  forall n bytes, f = bytes_field n bytes -> bytes = subarray message (next - length bytes) (length bytes).
Proof.
  unfold next_field. intros (tag & Ht%varint_groups_forward & H)%bind_ok. cbv zeta in H.
  destruct (_ =? 0)%N in H; [done|]. destruct (_ =? 0)%N in H.
  { apply bind_ok in H as (v & Hv%varint_groups_forward & [= <- <-]). split; [lia|done]. }
  destruct (_ =? 2)%N in H.
  { apply bind_ok in H as (len & Hl%varint_groups_forward & H). destruct (N.ltb_spec (N.of_nat (length message)) (N.of_nat (snd len) + fst len)); [done|].
    injection H as <- <-. split; [lia|]. intros n bytes [= _ <-]. unfold subarray.
    rewrite length_take, length_drop, Nat.min_l by lia. by rewrite Nat.add_sub. }
  destruct (_ || _) in H; [|done]. destruct (Nat.ltb_spec (length message) (snd tag + (if (N.land (fst tag) 7 =? 1)%N then 8 else 4)));
    [done|]. injection H as <- <-. split; [|done]. destruct (_ =? 1)%N in *; lia.
Qed.

(** Enough fuel is as good as any: what the loop answers does not depend on it. *)
Lemma fields_from_fuel {A} (body : ProtoField -> A -> result jstr A) message fuel fuel' cursor acc :
  (length message - cursor <= fuel)%nat -> (length message - cursor <= fuel')%nat ->
  fields_from double_text fuel body message cursor acc = fields_from double_text fuel' body message cursor acc.
Proof.
  revert fuel' cursor acc. induction fuel as [|fuel IH]; intros fuel' cursor acc H H'.
  - destruct fuel'; [done|]. cbn [fields_from]. by rewrite (proj2 (Nat.ltb_ge _ _)) by lia.
  - destruct fuel' as [|fuel'].
    + cbn [fields_from]. by rewrite (proj2 (Nat.ltb_ge _ _)) by lia.
    + cbn [fields_from]. destruct (Nat.ltb_spec cursor (length message)); [|done].
      destruct (next_field double_text message cursor) as [[f next]|m] eqn:E; [|done]. cbn [mbind result_bind fst snd].
      destruct (body f acc) as [acc'|m]; [|done]. cbn [mbind result_bind].
      apply next_field_forward in E as [E _]. apply IH; lia.
Qed.

(** The walker reads what a protobuf writer writes and stops on anything
    else: over an encoded message the loop visits its fields, in order and
    nothing else; over any bytes each turn moves the cursor forward within them
    and hands the body a part of them, and the loop is the one without fuel. *)
Theorem for_fields_spec {A} (body : ProtoField -> A -> result jstr A) (acc : A) :
  (forall fs, Forall wire_ok fs ->
     for_fields double_text body (encode_message fs) acc = visit body (map read_field fs) acc) /\
  (forall message cursor f next, next_field double_text message cursor = Ok (f, next) ->
     (cursor < next <= length message)%nat /\
     forall n bytes, f = bytes_field n bytes -> bytes = subarray message (next - length bytes) (length bytes)) /\
  (forall message cursor fuel,
     (length message - cursor <= fuel)%nat ->
     fields_from double_text fuel body message cursor acc =
     if (cursor <? length message)%nat then
       next ← next_field double_text message cursor;
       acc' ← body (fst next) acc;
       fields_from double_text fuel body message (snd next) acc'
     else Ok acc).
Proof.
  split_and!.
  - intros fs Hfs. apply (fields_from_encoded body fs _ []); done.
  - apply next_field_forward.
  - intros message cursor fuel Hf. rewrite (fields_from_fuel body message fuel (S fuel)) by lia.
    cbn [fields_from]. destruct (Nat.ltb_spec cursor (length message)); [|done].
    destruct (next_field double_text message cursor) as [[f next]|m] eqn:E; [|done]. done.
Qed.
End WalkerSpec.

(** ** Lemmas: the report *)

Lemma bitSet_testbit v b : bitSet v b = N.testbit v b.
Proof.
  unfold bitSet. assert (H : N.land (N.shiftr v b) 1 = N.b2n (N.testbit v b)).
  { apply N.bits_inj. intros i. rewrite N.land_spec, N.shiftr_spec'. destruct (N.eqb_spec i 0) as [->|Hi].
    - rewrite N.add_0_l. by destruct (N.testbit v b).
    - replace (N.testbit 1 i) with false by (symmetry; apply (N.bits_above_log2 1 i); cbn; lia).
      rewrite andb_false_r. symmetry. apply N.bits_above_log2. destruct (N.testbit v b); cbn; lia. }
  rewrite H. by destruct (N.testbit v b).
Qed.

Lemma byte_bits_above b i : (b < 256)%N -> (8 <= i)%N -> N.testbit b i = false.
Proof.
  intros Hb Hi. replace b with (b mod 2 ^ 8)%N by (apply N.mod_small; exact Hb). by apply N.mod_pow2_bits_high.
Qed.

(** Bit [i] of a little-endian word is bit [i mod 8] of byte [i / 8]. *)
Lemma read_le_testbit bytes offset width value acc : Forall (fun b => (b < 256)%N) bytes ->
  read_le bytes offset width acc = Some value ->
  forall k i byte, (k < width)%nat -> (i < 8)%N -> bytes !! (offset + k)%nat = Some byte ->
    N.testbit value (8 * N.of_nat k + i) = N.testbit byte i.
Proof.
  intros Hb. revert acc. induction width as [|width IH]; intros acc Hr k i byte Hk Hi Hbyte; [lia|].
  cbn [read_le] in Hr. destruct (bytes !! (offset + width)%nat) as [top|] eqn:Et; [|done]. cbn [mbind option_bind] in Hr.
  destruct (decide (k = width)) as [->|Hne]; [|by apply (IH _ Hr); [lia|..]].
  assert (Hhigh : forall w acc v, read_le bytes offset w acc = Some v -> forall j,
      N.testbit v (8 * N.of_nat w + j) = N.testbit acc j).
  { clear -Hb. induction w as [|w IHw]; intros acc v Hr j; cbn [read_le] in Hr.
    - injection Hr as <-. f_equal.
    - destruct (bytes !! (offset + w)%nat) as [b|] eqn:Eb; [|done]. cbn [mbind option_bind] in Hr.
      replace (8 * N.of_nat (S w) + j)%N with (8 * N.of_nat w + (8 + j))%N by lia.
      rewrite (IHw _ _ Hr), N.lor_spec, (byte_bits_above b) by (lia || exact (Forall_lookup_1 _ _ _ _ Hb Eb)).
      rewrite orb_false_r, N.shiftl_spec_high' by lia. f_equal. lia. }
  rewrite (Hhigh _ _ _ Hr), N.lor_spec, N.shiftl_spec_low by done. cbn [orb]. congruence.
Qed.

Lemma read_le_some bytes offset width acc : (offset + width <= length bytes)%nat -> is_Some (read_le bytes offset width acc).
Proof.
  revert acc. induction width as [|width IH]; intros acc H; [by eexists|]. cbn [read_le].
  destruct (lookup_lt_is_Some_2 bytes (offset + width)%nat ltac:(lia)) as [b ->]. cbn [mbind option_bind]. apply IH. lia.
Qed.

(** Every read of the report is within its 1184 bytes. *)
Lemma securityFieldsOf_some report : (SNP_REPORT_BYTES <= length report)%nat ->
  exists s policy, securityFieldsOf report = Some s /\ readUint64LE report SNP_POLICY_OFFSET = Some policy /\
    rs_policy s = policyOf policy.
Proof.
  unfold SNP_REPORT_BYTES. intros Hl. unfold securityFieldsOf, readUint32LE, readUint64LE, readUintLE.
  repeat match goal with |- context [read_le report ?o ?w 0] =>
    let H := fresh in let v := fresh "v" in
    destruct (read_le_some report o w 0) as [v H]; [vm_compute in Hl |- *; lia|]; rewrite !H; clear H; cbn [mbind option_bind]
  end. by eexists _, _.
Qed.

Lemma bindsPublicKey_spec reportData spki : length spki = SPKI_DIGEST_BYTES ->
  (bindsPublicKey reportData spki = true <-> take SPKI_DIGEST_BYTES reportData = spki).
Proof.
  unfold bindsPublicKey, SPKI_DIGEST_BYTES. intros Hs. rewrite Hs, Nat.eqb_refl. cbn [negb orb].
  destruct (Nat.ltb_spec (length reportData) 32) as [H|H].
  - split; [done|]. intros <-. rewrite length_take in Hs. lia.
  - assert (Hl : length (take 32 reportData) = length spki) by (rewrite length_take; lia).
    pose proof (fingerprintsEqual_spec (Js (take 32 reportData)) (Js spki)) as Hf.
    unfold fingerprintsEqual, jlength in Hf. cbn [units] in Hf. rewrite Hl, Z.eqb_refl in Hf. cbn [negb] in Hf.
    rewrite Hf. split; [by intros [= ->]|by intros ->].
Qed.

(** ** What the reader promises *)

Section ReaderSpec.
Context `{P : Platform} {C : Crypto} (double_text : N -> jstr).

(** The hardware branches among the fields of a message. *)
Definition branch_of (w : wire_field) : option (RootEvidenceType * list N) :=
  match w with
  | on_wire_bytes n bytes => (fun t => (t, bytes)) <$> BRANCH_FIELDS n
  | _ => None
  end.

Lemma visit_branches fs found :
  visit branch_field (map read_field fs) found =
  match found, omap branch_of fs with
  | _, [] => Ok found
  | None, [b] => Ok (Some b)
  | _, _ => Err MANY_BRANCHES
  end.
Proof.
  revert found. induction fs as [|w fs IH]; intros found; [by destruct found|]. cbn [map visit].
  assert (Hskip : branch_of w = None -> branch_field (read_field w) found = Ok found).
  { destruct w as [n b|n v|n p|n p]; try done. cbn. by destruct (BRANCH_FIELDS n). }
  change (omap branch_of (w :: fs)) with
    (match branch_of w with Some b => b :: omap branch_of fs | None => omap branch_of fs end).
  destruct (branch_of w) as [tb|] eqn:Ew.
  - destruct w as [n b|n v|n p|n p]; try done. cbn in Ew |- *. destruct (BRANCH_FIELDS n) as [t|]; [|done].
    injection Ew as <-. destruct found as [f|]; [done|]. cbn [mbind result_bind]. rewrite IH.
    by destruct (omap branch_of fs).
  - rewrite Hskip by done. cbn [mbind result_bind]. apply IH.
Qed.

(** A message means its one hardware branch: whatever other fields a newer
    producer adds, in whatever order, the evidence is that of the branch; two
    branches are refused and none is unrecognised, rather than resolved. *)
Lemma decodeEvidence_of fs spki : Forall wire_ok fs -> fs <> [] ->
  decodeEvidence double_text (encode_message fs) spki =
  match omap branch_of fs with
  | [] => Err NO_BRANCH
  | [(t, branch)] => evidence_of t <$> branch_fields double_text t branch spki
  | _ => Err MANY_BRANCHES
  end.
Proof.
  intros Hfs Hne. unfold decodeEvidence. destruct fs as [|w fs]; [done|]. clear Hne.
  rewrite (proj2 (Nat.eqb_neq _ 0)).
  2:{ change (encode_message (w :: fs)) with (encode_field w ++ encode_message fs). rewrite length_app.
      pose proof (encode_field_nonempty w). lia. }
  pose proof (fields_from_encoded double_text branch_field (w :: fs) (length (encode_message (w :: fs))) [] None Hfs
    ltac:(lia)) as Hw.
  unfold for_fields. cbn [app length] in Hw. rewrite Hw, visit_branches.
  destruct (omap branch_of (w :: fs)) as [|[t b] [|]]; done.
Qed.

(** The payloads of the [bytes] fields with one number. *)
Definition parts (number : N) (fs : list wire_field) : list (list N) :=
  omap (fun w => match w with on_wire_bytes n bytes => if (n =? number)%N then Some bytes else None | _ => None end) fs.

Definition latest {A} (l : list A) (d : option A) : option A := match last l with Some x => Some x | None => d end.

Lemma latest_cons {A} (x : A) l d : latest (x :: l) d = latest l (Some x).
Proof. unfold latest. rewrite last_cons. by destruct (last l). Qed.

Lemma latest_app {A} (l1 l2 : list A) d : latest (l1 ++ l2) d = latest l2 (latest l1 d).
Proof. revert d. induction l1 as [|x l1 IH]; intros d; [done|]. cbn [app]. by rewrite !latest_cons. Qed.

Definition build_of (bytes : list N) : option jstr := or_null (jtrim (TextDecoder bytes)).

(** The last field 1 is the report, the last field 5 the build, over all that came before. *)
Lemma visit_inner hs : forall raw build,
  visit snp_inner (map read_field hs) (raw, build) = Ok (latest (parts 1 hs) raw, mjoin (latest (map build_of (parts 5 hs)) (Some build))).
Proof.
  induction hs as [|w hs IH]; intros raw build; [done|]. cbn [map visit].
  destruct w as [n b|n v|n q|n q]; cbn [read_field snp_inner mbind result_bind]; rewrite IH; try done.
  unfold parts. cbn [omap list_omap]. fold (parts 1 hs) (parts 5 hs).
  destruct (N.eqb_spec n 1) as [->|H1]; [by rewrite latest_cons|].
  destruct (N.eqb_spec n 5) as [->|H5]; [|done]. cbn [map]. by rewrite latest_cons.
Qed.

Lemma visit_outer gs : forall hss raw build,
  parts 1 gs = map encode_message hss -> Forall (Forall wire_ok) hss ->
  visit (snp_outer double_text) (map read_field gs) (raw, build) =
  Ok (latest (parts 1 (concat hss)) raw, mjoin (latest (map build_of (parts 5 (concat hss))) (Some build))).
Proof.
  induction gs as [|w gs IH]; intros hss raw build Hp Hok; [by destruct hss|]. cbn [map visit].
  assert (Hskip : parts 1 (w :: gs) = parts 1 gs -> snp_outer double_text (read_field w) (raw, build) = Ok (raw, build) ->
    (acc ← snp_outer double_text (read_field w) (raw, build); visit (snp_outer double_text) (map read_field gs) acc) =
    Ok (latest (parts 1 (concat hss)) raw, mjoin (latest (map build_of (parts 5 (concat hss))) (Some build)))).
  { intros Hs ->. cbn [mbind result_bind]. apply IH; [congruence|done]. }
  destruct w as [n b|n v|n q|n q]; try (by apply Hskip).
  destruct (N.eqb_spec n 1) as [->|H1].
  2:{ apply Hskip; cbn; by rewrite (proj2 (N.eqb_neq _ _) H1). }
  destruct hss as [|hs hss]; [done|]. injection Hp as -> Hp. apply Forall_cons in Hok as [Hhs Hok].
  cbn [read_field snp_outer]. change (1 =? 1)%N with true. cbv iota.
  rewrite (proj1 (for_fields_spec double_text snp_inner _)) by done. rewrite visit_inner. cbn [mbind result_bind].
  rewrite (IH hss) by done. cbn [concat]. unfold parts. rewrite !omap_app, !map_app. fold (parts 1 hs) (parts 5 hs).
  rewrite !latest_app. do 2 f_equal. by destruct (latest (map build_of (parts 5 hs)) (Some build)) eqn:E;
    [|unfold latest in E; destruct (last _)].
Qed.

(** The [bytes] fields of the five numbers a hardware branch may have. *)
Definition hardware (fs : list wire_field) : list (N * list N) :=
  omap (fun w => match w with on_wire_bytes n bytes => if (1 <=? n)%N && (n <=? 5)%N then Some (n, bytes) else None | _ => None end) fs.

Lemma hardware_branches fs :
  omap branch_of fs = omap (fun p => (fun t => (t, snd p)) <$> BRANCH_FIELDS (fst p)) (hardware fs).
Proof.
  induction fs as [|w fs IH]; [done|]. destruct w as [n b|n v|n q|n q]; try done. unfold hardware. cbn [omap list_omap branch_of].
  fold (hardware fs). destruct ((1 <=? n)%N && (n <=? 5)%N) eqn:E.
  - cbn [omap list_omap fst snd]. rewrite IH. done.
  - assert (Hn : BRANCH_FIELDS n = None).
    { unfold BRANCH_FIELDS. destruct n as [|[[[|[]|]|[|[]|]|]|[[|[]|]|[|[]|]|]|]]; done. }
    rewrite Hn. exact IH.
Qed.

(** What the fields of a message say the report and the build are. *)
Lemma snpReport_fields gs hss report :
  Forall wire_ok gs -> parts 1 gs = map encode_message hss -> Forall (Forall wire_ok) hss ->
  last (parts 1 (concat hss)) = Some report ->
  snpReport double_text (encode_message gs) =
  if (length report <? SNP_REPORT_BYTES)%nat then Err (SHORT_REPORT (length report))
  else Ok (report, last (parts 5 (concat hss)) ≫= build_of).
Proof.
  intros Hg Hp Hh Hr. unfold snpReport. rewrite (proj1 (for_fields_spec double_text _ _)) by done.
  rewrite (visit_outer gs hss) by done. cbn [mbind result_bind fst snd]. unfold latest. rewrite Hr, !fmap_last.
  destruct (_ <? _)%nat; [done|]. by destruct (last (parts 5 _)).
Qed.

Lemma branch_fields_snp branch spki report build : length spki = SPKI_DIGEST_BYTES ->
  snpReport double_text branch = Ok (report, build) -> (SNP_REPORT_BYTES <= length report)%nat ->
  exists security policy binds,
    branch_fields double_text sev_snp_qemu branch spki =
      Ok (build, Some (toHex (subarray report 144 48)), Some binds, Some security) /\
    readUint64LE report SNP_POLICY_OFFSET = Some policy /\ rs_policy security = policyOf policy /\
    (binds = true <-> subarray report 80 32 = spki).
Proof.
  intros Hd Hr Hlen. destruct (securityFieldsOf_some _ Hlen) as (s & policy & Hs & Hp & Hpo).
  eexists s, policy, _. unfold branch_fields. rewrite Hr. cbn [mbind result_bind fst snd]. rewrite Hs.
  split_and!; [done..|]. rewrite bindsPublicKey_spec by done.
  unfold subarray, SPKI_DIGEST_BYTES, SNP_REPORT_DATA_OFFSET, SNP_REPORT_DATA_BYTES. by rewrite take_take.
Qed.

(** C36. What a SEV-SNP root's evidence says is what the report in its certificate says.
    Take a root whose evidence extension is a message of fields [fs] whose only hardware
    branch (fields 1 to 5) is a field 1, a message of fields [gs]; [report] is the last field 1 of the messages in the
    fields 1 of [gs].  A report below 1184 bytes is refused with its length.  Otherwise
    there is evidence, of a SEV-SNP machine: its measurement is bytes 144 to 191 of that
    report, its build the text of the last field 5 beside it, the key binding holds
    exactly when bytes 80 to 111 are the digest of this certificate's public key, and a
    policy flag is its bit of the little-endian policy word at byte 8, the debug flag
    bit 3 of the report's eleventh byte. *)
Theorem snp_evidence_sound root fs gs hss report :
  length (spkiDigest root) = SPKI_DIGEST_BYTES ->
  getExtension root OID_TEE_EVIDENCE = Some (encode_message fs) -> Forall wire_ok fs ->
  hardware fs = [(1%N, encode_message gs)] -> Forall wire_ok gs ->
  parts 1 gs = map encode_message hss -> Forall (Forall wire_ok) hss -> last (parts 1 (concat hss)) = Some report ->
  let a := readRootAttestation double_text root in
  if (length report <? 1184)%nat then ra_evidence a = None /\ ra_error a = Some (SHORT_REPORT (length report))
  else exists e security policy binds,
    ra_evidence a = Some e /\ te_type e = sev_snp_qemu /\
    te_build e = last (parts 5 (concat hss)) ≫= build_of /\
    te_reportMeasurement e = Some (toHex (subarray report 144 48)) /\
    te_keyBinding e = Some binds /\ (binds = true <-> subarray report 80 32 = sha256 (publicKey_rawData root)) /\
    te_security e = Some security /\ readUint64LE report SNP_POLICY_OFFSET = Some policy /\
    po_smtAllowed (rs_policy security) = N.testbit policy 16 /\
    po_debugAllowed (rs_policy security) = N.testbit policy 19 /\
    po_ciphertextHiding (rs_policy security) = N.testbit policy 24 /\
    (Forall (fun b => (b < 256)%N) report -> forall byte, report !! 10%nat = Some byte ->
       po_debugAllowed (rs_policy security) = N.testbit byte 3).
Proof.
  intros Hd He Hfs Hw Hgs Hp Hh Hr. cbv zeta. pose proof (snpReport_fields gs hss report Hgs Hp Hh Hr) as Hrep.
  assert (Hb : omap branch_of fs = [(sev_snp_qemu, encode_message gs)]) by (by rewrite hardware_branches, Hw).
  assert (Hne : fs <> []) by (by intros ->). pose proof (decodeEvidence_of fs (spkiDigest root) Hfs Hne) as Hdec. rewrite Hb in Hdec.
  assert (Ha : ra_evidence (readRootAttestation double_text root) =
                 match decodeEvidence double_text (encode_message fs) (spkiDigest root) with Ok e => Some e | Err _ => None end /\
               forall m, decodeEvidence double_text (encode_message fs) (spkiDigest root) = Err m ->
                 ra_error (readRootAttestation double_text root) = Some m).
  { unfold readRootAttestation. rewrite He. split; [|intros m Hm]; destruct (getExtension root OID_CHALLENGE_TYPE),
      (getExtension root OID_NETWORK_TYPE); cbn [fmap option_fmap option_map ra_evidence ra_error]; rewrite ?Hm; done. }
  destruct Ha as [Ha Herr]. rewrite Hdec in Ha, Herr. change 1184%nat with SNP_REPORT_BYTES.
  destruct (Nat.ltb_spec (length report) SNP_REPORT_BYTES) as [Hlt|Hlen].
  { unfold branch_fields in Ha, Herr. rewrite Hrep in Ha, Herr. split; [done|by apply Herr]. }
  destruct (branch_fields_snp _ _ _ _ Hd Hrep Hlen) as (s & policy & binds & Hf & Hpol & Hpo & Hbind). rewrite Hf in Ha.
  eexists _, s, policy, binds. split; [exact Ha|]. cbn [evidence_of te_type te_build te_reportMeasurement te_keyBinding te_security].
  rewrite Hpo. cbn [policyOf po_smtAllowed po_debugAllowed po_ciphertextHiding]. rewrite !bitSet_testbit. split_and!; try done.
  intros Hbytes byte Hbyte. unfold readUint64LE, readUintLE, SNP_POLICY_OFFSET in Hpol.
  exact (read_le_testbit _ _ _ _ _ Hbytes Hpol 2%nat 3%N byte ltac:(lia) ltac:(lia) Hbyte).
Qed.

(** No evidence and unreadable evidence are different answers: a root is
    said to carry evidence exactly when the extension is there; evidence is only
    ever reported for such a root, and when it cannot be decoded the error says
    why; without an error everything present was understood, and an error always
    means something present was not. *)
Theorem readRootAttestation_honest root :
  let a := readRootAttestation double_text root in
  let decoded := (fun bytes => decodeEvidence double_text bytes (spkiDigest root)) <$> getExtension root OID_TEE_EVIDENCE in
  let network := extensionText <$> getExtension root OID_NETWORK_TYPE in
  (ra_carriesEvidence a = true <-> is_Some (getExtension root OID_TEE_EVIDENCE)) /\
  (forall e, ra_evidence a = Some e <-> decoded = Some (Ok e)) /\
  (forall message, decoded = Some (Err message) -> ra_error a = Some message) /\
  (ra_error a = None -> forall text, network = Some text -> is_Some (ra_networkType a)) /\
  (is_Some (ra_error a) -> (ra_carriesEvidence a = true /\ ra_evidence a = None) \/
                           (is_Some network /\ ra_networkType a = None)).
Proof.
  cbv zeta. unfold readRootAttestation.
  destruct (getExtension root OID_CHALLENGE_TYPE), (getExtension root OID_NETWORK_TYPE) as [n|],
    (getExtension root OID_TEE_EVIDENCE) as [bytes|];
    cbn [ra_carriesEvidence ra_evidence ra_error ra_networkType NO_ATTESTATION fmap option_fmap option_map mbind option_bind];
    try (destruct (network_type (extensionText n)) as [t|]);
    try (destruct (decodeEvidence double_text bytes (spkiDigest root)) as [d|m]).
  all: split_and!; try (split; by eauto); try naive_solver.
Qed.

(** The reason a network type was not understood is lost when the evidence beside
    it cannot be decoded either: the error is the evidence's alone, and the answer
    is the one of a root without a network type. *)
Theorem network_error_overwritten root network bytes message :
  getExtension root OID_NETWORK_TYPE = Some network -> network_type (extensionText network) = None ->
  getExtension root OID_TEE_EVIDENCE = Some bytes -> decodeEvidence double_text bytes (spkiDigest root) = Err message ->
  ra_networkType (readRootAttestation double_text root) = None /\
  ra_error (readRootAttestation double_text root) = Some message.
Proof.
  intros Hn Ht He Hd. unfold readRootAttestation. rewrite Hn, He. cbn [fmap option_fmap option_map mbind option_bind].
  rewrite Ht, Hd. by destruct (getExtension root OID_CHALLENGE_TYPE).
Qed.
End ReaderSpec.

(** ** A root to read

    A report whose bytes are zero but for the debug bit and a [REPORT_DATA] that
    commits to the key, in an evidence message beside a field of a newer version. *)

Definition toy_key : list N := replicate 32 7%N.

Definition toy_report : list N :=
  replicate 10 0%N ++ [8%N] ++ replicate 69 0%N ++ toy_key ++ replicate 1072 0%N.

Definition toy_inner : list wire_field := [on_wire_bytes 1 toy_report; on_wire_bytes 5 (units "build-370")].

Definition toy_outer : list wire_field := [on_wire_bytes 1 (encode_message toy_inner)].

Definition toy_message : list wire_field :=
  [on_wire_varint 9 300; on_wire_bytes 1 (encode_message toy_outer); on_wire_fixed32 12 [1; 2; 3; 4]%N].

#[local] Existing Instance toy_crypto.

(** The platform of [Attestation] with a root that carries it. *)
#[local] Instance toy_root_x509 : X509Library := {|
  cert := unit;
  X509Certificate _ := Ok tt;
  subject _ := "root";
  issuer _ := "root";
  notBefore _ := 0;
  notAfter _ := 1000000;
  rawData _ := [];
  signature _ := [];
  publicKey_rawData _ := toy_key;
  publicKey_algorithm _ := ("RSASSA-PKCS1-v1_5" : jstr, None);
  getBasicConstraints _ := None;
  getKeyUsages _ := None;
  getExtension _ oid := if jeqb oid OID_TEE_EVIDENCE then Some (encode_message toy_message)
                        else if jeqb oid OID_NETWORK_TYPE then Some (units "trusted") else None;
  keyCertSign := 4;
  verify_signature _ _ := Ok true
|}.

#[local] Instance toy_root_platform : @Platform toy_root_x509 := {|
  CryptoKey := unit;
  export_key _ := Ok tt;
  compactVerify_RS256 jws _ := Ok (units jws);
  decodeProtectedHeader _ := Err "none";
  TextEncoder := units;
  TextDecoder := Js;
  JSON_parse _ := Err "not JSON";
  Date_parse _ := None;
  atob_message := "invalid"
|}.

Ltac wire_fields :=
  repeat apply Forall_cons_2; [..|apply Forall_nil_2]; (split; [cbn [wire_number]; lia|]); first [lia|vm_compute; reflexivity].

Lemma toy_inner_ok : Forall wire_ok toy_inner.
Proof. wire_fields. Qed.

Lemma toy_outer_ok : Forall wire_ok toy_outer.
Proof. wire_fields. Qed.

Lemma toy_message_ok : Forall wire_ok toy_message.
Proof.
  repeat apply Forall_cons_2; [..|apply Forall_nil_2]; (split; [cbn [wire_number]; lia|]); [lia| |reflexivity].
  vm_compute. reflexivity.
Qed.

Lemma snp_evidence_sound_witness :
  exists e security policy,
    ra_evidence (readRootAttestation (P := toy_root_platform) (fun _ => Js []) tt) = Some e /\
    te_type e = sev_snp_qemu /\ te_keyBinding e = Some true /\ te_build e = Some ("build-370" : jstr) /\ te_security e = Some security /\
    po_debugAllowed (rs_policy security) = N.testbit policy 19 /\ N.testbit policy 19 = true.
Proof.
  pose proof (snp_evidence_sound (P := toy_root_platform) (C := toy_crypto) (fun _ => Js []) tt toy_message toy_outer [toy_inner] toy_report
    ltac:(vm_compute; reflexivity) eq_refl toy_message_ok eq_refl toy_outer_ok eq_refl (Forall_cons_2 _ _ _ toy_inner_ok (Forall_nil_2 _)) eq_refl) as H.
  cbv zeta in H. change (length toy_report <? 1184)%nat with false in H. cbv iota in H.
  destruct H as (e & security & policy & binds & He & Ht & Hbuild & _ & Hk & Hbind & Hsec & Hpol & _ & Hdbg & _).
  exists e, security, policy. split_and!; [assumption|assumption|..|assumption|assumption|].
  - rewrite Hk. f_equal. apply Hbind. vm_compute. reflexivity.
  - rewrite Hbuild. vm_compute. reflexivity.
  - vm_compute in Hpol. injection Hpol as <-. vm_compute. reflexivity.
Defined.
