(* ===== verification/StatusProjection.v ===== *)
(** * Projecting a sidecar verdict onto an endpoint row

    [external-endpoints/status-projection.ts].  The verdict columns of an
    [ExternalEndpoint] are one record, the patch type of the source, so that
    spreading a patch over a row replaces that record. *)

From S2P Require Import Prelude JsString JsDate.

(** ** Data *)

Inductive ExternalEndpointStatus := pending | verified | denied | disabled_status.

#[global] Instance status_eq_dec : EqDecision ExternalEndpointStatus.
Proof. solve_decision. Defined.

Definition status_eqb (a b : ExternalEndpointStatus) : bool :=
  match a, b with
  | pending, pending | verified, verified | denied, denied | disabled_status, disabled_status => true
  | _, _ => false
  end.

Definition status_text (s : ExternalEndpointStatus) : jstr :=
  match s with
  | pending => "pending" | verified => "verified" | denied => "denied" | disabled_status => "disabled"
  end.

(** The columns a verdict may write. *)
Record ExternalEndpointStatusPatch := {
  status : ExternalEndpointStatus;
  lastCheckedAt : option Z;
  lastStage : option jstr;
  lastReason : option jstr;
  measurementSeen : option jstr;
  measurementSource : option jstr;
  measurementInRegistry : option bool;
  evidenceDigestSeen : option jstr;
  pinnedCertFingerprint : option jstr;
  observedCertFingerprint : option jstr;
  lastSuccessAt : option Z;
  lastFailureAt : option Z;
  notServingSince : option Z;
  consecutiveFailures : Z;
  upstreamUnreachable : option bool
}.

#[global] Instance patch_eq_dec : EqDecision ExternalEndpointStatusPatch.
Proof. solve_decision. Defined.

Record ExternalEndpoint := {
  ee_id : jstr;
  ee_name : jstr;
  ee_hostname : jstr;
  ee_baseUrl : jstr;
  ee_listenPort : Z;
  ee_apiKeyCiphertext : jstr;
  ee_enabled : bool;
  ee_pinnedEvidenceDigest : option jstr;
  ee_columns : ExternalEndpointStatusPatch
}.

(** [{ ...endpoint, ...patch }] *)
Definition with_patch (e : ExternalEndpoint) (p : ExternalEndpointStatusPatch) : ExternalEndpoint :=
  {| ee_id := ee_id e; ee_name := ee_name e; ee_hostname := ee_hostname e; ee_baseUrl := ee_baseUrl e;
     ee_listenPort := ee_listenPort e; ee_apiKeyCiphertext := ee_apiKeyCiphertext e; ee_enabled := ee_enabled e;
     ee_pinnedEvidenceDigest := ee_pinnedEvidenceDigest e; ee_columns := p |}.

Inductive ExternalEndpointEventKind :=
| registered_event | verified_event | denied_event | digest_changed | digest_pinned | digest_unpinned
| measurement_changed | disabled_event | key_rotated | outage_event | recovered_event | verdict_expired.

#[global] Instance event_kind_eq_dec : EqDecision ExternalEndpointEventKind.
Proof. solve_decision. Defined.

Record ProjectedEvent := {
  ev_kind : ExternalEndpointEventKind;
  ev_stage : option jstr;
  ev_reason : option jstr;
  ev_measurement : option jstr;
  ev_evidenceDigest : option jstr
}.

Record ProjectedVerdict := {
  pv_patch : ExternalEndpointStatusPatch;
  pv_events : list ProjectedEvent;
  pv_statusChanged : bool;
  pv_patchChanged : bool
}.

Inductive SidecarRefusal := digest_not_pinned | measurement_not_trusted | digest_mismatch.

Definition refusal_text (r : SidecarRefusal) : jstr :=
  match r with
  | digest_not_pinned => "digest-not-pinned"
  | measurement_not_trusted => "measurement-not-trusted"
  | digest_mismatch => "digest-mismatch"
  end.

Record SidecarAttestedRoot := {
  ar_measurement : option jstr;
  ar_measurementSource : option jstr;
  ar_inRegistry : option bool
}.

(** [checkedAt] is the instant the report's timestamp parses to. *)
Record SidecarReport := {
  rp_checkedAt : option Z;
  rp_verified : option bool;
  rp_stage : option jstr;
  rp_reason : option jstr;
  rp_refusal : option SidecarRefusal;
  rp_unreachable : option bool;
  rp_attestedRoot : option SidecarAttestedRoot;
  rp_certFingerprint : option jstr;
  rp_evidenceDigest : option jstr
}.

Record SidecarVerdict := {
  vd_endpoint : jstr;
  vd_admitted : bool;
  vd_reason : option jstr;
  vd_report : option SidecarReport
}.

(** ** Small helpers of the language *)

(** [a ?? b] *)
Definition nullish {A} (a b : option A) : option A := match a with Some _ => a | None => b end.

(** A nullable string in a condition: null and the empty string are false. *)
Definition truthy (s : option jstr) : bool :=
  match s with Some t => negb (bool_decide (units t = [])) | None => false end.

(** ** The projection *)

Definition clip (value : option jstr) (length : Z) : option jstr :=
  match value with
  | None => None
  | Some v =>
      if negb (truthy value) then None
      else if jlength v <=? length then Some v
      else Some (jtake (length - 1) v +++ "…")
  end.

Definition statusOf (v : SidecarVerdict) : ExternalEndpointStatus :=
  if vd_admitted v then verified
  else match vd_report v with
       | None => pending
       | Some r => match rp_refusal r with Some digest_not_pinned => pending | _ => denied end
       end.

Record ProjectionClock := { pc_now : Z; pc_attestWindowMs : Z }.

Record ReportedCheck := { chk_at : Z; chk_stamped : bool }.

Definition checkOf (report : option SidecarReport) (now : Z) : option ReportedCheck :=
  match report with
  | None => None
  | Some r => Some match rp_checkedAt r with
                   | Some t => {| chk_at := t; chk_stamped := true |}
                   | None => {| chk_at := now; chk_stamped := false |}
                   end
  end.

(** The sentence a withdrawn admission leaves on the row; it names the check, not
    the reading of it. *)
Definition stale_reason (checkedAt : Z) : jstr :=
  "Verdict expired: the egress sidecar is answering, but the verdict it keeps repeating was formed at " +++
  toISOString checkedAt +++ " and has not been re-attested since. " +++
  "Every model on this endpoint is refused until it is.".

Definition expiredAdmission (v : SidecarVerdict) (check : option ReportedCheck) (clock : ProjectionClock)
    : option jstr :=
  if (pc_attestWindowMs clock <=? 0) || negb (vd_admitted v) then None
  else match check with
  | None => None
  | Some c =>
      if pc_now clock - chk_at c <? pc_attestWindowMs clock then None
      else clip (Some (stale_reason (chk_at c))) 255
  end.

(** The run columns: last success, last failure, not serving since, failures in a row. *)
Record RunPatch := {
  run_lastSuccessAt : option Z;
  run_lastFailureAt : option Z;
  run_notServingSince : option Z;
  run_consecutiveFailures : Z
}.

Definition runOf (row : ExternalEndpointStatusPatch) (st : ExternalEndpointStatus)
    (check : option ReportedCheck) : RunPatch :=
  let unchanged := {| run_lastSuccessAt := lastSuccessAt row; run_lastFailureAt := lastFailureAt row;
                      run_notServingSince := notServingSince row;
                      run_consecutiveFailures := consecutiveFailures row |} in
  match check with
  | None => unchanged
  | Some c =>
      let checkedAt := chk_at c in
      if status_eqb st verified then
        {| run_lastSuccessAt := Some checkedAt; run_lastFailureAt := lastFailureAt row;
           run_notServingSince := None; run_consecutiveFailures := 0 |}
      else if status_eqb st pending then
        {| run_lastSuccessAt := lastSuccessAt row; run_lastFailureAt := lastFailureAt row;
           run_notServingSince := nullish (notServingSince row) (Some checkedAt);
           run_consecutiveFailures := consecutiveFailures row |}
      else
        let isNewCheck := chk_stamped c && negb (bool_decide (lastCheckedAt row = Some checkedAt)) in
        {| run_lastSuccessAt := lastSuccessAt row; run_lastFailureAt := Some checkedAt;
           run_notServingSince := nullish (notServingSince row) (Some checkedAt);
           run_consecutiveFailures := consecutiveFailures row + (if isNewCheck then 1 else 0) |}
  end.

(** Whether any projected column differs from the row's: every column of the patch
    type is compared, dates by instant. *)
Definition differs (row patch : ExternalEndpointStatusPatch) : bool := negb (bool_decide (row = patch)).

Definition projected_status (v : SidecarVerdict) (clock : ProjectionClock) : ExternalEndpointStatus :=
  match expiredAdmission v (checkOf (vd_report v) (pc_now clock)) clock with
  | Some _ => pending
  | None => statusOf v
  end.

Definition patch_of (row : ExternalEndpointStatusPatch) (v : SidecarVerdict) (clock : ProjectionClock)
    : ExternalEndpointStatusPatch :=
  let report := vd_report v in
  let root := report ≫= rp_attestedRoot in
  let check := checkOf report (pc_now clock) in
  let expired := expiredAdmission v check clock in
  let st := projected_status v clock in
  let measurement := root ≫= ar_measurement in
  let run := runOf row st check in
  {| status := st;
     lastCheckedAt := nullish (chk_at <$> check) (lastCheckedAt row);
     lastStage := match expired with
                  | Some _ => None
                  | None => nullish (refusal_text <$> (report ≫= rp_refusal)) (report ≫= rp_stage)
                  end;
     lastReason := nullish expired (clip (nullish (vd_reason v) (report ≫= rp_reason)) 255);
     measurementSeen := measurement;
     measurementSource := root ≫= ar_measurementSource;
     measurementInRegistry := if truthy measurement
                              then nullish (root ≫= ar_inRegistry) (Some false) else None;
     evidenceDigestSeen := report ≫= rp_evidenceDigest;
     pinnedCertFingerprint := if status_eqb st verified then report ≫= rp_certFingerprint else None;
     observedCertFingerprint := match report with
                                | Some r => if bool_decide (rp_verified r = Some true)
                                            then rp_certFingerprint r else None
                                | None => None
                                end;
     lastSuccessAt := run_lastSuccessAt run;
     lastFailureAt := run_lastFailureAt run;
     notServingSince := run_notServingSince run;
     consecutiveFailures := run_consecutiveFailures run;
     upstreamUnreachable := match report with
                            | Some r => nullish (rp_unreachable r) (Some false)
                            | None => upstreamUnreachable row
                            end |}.

(** Both strings are set and they differ. *)
Definition changed (seen reported : option jstr) : bool :=
  truthy reported && truthy seen && negb (bool_decide (seen = reported)).

Definition events_of (row patch : ExternalEndpointStatusPatch) (expired : bool) : list ProjectedEvent :=
  let at_ kind := {| ev_kind := kind; ev_stage := lastStage patch; ev_reason := lastReason patch;
                     ev_measurement := measurementSeen patch; ev_evidenceDigest := evidenceDigestSeen patch |} in
  let statusChanged := negb (status_eqb (status row) (status patch)) in
  (if statusChanged && expired then [at_ verdict_expired]
   else if statusChanged && negb (status_eqb (status patch) pending)
   then [at_ (if status_eqb (status patch) verified then verified_event else denied_event)]
   else []) ++
  (if changed (evidenceDigestSeen row) (evidenceDigestSeen patch) then [at_ digest_changed] else []) ++
  (if changed (measurementSeen row) (measurementSeen patch) then [at_ measurement_changed] else []).

Definition admission_expired (v : SidecarVerdict) (clock : ProjectionClock) : bool :=
  match expiredAdmission v (checkOf (vd_report v) (pc_now clock)) clock with Some _ => true | None => false end.

Definition projectVerdict (endpoint : ExternalEndpoint) (v : SidecarVerdict) (clock : ProjectionClock)
    : ProjectedVerdict :=
  let row := ee_columns endpoint in
  let patch := patch_of row v clock in
  {| pv_patch := patch;
     pv_events := events_of row patch (admission_expired v clock);
     pv_statusChanged := negb (status_eqb (status row) (status patch));
     pv_patchChanged := differs row patch |}.

(** ** Letting go of a verdict *)

Definition VERDICT_GRACE_POLLS : Z := 12.
Definition VERDICT_GRACE_FLOOR_MS : Z := 30000.

Definition verdictGraceMs (statusPollIntervalMs : Z) : Z :=
  Z.max VERDICT_GRACE_FLOOR_MS (statusPollIntervalMs * VERDICT_GRACE_POLLS).

Definition VERDICT_ATTEST_INTERVALS : Z := 3.

Definition verdictAttestWindowMs (reattestIntervalMs : Z) : Z := reattestIntervalMs * VERDICT_ATTEST_INTERVALS.

Record VerdictClock := { vc_confirmedAt : option Z; vc_graceMs : Z; vc_now : Z }.

(** The patch that returns a row to the state it boots in. *)
Definition lapsed_patch (row : ExternalEndpointStatusPatch) (reason : option jstr) (now : Z)
    : ExternalEndpointStatusPatch :=
  {| status := pending; lastCheckedAt := None; lastStage := None; lastReason := reason;
     measurementSeen := None; measurementSource := None; measurementInRegistry := None;
     evidenceDigestSeen := None; pinnedCertFingerprint := None; observedCertFingerprint := None;
     lastSuccessAt := lastSuccessAt row; lastFailureAt := lastFailureAt row;
     notServingSince := Some now; consecutiveFailures := 0; upstreamUnreachable := None |}.

(** The sentence an unconfirmed verdict leaves on the row. *)
Definition unconfirmed_reason (confirmedAt : option Z) : jstr :=
  "Verdict expired: the egress sidecar has not confirmed it since " +++
  match confirmedAt with Some at_ => toISOString at_ | None => "this router started" end +++
  "." +++ " Every model on this endpoint is refused until it does.".

Definition expireVerdict (endpoint : ExternalEndpoint) (clock : VerdictClock) : option ProjectedVerdict :=
  let row := ee_columns endpoint in
  if negb (status_eqb (status row) verified) then None
  else if match vc_confirmedAt clock with
          | Some at_ => vc_now clock - at_ <? vc_graceMs clock | None => false end
  then None
  else
    let reason := clip (Some (unconfirmed_reason (vc_confirmedAt clock))) 255 in
    Some {| pv_patch := lapsed_patch row reason (vc_now clock);
            pv_events := [{| ev_kind := verdict_expired; ev_stage := None; ev_reason := reason;
                             ev_measurement := None; ev_evidenceDigest := evidenceDigestSeen row |}];
            pv_statusChanged := true;
            pv_patchChanged := true |}.

(** ** Lemmas *)

Lemma status_eqb_eq a b : status_eqb a b = true <-> a = b.
Proof. by destruct a, b. Qed.

Lemma status_eqb_neq a b : status_eqb a b = false <-> a <> b.
Proof. by destruct a, b. Qed.

Lemma status_eqb_refl a : status_eqb a a = true.
Proof. by apply status_eqb_eq. Qed.

Lemma nullish_self {A} (a b : option A) : nullish (nullish a b) b = nullish a b.
Proof. by destruct a, b. Qed.

Lemma changed_self s : changed s s = false.
Proof. unfold changed. rewrite bool_decide_eq_true_2 by done. by rewrite andb_false_r. Qed.

Lemma clip_length s n t : 0 < n -> clip s n = Some t -> jlength t <= n.
Proof.
  intros Hn. unfold clip. destruct s as [v|]; [|done]. destruct (negb _); [done|].
  destruct (Z.leb_spec (jlength v) n) as [H|H]; intros [= <-]; [done|].
  rewrite jlength_app. unfold jtake, jlength in *; cbn. rewrite length_take. lia.
Qed.

Lemma clip_idem s n : 0 < n -> clip (clip s n) n = clip s n.
Proof.
  intros Hn. destruct (clip s n) as [t|] eqn:E; [|done].
  pose proof (clip_length s n t Hn E) as Hl. unfold clip in *.
  destruct s as [v|]; [|done]. destruct (negb (truthy (Some v))) eqn:Ev; [done|].
  assert (Ht : truthy (Some t) = true).
  { unfold truthy in *. apply negb_true_iff, bool_decide_eq_false.
    apply negb_false_iff, negb_true_iff, bool_decide_eq_false in Ev.
    destruct (jlength v <=? n); injection E as <-; [done|]. cbn. by destruct (take _ _). }
  rewrite Ht. cbn. by rewrite (proj2 (Z.leb_le _ _) Hl).
Qed.

Lemma truthy_cons v : units v <> [] -> truthy (Some v) = true.
Proof. intros H. unfold truthy. by rewrite bool_decide_eq_false_2. Qed.

Lemma clip_some v n : units v <> [] -> is_Some (clip (Some v) n).
Proof. intros H. unfold clip. rewrite (truthy_cons v H). cbn. case_match; eauto. Qed.

Lemma stale_reason_nonempty t : units (stale_reason t) <> [].
Proof. discriminate. Qed.

#[global] Opaque stale_reason unconfirmed_reason.
Arguments clip : simpl never.

(** An admission is withdrawn exactly when the window is on, the verdict admits and
    the check it reports is at least a window old. *)
Lemma expiredAdmission_some v check clock :
  is_Some (expiredAdmission v check clock) <->
  0 < pc_attestWindowMs clock /\ vd_admitted v = true /\
  exists c, check = Some c /\ pc_attestWindowMs clock <= pc_now clock - chk_at c.
Proof.
  unfold expiredAdmission. split.
  - intros [s Hs]. destruct (Z.leb_spec (pc_attestWindowMs clock) 0), (vd_admitted v); cbn in Hs; try done.
    destruct check as [c|]; [|done]. destruct (Z.ltb_spec (pc_now clock - chk_at c) (pc_attestWindowMs clock));
      [done|]. eauto.
  - intros (Hw & -> & c & -> & Hc). rewrite (proj2 (Z.leb_gt _ _)) by done. cbn [negb orb].
    rewrite (proj2 (Z.ltb_ge _ _)) by done. apply clip_some, stale_reason_nonempty.
Qed.

Lemma expiredAdmission_length v check clock s : expiredAdmission v check clock = Some s -> jlength s <= 255.
Proof.
  unfold expiredAdmission. destruct (_ || _); [done|]. destruct check as [c|]; [|done].
  destruct (_ <? _); [done|]. by apply clip_length.
Qed.

Lemma statusOf_verified v : statusOf v = verified <-> vd_admitted v = true.
Proof. unfold statusOf. repeat case_match; simplify_eq; split; try done; intros; congruence. Qed.

#[export] Hint Rewrite status_eqb_refl changed_self @nullish_self : router.

(** The row a poll leaves. *)
Definition project_row (e : ExternalEndpoint) (v : SidecarVerdict) (clock : ProjectionClock) : ExternalEndpoint :=
  with_patch e (pv_patch (projectVerdict e v clock)).

Definition expired_at (v : SidecarVerdict) (window now : Z) : bool :=
  admission_expired v {| pc_now := now; pc_attestWindowMs := window |}.

(** The report, when there is one, carries its own timestamp. *)
Definition stamped (v : SidecarVerdict) : bool :=
  match vd_report v with Some r => bool_decide (is_Some (rp_checkedAt r)) | None => true end.

Lemma expired_at_spec v window now :
  expired_at v window now = true <->
  0 < window /\ vd_admitted v = true /\
  exists c, checkOf (vd_report v) now = Some c /\ window <= now - chk_at c.
Proof.
  unfold expired_at, admission_expired. cbn [pc_now].
  rewrite <- (expiredAdmission_some v _ {| pc_now := now; pc_attestWindowMs := window |}).
  destruct (expiredAdmission _ _ _); split; eauto; [done | by intros []].
Qed.

(** A verdict that is too old stays too old. *)
Lemma expired_at_mono v window now now' :
  now <= now' -> expired_at v window now = true -> expired_at v window now' = true.
Proof.
  intros Hle. rewrite !expired_at_spec. intros (Hw & Ha & c & Hc & Hold). split_and!; [done|done|].
  unfold checkOf in *. destruct (vd_report v) as [r|]; [|done]. injection Hc as <-. eexists; split; [done|].
  destruct (rp_checkedAt r); cbn in *; lia.
Qed.

Lemma project_status e v window now :
  let clock := {| pc_now := now; pc_attestWindowMs := window |} in
  status (ee_columns (project_row e v clock)) = if expired_at v window now then pending else statusOf v.
Proof. cbn. unfold projected_status, expired_at, admission_expired. cbn. by destruct (expiredAdmission _ _ _). Qed.

(** Reading a stamped check again, from the row the first reading left, moves no
    run column. *)
Lemma runOf_reread row row' st check :
  let run := runOf row st check in
  lastSuccessAt row' = run_lastSuccessAt run -> lastFailureAt row' = run_lastFailureAt run ->
  notServingSince row' = run_notServingSince run -> consecutiveFailures row' = run_consecutiveFailures run ->
  (forall c, check = Some c -> lastCheckedAt row' = Some (chk_at c)) ->
  runOf row' st check = run.
Proof.
  intros run H1 H2 H3 H4 H5. subst run. unfold runOf in *. destruct check as [c|]; cbn in *.
  2: by rewrite H1, H2, H3, H4.
  rewrite (H5 c eq_refl), bool_decide_eq_true_2, andb_false_r by done.
  destruct (status_eqb st verified); cbn in *; [by rewrite H2|].
  destruct (status_eqb st pending); cbn in *; rewrite H1, ?H2, H3, H4, nullish_self; [done|].
  f_equal. lia.
Qed.

Lemma patch_of_reread row v w now now' :
  stamped v = true -> expired_at v w now' = expired_at v w now ->
  let p := patch_of row v {| pc_now := now; pc_attestWindowMs := w |} in
  patch_of p v {| pc_now := now'; pc_attestWindowMs := w |} = p.
Proof.
  intros Hs He p.
  assert (Hck : checkOf (vd_report v) now' = checkOf (vd_report v) now).
  { unfold stamped in Hs. unfold checkOf. destruct (vd_report v) as [r|]; [|done].
    apply bool_decide_eq_true in Hs as [t ->]. done. }
  assert (Hex : expiredAdmission v (checkOf (vd_report v) now') {| pc_now := now'; pc_attestWindowMs := w |} =
                expiredAdmission v (checkOf (vd_report v) now) {| pc_now := now; pc_attestWindowMs := w |}).
  { unfold expired_at, admission_expired in He. cbn [pc_now] in He. rewrite Hck in *. unfold expiredAdmission in *.
    cbn [pc_now pc_attestWindowMs] in *.
    destruct (_ || _); [done|]. destruct (checkOf _ _) as [c|]; [|done].
    destruct (clip_some _ 255 (stale_reason_nonempty (chk_at c))) as [s Hc]. rewrite Hc in *.
    by destruct (now' - _ <? w), (now - _ <? w). }
  assert (Hst : projected_status v {| pc_now := now'; pc_attestWindowMs := w |} =
                projected_status v {| pc_now := now; pc_attestWindowMs := w |})
    by (unfold projected_status; cbn [pc_now]; by rewrite Hex).
  assert (Hrun : runOf p (projected_status v {| pc_now := now; pc_attestWindowMs := w |}) (checkOf (vd_report v) now) =
                 runOf row (projected_status v {| pc_now := now; pc_attestWindowMs := w |}) (checkOf (vd_report v) now)).
  { subst p. apply runOf_reread; try reflexivity. intros c Hc. cbn. by rewrite Hc. }
  unfold patch_of. cbn [pc_now]. rewrite Hex, Hst, Hck, Hrun. subst p. unfold patch_of. cbn.
  by destruct (checkOf _ _) as [c|], (vd_report v) as [rep|].
Qed.

(** ** Properties *)

(** Admission is exactly the sidecar's live answer: a projected row is
    [verified] if and only if the verdict admits and its own check is younger than
    the attestation window (when the window is on and a check is reported); and
    only such a row carries an egress pin, the certificate of that report. *)
Theorem projectVerdict_admission e v window now :
  let row := ee_columns (project_row e v {| pc_now := now; pc_attestWindowMs := window |}) in
  (status row = verified <->
     vd_admitted v = true /\
     (window <= 0 \/ forall c, checkOf (vd_report v) now = Some c -> now - chk_at c < window)) /\
  (forall f, pinnedCertFingerprint row = Some f ->
     status row = verified /\ (vd_report v ≫= rp_certFingerprint) = Some f).
Proof.
  intros row. split.
  - subst row. rewrite project_status. destruct (expired_at v window now) eqn:E.
    + apply expired_at_spec in E as (Hw & Ha & c & Hc & Hold). split; [done|].
      intros [_ [?|Hy]]; [lia|]. specialize (Hy c Hc). lia.
    + rewrite statusOf_verified. split; [|by intros [? _]]. intros Ha. split; [done|].
      destruct (Z.le_gt_cases window 0) as [?|Hw]; [by left|right]. intros c Hc.
      apply not_true_iff_false in E. rewrite expired_at_spec in E.
      destruct (Z.lt_ge_cases (now - chk_at c) window); [done|]. destruct E; eauto 6.
  - subst row. cbn. intros f. destruct (status_eqb _ _) eqn:E; [|done].
    apply status_eqb_eq in E. by rewrite E.
Qed.

(** Re-reading writes nothing: a poll that reads again a verdict whose report
    carries its own timestamp, with the same answer to whether it is too old,
    leaves the row as the first poll left it, reports no change and appends no
    event. *)
Theorem projectVerdict_reread e v window now now' :
  stamped v = true -> expired_at v window now' = expired_at v window now ->
  let e' := project_row e v {| pc_now := now; pc_attestWindowMs := window |} in
  projectVerdict e' v {| pc_now := now'; pc_attestWindowMs := window |} =
  {| pv_patch := ee_columns e'; pv_events := []; pv_statusChanged := false; pv_patchChanged := false |}.
Proof.
  intros Hs He e'. unfold projectVerdict.
  change (ee_columns e') with (patch_of (ee_columns e) v {| pc_now := now; pc_attestWindowMs := window |}).
  rewrite patch_of_reread by done. unfold events_of, differs.
  rewrite !changed_self, status_eqb_refl, bool_decide_eq_true_2 by done. done.
Qed.

(** An admitting verdict as the sidecar reports it, checked at [t]. *)
Definition admitting_verdict (t : Z) : SidecarVerdict :=
  {| vd_endpoint := "cloud"; vd_admitted := true; vd_reason := None;
     vd_report := Some {| rp_checkedAt := Some t; rp_verified := Some true; rp_stage := None; rp_reason := None;
       rp_refusal := None; rp_unreachable := None; rp_attestedRoot := None;
       rp_certFingerprint := Some "sha256/leaf"; rp_evidenceDigest := Some "sha256/digest" |} |}.

Definition denying_verdict (t : Z) : SidecarVerdict :=
  {| vd_endpoint := "cloud"; vd_admitted := false; vd_reason := Some "fetch: EOF";
     vd_report := Some {| rp_checkedAt := Some t; rp_verified := None; rp_stage := Some "fetch";
       rp_reason := None; rp_refusal := None; rp_unreachable := Some true; rp_attestedRoot := None;
       rp_certFingerprint := None; rp_evidenceDigest := None |} |}.

Definition booted_columns (now : Z) : ExternalEndpointStatusPatch :=
  {| status := pending; lastCheckedAt := None; lastStage := None; lastReason := None;
     measurementSeen := None; measurementSource := None; measurementInRegistry := None;
     evidenceDigestSeen := None; pinnedCertFingerprint := None; observedCertFingerprint := None;
     lastSuccessAt := None; lastFailureAt := None; notServingSince := Some now;
     consecutiveFailures := 0; upstreamUnreachable := None |}.

Definition booted_endpoint (now : Z) : ExternalEndpoint :=
  {| ee_id := "e1"; ee_name := "cloud"; ee_hostname := "cloud.example"; ee_baseUrl := "https://cloud.example/v1";
     ee_listenPort := 9001; ee_apiKeyCiphertext := "sealed"; ee_enabled := true;
     ee_pinnedEvidenceDigest := Some "sha256/digest"; ee_columns := booted_columns now |}.

Lemma projectVerdict_reread_witness :
  let e' := project_row (booted_endpoint 0) (denying_verdict 5) {| pc_now := 6; pc_attestWindowMs := 100 |} in
  projectVerdict e' (denying_verdict 5) {| pc_now := 11; pc_attestWindowMs := 100 |} =
  {| pv_patch := ee_columns e'; pv_events := []; pv_statusChanged := false; pv_patchChanged := false |}.
Proof.
  apply (projectVerdict_reread (booted_endpoint 0) (denying_verdict 5) 100 6 11); vm_compute; reflexivity.
Defined.

(** ** Many polls of one frozen verdict *)

(** The events of a sequence of polls, and the row they leave. *)
Fixpoint polls (e : ExternalEndpoint) (v : SidecarVerdict) (window : Z) (nows : list Z)
    : ExternalEndpoint * list ProjectedEvent :=
  match nows with
  | [] => (e, [])
  | now :: nows =>
      let p := projectVerdict e v {| pc_now := now; pc_attestWindowMs := window |} in
      let '(e', evs) := polls (with_patch e (pv_patch p)) v window nows in
      (e', pv_events p ++ evs)
  end.

Definition count_kind (k : ExternalEndpointEventKind) (evs : list ProjectedEvent) : nat :=
  length (filter (fun ev => ev_kind ev = k) evs).

Lemma count_kind_app k l1 l2 : count_kind k (l1 ++ l2) = (count_kind k l1 + count_kind k l2)%nat.
Proof. unfold count_kind. by rewrite filter_app, length_app. Qed.

(** What one poll contributes to the two kinds, by the status it finds and sets. *)
Lemma count_events e v window now :
  let evs := pv_events (projectVerdict e v {| pc_now := now; pc_attestWindowMs := window |}) in
  let expired := expired_at v window now in
  let st' := if expired then pending else statusOf v in
  count_kind verified_event evs =
    (if status_eqb (status (ee_columns e)) st' then 0
     else if expired then 0 else if status_eqb st' verified then 1 else 0)%nat /\
  count_kind verdict_expired evs =
    (if status_eqb (status (ee_columns e)) st' then 0 else if expired then 1 else 0)%nat.
Proof.
  intros evs expired st'. subst evs. cbn [pv_events projectVerdict]. unfold events_of.
  change (admission_expired v _) with expired.
  change (status (patch_of (ee_columns e) v _)) with
    (status (ee_columns (project_row e v {| pc_now := now; pc_attestWindowMs := window |}))).
  rewrite project_status. fold expired. fold st'. rewrite !count_kind_app.
  set (row := status (ee_columns e)). clearbody row.
  assert (Hk : forall k (b : bool) (ev : ProjectedEvent), ev_kind ev <> k ->
            count_kind k (if b then [ev] else []) = 0%nat).
  { intros k b ev Hne. unfold count_kind. destruct b; cbn; [|done]. by rewrite decide_False. }
  rewrite !(Hk verified_event), !(Hk verdict_expired), !Nat.add_0_r by done.
  clear Hk. subst st'. destruct expired, (statusOf v), row; split; reflexivity.
Qed.

Lemma polls_expired e v window nows now0 :
  expired_at v window now0 = true -> Forall (fun now => now0 <= now) nows ->
  let evs := snd (polls e v window nows) in
  count_kind verified_event evs = 0%nat /\
  (count_kind verdict_expired evs <= if status_eqb (status (ee_columns e)) pending then 0 else 1)%nat.
Proof.
  intros Hex Hall. revert e. induction Hall as [|now nows Hle Hall IH]; intros e; [by split; [|case_match; cbn; lia]|].
  cbn [polls]. pose proof (count_events e v window now) as [H1 H2].
  pose proof (expired_at_mono v window now0 now Hle Hex) as Hnow. rewrite Hnow in H1, H2.
  specialize (IH (project_row e v {| pc_now := now; pc_attestWindowMs := window |})).
  rewrite project_status, Hnow, status_eqb_refl in IH. cbv zeta in IH. unfold project_row in IH.
  destruct (polls _ v window nows) as [e' evs]. cbn [snd] in *. destruct IH as [IH1 IH2].
  rewrite !count_kind_app, H1, H2. split; [by case_match; lia | case_match; lia].
Qed.

(** No flapping: however many polls read one frozen verdict, on a clock that
    does not run backwards, at most one [verified] and at most one
    [verdict_expired] event is appended in all. *)
Theorem polls_do_not_flap e v window nows :
  Sorted Z.le nows ->
  let evs := snd (polls e v window nows) in
  (count_kind verified_event evs <= 1)%nat /\ (count_kind verdict_expired evs <= 1)%nat.
Proof.
  intros Hs. apply Sorted_StronglySorted in Hs; [|exact Z.le_trans]. cbv zeta.
  enough (H : (count_kind verified_event (snd (polls e v window nows)) <=
                 if status_eqb (status (ee_columns e)) verified || negb (status_eqb (statusOf v) verified)
                 then 0 else 1)%nat /\
              (count_kind verdict_expired (snd (polls e v window nows)) <= 1)%nat)
    by (destruct (_ || _); lia).
  revert e. induction Hs as [|now nows Hs IH Hall]; intros e.
  { split; [case_match; cbn; lia | cbn; lia]. }
  cbn [polls]. pose proof (count_events e v window now) as [H1 H2].
  destruct (expired_at v window now) eqn:Hnow.
  - pose proof (polls_expired (project_row e v {| pc_now := now; pc_attestWindowMs := window |})
      v window nows now Hnow Hall) as [He1 He2].
    rewrite project_status, Hnow, status_eqb_refl in He2. unfold project_row in *.
    destruct (polls _ v window nows) as [e' evs]. cbn [snd] in *.
    rewrite !count_kind_app, H1, H2. repeat case_match; lia.
  - specialize (IH (project_row e v {| pc_now := now; pc_attestWindowMs := window |})).
    rewrite project_status, Hnow in IH. unfold project_row in *.
    destruct (polls _ v window nows) as [e' evs]. cbn [snd] in *.
    rewrite !count_kind_app, H1, H2. clear H1 H2. revert IH.
    destruct (statusOf v), (status (ee_columns e)); cbn; lia.
Qed.

Lemma polls_do_not_flap_witness :
  let evs := snd (polls (booted_endpoint 0) (admitting_verdict 0) 10 [1; 5; 20; 25]) in
  map ev_kind evs = [verified_event; verdict_expired] /\
  (count_kind verified_event evs <= 1)%nat /\ (count_kind verdict_expired evs <= 1)%nat.
Proof.
  split; [by vm_compute|]. apply (polls_do_not_flap (booted_endpoint 0) (admitting_verdict 0) 10 [1; 5; 20; 25]).
  repeat constructor; lia.
Defined.

(** ** Well-formed rows *)

(** What every reader of the run columns relies on. *)
Record row_ok (row : ExternalEndpointStatusPatch) : Prop := {
  row_serving : status row = verified -> notServingSince row = None /\ consecutiveFailures row = 0;
  row_pin : status row <> verified -> pinnedCertFingerprint row = None;
  row_dark : status row <> verified -> is_Some (lastCheckedAt row) -> is_Some (notServingSince row);
  row_failures : 0 <= consecutiveFailures row;
  row_reason : forall r, lastReason row = Some r -> jlength r <= 255
}.

(** An admission and a refusal always come with the report they are read from. *)
Definition has_report (v : SidecarVerdict) : Prop := vd_admitted v = true -> is_Some (vd_report v).

Lemma row_ok_booted now : row_ok (booted_columns now).
Proof. split; cbn; try done; eauto; lia. Qed.

Lemma row_ok_lapsed row confirmedAt now :
  row_ok (lapsed_patch row (clip (Some (unconfirmed_reason confirmedAt)) 255) now).
Proof. split; cbn; try done; eauto; try lia. intros r. by apply clip_length. Qed.

Lemma row_ok_projected row v clock :
  has_report v -> row_ok row -> (vd_report v = None -> status row <> verified) -> row_ok (patch_of row v clock).
Proof.
  intros Hrep [H1 H2 H3 H4 H5] Hnone.
  assert (Hno : vd_report v = None -> projected_status v clock = pending).
  { intros Hn. unfold projected_status, statusOf. rewrite Hn.
    destruct (vd_admitted v) eqn:Ea; [destruct (Hrep Ea); congruence|]. by destruct (expiredAdmission _ _ _). }
  split; cbn.
  - intros Hv. unfold runOf. rewrite Hv. unfold checkOf. destruct (vd_report v) eqn:E; [done|].
    rewrite Hno in Hv by done. done.
  - intros Hv. by rewrite (proj2 (status_eqb_neq _ _) Hv).
  - intros Hv Hl. unfold runOf, checkOf in *. rewrite (proj2 (status_eqb_neq _ _) Hv).
    destruct (vd_report v) as [r|] eqn:E; cbn in *; [|by apply H3; [apply Hnone|]].
    destruct (status_eqb _ pending); cbn; destruct (notServingSince row); eauto.
  - unfold runOf. destruct (checkOf _ _); cbn; [|done]. repeat case_match; cbn; lia.
  - intros r. unfold nullish. destruct (expiredAdmission v _ clock) as [s|] eqn:E.
    + intros [= <-]. by apply expiredAdmission_length in E.
    + by apply clip_length.
Qed.

(** A row's life in one process: booted, then projected or expired, in any order. *)
Inductive row_reachable : ExternalEndpoint -> Prop :=
| reach_boot e now : ee_columns e = booted_columns now -> row_reachable e
| reach_poll e v clock :
    row_reachable e -> has_report v -> (vd_report v = None -> status (ee_columns e) <> verified) ->
    row_reachable (project_row e v clock)
| reach_expire e clock p :
    row_reachable e -> expireVerdict e clock = Some p -> row_reachable (with_patch e (pv_patch p)).

Lemma expireVerdict_patch e clock p : expireVerdict e clock = Some p ->
  pv_patch p = lapsed_patch (ee_columns e) (clip (Some (unconfirmed_reason (vc_confirmedAt clock))) 255) (vc_now clock).
Proof.
  unfold expireVerdict. destruct (negb _); [done|].
  destruct (match vc_confirmedAt clock with Some _ => _ | None => _ end); [done|]. by intros [= <-].
Qed.

(** Every row a process can reach from its boot reset is well formed: a
    serving row has no open run and no counted failure, only a serving row pins a
    certificate, a checked row that is not serving says since when, and the reason
    fits its column. *)
Theorem row_reachable_ok e : row_reachable e -> row_ok (ee_columns e).
Proof.
  induction 1 as [e now Hb|e v clock _ IH Hrep Hnone|e clock p _ IH Hp]; cbn [ee_columns with_patch project_row].
  - rewrite Hb. apply row_ok_booted.
  - by apply row_ok_projected.
  - rewrite (expireVerdict_patch _ _ _ Hp). apply row_ok_lapsed.
Qed.

Lemma row_reachable_ok_witness :
  let e := project_row (booted_endpoint 0) (admitting_verdict 5) {| pc_now := 6; pc_attestWindowMs := 100 |} in
  status (ee_columns e) = verified /\ row_ok (ee_columns e).
Proof.
  split; [by vm_compute|]. apply row_reachable_ok, reach_poll.
  - by apply (reach_boot _ 0).
  - intros _. by exists (default {| rp_checkedAt := None; rp_verified := None; rp_stage := None; rp_reason := None;
      rp_refusal := None; rp_unreachable := None; rp_attestedRoot := None; rp_certFingerprint := None;
      rp_evidenceDigest := None |} (vd_report (admitting_verdict 5))).
  - done.
Defined.

(** ** Counting a run of failures *)

(** The times at which consecutive entries differ, starting from [prev]. *)
Fixpoint distinct_checks (prev : option Z) (ts : list Z) : Z :=
  match ts with
  | [] => 0
  | t :: ts => (if bool_decide (prev = Some t) then 0 else 1) + distinct_checks (Some t) ts
  end.

(** A refusal of a stated check: what the sidecar keeps answering while an upstream
    is denied. *)
Definition denies_at (v : SidecarVerdict) (t : Z) : Prop :=
  statusOf v = denied /\ exists r, vd_report v = Some r /\ rp_checkedAt r = Some t.

Fixpoint poll_each (e : ExternalEndpoint) (window : Z) (reads : list (SidecarVerdict * Z)) : ExternalEndpoint :=
  match reads with
  | [] => e
  | (v, now) :: reads => poll_each (project_row e v {| pc_now := now; pc_attestWindowMs := window |}) window reads
  end.

Lemma denied_not_expired v clock : statusOf v = denied -> expiredAdmission v (checkOf (vd_report v) (pc_now clock)) clock = None.
Proof.
  intros Hd. destruct (vd_admitted v) eqn:E.
  - apply statusOf_verified in E. congruence.
  - unfold expiredAdmission. by rewrite E, orb_true_r.
Qed.

Lemma denied_run row v t clock : denies_at v t ->
  let p := patch_of row v clock in
  lastCheckedAt p = Some t /\ status p = denied /\
  notServingSince p = nullish (notServingSince row) (Some t) /\
  consecutiveFailures p = consecutiveFailures row + (if bool_decide (lastCheckedAt row = Some t) then 0 else 1).
Proof.
  intros (Hd & r & Hr & Ht). cbn. unfold projected_status. rewrite (denied_not_expired _ _ Hd), Hr. cbn.
  rewrite Ht. cbn. rewrite Hd. unfold runOf. cbn. by destruct (bool_decide _).
Qed.

(** A run of denials counts distinct checks, not polls: however often each
    verdict is read back, the counter grows by the number of times the check's own
    timestamp moved, and the run stays dated from the first of them. *)
Theorem consecutiveFailures_counts_checks e window reads ts :
  Forall2 (fun vn t => denies_at (fst vn) t) reads ts ->
  let row := ee_columns e in
  let row' := ee_columns (poll_each e window reads) in
  consecutiveFailures row' = consecutiveFailures row + distinct_checks (lastCheckedAt row) ts /\
  notServingSince row' = nullish (notServingSince row) (head ts).
Proof.
  intros H. revert e. induction H as [|[v now] t reads ts Hv _ IH]; intros e; cbn zeta.
  { cbn. split; [lia|]. by destruct (notServingSince _). }
  cbn [poll_each]. set (clock := {| pc_now := now; pc_attestWindowMs := window |}).
  destruct (denied_run (ee_columns e) v t clock Hv) as (H1 & _ & H3 & H4).
  destruct (IH (project_row e v clock)) as [IH1 IH2].
  change (ee_columns (project_row e v clock)) with (patch_of (ee_columns e) v clock) in *.
  rewrite IH1, IH2, H1, H3, H4. cbn [distinct_checks head]. split; [lia|].
  destruct (notServingSince (ee_columns e)); reflexivity.
Qed.

Lemma consecutiveFailures_counts_checks_witness :
  let reads := [(denying_verdict 5, 6); (denying_verdict 5, 11); (denying_verdict 20, 21)] in
  let row := booted_columns 0 in
  let row' := ee_columns (poll_each (booted_endpoint 0) 100 reads) in
  consecutiveFailures row' = consecutiveFailures row + distinct_checks None [5; 5; 20] /\
  notServingSince row' = nullish (Some 0) (Some 5).
Proof.
  apply (consecutiveFailures_counts_checks (booted_endpoint 0) 100
    [(denying_verdict 5, 6); (denying_verdict 5, 11); (denying_verdict 20, 21)] [5; 5; 20]).
  repeat (constructor; [split; [reflexivity | eexists; split; reflexivity]|]). constructor.
Defined.

(** Letting go: an unconfirmed or too-long-unconfirmed [verified] row, and no
    other, is returned to the state it boots in, with its pin dropped, its run
    dated now and one [verdict_expired] event; doing so again does nothing. *)
Theorem expireVerdict_spec e clock :
  (is_Some (expireVerdict e clock) <->
     status (ee_columns e) = verified /\
     forall at_, vc_confirmedAt clock = Some at_ -> vc_graceMs clock <= vc_now clock - at_) /\
  (forall p, expireVerdict e clock = Some p ->
     let row := pv_patch p in
     status row = pending /\ pinnedCertFingerprint row = None /\ lastCheckedAt row = None /\
     notServingSince row = Some (vc_now clock) /\ map ev_kind (pv_events p) = [verdict_expired] /\
     forall clock', expireVerdict (with_patch e row) clock' = None).
Proof.
  split.
  - unfold expireVerdict. destruct (status_eqb (status (ee_columns e)) verified) eqn:E; cbn [negb].
    2:{ apply status_eqb_neq in E. split; [by intros []|by intros []]. }
    apply status_eqb_eq in E. destruct (vc_confirmedAt clock) as [at_|].
    + destruct (Z.ltb_spec (vc_now clock - at_) (vc_graceMs clock)) as [H|H].
      * split; [by intros []|]. intros [_ Hall]. specialize (Hall at_ eq_refl). lia.
      * split; [|eauto]. intros _. split; [done|]. by intros ? [= <-].
    + split; [|eauto]. intros _. by split.
  - intros p Hp. cbn zeta. rewrite (expireVerdict_patch _ _ _ Hp). split_and!; try done.
    revert Hp. unfold expireVerdict. destruct (negb _); [done|].
    destruct (match vc_confirmedAt clock with Some _ => _ | None => _ end); [done|]. by intros [= <-].
Qed.
