(* ===== verification/Liveness.v ===== *)
(** * Reading an endpoint's failure run

    [external-endpoints/external-endpoint-liveness.ts] (reachability, the outage
    rule, the [/health] summary and the sentences an operator is sent),
    [external-endpoint-health.ts] (the summary a process publishes) and
    [measurement.ts] (the canonical form of a trusted measurement).  A liveness row
    is the endpoint row itself, of which the source picks columns. *)

From S2P Require Import Prelude JsString JsDate StatusProjection.

(** ** Reachability and outage *)

Inductive EndpointReachability := reachable_up | unreachable_up | unknown_up.

#[global] Instance reachability_eq_dec : EqDecision EndpointReachability.
Proof. solve_decision. Defined.

Definition reachability_text (r : EndpointReachability) : jstr :=
  match r with reachable_up => "reachable" | unreachable_up => "unreachable" | unknown_up => "unknown" end.

Definition UNREACHABLE_STAGE_FALLBACK : jstr := "fetch".

Definition reachabilityOf (row : ExternalEndpoint) : EndpointReachability :=
  let c := ee_columns row in
  match lastCheckedAt c with
  | None => unknown_up
  | Some _ =>
      if status_eqb (status c) verified then reachable_up
      else match upstreamUnreachable c with
           | Some reported => if reported then unreachable_up else reachable_up
           | None => if bool_decide (lastStage c = Some UNREACHABLE_STAGE_FALLBACK)
                     then unreachable_up else reachable_up
           end
  end.

Record OutageThresholds := { afterFailures : Z; afterNoSuccess : Z }.

Definition expectedToServe (row : ExternalEndpoint) : bool :=
  ee_enabled row && match ee_pinnedEvidenceDigest row with Some _ => true | None => false end.

Definition isOutage (row : ExternalEndpoint) (thresholds : OutageThresholds) (now : Z) : bool :=
  match notServingSince (ee_columns row) with
  | None => false
  | Some since =>
      if negb (expectedToServe row) then false
      else if (0 <? afterFailures thresholds) && (afterFailures thresholds <=? consecutiveFailures (ee_columns row))
      then true
      else (0 <? afterNoSuccess thresholds) && (afterNoSuccess thresholds <=? now - since)
  end.

Record EndpointLiveness := {
  lv_name : jstr;
  lv_status : ExternalEndpointStatus;
  lv_reachability : EndpointReachability;
  lv_stage : option jstr;
  lv_reason : option jstr;
  lv_consecutiveFailures : Z;
  lv_notServingSince : option Z;
  lv_lastSuccessAt : option Z;
  lv_lastCheckedAt : option Z;
  lv_outage : bool
}.

Definition livenessOf (row : ExternalEndpoint) (thresholds : OutageThresholds) (now : Z) : EndpointLiveness :=
  let c := ee_columns row in
  {| lv_name := ee_name row;
     lv_status := status c;
     lv_reachability := reachabilityOf row;
     lv_stage := if status_eqb (status c) verified then None else lastStage c;
     lv_reason := if status_eqb (status c) verified then None else lastReason c;
     lv_consecutiveFailures := consecutiveFailures c;
     lv_notServingSince := notServingSince c;
     lv_lastSuccessAt := lastSuccessAt c;
     lv_lastCheckedAt := lastCheckedAt c;
     lv_outage := isOutage row thresholds now |}.

(** ** The health summary *)

Inductive SummaryStatus := sum_none | sum_unknown | sum_ok | sum_degraded | sum_outage.

#[global] Instance summary_status_eq_dec : EqDecision SummaryStatus.
Proof. solve_decision. Defined.

Record ExternalEndpointsStatus := {
  es_status : SummaryStatus;
  es_registered : Z;
  es_serving : Z;
  es_routable : Z;
  es_failing : Z;
  es_unreachable : Z;
  es_pending : Z;
  es_since : option jstr;
  es_verdictsReadAt : option jstr
}.

Record CatalogueReach := { routable : Z; behindBefore : bool }.

(** [filter(p).length] *)
Definition count_where {A} (p : A -> bool) (l : list A) : Z := Z.of_nat (length (List.filter p l)).

Definition statusOfSummary (livenesses : list EndpointLiveness) (verdictsReadAt : option Z) (unroutable : bool)
    : SummaryStatus :=
  match livenesses with
  | [] => sum_none
  | _ =>
      if unroutable || existsb lv_outage livenesses then sum_outage
      else match verdictsReadAt with
           | None => sum_unknown
           | Some _ => if forallb (fun l => status_eqb (lv_status l) verified) livenesses then sum_ok else sum_degraded
           end
  end.

(** The earliest of the dates, [null] for none: the [reduce] of the source. *)
Definition oldest (dates : list Z) : option Z :=
  foldl (fun acc d => match acc with None => Some d | Some o => if d <? o then Some d else Some o end) None dates.

Definition not_serving_dates (livenesses : list EndpointLiveness) : list Z :=
  omap lv_notServingSince (List.filter (fun l => negb (status_eqb (lv_status l) verified)) livenesses).

Definition summarise (livenesses : list EndpointLiveness) (verdictsReadAt : option Z) (catalogue : CatalogueReach)
    : ExternalEndpointsStatus :=
  let failing := List.filter (fun l => status_eqb (lv_status l) denied) livenesses in
  let serving := count_where (fun l => status_eqb (lv_status l) verified) livenesses in
  {| es_status := statusOfSummary livenesses verdictsReadAt ((routable catalogue <? serving) && behindBefore catalogue);
     es_registered := Z.of_nat (length livenesses);
     es_serving := serving;
     es_routable := routable catalogue;
     es_failing := Z.of_nat (length failing);
     es_unreachable := count_where (fun l => bool_decide (lv_reachability l = unreachable_up)) failing;
     es_pending := count_where (fun l => status_eqb (lv_status l) pending) livenesses;
     es_since := toISOString <$> oldest (not_serving_dates livenesses);
     es_verdictsReadAt := toISOString <$> verdictsReadAt |}.

(** ** The published answer *)

Record ExternalEndpointHealth := {
  h_verdictsReadAt : option Z;
  h_summary : ExternalEndpointsStatus;
  h_behind : bool
}.

Definition health_initial : ExternalEndpointHealth :=
  {| h_verdictsReadAt := None; h_summary := summarise [] None {| routable := 0; behindBefore := false |};
     h_behind := false |}.

Definition report (h : ExternalEndpointHealth) (livenesses : list EndpointLiveness) (verdictsReadAt : option Z)
    (routable_ : Z) : ExternalEndpointHealth :=
  let readAt := nullish verdictsReadAt (h_verdictsReadAt h) in
  let summary := summarise livenesses readAt {| routable := routable_; behindBefore := h_behind h |} in
  {| h_verdictsReadAt := readAt; h_summary := summary; h_behind := es_routable summary <? es_serving summary |}.

(** ** The sentences *)

(** [Math.round] of a quotient of integers: halves go up. *)
Definition round_div (a b : Z) : Z := (2 * a + b) / (2 * b).

Definition durationSince (from : option Z) (now : Z) : jstr :=
  match from with
  | None => "an unknown period"
  | Some at_ =>
      let minutes := Z.max 0 (round_div (now - at_) 60000) in
      if minutes <? 60 then jstring_of_Z minutes +++ "m"
      else
        let hours := minutes / 60 in
        if hours <? 48 then jstring_of_Z hours +++ "h" +++ jpadStart (jstring_of_Z (minutes mod 60)) 2 48%N +++ "m"
        else jstring_of_Z (hours / 24) +++ "d"
  end.

Definition dquote : jstr := Js [34%N].

(** [if (value) parts.push(...)] *)
Definition push_if (value : option jstr) (part : jstr -> jstr) : list jstr :=
  match value with Some s => if truthy value then [part s] else [] | None => [] end.

Definition outageLine (l : EndpointLiveness) (now : Z) : jstr :=
  let parts :=
    [ jstring_of_Z (lv_consecutiveFailures l) +++ " consecutive failed check(s)";
      if bool_decide (lv_reachability l = unreachable_up) then "the upstream did not answer"
      else "reachability " +++ reachability_text (lv_reachability l) ]
    ++ push_if (lv_stage l) (fun s => "stage " +++ s)
    ++ push_if (lv_reason l) (fun s => "reason " +++ dquote +++ s +++ dquote) in
  "External endpoint " +++ dquote +++ lv_name l +++ dquote +++ " has not served for " +++
  durationSince (lv_notServingSince l) now +++ ": " +++
  jjoin ", " parts +++ ". Every model on it is refused with 503 attestation_failed.".

Definition recoveryLine (l : EndpointLiveness) (declaredAt now : Z) : jstr :=
  "External endpoint " +++ dquote +++ lv_name l +++ dquote +++ " is serving again after " +++
  durationSince (Some declaredAt) now +++ "; " +++ "its models are routable.".

Record OperatorAlert := {
  al_title : jstr;
  al_summary : jstr;
  al_facts : list (jstr * jstr);
  al_action : jstr
}.

Definition action_unreachable : jstr :=
  "The upstream did not answer, so this is the upstream’s cloud rather than an approval: check that the model deployment is up and that its hostname still routes. Nothing here needs approving.".

Definition action_refused : jstr :=
  "The upstream answered and this router refused what it answered with. If it was redeployed on purpose, approve the new deployment’s evidence digest in the console; if it was not, that refusal is the point. The sidecar’s own wording for the refusal is on the endpoint’s timeline in the console.".

Definition action_recovered : jstr :=
  "No action needed. The endpoint’s timeline in the console holds the run that just closed.".

Definition outageAlert (l : EndpointLiveness) (now : Z) : OperatorAlert :=
  {| al_title := "External endpoint “" +++ lv_name l +++ "” has stopped serving";
     al_summary := "Every model on “" +++ lv_name l +++
       "” is being refused with 503 attestation_failed, and has been for " +++
       durationSince (lv_notServingSince l) now +++ ".";
     al_facts :=
       [ ("Endpoint", lv_name l);
         ("Not serving for", durationSince (lv_notServingSince l) now);
         ("Failed checks in a row", jstring_of_Z (lv_consecutiveFailures l));
         ("Upstream", match lv_reachability l with
                      | unreachable_up => "did not answer at all"
                      | reachable_up => "answered, and this router refused what it answered with"
                      | unknown_up => "not checked since this process started"
                      end) ] ++
       match lv_stage l with
       | Some s => if truthy (lv_stage l) then [("Stopped at stage", s)] else []
       | None => []
       end;
     al_action := if bool_decide (lv_reachability l = unreachable_up) then action_unreachable else action_refused |}.

Definition recoveryAlert (l : EndpointLiveness) (declaredAt now : Z) : OperatorAlert :=
  {| al_title := "External endpoint “" +++ lv_name l +++ "” is serving again";
     al_summary := "“" +++ lv_name l +++ "” holds an admitting verdict again; its models are routable.";
     al_facts := [("Endpoint", lv_name l); ("Was not serving for", durationSince (Some declaredAt) now)];
     al_action := action_recovered |}.

Definition outageReason (l : EndpointLiveness) (now : Z) : jstr :=
  "Not serving for " +++ durationSince (lv_notServingSince l) now +++ " after " +++
  jstring_of_Z (lv_consecutiveFailures l) +++ " failed check(s); " +++ reachability_text (lv_reachability l) +++ ".".

#[global] Opaque action_unreachable action_refused action_recovered.

(** ** The canonical form of a measurement *)

(** [/^[0-9a-f]{64}$/] *)
Definition CANONICAL (s : jstr) : bool := (jlength s =? 64) && forallb is_hex (units s).

(** [replace(/^(sha256:|0x)/i, '')]: the prefixes are ASCII, in either case. *)
Definition strip_prefix_ci (s : jstr) : jstr :=
  let low := Js (map lower_unit (units s)) in
  if jstartsWith low "sha256:" then jdrop 7 s
  else if jstartsWith low "0x" then jdrop 2 s
  else s.

Section Measurement.
(** [String.prototype.toLowerCase], which is the language's Unicode case mapping. *)
Context (toLowerCase : jstr -> jstr).

(** [None] is the [InvalidMeasurementError]. *)
Definition normaliseMeasurement (value : jstr) : option jstr :=
  let normalised := toLowerCase (strip_prefix_ci (jtrim value)) in
  if negb (CANONICAL normalised) then None else Some normalised.
End Measurement.

(** ** Lemmas *)

Lemma isOutage_spec row thresholds now :
  isOutage row thresholds now = true <->
  expectedToServe row = true /\
  exists since, notServingSince (ee_columns row) = Some since /\
    (0 < afterFailures thresholds <= consecutiveFailures (ee_columns row) \/
     0 < afterNoSuccess thresholds <= now - since).
Proof.
  unfold isOutage. destruct (notServingSince (ee_columns row)) as [since|].
  2: by split; [|intros (_ & ? & ? & _)].
  destruct (expectedToServe row); cbn [negb]; [|by split; [|intros []]].
  destruct (_ && _) eqn:E; zbool.
  - split; [|done]. intros _. split; [done|]. eexists; split; [done|]. left; lia.
  - rewrite andb_true_iff, Z.ltb_lt, Z.leb_le. split.
    + intros [? ?]. split; [done|]. eexists; split; [done|]. right; lia.
    + intros (_ & s & [= <-] & [[? ?]|?]); [|done].
      apply andb_false_iff in E as [E|E]; zbool; lia.
Qed.

Lemma oldest_spec dates :
  match oldest dates with
  | None => dates = []
  | Some o => o ∈ dates /\ Forall (Z.le o) dates
  end.
Proof.
  unfold oldest. induction dates as [|d dates IH] using rev_ind; [done|].
  rewrite foldl_snoc. destruct (foldl _ None dates) as [o|].
  - destruct IH as [Hin Hall]. destruct (Z.ltb_spec d o) as [H|H].
    + split; [set_solver|]. apply Forall_app; split; [|by constructor].
      eapply Forall_impl; [exact Hall|]. cbn. lia.
    + split; [set_solver|]. apply Forall_app; split; [done|]. by constructor.
  - subst. cbn. split; [set_solver|]. by constructor.
Qed.

Lemma count_where_partition {A} (f : A -> ExternalEndpointStatus) l :
  Forall (fun x => f x <> disabled_status) l ->
  Z.of_nat (length l) = count_where (fun x => status_eqb (f x) verified) l +
    count_where (fun x => status_eqb (f x) denied) l + count_where (fun x => status_eqb (f x) pending) l.
Proof.
  unfold count_where. induction 1 as [|x l Hx _ IH]; [done|]. cbn [List.filter length].
  destruct (f x); cbn [status_eqb length]; try done; lia.
Qed.

Lemma count_where_all {A} (p : A -> bool) l : count_where p l = Z.of_nat (length l) <-> forallb p l = true.
Proof.
  unfold count_where. induction l as [|x l IH]; [done|]. cbn [List.filter length forallb].
  pose proof (List.filter_length_le p l) as Hle.
  destruct (p x); cbn [length andb]; [rewrite <- IH; lia|]. split; [lia|done].
Qed.

Lemma count_where_le {A} (p : A -> bool) l : 0 <= count_where p l <= Z.of_nat (length l).
Proof. unfold count_where. pose proof (List.filter_length_le p l). lia. Qed.

(** ** Properties *)

(** The outage rule: a row a process can reach is never in outage while it
    serves, nor while nothing is expected of it; and once a row is in outage, only
    a change of the row can end it, never the passing of time. *)
Theorem isOutage_rule row thresholds now now' :
  row_ok (ee_columns row) -> now <= now' ->
  (isOutage row thresholds now = true -> status (ee_columns row) <> verified /\ ee_enabled row = true /\
     is_Some (ee_pinnedEvidenceDigest row) /\ isOutage row thresholds now' = true).
Proof.
  intros Hok Hle. rewrite !isOutage_spec. intros (He & since & Hs & Hrun). split_and!.
  - intros Hv. destruct (row_serving _ Hok Hv). congruence.
  - unfold expectedToServe in He. by zbool.
  - unfold expectedToServe in He. zbool. destruct (ee_pinnedEvidenceDigest row); [eauto|done].
  - done.
  - exists since. split; [done|]. destruct Hrun; [by left|right; lia].
Qed.

Lemma isOutage_rule_witness :
  let row := project_row (booted_endpoint 0) (denying_verdict 5) {| pc_now := 6; pc_attestWindowMs := 100 |} in
  let thresholds := {| afterFailures := 0; afterNoSuccess := 60 |} in
  row_ok (ee_columns row) /\ 70 <= 1000 /\ isOutage row thresholds 70 = true /\
  isOutage row thresholds 1000 = true.
Proof.
  intros row thresholds.
  assert (Hok : row_ok (ee_columns row)).
  { split; [discriminate | reflexivity | by eexists | discriminate |].
    intros r [= <-]. vm_compute. discriminate. }
  assert (Hout : isOutage row thresholds 70 = true) by reflexivity.
  destruct (isOutage_rule row thresholds 70 1000 Hok ltac:(lia) Hout) as (_ & _ & _ & H).
  split_and!; [exact Hok | lia | exact Hout | exact H].
Defined.

(** The health summary adds up: over enabled endpoints the four counts
    partition the registered ones, [none] means nothing is registered, [ok] that
    every one serves and no run is in outage, and [since] is the earliest start of
    the runs still open. *)
Theorem summarise_sound livenesses readAt catalogue :
  Forall (fun l => lv_status l <> disabled_status) livenesses ->
  let s := summarise livenesses readAt catalogue in
  es_registered s = es_serving s + es_failing s + es_pending s /\ es_unreachable s <= es_failing s /\
  (es_status s = sum_none <-> livenesses = []) /\
  (es_status s = sum_ok -> es_serving s = es_registered s /\ Forall (fun l => lv_outage l = false) livenesses /\
                           is_Some readAt) /\
  (forall t, es_since s = Some t <->
     exists o, t = toISOString o /\ oldest (not_serving_dates livenesses) = Some o /\
       o ∈ not_serving_dates livenesses /\ Forall (Z.le o) (not_serving_dates livenesses)).
Proof.
  intros Hen s. split_and!.
  - apply (count_where_partition lv_status _ Hen).
  - apply count_where_le.
  - cbn. unfold statusOfSummary. destruct livenesses as [|l ls]; [done|]. split; [|done].
    destruct (_ || _); [done|]. destruct readAt; [|done]. by destruct (forallb _ _).
  - cbn. unfold statusOfSummary. destruct livenesses as [|l ls]; [done|].
    destruct (_ || _) eqn:Eo; [done|]. apply orb_false_iff in Eo as [_ Eo].
    destruct readAt; [|done]. destruct (forallb _ _) eqn:Ea; [|done]. intros _. split_and!; [|clear Ea|by eexists].
    + by apply count_where_all.
    + apply List.Forall_forall. intros x Hx. destruct (lv_outage x) eqn:E; [|done].
      assert (existsb lv_outage (l :: ls) = true); [|congruence].
      apply existsb_exists. eauto.
  - intros t. cbn [es_since s summarise]. pose proof (oldest_spec (not_serving_dates livenesses)) as Ho.
    destruct (oldest _) as [o|]; cbn.
    + destruct Ho. split; [intros [= <-]; exists o; by split_and! | by intros (o' & -> & [= ->] & _)].
    + split; [done | by intros (? & _ & ? & _)].
Qed.

(** Whether a pass found the catalogue short of the rows. *)
Definition pass_behind (livenesses : list EndpointLiveness) (routable_ : Z) : bool :=
  routable_ <? count_where (fun l => status_eqb (lv_status l) verified) livenesses.

Lemma summarise_sound_witness :
  let row := project_row (booted_endpoint 0) (denying_verdict 5) {| pc_now := 6; pc_attestWindowMs := 100 |} in
  let ls := [livenessOf row {| afterFailures := 3; afterNoSuccess := 0 |} 70] in
  let s := summarise ls (Some 70) {| routable := 0; behindBefore := false |} in
  es_since s = Some "1970-01-01T00:00:00.000Z" /\
  es_registered s = es_serving s + es_failing s + es_pending s.
Proof.
  intros row ls s. split; [vm_compute; reflexivity|].
  refine (proj1 (summarise_sound ls (Some 70) {| routable := 0; behindBefore := false |} _)).
  constructor; [discriminate | constructor].
Defined.

(** The catalogue cross-check needs two passes in a row: the published status
    is [outage] exactly when endpoints are registered and either a run is in outage
    or this pass and the one before it both found the catalogue short of the rows;
    and a pass that could not read the sidecar keeps the last reading's time. *)
Theorem report_outage_two_passes h ls1 r1 n1 ls2 r2 n2 :
  let h' := report (report h ls1 r1 n1) ls2 r2 n2 in
  (es_status (h_summary h') = sum_outage <->
     ls2 <> [] /\ (existsb lv_outage ls2 = true \/ pass_behind ls1 n1 = true /\ pass_behind ls2 n2 = true)) /\
  h_verdictsReadAt h' = nullish r2 (nullish r1 (h_verdictsReadAt h)).
Proof.
  split; [|done]. cbn. unfold statusOfSummary, pass_behind. destruct ls2 as [|l ls2].
  { split; [done|]. by intros []. }
  set (b1 := n1 <? _). set (b2 := n2 <? _). set (o := existsb lv_outage (l :: ls2)).
  destruct o, b1, b2; cbn.
  all: try (split; [intros _; split; [done|eauto] | done]).
  all: split; [repeat case_match; done | intros [_ [?|[? ?]]]; done].
Qed.

(** What the elapsed-time threshold does not see: a serving row whose verdict
    loses its report (the sidecar restarted, and answers before its first check)
    leaves service with no run opened and no event appended, so that however many
    such polls follow and however late it is, no outage is declared and no verdict
    is left to expire. *)
Theorem reportless_run_is_silent e v window nows thresholds now clock :
  row_ok (ee_columns e) -> status (ee_columns e) = verified ->
  vd_report v = None -> vd_admitted v = false -> nows <> [] ->
  let '(e', evs) := polls e v window nows in
  status (ee_columns e') = pending /\ notServingSince (ee_columns e') = None /\ evs = [] /\
  isOutage e' thresholds now = false /\ expireVerdict e' clock = None.
Proof.
  intros Hok Hv Hr Ha Hne. destruct (row_serving _ Hok Hv) as [Hns _]. clear Hok.
  assert (Hstep : forall e0 now0, notServingSince (ee_columns e0) = None ->
            let p := projectVerdict e0 v {| pc_now := now0; pc_attestWindowMs := window |} in
            status (pv_patch p) = pending /\ notServingSince (pv_patch p) = None /\ pv_events p = []).
  { intros e0 now0 H0. set (clock0 := {| pc_now := now0; pc_attestWindowMs := window |}).
    assert (Hx : expiredAdmission v (checkOf (vd_report v) now0) clock0 = None)
      by (unfold expiredAdmission; by rewrite Ha, orb_true_r).
    assert (Hp : projected_status v clock0 = pending).
    { unfold projected_status. cbn [pc_now clock0]. rewrite Hx. unfold statusOf. by rewrite Ha, Hr. }
    unfold projectVerdict, events_of, admission_expired, patch_of, changed.
    cbn [pv_patch pv_events pc_now clock0] in *. rewrite Hx, Hp, Hr. cbn. split_and!; [done..|].
    by rewrite !andb_false_r. }
  clear Hv. revert e Hns. induction nows as [|n nows IH]; intros e Hns; [done|].
  cbn [polls]. destruct (Hstep e n Hns) as (H1 & H2 & H3). set (p := projectVerdict _ _ _) in *.
  clearbody p. destruct nows as [|n' nows].
  - cbn [polls]. rewrite H3. split_and!; [exact H1|exact H2|done|..].
    + unfold isOutage. cbn. by rewrite H2.
    + unfold expireVerdict. cbn. by rewrite H1.
  - specialize (IH ltac:(done) (with_patch e (pv_patch p)) H2). destruct (polls _ v window _) as [e' evs].
    by rewrite H3.
Qed.

Definition serving_columns : ExternalEndpointStatusPatch :=
  {| status := verified; lastCheckedAt := Some 5; lastStage := None; lastReason := None;
     measurementSeen := None; measurementSource := None; measurementInRegistry := None;
     evidenceDigestSeen := Some "sha256/digest"; pinnedCertFingerprint := Some "sha256/leaf";
     observedCertFingerprint := Some "sha256/leaf"; lastSuccessAt := Some 5; lastFailureAt := None;
     notServingSince := None; consecutiveFailures := 0; upstreamUnreachable := Some false |}.

Definition reportless_verdict : SidecarVerdict :=
  {| vd_endpoint := "cloud"; vd_admitted := false; vd_reason := None; vd_report := None |}.

Lemma serving_row_ok : row_ok serving_columns.
Proof. split; cbn; done. Qed.

Lemma reportless_run_is_silent_witness :
  let '(e', evs) := polls (with_patch (booted_endpoint 0) serving_columns) reportless_verdict 100 [10; 15] in
  status (ee_columns e') = pending /\ notServingSince (ee_columns e') = None /\ evs = [] /\
  isOutage e' {| afterFailures := 3; afterNoSuccess := 60 |} 1000000 = false /\
  expireVerdict e' {| vc_confirmedAt := None; vc_graceMs := 60; vc_now := 1000000 |} = None.
Proof.
  apply (reportless_run_is_silent (with_patch (booted_endpoint 0) serving_columns) reportless_verdict 100 [10; 15]
    {| afterFailures := 3; afterNoSuccess := 60 |} 1000000
    {| vc_confirmedAt := None; vc_graceMs := 60; vc_now := 1000000 |}); try reflexivity.
  - exact serving_row_ok.
  - discriminate.
Defined.

(** ** Measurements *)

(** What the canonical form relies on in the language's case mapping: it maps ASCII
    unit by unit, and no character outside ASCII lowers into a hex digit alone. *)
Definition case_mapping (toLowerCase : jstr -> jstr) : Prop :=
  (forall s, Forall (fun c => (c < 128)%N) (units s) -> toLowerCase s = Js (map lower_unit (units s))) /\
  (forall s, forallb is_hex (units (toLowerCase s)) = true -> Forall (fun c => (c < 128)%N) (units s)).

Lemma CANONICAL_spec s : CANONICAL s = true <-> jlength s = 64 /\ forallb is_hex (units s) = true.
Proof. unfold CANONICAL. by rewrite andb_true_iff, Z.eqb_eq. Qed.

(** A prefix is stripped whatever the case it is written in, and hex has none. *)
Lemma strip_prefix_ci_hex h : forallb is_hex (map lower_unit (units h)) = true -> strip_prefix_ci h = h.
Proof.
  intros Hh. unfold strip_prefix_ci, jstartsWith. cbn [units].
  destruct (map lower_unit (units h)) as [|c0 [|c1 u]]; cbn [prefixb forallb] in *.
  - done.
  - by rewrite !andb_false_r.
  - apply andb_true_iff in Hh as [H0 [H1 _]%andb_true_iff].
    destruct (N.eqb_spec 115 c0) as [<-|]; [done|]. destruct (N.eqb_spec 120 c1) as [<-|]; [done|].
    by rewrite andb_false_r.
Qed.

Lemma strip_prefix_ci_app p h :
  forallb is_hex (map lower_unit (units h)) = true ->
  map lower_unit (units p) ∈ [units ""; units "sha256:"; units "0x"] -> strip_prefix_ci (p +++ h) = h.
Proof.
  intros Hh Hp. destruct p as [p], h as [h]; cbn [units] in *.
  assert (Hlen : length p = length (map lower_unit p)) by (by rewrite length_map).
  rewrite !elem_of_cons in Hp. destruct Hp as [Hp|[Hp|[Hp|Hp]]]; [..|by apply elem_of_nil in Hp];
    rewrite Hp in Hlen; cbn in Hlen.
  - destruct p; [|done]. by apply (strip_prefix_ci_hex (Js h)).
  - unfold strip_prefix_ci, jstartsWith, japp. cbn [units]. rewrite map_app, Hp. cbn.
    unfold jdrop. cbn [units]. change (Z.to_nat 7) with 7%nat. rewrite <- Hlen. by rewrite drop_app_length.
  - unfold strip_prefix_ci, jstartsWith, japp. cbn [units]. rewrite map_app, Hp. cbn.
    unfold jdrop. cbn [units]. change (Z.to_nat 2) with 2%nat. rewrite <- Hlen. by rewrite drop_app_length.
Qed.

(** One value, one spelling: whatever [normaliseMeasurement] accepts is
    canonical and is its own normal form, and every spelling of a measurement, with
    or without either prefix and in either case, normalises to the same one. *)
Theorem normaliseMeasurement_canonical toLowerCase :
  case_mapping toLowerCase ->
  (forall v n, normaliseMeasurement toLowerCase v = Some n ->
     CANONICAL n = true /\ normaliseMeasurement toLowerCase n = Some n) /\
  (forall p h, CANONICAL (Js (map lower_unit (units h))) = true ->
     map lower_unit (units p) ∈ [units ""; units "sha256:"; units "0x"] ->
     jtrim (p +++ h) = p +++ h ->
     normaliseMeasurement toLowerCase (p +++ h) = Some (Js (map lower_unit (units h)))).
Proof.
  intros [Hascii Hhex].
  assert (Hfix : forall p h, CANONICAL (Js (map lower_unit (units h))) = true ->
     map lower_unit (units p) ∈ [units ""; units "sha256:"; units "0x"] ->
     jtrim (p +++ h) = p +++ h ->
     normaliseMeasurement toLowerCase (p +++ h) = Some (Js (map lower_unit (units h)))).
  { intros p h Hc Hp Ht. unfold normaliseMeasurement. rewrite Ht.
    pose proof Hc as [_ Hx]%CANONICAL_spec. cbn [units] in Hx.
    rewrite strip_prefix_ci_app by done. rewrite Hascii; [by rewrite Hc|].
    apply Forall_forall. intros c Hc'. apply (list_elem_of_fmap_2 lower_unit) in Hc'.
    rewrite forallb_forall in Hx. specialize (Hx (lower_unit c)). rewrite <- list_elem_of_In in Hx.
    destruct (is_hex_ascii _ (Hx Hc')) as [Hl _]. revert Hl. unfold lower_unit. destruct (is_upper c); lia. }
  split; [|exact Hfix]. intros v n. unfold normaliseMeasurement at 1.
  destruct (CANONICAL (toLowerCase (strip_prefix_ci (jtrim v)))) eqn:E; cbn [negb]; [|done].
  intros [= <-]. split; [done|]. set (n := toLowerCase _) in *. clearbody n.
  pose proof E as [_ Hx]%CANONICAL_spec.
  assert (Hn : Js (map lower_unit (units n)) = n) by (rewrite map_lower_hex by done; by destruct n).
  rewrite <- Hn at 2. rewrite <- (Hfix "" n); [by destruct n|by rewrite Hn|set_solver|].
  rewrite (jtrim_hex n) || idtac. by rewrite jtrim_hex by (by destruct n).
Qed.

(** ASCII case mapping that leaves other characters alone. *)
Definition ascii_lower (s : jstr) : jstr := Js (map lower_unit (units s)).

Lemma ascii_case_mapping : case_mapping ascii_lower.
Proof.
  split; [done|]. intros [u]; cbn. intros H. apply Forall_forall. intros c Hc.
  rewrite forallb_forall in H. specialize (H (lower_unit c)). rewrite <- list_elem_of_In in H.
  destruct (is_hex_ascii _ (H (list_elem_of_fmap_2 lower_unit _ _ Hc))) as [Hl _]. revert Hl.
  unfold lower_unit. destruct (is_upper c); lia.
Qed.

Lemma normaliseMeasurement_canonical_witness :
  normaliseMeasurement ascii_lower ("SHA256:" +++ jrepeat 65 64) = Some (jrepeat 97 64) /\
  normaliseMeasurement ascii_lower ("0x" +++ jrepeat 97 64) = Some (jrepeat 97 64).
Proof.
  pose proof (normaliseMeasurement_canonical ascii_lower ascii_case_mapping) as [_ H].
  split; [apply (H "SHA256:" (jrepeat 65 64)) | apply (H "0x" (jrepeat 97 64))];
    solve [reflexivity | apply (bool_decide_unpack _); reflexivity].
Defined.
