(* ===== verification/OperatorAlerts.v ===== *)
(** * The operator alert channel

    [alerts/operator-alerts.service.ts], with the delivery it calls in
    [mail/mail.service.ts] ([sendOperatorAlert]).  What the mail provider answers is
    a parameter: rendering the message may throw, and each address is accepted or
    refused with an error of the transport. *)

From S2P Require Import Prelude JsString JsDate StatusProjection Liveness.

(** ** Delivery *)

Inductive MailFailureReason := mf_unreachable | mf_auth_failed | mf_rejected | mf_error.

#[global] Instance mail_failure_eq_dec : EqDecision MailFailureReason.
Proof. solve_decision. Defined.

(** What a thrown value carries: its own code and its cause's. *)
Record MailError := { err_code : option jstr; err_cause_code : option jstr }.

Definition UNREACHABLE_CODES : list jstr :=
  ["ECONNECTION"; "ETIMEDOUT"; "ESOCKET"; "EDNS"; "ECONNREFUSED"; "ENOTFOUND"; "EAI_AGAIN"].

Definition in_codes (c : jstr) (l : list jstr) : bool := existsb (jeqb c) l.

Definition failureReasonOf (e : MailError) : MailFailureReason :=
  let by_cause := match err_cause_code e with
                  | Some c => if in_codes c UNREACHABLE_CODES then mf_unreachable else mf_error
                  | None => mf_error
                  end in
  match err_code e with
  | Some c => if in_codes c UNREACHABLE_CODES then mf_unreachable
              else if jeqb c "EAUTH" then mf_auth_failed
              else if in_codes c ["EENVELOPE"; "EMESSAGE"] then mf_rejected
              else by_cause
  | None => by_cause
  end.

Inductive Skipped := no_provider | no_recipients.

Record OperatorAlertDelivery := {
  dl_attempted : Z;
  dl_delivered : list jstr;
  dl_failed : list (jstr * MailFailureReason);
  dl_skipped : option Skipped
}.

(** [/\.local$/i] on the trimmed address. *)
Definition undeliverable (email : jstr) : bool :=
  let rev := reverse (map lower_unit (units (jtrim email))) in
  prefixb (reverse (units ".local")) rev.

(** [[...new Set(l)]]: first occurrences, in order. *)
Fixpoint dedup (seen : list jstr) (l : list jstr) : list jstr :=
  match l with
  | [] => []
  | x :: l => if existsb (jeqb x) seen then dedup seen l else x :: dedup (x :: seen) l
  end.

Definition addressees (recipients : list jstr) : list jstr :=
  List.filter (fun a => negb (undeliverable a))
    (dedup [] (List.filter (fun a => 0 <? jlength a) (map jtrim recipients))).

(** The provider: [None] when the message could not be rendered, else its answer
    to each address. *)
Definition Transport := OperatorAlert -> option (jstr -> option MailError).

(** [None] is an exception of [sendOperatorAlert]. *)
Definition sendOperatorAlert (mail_enabled : bool) (transport : Transport) (alert : OperatorAlert)
    (recipients : list jstr) : option OperatorAlertDelivery :=
  if negb mail_enabled
  then Some {| dl_attempted := 0; dl_delivered := []; dl_failed := []; dl_skipped := Some no_provider |}
  else
    let to := addressees recipients in
    match to with
    | [] => Some {| dl_attempted := 0; dl_delivered := []; dl_failed := []; dl_skipped := Some no_recipients |}
    | _ =>
        match transport alert with
        | None => None
        | Some send =>
            Some {| dl_attempted := Z.of_nat (length to);
                    dl_delivered := List.filter (fun a => match send a with None => true | Some _ => false end) to;
                    dl_failed := omap (fun a => (fun e => (a, failureReasonOf e)) <$> send a) to;
                    dl_skipped := None |}
        end
    end.

(** ** The channel *)

Record AlertsConfig := {
  cfg_email : bool;
  cfg_emails : list jstr;
  cfg_minInterval : Z;
  cfg_adminEmails : list jstr;
  cfg_mailEnabled : bool
}.

Record OperatorAlertsService := {
  lastSentAt : option Z;
  lastAttemptAt : option Z;
  lastDelivered : option bool;
  suppressed : Z
}.

Definition alerts_initial : OperatorAlertsService :=
  {| lastSentAt := None; lastAttemptAt := None; lastDelivered := None; suppressed := 0 |}.

Definition recipients (c : AlertsConfig) : list jstr :=
  match cfg_emails c with [] => cfg_adminEmails c | named => named end.

Definition enabled (c : AlertsConfig) : bool := cfg_email c && cfg_mailEnabled c.

Inductive ChannelState := ch_disabled | ch_unconfigured | ch_ready | ch_ok | ch_failing.

#[global] Instance channel_state_eq_dec : EqDecision ChannelState.
Proof. solve_decision. Defined.

Definition channel_state (c : AlertsConfig) (s : OperatorAlertsService) (recipients_ : Z) : ChannelState :=
  if negb (enabled c) then ch_disabled
  else if recipients_ =? 0 then ch_unconfigured
  else match lastDelivered s with None => ch_ready | Some d => if d then ch_ok else ch_failing end.

Record AlertChannelStatus := {
  cs_state : ChannelState;
  cs_recipients : Z;
  cs_lastAttemptAt : option jstr;
  cs_suppressed : option Z
}.

Definition alerts_status (c : AlertsConfig) (s : OperatorAlertsService) : AlertChannelStatus :=
  let n := Z.of_nat (length (recipients c)) in
  {| cs_state := channel_state c s n; cs_recipients := n;
     cs_lastAttemptAt := toISOString <$> lastAttemptAt s;
     cs_suppressed := if 0 <? suppressed s then Some (suppressed s) else None |}.

Definition withinMinInterval (c : AlertsConfig) (s : OperatorAlertsService) (now : Z) : bool :=
  (0 <? cfg_minInterval c) &&
  match lastSentAt s with Some at_ => now - at_ <? cfg_minInterval c | None => false end.

Definition withSuppressed (alert : OperatorAlert) (n : Z) : OperatorAlert :=
  if n =? 0 then alert
  else {| al_title := al_title alert; al_summary := al_summary alert;
          al_facts := al_facts alert ++ [("Alerts suppressed since the last message", jstring_of_Z n)];
          al_action := al_action alert |}.

(** The one call that leaves the process: an exception counts as reaching nobody. *)
Definition send (c : AlertsConfig) (transport : Transport) (s : OperatorAlertsService) (alert : OperatorAlert)
    : OperatorAlertsService * option OperatorAlertDelivery :=
  let delivery := sendOperatorAlert (cfg_mailEnabled c) transport alert (recipients c) in
  ({| lastSentAt := lastSentAt s; lastAttemptAt := lastAttemptAt s;
      lastDelivered := Some match delivery with
                            | None => false
                            | Some d => match dl_delivered d with [] => false | _ => true end
                            end;
      suppressed := suppressed s |}, delivery).

(** What a raise came to: [sent] is the message handed to the provider. *)
Inductive Raised :=
| raise_disabled
| raise_nobody
| raise_suppressed
| raise_attempted (sent : OperatorAlert) (delivery : option OperatorAlertDelivery).

Definition raise (c : AlertsConfig) (transport : Transport) (s : OperatorAlertsService) (alert : OperatorAlert)
    (now : Z) (urgent : bool) : OperatorAlertsService * Raised :=
  if negb (enabled c) then (s, raise_disabled)
  else match recipients c with
  | [] => (s, raise_nobody)
  | _ =>
      if negb urgent && withinMinInterval c s now
      then ({| lastSentAt := lastSentAt s; lastAttemptAt := lastAttemptAt s; lastDelivered := lastDelivered s;
               suppressed := suppressed s + 1 |}, raise_suppressed)
      else
        let s1 := {| lastSentAt := lastSentAt s; lastAttemptAt := Some now; lastDelivered := lastDelivered s;
                     suppressed := suppressed s |} in
        let message := withSuppressed alert (suppressed s) in
        let '(s2, delivery) := send c transport s1 message in
        match delivery with
        | None => (s2, raise_attempted message None)
        | Some d =>
            match dl_delivered d with
            | [] => (s2, raise_attempted message (Some d))
            | _ => ({| lastSentAt := Some now; lastAttemptAt := lastAttemptAt s2;
                       lastDelivered := lastDelivered s2; suppressed := 0 |}, raise_attempted message (Some d))
            end
        end
  end.

Definition test_alert (c : AlertsConfig) (raisedBy : jstr) (now : Z) : OperatorAlert :=
  {| al_title := "Alert channel test";
     al_summary := "This is a test of this deployment’s operator alert channel. Nothing is wrong. An external model endpoint that stops serving sends a message that looks like this one.";
     al_facts := [("Raised by", raisedBy); ("Raised at", toISOString now);
                  ("Recipients", jstring_of_Z (Z.of_nat (length (recipients c))))];
     al_action := "No action needed. If this arrived, an outage alert will arrive too." |}.

Definition sendTest (c : AlertsConfig) (transport : Transport) (s : OperatorAlertsService) (raisedBy : jstr) (now : Z)
    : OperatorAlertsService * OperatorAlertDelivery :=
  if negb (enabled c)
  then (s, {| dl_attempted := 0; dl_delivered := []; dl_failed := []; dl_skipped := Some no_provider |})
  else match recipients c with
  | [] => (s, {| dl_attempted := 0; dl_delivered := []; dl_failed := []; dl_skipped := Some no_recipients |})
  | to =>
      let s1 := {| lastSentAt := lastSentAt s; lastAttemptAt := Some now; lastDelivered := lastDelivered s;
                   suppressed := suppressed s |} in
      let '(s2, delivery) := send c transport s1 (test_alert c raisedBy now) in
      (s2, default {| dl_attempted := Z.of_nat (length to); dl_delivered := []; dl_failed := []; dl_skipped := None |}
             delivery)
  end.

#[global] Opaque test_alert.

(** ** A run of raises *)

Record RaiseCall := { rc_alert : OperatorAlert; rc_now : Z; rc_urgent : bool; rc_transport : Transport }.

Fixpoint raises (c : AlertsConfig) (s : OperatorAlertsService) (calls : list RaiseCall)
    : OperatorAlertsService * list (RaiseCall * Raised) :=
  match calls with
  | [] => (s, [])
  | k :: calls =>
      let '(s1, r) := raise c (rc_transport k) s (rc_alert k) (rc_now k) (rc_urgent k) in
      let '(s2, rs) := raises c s1 calls in
      (s2, (k, r) :: rs)
  end.

(** The message reached somebody. *)
Definition landed (r : Raised) : bool :=
  match r with
  | raise_attempted _ (Some d) => match dl_delivered d with [] => false | _ => true end
  | _ => false
  end.

Definition was_suppressed (r : Raised) : bool := match r with raise_suppressed => true | _ => false end.

(** The count of suppressed alerts a sent message states. *)
Definition stated (k : RaiseCall) (r : Raised) : Z -> Prop := fun n =>
  match r with raise_attempted sent _ => sent = withSuppressed (rc_alert k) n | _ => False end.

(** Every message states how many raises were suppressed since the last one that
    reached somebody, of which [n] came before the log. *)
Fixpoint accounted (n : Z) (log : list (RaiseCall * Raised)) : Prop :=
  match log with
  | [] => True
  | (k, r) :: log =>
      match r with raise_attempted sent _ => sent = withSuppressed (rc_alert k) n | _ => True end /\
      accounted (if landed r then 0 else n + (if was_suppressed r then 1 else 0)) log
  end.

(** ** Lemmas *)

Lemma raise_step c k s s' r :
  raise c (rc_transport k) s (rc_alert k) (rc_now k) (rc_urgent k) = (s', r) ->
  lastSentAt s' = (if landed r then Some (rc_now k) else lastSentAt s) /\
  suppressed s' = (if landed r then 0 else suppressed s + (if was_suppressed r then 1 else 0)) /\
  match r with raise_attempted sent _ => sent = withSuppressed (rc_alert k) (suppressed s) | _ => True end /\
  (landed r = true -> rc_urgent k = false -> withinMinInterval c s (rc_now k) = false).
Proof.
  unfold raise, send. destruct (enabled c); cbn [negb]; [|intros [= <- <-]; cbn; split_and!; done || lia].
  destruct (recipients c) as [|a0 rest] eqn:Er; [intros [= <- <-]; cbn; split_and!; done || lia|].
  destruct (negb (rc_urgent k) && _) eqn:Ew; [intros [= <- <-]; cbn; split_and!; done || lia|].
  destruct (sendOperatorAlert _ _ _ _) as [d|]; [|intros [= <- <-]; cbn; split_and!; done || lia].
  destruct (dl_delivered d) as [|x ls] eqn:Ed; intros [= <- <-]; cbn; rewrite Ed; split_and!; try done; try lia.
  intros _ Hu. rewrite Hu in Ew. done.
Qed.

Lemma landed_spacing_from c s calls t k r :
  0 < cfg_minInterval c -> lastSentAt s = Some t ->
  StronglySorted (fun a b => rc_now a <= rc_now b) calls -> Forall (fun k => t <= rc_now k) calls ->
  (k, r) ∈ snd (raises c s calls) -> landed r = true -> rc_urgent k = false ->
  cfg_minInterval c <= rc_now k - t.
Proof.
  intros Hi. revert s t. induction calls as [|k0 calls IH]; intros s t Ht Hs Hle Hin Hl Hu; cbn in Hin; [set_solver|].
  destruct (raise _ _ _ _ _ _) as [s1 r0] eqn:E. pose proof (raise_step _ _ _ _ _ E) as (H1 & _ & _ & H4).
  destruct (raises c s1 calls) as [s2 rs] eqn:E2. cbn in Hin.
  apply StronglySorted_inv in Hs as [Hs Hall]. apply Forall_cons in Hle as [Hle Hles].
  apply elem_of_cons in Hin as [Hin|Hin].
  - injection Hin as -> ->. specialize (H4 Hl Hu). unfold withinMinInterval in H4. rewrite Ht in H4.
    rewrite (proj2 (Z.ltb_lt _ _) Hi) in H4. cbn in H4. apply Z.ltb_ge in H4. lia.
  - assert (Hin' : (k, r) ∈ snd (raises c s1 calls)) by (by rewrite E2).
    destruct (landed r0).
    + pose proof (IH s1 (rc_now k0) H1 Hs Hall Hin' Hl Hu). lia.
    + rewrite Ht in H1. by apply (IH s1 t H1).
Qed.

(** ** Properties *)

(** The alert interval: on a clock that does not run backwards, a message that
    is not urgent reaches an operator only when the interval has passed since every
    earlier message that did, urgent or not, however the provider behaves. *)
Theorem alerts_spaced c s calls pre k1 r1 mid k2 r2 post :
  0 < cfg_minInterval c -> Sorted Z.le (map rc_now calls) ->
  snd (raises c s calls) = pre ++ (k1, r1) :: mid ++ (k2, r2) :: post ->
  landed r1 = true -> landed r2 = true -> rc_urgent k2 = false ->
  cfg_minInterval c <= rc_now k2 - rc_now k1.
Proof.
  intros Hi Hs%sorted_map_strong. revert s pre.
  induction calls as [|k0 calls IH]; intros s pre Heq Hl1 Hl2 Hu.
  { cbn in Heq. by destruct pre. }
  cbn in Heq. destruct (raise _ _ _ _ _ _) as [s1 r0] eqn:E.
  pose proof (raise_step _ _ _ _ _ E) as (H1 & _).
  destruct (raises c s1 calls) as [s2 rs] eqn:E2. cbn in Heq.
  apply StronglySorted_inv in Hs as [Hs Hall]. destruct pre as [|p pre].
  - injection Heq as -> -> ->. rewrite Hl1 in H1.
    apply (landed_spacing_from c s1 calls (rc_now k1) k2 r2); try done. rewrite E2. set_solver.
  - injection Heq as _ ->. apply (IH Hs s1 pre); [by rewrite E2|done..].
Qed.

(** No suppressed alert goes unmentioned: over any run of raises, each message
    handed to the provider states exactly the number suppressed since the last
    message that reached somebody, and what is left is what [status] reports. *)
Theorem suppressions_accounted c s calls :
  let '(s', log) := raises c s calls in
  accounted (suppressed s) log /\
  suppressed s' = foldl (fun n kr => if landed (snd kr) then 0 else n + (if was_suppressed (snd kr) then 1 else 0))
                    (suppressed s) log.
Proof.
  revert s. induction calls as [|k calls IH]; intros s; cbn [raises]; [done|].
  destruct (raise _ _ _ _ _ _) as [s1 r] eqn:E. pose proof (raise_step _ _ _ _ _ E) as (_ & H2 & H3 & _).
  specialize (IH s1). destruct (raises c s1 calls) as [s2 rs]. destruct IH as [IH1 IH2].
  cbn [accounted foldl snd]. rewrite <- H2. done.
Qed.

Definition example_config : AlertsConfig :=
  {| cfg_email := true; cfg_emails := []; cfg_minInterval := 900; cfg_adminEmails := ["ops@example.com"];
     cfg_mailEnabled := true |}.

Definition example_alert : OperatorAlert :=
  {| al_title := "down"; al_summary := "down"; al_facts := []; al_action := "look" |}.

Definition example_call (now : Z) : RaiseCall :=
  {| rc_alert := example_alert; rc_now := now; rc_urgent := false;
     rc_transport := fun _ => Some (fun _ => None) |}.

Lemma alerts_spaced_witness :
  let log := snd (raises example_config alerts_initial [example_call 0; example_call 300; example_call 950]) in
  map (fun kr => was_suppressed (snd kr)) log = [false; true; false] /\ 900 <= 950 - 0.
Proof.
  intros log. split; [vm_compute; reflexivity|].
  refine (alerts_spaced example_config alerts_initial [example_call 0; example_call 300; example_call 950]
    [] (example_call 0) _ [(example_call 300, raise_suppressed)] (example_call 950) _ [] _ _ _ _ _ _).
  - reflexivity.
  - repeat constructor; discriminate.
  - vm_compute. reflexivity.
  - reflexivity.
  - reflexivity.
  - reflexivity.
Defined.
