(* ===== verification/ExternalCatalog.v ===== *)
(** * The catalogue of external models

    [external-endpoints/external-catalog.service.ts] over the rows of
    [db/entities/model.entity.ts]: the maps admission and the model list read, and
    the rebuild that derives them.  Identifiers are primary keys, so a [Map] keyed by
    one is kept as the list of its values in insertion order. *)

From S2P Require Import Prelude JsString EvidenceDigest StatusProjection.

(** ** Rows *)

Inductive ModelOrigin := origin_config | origin_external.

#[global] Instance model_origin_eq_dec : EqDecision ModelOrigin.
Proof. solve_decision. Defined.

Inductive ModelCapability := cap_chat | cap_completions | cap_embeddings.

Record Model := {
  m_id : jstr;
  m_name : jstr;
  m_litellmModel : jstr;
  m_origin : ModelOrigin;
  m_endpointId : option jstr;
  m_externalEndpointId : option jstr;
  m_contextLength : Z;
  m_capabilities : list ModelCapability;
  m_promptPer1mMicros : Z;
  m_completionPer1mMicros : Z;
  m_enabled : bool;
  m_updatedAt : Z
}.

Definition is_null {A} (o : option A) : bool := match o with Some _ => false | None => true end.

Definition modelOriginIsExclusive (row : Model) : bool :=
  match m_origin row with
  | origin_config => negb (is_null (m_endpointId row)) && is_null (m_externalEndpointId row)
  | origin_external => is_null (m_endpointId row) && negb (is_null (m_externalEndpointId row))
  end.

(** ** Projections *)

Record ExternalCatalogEndpoint := {
  ce_id : jstr;
  ce_name : jstr;
  ce_hostname : jstr;
  ce_baseUrl : jstr;
  ce_listenPort : Z;
  ce_apiKeyCiphertext : jstr;
  ce_measurementSeen : option jstr;
  ce_evidenceDigestSeen : option jstr
}.

Record ExternalCatalogModel := {
  cm_id : jstr;
  cm_name : jstr;
  cm_upstreamModel : jstr;
  cm_contextLength : Z;
  cm_capabilities : list ModelCapability;
  cm_promptPer1mMicros : Z;
  cm_completionPer1mMicros : Z;
  cm_endpoint : ExternalCatalogEndpoint;
  cm_updatedAt : Z
}.

Record UnadmittedExternalModel := {
  um_id : jstr;
  um_endpointName : jstr;
  um_status : ExternalEndpointStatus;
  um_stage : option jstr;
  um_reason : option jstr
}.

Record ExternalCatalogueUpstream := {
  cu_id : jstr;
  cu_name : jstr;
  cu_hostname : jstr;
  cu_status : ExternalEndpointStatus;
  cu_lastCheckedAt : option Z;
  cu_notServingSince : option Z;
  cu_measurementSeen : option jstr;
  cu_evidenceDigestSeen : option jstr;
  cu_evidenceDigestSeenHex : option jstr
}.

Record ExternalCatalogueEntry := {
  en_id : jstr;
  en_name : jstr;
  en_contextLength : Z;
  en_capabilities : list ModelCapability;
  en_promptPer1mMicros : Z;
  en_completionPer1mMicros : Z;
  en_available : bool;
  en_upstream : ExternalCatalogueUpstream
}.

Definition digestHexOrNull (digest : option jstr) : option jstr :=
  match digest with
  | Some d => if truthy digest then evidenceDigestHex d else None
  | None => None
  end.

Definition catalogueEntryOf (row : Model) (endpoint : ExternalEndpoint) : ExternalCatalogueEntry :=
  let c := ee_columns endpoint in
  {| en_id := m_id row; en_name := m_name row; en_contextLength := m_contextLength row;
     en_capabilities := m_capabilities row; en_promptPer1mMicros := m_promptPer1mMicros row;
     en_completionPer1mMicros := m_completionPer1mMicros row;
     en_available := status_eqb (status c) verified;
     en_upstream :=
       {| cu_id := ee_id endpoint; cu_name := ee_name endpoint; cu_hostname := ee_hostname endpoint;
          cu_status := status c; cu_lastCheckedAt := lastCheckedAt c; cu_notServingSince := notServingSince c;
          cu_measurementSeen := measurementSeen c; cu_evidenceDigestSeen := evidenceDigestSeen c;
          cu_evidenceDigestSeenHex := digestHexOrNull (evidenceDigestSeen c) |} |}.

Definition catalogModelOf (row : Model) (endpoint : ExternalEndpoint) : ExternalCatalogModel :=
  let c := ee_columns endpoint in
  {| cm_id := m_id row; cm_name := m_name row; cm_upstreamModel := m_litellmModel row;
     cm_contextLength := m_contextLength row; cm_capabilities := m_capabilities row;
     cm_promptPer1mMicros := m_promptPer1mMicros row; cm_completionPer1mMicros := m_completionPer1mMicros row;
     cm_endpoint :=
       {| ce_id := ee_id endpoint; ce_name := ee_name endpoint; ce_hostname := ee_hostname endpoint;
          ce_baseUrl := ee_baseUrl endpoint; ce_listenPort := ee_listenPort endpoint;
          ce_apiKeyCiphertext := ee_apiKeyCiphertext endpoint; ce_measurementSeen := measurementSeen c;
          ce_evidenceDigestSeen := evidenceDigestSeen c |};
     cm_updatedAt := m_updatedAt row |}.

Definition unadmittedOf (row : Model) (endpoint : ExternalEndpoint) : UnadmittedExternalModel :=
  let c := ee_columns endpoint in
  {| um_id := m_id row; um_endpointName := ee_name endpoint; um_status := status c;
     um_stage := lastStage c; um_reason := lastReason c |}.

(** ** The service *)

Record ExternalCatalogService := {
  models : list ExternalCatalogModel;
  unadmitted : list UnadmittedExternalModel;
  catalogue : list ExternalCatalogueEntry;
  admitting : list jstr
}.

Definition catalog_initial : ExternalCatalogService :=
  {| models := []; unadmitted := []; catalogue := []; admitting := [] |}.

Definition list_models (s : ExternalCatalogService) (scope : option (list jstr)) : list ExternalCatalogModel :=
  match scope with
  | Some ids => List.filter (fun m => existsb (jeqb (cm_id m)) ids) (models s)
  | None => models s
  end.

Definition find_model (s : ExternalCatalogService) (id : jstr) : option ExternalCatalogModel :=
  find_first (fun m => jeqb (cm_id m) id) (models s).

Definition listCatalogue (s : ExternalCatalogService) : list ExternalCatalogueEntry := catalogue s.

Definition findUnadmitted (s : ExternalCatalogService) (id : jstr) : option UnadmittedExternalModel :=
  find_first (fun m => jeqb (um_id m) id) (unadmitted s).

Definition routableEndpoints (s : ExternalCatalogService) : Z := Z.of_nat (length (admitting s)).

(** [order: { id: 'ASC' }] *)
Definition id_le (a b : Model) : Prop := jltb (m_id b) (m_id a) = false.

#[global] Instance id_le_dec : RelDecision id_le.
Proof. intros a b. unfold id_le. apply _. Defined.

Definition external_rows (table : list Model) : list Model :=
  merge_sort id_le (List.filter (fun m => bool_decide (m_origin m = origin_external) && m_enabled m) table).

Definition enabled_endpoints (table : list ExternalEndpoint) : list ExternalEndpoint := List.filter ee_enabled table.

Definition endpoint_by_id (endpoints : list ExternalEndpoint) (id : option jstr) : option ExternalEndpoint :=
  match id with
  | Some i => if truthy id then find_first (fun e => jeqb (ee_id e) i) endpoints else None
  | None => None
  end.

(** One row of the loop: [continue] adds to nothing. *)
Definition rebuild_row (endpoints : list ExternalEndpoint) (s : ExternalCatalogService) (row : Model)
    : ExternalCatalogService :=
  match endpoint_by_id endpoints (m_externalEndpointId row) with
  | None => s
  | Some endpoint =>
      if negb (status_eqb (status (ee_columns endpoint)) verified)
      then {| models := models s; unadmitted := unadmitted s ++ [unadmittedOf row endpoint];
              catalogue := catalogue s ++ [catalogueEntryOf row endpoint]; admitting := admitting s |}
      else {| models := models s ++ [catalogModelOf row endpoint]; unadmitted := unadmitted s;
              catalogue := catalogue s ++ [catalogueEntryOf row endpoint]; admitting := admitting s |}
  end.

(** The rebuild assigns every map from the rows it has just read. *)
Definition rebuild (modelTable : list Model) (endpointTable : list ExternalEndpoint) : ExternalCatalogService :=
  let rows := external_rows modelTable in
  let endpoints := enabled_endpoints endpointTable in
  let s := foldl (rebuild_row endpoints) catalog_initial rows in
  {| models := models s; unadmitted := unadmitted s; catalogue := catalogue s;
     admitting := map ee_id (List.filter (fun e => status_eqb (status (ee_columns e)) verified) endpoints) |}.

(** ** Lemmas *)

(** The rebuild in closed form: each row with an enabled endpoint, in order. *)
Definition joined (endpoints : list ExternalEndpoint) (rows : list Model) : list (Model * ExternalEndpoint) :=
  omap (fun row => (fun e => (row, e)) <$> endpoint_by_id endpoints (m_externalEndpointId row)) rows.

Definition is_admitted (p : Model * ExternalEndpoint) : bool := status_eqb (status (ee_columns (snd p))) verified.

Lemma rebuild_fold endpoints rows s :
  let s' := foldl (rebuild_row endpoints) s rows in
  let js := joined endpoints rows in
  models s' = models s ++ map (uncurry catalogModelOf) (List.filter is_admitted js) /\
  unadmitted s' = unadmitted s ++ map (uncurry unadmittedOf) (List.filter (fun p => negb (is_admitted p)) js) /\
  catalogue s' = catalogue s ++ map (uncurry catalogueEntryOf) js.
Proof.
  revert s. induction rows as [|row rows IH]; intros s; cbn zeta; [cbn; by rewrite !app_nil_r|].
  cbn [foldl]. destruct (IH (rebuild_row endpoints s row)) as (-> & -> & ->). clear IH.
  unfold joined. cbn [omap list_omap]. unfold rebuild_row.
  destruct (endpoint_by_id endpoints (m_externalEndpointId row)) as [e|]; cbn [fmap option_fmap option_map]; [|done].
  cbn [List.filter]. assert (Ha : is_admitted (row, e) = status_eqb (status (ee_columns e)) verified) by reflexivity.
  rewrite Ha. destruct (status_eqb (status (ee_columns e)) verified); cbn [negb models unadmitted catalogue map uncurry];
    by rewrite <- ?app_assoc.
Qed.

Lemma rebuild_spec modelTable endpointTable :
  let s := rebuild modelTable endpointTable in
  let js := joined (enabled_endpoints endpointTable) (external_rows modelTable) in
  models s = map (uncurry catalogModelOf) (List.filter is_admitted js) /\
  unadmitted s = map (uncurry unadmittedOf) (List.filter (fun p => negb (is_admitted p)) js) /\
  catalogue s = map (uncurry catalogueEntryOf) js.
Proof.
  cbn zeta. unfold rebuild. cbn [models unadmitted catalogue].
  destruct (rebuild_fold (enabled_endpoints endpointTable) (external_rows modelTable) catalog_initial) as (-> & -> & ->).
  done.
Qed.

Lemma elem_of_joined endpoints rows row e :
  (row, e) ∈ joined endpoints rows <-> row ∈ rows /\ endpoint_by_id endpoints (m_externalEndpointId row) = Some e.
Proof.
  unfold joined. rewrite list_elem_of_omap. split.
  - intros (row' & Hin & H). apply fmap_Some in H as (e' & He & [= -> ->]). done.
  - intros [Hin He]. exists row. split; [done|]. by rewrite He.
Qed.

Lemma joined_ids_sublist endpoints rows : sublist (map (fun p => m_id (fst p)) (joined endpoints rows)) (map m_id rows).
Proof.
  induction rows as [|row rows IH]; [done|]. unfold joined. cbn [omap list_omap map].
  destruct (endpoint_by_id _ _); cbn [fmap option_fmap option_map map fst]; by constructor.
Qed.

Lemma external_rows_perm table :
  external_rows table ≡ₚ List.filter (fun m => bool_decide (m_origin m = origin_external) && m_enabled m) table.
Proof. apply merge_sort_Permutation. Qed.

Lemma elem_of_external_rows table row :
  row ∈ external_rows table <-> row ∈ table /\ m_origin row = origin_external /\ m_enabled row = true.
Proof.
  rewrite external_rows_perm. rewrite list_elem_of_In, List.filter_In, <- list_elem_of_In, andb_true_iff, bool_decide_eq_true.
  done.
Qed.

Lemma external_rows_nodup table : NoDup (map m_id table) -> NoDup (map m_id (external_rows table)).
Proof.
  intros H. rewrite external_rows_perm. eapply sublist_NoDup; [apply map_sublist, filter_sublist|done].
Qed.

Lemma joined_nodup endpoints table (p : Model * ExternalEndpoint -> bool) : NoDup (map m_id table) ->
  NoDup (map (fun x => m_id (fst x)) (List.filter p (joined endpoints (external_rows table)))).
Proof.
  intros H. eapply sublist_NoDup; [|apply external_rows_nodup, H].
  etrans; [apply map_sublist, filter_sublist|apply joined_ids_sublist].
Qed.

(** Looking an identifier up in one of the maps is looking it up in the joined rows. *)
Lemma find_joined {B} (f : Model * ExternalEndpoint -> B) (key : B -> jstr) js id y :
  (forall p, key (f p) = m_id (fst p)) -> NoDup (map (fun p => m_id (fst p)) js) ->
  find_first (fun b => jeqb (key b) id) (map f js) = Some y <-> exists p, p ∈ js /\ m_id (fst p) = id /\ y = f p.
Proof.
  intros Hk Hnd. rewrite find_key.
  - rewrite list_elem_of_fmap. split.
    + intros [(p & -> & Hp) Hid]. exists p. by rewrite <- Hk.
    + intros (p & Hp & Hid & ->). split; [eauto|]. by rewrite Hk.
  - rewrite map_map. by erewrite map_ext.
Qed.

(** A row an enabled external model has, and the enabled endpoint it joins. *)
Definition reaches (modelTable : list Model) (endpointTable : list ExternalEndpoint) (row : Model) (e : ExternalEndpoint) : Prop :=
  row ∈ modelTable /\ m_origin row = origin_external /\ m_enabled row = true /\
  endpoint_by_id (enabled_endpoints endpointTable) (m_externalEndpointId row) = Some e.

Lemma elem_of_reaches modelTable endpointTable row e :
  (row, e) ∈ joined (enabled_endpoints endpointTable) (external_rows modelTable) <-> reaches modelTable endpointTable row e.
Proof. rewrite elem_of_joined, elem_of_external_rows. unfold reaches. tauto. Qed.

Lemma find_model_rebuild modelTable endpointTable id m : NoDup (map m_id modelTable) ->
  find_model (rebuild modelTable endpointTable) id = Some m <->
  exists row e, reaches modelTable endpointTable row e /\ m_id row = id /\ status (ee_columns e) = verified /\ m = catalogModelOf row e.
Proof.
  intros Hnd. destruct (rebuild_spec modelTable endpointTable) as (Hm & _ & _).
  unfold find_model. rewrite Hm, find_joined by (by intros [] || by apply joined_nodup). split.
  - intros ([row e] & Hp & Hid & ->). apply list_elem_of_In, List.filter_In in Hp as [Hp Ha%status_eqb_eq].
    apply list_elem_of_In, elem_of_reaches in Hp. eauto 6.
  - intros (row & e & Hr & Hid & Hv & ->). exists (row, e). split_and!; [|done..].
    apply list_elem_of_In, List.filter_In. split; [by apply list_elem_of_In, elem_of_reaches|by apply status_eqb_eq].
Qed.

Lemma find_unadmitted_rebuild modelTable endpointTable id u : NoDup (map m_id modelTable) ->
  findUnadmitted (rebuild modelTable endpointTable) id = Some u <->
  exists row e, reaches modelTable endpointTable row e /\ m_id row = id /\ status (ee_columns e) <> verified /\ u = unadmittedOf row e.
Proof.
  intros Hnd. destruct (rebuild_spec modelTable endpointTable) as (_ & Hu & _).
  unfold findUnadmitted. rewrite Hu, find_joined by (by intros [] || by apply joined_nodup). split.
  - intros ([row e] & Hp & Hid & ->). apply list_elem_of_In, List.filter_In in Hp as [Hp Ha%negb_true_iff%status_eqb_neq].
    apply list_elem_of_In, elem_of_reaches in Hp. eauto 6.
  - intros (row & e & Hr & Hid & Hv & ->). exists (row, e). split_and!; [|done..].
    apply list_elem_of_In, List.filter_In. split; [by apply list_elem_of_In, elem_of_reaches|by apply negb_true_iff, status_eqb_neq].
Qed.

(** ** Properties *)

(** Fail-closed membership: after a rebuild a model is routable exactly when
    its row is an enabled external one whose endpoint is enabled and [verified],
    and it is then the projection of those two rows; a model is never both routable
    and unadmitted, and the catalogue lists exactly those two kinds, saying which. *)
Theorem rebuild_fail_closed modelTable endpointTable :
  NoDup (map m_id modelTable) ->
  let s := rebuild modelTable endpointTable in
  let reaches := reaches modelTable endpointTable in
  (forall id m, find_model s id = Some m <->
     exists row e, reaches row e /\ m_id row = id /\ status (ee_columns e) = verified /\ m = catalogModelOf row e) /\
  (forall id u, findUnadmitted s id = Some u <->
     exists row e, reaches row e /\ m_id row = id /\ status (ee_columns e) <> verified /\ u = unadmittedOf row e) /\
  (forall en, en ∈ listCatalogue s <-> exists row e, reaches row e /\ en = catalogueEntryOf row e) /\
  (forall en, en ∈ listCatalogue s ->
     (en_available en = true <-> is_Some (find_model s (en_id en))) /\
     (en_available en = true -> findUnadmitted s (en_id en) = None)).
Proof.
  intros Hnd s reaches. subst s. destruct (rebuild_spec modelTable endpointTable) as (_ & _ & Hc).
  pose proof (elem_of_reaches modelTable endpointTable) as Hin. fold reaches in Hin.
  pose proof (fun id m => find_model_rebuild modelTable endpointTable id m Hnd) as Hfm.
  pose proof (fun id u => find_unadmitted_rebuild modelTable endpointTable id u Hnd) as Hfu.
  fold reaches in Hfm, Hfu. set (s := rebuild modelTable endpointTable) in *. clearbody s.
  assert (Hcat : forall en, en ∈ listCatalogue s <-> exists row e, reaches row e /\ en = catalogueEntryOf row e).
  { intros en. unfold listCatalogue. rewrite Hc, list_elem_of_fmap. split.
    - intros ([row e] & -> & Hp%Hin). eauto.
    - intros (row & e & Hr & ->). exists (row, e). split; [done|by apply Hin]. }
  split_and!; [done..|]. intros en (row & e & Hr & ->)%Hcat. cbn [catalogueEntryOf en_available en_id].
  assert (Huniq : forall row' e', reaches row' e' -> m_id row' = m_id row -> row' = row /\ e' = e).
  { intros row' e' (Ht' & _ & _ & He') Hid. destruct Hr as (Ht & _ & _ & He).
    assert (row' = row) as -> by (by apply (nodup_map_inj m_id modelTable)). split; congruence. }
  rewrite status_eqb_eq. split; [split|].
  - intros Hv. eexists. apply Hfm. eauto 6.
  - intros [m (row' & e' & Hr' & Hid & Hv & _)%Hfm]. by destruct (Huniq _ _ Hr' Hid) as [-> ->].
  - intros Hv. destruct (findUnadmitted s (m_id row)) as [u|] eqn:E; [|done].
    apply Hfu in E as (row' & e' & Hr' & Hid & Hv' & _). by destruct (Huniq _ _ Hr' Hid) as [-> ->].
Qed.

Definition example_endpoint (status_ : ExternalEndpointStatus) : ExternalEndpoint :=
  with_patch
    {| ee_id := "e1"; ee_name := "cloud"; ee_hostname := "cloud.example"; ee_baseUrl := "https://cloud.example/v1";
       ee_listenPort := 9001; ee_apiKeyCiphertext := "sealed"; ee_enabled := true;
       ee_pinnedEvidenceDigest := Some "sha256/digest"; ee_columns := booted_columns 0 |}
    {| status := status_; lastCheckedAt := Some 1; lastStage := None; lastReason := None; measurementSeen := None;
       measurementSource := None; measurementInRegistry := None; evidenceDigestSeen := None;
       pinnedCertFingerprint := None; observedCertFingerprint := None; lastSuccessAt := None; lastFailureAt := None;
       notServingSince := None; consecutiveFailures := 0; upstreamUnreachable := None |}.

Definition example_model : Model :=
  {| m_id := "acme/large"; m_name := "Large"; m_litellmModel := "large"; m_origin := origin_external;
     m_endpointId := None; m_externalEndpointId := Some "e1"; m_contextLength := 8192; m_capabilities := [cap_chat];
     m_promptPer1mMicros := 1; m_completionPer1mMicros := 2; m_enabled := true; m_updatedAt := 0 |}.

Lemma rebuild_fail_closed_witness :
  is_Some (find_model (rebuild [example_model] [example_endpoint verified]) "acme/large") /\
  find_model (rebuild [example_model] [example_endpoint denied]) "acme/large" = None.
Proof.
  assert (Hnd : NoDup (map m_id [example_model])) by (apply NoDup_singleton).
  split.
  - exists (catalogModelOf example_model (example_endpoint verified)).
    refine (proj2 (proj1 (rebuild_fail_closed [example_model] [example_endpoint verified] Hnd) "acme/large" _) _).
    exists example_model, (example_endpoint verified). unfold reaches. split_and!; [by left|reflexivity..].
  - vm_compute. reflexivity.
Defined.
