(* ===== verification/StatusService.v ===== *)
(** * Projecting the sidecar's verdicts, and alerting on outages

    [external-endpoints/external-endpoint-status.service.ts].  One pass runs to its
    end before the next starts (the poller's latch), so a pass is a function of the
    world: the two tables it reads, the timeline it appends to, the catalogue, the
    health answer and the alert channel it drives, and its two maps, keyed by
    endpoint.  The random identifier of a timeline row and the log lines other than
    the two an outage writes are left out. *)

From stdpp Require Import fin_maps fin_map_dom.
From S2P Require Import Prelude JsString StatusProjection Liveness OperatorAlerts ExternalCatalog.

(** ** State *)

Record EndpointEvent := {
  te_endpointId : jstr;
  te_at : Z;
  te_event : ProjectedEvent
}.

Record World := {
  w_endpoints : list ExternalEndpoint;
  w_models : list Model;
  w_timeline : list EndpointEvent;
  w_catalog : ExternalCatalogService;
  w_health : ExternalEndpointHealth;
  w_alerts : OperatorAlertsService;
  w_log : list jstr;
  w_alerted : gmap jstr Z;
  w_confirmedAt : gmap jstr Z
}.

Record EndpointsConfig := {
  statusPollInterval : Z;
  reattestInterval : Z;
  outage : OutageThresholds;
  alertsConfig : AlertsConfig;
  alertTransport : Transport
}.

Record OutageAlerts := { oa_declared : Z; oa_recovered : Z }.

Record SyncReport := {
  sr_seen : Z;
  sr_flipped : Z;
  sr_events : Z;
  sr_outages : Z;
  sr_expired : Z
}.

Definition set_endpoints (w : World) (t : list ExternalEndpoint) : World :=
  {| w_endpoints := t; w_models := w_models w; w_timeline := w_timeline w; w_catalog := w_catalog w;
     w_health := w_health w; w_alerts := w_alerts w; w_log := w_log w; w_alerted := w_alerted w;
     w_confirmedAt := w_confirmedAt w |}.

Definition add_timeline (w : World) (evs : list EndpointEvent) : World :=
  {| w_endpoints := w_endpoints w; w_models := w_models w; w_timeline := w_timeline w ++ evs;
     w_catalog := w_catalog w; w_health := w_health w; w_alerts := w_alerts w; w_log := w_log w;
     w_alerted := w_alerted w; w_confirmedAt := w_confirmedAt w |}.

Definition set_catalog (w : World) (c : ExternalCatalogService) : World :=
  {| w_endpoints := w_endpoints w; w_models := w_models w; w_timeline := w_timeline w; w_catalog := c;
     w_health := w_health w; w_alerts := w_alerts w; w_log := w_log w; w_alerted := w_alerted w;
     w_confirmedAt := w_confirmedAt w |}.

Definition set_health (w : World) (h : ExternalEndpointHealth) : World :=
  {| w_endpoints := w_endpoints w; w_models := w_models w; w_timeline := w_timeline w; w_catalog := w_catalog w;
     w_health := h; w_alerts := w_alerts w; w_log := w_log w; w_alerted := w_alerted w;
     w_confirmedAt := w_confirmedAt w |}.

Definition set_alerts (w : World) (a : OperatorAlertsService) : World :=
  {| w_endpoints := w_endpoints w; w_models := w_models w; w_timeline := w_timeline w; w_catalog := w_catalog w;
     w_health := w_health w; w_alerts := a; w_log := w_log w; w_alerted := w_alerted w;
     w_confirmedAt := w_confirmedAt w |}.

Definition log_line (w : World) (line : jstr) : World :=
  {| w_endpoints := w_endpoints w; w_models := w_models w; w_timeline := w_timeline w; w_catalog := w_catalog w;
     w_health := w_health w; w_alerts := w_alerts w; w_log := w_log w ++ [line]; w_alerted := w_alerted w;
     w_confirmedAt := w_confirmedAt w |}.

Definition set_alerted (w : World) (m : gmap jstr Z) : World :=
  {| w_endpoints := w_endpoints w; w_models := w_models w; w_timeline := w_timeline w; w_catalog := w_catalog w;
     w_health := w_health w; w_alerts := w_alerts w; w_log := w_log w; w_alerted := m;
     w_confirmedAt := w_confirmedAt w |}.

Definition set_confirmedAt (w : World) (m : gmap jstr Z) : World :=
  {| w_endpoints := w_endpoints w; w_models := w_models w; w_timeline := w_timeline w; w_catalog := w_catalog w;
     w_health := w_health w; w_alerts := w_alerts w; w_log := w_log w; w_alerted := w_alerted w;
     w_confirmedAt := m |}.

(** ** Writes *)

(** [UPDATE external_endpoints SET ... WHERE id = ...]: the verdict columns. *)
Definition update_endpoint (id : jstr) (patch : ExternalEndpointStatusPatch) (table : list ExternalEndpoint)
    : list ExternalEndpoint :=
  map (fun e => if jeqb (ee_id e) id then with_patch e patch else e) table.

Definition apply_projected (w : World) (externalEndpointId : jstr) (projected : ProjectedVerdict) (now : Z) : World :=
  add_timeline (set_endpoints w (update_endpoint externalEndpointId (pv_patch projected) (w_endpoints w)))
    (map (fun ev => {| te_endpointId := externalEndpointId; te_at := now; te_event := ev |}) (pv_events projected)).

Definition recordEvent (w : World) (externalEndpointId : jstr) (kind : ExternalEndpointEventKind) (now : Z)
    (evidenceDigest reason stage : option jstr) : World :=
  add_timeline w [{| te_endpointId := externalEndpointId; te_at := now;
                     te_event := {| ev_kind := kind; ev_stage := clip stage 32; ev_reason := clip reason 255;
                                    ev_measurement := None; ev_evidenceDigest := evidenceDigest |} |}].

Definition refresh (w : World) : World := set_catalog w (rebuild (w_models w) (w_endpoints w)).

(** Every key that is not the id of a row is dropped. *)
Definition prune (rows : list ExternalEndpoint) (m : gmap jstr Z) : gmap jstr Z :=
  filter (fun kv => fst kv ∈ map ee_id rows) m.

Section Passes.
Context (cfg : EndpointsConfig).

Definition publish (w : World) (rows : list ExternalEndpoint) (verdictsReadAt : option Z) (now : Z) : World :=
  let livenesses := map (fun row => livenessOf row (outage cfg) now) rows in
  set_health w (report (w_health w) livenesses verdictsReadAt (routableEndpoints (w_catalog w))).

(** ** Alerting *)

Definition alertOn (now : Z) (w : World) (alerts : OutageAlerts) (row : ExternalEndpoint) : World * OutageAlerts :=
  let liveness := livenessOf row (outage cfg) now in
  let run := notServingSince (ee_columns row) in
  let alerted := w_alerted w !! ee_id row in
  match (if lv_outage liveness && negb (bool_decide (alerted = run)) then run else None) with
  | Some r =>
      let w := set_alerted w (<[ee_id row := r]> (w_alerted w)) in
      let w := log_line w (outageLine liveness now) in
      let w := recordEvent w (ee_id row) outage_event now (evidenceDigestSeen (ee_columns row))
                 (Some (outageReason liveness now)) (lv_stage liveness) in
      let w := set_alerts w (fst (raise (alertsConfig cfg) (alertTransport cfg) (w_alerts w)
                 (outageAlert liveness now) now false)) in
      (w, {| oa_declared := oa_declared alerts + 1; oa_recovered := oa_recovered alerts |})
  | None =>
      match alerted, run with
      | Some declaredAt, None =>
          let w := set_alerted w (delete (ee_id row) (w_alerted w)) in
          let w := log_line w (recoveryLine liveness declaredAt now) in
          let w := recordEvent w (ee_id row) recovered_event now (evidenceDigestSeen (ee_columns row))
                     (Some ("Serving again after " +++ durationSince (Some declaredAt) now +++ ".")) None in
          let w := set_alerts w (fst (raise (alertsConfig cfg) (alertTransport cfg) (w_alerts w)
                     (recoveryAlert liveness declaredAt now) now true)) in
          (w, {| oa_declared := oa_declared alerts; oa_recovered := oa_recovered alerts + 1 |})
      | _, _ => (w, alerts)
      end
  end.

Fixpoint alert_rows (now : Z) (w : World) (alerts : OutageAlerts) (rows : list ExternalEndpoint)
    : World * OutageAlerts :=
  match rows with
  | [] => (w, alerts)
  | row :: rows => let '(w, alerts) := alertOn now w alerts row in alert_rows now w alerts rows
  end.

Definition alertOnOutages (w : World) (rows : list ExternalEndpoint) (now : Z) : World * OutageAlerts :=
  let '(w, alerts) := alert_rows now w {| oa_declared := 0; oa_recovered := 0 |} rows in
  (set_alerted w (prune rows (w_alerted w)), alerts).

(** ** Expiry *)

(** The loop: the rows as the pass leaves them, and the ones it expired. *)
Fixpoint expire_rows (now : Z) (w : World) (rows : list ExternalEndpoint)
    : World * list ExternalEndpoint * list ExternalEndpoint :=
  match rows with
  | [] => (w, [], [])
  | row :: rows =>
      let clock := {| vc_confirmedAt := w_confirmedAt w !! ee_id row;
                      vc_graceMs := verdictGraceMs (statusPollInterval cfg); vc_now := now |} in
      match expireVerdict row clock with
      | None =>
          let '(w, projected, expired) := expire_rows now w rows in (w, row :: projected, expired)
      | Some lapsed =>
          let w := apply_projected w (ee_id row) lapsed now in
          let w := set_confirmedAt w (delete (ee_id row) (w_confirmedAt w)) in
          let after := with_patch row (pv_patch lapsed) in
          let '(w, projected, expired) := expire_rows now w rows in (w, after :: projected, after :: expired)
      end
  end.

Definition expireStaleVerdicts (w : World) (rows : list ExternalEndpoint) (now : Z)
    : World * list ExternalEndpoint * list ExternalEndpoint :=
  let '(w, projected, expired) := expire_rows now w rows in
  (set_confirmedAt w (prune rows (w_confirmedAt w)), projected, expired).

(** ** The passes *)

(** [new Map(verdicts.map(...))]: the last verdict of a name wins. *)
Definition byName (verdicts : list SidecarVerdict) (name : jstr) : option SidecarVerdict :=
  find_first (fun v => jeqb (vd_endpoint v) name) (reverse verdicts).

Fixpoint sync_rows (verdicts : list SidecarVerdict) (now : Z) (w : World) (rep : SyncReport)
    (rows : list ExternalEndpoint) : World * list ExternalEndpoint * SyncReport :=
  match rows with
  | [] => (w, [], rep)
  | endpoint :: rows =>
      match byName verdicts (ee_name endpoint) with
      | None =>
          let '(w, projected, rep) := sync_rows verdicts now w rep rows in (w, endpoint :: projected, rep)
      | Some verdict =>
          let w := set_confirmedAt w (<[ee_id endpoint := now]> (w_confirmedAt w)) in
          let p := projectVerdict endpoint verdict
                     {| pc_now := now; pc_attestWindowMs := verdictAttestWindowMs (reattestInterval cfg) |} in
          let w := if pv_patchChanged p || negb (bool_decide (length (pv_events p) = 0%nat))
                   then apply_projected w (ee_id endpoint) p now else w in
          let withdrawn := existsb (fun ev => bool_decide (ev_kind ev = verdict_expired)) (pv_events p) in
          let rep :=
            {| sr_seen := sr_seen rep + 1;
               sr_flipped := sr_flipped rep + (if pv_statusChanged p then 1 else 0);
               sr_events := sr_events rep + Z.of_nat (length (pv_events p));
               sr_outages := sr_outages rep;
               sr_expired := sr_expired rep + (if pv_statusChanged p && withdrawn then 1 else 0) |} in
          let '(w, projected, rep) := sync_rows verdicts now w rep rows in
          (w, with_patch endpoint (pv_patch p) :: projected, rep)
      end
  end.

Definition sync (w : World) (verdicts : list SidecarVerdict) (now : Z) : World * SyncReport :=
  let endpoints := enabled_endpoints (w_endpoints w) in
  let rep := {| sr_seen := 0; sr_flipped := 0; sr_events := 0; sr_outages := 0; sr_expired := 0 |} in
  let '(w, projectedRows, rep) := sync_rows verdicts now w rep endpoints in
  let '(w, projected, expired) := expireStaleVerdicts w projectedRows now in
  let n := Z.of_nat (length expired) in
  let w := refresh w in
  let '(w, alerts) := alertOnOutages w projected now in
  let w := publish w projected (Some now) now in
  (w, {| sr_seen := sr_seen rep; sr_flipped := sr_flipped rep;
         sr_events := sr_events rep + n + (oa_declared alerts + oa_recovered alerts);
         sr_outages := oa_declared alerts; sr_expired := sr_expired rep + n |}).

Definition refreshFromRows (w : World) (now : Z) : World :=
  let endpoints := enabled_endpoints (w_endpoints w) in
  let '(w, projected, _) := expireStaleVerdicts w endpoints now in
  let w := refresh w in
  let '(w, _) := alertOnOutages w projected now in
  publish w projected None now.

Definition resetToPending (w : World) (now : Z) : World * Z :=
  let enabled_ := enabled_endpoints (w_endpoints w) in
  let reset := booted_columns now in
  let ids := map ee_id enabled_ in
  let w := set_endpoints w
             (map (fun e => if bool_decide (ee_id e ∈ ids) then with_patch e reset else e) (w_endpoints w)) in
  let w := refresh w in
  let w := publish w (map (fun row => with_patch row reset) enabled_) None now in
  let w := set_confirmedAt (set_alerted w ∅) ∅ in
  (w, Z.of_nat (length enabled_)).

(** One poll: the pass, or the pass from the rows when the sidecar gave nothing. *)
Definition pollOnce (w : World) (fetched : option (list SidecarVerdict)) (now : Z) : World :=
  match fetched with
  | Some verdicts => fst (sync w verdicts now)
  | None => refreshFromRows w now
  end.
End Passes.

(** ** Lemmas: the table and the rows of a pass *)

Lemma with_patch_self e : with_patch e (ee_columns e) = e.
Proof. by destruct e. Qed.

Lemma enabled_update id p t : enabled_endpoints (update_endpoint id p t) = update_endpoint id p (enabled_endpoints t).
Proof.
  induction t as [|e t IH]; [done|]. cbn [update_endpoint map enabled_endpoints List.filter].
  fold (update_endpoint id p t). fold (enabled_endpoints t). fold (enabled_endpoints (update_endpoint id p t)).
  assert (Hen : ee_enabled (if jeqb (ee_id e) id then with_patch e p else e) = ee_enabled e) by (by destruct (jeqb _ _)).
  rewrite Hen, IH. by destruct (ee_enabled e).
Qed.

Lemma update_absent id p t : id ∉ map ee_id t -> update_endpoint id p t = t.
Proof.
  intros Hid. induction t as [|e t IH]; [done|]. cbn [map] in Hid. cbn [update_endpoint map].
  rewrite (proj2 (jeqb_neq _ _)) by (intros <-; apply Hid; by left). f_equal. apply IH.
  intros Hin. apply Hid. by right.
Qed.

Lemma update_split e p pre rest : NoDup (map ee_id (pre ++ e :: rest)) ->
  update_endpoint (ee_id e) p (pre ++ e :: rest) = pre ++ with_patch e p :: rest.
Proof.
  rewrite map_app. cbn [map]. intros (_ & Hpre & [He _]%NoDup_cons)%NoDup_app.
  unfold update_endpoint. rewrite map_app. cbn [map]. rewrite jeqb_refl.
  change (update_endpoint (ee_id e) p pre ++ with_patch e p :: update_endpoint (ee_id e) p rest =
          pre ++ with_patch e p :: rest).
  rewrite !update_absent; [done|done|]. intros Hin. apply (Hpre _ Hin). by left.
Qed.

(** What a projection leaves alone. *)
Lemma update_ids id p t : map ee_id (update_endpoint id p t) = map ee_id t.
Proof. unfold update_endpoint. rewrite map_map. apply map_ext. intros e. by destruct (jeqb _ _). Qed.

Lemma update_disabled id p t : id ∉ map ee_id (List.filter (fun e => negb (ee_enabled e)) t) ->
  List.filter (fun e => negb (ee_enabled e)) (update_endpoint id p t) = List.filter (fun e => negb (ee_enabled e)) t.
Proof.
  induction t as [|e t IH]; [done|]. cbn [List.filter map update_endpoint]. fold (update_endpoint id p t). intros Hid.
  destruct (ee_enabled e) eqn:E; cbn [negb] in Hid.
  - assert (Hen : ee_enabled (if jeqb (ee_id e) id then with_patch e p else e) = true) by (by destruct (jeqb _ _)).
    rewrite Hen. cbn [negb]. by apply IH.
  - cbn [map] in Hid. rewrite (proj2 (jeqb_neq _ _)) by (intros <-; apply Hid; by left).
    rewrite E. cbn [negb]. f_equal. apply IH. intros Hin. apply Hid. by right.
Qed.

(** The enabled rows of the table are [pre ++ rows]; the disabled ones are [off]. *)
Record table_is (w : World) (rows : list ExternalEndpoint) (off : list ExternalEndpoint) : Prop := {
  ti_rows : enabled_endpoints (w_endpoints w) = rows;
  ti_off : List.filter (fun e => negb (ee_enabled e)) (w_endpoints w) = off;
  ti_nodup : NoDup (map ee_id (w_endpoints w))
}.

Lemma table_is_enabled w : NoDup (map ee_id (w_endpoints w)) ->
  table_is w (enabled_endpoints (w_endpoints w)) (List.filter (fun e => negb (ee_enabled e)) (w_endpoints w)).
Proof. by split. Qed.

Lemma table_is_nodup w rows off : table_is w rows off -> NoDup (map ee_id rows).
Proof. intros [<- _ Hnd]. eapply sublist_NoDup; [apply map_sublist, filter_sublist|done]. Qed.

Lemma enabled_not_off w rows off e : table_is w rows off -> e ∈ rows -> ee_id e ∉ map ee_id off.
Proof.
  intros [<- <- Hnd] He Hin. apply list_elem_of_fmap in Hin as (e' & Heq & Hin').
  unfold enabled_endpoints in He. apply list_elem_of_In, List.filter_In in He as [He Hen].
  apply list_elem_of_In, List.filter_In in Hin' as [He' Hen'].
  assert (e = e') as -> by (apply (nodup_map_inj ee_id (w_endpoints w)); [done|by apply list_elem_of_In..|done]).
  by rewrite Hen in Hen'.
Qed.

Lemma table_is_apply w pre e rest off p now : table_is w (pre ++ e :: rest) off ->
  table_is (apply_projected w (ee_id e) p now) (pre ++ with_patch e (pv_patch p) :: rest) off.
Proof.
  intros H. pose proof (table_is_nodup _ _ _ H) as Hnd.
  pose proof (enabled_not_off _ _ _ e H ltac:(set_solver)) as Hoff. destruct H as [H1 H2 H3].
  split; cbn [w_endpoints apply_projected set_endpoints add_timeline].
  - by rewrite enabled_update, H1, update_split.
  - by rewrite update_disabled; rewrite H2.
  - by rewrite update_ids.
Qed.

Lemma table_is_ext w w' rows off : w_endpoints w' = w_endpoints w -> table_is w rows off -> table_is w' rows off.
Proof. intros He [H1 H2 H3]. split; by rewrite He. Qed.

(** ** Lemmas: the loops *)

Ltac loop_eq E H :=
  match type of H with (match ?c with _ => _ end) = _ => destruct c as [[? ?] ?] eqn:E end.

Lemma not_differs row patch : differs row patch = false -> row = patch.
Proof. unfold differs. intros H%negb_false_iff. by apply bool_decide_eq_true in H. Qed.

(** A pass of verdicts leaves the table and its own rows in step, and touches no
    model, catalogue, health answer or latch. *)
Lemma sync_rows_table cfg verdicts now rows : forall w rep pre off w' projected rep',
  table_is w (pre ++ rows) off -> sync_rows cfg verdicts now w rep rows = (w', projected, rep') ->
  table_is w' (pre ++ projected) off /\ map ee_id projected = map ee_id rows /\ w_models w' = w_models w.
Proof.
  induction rows as [|e rows IH]; intros w rep pre off w' projected rep' Hw; cbn [sync_rows].
  { intros [= <- <- <-]. done. }
  destruct (byName verdicts (ee_name e)) as [v|].
  - set (p := projectVerdict e v _). set (w1 := set_confirmedAt w _).
    set (w2 := if pv_patchChanged p || _ then _ else _). intros H.
    assert (Hw2 : table_is w2 ((pre ++ [with_patch e (pv_patch p)]) ++ rows) off /\ w_models w2 = w_models w).
    { rewrite <- app_assoc. cbn [app]. subst w2. destruct (pv_patchChanged p || _) eqn:Eo.
      - split; [|done]. apply table_is_apply. by apply (table_is_ext w).
      - apply orb_false_iff in Eo as [Eo _]. split; [|done].
        assert (Hsame : ee_columns e = pv_patch p) by (by apply not_differs).
        rewrite <- Hsame, with_patch_self. by apply (table_is_ext w). }
    destruct Hw2 as [Hw2 Hm]. loop_eq E H. injection H as <- <- <-.
    destruct (IH _ _ _ _ _ _ _ Hw2 E) as (H1 & H2 & H3). rewrite <- app_assoc in H1. cbn [app] in H1.
    split_and!; [done| |by rewrite H3, Hm]. cbn [map]. by rewrite H2.
  - intros H. loop_eq E H. injection H as <- <- <-.
    assert (Hw' : table_is w ((pre ++ [e]) ++ rows) off) by (by rewrite <- app_assoc).
    destruct (IH _ _ _ _ _ _ _ Hw' E) as (H1 & H2 & H3). rewrite <- app_assoc in H1. cbn [app] in H1.
    split_and!; [done| |done]. cbn [map]. by rewrite H2.
Qed.

Lemma expire_rows_table cfg now rows : forall w pre off w' projected expired,
  table_is w (pre ++ rows) off -> expire_rows cfg now w rows = (w', projected, expired) ->
  table_is w' (pre ++ projected) off /\ map ee_id projected = map ee_id rows /\ w_models w' = w_models w.
Proof.
  induction rows as [|e rows IH]; intros w pre off w' projected expired Hw; cbn [expire_rows].
  { intros [= <- <- <-]. done. }
  destruct (expireVerdict e _) as [lapsed|].
  - set (w1 := set_confirmedAt _ _). intros H. loop_eq E H. injection H as <- <- <-.
    assert (Hw1 : table_is w1 ((pre ++ [with_patch e (pv_patch lapsed)]) ++ rows) off).
    { rewrite <- app_assoc. apply (table_is_ext (apply_projected w (ee_id e) lapsed now)); [done|].
      by apply table_is_apply. }
    destruct (IH _ _ _ _ _ _ Hw1 E) as (H1 & H2 & H3). rewrite <- app_assoc in H1.
    split_and!; [exact H1| |exact H3]. cbn [map]. by rewrite H2.
  - intros H. loop_eq E H. injection H as <- <- <-.
    assert (Hw1 : table_is w ((pre ++ [e]) ++ rows) off) by (by rewrite <- app_assoc).
    destruct (IH _ _ _ _ _ _ Hw1 E) as (H1 & H2 & H3). rewrite <- app_assoc in H1.
    split_and!; [exact H1| |exact H3]. cbn [map]. by rewrite H2.
Qed.

(** What the expiry leaves serving has been confirmed within the grace period. *)
Lemma expire_rows_confirmed cfg now rows : forall w w' projected expired,
  NoDup (map ee_id rows) -> expire_rows cfg now w rows = (w', projected, expired) ->
  (forall id, id ∉ map ee_id rows -> w_confirmedAt w' !! id = w_confirmedAt w !! id) /\
  Forall (fun e => status (ee_columns e) = verified ->
            exists t, w_confirmedAt w' !! ee_id e = Some t /\
                      now - t < verdictGraceMs (statusPollInterval cfg)) projected.
Proof.
  induction rows as [|e rows IH]; intros w w' projected expired Hnd; cbn [expire_rows].
  { intros [= <- <- <-]. split; [done|constructor]. }
  cbn [map] in *. apply NoDup_cons in Hnd as [Hid Hnd].
  set (clock := {| vc_confirmedAt := _; vc_graceMs := _; vc_now := now |}).
  destruct (expireVerdict e clock) as [lapsed|] eqn:Ex.
  - intros H. loop_eq E H. injection H as <- <- <-. destruct (IH _ _ _ _ Hnd E) as [H1 H2]. split.
    + intros id [Hne Hin]%not_elem_of_cons. rewrite H1 by done. cbn. by rewrite lookup_delete_ne.
    + constructor; [|done]. rewrite (expireVerdict_patch _ _ _ Ex). done.
  - intros H. loop_eq E H. injection H as <- <- <-. destruct (IH _ _ _ _ Hnd E) as [H1 H2]. split.
    + intros id [Hne Hin]%not_elem_of_cons. by apply H1.
    + constructor; [|done]. intros Hv. rewrite H1 by done. unfold expireVerdict in Ex. rewrite Hv in Ex.
      cbn [status_eqb negb vc_confirmedAt clock vc_now vc_graceMs] in Ex.
      destruct (w_confirmedAt w !! ee_id e) as [t|]; [|done]. exists t. split; [done|].
      by destruct (Z.ltb_spec (now - t) (verdictGraceMs (statusPollInterval cfg))).
Qed.

(** Alerting writes the timeline, the log, the latch and the channel only. *)
Lemma alert_rows_frame cfg now rows : forall w a w' a',
  alert_rows cfg now w a rows = (w', a') ->
  w_endpoints w' = w_endpoints w /\ w_models w' = w_models w /\ w_catalog w' = w_catalog w /\
  w_health w' = w_health w /\ w_confirmedAt w' = w_confirmedAt w.
Proof.
  induction rows as [|e rows IH]; intros w a w' a'; cbn [alert_rows]; [by intros [= <- <-]|].
  destruct (alertOn cfg now w a e) as [w1 a1] eqn:E. intros H. destruct (IH _ _ _ _ H) as (-> & -> & -> & -> & ->).
  revert E. unfold alertOn. destruct (if _ && _ then _ else _); [by intros [= <- <-]|].
  destruct (w_alerted w !! ee_id e), (notServingSince (ee_columns e)); by intros [= <- <-].
Qed.

(** The confirmed rows of a pass, as its confirmation map records them. *)
Definition confirmed (cfg : EndpointsConfig) (now : Z) (confirmedAt : gmap jstr Z) (e : ExternalEndpoint) : Prop :=
  status (ee_columns e) = verified ->
  exists t, confirmedAt !! ee_id e = Some t /\ now - t < verdictGraceMs (statusPollInterval cfg).

Lemma prune_lookup rows m id : id ∈ map ee_id rows -> prune rows m !! id = m !! id.
Proof.
  intros Hid. unfold prune. destruct (m !! id) as [t|] eqn:E.
  - by apply map_lookup_filter_Some.
  - apply map_lookup_filter_None. by left.
Qed.

Lemma expireStaleVerdicts_pass cfg now rows off w w' projected expired :
  table_is w rows off -> expireStaleVerdicts cfg w rows now = (w', projected, expired) ->
  table_is w' projected off /\ map ee_id projected = map ee_id rows /\ w_models w' = w_models w /\
  Forall (confirmed cfg now (w_confirmedAt w')) projected.
Proof.
  intros Hw H. unfold expireStaleVerdicts in H.
  destruct (expire_rows _ _ _ _) as [[w0 pr] ex] eqn:E. injection H as <- <- <-.
  pose proof (table_is_nodup _ _ _ Hw) as Hnd.
  destruct (expire_rows_table _ _ _ _ [] _ _ _ _ Hw E) as (H1 & H2 & H3).
  destruct (expire_rows_confirmed _ _ _ _ _ _ _ Hnd E) as [_ H4].
  split_and!; [exact (table_is_ext w0 (set_confirmedAt w0 _) _ _ eq_refl H1)|done|done|].
  cbn [w_confirmedAt set_confirmedAt]. rewrite Forall_forall in H4 |- *. intros e He Hv. destruct (H4 e He Hv) as (t & Ht & Hg).
  exists t. split; [|done]. rewrite prune_lookup; [done|]. rewrite <- H2. by apply list_elem_of_fmap_2.
Qed.

(** What every poll, whether the sidecar answered or not, leaves behind. *)
Record pass_outcome (cfg : EndpointsConfig) (w w' : World) (now : Z) (rows : list ExternalEndpoint) : Prop := {
  po_rows : enabled_endpoints (w_endpoints w') = rows;
  po_ids : map ee_id rows = map ee_id (enabled_endpoints (w_endpoints w));
  po_off : List.filter (fun e => negb (ee_enabled e)) (w_endpoints w') =
           List.filter (fun e => negb (ee_enabled e)) (w_endpoints w);
  po_catalog : w_catalog w' = rebuild (w_models w) (w_endpoints w');
  po_confirmed : Forall (confirmed cfg now (w_confirmedAt w')) rows;
  po_health : exists h readAt, w_health w' =
    report h (map (fun row => livenessOf row (outage cfg) now) rows) readAt (routableEndpoints (w_catalog w'))
}.

Lemma finish_pass cfg now rows off w0 w w1 a readAt :
  table_is w rows off -> map ee_id rows = map ee_id (enabled_endpoints (w_endpoints w0)) ->
  off = List.filter (fun e => negb (ee_enabled e)) (w_endpoints w0) -> w_models w = w_models w0 ->
  Forall (confirmed cfg now (w_confirmedAt w)) rows ->
  alertOnOutages cfg (refresh w) rows now = (w1, a) ->
  pass_outcome cfg w0 (publish cfg w1 rows readAt now) now rows.
Proof.
  intros [H1 H2 _] Hids Hoff Hm Hc H. unfold alertOnOutages in H.
  destruct (alert_rows _ _ _ _ _) as [w2 a2] eqn:E. injection H as <- <-.
  apply alert_rows_frame in E as (E1 & E2 & E3 & E4 & E5).
  split; cbn [publish set_health set_alerted w_endpoints w_catalog w_confirmedAt w_health]; rewrite ?E1, ?E3, ?E5;
    cbn [refresh set_catalog w_endpoints w_catalog w_confirmedAt]; try done.
  - by rewrite H2.
  - by rewrite Hm.
  - eauto.
Qed.

Lemma pollOnce_outcome cfg w fetched now : NoDup (map ee_id (w_endpoints w)) ->
  exists rows, pass_outcome cfg w (pollOnce cfg w fetched now) now rows.
Proof.
  intros Hnd. pose proof (table_is_enabled w Hnd) as Hw. destruct fetched as [verdicts|]; cbn [pollOnce].
  - unfold sync. destruct (sync_rows _ _ _ _ _ _) as [[w1 rows1] rep1] eqn:E1.
    destruct (sync_rows_table _ _ _ _ _ _ [] _ _ _ _ Hw E1) as (Hw1 & Hi1 & Hm1). cbn [app] in Hw1.
    destruct (expireStaleVerdicts _ _ _ _) as [[w2 rows2] ex] eqn:E2.
    destruct (expireStaleVerdicts_pass _ _ _ _ _ _ _ _ Hw1 E2) as (Hw2 & Hi2 & Hm2 & Hc).
    destruct (alertOnOutages _ _ _ _) as [w3 a] eqn:E3. exists rows2. cbn [fst].
    eapply finish_pass; try done; congruence.
  - unfold refreshFromRows. destruct (expireStaleVerdicts _ _ _ _) as [[w2 rows2] ex] eqn:E2.
    destruct (expireStaleVerdicts_pass _ _ _ _ _ _ _ _ Hw E2) as (Hw2 & Hi2 & Hm2 & Hc).
    destruct (alertOnOutages _ _ _ _) as [w3 a] eqn:E3. exists rows2.
    by eapply finish_pass.
Qed.

(** ** Properties: what a pass leaves *)

Lemma endpoint_by_id_some endpoints id e : endpoint_by_id endpoints id = Some e -> e ∈ endpoints /\ id = Some (ee_id e).
Proof.
  unfold endpoint_by_id. destruct id as [i|]; [|done]. destruct (truthy _); [|done].
  intros [He Hi%jeqb_eq]%find_first_some. by subst.
Qed.

(** After any poll, whether the sidecar answered or not, every model the gateway will
    route to is on an enabled, [verified] row whose clock was set within the grace
    period; disabled rows are left exactly as they were. *)
Lemma poll_routes_the_clocked cfg w fetched now :
  NoDup (map ee_id (w_endpoints w)) -> NoDup (map m_id (w_models w)) ->
  let w' := pollOnce cfg w fetched now in
  (forall id m, find_model (w_catalog w') id = Some m ->
     exists e t, e ∈ w_endpoints w' /\ ee_enabled e = true /\ ee_id e = ce_id (cm_endpoint m) /\
       status (ee_columns e) = verified /\ w_confirmedAt w' !! ee_id e = Some t /\
       now - t < verdictGraceMs (statusPollInterval cfg)) /\
  List.filter (fun e => negb (ee_enabled e)) (w_endpoints w') =
    List.filter (fun e => negb (ee_enabled e)) (w_endpoints w).
Proof.
  intros Hnd Hndm. cbn zeta. destruct (pollOnce_outcome cfg w fetched now Hnd) as [rows [Hr _ Hoff Hcat Hc _]].
  generalize dependent (pollOnce cfg w fetched now). intros w' Hr Hoff Hcat Hc.
  split; [|done]. intros id m Hm. rewrite Hcat in Hm. destruct (rebuild_spec (w_models w) (w_endpoints w')) as (Hms & _).
  unfold find_model in Hm. rewrite Hms in Hm.
  apply find_joined in Hm as ([row e] & Hp & Hid & ->); [|by intros []|by apply joined_nodup].
  apply list_elem_of_In, List.filter_In in Hp as [Hp Hv%status_eqb_eq].
  apply list_elem_of_In, elem_of_joined in Hp as [_ [He _]%endpoint_by_id_some].
  rewrite Forall_forall in Hc. rewrite Hr in He. destruct (Hc e He Hv) as (t & Ht & Hg).
  rewrite <- Hr in He. apply list_elem_of_In, List.filter_In in He as [He Hen].
  exists e, t. split_and!; try done. by apply list_elem_of_In.
Qed.

(** The two readers agree: within one process the catalogue routes to exactly
    the endpoints the rows say are serving, so the health answer of a poll never
    has [routable] short of [serving] and never blames the router's own catalogue. *)
Theorem serving_equals_routable cfg w fetched now :
  NoDup (map ee_id (w_endpoints w)) ->
  let h := w_health (pollOnce cfg w fetched now) in
  es_routable (h_summary h) = es_serving (h_summary h) /\ h_behind h = false.
Proof.
  intros Hnd h. subst h. destruct (pollOnce_outcome cfg w fetched now Hnd) as [rows [Hr _ _ Hcat _ [h [readAt Hh]]]].
  rewrite Hh. cbn [report h_summary h_behind es_routable es_serving summarise routable].
  assert (Heq : routableEndpoints (w_catalog (pollOnce cfg w fetched now)) =
    count_where (fun l => status_eqb (lv_status l) verified) (map (fun row => livenessOf row (outage cfg) now) rows)).
  { rewrite Hcat. unfold routableEndpoints, rebuild. cbn [admitting]. rewrite Hr, length_map. unfold count_where. f_equal.
    clear. induction rows as [|e rows IH]; [done|]. cbn [map List.filter lv_status livenessOf].
    destruct (status_eqb _ _); cbn [length]; by rewrite IH. }
  rewrite Heq. split; [done|]. apply Z.ltb_irrefl.
Qed.

Definition example_endpoints_config : EndpointsConfig :=
  {| statusPollInterval := 5000; reattestInterval := 600000;
     outage := {| afterFailures := 3; afterNoSuccess := 900000 |};
     alertsConfig := example_config; alertTransport := fun _ => Some (fun _ => None) |}.

Definition example_world (status_ : ExternalEndpointStatus) : World :=
  {| w_endpoints := [example_endpoint status_]; w_models := [example_model]; w_timeline := [];
     w_catalog := catalog_initial; w_health := health_initial; w_alerts := alerts_initial; w_log := [];
     w_alerted := ∅; w_confirmedAt := ∅ |}.

Lemma serving_equals_routable_witness :
  let h := w_health (pollOnce example_endpoints_config (example_world pending) (Some [admitting_verdict 10000]) 10000) in
  es_serving (h_summary h) = 1 /\ es_routable (h_summary h) = es_serving (h_summary h) /\ h_behind h = false.
Proof.
  intros h. split; [vm_compute; reflexivity|].
  apply (serving_equals_routable example_endpoints_config (example_world pending)
           (Some [admitting_verdict 10000]) 10000). apply NoDup_singleton.
Defined.

(** The boot reset throws every verdict away: right after it no enabled
    endpoint is [verified] or pinned, no model is routable, nothing is latched or
    confirmed, no event was appended, and the health answer says so. *)
Theorem resetToPending_trusts_nothing cfg w now :
  let '(w', n) := resetToPending cfg w now in
  Forall (fun e => ee_columns e = booted_columns now) (enabled_endpoints (w_endpoints w')) /\
  models (w_catalog w') = [] /\ routableEndpoints (w_catalog w') = 0 /\
  w_alerted w' = ∅ /\ w_confirmedAt w' = ∅ /\ w_timeline w' = w_timeline w /\
  es_serving (h_summary (w_health w')) = 0 /\ es_registered (h_summary (w_health w')) = n.
Proof.
  unfold resetToPending. cbn [set_confirmedAt set_alerted publish set_health refresh set_catalog set_endpoints
    w_endpoints w_catalog w_alerted w_confirmedAt w_timeline w_health w_models].
  set (ids := map ee_id (enabled_endpoints (w_endpoints w))).
  set (t := map _ (w_endpoints w)).
  assert (Hall : Forall (fun e => ee_columns e = booted_columns now) (enabled_endpoints t)).
  { apply Forall_forall. intros e He. apply list_elem_of_In, List.filter_In in He as [He Hen].
    apply in_map_iff in He as (e0 & <- & He0). destruct (bool_decide (ee_id e0 ∈ ids)) eqn:Eb; [done|].
    apply bool_decide_eq_false in Eb. destruct Eb. apply list_elem_of_fmap_2, list_elem_of_In, List.filter_In. done. }
  assert (Hnone : forall e, e ∈ enabled_endpoints t -> status_eqb (status (ee_columns e)) verified = false).
  { intros e He. rewrite Forall_forall in Hall. by rewrite (Hall e He). }
  assert (Hadm : List.filter (fun e => status_eqb (status (ee_columns e)) verified) (enabled_endpoints t) = []).
  { clear -Hnone. induction (enabled_endpoints t) as [|e l IH]; [done|]. cbn [List.filter].
    rewrite Hnone by (by left). apply IH. intros e' He'. apply Hnone. by right. }
  split_and!; try done.
  - destruct (rebuild_spec (w_models w) t) as [-> _].
    assert (Hj : forall p, p ∈ joined (enabled_endpoints t) (external_rows (w_models w)) -> is_admitted p = false).
    { intros [row e] [_ [He _]%endpoint_by_id_some]%elem_of_joined. by apply Hnone. }
    clear -Hj. induction (joined _ _) as [|p l IH]; [done|]. cbn [List.filter].
    rewrite Hj by (by left). apply IH. intros p' Hp'. apply Hj. by right.
  - unfold routableEndpoints, rebuild. cbn [admitting]. by rewrite Hadm.
  - cbn. unfold count_where. rewrite map_map. clear. by induction (enabled_endpoints _) as [|e l IH].
  - cbn. by rewrite !length_map.
Qed.

(** ** A run is declared once *)

(** Timeline rows of one kind for one endpoint. *)
Definition count_events_of (k : ExternalEndpointEventKind) (id : jstr) (tl : list EndpointEvent) : nat :=
  length (List.filter (fun ev => jeqb (te_endpointId ev) id && bool_decide (ev_kind (te_event ev) = k)) tl).

Lemma count_events_app k id l1 l2 :
  count_events_of k id (l1 ++ l2) = (count_events_of k id l1 + count_events_of k id l2)%nat.
Proof. unfold count_events_of. by rewrite List.filter_app, length_app. Qed.

Lemma count_one k id id' at_ ev :
  count_events_of k id [{| te_endpointId := id'; te_at := at_; te_event := ev |}] =
  if jeqb id' id && bool_decide (ev_kind ev = k) then 1%nat else 0%nat.
Proof. unfold count_events_of. cbn. by destruct (_ && _). Qed.

(** The alerting passes of a process, each over the rows it found. *)
Fixpoint alert_passes (cfg : EndpointsConfig) (w : World) (passes : list (list ExternalEndpoint * Z)) : World :=
  match passes with
  | [] => w
  | (rows, now) :: passes => alert_passes cfg (fst (alertOnOutages cfg w rows now)) passes
  end.

Definition declared (id : jstr) (w : World) : nat := count_events_of outage_event id (w_timeline w).
Definition recovered (id : jstr) (w : World) : nat := count_events_of recovered_event id (w_timeline w).

(** What alerting on one row does to an endpoint's latch and to its two counts. *)
Definition alert_effect (cfg : EndpointsConfig) (now : Z) (row : ExternalEndpoint) (latch : option Z)
    : option Z * nat * nat :=
  let run := notServingSince (ee_columns row) in
  match run with
  | Some r => if isOutage row (outage cfg) now && negb (bool_decide (latch = Some r))
              then (Some r, 1%nat, 0%nat) else (latch, 0%nat, 0%nat)
  | None => match latch with Some _ => (None, 0%nat, 1%nat) | None => (None, 0%nat, 0%nat) end
  end.

Lemma alertOn_effect cfg now w a row :
  let w' := fst (alertOn cfg now w a row) in
  let '(latch', d, r) := alert_effect cfg now row (w_alerted w !! ee_id row) in
  w_alerted w' !! ee_id row = latch' /\
  declared (ee_id row) w' = (declared (ee_id row) w + d)%nat /\
  recovered (ee_id row) w' = (recovered (ee_id row) w + r)%nat.
Proof.
  unfold alertOn, alert_effect. cbn [lv_outage livenessOf]. unfold declared, recovered.
  destruct (notServingSince (ee_columns row)) as [run|] eqn:Er.
  - destruct (isOutage row (outage cfg) now); cbn [andb].
    + destruct (bool_decide _) eqn:Eb; cbn [negb fst].
      * destruct (w_alerted w !! ee_id row) eqn:El; cbn [fst]; by rewrite El, !Nat.add_0_r.
      * cbn [fst w_alerted w_timeline set_alerts recordEvent add_timeline set_alerted log_line].
        by rewrite !count_events_app, !count_one, lookup_insert_eq, jeqb_refl.
    + destruct (w_alerted w !! ee_id row) eqn:El; cbn [fst]; by rewrite El, !Nat.add_0_r.
  - assert (Ho : isOutage row (outage cfg) now = false) by (unfold isOutage; by rewrite Er).
    rewrite Ho. cbn [andb]. destruct (w_alerted w !! ee_id row) as [d|] eqn:El; cbn [fst].
    + cbn [fst w_alerted w_timeline set_alerts recordEvent add_timeline set_alerted log_line].
      by rewrite !count_events_app, !count_one, lookup_delete_eq, jeqb_refl.
    + by rewrite El, !Nat.add_0_r.
Qed.

Lemma alertOn_other cfg now w a row id : id <> ee_id row ->
  let w' := fst (alertOn cfg now w a row) in
  w_alerted w' !! id = w_alerted w !! id /\ declared id w' = declared id w /\ recovered id w' = recovered id w.
Proof.
  intros Hne. unfold alertOn, declared, recovered.
  destruct (if _ && _ then _ else _) as [r|].
  - cbn [fst w_alerted w_timeline set_alerts recordEvent add_timeline set_alerted log_line].
    rewrite !count_events_app, !count_one, lookup_insert_ne, (proj2 (jeqb_neq _ _)) by done. cbn [andb].
    by rewrite !Nat.add_0_r.
  - destruct (w_alerted w !! ee_id row), (notServingSince (ee_columns row)); cbn [fst]; try done.
    cbn [fst w_alerted w_timeline set_alerts recordEvent add_timeline set_alerted log_line].
    rewrite !count_events_app, !count_one, lookup_delete_ne, (proj2 (jeqb_neq _ _)) by done. cbn [andb].
    by rewrite !Nat.add_0_r.
Qed.

(** A whole pass acts on one endpoint as its one row says, and on an endpoint that
    is not among the rows by forgetting it. *)
Lemma alert_rows_other cfg now rows id : forall w a, id ∉ map ee_id rows ->
  let w' := fst (alert_rows cfg now w a rows) in
  w_alerted w' !! id = w_alerted w !! id /\ declared id w' = declared id w /\ recovered id w' = recovered id w.
Proof.
  induction rows as [|row rows IH]; intros w a Hid; [done|]. cbn [map] in Hid.
  apply not_elem_of_cons in Hid as [Hne Hid]. cbn [alert_rows].
  pose proof (alertOn_other cfg now w a row id Hne) as (H1 & H2 & H3).
  destruct (alertOn cfg now w a row) as [w1 a1]. cbn [fst] in *.
  destruct (IH w1 a1 Hid) as (-> & -> & ->). done.
Qed.

Lemma alert_rows_self cfg now rows row : forall w a, NoDup (map ee_id rows) -> row ∈ rows ->
  let w' := fst (alert_rows cfg now w a rows) in
  let '(latch', d, r) := alert_effect cfg now row (w_alerted w !! ee_id row) in
  w_alerted w' !! ee_id row = latch' /\
  declared (ee_id row) w' = (declared (ee_id row) w + d)%nat /\
  recovered (ee_id row) w' = (recovered (ee_id row) w + r)%nat.
Proof.
  induction rows as [|row0 rows IH]; intros w a Hnd Hin; [by apply elem_of_nil in Hin|].
  cbn [map] in Hnd. apply NoDup_cons in Hnd as [Hid Hnd]. cbn [alert_rows].
  apply elem_of_cons in Hin as [<-|Hin].
  - pose proof (alertOn_effect cfg now w a row) as H. cbv zeta in *.
    destruct (alertOn cfg now w a row) as [w1 a1]. cbn [fst] in *.
    destruct (alert_effect _ _ _ _) as [[latch' d] r].
    by destruct (alert_rows_other cfg now rows (ee_id row) w1 a1 Hid) as (-> & -> & ->).
  - assert (Hne : ee_id row <> ee_id row0) by (intros Heq; apply Hid; rewrite <- Heq; by apply list_elem_of_fmap_2).
    pose proof (alertOn_other cfg now w a row0 _ Hne) as (H1 & H2 & H3).
    destruct (alertOn cfg now w a row0) as [w1 a1]. cbn [fst] in *. cbv zeta in *.
    specialize (IH w1 a1 Hnd Hin). by rewrite H1, H2, H3 in IH.
Qed.

Lemma alert_pass_self cfg now rows row w : NoDup (map ee_id rows) -> row ∈ rows ->
  let w' := fst (alertOnOutages cfg w rows now) in
  let '(latch', d, r) := alert_effect cfg now row (w_alerted w !! ee_id row) in
  w_alerted w' !! ee_id row = latch' /\
  declared (ee_id row) w' = (declared (ee_id row) w + d)%nat /\
  recovered (ee_id row) w' = (recovered (ee_id row) w + r)%nat.
Proof.
  intros Hnd Hin. cbv zeta. unfold alertOnOutages.
  pose proof (alert_rows_self cfg now rows row w {| oa_declared := 0; oa_recovered := 0 |} Hnd Hin) as H.
  cbv zeta in H. destruct (alert_rows _ _ _ _ _) as [w1 a1]. destruct (alert_effect _ _ _ _) as [[latch' d] r].
  cbn [fst] in *. destruct H as (H1 & H2 & H3).
  split_and!; [|exact H2|exact H3]. cbn [set_alerted w_alerted]. rewrite prune_lookup; [done|].
  by apply list_elem_of_fmap_2.
Qed.

Lemma alert_pass_other cfg now rows id w : id ∉ map ee_id rows ->
  let w' := fst (alertOnOutages cfg w rows now) in
  w_alerted w' !! id = None /\ declared id w' = declared id w /\ recovered id w' = recovered id w.
Proof.
  intros Hid. cbv zeta. unfold alertOnOutages.
  pose proof (alert_rows_other cfg now rows id w {| oa_declared := 0; oa_recovered := 0 |} Hid) as H.
  cbv zeta in H. destruct (alert_rows _ _ _ _ _) as [w1 a1]. cbn [fst] in *. destruct H as (_ & H2 & H3).
  split_and!; [|exact H2|exact H3]. cbn [set_alerted w_alerted]. unfold prune. apply map_lookup_filter_None. by right.
Qed.

(** A pass that finds one row for [id], in the run that started at [run]. *)
Definition in_run (id : jstr) (run : Z) (pn : list ExternalEndpoint * Z) : Prop :=
  NoDup (map ee_id (fst pn)) /\
  exists row, row ∈ fst pn /\ ee_id row = id /\ notServingSince (ee_columns row) = Some run.

(** A pass that finds [id] past a threshold. *)
Definition past_threshold (cfg : EndpointsConfig) (id : jstr) (pn : list ExternalEndpoint * Z) : bool :=
  existsb (fun row => jeqb (ee_id row) id && isOutage row (outage cfg) (snd pn)) (fst pn).

Lemma past_threshold_row cfg rows now row : NoDup (map ee_id rows) -> row ∈ rows ->
  past_threshold cfg (ee_id row) (rows, now) = isOutage row (outage cfg) now.
Proof.
  intros Hnd Hin. unfold past_threshold. cbn [fst snd]. apply eq_true_iff_eq. rewrite existsb_exists. split.
  - intros (r & Hr & [Hid%jeqb_eq Ho]%andb_true_iff). apply list_elem_of_In in Hr.
    by rewrite <- (nodup_map_inj ee_id rows r row Hnd Hr Hin Hid).
  - intros Ho. exists row. split; [by apply list_elem_of_In|]. by rewrite jeqb_refl, Ho.
Qed.

(** A pass over an endpoint in a run: it declares the run or leaves it alone. *)
Lemma run_pass cfg w id run rows now : in_run id run (rows, now) ->
  let w' := fst (alertOnOutages cfg w rows now) in
  let new := past_threshold cfg id (rows, now) && negb (bool_decide (w_alerted w !! id = Some run)) in
  w_alerted w' !! id = (if new then Some run else w_alerted w !! id) /\
  declared id w' = (declared id w + if new then 1 else 0)%nat /\ recovered id w' = recovered id w.
Proof.
  intros (Hnd & row & Hin & <- & Hrun). cbv zeta. cbn [fst] in *.
  pose proof (alert_pass_self cfg now rows row w Hnd Hin) as H. cbv zeta in H.
  rewrite (past_threshold_row cfg rows now row Hnd Hin). unfold alert_effect in H. rewrite Hrun in H.
  destruct (_ && _); rewrite ?Nat.add_0_r in *; exact H.
Qed.

Lemma run_latched cfg passes id run : Forall (in_run id run) passes -> forall w, w_alerted w !! id = Some run ->
  let w' := alert_passes cfg w passes in
  w_alerted w' !! id = Some run /\ declared id w' = declared id w /\ recovered id w' = recovered id w.
Proof.
  induction 1 as [|[rows now] passes Hp _ IH]; intros w Hl; [done|]. cbn [alert_passes].
  pose proof (run_pass cfg w id run rows now Hp) as H. cbv zeta in H.
  rewrite Hl, bool_decide_eq_true_2, andb_false_r, Nat.add_0_r in H by done. destruct H as (H1 & H2 & H3).
  specialize (IH _ H1). cbv zeta in *. by rewrite H2, H3 in IH.
Qed.

(** Exactly once per run: however many passes find an endpoint in one run of
    not serving (the same start, other columns free to change), one [outage] event
    is appended in all if any of them is past a threshold, and none otherwise, and
    no recovery; a declared run stays latched. *)
Theorem outage_declared_once cfg w passes id run :
  Forall (in_run id run) passes -> w_alerted w !! id <> Some run ->
  let past := existsb (past_threshold cfg id) passes in
  let w' := alert_passes cfg w passes in
  declared id w' = (declared id w + if past then 1 else 0)%nat /\ recovered id w' = recovered id w /\
  (past = true -> w_alerted w' !! id = Some run).
Proof.
  intros Hall. revert w. induction Hall as [|[rows now] passes Hp Hall IH]; intros w Hl; cbv zeta.
  { cbn. by rewrite Nat.add_0_r. }
  cbn [alert_passes existsb]. pose proof (run_pass cfg w id run rows now Hp) as H. cbv zeta in H.
  rewrite bool_decide_eq_false_2, andb_true_r in H by done. destruct H as (H1 & H2 & H3).
  destruct (past_threshold cfg id (rows, now)); cbn [orb].
  - destruct (run_latched cfg passes id run Hall _ H1) as (E1 & E2 & E3). by rewrite E2, E3, H2, H3.
  - assert (Hl1 : w_alerted (fst (alertOnOutages cfg w rows now)) !! id <> Some run) by (by rewrite H1).
    specialize (IH _ Hl1). cbv zeta in IH. by rewrite H2, H3, Nat.add_0_r in IH.
Qed.

Definition dark_row (failures : Z) : ExternalEndpoint :=
  with_patch (booted_endpoint 0)
    {| status := denied; lastCheckedAt := Some 5; lastStage := Some "fetch"; lastReason := Some "fetch: EOF";
       measurementSeen := None; measurementSource := None; measurementInRegistry := None; evidenceDigestSeen := None;
       pinnedCertFingerprint := None; observedCertFingerprint := None; lastSuccessAt := None; lastFailureAt := Some 5;
       notServingSince := Some 0; consecutiveFailures := failures; upstreamUnreachable := Some true |}.

Lemma outage_declared_once_witness :
  let passes := [([dark_row 1], 10); ([dark_row 3], 20); ([dark_row 4], 30)] in
  let w' := alert_passes example_endpoints_config (example_world denied) passes in
  declared "e1" w' = 1%nat /\ w_alerted w' !! ("e1" : jstr) = Some 0.
Proof.
  destruct (outage_declared_once example_endpoints_config (example_world denied)
    [([dark_row 1], 10); ([dark_row 3], 20); ([dark_row 4], 30)] "e1" 0) as (H1 & _ & H3).
  - repeat (apply Forall_cons_2; [split; [apply NoDup_singleton|eexists; split; [by left|split; reflexivity]]|]).
    apply Forall_nil_2.
  - discriminate.
  - split; [exact H1|apply H3; reflexivity].
Defined.

(** One while a run is latched. *)
Definition latched (id : jstr) (w : World) : nat :=
  match w_alerted w !! id with Some _ => 1%nat | None => 0%nat end.

(** A recovery answers a declaration: from an unlatched start, whatever rows
    the passes find, an endpoint's [recovered] events never outnumber its [outage]
    ones, and while a run is latched there is one more declaration than recovery
    still to be answered at least. *)
Theorem recoveries_answer_outages cfg w passes id :
  Forall (fun pn => NoDup (map ee_id (fst pn))) passes ->
  w_alerted w !! id = None -> declared id w = 0%nat -> recovered id w = 0%nat ->
  let w' := alert_passes cfg w passes in
  (recovered id w' + latched id w' <= declared id w')%nat.
Proof.
  intros Hall Hl Hd Hr.
  unfold latched. assert (Hinv : (recovered id w + latched id w <= declared id w)%nat)
    by (unfold latched; rewrite Hl; lia).
  unfold latched in Hinv. clear Hl Hd Hr. revert w Hinv. induction Hall as [|[rows now] passes Hnd _ IH]; intros w Hinv; [done|].
  cbn [alert_passes]. apply IH. cbn [fst] in Hnd. destruct (decide (id ∈ map ee_id rows)) as [Hin|Hin].
  - apply list_elem_of_fmap in Hin as (row & -> & Hin).
    pose proof (alert_pass_self cfg now rows row w Hnd Hin) as H. cbv zeta in H. unfold alert_effect in H.
    destruct (notServingSince (ee_columns row)).
    + destruct (_ && _); destruct H as (-> & -> & ->); destruct (w_alerted w !! ee_id row); lia.
    + destruct (w_alerted w !! ee_id row); destruct H as (-> & -> & ->); lia.
  - pose proof (alert_pass_other cfg now rows id w Hin) as (-> & -> & ->).
    destruct (w_alerted w !! id); lia.
Qed.

Lemma recoveries_answer_outages_witness :
  let passes := [([dark_row 3], 20); ([with_patch (dark_row 0) serving_columns], 30)] in
  let w' := alert_passes example_endpoints_config (example_world denied) passes in
  recovered "e1" w' = 1%nat /\ declared "e1" w' = 1%nat /\
  (recovered "e1" w' + latched "e1" w' <= declared "e1" w')%nat.
Proof.
  split; [vm_compute; reflexivity|]. split; [vm_compute; reflexivity|].
  refine (recoveries_answer_outages example_endpoints_config (example_world denied)
    [([dark_row 3], 20); ([with_patch (dark_row 0) serving_columns], 30)] "e1" _ eq_refl eq_refl eq_refl).
  repeat (apply Forall_cons_2; [apply NoDup_singleton|]). apply Forall_nil_2.
Defined.
