(* ===== verification/OpenAiError.v ===== *)
(** * The error table of [/v1] and the upstream's failures

    [api/v1/openai-error.ts], [api/v1/openai-exception.filter.ts],
    [api/v1/upstream-failure.ts] and the retry rule of
    [api/v1/upstream-fetch.ts].  [fetch], JSON and the timers are the platform's: an
    attempt is what came of it, an argument. *)

From S2P Require Import Prelude JsString Json Money.

(** ** Errors *)

Inductive OpenAiErrorType :=
| invalid_request_error | authentication_error | insufficient_credits_type | permission_error | rate_limit_error
| upstream_error | gatekeeper_error | server_error.

#[global] Instance error_type_eq_dec : EqDecision OpenAiErrorType.
Proof. solve_decision. Defined.

Definition error_type_text (t : OpenAiErrorType) : jstr :=
  match t with
  | invalid_request_error => "invalid_request_error"
  | authentication_error => "authentication_error"
  | insufficient_credits_type => "insufficient_credits"
  | permission_error => "permission_error"
  | rate_limit_error => "rate_limit_error"
  | upstream_error => "upstream_error"
  | gatekeeper_error => "gatekeeper_error"
  | server_error => "server_error"
  end.

Record OpenAiApiError := {
  oe_status : Z;
  oe_type : OpenAiErrorType;
  oe_code : jstr;
  oe_message : jstr;
  oe_param : option jstr;
  oe_headers : list (jstr * jstr)
}.

Definition nonempty (s : option jstr) : option jstr :=
  match s with Some s => if jlength s =? 0 then None else Some s | None => None end.

Definition toBody (e : OpenAiApiError) : json :=
  JObject [("error" : jstr,
    JObject ([("message" : jstr, JString (oe_message e)); ("type" : jstr, JString (error_type_text (oe_type e)));
              ("code" : jstr, JString (oe_code e))]
             ++ match nonempty (oe_param e) with Some p => [("param" : jstr, JString p)] | None => [] end))].

Definition api_error (status : Z) (type : OpenAiErrorType) (code message : jstr) : OpenAiApiError :=
  {| oe_status := status; oe_type := type; oe_code := code; oe_message := message; oe_param := None; oe_headers := [] |}.

Definition with_param (param : option jstr) (e : OpenAiApiError) : OpenAiApiError :=
  {| oe_status := oe_status e; oe_type := oe_type e; oe_code := oe_code e; oe_message := oe_message e;
     oe_param := param; oe_headers := oe_headers e |}.

Definition with_headers (headers : list (jstr * jstr)) (e : OpenAiApiError) : OpenAiApiError :=
  {| oe_status := oe_status e; oe_type := oe_type e; oe_code := oe_code e; oe_message := oe_message e;
     oe_param := oe_param e; oe_headers := headers |}.

Definition quote (s : jstr) : jstr := dquote +++ s +++ dquote.

Definition invalidJson : OpenAiApiError :=
  api_error 400 invalid_request_error "invalid_json" "Request body is not valid JSON.".

Definition missingField (param : jstr) : OpenAiApiError :=
  with_param (Some param)
    (api_error 400 invalid_request_error "missing_field" ("Missing required field " +++ quote param +++ ".")).

Definition unsupportedParameter (param message : jstr) : OpenAiApiError :=
  with_param (Some param) (api_error 400 invalid_request_error "unsupported_parameter" message).

Definition contextLengthExceeded (message : jstr) : OpenAiApiError :=
  with_param (Some ("messages" : jstr)) (api_error 400 invalid_request_error "context_length_exceeded" message).

Record RejectedRequest := {
  rj_who : jstr;
  rj_status : Z;
  rj_upstreamStatus : Z;
  rj_detail : jstr;
  rj_param : option jstr
}.

Definition upstreamRejectedRequest (u : RejectedRequest) : OpenAiApiError :=
  with_param (nonempty (rj_param u))
    (api_error (rj_status u) invalid_request_error "upstream_invalid_request"
       (if jlength (rj_detail u) =? 0
        then rj_who u +++ " rejected this request as invalid (" +++ jstring_of_Z (rj_upstreamStatus u) +++
             ") and gave no reason. Retrying it unchanged will fail the same way."
        else rj_who u +++ " rejected this request as invalid (" +++ jstring_of_Z (rj_upstreamStatus u) +++ "): " +++ rj_detail u)).

Definition ellipsis : jstr := Js [8230%N].

Definition invalidApiKey : OpenAiApiError :=
  api_error 401 authentication_error "invalid_api_key"
    ("Incorrect API key provided. Send it as " +++ quote ("Authorization: Bearer sk-tee-v1-" +++ ellipsis) +++ ".").

Definition apiKeyRevoked : OpenAiApiError :=
  api_error 401 authentication_error "api_key_revoked" "This API key has been revoked.".

Definition apiKeyExpired : OpenAiApiError :=
  api_error 401 authentication_error "api_key_expired" "This API key has expired.".

Definition insufficientCredits : OpenAiApiError :=
  api_error 402 insufficient_credits_type "insufficient_credits"
    "The workspace has no credit left. Top up to keep routing requests.".

Definition keySpendLimitReached : OpenAiApiError :=
  api_error 402 insufficient_credits_type "key_spend_limit_reached" "This API key has reached its spend limit.".

Definition modelNotInKeyScope (model : jstr) : OpenAiApiError :=
  with_param (Some ("model" : jstr))
    (api_error 403 permission_error "model_not_in_key_scope" ("This API key is not scoped to model " +++ quote model +++ ".")).

Definition modelNotFound (model : jstr) : OpenAiApiError :=
  with_param (Some ("model" : jstr))
    (api_error 404 invalid_request_error "model_not_found"
       ("The model " +++ quote model +++ " does not exist or is not available to this key.")).

Definition notFound : OpenAiApiError := api_error 404 invalid_request_error "not_found" "Unknown endpoint.".

(** A byte count over 2^20 is exact as a double, so [toFixed(1)] rounds the exact
    quotient, the larger of two nearest tenths. *)
Definition mebibytes (bytes : Z) : jstr :=
  (if bytes mod 1048576 =? 0 then jstring_of_Z (bytes / 1048576)
   else let tenths := (bytes * 10 + 524288) / 1048576 in
        jstring_of_Z (tenths / 10) +++ "." +++ jstring_of_Z (tenths mod 10)) +++ " MiB".

Definition requestTooLarge (limitBytes : option Z) : OpenAiApiError :=
  api_error 413 invalid_request_error "request_too_large"
    (match limitBytes with
     | Some limit =>
         if limit =? 0 then "Request body is larger than this router accepts."
         else "Request body is larger than the " +++ mebibytes limit +++ " this router accepts."
     | None => "Request body is larger than this router accepts."
     end).

Definition rateLimited (message : jstr) (headers : list (jstr * jstr)) : OpenAiApiError :=
  with_headers headers (api_error 429 rate_limit_error "rate_limit_exceeded" message).

Definition backendUnavailable (message : jstr) : OpenAiApiError :=
  api_error 502 upstream_error "backend_unavailable" message.

Definition backendError (message : jstr) : OpenAiApiError := api_error 502 upstream_error "backend_error" message.

Definition upstreamTimeout (message : jstr) : OpenAiApiError :=
  api_error 504 upstream_error "upstream_timeout" message.

Definition no_store : list (jstr * jstr) := [("Cache-Control" : jstr, "no-store" : jstr)].

Definition attestationFailed (message : jstr) : OpenAiApiError :=
  with_headers no_store (api_error 503 gatekeeper_error "attestation_failed" message).

Definition attestationRevoked (message : jstr) : OpenAiApiError :=
  with_headers no_store (api_error 503 gatekeeper_error "attestation_revoked" message).

Definition internal : OpenAiApiError :=
  api_error 500 server_error "internal" "The router failed to handle this request.".

(** ** What a client is answered with

    [openai-exception.filter.ts].  What can be thrown under [/v1]: an error of this
    table, the framework's [HttpException], or anything else. *)

Inductive exception :=
| Thrown (e : OpenAiApiError)
| Http (status : Z) (message : jstr)
| Other.

Definition asOpenAiError (e : exception) : OpenAiApiError :=
  match e with Thrown e => e | _ => internal end.

Definition toOpenAiError (e : exception) : OpenAiApiError :=
  match e with
  | Thrown e => e
  | Http status message =>
      if status =? 404 then notFound
      else if status <? 500 then api_error status invalid_request_error "invalid_request" message
      else asOpenAiError e
  | Other => asOpenAiError e
  end.

(** [OpenAiExceptionFilter.catch]: nothing when the headers are out already,
    otherwise the headers, the status and the body. *)
Definition filter_catch (headersSent : bool) (e : exception) : option (list (jstr * jstr) * Z * json) :=
  if headersSent then None
  else let error := toOpenAiError e in Some (oe_headers error, oe_status error, toBody error).

(** What the body parser refused with. *)
Record ParserRefusal := {
  pr_syntaxError : bool;
  pr_hasBody : bool;
  pr_status : option Z;
  pr_type : option jstr;
  pr_limit : option Z
}.

Definition bodyParserErrorOf (r : ParserRefusal) : option OpenAiApiError :=
  if pr_syntaxError r && pr_hasBody r && match pr_status r with Some s => s =? 400 | None => false end
  then Some invalidJson
  else if match pr_type r with Some t => jeqb t "entity.too.large" | None => false end
  then Some (requestTooLarge (pr_limit r))
  else None.

(** [jsonErrorMiddleware]: the answer, or the error handed on. *)
Definition jsonErrorMiddleware (path : jstr) (r : ParserRefusal) : option (Z * json) :=
  e ← (if jstartsWith path "/v1" then bodyParserErrorOf r else None);
  Some (oe_status e, toBody e).

(** ** An upstream's error body *)

Record UpstreamErrorBody := {
  ub_text : jstr;
  ub_structured : bool;
  ub_param : option jstr;
  ub_type : option jstr;
  ub_length : Z;
  ub_parsed : option json
}.

Definition MAX_BODY_CHARS : Z := 1000.

(** [new Set([408, 409, 425])] and [new Set([401, 402, 403, 407])] *)
Definition RETRIED_BY_SDKS (status : Z) : bool := (status =? 408) || (status =? 409) || (status =? 425).
Definition OUR_CREDENTIAL (status : Z) : bool :=
  (status =? 401) || (status =? 402) || (status =? 403) || (status =? 407).

(** [/context[ _-]?length|maximum context|too many tokens/i] *)
Definition CONTEXT_LENGTH (text : jstr) : bool :=
  existsb (jincludes (Js (map lower_unit (units text))))
    ["contextlength"; "context length"; "context_length"; "context-length"; "maximum context"; "too many tokens"].

Definition nonempty_json (v : option json) : option jstr :=
  match v with Some (JString s) => nonempty (Some s) | _ => None end.

(** [raw] is [None] when reading the body failed. *)
Definition readUpstreamError {J : JsonEngine} (raw : option jstr) : UpstreamErrorBody :=
  match raw with
  | None => {| ub_text := Js []; ub_structured := false; ub_param := None; ub_type := None; ub_length := 0; ub_parsed := None |}
  | Some raw =>
      let text := jtake MAX_BODY_CHARS raw in
      match json_parse text with
      | None => {| ub_text := text; ub_structured := false; ub_param := None; ub_type := None;
                   ub_length := jlength raw; ub_parsed := None |}
      | Some body =>
          let field name := coalesce (chain (chain (Some body) "error") name) (chain (Some body) name) in
          let message := nonempty_json (field "message") in
          {| ub_text := default text message; ub_structured := match message with Some _ => true | None => false end;
             ub_param := nonempty_json (field "param"); ub_type := nonempty_json (field "type");
             ub_length := jlength raw; ub_parsed := Some body |}
      end
  end.

(** [/^[\w.[\]-]{1,120}$/] *)
Definition LOGGABLE_LABEL (s : jstr) : bool :=
  (1 <=? jlength s) && (jlength s <=? 120) &&
  forallb (fun c => is_upper c || is_lower c || is_digit c || existsb (N.eqb c) (units "_.[]-")) (units s).

Definition label (value : option jstr) : bool := match value with Some s => LOGGABLE_LABEL s | None => false end.

Definition describeUpstreamError (body : UpstreamErrorBody) : jstr :=
  if ub_length body =? 0 then "no body"
  else
    let part (name : jstr) (v : option jstr) :=
      match v with Some s => if LOGGABLE_LABEL s then [name +++ "=" +++ s] else [] | None => [] end in
    jjoin ", " (part "type" (ub_type body) ++ part "param" (ub_param body)
                ++ [jstring_of_Z (ub_length body) +++ " chars"]
                ++ (if ub_structured body then [] else ["unstructured" : jstr]))
    +++ " (not logged)".

Inductive UpstreamName := The_model_backend | The_external_model_endpoint.

Definition upstream_name (w : UpstreamName) : jstr :=
  match w with The_model_backend => "The model backend" | The_external_model_endpoint => "The external model endpoint" end.

(** [retryAfter] is the upstream's own header. *)
Definition upstreamFailureOf (w : UpstreamName) (status : Z) (retryAfter : option jstr) (body : UpstreamErrorBody)
    : OpenAiApiError :=
  let who := upstream_name w in
  if status =? 429 then
    rateLimited (who +++ " is at capacity.") [("Retry-After" : jstr, default ("1" : jstr) retryAfter)]
  else if CONTEXT_LENGTH (ub_text body) then contextLengthExceeded (ub_text body)
  else if (500 <=? status) || (status =? 404) then backendUnavailable (who +++ " answered " +++ jstring_of_Z status +++ ".")
  else if OUR_CREDENTIAL status then
    backendError (who +++ " refused the credential the router sent (" +++ jstring_of_Z status +++ ").")
  else if status <? 400 then
    backendError (who +++ " answered " +++ jstring_of_Z status +++ ", which is not a response the router can relay.")
  else
    upstreamRejectedRequest
      {| rj_who := who; rj_status := if RETRIED_BY_SDKS status then 400 else status; rj_upstreamStatus := status;
         rj_detail := if ub_structured body then ub_text body else Js []; rj_param := ub_param body |}.

(** The sidecar's fail-closed denial: its stage and reason. *)
Definition gatekeeperDenialOf (status : Z) (parsed : option json) : option (jstr * jstr) :=
  if negb (status =? 503) then None
  else
    match chain (chain parsed "error") "type" with
    | Some (JString t) =>
        if jeqb t "gatekeeper_error"
        then Some (default ("policy" : jstr) (nonempty_json (chain parsed "stage")),
                   default ("no valid verdict" : jstr) (nonempty_json (chain parsed "reason")))
        else None
    | _ => None
    end.

(** ** The one POST *)

Definition MAX_ATTEMPTS : Z := 2.

(** What a [fetch] threw: its name, message and the code of its cause. *)
Record FetchError := { fe_name : jstr; fe_message : jstr; fe_code : option jstr }.

Definition CONNECTION_ERROR_CODES : list jstr :=
  ["ECONNREFUSED"; "ECONNRESET"; "EHOSTUNREACH"; "ENETUNREACH"; "ENOTFOUND"; "EAI_AGAIN"; "UND_ERR_CONNECT_TIMEOUT";
   "UND_ERR_SOCKET"].

Definition isConnectionError (e : FetchError) : bool :=
  jeqb (fe_name e) "AbortError" ||
  match fe_code e with Some code => existsb (jeqb code) CONNECTION_ERROR_CODES | None => false end.

Inductive TransportError :=
| RawFetchError (e : FetchError)                (* thrown as it came *)
| UpstreamTimeoutError (timeoutMs : Z)
| UpstreamUnavailableError (message : jstr).

(** One attempt: an answer, or a failure and which signals had fired by then. *)
Inductive Attempt (R : Type) :=
| Answered (r : R)
| Threw (callerAborted expired : bool) (e : FetchError).
Arguments Answered {R} r.
Arguments Threw {R} callerAborted expired e.

(** The loop from attempt [n] on: what it returns or throws, and the attempts made. *)
Fixpoint attempt_from {R} (timeoutMs : Z) (fuel : nat) (n : Z) (attempts : Z -> Attempt R)
    : result TransportError R * Z :=
  match fuel with
  | O => (Err (UpstreamUnavailableError (Js [])), n)
  | S fuel =>
      match attempts n with
      | Answered r => (Ok r, n)
      | Threw true _ e => (Err (RawFetchError e), n)
      | Threw false true _ => (Err (UpstreamTimeoutError timeoutMs), n)
      | Threw false false e =>
          if negb (isConnectionError e) || (n =? MAX_ATTEMPTS) then (Err (UpstreamUnavailableError (fe_message e)), n)
          else attempt_from timeoutMs fuel (n + 1) attempts
      end
  end.

(** Two turns of the loop are all it makes. *)
Definition postToUpstream {R} (timeoutMs : Z) (attempts : Z -> Attempt R) : result TransportError R * Z :=
  attempt_from timeoutMs 2 1 attempts.

(** ** Theorems *)

(** Statuses an OpenAI-compatible client sends again by itself. *)
Definition sdk_retries (status : Z) : bool := RETRIED_BY_SDKS status || (status =? 429) || (500 <=? status).

(** A 4xx the upstream raised about the request itself. *)
Definition about_the_request (status : Z) : bool :=
  (400 <=? status) && (status <? 500) && negb (status =? 404) && negb (status =? 429) && negb (OUR_CREDENTIAL status).

(** Whose fault an upstream's failure is: a refusal about the request itself reaches the
    caller as a client error no SDK sends again, with the upstream's own words only
    when it put them in an error field; anything else the upstream answers, save a
    rate limit or a context-length message, is the router's 502, whatever the
    caller's request; and a body that names no error field reaches the caller in no
    word, however the status is answered. *)
Theorem upstream_failure_blames_the_right_party w status retryAfter body :
  let e := upstreamFailureOf w status retryAfter body in
  (about_the_request status = true ->
     oe_type e = invalid_request_error /\ 400 <= oe_status e < 500 /\ sdk_retries (oe_status e) = false) /\
  (about_the_request status = false -> status <> 429 -> CONTEXT_LENGTH (ub_text body) = false ->
     oe_status e = 502 /\ oe_type e = upstream_error) /\
  (ub_structured body = false -> CONTEXT_LENGTH (ub_text body) = false -> forall text', CONTEXT_LENGTH text' = false ->
     upstreamFailureOf w status retryAfter
       {| ub_text := text'; ub_structured := false; ub_param := ub_param body; ub_type := ub_type body;
          ub_length := ub_length body; ub_parsed := ub_parsed body |} = e).
Proof.
  cbv zeta. unfold upstreamFailureOf, about_the_request. split_and!.
  - intros H. zbool. destruct (Z.eqb_spec status 429); [done|].
    destruct (CONTEXT_LENGTH (ub_text body)); [by repeat split|].
    rewrite (proj2 (Z.leb_gt _ _)), (proj2 (Z.eqb_neq status 404)) by done. cbn [orb].
    rewrite H0, (proj2 (Z.ltb_ge status 400)) by done. cbn [oe_type oe_status upstreamRejectedRequest with_param api_error rj_status].
    split; [done|]. unfold sdk_retries. destruct (RETRIED_BY_SDKS status) eqn:E; [done|]. rewrite E. cbn [orb].
    split; [done|]. rewrite (proj2 (Z.eqb_neq _ _)), (proj2 (Z.leb_gt _ _)) by done. done.
  - intros H H429 Hc. rewrite (proj2 (Z.eqb_neq _ _) H429), Hc.
    destruct (500 <=? status) eqn:E5; [done|]. destruct (status =? 404) eqn:E4; [done|]. cbn [orb].
    destruct (OUR_CREDENTIAL status) eqn:Eo; [done|]. destruct (status <? 400) eqn:E1; [done|]. zbool.
    rewrite (proj2 (Z.leb_le 400 status)), (proj2 (Z.ltb_lt status 500)) in H by done. cbn in H.
    by rewrite (proj2 (Z.eqb_neq _ _) H429) in H.
  - intros Hs Hc text' Hc'. cbn [ub_text ub_structured ub_param]. by rewrite Hs, Hc, Hc'.
Qed.

(** The failure that lets a second attempt be made: one whose code is of a connection that
    failed.  Two of those codes ([ECONNRESET] and [UND_ERR_SOCKET]) can also name a
    connection lost after the request was written. *)
Definition connection_failed {R} (a : Attempt R) : Prop :=
  exists e, a = Threw false false e /\ isConnectionError e = true.

Ltac settle_post :=
  cbv beta iota zeta; repeat match goal with E : ?f ?n = _ |- context [?f ?n] => rewrite !E end; split_and!; try lia; intros; split; intros; repeat match goal with
  | H : exists _, _ |- _ => destruct H
  | H : _ /\ _ |- _ => destruct H
  end; simplify_eq; eauto; try congruence.

(** A request is sent at most twice, and a second time exactly when the first attempt ended
    in a connection error that was neither the caller's abort nor the router's own
    deadline.  An answer is the first attempt's or the second's; an expired deadline is
    always reported as a timeout and never retried; an abort of the caller's is passed
    on as it came. *)
Theorem post_retries_connection_errors {R} timeoutMs (attempts : Z -> Attempt R) :
  let '(answer, made) := postToUpstream timeoutMs attempts in
  1 <= made <= MAX_ATTEMPTS /\
  (made = 2 <-> connection_failed (attempts 1)) /\
  (forall r, answer = Ok r <-> attempts made = Answered r) /\
  (forall t, answer = Err (UpstreamTimeoutError t) <-> t = timeoutMs /\ exists e, attempts made = Threw false true e) /\
  (forall e, answer = Err (RawFetchError e) <-> exists x, attempts made = Threw true x e).
Proof.
  unfold postToUpstream, connection_failed. cbn [attempt_from]. change (1 + 1) with 2.
  change (1 =? MAX_ATTEMPTS) with false. change (2 =? MAX_ATTEMPTS) with true. unfold MAX_ATTEMPTS.
  assert (exists a1 a2, attempts 1 = a1 /\ attempts 2 = a2) as (a1 & a2 & E1 & E2) by eauto. rewrite E1, E2.
  destruct a1 as [r1|[] x1 e1]; [settle_post..|].
  destruct x1; [settle_post|]. rewrite orb_false_r.
  destruct (isConnectionError e1) eqn:Ee; cbn [negb]; [|settle_post].
  destruct a2 as [r2|[] [] e2]; rewrite ?orb_true_r; settle_post.
Qed.

(** ** Examples *)

#[local] Instance no_json : JsonEngine := {| json_parse := fun _ => None; json_stringify := fun _ => "" |}.

Example html_page_is_withheld :
  oe_message (upstreamFailureOf The_model_backend 422 None (readUpstreamError (Some "<html>secret prompt</html>"))) =
  "The model backend rejected this request as invalid (422) and gave no reason. Retrying it unchanged will fail the same way.".
Proof. vm_compute. reflexivity. Qed.

Example conflict_is_not_forwarded :
  oe_status (upstreamFailureOf The_model_backend 409 None (readUpstreamError None)) = 400.
Proof. vm_compute. reflexivity. Qed.
