(* ===== verification/ConfigCatalog.v ===== *)
(** * The catalogue of configured models

    [catalog/catalog.service.ts], [catalog/served-capabilities.ts] and the rows of
    [db/entities/endpoint.entity.ts] and [model.entity.ts]: the projection of the
    configuration into the two tables, one transaction, and the maps the gateway
    reads.  A [Map] is the list of its entries in insertion order. *)

From S2P Require Import Prelude JsString Json EvidenceDigest StatusProjection ExternalCatalog.

(** ** Capabilities *)

Inductive ServedCapability := served_chat | served_completions | served_embeddings | served_tools | served_streaming.

#[global] Instance served_eq_dec : EqDecision ServedCapability.
Proof. solve_decision. Defined.

#[global] Instance capability_eq_dec : EqDecision ModelCapability.
Proof. solve_decision. Defined.

Definition includes_capability (c : ModelCapability) (declared : list ModelCapability) : bool :=
  existsb (fun d => bool_decide (d = c)) declared.

Definition servedCapabilities (declared : list ModelCapability) : list ServedCapability :=
  let chat := includes_capability cap_chat declared in
  let generates := chat || includes_capability cap_completions declared in
  (if chat then [served_chat] else []) ++ (if generates then [served_completions] else []) ++
  (if includes_capability cap_embeddings declared then [served_embeddings] else []) ++
  (if chat then [served_tools] else []) ++ (if generates then [served_streaming] else []).

Definition as_served (c : ModelCapability) : ServedCapability :=
  match c with cap_chat => served_chat | cap_completions => served_completions | cap_embeddings => served_embeddings end.

Definition servesRoute (declared : list ModelCapability) (route : ModelCapability) : bool :=
  existsb (fun s => bool_decide (s = as_served route)) (servedCapabilities declared).

Definition bridgesCompletions (declared : list ModelCapability) : bool :=
  includes_capability cap_chat declared && negb (includes_capability cap_completions declared).

(** ** The configuration and the rows *)

Record DeclaredImage := { di_name : jstr; di_digest : jstr }.

Record EndpointConfig := {
  ec_name : jstr;
  ec_hostname : jstr;
  ec_evidenceUrl : option jstr;
  ec_declaredImages : option (list DeclaredImage);
  ec_enabled : bool
}.

Record ModelConfig := {
  mc_id : jstr;
  mc_name : jstr;
  mc_litellmModel : jstr;
  mc_endpoint : jstr;
  mc_contextLength : Z;
  mc_capabilities : list ModelCapability;
  mc_promptPer1mMicros : Z;
  mc_completionPer1mMicros : Z;
  mc_enabled : bool
}.

(** A row of [endpoints]. *)
Record Endpoint := {
  ep_id : jstr;
  ep_name : jstr;
  ep_hostname : jstr;
  ep_evidenceUrl : option jstr;
  ep_declaredImages : option (list DeclaredImage);
  ep_enabled : bool;
  ep_updatedAt : Z
}.

Record CatalogEndpoint := {
  cne_id : jstr;
  cne_name : jstr;
  cne_hostname : jstr;
  cne_declaredImages : option (list DeclaredImage)
}.

Record CatalogModel := {
  cnm_id : jstr;
  cnm_name : jstr;
  cnm_litellmModel : jstr;
  cnm_contextLength : Z;
  cnm_capabilities : list ModelCapability;
  cnm_promptPer1mMicros : Z;
  cnm_completionPer1mMicros : Z;
  cnm_endpoint : CatalogEndpoint;
  cnm_updatedAt : Z
}.

Record CatalogService := {
  cs_models : list (jstr * CatalogModel);
  cs_endpoints : list (jstr * CatalogEndpoint)
}.

Definition catalog_service_initial : CatalogService := {| cs_models := []; cs_endpoints := [] |}.

Inductive catalog_error := UnknownEndpointError (modelId endpointName : jstr) | CatalogUniqueViolation.

(** ** Reading *)

Definition in_scope (scope : option (list jstr)) (id : jstr) : bool :=
  match scope with Some ids => existsb (jeqb id) ids | None => true end.

Definition list_config (s : CatalogService) (scope : option (list jstr)) : list CatalogModel :=
  List.filter (fun m => in_scope scope (cnm_id m)) (map snd (cs_models s)).

Definition map_get {A} (key : jstr) (m : list (jstr * A)) : option A := snd <$> find_first (fun kv => jeqb (fst kv) key) m.

Definition find_config (s : CatalogService) (id : jstr) : option CatalogModel := map_get id (cs_models s).

Definition endpointById (s : CatalogService) (id : jstr) : option CatalogEndpoint :=
  find_first (fun e => jeqb (cne_id e) id) (map snd (cs_endpoints s)).

(** ** The projection *)

(** [manager.save] of an endpoint: an update by primary key, or an insert; [name] and
    [hostname] are unique. *)
Definition save_endpoint (row : Endpoint) (table : list Endpoint) : result catalog_error (list Endpoint) :=
  throw CatalogUniqueViolation
    when existsb (fun r => negb (jeqb (ep_id r) (ep_id row)) &&
                           (jeqb (ep_name r) (ep_name row) || jeqb (ep_hostname r) (ep_hostname row))) table;
  Ok (if existsb (fun r => jeqb (ep_id r) (ep_id row)) table
      then map (fun r => if jeqb (ep_id r) (ep_id row) then row else r) table
      else table ++ [row]).

(** [manager.save] of a model, by its id. *)
Definition save_model (row : Model) (table : list Model) : list Model :=
  if existsb (fun r => jeqb (m_id r) (m_id row)) table
  then map (fun r => if jeqb (m_id r) (m_id row) then row else r) table
  else table ++ [row].

Definition endpoint_row (e : EndpointConfig) (id : jstr) (now : Z) : Endpoint :=
  {| ep_id := id; ep_name := ec_name e; ep_hostname := ec_hostname e; ep_evidenceUrl := ec_evidenceUrl e;
     ep_declaredImages := ec_declaredImages e; ep_enabled := true; ep_updatedAt := now |}.

Definition catalog_endpoint (e : EndpointConfig) (id : jstr) : CatalogEndpoint :=
  {| cne_id := id; cne_name := ec_name e; cne_hostname := ec_hostname e; cne_declaredImages := ec_declaredImages e |}.

Definition config_row (m : ModelConfig) (endpointId : jstr) (now : Z) : Model :=
  {| m_id := mc_id m; m_name := mc_name m; m_litellmModel := mc_litellmModel m; m_origin := origin_config;
     m_endpointId := Some endpointId; m_externalEndpointId := None; m_contextLength := mc_contextLength m;
     m_capabilities := mc_capabilities m; m_promptPer1mMicros := mc_promptPer1mMicros m;
     m_completionPer1mMicros := mc_completionPer1mMicros m; m_enabled := true; m_updatedAt := now |}.

Definition catalog_model (m : ModelConfig) (endpoint : CatalogEndpoint) (now : Z) : CatalogModel :=
  {| cnm_id := mc_id m; cnm_name := mc_name m; cnm_litellmModel := mc_litellmModel m;
     cnm_contextLength := mc_contextLength m; cnm_capabilities := mc_capabilities m;
     cnm_promptPer1mMicros := mc_promptPer1mMicros m; cnm_completionPer1mMicros := mc_completionPer1mMicros m;
     cnm_endpoint := endpoint; cnm_updatedAt := now |}.

(** [uuid] gives the identifier minted for an endpoint seen for the first time. *)
Fixpoint save_endpoints (idByName : jstr -> option jstr) (uuid : jstr -> jstr) (now : Z) (configs : list EndpointConfig)
    (table : list Endpoint) (endpoints : list (jstr * CatalogEndpoint))
    : result catalog_error (list Endpoint * list (jstr * CatalogEndpoint)) :=
  match configs with
  | [] => Ok (table, endpoints)
  | e :: configs =>
      let id := default (uuid (ec_name e)) (idByName (ec_name e)) in
      table ← save_endpoint (endpoint_row e id now) table;
      save_endpoints idByName uuid now configs table (set_member (ec_name e) (catalog_endpoint e id) endpoints)
  end.

Fixpoint save_models (endpoints : list (jstr * CatalogEndpoint)) (now : Z) (configs : list ModelConfig)
    (table : list Model) (models : list (jstr * CatalogModel))
    : result catalog_error (list Model * list (jstr * CatalogModel)) :=
  match configs with
  | [] => Ok (table, models)
  | m :: configs =>
      match map_get (mc_endpoint m) endpoints with
      | None => Err (UnknownEndpointError (mc_id m) (mc_endpoint m))
      | Some endpoint =>
          save_models endpoints now configs (save_model (config_row m (cne_id endpoint) now) table)
            (set_member (mc_id m) (catalog_model m endpoint now) models)
      end
  end.

Definition disabled_row (r : Model) (now : Z) : Model :=
  {| m_id := m_id r; m_name := m_name r; m_litellmModel := m_litellmModel r; m_origin := m_origin r;
     m_endpointId := m_endpointId r; m_externalEndpointId := m_externalEndpointId r;
     m_contextLength := m_contextLength r; m_capabilities := m_capabilities r;
     m_promptPer1mMicros := m_promptPer1mMicros r; m_completionPer1mMicros := m_completionPer1mMicros r;
     m_enabled := false; m_updatedAt := now |}.

(** [UPDATE models SET enabled = false WHERE origin = 'config' AND id NOT IN (…) AND enabled] *)
Definition retireModels (keptIds : list jstr) (now : Z) (table : list Model) : list Model :=
  map (fun r => if bool_decide (m_origin r = origin_config) && negb (existsb (jeqb (m_id r)) keptIds) && m_enabled r
                then disabled_row r now else r) table.

Definition retireEndpoints (keptIds : list jstr) (now : Z) (table : list Endpoint) : list Endpoint :=
  map (fun r => if negb (existsb (jeqb (ep_id r)) keptIds) && ep_enabled r
                then {| ep_id := ep_id r; ep_name := ep_name r; ep_hostname := ep_hostname r;
                        ep_evidenceUrl := ep_evidenceUrl r; ep_declaredImages := ep_declaredImages r;
                        ep_enabled := false; ep_updatedAt := now |} else r) table.

(** The first enabled model that names no enabled endpoint. *)
Definition unknown_endpoint (endpoints : list EndpointConfig) (models : list ModelConfig) : option ModelConfig :=
  find_first (fun m => negb (existsb (fun e => jeqb (ec_name e) (mc_endpoint m)) endpoints)) models.

(** A failure rolls the transaction back and leaves the service as it was. *)
Definition project (endpointConfigs : list EndpointConfig) (modelConfigs : list ModelConfig) (uuid : jstr -> jstr) (now : Z)
    (endpointTable : list Endpoint) (modelTable : list Model)
    : result catalog_error (list Endpoint * list Model * CatalogService) :=
  let enabledEndpoints := List.filter ec_enabled endpointConfigs in
  let enabledModels := List.filter mc_enabled modelConfigs in
  match unknown_endpoint enabledEndpoints enabledModels with
  | Some m => Err (UnknownEndpointError (mc_id m) (mc_endpoint m))
  | None =>
      let idByName name := ep_id <$> find_first (fun r => jeqb (ep_name r) name) endpointTable in
      '(endpointRows, endpoints) ← save_endpoints idByName uuid now enabledEndpoints endpointTable [];
      '(modelRows, models) ← save_models endpoints now enabledModels modelTable [];
      Ok (retireEndpoints (map (fun e => cne_id (snd e)) endpoints) now endpointRows,
          retireModels (map fst models) now modelRows,
          {| cs_models := models; cs_endpoints := endpoints |})
  end.

(** ** Lemmas: the two capability lists *)

Lemma includes_spec c l : includes_capability c l = true <-> c ∈ l.
Proof.
  unfold includes_capability. rewrite existsb_exists. split.
  - intros (d & Hd & He). apply bool_decide_eq_true in He as ->. by apply list_elem_of_In.
  - intros H. exists c. split; [by apply list_elem_of_In|by apply bool_decide_eq_true].
Qed.

(** The gate and the catalogue cannot disagree: a route is served exactly when the list
    [GET /v1/models] reports for the model holds it, which for the chat and the
    embeddings routes is when the model declares it and for the legacy route when it
    declares that or chat; and a legacy request is translated exactly when it is
    served by a model that did not declare it. *)
Theorem served_routes declared :
  (forall route, servesRoute declared route = true <-> as_served route ∈ servedCapabilities declared) /\
  (servesRoute declared cap_chat = true <-> cap_chat ∈ declared) /\
  (servesRoute declared cap_embeddings = true <-> cap_embeddings ∈ declared) /\
  (servesRoute declared cap_completions = true <-> cap_chat ∈ declared \/ cap_completions ∈ declared) /\
  (bridgesCompletions declared = true <->
     servesRoute declared cap_completions = true /\ cap_completions ∉ declared) /\
  NoDup (servedCapabilities declared).
Proof.
  assert (forall route, servesRoute declared route = true <-> as_served route ∈ servedCapabilities declared) as H.
  { intros route. unfold servesRoute. rewrite existsb_exists. split.
    - intros (s & Hs & He). apply bool_decide_eq_true in He as <-. by apply list_elem_of_In.
    - intros Hs. exists (as_served route). split; [by apply list_elem_of_In|by apply bool_decide_eq_true]. }
  split; [exact H|]. rewrite !H. unfold servedCapabilities, bridgesCompletions. rewrite <- !includes_spec.
  destruct (includes_capability cap_chat declared), (includes_capability cap_completions declared),
    (includes_capability cap_embeddings declared); cbn [orb andb negb app as_served];
    split_and!; try (by apply (bool_decide_unpack _)); rewrite ?elem_of_cons, ?elem_of_nil; intuition congruence.
Qed.

(** ** Lemmas: the tables *)

Lemma elem_of_save_model r row table :
  r ∈ save_model row table <-> r = row \/ r ∈ table /\ m_id r <> m_id row.
Proof.
  unfold save_model. destruct (existsb _ table) eqn:E.
  - apply existsb_exists in E as (q & Hq & Hid). apply list_elem_of_In in Hq. apply jeqb_eq in Hid.
    rewrite list_elem_of_fmap. split.
    + intros (x & -> & Hx). destruct (jeqb (m_id x) (m_id row)) eqn:Ex; [by left|right]. split; [done|by apply jeqb_neq].
    + intros [->|[Hr Hne]]; [exists q; by rewrite Hid, jeqb_refl|].
      exists r. apply jeqb_neq in Hne. by rewrite Hne.
  - rewrite elem_of_app, list_elem_of_singleton. split.
    + intros [Hr| ->]; [|by left]. right. split; [done|]. intros Hid. apply not_true_iff_false in E. apply E.
      apply existsb_exists. exists r. split; [by apply list_elem_of_In|by apply jeqb_eq].
    + intros [->|[Hr _]]; auto.
Qed.

(** Where a declared model's row and entry come from. *)
Definition joined_with (endpoints : list (jstr * CatalogEndpoint)) (m : ModelConfig) (e : CatalogEndpoint) : Prop :=
  map_get (mc_endpoint m) endpoints = Some e.

Lemma save_models_spec endpoints now configs : forall table models table' models',
  NoDup (map mc_id configs) -> (forall id, id ∈ map mc_id configs -> id ∉ map fst models) ->
  save_models endpoints now configs table models = Ok (table', models') ->
  (forall r, r ∈ table' <->
     (exists m e, m ∈ configs /\ joined_with endpoints m e /\ r = config_row m (cne_id e) now) \/
     (r ∈ table /\ m_id r ∉ map mc_id configs)) /\
  exists joined, Forall2 (fun m kv => fst kv = mc_id m /\ exists e, joined_with endpoints m e /\
                                     snd kv = catalog_model m e now) configs joined /\ models' = models ++ joined.
Proof.
  induction configs as [|m configs IH]; intros table models table' models' Hnd Hfresh; cbn [save_models].
  - intros [= <- <-]. split; [set_solver|]. exists []. by rewrite app_nil_r.
  - destruct (map_get (mc_endpoint m) endpoints) as [e|] eqn:Ee; [|done]. cbn in Hnd.
    apply NoDup_cons in Hnd as [Hm Hnd]. intros H.
    assert (mc_id m ∉ map fst models) as Hmf by (apply Hfresh; constructor).
    rewrite (set_member_fresh (mc_id m)) in H by done. apply IH in H; [|done|].
    2:{ intros id Hid. rewrite map_app. cbn. intros [Hin|Hin%list_elem_of_singleton]%elem_of_app.
        - by eapply Hfresh; [by constructor|]. - congruence. }
    destruct H as [Hrows (joined & Hj & ->)]. split.
    + intros r. rewrite Hrows, elem_of_save_model. cbn [map]. rewrite not_elem_of_cons. split.
      * intros [(m' & e' & Hin & Hjo & ->)|[[->|[Hr Hne]] Hid]]; [left|left|right].
        -- exists m', e'. split_and!; [by constructor|done|done].
        -- exists m, e. split_and!; [by constructor|done|done].
        -- cbn in Hne. auto.
      * intros [(m' & e' & [->|Hin]%elem_of_cons & Hjo & ->)|[Hr [Hne Hid]]]; [right|left|right].
        -- unfold joined_with in Hjo. replace e' with e by congruence. split; [by left|done].
        -- by exists m', e'.
        -- split; [by right|done].
    + exists ((mc_id m, catalog_model m e now) :: joined). split; [|by rewrite <- app_assoc].
      constructor; [|done]. split; [done|]. by exists e.
Qed.

Lemma save_endpoints_from idByName uuid now configs : forall table endpoints table' endpoints',
  save_endpoints idByName uuid now configs table endpoints = Ok (table', endpoints') ->
  forall k e, map_get k endpoints' = Some e ->
  map_get k endpoints = Some e \/
  exists c, c ∈ configs /\ ec_name c = k /\ exists id, e = catalog_endpoint c id.
Proof.
  induction configs as [|c configs IH]; intros table endpoints table' endpoints'; cbn [save_endpoints].
  - intros [= _ <-] k e He. by left.
  - intros (table1 & _ & H)%bind_ok k e He. destruct (IH _ _ _ _ H k e He) as [Hg|(c' & Hc & Hn & Hid)].
    + set (ce := catalog_endpoint c _) in Hg. destruct (decide (k = ec_name c)) as [->|Hne].
      * right. exists c. split; [by constructor|]. split; [done|].
        exists (default (uuid (ec_name c)) (idByName (ec_name c))). fold ce.
        clear -Hg. revert Hg. unfold map_get. induction endpoints as [|[j w] m IH]; cbn; [rewrite jeqb_refl; cbn; congruence|].
        destruct (jeqb j (ec_name c)) eqn:E; cbn; rewrite E; cbn; [congruence|exact IH].
      * left. clear -Hg Hne. revert Hg. unfold map_get. induction endpoints as [|[j w] m IH]; cbn.
        -- by rewrite (proj2 (jeqb_neq _ _)) by congruence.
        -- destruct (jeqb j (ec_name c)) eqn:E; cbn; destruct (jeqb j k) eqn:E'; try done;
             first [exact IH | apply jeqb_eq in E, E'; congruence].
    + right. exists c'. split; [by constructor|done].
Qed.

Lemma forall2_fst configs (joined : list (jstr * CatalogModel)) (P : ModelConfig -> jstr * CatalogModel -> Prop) :
  Forall2 (fun m kv => fst kv = mc_id m /\ P m kv) configs joined -> map fst joined = map mc_id configs.
Proof. induction 1 as [|m kv ms kvs [H _] _ IH]; cbn; [done|]. by rewrite H, IH. Qed.

Lemma filter_in_scope (l : list CatalogModel) : List.filter (fun m => in_scope None (cnm_id m)) l = l.
Proof. induction l as [|x l IH]; cbn; [done|]. f_equal. exact IH. Qed.

(** ** Theorems *)

Definition declared_rows (modelConfigs : list ModelConfig) : list ModelConfig := List.filter mc_enabled modelConfigs.

(** What a boot leaves behind: the service lists exactly the enabled models of the
    configuration, in its order, each joined with the enabled endpoint it names; the
    table holds one row for each of them, with the declared values and enabled; a
    row of the configuration's that is no longer declared is disabled and otherwise
    kept; and the rows an administrator registered at runtime are as they were. *)
Theorem project_derives_the_catalogue endpointConfigs modelConfigs uuid now endpointTable modelTable
    endpointTable' modelTable' service :
  NoDup (map mc_id (declared_rows modelConfigs)) ->
  project endpointConfigs modelConfigs uuid now endpointTable modelTable = Ok (endpointTable', modelTable', service) ->
  Forall2 (fun m c => exists e id, e ∈ endpointConfigs /\ ec_enabled e = true /\ ec_name e = mc_endpoint m /\
                        c = catalog_model m (catalog_endpoint e id) now /\ config_row m id now ∈ modelTable')
    (declared_rows modelConfigs) (list_config service None) /\
  (forall r, r ∈ modelTable' ->
     (exists m id, m ∈ declared_rows modelConfigs /\ r = config_row m id now) \/
     m_id r ∉ map mc_id (declared_rows modelConfigs) /\
       (m_origin r = origin_external /\ r ∈ modelTable \/
        m_origin r = origin_config /\ m_enabled r = false /\ exists r0, r0 ∈ modelTable /\ (r = r0 \/ r = disabled_row r0 now))) /\
  (forall r, r ∈ modelTable -> m_origin r = origin_external -> m_id r ∉ map mc_id (declared_rows modelConfigs) ->
     r ∈ modelTable').
Proof.
  intros Hnd. unfold project. fold (declared_rows modelConfigs). destruct (unknown_endpoint _ _); [done|].
  intros ([rows endpoints] & He & H)%bind_ok. apply bind_ok in H as ([rows' models] & Hm & [= <- <- <-]).
  apply save_models_spec in Hm as [Hrows (joined & Hj & ->)]; [|done|set_solver]. cbn [app] in *.
  pose proof (forall2_fst _ _ _ Hj) as Hkeys.
  assert (forall r, r ∈ retireModels (map fst joined) now rows' <->
            exists r0, r0 ∈ rows' /\ r = if bool_decide (m_origin r0 = origin_config) && negb (existsb (jeqb (m_id r0)) (map mc_id (declared_rows modelConfigs))) && m_enabled r0 then disabled_row r0 now else r0) as Hret.
  { intros r. unfold retireModels. rewrite Hkeys, list_elem_of_fmap. naive_solver. }
  assert (forall id, existsb (jeqb id) (map mc_id (declared_rows modelConfigs)) = true <-> id ∈ map mc_id (declared_rows modelConfigs)) as Hin.
  { intros id. rewrite existsb_exists. split.
    - intros (x & Hx & ->%jeqb_eq). by apply list_elem_of_In.
    - intros Hx. exists id. split; [by apply list_elem_of_In|apply jeqb_refl]. }
  split_and!.
  - unfold list_config. cbn [cs_models].
    rewrite (filter_in_scope (map snd joined)). assert (forall m e, joined_with endpoints m e -> exists c id,
      c ∈ endpointConfigs /\ ec_enabled c = true /\ ec_name c = mc_endpoint m /\ e = catalog_endpoint c id) as Hfrom.
    { intros m e Hme. destruct (save_endpoints_from _ _ _ _ _ _ _ _ He _ _ Hme) as [Hn|(c & Hc & Hn & id & ->)]; [done|].
      apply list_elem_of_In, List.filter_In in Hc as [Hc Hen]. exists c, id. split; [by apply list_elem_of_In|done]. }
    assert (forall m e, m ∈ declared_rows modelConfigs -> joined_with endpoints m e ->
              config_row m (cne_id e) now ∈ retireModels (map fst joined) now rows') as Hkept.
    { intros m e Hm Hme. apply Hret. exists (config_row m (cne_id e) now). split; [apply Hrows; left; by exists m, e|].
      cbn [m_id config_row]. rewrite (proj2 (Hin (mc_id m))) by (by apply list_elem_of_fmap_2). by rewrite andb_false_r. }
    revert Hj Hkept. generalize (retireModels (map fst joined) now rows') as final. intros final Hj. clear -Hj Hfrom.
    induction Hj as [|m kv ms kvs (_ & e & Hme & Hkv) _ IH]; intros Hkept; cbn [map]; [constructor|]. constructor.
    + destruct (Hfrom m e Hme) as (c & id & Hc & Hen & Hn & ->). exists c, id. rewrite Hkv.
      split_and!; [done..|]. apply (Hkept m (catalog_endpoint c id)); [by constructor|done].
    + apply IH. intros m' e' Hm'. apply Hkept. by constructor.
  - intros r (r0 & Hr0 & ->)%Hret. apply Hrows in Hr0 as [(m & e & Hm & _ & ->)|[Hr0 Hid]].
    + left. exists m, (cne_id e). split; [done|]. cbn [m_id config_row].
      rewrite (proj2 (Hin (mc_id m))) by (by apply list_elem_of_fmap_2). by rewrite andb_false_r.
    + right. pose proof Hid as Hid'. rewrite <- Hin in Hid'. apply not_true_iff_false in Hid'. rewrite Hid'. cbn [negb].
      destruct (m_origin r0) eqn:Eo; cbn; [|by split; [|left]].
      rewrite bool_decide_eq_true_2 by done. destruct (m_enabled r0) eqn:Een; cbn; (split; [done|right]); eauto 8.
  - intros r Hr Ho Hid. apply Hret. exists r. split; [apply Hrows; by right|]. by rewrite Ho.
Qed.

(** A retired endpoint keeps its row, and with it the unique index on its hostname:
    a configuration that serves that hostname under another name is refused by the
    database at boot, whatever else it declares after that endpoint, and the
    projection is rolled back. *)
Theorem renaming_an_endpoint_fails_boot e rest modelConfigs uuid now endpointTable modelTable row :
  ec_enabled e = true -> unknown_endpoint (List.filter ec_enabled (e :: rest)) (declared_rows modelConfigs) = None ->
  row ∈ endpointTable -> ep_hostname row = ec_hostname e ->
  (forall r, r ∈ endpointTable -> ep_name r <> ec_name e) -> (forall r, r ∈ endpointTable -> ep_id r <> uuid (ec_name e)) ->
  project (e :: rest) modelConfigs uuid now endpointTable modelTable = Err CatalogUniqueViolation.
Proof.
  intros He Hu Hrow Hh Hname Hid. unfold project. fold (declared_rows modelConfigs). rewrite Hu.
  cbn [List.filter]. rewrite He. cbn [save_endpoints].
  rewrite (proj2 (find_first_none _ endpointTable)) by (intros r Hr; by apply jeqb_neq, Hname). cbn [fmap option_fmap option_map default from_option id].
  assert (save_endpoint (endpoint_row e (uuid (ec_name e)) now) endpointTable = Err CatalogUniqueViolation) as E; [|by rewrite E].
  unfold save_endpoint. rewrite (proj2 (existsb_exists _ endpointTable)); [done|]. exists row.
  split; [by apply list_elem_of_In|]. cbn [endpoint_row ep_id ep_name ep_hostname].
  by rewrite (proj2 (jeqb_neq _ _) (Hid row Hrow)), Hh, jeqb_refl, orb_true_r.
Qed.

(** ** Witnesses *)

Definition example_endpoint (name : jstr) : EndpointConfig :=
  {| ec_name := name; ec_hostname := "primary.tee.example"; ec_evidenceUrl := None; ec_declaredImages := None; ec_enabled := true |}.

Definition example_model (id endpoint : jstr) : ModelConfig :=
  {| mc_id := id; mc_name := id; mc_litellmModel := id; mc_endpoint := endpoint; mc_contextLength := 8192;
     mc_capabilities := [cap_chat]; mc_promptPer1mMicros := 1; mc_completionPer1mMicros := 2; mc_enabled := true |}.

Definition external_row : Model :=
  {| m_id := "ext"; m_name := "ext"; m_litellmModel := "up"; m_origin := origin_external; m_endpointId := None;
     m_externalEndpointId := Some ("x" : jstr); m_contextLength := 1; m_capabilities := [cap_chat]; m_promptPer1mMicros := 1;
     m_completionPer1mMicros := 1; m_enabled := true; m_updatedAt := 1 |}.

Definition first_boot := project [example_endpoint "primary"] [example_model "a" "primary"] (fun n => "id-" +++ n) 100 []
  [external_row].

(** The second boot drops model [a] for [b]. *)
Lemma project_derives_the_catalogue_witness :
  match first_boot with
  | Ok (endpoints, models, _) =>
      match project [example_endpoint "primary"] [example_model "b" "primary"] (fun n => "id-" +++ n) 200 endpoints models with
      | Ok (_, models', service) =>
          map (fun r => (m_id r, m_enabled r)) models' = [("ext" : jstr, true); ("a" : jstr, false); ("b" : jstr, true)] /\
          external_row ∈ models'
      | Err _ => False
      end
  | Err _ => False
  end.
Proof.
  destruct first_boot as [[[endpoints models] s0]|] eqn:E; [|vm_compute in E; discriminate E].
  destruct (project _ _ _ 200 endpoints models) as [[[endpoints' models'] service]|] eqn:E'.
  - split; [vm_compute in E; injection E as <- <- <-; vm_compute in E'; injection E' as <- <- <-; reflexivity|].
    apply (project_derives_the_catalogue [example_endpoint "primary"] [example_model "b" "primary"] (fun n => "id-" +++ n) 200
             endpoints models endpoints' models' service) in E' as (_ & _ & H).
    + apply H; vm_compute in E; injection E as <- <- <-; [left|reflexivity|apply (bool_decide_unpack _); vm_compute; reflexivity].
    + apply (bool_decide_unpack _); vm_compute; reflexivity.
  - vm_compute in E. injection E as <- <- <-. vm_compute in E'. discriminate E'.
Defined.

Lemma renaming_an_endpoint_fails_boot_witness :
  match first_boot with
  | Ok (endpoints, models, _) =>
      project [example_endpoint "renamed"] [example_model "a" "renamed"] (fun n => "id-" +++ n) 200 endpoints models
      = Err CatalogUniqueViolation
  | Err _ => False
  end.
Proof.
  destruct first_boot as [[[endpoints models] s0]|] eqn:E; vm_compute in E; [|discriminate E]. injection E as <- <- <-.
  eapply renaming_an_endpoint_fails_boot; [reflexivity|vm_compute; reflexivity|left|reflexivity| |];
    intros r ->%list_elem_of_singleton; vm_compute; congruence.
Defined.
