(* ===== verification/ChatApi.v ===== *)
(** * The console chat's operations

    [api/graphql/chat/chat.resolver.ts]: the limits it publishes, the key it mints for
    itself, and the transcript mutations, each behind the membership check of
    [Workspaces] and over the transcripts of [Chat]. *)

From S2P Require Import Prelude JsString EvidenceDigest Store Workspaces Chat ApiKeys ExternalCatalog ConfigCatalog.

Definition CHAT_KEY_NAME : jstr := "Console chat".

Inductive chat_api_error :=
| chat_forbidden (message : jstr)
| chat_scope (e : scope_error)
| chat_service (e : chat_error)
| chat_keys (e : error).

Definition lift {E A} (f : E -> chat_api_error) (r : result E A) : result chat_api_error A :=
  match r with Ok a => Ok a | Err e => Err (f e) end.

Inductive ChatHistoryStorage := BROWSER_LOCAL | ATTESTED_SERVER.

Record ChatSettings := {
  cg_enabled : bool;
  cg_maxMessageChars : Z;
  cg_maxThreads : Z;
  cg_maxMessagesPerThread : Z;
  cg_historyStorage : ChatHistoryStorage;
  cg_chatModelIds : list jstr
}.

Record ChatCredential := { cc_apiKeyId : jstr; cc_secret : jstr; cc_expiresAt : option Z; cc_baseUrl : jstr; cc_modelScope : list jstr }.

(** The clock at each revocation, then at the mint; [randomUUID()] and its bytes. *)
Record credential_env := { ce_revokedAt : Z; ce_now : Z; ce_createdAt : Z; ce_uuid : jstr; ce_random : list N }.

Section Resolver.
Context (config : ChatConfig) (publicBaseUrl : jstr) (catalog : CatalogService) (external : ExternalCatalogService).
Context (sha256_hex : jstr -> jstr) (t : Tenancy).

Definition chatModelIds : list jstr :=
  map cnm_id (List.filter (fun m => includes_capability cap_chat (cnm_capabilities m)) (list_config catalog None)) ++
  map cm_id (List.filter (fun m => includes_capability cap_chat (cm_capabilities m)) (list_models external None)).

Definition chatSettings : ChatSettings :=
  {| cg_enabled := ch_enabled config; cg_maxMessageChars := maxMessageChars config; cg_maxThreads := maxThreads config;
     cg_maxMessagesPerThread := maxMessagesPerThread config; cg_historyStorage := ATTESTED_SERVER; cg_chatModelIds := chatModelIds |}.

Definition assertEnabled : result chat_api_error unit :=
  throw_if (negb (ch_enabled config)) (chat_forbidden "The console chat is disabled on this deployment.").

Definition assertChatModel (modelId : jstr) : result chat_api_error unit :=
  throw_if (negb (listed modelId chatModelIds)) (chat_forbidden (Js [34%N] +++ modelId +++ Js [34%N] +++ " is not a chat-capable model on this router.")).

Definition scopeFor (userId workspaceId : jstr) : result chat_api_error ThreadScope :=
  workspace ← lift chat_scope (requireMembership userId workspaceId role_member t);
  Ok {| sc_workspaceId := workspace; sc_userId := userId |}.

(** ** The credential *)

Definition chat_key_input (now : Z) (workspaceId userId : jstr) (modelScope : list jstr) : CreateApiKeyInput :=
  {| ci_workspaceId := workspaceId; ci_createdByUserId := userId; ci_name := CHAT_KEY_NAME; ci_modelScope := Some modelScope;
     ci_spendLimitMicros := None; ci_requestsPerMinute := None; ci_tokensPerMinute := None;
     ci_expiresAt := Some (now + credentialTtl config); ci_purpose := Some console_chat |}.

Definition revoke_all (now : Z) (superseded table : list ApiKey) : list ApiKey := foldl (fun table previous => revoke previous now table) table superseded.

Definition chatCredential (env : credential_env) (userId workspaceId : jstr) (table : list ApiKey)
    : result chat_api_error (list ApiKey * ChatCredential) :=
  _ ← assertEnabled;
  workspace ← lift chat_scope (requireMembership userId workspaceId role_member t);
  let modelScope := chatModelIds in
  throw chat_forbidden "This router serves no chat-capable model." when (length modelScope =? 0)%nat;
  let table := revoke_all (ce_revokedAt env) (listLiveByPurpose workspace console_chat userId table) table in
  created ← lift chat_keys (create sha256_hex (chat_key_input (ce_now env) workspace userId modelScope)
                              (ce_uuid env) (ce_random env) (ce_createdAt env) table);
  let '(table, (key, secret)) := created in
  Ok (table, {| cc_apiKeyId := ak_id key; cc_secret := secret; cc_expiresAt := ak_expiresAt key;
                cc_baseUrl := without_trailing_slashes publicBaseUrl +++ "/v1"; cc_modelScope := modelScope |}).

(** ** The transcripts *)

Definition chatThreads (userId workspaceId : jstr) (c : ChatTables) : result chat_api_error (list ChatThread) :=
  scope ← scopeFor userId workspaceId; Ok (listThreads config scope c).

Definition chatThread (userId workspaceId threadId : jstr) (c : ChatTables) : result chat_api_error (ChatThread * list ChatMessage) :=
  scope ← scopeFor userId workspaceId; lift chat_service (threadWithMessages config scope threadId c).

Definition createChatThread (userId workspaceId modelId uuid : jstr) (now : Z) (c : ChatTables) : result chat_api_error (ChatTables * ChatThread) :=
  _ ← assertEnabled; scope ← scopeFor userId workspaceId; _ ← assertChatModel modelId;
  Ok (createThread config scope modelId uuid now c).

Definition setChatThreadModel (userId workspaceId threadId modelId : jstr) (c : ChatTables) : result chat_api_error (ChatTables * ChatThread) :=
  _ ← assertEnabled; scope ← scopeFor userId workspaceId; _ ← assertChatModel modelId;
  lift chat_service (setThreadModel scope threadId modelId c).

Definition appendChatMessage (userId workspaceId threadId : jstr) (role : ChatRole) (content : jstr) (error : option jstr) (uuid : jstr) (now : Z)
    (c : ChatTables) : result chat_api_error (ChatTables * ChatMessage) :=
  _ ← assertEnabled; scope ← scopeFor userId workspaceId;
  lift chat_service (appendMessage config {| ap_scope := scope; ap_threadId := threadId; ap_role := role; ap_content := content; ap_error := error |} uuid now c).

Definition deleteChatThread (userId workspaceId threadId : jstr) (c : ChatTables) : result chat_api_error ChatTables :=
  scope ← scopeFor userId workspaceId; lift chat_service (deleteThread scope threadId c).

Inductive chat_mutation :=
| do_create (modelId uuid : jstr) (now : Z)
| do_model (threadId modelId : jstr)
| do_append (threadId : jstr) (role : ChatRole) (content : jstr) (error : option jstr) (uuid : jstr) (now : Z)
| do_delete (threadId : jstr).

Definition mutate (userId workspaceId : jstr) (m : chat_mutation) (c : ChatTables) : result chat_api_error ChatTables :=
  match m with
  | do_create modelId uuid now => fst <$> createChatThread userId workspaceId modelId uuid now c
  | do_model threadId modelId => fst <$> setChatThreadModel userId workspaceId threadId modelId c
  | do_append threadId role content error uuid now => fst <$> appendChatMessage userId workspaceId threadId role content error uuid now c
  | do_delete threadId => deleteChatThread userId workspaceId threadId c
  end.

(** The call of the service a mutation is, in the caller's scope. *)
Definition call_of (scope : ThreadScope) (m : chat_mutation) : chat_call :=
  match m with
  | do_create modelId uuid now => call_create scope modelId uuid now
  | do_model threadId modelId => call_model scope threadId modelId
  | do_append threadId role content error uuid now =>
      call_append {| ap_scope := scope; ap_threadId := threadId; ap_role := role; ap_content := content; ap_error := error |} uuid now
  | do_delete threadId => call_delete scope threadId
  end.
End Resolver.

(** ** Lemmas *)

Lemma lift_ok {E A} (f : E -> chat_api_error) (r : result E A) a : lift f r = Ok a <-> r = Ok a.
Proof. destruct r; cbn; split; congruence. Qed.

Lemma scopeFor_ok t userId workspaceId s : scopeFor t userId workspaceId = Ok s ->
  s = {| sc_workspaceId := workspaceId; sc_userId := userId |} /\ is_Some (roleOf userId workspaceId t).
Proof.
  unfold scopeFor. intros (w & (-> & _ & r & Hr & _)%lift_ok%requireMembership_ok & [= <-])%bind_ok. split; [done|by exists r].
Qed.

Lemma call_of_scope s m : call_scope (call_of s m) = s.
Proof. by destruct m. Qed.

(** A mutation that goes through is the service's call in the caller's scope. *)
Lemma mutate_ok config catalog external t userId workspaceId m c c' : mutate config catalog external t userId workspaceId m c = Ok c' ->
  is_Some (roleOf userId workspaceId t) /\
  c' = serve_call config (call_of {| sc_workspaceId := workspaceId; sc_userId := userId |} m) c.
Proof.
  destruct m as [modelId uuid now|threadId modelId|threadId role content error uuid now|threadId]; cbn [mutate call_of serve_call].
  - unfold createChatThread. destruct (assertEnabled config); [|done]. cbn [mbind result_bind].
    destruct (scopeFor t userId workspaceId) as [s|] eqn:E; [|done]. apply scopeFor_ok in E as [-> Hr].
    cbn [mbind result_bind]. destruct (assertChatModel _ _ _); [|done]. by intros [= <-].
  - unfold setChatThreadModel. destruct (assertEnabled config); [|done]. cbn [mbind result_bind].
    destruct (scopeFor t userId workspaceId) as [s|] eqn:E; [|done]. apply scopeFor_ok in E as [-> Hr].
    cbn [mbind result_bind]. destruct (assertChatModel _ _ _); [|done]. cbn [mbind result_bind].
    destruct (setThreadModel _ _ _ _) as [[? ?]|]; [|done]. by intros [= <-].
  - unfold appendChatMessage. destruct (assertEnabled config); [|done]. cbn [mbind result_bind].
    destruct (scopeFor t userId workspaceId) as [s|] eqn:E; [|done]. apply scopeFor_ok in E as [-> Hr].
    cbn [mbind result_bind]. destruct (appendMessage _ _ _ _ _) as [[? ?]|]; [|done]. by intros [= <-].
  - unfold deleteChatThread. destruct (scopeFor t userId workspaceId) as [s|] eqn:E; [|done]. apply scopeFor_ok in E as [-> Hr].
    cbn [mbind result_bind]. destruct (deleteThread _ _ _); [|done]. by intros [= <-].
Qed.

(** Revoking what was read, row by row. *)
Lemma revoke_all_eq now superseded table : NoDup (map ak_id superseded) ->
  revoke_all now superseded table =
  map (fun k => match find_first (fun p => jeqb (ak_id p) (ak_id k)) superseded with Some p => revoked p now | None => k end) table.
Proof.
  revert table. induction superseded as [|p l IH]; intros table Hnd; [by rewrite map_id|].
  cbn [map] in Hnd. apply NoDup_cons in Hnd as [Hp Hnd]. cbn [revoke_all foldl]. fold (revoke_all now l (revoke p now table)).
  rewrite IH by done. unfold revoke, save, update_row. rewrite map_map. apply map_ext. intros k. change (ak_id (revoked p now)) with (ak_id p).
  cbn [find_first List.find]. rewrite (jeqb_sym (ak_id p)). destruct (jeqb (ak_id k) (ak_id p)) eqn:E; [|done].
  destruct (find_first _ l) as [q|] eqn:Eq; [|done]. apply find_first_some in Eq as [Hq Hi%jeqb_eq].
  change (ak_id (revoked p now)) with (ak_id p) in Hi. destruct Hp. rewrite <- Hi. by apply list_elem_of_fmap_2.
Qed.

Definition live_chat_key (workspaceId userId : jstr) (k : ApiKey) : bool :=
  jeqb (ak_workspaceId k) workspaceId && bool_decide (ak_purpose k = Some console_chat)
  && bool_decide (ak_createdByUserId k = Some userId) && match ak_revokedAt k with None => true | Some _ => false end.

Lemma live_chat_keys ws user table : listLiveByPurpose ws console_chat user table = merge_sort newest (List.filter (live_chat_key ws user) table).
Proof. done. Qed.

Lemma rotated now ws user table : NoDup (map ak_id table) ->
  revoke_all now (listLiveByPurpose ws console_chat user table) table =
  map (fun k => if live_chat_key ws user k then revoked k now else k) table.
Proof.
  intros Hnd. assert (Hp : listLiveByPurpose ws console_chat user table ≡ₚ List.filter (live_chat_key ws user) table) by apply merge_sort_Permutation.
  rewrite revoke_all_eq by (rewrite Hp; by apply nodup_filter). apply map_ext_in. intros k Hk%list_elem_of_In.
  destruct (find_first _ _) as [p|] eqn:E.
  - apply find_first_some in E as [Hin Hi%jeqb_eq]. rewrite Hp in Hin. apply elem_of_filter_b in Hin as [Hin Hl].
    assert (p = k) as -> by (by apply (nodup_map_inj ak_id table)). by rewrite Hl.
  - rewrite find_first_none in E. destruct (live_chat_key ws user k) eqn:El; [|done]. specialize (E k). rewrite jeqb_refl in E.
    discriminate E. rewrite Hp. by apply elem_of_filter_b.
Qed.

(** ** Theorems *)

(** Minting a chat key rotates the caller's own and touches nobody else's: the table
    is the one there was with the caller's live chat keys of that workspace revoked
    and the new key added; the new one is the caller's only live chat key there; it
    may call the chat-capable models and no other, each once; until it expires its
    secret authenticates to that workspace; and only a member gets one. *)
Theorem credential_rotates config publicBaseUrl catalog external sha t env userId workspaceId table table' out :
  NoDup (map ak_id table) -> sha256_bytes (ce_random env) ->
  chatCredential config publicBaseUrl catalog external sha t env userId workspaceId table = Ok (table', out) ->
  is_Some (roleOf userId workspaceId t) /\
  exists key,
    table' = map (fun k => if live_chat_key workspaceId userId k then revoked k (ce_revokedAt env) else k) table ++ [key] /\
    ak_id key = cc_apiKeyId out /\ ak_expiresAt key = Some (ce_now env + credentialTtl config) /\
    listLiveByPurpose workspaceId console_chat userId table' = [key] /\
    (exists scope, ak_modelScope key = Some scope /\ NoDup scope /\ forall id, id ∈ scope <-> id ∈ chatModelIds catalog external) /\
    (forall workspaces ws now, workspaces !! workspaceId = Some ws -> now < ce_now env + credentialTtl config ->
       authenticate sha (cc_secret out) now table' workspaces = Ok {| au_key := key; au_workspaceId := workspaceId; au_workspace := ws |}).
Proof.
  intros Hnd Hr. unfold chatCredential. destruct (assertEnabled config); [|done]. cbn [mbind result_bind].
  intros (w & (-> & _ & r & Hrole & _)%lift_ok%requireMembership_ok & H)%bind_ok. split; [by exists r|].
  destruct (throw_if _ _) eqn:Es in H; [|done]. apply throw_if_ok, Nat.eqb_neq in Es. cbn zeta in H.
  rewrite rotated in H by done. apply bind_ok in H as ([tb [key secret]] & Hc%lift_ok & H). injection H as <- <-.
  set (old := map (fun k => if live_chat_key workspaceId userId k then revoked k (ce_revokedAt env) else k) table) in *.
  destruct (create_ok _ _ _ _ _ _ _ _ _ Hc) as (Ek & Esec & -> & _).
  exists key. split; [done|]. split; [done|]. split; [by rewrite Ek|]. split; [|split].
  - rewrite live_chat_keys, List.filter_app, (filter_nothing _ old).
    + cbn [List.filter app]. replace (live_chat_key workspaceId userId key) with true; [done|].
      rewrite Ek. symmetry. unfold live_chat_key. rewrite !andb_true_iff, jeqb_eq, !bool_decide_eq_true. done.
    + apply Forall_forall. intros k (k0 & -> & _)%list_elem_of_fmap. destruct (live_chat_key workspaceId userId k0) eqn:E; [|exact E]. unfold live_chat_key. cbn.
      by rewrite !andb_false_r.
  - rewrite Ek. cbn [ak_modelScope created_row ci_modelScope chat_key_input]. destruct (chatModelIds catalog external) as [|m ms] eqn:Em; [done|].
    cbn [normaliseScope]. eexists. split; [reflexivity|]. destruct (distinct_spec [] (m :: ms)) as [H1 H2]. split; [exact H1|].
    intros id. rewrite H2. split; [by intros [? _]|]. intros Hin. split; [done|]. by apply not_elem_of_nil.
  - intros workspaces ws now Hw Ht. by apply (created_authenticates _ _ _ _ _ _ _ _ _ workspaces ws now Hr Hc).
Qed.

(** A transcript is behind its membership: whatever a mutation is, when it goes
    through its caller is a member of the workspace it names, and no other member's
    transcripts, and no other workspace's, are read differently after it; and a caller
    who is not a member is refused every read, whatever is stored. *)
Theorem transcripts_need_membership config catalog external t userId workspaceId m c c' :
  chat_reachable config c -> fresh_call (call_of {| sc_workspaceId := workspaceId; sc_userId := userId |} m) c ->
  mutate config catalog external t userId workspaceId m c = Ok c' ->
  is_Some (roleOf userId workspaceId t) /\ chat_reachable config c' /\
  (forall u w, (u, w) <> (userId, workspaceId) ->
     chatThreads config t u w c' = chatThreads config t u w c /\
     forall id, chatThread config t u w id c' = chatThread config t u w id c) /\
  (forall u, roleOf u workspaceId t = None ->
     is_ok (chatThreads config t u workspaceId c') = false /\ forall id, is_ok (chatThread config t u workspaceId id c') = false).
Proof.
  intros Hreach Hf Hm. apply mutate_ok in Hm as [Hr ->]. split; [done|]. split; [by apply chat_step|]. split.
  - intros u w Hne. unfold chatThreads, chatThread. destruct (scopeFor t u w) as [s|e] eqn:E; [|done]. apply scopeFor_ok in E as [-> _].
    set (scope := {| sc_workspaceId := w; sc_userId := u |}).
    assert (Hs : call_scope (call_of {| sc_workspaceId := workspaceId; sc_userId := userId |} m) <> scope) by (rewrite call_of_scope; intros [= <- <-]; by apply Hne).
    destruct (same_view_reads config scope c _ (serve_call_view config _ c scope (reachable_keys _ _ Hreach) Hf Hs)) as [H1 H2].
    cbn [mbind result_bind]. split; [by rewrite H1|]. intros id. by rewrite H2.
  - intros u Hno. unfold chatThreads, chatThread, scopeFor, requireMembership. by rewrite Hno.
Qed.

(** ** Examples *)

Definition one_chat_model : CatalogService :=
  {| cs_models := [("m" : jstr, {| cnm_id := "m"; cnm_name := "M"; cnm_litellmModel := "m"; cnm_contextLength := 1; cnm_capabilities := [cap_chat];
                      cnm_promptPer1mMicros := 0; cnm_completionPer1mMicros := 0; cnm_endpoint := {| cne_id := "e"; cne_name := "e"; cne_hostname := "h"; cne_declaredImages := None |};
                      cnm_updatedAt := 0 |})]; cs_endpoints := [] |}.

Definition ada_works : Tenancy :=
  match ensurePersonalWorkspace sample_lower sample_env {| nu_id := "ada"; nu_email := "ada@example.com"; nu_name := None |} empty_tenancy with
  | Ok (t, _) => t | Err _ => empty_tenancy end.

Definition first_env : credential_env := {| ce_revokedAt := 1; ce_now := 1; ce_createdAt := 1; ce_uuid := "k1"; ce_random := replicate 32 7%N |}.
Definition second_env : credential_env := {| ce_revokedAt := 9; ce_now := 9; ce_createdAt := 9; ce_uuid := "k2"; ce_random := replicate 32 8%N |}.

Definition credential (env : credential_env) (table : list ApiKey) : result chat_api_error (list ApiKey * ChatCredential) :=
  chatCredential chat_sample "https://api.example/" one_chat_model catalog_initial (fun s => "h" +++ s) ada_works env "ada" "000000" table.

Definition one_chat_key : list ApiKey := match credential first_env [] with Ok (table, _) => table | Err _ => [] end.

Lemma credential_rotates_witness :
  match credential second_env one_chat_key with
  | Ok (table, out) => cc_baseUrl out = "https://api.example/v1"%js /\
      map ak_id (listLiveByPurpose "000000" console_chat "ada" table) = ["k2" : jstr] /\ map ak_revokedAt table = [Some 9; None]
  | Err _ => False
  end.
Proof.
  destruct (credential second_env one_chat_key) as [[table out]|e] eqn:E; [|vm_compute in E; discriminate E].
  destruct (credential_rotates chat_sample "https://api.example/" one_chat_model catalog_initial (fun s => "h" +++ s) ada_works second_env "ada" "000000" one_chat_key table out)
    as (_ & key & Ht & Hid & _ & Hl & _).
  - change (map ak_id one_chat_key) with ["k1" : jstr]. apply NoDup_singleton.
  - split; [reflexivity|]. repeat constructor.
  - exact E.
  - rewrite Hl. cbn [map]. rewrite Hid. vm_compute in E. injection E as <- <-. done.
Defined.

Lemma transcripts_need_membership_witness :
  match mutate chat_sample one_chat_model catalog_initial ada_works "ada" "000000" (do_create "m" "t1" 1) {| chat_threads := []; chat_messages := [] |} with
  | Ok c' => map th_id (chat_threads c') = ["t1" : jstr] /\ is_ok (chatThread chat_sample ada_works "bob" "000000" "t1" c') = false
  | Err _ => False
  end.
Proof.
  destruct (mutate _ _ _ _ _ _ _ _) as [c'|e] eqn:E; [|vm_compute in E; discriminate E].
  destruct (transcripts_need_membership chat_sample one_chat_model catalog_initial ada_works "ada" "000000" (do_create "m" "t1" 1)
    {| chat_threads := []; chat_messages := [] |} c') as (_ & _ & _ & H); [apply chat_start|by intros ?%elem_of_nil|exact E|].
  split; [vm_compute in E; injection E as <-; done|]. apply (H "bob"). reflexivity.
Defined.
