(* ===== verification/GatewayPolicy.v ===== *)
(** * What decides whether a request is served

    [api/v1/gateway-policy.service.ts], [routed-model.ts], [model-demand.ts] and the
    types of [gateway.types.ts]: does the model exist, may this key call it, is its
    endpoint attested, is there credit, is the caller within its budget. *)

From S2P Require Import Prelude JsString Json Money Store Ledger ApiKeys RateLimiter StatusProjection ExternalCatalog.
From S2P Require Import OpenAiError ConfigCatalog.

(** ** Routed models *)

Inductive RouteKind := route_chat | route_completions | route_embeddings.

#[global] Instance route_eq_dec : EqDecision RouteKind.
Proof. solve_decision. Defined.

Definition route_text (k : RouteKind) : jstr :=
  match k with route_chat => "chat" | route_completions => "completions" | route_embeddings => "embeddings" end.

Definition UPSTREAM_PATHS (k : RouteKind) : jstr :=
  match k with
  | route_chat => "/v1/chat/completions"
  | route_completions => "/v1/completions"
  | route_embeddings => "/v1/embeddings"
  end.

Definition REQUIRED_CAPABILITY (k : RouteKind) : ModelCapability :=
  match k with route_chat => cap_chat | route_completions => cap_completions | route_embeddings => cap_embeddings end.

Record RoutedEndpoint := { re_id : jstr; re_name : jstr; re_hostname : jstr }.

Record ExternalRoute := {
  er_baseUrl : jstr;
  er_apiKeyCiphertext : jstr;
  er_evidenceDigestSeen : option jstr;
  er_measurementSeen : option jstr
}.

Record RoutedModel := {
  rm_id : jstr;
  rm_name : jstr;
  rm_upstreamModel : jstr;
  rm_contextLength : Z;
  rm_capabilities : list ModelCapability;
  rm_pricing : ModelPricing;
  rm_origin : ModelOrigin;
  rm_endpoint : RoutedEndpoint;
  rm_external : option ExternalRoute;
  rm_updatedAt : Z
}.

Definition routedConfigModel (m : CatalogModel) : RoutedModel :=
  {| rm_id := cnm_id m; rm_name := cnm_name m; rm_upstreamModel := cnm_litellmModel m;
     rm_contextLength := cnm_contextLength m; rm_capabilities := cnm_capabilities m;
     rm_pricing := {| promptPer1mMicros := cnm_promptPer1mMicros m; completionPer1mMicros := cnm_completionPer1mMicros m |};
     rm_origin := origin_config;
     rm_endpoint := {| re_id := cne_id (cnm_endpoint m); re_name := cne_name (cnm_endpoint m);
                       re_hostname := cne_hostname (cnm_endpoint m) |};
     rm_external := None; rm_updatedAt := cnm_updatedAt m |}.

Definition routedExternalModel (m : ExternalCatalogModel) : RoutedModel :=
  {| rm_id := cm_id m; rm_name := cm_name m; rm_upstreamModel := cm_upstreamModel m;
     rm_contextLength := cm_contextLength m; rm_capabilities := cm_capabilities m;
     rm_pricing := {| promptPer1mMicros := cm_promptPer1mMicros m; completionPer1mMicros := cm_completionPer1mMicros m |};
     rm_origin := origin_external;
     rm_endpoint := {| re_id := ce_id (cm_endpoint m); re_name := ce_name (cm_endpoint m);
                       re_hostname := ce_hostname (cm_endpoint m) |};
     rm_external := Some {| er_baseUrl := "http://127.0.0.1:" +++ jstring_of_Z (ce_listenPort (cm_endpoint m));
                            er_apiKeyCiphertext := ce_apiKeyCiphertext (cm_endpoint m);
                            er_evidenceDigestSeen := ce_evidenceDigestSeen (cm_endpoint m);
                            er_measurementSeen := ce_measurementSeen (cm_endpoint m) |};
     rm_updatedAt := cm_updatedAt m |}.

(** ** Resolution *)

Inductive Resolution := routable_resolution (m : RoutedModel) | unadmitted_resolution (u : UnadmittedExternalModel).

Record Catalogues := { cat_config : CatalogService; cat_external : ExternalCatalogService }.

Definition lookUp (c : Catalogues) (id : jstr) : option Resolution :=
  match find_config (cat_config c) id with
  | Some m => Some (routable_resolution (routedConfigModel m))
  | None =>
      match find_model (cat_external c) id with
      | Some m => Some (routable_resolution (routedExternalModel m))
      | None => unadmitted_resolution <$> findUnadmitted (cat_external c) id
      end
  end.

(** [value && value.length > 0 ? … : ''] of a template literal. *)
Definition when_truthy (s : option jstr) (f : jstr -> jstr) : jstr :=
  match nonempty s with Some s => f s | None => Js [] end.

Definition refusalFor (u : UnadmittedExternalModel) : OpenAiApiError :=
  let because :=
    if status_eqb (um_status u) pending then "the router has not yet verified it"
    else "the router denied it" +++ when_truthy (um_stage u) (fun s => " at stage " +++ s) +++
         when_truthy (um_reason u) (fun r => ": " +++ r) in
  attestationFailed ("Model " +++ quote (um_id u) +++ " is served by external endpoint " +++ quote (um_endpointName u) +++
                     ", and " +++ because +++ ". Nothing was sent to it.").

Definition served_text (s : ServedCapability) : jstr :=
  match s with
  | served_chat => "chat" | served_completions => "completions" | served_embeddings => "embeddings"
  | served_tools => "tools" | served_streaming => "streaming"
  end.

Definition unsupported_route (m : RoutedModel) (kind : RouteKind) : OpenAiApiError :=
  let served := servedCapabilities (rm_capabilities m) in
  unsupportedParameter "model"
    ("Model " +++ quote (rm_id m) +++ " does not support " +++ route_text kind +++ " requests; it serves " +++
     match served with
     | [] => "nothing — its catalogue entry declares no route"
     | _ => jjoin ", " (map served_text served)
     end +++ ".").

Definition n_refused : OpenAiApiError :=
  unsupportedParameter "n" "Only n = 1 is supported; the router meters one completion per request.".

(** [n === undefined || n === null || n === 1] *)
Definition one_completion (body : json) : bool :=
  match member "n" body with
  | None | Some JNull => true
  | Some (JNumber text) => jeqb text "1"
  | _ => false
  end.

Definition resolve (c : Catalogues) (kind : RouteKind) (body : json) (key : ApiKey) : result OpenAiApiError RoutedModel :=
  match nonempty_json (member "model" body) with
  | None => Err (missingField "model")
  | Some requested =>
      match lookUp c requested with
      | None => Err (modelNotFound requested)
      | Some found =>
          if negb (in_scope (ak_modelScope key) requested) then Err (modelNotInKeyScope requested)
          else
            match found with
            | unadmitted_resolution u => Err (refusalFor u)
            | routable_resolution m =>
                if negb (servesRoute (rm_capabilities m) (REQUIRED_CAPABILITY kind)) then Err (unsupported_route m kind)
                else if negb (one_completion body) then Err n_refused
                else Ok m
            end
      end
  end.

Definition listModels (c : Catalogues) (key : ApiKey) : list RoutedModel :=
  map routedConfigModel (list_config (cat_config c) (ak_modelScope key)) ++
  map routedExternalModel (list_models (cat_external c) (ak_modelScope key)).

(** ** Admission *)

(** What a handler throws: an error of the [/v1] table, or an exception of a service. *)
Inductive thrown := Api (e : OpenAiApiError) | Service (e : error).

Definition refusal_error (r : RateLimitRefusal) : OpenAiApiError := rateLimited (refusal_message r) (refusal_headers r).

Record PolicyConfig := { pl_allowOverdraftMicros : Z; pl_rateLimits : RateLimitsConfig }.

(** Credit, then the key's spend limit, then the budgets. *)
Definition admit_request (config : PolicyConfig) (db : Store) (auth : AuthenticatedApiKey) (now : Z) (buckets : Buckets)
    : Buckets * result thrown (list (jstr * jstr)) :=
  match balanceOf (pl_allowOverdraftMicros config) db (au_workspaceId auth) with
  | Err e => (buckets, Err (Service e))
  | Ok balance =>
      if negb (cb_spendable balance) then (buckets, Err (Api insufficientCredits))
      else if match ak_spendLimitMicros (au_key auth) with Some l => l <=? ak_spentTotalMicros (au_key auth) | None => false end
      then (buckets, Err (Api keySpendLimitReached))
      else
        let '(buckets, answer) := admit_limits sweep (pl_rateLimits config) (au_key auth) now buckets in
        (buckets, match answer with Ok headers => Ok headers | Err r => Err (Api (refusal_error r)) end)
  end.

Definition settle (config : PolicyConfig) (key : ApiKey) (totalTokens now : Z) (buckets : Buckets) : Buckets :=
  settle_limits sweep (pl_rateLimits config) key totalTokens now buckets.

(** ** Demand *)

Definition MAX_SLUG_LENGTH : Z := 64.

Definition UNPARSEABLE_SLUG : jstr := "unparseable".

Definition slug_end (c : N) : bool := is_lower c || is_digit c.
Definition slug_inner (c : N) : bool := slug_end c || existsb (N.eqb c) (units "._:/+-").

(** [^[a-z0-9](?:[a-z0-9._:/+-]*[a-z0-9])?$] *)
Definition SLUG_SHAPE (s : jstr) : bool :=
  match units s with
  | [] => false
  | c :: r => slug_end c && match last r with None => true | Some d => forallb slug_inner r && slug_end d end
  end.

Section Demand.
(** [toLowerCase] beyond ASCII is the engine's table. *)
Context (toLowerCase : jstr -> jstr).

Definition requestedModelSlug (body : json) : option jstr :=
  match member "model" body with
  | Some (JString requested) =>
      let trimmed := toLowerCase (jtrim requested) in
      if jlength trimmed =? 0 then None
      else if (jlength trimmed <=? MAX_SLUG_LENGTH) && SLUG_SHAPE trimmed then Some trimmed else Some UNPARSEABLE_SLUG
  | _ => None
  end.
End Demand.

Inductive ModelDemandResult := demand_served | unknown_model | out_of_key_scope | not_verified | unsupported_route_demand.

#[global] Instance demand_eq_dec : EqDecision ModelDemandResult.
Proof. solve_decision. Defined.

Definition resultOf (e : OpenAiApiError) : option ModelDemandResult :=
  if jeqb (oe_code e) "model_not_found" then Some unknown_model
  else if jeqb (oe_code e) "model_not_in_key_scope" then Some out_of_key_scope
  else if jeqb (oe_code e) "attestation_failed" || jeqb (oe_code e) "attestation_revoked" then Some not_verified
  else if jeqb (oe_code e) "unsupported_parameter" then
    (if bool_decide (oe_param e = Some ("model" : jstr)) then Some unsupported_route_demand else None)
  else None.

(** ** Theorems *)

(** Why a request is refused, or the model it is served by, as the two catalogues
    and the key decide it. *)
Inductive verdict_on (c : Catalogues) (kind : RouteKind) (body : json) (key : ApiKey) : option ModelDemandResult -> Prop :=
| on_no_model : nonempty_json (member "model" body) = None -> verdict_on c kind body key None
| on_unknown id : nonempty_json (member "model" body) = Some id -> lookUp c id = None ->
    verdict_on c kind body key (Some unknown_model)
| on_scope id r : nonempty_json (member "model" body) = Some id -> lookUp c id = Some r ->
    in_scope (ak_modelScope key) id = false -> verdict_on c kind body key (Some out_of_key_scope)
| on_unadmitted id u : nonempty_json (member "model" body) = Some id -> lookUp c id = Some (unadmitted_resolution u) ->
    in_scope (ak_modelScope key) id = true -> verdict_on c kind body key (Some not_verified)
| on_route id m : nonempty_json (member "model" body) = Some id -> lookUp c id = Some (routable_resolution m) ->
    in_scope (ak_modelScope key) id = true -> servesRoute (rm_capabilities m) (REQUIRED_CAPABILITY kind) = false ->
    verdict_on c kind body key (Some unsupported_route_demand)
| on_n id m : nonempty_json (member "model" body) = Some id -> lookUp c id = Some (routable_resolution m) ->
    in_scope (ak_modelScope key) id = true -> servesRoute (rm_capabilities m) (REQUIRED_CAPABILITY kind) = true ->
    one_completion body = false -> verdict_on c kind body key None.

(** The demand chart and the caller's status cannot disagree: every refusal of the
    resolution is one of the six there are, and the label [resultOf] reads off the
    error is the reason the catalogues and the key give, in the order that keeps a
    key out of scope from learning the model's verdict or its capabilities; a
    request that is not refused is served by the model its id looks up. *)
Theorem demand_agrees_with_refusal c kind body key :
  match resolve c kind body key with
  | Err e => verdict_on c kind body key (resultOf e)
  | Ok m => exists id, nonempty_json (member "model" body) = Some id /\ lookUp c id = Some (routable_resolution m) /\
              in_scope (ak_modelScope key) id = true /\
              servesRoute (rm_capabilities m) (REQUIRED_CAPABILITY kind) = true /\ one_completion body = true
  end.
Proof.
  unfold resolve. destruct (nonempty_json (member "model" body)) as [id|] eqn:Em; [|by apply on_no_model].
  destruct (lookUp c id) as [r|] eqn:El; [|exact (on_unknown c kind body key id Em El)].
  destruct (in_scope (ak_modelScope key) id) eqn:Es; cbn [negb]; [|exact (on_scope c kind body key id r Em El Es)].
  destruct r as [m|u]; [|exact (on_unadmitted c kind body key id u Em El Es)].
  destruct (servesRoute _ _) eqn:Er; cbn [negb]; [|exact (on_route c kind body key id m Em El Es Er)].
  destruct (one_completion body) eqn:En; cbn [negb]; [|exact (on_n c kind body key id m Em El Es Er En)].
  by exists id.
Qed.

Lemma lookUp_external c id m r : lookUp c id = Some (routable_resolution m) -> rm_external m = Some r ->
  exists x, find_config (cat_config c) id = None /\ find_model (cat_external c) id = Some x /\ m = routedExternalModel x.
Proof.
  unfold lookUp. destruct (find_config _ id); [intros [= <-]; by intros|].
  destruct (find_model _ id) as [x|]; [|by destruct (findUnadmitted _ id)]. intros [= <-] _. by exists x.
Qed.

(** C11. Nothing is sent to an endpoint no verdict admits: a request that resolves to the
    external leg resolves, in a catalogue rebuilt from the tables, to an enabled
    model of an enabled endpoint whose row is [verified] at that rebuild; it goes to
    that endpoint's own loopback listener with that endpoint's own sealed key, and
    reports the hostname, digest and measurement the row holds. *)
Theorem external_routes_are_verified config modelTable endpointTable kind body key m r :
  NoDup (map m_id modelTable) ->
  resolve {| cat_config := config; cat_external := rebuild modelTable endpointTable |} kind body key = Ok m ->
  rm_external m = Some r ->
  exists row e, reaches modelTable endpointTable row e /\ status (ee_columns e) = verified /\ rm_id m = m_id row /\
    rm_upstreamModel m = m_litellmModel row /\ re_hostname (rm_endpoint m) = ee_hostname e /\ re_id (rm_endpoint m) = ee_id e /\
    er_baseUrl r = "http://127.0.0.1:" +++ jstring_of_Z (ee_listenPort e) /\
    er_apiKeyCiphertext r = ee_apiKeyCiphertext e /\ er_evidenceDigestSeen r = evidenceDigestSeen (ee_columns e) /\
    er_measurementSeen r = measurementSeen (ee_columns e).
Proof.
  intros Hnd Hr Hx. unfold resolve in Hr. destruct (nonempty_json _) as [id|]; [|done].
  destruct (lookUp _ id) as [res|] eqn:El; [|done]. destruct (in_scope _ id); cbn [negb] in Hr; [|done].
  destruct res as [m'|u]; [|done]. destruct (servesRoute _ _); [|done]. destruct (one_completion body); [|done].
  injection Hr as ->. destruct (lookUp_external _ _ _ _ El Hx) as (x & _ & Hf & ->). cbn [cat_external] in Hf.
  apply find_model_rebuild in Hf as (row & e & Hre & Hid & Hv & ->); [|done].
  injection Hx as <-. exists row, e. by split_and!.
Qed.

Lemma map_get_some {A} k (v : A) m : map_get k m = Some v -> (k, v) ∈ m.
Proof.
  unfold map_get. destruct (find_first _ m) as [[j w]|] eqn:E; [|done]. intros [= <-].
  apply find_first_some in E as [H Hj]. cbn in Hj. apply jeqb_eq in Hj as ->. done.
Qed.

Lemma map_get_in {A} k (v : A) m : (k, v) ∈ m -> is_Some (map_get k m).
Proof.
  intros H. unfold map_get. destruct (find_first _ m) as [kv|] eqn:E; [by eexists|].
  rewrite find_first_none in E. specialize (E _ H). cbn in E. by rewrite jeqb_refl in E.
Qed.

(** The keys of the configured models are their identifiers. *)
Definition keyed (c : Catalogues) : Prop := forall k m, (k, m) ∈ cs_models (cat_config c) -> k = cnm_id m.

Lemma lookUp_id c id m : keyed c -> lookUp c id = Some (routable_resolution m) -> rm_id m = id.
Proof.
  intros Hk. unfold lookUp. destruct (find_config _ id) as [x|] eqn:E.
  - intros [= <-]. apply map_get_some, Hk in E. done.
  - destruct (find_model _ id) as [x|] eqn:E2; [|by destruct (findUnadmitted _ id)].
    intros [= <-]. apply find_first_some in E2 as [_ Hj]. by apply jeqb_eq in Hj.
Qed.

Lemma filter_elem {A} (p : A -> bool) x l : x ∈ List.filter p l <-> x ∈ l /\ p x = true.
Proof. by rewrite !list_elem_of_In, List.filter_In. Qed.

Lemma listed_lookup c key id : keyed c ->
  (exists m, m ∈ listModels c key /\ rm_id m = id) <->
  in_scope (ak_modelScope key) id = true /\ exists m, lookUp c id = Some (routable_resolution m).
Proof.
  intros Hk. unfold listModels. split.
  - intros (m & [Hm|Hm]%elem_of_app & Hid); apply list_elem_of_fmap in Hm as (x & -> & Hx).
    + apply filter_elem in Hx as [Hx Hs]. apply list_elem_of_fmap in Hx as ([k y] & -> & Hx). cbn in Hid, Hs. subst id.
      split; [done|]. rewrite (Hk _ _ Hx) in Hx. apply map_get_in in Hx as [z Hz].
      unfold lookUp, find_config. rewrite Hz. eauto.
    + cbn in Hid. subst id. unfold list_models in Hx. assert (x ∈ models (cat_external c) /\ in_scope (ak_modelScope key) (cm_id x) = true) as [Hin Hs].
      { destruct (ak_modelScope key); [by apply filter_elem in Hx|done]. }
      split; [done|]. unfold lookUp. destruct (find_config _ _); [eauto|].
      destruct (find_model _ _) eqn:E; [eauto|]. unfold find_model in E. rewrite find_first_none in E.
      specialize (E _ Hin). by rewrite jeqb_refl in E.
  - intros (Hs & m & Hl). pose proof (lookUp_id c id m Hk Hl) as Hid. exists m. split; [|done]. unfold lookUp in Hl.
    destruct (find_config _ id) as [x|] eqn:E.
    + injection Hl as <-. apply elem_of_app. left. apply list_elem_of_fmap_2, filter_elem. cbn in Hid. rewrite Hid.
      split; [|done]. apply map_get_some in E. by apply (list_elem_of_fmap_2 snd) in E.
    + destruct (find_model _ id) as [x|] eqn:E2; [|by destruct (findUnadmitted _ id)]. injection Hl as <-.
      apply elem_of_app. right. apply list_elem_of_fmap_2. cbn in Hid. apply find_first_some in E2 as [Hin _].
      unfold list_models. destruct (ak_modelScope key); [|done]. apply filter_elem. by rewrite Hid.
Qed.

(** What [GET /v1/models] lists and what a request resolves are one rule: a model is
    listed for a key exactly when a request that names it and asks for one
    completion is, on every route, either served by it or refused for the route
    alone. *)
Theorem listed_iff_resolved c key body id :
  keyed c -> nonempty_json (member "model" body) = Some id -> one_completion body = true ->
  (exists m, m ∈ listModels c key /\ rm_id m = id) <->
  forall kind, match resolve c kind body key with
               | Ok m => rm_id m = id
               | Err e => resultOf e = Some unsupported_route_demand
               end.
Proof.
  intros Hk Hid Hn. rewrite listed_lookup by done. unfold resolve. rewrite Hid, Hn. split.
  - intros (Hs & m & Hl) kind. rewrite Hl, Hs. cbn [negb]. destruct (servesRoute _ _); cbn [negb]; [|done].
    by apply (lookUp_id c).
  - intros H. specialize (H route_chat). destruct (lookUp c id) as [r|]; [|done].
    destruct (in_scope _ id); cbn [negb] in H; [|done]. destruct r as [m|u]; [|done]. eauto.
Qed.

(** Admission refuses in the order a client can act on, and a refusal for credit or for
    the key's spend limit costs no budget: the request is admitted exactly when the
    workspace exists and can spend, the key is under its limit and the budgets
    grant it; otherwise the first of those that fails names the error. *)
Theorem admission_order config db auth now buckets :
  let '(buckets', answer) := admit_request config db auth now buckets in
  let credit := balanceOf (pl_allowOverdraftMicros config) db (au_workspaceId auth) in
  let '(granted, verdict) := admit_limits sweep (pl_rateLimits config) (au_key auth) now buckets in
  match answer with
  | Ok headers =>
      buckets' = granted /\ verdict = Ok headers /\
      (exists w, workspaces db !! au_workspaceId auth = Some w /\ 0 < balanceMicros w + pl_allowOverdraftMicros config) /\
      (forall l, ak_spendLimitMicros (au_key auth) = Some l -> ak_spentTotalMicros (au_key auth) < l)
  | Err (Service e) => buckets' = buckets /\ credit = Err e
  | Err (Api e) =>
      (oe_status e = 402 /\ buckets' = buckets /\
         ((exists b, credit = Ok b /\ cb_spendable b = false /\ e = insufficientCredits) \/
          (exists b l, credit = Ok b /\ cb_spendable b = true /\ ak_spendLimitMicros (au_key auth) = Some l /\
             l <= ak_spentTotalMicros (au_key auth) /\ e = keySpendLimitReached))) \/
      (oe_status e = 429 /\ buckets' = granted /\ exists r, verdict = Err r /\ e = refusal_error r)
  end.
Proof.
  unfold admit_request. destruct (balanceOf _ db _) as [b|e] eqn:Eb.
  2:{ destruct (admit_limits _ _ _ _ _). by split. }
  destruct (cb_spendable b) eqn:Es; cbn [negb].
  2:{ destruct (admit_limits _ _ _ _ _). left. split_and!; [done..|]. left. by exists b. }
  destruct (match ak_spendLimitMicros _ with Some l => _ | None => _ end) eqn:El.
  { destruct (admit_limits _ _ _ _ _). left. split_and!; [done..|]. right.
    destruct (ak_spendLimitMicros (au_key auth)) as [l|] eqn:E; [|done]. exists b, l. split_and!; try done. by apply Z.leb_le. }
  destruct (admit_limits _ _ _ _ _) as [granted [headers|r]].
  - split_and!; try done.
    + unfold balanceOf in Eb. destruct (workspaces db !! _) as [w|] eqn:Ew; [|done]. injection Eb as <-.
      exists w. split; [done|]. by apply Z.ltb_lt in Es.
    + intros l Hl. rewrite Hl in El. by apply Z.leb_gt in El.
  - right. split_and!; [done..|]. by exists r.
Qed.

(** ** Witnesses *)

Definition plain_key (scope : option (list jstr)) : ApiKey :=
  {| ak_id := "k"; ak_workspaceId := "w"; ak_name := "n"; ak_keyHash := "h"; ak_prefix := "sk-tee-v1-ab";
     ak_purpose := None; ak_modelScope := scope; ak_spendLimitMicros := None; ak_spentTotalMicros := 0;
     ak_requestsPerMinute := None; ak_tokensPerMinute := None; ak_expiresAt := None; ak_lastUsedAt := None;
     ak_revokedAt := None; ak_createdByUserId := None; ak_createdAt := 0 |}.

Definition asking (id : jstr) : json := JObject [("model" : jstr, JString id)].

Lemma external_routes_are_verified_witness :
  match resolve {| cat_config := catalog_service_initial;
                   cat_external := rebuild [ExternalCatalog.example_model] [ExternalCatalog.example_endpoint verified] |}
          route_completions (asking "acme/large") (plain_key None) with
  | Ok m => match rm_external m with Some r => er_baseUrl r = "http://127.0.0.1:9001" /\ er_apiKeyCiphertext r = "sealed" | None => False end
  | Err _ => False
  end.
Proof.
  destruct (resolve _ _ _ _) as [m|e] eqn:E; [|vm_compute in E; discriminate E].
  destruct (rm_external m) as [r|] eqn:Er; [|vm_compute in E; injection E as <-; discriminate Er].
  destruct (external_routes_are_verified _ [ExternalCatalog.example_model] [ExternalCatalog.example_endpoint verified] _ _ _ m r
                (NoDup_singleton _) E Er)
    as (row & e & (Hrow & _ & _ & He) & _ & _ & _ & _ & _ & Hu & Hk & _).
  apply list_elem_of_singleton in Hrow as ->. vm_compute in He. injection He as <-. by rewrite Hu, Hk.
Defined.

Lemma listed_iff_resolved_witness :
  let c := {| cat_config := catalog_service_initial;
              cat_external := rebuild [ExternalCatalog.example_model] [ExternalCatalog.example_endpoint denied] |} in
  ~ (exists m, m ∈ listModels c (plain_key None) /\ rm_id m = "acme/large") /\
  resultOf match resolve c route_chat (asking "acme/large") (plain_key None) with Ok _ => internal | Err e => e end = Some not_verified.
Proof.
  cbv zeta. split; [|vm_compute; reflexivity].
  rewrite (listed_iff_resolved _ (plain_key None) (asking "acme/large") "acme/large"); [|intros k m H; by apply elem_of_nil in H|vm_compute; reflexivity..].
  intros H. specialize (H route_chat). vm_compute in H. discriminate H.
Defined.
