(* ===== verification/ClientDimension.v ===== *)
(** * Which client sent a request

    [api/v1/client-dimension.ts]: the label a request is metered under.  The bytes of a
    header reach the program as Latin-1, so a value's units are below 256. *)

From S2P Require Import Prelude JsString.

Inductive GenerationClient :=
| vscode_chat | cline | roo | continue_ | cursor | claude_code | openai_python | openai_node | litellm | langchain
| curl | other.

#[global] Instance client_eq_dec : EqDecision GenerationClient.
Proof. solve_decision. Defined.

Definition GENERATION_CLIENTS : list GenerationClient :=
  [vscode_chat; cline; roo; continue_; cursor; claude_code; openai_python; openai_node; litellm; langchain; curl; other].

(** [string | string[]] *)
Inductive HeaderValue := One (s : jstr) | Many (l : list jstr).

(** The request's headers by lower-case name. *)
Definition HeaderBag := jstr -> option HeaderValue.

Definition PRODUCT_HEADERS : list jstr := ["user-agent"; "x-onbehalf-extension-id"].

Definition CALLER_TITLE_HEADER : jstr := "x-title".

Definition MAX_HEADER_LENGTH : Z := 200.

(** The first row that matches wins. *)
Definition CLIENT_TABLE : list (jstr * GenerationClient) :=
  [("copilotchat" : jstr, vscode_chat); ("roocode" : jstr, roo); ("cline" : jstr, cline); ("continue/" : jstr, continue_);
   ("cursor/" : jstr, cursor); ("claudecli/" : jstr, claude_code); ("claudecode/" : jstr, claude_code);
   ("langchain" : jstr, langchain); ("litellm" : jstr, litellm); ("openai/python" : jstr, openai_python);
   ("openai/js" : jstr, openai_node); ("curl/" : jstr, curl)].

(** [toLowerCase] below 256: ASCII letters and the accented capitals. *)
Definition lower_latin1 (c : N) : N :=
  if is_upper c || (192 <=? c)%N && (c <=? 222)%N && negb (c =? 215)%N then (c + 32)%N else c.

Definition separator (c : N) : bool := (c =? 45)%N || (c =? 95)%N || is_space c.

Definition normalise (value : jstr) : jstr :=
  Js (List.filter (fun c => negb (separator c)) (map lower_latin1 (units value))).

Definition headerValue (headers : option HeaderBag) (name : jstr) : jstr :=
  match headers ≫= (fun h => h name) with
  | Some (One s) | Some (Many (s :: _)) => normalise (jtake MAX_HEADER_LENGTH s)
  | Some (Many []) | None => Js []
  end.

Fixpoint first_client (product title : jstr) (table : list (jstr * GenerationClient)) : GenerationClient :=
  match table with
  | [] => other
  | (needle, client) :: rest =>
      if jincludes product needle || jeqb title needle then client else first_client product title rest
  end.

Definition clientOf (headers : option HeaderBag) : GenerationClient :=
  let product := jjoin "|" (map (headerValue headers) PRODUCT_HEADERS) in
  first_client product (headerValue headers CALLER_TITLE_HEADER) CLIENT_TABLE.

(** ** Lemmas *)

Lemma index_of_includes p s : (exists i, index_of p s = Some i) <-> exists a b, s = a ++ p ++ b.
Proof.
  split.
  - intros [i Hi]. revert i Hi; induction s as [|c s IH]; intros i; cbn [index_of].
    + destruct (prefixb p []) eqn:E; [|done]. intros _. apply prefixb_spec in E as [r E]. exists [], r. done.
    + destruct (prefixb p (c :: s)) eqn:E; [intros _; apply prefixb_spec in E as [r E]; by exists [], r|].
      destruct (index_of p s) as [j|]; [|done]. intros _. destruct (IH j eq_refl) as (a & b & ->). by exists (c :: a), b.
  - intros (a & b & ->). induction a as [|c a [i IH]].
    + assert (prefixb p (p ++ b) = true) as H by (apply prefixb_spec; by exists b).
      exists O. destruct (p ++ b) eqn:E; cbn [app index_of]; by rewrite E, H || rewrite H.
    + cbn [app index_of]. destruct (prefixb p _); [by exists O|]. rewrite IH. by eexists.
Qed.

Lemma jincludes_spec s p : jincludes s p = true <-> exists a b, units s = a ++ units p ++ b.
Proof.
  rewrite <- index_of_includes. unfold jincludes. destruct (index_of _ _) as [i|]; split; try done; [by eexists|].
  by intros [? ?].
Qed.

(** A text without the separator occurs in a joined pair when it occurs in a part. *)
Lemma includes_joined c a b p : c ∉ units p ->
  jincludes (a +++ Js [c] +++ b) p = jincludes a p || jincludes b p.
Proof.
  intros Hc. apply eq_true_iff_eq. rewrite orb_true_iff, !jincludes_spec. cbn [units japp app]. split.
  - intros (x & y & E). apply app_eq_app in E as [l [[E1 E2]|[E1 E2]]].
    + apply app_eq_app in E2 as [k [[E3 E4]|[E3 E4]]]; [|left; exists x, k; by rewrite E1, E3].
      destruct k as [|e k]; [left; exists x, []; by rewrite E1, E3, !app_nil_r|]. injection E4 as -> _.
      destruct Hc. rewrite E3. apply elem_of_app. right. left.
    + destruct l as [|d l]; [|injection E2 as <- E2; right; by exists l, y].
      destruct (units p) as [|d p']; [by left; exists [], (units a)|]. injection E2 as <- _. destruct Hc. left.
  - intros [(x & y & ->)|(x & y & ->)].
    + exists x, (y ++ c :: units b). by rewrite <- !app_assoc.
    + exists (units a ++ c :: x), y. by rewrite <- !app_assoc.
Qed.

(** A label is the first row of the table that one product header contains or that
    the caller's title is; the joined value can never match across two headers; and
    [other] means that no row does. *)
Theorem client_is_first_row headers :
  let agent := headerValue headers "user-agent" in
  let extension := headerValue headers "x-onbehalf-extension-id" in
  let title := headerValue headers CALLER_TITLE_HEADER in
  let matches (needle : jstr) := jincludes agent needle || jincludes extension needle || jeqb title needle in
  clientOf headers = match find_first (fun row => matches (fst row)) CLIENT_TABLE with Some row => snd row | None => other end /\
  (clientOf headers = other -> forall needle client, (needle, client) ∈ CLIENT_TABLE -> matches needle = false).
Proof.
  cbv zeta. set (agent := headerValue headers "user-agent"). set (extension := headerValue headers "x-onbehalf-extension-id").
  set (title := headerValue headers CALLER_TITLE_HEADER).
  assert (clientOf headers = first_client (agent +++ Js [124%N] +++ extension) title CLIENT_TABLE) as -> by done.
  assert (Forall (fun row => 124%N ∉ units (fst row) /\ snd row <> other) CLIENT_TABLE) as Hall.
  { apply (bool_decide_unpack _). vm_compute. exact I. }
  induction CLIENT_TABLE as [|[needle client] table IH]; [split; [done|intros _ ? ? H; by apply elem_of_nil in H]|].
  apply Forall_cons in Hall as [[Hs Hne] Hall]. cbn [fst snd] in *. specialize (IH Hall) as [IH1 IH2].
  cbn [first_client find_first List.find fst snd]. rewrite includes_joined by done.
  destruct (jincludes agent needle || jincludes extension needle || jeqb title needle) eqn:E.
  - split; [done|]. intros ->. done.
  - split; [exact IH1|]. intros Ho n c [[= -> ->]|Hin]%elem_of_cons; [done|]. by apply (IH2 Ho n c).
Qed.
