(* ===== verification/ResponseShaping.v ===== *)
(** * Shaping an upstream's answer

    [api/v1/response-shaping.ts], [metering/token-estimator.ts] and
    [api/v1/completions-bridge.ts]: what the router reads off a chunk, how it counts
    tokens nobody reported, what it rewrites, and the translation of a legacy
    completion to a chat request and back.  A shaped payload is the upstream's own
    object rewritten in place; no code reads the original afterwards, so the model
    returns the new value. *)

From S2P Require Import Prelude JsString Json Money OpenAiError.

(** ** Token estimates *)

Definition CHARS_PER_TOKEN : Z := 4.

Inductive char_class := letter_class | digit_class | other_class | blank_class.

#[global] Instance char_class_eq_dec : EqDecision char_class.
Proof. solve_decision. Defined.

(** The alternatives of [RUNS]; the halves of a surrogate pair are both of the third. *)
Definition class_of (c : N) : char_class :=
  if is_upper c || is_lower c then letter_class
  else if is_digit c then digit_class
  else if is_space c then blank_class
  else other_class.

(** Maximal stretches of one class. *)
Fixpoint stretches (u : list N) : list (char_class * Z) :=
  match u with
  | [] => []
  | c :: u =>
      match stretches u with
      | (k, n) :: rest => if bool_decide (class_of c = k) then (k, n + 1) :: rest else (class_of c, 1) :: (k, n) :: rest
      | [] => [(class_of c, 1)]
      end
  end.

(** [text.matchAll(RUNS)]: the lengths of the stretches an alternative matches. *)
Definition runs (u : list N) : list Z :=
  map snd (List.filter (fun s => negb (bool_decide (fst s = blank_class))) (stretches u)).

Definition estimateTokens (text : jstr) : Z :=
  sumZ (map (fun run => ceil_div run CHARS_PER_TOKEN) (runs (units text))).

Definition MESSAGE_OVERHEAD_TOKENS : Z := 4.

Fixpoint estimate_json (content : json) : Z :=
  match content with
  | JString s => estimateTokens s
  | JArray parts => sumZ (map estimate_json parts)
  | JObject _ => match member "text" content with Some (JString s) => estimateTokens s | _ => 0 end
  | _ => 0
  end.

Definition estimateContent (content : option json) : Z :=
  match content with Some v => estimate_json v | None => 0 end.

(** [message?.content]: a message of another type has no such property. *)
Definition estimatePromptTokens (body : json) : Z :=
  match member "messages" body with
  | Some (JArray messages) =>
      sumZ (map (fun m => MESSAGE_OVERHEAD_TOKENS + estimateContent (member "content" m)) messages)
  | _ => estimateContent (member "prompt" body) + estimateContent (member "input" body)
  end.

(** ** Reading a payload *)

Record UsageExtension := { ux_costMicros : Z; ux_endpoint : jstr; ux_evidenceDigest : option jstr }.

Definition readUsage (payload : json) : option TokenUsage :=
  usage ← asRecord (chain (asRecord (Some payload)) "usage");
  match asCount (member "prompt_tokens" usage), asCount (member "completion_tokens" usage) with
  | None, None => None
  | p, c => Some {| promptTokens := default 0 p; completionTokens := default 0 c |}
  end.

Definition choices_of (payload : json) : option (list json) :=
  array_items (chain (asRecord (Some payload)) "choices").

(** [asRecord(record?.delta) ?? asRecord(record?.message)] *)
Definition delta_of (record : option json) : option json :=
  coalesce (asRecord (chain record "delta")) (asRecord (chain record "message")).

Definition delta_text (choice : json) : jstr :=
  let record := asRecord (Some choice) in
  match coalesce (chain (delta_of record) "content") (chain record "text") with
  | Some (JString s) => s
  | _ => Js []
  end.

Definition deltaTextOf (chunk : json) : jstr :=
  match choices_of chunk with
  | Some choices => jjoin (Js []) (map delta_text choices)
  | None => Js []
  end.

Definition isPresent (value : option json) : bool :=
  match value with
  | Some (JString s) => negb (jlength s =? 0)
  | Some (JArray items) => negb (Z.of_nat (length items) =? 0)
  | Some (JObject _) => true
  | _ => false
  end.

Definition choice_output (choice : json) : bool :=
  let record := asRecord (Some choice) in
  let delta := delta_of record in
  isPresent (chain delta "content") || isPresent (chain record "text") || isPresent (chain delta "refusal") ||
  isPresent (chain delta "reasoning_content") || isPresent (chain delta "reasoning") ||
  isPresent (chain delta "tool_calls") || isPresent (chain delta "function_call").

Definition hasAssistantOutput (chunk : json) : bool :=
  match choices_of chunk with Some choices => existsb choice_output choices | None => false end.

Fixpoint first_reason (choices : list json) : option jstr :=
  match choices with
  | [] => None
  | choice :: rest =>
      match chain (asRecord (Some choice)) "finish_reason" with
      | Some (JString reason) => Some reason
      | _ => first_reason rest
      end
  end.

Definition finishReasonOf (chunk : json) : option jstr :=
  match choices_of chunk with Some choices => first_reason choices | None => None end.

(** ** Rewriting a payload *)

(** [if (name in payload) payload[name] = value] *)
Definition replace_member (name : jstr) (v : json) (o : json) : json :=
  match member name o with Some _ => with_member name v o | None => o end.

Definition extended_usage (extension : UsageExtension) (usage : json) : json :=
  let total := default 0 (asCount (member "prompt_tokens" usage)) + default 0 (asCount (member "completion_tokens" usage)) in
  let usage := match member "total_tokens" usage with
               | None | Some JNull => with_member "total_tokens" (JInt total) usage
               | Some _ => usage
               end in
  let usage := with_member "cost_micros" (JInt (ux_costMicros extension)) usage in
  let usage := with_member "endpoint" (JString (ux_endpoint extension)) usage in
  with_member "evidence_digest" (match ux_evidenceDigest extension with Some d => JString d | None => JNull end) usage.

Definition shapeResponse (payload : json) (generationId modelId : jstr) (extension : option UsageExtension) : json :=
  let payload := replace_member "id" (JString generationId) payload in
  let payload := replace_member "model" (JString modelId) payload in
  match asRecord (member "usage" payload), extension with
  | Some usage, Some extension => with_member "usage" (extended_usage extension usage) payload
  | _, _ => payload
  end.

(** ** The bridge of [/v1/completions] to a chat model *)

Definition positive_number (above : Z) (v : option json) : bool :=
  match v with Some (JNumber text) => exceeds above text | _ => false end.

Record LegacyParam := { lp_param : jstr; lp_asked : option json -> bool; lp_because : jstr }.

Definition UNTRANSLATABLE : list LegacyParam :=
  [{| lp_param := "suffix";
      lp_asked := fun v => match v with Some (JString s) => negb (jlength s =? 0) | _ => false end;
      lp_because := "infilling needs the backend's own completions route; declare " +++ quote "completions" +++
                    " on the model to use it" |};
   {| lp_param := "echo";
      lp_asked := fun v => match v with Some (JBool b) => b | _ => false end;
      lp_because := "the chat route cannot echo the prompt back" |};
   {| lp_param := "logprobs"; lp_asked := positive_number 0;
      lp_because := "the chat route reports log probabilities in a different shape" |};
   {| lp_param := "best_of"; lp_asked := positive_number 1;
      lp_because := "the router meters one completion per request" |}].

Definition is_string (v : json) : bool := match v with JString _ => true | _ => false end.

Definition promptTextOf (prompt : option json) : result OpenAiApiError jstr :=
  match prompt with
  | Some (JString s) => Ok s
  | Some (JArray [JString s]) => Ok s
  | Some (JArray entries) =>
      Err (unsupportedParameter "prompt"
        (if forallb is_string entries
         then "Only one prompt per request is supported; the router meters one completion per request."
         else "A pre-tokenised prompt is not supported: send the text, not token ids."))
  | _ => Err (missingField "prompt")
  end.

(** The first parameter the client asked for and chat cannot express. *)
Definition refused_param (body : json) : option LegacyParam :=
  find_first (fun p => lp_asked p (member (lp_param p) body)) UNTRANSLATABLE.

Definition user_message (prompt : jstr) : json :=
  JObject [("role" : jstr, JString "user"); ("content" : jstr, JString prompt)].

Definition chatBodyForPrompt (body : json) : result OpenAiApiError json :=
  prompt ← promptTextOf (member "prompt" body);
  match refused_param body with
  | Some p => Err (unsupportedParameter (lp_param p)
                     (quote (lp_param p) +++ " is not supported on /v1/completions for this model: " +++ lp_because p +++ "."))
  | None =>
      let translated := set_member "messages" (JArray [user_message prompt]) (spread body) in
      Ok (JObject (foldl (fun m key => delete_member key m) translated (("prompt" : jstr) :: map lp_param UNTRANSLATABLE)))
  end.

(** [choicesOf]: what is not an object reads as an empty one. *)
Definition choicesOf (payload : json) : list json :=
  match array_items (member "choices" payload) with
  | Some choices => map (fun c => if is_object c then c else JObject []) choices
  | None => []
  end.

Definition textOf (part : option json) : jstr :=
  match chain part "content" with Some (JString s) => s | _ => Js [] end.

Definition text_choice (part : jstr) (index : Z) (choice : json) : json :=
  JObject [("index" : jstr, match member "index" choice with Some (JNumber n) => JNumber n | _ => JInt index end);
           ("text" : jstr, JString (textOf (member part choice)));
           ("logprobs" : jstr, JNull);
           ("finish_reason" : jstr, default JNull (coalesce (member "finish_reason" choice) (Some JNull)))].

Definition text_payload (part : jstr) (payload : json) : json :=
  JObject (set_member "choices" (JArray (imap (fun i c => text_choice part (Z.of_nat i) c) (choicesOf payload)))
    (set_member "object" (JString "text_completion") (spread payload))).

Definition textCompletionOf : json -> json := text_payload "message".

Definition textCompletionChunkOf : json -> json := text_payload "delta".

(** ** Lemmas: estimates *)

Definition weigh (s : list (char_class * Z)) : Z :=
  sumZ (map (fun run => ceil_div run CHARS_PER_TOKEN)
          (map snd (List.filter (fun s => negb (bool_decide (fst s = blank_class))) s))).

(** Two texts side by side: the last stretch of one may continue in the other. *)
Fixpoint merge (a b : list (char_class * Z)) : list (char_class * Z) :=
  match a with
  | [] => b
  | [(k, n)] => match b with
                | (k', m) :: b' => if bool_decide (k = k') then (k, n + m) :: b' else (k, n) :: b
                | [] => [(k, n)]
                end
  | s :: a => s :: merge a b
  end.

Lemma merge_cons s s' a b : merge (s :: s' :: a) b = s :: merge (s' :: a) b.
Proof. by destruct s. Qed.

Lemma stretches_app u v : stretches (u ++ v) = merge (stretches u) (stretches v).
Proof.
  induction u as [|c u IH]; [done|]. cbn [app stretches]. rewrite IH. destruct (stretches u) as [|[k n] [|s rest]].
  - cbn. destruct (stretches v) as [|[k m] b]; [done|]. destruct (bool_decide (class_of c = k)) eqn:E; [|done].
    apply bool_decide_eq_true in E as ->. by rewrite Z.add_comm.
  - cbn. destruct (stretches v) as [|[k' m] b].
    + by destruct (bool_decide (class_of c = k)).
    + destruct (bool_decide (k = k')) eqn:E, (bool_decide (class_of c = k)) eqn:E'; cbn; rewrite ?E; try done. f_equal. f_equal. lia.
  - rewrite merge_cons. by destruct (bool_decide (class_of c = k)).
Qed.

Lemma weigh_cons k n s :
  weigh ((k, n) :: s) = (if bool_decide (k = blank_class) then 0 else ceil_div n CHARS_PER_TOKEN) + weigh s.
Proof. unfold weigh. cbn [List.filter fst]. by destruct (bool_decide (k = blank_class)). Qed.

Lemma ceil_bounds n : n <= CHARS_PER_TOKEN * ceil_div n CHARS_PER_TOKEN < n + CHARS_PER_TOKEN.
Proof.
  unfold ceil_div, CHARS_PER_TOKEN. pose proof (Z.div_mod (- n) 4 ltac:(lia)).
  pose proof (Z.mod_pos_bound (- n) 4 ltac:(lia)). lia.
Qed.

Lemma ceil_add n m :
  ceil_div (n + m) CHARS_PER_TOKEN <= ceil_div n CHARS_PER_TOKEN + ceil_div m CHARS_PER_TOKEN <= ceil_div (n + m) CHARS_PER_TOKEN + 1.
Proof.
  pose proof (ceil_bounds n). pose proof (ceil_bounds m). pose proof (ceil_bounds (n + m)). unfold CHARS_PER_TOKEN in *. lia.
Qed.

Lemma weigh_merge a b : weigh (merge a b) <= weigh a + weigh b <= weigh (merge a b) + 1.
Proof.
  induction a as [|[k n] [|s a] IH].
  - cbn [merge]. change (weigh []) with 0. lia.
  - cbn [merge]. destruct b as [|[k' m] b]; [change (weigh []) with 0; lia|].
    destruct (bool_decide (k = k')) eqn:E.
    + apply bool_decide_eq_true in E as <-. rewrite !weigh_cons. change (weigh []) with 0. pose proof (ceil_add n m).
      destruct (bool_decide (k = blank_class)); lia.
    + rewrite !weigh_cons. change (weigh []) with 0. lia.
  - rewrite merge_cons, !(weigh_cons k). lia.
Qed.

Lemma stretches_count u :
  Forall (fun s => 1 <= snd s) (stretches u) /\
  sumZ (map (fun s : char_class * Z => if bool_decide (fst s = blank_class) then 0 else snd s) (stretches u)) =
  Z.of_nat (length (List.filter (fun c => negb (is_space c)) u)).
Proof.
  induction u as [|c u [Hp Hs]]; [done|]. cbn [stretches List.filter].
  assert (is_space c = bool_decide (class_of c = blank_class)) as ->.
  { unfold class_of. destruct (is_upper c || is_lower c) eqn:El; [|destruct (is_digit c) eqn:Ed; [|by destruct (is_space c)]].
    - change (is_space c = false). apply not_true_iff_false. unfold is_upper, is_lower in El. unfold is_space.
      rewrite !orb_true_iff, !andb_true_iff, !N.leb_le in *. rewrite !N.eqb_eq. lia.
    - by apply digit_not_space. }
  destruct (stretches u) as [|[k n] rest]; [|destruct (bool_decide (class_of c = k)) eqn:E].
  - split; [by repeat constructor|]. cbn [map fst snd sumZ foldr] in *.
    destruct (bool_decide (class_of c = blank_class)); cbn [negb length]; lia.
  - apply bool_decide_eq_true in E as ->. apply Forall_cons in Hp as [Hn Hp]. split; [constructor; [cbn in *; lia|done]|].
    cbn [map fst snd] in *. destruct (bool_decide (k = blank_class)); cbn [negb length];
      cbn [sumZ foldr] in *; lia.
  - apply Forall_cons in Hp as [Hn Hp]. split; [repeat constructor; done|].
    cbn [map fst snd] in *. destruct (bool_decide (class_of c = blank_class)); cbn [negb length];
      cbn [sumZ foldr] in *; lia.
Qed.

Lemma weigh_bounds s : Forall (fun s => 1 <= snd s) s ->
  let size := sumZ (map (fun s : char_class * Z => if bool_decide (fst s = blank_class) then 0 else snd s) s) in
  weigh s <= size <= CHARS_PER_TOKEN * weigh s.
Proof.
  induction 1 as [|[k n] s Hn _ IH]; [done|]. cbn zeta in *. rewrite weigh_cons. cbn [map fst snd sumZ foldr] in *.
  fold (sumZ (map (fun s : char_class * Z => if bool_decide (fst s = blank_class) then 0 else snd s) s)).
  pose proof (ceil_bounds n). unfold CHARS_PER_TOKEN in *. destruct (bool_decide (k = blank_class)); lia.
Qed.

(** The fallback count of a streamed completion, which adds the estimates of the
    deltas, stays between the estimate of the whole text and that estimate plus one
    token per delta; and an estimate never exceeds the characters that are not
    blanks, nor falls below a quarter of them. *)
Theorem streamed_estimate_close deltas :
  let whole := jjoin (Js []) deltas in
  estimateTokens whole <= sumZ (map estimateTokens deltas) <= estimateTokens whole + Z.of_nat (length deltas) /\
  let visible := Z.of_nat (length (List.filter (fun c => negb (is_space c)) (units whole))) in
  estimateTokens whole <= visible <= CHARS_PER_TOKEN * estimateTokens whole.
Proof.
  assert (forall t, estimateTokens t = weigh (stretches (units t))) as Hw by done.
  split; [|rewrite Hw; destruct (stretches_count (units (jjoin (Js []) deltas))) as [Hp Hs]; pose proof (weigh_bounds _ Hp) as H; cbn zeta in H; rewrite Hs in H; done].
  induction deltas as [|d ds IH]; [done|].
  assert (units (jjoin (Js []) (d :: ds)) = units d ++ units (jjoin (Js []) ds)) as Hu.
  { destruct ds; cbn; [by rewrite app_nil_r|done]. }
  rewrite (Hw (jjoin _ (d :: ds))), Hu, stretches_app. pose proof (weigh_merge (stretches (units d)) (stretches (units (jjoin (Js []) ds)))).
  rewrite <- !Hw in *. cbn [map sumZ foldr length]. fold (sumZ (map estimateTokens ds)). lia.
Qed.

(** ** Lemmas: members *)

Lemma member_deletes name keys m :
  member name (JObject (foldl (fun m key => delete_member key m) m keys)) =
  if existsb (jeqb name) keys then None else member name (JObject m).
Proof.
  revert m; induction keys as [|k keys IH]; intros m; [done|]. cbn [foldl existsb]. rewrite IH.
  destruct (existsb _ keys); [by rewrite orb_true_r|]. rewrite orb_false_r. destruct (jeqb name k) eqn:E.
  - apply jeqb_eq in E as <-. apply member_delete_eq.
  - apply jeqb_neq in E. by apply member_delete_ne.
Qed.

Lemma member_with name v name' o : is_record o = true ->
  member name (with_member name' v o) = if jeqb name name' then Some v else member name o.
Proof.
  destruct o as [| | | | |m]; try done. intros _. cbn [with_member]. destruct (jeqb name name') eqn:E.
  - apply jeqb_eq in E as <-. apply member_set_eq.
  - apply jeqb_neq in E. by apply member_set_ne.
Qed.

Lemma with_record name v o : is_record (with_member name v o) = is_record o.
Proof. by destruct o. Qed.

Lemma member_record name v o : member name o = Some v -> is_record o = true.
Proof. by destruct o. Qed.

Lemma replace_record name v o : is_record (replace_member name v o) = is_record o.
Proof. unfold replace_member. destruct (member name o); [apply with_record|done]. Qed.

Lemma member_replace name v name' o :
  member name (replace_member name' v o) = if jeqb name name' then (fun _ => v) <$> member name o else member name o.
Proof.
  unfold replace_member. destruct (member name' o) eqn:E.
  - rewrite member_with by (by eapply member_record). destruct (jeqb name name') eqn:Ej; [|done].
    apply jeqb_eq in Ej as ->. by rewrite E.
  - destruct (jeqb name name') eqn:Ej; [|done]. apply jeqb_eq in Ej as ->. by rewrite E.
Qed.

#[export] Hint Rewrite member_with member_replace with_record replace_record using done : router.

(** A legacy completion is translated exactly when its prompt is one text and it asks
    for nothing chat cannot express: the chat body carries the prompt as the one user
    message and every other member unchanged, and none of the legacy parameters; a
    request that is not translated is a 400 that names the parameter. *)
Theorem bridge_translates m :
  let body := JObject m in
  let legacy := ("prompt" : jstr) :: map lp_param UNTRANSLATABLE in
  match chatBodyForPrompt body with
  | Ok chat =>
      exists prompt,
        (member "prompt" body = Some (JString prompt) \/ member "prompt" body = Some (JArray [JString prompt])) /\
        refused_param body = None /\
        member "messages" chat = Some (JArray [user_message prompt]) /\
        estimatePromptTokens chat = MESSAGE_OVERHEAD_TOKENS + estimateTokens prompt /\
        forall name, name <> "messages" -> member name chat = if existsb (jeqb name) legacy then None else member name body
  | Err e =>
      oe_status e = 400 /\
      ((oe_param e = Some ("prompt" : jstr) /\ is_ok (promptTextOf (member "prompt" body)) = false) \/
       exists p, p ∈ UNTRANSLATABLE /\ oe_param e = Some (lp_param p) /\ lp_asked p (member (lp_param p) body) = true)
  end.
Proof.
  cbv zeta. unfold chatBodyForPrompt. destruct (promptTextOf _) as [prompt|e] eqn:Ep.
  - cbn [mbind result_bind]. destruct (refused_param _) as [p|] eqn:Er.
    + apply find_first_some in Er as [Hin Ha]. split; [done|]. right. by exists p.
    + exists prompt. cbn [spread]. set (keys := _ :: map lp_param _).
      assert (member "messages" (JObject (foldl (fun m key => delete_member key m)
                (set_member "messages" (JArray [user_message prompt]) m) keys)) = Some (JArray [user_message prompt])) as Hm.
      { rewrite member_deletes. change (existsb _ keys) with false. by rewrite member_set_eq. }
      split_and!; [|done|exact Hm|unfold estimatePromptTokens; rewrite Hm; cbn [map sumZ foldr];
        change (estimateContent _) with (estimateTokens prompt); lia|].
      * destruct (member "prompt" (JObject m)) as [[| | |s|[|[| | |s| |] []]|]|]; try discriminate Ep; injection Ep as ->; eauto.
      * intros name Hne. rewrite member_deletes. destruct (existsb _ keys); [done|]. by rewrite member_set_ne.
  - cbn [mbind result_bind]. assert (oe_status e = 400 /\ oe_param e = Some ("prompt" : jstr)) as [Hs Hp].
    { destruct (member "prompt" (JObject m)) as [[| | |s|[|[| | |s| |] []]|]|]; try discriminate Ep; by injection Ep as <-. }
    split; [done|]. left. by split.
Qed.

Lemma as_record o : is_record o = true -> asRecord (Some o) = Some o.
Proof. by destruct o. Qed.

Lemma chain_record name o : is_record o = true -> chain (asRecord (Some o)) name = member name o.
Proof. intros H. by rewrite as_record. Qed.

Lemma extended_record x u : is_record (extended_usage x u) = is_record u.
Proof. unfold extended_usage. rewrite !with_record. by destruct (member "total_tokens" u) as [[]|]; rewrite ?with_record. Qed.

Lemma usage_extended_counts x u : is_record u = true ->
  asCount (member "prompt_tokens" (extended_usage x u)) = asCount (member "prompt_tokens" u) /\
  asCount (member "completion_tokens" (extended_usage x u)) = asCount (member "completion_tokens" u).
Proof.
  intros Hu. unfold extended_usage.
  destruct (member "total_tokens" u) as [[]|]; split; by rewrite !member_with by (by rewrite ?with_record).
Qed.

(** Shaping gives a payload the router's identity and, inside [usage], the router's
    three fields and a total where the upstream gave none; it adds no identity field
    the upstream did not send, and leaves every other member, and the counts the
    meter reads, as they were. *)
Theorem shape_rewrites_identity payload gid mid extension :
  let shaped := shapeResponse payload gid mid extension in
  member "id" shaped = (fun _ => JString gid) <$> member "id" payload /\
  member "model" shaped = (fun _ => JString mid) <$> member "model" payload /\
  (forall name, name <> "id" -> name <> "model" -> name <> "usage" -> member name shaped = member name payload) /\
  readUsage shaped = readUsage payload /\
  match asRecord (member "usage" payload), extension with
  | Some usage, Some x => exists usage',
      member "usage" shaped = Some usage' /\
      member "cost_micros" usage' = Some (JInt (ux_costMicros x)) /\
      member "endpoint" usage' = Some (JString (ux_endpoint x)) /\
      member "evidence_digest" usage' = Some (match ux_evidenceDigest x with Some d => JString d | None => JNull end) /\
      is_Some (member "total_tokens" usage') /\
      forall name, existsb (jeqb name) ["cost_micros"; "endpoint"; "evidence_digest"; "total_tokens"] = false ->
        member name usage' = member name usage
  | _, _ => member "usage" shaped = member "usage" payload
  end.
Proof.
  cbv zeta. unfold shapeResponse. set (base := replace_member _ _ (replace_member _ _ payload)).
  assert (forall name, member name base = if jeqb name "model" then (fun _ => JString mid) <$> member name payload
                                     else if jeqb name "id" then (fun _ => JString gid) <$> member name payload
                                     else member name payload) as Hb.
  { intros name. unfold base. rewrite !member_replace. by destruct (jeqb name "model") eqn:E; [apply jeqb_eq in E as ->|]. }
  assert (is_record base = is_record payload) as Hr by (unfold base; by rewrite !replace_record).
  rewrite (Hb "usage"). change (jeqb "usage" "model") with false. change (jeqb "usage" "id") with false. cbv iota.
  assert (forall name, name <> "id" -> name <> "model" -> member name base = member name payload) as Ho.
  { intros name ? ?. rewrite Hb. by rewrite !(proj2 (jeqb_neq _ _)) by done. }
  destruct (asRecord (member "usage" payload)) as [u|] eqn:Eu; [destruct extension as [x|]|].
  2,3: split_and!; [by rewrite Hb|by rewrite Hb|auto| |by rewrite Ho];
    unfold readUsage, chain, asRecord; destruct base, payload; try discriminate Hr; try done; by rewrite (Ho "usage").
  assert (exists um, member "usage" payload = Some (JObject um) /\ u = JObject um) as (um & Hu & ->).
  { destruct (member "usage" payload) as [[]|]; try discriminate Eu. injection Eu as <-. eauto. }
  assert (is_record base = true) as Hrb by (rewrite Hr; by eapply member_record).
  split_and!; [rewrite member_with by done; apply Hb|rewrite member_with by done; apply Hb| | |].
  - intros name H1 H2 H3. rewrite member_with, (proj2 (jeqb_neq _ _)) by done. by apply Ho.
  - destruct (usage_extended_counts x (JObject um) eq_refl) as [Hc1 Hc2]. unfold readUsage.
    rewrite !chain_record by (rewrite ?with_record; by (done || eapply member_record)). rewrite member_with by done.
    change (jeqb "usage" "usage") with true. cbv iota.
    rewrite Hu, !as_record by (rewrite ?extended_record; done). cbn [mbind option_bind]. by rewrite Hc1, Hc2.
  - exists (extended_usage x (JObject um)). rewrite member_with by done. split; [done|]. unfold extended_usage.
    destruct (member "total_tokens" (JObject um)) as [[]|] eqn:Et;
      (split_and!; [by rewrite !member_with by (by rewrite ?with_record)..|
         rewrite !member_with by (by rewrite ?with_record); cbn [jeqb]; by (done || (rewrite Et; eexists))|]);
      intros name Hn; cbn [existsb] in Hn; rewrite !orb_false_iff in Hn; destruct Hn as (H1 & H2 & H3 & H4 & _);
      rewrite !member_with by (by rewrite ?with_record); by rewrite H1, H2, H3, ?H4.
Qed.

(** The members of a shaped payload the router sets. *)
Lemma shaped_members payload gid mid x :
  let shaped := shapeResponse payload gid mid (Some x) in
  member "id" shaped = (fun _ => JString gid) <$> member "id" payload /\
  member "model" shaped = (fun _ => JString mid) <$> member "model" payload /\
  forall usage, member "usage" shaped = Some (JObject usage) ->
    member "cost_micros" (JObject usage) = Some (JInt (ux_costMicros x)) /\
    member "evidence_digest" (JObject usage) = Some (match ux_evidenceDigest x with Some d => JString d | None => JNull end) /\
    member "endpoint" (JObject usage) = Some (JString (ux_endpoint x)).
Proof.
  cbv zeta. unfold shapeResponse. set (base := replace_member _ _ (replace_member _ _ payload)).
  assert (member "id" base = (fun _ => JString gid) <$> member "id" payload) as Hid by (unfold base; by rewrite !member_replace).
  assert (member "model" base = (fun _ => JString mid) <$> member "model" payload) as Hmodel by (unfold base; by rewrite !member_replace).
  destruct (member "usage" base) as [[| | | | |um]|] eqn:Eu; cbn [asRecord]; try (split_and!; [done|done|congruence]).
  assert (is_record base = true) as Hr by (by eapply member_record). rewrite !member_with by done.
  split_and!; [exact Hid|exact Hmodel|]. change (jeqb "usage" "usage") with true. cbv iota. intros usage [= <-].
  unfold extended_usage. destruct (member "total_tokens" (JObject um)) as [[]|];
    split_and!; by rewrite !member_with by (by rewrite ?with_record).
Qed.

(** ** Lemmas: the bridge's chunks *)

Lemma chain_undefined name : chain None name = None.
Proof. done. Qed.

Lemma output_of_text i c : choice_output (text_choice "delta" i c) = true -> choice_output c = true.
Proof.
  unfold choice_output at 1. change (delta_of (asRecord (Some (text_choice "delta" i c)))) with (@None json).
  change (chain (asRecord (Some (text_choice "delta" i c))) "text") with (Some (JString (textOf (member "delta" c)))).
  rewrite !chain_undefined. cbn [isPresent orb]. rewrite !orb_false_r. unfold textOf.
  destruct (member "delta" c) as [d|] eqn:Ed; [|done]. cbn [chain].
  destruct (member "content" d) as [[| | |s| |]|] eqn:Es; try done. intros Hp. unfold choice_output, delta_of.
  pose proof (member_record _ _ _ Ed) as Hc. pose proof (member_record _ _ _ Es) as Hd.
  rewrite !as_record by done. cbn [chain]. rewrite Ed, !as_record by done. cbn [coalesce].
  destruct d; try discriminate Hd. cbn [chain]. rewrite Es. cbn [isPresent]. by rewrite Hp.
Qed.

Lemma object_or_empty c : member "delta" (if is_object c then c else JObject []) = member "delta" c /\
  member "finish_reason" (if is_object c then c else JObject []) = member "finish_reason" c.
Proof. by destruct c. Qed.

Lemma existsb_imap {A} (p : A -> bool) {B} (f : nat -> B -> A) l :
  existsb p (imap f l) = true -> exists i x, x ∈ l /\ p (f i x) = true.
Proof.
  revert f; induction l as [|x l IH]; intros f; [done|]. cbn [imap existsb]. intros [H|H]%orb_true_iff.
  - exists O, x. by split; [left|].
  - destruct (IH (f ∘ S) H) as (i & y & Hy & Hp). exists (S i), y. by split; [right|].
Qed.

Lemma first_reason_texts part l : first_reason (imap (fun i c => text_choice part (Z.of_nat i) c)
    (map (fun c => if is_object c then c else JObject []) l)) = first_reason l.
Proof.
  assert (forall f : nat -> Z, first_reason (imap (fun i c => text_choice part (f i) c)
    (map (fun c => if is_object c then c else JObject []) l)) = first_reason l) as H; [|apply H].
  induction l as [|c l IH]; intros f; [done|]. cbn [map imap first_reason].
  change (chain (asRecord (Some (text_choice part (f O) (if is_object c then c else JObject [])))) "finish_reason")
    with (Some (default JNull (coalesce (member "finish_reason" (if is_object c then c else JObject [])) (Some JNull)))).
  rewrite (proj2 (object_or_empty c)).
  assert (chain (asRecord (Some c)) "finish_reason" = member "finish_reason" c) as -> by (by destruct c).
  specialize (IH (fun i => f (S i))).
  destruct (member "finish_reason" c) as [[]|]; try exact IH; done.
Qed.

(** Measuring the upstream's chunk loses nothing the translated one would show: when
    the translated chunk carries output so does the upstream's, the usage and the
    finish reason are the same on both, and a chunk with an empty list of choices
    keeps it. *)
Theorem upstream_chunk_dominates m :
  let chunk := JObject m in
  let translated := textCompletionChunkOf chunk in
  (hasAssistantOutput translated = true -> hasAssistantOutput chunk = true) /\
  readUsage translated = readUsage chunk /\
  finishReasonOf translated = finishReasonOf chunk /\
  member "id" translated = member "id" chunk /\ member "model" translated = member "model" chunk /\
  choices_of translated = Some (imap (fun i c => text_choice "delta" (Z.of_nat i) c) (choicesOf chunk)) /\
  length (choicesOf chunk) = length (default [] (choices_of chunk)).
Proof.
  cbv zeta. assert (forall name, name <> "choices" -> name <> "object" ->
    member name (textCompletionChunkOf (JObject m)) = member name (JObject m)) as Ho.
  { intros name H1 H2. unfold textCompletionChunkOf, text_payload. by rewrite !member_set_ne by done. }
  assert (choices_of (textCompletionChunkOf (JObject m)) =
            Some (imap (fun i c => text_choice "delta" (Z.of_nat i) c) (choicesOf (JObject m)))) as Hc.
  { unfold choices_of, textCompletionChunkOf, text_payload. rewrite chain_record by done. by rewrite member_set_eq. }
  assert (choices_of (JObject m) = array_items (member "choices" (JObject m))) as Hm by done.
  split_and!; [| | |by rewrite Ho|by rewrite Ho|done|].
  - unfold hasAssistantOutput. rewrite Hc, Hm. intros (i & c & Hin & Hp)%existsb_imap. unfold choicesOf in Hin.
    destruct (array_items _) as [items|]; [|by apply elem_of_nil in Hin]. apply list_elem_of_fmap in Hin as (c0 & -> & Hin).
    apply output_of_text in Hp. apply existsb_exists. exists c0. split; [by apply list_elem_of_In|]. by destruct c0.
  - unfold readUsage. rewrite !chain_record by done. by rewrite Ho.
  - unfold finishReasonOf. rewrite Hc, Hm. unfold choicesOf. destruct (array_items _) as [items|]; [|done].
    by rewrite first_reason_texts.
  - rewrite Hm. unfold choicesOf. destruct (array_items _); [by rewrite length_map|done].
Qed.
