(* ===== verification/StreamRelay.v ===== *)
(** * Relaying a stream

    [api/v1/stream-relay.ts] and the context of [gateway.types.ts].  The relay is a
    reducer over what happens to it: text decoded from the upstream, the heartbeat
    timer, the client closing its socket; the read loop then ends or breaks.  What it
    wrote to the socket is a log.  The idle timer shows as a broken read, which is
    what it causes. *)

From S2P Require Import Prelude JsString Json Money Sse ApiKeys OpenAiError GatewayPolicy ClientDimension ResponseShaping.

(** ** The context of a request *)

Inductive GenerationStatus := generation_ok | generation_error | generation_aborted.

Record EvidenceCoverage := { cov_snapshotId : jstr; cov_evidenceDigest : jstr }.

Record GatewayContext := {
  gc_kind : RouteKind;
  gc_generationId : jstr;
  gc_model : RoutedModel;
  gc_auth : AuthenticatedApiKey;
  gc_body : json;
  gc_stream : bool;
  gc_upstreamPath : jstr;
  gc_bridged : bool;
  gc_suppressUsageChunk : bool;
  gc_coverage : option EvidenceCoverage;
  gc_evidenceDigest : option jstr;
  gc_rateLimitHeaders : list (jstr * jstr);
  gc_requestId : option jstr;
  gc_clientIp : option jstr;
  gc_client : GenerationClient;
  gc_startedAt : Z
}.

Record GenerationOutcome := {
  go_usage : TokenUsage;
  go_status : GenerationStatus;
  go_errorCode : option jstr;
  go_finishReason : option jstr;
  go_timeToFirstTokenMs : option Z
}.

(** ** The client's socket *)

Inductive write := Preamble | Beat | Event (text : jstr) | End_.

Record Socket := { so_headersSent : bool; so_ended : bool; so_log : list write }.

Definition put (w : write) (s : Socket) : Socket :=
  {| so_headersSent := so_headersSent s; so_ended := so_ended s; so_log := so_log s ++ [w] |}.

(** [if (!response.writableEnded) response.write(…)] *)
Definition emit (w : write) (s : Socket) : Socket := if so_ended s then s else put w s.

Definition writeStreamHeaders (s : Socket) : Socket :=
  if so_headersSent s then s
  else {| so_headersSent := true; so_ended := so_ended s; so_log := so_log s ++ [Preamble] |}.

Definition end_response (s : Socket) : Socket :=
  if so_ended s then s
  else {| so_headersSent := so_headersSent s; so_ended := true; so_log := so_log s ++ [End_] |}.

Definition HEARTBEAT_INTERVAL_MS : Z := 15000.

(** ** Opening the stream early *)

Inductive wait_event := Open_due | Ping_due | Client_closed.

Record PendingStream := {
  ps_armed : bool;
  ps_opened : bool;
  ps_beating : bool;
  ps_destroyed : bool;
  ps_clientLeft : bool;
  ps_socket : Socket
}.

Definition pending_initial (s : Socket) : PendingStream :=
  {| ps_armed := true; ps_opened := false; ps_beating := false; ps_destroyed := false; ps_clientLeft := false; ps_socket := s |}.

(** The timers of [openStreamIfSlow], and [GatewayService.handle]'s own [close] handler. *)
Definition wait_step (p : PendingStream) (e : wait_event) : PendingStream :=
  match e with
  | Open_due =>
      if negb (ps_armed p) then p
      else if so_ended (ps_socket p) || ps_destroyed p then
        {| ps_armed := false; ps_opened := ps_opened p; ps_beating := ps_beating p; ps_destroyed := ps_destroyed p;
           ps_clientLeft := ps_clientLeft p; ps_socket := ps_socket p |}
      else
        {| ps_armed := false; ps_opened := true; ps_beating := true; ps_destroyed := ps_destroyed p;
           ps_clientLeft := ps_clientLeft p; ps_socket := emit Beat (writeStreamHeaders (ps_socket p)) |}
  | Ping_due =>
      if negb (ps_beating p) then p
      else {| ps_armed := ps_armed p; ps_opened := ps_opened p; ps_beating := true; ps_destroyed := ps_destroyed p;
              ps_clientLeft := ps_clientLeft p; ps_socket := emit Beat (ps_socket p) |}
  | Client_closed =>
      {| ps_armed := ps_armed p; ps_opened := ps_opened p; ps_beating := ps_beating p; ps_destroyed := true;
         ps_clientLeft := ps_clientLeft p || negb (so_ended (ps_socket p)); ps_socket := ps_socket p |}
  end.

Definition openStreamIfSlow (s : Socket) (events : list wait_event) : PendingStream :=
  foldl wait_step (pending_initial s) events.

(** ** The relay *)

Record Relay := {
  rl_usage : option TokenUsage;
  rl_completionEstimate : Z;
  rl_finishReason : option jstr;
  rl_timeToFirstTokenMs : option Z;
  rl_sawDone : bool;
  rl_aborted : bool;
  rl_leftAfterDone : bool;
  rl_beating : bool;
  rl_buffer : jstr;
  rl_socket : Socket
}.

Definition with_socket (f : Socket -> Socket) (r : Relay) : Relay :=
  {| rl_usage := rl_usage r; rl_completionEstimate := rl_completionEstimate r; rl_finishReason := rl_finishReason r;
     rl_timeToFirstTokenMs := rl_timeToFirstTokenMs r; rl_sawDone := rl_sawDone r; rl_aborted := rl_aborted r;
     rl_leftAfterDone := rl_leftAfterDone r; rl_beating := rl_beating r; rl_buffer := rl_buffer r; rl_socket := f (rl_socket r) |}.

Definition saw_done (r : Relay) : Relay :=
  {| rl_usage := rl_usage r; rl_completionEstimate := rl_completionEstimate r; rl_finishReason := rl_finishReason r;
     rl_timeToFirstTokenMs := rl_timeToFirstTokenMs r; rl_sawDone := true; rl_aborted := rl_aborted r;
     rl_leftAfterDone := rl_leftAfterDone r; rl_beating := rl_beating r; rl_buffer := rl_buffer r; rl_socket := rl_socket r |}.

Definition with_buffer (b : jstr) (r : Relay) : Relay :=
  {| rl_usage := rl_usage r; rl_completionEstimate := rl_completionEstimate r; rl_finishReason := rl_finishReason r;
     rl_timeToFirstTokenMs := rl_timeToFirstTokenMs r; rl_sawDone := rl_sawDone r; rl_aborted := rl_aborted r;
     rl_leftAfterDone := rl_leftAfterDone r; rl_beating := rl_beating r; rl_buffer := b; rl_socket := rl_socket r |}.

Definition extensionFor (context : GatewayContext) (counts : TokenUsage) : UsageExtension :=
  {| ux_costMicros := computeCostMicros counts (rm_pricing (gc_model context));
     ux_endpoint := re_name (rm_endpoint (gc_model context));
     ux_evidenceDigest := gc_evidenceDigest context |}.

Definition isUsageOnly (chunk : json) : bool :=
  match member "choices" chunk with Some (JArray []) => true | _ => false end.

(** What a chunk does to the meter, before anything is written. *)
Definition measure (context : GatewayContext) (now : Z) (chunk : json) (r : Relay) : Relay :=
  let first := match rl_timeToFirstTokenMs r with None => hasAssistantOutput chunk | Some _ => false end in
  {| rl_usage := match readUsage chunk with Some u => Some u | None => rl_usage r end;
     rl_completionEstimate := rl_completionEstimate r + estimateTokens (deltaTextOf chunk);
     rl_finishReason := match finishReasonOf chunk with Some f => Some f | None => rl_finishReason r end;
     rl_timeToFirstTokenMs := if first then Some (now - gc_startedAt context) else rl_timeToFirstTokenMs r;
     rl_sawDone := rl_sawDone r; rl_aborted := rl_aborted r; rl_leftAfterDone := rl_leftAfterDone r;
     rl_beating := if first then false else rl_beating r;
     rl_buffer := rl_buffer r; rl_socket := rl_socket r |}.

Section Relaying.
Context {J : JsonEngine}.

Definition handleEvent (context : GatewayContext) (now : Z) (r : Relay) (event : jstr) : Relay :=
  match dataPayloadOf event with
  | None => with_socket (emit (Event event)) r
  | Some payload =>
      if jeqb (jtrim payload) "[DONE]" then with_socket (emit (Event SSE_DONE)) (saw_done r)
      else
        match json_parse payload with
        | None => with_socket (emit (Event event)) r
        | Some upstreamChunk =>
            if negb (is_object upstreamChunk) then with_socket (emit (Event event)) r
            else
              let chunk := if gc_bridged context then textCompletionChunkOf upstreamChunk else upstreamChunk in
              let r := measure context now upstreamChunk r in
              let reported := readUsage upstreamChunk in
              if match reported with Some _ => true | None => false end && gc_suppressUsageChunk context && isUsageOnly upstreamChunk
              then r
              else
                let extension := extensionFor context <$> reported in
                let shaped := shapeResponse chunk (gc_generationId context) (rm_id (gc_model context)) extension in
                with_socket (emit (Event (formatDataEvent (json_stringify shaped)))) r
        end
  end.

(** What happens while the relay reads. *)
Inductive relay_event := Received (text : jstr) (now : Z) | Beat_due | Closed.

Definition relay_step (context : GatewayContext) (r : Relay) (e : relay_event) : Relay :=
  match e with
  | Received text now =>
      let split := splitSseEvents (rl_buffer r +++ text) in
      foldl (handleEvent context now) (with_buffer (rest split) r) (events split)
  | Beat_due => if rl_beating r then with_socket (emit Beat) r else r
  | Closed =>
      if so_ended (rl_socket r) then r
      else
        {| rl_usage := rl_usage r; rl_completionEstimate := rl_completionEstimate r; rl_finishReason := rl_finishReason r;
           rl_timeToFirstTokenMs := rl_timeToFirstTokenMs r; rl_sawDone := rl_sawDone r;
           rl_aborted := rl_aborted r || negb (rl_sawDone r); rl_leftAfterDone := rl_leftAfterDone r || rl_sawDone r;
           rl_beating := rl_beating r; rl_buffer := rl_buffer r; rl_socket := rl_socket r |}
  end.

(** How the read loop ended: with what the decoder still held, or by an exception. *)
Inductive relay_end := Finished (flush : jstr) (now : Z) | Broke (failure : exception).

(** The text after the last blank line, completed into an event when it is not blank. *)
Definition tail_event (buffer : jstr) : option jstr :=
  if jlength (jtrim buffer) =? 0 then None
  else Some (if jendsWith buffer EVENT_SEPARATOR then buffer else buffer +++ EVENT_SEPARATOR).

Definition relay_drain (context : GatewayContext) (r : Relay) (e : relay_end) : Relay * option exception :=
  match e with
  | Finished flush now =>
      let r := with_buffer (rl_buffer r +++ flush) r in
      (match tail_event (rl_buffer r) with Some event => handleEvent context now r event | None => r end, None)
  | Broke failure => (r, Some failure)
  end.

Record StreamFailure := { sf_error : OpenAiApiError; sf_status : GenerationStatus }.

Definition DEFAULT_FAILURE_MAPPER (failure : exception) : StreamFailure :=
  {| sf_error := asOpenAiError failure; sf_status := generation_error |}.

Definition relay_initial (socket : Socket) : Relay :=
  let opened := writeStreamHeaders socket in
  {| rl_usage := None; rl_completionEstimate := 0; rl_finishReason := None; rl_timeToFirstTokenMs := None;
     rl_sawDone := false; rl_aborted := false; rl_leftAfterDone := false; rl_beating := true; rl_buffer := Js [];
     rl_socket := if so_headersSent socket then emit Beat opened else opened |}.

(** What follows the [finally] of [relayStream]. *)
Definition relay_close (context : GatewayContext) (mapper : exception -> StreamFailure) (r : Relay) (failure : option exception)
    : Socket * GenerationOutcome :=
  let failure := if rl_leftAfterDone r then None else failure in
  let mapped := if rl_aborted r then None else mapper <$> failure in
  let socket := match mapped with
                | Some m => emit (Event (formatDataEvent (json_stringify (toBody (sf_error m))))) (rl_socket r)
                | None => rl_socket r
                end in
  let socket := if negb (rl_sawDone r) && negb (rl_aborted r) then emit (Event SSE_DONE) socket else socket in
  (end_response socket,
   {| go_usage := match rl_usage r with
                  | Some u => u
                  | None => {| promptTokens := estimatePromptTokens (gc_body context);
                               completionTokens := rl_completionEstimate r |}
                  end;
      go_status := if rl_aborted r then generation_aborted
                   else match mapped with Some m => sf_status m | None => generation_ok end;
      go_errorCode := (fun m => oe_code (sf_error m)) <$> mapped;
      go_finishReason := rl_finishReason r;
      go_timeToFirstTokenMs := rl_timeToFirstTokenMs r |}).

Definition relayStream (context : GatewayContext) (mapper : exception -> StreamFailure) (socket : Socket)
    (happened : list relay_event) (ending : relay_end) : Socket * GenerationOutcome :=
  let '(r, failure) := relay_drain context (foldl (relay_step context) (relay_initial socket) happened) ending in
  relay_close context mapper r failure.


(** ** What the relay promises

    The same, event by event and with no state: what the client is sent for an event
    and what the meter reads off it. *)

Definition is_done (event : jstr) : bool :=
  match dataPayloadOf event with Some payload => jeqb (jtrim payload) "[DONE]" | None => false end.

(** The chunk an event carries, when it is one the router rewrites. *)
Definition chunk_of (event : jstr) : option json :=
  if is_done event then None
  else payload ← dataPayloadOf event; chunk ← json_parse payload; if is_object chunk then Some chunk else None.

Definition dropped (context : GatewayContext) (chunk : json) : bool :=
  bool_decide (is_Some (readUsage chunk)) && gc_suppressUsageChunk context && isUsageOnly chunk.

Definition rewritten (context : GatewayContext) (chunk : json) : jstr :=
  formatDataEvent (json_stringify
    (shapeResponse (if gc_bridged context then textCompletionChunkOf chunk else chunk)
       (gc_generationId context) (rm_id (gc_model context)) (extensionFor context <$> readUsage chunk))).

Definition forwarded (context : GatewayContext) (event : jstr) : option jstr :=
  match chunk_of event with
  | Some chunk => if dropped context chunk then None else Some (rewritten context chunk)
  | None => Some (if is_done event then SSE_DONE else event)
  end.

Definition received_text (e : relay_event) : option jstr := match e with Received t _ => Some t | _ => None end.

Definition texts (happened : list relay_event) : jstr := joined (omap received_text happened).

(** The events of a stream: those of the whole text, and what is left at its end. *)
Definition stream_events (text flush : jstr) : list jstr :=
  let split := splitSseEvents text in events split ++ option_list (tail_event (rest split +++ flush)).

(** The client closed its socket before [[DONE]] had been relayed. *)
Fixpoint hung_up (seen : jstr) (happened : list relay_event) : bool :=
  match happened with
  | [] => false
  | Received t _ :: happened => hung_up (seen +++ t) happened
  | Beat_due :: happened => hung_up seen happened
  | Closed :: happened => negb (existsb is_done (events (splitSseEvents seen))) || hung_up seen happened
  end.

Definition is_closed (e : relay_event) : bool := match e with Closed => true | _ => false end.

Definition not_beat (w : write) : bool := match w with Beat => false | _ => true end.

Definition written (s : Socket) : list write := List.filter not_beat (so_log s).

Definition events_written (context : GatewayContext) (es : list jstr) : list write := map Event (omap (forwarded context) es).

(** The usage, the finish reason and the estimate of a sequence of events. *)
Definition reported (es : list jstr) : option TokenUsage := last (omap readUsage (omap chunk_of es)).

Definition reasons (es : list jstr) : option jstr := last (omap finishReasonOf (omap chunk_of es)).

Definition estimated (es : list jstr) : Z := sumZ (map (fun c => estimateTokens (deltaTextOf c)) (omap chunk_of es)).

Definition metered (context : GatewayContext) (es : list jstr) : TokenUsage :=
  match reported es with
  | Some u => u
  | None => {| promptTokens := estimatePromptTokens (gc_body context); completionTokens := estimated es |}
  end.

(** ** Lemmas *)

Lemma written_put w s : written (put w s) = written s ++ (if not_beat w then [w] else []).
Proof. unfold written, put; cbn [so_log]. rewrite List.filter_app. cbn. by destruct (not_beat w). Qed.

Lemma last_omap_snoc {A B} (f : A -> option B) l x :
  last (omap f (l ++ [x])) = match f x with Some y => Some y | None => last (omap f l) end.
Proof.
  rewrite omap_app. cbn. destruct (f x); [by rewrite last_snoc|by rewrite app_nil_r].
Qed.

Lemma omap_omap_snoc {A B} (f : A -> option B) l x : omap f (l ++ [x]) = omap f l ++ option_list (f x).
Proof. rewrite omap_app. cbn. by destruct (f x). Qed.

(** The relay has handled the events [es] and holds [buffer]. *)
Record consumed (context : GatewayContext) (base : list write) (es : list jstr) (buffer : jstr) (r : Relay) : Prop := {
  co_buffer : rl_buffer r = buffer;
  co_open : so_ended (rl_socket r) = false;
  co_written : written (rl_socket r) = base ++ events_written context es;
  co_done : rl_sawDone r = existsb is_done es;
  co_usage : rl_usage r = reported es;
  co_reason : rl_finishReason r = reasons es;
  co_estimate : rl_completionEstimate r = estimated es
}.

Lemma consumed_event context base es buffer r now event :
  consumed context base es buffer r ->
  consumed context base (es ++ [event]) buffer (handleEvent context now r event) /\
  rl_aborted (handleEvent context now r event) = rl_aborted r /\
  rl_leftAfterDone (handleEvent context now r event) = rl_leftAfterDone r.
Proof.
  intros [Hb Ho Hw Hd Hu Hr He].
  unfold handleEvent, events_written, reported, reasons, estimated, forwarded, chunk_of, is_done.
  assert (forall (d : bool) (c : option json) (t : option jstr) r',
    is_done event = d -> chunk_of event = c -> forwarded context event = t ->
    rl_buffer r' = rl_buffer r -> rl_aborted r' = rl_aborted r -> rl_leftAfterDone r' = rl_leftAfterDone r ->
    rl_socket r' = (match t with Some t => put (Event t) (rl_socket r) | None => rl_socket r end) ->
    rl_sawDone r' = rl_sawDone r || d ->
    rl_usage r' = match c ≫= readUsage with Some u => Some u | None => rl_usage r end ->
    rl_finishReason r' = match c ≫= finishReasonOf with Some u => Some u | None => rl_finishReason r end ->
    rl_completionEstimate r' = rl_completionEstimate r + match c with Some c => estimateTokens (deltaTextOf c) | None => 0 end ->
    consumed context base (es ++ [event]) buffer r' /\ rl_aborted r' = rl_aborted r /\ rl_leftAfterDone r' = rl_leftAfterDone r) as Hk.
  { intros d c t r' E1 E2 E3 H1 H2 H3 H4 H5 H6 H7 H8. split_and!; [|done..]. constructor.
    - by rewrite H1.
    - rewrite H4. by destruct t.
    - rewrite H4. unfold events_written. rewrite omap_omap_snoc, map_app, app_assoc, E3.
      destruct t; [by rewrite written_put, Hw|]. cbn. by rewrite app_nil_r.
    - rewrite H5, existsb_app, Hd. cbn. by rewrite E1, orb_false_r.
    - rewrite H6. unfold reported. rewrite omap_omap_snoc, E2. destruct c as [c|]; cbn; [by rewrite last_omap_snoc, Hu|].
      by rewrite app_nil_r.
    - rewrite H7. unfold reasons. rewrite omap_omap_snoc, E2. destruct c as [c|]; cbn; [by rewrite last_omap_snoc, Hr|].
      by rewrite app_nil_r.
    - rewrite H8. unfold estimated. rewrite omap_omap_snoc, map_app, sumZ_app, E2, He. unfold estimated.
      destruct c; unfold sumZ; cbn [option_list option_rect map foldr from_option]; lia. }
  eapply Hk; [reflexivity|reflexivity|reflexivity|..]; clear Hk; unfold forwarded, chunk_of, is_done, dropped, rewritten;
    (destruct (dataPayloadOf event) as [payload|]; [|unfold emit; cbn; by rewrite ?Ho, ?orb_false_r, ?Z.add_0_r]);
    (destruct (jeqb (jtrim payload) "[DONE]"); [unfold emit; cbn; by rewrite ?Ho, ?orb_true_r, ?Z.add_0_r|]);
    cbn [mbind option_bind];
    (destruct (json_parse payload) as [chunk|]; [|unfold emit; cbn; by rewrite ?Ho, ?orb_false_r, ?Z.add_0_r]);
    cbn [mbind option_bind];
    (destruct (is_object chunk); [|unfold emit; cbn; by rewrite ?Ho, ?orb_false_r, ?Z.add_0_r]); cbn [negb mbind option_bind];
    destruct (readUsage chunk) eqn:Eu, (gc_suppressUsageChunk context), (isUsageOnly chunk);
    cbn; unfold emit; cbn; rewrite ?Eu, ?Ho, ?orb_false_r; done.
Qed.

Lemma consumed_events context base es buffer r now more :
  consumed context base es buffer r ->
  let r' := foldl (handleEvent context now) r more in
  consumed context base (es ++ more) buffer r' /\ rl_aborted r' = rl_aborted r /\ rl_leftAfterDone r' = rl_leftAfterDone r.
Proof.
  revert es r; induction more as [|e more IH]; intros es r H; cbn [foldl].
  - by rewrite app_nil_r.
  - destruct (consumed_event context base es buffer r now e H) as (H' & Ha & Hl).
    destruct (IH _ _ H') as (H'' & Ha' & Hl'). rewrite <- app_assoc in H''. by rewrite Ha', Hl'.
Qed.

Lemma split_more seen t :
  let split := splitSseEvents (rest (splitSseEvents seen) +++ t) in
  events (splitSseEvents (seen +++ t)) = events (splitSseEvents seen) ++ events split /\
  rest (splitSseEvents (seen +++ t)) = rest split.
Proof.
  cbv zeta. pose proof (feed_app ([], Js []) seen t) as H. unfold feed in H. cbn [fst snd app] in H.
  assert (forall s, Js [] +++ s = s) as Hnil by (by intros []). rewrite !Hnil in H. by injection H.
Qed.

Lemma consumed_run context base seen r happened :
  consumed context base (events (splitSseEvents seen)) (rest (splitSseEvents seen)) r ->
  let r' := foldl (relay_step context) r happened in
  let all := seen +++ texts happened in
  consumed context base (events (splitSseEvents all)) (rest (splitSseEvents all)) r' /\
  rl_aborted r' = rl_aborted r || hung_up seen happened /\
  rl_aborted r' || rl_leftAfterDone r' = rl_aborted r || rl_leftAfterDone r || existsb is_closed happened.
Proof.
  revert seen r; induction happened as [|e happened IH]; intros seen r H; cbn [foldl hung_up existsb is_closed].
  - unfold texts, joined; cbn. rewrite !orb_false_r. unfold japp; cbn. rewrite app_nil_r. by destruct seen.
  - destruct e as [t now| |]; cbn [relay_step is_closed orb].
    + assert (seen +++ texts (Received t now :: happened) = (seen +++ t) +++ texts happened) as -> by (by rewrite <- japp_assoc).
      rewrite (co_buffer _ _ _ _ _ H). set (split := splitSseEvents (_ +++ t)).
      destruct (split_more seen t) as [He Hr]. fold split in He, Hr.
      assert (consumed context base (events (splitSseEvents seen)) (rest split) (with_buffer (rest split) r)) as H1.
      { destruct H. by constructor. }
      destruct (consumed_events _ _ _ _ _ now (events split) H1) as (H2 & Ha & Hl). set (r' := foldl _ _ (events split)) in *.
      rewrite <- He, <- Hr in H2. destruct (IH _ _ H2) as (H3 & Ha' & Hl').
      split_and!; [exact H3| |]; [by rewrite Ha', Ha|by rewrite Hl', Ha, Hl].
    + change (texts (Beat_due :: happened)) with (texts happened).
      assert (consumed context base (events (splitSseEvents seen)) (rest (splitSseEvents seen))
                (if rl_beating r then with_socket (emit Beat) r else r)) as H1.
      { destruct (rl_beating r); [|done]. destruct H. unfold with_socket, emit. constructor; cbn; try done; rewrite co_open0; [done|].
        rewrite written_put. cbn. by rewrite app_nil_r. }
      destruct (IH _ _ H1) as (H3 & Ha & Hl). split_and!; [exact H3| |].
      * rewrite Ha. by destruct (rl_beating r).
      * rewrite Hl. by destruct (rl_beating r).
    + change (texts (Closed :: happened)) with (texts happened). rewrite (co_open _ _ _ _ _ H).
      match goal with |- context [foldl _ ?x happened] => set (closed := x) end.
      assert (consumed context base (events (splitSseEvents seen)) (rest (splitSseEvents seen)) closed) as H1.
      { destruct H. by constructor. }
      destruct (IH _ _ H1) as (H3 & Ha & Hl). split_and!; [exact H3| |].
      * rewrite Ha. cbn. rewrite (co_done _ _ _ _ _ H). by rewrite orb_assoc.
      * rewrite Hl. cbn. destruct (rl_aborted r), (rl_leftAfterDone r), (rl_sawDone r), (existsb is_closed happened); done.
Qed.

Lemma consumed_initial context b log :
  let socket := {| so_headersSent := b; so_ended := false; so_log := log |} in
  consumed context (written (writeStreamHeaders socket)) [] (Js []) (relay_initial socket).
Proof.
  cbv zeta. constructor; try done; cbn [relay_initial rl_socket so_headersSent]; destruct b; unfold emit, writeStreamHeaders; cbn;
    try done; unfold events_written; cbn; rewrite app_nil_r; [|done].
  change (written (put Beat {| so_headersSent := true; so_ended := false; so_log := log |}) =
          written {| so_headersSent := true; so_ended := false; so_log := log |}).
  rewrite written_put. cbn. by rewrite app_nil_r.
Qed.

(** The relay when its read loop stops. *)
Lemma consumed_from_start context b log happened :
  let socket := {| so_headersSent := b; so_ended := false; so_log := log |} in
  let r := foldl (relay_step context) (relay_initial socket) happened in
  let split := splitSseEvents (texts happened) in
  consumed context (written (writeStreamHeaders socket)) (events split) (rest split) r /\
  rl_aborted r = hung_up (Js []) happened /\
  rl_aborted r || rl_leftAfterDone r = existsb is_closed happened.
Proof.
  cbv zeta. pose proof (consumed_run context (written (writeStreamHeaders {| so_headersSent := b; so_ended := false; so_log := log |}))
    (Js []) _ happened (consumed_initial context b log)) as H. cbv zeta in H.
  assert (forall s, Js [] +++ s = s) as Hnil by (by intros []). rewrite Hnil in H. exact H.
Qed.

Lemma written_emit w s : so_ended s = false -> written (emit w s) = written s ++ (if not_beat w then [w] else []) /\ so_ended (emit w s) = false.
Proof. intros H. unfold emit. rewrite H. split; [apply written_put|done]. Qed.

Lemma written_end s : so_ended s = false -> written (end_response s) = written s ++ [End_].
Proof. intros H. unfold end_response, written. rewrite H. cbn [so_log]. by rewrite List.filter_app. Qed.

(** C9. A stream that ends is relayed event by event and nothing else: between the headers
    and the end the client gets, in order, each event of the upstream's text in its
    rewritten form, and one [[DONE]] if the upstream sent none and the client stayed.
    Neither the cuts the network made, the heartbeats nor a hang-up change a byte of
    it, and the meter reads the same events: the last usage reported, or the
    estimates; the last finish reason; [aborted] exactly when the client left before
    [[DONE]]. *)
Theorem relay_forwards_every_event context mapper b log happened flush now :
  let socket := {| so_headersSent := b; so_ended := false; so_log := log |} in
  let es := stream_events (texts happened) flush in
  let left := hung_up (Js []) happened in
  let '(out, outcome) := relayStream context mapper socket happened (Finished flush now) in
  written out = written (writeStreamHeaders socket) ++ events_written context es ++
                (if existsb is_done es || left then [] else [Event SSE_DONE]) ++ [End_] /\
  go_usage outcome = metered context es /\ go_finishReason outcome = reasons es /\ go_errorCode outcome = None /\
  go_status outcome = if left then generation_aborted else generation_ok.
Proof.
  cbv zeta. unfold relayStream. destruct (consumed_from_start context b log happened) as (H & Ha & _).
  set (r := foldl _ _ happened) in *. cbn [relay_drain]. rewrite (co_buffer _ _ _ _ _ H).
  set (buffer := rest _ +++ flush) in *.
  assert (consumed context (written (writeStreamHeaders {| so_headersSent := b; so_ended := false; so_log := log |}))
            (events (splitSseEvents (texts happened))) buffer (with_buffer buffer r)) as H1 by (destruct H; by constructor).
  destruct (consumed_events _ _ _ _ _ now (option_list (tail_event buffer)) H1) as (H2 & Ha' & _).
  cbv zeta. cbn [rl_buffer with_buffer].
  replace (match tail_event buffer with Some event => handleEvent context now (with_buffer buffer r) event | None => with_buffer buffer r end)
    with (foldl (handleEvent context now) (with_buffer buffer r) (option_list (tail_event buffer))) by (by destruct (tail_event buffer)).
  set (r' := foldl _ _ (option_list _)) in *. change (events _ ++ option_list _) with (stream_events (texts happened) flush) in H2.
  cbn [rl_buffer with_buffer] in *. fold r'. destruct H2 as [_ Ho Hw Hd Hu Hr He]. assert (rl_aborted r' = hung_up (Js []) happened) as Hab by (by rewrite Ha').
  cbv beta iota. unfold relay_close. rewrite Hab, Hd, Hr.
  replace (if rl_leftAfterDone r' then None else None) with (@None exception) by (by destruct (rl_leftAfterDone r')). cbn [fmap option_fmap option_map].
  replace (if hung_up (Js []) happened then None else None) with (@None StreamFailure) by (by destruct (hung_up _ _)).
  split_and!; try done.
  - rewrite written_end; [|by destruct (negb _ && negb _); [apply written_emit|]].
    destruct (existsb is_done _); cbn [negb andb orb]; [by rewrite Hw, <- app_assoc|].
    destruct (hung_up _ _); cbn [negb]; [by rewrite Hw, <- app_assoc|].
    rewrite (proj1 (written_emit _ _ Ho)), Hw. cbn [not_beat]. by rewrite <- !app_assoc.
  - cbn [go_usage]. unfold metered. by rewrite Hu, He.
Qed.

(** A client counted as having left after [[DONE]] did: the mark is never unset. *)
Lemma left_implies_done context r e : (rl_leftAfterDone r = true -> rl_sawDone r = true) ->
  rl_leftAfterDone (relay_step context r e) = true -> rl_sawDone (relay_step context r e) = true.
Proof.
  intros H. destruct e as [t now| |]; cbn [relay_step].
  - set (r0 := with_buffer _ r). assert (rl_leftAfterDone r0 = true -> rl_sawDone r0 = true) as H0 by exact H. clearbody r0. clear H.
    revert r0 H0. induction (events _) as [|e es IH]; intros r0 H0; [done|]. cbn [foldl]. apply IH. clear IH.
    unfold handleEvent. destruct (dataPayloadOf e) as [p|]; [|done]. destruct (jeqb _ _); [done|].
    destruct (json_parse p) as [c|]; [|done]. destruct (is_object c); cbn [negb]; [|done]. by destruct (_ && _ && _).
  - by destruct (rl_beating r).
  - destruct (so_ended _); [done|]. cbn. destruct (rl_leftAfterDone r); cbn; auto.
Qed.

Lemma left_after_done context r happened : (rl_leftAfterDone r = true -> rl_sawDone r = true) ->
  rl_leftAfterDone (foldl (relay_step context) r happened) = true -> rl_sawDone (foldl (relay_step context) r happened) = true.
Proof. revert r; induction happened as [|e l IH]; intros r H; [done|]. cbn [foldl]. apply IH. by apply left_implies_done. Qed.

(** C25. A stream that breaks is accounted for by who ended it.  A client that left before
    [[DONE]] is an abort with no error, and is sent nothing more; one that left after
    it has its whole answer, and the broken read is not held against it; otherwise
    the failure is put in the stream as its last event, followed by the terminator
    unless the upstream had sent it, and metered as the leg explains it.  Tokens
    already relayed are metered in every case. *)
Theorem broken_stream_is_accounted context mapper b log happened failure :
  let socket := {| so_headersSent := b; so_ended := false; so_log := log |} in
  let es := events (splitSseEvents (texts happened)) in
  let before := written (writeStreamHeaders socket) ++ events_written context es in
  let '(out, outcome) := relayStream context mapper socket happened (Broke failure) in
  go_usage outcome = metered context es /\ go_finishReason outcome = reasons es /\
  if hung_up (Js []) happened then
    written out = before ++ [End_] /\ go_status outcome = generation_aborted /\ go_errorCode outcome = None
  else if existsb is_closed happened then
    existsb is_done es = true /\ written out = before ++ [End_] /\ go_status outcome = generation_ok /\ go_errorCode outcome = None
  else
    let error := sf_error (mapper failure) in
    written out = before ++ [Event (formatDataEvent (json_stringify (toBody error)))] ++
                  (if existsb is_done es then [] else [Event SSE_DONE]) ++ [End_] /\
    go_status outcome = sf_status (mapper failure) /\ go_errorCode outcome = Some (oe_code error).
Proof.
  cbv zeta. unfold relayStream. destruct (consumed_from_start context b log happened) as (H & Ha & Hc).
  set (r := foldl _ _ happened) in *. cbn [relay_drain]. destruct H as [_ Ho Hw Hd Hu Hr He].
  cbv beta iota. unfold relay_close. rewrite <- Hd, <- Hr, <- Hw. unfold metered. rewrite <- Hu, <- He, <- Ha, <- Hc.
  split; [done|]. split; [done|]. destruct (rl_aborted r) eqn:Ea.
  { cbn [fmap option_fmap option_map]. split; [|done]. rewrite andb_false_r. by rewrite written_end. }
  destruct (rl_leftAfterDone r) eqn:El; cbn [orb fmap option_fmap option_map negb andb].
  - assert (rl_sawDone r = true) as Hs by (apply left_after_done; done).
    rewrite Hs. cbn [negb andb]. split; [done|]. by rewrite written_end.
  - split; [|done]. destruct (written_emit (Event (formatDataEvent (json_stringify (toBody (sf_error (mapper failure)))))) _ Ho) as [Hw' Ho'].
    set (s := emit _ _) in *. rewrite andb_true_r. destruct (rl_sawDone r); cbn [negb].
    + by rewrite written_end, Hw', <- app_assoc.
    + destruct (written_emit (Event SSE_DONE) _ Ho') as [Hw'' Ho'']. rewrite written_end, Hw'', Hw', <- !app_assoc by done. done.
Qed.

End Relaying.
