(* ===== verification/Metering.v ===== *)
(** * Metering a generation

    [metering/metering.service.ts], [metering/ulid.ts], [metering/pricing.ts]'s rate,
    [metering/evidence-coverage.service.ts], [metering/workspace-owner.service.ts],
    [api/v1/generation-recorder.service.ts] and the row of
    [db/entities/generation.entity.ts]. *)

From S2P Require Import Prelude JsString Json Money Store Ledger Payments ApiKeys ExternalCatalog GatewayPolicy ClientDimension.
From S2P Require Import ResponseShaping StreamRelay.

(** ** Identifiers *)

Definition CROCKFORD : list N := units "0123456789ABCDEFGHJKMNPQRSTVWXYZ".
Definition TIME_CHARS : nat := 10.
Definition RANDOM_CHARS : nat := 16.

Definition crockford (n : N) : N := nth (N.to_nat n) CROCKFORD 0%N.

(** [CROCKFORD[remaining % 32] + time], [count] times. *)
Fixpoint time_chars (count : nat) (remaining : N) (time : list N) : list N :=
  match count with
  | O => time
  | S count => time_chars count (remaining / 32)%N (crockford (remaining mod 32)%N :: time)
  end.

Definition ulid (now : N) (bytes : list N) : jstr :=
  Js (time_chars TIME_CHARS now [] ++ map (fun byte => crockford (N.land byte 31)) bytes).

Definition generationId (now : N) (bytes : list N) : jstr := "gen-" +++ ulid now bytes.

(** ** The rate *)

(** The double nearest to [a / b], as a mantissa of 53 bits and a power of two. *)
Definition double_quotient (a b : Z) : Z * Z :=
  let shift := 53 - (Z.log2 a - Z.log2 b) in
  let scaled k := if 0 <=? k then (a * 2 ^ k, b) else (a, b * 2 ^ (- k)) in
  let shift := let '(n, d) := scaled (shift - 1) in if 2 ^ 52 <=? n / d then shift - 1 else shift in
  let '(n, d) := scaled shift in
  let m := n / d in
  let r := n mod d in
  let m := if (2 * r <? d) || ((2 * r =? d) && Z.even m) then m else m + 1 in
  (m, - shift).

(** [x.toFixed(digits)] times [scale], ten to the digits: the nearest, the larger of two. *)
Definition to_fixed (scale : Z) (x : Z * Z) : Z :=
  let '(m, e) := x in
  if 0 <=? e then m * 2 ^ e * scale else (m * scale * 2 + 2 ^ (- e)) / (2 * 2 ^ (- e)).

Definition MIN_RATE_TOKENS : Z := 4.
Definition MIN_RATE_WINDOW_MS : Z := 25.

(** The rate in thousandths of a token per second. *)
Definition tokensPerSecond (completionTokens : Z) (generationMs : option Z) : option Z :=
  match generationMs with
  | None => None
  | Some window =>
      if window <? MIN_RATE_WINDOW_MS then None
      else if completionTokens <? MIN_RATE_TOKENS then None
      else Some (to_fixed 1000 (double_quotient (completionTokens * 1000) window))
  end.

(** ** The row *)

Record Generation := {
  ge_id : jstr;
  ge_workspaceId : jstr;
  ge_apiKeyId : option jstr;
  ge_modelId : jstr;
  ge_endpointId : option jstr;
  ge_externalEndpointId : option jstr;
  ge_evidenceSnapshotId : option jstr;
  ge_evidenceDigest : option jstr;
  ge_promptTokens : Z;
  ge_completionTokens : Z;
  ge_costMicros : Z;
  ge_promptPer1mMicros : Z;
  ge_completionPer1mMicros : Z;
  ge_streamed : bool;
  ge_status : GenerationStatus;
  ge_errorCode : option jstr;
  ge_finishReason : option jstr;
  ge_latencyMs : Z;
  ge_timeToFirstTokenMs : option Z;
  ge_tokensPerSecond : option Z;
  ge_requestId : option jstr;
  ge_clientIpHash : option jstr;
  ge_client : GenerationClient;
  ge_createdAt : Z
}.

Definition generationEndpointIsExclusive (row : Generation) : bool :=
  xorb (match ge_endpointId row with None => true | Some _ => false end)
       (match ge_externalEndpointId row with None => true | Some _ => false end).

(** What PostgreSQL takes into the columns a request can overflow: [varchar(64)] and
    [int].  SQLite takes anything. *)
Definition characters (s : jstr) : Z :=
  Z.of_nat (length (List.filter (fun c => negb ((56320 <=? c) && (c <=? 57343))%N) (units s))).

Definition fits_varchar (n : Z) (s : option jstr) : bool := match s with Some s => characters s <=? n | None => true end.

Definition fits_int (n : Z) : bool := (- 2 ^ 31 <=? n) && (n <? 2 ^ 31).

Definition fits_columns (row : Generation) : bool :=
  fits_varchar 64 (ge_finishReason row) && fits_varchar 64 (ge_errorCode row) && fits_varchar 64 (ge_requestId row) &&
  fits_int (ge_promptTokens row) && fits_int (ge_completionTokens row) && fits_int (ge_latencyMs row).

(** ** The meter *)

Record InviteAttribution := { at_campaign : option jstr; at_hadInviteGrant : bool }.

Record FirstRequestSent := {
  fr_distinctId : jstr;
  fr_workspaceId : jstr;
  fr_timestamp : Z;
  fr_attribution : InviteAttribution;
  fr_modelSlug : jstr;
  fr_client : GenerationClient;
  fr_hoursSinceSignup : Z
}.

(** The tables the meter writes, the detached top-up checks it started and the events
    it captured. *)
Record Meter := {
  mt_store : Store;
  mt_generations : list Generation;
  mt_keys : list ApiKey;
  mt_considered : list jstr;
  mt_captured : list FirstRequestSent
}.

Definition MS_PER_HOUR : Z := 3600000.

(** [InviteAttributionService.forWorkspace] *)
Definition forWorkspace (db : Store) (workspaceId : jstr) : InviteAttribution :=
  match find_first (fun r => jeqb (ir_workspaceId r) workspaceId) (invite_redemptions db) with
  | Some r => {| at_campaign := ic_campaign <$> invite_codes db !! ir_inviteCodeId r; at_hadInviteGrant := true |}
  | None => {| at_campaign := None; at_hadInviteGrant := false |}
  end.

Definition with_first_request (at_ : Z) (w : Workspace) : Workspace :=
  {| balanceMicros := balanceMicros w; stripeCustomerId := stripeCustomerId w; autoTopUpEnabled := autoTopUpEnabled w;
     autoTopUpThresholdMicros := autoTopUpThresholdMicros w; autoTopUpAmountMicros := autoTopUpAmountMicros w;
     autoTopUpLastAt := autoTopUpLastAt w; firstRequestAt := Some at_; ws_createdAt := ws_createdAt w |}.

(** [reportFirstRequest]; [owners] is [WorkspaceOwnerService.ownerOf]. *)
Definition reportFirstRequest (owners : jstr -> option jstr) (record : Generation) (m : Meter) : Meter :=
  let '(db, affected) :=
    update_workspace (ge_workspaceId record) (fun w => match firstRequestAt w with None => true | Some _ => false end)
      (with_first_request (ge_createdAt record)) (mt_store m) in
  let claimed := {| mt_store := db; mt_generations := mt_generations m; mt_keys := mt_keys m;
                    mt_considered := mt_considered m; mt_captured := mt_captured m |} in
  if affected =? 0 then claimed
  else
    match present (owners (ge_workspaceId record)) with
    | None => claimed
    | Some ownerId =>
        let hours := match workspaces db !! ge_workspaceId record with
                     | Some w => Z.max 0 ((ge_createdAt record - ws_createdAt w) / MS_PER_HOUR)
                     | None => 0
                     end in
        {| mt_store := db; mt_generations := mt_generations m; mt_keys := mt_keys m; mt_considered := mt_considered m;
           mt_captured := mt_captured m ++
             [{| fr_distinctId := ownerId; fr_workspaceId := ge_workspaceId record; fr_timestamp := ge_createdAt record;
                 fr_attribution := forWorkspace db (ge_workspaceId record); fr_modelSlug := ge_modelId record;
                 fr_client := ge_client record; fr_hoursSinceSignup := hours |}] |}
    end.

Section Recording.
(** The row constraints the driver enforces, and the owners of workspaces. *)
Context (accepts : Generation -> bool) (owners : jstr -> option jstr).

Definition insert_generation (row : Generation) (table : list Generation) : option (list Generation) :=
  if existsb (fun g => jeqb (ge_id g) (ge_id row)) table || negb (accepts row) then None else Some (table ++ [row]).

(** [MeteringService.record]: three statements in turn, each kept when a later one
    fails, and the failure swallowed; then the first-request claim. *)
Definition meter_generation (env : write_env) (record : Generation) (m : Meter) : Meter :=
  match insert_generation record (mt_generations m) with
  | None => m
  | Some generations =>
      let keys := match ge_apiKeyId record with
                  | Some key => recordSpend key (ge_costMicros record) (mt_keys m)
                  | None => mt_keys m
                  end in
      let debit := {| gd_workspaceId := ge_workspaceId record; gd_generationId := ge_id record;
                      gd_amountMicros := ge_costMicros record |} in
      match debit_credits env debit (mt_store m) with
      | (db, Err _) =>
          {| mt_store := db; mt_generations := generations; mt_keys := keys; mt_considered := mt_considered m;
             mt_captured := mt_captured m |}
      | (db, Ok check) =>
          reportFirstRequest owners record
            {| mt_store := db; mt_generations := generations; mt_keys := keys;
               mt_considered := mt_considered m ++ (if check then [ge_workspaceId record] else []);
               mt_captured := mt_captured m |}
      end
  end.
End Recording.

(** ** The recorder *)

Record GenerationStart := { gs_id : jstr; gs_coverage : option EvidenceCoverage; gs_evidenceDigest : option jstr }.

(** [GenerationRecorder.begin]; [coverage] is what [currentFor] answers. *)
Definition begin_generation (id : jstr) (coverage : jstr -> option EvidenceCoverage) (model : RoutedModel) : GenerationStart :=
  match rm_external model with
  | Some external => {| gs_id := id; gs_coverage := None; gs_evidenceDigest := er_evidenceDigestSeen external |}
  | None =>
      let c := coverage (re_id (rm_endpoint model)) in
      {| gs_id := id; gs_coverage := c; gs_evidenceDigest := cov_evidenceDigest <$> c |}
  end.

(** [GenerationRecorder.finish]: the row it hands to the meter; [hash] is the salted hash. *)
Definition finish_generation (hash : jstr -> jstr) (context : GatewayContext) (outcome : GenerationOutcome) (now : Z) : Generation :=
  let latencyMs := now - gc_startedAt context in
  let generationMs := (fun ttft => latencyMs - ttft) <$> go_timeToFirstTokenMs outcome in
  let model := gc_model context in
  let usage := go_usage outcome in
  let is_external := match rm_external model with Some _ => true | None => false end in
  {| ge_id := gc_generationId context;
     ge_workspaceId := au_workspaceId (gc_auth context);
     ge_apiKeyId := Some (ak_id (au_key (gc_auth context)));
     ge_modelId := rm_id model;
     ge_endpointId := if is_external then None else Some (re_id (rm_endpoint model));
     ge_externalEndpointId := if is_external then Some (re_id (rm_endpoint model)) else None;
     ge_evidenceSnapshotId := cov_snapshotId <$> gc_coverage context;
     ge_evidenceDigest := gc_evidenceDigest context;
     ge_promptTokens := promptTokens usage;
     ge_completionTokens := completionTokens usage;
     ge_costMicros := computeCostMicros usage (rm_pricing model);
     ge_promptPer1mMicros := promptPer1mMicros (rm_pricing model);
     ge_completionPer1mMicros := completionPer1mMicros (rm_pricing model);
     ge_streamed := gc_stream context;
     ge_status := go_status outcome;
     ge_errorCode := go_errorCode outcome;
     ge_finishReason := go_finishReason outcome;
     ge_latencyMs := latencyMs;
     ge_timeToFirstTokenMs := go_timeToFirstTokenMs outcome;
     ge_tokensPerSecond := tokensPerSecond (completionTokens usage) generationMs;
     ge_requestId := gc_requestId context;
     ge_clientIpHash := hash <$> present (gc_clientIp context);
     ge_client := gc_client context;
     ge_createdAt := gc_startedAt context |}.

(** ** Coverage *)

Record EvidenceSnapshot := { es_id : jstr; es_endpointId : jstr; es_evidenceDigest : jstr; es_issuedAt : Z }.

Definition CACHE_TTL_MS : Z := 10000.

Record CoverageEntry := { cc_at : Z; cc_coverage : option EvidenceCoverage }.

Definition CoverageCache := gmap jstr CoverageEntry.

(** [findOne] with [order: { issuedAt: 'DESC' }]: a newest snapshot of the endpoint. *)
Definition newest_snapshot (endpointId : jstr) (table : list EvidenceSnapshot) : option EvidenceSnapshot :=
  foldl (fun best s =>
    if jeqb (es_endpointId s) endpointId then
      match best with
      | Some b => if es_issuedAt b <? es_issuedAt s then Some s else best
      | None => Some s
      end
    else best) None table.

Definition coverage_of (freshnessWindow now : Z) (snapshot : option EvidenceSnapshot) : option EvidenceCoverage :=
  match snapshot with
  | Some s => if now - es_issuedAt s <=? freshnessWindow
              then Some {| cov_snapshotId := es_id s; cov_evidenceDigest := es_evidenceDigest s |} else None
  | None => None
  end.

Definition currentFor (freshnessWindow : Z) (table : list EvidenceSnapshot) (endpointId : jstr) (now : Z) (cache : CoverageCache)
    : CoverageCache * option EvidenceCoverage :=
  let cached := match cache !! endpointId with
                | Some e => if now - cc_at e <? CACHE_TTL_MS then Some (cc_coverage e) else None
                | None => None
                end in
  match cached with
  | Some coverage => (cache, coverage)
  | None =>
      let coverage := coverage_of freshnessWindow now (newest_snapshot endpointId table) in
      (<[endpointId := {| cc_at := now; cc_coverage := coverage |}]> cache, coverage)
  end.

(** ** Owners *)

Definition CACHE_LIMIT : Z := 1000.

(** A [Map]: insertion order, oldest first. *)
Definition Owners := list (jstr * jstr).

Definition remember (workspaceId userId : jstr) (owners : Owners) : Owners :=
  set_member workspaceId userId (if CACHE_LIMIT <=? Z.of_nat (length owners) then tail owners else owners).

(** [ownerOf]; [members] is the table's owner of a workspace. *)
Definition ownerOf (members : jstr -> option jstr) (workspaceId : jstr) (owners : Owners) : Owners * option jstr :=
  match find_first (fun kv => jeqb (fst kv) workspaceId) owners with
  | Some (_, cached) => (owners, Some cached)
  | None =>
      match members workspaceId with
      | None => (owners, None)
      | Some userId => (remember workspaceId userId owners, Some userId)
      end
  end.

Definition forget (workspaceId : jstr) (owners : Owners) : Owners :=
  List.filter (fun kv => negb (jeqb (fst kv) workspaceId)) owners.

(** ** Lemmas: identifiers *)

Lemma crockford_mono a b : (a < b < 32)%N -> (crockford a < crockford b)%N.
Proof.
  intros H. assert (forallb (fun a => forallb (fun b => negb (a <? b)%nat || (crockford (N.of_nat a) <? crockford (N.of_nat b))%N)
    (seq 0 32)) (seq 0 32) = true) as Hall by (vm_compute; reflexivity).
  rewrite forallb_forall in Hall. specialize (Hall (N.to_nat a) ltac:(apply in_seq; lia)).
  rewrite forallb_forall in Hall. specialize (Hall (N.to_nat b) ltac:(apply in_seq; lia)).
  rewrite !N2Nat.id, (proj2 (Nat.ltb_lt _ _)) in Hall by lia. by apply N.ltb_lt in Hall.
Qed.

Lemma time_chars_order count n m a1 a2 : (n < 32 ^ N.of_nat count)%N -> (m < 32 ^ N.of_nat count)%N ->
  ((n < m)%N -> forall r1 r2, units_ltb (time_chars count n a1 ++ r1) (time_chars count m a2 ++ r2) = true) /\
  (n = m -> forall r1 r2, units_ltb (time_chars count n a1 ++ r1) (time_chars count m a2 ++ r2) = units_ltb (a1 ++ r1) (a2 ++ r2)).
Proof.
  revert n m a1 a2; induction count as [|count IH]; intros n m a1 a2 Hn Hm; cbn [time_chars].
  - change (32 ^ N.of_nat 0)%N with 1%N in *. split; [lia|done].
  - rewrite Nat2N.inj_succ, N.pow_succ_r' in Hn, Hm.
    assert (forall k, (k < 32 * 32 ^ N.of_nat count -> k / 32 < 32 ^ N.of_nat count)%N) as Hdiv by (intros k Hk; by apply N.Div0.div_lt_upper_bound).
    destruct (IH (n / 32)%N (m / 32)%N (crockford (n mod 32)%N :: a1) (crockford (m mod 32)%N :: a2) (Hdiv _ Hn) (Hdiv _ Hm)) as [Hlt Heq].
    pose proof (N.div_mod n 32 ltac:(lia)) as Dn. pose proof (N.div_mod m 32 ltac:(lia)) as Dm.
    pose proof (N.mod_lt n 32 ltac:(lia)). pose proof (N.mod_lt m 32 ltac:(lia)). split.
    + intros Hnm r1 r2. destruct (N.lt_trichotomy (n / 32) (m / 32)) as [H'|[H'|H']]; [by apply Hlt| |lia].
      rewrite Heq by done. cbn [app units_ltb].
      assert (crockford (n mod 32) < crockford (m mod 32))%N as Hc by (apply crockford_mono; lia).
      by rewrite (proj2 (N.ltb_lt _ _) Hc).
    + intros -> r1 r2. rewrite Heq by done. cbn [app units_ltb]. by rewrite N.ltb_irrefl, N.eqb_refl.
Qed.

Lemma units_ltb_app p a b : units_ltb (p ++ a) (p ++ b) = units_ltb a b.
Proof. induction p as [|c p IH]; [done|]. cbn. by rewrite N.ltb_irrefl, N.eqb_refl. Qed.

(** Generation identifiers sort by creation time: of two minted in different
    milliseconds the earlier is the smaller string, whatever the random bytes, for
    every clock the ten characters can hold. *)
Theorem generation_ids_sort_by_time now1 now2 bytes1 bytes2 :
  (now1 < now2)%N -> (now2 < 32 ^ 10)%N ->
  jltb (generationId now1 bytes1) (generationId now2 bytes2) = true /\
  jlength (generationId now1 bytes1) = 14 + Z.of_nat (length bytes1).
Proof.
  intros Hlt Hmax. unfold generationId, ulid, jltb, japp. cbn [units]. split.
  - rewrite units_ltb_app. apply time_chars_order; [exact (N.lt_trans _ _ _ Hlt Hmax)|exact Hmax|exact Hlt].
  - unfold jlength. cbn [units]. rewrite !length_app, length_map. change (length (units "gen-")) with 4%nat.
    change (length (time_chars TIME_CHARS now1 [])) with 10%nat. cbn [length]. lia.
Qed.

(** ** Lemmas: the meter *)

Lemma insert_generation_some accepts row table table' : insert_generation accepts row table = Some table' ->
  table' = table ++ [row] /\ accepts row = true /\ forall g, g ∈ table -> ge_id g <> ge_id row.
Proof.
  unfold insert_generation. destruct (existsb _ table) eqn:E; [done|]. destruct (accepts row); [|done]. intros [= <-].
  split_and!; [done..|]. intros g Hg He. apply not_true_iff_false in E. apply E, existsb_exists. exists g.
  rewrite He, jeqb_refl. split; [by apply list_elem_of_In|done].
Qed.

Lemma insert_generation_taken accepts row table g : g ∈ table -> ge_id g = ge_id row -> insert_generation accepts row table = None.
Proof.
  intros Hg He. unfold insert_generation. assert (existsb (fun g => jeqb (ge_id g) (ge_id row)) table = true) as ->; [|done].
  apply existsb_exists. exists g. rewrite He, jeqb_refl. split; [by apply list_elem_of_In|done].
Qed.

Lemma report_keeps owners row m : mt_generations (reportFirstRequest owners row m) = mt_generations m /\
  mt_keys (reportFirstRequest owners row m) = mt_keys m /\ mt_considered (reportFirstRequest owners row m) = mt_considered m /\
  credit_transactions (mt_store (reportFirstRequest owners row m)) = credit_transactions (mt_store m) /\
  forall id, balanceMicros <$> workspaces (mt_store (reportFirstRequest owners row m)) !! id = balanceMicros <$> workspaces (mt_store m) !! id.
Proof.
  unfold reportFirstRequest. destruct (update_workspace _ _ _ _) as [db n] eqn:E.
  assert (credit_transactions db = credit_transactions (mt_store m) /\
          forall id, balanceMicros <$> workspaces db !! id = balanceMicros <$> workspaces (mt_store m) !! id) as [Hc Hb].
  { apply update_workspace_affected in E as [[_ ->]|[_ (w & Hw & _ & ->)]]; [done|]. split; [done|]. intros id. cbn.
    destruct (decide (ge_workspaceId row = id)) as [<-|Hne]; [by rewrite lookup_insert_eq, Hw|by rewrite lookup_insert_ne]. }
  destruct (n =? 0); [done|]. by destruct (present _).
Qed.

Lemma meter_generation_rows accepts owners env row m :
  mt_generations (meter_generation accepts owners env row m) = mt_generations m \/
  mt_generations (meter_generation accepts owners env row m) = mt_generations m ++ [row].
Proof.
  unfold meter_generation. destruct (insert_generation accepts row (mt_generations m)) as [t|] eqn:E; [|by left].
  apply insert_generation_some in E as (-> & _). right.
  destruct (debit_credits _ _ _) as [db [check|e]]; [by rewrite (proj1 (report_keeps _ _ _))|done].
Qed.

(** The table takes a row with a new id that its columns hold, and otherwise the whole
    recording leaves the meter as it was. *)
Lemma meter_generation_row accepts owners env row m :
  let refused := existsb (fun g => jeqb (ge_id g) (ge_id row)) (mt_generations m) || negb (accepts row) in
  mt_generations (meter_generation accepts owners env row m) = mt_generations m ++ (if refused then [] else [row]) /\
  (refused = true -> meter_generation accepts owners env row m = m).
Proof.
  cbv zeta. unfold meter_generation, insert_generation. destruct (_ || _); [by rewrite app_nil_r|]. split; [|done].
  destruct (debit_credits _ _ _) as [db [check|e]]; [by rewrite (proj1 (report_keeps _ _ _))|done].
Qed.

(** C6. A generation is charged once.  The first recording appends its row, adds its cost
    to the key's spend and debits the workspace by it under the generation's own key;
    any later recording of the same id, whatever it says, changes nothing. *)
Theorem metering_charges_once accepts owners env row m w :
  accepts row = true -> (forall g, g ∈ mt_generations m -> ge_id g <> ge_id row) ->
  workspaces (mt_store m) !! ge_workspaceId row = Some w ->
  "generation:" +++ ge_id row ∉ map ct_idempotencyKey (credit_transactions (mt_store m)) ->
  env_uuid env ∉ map ct_id (credit_transactions (mt_store m)) ->
  let m' := meter_generation accepts owners env row m in
  mt_generations m' = mt_generations m ++ [row] /\
  mt_keys m' = match ge_apiKeyId row with Some k => recordSpend k (ge_costMicros row) (mt_keys m) | None => mt_keys m end /\
  balanceMicros <$> workspaces (mt_store m') !! ge_workspaceId row = Some (balanceMicros w - Z.max 0 (ge_costMicros row)) /\
  length (credit_transactions (mt_store m')) =
    (length (credit_transactions (mt_store m)) + (if (0 <? ge_costMicros row)%Z then 1 else 0))%nat /\
  forall accepts' owners' env' row', ge_id row' = ge_id row -> meter_generation accepts' owners' env' row' m' = m'.
Proof.
  intros Ha Hf Hw Hk Hu. cbv zeta.
  assert (insert_generation accepts row (mt_generations m) = Some (mt_generations m ++ [row])) as Hi.
  { unfold insert_generation. rewrite Ha, orb_false_r. destruct (existsb _ _) eqn:E; [|done]. exfalso.
    apply existsb_exists in E as (g & Hg%list_elem_of_In & He%jeqb_eq). by apply (Hf g). }
  assert (mt_generations (meter_generation accepts owners env row m) = mt_generations m ++ [row]) as Hg.
  { unfold meter_generation. rewrite Hi. destruct (debit_credits _ _ _) as [db [check|e]]; [by rewrite (proj1 (report_keeps _ _ _))|done]. }
  assert (forall accepts' owners' env' row', ge_id row' = ge_id row ->
    meter_generation accepts' owners' env' row' (meter_generation accepts owners env row m) = meter_generation accepts owners env row m) as Hagain.
  { intros accepts' owners' env' row' He. unfold meter_generation at 1. rewrite Hg, (insert_generation_taken accepts' row' _ row); [done| |done].
    apply elem_of_app. right. by left. }
  assert (forall A B C D E : Prop, A /\ B /\ C /\ D -> E -> A /\ B /\ C /\ D /\ E) as Hfinal by tauto.
  apply Hfinal; [clear Hfinal Hagain Hg|exact Hagain].
  unfold meter_generation. rewrite Hi. unfold debit_credits, debitGeneration. cbn [gd_amountMicros].
  destruct (Z.leb_spec (ge_costMicros row) 0) as [Hz|Hz].
  - destruct (report_keeps owners row {| mt_store := mt_store m; mt_generations := mt_generations m ++ [row];
      mt_keys := match ge_apiKeyId row with Some k => recordSpend k (ge_costMicros row) (mt_keys m) | None => mt_keys m end;
      mt_considered := mt_considered m ++ []; mt_captured := mt_captured m |}) as (H1 & H2 & _ & H4 & H5).
    split_and!; [exact H1|exact H2| |].
    + rewrite H5. cbn [mt_store]. rewrite Hw. cbn. f_equal. lia.
    + rewrite H4. cbn [mt_store]. rewrite (proj2 (Z.ltb_ge _ _)) by lia. lia.
  - set (input := debit_input _).
    destruct (record_fresh env input (mt_store m) w) as (db' & entry & Hr & Hrep & Hws & Hct & _); try done.
    { unfold assertSign, input. cbn. destruct (- ge_costMicros row =? 0) eqn:E; [apply Z.eqb_eq in E; lia|]. cbn. by rewrite (proj2 (Z.ltb_ge _ _)) by lia. }
    rewrite Hr, Hrep. cbn [negb].
    destruct (report_keeps owners row {| mt_store := db'; mt_generations := mt_generations m ++ [row];
      mt_keys := match ge_apiKeyId row with Some k => recordSpend k (ge_costMicros row) (mt_keys m) | None => mt_keys m end;
      mt_considered := mt_considered m ++ [ge_workspaceId row]; mt_captured := mt_captured m |}) as (H1 & H2 & _ & H4 & H5).
    split_and!; [exact H1|exact H2| |].
    + rewrite H5. cbn [mt_store]. rewrite Hws. change (in_workspaceId input) with (ge_workspaceId row). rewrite lookup_insert_eq. cbn. f_equal. lia.
    + rewrite H4. cbn [mt_store]. rewrite Hct, length_app, (proj2 (Z.ltb_lt _ _)) by lia. cbn. lia.
Qed.

(** ** Lemmas: the first request *)

Definition first_request (id : jstr) (m : Meter) : option (option Z) := firstRequestAt <$> workspaces (mt_store m) !! id.

Definition captured_for (id : jstr) (m : Meter) : list FirstRequestSent :=
  List.filter (fun e => jeqb (fr_workspaceId e) id) (mt_captured m).

(** Nothing was captured for the workspace, or one event, dated by its column. *)
Definition reported_once (id : jstr) (start : option (option Z)) (m : Meter) : Prop :=
  match start with
  | Some (Some t) => captured_for id m = [] /\ first_request id m = Some (Some t)
  | _ => captured_for id m = [] \/ exists e, captured_for id m = [e] /\ first_request id m = Some (Some (fr_timestamp e))
  end.

Lemma debit_keeps_first env d db id :
  firstRequestAt <$> workspaces (fst (debit_credits env d db)) !! id = firstRequestAt <$> workspaces db !! id.
Proof.
  unfold debit_credits, debitGeneration. destruct (_ <=? 0); [done|].
  pose proof (record_keeps firstRequestAt env (debit_input d) db id ltac:(done)) as H.
  by destruct (record env _ db) as [db' [e|e]].
Qed.

Lemma report_once owners row m id start : reported_once id start m -> reported_once id start (reportFirstRequest owners row m).
Proof.
  intros H. unfold reportFirstRequest. destruct (update_workspace _ _ _ _) as [db n] eqn:E.
  apply update_workspace_affected in E as [[-> ->]|[-> (w & Hw & Hc & ->)]]; [exact H|]. change (1 =? 0) with false. cbv iota.
  destruct (decide (ge_workspaceId row = id)) as [<-|Hne].
  - destruct (firstRequestAt w) eqn:Ef; [done|]. assert (first_request (ge_workspaceId row) m = Some None) as Hf
      by (unfold first_request; rewrite Hw; cbn; by rewrite Ef).
    assert (captured_for (ge_workspaceId row) m = [] /\ match start with Some (Some _) => False | _ => True end) as [Hn Hs].
    { unfold reported_once in H. destruct start as [[t|]|]; [destruct H; congruence|..];
        (destruct H as [H|(e & _ & H)]; [by split|congruence]). }
    assert (reported_once (ge_workspaceId row) start = fun m => captured_for (ge_workspaceId row) m = [] \/
      exists e, captured_for (ge_workspaceId row) m = [e] /\ first_request (ge_workspaceId row) m = Some (Some (fr_timestamp e))) as ->
      by (unfold reported_once; by destruct start as [[]|]).
    destruct (present _); [right|by left]. unfold captured_for, first_request in *. cbn [mt_captured mt_store].
    rewrite List.filter_app, Hn. cbn. rewrite jeqb_refl, lookup_insert_eq. eexists; split; [done|]. done.
  - assert (forall m', captured_for id m' = captured_for id m -> first_request id m' = first_request id m -> reported_once id start m') as Hk.
    { intros m' H1 H2. unfold reported_once in *. by rewrite H1, H2. }
    assert (first_request id m = firstRequestAt <$> <[ge_workspaceId row := with_first_request (ge_createdAt row) w]> (workspaces (mt_store m)) !! id) as Hf
      by (unfold first_request; by rewrite lookup_insert_ne).
    destruct (present _); apply Hk; try done. unfold captured_for. cbn [mt_captured]. rewrite List.filter_app. cbn.
    rewrite (proj2 (jeqb_neq _ _)) by done. apply app_nil_r.
Qed.

Lemma meter_once accepts owners env row m id start :
  reported_once id start m -> reported_once id start (meter_generation accepts owners env row m).
Proof.
  intros H. unfold meter_generation. destruct (insert_generation _ _ _); [|done].
  set (d := Build_GenerationDebit _ _ _). pose proof (debit_keeps_first env d (mt_store m) id) as Hd.
  assert (forall g k c, reported_once id start {| mt_store := fst (debit_credits env d (mt_store m)); mt_generations := g; mt_keys := k;
    mt_considered := c; mt_captured := mt_captured m |}) as Hk.
  { intros g k c. unfold reported_once, captured_for, first_request in *. cbn [mt_captured mt_store]. by rewrite Hd. }
  destruct (debit_credits env d (mt_store m)) as [db [check|e]]; [apply report_once|]; apply Hk.
Qed.

(** [first_request_sent] is captured at most once per workspace, however many
    generations are metered and in whatever order; the event carries the instant the
    workspace's column holds; and a workspace that had sent a request before gets
    none. *)
Theorem first_request_reported_once accepts owners db generations keys considered calls id :
  let start := {| mt_store := db; mt_generations := generations; mt_keys := keys; mt_considered := considered; mt_captured := [] |} in
  let m := foldl (fun m call => meter_generation accepts owners (fst call) (snd call) m) start calls in
  (captured_for id m = [] \/
   exists e, captured_for id m = [e] /\ firstRequestAt <$> workspaces (mt_store m) !! id = Some (Some (fr_timestamp e))) /\
  (forall t, firstRequestAt <$> workspaces db !! id = Some (Some t) -> captured_for id m = []).
Proof.
  cbv zeta. set (start := Build_Meter _ _ _ _ _). assert (forall calls m, reported_once id (first_request id start) m ->
    reported_once id (first_request id start) (foldl (fun m call => meter_generation accepts owners (fst call) (snd call) m) m calls)) as Hrun.
  { clear calls. induction calls as [|call calls IH]; intros m H; [done|]. cbn [foldl]. apply IH. by apply meter_once. }
  specialize (Hrun calls start). set (m := foldl _ start calls) in *. change (firstRequestAt <$> workspaces db !! id) with (first_request id start).
  change (firstRequestAt <$> workspaces (mt_store m) !! id) with (first_request id m).
  destruct (first_request id start) as [[t|]|] eqn:E; cbn [reported_once] in Hrun.
  - destruct Hrun as [Hc Hf]; [by split|]. split; [by left|]. by intros.
  - split; [apply Hrun; by left|]. intros t [= Ht].
  - split; [apply Hrun; by left|]. intros t [=].
Qed.

(** ** A row the table refuses *)

(** On PostgreSQL a generation whose finish reason is longer than its column is
    neither recorded nor charged.  The reason is the upstream's, forwarded as it came,
    so an endpoint that sends a long one is served for nothing. *)
Theorem overlong_finish_reason_is_free owners hash context outcome chunk env now m :
  go_finishReason outcome = finishReasonOf chunk ->
  (exists reason, finishReasonOf chunk = Some reason /\ 64 < characters reason) ->
  meter_generation fits_columns owners env (finish_generation hash context outcome now) m = m.
Proof.
  intros Hf (reason & Hr & Hlong). unfold meter_generation, insert_generation.
  assert (fits_columns (finish_generation hash context outcome now) = false) as ->.
  { unfold fits_columns, finish_generation, fits_varchar. cbn [ge_finishReason]. rewrite Hf, Hr.
    by rewrite (proj2 (Z.leb_gt _ _)). }
  cbn [negb]. by rewrite orb_true_r.
Qed.

(** ** Coverage *)

Definition coverage_call : Type := list EvidenceSnapshot * jstr * Z.

Definition coverage_step (freshnessWindow : Z) (cache : CoverageCache) (call : coverage_call) : CoverageCache :=
  let '(table, endpointId, now) := call in fst (currentFor freshnessWindow table endpointId now cache).

Lemma cache_is_answers window calls endpointId e :
  foldl (coverage_step window) ∅ calls !! endpointId = Some e ->
  exists table, (table, endpointId, cc_at e) ∈ calls /\
    cc_coverage e = coverage_of window (cc_at e) (newest_snapshot endpointId table).
Proof.
  induction calls as [|[[table id] now] calls IH] using rev_ind; [done|]. rewrite foldl_snoc. cbn [coverage_step].
  set (cache := foldl _ ∅ calls) in *. intros H.
  assert (cache !! endpointId = Some e \/ (id = endpointId /\ e = {| cc_at := now; cc_coverage := coverage_of window now (newest_snapshot id table) |})) as [Hc|[-> ->]].
  { unfold currentFor in H. destruct (match cache !! id with Some e => _ | None => None end); [by left|]. cbv zeta in H. cbn [fst] in H. unfold CoverageCache in *.
    destruct (decide (id = endpointId)) as [->|Hne]; [rewrite lookup_insert_eq in H; injection H as <-; by right|].
    rewrite lookup_insert_ne in H by done. by left. }
  - destruct (IH Hc) as (t & Hin & He). exists t. split; [apply elem_of_app; by left|done].
  - exists table. split; [apply elem_of_app; right; by left|done].
Qed.

(** Coverage is never older than the cache allows.  Whatever was asked before, and
    however the table changed in between, an answer is what some call for the same
    endpoint, less than ten seconds older, computed from the table it saw; so a
    snapshot named as coverage is within the freshness window plus ten seconds. *)
Theorem coverage_is_recent window calls table endpointId now :
  let answer := snd (currentFor window table endpointId now (foldl (coverage_step window) ∅ calls)) in
  (exists table' at_, (table', endpointId, at_) ∈ calls ++ [(table, endpointId, now)] /\ now - at_ < CACHE_TTL_MS /\
     answer = coverage_of window at_ (newest_snapshot endpointId table')) /\
  (forall c, answer = Some c -> exists table' s, newest_snapshot endpointId table' = Some s /\ es_id s = cov_snapshotId c /\
     now - es_issuedAt s < window + CACHE_TTL_MS).
Proof.
  cbv zeta. set (cache := foldl _ ∅ calls). assert (exists table' at_,
    (table', endpointId, at_) ∈ calls ++ [(table, endpointId, now)] /\ now - at_ < CACHE_TTL_MS /\
    snd (currentFor window table endpointId now cache) = coverage_of window at_ (newest_snapshot endpointId table')) as H.
  { unfold currentFor. assert (exists table' at_, (table', endpointId, at_) ∈ calls ++ [(table, endpointId, now)] /\ now - at_ < CACHE_TTL_MS /\
      coverage_of window now (newest_snapshot endpointId table) = coverage_of window at_ (newest_snapshot endpointId table')) as Hnew.
    { exists table, now. split; [apply elem_of_app; right; by left|]. unfold CACHE_TTL_MS. split; [lia|done]. }
    destruct (cache !! endpointId) as [e|] eqn:E; [|exact Hnew]. destruct (now - cc_at e <? CACHE_TTL_MS) eqn:Et; [|exact Hnew].
    apply cache_is_answers in E as (t & Hin & He). exists t, (cc_at e). split; [apply elem_of_app; by left|].
    split; [by apply Z.ltb_lt|done]. }
  split; [exact H|]. destruct H as (table' & at_ & _ & Hat & ->). unfold coverage_of. intros c.
  destruct (newest_snapshot endpointId table') as [s|] eqn:Es; [|done]. destruct (at_ - es_issuedAt s <=? window) eqn:Ew; [|done].
  intros [= <-]. exists table', s. split_and!; [done..|]. apply Z.leb_le in Ew. lia.
Qed.

(** ** Witnesses *)

Lemma generation_ids_sort_by_time_witness :
  jltb (generationId 1767225600000 [255; 7]%N) (generationId 1767225600001 [0; 0]%N) = true.
Proof.
  destruct (generation_ids_sort_by_time 1767225600000 1767225600001 [255; 7]%N [0; 0]%N) as [H _]; [reflexivity|reflexivity|].
  exact H.
Defined.

Definition routed_example : RoutedModel :=
  {| rm_id := "acme/large"; rm_name := "Large"; rm_upstreamModel := "large"; rm_contextLength := 8192;
     rm_capabilities := [cap_chat]; rm_pricing := {| promptPer1mMicros := 1000000; completionPer1mMicros := 2000000 |};
     rm_origin := origin_config; rm_endpoint := {| re_id := "e"; re_name := "endpoint"; re_hostname := "h" |};
     rm_external := None; rm_updatedAt := 0 |}.

Definition context_example (stream : bool) : GatewayContext :=
  {| gc_kind := route_chat; gc_generationId := "gen-1"; gc_model := routed_example;
     gc_auth := {| au_key := plain_key None; au_workspaceId := "ws"; au_workspace := plain_workspace 0 |};
     gc_body := asking "acme/large"; gc_stream := stream; gc_upstreamPath := UPSTREAM_PATHS route_chat; gc_bridged := false;
     gc_suppressUsageChunk := stream; gc_coverage := None; gc_evidenceDigest := None; gc_rateLimitHeaders := [];
     gc_requestId := None; gc_clientIp := None; gc_client := other; gc_startedAt := 1000 |}.

Definition outcome_example (reason : option jstr) : GenerationOutcome :=
  {| go_usage := {| promptTokens := 10; completionTokens := 5 |}; go_status := generation_ok; go_errorCode := None;
     go_finishReason := reason; go_timeToFirstTokenMs := None |}.

Definition row_example : Generation := finish_generation (fun s => s) (context_example false) (outcome_example None) 1500.

Definition meter_example : Meter :=
  {| mt_store := one_workspace "ws"; mt_generations := []; mt_keys := []; mt_considered := []; mt_captured := [] |}.

Lemma metering_charges_once_witness :
  balanceMicros <$> workspaces (mt_store (meter_generation fits_columns (fun _ => None) (env_of "u") row_example meter_example)) !! ("ws" : jstr)
  = Some (-20).
Proof.
  destruct (metering_charges_once fits_columns (fun _ => None) (env_of "u") row_example meter_example (plain_workspace 0)) as (_ & _ & H & _);
    [reflexivity|intros g Hg; by apply elem_of_nil in Hg|reflexivity|apply not_elem_of_nil|apply not_elem_of_nil|].
  exact H.
Defined.

Definition long_chunk : json :=
  JObject [("choices" : jstr, JArray [JObject [("finish_reason" : jstr, JString (jrepeat 120 65))]])].

Lemma overlong_finish_reason_is_free_witness :
  meter_generation fits_columns (fun _ => None) (env_of "u")
    (finish_generation (fun s => s) (context_example false) (outcome_example (Some (jrepeat 120 65))) 1500) meter_example = meter_example.
Proof.
  apply (overlong_finish_reason_is_free (fun _ => None) (fun s => s) (context_example false) (outcome_example (Some (jrepeat 120 65)))
           long_chunk (env_of "u") 1500 meter_example).
  - vm_compute. reflexivity.
  - exists (jrepeat 120 65). split; vm_compute; reflexivity.
Defined.
