(* ===== verification/Gateway.v ===== *)
(** * The [/v1] request path

    [api/v1/gateway.service.ts], [litellm.client.ts], [external-upstream.client.ts] and
    the readers of [models.controller.ts] and [generations.controller.ts].  A request
    is prepared (resolved, translated, admitted, covered) into a context; what then
    comes of the one POST is an argument, and the result lists everything the handler
    did: what it wrote, what it threw, the rows it metered and the tokens it settled. *)

From S2P Require Import Prelude JsString Json JsDate Money Store Ledger Payments ApiKeys RateLimiter StatusProjection ExternalCatalog.
From S2P Require Import ConfigCatalog OpenAiError GatewayPolicy ClientDimension Sse ResponseShaping StreamRelay Metering.

(** ** The guard *)

Definition REJECTIONS (r : ApiKeyRejection) : OpenAiApiError :=
  match r with
  | invalid_api_key => OpenAiError.invalidApiKey
  | api_key_revoked => OpenAiError.apiKeyRevoked
  | api_key_expired => OpenAiError.apiKeyExpired
  end.

(** ** Configuration and requests *)

Record LiteLlmConfig := { ll_baseUrl : jstr; ll_apiKey : option jstr; ll_connectTimeout : Z; ll_readTimeout : Z }.

Record EgressConfig := { eg_connectTimeout : Z; eg_readTimeout : Z }.

Record GatewayRequest := { rq_body : json; rq_headers : HeaderBag; rq_ip : option jstr }.

Definition bodyOf (request : GatewayRequest) : result OpenAiApiError json :=
  match rq_body request with JObject m => Ok (JObject m) | _ => Err invalidJson end.

Definition headerOf (request : GatewayRequest) (name : jstr) : option jstr :=
  match rq_headers request name with
  | Some (One value) => if 0 <? jlength value then Some (jtake 64 value) else None
  | _ => None
  end.

Definition usageRequested (body : json) : bool := json_truthy (chain (member "stream_options" body) "include_usage").

(** ** Admission *)

(** What [resolveAndReport] sends to analytics. *)
Definition model_requested (toLowerCase : jstr -> jstr) (c : Catalogues) (kind : RouteKind) (body : json) (key : ApiKey) : option (jstr * ModelDemandResult) :=
  slug ← requestedModelSlug toLowerCase body;
  match resolve c kind body key with
  | Ok _ => Some (slug, demand_served)
  | Err e => r ← resultOf e; Some (slug, r)
  end.

(** Everything [handle] does before it opens a connection. *)
Definition prepare (config : PolicyConfig) (c : Catalogues) (db : Store) (coverage : jstr -> option EvidenceCoverage)
    (id : jstr) (admittedAt now : Z) (kind : RouteKind) (auth : AuthenticatedApiKey) (request : GatewayRequest) (buckets : Buckets)
    : Buckets * result thrown GatewayContext :=
  match bodyOf request with
  | Err e => (buckets, Err (Api e))
  | Ok body =>
      match resolve c kind body (au_key auth) with
      | Err e => (buckets, Err (Api e))
      | Ok model =>
          let bridged := bool_decide (kind = route_completions) && bridgesCompletions (rm_capabilities model) in
          match (if bridged then chatBodyForPrompt body else Ok body) with
          | Err e => (buckets, Err (Api e))
          | Ok upstreamBody =>
              match admit_request config db auth admittedAt buckets with
              | (buckets, Err e) => (buckets, Err e)
              | (buckets, Ok headers) =>
                  let start := begin_generation id coverage model in
                  let stream := negb (bool_decide (kind = route_embeddings)) &&
                                match member "stream" body with Some (JBool true) => true | _ => false end in
                  (buckets,
                   Ok {| gc_kind := kind; gc_generationId := gs_id start; gc_model := model; gc_auth := auth;
                         gc_body := upstreamBody; gc_stream := stream;
                         gc_upstreamPath := if bridged then UPSTREAM_PATHS route_chat else UPSTREAM_PATHS kind;
                         gc_bridged := bridged; gc_suppressUsageChunk := stream && negb (usageRequested body);
                         gc_coverage := gs_coverage start; gc_evidenceDigest := gs_evidenceDigest start;
                         gc_rateLimitHeaders := headers; gc_requestId := headerOf request "x-request-id";
                         gc_clientIp := rq_ip request; gc_client := clientOf (Some (rq_headers request)); gc_startedAt := now |})
              end
          end
      end
  end.

(** ** The two legs *)

Record UpstreamCall := {
  uc_url : jstr;
  uc_headers : list (jstr * jstr);
  uc_body : json;
  uc_responseTimeoutMs : Z
}.

(** [{ ...context.body, model }], and the usage chunk the meter needs. *)
Definition upstreamBodyFor (context : GatewayContext) : json :=
  let body := set_member "model" (JString (rm_upstreamModel (gc_model context))) (spread (gc_body context)) in
  if gc_suppressUsageChunk context then
    let existing := match member "stream_options" (JObject body) with Some JNull | None => [] | Some v => spread v end in
    JObject (set_member "stream_options" (JObject (set_member "include_usage" (JBool true) existing)) body)
  else JObject body.

Definition common_headers (stream : bool) : list (jstr * jstr) :=
  [("content-type" : jstr, "application/json" : jstr);
   ("accept" : jstr, if stream then "text/event-stream" : jstr else "application/json" : jstr)].

Definition litellm_call {J : JsonEngine} (config : LiteLlmConfig) (context : GatewayContext) : UpstreamCall :=
  {| uc_url := without_trailing_slashes (ll_baseUrl config) +++ gc_upstreamPath context;
     uc_headers := common_headers (gc_stream context) ++
       [("x-litellm-metadata" : jstr, json_stringify (JObject [("generation_id" : jstr, JString (gc_generationId context))]))] ++
       match present (ll_apiKey config) with Some key => [("authorization" : jstr, "Bearer " +++ key)] | None => [] end;
     uc_body := upstreamBodyFor context;
     uc_responseTimeoutMs := ll_connectTimeout config + ll_readTimeout config |}.

(** [open] is the secret envelope's reader: a ciphertext and its context to the key. *)
Definition external_call (open : jstr -> jstr -> option jstr) (config : EgressConfig) (context : GatewayContext) (route : ExternalRoute)
    : result OpenAiApiError UpstreamCall :=
  match open (er_apiKeyCiphertext route) (re_id (rm_endpoint (gc_model context))) with
  | None => Err internal
  | Some key =>
      Ok {| uc_url := without_trailing_slashes (er_baseUrl route) +++ gc_upstreamPath context;
            uc_headers := common_headers (gc_stream context) ++ [("authorization" : jstr, "Bearer " +++ key)];
            uc_body := upstreamBodyFor context;
            uc_responseTimeoutMs := eg_connectTimeout config + eg_readTimeout config |}
  end.

(** What [send] throws: an error of the leg's own, or the transport's. *)
Inductive SendError := Leg (e : OpenAiApiError) | Transport (e : TransportError).

(** The leg a context takes, and what its POST comes to. *)
Definition send {J : JsonEngine} {R} (open : jstr -> jstr -> option jstr) (litellm : LiteLlmConfig) (egress : EgressConfig)
    (context : GatewayContext) (attempts : UpstreamCall -> Z -> Attempt R) : result SendError R :=
  match rm_external (gc_model context) with
  | Some route =>
      match external_call open egress context route with
      | Err e => Err (Leg e)
      | Ok call =>
          match fst (postToUpstream (uc_responseTimeoutMs call) (attempts call)) with Ok r => Ok r | Err e => Err (Transport e) end
      end
  | None =>
      let call := litellm_call litellm context in
      match fst (postToUpstream (uc_responseTimeoutMs call) (attempts call)) with Ok r => Ok r | Err e => Err (Transport e) end
  end.

(** [Number(text)] of hundredths: no trailing zeros. *)
Definition hundredths_text (h : Z) : jstr :=
  jstring_of_Z (h / 100) +++
  (if h mod 100 =? 0 then Js []
   else "." +++ jstring_of_Z (h mod 100 / 10) +++ (if h mod 10 =? 0 then Js [] else jstring_of_Z (h mod 10))).

Definition secondsOf (ms : Z) : jstr :=
  (if 1000 <=? ms then jstring_of_Z ((ms + 500) / 1000)
   else if ms =? 0 then "0" else hundredths_text (to_fixed 100 (double_quotient ms 1000))) +++ "s".

Definition transport_message (e : TransportError) : jstr :=
  match e with
  | RawFetchError e => fe_message e
  | UpstreamTimeoutError ms => "The model backend did not start answering within " +++ secondsOf ms +++ "."
  | UpstreamUnavailableError message => message
  end.

Definition transportFailureOf (e : SendError) : OpenAiApiError :=
  match e with
  | Leg e => e
  | Transport (UpstreamTimeoutError ms) => upstreamTimeout (transport_message (UpstreamTimeoutError ms))
  | Transport e => backendUnavailable ("The model backend is unreachable: " +++ transport_message e)
  end.

(** [mapUpstreamFailure], and the external leg's [mapFailure]. *)
Definition map_failure {J : JsonEngine} (model : RoutedModel) (status : Z) (retryAfter raw : option jstr) : OpenAiApiError :=
  let body := readUpstreamError raw in
  match rm_external model with
  | None => upstreamFailureOf The_model_backend status retryAfter body
  | Some _ =>
      match gatekeeperDenialOf status (ub_parsed body) with
      | Some (stage, reason) =>
          attestationFailed ("The router has no valid attestation for the endpoint serving model " +++ quote (rm_id model) +++
                             " (" +++ stage +++ ": " +++ reason +++ "). Nothing was sent to it.")
      | None => upstreamFailureOf The_external_model_endpoint status retryAfter body
      end
  end.

Definition asUpstreamFailure (failure : exception) : OpenAiApiError :=
  match failure with
  | Thrown e => e
  | _ => backendUnavailable "The external model endpoint stopped sending data."
  end.

(** [classifyStreamFailure]; [verdicts] is [None] when the sidecar could not be asked. *)
Definition classifyStreamFailure (model : RoutedModel) (verdicts : option (list SidecarVerdict)) (failure : exception) : StreamFailure :=
  match verdicts ≫= find_first (fun v => jeqb (vd_endpoint v) (re_name (rm_endpoint model))) with
  | Some verdict =>
      if vd_admitted verdict then {| sf_status := generation_error; sf_error := asUpstreamFailure failure |}
      else
        let reason := default ("the endpoint is no longer admitted" : jstr)
                        (nullish (vd_reason verdict) (vd_report verdict ≫= rp_reason)) in
        let stage := default ("policy" : jstr) (vd_report verdict ≫= rp_stage) in
        {| sf_status := generation_aborted;
           sf_error := attestationRevoked
             ("The attestation of the endpoint serving model " +++ quote (rm_id model) +++
              " was withdrawn while this generation was streaming (" +++ stage +++ ": " +++ reason +++
              "); the connection was closed. Tokens already delivered are metered.") |}
  | None => {| sf_status := generation_error; sf_error := asUpstreamFailure failure |}
  end.

Definition failure_mapper (model : RoutedModel) (verdicts : option (list SidecarVerdict)) : exception -> StreamFailure :=
  match rm_external model with Some _ => classifyStreamFailure model verdicts | None => DEFAULT_FAILURE_MAPPER end.

(** ** Serving a prepared request *)

(** What came of the POST: [send]'s exception, a status that is not 2xx with its
    [Retry-After] and body, or an answer, read as a stream or whole ([None] when
    reading it failed). *)
Inductive Fetched :=
| Send_failed (e : SendError)
| Upstream_refused (status : Z) (retryAfter raw : option jstr)
| Upstream_streams (happened : list relay_event) (ending : relay_end)
| Upstream_answers (raw : option jstr).

(** What the handler did. *)
Record Served := {
  sv_socket : Socket;
  sv_reply : option json;              (* the 200 of a whole answer *)
  sv_thrown : option exception;        (* what the exception filter renders *)
  sv_outcomes : list GenerationOutcome;    (* [recorder.finish], in order *)
  sv_settled : list Z
}.

Definition failed_outcome (error : OpenAiApiError) : GenerationOutcome :=
  {| go_usage := {| promptTokens := 0; completionTokens := 0 |}; go_status := generation_error; go_errorCode := Some (oe_code error);
     go_finishReason := None; go_timeToFirstTokenMs := None |}.

Definition abandoned_outcome : GenerationOutcome :=
  {| go_usage := {| promptTokens := 0; completionTokens := 0 |}; go_status := generation_aborted; go_errorCode := None;
     go_finishReason := None; go_timeToFirstTokenMs := None |}.

(** [throw await this.fail(context, error)] *)
Definition fail_and_throw (socket : Socket) (error : OpenAiApiError) : Served :=
  {| sv_socket := socket; sv_reply := None; sv_thrown := Some (Thrown error); sv_outcomes := [failed_outcome error]; sv_settled := [] |}.

Definition recordAbandoned (socket : Socket) : Served :=
  {| sv_socket := socket; sv_reply := None; sv_thrown := None; sv_outcomes := [abandoned_outcome]; sv_settled := [] |}.

Section Serving.
Context {J : JsonEngine}.

Definition endBeforeTokens (pending : PendingStream) (error : OpenAiApiError) : Served :=
  if negb (ps_opened pending) then fail_and_throw (ps_socket pending) error
  else
    let socket :=
      if so_ended (ps_socket pending) then ps_socket pending
      else end_response (put (Event SSE_DONE) (put (Event (formatDataEvent (json_stringify (toBody error)))) (ps_socket pending))) in
    {| sv_socket := socket; sv_reply := None; sv_thrown := None; sv_outcomes := [failed_outcome error]; sv_settled := [] |}.

Definition finishReasonOfBody (payload : json) : option jstr :=
  match member "choices" payload with
  | Some (JArray (first :: _)) => match member "finish_reason" first with Some (JString r) => Some r | _ => None end
  | _ => None
  end.

Definition completeOnce (context : GatewayContext) (socket : Socket) (raw : option jstr) : Served :=
  match raw with
  | None => {| sv_socket := socket; sv_reply := None; sv_thrown := Some Other; sv_outcomes := []; sv_settled := [] |}
  | Some raw =>
      match json_parse raw with
      | None => fail_and_throw socket (backendError "The backend returned a body that is not JSON.")
      | Some payload =>
          if negb (is_object payload) then fail_and_throw socket (backendError "The backend returned an unexpected body.")
          else
            let counts := default {| promptTokens := estimatePromptTokens (gc_body context); completionTokens := 0 |} (readUsage payload) in
            let body := if gc_bridged context then textCompletionOf payload else payload in
            let shaped := shapeResponse body (gc_generationId context) (rm_id (gc_model context)) (Some (extensionFor context counts)) in
            {| sv_socket := socket; sv_reply := Some shaped; sv_thrown := None;
               sv_outcomes := [{| go_usage := counts; go_status := generation_ok; go_errorCode := None;
                                  go_finishReason := finishReasonOfBody payload; go_timeToFirstTokenMs := None |}];
               sv_settled := [promptTokens counts + completionTokens counts] |}
      end
  end.

Definition settled_stream (result : Socket * GenerationOutcome) : Served :=
  let '(socket, outcome) := result in
  {| sv_socket := socket; sv_reply := None; sv_thrown := None; sv_outcomes := [outcome];
     sv_settled := [promptTokens (go_usage outcome) + completionTokens (go_usage outcome)] |}.

(** [handle] from the POST on.  Only a streamed request opens early and watches its
    client; the timers and the watch end when the POST does. *)
Definition serve_request (context : GatewayContext) (verdicts : option (list SidecarVerdict)) (socket : Socket)
    (waiting : list wait_event) (fetched : Fetched) : Served :=
  let pending := if gc_stream context then openStreamIfSlow socket waiting else pending_initial socket in
  let clientLeft := ps_clientLeft pending in
  match fetched with
  | Send_failed e => if clientLeft then recordAbandoned (ps_socket pending) else endBeforeTokens pending (transportFailureOf e)
  | Upstream_refused status retryAfter raw =>
      if clientLeft then recordAbandoned (ps_socket pending)
      else endBeforeTokens pending (map_failure (gc_model context) status retryAfter raw)
  | Upstream_streams happened ending =>
      if clientLeft then recordAbandoned (ps_socket pending)
      else settled_stream (relayStream context (failure_mapper (gc_model context) verdicts) (ps_socket pending) happened ending)
  | Upstream_answers raw =>
      if clientLeft then recordAbandoned (ps_socket pending) else completeOnce context (ps_socket pending) raw
  end.

(** What a request needs beside itself: the configuration, what the catalogues and the
    evidence say, the salted hash, the row constraints and the owners. *)
Record GatewayEnv := {
  gw_policy : PolicyConfig;
  gw_catalogues : Catalogues;
  gw_coverage : jstr -> option EvidenceCoverage;
  gw_hash : jstr -> jstr;
  gw_accepts : Generation -> bool;
  gw_owners : jstr -> option jstr
}.

(** The state a request changes. *)
Record Router := { rt_buckets : Buckets; rt_meter : Meter }.

(** [GatewayService.handle]: admitted at [admittedAt], started at [now] and finished at
    [later], the readings of the clock; [network] is what
    comes of the POST once the context is known. *)
Definition handle (env : GatewayEnv) (id : jstr) (admittedAt now later : Z) (kind : RouteKind) (auth : AuthenticatedApiKey) (request : GatewayRequest)
    (socket : Socket) (network : GatewayContext -> option (list SidecarVerdict) * list wait_event * Fetched) (write : write_env) (r : Router)
    : Router * result thrown Served :=
  let '(buckets, prepared) :=
    prepare (gw_policy env) (gw_catalogues env) (mt_store (rt_meter r)) (gw_coverage env) id admittedAt now kind auth request (rt_buckets r) in
  match prepared with
  | Err t => ({| rt_buckets := buckets; rt_meter := rt_meter r |}, Err t)
  | Ok context =>
      let '(verdicts, waiting, fetched) := network context in
      let served := serve_request context verdicts socket waiting fetched in
      let buckets := foldl (fun b tokens => settle (gw_policy env) (au_key auth) tokens later b) buckets (sv_settled served) in
      let meter := foldl (fun m outcome => meter_generation (gw_accepts env) (gw_owners env) write
                                            (finish_generation (gw_hash env) context outcome later) m)
                     (rt_meter r) (sv_outcomes served) in
      ({| rt_buckets := buckets; rt_meter := meter |}, Ok served)
  end.

End Serving.

(** ** Models and generations *)

(** [presentModel]; [tee] is read from the endpoint's published evidence. *)
Definition presentModel (model : RoutedModel) (tee : option jstr) : json :=
  JObject [("id" : jstr, JString (rm_id model)); ("object" : jstr, JString "model");
           ("created" : jstr, JInt (rm_updatedAt model / 1000)); ("owned_by" : jstr, JString "confidential-router");
           ("name" : jstr, JString (rm_name model)); ("context_length" : jstr, JInt (rm_contextLength model));
           ("pricing" : jstr, JObject [("prompt_per_1m_micros" : jstr, JInt (promptPer1mMicros (rm_pricing model)));
                                       ("completion_per_1m_micros" : jstr, JInt (completionPer1mMicros (rm_pricing model)))]);
           ("endpoint" : jstr, JObject ([("name" : jstr, JString (re_name (rm_endpoint model)));
                                         ("hostname" : jstr, JString (re_hostname (rm_endpoint model)))] ++
                                        match present tee with Some t => [("tee" : jstr, JString t)] | None => [] end));
           ("capabilities" : jstr, JArray (map (fun s => JString (served_text s)) (servedCapabilities (rm_capabilities model))))].

(** [GET /v1/models/{id}] *)
Definition get_model (c : Catalogues) (key : ApiKey) (wanted : jstr) : result OpenAiApiError RoutedModel :=
  match find_first (fun m => jeqb (rm_id m) wanted) (listModels c key) with
  | Some model => Ok model
  | None => Err (modelNotFound wanted)
  end.

(** [GET /v1/generation]: the row, when it is the calling workspace's. *)
Definition get_generation (id : option jstr) (workspaceId : jstr) (table : list Generation) : result OpenAiApiError Generation :=
  match present id with
  | None => Err (missingField "id")
  | Some id =>
      match find_first (fun g => jeqb (ge_id g) id && jeqb (ge_workspaceId g) workspaceId) table with
      | Some generation => Ok generation
      | None => Err notFound
      end
  end.

Definition endpointNameOf (external : jstr -> option jstr) (config : CatalogService) (generation : Generation) : option jstr :=
  match present (ge_externalEndpointId generation) with
  | Some id => external id
  | None => id ← present (ge_endpointId generation); cne_name <$> endpointById config id
  end.

(** ** Lemmas *)

(** The early preamble is out exactly when the stream was opened, and nothing ends it
    while the router waits. *)
Lemma waiting_socket events log :
  let p := openStreamIfSlow {| so_headersSent := false; so_ended := false; so_log := log |} events in
  so_headersSent (ps_socket p) = ps_opened p /\ so_ended (ps_socket p) = false.
Proof.
  cbv zeta. unfold openStreamIfSlow. set (p0 := pending_initial _).
  assert (so_headersSent (ps_socket p0) = ps_opened p0 /\ so_ended (ps_socket p0) = false) as H by done. clearbody p0.
  revert p0 H. induction events as [|e events IH]; intros p [H1 H2]; [done|]. cbn [foldl]. apply IH. clear IH.
  destruct e; cbn [wait_step].
  - destruct (ps_armed p); cbn [negb]; [|done]. rewrite H2. cbn [orb]. destruct (ps_destroyed p); [done|].
    unfold emit, writeStreamHeaders. cbn [ps_socket ps_opened]. destruct (so_headersSent (ps_socket p)) eqn:E; cbn; rewrite ?H2; cbn; by rewrite ?E, ?H2.
  - destruct (ps_beating p); cbn [negb]; [|done]. unfold emit. cbn [ps_socket ps_opened]. by rewrite H2.
  - done.
Qed.

Lemma admit_refusals config db auth now buckets buckets' e : admit_request config db auth now buckets = (buckets', Err e) ->
  match e with Api a => buckets' = buckets \/ oe_status a = 429 | Service _ => buckets' = buckets end.
Proof.
  unfold admit_request. destruct (balanceOf _ _ _); [|intros [= <- <-]; done]. destruct (negb _); [intros [= <- <-]; by left|].
  destruct (match ak_spendLimitMicros _ with Some l => _ | None => _ end); [intros [= <- <-]; by left|].
  destruct (admit_limits _ _ _ _ _) as [b [h|r]]; intros [= <- <-]. by right.
Qed.

(** ** Theorems *)

(** A refused request costs nothing it should not: whatever refuses it before a
    connection is opened (its shape, its model, a legacy parameter, its credit) leaves
    every budget as it was, unless the refusal is the budgets' own; and a request that
    is prepared was resolved for this key and carries the body the route asks for,
    translated exactly when the legacy route is bridged. *)
Theorem refusals_cost_no_budget config c db coverage id admittedAt now kind auth request buckets :
  let '(buckets', answer) := prepare config c db coverage id admittedAt now kind auth request buckets in
  match answer with
  | Err (Api e) => buckets' = buckets \/ oe_status e = 429
  | Err (Service _) => buckets' = buckets
  | Ok context => exists body,
      bodyOf request = Ok body /\ resolve c kind body (au_key auth) = Ok (gc_model context) /\
      (if gc_bridged context then chatBodyForPrompt body = Ok (gc_body context) else gc_body context = body) /\
      gc_upstreamPath context = UPSTREAM_PATHS (if gc_bridged context then route_chat else kind) /\
      (gc_bridged context = true -> kind = route_completions /\ bridgesCompletions (rm_capabilities (gc_model context)) = true) /\
      (gc_suppressUsageChunk context = true <-> gc_stream context = true /\ usageRequested body = false)
  end.
Proof.
  unfold prepare. destruct (bodyOf request) as [body|e]; [|by left].
  destruct (resolve c kind body (au_key auth)) as [model|e] eqn:Er; [|by left].
  set (bridged := bool_decide (kind = route_completions) && bridgesCompletions (rm_capabilities model)).
  destruct (if bridged then chatBodyForPrompt body else Ok body) as [upstream|e] eqn:Eb; [|by left].
  destruct (admit_request config db auth admittedAt buckets) as [buckets' [headers|e]] eqn:Ea; [|by apply admit_refusals in Ea; destruct e].
  exists body. cbn [gc_model gc_bridged gc_body gc_upstreamPath gc_suppressUsageChunk gc_stream]. split_and!; [done|done| | | |].
  - destruct bridged; [done|]. by injection Eb.
  - by destruct bridged.
  - intros [Hk Hb]%andb_true_iff. apply bool_decide_eq_true in Hk. by split.
  - by rewrite andb_true_iff, negb_true_iff.
Qed.

Section Served.
Context {J : JsonEngine}.

(** What the handler hands on: one outcome, or none with [Other] thrown when the body of a
    whole answer cannot be read.  Tokens are settled at most once, and then for what the
    outcome says, and a request that throws has not been answered. *)
Lemma served_once context verdicts socket waiting fetched :
  let s := serve_request context verdicts socket waiting fetched in
  ((exists o, sv_outcomes s = [o]) \/
   (fetched = Upstream_answers None /\ sv_outcomes s = [] /\ sv_thrown s = Some Other)) /\
  (sv_settled s = [] \/ exists o, sv_outcomes s = [o] /\ sv_settled s = [promptTokens (go_usage o) + completionTokens (go_usage o)]) /\
  (sv_thrown s <> None -> sv_reply s = None /\ sv_settled s = []).
Proof.
  cbv zeta. unfold serve_request. set (p := if gc_stream context then _ else _). destruct fetched as [e|st ra raw|happened ending|raw];
    (destruct (ps_clientLeft p); [split_and!; [left; by eexists|by left|done]|]).
  1,2: unfold endBeforeTokens; destruct (ps_opened p); cbn [negb]; (split_and!; [left; by eexists|by left|done]).
  - unfold settled_stream. destruct (relayStream _ _ _ _ _) as [so o]. cbn. split_and!; [left; by eexists|right; by eexists|done].
  - unfold completeOnce. destruct raw as [raw|]; [|split_and!; [by right|by left|done]].
    destruct (json_parse raw) as [payload|]; [|split_and!; [left; by eexists|by left|done]].
    destruct (is_object payload); cbn [negb]; (split_and!; [left; by eexists| |done]); [right; by eexists|by left].
Qed.

(** C5. A request that passes admission leaves exactly one metering row, the row of what came
    of it, unless the body of a whole answer could not be read, when the handler throws, or
    the table refuses the row, for its id or for its columns; then the meter is as it was.
    Tokens are settled at most once and then for what that row says, a request that throws
    has not been answered, and a refused request leaves the meter alone. *)
Theorem forwarded_requests_are_metered env id admittedAt now later kind auth request socket network write r :
  match handle env id admittedAt now later kind auth request socket network write r with
  | (r', Err _) => rt_meter r' = rt_meter r
  | (r', Ok s) =>
      exists context verdicts waiting fetched,
        snd (prepare (gw_policy env) (gw_catalogues env) (mt_store (rt_meter r)) (gw_coverage env) id admittedAt now kind auth request
                     (rt_buckets r)) = Ok context /\
        network context = (verdicts, waiting, fetched) /\ s = serve_request context verdicts socket waiting fetched /\
        (sv_thrown s <> None -> sv_reply s = None /\ sv_settled s = []) /\
        match sv_outcomes s with
        | [] => fetched = Upstream_answers None /\ sv_thrown s = Some Other /\ rt_meter r' = rt_meter r
        | [o] =>
            let row := finish_generation (gw_hash env) context o later in
            let refused := existsb (fun g => jeqb (ge_id g) (ge_id row)) (mt_generations (rt_meter r)) || negb (gw_accepts env row) in
            mt_generations (rt_meter r') = mt_generations (rt_meter r) ++ (if refused then [] else [row]) /\
            (refused = true -> rt_meter r' = rt_meter r) /\
            (sv_settled s = [] \/ sv_settled s = [ge_promptTokens row + ge_completionTokens row])
        | _ => False
        end
  end.
Proof.
  unfold handle. destruct (prepare _ _ _ _ _ _ _ _ _ _ _) as [buckets [context|t]]; [|done].
  destruct (network context) as [[verdicts waiting] fetched] eqn:En. cbv beta iota zeta.
  destruct (served_once context verdicts socket waiting fetched) as (Ho & Hs & Ht).
  exists context, verdicts, waiting, fetched. do 3 (split; [done|]). split; [exact Ht|]. cbn [rt_meter].
  destruct Ho as [[o Ho]|(Hf & Ho & Hthrown)]; rewrite Ho; cbn [foldl]; [|done].
  destruct (meter_generation_row (gw_accepts env) (gw_owners env) write (finish_generation (gw_hash env) context o later) (rt_meter r)) as [Hrow Href].
  split; [exact Hrow|]. split; [exact Href|]. destruct Hs as [Hs|(o' & Ho' & Hs)]; [by left|right]. rewrite Ho in Ho'.
  injection Ho' as <-. rewrite Hs. unfold finish_generation. cbn. by destruct (go_usage o).
Qed.

(** C38. A failure before the first token reaches the client by the channel that is still
    open.  If the stream had not been opened, the error is thrown while the status
    line is unsent, so the filter answers with its status and body; if it had, the
    stream ends with the error and the terminator; a client that left is told nothing
    and metered as an abort.  The row names the same error. *)
Theorem failure_reaches_the_client context verdicts log waiting fetched error :
  match fetched with
  | Send_failed e => error = transportFailureOf e
  | Upstream_refused status retryAfter raw => error = map_failure (gc_model context) status retryAfter raw
  | _ => False
  end ->
  let socket := {| so_headersSent := false; so_ended := false; so_log := log |} in
  let p := if gc_stream context then openStreamIfSlow socket waiting else pending_initial socket in
  let s := serve_request context verdicts socket waiting fetched in
  if ps_clientLeft p then
    sv_thrown s = None /\ sv_socket s = ps_socket p /\ sv_outcomes s = [abandoned_outcome]
  else
    sv_outcomes s = [failed_outcome error] /\
    if ps_opened p then
      sv_thrown s = None /\
      so_log (sv_socket s) = so_log (ps_socket p) ++ [Event (formatDataEvent (json_stringify (toBody error))); Event SSE_DONE; End_]
    else
      sv_thrown s = Some (Thrown error) /\ sv_socket s = ps_socket p /\
      filter_catch (so_headersSent (sv_socket s)) (Thrown error) = Some (oe_headers error, oe_status error, toBody error).
Proof.
  intros He. cbv zeta. set (socket := Build_Socket false false log). set (p := if gc_stream context then _ else _).
  assert (so_headersSent (ps_socket p) = ps_opened p /\ so_ended (ps_socket p) = false) as [Hh Hend].
  { unfold p. destruct (gc_stream context); [apply waiting_socket|done]. }
  assert (serve_request context verdicts socket waiting fetched =
            if ps_clientLeft p then recordAbandoned (ps_socket p) else endBeforeTokens p error) as ->.
  { unfold serve_request. fold p. by destruct fetched; try done; rewrite He. }
  destruct (ps_clientLeft p); [done|]. unfold endBeforeTokens. rewrite Hend. destruct (ps_opened p); cbn [negb].
  - split; [done|]. split; [done|]. cbn [sv_socket]. unfold end_response, put. cbn [so_ended]. rewrite Hend. cbn [so_log].
    by rewrite <- !app_assoc.
  - split; [done|]. cbn [sv_socket fail_and_throw]. by rewrite Hh.
Qed.

(** The upstream gets the client's body with two members changed at most: [model] is the
    name that upstream knows, and, when the meter needs a usage chunk the client did
    not ask for, [stream_options] asks for one and keeps the client's other options. *)
Theorem upstream_body_is_the_clients context m :
  gc_body context = JObject m ->
  let body := upstreamBodyFor context in
  member "model" body = Some (JString (rm_upstreamModel (gc_model context))) /\
  (forall name, name <> "model" -> name <> "stream_options" -> member name body = member name (JObject m)) /\
  (if gc_suppressUsageChunk context then
     exists options, member "stream_options" body = Some options /\ member "include_usage" options = Some (JBool true) /\
       forall name o, name <> "include_usage" -> member "stream_options" (JObject m) = Some (JObject o) ->
         member name options = member name (JObject o)
   else member "stream_options" body = member "stream_options" (JObject m)).
Proof.
  intros Hb. cbv zeta. unfold upstreamBodyFor. rewrite Hb. cbn [spread]. set (m1 := set_member "model" _ m).
  assert (member "model" (JObject m1) = Some (JString (rm_upstreamModel (gc_model context)))) as Hmodel by apply member_set_eq.
  assert (forall name, name <> "model" -> member name (JObject m1) = member name (JObject m)) as Hother by (intros name Hn; by apply member_set_ne).
  destruct (gc_suppressUsageChunk context); [|split_and!; auto].
  rewrite Hother by done. split_and!.
  - by rewrite member_set_ne.
  - intros name H1 H2. rewrite member_set_ne by done. by apply Hother.
  - eexists. split; [apply member_set_eq|]. split; [apply member_set_eq|]. intros name o Hn Ho. rewrite member_set_ne by done.
    by rewrite Ho.
Qed.

(** A client is told what it is charged: when a whole answer carries a [usage], the
    [cost_micros] in it is the cost of the row the meter gets, its evidence digest and
    endpoint are the row's, and the identity on the answer is the row's id. *)
Theorem client_is_told_its_cost context verdicts socket waiting raw hash now reply :
  sv_reply (serve_request context verdicts socket waiting (Upstream_answers raw)) = Some reply ->
  exists o, sv_outcomes (serve_request context verdicts socket waiting (Upstream_answers raw)) = [o] /\
    go_status o = generation_ok /\
    let row := finish_generation hash context o now in
    (forall v, member "id" reply = Some v -> v = JString (ge_id row)) /\
    (forall v, member "model" reply = Some v -> v = JString (ge_modelId row)) /\
    (forall usage, member "usage" reply = Some (JObject usage) ->
       member "cost_micros" (JObject usage) = Some (JInt (ge_costMicros row)) /\
       member "evidence_digest" (JObject usage) = Some (match ge_evidenceDigest row with Some d => JString d | None => JNull end) /\
       member "endpoint" (JObject usage) = Some (JString (re_name (rm_endpoint (gc_model context))))).
Proof.
  unfold serve_request. set (p := if gc_stream context then _ else _). destruct (ps_clientLeft p); [done|].
  unfold completeOnce. destruct raw as [raw|]; [|done]. destruct (json_parse raw) as [payload|]; [|done].
  destruct (is_object payload); cbn [negb sv_reply sv_outcomes fail_and_throw]; [|done]. intros [= <-]. eexists. split; [done|].
  split; [done|]. cbv zeta. set (body := if gc_bridged context then _ else _). set (counts := default _ (readUsage payload)).
  destruct (shaped_members body (gc_generationId context) (rm_id (gc_model context)) (extensionFor context counts)) as (Hid & Hmodel & Hu).
  split_and!.
  - intros v Hv. rewrite Hid in Hv. destruct (member "id" body); [by injection Hv|done].
  - intros v Hv. rewrite Hmodel in Hv. destruct (member "model" body); [by injection Hv|done].
  - intros usage Hv. by apply Hu in Hv.
Qed.

(** C4. A request handled adds one generation at most, under its own id, with the key, the
    workspace, the model and the prices it was admitted with and exactly one of the
    two endpoint columns; a refused one leaves the meter as it was. *)
Theorem handled_requests_add_one_row env id admittedAt now later kind auth request socket network write r :
  let '(r', answer) := handle env id admittedAt now later kind auth request socket network write r in
  match answer with
  | Err _ => rt_meter r' = rt_meter r
  | Ok _ => mt_generations (rt_meter r') = mt_generations (rt_meter r) \/
      exists row model, mt_generations (rt_meter r') = mt_generations (rt_meter r) ++ [row] /\
        (exists body, bodyOf request = Ok body /\ resolve (gw_catalogues env) kind body (au_key auth) = Ok model) /\
        ge_id row = id /\ ge_workspaceId row = au_workspaceId auth /\ ge_apiKeyId row = Some (ak_id (au_key auth)) /\
        ge_modelId row = rm_id model /\ generationEndpointIsExclusive row = true /\ ge_createdAt row = now /\
        ge_costMicros row = computeCostMicros {| promptTokens := ge_promptTokens row; completionTokens := ge_completionTokens row |}
                              (rm_pricing model)
  end.
Proof.
  unfold handle. destruct (prepare _ _ _ _ _ _ _ _ _ _ _) as [buckets [context|t]] eqn:Ep; [|done].
  destruct (network context) as [[verdicts waiting] fetched]. cbv beta iota zeta. set (s := serve_request context verdicts socket waiting fetched).
  cbn [rt_meter]. assert (sv_outcomes s = [] \/ exists o, sv_outcomes s = [o]) as [Ho|[o Ho]]; [|by left; rewrite Ho|].
  { unfold s, serve_request. set (p := if gc_stream context then _ else _). destruct fetched; (destruct (ps_clientLeft p); [right; by eexists|]);
      try (unfold endBeforeTokens; destruct (ps_opened p); right; by eexists).
    - unfold settled_stream. destruct (relayStream _ _ _ _ _). right. by eexists.
    - unfold completeOnce. destruct raw as [raw|]; [|by left]. destruct (json_parse raw) as [payload|]; [|right; by eexists].
      destruct (is_object payload); right; by eexists. }
  rewrite Ho. cbn [foldl]. set (row := finish_generation (gw_hash env) context o later).
  destruct (meter_generation_rows (gw_accepts env) (gw_owners env) write row (rt_meter r)) as [H|H]; rewrite H; [by left|right].
  unfold prepare in Ep. destruct (bodyOf request) as [body|]; [|done].
  destruct (resolve _ kind body _) as [model|] eqn:Er; [|done]. destruct (if _ && _ then _ else _); [|done].
  destruct (admit_request _ _ _ _ _) as [b [headers|]]; [|done]. injection Ep as <- <-. exists row, model.
  split; [done|]. split; [by exists body|]. unfold row, finish_generation, generationEndpointIsExclusive. cbn.
  unfold begin_generation. destruct (rm_external model); split_and!; try done; by destruct (go_usage o).
Qed.

End Served.

(** ** Witnesses *)

Definition echo_engine (payload : json) : JsonEngine := {| json_parse := fun _ => Some payload; json_stringify := fun _ => "{}" |}.

Lemma failure_reaches_the_client_witness :
  sv_thrown (serve_request (J := echo_engine JNull) (context_example true) None
    {| so_headersSent := false; so_ended := false; so_log := [] |} [] (Send_failed (Transport (UpstreamTimeoutError 60000))))
  = Some (Thrown (upstreamTimeout "The model backend did not start answering within 60s.")).
Proof.
  destruct (failure_reaches_the_client (J := echo_engine JNull) (context_example true) None [] []
    (Send_failed (Transport (UpstreamTimeoutError 60000))) (upstreamTimeout "The model backend did not start answering within 60s."))
    as (_ & H & _); [vm_compute; reflexivity|exact H].
Defined.

Lemma upstream_body_is_the_clients_witness :
  member "model" (upstreamBodyFor (context_example true)) = Some (JString "large").
Proof.
  destruct (upstream_body_is_the_clients (context_example true) [("model" : jstr, JString "acme/large")]) as [H _]; [reflexivity|exact H].
Defined.

Definition whole_payload : json :=
  JObject [("id" : jstr, JString "up-1"); ("choices" : jstr, JArray []);
           ("usage" : jstr, JObject [("prompt_tokens" : jstr, JInt 10); ("completion_tokens" : jstr, JInt 5)])].

Lemma client_is_told_its_cost_witness :
  exists o, sv_outcomes (serve_request (J := echo_engine whole_payload) (context_example false) None
    {| so_headersSent := false; so_ended := false; so_log := [] |} [] (Upstream_answers (Some "{}"))) = [o] /\
    ge_costMicros (finish_generation (fun s => s) (context_example false) o 1500) = 20.
Proof.
  destruct (sv_reply (serve_request (J := echo_engine whole_payload) (context_example false) None
    {| so_headersSent := false; so_ended := false; so_log := [] |} [] (Upstream_answers (Some "{}")))) as [reply|] eqn:E;
    [|vm_compute in E; discriminate E].
  destruct (client_is_told_its_cost (J := echo_engine whole_payload) (context_example false) None _ [] (Some ("{}" : jstr)) (fun s => s) 1500 reply E)
    as (o & Ho & _ & _).
  exists o. split; [exact Ho|]. vm_compute in Ho. injection Ho as <-. vm_compute. reflexivity.
Defined.
