(* ===== verification/SecretEnvelope.v ===== *)
(** * The one reversible secret at rest

    [secrets/secret-envelope.ts] and [secret-envelope.service.ts]: the data key, the
    envelope an upstream's API key is stored in and the service that holds the key.
    AES-256-GCM and the UTF-8 codec are the platform's and come as a class; base64url
    is [Buffer]'s, which skips what is outside its alphabet. *)

From S2P Require Import Prelude JsString EvidenceDigest.

(** ** The platform *)

Class Aead := {
  (** [update] and [final], then [getAuthTag]. *)
  aead_encrypt : forall (key iv aad plaintext : list N), list N * list N;
  (** [None] when [final] throws. *)
  aead_decrypt : forall (key iv aad ciphertext tag : list N), option (list N);
  utf8_encode : jstr -> list N;
  utf8_decode : list N -> jstr
}.

Definition bytes_ok (b : list N) : Prop := Forall (fun x => (x < 256)%N) b.

(** GCM opens what it sealed under the same key, nonce and data, and nothing else:
    decryption recomputes the tag.  Texts without lone surrogates survive UTF-8. *)
Class AeadLaws `(A : Aead) (well_formed : jstr -> Prop) := {
  aead_bytes : forall key iv aad p, bytes_ok p ->
    bytes_ok (fst (aead_encrypt key iv aad p)) /\ bytes_ok (snd (aead_encrypt key iv aad p));
  aead_tag : forall key iv aad p, length (snd (aead_encrypt key iv aad p)) = 16%nat;
  aead_plain : forall key iv aad ciphertext tag p, aead_decrypt key iv aad ciphertext tag = Some p -> bytes_ok p;
  aead_correct : forall key iv aad ciphertext tag p, bytes_ok p ->
    aead_decrypt key iv aad ciphertext tag = Some p <-> aead_encrypt key iv aad p = (ciphertext, tag);
  utf8_bytes : forall s, bytes_ok (utf8_encode s);
  utf8_inverse : forall s, well_formed s -> utf8_decode (utf8_encode s) = s
}.

(** [Buffer.from(text, 'base64url')]: both alphabets, any other character skipped. *)
Definition base64url_value (c : N) : option N :=
  b64_value (if (c =? 45)%N then 43%N else if (c =? 95)%N then 47%N else c).

Definition from_base64url (s : list N) : list N := octets (omap base64url_value s).

(** ** The data key *)

Definition SECRETS_KEY_ENV : jstr := "CR_API_SECRETS_KEY".
Definition KEY_BYTES : Z := 32.
Definition IV_BYTES : nat := 12.
Definition TAG_BYTES : nat := 16.
Definition VERSION : jstr := "v1".

Inductive secret_error :=
| MissingSecretsKeyError
| MalformedSecretsKeyError (reason : jstr)
| SecretDecryptionError (reason : jstr).

Definition secret_message (e : secret_error) : jstr :=
  match e with
  | MissingSecretsKeyError =>
      SECRETS_KEY_ENV +++ " is required to store an external endpoint's upstream API key. " +++
      "Set it to 32 random bytes, base64url- or hex-encoded (`openssl rand -base64 32`), " +++
      "from a Kubernetes Secret — never from the config file, which is readable inside the " +++
      "published evidence. Rotating it makes every stored upstream key unreadable; re-enter them."
  | MalformedSecretsKeyError reason => SECRETS_KEY_ENV +++ " is not a usable AES-256 key: " +++ reason +++ "."
  | SecretDecryptionError reason => "A stored secret could not be opened: " +++ reason +++ "."
  end.

Definition parseSecretsKey (value : option jstr) : result secret_error (list N) :=
  let trimmed := default (Js []) (jtrim <$> value) in
  throw MissingSecretsKeyError when jlength trimmed =? 0;
  let decoded := if HEX_SHA256 (units trimmed) then hex_bytes (map lower_unit (units trimmed))
                 else from_base64url (units trimmed) in
  let size := Z.of_nat (length decoded) in
  throw (MalformedSecretsKeyError ("it decodes to " +++ jstring_of_Z size +++ " bytes, and AES-256 needs 32"))
    when negb (size =? KEY_BYTES);
  Ok decoded.

(** ** The envelope *)

Section Envelope.
Context `{Aead}.

(** [iv] is what [randomBytes] draws. *)
Definition sealSecret (key iv : list N) (plaintext context : jstr) : jstr :=
  let '(ciphertext, tag) := aead_encrypt key iv (utf8_encode context) (utf8_encode plaintext) in
  VERSION +++ "." +++ Js (base64UrlEncode (iv ++ ciphertext ++ tag)).

Definition openSecret (key : list N) (envelope context : jstr) : result secret_error jstr :=
  match jsplit 46 envelope with
  | [version; payload] =>
      throw (SecretDecryptionError "the envelope is not in the v1 format")
        when negb (jeqb version VERSION) || (jlength payload =? 0);
      let packed := from_base64url (units payload) in
      throw (SecretDecryptionError "the envelope is shorter than a nonce and a tag")
        when (length packed <? IV_BYTES + TAG_BYTES)%nat;
      let iv := take IV_BYTES packed in
      let ciphertext := drop IV_BYTES (take (length packed - TAG_BYTES) packed) in
      let tag := drop (length packed - TAG_BYTES) packed in
      match aead_decrypt key iv (utf8_encode context) ciphertext tag with
      | Some plaintext => Ok (utf8_decode plaintext)
      | None => Err (SecretDecryptionError "the key, the binding or the payload does not match")
      end
  | _ => Err (SecretDecryptionError "the envelope is not in the v1 format")
  end.

Definition SECRET_DISPLAY_PREFIX_LENGTH : Z := 8.

Definition secretDisplayPrefix (plaintext : jstr) : jstr := jtake SECRET_DISPLAY_PREFIX_LENGTH plaintext.

(** ** The service

    It keeps the key it has parsed; [env] is the environment variable. *)

Record SealedSecret := { ss_ciphertext : jstr; ss_prefix : jstr }.

Definition dataKey (env : option jstr) (key : option (list N)) : option (list N) * result secret_error (list N) :=
  match key with
  | Some k => (key, Ok k)
  | None => match parseSecretsKey env with
            | Ok k => (Some k, Ok k)
            | Err e => (None, Err e)
            end
  end.

Definition available (env : option jstr) (key : option (list N)) : bool := is_ok (snd (dataKey env key)).

Definition seal (env : option jstr) (key : option (list N)) (iv : list N) (plaintext context : jstr)
    : result secret_error SealedSecret :=
  k ← snd (dataKey env key);
  Ok {| ss_ciphertext := sealSecret k iv plaintext context; ss_prefix := secretDisplayPrefix plaintext |}.

Definition open (env : option jstr) (key : option (list N)) (ciphertext context : jstr) : result secret_error jstr :=
  k ← snd (dataKey env key);
  openSecret k ciphertext context.
End Envelope.

(** ** Lemmas *)

Lemma base64url_value_digit v : (v < 64)%N -> base64url_value (url_digit v) = Some v.
Proof.
  revert v. apply (below_64 (fun v => base64url_value (url_digit v) = Some v)). vm_compute. reflexivity.
Qed.

Lemma from_base64url_encode bytes : bytes_ok bytes -> from_base64url (base64UrlEncode bytes) = bytes.
Proof.
  intros Hb. unfold from_base64url, base64UrlEncode. rewrite url_safe_btoa by done.
  pose proof (sextets_lt _ Hb) as Hs. rewrite <- (octets_sextets bytes) at 2 by done. f_equal.
  induction Hs as [|v l Hv _ IH]; cbn; [done|]. by rewrite base64url_value_digit, IH.
Qed.

Lemma encoded_no_dot bytes : bytes_ok bytes ->
  forallb (fun d => negb (d =? 46)%N) (base64UrlEncode bytes) = true.
Proof.
  intros Hb. unfold base64UrlEncode. rewrite url_safe_btoa by done. pose proof (sextets_lt _ Hb) as Hs.
  apply forallb_forall. intros c (v & -> & Hv)%list_elem_of_In%list_elem_of_fmap.
  rewrite Forall_forall in Hs. specialize (Hs v Hv).
  revert v Hs Hv. intros v Hs _. revert v Hs.
  apply (below_64 (fun v => negb (url_digit v =? 46)%N = true)). vm_compute. reflexivity.
Qed.

Lemma encoded_nonempty bytes : bytes_ok bytes -> bytes <> [] -> base64UrlEncode bytes <> [].
Proof.
  intros Hb Hn E. apply Hn. rewrite <- (from_base64url_encode bytes Hb), E. reflexivity.
Qed.

Lemma split_envelope s : forallb (fun d => negb (d =? 46)%N) s = true ->
  jsplit 46 (VERSION +++ "." +++ Js s) = [VERSION; Js s].
Proof.
  intros Hs. unfold jsplit. change (units (VERSION +++ "." +++ Js s)) with (118 :: 49 :: 46 :: s)%N.
  assert (E : split_on 46 (118 :: 49 :: 46 :: s)%N = [[118; 49]%N; s]) by (cbn; by rewrite (split_on_none 46 s Hs)).
  by rewrite E.
Qed.

Lemma sealed_parts `{AeadLaws} key iv plaintext context ciphertext tag :
  length iv = IV_BYTES -> bytes_ok iv ->
  aead_encrypt key iv (utf8_encode context) (utf8_encode plaintext) = (ciphertext, tag) ->
  let envelope := sealSecret key iv plaintext context in
  forall key' context', openSecret key' envelope context' =
    match aead_decrypt key' iv (utf8_encode context') ciphertext tag with
    | Some p => Ok (utf8_decode p)
    | None => Err (SecretDecryptionError "the key, the binding or the payload does not match")
    end.
Proof.
  intros Hiv Hb He envelope key' context'. subst envelope. unfold sealSecret. rewrite He. cbv beta iota.
  destruct (aead_bytes key iv (utf8_encode context) _ (utf8_bytes plaintext)) as [Hc Ht].
  pose proof (aead_tag key iv (utf8_encode context) (utf8_encode plaintext)) as Hl. rewrite He in Hc, Ht, Hl. cbn [fst snd] in Hc, Ht, Hl.
  assert (Hall : bytes_ok (iv ++ ciphertext ++ tag)) by (unfold bytes_ok in *; rewrite !Forall_app; done).
  unfold openSecret. rewrite split_envelope by (by apply encoded_no_dot).
  assert (Hne : (jlength (Js (base64UrlEncode (iv ++ ciphertext ++ tag))) =? 0) = false).
  { apply Z.eqb_neq. unfold jlength. cbn [units]. intros E.
    destruct (base64UrlEncode _) eqn:E2; [|cbn in E; lia].
    apply encoded_nonempty in E2; [done|done|]. by destruct iv. }
  rewrite Hne, jeqb_refl. cbn [throw_if negb orb units].
  rewrite from_base64url_encode by done.
  assert (HL : length (iv ++ ciphertext ++ tag) = (12 + length ciphertext + 16)%nat)
    by (rewrite !length_app, Hl, Hiv; unfold IV_BYTES; lia).
  rewrite HL. assert (Hlt : (12 + length ciphertext + 16 <? IV_BYTES + TAG_BYTES)%nat = false)
    by (apply Nat.ltb_ge; unfold IV_BYTES, TAG_BYTES; lia).
  rewrite Hlt. cbn [throw_if].
  replace (12 + length ciphertext + 16 - TAG_BYTES)%nat with (length (iv ++ ciphertext))
    by (rewrite length_app, Hiv; unfold IV_BYTES, TAG_BYTES; lia).
  rewrite app_assoc, take_app_length, drop_app_length, <- app_assoc, <- Hiv, take_app_length.
  by rewrite drop_app_length.
Qed.

(** ** Theorems *)

(** A stored credential comes back, and only where it belongs: the envelope opens
    under its key and its row to the text that was sealed, whatever nonce was drawn;
    moved to another row, or read under another key, it opens only if that key and
    that binding seal some text to the very same bytes and tag.  What is shown of it
    is its first eight characters. *)
Theorem sealed_secret_stays_put `{AeadLaws} env cached iv plaintext context sealed :
  length iv = IV_BYTES -> bytes_ok iv -> well_formed plaintext ->
  seal env cached iv plaintext context = Ok sealed ->
  open env cached (ss_ciphertext sealed) context = Ok plaintext /\
  (jlength plaintext <= 8 \/ jlength (ss_prefix sealed) = 8) /\
  exists key, snd (dataKey env cached) = Ok key /\
    forall key' context' p', openSecret key' (ss_ciphertext sealed) context' = Ok p' ->
      exists bytes, utf8_decode bytes = p' /\
        aead_encrypt key' iv (utf8_encode context') bytes = aead_encrypt key iv (utf8_encode context) (utf8_encode plaintext).
Proof.
  intros Hiv Hb Hw Hs. unfold seal, open in *.
  destruct (snd (dataKey env cached)) as [key|] eqn:Ek; cbn [mbind result_bind] in *; [|done].
  injection Hs as <-. cbn [ss_ciphertext ss_prefix].
  destruct (aead_encrypt key iv (utf8_encode context) (utf8_encode plaintext)) as [ciphertext tag] eqn:He.
  pose proof (sealed_parts key iv plaintext context ciphertext tag Hiv Hb He) as Hopen. cbv zeta in Hopen.
  split_and!.
  - rewrite Hopen. apply aead_correct in He; [|apply utf8_bytes]. rewrite He. by rewrite utf8_inverse.
  - unfold secretDisplayPrefix, jtake, jlength, SECRET_DISPLAY_PREFIX_LENGTH. cbn [units].
    rewrite length_take. lia.
  - exists key. split; [done|]. intros key' context' p' Hp. rewrite Hopen in Hp.
    destruct (aead_decrypt key' iv (utf8_encode context') ciphertext tag) as [bytes|] eqn:Hd; [|done].
    injection Hp as <-. exists bytes. split; [done|]. rewrite He. apply aead_correct; [by eapply aead_plain|done].
Qed.

(** A toy cipher: the text itself, and a tag that repeats the key and the binding. *)
Definition toy_tag (key aad : list N) : list N := map (fun b => b mod 256)%N (take 16 (aad ++ key ++ replicate 16 0%N)).

#[local] Instance toy_aead : Aead := {
  aead_encrypt key iv aad p := (map (fun b => b mod 256)%N p, toy_tag key aad);
  aead_decrypt key iv aad c t :=
    if bool_decide (t = toy_tag key aad) && forallb (fun b => (b <? 256)%N) c then Some c else None;
  utf8_encode s := map (fun b => b mod 256)%N (units s);
  utf8_decode := Js
}.

Lemma mod_bytes b : bytes_ok (map (fun b => b mod 256)%N b).
Proof. apply Forall_map, Forall_true. intros x. by apply N.mod_lt. Qed.

Lemma mod_bytes_id b : bytes_ok b -> map (fun b => b mod 256)%N b = b.
Proof. induction 1 as [|x b Hx _ IH]; cbn; [done|]. by rewrite IH, N.mod_small. Qed.

Lemma bytes_check b : forallb (fun x => (x <? 256)%N) b = true -> bytes_ok b.
Proof. rewrite forallb_forall. intros H. apply Forall_forall. intros x Hx. by apply N.ltb_lt, H, list_elem_of_In. Qed.

#[local] Instance toy_laws : AeadLaws toy_aead (fun s => bytes_ok (units s)).
Proof.
  split; cbn.
  - intros key iv aad p _. split; apply mod_bytes.
  - intros key iv aad _. unfold toy_tag. rewrite length_map, length_take, !length_app, length_replicate. lia.
  - intros key iv aad c t p. destruct (bool_decide _ && _) eqn:E; [|done]. intros [= ->].
    apply andb_true_iff in E as [_ E]. rewrite forallb_forall in E. apply Forall_forall. intros x Hx.
    by apply N.ltb_lt, E, list_elem_of_In.
  - intros key iv aad c t p Hp. rewrite mod_bytes_id by done. split.
    + destruct (bool_decide _ && _) eqn:E; [|done]. intros [= ->].
      apply andb_true_iff in E as [E%bool_decide_eq_true _]. by rewrite E.
    + intros [= <- <-]. rewrite bool_decide_eq_true_2 by done. cbn [andb].
      replace (forallb (fun b => (b <? 256)%N) p) with true; [done|]. symmetry. apply forallb_forall.
      intros x Hx%list_elem_of_In. unfold bytes_ok in Hp. rewrite Forall_forall in Hp. by apply N.ltb_lt, Hp.
  - intros s. apply mod_bytes.
  - intros [s] Hs. cbn in *. by rewrite mod_bytes_id.
Qed.

Lemma sealed_secret_stays_put_witness :
  let env := Some ("000102030405060708090a0b0c0d0e0f101112131415161718191a1b1c1d1e1f" : jstr) in
  let iv := map N.of_nat (seq 0 12) in
  let sealed := match seal env None iv "sk-upstream-key" "e1" with
                | Ok s => s
                | Err _ => {| ss_ciphertext := Js []; ss_prefix := Js [] |}
                end in
  open env None (ss_ciphertext sealed) "e1" = Ok ("sk-upstream-key" : jstr) /\
  jeqb (ss_prefix sealed) "sk-upstr" = true /\
  is_ok (open env None (ss_ciphertext sealed) "e2") = false.
Proof.
  cbv zeta. split; [|by vm_compute].
  apply (sealed_secret_stays_put (well_formed := fun s => bytes_ok (units s)) _ None (map N.of_nat (seq 0 12))).
  - reflexivity.
  - apply bytes_check; vm_compute; reflexivity.
  - apply bytes_check; vm_compute; reflexivity.
  - vm_compute. reflexivity.
Defined.
