(* ===== verification/SidecarConfig.v ===== *)
(** * The file that drives the egress sidecar

    [external-endpoints/sidecar-config.ts] and [sidecar-config-writer.service.ts]:
    the document rendered from the rows, and the writer that keeps the file on the
    shared volume equal to it.  The URL parser, the YAML serialiser and the locale's
    string comparison are parameters; the file is the text at its path, [None] while
    there is none, and a write either lands whole (the rename) or throws. *)

From S2P Require Import Prelude JsString StatusProjection ExternalCatalog.

(** ** URLs *)

Record Url := { url_protocol : jstr; url_host : jstr; url_hostname : jstr }.

Class UrlParser := { URL_parse : jstr -> option Url }.   (* [None]: [new URL] throws *)

(** The origin of a URL parses to itself, and holds no blank. *)
Class UrlLaws `(U : UrlParser) := {
  url_origin : forall s u, URL_parse s = Some u -> url_protocol u = "https:" ->
    URL_parse ("https://" +++ url_host u) = Some u;
  url_blank : forall s u, URL_parse s = Some u -> forallb (fun c => negb (is_space c)) (units (url_host u)) = true
}.

(** ** The document *)

Definition TWO_FACTOR_TRUST : jstr := "measurement-and-digest".
Definition MAX_BUNDLE_AGE : jstr := "24h".
Definition VERDICT_CACHE_TTL : jstr := "60s".

Record SidecarEndpointInput := {
  si_name : jstr;
  si_baseUrl : jstr;
  si_listenPort : Z;
  si_pinnedEvidenceDigest : option jstr
}.

Record SidecarConfigInput := {
  sc_inputs : list SidecarEndpointInput;
  sc_measurements : list jstr;
  sc_adminListen : jstr;
  sc_reattestIntervalMs : Z
}.

Record SidecarEndpointEntry := {
  sn_name : jstr;
  sn_listen : jstr;
  sn_upstream : jstr;
  sn_trust : jstr;
  sn_trustedEvidence : list jstr;
  sn_failMode : jstr
}.

Record SidecarConfigDocument := {
  sd_version : Z;
  sd_rootsEnabled : bool;
  sd_trustedMeasurements : list jstr;
  sd_failMode : jstr;
  sd_reattestInterval : jstr;
  sd_verdictCacheTtl : jstr;
  sd_maxBundleAge : jstr;
  sd_adminListen : jstr;
  sd_endpoints : list SidecarEndpointEntry
}.

Inductive render_error := UnrenderableEndpointError (name reason : jstr) | WriteError.

Definition dq : jstr := Js [34%N].

(** [goDuration]: whole units where they divide. *)
Definition goDuration (ms : Z) : jstr :=
  if (3600000 <=? ms) && (ms mod 3600000 =? 0) then jstring_of_Z (ms / 3600000) +++ "h"
  else if (60000 <=? ms) && (ms mod 60000 =? 0) then jstring_of_Z (ms / 60000) +++ "m"
  else if (1000 <=? ms) && (ms mod 1000 =? 0) then jstring_of_Z (ms / 1000) +++ "s"
  else jstring_of_Z ms +++ "ms".

Section Rendering.
Context `{UrlParser}.
(** [String.prototype.localeCompare] and the [dump] of js-yaml. *)
Context (localeCompare : jstr -> jstr -> Z) (dump : SidecarConfigDocument -> jstr).

Definition upstreamOf (e : SidecarEndpointInput) : result render_error jstr :=
  match URL_parse (si_baseUrl e) with
  | None => Err (UnrenderableEndpointError (si_name e) (dq +++ si_baseUrl e +++ dq +++ " is not a URL"))
  | Some url =>
      throw (UnrenderableEndpointError (si_name e)
               "its base URL is not https, so there is no TLS channel to bind the evidence to")
        when negb (jeqb (url_protocol url) "https:");
      Ok (url_protocol url +++ "//" +++ url_host url)
  end.

Definition entry_of (e : SidecarEndpointInput) : result render_error SidecarEndpointEntry :=
  upstream ← upstreamOf e;
  Ok {| sn_name := si_name e; sn_listen := "127.0.0.1:" +++ jstring_of_Z (si_listenPort e); sn_upstream := upstream;
        sn_trust := TWO_FACTOR_TRUST;
        sn_trustedEvidence := match si_pinnedEvidenceDigest e with
                              | Some d => if jlength d =? 0 then [] else [d]
                              | None => []
                              end;
        sn_failMode := "closed" |}.

Fixpoint entries_of (es : list SidecarEndpointInput) : result render_error (list SidecarEndpointEntry) :=
  match es with
  | [] => Ok []
  | e :: es => entry ← entry_of e; rest ← entries_of es; Ok (entry :: rest)
  end.

Definition by_name (a b : SidecarEndpointInput) : bool := localeCompare (si_name a) (si_name b) <? 0.

Definition buildSidecarConfig (input : SidecarConfigInput) : result render_error SidecarConfigDocument :=
  endpoints ← entries_of (sort_by by_name (sc_inputs input));
  Ok {| sd_version := 1; sd_rootsEnabled := true;
        sd_trustedMeasurements := sort_by jltb (distinct [] (sc_measurements input)); sd_failMode := "closed";
        sd_reattestInterval := goDuration (sc_reattestIntervalMs input); sd_verdictCacheTtl := VERDICT_CACHE_TTL;
        sd_maxBundleAge := MAX_BUNDLE_AGE; sd_adminListen := sc_adminListen input; sd_endpoints := endpoints |}.

Definition renderSidecarConfig (input : SidecarConfigInput) : result render_error jstr :=
  document ← buildSidecarConfig input;
  Ok (jjoin (Js [10%N])
        ["# Rendered by router-api from external_endpoints and trusted_measurements.";
         "# Do not edit: every admin mutation overwrites this file (ADR-008 §5).";
         dump document]).

(** ** The writer *)

Record SidecarSettings := { st_adminListen : jstr; st_reattestInterval : Z }.

Record RenderResult := { rr_changed : bool; rr_endpoints : Z; rr_trustedMeasurements : Z }.

Definition row_input (e : ExternalEndpoint) : SidecarEndpointInput :=
  {| si_name := ee_name e; si_baseUrl := ee_baseUrl e; si_listenPort := ee_listenPort e;
     si_pinnedEvidenceDigest := ee_pinnedEvidenceDigest e |}.

(** [order: { name: 'ASC' }] and [order: { measurement: 'ASC' }] *)
Definition name_first (a b : ExternalEndpoint) : bool := jltb (ee_name a) (ee_name b).

Definition render_input (settings : SidecarSettings) (table : list ExternalEndpoint) (measurements : list jstr)
    : SidecarConfigInput :=
  {| sc_inputs := map row_input (sort_by name_first (enabled_endpoints table));
     sc_measurements := sort_by jltb measurements; sc_adminListen := st_adminListen settings;
     sc_reattestIntervalMs := st_reattestInterval settings |}.

(** [writable]: whether the directory, the temporary file and the rename go through. *)
Definition writeIfChanged (writable : bool) (rendered : jstr) (file : option jstr)
    : option jstr * result render_error bool :=
  if bool_decide (file = Some rendered) then (file, Ok false)
  else if writable then (Some rendered, Ok true)
  else (file, Err WriteError).

Definition render (settings : SidecarSettings) (table : list ExternalEndpoint) (measurements : list jstr)
    (writable : bool) (file : option jstr) : option jstr * result render_error RenderResult :=
  match renderSidecarConfig (render_input settings table measurements) with
  | Err e => (file, Err e)
  | Ok rendered =>
      match writeIfChanged writable rendered file with
      | (file, Err e) => (file, Err e)
      | (file, Ok changed) =>
          (file, Ok {| rr_changed := changed; rr_endpoints := Z.of_nat (length (enabled_endpoints table));
                       rr_trustedMeasurements := Z.of_nat (length measurements) |})
      end
  end.

(** ** Lemmas *)

(** A base URL the renderer takes as it is. *)
Definition canonical_base (base : jstr) : Prop :=
  exists u, URL_parse base = Some u /\ url_protocol u = "https:" /\ base = "https://" +++ url_host u.

Lemma upstreamOf_canonical e : canonical_base (si_baseUrl e) -> upstreamOf e = Ok (si_baseUrl e).
Proof.
  intros (u & Hu & Hp & Hb). unfold upstreamOf. rewrite Hu, Hp, jeqb_refl. cbn [negb throw_if]. by rewrite Hb, japp_assoc.
Qed.

Definition entry_for (e : SidecarEndpointInput) : SidecarEndpointEntry :=
  {| sn_name := si_name e; sn_listen := "127.0.0.1:" +++ jstring_of_Z (si_listenPort e); sn_upstream := si_baseUrl e;
     sn_trust := TWO_FACTOR_TRUST;
     sn_trustedEvidence := match si_pinnedEvidenceDigest e with
                           | Some d => if jlength d =? 0 then [] else [d]
                           | None => []
                           end;
     sn_failMode := "closed" |}.

Lemma entries_of_canonical es : Forall (fun e => canonical_base (si_baseUrl e)) es ->
  entries_of es = Ok (map entry_for es).
Proof.
  induction 1 as [|e es He _ IH]; [done|]. cbn [entries_of map]. unfold entry_of at 1.
  rewrite upstreamOf_canonical by done. cbn [mbind result_bind]. by rewrite IH.
Qed.

Lemma buildSidecarConfig_canonical input : Forall (fun e => canonical_base (si_baseUrl e)) (sc_inputs input) ->
  exists document, buildSidecarConfig input = Ok document /\
    sd_endpoints document = map entry_for (sort_by by_name (sc_inputs input)) /\
    sd_trustedMeasurements document = sort_by jltb (distinct [] (sc_measurements input)) /\
    sd_failMode document = "closed".
Proof.
  intros Hc. unfold buildSidecarConfig. rewrite entries_of_canonical by (by rewrite sort_by_perm).
  eexists; split; [reflexivity|done].
Qed.

Lemma elem_of_entries input document : buildSidecarConfig input = Ok document ->
  forall entry, entry ∈ sd_endpoints document <-> exists e, e ∈ sc_inputs input /\ entry_of e = Ok entry.
Proof.
  intros Hb%bind_ok. destruct Hb as (entries & He & [= <-]). cbn [sd_endpoints]. intros entry.
  assert (Hx : forall es entries, entries_of es = Ok entries -> entry ∈ entries <-> exists e, e ∈ es /\ entry_of e = Ok entry).
  { clear. induction es as [|e es IH]; cbn [entries_of]; intros entries.
    - intros [= <-]. set_solver.
    - intros (x & Hx & (rest & Hr & [= <-])%bind_ok)%bind_ok. rewrite elem_of_cons, (IH _ Hr). split.
      + intros [->|(e' & ? & ?)]; [exists e|exists e']; set_solver.
      + intros (e' & [->|?]%elem_of_cons & He'); [left; congruence|right; eauto]. }
  rewrite (Hx _ _ He). by setoid_rewrite (sort_by_perm by_name).
Qed.
End Rendering.

Section Theorems.
Context `{UrlParser} (localeCompare : jstr -> jstr -> Z) (dump : SidecarConfigDocument -> jstr).

Lemma sort_by_map {A B} (f : A -> B) (before : B -> B -> bool) l :
  map f (sort_by (fun a b => before (f a) (f b)) l) = sort_by before (map f l).
Proof.
  assert (Hi : forall x l, map f (insert_by (fun a b => before (f a) (f b)) x l) = insert_by before (f x) (map f l)).
  { intros x k. induction k as [|y k IH]; cbn; [done|]. destruct (before (f y) (f x)); cbn; by rewrite ?IH. }
  induction l as [|x l IH]; [done|]. cbn [sort_by foldr map]. fold (sort_by (fun a b => before (f a) (f b)) l).
  fold (sort_by before (map f l)). by rewrite Hi, IH.
Qed.

(** Only what the sidecar reads makes a new file: tables whose enabled rows agree in
    name, URL, port and pin, in any order and whatever their verdicts, prices and
    keys, and trust lists with the same members, render the same bytes; so after a
    render the next one writes nothing, and no upstream is attested again for a
    change it cannot see. *)
Theorem renders_only_what_matters settings table table' measurements measurements' writable file file' result :
  NoDup (map ee_name (enabled_endpoints table)) ->
  map row_input (enabled_endpoints table) ≡ₚ map row_input (enabled_endpoints table') ->
  (forall m, m ∈ measurements <-> m ∈ measurements') ->
  render localeCompare dump settings table measurements writable file = (file', Ok result) ->
  exists result', forall writable',
    render localeCompare dump settings table' measurements' writable' file' = (file', Ok result') /\
    rr_changed result' = false.
Proof.
  intros Hnd Hp Hm Hr.
  assert (Hsame : renderSidecarConfig localeCompare dump (render_input settings table measurements) =
                  renderSidecarConfig localeCompare dump (render_input settings table' measurements')).
  { unfold renderSidecarConfig, buildSidecarConfig, render_input, name_first. cbn [sc_inputs sc_measurements sc_adminListen sc_reattestIntervalMs].
    rewrite !(sort_by_map row_input (fun a b => jltb (si_name a) (si_name b))).
    assert (Hk : NoDup (map si_name (map row_input (enabled_endpoints table)))) by (by rewrite map_map).
    rewrite (sort_by_key_ext si_name _ _ Hk Hp).
    rewrite (sort_jltb_ext (distinct [] (sort_by jltb measurements)) (distinct [] (sort_by jltb measurements'))); [done|apply distinct_spec..|].
    intros x. rewrite !(proj2 (distinct_spec [] _)), !sort_by_perm, Hm. done. }
  unfold render in *. rewrite <- Hsame. destruct (renderSidecarConfig _ _ _) as [rendered|e]; [|done].
  exists {| rr_changed := false; rr_endpoints := Z.of_nat (length (enabled_endpoints table'));
            rr_trustedMeasurements := Z.of_nat (length measurements') |}.
  intros writable'. unfold writeIfChanged in *.
  assert (Hf : file' = Some rendered).
  { destruct (bool_decide_reflect (file = Some rendered)) as [->|_]; [by injection Hr as <- _|].
    destruct writable; [by injection Hr as <- _|done]. }
  rewrite Hf, bool_decide_eq_true_2 by done. done.
Qed.
End Theorems.

(** A parser of plain https origins, a comparison by units and a serialiser for examples. *)
#[local] Instance plain_urls : UrlParser := {
  URL_parse s := if jstartsWith s "https://" && forallb (fun c => negb (is_space c)) (units s)
                 then Some {| url_protocol := "https:"; url_host := jdrop 8 s; url_hostname := jdrop 8 s |} else None
}.

Lemma prefixb_drop p u : prefixb p u = true -> u = p ++ drop (length p) u.
Proof.
  revert u; induction p as [|c p IH]; intros [|d u]; cbn; try done. intros [<-%N.eqb_eq Hp]%andb_true_iff.
  by rewrite <- (IH _ Hp).
Qed.

#[local] Instance plain_url_laws : UrlLaws plain_urls.
Proof.
  split; intros s u; unfold URL_parse, plain_urls; destruct (jstartsWith s "https://") eqn:Ep; cbn [andb]; try done;
    destruct (forallb _ (units s)) eqn:Eb; try done; intros [= <-]; cbn [url_host].
  - intros _. assert (Hs : "https://" +++ jdrop 8 s = s) by (destruct s as [v]; unfold japp; cbn [jdrop units]; f_equal; symmetry; by apply prefixb_drop).
    by rewrite Hs, Ep, Eb.
  - cbn [jdrop units]. rewrite forallb_forall in Eb |- *. intros c Hc. apply Eb.
    rewrite <- (take_drop (Z.to_nat 8) (units s)). apply in_or_app. by right.
Qed.

Definition plain_compare (a b : jstr) : Z := if jltb a b then -1 else if jltb b a then 1 else 0.
Definition plain_dump (d : SidecarConfigDocument) : jstr :=
  jjoin "," (map (fun e => sn_name e +++ " " +++ sn_upstream e) (sd_endpoints d) ++ sd_trustedMeasurements d).

Lemma renders_only_what_matters_witness :
  let settings := {| st_adminListen := "127.0.0.1:9000"; st_reattestInterval := 600000 |} in
  let table := [example_endpoint pending] in
  exists file r, render plain_compare plain_dump settings table ["m2"; "m1"] true None = (file, Ok r) /\ rr_changed r = true /\
    exists r', (forall w, render plain_compare plain_dump settings [example_endpoint verified] ["m1"; "m2"; "m1"] w file = (file, Ok r') /\
                          rr_changed r' = false).
Proof.
  cbv zeta. eexists _, _. split; [vm_compute; reflexivity|]. split; [reflexivity|].
  eapply (renders_only_what_matters plain_compare plain_dump _ [example_endpoint pending] [example_endpoint verified] ["m2"; "m1"] ["m1"; "m2"; "m1"] true None).
  - vm_compute. apply NoDup_singleton.
  - reflexivity.
  - set_solver.
  - vm_compute. reflexivity.
Defined.
