(* ===== verification/EndpointAdmin.v ===== *)
(** * Everything an operator can change about external endpoints

    [external-endpoints/external-endpoint-admin.service.ts] and [listen-port.ts]: the
    one writer of the endpoint rows, their models and the trust list, which renders
    the sidecar's file and rebuilds the catalogue after every change.

    A handler takes the state to the state and a result: what was written before an
    exception stays, except inside a transaction.  Calls run to their end one after
    the other.  [eventsFor], which orders by the timeline's random ids, is left out. *)

From S2P Require Import Prelude JsString EvidenceDigest SecretEnvelope StatusProjection Liveness ExternalCatalog StatusService.
From S2P Require Import ConfigCatalog SidecarConfig OperatorAlerts.

(** ** Ports *)

(** [for (let port = base; port < base + range; port += 1)] *)
Fixpoint scan_ports (n : nat) (port : Z) (used : list Z) : option Z :=
  match n with
  | O => None
  | S n => if existsb (Z.eqb port) used then scan_ports n (port + 1) used else Some port
  end.

Definition allocateListenPort (base range : Z) (taken : list Z) : option Z := scan_ports (Z.to_nat range) base taken.

(** ** State *)

(** The columns of an endpoint's row that only this service writes. *)
Record EndpointDetails := {
  ed_apiKeyPrefix : jstr;
  ed_createdByUserId : option jstr;
  ed_createdAt : Z;
  ed_updatedAt : Z
}.

Record TrustedMeasurement := {
  tm_id : jstr;
  tm_measurement : jstr;
  tm_note : option jstr;
  tm_addedByUserId : option jstr;
  tm_addedAt : Z
}.

(** The two columns of [evidence_snapshots] read here. *)
Record SeenEvidence := { sn_evidenceDigestHex : jstr; sn_certFingerprint : jstr }.

Record Admin := {
  ad_world : World;
  ad_details : gmap jstr EndpointDetails;
  ad_measurements : list TrustedMeasurement;
  ad_snapshots : list SeenEvidence;
  ad_file : option jstr
}.

Definition endpoints (s : Admin) : list ExternalEndpoint := w_endpoints (ad_world s).
Definition model_rows (s : Admin) : list Model := w_models (ad_world s).

Definition with_world (f : World -> World) (s : Admin) : Admin :=
  {| ad_world := f (ad_world s); ad_details := ad_details s; ad_measurements := ad_measurements s;
     ad_snapshots := ad_snapshots s; ad_file := ad_file s |}.

Definition with_details (f : gmap jstr EndpointDetails -> gmap jstr EndpointDetails) (s : Admin) : Admin :=
  {| ad_world := ad_world s; ad_details := f (ad_details s); ad_measurements := ad_measurements s;
     ad_snapshots := ad_snapshots s; ad_file := ad_file s |}.

Definition with_measurements (f : list TrustedMeasurement -> list TrustedMeasurement) (s : Admin) : Admin :=
  {| ad_world := ad_world s; ad_details := ad_details s; ad_measurements := f (ad_measurements s);
     ad_snapshots := ad_snapshots s; ad_file := ad_file s |}.

Definition with_file (file : option jstr) (s : Admin) : Admin :=
  {| ad_world := ad_world s; ad_details := ad_details s; ad_measurements := ad_measurements s;
     ad_snapshots := ad_snapshots s; ad_file := file |}.

Definition set_models (w : World) (t : list Model) : World :=
  {| w_endpoints := w_endpoints w; w_models := t; w_timeline := w_timeline w; w_catalog := w_catalog w;
     w_health := w_health w; w_alerts := w_alerts w; w_log := w_log w; w_alerted := w_alerted w;
     w_confirmedAt := w_confirmedAt w |}.

(** ** Inputs *)

Record ExternalModelSpec := {
  xs_id : jstr;
  xs_name : jstr;
  xs_upstreamModel : jstr;
  xs_contextLength : Z;
  xs_capabilities : list ModelCapability;
  xs_promptPer1mMicros : Z;
  xs_completionPer1mMicros : Z
}.

Record RegisterExternalEndpointSpec := {
  rs_name : jstr;
  rs_baseUrl : jstr;
  rs_apiKey : jstr;
  rs_models : list ExternalModelSpec;
  rs_createdByUserId : option jstr
}.

Record UpdateExternalEndpointSpec := {
  us_id : jstr;
  us_baseUrl : option jstr;
  us_models : option (list ExternalModelSpec);
  us_evidenceDigest : option jstr
}.

Record ExternalEndpointView := { xv_endpoint : ExternalEndpoint; xv_models : list Model }.

Inductive admin_error :=
| BadRequest (message : jstr)
| Conflict (message : jstr)
| NotFound (message : jstr)
| ServiceUnavailable (message : jstr)
| NoFreeListenPortError (base range : Z)
| InvalidUrl
| SecretError (e : secret_error)
| RenderError (e : render_error).

(** What a call draws from the platform: an id, the time, a nonce, and whether the
    shared volume takes a write. *)
Record Draw := { dr_uuid : jstr; dr_now : Z; dr_iv : list N; dr_writable : bool }.

(** ** Handlers *)

Definition handler (A : Type) : Type := Admin -> Admin * result admin_error A.

Definition h_bind {A B} (m : handler A) (f : A -> handler B) : handler B :=
  fun s => match m s with (s, Ok a) => f a s | (s, Err e) => (s, Err e) end.

Definition lift {A} (r : result admin_error A) : handler A := fun s => (s, r).
Definition gets {A} (f : Admin -> A) : handler A := fun s => (s, Ok (f s)).
Definition modify (f : Admin -> Admin) : handler unit := fun s => (f s, Ok tt).

Notation "'let!' x := m 'in' k" := (h_bind m (fun x => k)) (at level 200, x pattern, m at level 100, k at level 200,
  format "'[v' 'let!'  x  :=  m  'in'  '/' k ']'") : router_scope.

(** [if (wrong) throw e] *)
Definition refuse (wrong : bool) (e : admin_error) : handler unit := lift (throw_if wrong e).

Definition found {A} (o : option A) (e : admin_error) : handler A := lift (match o with Some a => Ok a | None => Err e end).

(** [manager.transaction]: an exception inside takes the store back. *)
Definition transaction {A} (m : handler A) : handler A :=
  fun s => match m s with (s', Ok a) => (s', Ok a) | (_, Err e) => (s, Err e) end.

(** ** Readers *)

Definition model_id_first (a b : Model) : bool := jltb (m_id a) (m_id b).

Definition models_of (id : jstr) (table : list Model) : list Model :=
  sort_by model_id_first
    (List.filter (fun m => bool_decide (m_origin m = origin_external) && bool_decide (m_externalEndpointId m = Some id)) table).

Definition find_view (id : jstr) (s : Admin) : option ExternalEndpointView :=
  (fun e => {| xv_endpoint := e; xv_models := models_of id (model_rows s) |}) <$>
    find_first (fun e => jeqb (ee_id e) id) (endpoints s).

Definition list_views (s : Admin) : list ExternalEndpointView :=
  map (fun e => {| xv_endpoint := e; xv_models := models_of (ee_id e) (model_rows s) |})
    (sort_by name_first (endpoints s)).

Definition not_found : admin_error := NotFound "External endpoint not found.".
Definition measurement_not_found : admin_error := NotFound "Trusted measurement not found.".

Definition view (id : jstr) : handler ExternalEndpointView :=
  let! v := gets (find_view id) in found v not_found.

Definition require (id : jstr) : handler ExternalEndpoint :=
  let! e := gets (fun s => find_first (fun e => jeqb (ee_id e) id) (endpoints s)) in found e not_found.

Definition listMeasurements (s : Admin) : list TrustedMeasurement :=
  sort_by (fun a b => jltb (tm_measurement a) (tm_measurement b)) (ad_measurements s).

(** [GROUP BY measurementSeen] over the enabled, verified rows. *)
Definition measurementUsage (s : Admin) : gmap jstr Z :=
  foldr (fun e m => match measurementSeen (ee_columns e) with
                    | Some x => if ee_enabled e && status_eqb (status (ee_columns e)) verified
                                then <[x := default 0 (m !! x) + 1]> m else m
                    | None => m
                    end) ∅ (endpoints s).

(** ** Checks *)

Definition is_name_head (c : N) : bool := is_lower c || is_digit c.

(** [/^[a-z0-9][a-z0-9-]{0,62}$/] *)
Definition EXTERNAL_ENDPOINT_NAME (s : jstr) : bool :=
  match units s with
  | c :: r => is_name_head c && (length r <=? 62)%nat && forallb (fun c => is_name_head c || (c =? 45)%N) r
  | [] => false
  end.

Definition quoted (s : jstr) : jstr := dq +++ s +++ dq.

Fixpoint assertDistinctModelIds (seen : list jstr) (models : list ExternalModelSpec) : result admin_error unit :=
  match models with
  | [] => Ok tt
  | m :: models =>
      throw (BadRequest ("The model id " +++ quoted (xs_id m) +++ " is listed twice.")) when existsb (jeqb (xs_id m)) seen;
      assertDistinctModelIds (xs_id m :: seen) models
  end.

(** The rows that hold one of the ids and are not this endpoint's own. *)
Definition taken_ids (specs : list ExternalModelSpec) (own : option jstr) (table : list Model) : list jstr :=
  map m_id (List.filter (fun r => existsb (fun x => jeqb (xs_id x) (m_id r)) specs &&
                          (negb (bool_decide (m_origin r = origin_external)) ||
                           negb (bool_decide (m_externalEndpointId r = own)))) table).

Definition assertModelIdsFree (specs : list ExternalModelSpec) (own : option jstr) : handler unit :=
  let! taken := gets (fun s => taken_ids specs own (model_rows s)) in
  refuse (negb (bool_decide (taken = [])))
    (Conflict ("These model ids are already in the catalogue: " +++ jjoin ", " taken +++ ".")).

Definition requireDigest (value : jstr) : result admin_error jstr :=
  match normalizeEvidenceDigest value with
  | Some d => Ok d
  | None => Err (BadRequest (quoted value +++
      " is not an evidence digest. Expected sha256:<64 hex> — the form the console shows — or sha256/<base64url>."))
  end.

(** The spellings a SHA-256 is stored in. *)
Definition spellings_of (hex : jstr) : list jstr :=
  [hex; "sha256:" +++ hex; "sha256/" +++ Js (hexToBase64Url (units hex))].

Definition holds (spellings : list jstr) (column : option jstr) : bool :=
  match column with Some v => existsb (jeqb v) spellings | None => false end.

Definition known_digest (hex : jstr) (s : Admin) : bool :=
  existsb (fun x => jeqb (sn_evidenceDigestHex x) hex) (ad_snapshots s) ||
  existsb (fun e => holds (spellings_of hex) (evidenceDigestSeen (ee_columns e))) (endpoints s) ||
  existsb (fun e => holds (spellings_of hex) (ee_pinnedEvidenceDigest e)) (endpoints s).

Definition known_fingerprint (hex : jstr) (s : Admin) : bool :=
  existsb (fun x => holds (spellings_of hex) (Some (sn_certFingerprint x))) (ad_snapshots s) ||
  existsb (fun e => holds (spellings_of hex) (pinnedCertFingerprint (ee_columns e))) (endpoints s) ||
  existsb (fun e => holds (spellings_of hex) (observedCertFingerprint (ee_columns e))) (endpoints s).

Definition refuseKnownDigest (hex : jstr) : handler unit :=
  let! isEvidenceDigest_ := gets (known_digest hex) in
  let! isCertFingerprint := gets (known_fingerprint hex) in
  refuse (isEvidenceDigest_ || isCertFingerprint)
    (BadRequest (hex +++ " is " +++ (if isEvidenceDigest_ then "an evidence digest" else "a certificate fingerprint") +++
       " this router has seen, not a cloud launch measurement. Trust the measurement the router " +++
       "derived from the cloud’s root CA attestation instead — an endpoint’s “Measurement seen”.")).

(** ** Writes *)

(** [PENDING_VERDICT] with [notServingSince]: the columns of a verdict that was let go. *)
Definition pending_verdict (st : ExternalEndpointStatus) (enabled : bool) (now : Z) : ExternalEndpointStatusPatch :=
  {| status := st; lastCheckedAt := None; lastStage := None; lastReason := None;
     measurementSeen := None; measurementSource := None; measurementInRegistry := None;
     evidenceDigestSeen := None; pinnedCertFingerprint := None; observedCertFingerprint := None;
     lastSuccessAt := None; lastFailureAt := None;
     notServingSince := if enabled then Some now else None;
     consecutiveFailures := 0; upstreamUnreachable := None |}.

Definition update_rows (id : jstr) (f : ExternalEndpoint -> ExternalEndpoint) (w : World) : World :=
  set_endpoints w (map (fun e => if jeqb (ee_id e) id then f e else e) (w_endpoints w)).

Definition touch (id : jstr) (now : Z) : gmap jstr EndpointDetails -> gmap jstr EndpointDetails :=
  alter (fun d => {| ed_apiKeyPrefix := ed_apiKeyPrefix d; ed_createdByUserId := ed_createdByUserId d;
                     ed_createdAt := ed_createdAt d; ed_updatedAt := now |}) id.

Definition model_row (externalEndpointId : jstr) (now : Z) (x : ExternalModelSpec) : Model :=
  {| m_id := xs_id x; m_name := xs_name x; m_litellmModel := xs_upstreamModel x; m_origin := origin_external;
     m_endpointId := None; m_externalEndpointId := Some externalEndpointId; m_contextLength := xs_contextLength x;
     m_capabilities := xs_capabilities x; m_promptPer1mMicros := xs_promptPer1mMicros x;
     m_completionPer1mMicros := xs_completionPer1mMicros x; m_enabled := true; m_updatedAt := now |}.

Definition writeModels (externalEndpointId : jstr) (models : list ExternalModelSpec) (now : Z) (table : list Model)
    : list Model :=
  foldl (fun table x => save_model (model_row externalEndpointId now x) table) table models.

Definition retire_models (externalEndpointId : jstr) (models : list ExternalModelSpec) (now : Z) (table : list Model)
    : list Model :=
  map (fun r => if bool_decide (m_externalEndpointId r = Some externalEndpointId) && m_enabled r &&
                   negb (existsb (fun x => jeqb (xs_id x) (m_id r)) models)
                then disabled_row r now else r) table.

Section Service.
Context `{UrlParser} `{Aead}.
(** [toLowerCase], [localeCompare] and the YAML serialiser. *)
Context (toLowerCase : jstr -> jstr) (localeCompare : jstr -> jstr -> Z) (dump : SidecarConfigDocument -> jstr).

(** [externalEndpoints] of the configuration, and the environment's data key. *)
Record AdminConfig := { ac_sidecar : SidecarSettings; ac_listenPortBase : Z; ac_listenPortRange : Z; ac_secretsKey : option jstr }.
Context (config : AdminConfig).

Definition canonicalBaseUrl (value : jstr) : result admin_error jstr :=
  match URL_parse (jtrim value) with
  | None => Err (BadRequest (quoted value +++ " is not a URL."))
  | Some url =>
      throw (BadRequest (quoted value +++
        " is not an https URL. The router pins the upstream’s TLS certificate to its evidence, " +++
        "and a plain-HTTP upstream has no channel to bind a verdict to."))
        when negb (jeqb (url_protocol url) "https:");
      Ok (url_protocol url +++ "//" +++ url_host url)
  end.

Definition hostname_of (baseUrl : jstr) : result admin_error jstr :=
  match URL_parse baseUrl with Some url => Ok (url_hostname url) | None => Err InvalidUrl end.

Definition requireName (value : jstr) : result admin_error jstr :=
  let name := toLowerCase (jtrim value) in
  throw (BadRequest (quoted value +++
    " is not a usable endpoint name: lower-case letters, digits and hyphens only, " +++
    "starting with a letter or digit, at most 63 characters — it is the sidecar’s own key for this upstream."))
    when negb (EXTERNAL_ENDPOINT_NAME name);
  Ok name.

Definition requireMeasurement (value : jstr) : result admin_error jstr :=
  match normaliseMeasurement toLowerCase value with
  | Some m => Ok m
  | None => Err (BadRequest (quoted (jtrim value) +++
      " is not a VM launch measurement: expected 64 hex characters, optionally prefixed with `sha256:` or `0x`."))
  end.

Definition requireSecretsKey : result admin_error unit :=
  throw (ServiceUnavailable (secret_message MissingSecretsKeyError)) when negb (available (ac_secretsKey config) None);
  Ok tt.

Definition sealed (iv : list N) (plaintext context : jstr) : result admin_error SealedSecret :=
  match seal (ac_secretsKey config) None iv plaintext context with Ok x => Ok x | Err e => Err (SecretError e) end.

Definition blank_key : admin_error :=
  BadRequest "The upstream API key must not be blank; the router cannot proxy without it.".

Definition allocatePort : handler Z :=
  let! taken := gets (fun s => map ee_listenPort (endpoints s)) in
  found (allocateListenPort (ac_listenPortBase config) (ac_listenPortRange config) taken)
        (NoFreeListenPortError (ac_listenPortBase config) (ac_listenPortRange config)).

(** Renders the file, then rebuilds the catalogue; a render that throws ends it. *)
Definition publish (d : Draw) : handler unit :=
  fun s =>
    match render localeCompare dump (ac_sidecar config) (endpoints s) (map tm_measurement (ad_measurements s))
                 (dr_writable d) (ad_file s) with
    | (file, Err e) => (with_file file s, Err (RenderError e))
    | (file, Ok _) => (with_world refresh (with_file file s), Ok tt)
    end.

Definition record_event (id : jstr) (kind : ExternalEndpointEventKind) (d : Draw) (evidenceDigest reason : option jstr)
    : handler unit :=
  modify (with_world (fun w => recordEvent w id kind (dr_now d) evidenceDigest reason None)).

(** ** Operations *)

Definition insert_endpoint (e : ExternalEndpoint) (details : EndpointDetails) : handler unit :=
  modify (fun s => with_details (insert (ee_id e) details) (with_world (fun w => set_endpoints w (w_endpoints w ++ [e])) s)).

Definition register (spec : RegisterExternalEndpointSpec) (d : Draw) : handler ExternalEndpointView :=
  let! _ := lift requireSecretsKey in
  let! name := lift (requireName (rs_name spec)) in
  let! baseUrl := lift (canonicalBaseUrl (rs_baseUrl spec)) in
  let apiKey := jtrim (rs_apiKey spec) in
  let! _ := refuse (jlength apiKey =? 0) blank_key in
  let! _ := lift (assertDistinctModelIds [] (rs_models spec)) in
  let! known := gets (fun s => existsb (fun e => jeqb (ee_name e) name) (endpoints s)) in
  let! _ := refuse known (Conflict ("An external endpoint named " +++ quoted name +++ " is already registered.")) in
  let! _ := assertModelIdsFree (rs_models spec) None in
  let id := dr_uuid d in
  let! listenPort := allocatePort in
  let! secret := lift (sealed (dr_iv d) apiKey id) in
  let now := dr_now d in
  let! _ := transaction (
    let! hostname := lift (hostname_of baseUrl) in
    let! _ := insert_endpoint
                {| ee_id := id; ee_name := name; ee_hostname := hostname; ee_baseUrl := baseUrl; ee_listenPort := listenPort;
                   ee_apiKeyCiphertext := ss_ciphertext secret; ee_enabled := true; ee_pinnedEvidenceDigest := None;
                   ee_columns := pending_verdict pending true now |}
                {| ed_apiKeyPrefix := ss_prefix secret; ed_createdByUserId := rs_createdByUserId spec;
                   ed_createdAt := now; ed_updatedAt := now |} in
    modify (with_world (fun w => set_models w (writeModels id (rs_models spec) now (w_models w))))) in
  let! _ := record_event id registered_event d None None in
  let! _ := publish d in
  view id.

(** The pin an edit leaves: the digest it states, none after a re-point, or the old one. *)
Definition pin_after (endpoint : ExternalEndpoint) (approved : option jstr) (repointed : bool) : option jstr :=
  match approved with
  | Some digest => Some digest
  | None => if repointed then None else ee_pinnedEvidenceDigest endpoint
  end.

(** The UPDATE of an edit. *)
Definition edited_row (baseUrl hostname : jstr) (repointed : bool) (pinned : option jstr) (now : Z) (e : ExternalEndpoint)
    : ExternalEndpoint :=
  {| ee_id := ee_id e; ee_name := ee_name e; ee_hostname := hostname; ee_baseUrl := baseUrl;
     ee_listenPort := ee_listenPort e; ee_apiKeyCiphertext := ee_apiKeyCiphertext e; ee_enabled := ee_enabled e;
     ee_pinnedEvidenceDigest := pinned;
     ee_columns := if repointed && ee_enabled e then pending_verdict pending true now else ee_columns e |}.

Definition lost_deployment (endpoint : ExternalEndpoint) (baseUrl : jstr) : jstr :=
  "External endpoint " +++ quoted (ee_name endpoint) +++ " lost its approved deployment " +++
  default "null" (ee_pinnedEvidenceDigest endpoint) +++ ": the update re-points it from " +++ ee_baseUrl endpoint +++ " to " +++
  baseUrl +++ ", and the pin approved the deployment that answered at the old URL. It will serve nothing until a digest is " +++
  "pinned again — pass evidenceDigest on the update, or call pinExternalEndpointDigest.".

(** [if (spec.models) { … }] before the transaction. *)
Definition check_models (spec : UpdateExternalEndpointSpec) (endpoint : ExternalEndpoint) : handler unit :=
  match us_models spec with
  | None => lift (Ok tt)
  | Some models => let! _ := lift (assertDistinctModelIds [] models) in assertModelIdsFree models (Some (ee_id endpoint))
  end.

(** [if (spec.models) { … }] inside it. *)
Definition write_models (spec : UpdateExternalEndpointSpec) (endpoint : ExternalEndpoint) (now : Z) : handler unit :=
  match us_models spec with
  | None => lift (Ok tt)
  | Some models =>
      modify (with_world (fun w => set_models w
        (retire_models (ee_id endpoint) models now (writeModels (ee_id endpoint) models now (w_models w)))))
  end.

Definition withdrawal (endpoint : ExternalEndpoint) (baseUrl : jstr) : jstr :=
  "Re-pointed to " +++ baseUrl +++ "; the approval was of the deployment that answered at " +++ ee_baseUrl endpoint +++ ".".

(** The entries about the pin: one when it is set to another digest, one when it is withdrawn. *)
Definition record_pin (endpoint : ExternalEndpoint) (baseUrl : jstr) (pinned : option jstr) (withdrawn : bool) (d : Draw)
    : handler unit :=
  let! _ := match pinned with
            | Some digest =>
                if bool_decide (pinned = ee_pinnedEvidenceDigest endpoint) then lift (Ok tt)
                else record_event (ee_id endpoint) digest_pinned d (Some digest) None
            | None => lift (Ok tt)
            end in
  if withdrawn
  then record_event (ee_id endpoint) digest_unpinned d (ee_pinnedEvidenceDigest endpoint) (Some (withdrawal endpoint baseUrl))
  else lift (Ok tt).

Definition update (spec : UpdateExternalEndpointSpec) (d : Draw) : handler ExternalEndpointView :=
  let! endpoint := require (us_id spec) in
  let! baseUrl := lift (match us_baseUrl spec with None => Ok (ee_baseUrl endpoint) | Some v => canonicalBaseUrl v end) in
  let! approved := lift (match us_evidenceDigest spec with None => Ok None | Some v => x ← requireDigest v; Ok (Some x) end) in
  let! _ := check_models spec endpoint in
  let now := dr_now d in
  let repointed := negb (jeqb baseUrl (ee_baseUrl endpoint)) in
  let pinned := pin_after endpoint approved repointed in
  let withdrawn := negb (is_null (ee_pinnedEvidenceDigest endpoint)) && is_null pinned in
  let! _ := transaction (
    let! hostname := lift (hostname_of baseUrl) in
    let! _ := modify (fun s => with_details (touch (ee_id endpoint) now)
                (with_world (update_rows (ee_id endpoint) (edited_row baseUrl hostname repointed pinned now)) s)) in
    let! _ := write_models spec endpoint now in
    record_pin endpoint baseUrl pinned withdrawn d) in
  let! _ := (if withdrawn then modify (with_world (fun w => log_line w (lost_deployment endpoint baseUrl))) else lift (Ok tt)) in
  let! _ := publish d in
  view (ee_id endpoint).

Definition switched_row (enabled : bool) (now : Z) (e : ExternalEndpoint) : ExternalEndpoint :=
  {| ee_id := ee_id e; ee_name := ee_name e; ee_hostname := ee_hostname e; ee_baseUrl := ee_baseUrl e;
     ee_listenPort := ee_listenPort e; ee_apiKeyCiphertext := ee_apiKeyCiphertext e; ee_enabled := enabled;
     ee_pinnedEvidenceDigest := ee_pinnedEvidenceDigest e;
     ee_columns := pending_verdict (if enabled then pending else disabled_status) enabled now |}.

Definition setEnabled (id : jstr) (enabled : bool) (d : Draw) : handler ExternalEndpointView :=
  let! endpoint := require id in
  if Bool.eqb (ee_enabled endpoint) enabled then view id
  else
    let! _ := modify (fun s => with_details (touch id (dr_now d))
                                (with_world (update_rows id (switched_row enabled (dr_now d))) s)) in
    let! _ := (if enabled then lift (Ok tt) else record_event id disabled_event d None None) in
    let! _ := publish d in
    view id.

Definition keyed_row (ciphertext : jstr) (e : ExternalEndpoint) : ExternalEndpoint :=
  {| ee_id := ee_id e; ee_name := ee_name e; ee_hostname := ee_hostname e; ee_baseUrl := ee_baseUrl e;
     ee_listenPort := ee_listenPort e; ee_apiKeyCiphertext := ciphertext; ee_enabled := ee_enabled e;
     ee_pinnedEvidenceDigest := ee_pinnedEvidenceDigest e; ee_columns := ee_columns e |}.

Definition rotateKey (id apiKey : jstr) (d : Draw) : handler ExternalEndpointView :=
  let! _ := lift requireSecretsKey in
  let! endpoint := require id in
  let plaintext := jtrim apiKey in
  let! _ := refuse (jlength plaintext =? 0) blank_key in
  let! secret := lift (sealed (dr_iv d) plaintext (ee_id endpoint)) in
  let! _ := modify (fun s =>
    with_details (alter (fun x => {| ed_apiKeyPrefix := ss_prefix secret; ed_createdByUserId := ed_createdByUserId x;
                                     ed_createdAt := ed_createdAt x; ed_updatedAt := dr_now d |}) id)
      (with_world (update_rows id (keyed_row (ss_ciphertext secret))) s)) in
  let! _ := record_event id key_rotated d None None in
  view id.

Definition pinned_row (digest : jstr) (e : ExternalEndpoint) : ExternalEndpoint :=
  {| ee_id := ee_id e; ee_name := ee_name e; ee_hostname := ee_hostname e; ee_baseUrl := ee_baseUrl e;
     ee_listenPort := ee_listenPort e; ee_apiKeyCiphertext := ee_apiKeyCiphertext e; ee_enabled := ee_enabled e;
     ee_pinnedEvidenceDigest := Some digest; ee_columns := ee_columns e |}.

Definition pinDigest (id evidenceDigest : jstr) (d : Draw) : handler ExternalEndpointView :=
  let! endpoint := require id in
  let! digest := lift (requireDigest evidenceDigest) in
  if bool_decide (ee_pinnedEvidenceDigest endpoint = Some digest) then view id
  else
    let! _ := modify (fun s => with_details (touch id (dr_now d)) (with_world (update_rows id (pinned_row digest)) s)) in
    let! _ := record_event id digest_pinned d (Some digest) None in
    let! _ := publish d in
    view id.

(** [note?.trim() || null] *)
Definition note_of (note : option jstr) : option jstr :=
  match note with
  | Some s => if jlength (jtrim s) =? 0 then None else Some (jtrim s)
  | None => None
  end.

Definition addMeasurement (measurement : jstr) (note addedByUserId : option jstr) (d : Draw) : handler TrustedMeasurement :=
  let! normalised := lift (requireMeasurement measurement) in
  let! _ := refuseKnownDigest normalised in
  let! known := gets (fun s => existsb (fun r => jeqb (tm_measurement r) normalised) (ad_measurements s)) in
  let! _ := refuse known (Conflict ("The measurement " +++ normalised +++ " is already on the trust list.")) in
  let row := {| tm_id := dr_uuid d; tm_measurement := normalised; tm_note := note_of note;
                tm_addedByUserId := addedByUserId; tm_addedAt := dr_now d |} in
  let! _ := modify (with_measurements (fun l => l ++ [row])) in
  let! _ := publish d in
  lift (Ok row).

Definition find_measurement (id : jstr) : handler TrustedMeasurement :=
  let! row := gets (fun s => find_first (fun r => jeqb (tm_id r) id) (ad_measurements s)) in
  found row measurement_not_found.

Definition noted (note : option jstr) (r : TrustedMeasurement) : TrustedMeasurement :=
  {| tm_id := tm_id r; tm_measurement := tm_measurement r; tm_note := note_of note;
     tm_addedByUserId := tm_addedByUserId r; tm_addedAt := tm_addedAt r |}.

Definition updateMeasurementNote (id : jstr) (note : option jstr) : handler TrustedMeasurement :=
  let! row := find_measurement id in
  let! _ := modify (with_measurements (map (fun r => if jeqb (tm_id r) id then noted note row else r))) in
  lift (Ok (noted note row)).

Definition removeMeasurement (id : jstr) (d : Draw) : handler TrustedMeasurement :=
  let! row := find_measurement id in
  let! _ := modify (with_measurements (List.filter (fun r => negb (jeqb (tm_id r) id)))) in
  let! _ := publish d in
  lift (Ok row).

(** ** One call of the service *)

Inductive admin_call :=
| Register (spec : RegisterExternalEndpointSpec)
| Update (spec : UpdateExternalEndpointSpec)
| SetEnabled (id : jstr) (enabled : bool)
| RotateKey (id apiKey : jstr)
| PinDigest (id evidenceDigest : jstr)
| AddMeasurement (measurement : jstr) (note addedByUserId : option jstr)
| UpdateMeasurementNote (id : jstr) (note : option jstr)
| RemoveMeasurement (id : jstr).

Definition drop_answer {A} (m : handler A) : handler unit := let! _ := m in lift (Ok tt).

Definition run_call (call : admin_call) (d : Draw) : handler unit :=
  match call with
  | Register spec => drop_answer (register spec d)
  | Update spec => drop_answer (update spec d)
  | SetEnabled id enabled => drop_answer (setEnabled id enabled d)
  | RotateKey id apiKey => drop_answer (rotateKey id apiKey d)
  | PinDigest id digest => drop_answer (pinDigest id digest d)
  | AddMeasurement m note user => drop_answer (addMeasurement m note user d)
  | UpdateMeasurementNote id note => drop_answer (updateMeasurementNote id note)
  | RemoveMeasurement id => drop_answer (removeMeasurement id d)
  end.

(** ** Specification

    What each call may commit: one constructor per operation, with the checks it has
    passed and the state it leaves in the database. *)

Definition named (id : jstr) (s : Admin) : option ExternalEndpoint := find_first (fun e => jeqb (ee_id e) id) (endpoints s).

Definition event_of (kind : ExternalEndpointEventKind) (id : jstr) (now : Z) (evidenceDigest reason : option jstr) : EndpointEvent :=
  {| te_endpointId := id; te_at := now;
     te_event := {| ev_kind := kind; ev_stage := None; ev_reason := clip reason 255; ev_measurement := None;
                    ev_evidenceDigest := evidenceDigest |} |}.

Inductive commits (s : Admin) (d : Draw) : admin_call -> Admin -> Prop :=
| commit_register spec name baseUrl url port secret e s' :
    requireName (rs_name spec) = Ok name -> canonicalBaseUrl (rs_baseUrl spec) = Ok baseUrl -> URL_parse baseUrl = Some url ->
    assertDistinctModelIds [] (rs_models spec) = Ok tt -> name ∉ map ee_name (endpoints s) ->
    taken_ids (rs_models spec) None (model_rows s) = [] ->
    allocateListenPort (ac_listenPortBase config) (ac_listenPortRange config) (map ee_listenPort (endpoints s)) = Some port ->
    sealed (dr_iv d) (jtrim (rs_apiKey spec)) (dr_uuid d) = Ok secret ->
    e = {| ee_id := dr_uuid d; ee_name := name; ee_hostname := url_hostname url; ee_baseUrl := baseUrl; ee_listenPort := port;
           ee_apiKeyCiphertext := ss_ciphertext secret; ee_enabled := true; ee_pinnedEvidenceDigest := None;
           ee_columns := pending_verdict pending true (dr_now d) |} ->
    endpoints s' = endpoints s ++ [e] -> model_rows s' = writeModels (dr_uuid d) (rs_models spec) (dr_now d) (model_rows s) ->
    w_timeline (ad_world s') = w_timeline (ad_world s) ++ [event_of registered_event (dr_uuid d) (dr_now d) None None] ->
    ad_measurements s' = ad_measurements s ->
    ad_details s' = <[dr_uuid d := {| ed_apiKeyPrefix := ss_prefix secret; ed_createdByUserId := rs_createdByUserId spec;
                                      ed_createdAt := dr_now d; ed_updatedAt := dr_now d |}]> (ad_details s) ->
    requireSecretsKey = Ok tt -> jlength (jtrim (rs_apiKey spec)) <> 0 ->
    commits s d (Register spec) s'
| commit_update spec e baseUrl approved url s' :
    named (us_id spec) s = Some e ->
    match us_baseUrl spec with None => baseUrl = ee_baseUrl e | Some v => canonicalBaseUrl v = Ok baseUrl end ->
    match us_evidenceDigest spec with None => approved = None | Some v => exists x, approved = Some x /\ normalizeEvidenceDigest v = Some x end ->
    URL_parse baseUrl = Some url ->
    (forall models, us_models spec = Some models ->
       assertDistinctModelIds [] models = Ok tt /\ taken_ids models (Some (ee_id e)) (model_rows s) = []) ->
    let repointed := negb (jeqb baseUrl (ee_baseUrl e)) in
    let pinned := pin_after e approved repointed in
    endpoints s' = map (fun r => if jeqb (ee_id r) (ee_id e)
                                 then edited_row baseUrl (url_hostname url) repointed pinned (dr_now d) r else r) (endpoints s) ->
    model_rows s' = match us_models spec with
                    | None => model_rows s
                    | Some models => retire_models (ee_id e) models (dr_now d) (writeModels (ee_id e) models (dr_now d) (model_rows s))
                    end ->
    w_timeline (ad_world s') = w_timeline (ad_world s) ++
      (if bool_decide (pinned = ee_pinnedEvidenceDigest e) then []
       else match pinned with
            | Some digest => [event_of digest_pinned (ee_id e) (dr_now d) (Some digest) None]
            | None => [event_of digest_unpinned (ee_id e) (dr_now d) (ee_pinnedEvidenceDigest e) (Some (withdrawal e baseUrl))]
            end) ->
    ad_measurements s' = ad_measurements s ->
    ad_details s' = touch (ee_id e) (dr_now d) (ad_details s) ->
    commits s d (Update spec) s'
| commit_switch id enabled e s' :
    named id s = Some e -> ee_enabled e <> enabled ->
    endpoints s' = map (fun r => if jeqb (ee_id r) id then switched_row enabled (dr_now d) r else r) (endpoints s) ->
    model_rows s' = model_rows s ->
    w_timeline (ad_world s') = w_timeline (ad_world s) ++ (if enabled then [] else [event_of disabled_event id (dr_now d) None None]) ->
    ad_measurements s' = ad_measurements s -> ad_details s' = touch id (dr_now d) (ad_details s) ->
    commits s d (SetEnabled id enabled) s'
| commit_key id apiKey e secret s' :
    named id s = Some e -> sealed (dr_iv d) (jtrim apiKey) (ee_id e) = Ok secret ->
    endpoints s' = map (fun r => if jeqb (ee_id r) id then keyed_row (ss_ciphertext secret) r else r) (endpoints s) ->
    model_rows s' = model_rows s ->
    w_timeline (ad_world s') = w_timeline (ad_world s) ++ [event_of key_rotated id (dr_now d) None None] ->
    ad_measurements s' = ad_measurements s ->
    ad_details s' = alter (fun x => {| ed_apiKeyPrefix := ss_prefix secret; ed_createdByUserId := ed_createdByUserId x;
                                       ed_createdAt := ed_createdAt x; ed_updatedAt := dr_now d |}) id (ad_details s) ->
    requireSecretsKey = Ok tt -> jlength (jtrim apiKey) <> 0 ->
    commits s d (RotateKey id apiKey) s'
| commit_pin id evidenceDigest digest e s' :
    named id s = Some e -> normalizeEvidenceDigest evidenceDigest = Some digest -> ee_pinnedEvidenceDigest e <> Some digest ->
    endpoints s' = map (fun r => if jeqb (ee_id r) id then pinned_row digest r else r) (endpoints s) ->
    model_rows s' = model_rows s ->
    w_timeline (ad_world s') = w_timeline (ad_world s) ++ [event_of digest_pinned id (dr_now d) (Some digest) None] ->
    ad_measurements s' = ad_measurements s -> ad_details s' = touch id (dr_now d) (ad_details s) ->
    commits s d (PinDigest id evidenceDigest) s'
| commit_trust measurement note user normalised row s' :
    normaliseMeasurement toLowerCase measurement = Some normalised ->
    known_digest normalised s = false -> known_fingerprint normalised s = false ->
    normalised ∉ map tm_measurement (ad_measurements s) ->
    row = {| tm_id := dr_uuid d; tm_measurement := normalised; tm_note := note_of note; tm_addedByUserId := user;
             tm_addedAt := dr_now d |} ->
    ad_world s' = ad_world s -> ad_measurements s' = ad_measurements s ++ [row] -> ad_details s' = ad_details s ->
    commits s d (AddMeasurement measurement note user) s'
| commit_note id note row s' :
    row ∈ ad_measurements s -> tm_id row = id ->
    ad_world s' = ad_world s ->
    ad_measurements s' = map (fun r => if jeqb (tm_id r) id then noted note row else r) (ad_measurements s) ->
    ad_details s' = ad_details s ->
    commits s d (UpdateMeasurementNote id note) s'
| commit_distrust id row s' :
    row ∈ ad_measurements s -> tm_id row = id ->
    ad_world s' = ad_world s -> ad_measurements s' = List.filter (fun r => negb (jeqb (tm_id r) id)) (ad_measurements s) ->
    ad_details s' = ad_details s ->
    commits s d (RemoveMeasurement id) s'.

(** What no step writes: the file, the evidence seen, and what the process derives. *)
Definition kept (s s1 : Admin) : Prop :=
  ad_file s1 = ad_file s /\ ad_snapshots s1 = ad_snapshots s /\
  w_catalog (ad_world s1) = w_catalog (ad_world s) /\ w_health (ad_world s1) = w_health (ad_world s) /\
  w_alerts (ad_world s1) = w_alerts (ad_world s) /\ w_alerted (ad_world s1) = w_alerted (ad_world s) /\
  w_confirmedAt (ad_world s1) = w_confirmedAt (ad_world s).

(** Calls that change what the sidecar admits render; the other two write and are done. *)
Definition publishes (call : admin_call) : bool :=
  match call with RotateKey _ _ | UpdateMeasurementNote _ _ => false | _ => true end.

(** The render of the tables as they are committed. *)
Definition rendered (d : Draw) (s1 : Admin) : option jstr * result render_error RenderResult :=
  render localeCompare dump (ac_sidecar config) (endpoints s1) (map tm_measurement (ad_measurements s1))
    (dr_writable d) (ad_file s1).

(** The file holds what the tables render to, and the catalogue is rebuilt from them. *)
Definition published (d : Draw) (s1 s' : Admin) : Prop :=
  exists file r, rendered d s1 = (file, Ok r) /\ s' = with_world refresh (with_file file s1).

(** A call that asks for what is already so. *)
Definition idle (s : Admin) (call : admin_call) : Prop :=
  match call with
  | SetEnabled id enabled => exists e, named id s = Some e /\ ee_enabled e = enabled
  | PinDigest id evidenceDigest => exists e digest, named id s = Some e /\ normalizeEvidenceDigest evidenceDigest = Some digest /\
                                                  ee_pinnedEvidenceDigest e = Some digest
  | _ => False
  end.

(** Some check of the call fails, and it does not ask for what is already so. *)
Definition refused (s : Admin) (d : Draw) (call : admin_call) : Prop := (forall s1, ~ commits s d call s1) /\ ~ idle s call.

(** A call commits one step when its checks pass; a step the sidecar reads is published,
    unless the render fails, which leaves the step committed and the file as it was.  It
    changes nothing when it asks for what is already so, and fails with nothing changed
    exactly when some check refuses it. *)
Definition outcome {A} (s : Admin) (d : Draw) (call : admin_call) (res : Admin * result admin_error A) : Prop :=
  match res with
  | (s', Ok _) => s' = s /\ idle s call \/
                  exists s1, commits s d call s1 /\ kept s s1 /\ if publishes call then published d s1 s' else s' = s1
  | (s', Err e) => s' = s /\ refused s d call \/
      exists re, e = RenderError re /\ publishes call = true /\ commits s d call s' /\ kept s s' /\ rendered d s' = (ad_file s', Err re)
  end.
End Service.

(** ** Lemmas: handlers *)

Lemma bind_lift {A B} (r : result admin_error A) (f : A -> handler B) s :
  h_bind (lift r) f s = match r with Ok a => f a s | Err e => (s, Err e) end.
Proof. by destruct r. Qed.

Lemma bind_gets {A B} (g : Admin -> A) (f : A -> handler B) s : h_bind (gets g) f s = f (g s) s.
Proof. done. Qed.

Lemma bind_modify {B} g (f : unit -> handler B) s : h_bind (modify g) f s = f tt (g s).
Proof. done. Qed.

Lemma bind_refuse {B} b e (f : unit -> handler B) s : h_bind (refuse b e) f s = if b then (s, Err e) else f tt s.
Proof. by destruct b. Qed.

Lemma bind_found {A B} (o : option A) e (f : A -> handler B) s :
  h_bind (found o e) f s = match o with Some a => f a s | None => (s, Err e) end.
Proof. by destruct o. Qed.

Lemma bind_assoc {A B C} (m : handler A) (f : A -> handler B) (g : B -> handler C) s :
  h_bind (h_bind m f) g s = h_bind m (fun x => h_bind (f x) g) s.
Proof. unfold h_bind. by destruct (m s) as [s' [a|e]]. Qed.

Lemma bind_transaction {A B} (m : handler A) (f : A -> handler B) s :
  h_bind (transaction m) f s = match m s with (s', Ok a) => f a s' | (_, Err e) => (s, Err e) end.
Proof. unfold h_bind, transaction. by destruct (m s) as [s' [a|e]]. Qed.

Lemma run_lift {A} (r : result admin_error A) s : lift r s = (s, r).
Proof. done. Qed.

Lemma run_modify f s : modify f s = (f s, Ok tt).
Proof. done. Qed.

Create Rewrite HintDb handlers.
#[export] Hint Rewrite @bind_assoc @bind_lift @bind_gets @bind_modify @bind_refuse @bind_found @bind_transaction
  @run_lift run_modify : handlers.

Ltac handle := autorewrite with handlers; cbv beta.


(** ** Lemmas: what a call reads *)

Lemma named_some id s e : named id s = Some e -> e ∈ endpoints s /\ ee_id e = id.
Proof. intros [He Hid%jeqb_eq]%find_first_some. done. Qed.

Lemma existsb_key {A} (key : A -> jstr) x l : existsb (fun r => jeqb (key r) x) l = false <-> x ∉ map key l.
Proof.
  rewrite <- not_true_iff_false, existsb_exists. split; intros H Hin; apply H.
  - apply list_elem_of_fmap in Hin as (r & -> & Hr). exists r. split; [by apply list_elem_of_In|apply jeqb_refl].
  - destruct Hin as (r & Hr%list_elem_of_In & <-%jeqb_eq). by apply list_elem_of_fmap_2.
Qed.

Lemma requireDigest_ok v x : requireDigest v = Ok x <-> normalizeEvidenceDigest v = Some x.
Proof. unfold requireDigest. destruct (normalizeEvidenceDigest v); split; congruence. Qed.

(** No step of the specification is open: the check that failed is one of its premises. *)
Ltac no_commit :=
  intros ? Hcommit; inversion Hcommit; subst; clear Hcommit; unfold named in *;
  repeat match goal with H : _ ∉ map _ _ |- _ => apply existsb_key in H end;
  repeat match goal with H : normalizeEvidenceDigest _ = Some _ |- _ => apply requireDigest_ok in H end;
  repeat match goal with
  | H1 : ?x = Ok ?a, H2 : ?x = Ok ?b |- _ => rewrite H1 in H2; injection H2; clear H2; intros; subst
  | H1 : ?x = Some ?a, H2 : ?x = Some ?b |- _ => rewrite H1 in H2; injection H2; clear H2; intros; subst
  end;
  zbool; congruence.

Ltac not_idle :=
  cbn; unfold named; intros Hidle; try done;
  repeat match goal with H : exists _, _ |- _ => destruct H | H : _ /\ _ |- _ => destruct H end;
  repeat match goal with H : normalizeEvidenceDigest _ = Some _ |- _ => apply requireDigest_ok in H end; congruence.

Ltac refuses := left; split; [done|]; split; [no_commit|not_idle].

(** One guard of a handler: the branch that throws ends the call where it began. *)
Tactic Notation "guard" simple_intropattern(p) "eqn" ident(E) :=
  match goal with |- _ (match ?t with _ => _ end) => destruct t as p eqn:E end; [..|try (by refuses)]; try (by refuses); handle.

Section Theorems.
Context `{U : UrlParser} `{Aead}.
Context (toLowerCase : jstr -> jstr) (localeCompare : jstr -> jstr -> Z) (dump : SidecarConfigDocument -> jstr).
Context (config : AdminConfig).

#[local] Notation run_call := (run_call toLowerCase localeCompare dump config).
#[local] Notation commits := (commits toLowerCase config).
#[local] Notation published := (published localeCompare dump config).
#[local] Notation outcome := (outcome toLowerCase localeCompare dump config).
#[local] Notation publish := (publish localeCompare dump config).

Lemma render_error_keeps settings table measurements writable file file' e :
  render localeCompare dump settings table measurements writable file = (file', Err e) -> file' = file.
Proof.
  unfold render, writeIfChanged. destruct (renderSidecarConfig _ _ _); [|congruence].
  destruct (bool_decide _); [done|]. destruct writable; congruence.
Qed.

Lemma with_file_self s : with_file (ad_file s) s = s.
Proof. by destruct s. Qed.

(** Publishing a committed state, then answering with something it holds. *)
Lemma publish_outcome {A} s d call s1 (k : unit -> handler A) : commits s d call s1 -> kept s s1 -> publishes call = true ->
  (forall s', endpoints s' = endpoints s1 -> exists a, k tt s' = (s', Ok a)) ->
  outcome s d call (h_bind (publish d) k s1).
Proof.
  intros Hc Hkept Hp Hk. unfold h_bind, publish.
  destruct (render _ _ _ _ _ _ _) as [file [r|re]] eqn:Er.
  - destruct (Hk (with_world refresh (with_file file s1)) eq_refl) as [a ->]. right. exists s1. split_and!; [done..|].
    rewrite Hp. by exists file, r.
  - pose proof (render_error_keeps _ _ _ _ _ _ _ Er) as ->. rewrite with_file_self. right. by exists re.
Qed.

Lemma view_found id s1 s' : is_Some (named id s1) -> endpoints s' = endpoints s1 -> exists a, view id s' = (s', Ok a).
Proof.
  intros [e He] Hw. unfold view, found, lift, find_view. rewrite bind_gets, Hw. cbv beta.
  unfold named in He. rewrite He. cbn. eauto.
Qed.

Lemma view_named id s e : named id s = Some e -> exists a, view id s = (s, Ok a).
Proof. intros He. unfold view, found, lift, find_view. rewrite bind_gets. unfold named in He. rewrite He. cbn. eauto. Qed.

Lemma named_update id id' f s s' : (forall e, ee_id (f e) = ee_id e) -> is_Some (named id s) ->
  endpoints s' = map (fun e => if jeqb (ee_id e) id' then f e else e) (endpoints s) -> is_Some (named id s').
Proof.
  intros Hf [e He] Ht. unfold named in *. rewrite Ht. clear Ht. induction (endpoints s) as [|r l IH]; [done|].
  cbn [find_first List.find map] in *. destruct (jeqb (ee_id r) id') eqn:E1; rewrite ?Hf;
    destruct (jeqb (ee_id r) id) eqn:E2; eauto.
Qed.

Lemma register_outcome s d spec :
  outcome s d (Register spec) (register toLowerCase localeCompare dump config spec d s).
Proof.
  unfold register, assertModelIdsFree, allocatePort, record_event. handle.
  guard [[]|] eqn Ek.
  guard [name|] eqn En.
  guard [base|] eqn Eb.
  guard [|] eqn Ea.
  guard [[]|] eqn Ed.
  guard [|] eqn Ex.
  guard [|] eqn Et.
  zbool.
  guard [port|] eqn Ep.
  guard [secret|] eqn Es.
  unfold hostname_of, insert_endpoint. destruct (URL_parse base) as [url|] eqn:Eu; [|by refuses]. handle.
  set (e := {| ee_id := _ |}). set (s1 := with_world _ _).
  assert (He : endpoints s1 = endpoints s ++ [e]) by reflexivity.
  apply publish_outcome; [|done|done|].
  - by eapply (commit_register _ _ _ _ _ name base url port secret e); try done; apply existsb_key.
  - intros s' Hw. apply (view_found _ s1); [|done]. unfold named. rewrite He, find_first_app.
    destruct (find_first _ (endpoints s)); [eauto|]. cbn. rewrite jeqb_refl. eauto.
Qed.

Lemma bind_run {A B} (m : handler A) (f : A -> handler B) s s' r : m s = (s', r) ->
  h_bind m f s = match r with Ok a => f a s' | Err e => (s', Err e) end.
Proof. intros Hm. unfold h_bind. rewrite Hm. by destruct r. Qed.

Lemma kept_trans s s1 s2 : kept s s1 -> kept s1 s2 -> kept s s2.
Proof. intros (?&?&?&?&?&?&?) (?&?&?&?&?&?&?). split_and!; congruence. Qed.

Lemma check_models_run spec e s : exists r, check_models spec e s = (s, r) /\
  (r = Ok tt <-> forall models, us_models spec = Some models ->
     assertDistinctModelIds [] models = Ok tt /\ taken_ids models (Some (ee_id e)) (model_rows s) = []).
Proof.
  unfold check_models, assertModelIdsFree. destruct (us_models spec) as [models|]; handle; [|by eexists].
  destruct (assertDistinctModelIds [] models) as [[]|] eqn:Ed; handle.
  2: { eexists; split; [done|]. split; [done|]. intros Hall. destruct (Hall models eq_refl) as [? _]. congruence. }
  unfold refuse. rewrite run_lift. eexists; split; [done|]. rewrite throw_if_ok. split.
  - intros Hr models' [= <-]. zbool. done.
  - intros Hall. destruct (Hall models eq_refl) as [_ ->]. by rewrite bool_decide_eq_true_2.
Qed.

Lemma write_models_run spec e now s : exists s', write_models spec e now s = (s', Ok tt) /\
  endpoints s' = endpoints s /\ w_timeline (ad_world s') = w_timeline (ad_world s) /\
  ad_measurements s' = ad_measurements s /\ kept s s' /\ ad_details s' = ad_details s /\
  model_rows s' = match us_models spec with
                  | None => model_rows s
                  | Some models => retire_models (ee_id e) models now (writeModels (ee_id e) models now (model_rows s))
                  end.
Proof. unfold write_models. destruct (us_models spec); by eexists. Qed.

Lemma record_pin_run e base pinned d s : exists s',
  record_pin e base pinned (negb (is_null (ee_pinnedEvidenceDigest e)) && is_null pinned) d s = (s', Ok tt) /\
  endpoints s' = endpoints s /\ model_rows s' = model_rows s /\ ad_measurements s' = ad_measurements s /\ kept s s' /\
  ad_details s' = ad_details s /\
  w_timeline (ad_world s') = w_timeline (ad_world s) ++
    (if bool_decide (pinned = ee_pinnedEvidenceDigest e) then []
     else match pinned with
          | Some digest => [event_of digest_pinned (ee_id e) (dr_now d) (Some digest) None]
          | None => [event_of digest_unpinned (ee_id e) (dr_now d) (ee_pinnedEvidenceDigest e) (Some (withdrawal e base))]
          end).
Proof.
  unfold record_pin, record_event. destruct pinned as [digest|]; cbn [is_null]; rewrite ?andb_false_r, ?andb_true_r; handle.
  - case_bool_decide; handle; eexists; split_and!; try done. by rewrite app_nil_r.
  - destruct (ee_pinnedEvidenceDigest e) as [old|]; cbn; eexists; split_and!; try done. by rewrite app_nil_r.
Qed.

Lemma update_outcome s d spec : outcome s d (Update spec) (update localeCompare dump config spec d s).
Proof.
  unfold update, require. handle. guard [e|] eqn Ee.
  match goal with |- _ (match ?t with _ => _ end) => destruct t as [base|] eqn:Eb end; handle.
  2: { left. split; [done|]. split; [|by intros []]. intros s1 Hc.
       inversion Hc as [|? e' ? ? ? ? Ee' Hb| | | | | |]; subst. unfold named in Ee'. destruct (us_baseUrl spec); congruence. }
  match goal with |- _ (match ?t with _ => _ end) => destruct t as [approved|] eqn:Ea end; handle.
  2: { left. split; [done|]. split; [|by intros []]. intros s1 Hc.
       inversion Hc as [|? e' ? ? ? ? Ee' _ Ha| | | | | |]; subst. destruct (us_evidenceDigest spec); [|congruence].
       destruct Ha as (x & _ & Hx%requireDigest_ok). rewrite Hx in Ea. done. }
  assert (Happ : match us_evidenceDigest spec with None => approved = None
                 | Some v => exists x, approved = Some x /\ normalizeEvidenceDigest v = Some x end).
  { destruct (us_evidenceDigest spec); [|congruence]. apply bind_ok in Ea as (x & Hx%requireDigest_ok & [= <-]). eauto. }
  assert (Hbase : match us_baseUrl spec with None => base = ee_baseUrl e | Some v => canonicalBaseUrl v = Ok base end).
  { destruct (us_baseUrl spec); [done|congruence]. }
  destruct (check_models_run spec e s) as (r & Hr & Hmodels). rewrite (bind_run _ _ _ _ _ Hr).
  destruct r as [[]|err].
  2: { left. split; [done|]. split; [|by intros []]. intros s1 Hc.
       inversion Hc as [|? e' ? ? ? ? Ee' _ _ _ Hall| | | | | |]; subst. unfold named in Ee'. assert (e' = e) as -> by congruence.
       by apply Hmodels in Hall. }
  handle. unfold hostname_of. destruct (URL_parse base) as [url|] eqn:Eu.
  2: { left. split; [done|]. split; [|by intros []]. intros s1 Hc.
       inversion Hc as [|? e' ? ? ? ? Ee' Hb _ Hu| | | | | |]; subst. unfold named in Ee'. assert (e' = e) as -> by congruence.
       destruct (us_baseUrl spec); congruence. }
  handle. set (pinned := pin_after e approved _). set (s1 := with_details _ _).
  destruct (write_models_run spec e (dr_now d) s1) as (s2 & H2 & He2 & Ht2 & Hx2 & Hk2 & Hd2 & Hm2).
  destruct (record_pin_run e base pinned d s2) as (s3 & H3 & He3 & Hm3 & Hx3 & Hk3 & Hd3 & Ht3).
  rewrite (bind_run _ _ _ _ _ H2), H3.
  assert (Hc : forall s', ad_measurements s' = ad_measurements s3 -> endpoints s' = endpoints s3 -> model_rows s' = model_rows s3 ->
                          w_timeline (ad_world s') = w_timeline (ad_world s3) -> ad_details s' = ad_details s3 ->
                          commits s d (Update spec) s').
  { intros s' Hx He Hm Ht Hd. eapply (commit_update _ _ _ _ spec e base approved url); try done.
    - by apply Hmodels.
    - by rewrite He, He3, He2.
    - rewrite Hm, Hm3, Hm2. done.
    - rewrite Ht, Ht3, Ht2. done.
    - by rewrite Hx, Hx3, Hx2.
    - by rewrite Hd, Hd3, Hd2. }
  assert (Hkept : kept s s3) by (eapply kept_trans; [eapply (kept_trans s s1); [by split_and!|exact Hk2]|exact Hk3]).
  assert (Hn : is_Some (named (ee_id e) s3)).
  { pose proof (named_some _ _ _ Ee) as [_ Hid]. rewrite Hid.
    apply (named_update _ (ee_id e) (edited_row base (url_hostname url) (negb (jeqb base (ee_baseUrl e))) pinned (dr_now d)) s);
      [done|by exists e|by rewrite He3, He2]. }
  destruct (negb (is_null (ee_pinnedEvidenceDigest e)) && is_null pinned); handle;
    (apply publish_outcome; [by apply Hc|exact Hkept|done|]); intros s' Hw; exact (view_found _ _ s' Hn Hw).
Qed.

Lemma setEnabled_outcome s d id enabled :
  outcome s d (SetEnabled id enabled) (setEnabled localeCompare dump config id enabled d s).
Proof.
  unfold setEnabled, require, record_event. handle. guard [e|] eqn Ee.
  destruct (Bool.eqb (ee_enabled e) enabled) eqn:Eq.
  { apply eqb_prop in Eq. destruct (view_named id s e Ee) as [a ->]. left. split; [done|]. by exists e. }
  apply eqb_false_iff in Eq. handle. set (s1 := with_details _ _).
  assert (Hc : forall s', ad_measurements s' = ad_measurements s1 -> endpoints s' = endpoints s1 -> model_rows s' = model_rows s1 ->
                          w_timeline (ad_world s') = w_timeline (ad_world s) ++ (if enabled then [] else [event_of disabled_event id (dr_now d) None None]) ->
                          ad_details s' = ad_details s1 ->
                          commits s d (SetEnabled id enabled) s' /\ is_Some (named id s')).
  { intros s' Hx He Hm Ht Hd. split; [by eapply (commit_switch _ _ _ _ id enabled e)|].
    apply (named_update id id (switched_row enabled (dr_now d)) s); [done|by exists e|done]. }
  destruct enabled; handle.
  - destruct (Hc s1) as [Hc1 Hn]; try done; [by rewrite app_nil_r|].
    apply publish_outcome; [done..|]. intros s' Hw. by apply (view_found id s1).
  - set (s2 := with_world _ s1). destruct (Hc s2) as [Hc1 Hn]; [done..|].
    apply publish_outcome; [done..|]. intros s' Hw. by apply (view_found id s2).
Qed.

Lemma rotateKey_outcome s d id apiKey : outcome s d (RotateKey id apiKey) (rotateKey config id apiKey d s).
Proof.
  unfold rotateKey, require, record_event. handle. guard [[]|] eqn Ek. guard [e|] eqn Ee. guard [|] eqn Eb.
  guard [secret|] eqn Es. zbool. set (s1 := with_world _ _).
  destruct (view_found id s1 s1) as [a Ha].
  - apply (named_update id id (keyed_row (ss_ciphertext secret)) s); [done|by exists e|done].
  - done.
  - rewrite Ha. right. exists s1. split_and!; [|done..]. by eapply (commit_key _ _ _ _ id apiKey e secret).
Qed.

Lemma pinDigest_outcome s d id v : outcome s d (PinDigest id v) (pinDigest localeCompare dump config id v d s).
Proof.
  unfold pinDigest, require, record_event. handle. guard [e|] eqn Ee. guard [digest|] eqn Ed.
  apply requireDigest_ok in Ed. destruct (bool_decide_reflect (ee_pinnedEvidenceDigest e = Some digest)) as [Hp|Hp].
  { destruct (view_named id s e Ee) as [a ->]. left. split; [done|]. by exists e, digest. }
  handle. set (s1 := with_world _ _). apply publish_outcome; [|done|done|].
  - by eapply (commit_pin _ _ _ _ id v digest e).
  - intros s' Hw. apply (view_found id s1); [|done].
    apply (named_update id id (pinned_row digest) s); [done|by exists e|done].
Qed.

Lemma addMeasurement_outcome s d m note user :
  outcome s d (AddMeasurement m note user) (addMeasurement toLowerCase localeCompare dump config m note user d s).
Proof.
  unfold addMeasurement, refuseKnownDigest, requireMeasurement. handle.
  destruct (normaliseMeasurement toLowerCase m) as [x|] eqn:Em; handle; [|by refuses].
  destruct (known_digest x s || known_fingerprint x s) eqn:Ek; handle.
  { left. split; [done|]. split; [|by intros []]. intros s1 Hc. inversion Hc as [| | | | |? ? ? x' ? ? Hx Hd Hf| |]; subst.
    assert (x' = x) as -> by congruence. by rewrite Hd, Hf in Ek. }
  apply orb_false_iff in Ek as [Ek1 Ek2]. guard [|] eqn Ex. apply existsb_key in Ex.
  apply publish_outcome; [|done|done|].
  - by eapply (commit_trust _ _ _ _ m note user x {| tm_id := _ |}).
  - intros s' _. rewrite run_lift. eauto.
Qed.

Lemma find_measurement_none id s row : find_first (fun r => jeqb (tm_id r) id) (ad_measurements s) = None ->
  row ∈ ad_measurements s -> tm_id row <> id.
Proof. rewrite find_first_none. intros Hn Hr%Hn. by apply jeqb_neq. Qed.

Lemma find_measurement_row id s row : find_first (fun r => jeqb (tm_id r) id) (ad_measurements s) = Some row ->
  row ∈ ad_measurements s /\ tm_id row = id.
Proof. intros [Hr Hid%jeqb_eq]%find_first_some. done. Qed.

Lemma updateMeasurementNote_outcome s d id note :
  outcome s d (UpdateMeasurementNote id note) (updateMeasurementNote id note s).
Proof.
  unfold updateMeasurementNote, find_measurement. handle.
  destruct (find_first _ (ad_measurements s)) as [row|] eqn:Er; handle.
  2: { left. split; [done|]. split; [|by intros []]. intros s1 Hc. inversion Hc; subst. by eapply find_measurement_none. }
  apply find_measurement_row in Er as [Hr Hid]. right. exists (with_measurements (map (fun r => if jeqb (tm_id r) id then noted note row else r)) s).
  split; [|done]. by eapply (commit_note _ _ _ _ id note row).
Qed.

Lemma removeMeasurement_outcome s d id :
  outcome s d (RemoveMeasurement id) (removeMeasurement localeCompare dump config id d s).
Proof.
  unfold removeMeasurement, find_measurement. handle.
  destruct (find_first _ (ad_measurements s)) as [row|] eqn:Er; handle.
  2: { left. split; [done|]. split; [|by intros []]. intros s1 Hc. inversion Hc; subst. by eapply find_measurement_none. }
  apply find_measurement_row in Er as [Hr Hid]. apply publish_outcome; [|done|done|].
  - by eapply (commit_distrust _ _ _ _ id row).
  - intros s' _. rewrite run_lift. eauto.
Qed.

Lemma drop_outcome {A} s d call (m : handler A) : outcome s d call (m s) -> outcome s d call (drop_answer m s).
Proof. unfold drop_answer, h_bind. by destruct (m s) as [s' [a|e]]. Qed.

Lemma run_call_outcome s d call : outcome s d call (run_call call d s).
Proof.
  destruct call; cbn [run_call]; apply drop_outcome.
  - apply register_outcome.
  - apply update_outcome.
  - apply setEnabled_outcome.
  - apply rotateKey_outcome.
  - apply pinDigest_outcome.
  - apply addMeasurement_outcome.
  - apply updateMeasurementNote_outcome.
  - apply removeMeasurement_outcome.
Qed.

(** C10. Every call refines the specification.  A call that succeeds asks for what is
    already so and changes nothing, or commits the one step its constructor describes,
    every check of it passed (a key that is blank is one), every table and the detail
    columns as it says; a step the sidecar reads is then published.  A call that fails
    changes nothing, and then no step was open to it and it did not ask for what is so;
    or the file could not be written, and then its step stays committed, and the file and
    the catalogue stay as they were. *)
Theorem run_call_refines s d call : outcome s d call (run_call call d s).
Proof. apply run_call_outcome. Qed.

(** ** Lemmas: the model rows *)

Lemma save_model_ids row t : NoDup (map m_id t) -> NoDup (map m_id (save_model row t)).
Proof.
  intros Hnd. unfold save_model. destruct (existsb _ t) eqn:E.
  - replace (map m_id (map _ t)) with (map m_id t); [done|]. rewrite map_map. apply map_ext. intros r.
    destruct (jeqb (m_id r) (m_id row)) eqn:Er; [by apply jeqb_eq in Er|done].
  - apply existsb_key in E. rewrite map_app. cbn. apply NoDup_app. split_and!; [done|set_solver|apply NoDup_singleton].
Qed.

Lemma writeModels_rows id models now : forall t r,
  (r ∈ writeModels id models now t -> (exists x, x ∈ models /\ r = model_row id now x) \/ r ∈ t /\ m_id r ∉ map xs_id models) /\
  (r ∈ t -> m_id r ∉ map xs_id models -> r ∈ writeModels id models now t).
Proof.
  unfold writeModels. induction models as [|x models IH]; intros t r; cbn [foldl map]; [set_solver|].
  destruct (IH (save_model (model_row id now x) t) r) as [H1 H2]. rewrite elem_of_save_model in H1, H2.
  rewrite not_elem_of_cons. change (m_id (model_row id now x)) with (xs_id x) in *. split.
  - intros [(y & Hy & ->)|[[->|[Hr Hne]] Hn]]%H1; [left; exists y; set_solver|left; exists x; set_solver|by right].
  - intros Hr [Hne Hn]. apply H2; auto.
Qed.

Lemma writeModels_ids id models now : forall t, NoDup (map m_id t) -> NoDup (map m_id (writeModels id models now t)).
Proof. unfold writeModels. induction models as [|x models IH]; intros t Ht; cbn [foldl]; [done|]. by apply IH, save_model_ids. Qed.

Lemma retire_models_ids id models now t : map m_id (retire_models id models now t) = map m_id t.
Proof. unfold retire_models. rewrite map_map. apply map_ext. intros r. by destruct (_ && _ && _). Qed.

(** No row that is not the endpoint's own has an id the call writes. *)
Lemma taken_ids_none specs own t r : taken_ids specs own t = [] -> r ∈ t ->
  m_id r ∈ map xs_id specs -> m_origin r = origin_external /\ m_externalEndpointId r = own.
Proof.
  intros Ht Hr Hid. unfold taken_ids in Ht. apply fmap_nil_inv in Ht.
  destruct (bool_decide_reflect (m_origin r = origin_external)) as [Ho|Ho],
           (bool_decide_reflect (m_externalEndpointId r = own)) as [He|He]; [done|exfalso..].
  all: assert (Hin : r ∈ @nil Model); [|by apply not_elem_of_nil in Hin]; rewrite <- Ht.
  all: apply list_elem_of_In, List.filter_In; split; [by apply list_elem_of_In|]; apply andb_true_iff; split.
  all: try (apply existsb_exists; apply list_elem_of_fmap in Hid as (x & Hx & Hin); exists x;
            split; [by apply list_elem_of_In|by apply jeqb_eq]).
  all: rewrite ?(bool_decide_eq_false_2 _ Ho), ?(bool_decide_eq_false_2 _ He); cbn; by rewrite ?orb_true_r.
Qed.

(** ** The invariant *)

Record row_fine (e : ExternalEndpoint) : Prop := {
  rf_name : EXTERNAL_ENDPOINT_NAME (ee_name e) = true;
  rf_base : canonical_base (ee_baseUrl e);
  rf_host : url_hostname <$> URL_parse (ee_baseUrl e) = Some (ee_hostname e);
  rf_pin : forall p, ee_pinnedEvidenceDigest e = Some p -> exists bytes, sha256_bytes bytes /\ p = digest_of bytes;
  rf_port : ac_listenPortBase config <= ee_listenPort e < ac_listenPortBase config + ac_listenPortRange config;
  rf_off : ee_enabled e = false -> status (ee_columns e) = disabled_status
}.

(** A model row names one endpoint; an external one, a registered one. *)
Definition owned (table : list ExternalEndpoint) (r : Model) : Prop :=
  modelOriginIsExclusive r = true /\
  (m_origin r = origin_external -> m_externalEndpointId r ∈ map (fun e => Some (ee_id e)) table).

Record admin_ok (s : Admin) : Prop := {
  ao_ids : NoDup (map ee_id (endpoints s));
  ao_names : NoDup (map ee_name (endpoints s));
  ao_ports : NoDup (map ee_listenPort (endpoints s));
  ao_rows : Forall row_fine (endpoints s);
  ao_trustIds : NoDup (map tm_id (ad_measurements s));
  ao_measurements : NoDup (map tm_measurement (ad_measurements s));
  ao_canonical : Forall (fun r => CANONICAL (tm_measurement r) = true) (ad_measurements s);
  ao_models : NoDup (map m_id (model_rows s));
  ao_owned : Forall (owned (endpoints s)) (model_rows s)
}.

(** An UPDATE of one row that keeps its keys, and what it keeps of the invariant. *)
Lemma update_rows_ok id f s s' :
  (forall e, ee_id (f e) = ee_id e /\ ee_name (f e) = ee_name e /\ ee_listenPort (f e) = ee_listenPort e) ->
  (forall e, e ∈ endpoints s -> ee_id e = id -> row_fine e -> row_fine (f e)) ->
  endpoints s' = map (fun e => if jeqb (ee_id e) id then f e else e) (endpoints s) ->
  ad_measurements s' = ad_measurements s -> NoDup (map m_id (model_rows s')) ->
  Forall (owned (endpoints s)) (model_rows s') -> admin_ok s -> admin_ok s'.
Proof.
  intros Hf Hrow Ht Hx Hnd Hown [H1 H2 H3 H4 H5 H5' H6 _ _].
  assert (Hk : forall {B} (k : ExternalEndpoint -> B), (forall e, k (f e) = k e) -> map k (endpoints s') = map k (endpoints s)).
  { intros B k Hk. rewrite Ht, map_map. apply map_ext. intros e. by destruct (jeqb _ _); rewrite ?Hk. }
  split; rewrite ?Hx; try done; try (rewrite Hk; [done|apply Hf]).
  - rewrite Ht. apply Forall_forall. rewrite Forall_forall in H4. intros e (r & -> & Hr)%list_elem_of_fmap.
    destruct (jeqb (ee_id r) id) eqn:E; [|by apply H4]. apply jeqb_eq in E. by apply Hrow; [| |apply H4].
  - eapply Forall_impl; [exact Hown|]. intros r [Hx' Ho]. split; [done|].
    rewrite (Hk _ (fun e => Some (ee_id e))); [done|]. intros e. f_equal. apply Hf.
Qed.

Lemma admin_ok_ext s s' : endpoints s' = endpoints s -> model_rows s' = model_rows s -> ad_measurements s' = ad_measurements s ->
  admin_ok s -> admin_ok s'.
Proof. intros He Hm Hx [H1 H2 H3 H4 H5 H6 H7 H8 H9]. split; by rewrite ?He, ?Hm, ?Hx. Qed.

Lemma owned_mono t t' r : (forall e, e ∈ t -> e ∈ t') -> owned t r -> owned t' r.
Proof.
  intros Hsub [Hx Ho]. split; [done|]. intros He. specialize (Ho He). apply list_elem_of_fmap in Ho as (e & Heq & Hin).
  rewrite Heq. apply (list_elem_of_fmap_2 (fun e => Some (ee_id e))). by apply Hsub.
Qed.

Lemma owned_written t e now x : e ∈ t -> owned t (model_row (ee_id e) now x).
Proof. intros He. split; [done|]. intros _. by apply (list_elem_of_fmap_2 (fun e => Some (ee_id e))). Qed.

Lemma canonicalBaseUrl_ok `{!UrlLaws U} v b : canonicalBaseUrl v = Ok b -> canonical_base b.
Proof.
  unfold canonicalBaseUrl. destruct (URL_parse (jtrim v)) as [url|] eqn:Eu; [|done].
  destruct (jeqb (url_protocol url) "https:") eqn:Ep; cbn [negb throw_if]; [|done]. intros [= <-]. apply jeqb_eq in Ep.
  exists url. split_and!; [|done|by rewrite Ep].
  rewrite Ep. change (("https:" +++ "//" +++ url_host url)) with ("https://" +++ url_host url). by eapply url_origin.
Qed.

Lemma requireName_ok v n : requireName toLowerCase v = Ok n -> EXTERNAL_ENDPOINT_NAME n = true.
Proof. unfold requireName. destruct (EXTERNAL_ENDPOINT_NAME _) eqn:E; cbn; [|done]. by intros [= <-]. Qed.

Lemma scan_ports_spec used n : forall port,
  match scan_ports n port used with
  | Some p => port <= p < port + Z.of_nat n /\ p ∉ used /\ forall q, port <= q < p -> q ∈ used
  | None => forall q, port <= q < port + Z.of_nat n -> q ∈ used
  end.
Proof.
  induction n as [|n IH]; intros port; cbn [scan_ports]; [lia|].
  destruct (existsb (Z.eqb port) used) eqn:E.
  - assert (Hp : port ∈ used).
    { apply existsb_exists in E as (x & Hx & <-%Z.eqb_eq). by apply list_elem_of_In. }
    specialize (IH (port + 1)). destruct (scan_ports n (port + 1) used) as [p|].
    + destruct IH as (H1 & H2 & H3). split_and!; [lia..|done|]. intros q Hq.
      destruct (decide (q = port)) as [->|]; [done|]. apply H3. lia.
    + intros q Hq. destruct (decide (q = port)) as [->|]; [done|]. apply IH. lia.
  - split_and!; [lia..| |lia]. intros Hp. apply not_true_iff_false in E. apply E, existsb_exists.
    exists port. split; [by apply list_elem_of_In|apply Z.eqb_refl].
Qed.

(** The port is the lowest of the window no row has, and there is none exactly when
    the rows fill the window. *)
Theorem allocateListenPort_lowest base range taken : 0 <= range ->
  match allocateListenPort base range taken with
  | Some p => base <= p < base + range /\ p ∉ taken /\ forall q, base <= q < p -> q ∈ taken
  | None => forall q, base <= q < base + range -> q ∈ taken
  end.
Proof.
  intros Hr. pose proof (scan_ports_spec taken (Z.to_nat range) base) as Hp. rewrite Z2Nat.id in Hp by done. exact Hp.
Qed.

Lemma CANONICAL_ok m x : normaliseMeasurement toLowerCase m = Some x -> CANONICAL x = true.
Proof. unfold normaliseMeasurement. cbv zeta. destruct (CANONICAL _) eqn:E; cbn; [|done]. by intros [= <-]. Qed.

(** What a registration adds is a row of its own. *)
Lemma register_ok `{!UrlLaws U} s d spec s' : dr_uuid d ∉ map ee_id (endpoints s) ->
  commits s d (Register spec) s' -> admin_ok s -> admin_ok s'.
Proof.
  intros Hfresh Hc Hs. pose proof (ao_owned s Hs) as Hown. destruct Hs as [H1 H2 H3 H4 H5 H6 H7 H8 H9].
  inversion Hc as [? name base url port secret e ? En Eb Eu Ed Hname Htaken Hport Hs -> Hend Hmod Htl Hx| | | | | | |]; subst.
  pose proof (scan_ports_spec (map ee_listenPort (endpoints s)) (Z.to_nat (ac_listenPortRange config)) (ac_listenPortBase config)) as Hp.
  unfold allocateListenPort in Hport. rewrite Hport in Hp. destruct Hp as (Hwin & Hused & _).
  split; rewrite ?Hend, ?Hmod, ?Hx, ?map_app; cbn [map ee_id ee_name ee_listenPort]; try done.
  1-3: apply NoDup_app; split_and!; [done|set_solver|apply NoDup_singleton].
  - apply Forall_app. split; [done|]. apply Forall_singleton. split; cbn; try done; [by eapply requireName_ok|by eapply canonicalBaseUrl_ok|by rewrite Eu|lia].
  - by apply writeModels_ids.
  - apply Forall_forall. rewrite Forall_forall in H9. intros r [(x & Hx' & ->)|[Hr _]]%writeModels_rows.
    + set (e := {| ee_id := dr_uuid d |}). apply (owned_written _ e). set_solver.
    + eapply owned_mono; [|by apply H9]. set_solver.
Qed.

Lemma update_ok `{!UrlLaws U} s d spec s' : commits s d (Update spec) s' -> admin_ok s -> admin_ok s'.
Proof.
  intros Hc Hs. pose proof (ao_owned s Hs) as Hown.
  inversion Hc as [|? e base approved url ? Ee Hb Ha Eu Hm repointed pinned Hend Hmod Htl Hx| | | | | |]; subst.
  assert (Hin : e ∈ endpoints s) by (by apply named_some in Ee as [? _]).
  eapply (update_rows_ok (ee_id e) (edited_row base (url_hostname url) repointed pinned (dr_now d)) s); try done.
  - intros r Hr Hid [R1 R2 R3 R4 R5 R6]. assert (r = e) as -> by (by apply (nodup_map_inj ee_id (endpoints s)); [apply Hs|..]).
    split; cbn; try done; [| by rewrite Eu | |].
    + destruct (us_baseUrl spec); [by eapply canonicalBaseUrl_ok|by subst].
    + intros p Hp. subst pinned. unfold pin_after in Hp. destruct approved as [x|].
      * destruct (us_evidenceDigest spec); [|done]. destruct Ha as (y & [= <-] & Hy). injection Hp as <-.
        by apply normalize_some in Hy.
      * destruct repointed; [done|]. by apply R4.
    + intros Hoff. rewrite Hoff, andb_false_r. by apply R6.
  - rewrite Hmod. destruct (us_models spec); [|apply Hs]. rewrite retire_models_ids. apply writeModels_ids, Hs.
  - rewrite Hmod. destruct (us_models spec) as [models|]; [|done]. apply Forall_forall. rewrite Forall_forall in Hown.
    intros r (r0 & -> & Hr)%list_elem_of_fmap.
    assert (Hr0 : owned (endpoints s) r0).
    { apply writeModels_rows in Hr as [(x & Hx' & ->)|[Hr _]]; [by apply owned_written|by apply Hown]. }
    by destruct (_ && _ && _).
Qed.

(** Whatever a call commits keeps the invariant. *)
Lemma commits_ok `{!UrlLaws U} s d call s' :
  dr_uuid d ∉ map ee_id (endpoints s) -> dr_uuid d ∉ map tm_id (ad_measurements s) ->
  commits s d call s' -> admin_ok s -> admin_ok s'.
Proof.
  intros Hfresh Hfresh' Hc Hs. pose proof (ao_owned s Hs) as Hown. pose proof (ao_models s Hs) as Hmods.
  inversion Hc as [| |id enabled e ? Ee Hne Hend Hmod Htl Hx|id key e secret ? Ee Hsec Hend Hmod Htl Hx
    |id v digest e ? Ee Hv Hne Hend Hmod Htl Hx|m note user x row ? Hn Hk1 Hk2 Hnew Hrow Hw Hx
    |id note row ? Hr Hid Hw Hx|id row ? Hr Hid Hw Hx]; subst.
  - by eapply register_ok.
  - by eapply update_ok.
  - eapply (update_rows_ok id (switched_row enabled (dr_now d)) s); rewrite ?Hmod; try done.
    intros r _ _ [R1 R2 R3 R4 R5 R6]. split; cbn; try done. intros ->. done.
  - eapply (update_rows_ok id (keyed_row (ss_ciphertext secret)) s); rewrite ?Hmod; try done.
    intros r _ _ [R1 R2 R3 R4 R5 R6]. by split.
  - eapply (update_rows_ok id (pinned_row digest) s); rewrite ?Hmod; try done.
    intros r _ _ [R1 R2 R3 R4 R5 R6]. split; cbn; try done. intros p [= <-]. by apply normalize_some in Hv.
  - destruct Hs as [H1 H2 H3 H4 H5 H6 H7 H8 H9]. split; unfold endpoints, model_rows; rewrite ?Hw, ?Hx; try done.
    + rewrite map_app. apply NoDup_app. split_and!; [done|set_solver|apply NoDup_singleton].
    + rewrite map_app. apply NoDup_app. split_and!; [done|set_solver|apply NoDup_singleton].
    + apply Forall_app. split; [done|]. apply Forall_singleton. by apply (CANONICAL_ok m).
  - destruct Hs as [H1 H2 H3 H4 H5 H6 H7 H8 H9].
    assert (Hsame : forall r, r ∈ ad_measurements s -> tm_id r = tm_id row -> r = row)
      by (intros r Hin Heq; by apply (nodup_map_inj tm_id (ad_measurements s))).
    split; unfold endpoints, model_rows; rewrite ?Hw, ?Hx; try done.
    + replace (map tm_id _) with (map tm_id (ad_measurements s)); [done|]. rewrite map_map. apply map_ext.
      intros r. destruct (jeqb (tm_id r) (tm_id row)) eqn:E; [by apply jeqb_eq in E|done].
    + replace (map tm_measurement _) with (map tm_measurement (ad_measurements s)); [done|]. rewrite map_map.
      apply map_ext_in. intros r Hin%list_elem_of_In. destruct (jeqb (tm_id r) (tm_id row)) eqn:E; [|done].
      apply jeqb_eq in E. by rewrite (Hsame r Hin E).
    + apply Forall_forall. rewrite Forall_forall in H7. intros x (r & -> & Hin)%list_elem_of_fmap.
      destruct (jeqb _ _); [by apply (H7 row)|by apply H7].
  - destruct Hs as [H1 H2 H3 H4 H5 H6 H7 H8 H9]. split; unfold endpoints, model_rows; rewrite ?Hw, ?Hx; try done.
    1-2: eapply sublist_NoDup; [apply map_sublist, filter_sublist|done].
    apply Forall_forall. intros r [Hin _]%list_elem_of_In%List.filter_In. rewrite Forall_forall in H7. by apply H7, list_elem_of_In.
Qed.

Lemma run_call_keeps_ok `{!UrlLaws U} s d call :
  dr_uuid d ∉ map ee_id (endpoints s) -> dr_uuid d ∉ map tm_id (ad_measurements s) ->
  admin_ok s -> admin_ok (fst (run_call call d s)).
Proof.
  intros Hf Hf' Hs. pose proof (run_call_outcome s d call) as Ho. unfold EndpointAdmin.outcome in Ho.
  destruct (run_call call d s) as [s' [a|e]]; cbn [fst].
  - destruct Ho as [[-> _]|(s1 & Hc & _ & Hp)]; [done|]. pose proof (commits_ok _ _ _ _ Hf Hf' Hc Hs) as Hs1.
    destruct (publishes call); [|by subst]. destruct Hp as (file & r & _ & ->). by apply (admin_ok_ext s1).
  - destruct Ho as [[-> _]|(re & _ & _ & Hc & _)]; [done|]. by eapply commits_ok.
Qed.
(** C16. The keys of the tables stay keys and every row stays usable: ids, names, ports,
    trusted measurements and model ids are distinct; a row has a name the sidecar takes
    as a key, a canonical https origin with its own host, a port of the window, a
    canonical pin or none, and no verdict while it is disabled; an external model
    belongs to a registered endpoint.  Every call keeps all of it, failed ones too. *)
Theorem calls_keep_admin_ok `{!UrlLaws U} s d call :
  dr_uuid d ∉ map ee_id (endpoints s) -> dr_uuid d ∉ map tm_id (ad_measurements s) ->
  admin_ok s -> admin_ok (fst (run_call call d s)).
Proof. apply run_call_keeps_ok. Qed.

Lemma render_ok_state s d file e : admin_ok s -> rendered localeCompare dump config d s = (file, Err e) ->
  e = WriteError /\ dr_writable d = false.
Proof.
  intros Hs. unfold rendered, render, renderSidecarConfig.
  destruct (buildSidecarConfig_canonical localeCompare
    (render_input (ac_sidecar config) (endpoints s) (map tm_measurement (ad_measurements s)))) as (document & -> & _).
  - cbn [sc_inputs render_input]. apply Forall_forall. intros x (r & -> & Hr)%list_elem_of_fmap.
    rewrite sort_by_perm in Hr. apply list_elem_of_In, List.filter_In in Hr as [Hr%list_elem_of_In _].
    pose proof (ao_rows s Hs) as Hrows. rewrite Forall_forall in Hrows. apply (Hrows r Hr).
  - cbn [mbind result_bind]. unfold writeIfChanged. destruct (bool_decide _); [done|]. destruct (dr_writable d); [done|].
    by intros [= _ <-].
Qed.

(** C32. A call that fails has changed nothing, or its step is committed and only the shared
    volume is to blame: no row the service ever writes is one the renderer refuses. *)
Theorem failed_call_changed_nothing `{!UrlLaws U} s d call e :
  dr_uuid d ∉ map ee_id (endpoints s) -> dr_uuid d ∉ map tm_id (ad_measurements s) -> admin_ok s ->
  snd (run_call call d s) = Err e ->
  fst (run_call call d s) = s \/
  e = RenderError WriteError /\ dr_writable d = false /\ ad_file (fst (run_call call d s)) = ad_file s.
Proof.
  intros Hf Hf' Hs He. pose proof (run_call_outcome s d call) as Ho. unfold EndpointAdmin.outcome in Ho.
  destruct (run_call call d s) as [s' [a|e']]; [done|]. injection He as ->. cbn [fst].
  destruct Ho as [[-> _]|(re & -> & _ & Hc & Hk & Hr)]; [by left|right].
  pose proof (commits_ok _ _ _ _ Hf Hf' Hc Hs) as Hs'. destruct (render_ok_state _ _ _ _ Hs' Hr) as [-> Hw].
  split_and!; [done..|apply Hk].
Qed.

(** The ids a call may write, and whose they then are. *)
Lemma own_id s specs id r : admin_ok s -> r ∈ model_rows s -> taken_ids specs (Some id) (model_rows s) = [] ->
  m_externalEndpointId r <> Some id -> m_id r ∉ map xs_id specs.
Proof. intros Hs Hr Ht Hne Hin. by destruct (taken_ids_none _ _ _ _ Ht Hr Hin). Qed.

(** The catalogue's other models are out of reach: a call leaves every built-in model and
    every model of another endpoint as it was. *)
Theorem other_models_are_untouched s d call r :
  admin_ok s -> r ∈ model_rows s ->
  match call with Update spec => m_externalEndpointId r <> Some (us_id spec) | _ => True end ->
  r ∈ model_rows (fst (run_call call d s)).
Proof.
  intros Hs Hr Hother.
  assert (Hc : forall s1, commits s d call s1 -> r ∈ model_rows s1).
  { intros s1 Hc. destruct Hc as [spec name base url port secret e s1 _ _ _ _ _ Ht _ _ _ _ Hm _ _
      |spec e base approved url s1 Ee _ _ _ Hmods ?? _ Hm _ _|? ? ? ? _ _ _ Hm|? ? ? ? ? _ _ _ Hm|? ? ? ? ? _ _ _ _ Hm
      |? ? ? ? ? ? _ _ _ _ _ Hw|? ? ? ? _ _ Hw|? ? ? _ _ Hw]; try (by rewrite Hm); try (by unfold model_rows; rewrite Hw).
    - rewrite Hm. apply writeModels_rows; [done|]. intros Hin.
      destruct (taken_ids_none _ _ _ _ Ht Hr Hin) as [Ho He]. pose proof (ao_owned s Hs) as Hown. rewrite Forall_forall in Hown.
      destruct (Hown r Hr) as [Hx _]. unfold modelOriginIsExclusive in Hx. by rewrite Ho, He, andb_false_r in Hx.
    - apply named_some in Ee as [_ Hid]. rewrite <- Hid in Hother. rewrite Hm. destruct (us_models spec) as [models|]; [|done].
      destruct (Hmods models eq_refl) as [_ Ht]. unfold retire_models. apply list_elem_of_fmap. exists r.
      rewrite bool_decide_eq_false_2 by done. split; [done|]. apply writeModels_rows; [done|]. by eapply own_id. }
  pose proof (run_call_outcome s d call) as Ho. unfold EndpointAdmin.outcome in Ho.
  destruct (run_call call d s) as [s' [a|e]]; cbn [fst].
  - destruct Ho as [[-> _]|(s1 & Hs1 & _ & Hp)]; [done|]. destruct (publishes call); [|subst; by apply Hc].
    destruct Hp as (file & x & _ & ->). by apply (Hc s1).
  - destruct Ho as [[-> _]|(re & _ & _ & Hs1 & _)]; [done|by apply Hc].
Qed.

(** ** Asking again for what is so *)

Lemma canonicalBaseUrl_canonical `{!UrlLaws U} b : canonical_base b -> canonicalBaseUrl b = Ok b.
Proof.
  intros (u & Hu & Hp & Hb).
  assert (Ht : jtrim b = b).
  { rewrite Hb. unfold jtrim. rewrite trim_units_id; [done|]. unfold japp. cbn [units]. rewrite forallb_app.
    rewrite (url_blank _ _ Hu). vm_compute. reflexivity. }
  unfold canonicalBaseUrl. rewrite Ht, Hu, Hp, jeqb_refl. cbn [negb throw_if]. by rewrite Hb, japp_assoc.
Qed.

Lemma edited_same id now s e : NoDup (map ee_id (endpoints s)) -> row_fine e -> named id s = Some e ->
  forall u, URL_parse (ee_baseUrl e) = Some u ->
  map (fun r => if jeqb (ee_id r) (ee_id e)
                then edited_row (ee_baseUrl e) (url_hostname u) false (ee_pinnedEvidenceDigest e) now r else r) (endpoints s)
    = endpoints s.
Proof.
  intros Hnd [_ _ Hh _ _ _] [He _]%named_some u Hu. rewrite Hu in Hh. injection Hh as Hh.
  rewrite <- (map_id (endpoints s)) at 2. apply map_ext_in. intros r Hr%list_elem_of_In.
  destruct (jeqb (ee_id r) (ee_id e)) eqn:E; [|done]. apply jeqb_eq in E.
  assert (r = e) as -> by (by apply (nodup_map_inj ee_id (endpoints s))). rewrite Hh. by destruct e.
Qed.

(** Re-sending is free: an edit that states the URL and the pin the row already holds
    re-points nothing, keeps the verdict and the approval, and adds no timeline entry,
    so a console may send back what it was shown. *)
Theorem resent_update_is_no_repoint `{!UrlLaws U} s d e :
  admin_ok s -> e ∈ endpoints s ->
  let s' := fst (run_call (Update {| us_id := ee_id e; us_baseUrl := Some (ee_baseUrl e); us_models := None;
                                     us_evidenceDigest := ee_pinnedEvidenceDigest e |}) d s) in
  endpoints s' = endpoints s /\ model_rows s' = model_rows s /\ w_timeline (ad_world s') = w_timeline (ad_world s).
Proof.
  intros Hs He s'. subst s'. set (spec := {| us_id := _ |}). pose proof (run_call_outcome s d (Update spec)) as Ho.
  unfold EndpointAdmin.outcome in Ho. pose proof (ao_rows s Hs) as Hrows. rewrite Forall_forall in Hrows.
  pose proof (Hrows e He) as Hrow.
  assert (Hn : named (ee_id e) s = Some e) by (by apply find_key; [apply Hs|]).
  assert (Hc : forall s1, commits s d (Update spec) s1 ->
            endpoints s1 = endpoints s /\ model_rows s1 = model_rows s /\ w_timeline (ad_world s1) = w_timeline (ad_world s)).
  { intros s1 Hc. inversion Hc as [|? e' base approved url ? Ee Hb Ha Eu _ repointed pinned Hend Hmod Htl _| | | | | |]; subst.
    cbn [spec us_id us_baseUrl us_evidenceDigest us_models] in *. assert (e' = e) as -> by congruence.
    rewrite canonicalBaseUrl_canonical in Hb by apply Hrow. injection Hb as <-.
    assert (Hre : repointed = false) by (subst repointed; by rewrite jeqb_refl).
    assert (Hpin : pinned = ee_pinnedEvidenceDigest e).
    { subst pinned. rewrite Hre. unfold pin_after. destruct (ee_pinnedEvidenceDigest e) as [p|] eqn:Ep; [|by subst approved].
      destruct Ha as (x & -> & Hx). destruct (rf_pin e Hrow p Ep) as (bytes & Hb & ->). rewrite normalize_digest_of in Hx by done. by injection Hx as <-. }
    rewrite Hend, Hmod, Htl, Hpin, Hre, bool_decide_eq_true_2 by done. split_and!; [|done|by rewrite app_nil_r].
    eapply edited_same; [apply Hs|done|exact Hn|done]. }
  destruct (run_call (Update spec) d s) as [s' [a|e']]; cbn [fst].
  - destruct Ho as [[-> _]|(s1 & Hs1 & _ & (file & x & _ & ->))]; [done|exact (Hc s1 Hs1)].
  - destruct Ho as [[-> _]|(re & _ & _ & Hs1 & _)]; [done|by apply Hc].
Qed.
End Theorems.

(** ** A concrete service *)

#[local] Existing Instances plain_urls plain_url_laws toy_aead.

Definition example_admin_config : AdminConfig :=
  {| ac_sidecar := {| st_adminListen := "127.0.0.1:9090"; st_reattestInterval := 600000 |};
     ac_listenPortBase := 9400; ac_listenPortRange := 2;
     ac_secretsKey := Some "000102030405060708090a0b0c0d0e0f101112131415161718191a1b1c1d1e1f" |}.

Definition empty_admin : Admin :=
  {| ad_world := {| w_endpoints := []; w_models := []; w_timeline := []; w_catalog := catalog_initial;
                    w_health := health_initial; w_alerts := alerts_initial; w_log := []; w_alerted := ∅; w_confirmedAt := ∅ |};
     ad_details := ∅; ad_measurements := []; ad_snapshots := []; ad_file := None |}.

Definition example_call (call : admin_call) (d : Draw) (s : Admin) : Admin * result admin_error unit :=
  run_call (fun s => Js (map lower_unit (units s))) plain_compare plain_dump example_admin_config call d s.

Definition example_spec : RegisterExternalEndpointSpec :=
  {| rs_name := "Cloud-A"; rs_baseUrl := "https://cloud.example"; rs_apiKey := " sk-key "; rs_createdByUserId := None;
     rs_models := [{| xs_id := "acme/large"; xs_name := "Large"; xs_upstreamModel := "large"; xs_contextLength := 8192;
                      xs_capabilities := [cap_chat]; xs_promptPer1mMicros := 1; xs_completionPer1mMicros := 2 |}] |}.

Definition example_draw (id : jstr) (writable : bool) : Draw :=
  {| dr_uuid := id; dr_now := 1000; dr_iv := map N.of_nat (seq 0 12); dr_writable := writable |}.

Definition registered_admin : Admin := fst (example_call (Register example_spec) (example_draw "e1" true) empty_admin).

Lemma empty_admin_ok config : admin_ok config empty_admin.
Proof. split; constructor. Qed.

Example registered_row :
  map (fun e => (ee_name e, ee_listenPort e, ee_enabled e)) (endpoints registered_admin) = [("cloud-a" : jstr, 9400, true)] /\
  map m_id (model_rows registered_admin) = ["acme/large" : jstr] /\
  ad_file registered_admin = Some (jjoin (Js [10%N])
    ["# Rendered by router-api from external_endpoints and trusted_measurements.";
     "# Do not edit: every admin mutation overwrites this file (ADR-008 §5).";
     "cloud-a https://cloud.example"]).
Proof. vm_compute. done. Qed.

Lemma registered_admin_ok : admin_ok example_admin_config registered_admin.
Proof.
  apply (run_call_keeps_ok (U := plain_urls) _ _ _ _); [apply not_elem_of_nil..|apply empty_admin_ok].
Qed.

Lemma calls_keep_admin_ok_witness :
  admin_ok example_admin_config registered_admin /\ length (endpoints registered_admin) = 1%nat.
Proof.
  split; [|vm_compute; reflexivity].
  apply (calls_keep_admin_ok (U := plain_urls) _ plain_compare plain_dump example_admin_config empty_admin
           (example_draw "e1" true) (Register example_spec)); [apply not_elem_of_nil..|apply empty_admin_ok].
Defined.

Lemma failed_call_changed_nothing_witness :
  let call := Register example_spec in let d := example_draw "e1" false in
  snd (example_call call d empty_admin) = Err (RenderError WriteError) /\
  (fst (example_call call d empty_admin) = empty_admin \/ ad_file (fst (example_call call d empty_admin)) = None).
Proof.
  cbv zeta. assert (He : snd (example_call (Register example_spec) (example_draw "e1" false) empty_admin) = Err (RenderError WriteError))
    by (vm_compute; reflexivity).
  split; [exact He|].
  destruct (failed_call_changed_nothing (U := plain_urls) _ plain_compare plain_dump example_admin_config empty_admin
             (example_draw "e1" false) (Register example_spec) _ (not_elem_of_nil _) (not_elem_of_nil _) (empty_admin_ok _) He)
    as [H|(_ & _ & H)]; [left|right]; exact H.
Defined.

Definition builtin_model : Model :=
  {| m_id := "router/small"; m_name := "Small"; m_litellmModel := "small"; m_origin := origin_config;
     m_endpointId := Some "c1"; m_externalEndpointId := None; m_contextLength := 8192; m_capabilities := [cap_chat];
     m_promptPer1mMicros := 1; m_completionPer1mMicros := 2; m_enabled := true; m_updatedAt := 0 |}.

Definition builtin_admin : Admin := with_world (fun w => set_models w [builtin_model]) empty_admin.

Lemma other_models_are_untouched_witness :
  let s' := fst (example_call (Register example_spec) (example_draw "e1" true) builtin_admin) in
  length (model_rows s') = 2%nat /\ builtin_model ∈ model_rows s'.
Proof.
  cbv zeta. split; [vm_compute; reflexivity|].
  apply (other_models_are_untouched (U := plain_urls) _ plain_compare plain_dump example_admin_config builtin_admin
           (example_draw "e1" true) (Register example_spec) builtin_model).
  - split; try constructor; [apply not_elem_of_nil|constructor|split; [reflexivity|intros Ho; discriminate Ho]|constructor].
  - by left.
  - exact I.
Defined.

Lemma allocateListenPort_lowest_witness :
  allocateListenPort 9400 3 [9400; 9402] = Some 9401 /\
  (9400 <= 9401 < 9400 + 3 /\ 9401 ∉ [9400; 9402] /\ forall q, 9400 <= q < 9401 -> q ∈ [9400; 9402]).
Proof.
  split; [reflexivity|]. apply (allocateListenPort_lowest 9400 3 [9400; 9402]). lia.
Defined.

Lemma resent_update_is_no_repoint_witness :
  let e := default (ExternalCatalog.example_endpoint pending) (find_first (fun _ => true) (endpoints registered_admin)) in
  let call := Update {| us_id := ee_id e; us_baseUrl := Some (ee_baseUrl e); us_models := None;
                        us_evidenceDigest := ee_pinnedEvidenceDigest e |} in
  let s' := fst (example_call call (example_draw "t2" true) registered_admin) in
  ee_id e = "e1" /\ endpoints s' = endpoints registered_admin /\ model_rows s' = model_rows registered_admin /\
  w_timeline (ad_world s') = w_timeline (ad_world registered_admin).
Proof.
  cbv zeta. split; [vm_compute; reflexivity|].
  apply (resent_update_is_no_repoint (U := plain_urls) _ plain_compare plain_dump example_admin_config registered_admin).
  - apply registered_admin_ok.
  - vm_compute. by left.
Defined.
