(* ===== verification/EndpointHistory.v ===== *)
(** * A router's life: the operator's calls and the sidecar's polls

    The admin service and the status poller write the same rows.  A history is a
    sequence of their runs in the order they take the tables; what a row may claim at
    its end is read off the sequence. *)

From S2P Require Import Prelude JsString EvidenceDigest SecretEnvelope StatusProjection Liveness OperatorAlerts ExternalCatalog.
From S2P Require Import StatusService SidecarConfig EndpointAdmin.

(** ** What a poll does to the tables *)

Definition about_pins (kind : ExternalEndpointEventKind) : bool :=
  match kind with digest_pinned | digest_unpinned => true | _ => false end.

Lemma forall2_map_self {A} (R : A -> A -> Prop) (f : A -> A) l : (forall x, x ∈ l -> R x (f x)) -> Forall2 R l (map f l).
Proof.
  induction l as [|x l IH]; intros H; cbn; constructor; [apply H; by left|]. apply IH. intros y Hy. apply H. by right.
Qed.

(** The sidecar vouches for a name in an answer. *)
Definition admits (fetched : option (list SidecarVerdict)) (name : jstr) : Prop :=
  exists verdicts v, fetched = Some verdicts /\ v ∈ verdicts /\ vd_endpoint v = name /\ vd_admitted v = true.

(** A poll writes verdict columns of enabled rows, and a row it makes [verified] is
    one the answer admits. *)
Record row_polled (fetched : option (list SidecarVerdict)) (r r' : ExternalEndpoint) : Prop := {
  rp_columns : r' = with_patch r (ee_columns r');
  rp_disabled : ee_enabled r = false -> r' = r;
  rp_verdict : status (ee_columns r') = verified -> status (ee_columns r) = verified \/ admits fetched (ee_name r)
}.

Record polled (fetched : option (list SidecarVerdict)) (w w' : World) : Prop := {
  pl_rows : Forall2 (row_polled fetched) (w_endpoints w) (w_endpoints w');
  pl_models : w_models w' = w_models w;
  pl_timeline : exists evs, w_timeline w' = w_timeline w ++ evs /\
    Forall (fun ev => about_pins (ev_kind (te_event ev)) = false /\ te_endpointId ev ∈ map ee_id (w_endpoints w)) evs
}.

Lemma row_polled_refl fetched r : row_polled fetched r r.
Proof. split; [by rewrite with_patch_self|done|by left]. Qed.

Lemma row_polled_trans fetched r r1 r2 : row_polled fetched r r1 -> row_polled fetched r1 r2 -> row_polled fetched r r2.
Proof.
  intros [C1 D1 V1] [C2 D2 V2]. rewrite C1 in C2. split.
  - by rewrite C2.
  - intros Hd. specialize (D1 Hd). subst r1. by apply D2.
  - intros Hv. destruct (V2 Hv) as [Hv1|Ha]; [by apply V1|]. right. by rewrite C1 in Ha.
Qed.

Lemma row_polled_id fetched r r' : row_polled fetched r r' -> ee_id r' = ee_id r.
Proof. intros [C _ _]. by rewrite C. Qed.

Lemma polled_ids fetched w w' : polled fetched w w' -> map ee_id (w_endpoints w') = map ee_id (w_endpoints w).
Proof. intros [Hr _ _]. induction Hr as [|r r' l l' H _ IH]; [done|]. cbn. by rewrite IH, (row_polled_id _ _ _ H). Qed.

Lemma polled_same fetched w w' : w_endpoints w' = w_endpoints w -> w_models w' = w_models w -> w_timeline w' = w_timeline w ->
  polled fetched w w'.
Proof.
  intros He Hm Ht. split; [|done|exists []; by rewrite app_nil_r, Ht].
  rewrite He. clear. induction (w_endpoints w); constructor; [apply row_polled_refl|done].
Qed.

#[global] Instance polled_refl fetched : Reflexive (polled fetched).
Proof. intros w. by apply polled_same. Qed.

#[global] Instance polled_trans fetched : Transitive (polled fetched).
Proof.
  intros w w1 w2 H1 H2. pose proof (polled_ids _ _ _ H1) as Hids.
  destruct H1 as [R1 M1 (e1 & T1 & F1)], H2 as [R2 M2 (e2 & T2 & F2)]. split; [|congruence|].
  - clear -R1 R2. revert R2. generalize (w_endpoints w2). induction R1 as [|r r1 l l1 H _ IH]; intros l2 R2; inversion R2; subst.
    + constructor.
    + constructor; [by eapply row_polled_trans|by apply IH].
  - exists (e1 ++ e2). split; [by rewrite T2, T1, app_assoc|]. rewrite Hids in F2. by apply Forall_app.
Qed.

(** Adding entries that say nothing about pins. *)
Lemma polled_timeline fetched w evs :
  Forall (fun ev => about_pins (ev_kind (te_event ev)) = false /\ te_endpointId ev ∈ map ee_id (w_endpoints w)) evs ->
  polled fetched w (add_timeline w evs).
Proof.
  intros He. destruct (polled_refl fetched w) as [R _ _]. split; [done|done|by exists evs].
Qed.

Lemma polled_entry fetched w w' ev : w_endpoints w' = w_endpoints w -> w_models w' = w_models w ->
  w_timeline w' = w_timeline w ++ [ev] -> about_pins (ev_kind (te_event ev)) = false ->
  te_endpointId ev ∈ map ee_id (w_endpoints w) -> polled fetched w w'.
Proof.
  intros He Hm Ht Hk Hid. transitivity (add_timeline w [ev]); [|by apply polled_same].
  apply polled_timeline. by repeat constructor.
Qed.

Lemma polled_apply fetched w e p now : NoDup (map ee_id (w_endpoints w)) -> e ∈ w_endpoints w -> ee_enabled e = true ->
  (status (pv_patch p) = verified -> status (ee_columns e) = verified \/ admits fetched (ee_name e)) ->
  Forall (fun ev => about_pins (ev_kind ev) = false) (pv_events p) ->
  polled fetched w (apply_projected w (ee_id e) p now).
Proof.
  intros Hnd He Hen Hv Hev. unfold apply_projected.
  transitivity (set_endpoints w (update_endpoint (ee_id e) (pv_patch p) (w_endpoints w))).
  - split; [|done|exists []; by rewrite app_nil_r]. cbn [w_endpoints set_endpoints].
    assert (Hrows : forall r, r ∈ w_endpoints w -> row_polled fetched r (if jeqb (ee_id r) (ee_id e) then with_patch r (pv_patch p) else r)).
    { intros r Hr. destruct (jeqb (ee_id r) (ee_id e)) eqn:E; [|apply row_polled_refl]. apply jeqb_eq in E.
      assert (r = e) as -> by (by apply (nodup_map_inj ee_id (w_endpoints w))). split; [done|congruence|exact Hv]. }
    by apply forall2_map_self.
  - apply polled_timeline. apply Forall_map. eapply Forall_impl; [exact Hev|]. intros ev Hk. split; [done|].
    cbn [te_endpointId w_endpoints set_endpoints]. rewrite update_ids. by apply list_elem_of_fmap_2.
Qed.

Lemma events_of_kinds row patch expired : Forall (fun ev => about_pins (ev_kind ev) = false) (events_of row patch expired).
Proof.
  unfold events_of. apply Forall_app; split; [|apply Forall_app; split].
  all: repeat (destruct (_ && _) || destruct (changed _ _) || destruct (status_eqb _ _)); by repeat constructor.
Qed.

Lemma projected_verdict e v clock : status (pv_patch (projectVerdict e v clock)) = verified -> vd_admitted v = true.
Proof.
  destruct clock as [now window]. intros H. pose proof (project_status e v window now) as Hp. cbn zeta in Hp.
  unfold project_row in Hp. cbn [ee_columns with_patch] in Hp. rewrite H in Hp.
  destruct (expired_at v window now); [done|]. by apply statusOf_verified.
Qed.

Lemma byName_some verdicts name v : byName verdicts name = Some v -> v ∈ verdicts /\ vd_endpoint v = name.
Proof. intros [Hv Hn%jeqb_eq]%find_first_some. by rewrite elem_of_reverse in Hv. Qed.

(** The rows still to visit, as the table has them. *)
Definition to_visit (w : World) (rows : list ExternalEndpoint) : Prop :=
  NoDup (map ee_id (w_endpoints w)) /\ NoDup (map ee_id rows) /\ forall e, e ∈ rows -> e ∈ w_endpoints w /\ ee_enabled e = true.

Lemma to_visit_enabled w : NoDup (map ee_id (w_endpoints w)) -> to_visit w (enabled_endpoints (w_endpoints w)).
Proof.
  intros Hnd. split_and!; [done| |].
  - eapply sublist_NoDup; [apply map_sublist, filter_sublist|done].
  - intros e He. unfold enabled_endpoints in He. apply list_elem_of_In, List.filter_In in He as [He Hen]. by rewrite list_elem_of_In.
Qed.

Lemma to_visit_rest w e rows w' : to_visit w (e :: rows) -> w_endpoints w' = w_endpoints w -> to_visit w' rows.
Proof. intros (H1 & H2 & H3) He. unfold to_visit. rewrite He. apply NoDup_cons in H2 as [_ H2]. split_and!; set_solver. Qed.

Lemma to_visit_apply w e rows p now : to_visit w (e :: rows) -> to_visit (apply_projected w (ee_id e) p now) rows.
Proof.
  intros (H1 & H2 & H3). cbn [map] in H2. apply NoDup_cons in H2 as [Hid H2]. unfold to_visit.
  cbn [apply_projected add_timeline set_endpoints w_endpoints]. rewrite update_ids. split_and!; [done..|].
  intros r Hr. destruct (H3 r) as [Hin Hen]; [by right|]. split; [|done]. unfold update_endpoint. apply list_elem_of_fmap.
  exists r. split; [|done]. replace (jeqb (ee_id r) (ee_id e)) with false; [done|]. symmetry. apply jeqb_neq.
  intros Heq. apply Hid. rewrite <- Heq. by apply list_elem_of_fmap_2.
Qed.

Lemma sync_rows_polled cfg verdicts now rows : forall w rep w' projected rep',
  to_visit w rows -> sync_rows cfg verdicts now w rep rows = (w', projected, rep') -> polled (Some verdicts) w w'.
Proof.
  induction rows as [|e rows IH]; intros w rep w' projected rep' Hw; cbn [sync_rows]; [by intros [= <- _ _]|].
  destruct (byName verdicts (ee_name e)) as [v|] eqn:Ev.
  - apply byName_some in Ev as [Hv Hn]. set (p := projectVerdict e v _). set (w1 := set_confirmedAt w _).
    set (w2 := if pv_patchChanged p || _ then _ else _). intros H. loop_eq E H. injection H as <- <- <-.
    assert (Hw2 : polled (Some verdicts) w w2 /\ to_visit w2 rows).
    { subst w2. destruct (_ || _); [|split; [by apply polled_same|by eapply to_visit_rest]].
      destruct Hw as (H1 & H2 & H3). destruct (H3 e) as [He Hen]; [by left|].
      split; [|apply to_visit_apply; by split_and!]. transitivity w1; [by apply polled_same|].
      apply polled_apply; [done..| |apply events_of_kinds].
      intros Hs. right. exists verdicts, v. split_and!; try done. by eapply projected_verdict. }
    destruct Hw2 as [Hp Hr]. transitivity w2; [done|]. by eapply IH.
  - intros H. loop_eq E H. injection H as <- <- <-. eapply IH; [|exact E]. by eapply to_visit_rest.
Qed.

Lemma expire_rows_polled cfg fetched now rows : forall w w' projected expired,
  to_visit w rows -> expire_rows cfg now w rows = (w', projected, expired) -> polled fetched w w'.
Proof.
  induction rows as [|e rows IH]; intros w w' projected expired Hw; cbn [expire_rows]; [by intros [= <- _ _]|].
  destruct (expireVerdict e _) as [lapsed|] eqn:Ex.
  - set (w1 := set_confirmedAt _ _). intros H. loop_eq E H. injection H as <- <- <-.
    assert (Hw1 : to_visit w1 rows) by (exact (to_visit_apply w e rows lapsed now Hw)).
    destruct Hw as (H1 & H2 & H3). destruct (H3 e) as [He Hen]; [by left|].
    transitivity w1; [|by eapply IH]. transitivity (apply_projected w (ee_id e) lapsed now); [|by apply polled_same].
    apply polled_apply; [done..| |].
    + by rewrite (expireVerdict_patch _ _ _ Ex).
    + revert Ex. unfold expireVerdict. destruct (negb _); [done|]. destruct (match vc_confirmedAt _ with Some _ => _ | None => _ end); [done|].
      intros [= <-]. by repeat constructor.
  - intros H. loop_eq E H. injection H as <- <- <-. eapply IH; [|exact E]. by eapply to_visit_rest.
Qed.

Lemma alert_rows_polled cfg fetched now rows : forall w a w' a',
  (forall e, e ∈ rows -> ee_id e ∈ map ee_id (w_endpoints w)) -> alert_rows cfg now w a rows = (w', a') -> polled fetched w w'.
Proof.
  induction rows as [|e rows IH]; intros w a w' a' Hin; cbn [alert_rows]; [by intros [= <- _]|].
  destruct (alertOn cfg now w a e) as [w1 a1] eqn:E. intros H.
  assert (H1 : polled fetched w w1).
  { assert (He : ee_id e ∈ map ee_id (w_endpoints w)) by (apply Hin; by left). revert E. unfold alertOn.
    destruct (if _ && _ then _ else _) as [r|].
    - intros [= <- _]. by eapply polled_entry.
    - destruct (w_alerted w !! ee_id e), (notServingSince (ee_columns e)); intros [= <- _]; try done.
      by eapply polled_entry. }
  transitivity w1; [done|]. eapply IH; [|exact H]. intros e' He'. rewrite (polled_ids _ _ _ H1). apply Hin. by right.
Qed.

Lemma alertOnOutages_polled cfg fetched w rows now w' a :
  (forall e, e ∈ rows -> ee_id e ∈ map ee_id (w_endpoints w)) -> alertOnOutages cfg w rows now = (w', a) -> polled fetched w w'.
Proof.
  intros Hin. unfold alertOnOutages. destruct (alert_rows _ _ _ _ _) as [w1 a1] eqn:E. intros [= <- _].
  transitivity w1; [by eapply alert_rows_polled|by apply polled_same].
Qed.

Lemma expire_polled cfg fetched w rows now w' projected expired off :
  table_is w rows off -> expireStaleVerdicts cfg w rows now = (w', projected, expired) ->
  polled fetched w w' /\ forall e, e ∈ projected -> ee_id e ∈ map ee_id (w_endpoints w').
Proof.
  intros Hw H. destruct (expireStaleVerdicts_pass _ _ _ _ _ _ _ _ Hw H) as ([Hr _ _] & _). revert H. unfold expireStaleVerdicts.
  destruct (expire_rows _ _ _ _) as [[w1 pr] ex] eqn:E. intros [= <- <- <-]. destruct Hw as [Hw _ Hnd]. split.
  - transitivity w1; [|by apply polled_same]. eapply expire_rows_polled; [|exact E]. rewrite <- Hw. by apply to_visit_enabled.
  - intros e He. apply list_elem_of_fmap_2. rewrite <- Hr in He. unfold enabled_endpoints in He.
    by apply list_elem_of_In, List.filter_In in He as [He%list_elem_of_In _].
Qed.

Lemma pollOnce_polled cfg w fetched now : NoDup (map ee_id (w_endpoints w)) -> polled fetched w (pollOnce cfg w fetched now).
Proof.
  intros Hnd. pose proof (table_is_enabled w Hnd) as Hw. destruct fetched as [verdicts|]; cbn [pollOnce].
  - unfold sync. destruct (sync_rows _ _ _ _ _ _) as [[w1 rows1] rep1] eqn:E1.
    destruct (sync_rows_table _ _ _ _ _ _ [] _ _ _ _ Hw E1) as (Hw1 & _). cbn [app] in Hw1.
    destruct (expireStaleVerdicts _ _ _ _) as [[w2 rows2] ex] eqn:E2.
    destruct (expire_polled _ (Some verdicts) _ _ _ _ _ _ _ Hw1 E2) as [Hp2 Hin2].
    destruct (alertOnOutages _ _ _ _) as [w3 a] eqn:E3. cbn [fst].
    transitivity w1; [eapply sync_rows_polled; [by apply to_visit_enabled|exact E1]|].
    transitivity w2; [done|]. transitivity (refresh w2); [by apply polled_same|].
    transitivity w3; [by eapply alertOnOutages_polled|by apply polled_same].
  - unfold refreshFromRows. destruct (expireStaleVerdicts _ _ _ _) as [[w2 rows2] ex] eqn:E2.
    destruct (expire_polled _ None _ _ _ _ _ _ _ Hw E2) as [Hp2 Hin2].
    destruct (alertOnOutages _ _ _ _) as [w3 a] eqn:E3.
    transitivity w2; [done|]. transitivity (refresh w2); [by apply polled_same|].
    transitivity w3; [by eapply alertOnOutages_polled|by apply polled_same].
Qed.

Lemma booted_polled cfg w now : NoDup (map ee_id (w_endpoints w)) -> polled None w (fst (resetToPending cfg w now)).
Proof.
  intros Hnd. unfold resetToPending. cbn [fst]. set (ids := map ee_id (enabled_endpoints (w_endpoints w))).
  split; [|done|exists []; by rewrite app_nil_r]. cbn [w_endpoints set_confirmedAt set_alerted publish set_health refresh set_catalog set_endpoints].
  apply forall2_map_self. intros r Hr. case_bool_decide as Hin; [|apply row_polled_refl]. split; [done| |done].
  intros Hd. apply list_elem_of_fmap in Hin as (r2 & Heq & Hin). unfold enabled_endpoints in Hin.
  apply list_elem_of_In, List.filter_In in Hin as [Hin%list_elem_of_In Hen].
  assert (r = r2) as -> by (by apply (nodup_map_inj ee_id (w_endpoints w))). congruence.
Qed.

(** *** The clocks *)

(** The sidecar has a word on a name in an answer, whichever it is. *)
Definition names_it (fetched : option (list SidecarVerdict)) (name : jstr) : Prop :=
  exists verdicts v, fetched = Some verdicts /\ v ∈ verdicts /\ vd_endpoint v = name.

(** Every clock of [w'] stood in [w], or was set now for one of the rows, which the answer names. *)
Definition clocks_from (fetched : option (list SidecarVerdict)) (now : Z) (rows : list ExternalEndpoint) (w w' : World) : Prop :=
  forall id t, w_confirmedAt w' !! id = Some t ->
    w_confirmedAt w !! id = Some t \/ t = now /\ exists e, e ∈ rows /\ ee_id e = id /\ names_it fetched (ee_name e).

Lemma sync_rows_clocks cfg verdicts now rows : forall w rep w' projected rep',
  sync_rows cfg verdicts now w rep rows = (w', projected, rep') -> clocks_from (Some verdicts) now rows w w'.
Proof.
  induction rows as [|e rows IH]; intros w rep w' projected rep'; cbn [sync_rows]; [by intros [= <- _ _]; left|].
  assert (Hlift : forall w2, clocks_from (Some verdicts) now rows w2 w' ->
            (forall id t, w_confirmedAt w2 !! id = Some t ->
               w_confirmedAt w !! id = Some t \/ t = now /\ id = ee_id e /\ names_it (Some verdicts) (ee_name e)) ->
            clocks_from (Some verdicts) now (e :: rows) w w').
  { intros w2 H2 H1 id t Hid. destruct (H2 id t Hid) as [Hid2|(-> & r & Hr & Hrid & Hn)].
    - destruct (H1 id t Hid2) as [?|(-> & -> & Hn)]; [by left|]. right. split; [done|]. exists e. split_and!; [by left|done..].
    - right. split; [done|]. exists r. split_and!; [by right|done..]. }
  destruct (byName verdicts (ee_name e)) as [v|] eqn:Ev.
  - apply byName_some in Ev as [Hv Hn]. intros H. loop_eq E H. injection H as <- <- <-. apply (Hlift _ (IH _ _ _ _ _ E)).
    intros id t Hid.
    assert (Hw1 : <[ee_id e := now]> (w_confirmedAt w) !! id = Some t) by (by destruct (_ || _)).
    apply lookup_insert_Some in Hw1 as [[<- <-]|[_ Hid']]; [|by left]. right. split_and!; [done..|]. by exists verdicts, v.
  - intros H. loop_eq E H. injection H as <- <- <-. apply (Hlift _ (IH _ _ _ _ _ E)). by left.
Qed.

Lemma expire_rows_clocks cfg now rows : forall w w' projected expired,
  expire_rows cfg now w rows = (w', projected, expired) -> w_confirmedAt w' ⊆ w_confirmedAt w.
Proof.
  induction rows as [|e rows IH]; intros w w' projected expired; cbn [expire_rows]; [by intros [= <- _ _]|].
  destruct (expireVerdict e _) as [lapsed|]; intros H; loop_eq E H; injection H as <- _ _; [|by eapply IH].
  etrans; [by eapply IH|]. apply delete_subseteq.
Qed.

Lemma expire_clocks cfg w rows now w' projected expired :
  expireStaleVerdicts cfg w rows now = (w', projected, expired) -> w_confirmedAt w' ⊆ w_confirmedAt w.
Proof.
  unfold expireStaleVerdicts. destruct (expire_rows _ _ _ _) as [[w1 pr] ex] eqn:E. intros [= <- _ _].
  etrans; [apply map_filter_subseteq|by eapply expire_rows_clocks].
Qed.

Lemma alert_clocks cfg w rows now w' a : alertOnOutages cfg w rows now = (w', a) -> w_confirmedAt w' = w_confirmedAt w.
Proof.
  unfold alertOnOutages. destruct (alert_rows _ _ _ _ _) as [w1 a1] eqn:E. intros [= <- _].
  by apply alert_rows_frame in E as (_ & _ & _ & _ & E).
Qed.

(** A poll sets the clocks of the enabled rows its answer names, and no other. *)
Lemma pollOnce_clocks cfg w fetched now :
  clocks_from fetched now (enabled_endpoints (w_endpoints w)) w (pollOnce cfg w fetched now).
Proof.
  destruct fetched as [verdicts|]; cbn [pollOnce].
  - unfold sync. destruct (sync_rows _ _ _ _ _ _) as [[w1 rows1] rep1] eqn:E1.
    destruct (expireStaleVerdicts _ _ _ _) as [[w2 rows2] ex] eqn:E2.
    destruct (alertOnOutages _ _ _ _) as [w3 a] eqn:E3. cbn [fst]. intros id t Hid.
    cbn [StatusService.publish set_health w_confirmedAt] in Hid. rewrite (alert_clocks _ _ _ _ _ _ E3) in Hid.
    apply (sync_rows_clocks _ _ _ _ _ _ _ _ _ E1). by eapply lookup_weaken; [|by eapply expire_clocks].
  - unfold refreshFromRows. destruct (expireStaleVerdicts _ _ _ _) as [[w2 rows2] ex] eqn:E2.
    destruct (alertOnOutages _ _ _ _) as [w3 a] eqn:E3. intros id t Hid. left.
    cbn [StatusService.publish set_health w_confirmedAt] in Hid. rewrite (alert_clocks _ _ _ _ _ _ E3) in Hid.
    by eapply lookup_weaken; [|by eapply expire_clocks].
Qed.

(** ** Histories

    A call, a poll or a boot runs to its end before the next: a call that lands between
    a poll's read and its writes is not in these histories. *)

Inductive happening :=
| Called (call : admin_call) (d : Draw)
| Polled (fetched : option (list SidecarVerdict)) (now : Z)
| Booted (now : Z).

(** What the timeline says is approved: the last entry about the pin. *)
Definition pin_entry (id : jstr) (pin : option jstr) (ev : EndpointEvent) : option jstr :=
  if jeqb (te_endpointId ev) id
  then match ev_kind (te_event ev) with
       | digest_pinned => ev_evidenceDigest (te_event ev)
       | digest_unpinned => None
       | _ => pin
       end
  else pin.

Definition pin_of (timeline : list EndpointEvent) (id : jstr) : option jstr := foldl (pin_entry id) None timeline.

Section History.
Context `{U : UrlParser} `{Aead}.
Context (toLowerCase : jstr -> jstr) (localeCompare : jstr -> jstr -> Z) (dump : SidecarConfigDocument -> jstr).
Context (config : AdminConfig) (cfg : EndpointsConfig).

#[local] Notation commits := (commits toLowerCase config).

Definition happen (s : Admin) (h : happening) : Admin :=
  match h with
  | Called call d => fst (run_call toLowerCase localeCompare dump config call d s)
  | Polled fetched now => with_world (fun w => pollOnce cfg w fetched now) s
  | Booted now => with_world (fun w => fst (resetToPending cfg w now)) s
  end.

Definition history (s : Admin) (hs : list happening) : Admin := foldl happen s hs.

(** The ids the platform draws are new. *)
Fixpoint fresh_draws (s : Admin) (hs : list happening) : Prop :=
  match hs with
  | [] => True
  | h :: hs =>
      match h with
      | Called _ d => dr_uuid d ∉ map ee_id (endpoints s) /\ dr_uuid d ∉ map tm_id (ad_measurements s)
      | _ => True
      end /\ fresh_draws (happen s h) hs
  end.

Lemma fresh_draws_app s hs hs' : fresh_draws s (hs ++ hs') <-> fresh_draws s hs /\ fresh_draws (history s hs) hs'.
Proof.
  revert s; induction hs as [|h hs IH]; intros s; cbn [app fresh_draws history foldl]; [tauto|].
  rewrite (IH (happen s h)). unfold history. tauto.
Qed.

(** A call leaves the tables as they were or as one step commits them. *)
Lemma call_step s call d : let s' := happen s (Called call d) in
  (endpoints s' = endpoints s /\ w_timeline (ad_world s') = w_timeline (ad_world s)) \/
  exists s1, commits s d call s1 /\ endpoints s' = endpoints s1 /\ w_timeline (ad_world s') = w_timeline (ad_world s1).
Proof.
  cbn zeta. cbn [happen]. pose proof (run_call_outcome toLowerCase localeCompare dump config s d call) as Ho. unfold outcome in Ho.
  destruct (run_call _ _ _ _ _ _ _) as [s' [a|e]]; cbn [fst].
  - destruct Ho as [[-> _]|(s1 & Hc & _ & Hp)]; [by left|right; exists s1]. destruct (publishes call); [|by subst].
    by destruct Hp as (file & r & _ & ->).
  - destruct Ho as [[-> _]|(re & _ & _ & Hc & _)]; [by left|right; by exists s'].
Qed.

(** A call sets no clock. *)
Lemma call_clocks s call d : w_confirmedAt (ad_world (happen s (Called call d))) = w_confirmedAt (ad_world s).
Proof.
  cbn [happen]. pose proof (run_call_outcome toLowerCase localeCompare dump config s d call) as Ho. unfold outcome in Ho.
  destruct (run_call _ _ _ _ _ _ _) as [s' [a|e]]; cbn [fst].
  - destruct Ho as [[-> _]|(s1 & _ & Hk & Hp)]; [done|]. transitivity (w_confirmedAt (ad_world s1)); [|apply Hk].
    destruct (publishes call); [|by subst]. by destruct Hp as (file & r & _ & ->).
  - destruct Ho as [[-> _]|(re & _ & _ & _ & Hk & _)]; [done|apply Hk].
Qed.

(** Everything but a call is a poll of the tables, a boot one that admits nobody. *)
Lemma pass_step s h : NoDup (map ee_id (endpoints s)) ->
  match h with
  | Called _ _ => True
  | Polled fetched _ => polled fetched (ad_world s) (ad_world (happen s h))
  | Booted _ => polled None (ad_world s) (ad_world (happen s h))
  end.
Proof. intros Hnd. destruct h; [done|by apply pollOnce_polled|by apply booted_polled]. Qed.

Lemma polled_admin_ok fetched s f : polled fetched (ad_world s) (f (ad_world s)) -> admin_ok config s -> admin_ok config (with_world f s).
Proof.
  intros [Hr Hm _] [H1 H2 H3 H4 H5 H6 H7 H8 H9].
  assert (Hk : forall {B} (k : ExternalEndpoint -> B), (forall r c, k (with_patch r c) = k r) ->
                 map k (w_endpoints (f (ad_world s))) = map k (endpoints s)).
  { intros B k Hk. unfold endpoints. induction Hr as [|r r' l l' [Hc _ _] _ IH]; [done|]. cbn. by rewrite IH, Hc, Hk. }
  split; unfold endpoints, model_rows; cbn [with_world ad_world ad_measurements]; rewrite ?Hm; rewrite ?Hk by done; try done.
  - clear -Hr H4. unfold endpoints in H4. induction Hr as [|r r' l l' [Hc Hd _] _ IH]; [constructor|].
    apply Forall_cons in H4 as [Hrow H4]. constructor; [|by apply IH]. destruct Hrow as [R1 R2 R3 R4 R5 R6].
    rewrite Hc. split; cbn; try done. intros Hoff. rewrite (Hd Hoff). by apply R6.
  - eapply Forall_impl; [exact H9|]. intros r [Hx Ho]. split; [done|]. by rewrite Hk.
Qed.

Lemma happen_ok `{!UrlLaws U} s h : fresh_draws s [h] -> admin_ok config s -> admin_ok config (happen s h).
Proof.
  intros [Hf _] Hs. pose proof (pass_step s h (ao_ids _ _ Hs)) as Hp. destruct h as [call d|fetched now|now].
  - destruct Hf as [Hf Hf']. by apply run_call_keeps_ok.
  - by eapply polled_admin_ok.
  - by eapply polled_admin_ok.
Qed.

Lemma history_ok `{!UrlLaws U} hs : forall s, fresh_draws s hs -> admin_ok config s -> admin_ok config (history s hs).
Proof.
  induction hs as [|h hs IH]; intros s Hd Hs; [done|]. destruct Hd as [Hf Hfs]. apply IH; [done|]. apply happen_ok; [by split|done].
Qed.

(** ** Verdicts *)

(** The same target: what a verdict was formed about. *)
Definition same_target (r e : ExternalEndpoint) : Prop :=
  ee_id r = ee_id e /\ ee_name r = ee_name e /\ ee_baseUrl r = ee_baseUrl e /\ ee_listenPort r = ee_listenPort e.

(** A serving row with that target. *)
Definition serves (s : Admin) (e : ExternalEndpoint) : Prop :=
  exists r, r ∈ endpoints s /\ same_target r e /\ ee_enabled r = true /\ status (ee_columns r) = verified.

Lemma updated_row id f s s1 e : endpoints s1 = map (fun r => if jeqb (ee_id r) id then f r else r) (endpoints s) ->
  e ∈ endpoints s1 -> exists r, r ∈ endpoints s /\ (e = r \/ ee_id r = id /\ e = f r).
Proof.
  intros -> (r & -> & Hr)%list_elem_of_fmap. exists r. split; [done|].
  destruct (jeqb (ee_id r) id) eqn:E; [right; by apply jeqb_eq in E|by left].
Qed.

(** A call makes no row [verified], and the verdict of a row it re-points or switches is gone. *)
Lemma call_verdict s call d e : admin_ok config s -> e ∈ endpoints (happen s (Called call d)) ->
  ee_enabled e = true -> status (ee_columns e) = verified -> serves s e.
Proof.
  intros Hs He Hen Hv. assert (Hself : e ∈ endpoints s -> serves s e) by (intros Hin; by exists e).
  destruct (call_step s call d) as [[Hsame _]|(s1 & Hc & Hsame & _)]; rewrite Hsame in He; [by apply Hself|].
  inversion Hc as [spec name base url port secret e' ? _ _ _ _ _ _ _ _ He' Hend|spec e' base approved url ? Ee Hb _ _ _ repointed pinned Hend
    |id enabled e' ? _ _ Hend|id key e' secret ? _ _ Hend|id v digest e' ? _ _ _ Hend|? ? ? ? ? ? _ _ _ _ _ Hw|? ? ? ? _ _ Hw|? ? ? _ _ Hw]; subst.
  - rewrite Hend in He. apply elem_of_app in He as [He| ->%list_elem_of_singleton]; [by apply Hself|done].
  - destruct (updated_row _ _ _ _ _ Hend He) as (r & Hr & [->|[Hid ->]]); [by apply Hself|].
    cbn [edited_row ee_enabled ee_columns] in Hen, Hv. rewrite Hen, andb_true_r in Hv.
    apply named_some in Ee as [Hin _]. assert (r = e') as -> by (by apply (nodup_map_inj ee_id (endpoints s)); [apply Hs|..]).
    unfold repointed in Hv. destruct (jeqb base (ee_baseUrl e')) eqn:Er; [|done]. apply jeqb_eq in Er.
    by exists e'.
  - destruct (updated_row _ _ _ _ _ Hend He) as (r & Hr & [->|[Hid ->]]); [by apply Hself|]. by destruct enabled.
  - destruct (updated_row _ _ _ _ _ Hend He) as (r & Hr & [->|[Hid ->]]); [by apply Hself|]. by exists r.
  - destruct (updated_row _ _ _ _ _ Hend He) as (r & Hr & [->|[Hid ->]]); [by apply Hself|]. by exists r.
  - apply Hself. unfold endpoints in *. by rewrite <- Hw.
  - apply Hself. unfold endpoints in *. by rewrite <- Hw.
  - apply Hself. unfold endpoints in *. by rewrite <- Hw.
Qed.

(** A row that serves after a poll served before it, or the answer admits its name. *)
Lemma polled_verdict fetched s s' e : polled fetched (ad_world s) (ad_world s') -> e ∈ endpoints s' ->
  ee_enabled e = true -> status (ee_columns e) = verified -> serves s e \/ admits fetched (ee_name e).
Proof.
  intros [Hr _ _] He Hen Hv. unfold endpoints in He. apply list_elem_of_lookup in He as [i Hi].
  destruct (Forall2_lookup_r _ _ _ _ _ Hr Hi) as (r & Hr0 & [Hc _ Hrv]). destruct (Hrv Hv) as [Hv0|Ha].
  - left. exists r. split; [by eapply list_elem_of_lookup_2|]. by rewrite Hc in Hen |- *.
  - right. by rewrite Hc.
Qed.

(** A poll admitted the name, and from then on the row served with the target it has. *)
Definition vouched (s : Admin) (hs : list happening) (e : ExternalEndpoint) : Prop :=
  exists pre fetched now post, hs = pre ++ Polled fetched now :: post /\ admits fetched (ee_name e) /\
    forall mid, mid `prefix_of` post -> serves (history s (pre ++ Polled fetched now :: mid)) e.

Lemma history_snoc s hs h : history s (hs ++ [h]) = happen (history s hs) h.
Proof. unfold history. by rewrite foldl_app. Qed.

Lemma serves_target s r e : same_target r e -> serves s r -> serves s e.
Proof.
  intros (T1 & T2 & T3 & T4) (q & Hq & (Q1 & Q2 & Q3 & Q4) & Hen & Hv). exists q. unfold same_target. split_and!; congruence.
Qed.

Lemma prefix_of_snoc {A} (l k : list A) x : l `prefix_of` k ++ [x] -> l `prefix_of` k \/ l = k ++ [x].
Proof.
  intros [r Hr]. destruct r as [|y r _] using rev_ind; [right; by rewrite app_nil_r in Hr|left].
  rewrite app_assoc in Hr. apply app_inj_tail in Hr as [-> _]. by exists r.
Qed.

Lemma vouched_snoc s hs h e : vouched s hs e -> serves (history s (hs ++ [h])) e -> vouched s (hs ++ [h]) e.
Proof.
  intros (pre & fetched & now & post & -> & Ha & Hmid) Hlast. exists pre, fetched, now, (post ++ [h]). rewrite <- app_assoc in *.
  split_and!; [done..|]. intros mid [Hpre| ->]%prefix_of_snoc; [by apply Hmid|done].
Qed.

(** C8. No verdict outlives its target: at any moment of any sequence of operator calls,
    polls and boots, a serving row was admitted by name in some answer of the sidecar,
    and from that poll on it was enabled and [verified] under the same id, name, URL and
    port; a re-point, a switch or a registration never inherits a verdict. *)
Theorem verdicts_are_of_their_target `{!UrlLaws U} s hs e :
  admin_ok config s -> fresh_draws s hs ->
  (forall r, r ∈ endpoints s -> ee_enabled r = true -> status (ee_columns r) <> verified) ->
  e ∈ endpoints (history s hs) -> ee_enabled e = true -> status (ee_columns e) = verified ->
  vouched s hs e.
Proof.
  intros Hs Hf Hnone He Hen Hv.
  assert (Hserves : serves (history s hs) e) by (by exists e).
  clear He Hen Hv. revert e Hserves. induction hs as [|h hs IH] using rev_ind; intros e Hserves.
  { destruct Hserves as (r & Hr & _ & Hen & Hv). by destruct (Hnone r Hr Hen). }
  apply fresh_draws_app in Hf as [Hf Hfh]. pose proof (history_ok hs s Hf Hs) as Hok.
  pose proof Hserves as (r & Hr & Ht & Hen & Hv). rewrite history_snoc in Hr.
  assert (Hback : serves (history s hs) r -> vouched s (hs ++ [h]) e).
  { intros Hb. apply vouched_snoc; [|done]. apply IH; [done|]. by eapply serves_target. }
  pose proof (pass_step (history s hs) h (ao_ids _ _ Hok)) as Hp. destruct h as [call d|fetched now|now].
  - apply Hback. by eapply call_verdict.
  - destruct (polled_verdict _ _ _ _ Hp Hr Hen Hv) as [Hb|Ha]; [by apply Hback|].
    exists hs, fetched, now, []. destruct Ht as (_ & Hn & _). rewrite <- Hn. split_and!; [done..|].
    by intros mid ->%prefix_nil_inv.
  - destruct (polled_verdict _ _ _ _ Hp Hr Hen Hv) as [Hb|(verdicts & v & Hx & _)]; [by apply Hback|done].
Qed.

(** ** Confirmations *)

(** A poll at [t] had an answer that names the enabled row [id] by the name it had then. *)
Definition named_at (s : Admin) (hs : list happening) (id : jstr) (t : Z) : Prop :=
  exists pre fetched post e, hs = pre ++ Polled fetched t :: post /\ e ∈ endpoints (history s pre) /\ ee_id e = id /\
    ee_enabled e = true /\ names_it fetched (ee_name e).

(** Every clock of a process was set by a poll whose answer named the row. *)
Lemma clocks_are_of_polls s hs id t : w_confirmedAt (ad_world s) = ∅ ->
  w_confirmedAt (ad_world (history s hs)) !! id = Some t -> named_at s hs id t.
Proof.
  intros Hempty. induction hs as [|h hs IH] using rev_ind; [by cbn; rewrite Hempty|]. rewrite history_snoc.
  assert (Hback : w_confirmedAt (ad_world (history s hs)) !! id = Some t -> named_at s (hs ++ [h]) id t).
  { intros (pre & fetched & post & e & -> & Hnamed)%IH. exists pre, fetched, (post ++ [h]), e. by rewrite <- app_assoc. }
  destruct h as [call d|fetched now|now]; intros Hid.
  - apply Hback. by rewrite call_clocks in Hid.
  - destruct (pollOnce_clocks _ _ _ _ _ _ Hid) as [Hid'|(-> & e & He & <- & Hn)]; [by apply Hback|].
    apply list_elem_of_In, List.filter_In in He as [He Hen]. exists hs, fetched, [], e. split_and!; try done. by apply list_elem_of_In.
  - done.
Qed.

(** C18. A stored status is never trust: take any sequence of operator calls, polls and
    boots from the start of a process, ending in a poll, whatever the sidecar answered
    there and whether it answered at all.  Every model the gateway will then route to is
    on an enabled, [verified] row, and some poll of that sequence, within the grace
    period of this one, had an answer naming that row; and the disabled rows are exactly
    as they were before the poll. *)
Theorem routable_models_are_confirmed `{!UrlLaws U} s hs fetched now :
  admin_ok config s -> fresh_draws s hs -> w_confirmedAt (ad_world s) = ∅ ->
  let s0 := history s hs in let s' := history s (hs ++ [Polled fetched now]) in
  (forall id m, find_model (w_catalog (ad_world s')) id = Some m ->
     exists e t, e ∈ endpoints s' /\ ee_enabled e = true /\ ee_id e = ce_id (cm_endpoint m) /\ status (ee_columns e) = verified /\
       named_at s (hs ++ [Polled fetched now]) (ee_id e) t /\ now - t < verdictGraceMs (statusPollInterval cfg)) /\
  List.filter (fun e => negb (ee_enabled e)) (endpoints s') = List.filter (fun e => negb (ee_enabled e)) (endpoints s0).
Proof.
  intros Hs Hf Hempty. cbn zeta. pose proof (history_ok hs s Hf Hs) as Hok.
  pose proof (clocks_are_of_polls s (hs ++ [Polled fetched now])) as Hclocks. rewrite history_snoc in *. cbn [happen] in *.
  destruct (poll_routes_the_clocked cfg (ad_world (history s hs)) fetched now (ao_ids _ _ Hok) (ao_models _ _ Hok)) as [Hm Hoff].
  split; [|exact Hoff]. intros id m (e & t & He & Hen & Hid & Hv & Ht & Hg)%Hm. exists e, t. split_and!; try done. by apply Hclocks.
Qed.

(** ** Approvals *)

Lemma pin_of_app l l' id : pin_of (l ++ l') id = foldl (pin_entry id) (pin_of l id) l'.
Proof. apply foldl_app. Qed.

Lemma pin_of_quiet l id pin : Forall (fun ev => about_pins (ev_kind (te_event ev)) = false \/ te_endpointId ev <> id) l ->
  foldl (pin_entry id) pin l = pin.
Proof.
  intros Hl. revert pin. induction Hl as [|ev l Hev _ IH]; intros pin; cbn [foldl]; [done|]. rewrite IH. unfold pin_entry.
  destruct (jeqb (te_endpointId ev) id) eqn:E; [|done]. apply jeqb_eq in E. destruct Hev as [Hk|Hne]; [|done].
  by destruct (ev_kind (te_event ev)).
Qed.

(** Every approval a row holds is the one its timeline records last. *)
Record audited (s : Admin) : Prop := {
  au_pins : Forall (fun e => ee_pinnedEvidenceDigest e = pin_of (w_timeline (ad_world s)) (ee_id e)) (endpoints s);
  au_known : Forall (fun ev => te_endpointId ev ∈ map ee_id (endpoints s)) (w_timeline (ad_world s))
}.

Lemma audited_ext s s' : endpoints s' = endpoints s -> w_timeline (ad_world s') = w_timeline (ad_world s) -> audited s -> audited s'.
Proof. intros He Ht [H1 H2]. split; by rewrite ?He, ?Ht. Qed.

(** An UPDATE with its entries: the pin of the row is what they say, other rows have none. *)
Lemma audited_update id f s s1 evs :
  NoDup (map ee_id (endpoints s)) -> (forall e, ee_id (f e) = ee_id e) -> is_Some (named id s) ->
  endpoints s1 = map (fun r => if jeqb (ee_id r) id then f r else r) (endpoints s) ->
  w_timeline (ad_world s1) = w_timeline (ad_world s) ++ evs -> Forall (fun ev => te_endpointId ev = id) evs ->
  (forall e, e ∈ endpoints s -> ee_id e = id ->
     ee_pinnedEvidenceDigest (f e) = foldl (pin_entry id) (ee_pinnedEvidenceDigest e) evs) ->
  audited s -> audited s1.
Proof.
  intros Hnd Hf [e0 He0] Hend Ht Hevs Hpin [H1 H2]. apply named_some in He0 as [He0 Hid0].
  assert (Hids : map ee_id (endpoints s1) = map ee_id (endpoints s)).
  { rewrite Hend, map_map. apply map_ext. intros r. by destruct (jeqb _ _). }
  rewrite Forall_forall in H1. split; rewrite ?Ht.
  - apply Forall_forall. intros e He. destruct (updated_row _ _ _ _ _ Hend He) as (r & Hr & Hcase).
    rewrite pin_of_app. destruct (decide (ee_id r = id)) as [Hid|Hid].
    + assert (e = f r) as ->.
      { destruct Hcase as [->|[_ ?]]; [|done]. rewrite Hend in He. apply list_elem_of_fmap in He as (q & Heq & Hq).
        destruct (jeqb (ee_id q) id) eqn:Eq; [|by subst q; apply jeqb_neq in Eq]. apply jeqb_eq in Eq.
        assert (r = q) as Hrq by (apply (nodup_map_inj ee_id (endpoints s)); congruence). congruence. }
      rewrite (Hpin r Hr Hid), Hf, Hid, (H1 r Hr), Hid. done.
    + destruct Hcase as [->|[? _]]; [|done]. rewrite (H1 r Hr). symmetry. apply pin_of_quiet.
      eapply Forall_impl; [exact Hevs|]. intros ev ->. right. congruence.
  - rewrite Hids. apply Forall_app. split; [done|]. eapply Forall_impl; [exact Hevs|]. intros ev ->. cbn.
    rewrite <- Hid0. by apply list_elem_of_fmap_2.
Qed.

Lemma pin_entry_own id now digest reason pin : pin_entry id pin (event_of digest_pinned id now (Some digest) reason) = Some digest.
Proof. unfold pin_entry. cbn [te_endpointId event_of te_event ev_kind ev_evidenceDigest]. by rewrite jeqb_refl. Qed.

Lemma pin_entry_withdrawn id now digest reason pin : pin_entry id pin (event_of digest_unpinned id now digest reason) = None.
Proof. unfold pin_entry. cbn [te_endpointId event_of te_event ev_kind]. by rewrite jeqb_refl. Qed.

Lemma named_is s id e r : NoDup (map ee_id (endpoints s)) -> named id s = Some e -> r ∈ endpoints s -> ee_id r = id -> r = e.
Proof. intros Hnd [He Hid]%named_some Hr Hr'. apply (nodup_map_inj ee_id (endpoints s)); congruence. Qed.

Lemma audited_register s d spec s1 : dr_uuid d ∉ map ee_id (endpoints s) -> commits s d (Register spec) s1 -> audited s -> audited s1.
Proof.
  intros Hf Hc [Hpins Hknown].
  inversion Hc as [? name base url port secret e' ? _ _ _ _ _ _ _ _ He' Hend _ Ht| | | | | | |]; subst.
  rewrite Forall_forall in Hpins. rewrite Forall_forall in Hknown. split; rewrite ?Ht, ?Hend.
  - apply Forall_app. split; [|apply Forall_singleton].
    + apply Forall_forall. intros e He. rewrite pin_of_app, (Hpins e He). symmetry. apply pin_of_quiet, Forall_singleton. by left.
    + cbn [ee_pinnedEvidenceDigest ee_id]. rewrite pin_of_app, pin_of_quiet by (apply Forall_singleton; by left).
      unfold pin_of. symmetry. apply pin_of_quiet, Forall_forall. intros ev Hev. right. intros Hid. apply Hf. rewrite <- Hid. by apply Hknown.
  - rewrite map_app. apply Forall_app. split; [|apply Forall_singleton; set_solver].
    apply Forall_forall. intros ev Hev. apply elem_of_app. left. by apply Hknown.
Qed.

Lemma audited_call s call d : admin_ok config s -> dr_uuid d ∉ map ee_id (endpoints s) -> audited s ->
  audited (happen s (Called call d)).
Proof.
  intros Hs Hf Ha. pose proof (ao_ids _ _ Hs) as Hnd.
  destruct (call_step s call d) as [[He Ht]|(s1 & Hc & He & Ht)]; apply (audited_ext _ _ He Ht); [done|]. clear He Ht.
  inversion Hc as [|spec e base approved url ? Ee Hb _ _ _ repointed pinned Hend _ Ht
    |id enabled e ? Ee _ Hend _ Ht|id key e secret ? Ee _ Hend _ Ht|id v digest e ? Ee _ _ Hend _ Ht
    |? ? ? ? ? ? _ _ _ _ _ Hw|? ? ? ? _ _ Hw|? ? ? _ _ Hw]; subst.
  1: by eapply audited_register.
  1: { pose proof (named_some _ _ _ Ee) as [He Hid]. rewrite Hid in Hend.
       eapply (audited_update (us_id spec)); [exact Hnd| |by exists e|exact Hend|exact Ht| | |exact Ha]; [done| |].
       - rewrite Hid. destruct (bool_decide _); [constructor|]. destruct pinned; by repeat constructor.
       - intros r Hr Hr'. rewrite (named_is _ _ _ _ Hnd Ee Hr Hr'). cbn [edited_row ee_pinnedEvidenceDigest]. rewrite Hid.
         destruct (bool_decide_reflect (pinned = ee_pinnedEvidenceDigest e)) as [->|_]; [done|].
         destruct pinned as [x|]; cbn [foldl]; by rewrite ?pin_entry_own, ?pin_entry_withdrawn. }
  4-6: by apply (audited_ext s); unfold endpoints; rewrite ?Hw.
  all: eapply (audited_update id); [exact Hnd| |by exists e|exact Hend|exact Ht| | |exact Ha]; try done.
  - destruct enabled; by repeat constructor.
  - intros r Hr Hid. destruct enabled; [done|]. symmetry. apply pin_of_quiet, Forall_singleton. by left.
  - by repeat constructor.
  - intros r Hr Hid. symmetry. apply pin_of_quiet, Forall_singleton. by left.
  - by repeat constructor.
  - intros r Hr Hid. cbn [foldl pinned_row ee_pinnedEvidenceDigest]. by rewrite pin_entry_own.
Qed.

Lemma audited_pass fetched s f : polled fetched (ad_world s) (f (ad_world s)) -> audited s -> audited (with_world f s).
Proof.
  intros Hp [H1 H2]. pose proof (polled_ids _ _ _ Hp) as Hids. destruct Hp as [Hr _ (evs & Ht & Hq)].
  split; unfold endpoints in *; cbn [with_world ad_world]; rewrite Ht.
  - rewrite Forall_forall in H1. apply Forall_forall. intros e [i Hi]%list_elem_of_lookup.
    destruct (Forall2_lookup_r _ _ _ _ _ Hr Hi) as (r & Hr0 & [Hc _ _]). rewrite Hc. cbn [with_patch ee_pinnedEvidenceDigest ee_id].
    rewrite (H1 r) by (by eapply list_elem_of_lookup_2). rewrite pin_of_app. symmetry. apply pin_of_quiet.
    eapply Forall_impl; [exact Hq|]. intros ev [Hk _]. by left.
  - rewrite Hids. apply Forall_app. split; [done|]. eapply Forall_impl; [exact Hq|]. by intros ev [_ Hin].
Qed.

(** Every approval is on the record: through any sequence of calls, polls and boots
    the pin each row holds is the digest its timeline pinned last, and none when it was
    withdrawn last or never given; so the approvals can be rebuilt from the log. *)
Theorem approvals_are_on_record `{!UrlLaws U} s hs :
  admin_ok config s -> audited s -> fresh_draws s hs ->
  forall e, e ∈ endpoints (history s hs) ->
    ee_pinnedEvidenceDigest e = pin_of (w_timeline (ad_world (history s hs))) (ee_id e).
Proof.
  intros Hs Ha Hf.
  assert (Hau : audited (history s hs)).
  { revert s Hs Ha Hf. induction hs as [|h hs IH]; intros s Hs Ha Hf; [done|]. destruct Hf as [Hf Hfs].
    apply (IH (happen s h)); [by apply happen_ok| |done]. pose proof (pass_step s h (ao_ids _ _ Hs)) as Hp.
    destruct h as [call d|fetched now|now]; [apply audited_call; tauto|by eapply audited_pass..]. }
  intros e He. destruct Hau as [H1 _]. rewrite Forall_forall in H1. by apply H1.
Qed.
End History.

(** ** A concrete history *)

#[local] Existing Instances plain_urls plain_url_laws toy_aead.

Definition example_life (hs : list happening) : Admin :=
  history (fun s => Js (map lower_unit (units s))) plain_compare plain_dump example_admin_config example_endpoints_config
    empty_admin hs.

Definition example_answer : SidecarVerdict :=
  {| vd_endpoint := "cloud-a"; vd_admitted := true; vd_reason := None; vd_report := vd_report (admitting_verdict 10000) |}.

(** Registered, approved, admitted, then moved to another host. *)
Definition example_digest : jstr := "sha256:e3b0c44298fc1c149afbf4c8996fb92427ae41e4649b934ca495991b7852b855".

Definition before_move : list happening :=
  [Called (Register example_spec) (example_draw "e1" true); Called (PinDigest "e1" example_digest) (example_draw "t1" true);
   Polled (Some [example_answer]) 10000].

Definition moved : happening :=
  Called (Update {| us_id := "e1"; us_baseUrl := Some "https://other.example"; us_models := None; us_evidenceDigest := None |})
    (example_draw "t2" true).

Definition first_endpoint (s : Admin) : ExternalEndpoint :=
  default (ExternalCatalog.example_endpoint pending) (find_first (fun _ => true) (endpoints s)).

Lemma example_fresh hs : fresh_draws (fun s => Js (map lower_unit (units s))) plain_compare plain_dump example_admin_config
    example_endpoints_config empty_admin (before_move ++ hs) <->
  fresh_draws (fun s => Js (map lower_unit (units s))) plain_compare plain_dump example_admin_config
    example_endpoints_config (example_life before_move) hs.
Proof.
  rewrite fresh_draws_app. split; [by intros [_ H]|]. intros H. split; [|exact H].
  cbn [fresh_draws before_move]. split_and!; try exact I;
    (apply existsb_key; vm_compute; reflexivity).
Qed.

Lemma verdicts_are_of_their_target_witness :
  let e := first_endpoint (example_life before_move) in
  status (ee_columns e) = verified /\ ee_baseUrl e = "https://cloud.example" /\
  vouched (fun s => Js (map lower_unit (units s))) plain_compare plain_dump example_admin_config example_endpoints_config
    empty_admin before_move e.
Proof.
  cbv zeta. split; [vm_compute; reflexivity|]. split; [vm_compute; reflexivity|].
  apply (verdicts_are_of_their_target (U := plain_urls) _ plain_compare plain_dump example_admin_config example_endpoints_config
           empty_admin before_move).
  - apply empty_admin_ok.
  - rewrite <- (app_nil_r before_move). apply example_fresh. exact I.
  - intros r Hr. by apply not_elem_of_nil in Hr.
  - vm_compute. by left.
  - vm_compute. reflexivity.
  - vm_compute. reflexivity.
Defined.

Lemma approvals_are_on_record_witness :
  let s := example_life before_move in let s' := example_life (before_move ++ [moved]) in
  is_Some (ee_pinnedEvidenceDigest (first_endpoint s)) /\ ee_pinnedEvidenceDigest (first_endpoint s') = None /\
  status (ee_columns (first_endpoint s')) = pending /\
  (forall e, e ∈ endpoints s' -> ee_pinnedEvidenceDigest e = pin_of (w_timeline (ad_world s')) (ee_id e)).
Proof.
  cbv zeta. split; [eexists; vm_compute; reflexivity|]. split; [vm_compute; reflexivity|]. split; [vm_compute; reflexivity|].
  apply (approvals_are_on_record (U := plain_urls) _ plain_compare plain_dump example_admin_config example_endpoints_config
           empty_admin (before_move ++ [moved])).
  - apply empty_admin_ok.
  - split; constructor.
  - apply example_fresh. cbn [fresh_draws moved]. split_and!; try exact I; (apply existsb_key; vm_compute; reflexivity).
Defined.

Lemma routable_models_are_confirmed_witness :
  let s' := example_life (before_move ++ [Polled None 12000]) in
  is_Some (find_model (w_catalog (ad_world s')) "acme/large") /\
  exists t, named_at (fun s => Js (map lower_unit (units s))) plain_compare plain_dump example_admin_config example_endpoints_config
    empty_admin (before_move ++ [Polled None 12000]) "e1" t /\ 12000 - t < verdictGraceMs 5000.
Proof.
  intros s'. assert (Hm : exists m, find_model (w_catalog (ad_world s')) "acme/large" = Some m /\ ce_id (cm_endpoint m) = "e1"%js)
    by (eexists; split; vm_compute; reflexivity).
  destruct Hm as (m & Hm & Hid). split; [by exists m|].
  destruct (routable_models_are_confirmed (U := plain_urls) (fun s => Js (map lower_unit (units s))) plain_compare plain_dump
              example_admin_config example_endpoints_config empty_admin before_move None 12000) as [H _].
  - apply empty_admin_ok.
  - rewrite <- (app_nil_r before_move). apply example_fresh. exact I.
  - reflexivity.
  - destruct (H _ m Hm) as (e & t & _ & _ & He & _ & Hn & Hg). rewrite He, Hid in Hn. exists t. split; [exact Hn|exact Hg].
Defined.
