(* ===== verification/SpVmRegistry.v ===== *)
(** * Is this measurement one Super Protocol vouches for?

    [router-ui/…/verification/sp-vm-registry.ts]: the lookup of a VM launch
    measurement in the signed registry, from the page.  The network, the RSA check
    and the engine's JSON reader are parameters; the cache of imported keys holds
    what an import gives and is left out.  [Err] is a promise that rejects. *)

From S2P Require Import Prelude JsString EvidenceDigest Json.

Definition SP_VM_REGISTRY_BASE_URL : jstr := "https://raw.githubusercontent.com/Super-Protocol/sp-vm/main/signatures".

Definition SP_VM_REGISTRY_KEY_SPKI_B64 : jstr :=
  "MIIBoDANBgkqhkiG9w0BAQEFAAOCAY0AMIIBiAKCAYEAy99uld749OD5W48roZ4MbuKk1Bo7tGIfEOot1+xlWQKDDBaRQDg+LOGhPpRmGbF/s4t9rUGvxBnjyl+PtpLyJkx+eBT6ubTEb/4SbdgiqPjtXXV0eUVYoBZHSmT9YFklcJ1YWDwYxOm0skh/wm5IBpSnGMuLp2mc8Fyq+vxWzEPeFzbLH6QWdG/9Ts5mJHJ3UaWG1fW4lSMf3eVc9BRwpa7tpXpURLj2TsX8wgCbQVQ1+QYLoCdS6HZc57vsIGR6TxHeqmaJWpDaXBV8dzw9aekTGadk9/IetjI1baX9BJ8s7Ipx9fYnf9qwmWezBO1cmOowm9Md6TMPEkVxvzady+rMyLWbGrJoaJ6HW5EPYoFQW2cBFOd1QzS4ajL3t/SXQpB3TnBSyeIz+8OowH+aAd7/9vCI5Ro8j0RsnDU/T3mNkb5pA4OwY6qxornR39RmHTz3GaRZemK++pfPR33AVMlJdspym+qQVI4TtaqzcI+yOHdGTD2vMTuiRQ7+1i89AgED".

Inductive SpVmPlatform := platform_tdx | platform_sev_snp.

Definition platform_text (p : SpVmPlatform) : jstr :=
  match p with platform_tdx => "tdx" | platform_sev_snp => "sev-snp" end.

Inductive RegistryVerdict :=
| vouched (measurement url : jstr)
| not_in_registry (measurement : jstr)
| registry_unavailable (reason : jstr).

(** A response: its status and the body [arrayBuffer] gives; [Err] when it rejects. *)
Record RegistryResponse := { rr_status : Z; rr_body : result jstr (list N) }.

Definition registry_fetch : Type := jstr -> result jstr RegistryResponse.

(** [response.ok] *)
Definition status_ok (status : Z) : bool := (200 <=? status) && (status <=? 299).

Definition MAX_BODY_BYTES : Z := Z.shiftl 1 16.

(** [/^[0-9a-f]{64}$|^[0-9a-f]{96}$/] *)
Definition isMeasurementHex (value : jstr) : bool :=
  forallb is_hex (units value) && ((jlength value =? 64) || (jlength value =? 96)).

(** [.replace(/\/+$/, '')] *)
Definition strip_slashes (s : jstr) : jstr := Js (reverse (drop_while (N.eqb 47) (reverse (units s)))).

Class RegistryPlatform := {
  registry_JSON_parse : list N -> option json;   (* [JSON.parse] of the decoded bytes; [None] when it throws *)
  rsa_verify : jstr -> list N -> list N -> result jstr bool;   (* key, signature, data: RSASSA-PKCS1-v1_5, SHA-256 *)
  toLowerCase : jstr -> jstr
}.

Record LookUpOptions := {
  lo_baseUrl : option jstr;
  lo_keySpkiBase64 : option jstr;
  lo_fetcher : option registry_fetch;
  lo_platform : option SpVmPlatform
}.

Definition base64ToBytes (value : jstr) : option (list N) :=
  atob (List.filter (fun c => negb (is_space c)) (units value)).

(** [Number.parseInt] of the pairs of a text of hex digits. *)
Definition hexToBytes (value : jstr) : list N := hex_bytes (units value).

Definition null_entry : jstr := "Cannot read properties of null (reading 'signature')".

Section Registry.
Context `{RegistryPlatform}.

(** The signature a body carries, [Ok None] for a miss.  [JSON.parse] may answer [null],
    which has no properties to read. *)
Definition signatureFrom (url : jstr) (body : list N) : result jstr (option (list N)) :=
  if jendsWith url ".sign" then Ok (match body with [] => None | _ => Some body end)
  else
    match registry_JSON_parse body with
    | None => Ok None
    | Some JNull => Err null_entry
    | Some entry => Ok (match nonempty_string (member "signature" entry) with
                        | Some s => base64ToBytes s
                        | None => None
                        end)
    end.

Definition verifyMeasurementSignature (measurement signature : list N) (keySpkiBase64 : option jstr) : result jstr bool :=
  rsa_verify (default SP_VM_REGISTRY_KEY_SPKI_B64 keySpkiBase64) signature measurement.

Definition entry_path (base measurement : jstr) (platform : SpVmPlatform) (channel : jstr) : jstr :=
  base +++ "/" +++ platform_text platform +++ "/" +++ channel +++ "/mrenclave-" +++ measurement +++ ".json".

Definition registry_paths (base measurement : jstr) (platforms : list SpVmPlatform) : list jstr :=
  concat (map (fun p => [entry_path base measurement p "latest"; entry_path base measurement p "pre-release"]) platforms) ++
  [base +++ "/mrenclave-" +++ measurement +++ ".sign"].

(** What one path says: nothing, a signature, or that it could not be asked. *)
Inductive consulted := nothing_there | signature_there (signature : list N) | not_consulted (reason : jstr).

(** One turn of the loop, up to the check of the signature. *)
Definition consult (fetcher : registry_fetch) (url : jstr) : result jstr consulted :=
  match fetcher url with
  | Err message => Ok (not_consulted (url +++ ": " +++ message))
  | Ok response =>
      if rr_status response =? 404 then Ok nothing_there
      else if negb (status_ok (rr_status response)) then
        Ok (not_consulted (url +++ ": unexpected status " +++ jstring_of_Z (rr_status response)))
      else
        bytes ← rr_body response;
        if MAX_BODY_BYTES <? Z.of_nat (length bytes) then
          Ok (not_consulted (url +++ ": response is too large to be a signature"))
        else
          signature ← signatureFrom url bytes;
          Ok (match signature with Some s => signature_there s | None => nothing_there end)
  end.

(** The loop over the paths. *)
Fixpoint probe (fetcher : registry_fetch) (keySpkiBase64 : option jstr) (measurement : jstr) (paths : list jstr)
    : result jstr RegistryVerdict :=
  match paths with
  | [] => Ok (not_in_registry measurement)
  | url :: paths =>
      answer ← consult fetcher url;
      match answer with
      | nothing_there => probe fetcher keySpkiBase64 measurement paths
      | not_consulted reason => Ok (registry_unavailable reason)
      | signature_there signature =>
          ok ← verifyMeasurementSignature (hexToBytes measurement) signature keySpkiBase64;
          Ok (if ok : bool then vouched measurement url else not_in_registry measurement)
      end
  end.

(** [globalFetch]: the page's own [fetch], when it has one. *)
Definition lookUpMeasurement (globalFetch : option registry_fetch) (measurementHex : jstr) (options : LookUpOptions)
    : result jstr RegistryVerdict :=
  let measurement := toLowerCase (jtrim measurementHex) in
  if negb (isMeasurementHex measurement) then
    Ok (registry_unavailable "the evidence publishes no measurement in a form the registry indexes")
  else
    match match lo_fetcher options with Some f => Some f | None => globalFetch end with
    | None => Ok (registry_unavailable "no fetch available in this environment")
    | Some fetcher =>
        let base := strip_slashes (default SP_VM_REGISTRY_BASE_URL (lo_baseUrl options)) in
        let platforms := match lo_platform options with Some p => [p] | None => [platform_tdx; platform_sev_snp] end in
        probe fetcher (lo_keySpkiBase64 options) measurement (registry_paths base measurement platforms)
    end.

(** ** What an answer rests on *)

(** The first path with an entry: every path before it has none. *)
Definition first_entry (fetcher : registry_fetch) (paths : list jstr) (url : jstr) (signature : list N) : Prop :=
  exists pre post, paths = pre ++ url :: post /\ Forall (fun u => consult fetcher u = Ok nothing_there) pre /\
    consult fetcher url = Ok (signature_there signature).

Lemma first_entry_cons fetcher u paths url signature : consult fetcher u = Ok nothing_there ->
  first_entry fetcher (u :: paths) url signature <-> first_entry fetcher paths url signature.
Proof.
  intros Hu. split.
  - intros ([|v pre] & post & Heq & Hpre & Hs); [injection Heq as -> _; congruence|]. injection Heq as -> ->.
    apply Forall_cons in Hpre as [_ Hpre]. by exists pre, post.
  - intros (pre & post & -> & Hpre & Hs). exists (u :: pre), post. split_and!; [done|by constructor|done].
Qed.

Lemma first_entry_head fetcher u paths url signature : consult fetcher u <> Ok nothing_there ->
  first_entry fetcher (u :: paths) url signature <-> url = u /\ consult fetcher u = Ok (signature_there signature).
Proof.
  intros Hu. split.
  - intros ([|v pre] & post & Heq & Hpre & Hs); injection Heq as -> ->; [done|]. by apply Forall_cons in Hpre as [? _].
  - intros [-> Hs]. by exists [], paths.
Qed.

(** What the probe concludes about an image rests on the first entry alone. *)
Lemma probe_spec fetcher key m paths :
  (forall m' url, probe fetcher key m paths = Ok (vouched m' url) <->
     m' = m /\ exists signature, first_entry fetcher paths url signature /\
       verifyMeasurementSignature (hexToBytes m) signature key = Ok true) /\
  (forall m', probe fetcher key m paths = Ok (not_in_registry m') <->
     m' = m /\ (Forall (fun u => consult fetcher u = Ok nothing_there) paths \/
                exists url signature, first_entry fetcher paths url signature /\
                  verifyMeasurementSignature (hexToBytes m) signature key = Ok false)).
Proof.
  induction paths as [|u paths [IH1 IH2]]; cbn [probe].
  - split; [|intros m'; split; [intros [= ->]; by split; [|left]|by intros [-> _]]].
    intros m' url. split; [done|]. by intros (_ & sig & ([|] & ? & ? & _) & _).
  - destruct (consult fetcher u) as [[|sig|reason]|e] eqn:Eu; cbn [mbind result_bind].
    + split; intros; rewrite ?IH1, ?IH2; setoid_rewrite (first_entry_cons fetcher u paths); try done.
      rewrite Forall_cons. naive_solver.
    + assert (Hne : consult fetcher u <> Ok nothing_there) by congruence.
      split; intros; setoid_rewrite (fun url sig => first_entry_head fetcher u paths url sig Hne); rewrite ?Forall_cons, Eu;
        destruct (verifyMeasurementSignature _ _ _) as [[]|e] eqn:Ev; cbn [mbind result_bind]; naive_solver congruence.
    + assert (Hne : consult fetcher u <> Ok nothing_there) by congruence.
      split; intros; setoid_rewrite (fun url sig => first_entry_head fetcher u paths url sig Hne); rewrite ?Forall_cons, Eu; naive_solver congruence.
    + assert (Hne : consult fetcher u <> Ok nothing_there) by congruence.
      split; intros; setoid_rewrite (fun url sig => first_entry_head fetcher u paths url sig Hne); rewrite ?Forall_cons, Eu; naive_solver congruence.
Qed.
End Registry.

Section RegistryTheorems.
Context `{RegistryPlatform}.

(** The fetcher a lookup uses, and its paths. *)
Definition fetcher_of (globalFetch : option registry_fetch) (options : LookUpOptions) : option registry_fetch :=
  match lo_fetcher options with Some f => Some f | None => globalFetch end.

Definition paths_of (options : LookUpOptions) (measurement : jstr) : list jstr :=
  registry_paths (strip_slashes (default SP_VM_REGISTRY_BASE_URL (lo_baseUrl options))) measurement
    (match lo_platform options with Some p => [p] | None => [platform_tdx; platform_sev_snp] end).

Lemma hexToBytes_inj m m' : isMeasurementHex m = true -> isMeasurementHex m' = true -> hexToBytes m = hexToBytes m' -> m = m'.
Proof.
  assert (Hx : forall m, isMeasurementHex m = true -> concat (map byte_hex (hexToBytes m)) = units m).
  { intros [u]. unfold isMeasurementHex, hexToBytes, jlength. cbn [units].
    intros [Hh [Hl|Hl]%orb_true_iff]%andb_true_iff; apply Z.eqb_eq in Hl.
    - by apply (byte_hex_hex_bytes 32); [lia|].
    - by apply (byte_hex_hex_bytes 48); [lia|]. }
  intros H1 H2 He. apply Hx in H1, H2. rewrite He in H1. destruct m, m'; cbn in *. congruence.
Qed.

(** A registry answer is a signature, and only that: [vouched] is said exactly when the
    measurement, trimmed and lower-cased, has the registry's form and the first path
    that holds an entry holds one whose signature checks over those bytes under the
    pinned key; [not-in-registry] exactly when no path holds one, or the first one does
    not check.  So whoever serves the files can withhold an answer and never forge one,
    a failing transport is neither answer, and one entry speaks of one measurement. *)
Theorem registry_answers_are_signed globalFetch hex options :
  let m := toLowerCase (jtrim hex) in
  let checks signature := rsa_verify (default SP_VM_REGISTRY_KEY_SPKI_B64 (lo_keySpkiBase64 options)) signature (hexToBytes m) in
  (forall m' url, lookUpMeasurement globalFetch hex options = Ok (vouched m' url) <->
     m' = m /\ isMeasurementHex m = true /\ exists f signature, fetcher_of globalFetch options = Some f /\
       first_entry f (paths_of options m) url signature /\ checks signature = Ok true) /\
  (forall m', lookUpMeasurement globalFetch hex options = Ok (not_in_registry m') <->
     m' = m /\ isMeasurementHex m = true /\ exists f, fetcher_of globalFetch options = Some f /\
       (Forall (fun u => consult f u = Ok nothing_there) (paths_of options m) \/
        exists url signature, first_entry f (paths_of options m) url signature /\ checks signature = Ok false)) /\
  (forall hex', isMeasurementHex m = true -> isMeasurementHex (toLowerCase (jtrim hex')) = true ->
     hexToBytes (toLowerCase (jtrim hex')) = hexToBytes m -> toLowerCase (jtrim hex') = m).
Proof.
  intros m checks. unfold lookUpMeasurement. fold m. split_and!; [| |by intros; apply hexToBytes_inj].
  - intros m' url. destruct (isMeasurementHex m) eqn:Em; cbn [negb]; [|split; [done|by intros (_ & ? & _)]].
    fold (fetcher_of globalFetch options). destruct (fetcher_of globalFetch options) as [f|] eqn:Ef.
    2:{ split; [done|]. by intros (_ & _ & f & sig & ? & _). }
    fold (paths_of options m). destruct (probe_spec f (lo_keySpkiBase64 options) m (paths_of options m)) as [Hv _]. rewrite Hv.
    split; [intros (-> & sig & ? & ?); eauto 8|]. intros (-> & _ & f' & sig & [= <-] & ? & ?). eauto.
  - intros m'. destruct (isMeasurementHex m) eqn:Em; cbn [negb]; [|split; [done|by intros (_ & ? & _)]].
    fold (fetcher_of globalFetch options). destruct (fetcher_of globalFetch options) as [f|] eqn:Ef.
    2:{ split; [done|]. by intros (_ & _ & f & ? & _). }
    fold (paths_of options m). destruct (probe_spec f (lo_keySpkiBase64 options) m (paths_of options m)) as [_ Hn]. rewrite Hn.
    split; [intros (-> & Hc); eauto 8|]. intros (-> & _ & f' & [= <-] & Hc). eauto.
Qed.
End RegistryTheorems.

(** ** A registry to run on *)

#[local] Instance toy_registry : RegistryPlatform := {
  registry_JSON_parse bytes := match bytes with
                               | [0%N] => Some JNull
                               | [] => None
                               | _ => Some (JObject [("signature" : jstr, JString (Js bytes))])
                               end;
  rsa_verify _ signature data := Ok (bool_decide (signature = take 3 data));
  toLowerCase s := Js (map lower_unit (units s))
}.

Definition sample_measurement : jstr := "00112233445566778899aabbccddeeff00112233445566778899aabbccddeeff".

(** The files of a host: the pre-release channel of the second platform holds the entry. *)
Definition toy_files (url : jstr) : result jstr RegistryResponse :=
  if jendsWith url ("sev-snp/pre-release/mrenclave-" +++ sample_measurement +++ ".json")
  then Ok {| rr_status := 200; rr_body := Ok (units "ABEi") |}
  else Ok {| rr_status := 404; rr_body := Ok [] |}.

Definition default_lookup : LookUpOptions :=
  {| lo_baseUrl := None; lo_keySpkiBase64 := None; lo_fetcher := None; lo_platform := None |}.

Example lookup_answers :
  (exists url, lookUpMeasurement (Some toy_files) (" " +++ sample_measurement) default_lookup = Ok (vouched sample_measurement url)) /\
  lookUpMeasurement (Some (fun _ => Ok {| rr_status := 404; rr_body := Ok [] |})) sample_measurement default_lookup =
    Ok (not_in_registry sample_measurement) /\
  lookUpMeasurement (Some (fun _ => Err "blocked")) sample_measurement default_lookup =
    Ok (registry_unavailable (entry_path SP_VM_REGISTRY_BASE_URL sample_measurement platform_tdx "latest" +++ ": blocked")).
Proof. split_and!; [eexists|..]; vm_compute; reflexivity. Qed.

(** An entry that is the text [null] is not read as a miss: the lookup rejects. *)
Example null_entry_rejects :
  lookUpMeasurement (Some (fun _ => Ok {| rr_status := 200; rr_body := Ok [0%N] |})) sample_measurement default_lookup = Err null_entry.
Proof. vm_compute. reflexivity. Qed.

Lemma registry_answers_are_signed_witness :
  exists url, isMeasurementHex sample_measurement = true /\
    lookUpMeasurement (Some toy_files) sample_measurement default_lookup = Ok (vouched sample_measurement url) /\
    exists f signature, fetcher_of (Some toy_files) default_lookup = Some f /\
      first_entry f (paths_of default_lookup sample_measurement) url signature.
Proof.
  eexists. split; [vm_compute; reflexivity|].
  assert (Hv : lookUpMeasurement (Some toy_files) sample_measurement default_lookup =
               Ok (vouched sample_measurement (entry_path SP_VM_REGISTRY_BASE_URL sample_measurement platform_sev_snp "pre-release")))
    by (vm_compute; reflexivity).
  split; [exact Hv|].
  destruct (proj1 (proj1 (registry_answers_are_signed (Some toy_files) sample_measurement default_lookup) _ _) Hv)
    as (_ & _ & f & signature & Hf & He & _).
  exists f, signature. split; [exact Hf|exact He].
Defined.
