(* ===== verification/EvidenceGate.v ===== *)
(** * Tier 1 of the chat's verification: the page's own checks

    [router-ui/…/verification/evidence-gate.ts]: the gate that decides whether the
    composer opens.  It runs the stages of the shared verifier ([X509.v],
    [Attestation.v], [TeeEvidence.v]) over a bundle read from the host or from the
    router's relay, and asks the registry ([SpVmRegistry.v]) about the root.  [Err] is
    a promise that rejects: the caller leaves the composer shut. *)

From S2P Require Import Prelude JsString JsDate EvidenceDigest Json Der X509 Attestation TeeEvidence SpVmRegistry.

(** ** Results *)

Definition MAX_BUNDLE_AGE_MS : Z := 24 * 60 * 60 * 1000.
Definition ALLOWED_CLOCK_SKEW_MS : Z := 60000.
Definition EVIDENCE_PATH : jstr := "/.well-known/swarm-evidence".

Inductive CheckId := webcrypto | bundle_check | chain_check | signature_check | freshness_check | binding_check | root_check.

#[global] Instance CheckId_eq_dec : EqDecision CheckId.
Proof. solve_decision. Defined.

Inductive CheckStatus := check_pass | check_fail | check_unavailable.

#[global] Instance CheckStatus_eq_dec : EqDecision CheckStatus.
Proof. solve_decision. Defined.

Record GateCheck := { gc_id : CheckId; gc_status : CheckStatus; gc_detail : jstr }.

Inductive BundleSource := from_endpoint | from_router.
Inductive EndpointKind := own | external.

Record GateCertificate := {
  ct_subject : jstr;
  ct_issuer : jstr;
  ct_notBefore : jstr;
  ct_notAfter : jstr;
  ct_fingerprint : jstr;
  ct_isRoot : bool
}.

Record GateEvidence := {
  ge_hostname : jstr;
  ge_source : BundleSource;
  ge_issuedAt : jstr;
  ge_kind : EvidenceKind;
  ge_evidenceDigest : option json;
  ge_certFingerprint : jstr;
  ge_snapshot : option json;
  ge_jws : jstr;
  ge_chain : list GateCertificate;
  ge_rootSubject : jstr;
  ge_rootFingerprint : jstr;
  ge_quoteFormat : option jstr;
  ge_measurement : option jstr;
  ge_rootEvidenceLabel : option jstr;
  ge_rootBuild : option jstr;
  ge_rootKeyBinding : option bool;
  ge_rootNetworkType : option RootNetworkType;
  ge_rootEvidenceType : option RootEvidenceType;
  ge_rootChallengeType : option jstr;
  ge_rootReportMeasurement : option jstr;
  ge_rootSecurity : option RootReportSecurity;
  ge_rootAttestationError : option jstr
}.

Record GateResult := {
  gr_unlocked : bool;
  gr_checks : list GateCheck;
  gr_registry : option RegistryVerdict;
  gr_evidence : option GateEvidence
}.

Record RawBundle := {
  rb_hostname : jstr;
  rb_issuedAt : jstr;
  rb_certFingerprint : jstr;
  rb_jws : jstr;
  rb_certChain : list jstr;
  rb_rootCaTeeQuote : option json;
  rb_tlsLeaf : option jstr
}.

(** ** Opening the composer *)

Definition BLOCKING : list CheckId := [bundle_check; chain_check; signature_check; freshness_check; binding_check].

Definition check_passes (checks : list GateCheck) (id : CheckId) : bool :=
  match find_first (fun c => bool_decide (gc_id c = id)) checks with
  | Some c => bool_decide (gc_status c = check_pass)
  | None => false
  end.

Definition unlocks (checks : list GateCheck) : bool :=
  forallb (check_passes checks) BLOCKING && negb (existsb (fun c => bool_decide (gc_status c = check_fail)) checks).

(** ** Texts *)

Definition no_webcrypto : jstr :=
  "This page is not served over a secure origin, so the browser withholds the Web Crypto API that " +++
  "verifying evidence needs. Nothing here has been checked — and nothing will be sent. Open the console " +++
  "over HTTPS, or on http://localhost, which browsers treat as secure.".

Definition bundleRetrievedDetail (kind : EndpointKind) (source : BundleSource) (hostname : jstr) : jstr :=
  match kind, source with
  | external, _ => "This router relayed the bundle " +++ hostname +++ " published — the publication its own verdict named. " +++
                   "The signature was checked here, in this page."
  | own, from_endpoint => "The host served a swarm-evidence v1 bundle for " +++ hostname +++ "."
  | own, from_router => "This router handed back the last bundle it retrieved for " +++ hostname +++ "."
  end.

(** [Math.round(a / b)] *)
Definition js_round (a b : Z) : Z := (2 * a + b) / (2 * b).

Definition plural (n : Z) (what : jstr) : jstr := jstring_of_Z n +++ " " +++ what +++ (if n =? 1 then "" else "s") +++ " ago".

Definition describeAge (ageMs : Z) : jstr :=
  let minutes := Z.max 0 (js_round ageMs 60000) in
  if minutes <? 1 then "less than a minute ago"
  else if minutes <? 60 then plural minutes "minute"
  else plural (js_round minutes 60) "hour".

(** [`${hex.slice(0, 12)}…${hex.slice(-8)}`] *)
Definition short (hex : jstr) : jstr := jtake 12 hex +++ "…" +++ jdrop (jlength hex - 8) hex.

(** ** URIs *)

(** UTF-16 to UTF-8, [None] at a lone surrogate. *)
Fixpoint utf8_of (u : list N) : option (list N) :=
  match u with
  | [] => Some []
  | c :: r =>
      if (c <? 128)%N then (cons c) <$> utf8_of r
      else if (c <? 2048)%N then (app [192 + c / 64; 128 + c mod 64]%N) <$> utf8_of r
      else if (55296 <=? c)%N && (c <? 56320)%N then
        match r with
        | d :: r' =>
            if (56320 <=? d)%N && (d <? 57344)%N then
              let p := (65536 + (c - 55296) * 1024 + (d - 56320))%N in
              (app [240 + p / 262144; 128 + p / 4096 mod 64; 128 + p / 64 mod 64; 128 + p mod 64]%N) <$> utf8_of r'
            else None
        | [] => None
        end
      else if (56320 <=? c)%N && (c <? 57344)%N then None
      else (app [224 + c / 4096; 128 + c / 64 mod 64; 128 + c mod 64]%N) <$> utf8_of r
  end.

(** [A-Z a-z 0-9 - _ . ! ~ * ' ( )] *)
Definition uri_unreserved (c : N) : bool :=
  is_upper c || is_lower c || is_digit c ||
  existsb (N.eqb c) [45; 95; 46; 33; 126; 42; 39; 40; 41]%N.

Definition upper_hex (d : N) : N := if (d <? 10)%N then (48 + d)%N else (55 + d)%N.

(** [encodeURIComponent]; [None] when it throws. *)
Definition encodeURIComponent (s : jstr) : option jstr :=
  (fun bytes => Js (concat (map (fun b => if uri_unreserved b then [b] else [37; upper_hex (b / 16); upper_hex (b mod 16)]%N) bytes)))
    <$> utf8_of (units s).

Definition uri_malformed : jstr := "URI malformed".

Section Gate.
Context `{P : Platform} {C : Crypto} {R : RegistryPlatform} (double_text : N -> jstr).

Record GateOptions := {
  go_hostname : jstr;
  go_endpointName : jstr;
  go_apiOrigin : jstr;
  go_kind : EndpointKind;
  go_fetcher : option fetcher;
  go_now : option Z;
  go_pageOrigin : option jstr;
  go_registryLookup : option (jstr -> result jstr RegistryVerdict);
  go_rootAttestationReader : option (cert -> RootAttestation)
}.

(** The browser: [crypto.subtle], [fetch], [location.origin], the clock where
    [options.now] is absent, and the registry as [fetch] reaches it. *)
Record page := {
  pg_subtle : bool;
  pg_fetch : option fetcher;
  pg_origin : option jstr;
  pg_chain_clock : Z;
  pg_freshness_clock : Z;
  pg_registry : option registry_fetch
}.

(** ** Retrieving the bundle *)

Definition refusalOf (status : Z) (body : result jstr json) : jstr :=
  match body with
  | Ok body =>
      match nonempty_string (member "reason" body) with
      | Some reason => match nonempty_string (member "message" body) with
                       | Some message => reason +++ ": " +++ message
                       | None => reason
                       end
      | None => "status " +++ jstring_of_Z status
      end
  | Err _ => "status " +++ jstring_of_Z status
  end.

(** [value.certFingerprint.startsWith('sha256/')] and the other members, in order. *)
Definition shapeOf (raw : json) (expectedHostname : jstr) : result jstr RawBundle :=
  throw "the response is not a JSON object" when negb (is_object raw);
  let value name := member name raw in
  throw ("unsupported bundle version " +++ String_of (value "version")) when negb (is_text "1" (value "version"));
  throw ("unsupported bundle kind " +++ String_of (value "kind")) when negb (is_text "DeploymentEvidence" (value "kind"));
  throw ("the bundle names " +++ String_of (value "hostname") +++ ", not " +++ expectedHostname)
    when negb (is_text expectedHostname (value "hostname"));
  match nonempty_string (value "jws") with
  | None => Err ("the bundle carries no JWS" : jstr)
  | Some jws =>
      match as_string (value "certFingerprint") with
      | Some certFingerprint =>
          throw "the bundle certFingerprint is malformed" when negb (jstartsWith certFingerprint "sha256/");
          match chain_of (value "certChain") with
          | None => Err ("the bundle carries no certificate chain" : jstr)
          | Some certChain =>
              match as_string (value "issuedAt") with
              | None => Err ("the bundle carries no issuedAt" : jstr)
              | Some issuedAt =>
                  Ok {| rb_hostname := expectedHostname; rb_issuedAt := issuedAt; rb_certFingerprint := certFingerprint;
                        rb_jws := jws; rb_certChain := certChain; rb_rootCaTeeQuote := value "rootCaTeeQuote";
                        rb_tlsLeaf := as_string (value "tlsLeaf") |}
              end
          end
      | None => Err ("the bundle certFingerprint is malformed" : jstr)
      end
  end.

Definition tryFetch (fetcher : fetcher) (url expectedHostname : jstr) : result jstr RawBundle :=
  match fetcher url with
  | Err message => Err message
  | Ok (response ok status body) =>
      if negb ok then Err (refusalOf status body)
      else
        match body with
        | Err message => Err ("body is not JSON (" +++ message +++ ")")
        | Ok body => shapeOf body expectedHostname
        end
  end.

Definition servesThisPage (pg : page) (options : GateOptions) : bool :=
  match match go_pageOrigin options with Some o => Some o | None => pg_origin pg end with
  | Some origin => jeqb origin ("https://" +++ go_hostname options)
  | None => false
  end.

Definition fromHost (f : fetcher) (options : GateOptions) : result jstr RawBundle :=
  tryFetch f ("https://" +++ go_hostname options +++ EVIDENCE_PATH) (go_hostname options).

(** The outer result: [encodeURIComponent] throws. *)
Definition fromRouter (f : fetcher) (options : GateOptions) : result jstr (result jstr RawBundle) :=
  match encodeURIComponent (go_endpointName options) with
  | None => Err uri_malformed
  | Some name => Ok (tryFetch f (strip_slashes (go_apiOrigin options) +++ "/v1/evidence/" +++ name) (go_hostname options))
  end.

Definition both_refused (hostname host router : jstr) : jstr :=
  "No evidence could be retrieved for " +++ hostname +++ ": the host answered " +++ quoted host +++
  " and this router answered " +++ quoted router +++ ".".

(** [FetchOutcome], inside the promise. *)
Definition fetchBundle (pg : page) (options : GateOptions) : result jstr (result jstr (RawBundle * BundleSource)) :=
  match match go_fetcher options with Some f => Some f | None => pg_fetch pg end with
  | None => Ok (Err ("This browser exposes no fetch, so no evidence could be retrieved." : jstr))
  | Some f =>
      match go_kind options with
      | external =>
          relayed ← fromRouter f options;
          Ok (match relayed with
              | Ok bundle => Ok (bundle, from_router)
              | Err detail => Err ("No evidence could be relayed for the external upstream " +++ go_hostname options +++
                                   ": this router answered " +++ quoted detail +++ ".")
              end)
      | own =>
          if servesThisPage pg options then
            match fromHost f options with
            | Ok bundle => Ok (Ok (bundle, from_endpoint))
            | Err host =>
                second ← fromRouter f options;
                Ok (match second with
                    | Ok bundle => Ok (bundle, from_router)
                    | Err router => Err (both_refused (go_hostname options) host router)
                    end)
            end
          else
            first ← fromRouter f options;
            Ok (match first with
                | Ok bundle => Ok (bundle, from_router)
                | Err router =>
                    match fromHost f options with
                    | Ok bundle => Ok (bundle, from_endpoint)
                    | Err host => Err (both_refused (go_hostname options) host router)
                    end
                end)
      end
  end.

(** ** The checks *)

Definition passed (id : CheckId) (detail : jstr) : GateCheck := {| gc_id := id; gc_status := check_pass; gc_detail := detail |}.
Definition failed (id : CheckId) (detail : jstr) : GateCheck := {| gc_id := id; gc_status := check_fail; gc_detail := detail |}.
Definition not_answered (id : CheckId) (detail : jstr) : GateCheck :=
  {| gc_id := id; gc_status := check_unavailable; gc_detail := detail |}.

Fixpoint summarise_from (root : nat) (i : nat) (certs : list cert) : list GateCertificate :=
  match certs with
  | [] => []
  | c :: certs =>
      {| ct_subject := subject c; ct_issuer := issuer c; ct_notBefore := toISOString (notBefore c);
         ct_notAfter := toISOString (notAfter c); ct_fingerprint := fingerprint_of c; ct_isRoot := (i =? root)%nat |}
      :: summarise_from root (S i) certs
  end.

Definition summariseChain (parsed : ParsedChain) : list GateCertificate :=
  summarise_from (length (pc_certs parsed) - 1) 0 (pc_certs parsed).

Definition checkChain (bundle : RawBundle) (now : Z) : GateCheck * option ParsedChain :=
  match validateChain (rb_certChain bundle) now with
  | Ok parsed =>
      (passed chain_check ("Each certificate signs the next, all are inside their validity window, and the chain terminates at " +++
                           "the self-signed root " +++ subject (pc_root parsed) +++ "."), Some parsed)
  | Err (CertChainError message) => (failed chain_check ("The certificate chain is not valid: " +++ message), None)
  end.

Definition checkSignature (bundle : RawBundle) (leaf : cert) : GateCheck * option EvidencePayload :=
  match verifyJws (rb_jws bundle) leaf with
  | Ok payload =>
      if negb (jeqb (ep_hostname payload) (rb_hostname bundle)) then
        (failed signature_check ("The signed payload names " +++ ep_hostname payload +++ ", not " +++ rb_hostname bundle +++ "."), None)
      else
        (passed signature_check
           "The evidence is signed by the key in the chain leaf, and the signed payload names this hostname.", Some payload)
  | Err (JwsError message) => (failed signature_check ("The signature did not verify: " +++ message), None)
  end.

Definition checkFreshness (issuedAt : jstr) (now : Z) (source : BundleSource) : GateCheck :=
  match Date_parse issuedAt with
  | None => failed freshness_check ("The signed issuedAt " +++ quoted issuedAt +++ " is not a timestamp.")
  | Some issued =>
      let age := now - issued in
      if MAX_BUNDLE_AGE_MS <? age then
        let hours := jstring_of_Z (age / 3600000) in
        failed freshness_check
          match source with
          | from_router =>
              "The copy this router relayed was signed " +++ hours +++ " hours ago, past the 24-hour window. A healthy " +++
              "deployment republishes every few minutes, so this is most likely this router having stopped " +++
              "refreshing its copy rather than the endpoint having stopped publishing — its operator can tell " +++
              "which from the router’s own logs."
          | from_endpoint =>
              "The evidence was signed " +++ hours +++ " hours ago, past the 24-hour window. A healthy deployment " +++
              "republishes every few minutes."
          end
      else if age <? - ALLOWED_CLOCK_SKEW_MS then
        failed freshness_check "The evidence is dated in the future beyond allowed clock skew."
      else passed freshness_check ("The evidence was signed " +++ describeAge age +++ " and is inside the 24-hour freshness window.")
  end.

Definition checkBinding (signedFingerprint : jstr) (tlsLeafPem : option jstr) : GateCheck :=
  match match tlsLeafPem with Some pem => if jlength pem =? 0 then None else Some pem | None => None end with
  | None =>
      failed binding_check ("The bundle publishes no tlsLeaf, so the signed certificate fingerprint cannot be tied to any " +++
                            "certificate from inside a browser.")
  | Some pem =>
      match rootFingerprintFromPem pem with
      | Err message => failed binding_check ("The published tlsLeaf could not be parsed: " +++ message)
      | Ok derived =>
          if negb (fingerprintsEqual signedFingerprint derived) then
            failed binding_check ("The published TLS certificate hashes to " +++ derived +++ ", but the evidence signs " +++
                                  signedFingerprint +++ ".")
          else
            passed binding_check ("The TLS certificate the deployment publishes hashes to the fingerprint the evidence signs. This " +++
              "is a producer-asserted binding: a page cannot inspect the live TLS certificate, so it checks what the deployment " +++
              "says it serves.")
      end
  end.

(** ** The root *)

(** The three places a producer publishes a measurement, and the spellings of its key. *)
Definition measurement_in (candidate : option json) : option jstr :=
  match candidate with
  | Some (JObject m) =>
      let at_ key := value ← as_string (member key (JObject m));
                     let s := toLowerCase (jtrim value) in if isMeasurementHex s then Some s else None in
      match at_ "mrenclave" with
      | Some s => Some s
      | None => match at_ "mrEnclave" with Some s => Some s | None => at_ "MRENCLAVE" end
      end
  | _ => None
  end.

Definition measurementOf (payload : json) (bundle : RawBundle) : option jstr :=
  match measurement_in (chain (member "evidence" payload) "measurements") with
  | Some s => Some s
  | None =>
      match measurement_in (member "measurements" payload) with
      | Some s => Some s
      | None => measurement_in (chain (chain (rb_rootCaTeeQuote bundle) "collateral") "measurements")
      end
  end.

Definition quoteFormatOf (quote : option json) : option jstr := nonempty_string (chain quote "format").

Definition liftedEvidenceRefusal (rootSubject : jstr) (attestation : RootAttestation) (bundlePublishesMeasurement : bool)
    : option GateCheck :=
  match ra_evidence attestation with
  | Some evidence =>
      if bool_decide (te_keyBinding evidence = Some false) then
        let collision : jstr :=
          if bundlePublishesMeasurement
          then " This bundle also publishes a measurement for the registry to vouch for, which is not an answer to this: a " +++
               "registry entry proves some VM is one of Super Protocol's, not that this root's key is that VM's. It was not consulted."
          else "" in
        Some (failed root_check
          ("The root " +++ rootSubject +++ " carries an " +++ te_label evidence +++ " quote, but that quote's report data does not " +++
           "commit to this root's public key — so it attests some other key, not this one." +++ collision +++ " Do not trust this " +++
           "endpoint on the strength of this page: run Gatekeeper, which refuses a root whose quote does not bind its own key."))
      else None
  | None => None
  end.

(** [`for sp-vm ${build}`], when [evidence.build] is a text that is not empty. *)
Definition rootWithoutLookup (quote : option json) (rootSubject : jstr) (attestation : RootAttestation) : GateCheck :=
  not_answered root_check
  match ra_evidence attestation with
  | Some evidence =>
      let bound_ : jstr := if bool_decide (te_keyBinding evidence = Some true)
                           then " and that quote's report data commits to this root's own public key" else "" in
      let release : jstr := match te_build evidence with
                            | Some build => if jlength build =? 0 then "" else " for sp-vm " +++ build
                            | None => ""
                            end in
      "The root " +++ rootSubject +++ " carries an " +++ te_label evidence +++ " quote" +++ release +++ bound_ +++ ". What this page " +++
      "cannot do is the last step: Super Protocol's registry indexes a VM by a launch measurement rebuilt from that release's " +++
      "firmware image, which is not browser work. So nothing here says this VM is one Super Protocol vouches for — and " +++
      "Gatekeeper, which does rebuild it, may reach a different verdict on this endpoint, including refusing it. Tier 3 below is " +++
      "how you find out."
  | None =>
      if ra_carriesEvidence attestation then
        "The root " +++ rootSubject +++ " carries a TEE evidence extension this page could not read (" +++
        default "unknown reason" (ra_error attestation) +++ "), so nothing here says either way whether this VM is one of Super " +++
        "Protocol's. Run Gatekeeper, which reads the extension in full."
      else
        match quoteFormatOf quote with
        | Some format =>
            "The deployment publishes a " +++ format +++ " quote but no measurement this page can look up, and the root " +++
            rootSubject +++ " carries no TEE evidence of its own. Nothing here says this VM is one of Super Protocol's. Tiers 2 and " +++
            "3 answer that."
        | None =>
            "Neither this bundle's rootCaTeeQuote nor the root certificate " +++ rootSubject +++ " carries a TEE quote, so nothing " +++
            "here says this VM is one of Super Protocol's. Tiers 2 and 3 answer that."
        end
  end.

Definition checkRoot (quote : option json) (measurement : option jstr) (rootSubject : jstr) (attestation : RootAttestation)
    (lookUp : jstr -> result jstr RegistryVerdict) : result jstr (GateCheck * option RegistryVerdict) :=
  match liftedEvidenceRefusal rootSubject attestation (bool_decide (is_Some measurement)) with
  | Some lifted => Ok (lifted, None)
  | None =>
      match measurement with
      | None => Ok (rootWithoutLookup quote rootSubject attestation, None)
      | Some measurement =>
          verdict ← lookUp measurement;
          Ok (match verdict with
              | vouched m _ =>
                  passed root_check ("The measurement " +++ short m +++ " is signed in Super Protocol's published registry under the " +++
                    "key pinned in this page, so the VM behind " +++ rootSubject +++ " is a build Super Protocol vouches for.")
              | not_in_registry m =>
                  failed root_check ("The registry holds no valid signature for measurement " +++ short m +++ ", so this VM is not one " +++
                    "Super Protocol vouches for.")
              | registry_unavailable reason =>
                  not_answered root_check ("Super Protocol's measurement registry could not be consulted (" +++ reason +++ "), so the " +++
                    "root is neither confirmed nor rejected.")
              end, Some verdict)
      end
  end.

(** ** The gate *)

Definition locked (checks : list GateCheck) : GateResult :=
  {| gr_unlocked := false; gr_checks := checks; gr_registry := None; gr_evidence := None |}.

Definition lookup_of (pg : page) (options : GateOptions) : jstr -> result jstr RegistryVerdict :=
  default (fun m => lookUpMeasurement (pg_registry pg) m
                      {| lo_baseUrl := None; lo_keySpkiBase64 := None; lo_fetcher := None; lo_platform := None |})
    (go_registryLookup options).

Definition reader_of (options : GateOptions) : cert -> RootAttestation :=
  default (readRootAttestation double_text) (go_rootAttestationReader options).

Definition gate_evidence (bundle : RawBundle) (source : BundleSource) (parsed : ParsedChain) (payload : EvidencePayload)
    (measurement : option jstr) (attestation : RootAttestation) : GateEvidence :=
  {| ge_hostname := rb_hostname bundle; ge_source := source; ge_issuedAt := ep_issuedAt payload; ge_kind := ep_kind payload;
     ge_evidenceDigest := member "evidenceDigest" (ep_object payload); ge_certFingerprint := ep_certFingerprint payload;
     ge_snapshot := member "evidence" (ep_object payload); ge_jws := rb_jws bundle; ge_chain := summariseChain parsed;
     ge_rootSubject := subject (pc_root parsed); ge_rootFingerprint := pc_rootFingerprint parsed;
     ge_quoteFormat := quoteFormatOf (rb_rootCaTeeQuote bundle); ge_measurement := measurement;
     ge_rootEvidenceLabel := te_label <$> ra_evidence attestation;
     ge_rootBuild := ra_evidence attestation ≫= te_build;
     ge_rootKeyBinding := ra_evidence attestation ≫= te_keyBinding;
     ge_rootNetworkType := ra_networkType attestation;
     ge_rootEvidenceType := te_type <$> ra_evidence attestation;
     ge_rootChallengeType := ra_challengeType attestation;
     ge_rootReportMeasurement := ra_evidence attestation ≫= te_reportMeasurement;
     ge_rootSecurity := ra_evidence attestation ≫= te_security;
     ge_rootAttestationError := ra_error attestation |}.

Definition runEvidenceGate (pg : page) (options : GateOptions) : result jstr GateResult :=
  if negb (pg_subtle pg) then Ok (locked [failed webcrypto no_webcrypto])
  else
    fetched ← fetchBundle pg options;
    match fetched with
    | Err detail => Ok (locked [failed bundle_check detail])
    | Ok (bundle, source) =>
        let retrieved := passed bundle_check (bundleRetrievedDetail (go_kind options) source (rb_hostname bundle)) in
        match checkChain bundle (default (pg_chain_clock pg) (go_now options)) with
        | (chained, None) => Ok (locked [retrieved; chained])
        | (chained, Some parsed) =>
            match checkSignature bundle (pc_leaf parsed) with
            | (signed, None) => Ok (locked [retrieved; chained; signed])
            | (signed, Some payload) =>
                let fresh_ := checkFreshness (ep_issuedAt payload) (default (pg_freshness_clock pg) (go_now options)) source in
                let binding := checkBinding (ep_certFingerprint payload) (rb_tlsLeaf bundle) in
                let measurement := measurementOf (ep_object payload) bundle in
                let attestation := reader_of options (pc_root parsed) in
                '(root, registry) ← checkRoot (rb_rootCaTeeQuote bundle) measurement (subject (pc_root parsed)) attestation
                                      (lookup_of pg options);
                let checks := [retrieved; chained; signed; fresh_; binding; root] in
                Ok {| gr_unlocked := unlocks checks; gr_checks := checks; gr_registry := registry;
                      gr_evidence := Some (gate_evidence bundle source parsed payload measurement attestation) |}
            end
        end
    end.
End Gate.

(** ** What an open composer rests on *)

Section GateSpec.
Context `{P : Platform} {C : Crypto} {R : RegistryPlatform} (double_text : N -> jstr).

(** A source answered 2xx with a body of the right shape: the host itself, or the relay
    of this router, which is the only one asked about another deployment's upstream. *)
Definition obtained (pg : page) (options : GateOptions) (bundle : RawBundle) (source : BundleSource) : Prop :=
  exists f url status body,
    match go_fetcher options with Some f => Some f | None => pg_fetch pg end = Some f /\
    f url = Ok (response true status (Ok body)) /\ shapeOf body (go_hostname options) = Ok bundle /\
    match source with
    | from_endpoint => url = "https://" +++ go_hostname options +++ EVIDENCE_PATH /\ go_kind options = own
    | from_router => exists name, encodeURIComponent (go_endpointName options) = Some name /\
                       url = strip_slashes (go_apiOrigin options) +++ "/v1/evidence/" +++ name
    end.

Lemma tryFetch_ok f url hostname bundle : tryFetch f url hostname = Ok bundle ->
  exists status body, f url = Ok (response true status (Ok body)) /\ shapeOf body hostname = Ok bundle.
Proof.
  unfold tryFetch. destruct (f url) as [[ok status [body|m]]|m]; [| |done]; destruct ok; cbn [negb]; try done. eauto.
Qed.

Lemma fromRouter_ok f options bundle : fromRouter f options = Ok (Ok bundle) ->
  exists name, encodeURIComponent (go_endpointName options) = Some name /\
    tryFetch f (strip_slashes (go_apiOrigin options) +++ "/v1/evidence/" +++ name) (go_hostname options) = Ok bundle.
Proof. unfold fromRouter. destruct (encodeURIComponent _) as [name|]; [|done]. intros [= H]. eauto. Qed.

Lemma fetchBundle_obtained pg options bundle source :
  fetchBundle pg options = Ok (Ok (bundle, source)) -> obtained pg options bundle source.
Proof.
  unfold fetchBundle, obtained. destruct (match go_fetcher options with Some f => Some f | None => _ end) as [f|]; [|done].
  assert (Hr : forall b, fromRouter f options = Ok (Ok b) -> exists url status body, f url = Ok (response true status (Ok body)) /\
            shapeOf body (go_hostname options) = Ok b /\ exists name, encodeURIComponent (go_endpointName options) = Some name /\
              url = strip_slashes (go_apiOrigin options) +++ "/v1/evidence/" +++ name).
  { intros b (name & Hn & (status & body & Hf & Hs)%tryFetch_ok)%fromRouter_ok. eauto 8. }
  assert (Hh : forall b, fromHost f options = Ok b -> exists url status body, f url = Ok (response true status (Ok body)) /\
            shapeOf body (go_hostname options) = Ok b /\ url = "https://" +++ go_hostname options +++ EVIDENCE_PATH).
  { unfold fromHost. intros b (status & body & Hf & Hs)%tryFetch_ok. by eexists _, status, body. }
  destruct (go_kind options).
  - destruct (servesThisPage pg options); [destruct (fromHost f options) as [b|host] eqn:Eh|].
    + intros [= <- <-]. destruct (Hh b eq_refl) as (url & status & body & ? & ? & ?). by exists f, url, status, body.
    + intros (second & Hs & Heq)%bind_ok. destruct second as [b|]; [|done]. injection Heq as <- <-.
      destruct (Hr b Hs) as (url & status & body & ? & ? & ?). by exists f, url, status, body.
    + intros (first & Hs & Heq)%bind_ok. destruct first as [b|].
      * injection Heq as <- <-. destruct (Hr b Hs) as (url & status & body & ? & ? & ?). by exists f, url, status, body.
      * destruct (fromHost f options) as [b|] eqn:Eh; [|done]. injection Heq as <- <-.
        destruct (Hh b eq_refl) as (url & status & body & ? & ? & ?). by exists f, url, status, body.
  - intros (relayed & Hs & Heq)%bind_ok. destruct relayed as [b|]; [|done]. injection Heq as <- <-.
    destruct (Hr b Hs) as (url & status & body & ? & ? & ?). by exists f, url, status, body.
Qed.

Lemma checkChain_iff bundle now c parsed : checkChain bundle now = (c, Some parsed) ->
  validateChain (rb_certChain bundle) now = Ok parsed /\ gc_id c = chain_check /\ gc_status c = check_pass.
Proof. unfold checkChain. destruct (validateChain _ _) as [p|[m]]; [|done]. by intros [= <- <-]. Qed.

Lemma checkSignature_iff bundle leaf c payload : checkSignature bundle leaf = (c, Some payload) ->
  signed_payload (rb_jws bundle) leaf payload /\ ep_hostname payload = rb_hostname bundle /\
  gc_id c = signature_check /\ gc_status c = check_pass.
Proof.
  unfold checkSignature. destruct (verifyJws _ _) as [p|[m]] eqn:E; [|done].
  destruct (jeqb _ _) eqn:Eh; cbn [negb]; [|done]. intros [= <- <-]. apply verifyJws_ok in E. by apply jeqb_eq in Eh.
Qed.

(** The rows that are never unanswered. *)
Lemma checkFreshness_iff issuedAt now source :
  gc_id (checkFreshness issuedAt now source) = freshness_check /\
  (gc_status (checkFreshness issuedAt now source) = check_pass <-> fresh issuedAt (Some MAX_BUNDLE_AGE_MS) now) /\
  gc_status (checkFreshness issuedAt now source) <> check_unavailable.
Proof.
  unfold checkFreshness, fresh. destruct (Date_parse issuedAt) as [issued|].
  - cbv zeta. destruct (Z.ltb_spec MAX_BUNDLE_AGE_MS (now - issued)) as [H1|H1];
      [|destruct (Z.ltb_spec (now - issued) (- ALLOWED_CLOCK_SKEW_MS)) as [H2|H2]]; cbn; (split_and!; [done| |done]).
    + split; [done|]. intros H. destruct (H _ eq_refl) as (i & [= <-] & ?). lia.
    + split; [done|]. intros H. destruct (H _ eq_refl) as (i & [= <-] & ?). unfold ALLOWED_CLOCK_SKEW_MS, Attestation.ALLOWED_CLOCK_SKEW_MS in *. lia.
    + split; [|done]. intros _ limit [= <-]. exists issued. split; [done|].
      unfold ALLOWED_CLOCK_SKEW_MS, Attestation.ALLOWED_CLOCK_SKEW_MS in *. lia.
  - cbn. split_and!; [done| |done]. split; [done|]. intros H. by destruct (H _ eq_refl) as (? & ? & _).
Qed.

Definition bound_to_leaf (fp : jstr) (tlsLeaf : option jstr) : Prop :=
  bound fp None tlsLeaf producer_asserted /\ tlsLeaf <> Some (Js []).

Lemma checkBinding_iff fp tlsLeaf :
  gc_id (checkBinding fp tlsLeaf) = binding_check /\
  (gc_status (checkBinding fp tlsLeaf) = check_pass <-> bound_to_leaf fp tlsLeaf) /\
  gc_status (checkBinding fp tlsLeaf) <> check_unavailable.
Proof.
  unfold checkBinding, bound_to_leaf, bound. destruct tlsLeaf as [[u]|].
  2:{ cbn. split_and!; [done| |done]. split; [done|]. by intros [(_ & ? & ? & ? & _) _]. }
  destruct u as [|c u].
  { cbn. split_and!; [done| |done]. split; [done|]. by intros [_ ?]. }
  replace (jlength (Js (c :: u)) =? 0) with false by (symmetry; apply Z.eqb_neq; unfold jlength; cbn; lia).
  unfold rootFingerprintFromPem. destruct (X509Certificate (Js (c :: u))) as [x|m] eqn:Ex; cbn [mbind result_bind].
  - destruct (fingerprintsEqual fp (fingerprint_of x)) eqn:Ef; cbn [negb]; cbn; (split_and!; [done| |done]).
    + apply fingerprintsEqual_spec in Ef as ->. split; [|done]. intros _. split; [|done]. split; [done|]. eauto.
    + split; [done|]. intros [(_ & pem & x' & [= <-] & Hx & Hf) _]. rewrite Hx in Ex. injection Ex as ->. subst fp.
      by rewrite (proj2 (fingerprintsEqual_spec _ _) eq_refl) in Ef.
  - cbn. split_and!; [done| |done]. split; [done|]. intros [(_ & pem & x' & [= <-] & Hx & _) _]. congruence.
Qed.

(** What the root row may not say: that its quote is another key's, or that the registry
    holds no signature over the measurement published. *)
Definition root_open (attestation : RootAttestation) (measurement : option jstr) (lookUp : jstr -> result jstr RegistryVerdict) : Prop :=
  (forall evidence, ra_evidence attestation = Some evidence -> te_keyBinding evidence <> Some false) /\
  (forall m, measurement = Some m -> forall m', lookUp m <> Ok (not_in_registry m')).

Lemma checkRoot_iff quote measurement rootSubject attestation lookUp c registry :
  checkRoot quote measurement rootSubject attestation lookUp = Ok (c, registry) ->
  gc_id c = root_check /\ (gc_status c = check_fail <-> ~ root_open attestation measurement lookUp).
Proof.
  unfold checkRoot, liftedEvidenceRefusal, root_open.
  assert (Hopen : forall evidence, ra_evidence attestation = Some evidence -> te_keyBinding evidence = Some false \/ te_keyBinding evidence <> Some false).
  { intros evidence _. destruct (decide (te_keyBinding evidence = Some false)); auto. }
  assert (Hrest : match measurement with
                  | None => Ok (rootWithoutLookup quote rootSubject attestation, None)
                  | Some measurement => verdict ← lookUp measurement; Ok (match verdict with
                      | vouched m _ => passed root_check ("The measurement " +++ short m +++ " is signed in Super Protocol's published registry under the " +++
                          "key pinned in this page, so the VM behind " +++ rootSubject +++ " is a build Super Protocol vouches for.")
                      | not_in_registry m => failed root_check ("The registry holds no valid signature for measurement " +++ short m +++ ", so this VM is not one " +++
                          "Super Protocol vouches for.")
                      | registry_unavailable reason => not_answered root_check ("Super Protocol's measurement registry could not be consulted (" +++ reason +++ "), so the " +++
                          "root is neither confirmed nor rejected.") end, Some verdict) end = Ok (c, registry) ->
    gc_id c = root_check /\ (gc_status c = check_fail <-> ~ forall m, measurement = Some m -> forall m', lookUp m <> Ok (not_in_registry m'))).
  { destruct measurement as [m|].
    - destruct (lookUp m) as [v|e] eqn:El; cbn [mbind result_bind]; [|done]. intros [= <- _].
      destruct v as [v url|v|reason]; cbn; (split; [done|]); split; try done.
      + intros H. destruct H. intros m0 [= <-] m'. congruence.
      + intros _ H. by apply (H m eq_refl v).
      + intros H. destruct H. intros m0 [= <-] m'. congruence.
    - intros [= <- _]. split; [done|]. cbn. split; [done|]. intros H. by destruct H. }
  destruct (ra_evidence attestation) as [evidence|] eqn:Ee.
  - case_bool_decide as Hk.
    + intros [= <- _]. split; [done|]. split; [|done]. intros _ [H _]. by apply (H evidence eq_refl).
    + intros H. destruct (Hrest H) as [Hid Hst]. split; [done|]. rewrite Hst. split.
      * intros Hn [_ Hx]. by apply Hn.
      * intros Hn Hx. apply Hn. split; [|done]. by intros ? [= <-].
  - intros H. destruct (Hrest H) as [Hid Hst]. split; [done|]. rewrite Hst. split; [by intros Hn [_ Hx]; apply Hn|].
    intros Hn Hx. apply Hn. by split.
Qed.

Lemma unlocks_six b c s f d r : gc_id b = bundle_check -> gc_id c = chain_check -> gc_id s = signature_check ->
  gc_id f = freshness_check -> gc_id d = binding_check -> gc_status b = check_pass -> gc_status c = check_pass ->
  gc_status s = check_pass ->
  unlocks [b; c; s; f; d; r] = true <-> gc_status f = check_pass /\ gc_status d = check_pass /\ gc_status r <> check_fail.
Proof.
  intros Hb Hc Hs Hf Hd Pb Pc Ps.
  destruct b as [b1 b2 b3], c as [c1 c2 c3], s as [s1 s2 s3], f as [f1 f2 f3], d as [d1 d2 d3], r as [r1 r2 r3].
  cbn [gc_id gc_status] in *. subst. destruct f2, d2, r2; vm_compute; naive_solver.
Qed.

(** What a finished run found, up to the signature. *)
Definition examined (pg : page) (options : GateOptions) (bundle : RawBundle) (source : BundleSource) (parsed : ParsedChain)
    (payload : EvidencePayload) : Prop :=
  fetchBundle pg options = Ok (Ok (bundle, source)) /\
  validateChain (rb_certChain bundle) (default (pg_chain_clock pg) (go_now options)) = Ok parsed /\
  signed_payload (rb_jws bundle) (pc_leaf parsed) payload /\ ep_hostname payload = rb_hostname bundle.

Lemma gate_run pg options r : runEvidenceGate double_text pg options = Ok r ->
  (gr_unlocked r = false /\ gr_evidence r = None /\ exists c, c ∈ gr_checks r /\ gc_status c = check_fail) \/
  pg_subtle pg = true /\ exists bundle source parsed payload b c s root registry,
    examined pg options bundle source parsed payload /\
    gc_id b = bundle_check /\ gc_status b = check_pass /\ gc_id c = chain_check /\ gc_status c = check_pass /\
    gc_id s = signature_check /\ gc_status s = check_pass /\
    let measurement := measurementOf (ep_object payload) bundle in
    let attestation := reader_of double_text options (pc_root parsed) in
    let f := checkFreshness (ep_issuedAt payload) (default (pg_freshness_clock pg) (go_now options)) source in
    let d := checkBinding (ep_certFingerprint payload) (rb_tlsLeaf bundle) in
    checkRoot (rb_rootCaTeeQuote bundle) measurement (subject (pc_root parsed)) attestation (lookup_of pg options) = Ok (root, registry) /\
    r = {| gr_unlocked := unlocks [b; c; s; f; d; root]; gr_checks := [b; c; s; f; d; root]; gr_registry := registry;
           gr_evidence := Some (gate_evidence bundle source parsed payload measurement attestation) |}.
Proof.
  unfold runEvidenceGate, examined. destruct (pg_subtle pg); cbn [negb].
  2:{ intros [= <-]. left. split_and!; [done..|]. eexists. split; [by left|done]. }
  intros (fetched & Hf & H)%bind_ok. destruct fetched as [[bundle source]|detail].
  2:{ injection H as <-. left. split_and!; [done..|]. eexists. split; [by left|done]. }
  set (b := passed bundle_check _) in H. destruct (checkChain _ _) as [c [parsed|]] eqn:Ec.
  2:{ injection H as <-. left. split_and!; [done..|]. exists c. split; [set_solver|].
      unfold checkChain in Ec. destruct (validateChain _ _) as [p|[m]]; [done|]. by injection Ec as <-. }
  apply checkChain_iff in Ec as (Hv & Hc1 & Hc2). destruct (checkSignature bundle (pc_leaf parsed)) as [s [payload|]] eqn:Es.
  2:{ injection H as <-. left. split_and!; [done..|]. exists s. split; [set_solver|].
      unfold checkSignature in Es. destruct (verifyJws _ _) as [p|[m]]; [destruct (negb _); [|done]|]; by injection Es as <-. }
  apply checkSignature_iff in Es as (Hs & Hh & Hs1 & Hs2). apply bind_ok in H as ([root registry] & Hr & [= <-]).
  right. split; [done|]. exists bundle, source, parsed, payload, b, c, s, root, registry. by split_and!.
Qed.

Lemma gate_opens pg options r : runEvidenceGate double_text pg options = Ok r ->
  gr_unlocked r = true <->
  pg_subtle pg = true /\ exists bundle source parsed payload,
    examined pg options bundle source parsed payload /\ obtained pg options bundle source /\
    fresh (ep_issuedAt payload) (Some MAX_BUNDLE_AGE_MS) (default (pg_freshness_clock pg) (go_now options)) /\
    bound_to_leaf (ep_certFingerprint payload) (rb_tlsLeaf bundle) /\
    let measurement := measurementOf (ep_object payload) bundle in
    let attestation := reader_of double_text options (pc_root parsed) in
    root_open attestation measurement (lookup_of pg options) /\
    gr_evidence r = Some (gate_evidence bundle source parsed payload measurement attestation).
Proof.
  intros Hr. apply gate_run in Hr as [(Hl & He & _)|(Hw & bundle & source & parsed & payload & b & c & s & root & registry &
      Hx & B1 & B2 & C1 & C2 & S1 & S2 & Hroot & ->)].
  - rewrite Hl. split; [done|]. intros (_ & ? & ? & ? & ? & _ & _ & _ & _ & _ & Hev). congruence.
  - cbn [gr_unlocked gr_evidence] in *.
    destruct (checkFreshness_iff (ep_issuedAt payload) (default (pg_freshness_clock pg) (go_now options)) source) as (F1 & F2 & _).
    destruct (checkBinding_iff (ep_certFingerprint payload) (rb_tlsLeaf bundle)) as (D1 & D2 & _).
    destruct (checkRoot_iff _ _ _ _ _ _ _ Hroot) as [R1 R2].
    rewrite unlocks_six by done. rewrite F2, D2. split.
    + intros (Hf & Hd & Hn). split; [done|]. exists bundle, source, parsed, payload.
      pose proof (fetchBundle_obtained _ _ _ _ (proj1 Hx)) as Ho. split_and!; try done. rewrite R2 in Hn. split.
      * intros evidence Hev Hk. apply Hn. intros [Hq _]. by apply (Hq evidence).
      * intros m Hm m' Hl. apply Hn. intros [_ Hq]. by apply (Hq m Hm m').
    + intros (_ & bundle' & source' & parsed' & payload' & Hx' & _ & Hf & Hd & Ho & _).
      destruct Hx as (E1 & E2 & E3 & _), Hx' as (E1' & E2' & E3' & _). rewrite E1 in E1'. injection E1' as <- <-.
      rewrite E2 in E2'. injection E2' as <-. apply verifyJws_ok in E3, E3'. rewrite E3 in E3'. injection E3' as <-.
      split; [done|]. split; [done|]. rewrite R2. intros Hno. by apply Hno.
Qed.

(** C7. The composer opens exactly when every check stands.  With Web Crypto and a run that
    ends, it is open if and only if a source gave a bundle for this hostname, its chain
    validates, its payload is signed by the leaf's key and names this hostname, it is at
    most a day old, clock skew allowed for, its fingerprint is that of the TLS leaf the
    bundle publishes, and the root row proves nothing against the root: no quote that
    attests another key, and no answer that the registry signs nothing for the measurement.
    A row nobody could answer never holds it shut, and what is shown is that payload. *)
Theorem gate_unlocked_iff pg options r : runEvidenceGate double_text pg options = Ok r ->
  gr_unlocked r = true <->
  pg_subtle pg = true /\ exists bundle source parsed payload,
    examined pg options bundle source parsed payload /\ obtained pg options bundle source /\
    fresh (ep_issuedAt payload) (Some MAX_BUNDLE_AGE_MS) (default (pg_freshness_clock pg) (go_now options)) /\
    bound_to_leaf (ep_certFingerprint payload) (rb_tlsLeaf bundle) /\
    let measurement := measurementOf (ep_object payload) bundle in
    let attestation := reader_of double_text options (pc_root parsed) in
    root_open attestation measurement (lookup_of pg options) /\
    gr_evidence r = Some (gate_evidence bundle source parsed payload measurement attestation).
Proof. apply gate_opens. Qed.

(** A shut composer always says why: a run that ends locked has a row that failed. *)
Lemma locked_has_failure pg options r : runEvidenceGate double_text pg options = Ok r -> gr_unlocked r = false ->
  exists c, c ∈ gr_checks r /\ gc_status c = check_fail.
Proof.
  intros Hr Hl. apply gate_run in Hr as [(_ & _ & H)|(Hw & bundle & source & parsed & payload & b & c & s & root & registry &
      Hx & B1 & B2 & C1 & C2 & S1 & S2 & Hroot & ->)]; [done|]. cbn [gr_unlocked gr_checks] in *.
  destruct (checkFreshness_iff (ep_issuedAt payload) (default (pg_freshness_clock pg) (go_now options)) source) as (F1 & _ & F3).
  destruct (checkBinding_iff (ep_certFingerprint payload) (rb_tlsLeaf bundle)) as (D1 & _ & D3).
  set (f := checkFreshness _ _ _) in *. set (d := checkBinding _ _) in *.
  destruct (gc_status f) eqn:Ef; [|by exists f; split; [set_solver|]|done].
  destruct (gc_status d) eqn:Ed; [|by exists d; split; [set_solver|]|done].
  destruct (decide (gc_status root = check_fail)) as [Hf|Hf]; [by exists root; split; [set_solver|]|].
  apply not_true_iff_false in Hl. exfalso. apply Hl. by apply unlocks_six.
Qed.

(** A verifier that is served the document the page read, cannot see the channel, and
    applies the page's age policy at the page's time. *)
Definition same_view (pg : page) (options : GateOptions) (body : json) (rt : runtime) (params : VerifyParams) : Prop :=
  vp_hostname params = go_hostname options /\ vp_observedTlsFingerprint params = None /\
  vp_maxBundleAge params = Some MAX_BUNDLE_AGE_MS /\ vp_now params = go_now options /\
  chain_clock rt = pg_chain_clock pg /\ freshness_clock rt = pg_freshness_clock pg /\
  exists f, vp_fetcher params = Some f /\ f (evidence_url (go_hostname options)) = Ok (response true 200 (Ok body)).

Lemma validateBundleShape_of_gate body hostname bundle : shapeOf body hostname = Ok bundle -> jlength hostname <> 0 ->
  match rb_rootCaTeeQuote bundle with Some q => is_object q = true | None => True end ->
  (exists pem, rb_tlsLeaf bundle = Some pem /\ pem <> Js []) ->
  rb_hostname bundle = hostname /\
  exists ab, validateBundleShape body hostname = Ok ab /\ ab_kind ab = DeploymentEvidence /\ ab_jws ab = rb_jws bundle /\
    ab_certChain ab = rb_certChain bundle /\ ab_tlsLeaf ab = rb_tlsLeaf bundle.
Proof.
  unfold shapeOf, validateBundleShape. intros H Hh Hq (pem & Hp & Hne).
  assert (Ht : forall t v, is_text t v = true -> v = Some (JString t)).
  { intros t0 [[]|]; cbn; try done. by intros ->%jeqb_eq. }
  destruct (is_object body); cbn [negb throw_if] in H |- *; [|done].
  destruct (is_text "1" _) eqn:Ev; [apply Ht in Ev|done]. destruct (is_text "DeploymentEvidence" _) eqn:Ek; [apply Ht in Ek|done].
  destruct (is_text hostname _) eqn:En; [apply Ht in En|done]. cbn [negb throw_if] in H.
  destruct (nonempty_string (member "jws" body)) as [jws|]; [|done].
  destruct (as_string (member "certFingerprint" body)) as [fp|]; [|done].
  destruct (jstartsWith fp "sha256/"); cbn [negb throw_if] in H; [|done].
  destruct (chain_of (member "certChain" body)) as [certs|]; [|done].
  destruct (as_string (member "issuedAt" body)) as [issuedAt|]; [|done]. injection H as <-.
  cbn [rb_rootCaTeeQuote rb_tlsLeaf rb_hostname rb_jws rb_certChain] in *. split; [done|]. apply as_string_some in Hp.
  rewrite Ev, Ek, En, Hp. cbn [as_string negb mbind option_bind]. rewrite jeqb_refl. cbn [negb].
  change (KIND_VALUES "DeploymentEvidence") with (Some DeploymentEvidence).
  assert (Hs : nonempty_string (Some (JString hostname)) = Some hostname) by (by apply nonempty_string_some).
  rewrite Hs, jeqb_refl. cbn [negb].
  assert (Hl : nonempty_string (Some (JString pem)) = Some pem).
  { apply nonempty_string_some. split; [done|]. intros Hz. apply Hne. destruct pem as [[|c u]]; [done|]. unfold jlength in Hz. cbn in Hz. lia. }
  rewrite Hl. destruct (member "rootCaTeeQuote" body) as [q|]; [rewrite Hq|]; cbn [negb]; eexists; split_and!; try reflexivity; done.
Qed.

(** C26. The page and the extension's verifier agree: a document that opens the composer is
    one [verifyHostname] accepts, for this payload and with the same kind of binding,
    wherever the chain's root is trusted; provided the payload is of the kind its
    envelope says and the quote, when there is one, is an object. *)
Theorem open_composer_passes_pipeline pg options r bundle source parsed payload body rt params matched :
  runEvidenceGate double_text pg options = Ok r -> gr_unlocked r = true ->
  examined pg options bundle source parsed payload ->
  shapeOf body (go_hostname options) = Ok bundle -> jlength (go_hostname options) <> 0 ->
  same_view pg options body rt params -> trusted (vp_trustedRoots params) (pc_rootFingerprint parsed) matched ->
  ep_kind payload = DeploymentEvidence ->
  match rb_rootCaTeeQuote bundle with Some q => is_object q = true | None => True end ->
  exists ok, runPipeline rt params = Ok ok /\ ok_payload ok = payload /\ ok_channelBinding ok = producer_asserted.
Proof.
  intros Hr Hopen Hx Hshape Hlen (Hvh & Hvo & Hva & Hvn & Hcc & Hfc & f & Hvf & Hf) Htrust Hkind Hquote.
  apply (gate_opens _ _ _ Hr) in Hopen as (_ & bundle' & source' & parsed' & payload' & Hx' & _ & Hfresh & [Hbound Hne] & _).
  destruct Hx as (E1 & E2 & E3 & E4), Hx' as (E1' & E2' & E3' & _). rewrite E1 in E1'. injection E1' as <- <-.
  rewrite E2 in E2'. injection E2' as <-. pose proof E3 as E3s. apply verifyJws_ok in E3s, E3'. rewrite E3s in E3'. injection E3' as <-.
  destruct (validateBundleShape_of_gate _ _ _ Hshape Hlen Hquote) as (Hhost & ab & Hab & A1 & A2 & A3 & A4).
  { destruct Hbound as (_ & pem & c & Hp & _). exists pem. split; [done|]. intros ->. by apply Hne. }
  exists {| ok_kind := ep_kind payload; ok_payload := payload; ok_matchedRoot := matched;
            ok_rootCaTeeQuote := ab_rootCaTeeQuote ab; ok_channelBinding := producer_asserted |}.
  split_and!; [|done..]. apply runPipeline_accepts. exists ab, parsed.
  cbn [ok_kind ok_payload ok_matchedRoot ok_rootCaTeeQuote ok_channelBinding].
  rewrite Hvn, Hcc, Hfc, Hvo, Hva, Hvh, A1, A2, A3, A4, Hkind, E4, Hhost. split_and!; try done.
  exists f, 200, body. by rewrite Hvf, Hvh.
Qed.
End GateSpec.

(** ** A page to run on *)

#[local] Existing Instances toy_x509 toy_crypto toy_platform toy_registry.

Definition toy_page : page :=
  {| pg_subtle := true; pg_fetch := Some (fun _ => Ok (response true 200 (Ok toy_bundle))); pg_origin := None;
     pg_chain_clock := 600; pg_freshness_clock := 600; pg_registry := None |}.

Definition toy_options (kind : EndpointKind) : GateOptions :=
  {| go_hostname := "host"; go_endpointName := "main endpoint"; go_apiOrigin := "https://api/"; go_kind := kind; go_fetcher := None;
     go_now := None; go_pageOrigin := None; go_registryLookup := None; go_rootAttestationReader := None |}.

Definition toy_gate (kind : EndpointKind) : result jstr GateResult := runEvidenceGate (fun _ => "0") toy_page (toy_options kind).

Definition gate_or_locked (r : result jstr GateResult) : GateResult := match r with Ok r => r | Err _ => locked [] end.

Example gate_runs :
  gr_unlocked (gate_or_locked (toy_gate own)) = true /\
  map (fun c => (gc_id c, gc_status c)) (gr_checks (gate_or_locked (toy_gate own))) =
    [(bundle_check, check_pass); (chain_check, check_pass); (signature_check, check_pass); (freshness_check, check_pass);
     (binding_check, check_pass); (root_check, check_unavailable)] /\
  encodeURIComponent "main endpoint é" = Some ("main%20endpoint%20%C3%A9" : jstr) /\
  describeAge 90000 = "2 minutes ago".
Proof. vm_compute. done. Qed.

Lemma toy_examined : exists bundle parsed payload,
  examined toy_page (toy_options own) bundle from_router parsed payload /\ shapeOf toy_bundle "host" = Ok bundle /\
  ep_kind payload = DeploymentEvidence /\ pc_rootFingerprint parsed = sha256Fingerprint sha256 (units "root") /\
  rb_rootCaTeeQuote bundle = None.
Proof.
  eexists _, _, _. unfold examined. split; [split; [vm_compute; reflexivity|]; split; [vm_compute; reflexivity|]; split|].
  - apply verifyJws_ok. vm_compute. reflexivity.
  - vm_compute. reflexivity.
  - vm_compute. done.
Qed.

Lemma gate_unlocked_iff_witness :
  let r := gate_or_locked (toy_gate own) in
  gr_unlocked r = true /\
  exists bundle source parsed payload, obtained toy_page (toy_options own) bundle source /\
    examined toy_page (toy_options own) bundle source parsed payload /\
    bound_to_leaf (ep_certFingerprint payload) (rb_tlsLeaf bundle).
Proof.
  intros r. assert (Hu : gr_unlocked r = true) by (vm_compute; reflexivity). split; [exact Hu|].
  assert (Hr : runEvidenceGate (fun _ => "0") toy_page (toy_options own) = Ok r) by (vm_compute; reflexivity).
  destruct (proj1 (gate_unlocked_iff (fun _ => "0") toy_page (toy_options own) r Hr) Hu)
    as (_ & bundle & source & parsed & payload & Hx & Ho & _ & Hb & _).
  exists bundle, source, parsed, payload. split; [exact Ho|]. split; [exact Hx|exact Hb].
Defined.

Definition same_params : VerifyParams :=
  {| vp_hostname := "host"; vp_observedTlsFingerprint := None;
     vp_trustedRoots := [{| tr_name := "platform"; tr_pem := "root" |}];
     vp_fetcher := Some (fun _ => Ok (response true 200 (Ok toy_bundle))); vp_now := None;
     vp_maxBundleAge := Some MAX_BUNDLE_AGE_MS |}.

Lemma open_composer_passes_pipeline_witness :
  gr_unlocked (gate_or_locked (toy_gate own)) = true /\
  exists ok, runPipeline toy_runtime same_params = Ok ok /\ ok_channelBinding ok = producer_asserted.
Proof.
  assert (Hu : gr_unlocked (gate_or_locked (toy_gate own)) = true) by (vm_compute; reflexivity). split; [exact Hu|].
  destruct toy_examined as (bundle & parsed & payload & Hx & Hs & Hk & Hfp & Hq).
  destruct (open_composer_passes_pipeline (fun _ => "0") toy_page (toy_options own) (gate_or_locked (toy_gate own)) bundle from_router
              parsed payload toy_bundle toy_runtime same_params ("platform" : jstr, pc_rootFingerprint parsed)) as (ok & Hok & _ & Hb).
  - vm_compute. reflexivity.
  - exact Hu.
  - exact Hx.
  - exact Hs.
  - vm_compute. discriminate.
  - split; [reflexivity|]. split; [reflexivity|]. split; [reflexivity|]. split; [reflexivity|]. split; [reflexivity|].
    split; [reflexivity|]. eexists. split; reflexivity.
  - exists O, {| tr_name := "platform"; tr_pem := "root" |}. rewrite Hfp. split; [reflexivity|]. split; [reflexivity|].
    split; [vm_compute; reflexivity|]. intros j root' Hj. inversion Hj.
  - exact Hk.
  - rewrite Hq. exact I.
  - exists ok. split; [exact Hok|exact Hb].
Defined.

(** ** Where the two verifiers part

    The page compares the payload's hostname with the envelope's and not its kind, so a
    signed payload of another kind opens the composer where [verifyHostname] refuses. *)

Definition odd_payload : json :=
  JObject [("version" : jstr, JString "1"); ("kind" : jstr, JString "ControlPlaneEvidence");
           ("hostname" : jstr, JString "host"); ("issuedAt" : jstr, JString "then");
           ("certFingerprint" : jstr, JString (sha256Fingerprint sha256 (units "leaf")))].

Definition odd_platform : Platform := {|
  CryptoKey := jstr;
  export_key c := Ok (c : jstr);
  compactVerify_RS256 jws _ := Ok (units jws);
  decodeProtectedHeader _ := Ok (JObject [("alg" : jstr, JString "RS256")]);
  TextEncoder := units;
  TextDecoder := Js;
  JSON_parse s := Ok odd_payload;
  Date_parse s := Some 500;
  atob_message := "invalid"
|}.

Example other_kind_opens_the_page :
  gr_unlocked (gate_or_locked (runEvidenceGate (P := odd_platform) (fun _ => "0") toy_page (toy_options own))) = true /\
  runPipeline (P := odd_platform) toy_runtime same_params =
    Err (fail jws_stage ("payload kind " +++ quoted "ControlPlaneEvidence" +++ " does not match bundle kind " +++
                         quoted "DeploymentEvidence")).
Proof. vm_compute. done. Qed.
