(* ===== verification/TrustTiers.v ===== *)
(** * What the chat says about verification, and when

    [router-ui/…/verification/tiers.ts], [extension-bridge.ts] and
    [use-verification.ts]: the badge's ranking of the tiers, the handshake with the
    browser extension, and the hook that keeps both verdicts about the endpoint on
    screen.  React's effects are a step relation: the hook is rendered for an input, the
    effect of that render runs later, its cleanup having marked the run before it stale,
    and the promises it started settle later still, in any order.  The copy about storage is left out. *)

From S2P Require Import Prelude JsString Json Attestation X509 SpVmRegistry TeeEvidence EvidenceGate.

(** ** Tiers *)

Inductive TierId := tier_page | tier_upstream | tier_extension | tier_gatekeeper.
Inductive TierState := tier_pending | tier_pass | tier_fail | tier_unavailable.
Inductive Variant := variant_success | variant_warning | variant_secondary | variant_destructive.

Record TierPresentation := { tp_id : TierId; tp_label : jstr; tp_caveat : jstr; tp_variant : Variant }.

(** No tier of the page's own is [unavailable]; the callers never ask for one. *)
Definition PAGE_TIER (state : TierState) : TierPresentation :=
  match state with
  | tier_pending | tier_unavailable => {| tp_id := tier_page; tp_label := "Checking this endpoint"; tp_variant := variant_secondary;
      tp_caveat := "Fetching the endpoint’s signed evidence and checking it here in your browser." |}
  | tier_pass => {| tp_id := tier_page; tp_label := "Verified by this page"; tp_variant := variant_warning;
      tp_caveat := "This page checked the endpoint’s signed evidence itself — but the page came from the same deployment, so " +++
      "this is self-reported, and it does not include the check that decides whether Super Protocol vouches for " +++
      "the VM behind this endpoint. Gatekeeper makes that one, and can refuse an endpoint this page unlocked." |}
  | tier_fail => {| tp_id := tier_page; tp_label := "Evidence did not check out"; tp_variant := variant_destructive;
      tp_caveat := "The endpoint’s evidence failed a check this page can make, so the composer stays locked. Nothing is sent " +++
      "to a deployment whose evidence does not verify." |}
  end.

Definition UPSTREAM_TIER (state : TierState) : TierPresentation :=
  match state with
  | tier_pending | tier_unavailable => {| tp_id := tier_upstream; tp_label := "Checking this upstream"; tp_variant := variant_secondary;
      tp_caveat := "Fetching the copy of this upstream’s signed evidence that this router relayed, and checking it here in " +++
      "your browser." |}
  | tier_pass => {| tp_id := tier_upstream; tp_label := "Upstream evidence checked by this page"; tp_variant := variant_warning;
      tp_caveat := "This page checked the signature on the document this router relayed for the upstream — a copy of what " +++
      "that deployment published, which may be older than what its own host serves now. It is that deployment’s " +++
      "own claim about itself, verified here, and this check is not the one that decides whether your prompt may " +++
      "be sent." |}
  | tier_fail => {| tp_id := tier_upstream; tp_label := "Upstream evidence did not check out"; tp_variant := variant_destructive;
      tp_caveat := "This page could not verify the copy of the upstream’s evidence that this router relayed. Nothing on this " +++
      "screen is gated by that result: this panel unlocks nothing and locks nothing. What failed is the document " +++
      "this page read, which is not by itself a verdict on the channel the egress pinned." |}
  end.

Definition EXTENSION_TIER (state : TierState) : TierPresentation :=
  match state with
  | tier_pending => {| tp_id := tier_extension; tp_label := "Asking the extension"; tp_variant := variant_secondary;
      tp_caveat := "Waiting for the Super Protocol extension to verify this endpoint independently." |}
  | tier_pass => {| tp_id := tier_extension; tp_label := "Independently verified by the extension"; tp_variant := variant_success;
      tp_caveat := "The Super Protocol extension fetched and verified this endpoint’s evidence itself, with code this " +++
      "deployment did not serve." |}
  | tier_fail => {| tp_id := tier_extension; tp_label := "The extension refused this endpoint"; tp_variant := variant_destructive;
      tp_caveat := "The extension verified independently and did not accept this endpoint. Trust its answer over this page’s: " +++
      "it is the one the deployment cannot influence." |}
  | tier_unavailable => {| tp_id := tier_extension; tp_label := "No extension detected"; tp_variant := variant_secondary;
      tp_caveat := "Install the Super Protocol extension for a verification this deployment cannot influence." |}
  end.

Definition GATEKEEPER_TIER : TierPresentation :=
  {| tp_id := tier_gatekeeper; tp_label := "Verify it yourself"; tp_variant := variant_secondary;
     tp_caveat := "Gatekeeper runs on your machine, compares the live TLS certificate it observes with the one the evidence " +++
       "signs, and rebuilds the VM measurement from Super Protocol’s signed artefacts. It is the only complete " +++
       "check, and the one production traffic should go through." |}.

Definition badgeTier (page extension : TierState) (kind : EndpointKind) : TierPresentation :=
  match kind with
  | external => UPSTREAM_TIER (match page with tier_unavailable => tier_pending | _ => page end)
  | own =>
      match extension, page with
      | tier_fail, _ => EXTENSION_TIER tier_fail
      | _, tier_fail => PAGE_TIER tier_fail
      | tier_pass, _ => EXTENSION_TIER tier_pass
      | tier_pending, _ | _, tier_pending => PAGE_TIER tier_pending
      | _, tier_pass => PAGE_TIER tier_pass
      | _, _ => PAGE_TIER tier_pending
      end
  end.

Definition pageTierState (gate : option GateResult) : TierState :=
  match gate with
  | None => tier_pending
  | Some gate => if gr_unlocked gate then tier_pass else tier_fail
  end.

Definition lockedReasonOf (gate : option GateResult) : jstr :=
  match gate with
  | None => tp_caveat (PAGE_TIER tier_pending)
  | Some gate =>
      match find_first (fun c => bool_decide (gc_status c = check_fail)) (gr_checks gate) with
      | Some failed => gc_detail failed
      | None => tp_caveat (PAGE_TIER tier_pending)
      end
  end.

Definition gatekeeperDivergenceNote (gate : option GateResult) : option jstr :=
  match gate ≫= fun g => find_first (fun c => bool_decide (gc_id c = root_check)) (gr_checks g) with
  | None => None
  | Some root =>
      match gc_status root with
      | check_pass => None
      | check_fail => Some
          ("Expect Gatekeeper to refuse this endpoint. This page already found the root check failing, and Gatekeeper " +++
           "enforces it — its answer is the authoritative one.")
      | check_unavailable => Some
          ("These commands may end in a refusal rather than a confirmation. Gatekeeper rebuilds the VM measurement " +++
           "and checks it against Super Protocol’s registry — the one check above that this page could not complete — " +++
           "so it can deny an endpoint this page unlocked. Its answer is the authoritative one either way.")
      end
  end.

Definition bundleSourceNote (source : BundleSource) : jstr :=
  match source with
  | from_endpoint => "Fetched directly from the endpoint, the same document Gatekeeper reads."
  | from_router =>
      "The endpoint would not serve this page a cross-origin request, so the bundle came from this router’s " +++
      "public passthrough. The signature was still checked here — but it may be older than what the endpoint " +++
      "serves right now."
  end.

(** ** The extension bridge *)

Definition BRIDGE_VERSION : jstr := "1".   (* as the number prints *)
Definition PAGE_SOURCE : jstr := "swarm-router-console".
Definition EXTENSION_SOURCE : jstr := "swarm-extension".

Record ExtensionVerdict := {
  xv_ok : bool;
  xv_stage : option jstr;
  xv_reason : option jstr;
  xv_rootName : option jstr;
  xv_channelBinding : option ChannelBinding;
  xv_extensionVersion : option jstr
}.

Inductive BridgeOutcome := bridge_absent | bridge_verified (verdict : ExtensionVerdict) | bridge_refused (verdict : ExtensionVerdict).

(** A window, by identity, and what it posts. *)
Record MessageEvent := { me_source : N; me_data : option json }.

Definition is_number (t : jstr) (v : option json) : bool := match v with Some (JNumber n) => jeqb n t | _ => false end.

Definition channel_binding (v : option json) : option ChannelBinding :=
  if is_text "observed" v then Some observed else if is_text "producer-asserted" v then Some producer_asserted else None.

Definition verdictOf (event : MessageEvent) (expectedId : jstr) (expectedSource : N) : option ExtensionVerdict :=
  if negb (me_source event =? expectedSource)%N then None
  else
    match me_data event with
    | Some data =>
        if negb (is_object data) then None
        else if negb (is_text EXTENSION_SOURCE (member "source" data)) then None
        else if negb (is_text "verify-result" (member "type" data)) then None
        else if negb (is_number BRIDGE_VERSION (member "version" data)) then None
        else if negb (is_text expectedId (member "id" data)) then None
        else
          match member "ok" data with
          | Some (JBool ok) =>
              Some {| xv_ok := ok; xv_stage := as_string (member "stage" data); xv_reason := as_string (member "reason" data);
                      xv_rootName := as_string (member "rootName" data); xv_channelBinding := channel_binding (member "channelBinding" data);
                      xv_extensionVersion := as_string (member "extensionVersion" data) |}
          | _ => None
          end
    | None => None
    end.

(** What reaches the page after the request is posted, in order. *)
Inductive bridge_event := Message (event : MessageEvent) | Timeout.

(** [finish]: the first event that settles removes the listener and the timer.  [None]
    is a promise still pending; [target] is [None] outside a browser. *)
Fixpoint settle (id : jstr) (target : N) (events : list bridge_event) : option BridgeOutcome :=
  match events with
  | [] => None
  | Timeout :: _ => Some bridge_absent
  | Message event :: events =>
      match verdictOf event id target with
      | Some verdict => Some (if xv_ok verdict then bridge_verified verdict else bridge_refused verdict)
      | None => settle id target events
      end
  end.

Definition requestExtensionVerification (target : option N) (id : jstr) (events : list bridge_event) : option BridgeOutcome :=
  match target with Some target => settle id target events | None => Some bridge_absent end.

Definition extensionTierState (outcome : option BridgeOutcome) : TierState :=
  match outcome with
  | None => tier_pending
  | Some bridge_absent => tier_unavailable
  | Some (bridge_verified _) => tier_pass
  | Some (bridge_refused _) => tier_fail
  end.

(** ** The hook *)

Record VerificationInput := { vi_hostname : option jstr; vi_endpointName : option jstr; vi_kind : EndpointKind }.

(** What an effect's run asks about. *)
Record Question := { qu_hostname : jstr; qu_endpointName : jstr; qu_kind : EndpointKind }.

(** [vs_runs]: what each run of the effect started, in order; the last is the current one.
    [vs_input] is what the hook was last rendered for, [vs_pending] whether the effect of
    that render is still to run. *)
Record VerificationState := {
  vs_input : VerificationInput;
  vs_pending : bool;
  vs_runs : list (option Question);
  vs_gate : option GateResult;
  vs_checkedAt : option Z;
  vs_extension : option BridgeOutcome
}.

(** [if (!hostname || !endpointName) return] *)
Definition question_of (input : VerificationInput) : option Question :=
  match vi_hostname input, vi_endpointName input with
  | Some hostname, Some endpointName =>
      if (jlength hostname =? 0) || (jlength endpointName =? 0) then None
      else Some {| qu_hostname := hostname; qu_endpointName := endpointName; qu_kind := vi_kind input |}
  | _, _ => None
  end.

(** The argument of [runEvidenceGate]. *)
Definition question_options `{L : X509Library} (apiOrigin : jstr) (q : Question) : GateOptions :=
  {| go_hostname := qu_hostname q; go_endpointName := qu_endpointName q; go_apiOrigin := apiOrigin; go_kind := qu_kind q;
     go_fetcher := None; go_now := None; go_pageOrigin := None; go_registryLookup := None; go_rootAttestationReader := None |}.

Definition mounted (input : VerificationInput) : VerificationState :=
  {| vs_input := input; vs_pending := true; vs_runs := []; vs_gate := None; vs_checkedAt := None; vs_extension := None |}.

(** The hook is rendered again: what it kept is shown beside the new input. *)
Definition rendered (input : VerificationInput) (s : VerificationState) : VerificationState :=
  {| vs_input := input; vs_pending := true; vs_runs := vs_runs s; vs_gate := vs_gate s; vs_checkedAt := vs_checkedAt s;
     vs_extension := vs_extension s |}.

(** The effect: its cleanup has made the run before it stale, and both answers are let go. *)
Definition run_effect (s : VerificationState) : VerificationState :=
  let question := question_of (vs_input s) in
  {| vs_input := vs_input s; vs_pending := false; vs_runs := vs_runs s ++ [question]; vs_gate := None; vs_checkedAt := None;
     vs_extension := match question with
                     | Some q => match qu_kind q with external => Some bridge_absent | own => None end
                     | None => None
                     end |}.

(** [current] of a run. *)
Definition is_current (run : nat) (s : VerificationState) : bool := (S run =? length (vs_runs s))%nat.

Definition gate_settled (run : nat) (result : GateResult) (now : Z) (s : VerificationState) : VerificationState :=
  if is_current run s
  then {| vs_input := vs_input s; vs_pending := vs_pending s; vs_runs := vs_runs s; vs_gate := Some result; vs_checkedAt := Some now;
          vs_extension := vs_extension s |}
  else s.

Definition extension_settled (run : nat) (outcome : BridgeOutcome) (s : VerificationState) : VerificationState :=
  if is_current run s
  then {| vs_input := vs_input s; vs_pending := vs_pending s; vs_runs := vs_runs s; vs_gate := vs_gate s;
          vs_checkedAt := vs_checkedAt s; vs_extension := Some outcome |}
  else s.

Definition unlocked (s : VerificationState) : bool := match vs_gate s with Some gate => gr_unlocked gate | None => false end.

Section Hook.
(** What the gate and the bridge may answer a question. *)
Context (gate_answers : Question -> GateResult -> Prop) (bridge_answers : Question -> BridgeOutcome -> Prop).

(** A promise settles for the run that started it; the bridge is asked for own endpoints only. *)
Inductive hook_step (s : VerificationState) : VerificationState -> Prop :=
| step_render input : hook_step s (rendered input s)
| step_effect : hook_step s (run_effect s)
| step_gate run q result now :
    vs_runs s !! run = Some (Some q) -> gate_answers q result -> hook_step s (gate_settled run result now s)
| step_extension run q outcome :
    vs_runs s !! run = Some (Some q) -> qu_kind q = own -> bridge_answers q outcome ->
    hook_step s (extension_settled run outcome s).

Inductive hook_reaches : VerificationState -> Prop :=
| reach_mounted input : hook_reaches (mounted input)
| reach_step s s' : hook_reaches s -> hook_step s s' -> hook_reaches s'.

(** The question of the current run. *)
Definition asking (s : VerificationState) : option Question :=
  match last (vs_runs s) with Some q => q | None => None end.

Record hook_ok (s : VerificationState) : Prop := {
  ho_gate : forall g, vs_gate s = Some g -> exists q, asking s = Some q /\ gate_answers q g;
  ho_extension : forall o, vs_extension s = Some o -> exists q, asking s = Some q /\
                   match qu_kind q with own => bridge_answers q o | external => o = bridge_absent end;
  ho_checked : is_Some (vs_checkedAt s) <-> is_Some (vs_gate s);
  ho_asking : vs_pending s = false -> asking s = question_of (vs_input s)
}.

Lemma current_question run q s : is_current run s = true -> vs_runs s !! run = Some (Some q) -> asking s = Some q.
Proof.
  unfold is_current, asking. intros Hc%Nat.eqb_eq Hr. rewrite last_lookup. replace (Nat.pred (length (vs_runs s))) with run by lia.
  by rewrite Hr.
Qed.

Lemma hook_reaches_ok s : hook_reaches s -> hook_ok s.
Proof.
  induction 1 as [input|s s' _ IH Hstep]; [split; [done|done|split; by intros [? ?]|done]|]. destruct IH as [H1 H2 H3 H4].
  destruct Hstep as [input| |run q result now Hr Ha|run q outcome Hr Hk Ha].
  - by split.
  - unfold run_effect. split; cbn; [done| |split; by intros [? ?]|].
    + unfold asking. cbn [vs_runs]. rewrite last_snoc. intros o.
      destruct (question_of (vs_input s)) as [q|]; [|done]. destruct (qu_kind q) eqn:Ek; [done|]. intros [= <-]. exists q. by rewrite Ek.
    + unfold asking. cbn [vs_runs]. by rewrite last_snoc.
  - unfold gate_settled. destruct (is_current run s) eqn:Ec; [|by split].
    pose proof (current_question _ _ _ Ec Hr) as Hq. split; cbn; [|exact H2|by split; intros _; eauto|exact H4].
    intros g [= <-]. by exists q.
  - unfold extension_settled. destruct (is_current run s) eqn:Ec; [|by split].
    pose proof (current_question _ _ _ Ec Hr) as Hq. split; cbn; [exact H1| |exact H3|exact H4].
    intros o [= <-]. exists q. by rewrite Hk.
Qed.
End Hook.

(** ** Properties *)

(** A stronger word only for a stronger thing: the badge says "independently verified"
    exactly when the endpoint is our own, the extension accepted it and the page did not
    refuse it; it is never the colour of success otherwise; a refusal outranks every pass;
    and the tier of an upstream says nothing about the composer. *)
Theorem badge_never_overstates page extension kind :
  let badge := badgeTier page extension kind in
  (tp_variant badge = variant_success <-> kind = own /\ extension = tier_pass /\ page <> tier_fail) /\
  (badge = EXTENSION_TIER tier_pass <-> tp_variant badge = variant_success) /\
  (badge = PAGE_TIER tier_pass <-> kind = own /\ page = tier_pass /\ extension = tier_unavailable) /\
  (kind = own -> extension = tier_fail -> badge = EXTENSION_TIER tier_fail) /\
  (kind = own -> extension <> tier_fail -> page = tier_fail -> badge = PAGE_TIER tier_fail) /\
  (kind = external -> tp_id badge = tier_upstream /\ jincludes (tp_caveat badge) "composer" = false).
Proof. destruct page, extension, kind; vm_compute; naive_solver. Qed.

Lemma badge_never_overstates_witness :
  badgeTier tier_pass tier_fail own = EXTENSION_TIER tier_fail /\ badgeTier tier_fail tier_pass own = PAGE_TIER tier_fail.
Proof.
  split.
  - apply (badge_never_overstates tier_pass tier_fail own); reflexivity.
  - apply (badge_never_overstates tier_fail tier_pass own); [reflexivity|discriminate|reflexivity].
Defined.

Lemma verdictOf_some event id target v : verdictOf event id target = Some v ->
  me_source event = target /\ exists data, me_data event = Some data /\
    member "source" data = Some (JString EXTENSION_SOURCE) /\ member "type" data = Some (JString "verify-result") /\
    member "version" data = Some (JNumber BRIDGE_VERSION) /\ member "id" data = Some (JString id) /\
    member "ok" data = Some (JBool (xv_ok v)).
Proof.
  unfold verdictOf. destruct (N.eqb_spec (me_source event) target) as [Hs|]; cbn [negb]; [|done].
  destruct (me_data event) as [data|]; [|done]. destruct (is_object data); cbn [negb]; [|done].
  assert (Ht : forall t o, is_text t o = true -> o = Some (JString t)).
  { intros t0 [[]|]; cbn; try done. by intros ->%jeqb_eq. }
  assert (Hn : forall t o, is_number t o = true -> o = Some (JNumber t)).
  { intros t0 [[]|]; cbn; try done. by intros ->%jeqb_eq. }
  destruct (is_text EXTENSION_SOURCE _) eqn:E1; [apply Ht in E1|done].
  destruct (is_text "verify-result" _) eqn:E2; [apply Ht in E2|done].
  destruct (is_number BRIDGE_VERSION _) eqn:E3; [apply Hn in E3|done].
  destruct (is_text id _) eqn:E4; [apply Ht in E4|done]. cbn [negb].
  destruct (member "ok" data) as [[]|] eqn:E5; try done. intros [= <-]. split; [done|]. by exists data.
Qed.

Lemma settle_skip id target pre rest : Forall (fun e => exists m, e = Message m /\ verdictOf m id target = None) pre ->
  settle id target (pre ++ rest) = settle id target rest.
Proof. induction 1 as [|e pre (m & -> & Hm) _ IH]; [done|]. cbn [app settle]. by rewrite Hm. Qed.

(** The handshake settles once, on the first answer to its own question that was posted
    into its own window by a speaker of its protocol, and only before the timer; whatever
    else arrives, and whatever follows, changes nothing.  An answer posted from another
    window, for another question or in another version is never a verdict. *)
Theorem bridge_settles_once id target events outcome :
  settle id target events = Some outcome <->
  exists pre post, Forall (fun e => exists m, e = Message m /\ verdictOf m id target = None) pre /\
    ((outcome = bridge_absent /\ events = pre ++ Timeout :: post) \/
     exists m v, events = pre ++ Message m :: post /\ verdictOf m id target = Some v /\ me_source m = target /\
       (exists data, me_data m = Some data /\ member "id" data = Some (JString id) /\ member "ok" data = Some (JBool (xv_ok v))) /\
       outcome = if xv_ok v then bridge_verified v else bridge_refused v).
Proof.
  split.
  - induction events as [|[m|] events IH]; cbn [settle]; [done| |].
    + destruct (verdictOf m id target) as [v|] eqn:Ev.
      * intros [= <-]. exists [], events. split; [constructor|]. right. exists m, v.
        pose proof (verdictOf_some _ _ _ _ Ev) as (Hs & data & Hd & _ & _ & _ & Hi & Ho). split_and!; try done. by exists data.
      * intros (pre & post & Hpre & Hc)%IH. exists (Message m :: pre), post. split; [constructor; [by exists m|done]|].
        destruct Hc as [[-> ->]|(m' & v & -> & ?)]; [by left|right; by exists m', v].
    + intros [= <-]. exists [], events. split; [constructor|by left].
  - intros (pre & post & Hpre & Hc).
    rewrite Forall_forall in Hpre. destruct Hc as [[-> ->]|(m & v & -> & Hv & _ & _ & ->)];
      (rewrite settle_skip by (by apply Forall_forall)); cbn [settle]; [done|]. by rewrite Hv.
Qed.

Lemma shapeOf_hostname body hostname bundle : shapeOf body hostname = Ok bundle -> rb_hostname bundle = hostname.
Proof. unfold shapeOf, throw_if. intros H. inv_match; done. Qed.

(** C20. The composer is open only over a verdict on one endpoint, the one the hook's last
    effect asked about, and with no effect outstanding that is the endpoint on screen.
    In every state the hook reaches, with any interleaving of renders, effects and late
    answers, an open composer holds the gate's result for that question: a bundle of that
    hostname, obtained from the host itself or from the router's relay under that endpoint
    name (the relay alone for an upstream), with a good chain and signature, a signed
    payload naming that hostname and issued within the age limit, the leaf the bundle
    publishes, and a root the registry does not refuse; and the evidence shown is it. *)
Theorem open_composer_is_current `{P : Platform} {C : Crypto} {R : RegistryPlatform} double_text apiOrigin pg bridge_answers s :
  hook_reaches (fun q r => runEvidenceGate double_text pg (question_options apiOrigin q) = Ok r) bridge_answers s ->
  unlocked s = true ->
  exists q g bundle source parsed payload,
    asking s = Some q /\ (vs_pending s = false -> question_of (vs_input s) = Some q) /\ vs_gate s = Some g /\
    let options := question_options apiOrigin q in
    examined pg options bundle source parsed payload /\ obtained pg options bundle source /\
    rb_hostname bundle = qu_hostname q /\ ep_hostname payload = qu_hostname q /\ (qu_kind q = external -> source = from_router) /\
    fresh (ep_issuedAt payload) (Some MAX_BUNDLE_AGE_MS) (pg_freshness_clock pg) /\
    bound_to_leaf (ep_certFingerprint payload) (rb_tlsLeaf bundle) /\
    let measurement := measurementOf (ep_object payload) bundle in
    let attestation := reader_of double_text options (pc_root parsed) in
    root_open attestation measurement (lookup_of pg options) /\
    gr_evidence g = Some (gate_evidence bundle source parsed payload measurement attestation).
Proof.
  intros Hs Hu. apply hook_reaches_ok in Hs as [Hg _ _ Hask]. unfold unlocked in Hu.
  destruct (vs_gate s) as [g|] eqn:Eg; [|done]. destruct (Hg g eq_refl) as [q [Hq Hr]].
  destruct (proj1 (gate_opens double_text _ _ _ Hr) Hu) as (_ & bundle & source & parsed & payload & Hx & Ho & Hf & Hb & Hroot & Hev).
  pose proof Ho as (f & url & status & body & _ & _ & Hshape & Hsource). apply shapeOf_hostname in Hshape.
  exists q, g, bundle, source, parsed, payload. cbv zeta. split; [done|]. split; [intros Hp; by rewrite <- (Hask Hp)|]. split; [done|].
  pose proof Hx as (_ & _ & _ & Hn). split; [exact Hx|]. split; [exact Ho|]. split; [exact Hshape|]. split; [exact (eq_trans Hn Hshape)|]. split; [|split; [exact Hf|split; [exact Hb|split; [exact Hroot|exact Hev]]]].
  intros He. destruct source; [|done]. destruct Hsource as [_ Hown]. cbn [question_options go_kind] in Hown. congruence.
Qed.

(** A locked screen says why: whenever the gate has answered and the composer is shut,
    the sentence shown is the detail of the first row that failed. *)
Theorem locked_reason_is_a_failure `{P : Platform} {C : Crypto} {R : RegistryPlatform} double_text pg options r :
  runEvidenceGate double_text pg options = Ok r -> gr_unlocked r = false ->
  pageTierState (Some r) = tier_fail /\
  exists pre c post, gr_checks r = pre ++ c :: post /\ gc_status c = check_fail /\
    Forall (fun x => gc_status x <> check_fail) pre /\ lockedReasonOf (Some r) = gc_detail c.
Proof.
  intros Hr Hl. destruct (locked_has_failure double_text pg options r Hr Hl) as (c & Hc & Hf).
  split; [unfold pageTierState; by rewrite Hl|]. unfold lockedReasonOf. clear Hr Hl. revert Hc.
  induction (gr_checks r) as [|x l IH]; intros Hc; [by apply not_elem_of_nil in Hc|]. cbn [find_first List.find].
  case_bool_decide as Hx.
  - exists [], x, l. by split_and!.
  - apply elem_of_cons in Hc as [->|Hc]; [done|]. destruct (IH Hc) as (pre & c' & post & -> & ? & ? & ?).
    exists (x :: pre), c', post. split_and!; [done|done|by constructor|done].
Qed.

(** ** A screen to run on *)

#[local] Existing Instances toy_x509 toy_crypto toy_platform toy_registry.

Definition shown_input : VerificationInput :=
  {| vi_hostname := Some "host"; vi_endpointName := Some "main"; vi_kind := own |}.

Definition other_input : VerificationInput :=
  {| vi_hostname := Some "elsewhere"; vi_endpointName := Some "main"; vi_kind := own |}.

Definition shown_gate : GateResult :=
  gate_or_locked (runEvidenceGate (fun _ => "0") toy_page (question_options "https://api/" {| qu_hostname := "host"; qu_endpointName := "main"; qu_kind := own |})).

(** The answer arrives for the run on screen, and for a run already left. *)
Definition answered_screen : VerificationState := gate_settled 0 shown_gate 7 (run_effect (mounted shown_input)).
Definition switched_screen : VerificationState :=
  gate_settled 0 shown_gate 7 (run_effect (rendered other_input (run_effect (mounted shown_input)))).

Example stale_answer_is_dropped : unlocked answered_screen = true /\ unlocked switched_screen = false /\ vs_gate switched_screen = None.
Proof. vm_compute. done. Qed.

(** Between a switch's render and its effect the verdict of the endpoint left still holds
    the composer open. *)
Example a_frame_shows_the_old_verdict :
  let s := rendered other_input answered_screen in
  unlocked s = true /\ question_of (vs_input s) <> asking s /\ unlocked (run_effect s) = false.
Proof. split; [vm_compute; reflexivity|]. split; [vm_compute; discriminate|vm_compute; reflexivity]. Qed.

Lemma open_composer_is_current_witness :
  unlocked answered_screen = true /\ vs_pending answered_screen = false /\
  exists q bundle source parsed payload, question_of (vs_input answered_screen) = Some q /\ qu_hostname q = "host" /\
    examined toy_page (question_options "https://api/" q) bundle source parsed payload /\ ep_hostname payload = qu_hostname q /\
    bound_to_leaf (ep_certFingerprint payload) (rb_tlsLeaf bundle).
Proof.
  assert (Hu : unlocked answered_screen = true) by (vm_compute; reflexivity). split; [exact Hu|].
  assert (Hp : vs_pending answered_screen = false) by (vm_compute; reflexivity). split; [exact Hp|].
  destruct (open_composer_is_current (fun _ => "0") "https://api/" toy_page (fun _ _ => True) answered_screen) as
    (q & g & bundle & source & parsed & payload & _ & Hq & _ & Hx & _ & _ & Hh & _ & _ & Hb & _).
  - eapply reach_step; [eapply reach_step; [apply (reach_mounted _ _ shown_input)|apply step_effect]|].
    eapply step_gate; [reflexivity|]. vm_compute. reflexivity.
  - exact Hu.
  - specialize (Hq Hp). exists q, bundle, source, parsed, payload. split; [exact Hq|].
    split; [vm_compute in Hq; injection Hq as <-; reflexivity|]. split; [exact Hx|]. split; [exact Hh|exact Hb].
Defined.

Lemma locked_reason_is_a_failure_witness :
  let dark := {| pg_subtle := false; pg_fetch := None; pg_origin := None; pg_chain_clock := 0; pg_freshness_clock := 0; pg_registry := None |} in
  let r := gate_or_locked (runEvidenceGate (fun _ => "0") dark (toy_options own)) in
  pageTierState (Some r) = tier_fail /\ lockedReasonOf (Some r) = no_webcrypto /\
  exists pre c post, gr_checks r = pre ++ c :: post /\ gc_status c = check_fail.
Proof.
  intros dark r. destruct (locked_reason_is_a_failure (fun _ => "0") dark (toy_options own) r) as (Hp & pre & c & post & Hc & Hf & _).
  - reflexivity.
  - reflexivity.
  - split; [exact Hp|]. split; [reflexivity|]. exists pre, c, post. split; [exact Hc|exact Hf].
Defined.
