(* ===== verification/ImportPlan.v ===== *)
(** * What an import would do

    [data-migration/import-plan.ts] over the document of [data-migration/export-bundle.ts].
    The plan is pure: it reads a bundle and a picture of what the deployment holds
    and answers the rows to create, the rows already here and what stands in the way.

    Instants and amounts are the texts the bundle carries.  A loop whose turns do not
    see each other is a judgement of one row, and the counters, the conflicts and the
    rows to write are read off the judgements. *)

From S2P Require Import Prelude JsString Json Money Store Workspaces InviteAdmin ApiKeys ExternalCatalog.

(** ** The bundle's data *)

Inductive ExportedRole := role_admin | role_user.
Inductive ExportedStatus := code_unredeemed | code_redeemed | code_withdrawn | code_expired.

#[global] Instance exported_status_eq_dec : EqDecision ExportedStatus.
Proof. solve_decision. Defined.

Record ExportedUser := {
  bu_id : jstr;
  bu_email : jstr;
  bu_name : jstr;
  bu_emailVerified : bool;
  bu_image : option jstr;
  bu_createdAt : jstr;
  bu_role : ExportedRole;
  bu_origin : SignUpOrigin;
  bu_invitedByCodeId : option jstr
}.

Record ExportedWorkspace := {
  bw_id : jstr;
  bw_name : jstr;
  bw_slug : jstr;
  bw_balanceMicros : jstr;
  bw_stripeCustomerId : option jstr;
  bw_autoTopUpEnabled : bool;
  bw_autoTopUpThresholdMicros : option jstr;
  bw_autoTopUpAmountMicros : option jstr;
  bw_autoTopUpLastAt : option jstr;
  bw_firstRequestAt : option jstr;
  bw_createdAt : jstr
}.

Record ExportedMember := { bm_workspaceId : jstr; bm_userId : jstr; bm_role : WorkspaceRole; bm_createdAt : jstr }.

Record ExportedEntry := {
  bl_id : jstr;
  bl_workspaceId : jstr;
  bl_kind : CreditTransactionKind;
  bl_amountMicros : jstr;
  bl_reference : option jstr;
  bl_description : option jstr;
  bl_idempotencyKey : jstr;
  bl_createdAt : jstr
}.

Record ExportedInviteCode := {
  bc_id : jstr;
  bc_value : jstr;
  bc_campaign : jstr;
  bc_grantMicros : jstr;
  bc_maxRedemptions : Z;
  bc_redemptionCount : Z;
  bc_status : ExportedStatus;
  bc_expiresAt : option jstr;
  bc_withdrawnAt : option jstr;
  bc_note : option jstr;
  bc_issuedByUserId : option jstr;
  bc_createdAt : jstr
}.

Record ExportedRedemption := {
  br_id : jstr;
  br_inviteCodeId : jstr;
  br_userId : jstr;
  br_workspaceId : jstr;
  br_creditTransactionId : jstr;
  br_redeemedAt : jstr
}.

Record ExportedApiKey := {
  bk_id : jstr;
  bk_workspaceId : jstr;
  bk_name : jstr;
  bk_keyHash : jstr;
  bk_prefix : jstr;
  bk_purpose : option ApiKeyPurpose;
  bk_modelScope : option (list jstr);
  bk_spendLimitMicros : option jstr;
  bk_spentTotalMicros : jstr;
  bk_requestsPerMinute : option Z;
  bk_tokensPerMinute : option Z;
  bk_expiresAt : option jstr;
  bk_lastUsedAt : option jstr;
  bk_revokedAt : option jstr;
  bk_createdByUserId : option jstr;
  bk_createdAt : jstr
}.

Record ExportedModel := {
  bo_id : jstr;
  bo_name : jstr;
  bo_upstreamModel : jstr;
  bo_contextLength : Z;
  bo_capabilities : list ModelCapability;
  bo_promptPer1mMicros : jstr;
  bo_completionPer1mMicros : jstr;
  bo_enabled : bool
}.

Record ExportedExternalEndpoint := {
  be_id : jstr;
  be_name : jstr;
  be_baseUrl : jstr;
  be_listenPort : Z;
  be_enabled : bool;
  be_pinnedEvidenceDigest : option jstr;
  be_createdByUserId : option jstr;
  be_createdAt : jstr;
  be_models : list ExportedModel
}.

Record ExportedMeasurement := {
  bt_id : jstr;
  bt_measurement : jstr;
  bt_note : option jstr;
  bt_addedByUserId : option jstr;
  bt_addedAt : jstr
}.

Record ExportData := {
  bd_users : list ExportedUser;
  bd_workspaces : list ExportedWorkspace;
  bd_workspaceMembers : list ExportedMember;
  bd_creditLedger : list ExportedEntry;
  bd_inviteCodes : list ExportedInviteCode;
  bd_inviteRedemptions : list ExportedRedemption;
  bd_apiKeys : list ExportedApiKey;
  bd_externalEndpoints : list ExportedExternalEndpoint;
  bd_trustedMeasurements : list ExportedMeasurement
}.

(** ** What is here, and the plan *)

Record LocalMember := { lm_workspaceId : jstr; lm_userId : jstr; lm_role : WorkspaceRole }.

(** The two columns each table is compared by: the id and the one named beside it. *)
Record LocalState := {
  here_users : list (jstr * jstr);               (* email *)
  here_workspaces : list (jstr * jstr);          (* slug *)
  here_members : list LocalMember;
  here_ledger : list (jstr * jstr);              (* idempotencyKey *)
  here_inviteCodes : list (jstr * jstr);         (* code *)
  here_redemptions : list (jstr * jstr);         (* userId *)
  here_apiKeys : list (jstr * jstr);             (* keyHash *)
  here_externalEndpoints : list (jstr * jstr);   (* name *)
  here_models : list (jstr * option jstr);       (* externalEndpointId *)
  here_trustedMeasurements : list (jstr * jstr)  (* measurement *)
}.

Inductive SectionName :=
| s_users | s_workspaces | s_workspaceMembers | s_creditLedger | s_inviteCodes | s_inviteRedemptions | s_apiKeys
| s_externalEndpoints | s_externalModels | s_trustedMeasurements.

Record SectionPlan := {
  sp_section : SectionName;
  sp_inBundle : Z;
  sp_toCreate : Z;
  sp_alreadyPresent : Z;
  sp_conflicts : list jstr
}.

Record ImportPlan := {
  ip_refusals : list jstr;
  ip_sections : list SectionPlan;
  ip_notes : list jstr;
  ip_writes : ExportData;
  ip_touchedWorkspaceIds : list jstr
}.

Definition planIsClean (plan : ImportPlan) : bool :=
  bool_decide (ip_refusals plan = []) && forallb (fun s => bool_decide (sp_conflicts s = [])) (ip_sections plan).

(** ** Maps and sets of the source *)

(** [new Map(l).get(k)]: of equal keys the last one counts. *)
Definition map_get {A} (k : jstr) (l : list (jstr * A)) : option A :=
  snd <$> find_first (fun kv => jeqb (fst kv) k) (reverse l).

Definition has_key {A} (k : jstr) (l : list (jstr * A)) : bool := existsb (fun kv => jeqb (fst kv) k) l.
Definition has_value (v : jstr) (l : list (jstr * jstr)) : bool := existsb (fun kv => jeqb (snd kv) v) l.
Definition by_value (l : list (jstr * jstr)) : list (jstr * jstr) := map (fun kv => (snd kv, fst kv)) l.

(** [text.split(from).join(to)]; cutting at nothing cuts between the units. *)
Fixpoint replace_from (fuel : nat) (from to u : list N) : list N :=
  match fuel, u with
  | O, _ | _, [] => u
  | S fuel, c :: r =>
      if prefixb from u then to ++ replace_from fuel from to (drop (length from) u) else c :: replace_from fuel from to r
  end.

Definition split_join (from to s : jstr) : jstr :=
  match units from with
  | [] => jjoin to (map (fun c => Js [c]) (units s))
  | _ => Js (replace_from (length (units s)) (units from) (units to) (units s))
  end.

Definition newline : jstr := Js [10%N].

(** ** The bundle against itself *)

Section Plan.
Context (toLowerCase : jstr -> jstr).

Definition lower (value : jstr) : jstr := toLowerCase (jtrim value).

(** [BigInt(text)] of an amount the schema has checked. *)
Definition BigInt (text : jstr) : Z := Number_of_integer (units text).

Definition ledger_sums (ledger : list ExportedEntry) : gmap jstr Z :=
  foldl (fun sums e => <[bl_workspaceId e := default 0 (sums !! bl_workspaceId e) + BigInt (bl_amountMicros e)]> sums) ∅ ledger.

Definition missing {A} (what : jstr) (rows : list A) : list jstr :=
  match rows with [] => [] | _ => [jstring_of_Z (Z.of_nat (length rows)) +++ " " +++ what] end.

Definition duplicated (label : jstr) (values : list jstr) : list jstr :=
  if (length (distinct [] values) =? length values)%nat then []
  else ["The export lists the same " +++ label +++ " more than once."].

Definition bundleInconsistencies (data : ExportData) : list jstr :=
  let user id := listed id (map bu_id (bd_users data)) in
  let workspace id := listed id (map bw_id (bd_workspaces data)) in
  let entry id := listed id (map bl_id (bd_creditLedger data)) in
  let code id := listed id (map bc_id (bd_inviteCodes data)) in
  missing "workspace membership(s) name an account or workspace the export does not carry."
    (List.filter (fun r => negb (user (bm_userId r)) || negb (workspace (bm_workspaceId r))) (bd_workspaceMembers data)) ++
  missing "ledger entr(y/ies) belong to a workspace the export does not carry."
    (List.filter (fun r => negb (workspace (bl_workspaceId r))) (bd_creditLedger data)) ++
  missing "redemption(s) name a code, account, workspace or ledger entry the export does not carry."
    (List.filter (fun r => negb (code (br_inviteCodeId r)) || negb (user (br_userId r)) ||
                      negb (workspace (br_workspaceId r)) || negb (entry (br_creditTransactionId r)))
       (bd_inviteRedemptions data)) ++
  missing "API key(s) belong to a workspace the export does not carry."
    (List.filter (fun r => negb (workspace (bk_workspaceId r))) (bd_apiKeys data)) ++
  missing "workspace balance(s) do not equal the sum of their ledger entries."
    (List.filter (fun w => negb (default 0 (ledger_sums (bd_creditLedger data) !! bw_id w) =? BigInt (bw_balanceMicros w)))
       (bd_workspaces data)) ++
  duplicated "account" (map bu_id (bd_users data)) ++
  duplicated "account address" (map (fun u => lower (bu_email u)) (bd_users data)) ++
  duplicated "workspace" (map bw_id (bd_workspaces data)) ++
  duplicated "ledger entry" (map bl_id (bd_creditLedger data)) ++
  duplicated "invitation code" (map bc_id (bd_inviteCodes data)) ++
  duplicated "API key" (map bk_id (bd_apiKeys data)) ++
  duplicated "API key hash" (map bk_keyHash (bd_apiKeys data)).

(** ** Judgements *)

Inductive judgement := to_create | is_present | merged_into (id : jstr) | in_conflict (why : jstr).

Definition is_create (j : judgement) : bool := match j with to_create => true | _ => false end.
Definition is_here (j : judgement) : bool := match j with is_present | merged_into _ => true | _ => false end.
Definition conflict_of (j : judgement) : option jstr := match j with in_conflict why => Some why | _ => None end.

Definition count {A} (p : A -> bool) (l : list A) : Z := Z.of_nat (length (List.filter p l)).

Definition section_plan (name : SectionName) (js : list judgement) : SectionPlan :=
  {| sp_section := name; sp_inBundle := Z.of_nat (length js); sp_toCreate := count is_create js;
     sp_alreadyPresent := count is_here js; sp_conflicts := omap conflict_of js |}.

(** The rows judged new. *)
Definition created {A} (judge : A -> judgement) (rows : list A) : list A := List.filter (fun r => is_create (judge r)) rows.

(** What a row is merged into, by its id. *)
Definition merges {A} (id : A -> jstr) (judge : A -> judgement) (rows : list A) : list (jstr * jstr) :=
  foldl (fun m r => match judge r with merged_into to => set_member (id r) to m | _ => m end) [] rows.

Definition renamed (ids : list (jstr * jstr)) (id : jstr) : jstr := default id (map_get id ids).

(** ** Accounts *)

Definition emails_here (here : LocalState) : list (jstr * jstr) :=
  map (fun u => (lower (snd u), fst u)) (here_users here).

Definition strangers (data : ExportData) (here : LocalState) (operatorEmails : list jstr) : list (jstr * jstr) :=
  let operators := List.filter (fun e => negb (jlength e =? 0)) (map lower operatorEmails) in
  List.filter (fun u => negb (listed (fst u) (map bu_id (bd_users data))) && negb (listed (lower (snd u)) operators))
    (here_users here).

Definition judge_user (here : LocalState) (user : ExportedUser) : judgement :=
  match map_get (bu_id user) (here_users here) with
  | Some email =>
      if jeqb (lower email) (lower (bu_email user)) then is_present
      else in_conflict ("Account " +++ bu_id user +++ " exists here under a different address.")
  | None => match map_get (lower (bu_email user)) (emails_here here) with
            | Some id => merged_into id
            | None => to_create
            end
  end.

Definition user_ids (data : ExportData) (here : LocalState) : list (jstr * jstr) :=
  merges bu_id (judge_user here) (bd_users data).

(** ** Workspaces *)

(** The personal workspace of a merged operator is folded into the one they own here. *)
Definition fold_workspace (data : ExportData) (here : LocalState) (m : list (jstr * jstr)) (merged : jstr * jstr)
    : list (jstr * jstr) :=
  let '(from, to) := merged in
  match find_first (fun r => jeqb (bm_userId r) from && bool_decide (bm_role r = role_owner)) (bd_workspaceMembers data),
        find_first (fun r => jeqb (lm_userId r) to && bool_decide (lm_role r = role_owner)) (here_members here) with
  | Some exported, Some local =>
      if has_key (bm_workspaceId exported) (here_workspaces here) then m
      else set_member (bm_workspaceId exported) (lm_workspaceId local) m
  | _, _ => m
  end.

Definition workspace_ids (data : ExportData) (here : LocalState) : list (jstr * jstr) :=
  foldl (fold_workspace data here) [] (user_ids data here).

Definition judge_workspace (here : LocalState) (folded : list (jstr * jstr)) (w : ExportedWorkspace) : judgement :=
  if has_key (bw_id w) folded || has_key (bw_id w) (here_workspaces here) then is_present
  else match present (map_get (bw_slug w) (by_value (here_workspaces here))) with
       | Some _ => in_conflict ("Workspace slug “" +++ bw_slug w +++ "” is already taken here by another workspace.")
       | None => to_create
       end.

Definition mapped_member (users workspaces : list (jstr * jstr)) (r : ExportedMember) : ExportedMember :=
  {| bm_workspaceId := renamed workspaces (bm_workspaceId r); bm_userId := renamed users (bm_userId r);
     bm_role := bm_role r; bm_createdAt := bm_createdAt r |}.

Definition judge_member (here : LocalState) (users workspaces : list (jstr * jstr)) (r : ExportedMember) : judgement :=
  let mapped := mapped_member users workspaces r in
  if existsb (fun l => jeqb (lm_workspaceId l +++ newline +++ lm_userId l)
                            (bm_workspaceId mapped +++ newline +++ bm_userId mapped)) (here_members here)
  then is_present else to_create.

(** ** The ledger *)

(** Grant keys are spelled with the account id. *)
Definition respelled (users : list (jstr * jstr)) (key : jstr) : jstr :=
  foldl (fun key m => split_join (fst m) (snd m) key) key users.

Definition mapped_entry (users workspaces : list (jstr * jstr)) (e : ExportedEntry) : ExportedEntry :=
  {| bl_id := bl_id e; bl_workspaceId := renamed workspaces (bl_workspaceId e); bl_kind := bl_kind e;
     bl_amountMicros := bl_amountMicros e; bl_reference := bl_reference e; bl_description := bl_description e;
     bl_idempotencyKey := respelled users (bl_idempotencyKey e); bl_createdAt := bl_createdAt e |}.

Definition judge_entry (here : LocalState) (users workspaces : list (jstr * jstr)) (e : ExportedEntry) : judgement :=
  if has_key (bl_id e) (here_ledger here) then is_present
  else match present (map_get (respelled users (bl_idempotencyKey e)) (by_value (here_ledger here))) with
       | Some sameKey =>
           if has_key (bl_workspaceId e) workspaces then merged_into sameKey
           else in_conflict ("Ledger entry " +++ bl_id e +++ " repeats an idempotency key already used here.")
       | None => to_create
       end.

(** ** Invitations *)

Definition judge_code (here : LocalState) (c : ExportedInviteCode) : judgement :=
  match map_get (bc_id c) (here_inviteCodes here) with
  | Some code =>
      if jeqb code (bc_value c) then is_present
      else in_conflict ("Invitation code " +++ bc_id c +++ " exists here with a different value.")
  | None =>
      if has_value (bc_value c) (here_inviteCodes here)
      then in_conflict ("The value of invitation code " +++ bc_id c +++ " is already issued here under another id.")
      else to_create
  end.

Definition mapped_code (users : list (jstr * jstr)) (c : ExportedInviteCode) : ExportedInviteCode :=
  {| bc_id := bc_id c; bc_value := bc_value c; bc_campaign := bc_campaign c; bc_grantMicros := bc_grantMicros c;
     bc_maxRedemptions := bc_maxRedemptions c; bc_redemptionCount := bc_redemptionCount c; bc_status := bc_status c;
     bc_expiresAt := bc_expiresAt c; bc_withdrawnAt := bc_withdrawnAt c; bc_note := bc_note c;
     bc_issuedByUserId := renamed users <$> bc_issuedByUserId c; bc_createdAt := bc_createdAt c |}.

Definition judge_redemption (here : LocalState) (users : list (jstr * jstr)) (r : ExportedRedemption) : judgement :=
  if has_key (br_id r) (here_redemptions here) then is_present
  else if has_value (renamed users (br_userId r)) (here_redemptions here)
  then in_conflict ("Account " +++ renamed users (br_userId r) +++ " has already redeemed an invitation on this deployment.")
  else to_create.

Definition mapped_redemption (users workspaces entries : list (jstr * jstr)) (r : ExportedRedemption) : ExportedRedemption :=
  {| br_id := br_id r; br_inviteCodeId := br_inviteCodeId r; br_userId := renamed users (br_userId r);
     br_workspaceId := renamed workspaces (br_workspaceId r);
     br_creditTransactionId := renamed entries (br_creditTransactionId r); br_redeemedAt := br_redeemedAt r |}.

(** ** API keys *)

Definition judge_key (here : LocalState) (k : ExportedApiKey) : judgement :=
  match map_get (bk_id k) (here_apiKeys here) with
  | Some hash =>
      if jeqb hash (bk_keyHash k) then is_present
      else in_conflict ("API key " +++ bk_id k +++ " exists here as a different credential.")
  | None =>
      if has_value (bk_keyHash k) (here_apiKeys here)
      then in_conflict ("The credential of API key " +++ bk_id k +++ " is already registered here under another id.")
      else to_create
  end.

Definition mapped_key (users workspaces : list (jstr * jstr)) (k : ExportedApiKey) : ExportedApiKey :=
  {| bk_id := bk_id k; bk_workspaceId := renamed workspaces (bk_workspaceId k); bk_name := bk_name k;
     bk_keyHash := bk_keyHash k; bk_prefix := bk_prefix k; bk_purpose := bk_purpose k; bk_modelScope := bk_modelScope k;
     bk_spendLimitMicros := bk_spendLimitMicros k; bk_spentTotalMicros := bk_spentTotalMicros k;
     bk_requestsPerMinute := bk_requestsPerMinute k; bk_tokensPerMinute := bk_tokensPerMinute k;
     bk_expiresAt := bk_expiresAt k; bk_lastUsedAt := bk_lastUsedAt k; bk_revokedAt := bk_revokedAt k;
     bk_createdByUserId := renamed users <$> bk_createdByUserId k; bk_createdAt := bk_createdAt k |}.

(** ** External endpoints and trust *)

Definition models_taken (here : LocalState) (e : ExportedExternalEndpoint) : list ExportedModel :=
  List.filter (fun m => has_key (bo_id m) (here_models here)) (be_models e).

Definition name_taken (here : LocalState) (e : ExportedExternalEndpoint) : bool :=
  has_value (be_name e) (here_externalEndpoints here).

(** One turn of the loop writes to two sections: its judgement in each, [None] for none. *)
Definition judge_endpoint (here : LocalState) (e : ExportedExternalEndpoint) : option judgement * option judgement :=
  if has_key (be_id e) (here_externalEndpoints here) then (Some is_present, Some is_present)
  else if name_taken here e then
    (Some (in_conflict ("An external endpoint named “" +++ be_name e +++ "” is already registered here.")), None)
  else match models_taken here e with
       | [] => (Some to_create, Some to_create)
       | taken => (None, Some (in_conflict ("Model id(s) " +++ jjoin ", " (map bo_id taken) +++ " of “" +++ be_name e +++
                                  "” are already in this catalogue.")))
       end.

Definition mapped_endpoint (users : list (jstr * jstr)) (e : ExportedExternalEndpoint) : ExportedExternalEndpoint :=
  {| be_id := be_id e; be_name := be_name e; be_baseUrl := be_baseUrl e; be_listenPort := be_listenPort e;
     be_enabled := be_enabled e; be_pinnedEvidenceDigest := be_pinnedEvidenceDigest e;
     be_createdByUserId := renamed users <$> be_createdByUserId e; be_createdAt := be_createdAt e; be_models := be_models e |}.

Definition models_of_endpoints (es : list ExportedExternalEndpoint) : Z :=
  sumZ (map (fun e => Z.of_nat (length (be_models e))) es).

Definition endpoint_plan (here : LocalState) (es : list ExportedExternalEndpoint) : SectionPlan :=
  let js := omap (fun e => fst (judge_endpoint here e)) es in
  {| sp_section := s_externalEndpoints; sp_inBundle := Z.of_nat (length es); sp_toCreate := count is_create js;
     sp_alreadyPresent := count is_here js; sp_conflicts := omap conflict_of js |}.

(** A turn counts every model of its endpoint. *)
Definition model_plan (here : LocalState) (es : list ExportedExternalEndpoint) : SectionPlan :=
  let those p := List.filter (fun e => match snd (judge_endpoint here e) with Some j => p j | None => false end) es in
  {| sp_section := s_externalModels; sp_inBundle := models_of_endpoints es;
     sp_toCreate := models_of_endpoints (those is_create); sp_alreadyPresent := models_of_endpoints (those is_here);
     sp_conflicts := omap (fun e => snd (judge_endpoint here e) ≫= conflict_of) es |}.

Definition new_endpoints (here : LocalState) (es : list ExportedExternalEndpoint) : list ExportedExternalEndpoint :=
  List.filter (fun e => match snd (judge_endpoint here e) with Some j => is_create j | None => false end) es.

Definition judge_measurement (here : LocalState) (m : ExportedMeasurement) : judgement :=
  if has_key (bt_id m) (here_trustedMeasurements here) || has_value (bt_measurement m) (here_trustedMeasurements here)
  then is_present else to_create.

Definition mapped_measurement (users : list (jstr * jstr)) (m : ExportedMeasurement) : ExportedMeasurement :=
  {| bt_id := bt_id m; bt_measurement := bt_measurement m; bt_note := bt_note m;
     bt_addedByUserId := renamed users <$> bt_addedByUserId m; bt_addedAt := bt_addedAt m |}.

(** ** The plan *)

Definition number_of {A} (l : list A) : jstr := jstring_of_Z (Z.of_nat (length l)).

Definition plan_refusals (data : ExportData) (here : LocalState) (operatorEmails : list jstr) : list jstr :=
  bundleInconsistencies data ++
  match strangers data here operatorEmails with
  | [] => []
  | out => ["This deployment is not fresh: " +++ number_of out +++
            " account(s) exist here that are neither in the export nor " +++
            "an operator’s own. An export is only imported into a deployment nobody has signed up to yet."]
  end.

Definition plan_writes (data : ExportData) (here : LocalState) : ExportData :=
  let users := user_ids data here in
  let workspaces := workspace_ids data here in
  let entries := merges bl_id (judge_entry here users workspaces) (bd_creditLedger data) in
  {| bd_users := created (judge_user here) (bd_users data);
     bd_workspaces := created (judge_workspace here workspaces) (bd_workspaces data);
     bd_workspaceMembers :=
       map (mapped_member users workspaces) (created (judge_member here users workspaces) (bd_workspaceMembers data));
     bd_creditLedger :=
       map (mapped_entry users workspaces) (created (judge_entry here users workspaces) (bd_creditLedger data));
     bd_inviteCodes := map (mapped_code users) (created (judge_code here) (bd_inviteCodes data));
     bd_inviteRedemptions :=
       map (mapped_redemption users workspaces entries) (created (judge_redemption here users) (bd_inviteRedemptions data));
     bd_apiKeys := map (mapped_key users workspaces) (created (judge_key here) (bd_apiKeys data));
     bd_externalEndpoints := map (mapped_endpoint users) (new_endpoints here (bd_externalEndpoints data));
     bd_trustedMeasurements := map (mapped_measurement users) (created (judge_measurement here) (bd_trustedMeasurements data)) |}.

Definition plan_sections (data : ExportData) (here : LocalState) : list SectionPlan :=
  let users := user_ids data here in
  let workspaces := workspace_ids data here in
  [section_plan s_users (map (judge_user here) (bd_users data));
   section_plan s_workspaces (map (judge_workspace here workspaces) (bd_workspaces data));
   section_plan s_workspaceMembers (map (judge_member here users workspaces) (bd_workspaceMembers data));
   section_plan s_creditLedger (map (judge_entry here users workspaces) (bd_creditLedger data));
   section_plan s_inviteCodes (map (judge_code here) (bd_inviteCodes data));
   section_plan s_inviteRedemptions (map (judge_redemption here users) (bd_inviteRedemptions data));
   section_plan s_apiKeys (map (judge_key here) (bd_apiKeys data));
   endpoint_plan here (bd_externalEndpoints data);
   model_plan here (bd_externalEndpoints data);
   section_plan s_trustedMeasurements (map (judge_measurement here) (bd_trustedMeasurements data))].

Definition note_when {A} (rows : list A) (note : jstr) : list jstr := match rows with [] => [] | _ => [note] end.

Definition is_merged (j : judgement) : bool := match j with merged_into _ => true | _ => false end.

Definition plan_notes (data : ExportData) (here : LocalState) : list jstr :=
  let users := user_ids data here in
  let workspaces := workspace_ids data here in
  let grants := List.filter (fun e => is_merged (judge_entry here users workspaces e)) (bd_creditLedger data) in
  let keys := bd_apiKeys (plan_writes data here) in
  let live := List.filter (fun k => is_null (bk_revokedAt k)) keys in
  let endpoints := bd_externalEndpoints (plan_writes data here) in
  note_when users
    (number_of users +++ " operator account(s) already exist here under a new id; the exported account of the same " +++
     "address is merged into each, with its workspace, balance and attribution.") ++
  note_when grants
    (number_of grants +++ " grant(s) to an operator were already made on this deployment and are not credited twice, " +++
     "so that account’s balance here can differ from the exported one by that amount.") ++
  note_when keys
    (number_of keys +++ " API key(s) are imported, " +++ number_of live +++
     " of them still live: a key configured in a Gatekeeper, " +++
     "an IDE or a script keeps working here, and nobody has to issue a new one. A revoked key arrives revoked.") ++
  note_when endpoints
    (number_of endpoints +++ " external endpoint(s) are imported switched off and without an upstream API key — " +++
     "the export carries no secrets. Enter each key again under Administration → External endpoints, then enable it.").

Definition planImport (data : ExportData) (here : LocalState) (operatorEmails : list jstr) : ImportPlan :=
  {| ip_refusals := plan_refusals data here operatorEmails;
     ip_sections := plan_sections data here;
     ip_notes := plan_notes data here;
     ip_writes := plan_writes data here;
     ip_touchedWorkspaceIds := distinct [] (map bl_workspaceId (bd_creditLedger (plan_writes data here))) |}.
End Plan.
