(* ===== verification/BundleSchema.v ===== *)
(** * The document of an export

    The document of [data-migration/export-bundle.ts] as the object literals the source
    builds, the counts and the total derived from it, and the schema it is read back
    with: [z.object] over the sections, a refusal wherever one field is out of its
    bounds.  What the schema library itself knows of an instant, of a URL and of how to
    name the first issue is a class. *)

From S2P Require Import Prelude JsString Json Money JsDate Store Workspaces LedgerPages InviteAdmin ApiKeys ExternalCatalog ImportPlan.

(** ** Data as the object literals of the source *)

Definition text_or_null (o : option jstr) : json := match o with Some s => JString s | None => JNull end.
Definition number_or_null (o : option Z) : json := match o with Some z => JInt z | None => JNull end.

Definition role_text (r : ExportedRole) : jstr := match r with role_admin => "admin" | role_user => "user" end.
Definition origin_text (o : SignUpOrigin) : jstr :=
  match o with origin_invite => "invite" | origin_bootstrap => "bootstrap" | origin_open => "open" end.
Definition member_role_text (r : WorkspaceRole) : jstr := match r with role_owner => "owner" | role_member => "member" end.
Definition kind_text (k : CreditTransactionKind) : jstr :=
  match k with
  | purchase => "purchase" | usage => "usage" | refund => "refund" | adjustment => "adjustment"
  | auto_topup => "auto_topup" | grant => "grant"
  end.
Definition code_status_text (s : ExportedStatus) : jstr :=
  match s with
  | code_unredeemed => "unredeemed" | code_redeemed => "redeemed" | code_withdrawn => "withdrawn" | code_expired => "expired"
  end.
Definition capability_text (c : ModelCapability) : jstr :=
  match c with cap_chat => "chat" | cap_completions => "completions" | cap_embeddings => "embeddings" end.

Definition user_object (u : ExportedUser) : json := JObject
  [("id" : jstr, JString (bu_id u)); ("email" : jstr, JString (bu_email u)); ("name" : jstr, JString (bu_name u));
   ("emailVerified" : jstr, JBool (bu_emailVerified u)); ("image" : jstr, text_or_null (bu_image u));
   ("createdAt" : jstr, JString (bu_createdAt u)); ("role" : jstr, JString (role_text (bu_role u)));
   ("origin" : jstr, JString (origin_text (bu_origin u))); ("invitedByCodeId" : jstr, text_or_null (bu_invitedByCodeId u))].

Definition workspace_object (w : ExportedWorkspace) : json := JObject
  [("id" : jstr, JString (bw_id w)); ("name" : jstr, JString (bw_name w)); ("slug" : jstr, JString (bw_slug w));
   ("balanceMicros" : jstr, JString (bw_balanceMicros w)); ("stripeCustomerId" : jstr, text_or_null (bw_stripeCustomerId w));
   ("autoTopUpEnabled" : jstr, JBool (bw_autoTopUpEnabled w));
   ("autoTopUpThresholdMicros" : jstr, text_or_null (bw_autoTopUpThresholdMicros w));
   ("autoTopUpAmountMicros" : jstr, text_or_null (bw_autoTopUpAmountMicros w));
   ("autoTopUpLastAt" : jstr, text_or_null (bw_autoTopUpLastAt w));
   ("firstRequestAt" : jstr, text_or_null (bw_firstRequestAt w)); ("createdAt" : jstr, JString (bw_createdAt w))].

Definition member_object (m : ExportedMember) : json := JObject
  [("workspaceId" : jstr, JString (bm_workspaceId m)); ("userId" : jstr, JString (bm_userId m));
   ("role" : jstr, JString (member_role_text (bm_role m))); ("createdAt" : jstr, JString (bm_createdAt m))].

Definition entry_object (e : ExportedEntry) : json := JObject
  [("id" : jstr, JString (bl_id e)); ("workspaceId" : jstr, JString (bl_workspaceId e));
   ("kind" : jstr, JString (kind_text (bl_kind e))); ("amountMicros" : jstr, JString (bl_amountMicros e));
   ("reference" : jstr, text_or_null (bl_reference e)); ("description" : jstr, text_or_null (bl_description e));
   ("idempotencyKey" : jstr, JString (bl_idempotencyKey e)); ("createdAt" : jstr, JString (bl_createdAt e))].

Definition code_object (c : ExportedInviteCode) : json := JObject
  [("id" : jstr, JString (bc_id c)); ("value" : jstr, JString (bc_value c)); ("campaign" : jstr, JString (bc_campaign c));
   ("grantMicros" : jstr, JString (bc_grantMicros c)); ("maxRedemptions" : jstr, JInt (bc_maxRedemptions c));
   ("redemptionCount" : jstr, JInt (bc_redemptionCount c)); ("status" : jstr, JString (code_status_text (bc_status c)));
   ("expiresAt" : jstr, text_or_null (bc_expiresAt c)); ("withdrawnAt" : jstr, text_or_null (bc_withdrawnAt c));
   ("note" : jstr, text_or_null (bc_note c)); ("issuedByUserId" : jstr, text_or_null (bc_issuedByUserId c));
   ("createdAt" : jstr, JString (bc_createdAt c))].

Definition redemption_object (r : ExportedRedemption) : json := JObject
  [("id" : jstr, JString (br_id r)); ("inviteCodeId" : jstr, JString (br_inviteCodeId r));
   ("userId" : jstr, JString (br_userId r)); ("workspaceId" : jstr, JString (br_workspaceId r));
   ("creditTransactionId" : jstr, JString (br_creditTransactionId r)); ("redeemedAt" : jstr, JString (br_redeemedAt r))].

Definition key_object (k : ExportedApiKey) : json := JObject
  [("id" : jstr, JString (bk_id k)); ("workspaceId" : jstr, JString (bk_workspaceId k)); ("name" : jstr, JString (bk_name k));
   ("keyHash" : jstr, JString (bk_keyHash k)); ("prefix" : jstr, JString (bk_prefix k));
   ("purpose" : jstr, match bk_purpose k with Some console_chat => JString "console_chat" | None => JNull end);
   ("modelScope" : jstr, match bk_modelScope k with Some l => JArray (map JString l) | None => JNull end);
   ("spendLimitMicros" : jstr, text_or_null (bk_spendLimitMicros k));
   ("spentTotalMicros" : jstr, JString (bk_spentTotalMicros k));
   ("requestsPerMinute" : jstr, number_or_null (bk_requestsPerMinute k));
   ("tokensPerMinute" : jstr, number_or_null (bk_tokensPerMinute k)); ("expiresAt" : jstr, text_or_null (bk_expiresAt k));
   ("lastUsedAt" : jstr, text_or_null (bk_lastUsedAt k)); ("revokedAt" : jstr, text_or_null (bk_revokedAt k));
   ("createdByUserId" : jstr, text_or_null (bk_createdByUserId k)); ("createdAt" : jstr, JString (bk_createdAt k))].

Definition model_object (m : ExportedModel) : json := JObject
  [("id" : jstr, JString (bo_id m)); ("name" : jstr, JString (bo_name m)); ("upstreamModel" : jstr, JString (bo_upstreamModel m));
   ("contextLength" : jstr, JInt (bo_contextLength m));
   ("capabilities" : jstr, JArray (map (fun c => JString (capability_text c)) (bo_capabilities m)));
   ("promptPer1mMicros" : jstr, JString (bo_promptPer1mMicros m));
   ("completionPer1mMicros" : jstr, JString (bo_completionPer1mMicros m)); ("enabled" : jstr, JBool (bo_enabled m))].

Definition endpoint_object (e : ExportedExternalEndpoint) : json := JObject
  [("id" : jstr, JString (be_id e)); ("name" : jstr, JString (be_name e)); ("baseUrl" : jstr, JString (be_baseUrl e));
   ("listenPort" : jstr, JInt (be_listenPort e)); ("enabled" : jstr, JBool (be_enabled e));
   ("pinnedEvidenceDigest" : jstr, text_or_null (be_pinnedEvidenceDigest e));
   ("createdByUserId" : jstr, text_or_null (be_createdByUserId e)); ("createdAt" : jstr, JString (be_createdAt e));
   ("models" : jstr, JArray (map model_object (be_models e)))].

Definition measurement_object (m : ExportedMeasurement) : json := JObject
  [("id" : jstr, JString (bt_id m)); ("measurement" : jstr, JString (bt_measurement m)); ("note" : jstr, text_or_null (bt_note m));
   ("addedByUserId" : jstr, text_or_null (bt_addedByUserId m)); ("addedAt" : jstr, JString (bt_addedAt m))].

Definition data_object (d : ExportData) : json := JObject
  [("users" : jstr, JArray (map user_object (bd_users d))); ("workspaces" : jstr, JArray (map workspace_object (bd_workspaces d)));
   ("workspaceMembers" : jstr, JArray (map member_object (bd_workspaceMembers d)));
   ("creditLedger" : jstr, JArray (map entry_object (bd_creditLedger d)));
   ("inviteCodes" : jstr, JArray (map code_object (bd_inviteCodes d)));
   ("inviteRedemptions" : jstr, JArray (map redemption_object (bd_inviteRedemptions d)));
   ("apiKeys" : jstr, JArray (map key_object (bd_apiKeys d)));
   ("externalEndpoints" : jstr, JArray (map endpoint_object (bd_externalEndpoints d)));
   ("trustedMeasurements" : jstr, JArray (map measurement_object (bd_trustedMeasurements d)))].

(** ** Counts and totals *)

Record ExportCounts := {
  xc_users : Z;
  xc_workspaces : Z;
  xc_workspaceMembers : Z;
  xc_creditEntries : Z;
  xc_inviteCampaigns : Z;
  xc_inviteCodes : Z;
  xc_inviteCodesUnredeemed : Z;
  xc_inviteRedemptions : Z;
  xc_apiKeys : Z;
  xc_apiKeysLive : Z;
  xc_externalEndpoints : Z;
  xc_externalModels : Z;
  xc_trustedMeasurements : Z
}.

Definition length_of {A} (l : list A) : Z := Z.of_nat (length l).

Definition countsOf (data : ExportData) : ExportCounts :=
  {| xc_users := length_of (bd_users data);
     xc_workspaces := length_of (bd_workspaces data);
     xc_workspaceMembers := length_of (bd_workspaceMembers data);
     xc_creditEntries := length_of (bd_creditLedger data);
     xc_inviteCampaigns := length_of (distinct [] (map bc_campaign (bd_inviteCodes data)));
     xc_inviteCodes := length_of (bd_inviteCodes data);
     xc_inviteCodesUnredeemed := count (fun c => bool_decide (bc_status c = code_unredeemed)) (bd_inviteCodes data);
     xc_inviteRedemptions := length_of (bd_inviteRedemptions data);
     xc_apiKeys := length_of (bd_apiKeys data);
     xc_apiKeysLive := count (fun k => is_null (bk_revokedAt k)) (bd_apiKeys data);
     xc_externalEndpoints := length_of (bd_externalEndpoints data);
     xc_externalModels := models_of_endpoints (bd_externalEndpoints data);
     xc_trustedMeasurements := length_of (bd_trustedMeasurements data) |}.

Definition counts_object (c : ExportCounts) : json := JObject
  [("users" : jstr, JInt (xc_users c)); ("workspaces" : jstr, JInt (xc_workspaces c));
   ("workspaceMembers" : jstr, JInt (xc_workspaceMembers c)); ("creditEntries" : jstr, JInt (xc_creditEntries c));
   ("inviteCampaigns" : jstr, JInt (xc_inviteCampaigns c)); ("inviteCodes" : jstr, JInt (xc_inviteCodes c));
   ("inviteCodesUnredeemed" : jstr, JInt (xc_inviteCodesUnredeemed c));
   ("inviteRedemptions" : jstr, JInt (xc_inviteRedemptions c)); ("apiKeys" : jstr, JInt (xc_apiKeys c));
   ("apiKeysLive" : jstr, JInt (xc_apiKeysLive c)); ("externalEndpoints" : jstr, JInt (xc_externalEndpoints c));
   ("externalModels" : jstr, JInt (xc_externalModels c)); ("trustedMeasurements" : jstr, JInt (xc_trustedMeasurements c))].

Definition totalBalanceMicros (data : ExportData) : jstr :=
  jstring_of_Z (sumZ (map (fun w => BigInt (bw_balanceMicros w)) (bd_workspaces data))).

(** ** The document *)

Definition EXPORT_FORMAT : jstr := "router-export".
Definition EXPORT_SCHEMA_VERSION : Z := 1.
Definition MAX_INFLATED_BYTES : Z := 256 * 1024 * 1024.

Record ExportSource := { xr_publicBaseUrl : jstr; xr_routerVersion : jstr; xr_evidenceDigest : option jstr }.

Record ExportBundle := {
  xb_schemaVersion : Z;
  xb_exportedAt : jstr;
  xb_source : ExportSource;
  xb_counts : ExportCounts;
  xb_totalBalanceMicros : jstr;
  xb_data : ExportData;
  xb_contentSha256 : jstr
}.

Definition bundle_object (b : ExportBundle) : json := JObject
  [("format" : jstr, JString EXPORT_FORMAT); ("schemaVersion" : jstr, JInt (xb_schemaVersion b));
   ("exportedAt" : jstr, JString (xb_exportedAt b));
   ("source" : jstr, JObject [("publicBaseUrl" : jstr, JString (xr_publicBaseUrl (xb_source b)));
                      ("routerVersion" : jstr, JString (xr_routerVersion (xb_source b)));
                      ("evidenceDigest" : jstr, text_or_null (xr_evidenceDigest (xb_source b)))]);
   ("counts" : jstr, counts_object (xb_counts b)); ("totalBalanceMicros" : jstr, JString (xb_totalBalanceMicros b));
   ("data" : jstr, data_object (xb_data b));
   ("integrity" : jstr, JObject [("contentSha256" : jstr, JString (xb_contentSha256 b))])].

(** ** The schema *)

Class SchemaLibrary := {
  iso_datetime : jstr -> bool;              (* [z.iso.datetime({ offset: true })] *)
  url_text : jstr -> bool;                  (* [z.url()] *)
  schema_issue : json -> jstr * jstr        (* the path and the message of the first issue *)
}.

(** A reader of one property; [None] is [undefined]. *)
Definition zod (A : Type) : Type := option json -> option A.

Definition within (lo hi : Z) (s : jstr) : bool := (lo <=? jlength s) && (jlength s <=? hi).

(** [z.string()] with the bounds and the pattern of the field. *)
Definition z_text (ok : jstr -> bool) : zod jstr := fun v => match v with Some (JString s) => if ok s then Some s else None | _ => None end.
Definition z_nullable {A} (p : zod A) : zod (option A) := fun v => match v with Some JNull => Some None | _ => x ← p v; Some (Some x) end.
Definition z_boolean : zod bool := fun v => match v with Some (JBool b) => Some b | _ => None end.
Definition z_default {A} (d : A) (p : zod A) : zod A := fun v => match v with None => Some d | Some _ => p v end.

Definition z_int (ok : Z -> bool) : zod Z := fun v =>
  match v with
  | Some (JNumber t) =>
      let z := Number_of_integer (units t) in
      if integer_text (units t) && isSafeInteger z && ok z then Some z else None
  | _ => None
  end.

Definition z_enum {A} (texts : list (jstr * A)) : zod A := fun v =>
  match v with Some (JString s) => snd <$> find_first (fun t => jeqb (fst t) s) texts | _ => None end.

Definition z_array {A} (p : zod A) : zod (list A) := fun v =>
  match v with Some (JArray items) => mapM (fun i => p (Some i)) items | _ => None end.

(** [z.object]: the properties it names are read, the others dropped. *)
Definition z_object {A} (p : (jstr -> option json) -> option A) : zod A := fun v =>
  match v with Some (JObject m) => p (fun key => member key (JObject m)) | _ => None end.

Definition id_ok : jstr -> bool := within 1 64.
Definition micros_ok (s : jstr) : bool := integer_text (units s).
(** [/^[0-9a-f]{64}$/] *)
Definition hex_ok (s : jstr) : bool := (jlength s =? 64) && forallb is_hex (units s).
Definition any (_ : Z) : bool := true.

Definition is_format (s : jstr) : bool := jeqb s EXPORT_FORMAT.

Section Schema.
Context `{SchemaLibrary}.

Definition z_id : zod jstr := z_text id_ok.
Definition z_iso : zod jstr := z_text iso_datetime.
Definition z_micros : zod jstr := z_text micros_ok.

Definition UserSchema : zod ExportedUser := z_object (fun at_ =>
  id ← z_id (at_ "id"%js); email ← z_text (within 3 320) (at_ "email"%js); name ← z_text (within 0 255) (at_ "name"%js);
  emailVerified ← z_boolean (at_ "emailVerified"%js); image ← z_nullable (z_text (within 0 2048)) (at_ "image"%js);
  createdAt ← z_iso (at_ "createdAt"%js); role ← z_enum [("admin", role_admin); ("user", role_user)]%js (at_ "role"%js);
  origin ← z_enum [("invite", origin_invite); ("bootstrap", origin_bootstrap); ("open", origin_open)]%js (at_ "origin"%js);
  invitedByCodeId ← z_nullable z_id (at_ "invitedByCodeId"%js);
  Some {| bu_id := id; bu_email := email; bu_name := name; bu_emailVerified := emailVerified; bu_image := image;
          bu_createdAt := createdAt; bu_role := role; bu_origin := origin; bu_invitedByCodeId := invitedByCodeId |}).

Definition WorkspaceSchema : zod ExportedWorkspace := z_object (fun at_ =>
  id ← z_id (at_ "id"%js); name ← z_text (within 1 255) (at_ "name"%js); slug ← z_text (within 1 64) (at_ "slug"%js);
  balanceMicros ← z_micros (at_ "balanceMicros"%js); stripeCustomerId ← z_nullable (z_text (within 0 255)) (at_ "stripeCustomerId"%js);
  autoTopUpEnabled ← z_boolean (at_ "autoTopUpEnabled"%js);
  autoTopUpThresholdMicros ← z_nullable z_micros (at_ "autoTopUpThresholdMicros"%js);
  autoTopUpAmountMicros ← z_nullable z_micros (at_ "autoTopUpAmountMicros"%js);
  autoTopUpLastAt ← z_nullable z_iso (at_ "autoTopUpLastAt"%js); firstRequestAt ← z_nullable z_iso (at_ "firstRequestAt"%js);
  createdAt ← z_iso (at_ "createdAt"%js);
  Some {| bw_id := id; bw_name := name; bw_slug := slug; bw_balanceMicros := balanceMicros; bw_stripeCustomerId := stripeCustomerId;
          bw_autoTopUpEnabled := autoTopUpEnabled; bw_autoTopUpThresholdMicros := autoTopUpThresholdMicros;
          bw_autoTopUpAmountMicros := autoTopUpAmountMicros; bw_autoTopUpLastAt := autoTopUpLastAt;
          bw_firstRequestAt := firstRequestAt; bw_createdAt := createdAt |}).

Definition WorkspaceMemberSchema : zod ExportedMember := z_object (fun at_ =>
  workspaceId ← z_id (at_ "workspaceId"%js); userId ← z_id (at_ "userId"%js);
  role ← z_enum [("owner", role_owner); ("member", role_member)]%js (at_ "role"%js); createdAt ← z_iso (at_ "createdAt"%js);
  Some {| bm_workspaceId := workspaceId; bm_userId := userId; bm_role := role; bm_createdAt := createdAt |}).

Definition CreditEntrySchema : zod ExportedEntry := z_object (fun at_ =>
  id ← z_id (at_ "id"%js); workspaceId ← z_id (at_ "workspaceId"%js);
  kind ← z_enum [("purchase", purchase); ("usage", usage); ("refund", refund); ("adjustment", adjustment);
                 ("auto_topup", auto_topup); ("grant", grant)]%js (at_ "kind"%js);
  amountMicros ← z_micros (at_ "amountMicros"%js); reference ← z_nullable (z_text (within 0 128)) (at_ "reference"%js);
  description ← z_nullable (z_text (within 0 512)) (at_ "description"%js);
  idempotencyKey ← z_text (within 1 128) (at_ "idempotencyKey"%js); createdAt ← z_iso (at_ "createdAt"%js);
  Some {| bl_id := id; bl_workspaceId := workspaceId; bl_kind := kind; bl_amountMicros := amountMicros; bl_reference := reference;
          bl_description := description; bl_idempotencyKey := idempotencyKey; bl_createdAt := createdAt |}).

Definition InviteCodeSchema : zod ExportedInviteCode := z_object (fun at_ =>
  id ← z_id (at_ "id"%js); value ← z_text (within 1 32) (at_ "value"%js); campaign ← z_text (within 0 64) (at_ "campaign"%js);
  grantMicros ← z_micros (at_ "grantMicros"%js); maxRedemptions ← z_int (Z.leb 1) (at_ "maxRedemptions"%js);
  redemptionCount ← z_int (Z.leb 0) (at_ "redemptionCount"%js);
  status ← z_enum [("unredeemed", code_unredeemed); ("redeemed", code_redeemed); ("withdrawn", code_withdrawn);
                   ("expired", code_expired)]%js (at_ "status"%js);
  expiresAt ← z_nullable z_iso (at_ "expiresAt"%js); withdrawnAt ← z_nullable z_iso (at_ "withdrawnAt"%js);
  note ← z_nullable (z_text (within 0 512)) (at_ "note"%js); issuedByUserId ← z_nullable z_id (at_ "issuedByUserId"%js);
  createdAt ← z_iso (at_ "createdAt"%js);
  Some {| bc_id := id; bc_value := value; bc_campaign := campaign; bc_grantMicros := grantMicros; bc_maxRedemptions := maxRedemptions;
          bc_redemptionCount := redemptionCount; bc_status := status; bc_expiresAt := expiresAt; bc_withdrawnAt := withdrawnAt;
          bc_note := note; bc_issuedByUserId := issuedByUserId; bc_createdAt := createdAt |}).

Definition InviteRedemptionSchema : zod ExportedRedemption := z_object (fun at_ =>
  id ← z_id (at_ "id"%js); inviteCodeId ← z_id (at_ "inviteCodeId"%js); userId ← z_id (at_ "userId"%js);
  workspaceId ← z_id (at_ "workspaceId"%js); creditTransactionId ← z_id (at_ "creditTransactionId"%js);
  redeemedAt ← z_iso (at_ "redeemedAt"%js);
  Some {| br_id := id; br_inviteCodeId := inviteCodeId; br_userId := userId; br_workspaceId := workspaceId;
          br_creditTransactionId := creditTransactionId; br_redeemedAt := redeemedAt |}).

Definition ApiKeySchema : zod ExportedApiKey := z_object (fun at_ =>
  id ← z_id (at_ "id"%js); workspaceId ← z_id (at_ "workspaceId"%js); name ← z_text (within 0 255) (at_ "name"%js);
  keyHash ← z_text hex_ok (at_ "keyHash"%js); prefix ← z_text (within 0 16) (at_ "prefix"%js);
  purpose ← z_nullable (z_enum [("console_chat"%js, console_chat)]) (at_ "purpose"%js);
  modelScope ← z_nullable (z_array (z_text (within 0 255))) (at_ "modelScope"%js);
  spendLimitMicros ← z_nullable z_micros (at_ "spendLimitMicros"%js); spentTotalMicros ← z_micros (at_ "spentTotalMicros"%js);
  requestsPerMinute ← z_nullable (z_int any) (at_ "requestsPerMinute"%js);
  tokensPerMinute ← z_nullable (z_int any) (at_ "tokensPerMinute"%js); expiresAt ← z_nullable z_iso (at_ "expiresAt"%js);
  lastUsedAt ← z_nullable z_iso (at_ "lastUsedAt"%js); revokedAt ← z_nullable z_iso (at_ "revokedAt"%js);
  createdByUserId ← z_nullable z_id (at_ "createdByUserId"%js); createdAt ← z_iso (at_ "createdAt"%js);
  Some {| bk_id := id; bk_workspaceId := workspaceId; bk_name := name; bk_keyHash := keyHash; bk_prefix := prefix;
          bk_purpose := purpose; bk_modelScope := modelScope; bk_spendLimitMicros := spendLimitMicros;
          bk_spentTotalMicros := spentTotalMicros; bk_requestsPerMinute := requestsPerMinute; bk_tokensPerMinute := tokensPerMinute;
          bk_expiresAt := expiresAt; bk_lastUsedAt := lastUsedAt; bk_revokedAt := revokedAt; bk_createdByUserId := createdByUserId;
          bk_createdAt := createdAt |}).

Definition ExternalModelSchema : zod ExportedModel := z_object (fun at_ =>
  id ← z_text (within 1 255) (at_ "id"%js); name ← z_text (within 1 255) (at_ "name"%js);
  upstreamModel ← z_text (within 1 255) (at_ "upstreamModel"%js); contextLength ← z_int (Z.leb 0) (at_ "contextLength"%js);
  capabilities ← z_array (z_enum [("chat", cap_chat); ("completions", cap_completions); ("embeddings", cap_embeddings)]%js)
                   (at_ "capabilities"%js);
  promptPer1mMicros ← z_micros (at_ "promptPer1mMicros"%js); completionPer1mMicros ← z_micros (at_ "completionPer1mMicros"%js);
  enabled ← z_boolean (at_ "enabled"%js);
  Some {| bo_id := id; bo_name := name; bo_upstreamModel := upstreamModel; bo_contextLength := contextLength;
          bo_capabilities := capabilities; bo_promptPer1mMicros := promptPer1mMicros;
          bo_completionPer1mMicros := completionPer1mMicros; bo_enabled := enabled |}).

Definition ExternalEndpointSchema : zod ExportedExternalEndpoint := z_object (fun at_ =>
  id ← z_id (at_ "id"%js); name ← z_text (within 1 64) (at_ "name"%js);
  baseUrl ← z_text (fun s => url_text s && within 0 2048 s) (at_ "baseUrl"%js);
  listenPort ← z_int (fun p => (1 <=? p) && (p <=? 65535)) (at_ "listenPort"%js); enabled ← z_boolean (at_ "enabled"%js);
  pinnedEvidenceDigest ← z_nullable (z_text (within 0 128)) (at_ "pinnedEvidenceDigest"%js);
  createdByUserId ← z_nullable z_id (at_ "createdByUserId"%js); createdAt ← z_iso (at_ "createdAt"%js);
  models ← z_array ExternalModelSchema (at_ "models"%js);
  Some {| be_id := id; be_name := name; be_baseUrl := baseUrl; be_listenPort := listenPort; be_enabled := enabled;
          be_pinnedEvidenceDigest := pinnedEvidenceDigest; be_createdByUserId := createdByUserId; be_createdAt := createdAt;
          be_models := models |}).

Definition TrustedMeasurementSchema : zod ExportedMeasurement := z_object (fun at_ =>
  id ← z_id (at_ "id"%js); measurement ← z_text (within 1 64) (at_ "measurement"%js);
  note ← z_nullable (z_text (within 0 255)) (at_ "note"%js); addedByUserId ← z_nullable z_id (at_ "addedByUserId"%js);
  addedAt ← z_iso (at_ "addedAt"%js);
  Some {| bt_id := id; bt_measurement := measurement; bt_note := note; bt_addedByUserId := addedByUserId; bt_addedAt := addedAt |}).

Definition DataSchema : zod ExportData := z_object (fun at_ =>
  users ← z_array UserSchema (at_ "users"%js); workspaces ← z_array WorkspaceSchema (at_ "workspaces"%js);
  workspaceMembers ← z_array WorkspaceMemberSchema (at_ "workspaceMembers"%js);
  creditLedger ← z_array CreditEntrySchema (at_ "creditLedger"%js); inviteCodes ← z_array InviteCodeSchema (at_ "inviteCodes"%js);
  inviteRedemptions ← z_array InviteRedemptionSchema (at_ "inviteRedemptions"%js);
  apiKeys ← z_default [] (z_array ApiKeySchema) (at_ "apiKeys"%js);
  externalEndpoints ← z_array ExternalEndpointSchema (at_ "externalEndpoints"%js);
  trustedMeasurements ← z_array TrustedMeasurementSchema (at_ "trustedMeasurements"%js);
  Some {| bd_users := users; bd_workspaces := workspaces; bd_workspaceMembers := workspaceMembers; bd_creditLedger := creditLedger;
          bd_inviteCodes := inviteCodes; bd_inviteRedemptions := inviteRedemptions; bd_apiKeys := apiKeys;
          bd_externalEndpoints := externalEndpoints; bd_trustedMeasurements := trustedMeasurements |}).

Definition CountsSchema : zod ExportCounts := z_object (fun at_ =>
  users ← z_int any (at_ "users"%js); workspaces ← z_int any (at_ "workspaces"%js);
  workspaceMembers ← z_int any (at_ "workspaceMembers"%js); creditEntries ← z_int any (at_ "creditEntries"%js);
  inviteCampaigns ← z_int any (at_ "inviteCampaigns"%js); inviteCodes ← z_int any (at_ "inviteCodes"%js);
  inviteCodesUnredeemed ← z_int any (at_ "inviteCodesUnredeemed"%js); inviteRedemptions ← z_int any (at_ "inviteRedemptions"%js);
  apiKeys ← z_default 0 (z_int any) (at_ "apiKeys"%js); apiKeysLive ← z_default 0 (z_int any) (at_ "apiKeysLive"%js);
  externalEndpoints ← z_int any (at_ "externalEndpoints"%js); externalModels ← z_int any (at_ "externalModels"%js);
  trustedMeasurements ← z_int any (at_ "trustedMeasurements"%js);
  Some {| xc_users := users; xc_workspaces := workspaces; xc_workspaceMembers := workspaceMembers; xc_creditEntries := creditEntries;
          xc_inviteCampaigns := inviteCampaigns; xc_inviteCodes := inviteCodes; xc_inviteCodesUnredeemed := inviteCodesUnredeemed;
          xc_inviteRedemptions := inviteRedemptions; xc_apiKeys := apiKeys; xc_apiKeysLive := apiKeysLive;
          xc_externalEndpoints := externalEndpoints; xc_externalModels := externalModels;
          xc_trustedMeasurements := trustedMeasurements |}).

Definition SourceSchema : zod ExportSource := z_object (fun at_ =>
  publicBaseUrl ← z_text (fun _ => true) (at_ "publicBaseUrl"%js); routerVersion ← z_text (fun _ => true) (at_ "routerVersion"%js);
  evidenceDigest ← z_nullable (z_text (fun _ => true)) (at_ "evidenceDigest"%js);
  Some {| xr_publicBaseUrl := publicBaseUrl; xr_routerVersion := routerVersion; xr_evidenceDigest := evidenceDigest |}).

Definition IntegritySchema : zod jstr := z_object (fun at_ => z_text hex_ok (at_ "contentSha256"%js)).

Definition ExportBundleSchema : zod ExportBundle := z_object (fun at_ =>
  _ ← z_text is_format (at_ "format"%js); schemaVersion ← z_int any (at_ "schemaVersion"%js); exportedAt ← z_iso (at_ "exportedAt"%js);
  source ← SourceSchema (at_ "source"%js); counts ← CountsSchema (at_ "counts"%js);
  totalBalanceMicros ← z_micros (at_ "totalBalanceMicros"%js); data ← DataSchema (at_ "data"%js);
  contentSha256 ← IntegritySchema (at_ "integrity"%js);
  Some {| xb_schemaVersion := schemaVersion; xb_exportedAt := exportedAt; xb_source := source; xb_counts := counts;
          xb_totalBalanceMicros := totalBalanceMicros; xb_data := data; xb_contentSha256 := contentSha256 |}).

(** [ExportBundleSchema.safeParse(raw)] *)
Definition safeParse (raw : json) : result (jstr * jstr) ExportBundle :=
  match ExportBundleSchema (Some raw) with Some b => Ok b | None => Err (schema_issue raw) end.

End Schema.

(** ** The bounds of a document

    What the schema asks of the values themselves, the specification its readers are
    compared with. *)

Definition all_true (l : list bool) : bool := forallb id l.
Definition if_some {A} (ok : A -> bool) (o : option A) : bool := match o with Some x => ok x | None => true end.
Definition int_ok (ok : Z -> bool) (z : Z) : bool := isSafeInteger z && ok z.

Section Bounds.
Context `{SchemaLibrary}.

Definition user_bounds (u : ExportedUser) : bool := all_true
  [id_ok (bu_id u); within 3 320 (bu_email u); within 0 255 (bu_name u); if_some (within 0 2048) (bu_image u);
   iso_datetime (bu_createdAt u); if_some id_ok (bu_invitedByCodeId u)].

Definition workspace_bounds (w : ExportedWorkspace) : bool := all_true
  [id_ok (bw_id w); within 1 255 (bw_name w); within 1 64 (bw_slug w); micros_ok (bw_balanceMicros w);
   if_some (within 0 255) (bw_stripeCustomerId w); if_some micros_ok (bw_autoTopUpThresholdMicros w);
   if_some micros_ok (bw_autoTopUpAmountMicros w); if_some iso_datetime (bw_autoTopUpLastAt w);
   if_some iso_datetime (bw_firstRequestAt w); iso_datetime (bw_createdAt w)].

Definition member_bounds (m : ExportedMember) : bool := all_true
  [id_ok (bm_workspaceId m); id_ok (bm_userId m); iso_datetime (bm_createdAt m)].

Definition entry_bounds (e : ExportedEntry) : bool := all_true
  [id_ok (bl_id e); id_ok (bl_workspaceId e); micros_ok (bl_amountMicros e); if_some (within 0 128) (bl_reference e);
   if_some (within 0 512) (bl_description e); within 1 128 (bl_idempotencyKey e); iso_datetime (bl_createdAt e)].

Definition code_bounds (c : ExportedInviteCode) : bool := all_true
  [id_ok (bc_id c); within 1 32 (bc_value c); within 0 64 (bc_campaign c); micros_ok (bc_grantMicros c);
   int_ok (Z.leb 1) (bc_maxRedemptions c); int_ok (Z.leb 0) (bc_redemptionCount c); if_some iso_datetime (bc_expiresAt c);
   if_some iso_datetime (bc_withdrawnAt c); if_some (within 0 512) (bc_note c); if_some id_ok (bc_issuedByUserId c);
   iso_datetime (bc_createdAt c)].

Definition redemption_bounds (r : ExportedRedemption) : bool := all_true
  [id_ok (br_id r); id_ok (br_inviteCodeId r); id_ok (br_userId r); id_ok (br_workspaceId r); id_ok (br_creditTransactionId r);
   iso_datetime (br_redeemedAt r)].

Definition key_bounds (k : ExportedApiKey) : bool := all_true
  [id_ok (bk_id k); id_ok (bk_workspaceId k); within 0 255 (bk_name k); hex_ok (bk_keyHash k); within 0 16 (bk_prefix k);
   if_some (forallb (within 0 255)) (bk_modelScope k); if_some micros_ok (bk_spendLimitMicros k); micros_ok (bk_spentTotalMicros k);
   if_some (int_ok any) (bk_requestsPerMinute k); if_some (int_ok any) (bk_tokensPerMinute k); if_some iso_datetime (bk_expiresAt k);
   if_some iso_datetime (bk_lastUsedAt k); if_some iso_datetime (bk_revokedAt k); if_some id_ok (bk_createdByUserId k);
   iso_datetime (bk_createdAt k)].

Definition model_bounds (m : ExportedModel) : bool := all_true
  [within 1 255 (bo_id m); within 1 255 (bo_name m); within 1 255 (bo_upstreamModel m); int_ok (Z.leb 0) (bo_contextLength m);
   micros_ok (bo_promptPer1mMicros m); micros_ok (bo_completionPer1mMicros m)].

Definition endpoint_bounds (e : ExportedExternalEndpoint) : bool := all_true
  [id_ok (be_id e); within 1 64 (be_name e); url_text (be_baseUrl e) && within 0 2048 (be_baseUrl e);
   int_ok (fun p => (1 <=? p) && (p <=? 65535)) (be_listenPort e); if_some (within 0 128) (be_pinnedEvidenceDigest e);
   if_some id_ok (be_createdByUserId e); iso_datetime (be_createdAt e); forallb model_bounds (be_models e)].

Definition measurement_bounds (m : ExportedMeasurement) : bool := all_true
  [id_ok (bt_id m); within 1 64 (bt_measurement m); if_some (within 0 255) (bt_note m); if_some id_ok (bt_addedByUserId m);
   iso_datetime (bt_addedAt m)].

Definition data_bounds (d : ExportData) : bool := all_true
  [forallb user_bounds (bd_users d); forallb workspace_bounds (bd_workspaces d); forallb member_bounds (bd_workspaceMembers d);
   forallb entry_bounds (bd_creditLedger d); forallb code_bounds (bd_inviteCodes d);
   forallb redemption_bounds (bd_inviteRedemptions d); forallb key_bounds (bd_apiKeys d);
   forallb endpoint_bounds (bd_externalEndpoints d); forallb measurement_bounds (bd_trustedMeasurements d)].

Definition counts_bounds (c : ExportCounts) : bool := all_true (map (int_ok any)
  [xc_users c; xc_workspaces c; xc_workspaceMembers c; xc_creditEntries c; xc_inviteCampaigns c; xc_inviteCodes c;
   xc_inviteCodesUnredeemed c; xc_inviteRedemptions c; xc_apiKeys c; xc_apiKeysLive c; xc_externalEndpoints c;
   xc_externalModels c; xc_trustedMeasurements c]).

Definition bundle_bounds (b : ExportBundle) : bool := all_true
  [int_ok any (xb_schemaVersion b); iso_datetime (xb_exportedAt b); counts_bounds (xb_counts b); micros_ok (xb_totalBalanceMicros b);
   data_bounds (xb_data b); hex_ok (xb_contentSha256 b)].
End Bounds.

(** ** Lemmas: the readers against the bounds *)

(** A reader of the texts [f] writes accepts exactly what is within the bounds. *)
Definition reads {A} (p : zod A) (f : A -> json) (ok : A -> bool) : Prop :=
  forall x, p (Some (f x)) = if ok x then Some x else None.

Lemma integer_text_jstring z : integer_text (units (jstring_of_Z z)) = true.
Proof.
  unfold jstring_of_Z. destruct (z <? 0); cbn [units]; [|apply integer_text_digits].
  cbn. apply all_digits_digits.
Qed.

Lemma text_field ok s : z_text ok (Some (JString s)) = if ok s then Some s else None.
Proof. done. Qed.

Lemma text_or_null_field ok o : z_nullable (z_text ok) (Some (text_or_null o)) = if if_some ok o then Some o else None.
Proof. destruct o as [s|]; [|done]. cbn. by destruct (ok s). Qed.

Lemma int_field ok z : z_int ok (Some (JInt z)) = if int_ok ok z then Some z else None.
Proof. unfold JInt, z_int, int_ok. by rewrite Number_of_jstring, integer_text_jstring. Qed.

Lemma number_or_null_field ok o :
  z_nullable (z_int ok) (Some (number_or_null o)) = if if_some (int_ok ok) o then Some o else None.
Proof.
  destruct o as [z|]; [|done]. cbn [number_or_null if_some].
  trans (x ← z_int ok (Some (JInt z)); Some (Some x)); [done|]. rewrite int_field. by destruct (int_ok ok z).
Qed.

Lemma array_field {A} (p : zod A) f ok l : reads p f ok ->
  z_array p (Some (JArray (map f l))) = if forallb ok l then Some l else None.
Proof.
  intros Hp. cbn. induction l as [|x l IH]; cbn; [done|]. rewrite Hp, IH. destruct (ok x); [|done]. cbn. by destruct (forallb ok l).
Qed.

Lemma every_field {A} (p : zod A) f l : reads p f (fun _ => true) -> z_array p (Some (JArray (map f l))) = Some l.
Proof. intros Hp. rewrite (array_field p f (fun _ => true)) by done. by replace (forallb _ l) with true by (by induction l). Qed.

Lemma scope_field ok o :
  z_nullable (z_array (z_text ok)) (Some match o with Some l => JArray (map JString l) | None => JNull end) =
  if if_some (forallb ok) o then Some o else None.
Proof.
  destruct o as [l|]; [|done]. cbn [if_some].
  trans (x ← z_array (z_text ok) (Some (JArray (map JString l))); Some (Some x)); [done|].
  rewrite (array_field _ _ ok) by done. by destruct (forallb ok l).
Qed.

Lemma bool_field b : z_boolean (Some (JBool b)) = Some b.
Proof. done. Qed.

Lemma default_field {A} (d : A) p v : z_default d p (Some v) = p (Some v).
Proof. done. Qed.

Lemma bind_checked {A B} (c : bool) (a : A) (f : A -> option B) : (x ← (if c then Some a else None); f x) = if c then f a else None.
Proof. by destruct c. Qed.

Lemma bind_read {A B} (a : A) (f : A -> option B) : (x ← Some a; f x) = f a.
Proof. done. Qed.

Create HintDb schema.
#[export] Hint Rewrite text_field text_or_null_field int_field number_or_null_field scope_field bool_field @default_field : schema.
#[export] Hint Rewrite @array_field using (assumption || eauto with schema) : schema.

(** The readers of the enumerations read every one of their texts. *)
Ltac enum_texts := repeat match goal with |- context [z_enum ?t (Some (JString (?f ?x)))] =>
  replace (z_enum t (Some (JString (f x)))) with (Some x) by (destruct x; reflexivity) end.

(** A property of an object literal is the value it was given. *)
Ltac literal_members := repeat match goal with |- context [member ?k (JObject ?m)] =>
  let r := eval hnf in (member k (JObject m)) in change (member k (JObject m)) with r end; cbn [snd].

(** An object literal against the reader of its object: the members are looked up, each
    field is read, and the checks are those of the bounds, in the same order. *)
Ltac object_reads :=
  literal_members; autorewrite with schema; enum_texts;
  repeat (first [rewrite bind_checked | rewrite bind_read]; cbv beta); cbn [forallb id map];
  repeat match goal with |- (if ?c then _ else None) = _ => destruct c; cbn [andb]; [|reflexivity] end.

Section Reads.
Context `{SchemaLibrary}.

Lemma user_reads : reads UserSchema user_object user_bounds.
Proof. intros u. unfold UserSchema, user_object, z_object, z_id, z_iso, user_bounds, all_true. object_reads. by destruct u. Qed.

Lemma workspace_reads : reads WorkspaceSchema workspace_object workspace_bounds.
Proof.
  intros w. unfold WorkspaceSchema, workspace_object, z_object, z_id, z_iso, z_micros, workspace_bounds, all_true. object_reads. by destruct w.
Qed.

Lemma member_reads : reads WorkspaceMemberSchema member_object member_bounds.
Proof. intros m. unfold WorkspaceMemberSchema, member_object, z_object, z_id, z_iso, member_bounds, all_true. object_reads. by destruct m. Qed.

Lemma entry_reads : reads CreditEntrySchema entry_object entry_bounds.
Proof.
  intros e. unfold CreditEntrySchema, entry_object, z_object, z_id, z_iso, z_micros, entry_bounds, all_true. object_reads. by destruct e.
Qed.

Lemma code_reads : reads InviteCodeSchema code_object code_bounds.
Proof.
  intros c. unfold InviteCodeSchema, code_object, z_object, z_id, z_iso, z_micros, code_bounds, all_true. object_reads. by destruct c.
Qed.

Lemma redemption_reads : reads InviteRedemptionSchema redemption_object redemption_bounds.
Proof.
  intros r. unfold InviteRedemptionSchema, redemption_object, z_object, z_id, z_iso, redemption_bounds, all_true. object_reads. by destruct r.
Qed.

Lemma purpose_field o :
  z_nullable (z_enum [("console_chat"%js, console_chat)])
    (Some match o with Some console_chat => JString "console_chat" | None => JNull end) = Some o.
Proof. by destruct o as [[]|]. Qed.

Lemma key_reads : reads ApiKeySchema key_object key_bounds.
Proof.
  intros k. unfold ApiKeySchema, key_object, z_object, z_id, z_iso, z_micros, key_bounds, all_true. literal_members.
  rewrite purpose_field. object_reads. by destruct k.
Qed.

Lemma capability_reads :
  reads (z_enum [("chat", cap_chat); ("completions", cap_completions); ("embeddings", cap_embeddings)]%js)
    (fun c => JString (capability_text c)) (fun _ => true).
Proof. by intros []. Qed.

Lemma model_reads : reads ExternalModelSchema model_object model_bounds.
Proof.
  intros m. unfold ExternalModelSchema, model_object, z_object, z_micros, model_bounds, all_true. literal_members.
  rewrite (every_field _ _ _ capability_reads). object_reads. by destruct m.
Qed.
#[local] Hint Resolve user_reads workspace_reads member_reads entry_reads code_reads redemption_reads key_reads model_reads : schema.

Lemma endpoint_reads : reads ExternalEndpointSchema endpoint_object endpoint_bounds.
Proof.
  intros e. unfold ExternalEndpointSchema, endpoint_object, z_object, z_id, z_iso, endpoint_bounds, all_true.
  literal_members. rewrite (array_field _ _ _ _ model_reads). object_reads. by destruct e.
Qed.

Lemma measurement_reads : reads TrustedMeasurementSchema measurement_object measurement_bounds.
Proof.
  intros m. unfold TrustedMeasurementSchema, measurement_object, z_object, z_id, z_iso, measurement_bounds, all_true. object_reads.
  by destruct m.
Qed.

Lemma data_reads : reads DataSchema data_object data_bounds.
Proof.
  intros d. unfold DataSchema, data_object, z_object, data_bounds, all_true. literal_members. rewrite default_field.
  rewrite (array_field _ _ _ _ user_reads), (array_field _ _ _ _ workspace_reads), (array_field _ _ _ _ member_reads),
    (array_field _ _ _ _ entry_reads), (array_field _ _ _ _ code_reads), (array_field _ _ _ _ redemption_reads),
    (array_field _ _ _ _ key_reads), (array_field _ _ _ _ endpoint_reads), (array_field _ _ _ _ measurement_reads).
  object_reads. by destruct d.
Qed.

Lemma counts_reads : reads CountsSchema counts_object counts_bounds.
Proof. intros c. unfold CountsSchema, counts_object, z_object, counts_bounds, all_true. object_reads. by destruct c. Qed.

Lemma source_reads s :
  SourceSchema (Some (JObject [("publicBaseUrl" : jstr, JString (xr_publicBaseUrl s)); ("routerVersion" : jstr, JString (xr_routerVersion s));
                               ("evidenceDigest" : jstr, text_or_null (xr_evidenceDigest s))])) = Some s.
Proof. unfold SourceSchema, z_object. destruct s as [u v [e|]]; reflexivity. Qed.

Lemma format_field : z_text is_format (Some (JString EXPORT_FORMAT)) = Some EXPORT_FORMAT.
Proof. vm_compute. reflexivity. Qed.

(** The schema accepts what the document's literal holds exactly when every value is
    within its bounds, and reads it back as it was. *)
Lemma bundle_reads : reads ExportBundleSchema bundle_object bundle_bounds.
Proof.
  intros b. unfold ExportBundleSchema, bundle_object, z_object, IntegritySchema, z_iso, z_micros, bundle_bounds, all_true. literal_members.
  rewrite source_reads, counts_reads, data_reads.
  unfold z_object. literal_members. rewrite format_field. object_reads. by destruct b.
Qed.

Lemma safeParse_written b :
  safeParse (bundle_object b) = if bundle_bounds b then Ok b else Err (schema_issue (bundle_object b)).
Proof. unfold safeParse. rewrite bundle_reads. by destruct (bundle_bounds b). Qed.
End Reads.
