(* ===== verification/ExportBundle.v ===== *)
(** * The export file

    [data-migration/export-bundle.ts]: one dataset has one text and one hash, no
    field of it may look like a credential, and a file is read back only when what it
    says about itself is what it holds.

    gzip, UTF-8, JSON and SHA-256 are a class; the schema is [BundleSchema]. *)

From S2P Require Import Prelude JsString EvidenceDigest Json Money JsDate Store Workspaces InviteAdmin ApiKeys ExternalCatalog ImportPlan BundleSchema.

(** ** No credentials *)

(** [/pass(word|phrase)|hash|token|secret|ciphertext|api_?key|credential|session/i.test(key)] *)
Definition CREDENTIAL_KEY_PATTERN (key : jstr) : bool :=
  existsb (jincludes (Js (map lower_unit (units key))))
    ["password"; "passphrase"; "hash"; "token"; "secret"; "ciphertext"; "apikey"; "api_key"; "credential"; "session"].

Definition CARRIED_NON_CREDENTIAL_PATHS : list jstr :=
  ["apiKeys"; "apiKeys[].keyHash"; "apiKeys[].tokensPerMinute"; "counts.apiKeys"; "counts.apiKeysLive"].

Definition isExcusedPath (path : jstr) : bool :=
  existsb (fun allowed => jeqb path allowed || jeqb path ("data." +++ allowed)) CARRIED_NON_CREDENTIAL_PATHS.

Definition path_at (path key : jstr) : jstr := if jlength path =? 0 then key else path +++ "." +++ key.

Fixpoint credentialShapedKeys (value : json) (path : jstr) : list jstr :=
  match value with
  | JArray (first :: _) => credentialShapedKeys first (path +++ "[]")
  | JObject members =>
      concat (map (fun kv =>
        let here := path_at path (fst kv) in
        (if negb (jeqb (fst kv) "idempotencyKey") && negb (isExcusedPath here) && CREDENTIAL_KEY_PATTERN (fst kv)
         then [here] else []) ++ credentialShapedKeys (snd kv) here) members)
  | _ => []
  end.

(** ** The file *)

Class BundlePlatform := {
  gzipSync : list N -> list N;
  gunzipSync : Z -> list N -> option (list N);     (* [maxOutputLength]; [None] when it throws *)
  utf8_bytes_of : jstr -> list N;
  utf8_text_of : list N -> jstr;
  sha256_hex : jstr -> jstr                        (* of the text's UTF-8 *)
}.

Inductive bundle_error := CredentialShaped (message : jstr) | BundleRefusedError (message : jstr).

Section File.
Context `{JsonEngine} `{BundlePlatform} `{SchemaLibrary}.

(** JSON with the keys sorted at every level. *)
Fixpoint canonicalJson (value : json) : jstr :=
  match value with
  | JArray items => "[" +++ jjoin "," (map canonicalJson items) +++ "]"
  | JObject members =>
      "{" +++ jjoin "," (map (fun kv => json_stringify (JString (fst kv)) +++ ":" +++ snd kv)
                           (sort_by (fun a b => jltb (fst a) (fst b)) (map (fun kv => (fst kv, canonicalJson (snd kv))) members)))
          +++ "}"
  | _ => json_stringify value
  end.

Definition contentSha256 (data : json) : jstr := sha256_hex (canonicalJson data).

Definition buildBundle (data : ExportData) (source : ExportSource) (exportedAt : Z) : result bundle_error ExportBundle :=
  let leaked := credentialShapedKeys (data_object data) (Js []) in
  throw (CredentialShaped ("The export would carry credential-shaped fields (" +++ jjoin ", " leaked +++ "); refusing to write it."))
    when negb (bool_decide (leaked = []));
  Ok {| xb_schemaVersion := EXPORT_SCHEMA_VERSION; xb_exportedAt := toISOString exportedAt; xb_source := source;
        xb_counts := countsOf data; xb_totalBalanceMicros := totalBalanceMicros data; xb_data := data;
        xb_contentSha256 := contentSha256 (data_object data) |}.

Definition encodeBundle (bundle : ExportBundle) : list N := gzipSync (utf8_bytes_of (json_stringify (bundle_object bundle))).

(** [z.number().int()]: the text of a safe integer. *)
Definition int_text (v : option json) : option jstr :=
  match v with
  | Some (JNumber t) => if integer_text (units t) && isSafeInteger (Number_of_integer (units t)) then Some t else None
  | _ => None
  end.

Definition refused {A} (message : jstr) : result bundle_error A := Err (BundleRefusedError message).

Definition malformed (issue : jstr * jstr) : jstr :=
  "The export is malformed at " +++ (if jlength (fst issue) =? 0 then "(root)" else fst issue) +++ ": " +++ snd issue +++ ".".

Definition decodeBundle (file : list N) : result bundle_error ExportBundle :=
  throw (BundleRefusedError "The upload is empty.") when match file with [] => true | _ => false end;
  match gunzipSync MAX_INFLATED_BYTES file with
  | None => refused "The file is not a gzip archive, so it is not a router export."
  | Some bytes =>
  match json_parse (utf8_text_of bytes) with
  | None => refused "The file does not contain JSON, so it is not a router export."
  | Some raw =>
  match is_text EXPORT_FORMAT (member "format" raw), int_text (member "schemaVersion" raw) with
  | true, Some version =>
      throw (BundleRefusedError ("The export is schema version " +++ version +++ "; this deployment reads version " +++
               jstring_of_Z EXPORT_SCHEMA_VERSION +++ ". Import it into a build that knows that version."))
        when negb (jeqb version (jstring_of_Z EXPORT_SCHEMA_VERSION));
      let leaked := match member "data" raw with Some d => credentialShapedKeys d (Js []) | None => [] end in
      throw (BundleRefusedError ("The export carries credential-shaped fields (" +++ jjoin ", " leaked +++
               "). A router export never does, so this file is refused."))
        when negb (bool_decide (leaked = []));
      match safeParse raw with
      | Err issue => refused (malformed issue)
      | Ok bundle =>
          throw (BundleRefusedError
                   "The export’s contents do not match its own SHA-256, so it was altered or damaged after it was written.")
            when negb (bool_decide (contentSha256 <$> member "data" raw = Some (xb_contentSha256 bundle)));
          throw (BundleRefusedError "The export’s manifest counts do not match its contents.")
            when negb (jeqb (canonicalJson (counts_object (countsOf (xb_data bundle))))
                            (canonicalJson (counts_object (xb_counts bundle))));
          throw (BundleRefusedError "The export’s total balance does not match its workspaces.")
            when negb (jeqb (totalBalanceMicros (xb_data bundle)) (xb_totalBalanceMicros bundle));
          Ok bundle
      end
  | _, _ => refused "The file is not a router export."
  end end end.
End File.

(** ** Lemmas: order *)

Lemma insert_by_comm {A} (before : A -> A -> bool) a b l :
  (forall x y, before x y = true -> before y x = false) ->
  (forall x y z, before x y = true -> before y z = true -> before x z = true) -> before a b = true ->
  insert_by before a (insert_by before b l) = insert_by before b (insert_by before a l).
Proof.
  intros Hasym Htrans Hab. pose proof (Hasym _ _ Hab) as Hba. induction l as [|y l IH]; cbn; [by rewrite Hab, Hba|].
  destruct (before y b) eqn:Eb, (before y a) eqn:Ea; cbn; rewrite ?Ea, ?Eb, ?Hab, ?Hba; cbn; rewrite ?Ea, ?Eb; [by rewrite IH|done|..|done].
  by rewrite (Htrans _ _ _ Ea Hab) in Eb.
Qed.

Lemma sort_by_swap {A} (key : A -> jstr) a b pre post : key a <> key b ->
  let before x y := jltb (key x) (key y) in
  sort_by before (pre ++ a :: b :: post) = sort_by before (pre ++ b :: a :: post).
Proof.
  intros Hne before.
  assert (Hasym : forall x y, before x y = true -> before y x = false).
  { intros x y Hxy. unfold before in *. destruct (jltb (key y) (key x)) eqn:E; [|done].
    pose proof (jltb_trans _ _ _ Hxy E) as Hx. by rewrite jltb_irrefl in Hx. }
  assert (Htrans : forall x y z, before x y = true -> before y z = true -> before x z = true).
  { intros x y z. apply jltb_trans. }
  induction pre as [|p pre IH]; cbn; [|by fold (sort_by before (pre ++ a :: b :: post)) (sort_by before (pre ++ b :: a :: post)); rewrite IH].
  fold (sort_by before post). destruct (before a b) eqn:E; [by apply insert_by_comm|].
  destruct (before b a) eqn:E'; [symmetry; by apply insert_by_comm|]. by destruct (Hne (jltb_total _ _ E E')).
Qed.

(** One value written in another order of its members, at any depth. *)
Inductive reordered : json -> json -> Prop :=
| ro_swap pre a b post : fst a <> fst b -> reordered (JObject (pre ++ a :: b :: post)) (JObject (pre ++ b :: a :: post))
| ro_member pre k v v' post : reordered v v' -> reordered (JObject (pre ++ (k, v) :: post)) (JObject (pre ++ (k, v') :: post))
| ro_item pre v v' post : reordered v v' -> reordered (JArray (pre ++ v :: post)) (JArray (pre ++ v' :: post))
| ro_refl v : reordered v v
| ro_trans u v w : reordered u v -> reordered v w -> reordered u w.

(** ** Lemmas: no credential-shaped field *)

Lemma no_shapes_object members path :
  Forall (fun kv => negb (jeqb (fst kv) "idempotencyKey") && negb (isExcusedPath (path_at path (fst kv))) &&
                      CREDENTIAL_KEY_PATTERN (fst kv) = false /\
                    credentialShapedKeys (snd kv) (path_at path (fst kv)) = []) members ->
  credentialShapedKeys (JObject members) path = [].
Proof. induction 1 as [|kv members [Hk Hv] _ IH]; cbn in *; [done|]. by rewrite Hk, Hv, IH. Qed.

Lemma no_shapes_array {A} (f : A -> json) rows path :
  (forall r, credentialShapedKeys (f r) (path +++ "[]") = []) -> credentialShapedKeys (JArray (map f rows)) path = [].
Proof. intros Hf. destruct rows; [done|apply Hf]. Qed.

Lemma no_shapes_text o path : credentialShapedKeys (text_or_null o) path = [].
Proof. by destruct o. Qed.

Lemma no_shapes_number o path : credentialShapedKeys (number_or_null o) path = [].
Proof. by destruct o. Qed.

(** The members of one object literal, each by computing its key. *)
Ltac shapes :=
  apply no_shapes_object; repeat apply Forall_cons_2; [..|apply Forall_nil_2];
  (split; [vm_compute; reflexivity|]); cbn [fst snd];
  try first [reflexivity|apply no_shapes_text|apply no_shapes_number|by repeat case_match].

Lemma data_object_clean data : credentialShapedKeys (data_object data) (Js []) = [].
Proof.
  shapes; apply no_shapes_array; intros r; shapes.
  - destruct (bk_modelScope r) as [[|x l]|]; reflexivity.
  - apply no_shapes_array. intros m. shapes. destruct (bo_capabilities m); reflexivity.
Qed.

Lemma bundle_format b : is_text EXPORT_FORMAT (member "format" (bundle_object b)) = true.
Proof. vm_compute. reflexivity. Qed.

Lemma bundle_data b : member "data" (bundle_object b) = Some (data_object (xb_data b)).
Proof. reflexivity. Qed.

Lemma bundle_version b : int_text (member "schemaVersion" (bundle_object b)) =
  if integer_text (units (jstring_of_Z (xb_schemaVersion b))) && isSafeInteger (Number_of_integer (units (jstring_of_Z (xb_schemaVersion b))))
  then Some (jstring_of_Z (xb_schemaVersion b)) else None.
Proof. reflexivity. Qed.

(** ** Theorems *)

Section Theorems.
Context `{JsonEngine} `{BundlePlatform} `{SchemaLibrary}.

(** One dataset has one text, whatever order its objects were built in: values that
    differ in the order of members, at any depth, have the same canonical JSON, and so
    the same hash; an array keeps its order. *)
Theorem canonical_text_is_of_the_data v v' :
  reordered v v' -> canonicalJson v = canonicalJson v' /\ contentSha256 v = contentSha256 v'.
Proof.
  intros Hr. assert (E : canonicalJson v = canonicalJson v'); [|split; [done|by unfold contentSha256; rewrite E]].
  induction Hr as [pre a b post Hne|pre k v v' post _ IH|pre v v' post _ IH|v|u v w _ IH1 _ IH2]; [| | |done|congruence].
  - cbn [canonicalJson]. rewrite !map_app. cbn [map]. by rewrite (sort_by_swap fst).
  - cbn [canonicalJson]. rewrite !map_app. cbn [map fst snd]. by rewrite IH.
  - cbn [canonicalJson]. rewrite !map_app. cbn [map]. by rewrite IH.
Qed.

(** What gzip, SHA-256, and JSON through UTF-8 do: the bytes come back, a digest is 64
    hexadecimal digits, and a document JSON and UTF-8 carry comes back as it was. *)
Class BundleLaws (carried : ExportBundle -> Prop) := {
  gunzip_gzip : forall bytes, Z.of_nat (length bytes) <= MAX_INFLATED_BYTES ->
    gunzipSync MAX_INFLATED_BYTES (gzipSync bytes) = Some bytes /\ gzipSync bytes <> [];
  digest_is_hex : forall s, hex_ok (sha256_hex s) = true;
  written_bundle : forall b, carried b ->
    json_parse (utf8_text_of (utf8_bytes_of (json_stringify (bundle_object b)))) = Some (bundle_object b)
}.

(** Of a bundle that was just built, the schema judges the instant, the counts and the data. *)
Lemma built_bounds `{BundleLaws carried} source exportedAt data :
  bundle_bounds {| xb_schemaVersion := EXPORT_SCHEMA_VERSION; xb_exportedAt := exportedAt; xb_source := source;
                   xb_counts := countsOf data; xb_totalBalanceMicros := totalBalanceMicros data; xb_data := data;
                   xb_contentSha256 := contentSha256 (data_object data) |} =
  all_true [iso_datetime exportedAt; counts_bounds (countsOf data); data_bounds data].
Proof.
  unfold bundle_bounds, all_true. cbn [forallb id xb_schemaVersion xb_exportedAt xb_counts xb_totalBalanceMicros xb_data xb_contentSha256].
  unfold contentSha256. rewrite digest_is_hex. unfold micros_ok, totalBalanceMicros. rewrite integer_text_jstring. cbn.
  by destruct (iso_datetime exportedAt), (counts_bounds (countsOf data)), (data_bounds data).
Qed.

(** C29. An export can always be written: no dataset trips the guard against
    credential-shaped fields.  And the file that is written, when it inflates to at most
    256 MiB and its texts survive JSON and UTF-8, passes the reader's checks and answers
    the very bundle exactly when its instant, its counts and every field of its data are
    within the bounds of the schema; otherwise the reader refuses it as malformed, with
    the schema's first issue. *)
Theorem export_file_roundtrip `{BundleLaws carried} data source at_ :
  exists b, buildBundle data source at_ = Ok b /\ xb_data b = data /\ xb_source b = source /\
    (carried b -> Z.of_nat (length (utf8_bytes_of (json_stringify (bundle_object b)))) <= MAX_INFLATED_BYTES ->
     decodeBundle (encodeBundle b) =
       if all_true [iso_datetime (toISOString at_); counts_bounds (countsOf data); data_bounds data] then Ok b
       else Err (BundleRefusedError (malformed (schema_issue (bundle_object b))))).
Proof.
  eexists. split; [unfold buildBundle; by rewrite data_object_clean|]. do 2 (split; [done|]). intros Hc Hlen.
  destruct (gunzip_gzip _ Hlen) as [Hz Hne]. unfold decodeBundle, encodeBundle.
  destruct (gzipSync _) as [|z zs] eqn:Ez; [done|]. rewrite Hz, written_bundle, safeParse_written, built_bounds by done.
  rewrite bundle_format, bundle_version, bundle_data. cbn [xb_schemaVersion xb_data xb_contentSha256 xb_counts xb_totalBalanceMicros].
  rewrite data_object_clean. destruct (all_true _); [|done].
  rewrite !jeqb_refl. cbn [fmap option_fmap option_map]. by rewrite !bool_decide_eq_true_2.
Qed.

(** A file that reads as a bundle is whole: it has this version, no credential-shaped
    field in its data, the hash it states is that of its data as it stands in the file,
    and its total and its counts are those of the data. *)
Theorem decoded_file_is_whole file b : decodeBundle file = Ok b ->
  exists bytes raw d, gunzipSync MAX_INFLATED_BYTES file = Some bytes /\ json_parse (utf8_text_of bytes) = Some raw /\
    int_text (member "schemaVersion" raw) = Some (jstring_of_Z EXPORT_SCHEMA_VERSION) /\
    member "data" raw = Some d /\ credentialShapedKeys d (Js []) = [] /\ contentSha256 d = xb_contentSha256 b /\
    safeParse raw = Ok b /\ totalBalanceMicros (xb_data b) = xb_totalBalanceMicros b /\
    canonicalJson (counts_object (countsOf (xb_data b))) = canonicalJson (counts_object (xb_counts b)).
Proof.
  unfold decodeBundle, refused, throw_if. intros Hd.
  repeat match type of Hd with (match ?x with _ => _ end) = Ok _ => destruct x eqn:?; try discriminate Hd end.
  injection Hd as ->.
  repeat match goal with E : (if ?c then Err _ else Ok tt) = _ |- _ => destruct c eqn:?; [discriminate E|clear E] end.
  repeat match goal with
  | E : negb _ = false |- _ => apply negb_false_iff in E
  | E : jeqb _ _ = true |- _ => apply jeqb_eq in E
  | E : bool_decide _ = true |- _ => apply bool_decide_eq_true in E
  end.
  destruct (member "data" _) as [d|] eqn:Ed; [|done].
  repeat match goal with E : _ <$> Some _ = Some _ |- _ => injection E as E end.
  eexists _, _, d. split_and!; try eassumption; congruence.
Qed.
End Theorems.

(** ** Witnesses *)

Definition sample_data : ExportData :=
  {| bd_users := [{| bu_id := "u1"; bu_email := "ann@example.test"; bu_name := "Ann"; bu_emailVerified := true; bu_image := None;
                     bu_createdAt := toISOString 0; bu_role := role_user; bu_origin := origin_open; bu_invitedByCodeId := None |}];
     bd_workspaces := [{| bw_id := "w1"; bw_name := "Ann"; bw_slug := "ann"; bw_balanceMicros := "7"; bw_stripeCustomerId := None;
                          bw_autoTopUpEnabled := false; bw_autoTopUpThresholdMicros := None; bw_autoTopUpAmountMicros := None;
                          bw_autoTopUpLastAt := None; bw_firstRequestAt := None; bw_createdAt := toISOString 0 |}];
     bd_workspaceMembers := [{| bm_workspaceId := "w1"; bm_userId := "u1"; bm_role := role_owner; bm_createdAt := toISOString 0 |}];
     bd_creditLedger := [{| bl_id := "t1"; bl_workspaceId := "w1"; bl_kind := grant; bl_amountMicros := "7"; bl_reference := None;
                            bl_description := None; bl_idempotencyKey := "signup:u1"; bl_createdAt := toISOString 0 |}];
     bd_inviteCodes := []; bd_inviteRedemptions := []; bd_apiKeys := []; bd_externalEndpoints := []; bd_trustedMeasurements := [] |}.

Definition sample_source : ExportSource :=
  {| xr_publicBaseUrl := "https://router.test"; xr_routerVersion := "1"; xr_evidenceDigest := None |}.

(** Not SHA-256, but of its shape: 64 hexadecimal digits. *)
Definition toy_hash (s : jstr) : jstr := jrepeat (hex_digit (fold_right N.add 0%N (units s) mod 16)) 64.

Lemma toy_hash_is_hex s : hex_ok (toy_hash s) = true.
Proof.
  unfold toy_hash. pose proof (N.mod_lt (fold_right N.add 0%N (units s)) 16 ltac:(done)) as Hd.
  assert (Hall : forallb (fun d => hex_ok (jrepeat (hex_digit d) 64)) (map N.of_nat (seq 0 16)) = true) by (vm_compute; reflexivity).
  apply (proj1 (forallb_forall _ _) Hall), in_map_iff. exists (N.to_nat (fold_right N.add 0%N (units s) mod 16)).
  split; [lia|]. apply in_seq. lia.
Qed.

Definition within_the_year_9999 (s : jstr) : bool := jlength s =? 24.

#[local] Instance toy_schema : SchemaLibrary := {|
  iso_datetime := within_the_year_9999; url_text _ := true; schema_issue _ := (Js [], "invalid" : jstr) |}.

Definition sample_bundle : ExportBundle :=
  {| xb_schemaVersion := 1; xb_exportedAt := toISOString 0; xb_source := sample_source; xb_counts := countsOf sample_data;
     xb_totalBalanceMicros := totalBalanceMicros sample_data; xb_data := sample_data;
     xb_contentSha256 := toy_hash (@canonicalJson {| json_parse _ := None; json_stringify := String_json |} (data_object sample_data)) |}.

#[local] Instance toy_engine : JsonEngine := {|
  json_parse s := if jlength s =? 0 then None else Some (bundle_object sample_bundle);
  json_stringify := String_json |}.

#[local] Instance toy_bundle_platform : BundlePlatform := {|
  gzipSync bytes := 31%N :: bytes;
  gunzipSync limit file := match file with 31%N :: bytes => Some bytes | _ => None end;
  utf8_bytes_of s := units s;
  utf8_text_of b := Js b;
  sha256_hex := toy_hash |}.

#[local] Instance toy_bundle_laws : BundleLaws (fun b => b = sample_bundle).
Proof. split; [done|exact toy_hash_is_hex|by intros ? ->]. Qed.

Lemma canonical_text_is_of_the_data_witness :
  canonicalJson (JObject [("b" : jstr, JNull); ("a" : jstr, JArray [JBool true])]) =
  canonicalJson (JObject [("a" : jstr, JArray [JBool true]); ("b" : jstr, JNull)]).
Proof.
  apply (canonical_text_is_of_the_data
    (JObject [("b" : jstr, JNull); ("a" : jstr, JArray [JBool true])])
    (JObject [("a" : jstr, JArray [JBool true]); ("b" : jstr, JNull)])).
  apply (ro_swap [] ("b" : jstr, JNull) ("a" : jstr, JArray [JBool true]) []). vm_compute. discriminate.
Defined.

Lemma export_file_roundtrip_witness : decodeBundle (encodeBundle sample_bundle) = Ok sample_bundle.
Proof.
  destruct (export_file_roundtrip (carried := fun b => b = sample_bundle) sample_data sample_source 0) as (b & Hb & _ & _ & Hr).
  assert (E : b = sample_bundle) by (vm_compute in Hb; injection Hb as <-; vm_compute; reflexivity).
  rewrite E in Hr. etrans; [apply Hr; [reflexivity|vm_compute; discriminate]|vm_compute; reflexivity].
Defined.

Lemma decoded_file_is_whole_witness :
  totalBalanceMicros (xb_data sample_bundle) = xb_totalBalanceMicros sample_bundle /\
  decodeBundle (tl (encodeBundle sample_bundle)) = Err (BundleRefusedError "The file is not a gzip archive, so it is not a router export.").
Proof.
  assert (E : decodeBundle (encodeBundle sample_bundle) = Ok sample_bundle) by (vm_compute; reflexivity).
  split; [|vm_compute; reflexivity].
  destruct (decoded_file_is_whole _ _ E) as (bytes & raw & d & H). apply H.
Defined.
