(* ===== verification/DataMigration.v ===== *)
(** * Carrying a deployment into another

    [data-migration/data-export.service.ts], [data-import.service.ts] and the account
    import of [auth/auth.service.ts]: the read of every table into a bundle, the dry
    run, and the import, whose accounts go in one by one before one transaction
    writes the rest.

    Amounts are the integers of the columns; [Number(text)] rounds to a double.  An
    instant is read back by [parse_iso], or by the engine's [Date.parse] for texts
    this code does not write; an instant that does not parse fails the insert. *)

From S2P Require Import Prelude JsString Json Money JsDate Store Workspaces InviteCodes Invites InviteAdmin.
From S2P Require Import ApiKeys StatusProjection ExternalCatalog SidecarConfig EndpointAdmin ImportPlan BundleSchema ExportBundle.

(** ** The tables *)

Record AuthUserRecord := {
  pu_id : jstr;
  pu_email : jstr;
  pu_name : jstr;
  pu_emailVerified : bool;
  pu_image : option jstr;
  pu_createdAt : Z
}.

Record WorkspaceRow := { dw_id : jstr; dw_name : jstr; dw_slug : jstr; dw_columns : Workspace }.

Record InviteCodeRow := { dc_id : jstr; dc_columns : InviteCode }.

Record EndpointRow := { dx_endpoint : ExternalEndpoint; dx_details : EndpointDetails }.

Record Deployment := {
  dp_users : list AuthUserRecord;
  dp_workspaces : list WorkspaceRow;
  dp_members : list WorkspaceMember;
  dp_ledger : list CreditTransaction;
  dp_inviteCodes : list InviteCodeRow;
  dp_redemptions : list InviteRedemption;
  dp_apiKeys : list ApiKey;
  dp_endpoints : list EndpointRow;
  dp_models : list Model;
  dp_measurements : list TrustedMeasurement
}.

Definition empty_deployment : Deployment :=
  {| dp_users := []; dp_workspaces := []; dp_members := []; dp_ledger := []; dp_inviteCodes := []; dp_redemptions := [];
     dp_apiKeys := []; dp_endpoints := []; dp_models := []; dp_measurements := [] |}.

(** [{ createdAt: 'ASC', id: 'ASC' }] *)
Definition by_time_and {A} (at_ : A -> Z) (id : A -> jstr) (a b : A) : bool :=
  (at_ a <? at_ b) || (at_ a =? at_ b) && jltb (id a) (id b).

Definition dx_id (e : EndpointRow) : jstr := ee_id (dx_endpoint e).
Definition dx_createdAt (e : EndpointRow) : Z := ed_createdAt (dx_details e).

(** ** The export *)

Section Exporting.
Context (toLowerCase : jstr -> jstr) (bootstrapEmail : jstr) (adminEmails : list jstr).

Definition isAdminEmail (email : jstr) : bool :=
  let allowed := List.filter (fun e => negb (jlength e =? 0)) (map (fun e => toLowerCase (jtrim e)) adminEmails) in
  negb (jlength email =? 0) && listed (toLowerCase (jtrim email)) allowed.

Definition exportedStatus (code : InviteCode) (now : Z) : ExportedStatus :=
  match status_of code now with
  | st_active => code_unredeemed | st_redeemed => code_redeemed | st_expired => code_expired | st_withdrawn => code_withdrawn
  end.

(** [new Map(redemptions.map(row => [row.userId, row.inviteCodeId]))] *)
Definition invitedBy (redemptions : list InviteRedemption) : list (jstr * jstr) :=
  map (fun r => (ir_userId r, ir_inviteCodeId r)) redemptions.

Definition export_user (invited : list (jstr * jstr)) (u : AuthUserRecord) : ExportedUser :=
  {| bu_id := pu_id u; bu_email := pu_email u; bu_name := pu_name u; bu_emailVerified := pu_emailVerified u;
     bu_image := pu_image u; bu_createdAt := toISOString (pu_createdAt u);
     bu_role := if isAdminEmail (pu_email u) then role_admin else role_user;
     bu_origin := if has_key (pu_id u) invited then origin_invite
                  else if jeqb (toLowerCase (pu_email u)) (toLowerCase bootstrapEmail) then origin_bootstrap else origin_open;
     bu_invitedByCodeId := map_get (pu_id u) invited |}.

Definition export_workspace (w : WorkspaceRow) : ExportedWorkspace :=
  let c := dw_columns w in
  {| bw_id := dw_id w; bw_name := dw_name w; bw_slug := dw_slug w; bw_balanceMicros := jstring_of_Z (balanceMicros c);
     bw_stripeCustomerId := stripeCustomerId c; bw_autoTopUpEnabled := autoTopUpEnabled c;
     bw_autoTopUpThresholdMicros := jstring_of_Z <$> autoTopUpThresholdMicros c;
     bw_autoTopUpAmountMicros := jstring_of_Z <$> autoTopUpAmountMicros c;
     bw_autoTopUpLastAt := toISOString <$> autoTopUpLastAt c; bw_firstRequestAt := toISOString <$> firstRequestAt c;
     bw_createdAt := toISOString (ws_createdAt c) |}.

Definition export_member (m : WorkspaceMember) : ExportedMember :=
  {| bm_workspaceId := dm_workspaceId m; bm_userId := dm_userId m; bm_role := dm_role m;
     bm_createdAt := toISOString (dm_createdAt m) |}.

Definition export_entry (e : CreditTransaction) : ExportedEntry :=
  {| bl_id := ct_id e; bl_workspaceId := ct_workspaceId e; bl_kind := ct_kind e;
     bl_amountMicros := jstring_of_Z (ct_amountMicros e); bl_reference := ct_reference e;
     bl_description := ct_description e; bl_idempotencyKey := ct_idempotencyKey e;
     bl_createdAt := toISOString (ct_createdAt e) |}.

Definition export_code (now : Z) (row : InviteCodeRow) : ExportedInviteCode :=
  let c := dc_columns row in
  {| bc_id := dc_id row; bc_value := ic_code c; bc_campaign := ic_campaign c; bc_grantMicros := jstring_of_Z (ic_grantMicros c);
     bc_maxRedemptions := ic_maxRedemptions c; bc_redemptionCount := ic_redemptionCount c;
     bc_status := exportedStatus c now; bc_expiresAt := toISOString <$> ic_expiresAt c;
     bc_withdrawnAt := toISOString <$> ic_disabledAt c; bc_note := ic_note c; bc_issuedByUserId := ic_issuedByUserId c;
     bc_createdAt := toISOString (ic_createdAt c) |}.

Definition export_redemption (r : InviteRedemption) : ExportedRedemption :=
  {| br_id := ir_id r; br_inviteCodeId := ir_inviteCodeId r; br_userId := ir_userId r; br_workspaceId := ir_workspaceId r;
     br_creditTransactionId := ir_creditTransactionId r; br_redeemedAt := toISOString (ir_redeemedAt r) |}.

Definition export_key (known : jstr -> bool) (k : ApiKey) : ExportedApiKey :=
  {| bk_id := ak_id k; bk_workspaceId := ak_workspaceId k; bk_name := ak_name k; bk_keyHash := ak_keyHash k;
     bk_prefix := ak_prefix k; bk_purpose := ak_purpose k; bk_modelScope := ak_modelScope k;
     bk_spendLimitMicros := jstring_of_Z <$> ak_spendLimitMicros k; bk_spentTotalMicros := jstring_of_Z (ak_spentTotalMicros k);
     bk_requestsPerMinute := ak_requestsPerMinute k; bk_tokensPerMinute := ak_tokensPerMinute k;
     bk_expiresAt := toISOString <$> ak_expiresAt k; bk_lastUsedAt := toISOString <$> ak_lastUsedAt k;
     bk_revokedAt := toISOString <$> ak_revokedAt k;
     bk_createdByUserId := match ak_createdByUserId k with Some id => if known id then Some id else None | None => None end;
     bk_createdAt := toISOString (ak_createdAt k) |}.

Definition export_model (m : Model) : ExportedModel :=
  {| bo_id := m_id m; bo_name := m_name m; bo_upstreamModel := m_litellmModel m; bo_contextLength := m_contextLength m;
     bo_capabilities := m_capabilities m; bo_promptPer1mMicros := jstring_of_Z (m_promptPer1mMicros m);
     bo_completionPer1mMicros := jstring_of_Z (m_completionPer1mMicros m); bo_enabled := m_enabled m |}.

Definition export_endpoint (models : list Model) (row : EndpointRow) : ExportedExternalEndpoint :=
  let e := dx_endpoint row in
  {| be_id := ee_id e; be_name := ee_name e; be_baseUrl := ee_baseUrl e; be_listenPort := ee_listenPort e;
     be_enabled := ee_enabled e; be_pinnedEvidenceDigest := ee_pinnedEvidenceDigest e;
     be_createdByUserId := ed_createdByUserId (dx_details row); be_createdAt := toISOString (dx_createdAt row);
     be_models := map export_model (List.filter (fun m => bool_decide (m_externalEndpointId m = Some (ee_id e))) models) |}.

Definition export_measurement (m : TrustedMeasurement) : ExportedMeasurement :=
  {| bt_id := tm_id m; bt_measurement := tm_measurement m; bt_note := tm_note m; bt_addedByUserId := tm_addedByUserId m;
     bt_addedAt := toISOString (tm_addedAt m) |}.

(** The order each table is read in. *)
Definition sorted_users (d : Deployment) := sort_by (fun a b => pu_createdAt a <? pu_createdAt b) (dp_users d).
Definition sorted_workspaces (d : Deployment) := sort_by (by_time_and (fun w => ws_createdAt (dw_columns w)) dw_id) (dp_workspaces d).
Definition sorted_members (d : Deployment) := sort_by (by_time_and dm_createdAt dm_workspaceId) (dp_members d).
Definition sorted_ledger (d : Deployment) := sort_by (by_time_and ct_createdAt ct_id) (dp_ledger d).
Definition sorted_codes (d : Deployment) := sort_by (by_time_and (fun c => ic_createdAt (dc_columns c)) dc_id) (dp_inviteCodes d).
Definition sorted_redemptions (d : Deployment) := sort_by (by_time_and ir_redeemedAt ir_id) (dp_redemptions d).
Definition sorted_keys (d : Deployment) := sort_by (by_time_and ak_createdAt ak_id) (dp_apiKeys d).
Definition sorted_endpoints (d : Deployment) := sort_by (by_time_and dx_createdAt dx_id) (dp_endpoints d).
Definition sorted_models (d : Deployment) :=
  sort_by (fun a b => jltb (m_id a) (m_id b)) (List.filter (fun m => bool_decide (m_origin m = origin_external)) (dp_models d)).
Definition sorted_measurements (d : Deployment) := sort_by (by_time_and tm_addedAt tm_id) (dp_measurements d).

Definition read (now : Z) (d : Deployment) : ExportData :=
  let known id := listed id (map pu_id (sorted_users d)) in
  {| bd_users := map (export_user (invitedBy (sorted_redemptions d))) (sorted_users d);
     bd_workspaces := map export_workspace (sorted_workspaces d);
     bd_workspaceMembers := map export_member (List.filter (fun m => known (dm_userId m)) (sorted_members d));
     bd_creditLedger := map export_entry (sorted_ledger d);
     bd_inviteCodes := map (export_code now) (sorted_codes d);
     bd_inviteRedemptions := map export_redemption (List.filter (fun r => known (ir_userId r)) (sorted_redemptions d));
     bd_apiKeys := map (export_key known) (sorted_keys d);
     bd_externalEndpoints := map (export_endpoint (sorted_models d)) (sorted_endpoints d);
     bd_trustedMeasurements := map export_measurement (sorted_measurements d) |}.
End Exporting.

(** ** The import *)

(** [Number(text)] of an integer: the nearest double, ties to even. *)
Definition nearest_double (z : Z) : Z :=
  let m := Z.abs z in
  if m <=? 2 ^ 53 then z
  else
    let unit := 2 ^ (Z.log2 m - 52) in
    let q := m / unit in
    let r := m mod unit in
    let q' := if 2 * r <? unit then q else if unit <? 2 * r then q + 1 else if Z.even q then q else q + 1 in
    Z.sgn z * (q' * unit).

Definition numberOf (text : jstr) : Z := nearest_double (BigInt text).
Definition numberOrNull (text : option jstr) : option Z := numberOf <$> text.

Inductive write_error := unique_violation | foreign_key_violation | invalid_date | invalid_url.

Notation written A := (result write_error A).

(** [INSERT]: every row in turn against the keys of the table and the tables it names. *)
Fixpoint insert_rows {A} (clash : A -> A -> bool) (refers : A -> bool) (rows table : list A) : written (list A) :=
  match rows with
  | [] => Ok table
  | row :: rows =>
      throw foreign_key_violation when negb (refers row);
      throw unique_violation when existsb (clash row) table;
      insert_rows clash refers rows (table ++ [row])
  end.

Definition same {A} (key : A -> jstr) (a b : A) : bool := jeqb (key a) (key b).

Definition optional {A B} (f : A -> written B) (o : option A) : written (option B) :=
  match o with Some a => b ← f a; Ok (Some b) | None => Ok None end.

Section Importing.
Context `{UrlParser} (toLowerCase : jstr -> jstr).
(** [Date.parse] of the texts this code does not write. *)
Context (other_date : jstr -> option Z).

Definition dateOf (text : jstr) : written Z :=
  match parse_iso text with
  | Some t => Ok t
  | None => match other_date text with Some t => Ok t | None => Err invalid_date end
  end.

Definition dateOrNull : option jstr -> written (option Z) := optional dateOf.

Definition workspace_row (w : ExportedWorkspace) : written WorkspaceRow :=
  autoTopUpLastAt ← dateOrNull (bw_autoTopUpLastAt w);
  firstRequestAt ← dateOrNull (bw_firstRequestAt w);
  createdAt ← dateOf (bw_createdAt w);
  Ok {| dw_id := bw_id w; dw_name := bw_name w; dw_slug := bw_slug w;
        dw_columns := {| balanceMicros := 0; stripeCustomerId := bw_stripeCustomerId w;
                         autoTopUpEnabled := bw_autoTopUpEnabled w;
                         autoTopUpThresholdMicros := numberOrNull (bw_autoTopUpThresholdMicros w);
                         autoTopUpAmountMicros := numberOrNull (bw_autoTopUpAmountMicros w);
                         autoTopUpLastAt := autoTopUpLastAt; firstRequestAt := firstRequestAt; ws_createdAt := createdAt |} |}.

Definition member_row (m : ExportedMember) : written WorkspaceMember :=
  createdAt ← dateOf (bm_createdAt m);
  Ok {| dm_workspaceId := bm_workspaceId m; dm_userId := bm_userId m; dm_role := bm_role m; dm_createdAt := createdAt |}.

Definition entry_row (e : ExportedEntry) : written CreditTransaction :=
  createdAt ← dateOf (bl_createdAt e);
  Ok {| ct_id := bl_id e; ct_workspaceId := bl_workspaceId e; ct_kind := bl_kind e; ct_amountMicros := numberOf (bl_amountMicros e);
        ct_reference := bl_reference e; ct_description := bl_description e; ct_idempotencyKey := bl_idempotencyKey e;
        ct_createdAt := createdAt |}.

Definition code_row (c : ExportedInviteCode) : written InviteCodeRow :=
  expiresAt ← dateOrNull (bc_expiresAt c);
  disabledAt ← dateOrNull (bc_withdrawnAt c);
  createdAt ← dateOf (bc_createdAt c);
  Ok {| dc_id := bc_id c;
        dc_columns := {| ic_code := bc_value c; ic_grantMicros := numberOf (bc_grantMicros c); ic_campaign := bc_campaign c;
                         ic_maxRedemptions := bc_maxRedemptions c; ic_redemptionCount := bc_redemptionCount c;
                         ic_expiresAt := expiresAt; ic_disabledAt := disabledAt; ic_note := bc_note c;
                         ic_issuedByUserId := bc_issuedByUserId c; ic_createdAt := createdAt |} |}.

Definition redemption_row (r : ExportedRedemption) : written InviteRedemption :=
  redeemedAt ← dateOf (br_redeemedAt r);
  Ok {| ir_id := br_id r; ir_inviteCodeId := br_inviteCodeId r; ir_userId := br_userId r; ir_workspaceId := br_workspaceId r;
        ir_creditTransactionId := br_creditTransactionId r; ir_ipHash := None; ir_userAgentHash := None;
        ir_redeemedAt := redeemedAt |}.

Definition key_row (k : ExportedApiKey) : written ApiKey :=
  expiresAt ← dateOrNull (bk_expiresAt k);
  lastUsedAt ← dateOrNull (bk_lastUsedAt k);
  revokedAt ← dateOrNull (bk_revokedAt k);
  createdAt ← dateOf (bk_createdAt k);
  Ok {| ak_id := bk_id k; ak_workspaceId := bk_workspaceId k; ak_name := bk_name k; ak_keyHash := bk_keyHash k;
        ak_prefix := bk_prefix k; ak_purpose := bk_purpose k; ak_modelScope := bk_modelScope k;
        ak_spendLimitMicros := numberOrNull (bk_spendLimitMicros k); ak_spentTotalMicros := numberOf (bk_spentTotalMicros k);
        ak_requestsPerMinute := bk_requestsPerMinute k; ak_tokensPerMinute := bk_tokensPerMinute k;
        ak_expiresAt := expiresAt; ak_lastUsedAt := lastUsedAt; ak_revokedAt := revokedAt;
        ak_createdByUserId := bk_createdByUserId k; ak_createdAt := createdAt |}.

(** An imported upstream arrives switched off and with no key. *)
Definition endpointRow (e : ExportedExternalEndpoint) (now : Z) : written EndpointRow :=
  match URL_parse (be_baseUrl e) with
  | None => Err invalid_url
  | Some url =>
      createdAt ← dateOf (be_createdAt e);
      Ok {| dx_endpoint :=
              {| ee_id := be_id e; ee_name := be_name e; ee_hostname := url_hostname url; ee_baseUrl := be_baseUrl e;
                 ee_listenPort := be_listenPort e; ee_apiKeyCiphertext := ""; ee_enabled := false;
                 ee_pinnedEvidenceDigest := be_pinnedEvidenceDigest e;
                 ee_columns := pending_verdict disabled_status false now |};
            dx_details := {| ed_apiKeyPrefix := ""; ed_createdByUserId := be_createdByUserId e; ed_createdAt := createdAt;
                             ed_updatedAt := now |} |}
  end.

Definition imported_model (now : Z) (endpoint : ExportedExternalEndpoint) (m : ExportedModel) : Model :=
  {| m_id := bo_id m; m_name := bo_name m; m_litellmModel := bo_upstreamModel m; m_origin := origin_external;
     m_endpointId := None; m_externalEndpointId := Some (be_id endpoint); m_contextLength := bo_contextLength m;
     m_capabilities := bo_capabilities m; m_promptPer1mMicros := numberOf (bo_promptPer1mMicros m);
     m_completionPer1mMicros := numberOf (bo_completionPer1mMicros m); m_enabled := bo_enabled m; m_updatedAt := now |}.

Definition measurement_row (m : ExportedMeasurement) : written TrustedMeasurement :=
  addedAt ← dateOf (bt_addedAt m);
  Ok {| tm_id := bt_id m; tm_measurement := bt_measurement m; tm_note := bt_note m; tm_addedByUserId := bt_addedByUserId m;
        tm_addedAt := addedAt |}.

(** The workspaces named whose sum the ledger has. *)
Definition resumBalances (ids : list jstr) (ledger : list CreditTransaction) (rows : list WorkspaceRow) : list WorkspaceRow :=
  map (fun w =>
    let entries := List.filter (fun e => jeqb (ct_workspaceId e) (dw_id w)) ledger in
    if listed (dw_id w) ids && negb (bool_decide (entries = [])) then
      let c := dw_columns w in
      {| dw_id := dw_id w; dw_name := dw_name w; dw_slug := dw_slug w;
         dw_columns := {| balanceMicros := nearest_double (sumZ (map ct_amountMicros entries)); stripeCustomerId := stripeCustomerId c;
                          autoTopUpEnabled := autoTopUpEnabled c; autoTopUpThresholdMicros := autoTopUpThresholdMicros c;
                          autoTopUpAmountMicros := autoTopUpAmountMicros c; autoTopUpLastAt := autoTopUpLastAt c;
                          firstRequestAt := firstRequestAt c; ws_createdAt := ws_createdAt c |} |}
    else w) rows.

Definition workspace_in (rows : list WorkspaceRow) (id : jstr) : bool := listed id (map dw_id rows).

(** The transaction's body. *)
Definition write (plan : ImportPlan) (now : Z) (d : Deployment) : written Deployment :=
  let writes := ip_writes plan in
  new_workspaces ← mapM workspace_row (bd_workspaces writes);
  workspaces ← insert_rows (fun a b => same dw_id a b || same dw_slug a b) (fun _ => true) new_workspaces (dp_workspaces d);
  new_members ← mapM member_row (bd_workspaceMembers writes);
  members ← insert_rows (fun a b => same dm_workspaceId a b && same dm_userId a b)
              (fun m => workspace_in workspaces (dm_workspaceId m)) new_members (dp_members d);
  new_entries ← mapM entry_row (bd_creditLedger writes);
  ledger ← insert_rows (fun a b => same ct_id a b || same ct_idempotencyKey a b)
             (fun e => workspace_in workspaces (ct_workspaceId e)) new_entries (dp_ledger d);
  let workspaces := resumBalances (ip_touchedWorkspaceIds plan) ledger workspaces in
  new_codes ← mapM code_row (bd_inviteCodes writes);
  codes ← insert_rows (fun a b => same dc_id a b || same (fun c => ic_code (dc_columns c)) a b) (fun _ => true)
            new_codes (dp_inviteCodes d);
  new_redemptions ← mapM redemption_row (bd_inviteRedemptions writes);
  redemptions ← insert_rows (fun a b => same ir_id a b || same ir_userId a b)
                  (fun r => listed (ir_inviteCodeId r) (map dc_id codes) && workspace_in workspaces (ir_workspaceId r))
                  new_redemptions (dp_redemptions d);
  new_keys ← mapM key_row (bd_apiKeys writes);
  keys ← insert_rows (fun a b => same ak_id a b || same ak_keyHash a b)
           (fun k => workspace_in workspaces (ak_workspaceId k)) new_keys (dp_apiKeys d);
  new_endpoints ← mapM (fun e => endpointRow e now) (bd_externalEndpoints writes);
  endpoints ← insert_rows (fun a b => same dx_id a b || same (fun x => ee_name (dx_endpoint x)) a b) (fun _ => true)
                new_endpoints (dp_endpoints d);
  models ← insert_rows (same m_id)
             (fun m => match m_externalEndpointId m with Some id => listed id (map dx_id endpoints) | None => true end)
             (concat (map (fun e => map (imported_model now e) (be_models e)) (bd_externalEndpoints writes))) (dp_models d);
  new_measurements ← mapM measurement_row (bd_trustedMeasurements writes);
  measurements ← insert_rows (fun a b => same tm_id a b || same tm_measurement a b) (fun _ => true)
                   new_measurements (dp_measurements d);
  Ok {| dp_users := dp_users d; dp_workspaces := workspaces; dp_members := members; dp_ledger := ledger;
        dp_inviteCodes := codes; dp_redemptions := redemptions; dp_apiKeys := keys; dp_endpoints := endpoints;
        dp_models := models; dp_measurements := measurements |}.

Definition localState (d : Deployment) : LocalState :=
  {| here_users := map (fun u => (pu_id u, pu_email u)) (sorted_users d);
     here_workspaces := map (fun w => (dw_id w, dw_slug w)) (dp_workspaces d);
     here_members := map (fun m => {| lm_workspaceId := dm_workspaceId m; lm_userId := dm_userId m; lm_role := dm_role m |}) (dp_members d);
     here_ledger := map (fun e => (ct_id e, ct_idempotencyKey e)) (dp_ledger d);
     here_inviteCodes := map (fun c => (dc_id c, ic_code (dc_columns c))) (dp_inviteCodes d);
     here_redemptions := map (fun r => (ir_id r, ir_userId r)) (dp_redemptions d);
     here_apiKeys := map (fun k => (ak_id k, ak_keyHash k)) (dp_apiKeys d);
     here_externalEndpoints := map (fun e => (dx_id e, ee_name (dx_endpoint e))) (dp_endpoints d);
     here_models := map (fun m => (m_id m, m_externalEndpointId m)) (dp_models d);
     here_trustedMeasurements := map (fun m => (tm_id m, tm_measurement m)) (dp_measurements d) |}.

(** *** Accounts *)

Definition set_users (users : list AuthUserRecord) (d : Deployment) : Deployment :=
  {| dp_users := users; dp_workspaces := dp_workspaces d; dp_members := dp_members d; dp_ledger := dp_ledger d;
     dp_inviteCodes := dp_inviteCodes d; dp_redemptions := dp_redemptions d; dp_apiKeys := dp_apiKeys d;
     dp_endpoints := dp_endpoints d; dp_models := dp_models d; dp_measurements := dp_measurements d |}.

Definition user_record (u : ExportedUser) : written AuthUserRecord :=
  createdAt ← dateOf (bu_createdAt u);
  Ok {| pu_id := bu_id u; pu_email := bu_email u; pu_name := bu_name u; pu_emailVerified := bu_emailVerified u;
        pu_image := bu_image u; pu_createdAt := createdAt |}.

(** One account at a time, with no transaction around them. *)
Fixpoint createImportedUsers (users : list AuthUserRecord) (table : list AuthUserRecord) : list AuthUserRecord * written unit :=
  match users with
  | [] => (table, Ok tt)
  | user :: users =>
      if listed (pu_id user) (map pu_id table) then createImportedUsers users table
      else
        let row := {| pu_id := pu_id user; pu_email := toLowerCase (pu_email user); pu_name := pu_name user;
                      pu_emailVerified := pu_emailVerified user; pu_image := pu_image user; pu_createdAt := pu_createdAt user |} in
        if existsb (same pu_email row) table then (table, Err unique_violation)
        else createImportedUsers users (table ++ [row])
  end.
End Importing.

(** ** The service *)

Record ImportReport := {
  rp_applied : bool;
  rp_ok : bool;
  rp_bundle : ExportBundle;         (* what the report repeats of it: source, hash, counts, total *)
  rp_refusals : list jstr;
  rp_sections : list SectionPlan;
  rp_notes : list jstr
}.

Inductive import_error := not_a_bundle (e : bundle_error) | not_written (e : write_error).

Definition RENDER_NOTE : jstr :=
  "The imported trust list is saved, but the egress configuration could not be re-rendered just now. " +++
  "It is rendered again on the next change under Administration → External endpoints, and at the next restart.".

Section Service.
Context `{UrlParser} `{JsonEngine} `{BundlePlatform} `{SchemaLibrary}.
Context (toLowerCase : jstr -> jstr) (other_date : jstr -> option Z) (bootstrapEmail : jstr) (adminEmails : list jstr).

Definition reportOf (bundle : ExportBundle) (plan : ImportPlan) (applied : bool) : ImportReport :=
  {| rp_applied := applied; rp_ok := planIsClean plan; rp_bundle := bundle; rp_refusals := ip_refusals plan;
     rp_sections := ip_sections plan; rp_notes := ip_notes plan |}.

Definition planFor (bundle : ExportBundle) (d : Deployment) : ImportPlan :=
  planImport toLowerCase (xb_data bundle) (localState d) (bootstrapEmail :: adminEmails).

Definition plan (file : list N) (d : Deployment) : result import_error ImportReport :=
  match decodeBundle file with
  | Err e => Err (not_a_bundle e)
  | Ok bundle => Ok (reportOf bundle (planFor bundle d) false)
  end.

Definition import (now : Z) (plan : ImportPlan) (d : Deployment) : Deployment * written unit :=
  match mapM (user_record other_date) (bd_users (ip_writes plan)) with
  | Err e => (d, Err e)
  | Ok users =>
      match createImportedUsers toLowerCase users (dp_users d) with
      | (table, Err e) => (set_users table d, Err e)
      | (table, Ok _) =>
          match write other_date plan now (set_users table d) with
          | Err e => (set_users table d, Err e)
          | Ok d' => (d', Ok tt)
          end
      end
  end.

(** [renders] says whether the render and the refresh after the commit go through. *)
Definition apply (renders : bool) (now : Z) (file : list N) (d : Deployment) : Deployment * result import_error ImportReport :=
  match decodeBundle file with
  | Err e => (d, Err (not_a_bundle e))
  | Ok bundle =>
      let p := planFor bundle d in
      if negb (planIsClean p) then (d, Ok (reportOf bundle p false))
      else
        match import now p d with
        | (d', Err e) => (d', Err (not_written e))
        | (d', Ok _) =>
            let report := reportOf bundle p true in
            let writes := ip_writes p in
            let trust := negb (bool_decide (bd_externalEndpoints writes = [])) || negb (bool_decide (bd_trustedMeasurements writes = [])) in
            (d', Ok {| rp_applied := rp_applied report; rp_ok := rp_ok report; rp_bundle := rp_bundle report;
                       rp_refusals := rp_refusals report; rp_sections := rp_sections report;
                       rp_notes := rp_notes report ++ (if trust && negb renders then [RENDER_NOTE] else []) |})
        end
  end.
End Service.

(** ** What an export carries *)

(** A deployment as the schema keeps it: primary and unique keys, references, balances
    that are the sums of their ledgers, addresses in lower case, and instants and
    amounts a double and a four-digit year can say. *)
Record exportable `{UrlParser} (toLowerCase : jstr -> jstr) (d : Deployment) : Prop := {
  x_user_ids : NoDup (map pu_id (dp_users d));
  x_user_emails : NoDup (map (fun u => lower toLowerCase (pu_email u)) (dp_users d));
  x_lower : Forall (fun u => toLowerCase (pu_email u) = pu_email u) (dp_users d);
  x_workspace_ids : NoDup (map dw_id (dp_workspaces d));
  x_slugs : NoDup (map dw_slug (dp_workspaces d));
  x_members : NoDup (map (fun m => (dm_workspaceId m, dm_userId m)) (dp_members d));
  x_member_refs : Forall (fun m => dm_workspaceId m ∈ map dw_id (dp_workspaces d)) (dp_members d);
  x_entry_ids : NoDup (map ct_id (dp_ledger d));
  x_entry_keys : NoDup (map ct_idempotencyKey (dp_ledger d));
  x_entry_refs : Forall (fun e => ct_workspaceId e ∈ map dw_id (dp_workspaces d)) (dp_ledger d);
  x_balances : Forall (fun w => balanceMicros (dw_columns w) =
    sumZ (map ct_amountMicros (List.filter (fun e => jeqb (ct_workspaceId e) (dw_id w)) (dp_ledger d)))) (dp_workspaces d);
  x_code_ids : NoDup (map dc_id (dp_inviteCodes d));
  x_code_values : NoDup (map (fun c => ic_code (dc_columns c)) (dp_inviteCodes d));
  x_redemption_ids : NoDup (map ir_id (dp_redemptions d));
  x_redeemers : NoDup (map ir_userId (dp_redemptions d));
  x_redemption_refs : Forall (fun r => ir_inviteCodeId r ∈ map dc_id (dp_inviteCodes d) /\
    ir_workspaceId r ∈ map dw_id (dp_workspaces d) /\ ir_creditTransactionId r ∈ map ct_id (dp_ledger d)) (dp_redemptions d);
  x_key_ids : NoDup (map ak_id (dp_apiKeys d));
  x_key_hashes : NoDup (map ak_keyHash (dp_apiKeys d));
  x_key_refs : Forall (fun k => ak_workspaceId k ∈ map dw_id (dp_workspaces d)) (dp_apiKeys d);
  x_endpoint_ids : NoDup (map dx_id (dp_endpoints d));
  x_endpoint_names : NoDup (map (fun e => ee_name (dx_endpoint e)) (dp_endpoints d));
  x_hostnames : Forall (fun e => url_hostname <$> URL_parse (ee_baseUrl (dx_endpoint e)) = Some (ee_hostname (dx_endpoint e))) (dp_endpoints d);
  x_model_ids : NoDup (map m_id (dp_models d));
  x_measurement_ids : NoDup (map tm_id (dp_measurements d));
  x_measurements : NoDup (map tm_measurement (dp_measurements d));
  x_amounts : Forall (fun z => Z.abs z <= 2 ^ 53)
    (map (fun w => balanceMicros (dw_columns w)) (dp_workspaces d) ++
     omap (fun w => autoTopUpThresholdMicros (dw_columns w)) (dp_workspaces d) ++
     omap (fun w => autoTopUpAmountMicros (dw_columns w)) (dp_workspaces d) ++
     map ct_amountMicros (dp_ledger d) ++ map (fun c => ic_grantMicros (dc_columns c)) (dp_inviteCodes d) ++
     omap ak_spendLimitMicros (dp_apiKeys d) ++ map ak_spentTotalMicros (dp_apiKeys d) ++
     map m_promptPer1mMicros (dp_models d) ++ map m_completionPer1mMicros (dp_models d));
  x_instants : Forall four_digit_year
    (map pu_createdAt (dp_users d) ++ map (fun w => ws_createdAt (dw_columns w)) (dp_workspaces d) ++
     omap (fun w => autoTopUpLastAt (dw_columns w)) (dp_workspaces d) ++
     omap (fun w => firstRequestAt (dw_columns w)) (dp_workspaces d) ++
     map dm_createdAt (dp_members d) ++ map ct_createdAt (dp_ledger d) ++
     map (fun c => ic_createdAt (dc_columns c)) (dp_inviteCodes d) ++ omap (fun c => ic_expiresAt (dc_columns c)) (dp_inviteCodes d) ++
     omap (fun c => ic_disabledAt (dc_columns c)) (dp_inviteCodes d) ++ map ir_redeemedAt (dp_redemptions d) ++
     map ak_createdAt (dp_apiKeys d) ++ omap ak_expiresAt (dp_apiKeys d) ++ omap ak_lastUsedAt (dp_apiKeys d) ++
     omap ak_revokedAt (dp_apiKeys d) ++ map dx_createdAt (dp_endpoints d) ++ map tm_addedAt (dp_measurements d))
}.

(** The deployment an import of it makes at [now]. *)
Definition unhashed (r : InviteRedemption) : InviteRedemption :=
  {| ir_id := ir_id r; ir_inviteCodeId := ir_inviteCodeId r; ir_userId := ir_userId r; ir_workspaceId := ir_workspaceId r;
     ir_creditTransactionId := ir_creditTransactionId r; ir_ipHash := None; ir_userAgentHash := None;
     ir_redeemedAt := ir_redeemedAt r |}.

Definition known_creator (known : jstr -> bool) (k : ApiKey) : ApiKey :=
  {| ak_id := ak_id k; ak_workspaceId := ak_workspaceId k; ak_name := ak_name k; ak_keyHash := ak_keyHash k;
     ak_prefix := ak_prefix k; ak_purpose := ak_purpose k; ak_modelScope := ak_modelScope k;
     ak_spendLimitMicros := ak_spendLimitMicros k; ak_spentTotalMicros := ak_spentTotalMicros k;
     ak_requestsPerMinute := ak_requestsPerMinute k; ak_tokensPerMinute := ak_tokensPerMinute k;
     ak_expiresAt := ak_expiresAt k; ak_lastUsedAt := ak_lastUsedAt k; ak_revokedAt := ak_revokedAt k;
     ak_createdByUserId := match ak_createdByUserId k with Some id => if known id then Some id else None | None => None end;
     ak_createdAt := ak_createdAt k |}.

Definition switched_off (now : Z) (row : EndpointRow) : EndpointRow :=
  let e := dx_endpoint row in
  {| dx_endpoint := {| ee_id := ee_id e; ee_name := ee_name e; ee_hostname := ee_hostname e; ee_baseUrl := ee_baseUrl e;
                       ee_listenPort := ee_listenPort e; ee_apiKeyCiphertext := ""; ee_enabled := false;
                       ee_pinnedEvidenceDigest := ee_pinnedEvidenceDigest e;
                       ee_columns := pending_verdict disabled_status false now |};
     dx_details := {| ed_apiKeyPrefix := ""; ed_createdByUserId := ed_createdByUserId (dx_details row);
                      ed_createdAt := dx_createdAt row; ed_updatedAt := now |} |}.

Definition model_of_endpoint (now : Z) (row : EndpointRow) (m : Model) : Model :=
  {| m_id := m_id m; m_name := m_name m; m_litellmModel := m_litellmModel m; m_origin := origin_external; m_endpointId := None;
     m_externalEndpointId := Some (dx_id row); m_contextLength := m_contextLength m; m_capabilities := m_capabilities m;
     m_promptPer1mMicros := m_promptPer1mMicros m; m_completionPer1mMicros := m_completionPer1mMicros m;
     m_enabled := m_enabled m; m_updatedAt := now |}.

Definition models_at (d : Deployment) (row : EndpointRow) : list Model :=
  List.filter (fun m => bool_decide (m_externalEndpointId m = Some (dx_id row))) (sorted_models d).

Definition known_user (d : Deployment) (id : jstr) : bool := listed id (map pu_id (sorted_users d)).

Definition carried (now : Z) (d : Deployment) : Deployment :=
  {| dp_users := sorted_users d; dp_workspaces := sorted_workspaces d;
     dp_members := List.filter (fun m => known_user d (dm_userId m)) (sorted_members d);
     dp_ledger := sorted_ledger d; dp_inviteCodes := sorted_codes d;
     dp_redemptions := map unhashed (List.filter (fun r => known_user d (ir_userId r)) (sorted_redemptions d));
     dp_apiKeys := map (known_creator (known_user d)) (sorted_keys d);
     dp_endpoints := map (switched_off now) (sorted_endpoints d);
     dp_models := concat (map (fun row => map (model_of_endpoint now row) (models_at d row)) (sorted_endpoints d));
     dp_measurements := sorted_measurements d |}.
