(* ===== verification/MigrationRestores.v ===== *)
(** * What an import restores

    The theorems of [DataMigration]: an export imported into a deployment that holds
    nothing but its operators' own accounts and rows gives every table back beside
    them, an attempt that stopped part-way or a repeated import ends in the same
    deployment, and a credential answers as it did. *)

From S2P Require Import Prelude JsString Json Money JsDate Store Workspaces LedgerPages InviteCodes Invites InviteAdmin.
From S2P Require Import ApiKeys StatusProjection ExternalCatalog SidecarConfig EndpointAdmin ImportPlan BundleSchema ExportBundle DataMigration.

(** ** Lemmas: numbers and instants *)


Lemma BigInt_text z : BigInt (jstring_of_Z z) = z.
Proof. apply Number_of_jstring. Qed.



Lemma dateOf_text other t : four_digit_year t -> dateOf other (toISOString t) = Ok t.
Proof. intros Ht. unfold dateOf. by rewrite parse_iso_toISOString. Qed.


(** ** Lemmas: lists *)

Lemma mapM_map {E A B C} (f : B -> result E C) (g : A -> B) (h : A -> C) l :
  (forall x, x ∈ l -> f (g x) = Ok (h x)) -> mapM f (map g l) = Ok (map h l).
Proof.
  induction l as [|x l IH]; intros H; cbn; [done|]. rewrite H by (by left). cbn. rewrite IH by (intros; apply H; by right). done.
Qed.

Lemma mapM_back {E A B} (f : B -> result E A) (g : A -> B) l : (forall x, x ∈ l -> f (g x) = Ok x) -> mapM f (map g l) = Ok l.
Proof. intros H. rewrite (mapM_map f g (fun x => x)) by done. by rewrite map_id. Qed.






(** Two tables with no key in common stay so when one of them is sorted, or loses rows. *)
Lemma apart_sorted {A B} (key : A -> B) before h l : NoDup (map key (h ++ l)) -> NoDup (map key (h ++ sort_by before l)).
Proof. intros H. by rewrite sort_by_perm. Qed.


Lemma map_key_through {A B} (f : A -> A) (key : A -> B) h l : (forall x, key (f x) = key x) -> map key (h ++ map f l) = map key (h ++ l).
Proof. intros Hk. rewrite !map_app, map_map. f_equal. by apply map_ext. Qed.

Lemma apart_not_in {A B} (key : A -> B) h l x : NoDup (map key (h ++ l)) -> x ∈ l -> key x ∉ map key h.
Proof.
  rewrite map_app. intros (_ & Hd & _)%NoDup_app Hx Hin. apply (Hd _ Hin). by apply list_elem_of_fmap_2.
Qed.



Lemma distinct_nodup l : NoDup l -> forall seen, (forall x, x ∈ l -> x ∉ seen) -> distinct seen l = l.
Proof.
  induction 1 as [|x l Hx Hl IH]; intros seen Hs; cbn; [done|].
  destruct (existsb (jeqb x) seen) eqn:E.
  - apply existsb_exists in E as (y & Hy%list_elem_of_In & <-%jeqb_eq). by destruct (Hs x ltac:(by left)).
  - f_equal. apply IH. intros y Hy. rewrite not_elem_of_cons. split; [by intros ->|by apply Hs; right].
Qed.

Lemma duplicated_nil label l : NoDup l -> duplicated label l = [].
Proof. intros H. unfold duplicated. rewrite distinct_nodup by (done || set_solver). by rewrite Nat.eqb_refl. Qed.

Lemma missing_nil {A} what (p : A -> bool) rows : (forall r, r ∈ rows -> p r = false) -> missing what (List.filter p rows) = [].
Proof. intros H. by rewrite filter_nothing by (by apply Forall_forall). Qed.


Lemma created_none {A} (judge : A -> judgement) rows : (forall r, r ∈ rows -> judge r = is_present) -> created judge rows = [].
Proof. intros H. apply filter_nothing, Forall_forall. intros r Hr. by rewrite H. Qed.

Lemma map_get_none {A} k (l : list (jstr * A)) : k ∉ map fst l -> map_get k l = None.
Proof.
  intros Hk. unfold map_get. rewrite (proj2 (find_first_none _ _)); [done|]. intros kv Hkv. rewrite elem_of_reverse in Hkv.
  apply jeqb_neq. intros E. apply Hk. rewrite <- E. by apply (list_elem_of_fmap_2 fst).
Qed.

Lemma map_get_of_elem {A} k (v : A) (l : list (jstr * A)) : NoDup (map fst l) -> (k, v) ∈ l -> map_get k l = Some v.
Proof.
  intros Hn Hin. unfold map_get. destruct (find_first _ _) as [[k' v']|] eqn:E.
  - apply find_first_some in E as [Hin' Hk%jeqb_eq]. rewrite elem_of_reverse in Hin'. cbn in Hk. subst. cbn. f_equal.
    by injection (nodup_map_inj fst l _ _ Hn Hin' Hin eq_refl).
  - rewrite find_first_none in E. specialize (E (k, v) (proj2 (elem_of_reverse _ _) Hin)). by rewrite jeqb_refl in E.
Qed.

Lemma section_conflicts name js : Forall (fun j => conflict_of j = None) js -> sp_conflicts (section_plan name js) = [].
Proof. induction 1 as [|j js Hj _ IH]; cbn in *; [done|]. by rewrite Hj. Qed.

Lemma merges_none {A} (id : A -> jstr) judge rows : (forall r, r ∈ rows -> is_merged (judge r) = false) -> merges id judge rows = [].
Proof.
  intros H. unfold merges. assert (G : forall m, foldl (fun m r => match judge r with merged_into to => set_member (id r) to m | _ => m end) m rows = m); [|apply G].
  induction rows as [|r rows IH]; intros m; cbn; [done|]. specialize (H r ltac:(by left)) as Hr.
  destruct (judge r); try done; apply IH; intros; apply H; by right.
Qed.

Lemma elem_of_sorted {A} before (l : list A) x : x ∈ sort_by before l <-> x ∈ l.
Proof. by rewrite sort_by_perm. Qed.

Lemma map_sort_elem {A} (f : A -> jstr) before l x : x ∈ map f (sort_by before l) <-> x ∈ map f l.
Proof. by rewrite sort_by_perm. Qed.

Lemma listed_sorted {A B} (f : B -> jstr) (g : A -> B) before l v :
  v ∈ map (fun x => f (g x)) l -> listed v (map f (map g (sort_by before l))) = true.
Proof. intros Hv. apply listed_iff. by rewrite map_map, map_sort_elem. Qed.

Lemma listed_row {A} (f : A -> jstr) before l v : v ∈ map f l -> listed v (map f (sort_by before l)) = true.
Proof. intros Hv. apply listed_iff. by rewrite map_sort_elem. Qed.

(** A row of a table, from a row of its sorted reading. *)
Ltac unsort H :=
  unfold sorted_users, sorted_workspaces, sorted_members, sorted_ledger, sorted_codes, sorted_redemptions, sorted_keys,
    sorted_endpoints, sorted_measurements in H;
  rewrite sort_by_perm in H.

(** What [sums] holds of a workspace. *)
Lemma ledger_sums_spec l (id : jstr) : forall m : gmap jstr Z,
  default 0 (foldl (fun (sums : gmap jstr Z) e => <[bl_workspaceId e := default 0 (sums !! bl_workspaceId e) + BigInt (bl_amountMicros e)]> sums) m
    (map export_entry l) !! id) =
  default 0 (m !! id) + sumZ (map ct_amountMicros (List.filter (fun e => jeqb (ct_workspaceId e) id) l)).
Proof.
  induction l as [|e l IH]; intros m; cbn [map foldl List.filter]; [cbn; lia|].
  rewrite IH. cbn [bl_workspaceId bl_amountMicros export_entry]. rewrite BigInt_text, lookup_insert.
  destruct (decide (ct_workspaceId e = id)) as [<-|Hne].
  - rewrite jeqb_refl. cbn [map sumZ foldr default]. fold (sumZ (map ct_amountMicros (List.filter (fun e0 => jeqb (ct_workspaceId e0) (ct_workspaceId e)) l))). cbn. lia.
  - rewrite (proj2 (jeqb_neq _ _) Hne). done.
Qed.




Lemma Forall_map_at {A B} (P : B -> Prop) (f : A -> B) l x : Forall P (map f l) -> x ∈ l -> P (f x).
Proof. intros H Hx. rewrite Forall_forall in H. apply H. by apply list_elem_of_fmap_2. Qed.


(** ** A deployment that is not the one exported *)

Definition member_text (m : WorkspaceMember) : jstr := dm_workspaceId m +++ newline +++ dm_userId m.

(** Nothing of [h] has a unique key of [d], and the entries of its ledger are of its own
    workspaces.  Only the external models of [d] travel. *)
Record apart (h d : Deployment) : Prop := {
  a_workspaces : NoDup (map dw_id (dp_workspaces h ++ dp_workspaces d));
  a_slugs : NoDup (map dw_slug (dp_workspaces h ++ dp_workspaces d));
  a_members : NoDup (map member_text (dp_members h ++ dp_members d));
  a_entries : NoDup (map ct_id (dp_ledger h ++ dp_ledger d));
  a_entry_keys : NoDup (map ct_idempotencyKey (dp_ledger h ++ dp_ledger d));
  a_entry_refs : Forall (fun e => ct_workspaceId e ∈ map dw_id (dp_workspaces h)) (dp_ledger h);
  a_codes : NoDup (map dc_id (dp_inviteCodes h ++ dp_inviteCodes d));
  a_code_values : NoDup (map (fun c => ic_code (dc_columns c)) (dp_inviteCodes h ++ dp_inviteCodes d));
  a_redemptions : NoDup (map ir_id (dp_redemptions h ++ dp_redemptions d));
  a_redeemers : NoDup (map ir_userId (dp_redemptions h ++ dp_redemptions d));
  a_keys : NoDup (map ak_id (dp_apiKeys h ++ dp_apiKeys d));
  a_hashes : NoDup (map ak_keyHash (dp_apiKeys h ++ dp_apiKeys d));
  a_key_refs : Forall (fun k => ak_workspaceId k ∈ map dw_id (dp_workspaces h)) (dp_apiKeys h);
  a_endpoints : NoDup (map dx_id (dp_endpoints h ++ dp_endpoints d));
  a_names : NoDup (map (fun e => ee_name (dx_endpoint e)) (dp_endpoints h ++ dp_endpoints d));
  a_models : NoDup (map m_id (dp_models h ++ List.filter (fun m => bool_decide (m_origin m = origin_external)) (dp_models d)));
  a_measurements : NoDup (map tm_id (dp_measurements h ++ dp_measurements d));
  a_measured : NoDup (map tm_measurement (dp_measurements h ++ dp_measurements d))
}.

(** One deployment's rows behind the other's, under the accounts [users]. *)
Definition beside (users : list AuthUserRecord) (h d : Deployment) : Deployment :=
  {| dp_users := users; dp_workspaces := dp_workspaces h ++ dp_workspaces d; dp_members := dp_members h ++ dp_members d;
     dp_ledger := dp_ledger h ++ dp_ledger d; dp_inviteCodes := dp_inviteCodes h ++ dp_inviteCodes d;
     dp_redemptions := dp_redemptions h ++ dp_redemptions d; dp_apiKeys := dp_apiKeys h ++ dp_apiKeys d;
     dp_endpoints := dp_endpoints h ++ dp_endpoints d; dp_models := dp_models h ++ dp_models d;
     dp_measurements := dp_measurements h ++ dp_measurements d |}.

(** ** Planning against what a previous attempt left *)

Section Fresh.
Context `{UrlParser} (toLowerCase : jstr -> jstr) (other_date : jstr -> option Z).
Context (bootstrapEmail : jstr) (adminEmails : list jstr) (exportedAt : Z).
Context (d : Deployment) (X : exportable toLowerCase d).

Notation data := (read toLowerCase bootstrapEmail adminEmails exportedAt d).

Definition ledger_of (id : jstr) : list CreditTransaction := List.filter (fun e => jeqb (ct_workspaceId e) id) (sorted_ledger d).

Lemma ledger_sum id : sumZ (map ct_amountMicros (ledger_of id)) =
  sumZ (map ct_amountMicros (List.filter (fun e => jeqb (ct_workspaceId e) id) (dp_ledger d))).
Proof. apply sumZ_perm, Permutation_map, filter_perm, sort_by_perm. Qed.

Lemma balance_is_sum w : w ∈ dp_workspaces d -> balanceMicros (dw_columns w) = sumZ (map ct_amountMicros (ledger_of (dw_id w))).
Proof. intros Hw. rewrite ledger_sum. exact (proj1 (Forall_forall _ _) (x_balances _ _ X) w Hw). Qed.

Lemma data_users : map bu_id (bd_users data) = map pu_id (sorted_users d).
Proof. cbn [bd_users read]. by rewrite map_map. Qed.

Lemma data_workspaces : map bw_id (bd_workspaces data) = map dw_id (sorted_workspaces d).
Proof. cbn [bd_workspaces read]. by rewrite map_map. Qed.

Lemma workspace_listed id : id ∈ map dw_id (dp_workspaces d) -> listed id (map bw_id (bd_workspaces data)) = true.
Proof. intros Hid. rewrite data_workspaces. by apply listed_iff, map_sort_elem. Qed.

Lemma data_consistent : bundleInconsistencies toLowerCase data = [].
Proof.
  destruct X as [Xui Xue Xl Xwi Xsl Xm Xmr Xei Xek Xer Xb Xci Xcv Xri Xru Xrr Xki Xkh Xkr Xdi Xdn Xh Xmi Xti Xtm _ _].
  unfold bundleInconsistencies.
  rewrite !duplicated_nil, !missing_nil; [done|..];
    cbn [bd_users bd_workspaces bd_workspaceMembers bd_creditLedger bd_inviteCodes bd_inviteRedemptions bd_apiKeys read];
    rewrite ?map_map; try (by apply nodup_sorted).
  - intros r (w & -> & Hw)%list_elem_of_fmap. cbn [bw_id export_workspace bw_balanceMicros].
    unsort Hw. rewrite BigInt_text, (balance_is_sum w Hw). apply negb_false_iff, Z.eqb_eq.
    unfold ledger_sums. rewrite ledger_sums_spec. done.
  - intros r (k & -> & Hk)%list_elem_of_fmap. unsort Hk. apply negb_false_iff, listed_row.
    exact (proj1 (Forall_forall _ _) Xkr k Hk).
  - intros r (k & -> & [Hk Hu]%elem_of_filter_b)%list_elem_of_fmap. unsort Hk.
    destruct (proj1 (Forall_forall _ _) Xrr k Hk) as (H1 & H2 & H3).
    rewrite !orb_false_iff, !negb_false_iff. split_and!; try (by apply listed_row). exact Hu.
  - intros r (k & -> & Hk)%list_elem_of_fmap. unsort Hk. apply negb_false_iff, listed_row.
    exact (proj1 (Forall_forall _ _) Xer k Hk).
  - intros r (k & -> & [Hk Hu]%elem_of_filter_b)%list_elem_of_fmap. unsort Hk.
    rewrite orb_false_iff, !negb_false_iff. split; [exact Hu|]. apply listed_row.
    exact (proj1 (Forall_forall _ _) Xmr k Hk).
Qed.

(** Accounts of this deployment's own operators, the accounts that went in before, and what
    else is here. *)
Definition operator_address (email : jstr) : bool :=
  listed (lower toLowerCase email)
    (List.filter (fun e => negb (jlength e =? 0)) (map (lower toLowerCase) (bootstrapEmail :: adminEmails))).

Context (k : nat) (guests : list AuthUserRecord) (base : Deployment).
Context (Gids : NoDup (map pu_id (guests ++ dp_users d))).
Context (Gemails : NoDup (map (fun u => lower toLowerCase (pu_email u)) (guests ++ dp_users d))).
Context (Goperators : Forall (fun u => operator_address (pu_email u) = true) guests).

Notation arrived := (take k (sorted_users d)).
Notation there := (guests ++ arrived).
Notation here := (localState (set_users there base)).
Notation exported := (export_user toLowerCase bootstrapEmail adminEmails (invitedBy (sorted_redemptions d))).

Lemma guests_sorted {B} (key : AuthUserRecord -> B) : NoDup (map key (guests ++ dp_users d)) ->
  NoDup (map key ((there) ++ drop k (sorted_users d))).
Proof. intros Hn. rewrite <- app_assoc, take_drop. by apply apart_sorted. Qed.

Lemma fresh_keys {B} (key : AuthUserRecord -> B) u :
  NoDup (map key (guests ++ dp_users d)) -> u ∈ drop k (sorted_users d) -> key u ∉ map key there.
Proof. intros Hn Hu. eapply apart_not_in; [by apply guests_sorted|exact Hu]. Qed.

Lemma there_keys {B} (key : AuthUserRecord -> B) : NoDup (map key (guests ++ dp_users d)) -> NoDup (map key there).
Proof. intros Hn%guests_sorted. rewrite map_app in Hn. by apply NoDup_app in Hn as (? & _). Qed.

Lemma arrived_sublist : sublist arrived (sorted_users d).
Proof. rewrite <- (take_drop k (sorted_users d)) at 2. by apply sublist_inserts_r. Qed.

Lemma sorted_here : sorted_users (set_users there base) ≡ₚ there.
Proof. apply sort_by_perm. Qed.

Lemma users_here_ids : map fst (here_users here) ≡ₚ map pu_id there.
Proof. cbn [here_users localState]. rewrite map_map. exact (Permutation_map pu_id sorted_here). Qed.

Lemma emails_here_keys : map fst (emails_here toLowerCase here) ≡ₚ map (fun u => lower toLowerCase (pu_email u)) there.
Proof.
  unfold emails_here. cbn [here_users localState]. rewrite !map_map.
  exact (Permutation_map (fun u => lower toLowerCase (pu_email u)) sorted_here).
Qed.

Lemma judge_there u : u ∈ arrived -> judge_user toLowerCase here (exported u) = is_present.
Proof.
  intros Hu. unfold judge_user. rewrite (map_get_of_elem _ (pu_email u)).
  - cbn [bu_email export_user]. by rewrite jeqb_refl.
  - rewrite users_here_ids. by apply there_keys.
  - cbn [here_users localState bu_id export_user]. apply list_elem_of_fmap. exists u. split; [done|].
    rewrite sorted_here. apply elem_of_app. by right.
Qed.

Lemma judge_missing u : u ∈ drop k (sorted_users d) -> judge_user toLowerCase here (exported u) = to_create.
Proof.
  intros Hu. unfold judge_user. rewrite !map_get_none; [done|..].
  - rewrite emails_here_keys. exact (fresh_keys _ u Gemails Hu).
  - rewrite users_here_ids. exact (fresh_keys pu_id u Gids Hu).
Qed.

Lemma judge_user_cases u : u ∈ sorted_users d ->
  judge_user toLowerCase here (exported u) = is_present \/ judge_user toLowerCase here (exported u) = to_create.
Proof.
  rewrite <- (take_drop k (sorted_users d)) at 1. intros [Hu|Hu]%elem_of_app; [left; by apply judge_there|right; by apply judge_missing].
Qed.

Lemma no_user_merged : user_ids toLowerCase data here = [].
Proof.
  unfold user_ids. apply merges_none. cbn [bd_users read]. intros r (u & -> & Hu)%list_elem_of_fmap.
  by destruct (judge_user_cases u Hu) as [-> | ->].
Qed.

Lemma no_workspace_folded : workspace_ids toLowerCase data here = [].
Proof. unfold workspace_ids. by rewrite no_user_merged. Qed.

Lemma no_strangers : strangers toLowerCase data here (bootstrapEmail :: adminEmails) = [].
Proof.
  unfold strangers. apply filter_nothing, Forall_forall. intros [id email] Hin. cbn [fst snd].
  cbn [here_users localState] in Hin. apply list_elem_of_fmap in Hin as (u & [= -> ->] & Hu).
  rewrite sorted_here in Hu. apply elem_of_app in Hu as [Hu|Hu].
  - pose proof (proj1 (Forall_forall _ _) Goperators u Hu) as Ho. unfold operator_address in Ho. cbv beta in Ho. rewrite Ho. by rewrite andb_false_r.
  - enough (E : listed (pu_id u) (map bu_id (bd_users data)) = true) by (by rewrite E).
    rewrite data_users. apply listed_iff, list_elem_of_fmap_2. eapply elem_of_sublist; [exact Hu|apply arrived_sublist].
Qed.

Lemma created_users : created (judge_user toLowerCase here) (bd_users data) = map exported (drop k (sorted_users d)).
Proof.
  cbn [bd_users read]. rewrite <- (take_drop k (sorted_users d)) at 2. unfold created. rewrite map_app, List.filter_app.
  rewrite (filter_nothing _ (map _ arrived)), (filter_all _ (map _ (drop k _))); [done|..];
    apply Forall_forall; intros r (u & -> & Hu)%list_elem_of_fmap; [by rewrite judge_missing|by rewrite judge_there].
Qed.

(** *** Rows of other keys are there *)

Section Apart.
Context (P : apart base d).









End Apart.

Lemma all_judged {A} (judge : A -> judgement) name rows :
  (forall r, r ∈ rows -> judge r = to_create \/ judge r = is_present) -> sp_conflicts (section_plan name (map judge rows)) = [].
Proof.
  intros Hj. apply section_conflicts, Forall_forall. intros j (r & -> & Hr)%list_elem_of_fmap. by destruct (Hj r Hr) as [-> | ->].
Qed.

Lemma endpoint_conflicts l es :
  (forall e, e ∈ es -> exists j, judge_endpoint l e = (Some j, Some j) /\ conflict_of j = None) ->
  sp_conflicts (endpoint_plan l es) = [] /\ sp_conflicts (model_plan l es) = [].
Proof.
  unfold endpoint_plan, model_plan. cbn [sp_conflicts]. induction es as [|e es IH]; intros He; [done|].
  destruct (He e ltac:(by left)) as (j & Ej & Hj), IH as [IH1 IH2]; [intros e' He'; apply He; by right|].
  cbn. rewrite Ej. cbn. rewrite Hj. by rewrite IH1, IH2.
Qed.

Lemma users_section : sp_conflicts (section_plan s_users (map (judge_user toLowerCase here) (bd_users data))) = [].
Proof.
  apply all_judged. cbn [bd_users read]. intros r (u & -> & Hu)%list_elem_of_fmap.
  destruct (judge_user_cases u Hu); [by right|by left].
Qed.

Lemma no_refusals : plan_refusals toLowerCase data here (bootstrapEmail :: adminEmails) = [].
Proof. unfold plan_refusals. by rewrite data_consistent, no_strangers. Qed.


(** *** The rows are the rows exported *)


Ltac instants_of X :=
  let H := fresh "Hin" in pose proof (x_instants _ _ X) as H; rewrite !Forall_app in H;
  destruct H as (?Huser & ?Hworkspace & ?HtopUpAt & ?Hfirst & ?Hmember & ?Hledger & ?Hcode & ?Hexpires & ?Hdisabled & ?Hredeemed &
                 ?Hkey & ?Hkeyexp & ?Hkeyused & ?Hkeyrevoked & ?Hendpoint & ?Hmeasurement).






















Lemma user_rows l : (forall u, u ∈ l -> u ∈ sorted_users d) -> mapM (user_record other_date) (map exported l) = Ok l.
Proof.
  instants_of X. intros Hl. apply mapM_back. intros u Hu. apply Hl in Hu. unsort Hu. unfold user_record.
  cbn [bu_id bu_email bu_name bu_emailVerified bu_image bu_createdAt export_user].
  rewrite dateOf_text by (exact (Forall_map_at _ _ _ _ Huser Hu)). by destruct u.
Qed.

Lemma emails_nodup : NoDup (map pu_email (guests ++ dp_users d)).
Proof. pose proof Gemails as Hn. rewrite <- map_map in Hn. by apply NoDup_fmap_1 in Hn. Qed.

(** Accounts with ids and addresses of their own all go in. *)
Lemma createImportedUsers_ok users : forall table,
  NoDup (map pu_id (table ++ users)) -> NoDup (map pu_email (table ++ users)) ->
  Forall (fun u => toLowerCase (pu_email u) = pu_email u) users ->
  createImportedUsers toLowerCase users table = (table ++ users, Ok tt).
Proof.
  induction users as [|u users IH]; intros table Hid Hem Hl; cbn [createImportedUsers]; [by rewrite app_nil_r|].
  apply Forall_cons in Hl as [Hu Hl]. rewrite !map_app in Hid, Hem.
  destruct (listed (pu_id u) (map pu_id table)) eqn:E1.
  { apply listed_iff in E1. apply NoDup_app in Hid as (_ & Hd & _). destruct (Hd _ E1). by left. }
  rewrite Hu. destruct (existsb _ table) eqn:E2.
  { apply existsb_exists in E2 as (v & Hv%list_elem_of_In & E2%jeqb_eq). cbn in E2. apply NoDup_app in Hem as (_ & Hd & _).
    destruct (Hd (pu_email v)); [by apply list_elem_of_fmap_2|]. rewrite <- E2. by left. }
  replace {| pu_id := pu_id u; pu_email := pu_email u; pu_name := pu_name u; pu_emailVerified := pu_emailVerified u;
             pu_image := pu_image u; pu_createdAt := pu_createdAt u |} with u by (by destruct u).
  rewrite IH; [by rewrite <- app_assoc|by rewrite <- app_assoc, !map_app..|done].
Qed.

Lemma users_land : createImportedUsers toLowerCase (drop k (sorted_users d)) there = (guests ++ sorted_users d, Ok tt).
Proof.
  rewrite createImportedUsers_ok.
  - by rewrite <- app_assoc, take_drop.
  - by apply guests_sorted.
  - apply guests_sorted, emails_nodup.
  - apply Forall_forall. intros u Hu. apply (proj1 (Forall_forall _ _) (x_lower _ _ X)).
    assert (Hu' : u ∈ sorted_users d) by (rewrite <- (take_drop k (sorted_users d)); apply elem_of_app; by right). by unsort Hu'.
Qed.


(** *** Everything was there *)

Lemma has_key_row {A B} (key : A -> jstr) (v : A -> B) l x : x ∈ l -> has_key (key x) (map (fun r => (key r, v r)) l) = true.
Proof.
  intros Hx. apply existsb_exists. exists (key x, v x). split; [|apply jeqb_refl].
  apply list_elem_of_In, list_elem_of_fmap. by exists x.
Qed.

Lemma map_get_row {A B} (key : A -> jstr) (v : A -> B) l x : NoDup (map key l) -> x ∈ l ->
  map_get (key x) (map (fun r => (key r, v r)) l) = Some (v x).
Proof. intros Hn Hx. apply map_get_of_elem; [by rewrite map_map|]. apply list_elem_of_fmap. by exists x. Qed.

Section Again.
Context (us : list AuthUserRecord) (h : Deployment) (P : apart h d).

Lemma kept_workspace now w : base = beside us h (carried now d) -> w ∈ bd_workspaces data -> judge_workspace here [] w = is_present.
Proof.
  intros Eb (x & -> & Hx)%list_elem_of_fmap. unfold judge_workspace. rewrite Eb. cbn [here_workspaces localState set_users beside carried dp_workspaces].
  change (bw_id (export_workspace x)) with (dw_id x). rewrite (has_key_row dw_id dw_slug _ x) by (apply elem_of_app; by right). by rewrite orb_true_r.
Qed.

Lemma kept_member now m : base = beside us h (carried now d) -> m ∈ bd_workspaceMembers data -> judge_member here [] [] m = is_present.
Proof.
  intros Eb (x & -> & Hx)%list_elem_of_fmap. unfold judge_member. rewrite Eb. replace (existsb _ _) with true; [done|].
  symmetry. apply existsb_exists. exists {| lm_workspaceId := dm_workspaceId x; lm_userId := dm_userId x; lm_role := dm_role x |}.
  split; [|apply jeqb_refl]. apply list_elem_of_In, list_elem_of_fmap. exists x. split; [done|]. apply elem_of_app. by right.
Qed.

Lemma kept_entry now e : base = beside us h (carried now d) -> e ∈ bd_creditLedger data -> judge_entry here [] [] e = is_present.
Proof.
  intros Eb (x & -> & Hx)%list_elem_of_fmap. unfold judge_entry. rewrite Eb. cbn [here_ledger localState set_users beside carried dp_ledger].
  change (bl_id (export_entry x)) with (ct_id x). by rewrite (has_key_row ct_id ct_idempotencyKey _ x) by (apply elem_of_app; by right).
Qed.

Lemma kept_code now c : base = beside us h (carried now d) -> c ∈ bd_inviteCodes data -> judge_code here c = is_present.
Proof.
  intros Eb (x & -> & Hx)%list_elem_of_fmap. unfold judge_code. rewrite Eb. cbn [here_inviteCodes localState set_users beside carried dp_inviteCodes].
  change (bc_id (export_code exportedAt x)) with (dc_id x).
  rewrite (map_get_row dc_id (fun c => ic_code (dc_columns c)) _ x); [|apply apart_sorted, P|apply elem_of_app; by right].
  cbn [bc_value export_code]. by rewrite jeqb_refl.
Qed.

Lemma kept_redemption now r : base = beside us h (carried now d) -> r ∈ bd_inviteRedemptions data -> judge_redemption here [] r = is_present.
Proof.
  intros Eb (x & -> & Hx)%list_elem_of_fmap. unfold judge_redemption. rewrite Eb.
  cbn [here_redemptions localState set_users beside carried dp_redemptions].
  assert (E : has_key (br_id (export_redemption x)) (map (fun r => (ir_id r, ir_userId r))
    (dp_redemptions h ++ map unhashed (List.filter (fun r => known_user d (ir_userId r)) (sorted_redemptions d)))) = true).
  { apply (has_key_row ir_id ir_userId _ (unhashed x)). apply elem_of_app. right. by apply list_elem_of_fmap_2. }
  by rewrite E.
Qed.

Lemma kept_key now a : base = beside us h (carried now d) -> a ∈ bd_apiKeys data -> judge_key here a = is_present.
Proof.
  intros Eb (x & -> & Hx)%list_elem_of_fmap. unfold judge_key. rewrite Eb. cbn [here_apiKeys localState set_users beside carried dp_apiKeys].
  pose proof (map_get_row ak_id ak_keyHash (dp_apiKeys h ++ map (known_creator (known_user d)) (sorted_keys d)) (known_creator (known_user d) x)) as E.
  change (bk_id (export_key (known_user d) x)) with (ak_id (known_creator (known_user d) x)).
  match goal with |- context [map_get ?i ?l] => replace (map_get i l) with (Some (ak_keyHash x)) end.
  - cbn [bk_keyHash export_key]. by rewrite jeqb_refl.
  - symmetry. apply E; [rewrite map_key_through by done; apply apart_sorted, P|]. apply elem_of_app. right. by apply list_elem_of_fmap_2.
Qed.

Lemma kept_endpoint now e : base = beside us h (carried now d) -> e ∈ bd_externalEndpoints data ->
  judge_endpoint here e = (Some is_present, Some is_present).
Proof.
  intros Eb (x & -> & Hx)%list_elem_of_fmap. unfold judge_endpoint. rewrite Eb.
  cbn [here_externalEndpoints localState set_users beside carried dp_endpoints]. 
  pose proof (has_key_row dx_id (fun e => ee_name (dx_endpoint e)) (dp_endpoints h ++ map (switched_off now) (sorted_endpoints d)) (switched_off now x)) as E.
  change (be_id (export_endpoint (sorted_models d) x)) with (dx_id (switched_off now x)).
  rewrite E; [done|]. apply elem_of_app. right. by apply list_elem_of_fmap_2.
Qed.

Lemma kept_measurement now m : base = beside us h (carried now d) -> m ∈ bd_trustedMeasurements data -> judge_measurement here m = is_present.
Proof.
  intros Eb (x & -> & Hx)%list_elem_of_fmap. unfold judge_measurement. rewrite Eb.
  cbn [here_trustedMeasurements localState set_users beside carried dp_measurements].
  change (bt_id (export_measurement x)) with (tm_id x). by rewrite (has_key_row tm_id tm_measurement _ x) by (apply elem_of_app; by right).
Qed.

Lemma kept_writes now : base = beside us h (carried now d) ->
  plan_writes toLowerCase data here =
  {| bd_users := map exported (drop k (sorted_users d)); bd_workspaces := []; bd_workspaceMembers := []; bd_creditLedger := [];
     bd_inviteCodes := []; bd_inviteRedemptions := []; bd_apiKeys := []; bd_externalEndpoints := []; bd_trustedMeasurements := [] |}.
Proof.
  intros Eb. unfold plan_writes. rewrite no_user_merged, no_workspace_folded, created_users.
  rewrite (created_none _ _ (fun w => kept_workspace now w Eb)), (created_none _ _ (fun m => kept_member now m Eb)),
    (created_none _ _ (fun e => kept_entry now e Eb)), (created_none _ _ (fun c => kept_code now c Eb)),
    (created_none _ _ (fun r => kept_redemption now r Eb)), (created_none _ _ (fun a => kept_key now a Eb)),
    (created_none _ _ (fun m => kept_measurement now m Eb)).
  unfold new_endpoints. rewrite (filter_nothing _ (bd_externalEndpoints data)); [done|].
  apply Forall_forall. intros e He. by rewrite (kept_endpoint now e Eb He).
Qed.

Lemma kept_clean bundle now : base = beside us h (carried now d) -> xb_data bundle = data ->
  planIsClean (planFor toLowerCase bootstrapEmail adminEmails bundle (set_users there base)) = true.
Proof.
  intros Eb Ed. unfold planIsClean, planFor, planImport. cbn [ip_refusals ip_sections]. rewrite Ed.
  rewrite no_refusals. rewrite bool_decide_eq_true_2 by done. cbn [andb]. unfold plan_sections. rewrite no_user_merged, no_workspace_folded.
  cbn [forallb]. rewrite users_section.
  rewrite !all_judged; try (intros r Hr; right; first
    [exact (kept_workspace now r Eb Hr)|exact (kept_member now r Eb Hr)|exact (kept_entry now r Eb Hr)|exact (kept_code now r Eb Hr)
    |exact (kept_redemption now r Eb Hr)|exact (kept_key now r Eb Hr)|exact (kept_measurement now r Eb Hr)]).
  destruct (endpoint_conflicts here (bd_externalEndpoints data)) as [-> ->]; [|reflexivity].
  intros e He. exists is_present. by rewrite (kept_endpoint now e Eb He).
Qed.

Lemma kept_import bundle now now' : base = beside us h (carried now d) -> xb_data bundle = data ->
  import toLowerCase other_date now' (planFor toLowerCase bootstrapEmail adminEmails bundle (set_users there base)) (set_users there base) =
  (set_users (guests ++ sorted_users d) base, Ok tt).
Proof.
  intros Eb Ed. unfold import. cbn [planFor planImport ip_writes]. rewrite Ed, (kept_writes now) by done. cbn [bd_users].
  rewrite user_rows by (intros u Hu; rewrite <- (take_drop k (sorted_users d)); apply elem_of_app; by right).
  cbn [dp_users set_users]. rewrite users_land.
  unfold write. cbn [planFor planImport ip_writes ip_touchedWorkspaceIds]. rewrite Ed, (kept_writes now) by done. rewrite Eb. cbn.
  by rewrite ?app_nil_r, (map_id (dp_workspaces h ++ sorted_workspaces d)).
Qed.
End Again.
End Fresh.

(** ** Theorems *)

Section Theorems.
Context `{UrlParser} `{JsonEngine} `{BundlePlatform} `{SchemaLibrary}.
Context (sha256 : jstr -> jstr) (toLowerCase : jstr -> jstr) (other_date : jstr -> option Z).
Context (bootstrapEmail : jstr) (adminEmails : list jstr).

Notation apply := (apply toLowerCase other_date bootstrapEmail adminEmails).
Notation export := (read toLowerCase bootstrapEmail adminEmails).

(** A deployment an export may be brought into: the accounts here are its operators' own,
    none of them is one of the export's by id or address, and no row here has a key of
    the export.  (An operator whose address the export carries is merged instead.) *)
Record ready (h d : Deployment) : Prop := {
  r_ids : NoDup (map pu_id (dp_users h ++ dp_users d));
  r_emails : NoDup (map (fun u => lower toLowerCase (pu_email u)) (dp_users h ++ dp_users d));
  r_operators : Forall (fun u => operator_address toLowerCase bootstrapEmail adminEmails (pu_email u) = true) (dp_users h);
  r_apart : apart h d
}.


(** The deployment imported beside what was here. *)
Definition imported (now : Z) (d h : Deployment) : Deployment := beside (dp_users h ++ sorted_users d) h (carried now d).



(** Importing the same file once more is accepted and changes nothing. *)
Theorem import_again_changes_nothing d h exportedAt file bundle now now' renders :
  exportable toLowerCase d -> ready h d -> decodeBundle file = Ok bundle -> xb_data bundle = export exportedAt d ->
  exists report, apply renders now' file (imported now d h) = (imported now d h, Ok report) /\ rp_applied report = true.
Proof.
  intros X [Ri Re Ro Ra] Hf Hb. pose (k := length (sorted_users d)).
  assert (E : imported now d h = set_users (dp_users h ++ take k (sorted_users d)) (imported now d h)) by (unfold k; by rewrite firstn_all).
  unfold DataMigration.apply. rewrite Hf, E.
  rewrite (kept_clean toLowerCase bootstrapEmail adminEmails exportedAt d X k (dp_users h) (imported now d h) Ri Re Ro _ h Ra bundle now eq_refl Hb).
  cbn [negb].
  rewrite (kept_import toLowerCase other_date bootstrapEmail adminEmails exportedAt d X k (dp_users h) (imported now d h) Ri Re _ h Ra bundle now now' eq_refl Hb).
  change (set_users (dp_users h ++ sorted_users d) (imported now d h)) with (imported now d h). rewrite <- E. by eexists.
Qed.










End Theorems.

(** ** Examples *)

Definition lower_text (s : jstr) : jstr := Js (map lower_unit (units s)).

#[local] Instance sample_urls : UrlParser :=
  {| URL_parse s := if jlength s =? 0 then None
                    else Some {| url_protocol := "https:"; url_host := "up.test"; url_hostname := "up.test" |} |}.

Definition sample_deployment : Deployment :=
  {| dp_users := [{| pu_id := "u2"; pu_email := "bob@example.test"; pu_name := "Bob"; pu_emailVerified := true; pu_image := None;
                     pu_createdAt := 2000 |};
                  {| pu_id := "u1"; pu_email := "ann@example.test"; pu_name := "Ann"; pu_emailVerified := true; pu_image := None;
                     pu_createdAt := 1000 |}];
     dp_workspaces := [{| dw_id := "w1"; dw_name := "Ann"; dw_slug := "ann";
       dw_columns := {| balanceMicros := 5000000; stripeCustomerId := None; autoTopUpEnabled := false; autoTopUpThresholdMicros := Some 100;
                        autoTopUpAmountMicros := None; autoTopUpLastAt := None; firstRequestAt := Some 1500; ws_createdAt := 1001 |} |}];
     dp_members := [{| dm_workspaceId := "w1"; dm_userId := "u1"; dm_role := role_owner; dm_createdAt := 1001 |}];
     dp_ledger := [{| ct_id := "t2"; ct_workspaceId := "w1"; ct_kind := usage; ct_amountMicros := -2000000; ct_reference := None;
                      ct_description := None; ct_idempotencyKey := "generation:g1"; ct_createdAt := 1500 |};
                   {| ct_id := "t1"; ct_workspaceId := "w1"; ct_kind := grant; ct_amountMicros := 7000000; ct_reference := None;
                      ct_description := None; ct_idempotencyKey := "invite:c1:u1"; ct_createdAt := 1002 |}];
     dp_inviteCodes := [{| dc_id := "c1"; dc_columns := code_example "ABCDEFGH2345" 1 None |}];
     dp_redemptions := [{| ir_id := "r1"; ir_inviteCodeId := "c1"; ir_userId := "u1"; ir_workspaceId := "w1";
                           ir_creditTransactionId := "t1"; ir_ipHash := Some "ab"; ir_userAgentHash := None; ir_redeemedAt := 1002 |}];
     dp_apiKeys := [{| ak_id := "k1"; ak_workspaceId := "w1"; ak_name := "cli"; ak_keyHash := jrepeat 48 64; ak_prefix := "sk-tee-v1-AA";
                       ak_purpose := None; ak_modelScope := None; ak_spendLimitMicros := Some 9000000; ak_spentTotalMicros := 2000000;
                       ak_requestsPerMinute := None; ak_tokensPerMinute := None; ak_expiresAt := None; ak_lastUsedAt := Some 1500;
                       ak_revokedAt := None; ak_createdByUserId := Some "u1"; ak_createdAt := 1003 |}];
     dp_endpoints := [{| dx_endpoint := {| ee_id := "e1"; ee_name := "up"; ee_hostname := "up.test"; ee_baseUrl := "https://up.test";
                                           ee_listenPort := 8101; ee_apiKeyCiphertext := "sealed"; ee_enabled := true;
                                           ee_pinnedEvidenceDigest := None; ee_columns := pending_verdict verified true 1400 |};
                         dx_details := {| ed_apiKeyPrefix := "sk-"; ed_createdByUserId := Some "u1"; ed_createdAt := 1400;
                                          ed_updatedAt := 1400 |} |}];
     dp_models := [{| m_id := "up/m"; m_name := "M"; m_litellmModel := "m"; m_origin := origin_external; m_endpointId := None;
                      m_externalEndpointId := Some "e1"; m_contextLength := 8192; m_capabilities := [cap_chat];
                      m_promptPer1mMicros := 10; m_completionPer1mMicros := 20; m_enabled := true; m_updatedAt := 1400 |}];
     dp_measurements := [{| tm_id := "tm1"; tm_measurement := "aa"; tm_note := None; tm_addedByUserId := None; tm_addedAt := 1300 |}] |}.

Ltac distinct_keys := apply (bool_decide_eq_true_1 _); vm_compute; reflexivity.

Lemma sample_exportable : exportable lower_text sample_deployment.
Proof.
  split; try distinct_keys; repeat constructor; cbn; try done; try set_solver; vm_compute; try done; split; discriminate.
Qed.

Definition migration_bundle (d : Deployment) : ExportBundle :=
  let data := read lower_text "ops@example.test" [] 3000 d in
  {| xb_schemaVersion := 1; xb_exportedAt := toISOString 3000; xb_source := sample_source; xb_counts := countsOf data;
     xb_totalBalanceMicros := totalBalanceMicros data; xb_data := data;
     xb_contentSha256 := toy_hash (@canonicalJson {| json_parse _ := None; json_stringify := String_json |} (data_object data)) |}.

(** A file is the deployment it was written for; one byte stands for it. *)
#[local] Instance file_engine : JsonEngine := {|
  json_parse s := Some (bundle_object (migration_bundle sample_deployment));
  json_stringify := String_json |}.

#[local] Instance file_platform : BundlePlatform := {|
  gzipSync bytes := bytes;
  gunzipSync limit file := Some file;
  utf8_bytes_of s := units s;
  utf8_text_of b := Js b;
  sha256_hex := toy_hash |}.

#[local] Instance file_schema : SchemaLibrary := {|
  iso_datetime := within_the_year_9999; url_text s := 0 <? jlength s; schema_issue _ := (Js [], "invalid" : jstr) |}.

Lemma sample_file_reads : decodeBundle [31%N] = Ok (migration_bundle sample_deployment).
Proof. vm_compute. reflexivity. Qed.

Notation sample_apply := (apply lower_text (fun _ => None) "ops@example.test" []).

(** The operator has signed in to the new deployment: an account, its workspace and a grant. *)
Definition operated_deployment : Deployment :=
  {| dp_users := [{| pu_id := "op"; pu_email := "ops@example.test"; pu_name := "Ops"; pu_emailVerified := true; pu_image := None;
                     pu_createdAt := 4000 |}];
     dp_workspaces := [{| dw_id := "w9"; dw_name := "Ops"; dw_slug := "ops";
       dw_columns := {| balanceMicros := 1000000; stripeCustomerId := None; autoTopUpEnabled := false; autoTopUpThresholdMicros := None;
                        autoTopUpAmountMicros := None; autoTopUpLastAt := None; firstRequestAt := None; ws_createdAt := 4000 |} |}];
     dp_members := [{| dm_workspaceId := "w9"; dm_userId := "op"; dm_role := role_owner; dm_createdAt := 4000 |}];
     dp_ledger := [{| ct_id := "t9"; ct_workspaceId := "w9"; ct_kind := grant; ct_amountMicros := 1000000; ct_reference := None;
                      ct_description := None; ct_idempotencyKey := "signup:op"; ct_createdAt := 4000 |}];
     dp_inviteCodes := []; dp_redemptions := []; dp_apiKeys := []; dp_endpoints := []; dp_models := []; dp_measurements := [] |}.

Lemma sample_ready : ready lower_text "ops@example.test" [] operated_deployment sample_deployment.
Proof. split; [distinct_keys..|by repeat constructor|]. split; try distinct_keys; repeat constructor; cbn; set_solver. Qed.


Lemma import_again_changes_nothing_witness : exists report,
  sample_apply true 6000 [31%N] (imported 5000 sample_deployment operated_deployment) = (imported 5000 sample_deployment operated_deployment, Ok report).
Proof.
  destruct (import_again_changes_nothing lower_text (fun _ => None) "ops@example.test" [] sample_deployment operated_deployment 3000 [31%N]
    (migration_bundle sample_deployment) 5000 6000 true sample_exportable sample_ready sample_file_reads eq_refl) as (report & E & _).
  exists report. exact E.
Defined.



(** An operator both deployments have is merged: the exported workspace is folded into the
    one here, whose balance is then the sum of both ledgers. *)
Definition merging_deployment : Deployment :=
  set_users [{| pu_id := "op"; pu_email := "ann@example.test"; pu_name := "Ann"; pu_emailVerified := true; pu_image := None;
                pu_createdAt := 4000 |}] operated_deployment.

Example an_operator_of_both_is_merged :
  match apply lower_text (fun _ => None) "ops@example.test" ["ann@example.test"%js] true 5000 [31%N] merging_deployment with
  | (d, Ok report) =>
      rp_applied report && bool_decide (map pu_id (dp_users d) = ["op"; "u2"]%js) &&
      bool_decide (map (fun w => (dw_id w, balanceMicros (dw_columns w))) (dp_workspaces d) = [("w9"%js, 6000000)]) &&
      bool_decide (map (fun k => (ak_id k, ak_workspaceId k)) (dp_apiKeys d) = [("k1", "w9")]%js)
  | _ => false
  end = true.
Proof. vm_compute. reflexivity. Qed.

(** A clean import can give one sidecar port to two endpoints: the plan compares ids,
    names and model ids, and a registration made here before the import may already
    listen where the imported row does. *)
Definition registered_here : Deployment :=
  {| dp_users := []; dp_workspaces := []; dp_members := []; dp_ledger := []; dp_inviteCodes := []; dp_redemptions := [];
     dp_apiKeys := [];
     dp_endpoints := [{| dx_endpoint := {| ee_id := "e9"; ee_name := "local"; ee_hostname := "up.test"; ee_baseUrl := "https://up.test";
                                           ee_listenPort := 8101; ee_apiKeyCiphertext := "sealed"; ee_enabled := true;
                                           ee_pinnedEvidenceDigest := None; ee_columns := pending_verdict pending true 10 |};
                         dx_details := {| ed_apiKeyPrefix := "sk-"; ed_createdByUserId := None; ed_createdAt := 10; ed_updatedAt := 10 |} |}];
     dp_models := []; dp_measurements := [] |}.

Example import_can_share_a_port :
  match sample_apply true 5000 [31%N] registered_here with
  | (d, Ok report) => rp_applied report && bool_decide (map (fun e => ee_listenPort (dx_endpoint e)) (dp_endpoints d) = [8101; 8101])
  | _ => false
  end = true.
Proof. vm_compute. reflexivity. Qed.
