(* ===== verification/EvidenceBundle.v ===== *)
(** * The published evidence bundle

    [evidence/evidence-digest.ts] and [evidence/evidence-bundle.ts]: the parser of a
    digest, and the reader of what a host publishes.  The reader checks the shape and
    copies what a screen shows; it is not the verifier and decides nothing.

    The instant check of the schema, the UTF-8 decoder, the certificate reader and
    SHA-256 are a class; the messages of a failed shape check are the library's and
    are left out of the errors. *)

From S2P Require Import Prelude JsString JsDate EvidenceDigest Json SecretEnvelope.

(** ** The digest parser *)

Record EvidenceDigest := { dg_canonical : jstr; dg_hex : jstr }.

Inductive digest_error := EvidenceDigestError (input reason : jstr).

(** [/^[A-Za-z0-9_-]{43}$/] *)
Definition CANONICAL_BODY (s : list N) : bool := (length s =? 43)%nat && forallb is_b64url s.

Definition stripHexPrefix (value : jstr) : jstr :=
  if jstartsWith value EVIDENCE_DIGEST_HEX_PREFIX then jdrop 7 value else value.

(** [Buffer.from(hex, 'hex').toString('base64url')] *)
Definition base64UrlOfHex (hex : list N) : list N := base64UrlEncode (hex_bytes hex).

(** [bytes.toString('hex')] *)
Definition buffer_hex (bytes : list N) : list N := concat (map byte_hex bytes).

Definition parseEvidenceDigest (input : option json) : result digest_error EvidenceDigest :=
  match input with
  | Some (JString text) =>
      let trimmed := jtrim text in
      let prefixed := jstartsWith trimmed EVIDENCE_DIGEST_PREFIX in
      let body := if prefixed then jdrop 7 trimmed else stripHexPrefix trimmed in
      if HEX_SHA256 (units body) then
        let hex := map lower_unit (units body) in
        Ok {| dg_canonical := EVIDENCE_DIGEST_PREFIX +++ Js (base64UrlOfHex hex); dg_hex := Js hex |}
      else if negb prefixed then
        Err (EvidenceDigestError trimmed ("expected " +++ Js [34%N] +++ "sha256/<base64url>" +++ Js [34%N] +++ " or 64 hex characters"))
      else
        let unpadded := strip_padding (units body) in
        if negb (CANONICAL_BODY unpadded) then
          Err (EvidenceDigestError trimmed "base64url body must be 43 characters from the URL-safe alphabet")
        else
          let bytes := from_base64url unpadded in
          if negb (length bytes =? 32)%nat || negb (bool_decide (base64UrlEncode bytes = unpadded)) then
            Err (EvidenceDigestError trimmed "body does not decode to a canonical 32-byte digest")
          else Ok {| dg_canonical := EVIDENCE_DIGEST_PREFIX +++ Js unpadded; dg_hex := Js (buffer_hex bytes) |}
  | _ => Err (EvidenceDigestError (String_of input) "expected a string")
  end.

Definition fingerprintHex (value : jstr) : jstr :=
  match parseEvidenceDigest (Some (JString value)) with Ok d => dg_hex d | Err _ => Js [] end.

(** ** The shape *)

Record X509Certificate := { x5_subject : jstr; x5_issuer : jstr; x5_validTo : jstr; x5_raw : list N }.

Class EvidencePlatform := {
  (** The instant of a text [z.iso.datetime] takes. *)
  iso_instant : jstr -> option Z;
  (** [new Date(text)]; [None] is an invalid date. *)
  Date_of : jstr -> option Z;
  utf8_text : list N -> jstr;
  (** [new X509Certificate(pem)]; [None] is its exception. *)
  read_certificate : jstr -> option X509Certificate;
  sha256_of : list N -> list N
}.

Record CertificateSummary := { cs_subject : jstr; cs_issuer : jstr; cs_notAfter : jstr; cs_fingerprint : jstr }.

Record EvidenceWorkloadSummary := {
  wk_kind : jstr;
  wk_name : jstr;
  wk_namespace : option jstr;
  wk_containers : list jstr
}.

Record ParsedEvidenceBundle := {
  pb_hostname : jstr;
  pb_issuedAt : Z;
  pb_digest : EvidenceDigest;
  pb_certFingerprint : jstr;
  pb_quoteFormat : option jstr;
  pb_containerImages : list jstr;
  pb_workloads : list EvidenceWorkloadSummary;
  pb_chainSummary : list CertificateSummary;
  pb_measurements : option json;
  pb_jws : jstr;
  pb_bundle : json
}.

Inductive EvidenceBundleError :=
| bundle_shape
| bundle_of_another_host (hostname : jstr)
| unsupported_kind (kind : jstr)
| payload_not_json
| payload_shape
| payload_of_another_host (hostname : jstr)
| digest_refused (e : digest_error)
| not_a_certificate (index : nat)
| invalid_expiry (index : nat).

(** [/^sha256\/[A-Za-z0-9_-]{43}$/] *)
Definition FINGERPRINT (s : jstr) : bool :=
  jstartsWith s EVIDENCE_DIGEST_PREFIX && CANONICAL_BODY (units (jdrop 7 s)).

(** [/^[A-Za-z0-9_-]+\.[A-Za-z0-9_-]+\.[A-Za-z0-9_-]+$/] *)
Definition segment_ok (s : list N) : bool := negb (length s =? 0)%nat && forallb is_b64url s.

Definition COMPACT_JWS (s : jstr) : bool :=
  match split_on 46 (units s) with
  | [header; payload; signature] => segment_ok header && segment_ok payload && segment_ok signature
  | _ => false
  end.

(** A string that satisfies a pattern. *)
Definition text_with (p : jstr -> bool) (v : option json) : bool :=
  match as_string v with Some s => p s | None => false end.

Definition nonempty (s : jstr) : bool := negb (jlength s =? 0).

Definition BUNDLE_KINDS : list jstr := ["DeploymentEvidence"; "ControlPlaneEvidence"; "KubernetesControlPlaneEvidence"].

Section Reader.
Context `{EvidencePlatform} `{JsonEngine}.

Definition is_instant (s : jstr) : bool := match iso_instant s with Some _ => true | None => false end.

Definition BundleSchema (raw : json) : bool :=
  is_record raw &&
  is_text "1" (member "version" raw) &&
  text_with (fun s => existsb (jeqb s) BUNDLE_KINDS) (member "kind" raw) &&
  text_with nonempty (member "hostname" raw) &&
  text_with is_instant (member "issuedAt" raw) &&
  text_with FINGERPRINT (member "certFingerprint" raw) &&
  text_with COMPACT_JWS (member "jws" raw) &&
  match member "certChain" raw with
  | Some (JArray (pem :: pems)) => forallb (fun p => text_with nonempty (Some p)) (pem :: pems)
  | _ => false
  end &&
  match member "tlsLeaf" raw with Some leaf => text_with nonempty (Some leaf) | None => true end.

Definition PayloadSchema (payload : json) : bool :=
  is_record payload &&
  is_text "1" (member "version" payload) &&
  is_text "DeploymentEvidence" (member "kind" payload) &&
  text_with nonempty (member "hostname" payload) &&
  text_with is_instant (member "issuedAt" payload) &&
  text_with FINGERPRINT (member "certFingerprint" payload) &&
  text_with nonempty (member "evidenceDigest" payload) &&
  match member "evidence" payload with Some e => is_record e | None => true end.

(** A text the schema has established. *)
Definition text_of (name : jstr) (v : json) : jstr := default (Js []) (as_string (member name v)).

Definition decodePayload (jws : jstr) : result EvidenceBundleError json :=
  let segment := default [] (split_on 46 (units jws) !! 1%nat) in
  match json_parse (utf8_text (from_base64url segment)) with
  | None => Err payload_not_json
  | Some parsed => if PayloadSchema parsed then Ok parsed else Err payload_shape
  end.

(** ** What a screen shows *)

Definition quoteFormatOf (quote : option json) : option jstr := nonempty_string (chain quote "format").

Definition podSpecsOf (resource : json) : list json :=
  if negb (is_object resource) then []
  else
    let spec := member "spec" resource in
    List.filter is_object (omap id
      [Some resource; spec; chain (chain spec "template") "spec";
       chain (chain (chain (chain spec "jobTemplate") "spec") "template") "spec"]).

(** The container objects of a pod spec under one of its two lists. *)
Definition containers_at (key : jstr) (spec : json) : list json :=
  List.filter is_object (default [] (array_items (member key spec))).

Definition resources_of (evidence : option json) : list json := default [] (array_items (chain evidence "resources")).

Definition image_of (container : json) : option jstr := nonempty_string (member "image" container).

Definition containerImagesOf (evidence : option json) : list jstr :=
  distinct [] (omap image_of
    (concat (map (fun spec => containers_at "containers" spec ++ containers_at "initContainers" spec)
      (concat (map podSpecsOf (resources_of evidence)))))).

Definition WORKLOAD_KINDS : list jstr :=
  ["Deployment"; "StatefulSet"; "DaemonSet"; "ReplicaSet"; "Job"; "CronJob"; "Pod"].

Definition containerNamesOf (resource : json) : list jstr :=
  distinct [] (omap (fun container => nonempty_string (member "name" container))
    (concat (map (fun spec => containers_at "initContainers" spec ++ containers_at "containers" spec) (podSpecsOf resource)))).

Definition workload_of (resource : json) : option EvidenceWorkloadSummary :=
  if negb (is_object resource) then None
  else
    kind ← as_string (member "kind" resource);
    if negb (existsb (jeqb kind) WORKLOAD_KINDS) then None
    else
      let metadata := member "metadata" resource in
      name ← nonempty_string (chain metadata "name");
      Some {| wk_kind := kind; wk_name := name; wk_namespace := nonempty_string (chain metadata "namespace");
              wk_containers := containerNamesOf resource |}.

Definition workloadsOf (evidence : option json) : list EvidenceWorkloadSummary := omap workload_of (resources_of evidence).

Definition measurementsOf (payload bundle : json) : option json :=
  let first a b := match asRecord a with Some m => Some m | None => b end in
  first (chain (member "evidence" payload) "measurements")
    (first (member "measurements" payload)
      (asRecord (chain (chain (member "rootCaTeeQuote" bundle) "collateral") "measurements"))).

Definition summary_of (index : nat) (pem : jstr) : result EvidenceBundleError CertificateSummary :=
  match read_certificate pem with
  | None => Err (not_a_certificate index)
  | Some certificate =>
      match Date_of (x5_validTo certificate) with
      | None => Err (invalid_expiry index)
      | Some t => Ok {| cs_subject := x5_subject certificate; cs_issuer := x5_issuer certificate; cs_notAfter := toISOString t;
                        cs_fingerprint := "sha256/" +++ Js (base64UrlEncode (sha256_of (x5_raw certificate))) |}
      end
  end.

Fixpoint summariseChain (index : nat) (pems : list jstr) : result EvidenceBundleError (list CertificateSummary) :=
  match pems with
  | [] => Ok []
  | pem :: pems => s ← summary_of index pem; rest ← summariseChain (S index) pems; Ok (s :: rest)
  end.

(** ** The reader *)

Definition parseEvidenceBundle (raw : json) (hostname : jstr) : result EvidenceBundleError ParsedEvidenceBundle :=
  if negb (BundleSchema raw) then Err bundle_shape
  else if negb (jeqb (text_of "hostname" raw) hostname) then Err (bundle_of_another_host (text_of "hostname" raw))
  else if negb (jeqb (text_of "kind" raw) "DeploymentEvidence") then Err (unsupported_kind (text_of "kind" raw))
  else
    let jws := text_of "jws" raw in
    payload ← decodePayload jws;
    if negb (jeqb (text_of "hostname" payload) hostname) then Err (payload_of_another_host (text_of "hostname" payload))
    else
      match parseEvidenceDigest (member "evidenceDigest" payload) with
      | Err e => Err (digest_refused e)
      | Ok digest =>
          chainSummary ← summariseChain 0 (omap (fun p => as_string (Some p)) (default [] (array_items (member "certChain" raw))));
          Ok {| pb_hostname := hostname;
                pb_issuedAt := default 0 (iso_instant (text_of "issuedAt" payload));
                pb_digest := digest;
                pb_certFingerprint := text_of "certFingerprint" payload;
                pb_quoteFormat := quoteFormatOf (member "rootCaTeeQuote" raw);
                pb_containerImages := containerImagesOf (member "evidence" payload);
                pb_workloads := workloadsOf (member "evidence" payload);
                pb_chainSummary := chainSummary;
                pb_measurements := measurementsOf payload raw;
                pb_jws := jws;
                pb_bundle := raw |}
      end.
End Reader.

(** ** Lemmas: the two digest parsers *)

Lemma b64url_value_digit v : (v < 64)%N -> base64url_value (url_digit v) = Some v.
Proof. revert v. apply (below_64 (fun v => base64url_value (url_digit v) = Some v)). vm_compute. reflexivity. Qed.

Lemma from_base64url_digits digits : Forall (fun s => (s < 64)%N) digits -> from_base64url (map url_digit digits) = octets digits.
Proof.
  intros Hd. unfold from_base64url. f_equal. induction Hd as [|v digits Hv _ IH]; [done|]. cbn.
  by rewrite b64url_value_digit, IH.
Qed.

Lemma strip_padding_run u : exists k, u = strip_padding u ++ replicate k 61%N.
Proof.
  destruct (drop_while_run (fun c => (c =? 61)%N) 61 (reverse u)) as [k E]; [by intros d ->%N.eqb_eq|]. exists k.
  unfold strip_padding. rewrite <- (reverse_involutive u) at 1. rewrite E at 1. by rewrite reverse_app, reverse_replicate.
Qed.

(** What a hex body becomes. *)
Lemma parse_hex text body : HEX_SHA256 (units body) = true ->
  jtrim text = body \/ jtrim text = EVIDENCE_DIGEST_PREFIX +++ body \/ jtrim text = EVIDENCE_DIGEST_HEX_PREFIX +++ body ->
  exists bytes, sha256_bytes bytes /\
    parseEvidenceDigest (Some (JString text)) = Ok {| dg_canonical := digest_of bytes; dg_hex := Js (buffer_hex bytes) |} /\
    normalizeEvidenceDigest text = Some (digest_of bytes).
Proof.
  intros Hh Ht.
  assert (Hs : exists scheme, hex_spelling scheme body /\ jtrim text = scheme +++ body).
  { destruct Ht as [->|[->| ->]]; [exists (Js [])|exists EVIDENCE_DIGEST_PREFIX|exists EVIDENCE_DIGEST_HEX_PREFIX];
      (split; [split; [set_solver|done]|by destruct body]). }
  destruct Hs as (scheme & Hs & E).
  destruct (normalize_hex_spelling scheme body Hs) as (bytes & Hb & Hl & Hn). destruct (stripScheme_spelling scheme body Hs) as (Hsc & Htrim & _).
  exists bytes. split; [done|]. split; [|unfold normalizeEvidenceDigest in *; by rewrite E, <- Htrim]. unfold parseEvidenceDigest. rewrite E.
  assert (Hbody : (if jstartsWith (scheme +++ body) EVIDENCE_DIGEST_PREFIX then jdrop 7 (scheme +++ body)
    else stripHexPrefix (scheme +++ body)) = body) by exact Hsc.
  rewrite Hbody, Hh, Hl. unfold base64UrlOfHex, base64UrlEncode. destruct Hb as [_ Hb].
  rewrite hex_bytes_byte_hex, url_safe_btoa by done. reflexivity.
Qed.


Lemma startsWith_split p n t : jstartsWith t p = true -> n = jlength p -> t = p +++ jdrop n t.
Proof.
  intros [r Hr]%prefixb_spec ->. destruct t as [u]. cbn [units] in Hr. subst u.
  change (Js (units p ++ r)) with (p +++ Js r). by rewrite jdrop_app.
Qed.

(** A hex body under any scheme, from the text after the trimming. *)
Lemma body_of_trimmed text : let t := jtrim text in
  let body := if jstartsWith t EVIDENCE_DIGEST_PREFIX then jdrop 7 t else stripHexPrefix t in
  jtrim text = body \/ jtrim text = EVIDENCE_DIGEST_PREFIX +++ body \/ jtrim text = EVIDENCE_DIGEST_HEX_PREFIX +++ body.
Proof.
  cbv zeta. generalize (jtrim text) as t. intros t. unfold stripHexPrefix.
  destruct (jstartsWith t EVIDENCE_DIGEST_PREFIX) eqn:E; [|destruct (jstartsWith t EVIDENCE_DIGEST_HEX_PREFIX) eqn:E'; [|by left]].
  - right. left. by apply startsWith_split.
  - right. right. by apply startsWith_split.
Qed.

Lemma BASE64URL_SHA256_length s : BASE64URL_SHA256 s = true -> (length s = 43 \/ length s = 44)%nat.
Proof. unfold BASE64URL_SHA256. rewrite !andb_true_iff, orb_true_iff, andb_true_iff, !Nat.eqb_eq. tauto. Qed.

Lemma BASE64URL_SHA256_padded u : length u = 43%nat -> BASE64URL_SHA256 u = true -> BASE64URL_SHA256 (u ++ [61%N]) = true.
Proof.
  unfold BASE64URL_SHA256. intros Hl. rewrite !length_app, Hl. cbn [length Nat.add Nat.eqb orb andb].
  rewrite !andb_true_iff. intros [H42 Hlast].
  rewrite take_app_le by lia. rewrite (lookup_app_l _ _ 42) by lia. rewrite (lookup_app_r _ _ 43) by lia. rewrite Hl. done.
Qed.

(** A body of forty-three characters that decodes and encodes back. *)
Lemma canonical_body u : CANONICAL_BODY u = true -> base64UrlEncode (from_base64url u) = u ->
  length (from_base64url u) = 32%nat ->
  sha256_bytes (from_base64url u) /\ digest_of (from_base64url u) = EVIDENCE_DIGEST_PREFIX +++ Js u /\ BASE64URL_SHA256 u = true.
Proof.
  intros [Hl Hu]%andb_true_iff He Hb. destruct (digits_of_b64url u Hu) as (ds & Hd & ->).
  rewrite from_base64url_digits in * by done.
  assert (Hs : sha256_bytes (octets ds)) by (split; [done|by apply octets_lt]).
  assert (Hm : map url_digit (sextets (octets ds)) = map url_digit ds).
  { destruct Hs as [_ Hs]. unfold base64UrlEncode in He. by rewrite url_safe_btoa in He. }
  split; [done|]. split; [unfold digest_of; by rewrite Hm|]. rewrite <- Hm. by apply digest_of_valid.
Qed.

Lemma parse_canonical text bytes : sha256_bytes bytes -> jstartsWith (jtrim text) EVIDENCE_DIGEST_PREFIX = true ->
  strip_padding (units (jdrop 7 (jtrim text))) = map url_digit (sextets bytes) ->
  HEX_SHA256 (units (jdrop 7 (jtrim text))) = false ->
  parseEvidenceDigest (Some (JString text)) = Ok {| dg_canonical := digest_of bytes; dg_hex := Js (buffer_hex bytes) |}.
Proof.
  intros Hb Hp Hs Hh. destruct (sha256_sextets bytes Hb) as [Hl Hd]. pose proof Hb as [Hlb Hbb].
  unfold parseEvidenceDigest. rewrite Hp, Hh, Hs. cbn [negb].
  assert (HC : CANONICAL_BODY (map url_digit (sextets bytes)) = true).
  { unfold CANONICAL_BODY. rewrite length_map, Hl. cbn [Nat.eqb andb]. apply forallb_forall. intros c Hc%list_elem_of_In.
    apply list_elem_of_fmap in Hc as (v & -> & Hv). rewrite Forall_forall in Hd. by destruct (url_digit_spec v (Hd v Hv)) as [-> _]. }
  rewrite HC. cbn [negb]. rewrite from_base64url_digits, octets_sextets by done. rewrite Hlb. cbn [Nat.eqb negb orb].
  unfold base64UrlEncode. rewrite url_safe_btoa by done. by rewrite bool_decide_eq_true_2.
Qed.

(** The console and the router read a digest alike: whatever the shared parser of the
    screens accepts, the parser that files bundles reads as the same digest, in both
    spellings.  The router accepts nothing else but a canonical digest with more than
    one padding character behind it. *)
Theorem digest_parsers_agree text :
  (forall c, normalizeEvidenceDigest text = Some c -> exists d,
     parseEvidenceDigest (Some (JString text)) = Ok d /\ dg_canonical d = c /\ evidenceDigestHex text = Some (dg_hex d)) /\
  (forall d, parseEvidenceDigest (Some (JString text)) = Ok d ->
     normalizeEvidenceDigest (dg_canonical d) = Some (dg_canonical d) /\ evidenceDigestHex (dg_canonical d) = Some (dg_hex d) /\
     (normalizeEvidenceDigest text = Some (dg_canonical d) \/
      exists k, jtrim text = dg_canonical d +++ jrepeat 61 k /\ 2 <= k)).
Proof.
  pose proof (body_of_trimmed text) as Hbody. cbv zeta in Hbody. split.
  - intros c Hc. assert (Hx : evidenceDigestHex text = Js <$> base64UrlToHex (units (jdrop 7 c))).
    { unfold evidenceDigestHex. by rewrite Hc. }
    destruct (isEvidenceDigest (jtrim text)) eqn:E.
    + apply andb_true_iff in E as [Hp E]. destruct (BASE64URL_SHA256_spec _ E) as (bytes & Hb & Hs).
      assert (Hh : HEX_SHA256 (units (jdrop 7 (jtrim text))) = false).
      { unfold HEX_SHA256. by destruct (BASE64URL_SHA256_length _ E) as [-> | ->]. }
      eexists. split; [exact (parse_canonical text bytes Hb Hp Hs Hh)|].
      unfold normalizeEvidenceDigest in Hc. unfold isEvidenceDigest in Hc. rewrite Hp, E in Hc. cbn [andb] in Hc.
      rewrite Hs in Hc. change (Some (digest_of bytes) = Some c) in Hc. apply (inj Some) in Hc as <-. split; [done|]. rewrite Hx.
      pose proof (hex_of_digest_of bytes Hb) as Hd. unfold evidenceDigestHex in Hd. by rewrite normalize_digest_of in Hd.
    + pose proof Hc as Hc'. unfold normalizeEvidenceDigest in Hc'. rewrite E in Hc'.
      destruct (HEX_SHA256 (units (stripScheme (jtrim text)))) eqn:Eh; [|done].
      assert (Hsb : stripScheme (jtrim text) =
        (if jstartsWith (jtrim text) EVIDENCE_DIGEST_PREFIX then jdrop 7 (jtrim text) else stripHexPrefix (jtrim text))) by done.
      rewrite Hsb in Eh. destruct (parse_hex text _ Eh Hbody) as (bytes & Hb & Hd & Hn).
      eexists. split; [exact Hd|]. rewrite Hn in Hc. injection Hc as <-. split; [done|]. rewrite Hx.
      pose proof (hex_of_digest_of bytes Hb) as Hg. unfold evidenceDigestHex in Hg. by rewrite normalize_digest_of in Hg.
  - intros d Hd.
    assert (H : exists bytes, sha256_bytes bytes /\ dg_canonical d = digest_of bytes /\ dg_hex d = Js (buffer_hex bytes) /\
      (normalizeEvidenceDigest text = Some (dg_canonical d) \/ exists k, jtrim text = dg_canonical d +++ jrepeat 61 k /\ 2 <= k)).
    { pose proof Hd as Hd'. unfold parseEvidenceDigest in Hd. destruct (HEX_SHA256 _) eqn:Eh.
      - destruct (parse_hex text _ Eh Hbody) as (bytes & Hb & He & Hn). rewrite He in Hd'. injection Hd' as <-.
        exists bytes. split_and!; [done..|by left].
      - destruct (jstartsWith (jtrim text) EVIDENCE_DIGEST_PREFIX) eqn:Ep; [|done]. cbn [negb] in Hd.
        set (body := units (jdrop 7 (jtrim text))) in *. destruct (CANONICAL_BODY (strip_padding body)) eqn:Ec; [|done].
        cbn [negb] in Hd. destruct (Nat.eqb_spec (length (from_base64url (strip_padding body))) 32) as [Hl|]; [|done].
        cbn [negb orb] in Hd. case_bool_decide as He; [|done]. injection Hd as <-. cbn [dg_canonical dg_hex].
        destruct (canonical_body _ Ec He Hl) as (Hb & Hg & HB). eexists. split; [exact Hb|]. split; [by rewrite Hg|]. split; [done|].
        assert (Ht : jtrim text = EVIDENCE_DIGEST_PREFIX +++ Js body).
        { rewrite (startsWith_split _ 7 _ Ep eq_refl) at 1. unfold body. by destruct (jdrop 7 (jtrim text)). }
        destruct (strip_padding_run body) as [k Hk]. apply andb_true_iff in Ec as [Hlen%Nat.eqb_eq _].
        assert (Hshort : (k <= 1)%nat -> normalizeEvidenceDigest text = Some (EVIDENCE_DIGEST_PREFIX +++ Js (strip_padding body))).
        { intros Hk1. unfold normalizeEvidenceDigest, isEvidenceDigest. rewrite Ep. fold body.
          assert (BASE64URL_SHA256 body = true) as ->; [|done]. rewrite Hk. destruct k as [|[|k]]; [by rewrite app_nil_r| |lia].
          by apply BASE64URL_SHA256_padded. }
        destruct (decide (k <= 1)%nat) as [Hk1|Hk1]; [left; by apply Hshort|right].
        exists (Z.of_nat k). split; [|lia]. rewrite Ht, <- japp_assoc. unfold jrepeat. rewrite Nat2Z.id, Hk at 1. done. }
    destruct H as (bytes & Hb & -> & -> & H). split; [by apply normalize_digest_of|]. split; [by apply hex_of_digest_of|exact H].
Qed.

(** ** What a filed bundle is *)

Lemma text_with_some p name v : text_with p (member name v) = true ->
  exists s, member name v = Some (JString s) /\ text_of name v = s /\ p s = true.
Proof.
  unfold text_with, text_of. destruct (as_string (member name v)) as [s|] eqn:E; [|done]. intros Hp.
  apply as_string_some in E. by exists s.
Qed.

Section Filed.
Context `{EvidencePlatform} `{JsonEngine}.

Lemma summariseChain_length pems : forall index l, summariseChain index pems = Ok l -> length l = length pems.
Proof.
  induction pems as [|pem pems IH]; intros index l; cbn; [by intros [= <-]|].
  intros (s & _ & (rest & Hr & [= <-])%bind_ok)%bind_ok. cbn. f_equal. exact (IH _ _ Hr).
Qed.

(** A bundle that is filed names the endpoint it was fetched for, in the envelope and
    in the signed payload, and everything stored comes from that payload: the instant,
    the fingerprint, the digest in both of its canonical spellings.  The document
    relayed later is the one that was read. *)
Theorem filed_bundle_names_its_endpoint raw hostname p : parseEvidenceBundle raw hostname = Ok p ->
  pb_bundle p = raw /\ pb_hostname p = hostname /\
  member "hostname" raw = Some (JString hostname) /\ is_text "DeploymentEvidence" (member "kind" raw) = true /\
  member "jws" raw = Some (JString (pb_jws p)) /\ COMPACT_JWS (pb_jws p) = true /\
  exists payload digest, decodePayload (pb_jws p) = Ok payload /\
    member "hostname" payload = Some (JString hostname) /\ is_text "DeploymentEvidence" (member "kind" payload) = true /\
    member "issuedAt" payload = Some (JString (text_of "issuedAt" payload)) /\
    iso_instant (text_of "issuedAt" payload) = Some (pb_issuedAt p) /\
    member "certFingerprint" payload = Some (JString (pb_certFingerprint p)) /\ FINGERPRINT (pb_certFingerprint p) = true /\
    member "evidenceDigest" payload = Some (JString digest) /\ parseEvidenceDigest (Some (JString digest)) = Ok (pb_digest p) /\
    (0 < length (pb_chainSummary p))%nat.
Proof.
  unfold parseEvidenceBundle. destruct (BundleSchema raw) eqn:Eb; [|done]. cbn [negb].
  destruct (jeqb (text_of "hostname" raw) hostname) eqn:Eh; [|done]. destruct (jeqb (text_of "kind" raw) _) eqn:Ek; [|done]. cbn [negb].
  intros (payload & Hp & Hr)%bind_ok.
  destruct (jeqb (text_of "hostname" payload) hostname) eqn:Eph; [|done]. cbn [negb] in Hr.
  destruct (parseEvidenceDigest _) as [digest|] eqn:Ed; [|done]. apply bind_ok in Hr as (summary & Hs & [= <-]).
  cbn [pb_bundle pb_hostname pb_jws pb_issuedAt pb_certFingerprint pb_digest pb_chainSummary].
  unfold BundleSchema in Eb. rewrite !andb_true_iff in Eb. destruct Eb as [[[[[[[[_ _] Bk] Bh] _] _] Bj] Bc] _].
  destruct (text_with_some _ _ _ Bk) as (kind & Hk1 & Hk2 & _). destruct (text_with_some _ _ _ Bh) as (h & Hh1 & Hh2 & _).
  destruct (text_with_some _ _ _ Bj) as (jws & Hj1 & Hj2 & Hj3).
  apply jeqb_eq in Eh, Ek, Eph. rewrite Hh2 in Eh. rewrite Hk2 in Ek. subst h kind. rewrite Hj2 in *.
  assert (Hpay : PayloadSchema payload = true).
  { unfold decodePayload in Hp. destruct (json_parse _); [|done]. destruct (PayloadSchema _) eqn:E; [|done]. by injection Hp as <-. }
  unfold PayloadSchema in Hpay. rewrite !andb_true_iff in Hpay. destruct Hpay as [[[[[[[_ _] Pk] Ph] Pi] Pf] Pd] _].
  destruct (text_with_some _ _ _ Ph) as (ph & Ph1 & Ph2 & _). destruct (text_with_some _ _ _ Pi) as (pi & Pi1 & Pi2 & Pi3).
  destruct (text_with_some _ _ _ Pf) as (pf & Pf1 & Pf2 & Pf3). destruct (text_with_some _ _ _ Pd) as (pd & Pd1 & Pd2 & _).
  rewrite Ph2 in Eph. subst ph. rewrite Pd1 in Ed. rewrite Pf2, Pi2. rewrite Hh1, Hk1. cbn [is_text].
  split_and!; try done. exists payload, pd. unfold is_instant in Pi3. destruct (iso_instant pi) as [t|] eqn:Et; [|done].
  split_and!; try done; [by rewrite Pi2|by rewrite Pi2, Et|]. rewrite (summariseChain_length _ _ _ Hs).
  destruct (member "certChain" raw) as [[| | | |[|pem pems]|]|]; try done. cbn [array_items default].
  cbn [forallb] in Bc. apply andb_true_iff in Bc as [Bp _]. destruct pem; try done. cbn. lia.
Qed.
End Filed.

(** ** What the images and the workloads are *)

(** A container of a resource: in one of the two lists of one of the enumerated pod
    specs. *)
Inductive container_of (resource : json) : json -> Prop :=
| container_in_spec spec key container :
    spec ∈ podSpecsOf resource -> key ∈ (["containers"; "initContainers"] : list jstr) ->
    container ∈ containers_at key spec -> container_of resource container.

Lemma elem_of_concat_map {A B} (f : A -> list B) l y : y ∈ concat (map f l) <-> exists x, x ∈ l /\ y ∈ f x.
Proof.
  rewrite list_elem_of_In, in_concat. split.
  - intros (ys & Hys & Hy). apply in_map_iff in Hys as (x & <- & Hx). exists x. by rewrite !list_elem_of_In.
  - intros (x & Hx & Hy). exists (f x). rewrite !list_elem_of_In in *. split; [|done]. by apply in_map.
Qed.

Lemma containers_listed resource k1 k2 container : [k1; k2] ≡ₚ (["containers"; "initContainers"] : list jstr) ->
  container ∈ concat (map (fun spec => containers_at k1 spec ++ containers_at k2 spec) (podSpecsOf resource)) <->
  container_of resource container.
Proof.
  intros Hk. rewrite elem_of_concat_map. split.
  - intros (spec & Hs & [Hc|Hc]%elem_of_app);
      [apply (container_in_spec resource spec k1)|apply (container_in_spec resource spec k2)]; try done; rewrite <- Hk; set_solver.
  - intros [spec key c Hs Hkey Hc]. exists spec. split; [done|]. rewrite <- Hk in Hkey. apply elem_of_app.
    rewrite !elem_of_cons, elem_of_nil in Hkey. destruct Hkey as [->|[->|[]]]; [by left|by right].
Qed.

(** The images listed under a digest are the images of the containers that run, init
    containers included, each once; a workload's containers are those of its resource. *)
Theorem images_listed_are_the_images_run evidence :
  NoDup (containerImagesOf evidence) /\
  (forall image, image ∈ containerImagesOf evidence <->
     exists resource container, resource ∈ resources_of evidence /\ container_of resource container /\
       image_of container = Some image) /\
  (forall w, w ∈ workloadsOf evidence -> exists resource, resource ∈ resources_of evidence /\
     is_text (wk_kind w) (member "kind" resource) = true /\ wk_kind w ∈ WORKLOAD_KINDS /\ NoDup (wk_containers w) /\
     forall name, name ∈ wk_containers w <->
       exists container, container_of resource container /\ nonempty_string (member "name" container) = Some name).
Proof.
  split; [apply distinct_spec|]. split.
  - intros image. unfold containerImagesOf. destruct (distinct_spec [] (omap image_of
      (concat (map (fun spec => containers_at "containers" spec ++ containers_at "initContainers" spec)
        (concat (map podSpecsOf (resources_of evidence))))))) as [_ ->].
    rewrite list_elem_of_omap. split.
    + intros [(container & Hc & Hi) _]. apply elem_of_concat_map in Hc as (spec & (resource & Hr & Hs)%elem_of_concat_map & Hc).
      exists resource, container. split_and!; [done| |done]. apply (containers_listed resource "containers" "initContainers"); [done|].
      apply elem_of_concat_map. by exists spec.
    + intros (resource & container & Hr & Hc & Hi). split; [|by intros ?%elem_of_nil]. exists container. split; [|done].
      apply (containers_listed resource "containers" "initContainers") in Hc; [|done].
      apply elem_of_concat_map in Hc as (spec & Hs & Hc). apply elem_of_concat_map. exists spec. split; [|done].
      apply elem_of_concat_map. by exists resource.
  - intros w Hw. unfold workloadsOf in Hw. apply list_elem_of_omap in Hw as (resource & Hr & Hw). exists resource. split; [done|].
    unfold workload_of in Hw. destruct (negb (is_object resource)); [done|].
    destruct (as_string (member "kind" resource)) as [kind|] eqn:Ek; [|done]. cbn [mbind option_bind] in Hw.
    destruct (existsb (jeqb kind) WORKLOAD_KINDS) eqn:Ew; [|done]. cbn [negb] in Hw.
    destruct (nonempty_string (chain (member "metadata" resource) "name")) as [name|]; [|done]. cbn [mbind option_bind] in Hw. injection Hw as <-.
    cbn [wk_kind wk_containers]. apply as_string_some in Ek as ->. cbn [is_text]. rewrite jeqb_refl. split; [done|].
    apply existsb_exists in Ew as (k & Hk & <-%jeqb_eq). split; [by apply list_elem_of_In|].
    unfold containerNamesOf. destruct (distinct_spec [] (omap (fun container => nonempty_string (member "name" container))
      (concat (map (fun spec => containers_at "initContainers" spec ++ containers_at "containers" spec) (podSpecsOf resource)))))
      as [Hn Hl]. split; [exact Hn|]. intros name'. rewrite Hl, list_elem_of_omap. split.
    + intros [(container & Hc & Hi) _]. exists container. split; [|done].
      by apply (containers_listed resource "initContainers" "containers"); [apply Permutation_swap|].
    + intros (container & Hc & Hi). split; [|by intros ?%elem_of_nil]. exists container. split; [|done].
      by apply (containers_listed resource "initContainers" "containers"); [apply Permutation_swap|].
Qed.

(** ** Examples *)

Definition sample_payload : json := JObject
  [("version" : jstr, JString "1"); ("kind" : jstr, JString "DeploymentEvidence"); ("hostname" : jstr, JString "api.test");
   ("issuedAt" : jstr, JString "2026-01-01T00:00:00Z");
   ("certFingerprint" : jstr, JString "sha256/47DEQpj8HBSa-_TImW-5JCeuQeRkm5NMpJWZG3hSuFU");
   ("evidenceDigest" : jstr, JString "sha256:e3b0c44298fc1c149afbf4c8996fb92427ae41e4649b934ca495991b7852b855");
   ("evidence" : jstr, JObject [("resources" : jstr, JArray [
      JObject [("kind" : jstr, JString "CronJob"); ("metadata" : jstr, JObject [("name" : jstr, JString "nightly")]);
        ("spec" : jstr, JObject [("jobTemplate" : jstr, JObject [("spec" : jstr, JObject [("template" : jstr, JObject [("spec" : jstr,
          JObject [("initContainers" : jstr, JArray [JObject [("name" : jstr, JString "init"); ("image" : jstr, JString "busybox")]]);
                   ("containers" : jstr, JArray [JNull; JObject [("name" : jstr, JString "job"); ("image" : jstr, JString "app")]])])])])])])];
      JNull])])].

Definition sample_raw : json := JObject
  [("version" : jstr, JString "1"); ("kind" : jstr, JString "DeploymentEvidence"); ("hostname" : jstr, JString "api.test");
   ("issuedAt" : jstr, JString "2026-01-01T00:00:01Z");
   ("certFingerprint" : jstr, JString "sha256/47DEQpj8HBSa-_TImW-5JCeuQeRkm5NMpJWZG3hSuFU");
   ("jws" : jstr, JString "e30.e30.AA"); ("certChain" : jstr, JArray [JString "pem"]);
   ("rootCaTeeQuote" : jstr, JObject [("status" : jstr, JString "not-implemented")])].

#[local] Instance sample_engine : JsonEngine := {| json_parse _ := Some sample_payload; json_stringify := String_json |}.

#[local] Instance sample_platform : EvidencePlatform := {|
  iso_instant s := Some (jlength s);
  Date_of s := Some 0;
  utf8_text b := Js b;
  read_certificate pem := Some {| x5_subject := "CN=a"; x5_issuer := "CN=r"; x5_validTo := "x"; x5_raw := [1%N] |};
  sha256_of b := b |}.

Lemma filed_bundle_names_its_endpoint_witness : exists p, parseEvidenceBundle sample_raw "api.test" = Ok p /\
  member "hostname" sample_raw = Some (JString (pb_hostname p)) /\ pb_containerImages p = ["app"; "busybox"] /\
  map wk_containers (pb_workloads p) = [["init"; "job"]] /\
  pb_digest p = {| dg_canonical := "sha256/47DEQpj8HBSa-_TImW-5JCeuQeRkm5NMpJWZG3hSuFU";
                   dg_hex := "e3b0c44298fc1c149afbf4c8996fb92427ae41e4649b934ca495991b7852b855" |}.
Proof.
  destruct (parseEvidenceBundle sample_raw "api.test") as [p|e] eqn:E; [|vm_compute in E; discriminate E].
  exists p. split; [done|]. destruct (filed_bundle_names_its_endpoint _ _ _ E) as (_ & Hh & Hm & _).
  split; [by rewrite Hh|]. vm_compute in E. injection E as <-. split_and!; vm_compute; reflexivity.
Defined.

(** One padding character is read by both parsers, two only by the router's. *)
Example two_paddings :
  let d : jstr := "sha256/47DEQpj8HBSa-_TImW-5JCeuQeRkm5NMpJWZG3hSuFU==" in
  normalizeEvidenceDigest d = None /\
  fingerprintHex d = "e3b0c44298fc1c149afbf4c8996fb92427ae41e4649b934ca495991b7852b855".
Proof. vm_compute. split; reflexivity. Qed.
