(* ===== verification/Snapshots.v ===== *)
(** * Snapshots of published evidence

    [db/entities/evidence-snapshot.entity.ts] and [evidence/evidence.service.ts] with
    [evidence-fetcher.ts], [evidence-state.ts], [evidence-poller.service.ts]: what a host
    published, filed once per publication whoever polls, and the readers of the table.

    Filing is a machine whose steps are its database round trips, so that several
    replicas can be interleaved; whether the database takes a row at all is a class;
    [external-evidence.service.ts] files by the same steps under the other publisher
    column.  The transport of a fetch is an argument. *)

From S2P Require Import Prelude JsString JsDate EvidenceDigest Json SecretEnvelope SidecarConfig ConfigCatalog EvidenceBundle.

(** ** The table *)

Record EvidenceSnapshot := {
  ev_id : jstr;
  ev_endpointId : option jstr;
  ev_externalEndpointId : option jstr;
  ev_fetchedAt : Z;
  ev_issuedAt : Z;
  ev_evidenceDigest : jstr;
  ev_evidenceDigestHex : jstr;
  ev_certFingerprint : jstr;
  ev_quoteFormat : option jstr;
  ev_containerImages : list jstr;
  ev_chainSummary : list CertificateSummary;
  ev_workloads : option (list EvidenceWorkloadSummary);
  ev_measurements : option json;
  ev_jws : jstr;
  ev_bundle : json
}.

Inductive publisher := own_endpoint (id : jstr) | external_upstream (id : jstr).

Definition own_id (p : publisher) : option jstr := match p with own_endpoint id => Some id | external_upstream _ => None end.
Definition upstream_id (p : publisher) : option jstr := match p with external_upstream id => Some id | own_endpoint _ => None end.

Definition evidenceSnapshotEndpointIsExclusive (row : EvidenceSnapshot) : bool :=
  xorb (bool_decide (ev_endpointId row = None)) (bool_decide (ev_externalEndpointId row = None)).

(** The columns of the identity index but the publisher. *)
Definition publication (row : EvidenceSnapshot) : jstr * jstr * Z :=
  (ev_evidenceDigest row, ev_certFingerprint row, ev_issuedAt row).

Definition parsed_publication (p : ParsedEvidenceBundle) : jstr * jstr * Z :=
  (dg_canonical (pb_digest p), pb_certFingerprint p, pb_issuedAt p).

(** [findOne({ where: identity })] *)
Definition of_publisher (p : publisher) (row : EvidenceSnapshot) : bool :=
  match p with
  | own_endpoint id => bool_decide (ev_endpointId row = Some id)
  | external_upstream id => bool_decide (ev_externalEndpointId row = Some id)
  end.

Definition is_publication (p : publisher) (parsed : ParsedEvidenceBundle) (row : EvidenceSnapshot) : bool :=
  of_publisher p row && bool_decide (publication row = parsed_publication parsed).

Definition find_publication (p : publisher) (parsed : ParsedEvidenceBundle) (table : list EvidenceSnapshot) : option EvidenceSnapshot :=
  find_first (is_publication p parsed) table.

(** A NULL groups nothing in a unique index. *)
Definition same_key (a b : option jstr) : bool :=
  match a, b with Some a, Some b => jeqb a b | _, _ => false end.

(** The primary key and the two identity indexes. *)
Definition clashes (a b : EvidenceSnapshot) : bool :=
  jeqb (ev_id a) (ev_id b) ||
  (same_key (ev_endpointId a) (ev_endpointId b) || same_key (ev_externalEndpointId a) (ev_externalEndpointId b)) &&
  bool_decide (publication a = publication b).

Definition touched (now : Z) (row : EvidenceSnapshot) : EvidenceSnapshot :=
  {| ev_id := ev_id row; ev_endpointId := ev_endpointId row; ev_externalEndpointId := ev_externalEndpointId row;
     ev_fetchedAt := now; ev_issuedAt := ev_issuedAt row; ev_evidenceDigest := ev_evidenceDigest row;
     ev_evidenceDigestHex := ev_evidenceDigestHex row; ev_certFingerprint := ev_certFingerprint row;
     ev_quoteFormat := ev_quoteFormat row; ev_containerImages := ev_containerImages row; ev_chainSummary := ev_chainSummary row;
     ev_workloads := ev_workloads row; ev_measurements := ev_measurements row; ev_jws := ev_jws row; ev_bundle := ev_bundle row |}.

(** [update({ id }, { fetchedAt: now })] *)
Definition touch_row (id : jstr) (now : Z) (table : list EvidenceSnapshot) : list EvidenceSnapshot :=
  map (fun row => if jeqb (ev_id row) id then touched now row else row) table.

Definition snapshot_row (p : publisher) (parsed : ParsedEvidenceBundle) (uuid : jstr) (now : Z) : EvidenceSnapshot :=
  {| ev_id := uuid; ev_endpointId := own_id p; ev_externalEndpointId := upstream_id p; ev_fetchedAt := now;
     ev_issuedAt := pb_issuedAt parsed; ev_evidenceDigest := dg_canonical (pb_digest parsed);
     ev_evidenceDigestHex := dg_hex (pb_digest parsed); ev_certFingerprint := pb_certFingerprint parsed;
     ev_quoteFormat := pb_quoteFormat parsed; ev_containerImages := pb_containerImages parsed;
     ev_chainSummary := pb_chainSummary parsed; ev_workloads := Some (pb_workloads parsed);
     ev_measurements := pb_measurements parsed; ev_jws := pb_jws parsed; ev_bundle := pb_bundle parsed |}.

(** ** Filing *)

(** Whether an INSERT of a row would be taken but for the unique keys: its texts fit their
    columns (on PostgreSQL) and its publisher is still registered.  What publishers supply
    is not bounded before: a quote format is any text, its column 64 characters. *)
Class SnapshotDatabase := { accepts_snapshot : EvidenceSnapshot -> bool }.

Inductive recorder_pc :=
| Looking
| Touching (row : EvidenceSnapshot)
| Inserting
| Rereading
| Filed (row : EvidenceSnapshot)
| Lost.                                   (* the insert failed and no row explains it: its error is thrown again *)

Record recorder := { rc_publisher : publisher; rc_parsed : ParsedEvidenceBundle; rc_uuid : jstr; rc_at : Z; rc_pc : recorder_pc }.

Definition recorder_at (r : recorder) (pc : recorder_pc) : recorder :=
  {| rc_publisher := rc_publisher r; rc_parsed := rc_parsed r; rc_uuid := rc_uuid r; rc_at := rc_at r; rc_pc := pc |}.

Definition recorder_for (p : publisher) (parsed : ParsedEvidenceBundle) (uuid : jstr) (now : Z) : recorder :=
  {| rc_publisher := p; rc_parsed := parsed; rc_uuid := uuid; rc_at := now; rc_pc := Looking |}.

Definition new_row (r : recorder) : EvidenceSnapshot := snapshot_row (rc_publisher r) (rc_parsed r) (rc_uuid r) (rc_at r).

Section Filing.
Context {D : SnapshotDatabase}.

(** One database round trip; [None] once the row is filed or the error thrown.  An insert
    that fails, for whatever reason, is followed by the look for the row of another replica. *)
Definition recorder_step (table : list EvidenceSnapshot) (r : recorder) : option (list EvidenceSnapshot * recorder) :=
  match rc_pc r with
  | Looking =>
      Some (table, recorder_at r (match find_publication (rc_publisher r) (rc_parsed r) table with
                                  | Some row => Touching row
                                  | None => Inserting
                                  end))
  | Touching row => Some (touch_row (ev_id row) (rc_at r) table, recorder_at r (Filed (touched (rc_at r) row)))
  | Inserting =>
      Some (if existsb (clashes (new_row r)) table || negb (accepts_snapshot (new_row r)) then (table, recorder_at r Rereading)
            else (table ++ [new_row r], recorder_at r (Filed (new_row r))))
  | Rereading =>
      Some (table, recorder_at r (match find_publication (rc_publisher r) (rc_parsed r) table with
                                  | Some row => Filed row
                                  | None => Lost
                                  end))
  | Filed _ | Lost => None
  end.

Fixpoint run_recorder (fuel : nat) (table : list EvidenceSnapshot) (r : recorder) : list EvidenceSnapshot * recorder :=
  match fuel with
  | O => (table, r)
  | S fuel => match recorder_step table r with
              | Some (table', r') => run_recorder fuel table' r'
              | None => (table, r)
              end
  end.

(** [record] with nobody else at the table: at most three round trips. *)
Definition record (p : publisher) (parsed : ParsedEvidenceBundle) (uuid : jstr) (now : Z) (table : list EvidenceSnapshot)
    : list EvidenceSnapshot * option EvidenceSnapshot :=
  let '(table', r) := run_recorder 3 table (recorder_for p parsed uuid now) in
  (table', match rc_pc r with Filed row => Some row | _ => None end).

(** Any number of replicas at one table. *)
Definition replicas : Type := list EvidenceSnapshot * list recorder.

Inductive replica_step : replicas -> replicas -> Prop :=
| replica_step_at i table rs r table' r' :
    rs !! i = Some r -> recorder_step table r = Some (table', r') ->
    replica_step (table, rs) (table', <[i := r']> rs).
End Filing.

Definition round_trips (r : recorder) : nat :=
  match rc_pc r with Looking => 3 | Inserting => 2 | Touching _ | Rereading => 1 | Filed _ | Lost => 0 end.

(** ** Lemmas: one round trip *)

(** The publication a row records, under its publisher. *)
Definition identity (row : EvidenceSnapshot) : option jstr * option jstr * (jstr * jstr * Z) :=
  (ev_endpointId row, ev_externalEndpointId row, publication row).

Definition wanted (r : recorder) : option jstr * option jstr * (jstr * jstr * Z) :=
  (own_id (rc_publisher r), upstream_id (rc_publisher r), parsed_publication (rc_parsed r)).

Record table_ok (table : list EvidenceSnapshot) : Prop := {
  snapshot_ids : NoDup (map ev_id table);
  snapshot_identities : NoDup (map identity table);
  snapshot_exclusive : Forall (fun row => evidenceSnapshotEndpointIsExclusive row = true) table
}.

(** A row of the table that differs at most in when it was last seen. *)
Definition stored (table : list EvidenceSnapshot) (row : EvidenceSnapshot) : Prop :=
  exists row', row' ∈ table /\ touched 0 row' = touched 0 row.

Lemma identity_touched now row : identity (touched now row) = identity row.
Proof. done. Qed.

Lemma touched_touched a b row : touched a (touched b row) = touched a row.
Proof. done. Qed.

Lemma exclusive_cases row : evidenceSnapshotEndpointIsExclusive row = true ->
  exists p, ev_endpointId row = own_id p /\ ev_externalEndpointId row = upstream_id p.
Proof.
  unfold evidenceSnapshotEndpointIsExclusive. destruct (ev_endpointId row) as [a|], (ev_externalEndpointId row) as [b|];
    repeat case_bool_decide; try done; intros _; [by exists (own_endpoint a)|by exists (external_upstream b)].
Qed.

Lemma is_publication_iff r row : evidenceSnapshotEndpointIsExclusive row = true ->
  is_publication (rc_publisher r) (rc_parsed r) row = true <-> identity row = wanted r.
Proof.
  intros Hx. destruct (exclusive_cases row Hx) as (p & E1 & E2).
  unfold is_publication, of_publisher, identity, wanted. rewrite andb_true_iff, bool_decide_eq_true, E1, E2.
  destruct (rc_publisher r) as [a|a], p as [b|b]; cbn; rewrite bool_decide_eq_true; intuition congruence.
Qed.

Lemma clashes_iff r row : evidenceSnapshotEndpointIsExclusive row = true -> rc_uuid r <> ev_id row ->
  clashes (new_row r) row = true <-> identity row = wanted r.
Proof.
  intros Hx Hid. destruct (exclusive_cases row Hx) as (p & E1 & E2).
  unfold clashes, identity, wanted, new_row. cbn [snapshot_row ev_id ev_endpointId ev_externalEndpointId]. rewrite E1, E2.
  rewrite (proj2 (jeqb_neq _ _) Hid). cbn [orb]. rewrite andb_true_iff, bool_decide_eq_true, orb_true_iff.
  destruct (rc_publisher r) as [a|a], p as [b|b]; cbn; unfold same_key; rewrite ?jeqb_eq;
    unfold publication at 1; cbn [snapshot_row ev_evidenceDigest ev_certFingerprint ev_issuedAt];
    fold (parsed_publication (rc_parsed r)); intuition congruence.
Qed.

Lemma new_row_facts r : identity (new_row r) = wanted r /\ evidenceSnapshotEndpointIsExclusive (new_row r) = true.
Proof. by destruct r as [[|] ? ? ? ?]. Qed.

Lemma find_publication_some r table row : Forall (fun row => evidenceSnapshotEndpointIsExclusive row = true) table ->
  find_publication (rc_publisher r) (rc_parsed r) table = Some row -> row ∈ table /\ identity row = wanted r.
Proof.
  intros Hx [Hin Hp]%find_first_some. rewrite Forall_forall in Hx. split; [done|]. by apply is_publication_iff; auto.
Qed.

Lemma find_publication_none r table : Forall (fun row => evidenceSnapshotEndpointIsExclusive row = true) table ->
  find_publication (rc_publisher r) (rc_parsed r) table = None <-> wanted r ∉ map identity table.
Proof.
  intros Hx. rewrite Forall_forall in Hx. unfold find_publication. rewrite find_first_none. split.
  - intros H (row & Hw & Hin)%list_elem_of_fmap. specialize (H row Hin).
    assert (is_publication (rc_publisher r) (rc_parsed r) row = true) by (apply is_publication_iff; auto). congruence.
  - intros H row Hin. apply not_true_iff_false. rewrite is_publication_iff by auto. intros E. apply H. rewrite <- E.
    by apply list_elem_of_fmap_2.
Qed.

(** ** The invariant of a system of replicas *)

Section Replicas.
Context {D : SnapshotDatabase}.

Definition recorder_ok (table : list EvidenceSnapshot) (r : recorder) : Prop :=
  match rc_pc r with
  | Looking | Inserting => rc_uuid r ∉ map ev_id table
  | Touching row | Filed row => stored table row /\ identity row = wanted r
  | Rereading => wanted r ∈ map identity table \/ accepts_snapshot (new_row r) = false
  | Lost => accepts_snapshot (new_row r) = false
  end.

(** What a step leaves of a table: every row, but for when it was last seen, and at
    most the row of the recorder beside them. *)
Definition grown (table table' : list EvidenceSnapshot) (r : recorder) : Prop :=
  map (touched 0) table' = map (touched 0) table \/
  map (touched 0) table' = map (touched 0) table ++ [touched 0 (new_row r)] /\ rc_pc r = Inserting /\
    accepts_snapshot (new_row r) = true.

Lemma map_of_touched {A} (f : EvidenceSnapshot -> A) table table' : (forall now row, f (touched now row) = f row) ->
  map (touched 0) table' = map (touched 0) table -> map f table' = map f table.
Proof.
  intros Hf H. rewrite <- (map_ext _ f (Hf 0)), <- (map_ext _ f (Hf 0) table). rewrite <- !(map_map (touched 0) f). by rewrite H.
Qed.

Lemma touch_row_same id now table : map (touched 0) (touch_row id now table) = map (touched 0) table.
Proof. unfold touch_row. rewrite map_map. apply map_ext. intros row. by destruct (jeqb _ _). Qed.

Lemma stored_grown table table' row :
  (exists rest, map (touched 0) table' = map (touched 0) table ++ rest) -> stored table row -> stored table' row.
Proof.
  intros [rest H] (row' & Hin & E). apply (list_elem_of_fmap_2 (touched 0)) in Hin.
  assert (Hin' : touched 0 row' ∈ map (touched 0) table') by (rewrite H; apply elem_of_app; by left).
  apply list_elem_of_fmap in Hin' as (row'' & E' & Hin'). exists row''. split; [done|]. congruence.
Qed.

Lemma grown_prefix table table' r : grown table table' r -> exists rest, map (touched 0) table' = map (touched 0) table ++ rest.
Proof. intros [H|[H _]]; [exists []; by rewrite app_nil_r|by eexists]. Qed.

Lemma recorder_step_grown table r table' r' : recorder_step table r = Some (table', r') -> grown table table' r.
Proof.
  unfold recorder_step. destruct (rc_pc r) as [|row| | |row|] eqn:Ep; try done.
  - intros [= <- <-]. by left.
  - intros [= <- <-]. left. apply touch_row_same.
  - intros [= Hs]. destruct (existsb _ _) eqn:E1, (accepts_snapshot (new_row r)) eqn:E2; injection Hs as <- <-; try by left.
    right. by rewrite map_app.
  - intros [= <- <-]. by left.
Qed.

Lemma table_ok_touched table table' : map (touched 0) table' = map (touched 0) table -> table_ok table -> table_ok table'.
Proof.
  intros H [Hi Hd Hx]. split.
  - by rewrite (map_of_touched ev_id _ _ (fun _ _ => eq_refl) H).
  - by rewrite (map_of_touched identity _ _ (fun _ _ => eq_refl) H).
  - rewrite Forall_forall in *. intros row Hrow. apply (list_elem_of_fmap_2 evidenceSnapshotEndpointIsExclusive) in Hrow.
    change (evidenceSnapshotEndpointIsExclusive row ∈ map evidenceSnapshotEndpointIsExclusive table') in Hrow.
    rewrite (map_of_touched evidenceSnapshotEndpointIsExclusive _ _ (fun _ _ => eq_refl) H) in Hrow.
    apply list_elem_of_fmap in Hrow as (row' & -> & Hrow'). by apply Hx.
Qed.

Lemma wanted_at r pc : wanted (recorder_at r pc) = wanted r.
Proof. done. Qed.

Lemma no_clash r table : Forall (fun row => evidenceSnapshotEndpointIsExclusive row = true) table ->
  rc_uuid r ∉ map ev_id table -> existsb (clashes (new_row r)) table = true <-> wanted r ∈ map identity table.
Proof.
  intros Hx Hid. rewrite Forall_forall in Hx. rewrite existsb_exists. split.
  - intros (row & Hin%list_elem_of_In & Hc). apply clashes_iff in Hc as <-; [by apply list_elem_of_fmap_2|by apply Hx|].
    intros E. apply Hid. rewrite E. by apply list_elem_of_fmap_2.
  - intros (row & Hw & Hin)%list_elem_of_fmap. exists row. split; [by apply list_elem_of_In|].
    apply clashes_iff; [by apply Hx| |done]. intros E. apply Hid. rewrite E. by apply list_elem_of_fmap_2.
Qed.

Lemma recorder_step_ok table r table' r' : table_ok table -> recorder_ok table r -> recorder_step table r = Some (table', r') ->
  table_ok table' /\ recorder_ok table' r'.
Proof.
  intros Ht Hr Hs. pose proof (snapshot_exclusive _ Ht) as Hx. pose proof (grown_prefix _ _ _ (recorder_step_grown _ _ _ _ Hs)) as Hpre.
  unfold recorder_step in Hs. unfold recorder_ok in Hr. destruct (rc_pc r) as [|row| | |row|] eqn:Ep; try done; injection Hs as Hs.
  - subst table' r'. split; [done|]. unfold recorder_ok. cbn [recorder_at rc_pc]. rewrite wanted_at.
    destruct (find_publication _ _ table) as [row|] eqn:Ef; [|done].
    destruct (find_publication_some _ _ _ Hx Ef) as [Hin Hid]. split; [|done]. by exists row.
  - subst table' r'. split; [apply (table_ok_touched table); [apply touch_row_same|done]|]. unfold recorder_ok. cbn [recorder_at rc_pc].
    destruct Hr as [Hst Hid]. split; [|done]. destruct (stored_grown _ _ _ Hpre Hst) as (row' & Hin & E). exists row'. by rewrite E.
  - destruct (existsb _ table || _) eqn:Ec; injection Hs as <- <-; unfold recorder_ok; cbn [recorder_at rc_pc]; rewrite wanted_at.
    + split; [done|]. apply orb_true_iff in Ec as [Ec|Ec%negb_true_iff]; [left; by apply no_clash|by right].
    + apply orb_false_iff in Ec as [Ec _]. destruct (new_row_facts r) as [Hw Hxn]. split; [|split; [|done]].
      * split.
        -- rewrite map_app. apply NoDup_app. split_and!; [apply Ht| |apply NoDup_singleton].
           intros x Hin ->%list_elem_of_singleton. done.
        -- rewrite map_app. apply NoDup_app. split_and!; [apply Ht| |apply NoDup_singleton].
           intros x Hin Hx'%list_elem_of_singleton. subst x. rewrite Hw in Hin. apply no_clash in Hin; [congruence|done..].
        -- apply Forall_app. split; [done|]. by apply Forall_singleton.
      * exists (new_row r). split; [apply elem_of_app; right; by apply list_elem_of_singleton|done].
  - subst table' r'. split; [done|]. unfold recorder_ok. cbn [recorder_at rc_pc]. rewrite wanted_at.
    destruct (find_publication _ _ table) as [row|] eqn:Ef.
    + destruct (find_publication_some _ _ _ Hx Ef) as [Hin Hid]. split; [|done]. by exists row.
    + apply find_publication_none in Ef; [|done]. by destruct Hr.
Qed.

Lemma recorder_ok_grown table table' r r2 : grown table table' r -> rc_uuid r2 <> rc_uuid r ->
  recorder_ok table r2 -> recorder_ok table' r2.
Proof.
  intros Hg Hu. pose proof (grown_prefix _ _ _ Hg) as Hpre.
  assert (Hids : rc_uuid r2 ∉ map ev_id table -> rc_uuid r2 ∉ map ev_id table').
  { intros Hn. destruct Hg as [H|[H _]].
    - by rewrite (map_of_touched ev_id _ _ (fun _ _ => eq_refl) H).
    - change (map (touched 0) table ++ [touched 0 (new_row r)]) with
        (map (touched 0) table ++ map (touched 0) [new_row r]) in H. rewrite <- map_app in H.
      rewrite (map_of_touched ev_id _ _ (fun _ _ => eq_refl) H), map_app. intros [?|E%list_elem_of_singleton]%elem_of_app; done. }
  unfold recorder_ok. destruct (rc_pc r2); try done.
  - intros [Hst Hid]. split; [by apply (stored_grown table)|done].
  - intros [(row & Hw & Hin)%list_elem_of_fmap|Hrefused]; [left|by right].
    destruct (stored_grown table table' row Hpre) as (row' & Hin' & E); [by exists row|].
    rewrite Hw. apply list_elem_of_fmap. exists row'. split; [|done]. by rewrite <- (identity_touched 0 row'), E.
  - intros [Hst Hid]. split; [by apply (stored_grown table)|done].
Qed.

Record replicas_ok (s : replicas) : Prop := {
  ro_table : table_ok (fst s);
  ro_recorders : Forall (recorder_ok (fst s)) (snd s);
  ro_uuids : NoDup (map rc_uuid (snd s))
}.

Lemma recorder_step_same table r table' r' : recorder_step table r = Some (table', r') ->
  rc_uuid r' = rc_uuid r /\ wanted r' = wanted r /\ new_row r' = new_row r /\ (round_trips r' < round_trips r)%nat.
Proof.
  unfold recorder_step, round_trips. destruct (rc_pc r) as [|row| | |row|] eqn:Ep; try done; intros [= H].
  - subst. cbn. split_and!; [done..|]. destruct (find_publication _ _ _); cbn; lia.
  - subst. cbn. split_and!; [done..|lia].
  - destruct (existsb _ _ || _); injection H as <- <-; cbn; split_and!; (done || lia).
  - subst. cbn. split_and!; [done..|]. destruct (find_publication _ _ _); cbn; lia.
Qed.

Lemma replica_step_ok s s' : replicas_ok s -> replica_step s s' -> replicas_ok s'.
Proof.
  intros [Ht Hr Hu] Hs. destruct Hs as [i table rs r table' r' Hi Hs]. cbn [fst snd] in *.
  destruct (recorder_step_same _ _ _ _ Hs) as (Eu & _ & _ & _).
  rewrite Forall_lookup in Hr. destruct (recorder_step_ok _ _ _ _ Ht (Hr _ _ Hi) Hs) as [Ht' Hr'].
  split; cbn [fst snd]; [done| |].
  - apply Forall_lookup. intros j r2 Hj. destruct (decide (i = j)) as [->|Hne].
    + rewrite list_lookup_insert_eq in Hj by (by eapply lookup_lt_Some). by injection Hj as <-.
    + rewrite list_lookup_insert_ne in Hj by done. apply (recorder_ok_grown table table' r); [by eapply recorder_step_grown| |by eapply Hr].
      intros E. apply Hne. apply (NoDup_lookup (map rc_uuid rs) i j (rc_uuid r)); [done|by rewrite list_lookup_fmap, Hi|].
      by rewrite list_lookup_fmap, Hj, <- E.
  - assert (E : map rc_uuid (<[i:=r']> rs) = map rc_uuid rs); [|by rewrite E].
    change (map rc_uuid) with (fmap (M := list) rc_uuid). rewrite list_fmap_insert, Eu. apply list_insert_id. by rewrite list_lookup_fmap, Hi.
Qed.

(** Where the rows of a table come from. *)
Definition accounted_for (table0 : list EvidenceSnapshot) (rs : list recorder) (table : list EvidenceSnapshot) : Prop :=
  forall row, row ∈ table -> stored table0 row \/
    exists r, r ∈ rs /\ identity row = wanted r /\ touched 0 row = touched 0 (new_row r) /\ accepts_snapshot (new_row r) = true.

Lemma touched_map_in table row : row ∈ table -> touched 0 row ∈ map (touched 0) table.
Proof. apply (list_elem_of_fmap_2 (touched 0)). Qed.

Lemma accounted_step table0 table rs r table' r' i :
  accounted_for table0 rs table -> rs !! i = Some r -> recorder_step table r = Some (table', r') ->
  accounted_for table0 (<[i := r']> rs) table'.
Proof.
  intros Hacc Hi Hs row Hin%touched_map_in. destruct (recorder_step_same _ _ _ _ Hs) as (_ & Ew & En & _).
  assert (Hold : touched 0 row ∈ map (touched 0) table -> stored table0 row \/
    exists r, r ∈ <[i := r']> rs /\ identity row = wanted r /\ touched 0 row = touched 0 (new_row r) /\ accepts_snapshot (new_row r) = true).
  { intros (row' & E & Hin')%list_elem_of_fmap. destruct (Hacc row' Hin') as [(row0 & H0 & E0)|(r2 & Hr2 & Hw & Hn & Hacc2)].
    - left. exists row0. split; [done|congruence].
    - right. apply list_elem_of_lookup in Hr2 as [j Hj].
      assert (Hid : identity row = identity row') by (by rewrite <- (identity_touched 0 row), E).
      destruct (decide (i = j)) as [->|Hne].
      + exists r'. split; [apply list_elem_of_lookup; exists j; by apply list_lookup_insert_eq; eapply lookup_lt_Some|].
        rewrite Hi in Hj. injection Hj as <-. rewrite Ew, En. split_and!; congruence.
      + exists r2. split; [apply list_elem_of_lookup; exists j; by rewrite list_lookup_insert_ne|]. split_and!; congruence. }
  destruct (recorder_step_grown _ _ _ _ Hs) as [E|(E & _ & Ha)]; rewrite E in Hin; [by apply Hold|].
  apply elem_of_app in Hin as [Hin|Hin%list_elem_of_singleton]; [by apply Hold|]. right. exists r'.
  split; [apply list_elem_of_lookup; exists i; by apply list_lookup_insert_eq; eapply lookup_lt_Some|].
  rewrite Ew, En. split; [|by split]. rewrite <- (identity_touched 0 row), Hin, identity_touched. apply new_row_facts.
Qed.

Definition all_round_trips (rs : list recorder) : nat := sum_list (map round_trips rs).

Lemma stored_trans t1 t2 row : (forall r, r ∈ t1 -> stored t2 r) -> stored t1 row -> stored t2 row.
Proof. intros H (row' & Hin & E). destruct (H row' Hin) as (row'' & Hin' & E'). exists row''. split; [done|congruence]. Qed.

Lemma replicas_run n s s' : nsteps replica_step n s s' -> replicas_ok s -> forall table0, accounted_for table0 (snd s) (fst s) ->
  replicas_ok s' /\ accounted_for table0 (snd s') (fst s') /\ (forall row, row ∈ fst s -> stored (fst s') row) /\
  map wanted (snd s') = map wanted (snd s) /\ map new_row (snd s') = map new_row (snd s) /\
  (n + all_round_trips (snd s') <= all_round_trips (snd s))%nat.
Proof.
  induction 1 as [s|n s1 s2 s3 Hs _ IH]; intros Hok table0 Hacc.
  { split_and!; try done. intros row Hin. by exists row. }
  pose proof (replica_step_ok _ _ Hok Hs) as Hok2. destruct Hs as [i table rs r table' r' Hi Hs]. cbn [fst snd] in *.
  destruct (IH Hok2 table0 (accounted_step _ _ _ _ _ _ _ Hacc Hi Hs)) as (H1 & H2 & H3 & H4 & H5 & H6).
  destruct (recorder_step_same _ _ _ _ Hs) as (_ & Ew & En & Elt).
  assert (Hsame : forall {B} (f : recorder -> B), f r' = f r -> map f (<[i:=r']> rs) = map f rs).
  { intros B f E. change (map f) with (fmap (M := list) f). rewrite list_fmap_insert, E. apply list_insert_id. by rewrite list_lookup_fmap, Hi. }
  split_and!; [done|done| |by rewrite H4, (Hsame _ wanted)|by rewrite H5, (Hsame _ new_row)|].
  - intros row Hin. apply (stored_trans table'); [done|]. apply (stored_grown table); [|by exists row].
    eapply grown_prefix, recorder_step_grown, Hs.
  - pose proof (sum_list_insert_lt round_trips rs i r r' Hi Elt). unfold all_round_trips in *. lia.
Qed.

(** C34. However many replicas poll at once and however their round trips interleave, a
    publication is filed once: the table keeps one row per publisher, digest,
    certificate and instant, loses none and gains only polled rows that the database
    takes; a replica is answered with the row of its own publication, or with the error of
    its insert, and that only when the row it built is one the database does not take (a
    text past its column, a publisher no longer registered); each is done after at most
    three round trips. *)
Theorem each_publication_is_filed_once n table rs table' rs' :
  table_ok table -> NoDup (map rc_uuid rs) ->
  Forall (fun r => rc_pc r = Looking /\ rc_uuid r ∉ map ev_id table) rs ->
  nsteps replica_step n (table, rs) (table', rs') ->
  table_ok table' /\ (forall row, row ∈ table -> stored table' row) /\
  (forall row, row ∈ table' -> stored table row \/
     exists r, r ∈ rs /\ touched 0 row = touched 0 (new_row r) /\ accepts_snapshot (new_row r) = true) /\
  (forall i r r', rs !! i = Some r -> rs' !! i = Some r' ->
     (rc_pc r' = Lost -> accepts_snapshot (new_row r) = false) /\
     forall row, rc_pc r' = Filed row -> stored table' row /\ identity row = wanted r) /\
  (n <= 3 * length rs)%nat /\
  ((forall s, ~ replica_step (table', rs') s) -> Forall (fun r => rc_pc r = Lost \/ exists row, rc_pc r = Filed row) rs').
Proof.
  intros Ht Hu Hf Hn.
  assert (Hok : replicas_ok (table, rs)).
  { split; [done| |done]. eapply Forall_impl; [exact Hf|]. intros r [Hp Hid]. unfold recorder_ok. by rewrite Hp. }
  assert (Hacc : accounted_for table rs table) by (intros row Hin; left; by exists row).
  destruct (replicas_run _ _ _ Hn Hok table Hacc) as ([Ht' Hr' _] & Hacc' & Hst & Hw & Hnew & Hbound). cbn [fst snd] in *.
  split_and!; [done|done| | | |].
  - intros row Hin. destruct (Hacc' row Hin) as [?|(r & Hr & _ & E & Ha)]; [by left|right].
    apply (list_elem_of_fmap_2 new_row) in Hr. change (new_row r ∈ map new_row rs') in Hr. rewrite Hnew in Hr.
    apply list_elem_of_fmap in Hr as (r0 & E0 & Hr0). exists r0. rewrite <- E0. by split_and!.
  - intros i r r' Hi Hi'. rewrite Forall_lookup in Hr'. specialize (Hr' i r' Hi'). unfold recorder_ok in Hr'.
    assert (Hsame : forall {B} (f : recorder -> B), map f rs' = map f rs -> f r' = f r).
    { intros B f E. assert (E' : map f rs' !! i = map f rs !! i) by (by rewrite E). rewrite !list_lookup_fmap, Hi, Hi' in E'. by apply (inj Some) in E'. }
    rewrite <- (Hsame _ wanted Hw), <- (Hsame _ new_row Hnew). destruct (rc_pc r'); split; try done. by intros row' [= ->].
  - assert (Hlen : (all_round_trips rs <= 3 * length rs)%nat); [|lia]. clear. unfold all_round_trips.
    induction rs as [|r rs IH]; [done|]. change (round_trips r + sum_list (map round_trips rs) <= 3 * S (length rs))%nat.
    assert (round_trips r <= 3)%nat by (unfold round_trips; destruct (rc_pc r); lia). lia.
  - intros Hstuck. apply Forall_lookup. intros i r Hi.
    destruct (recorder_step table' r) as [[t2 r2]|] eqn:Es; [by destruct (Hstuck (t2, <[i := r2]> rs')); eapply replica_step_at|].
    unfold recorder_step in Es. destruct (rc_pc r) as [| | | |row|]; try done; [right; by exists row|by left].
Qed.

(** [record] alone: the row is there once, last seen now, and nothing else moved; or the
    database does not take it and nothing moved at all. *)
Lemma record_spec p parsed uuid now table : table_ok table -> uuid ∉ map ev_id table ->
  record p parsed uuid now table = (table, None) /\ accepts_snapshot (snapshot_row p parsed uuid now) = false \/
  exists table' row, record p parsed uuid now table = (table', Some row) /\ table_ok table' /\
    row ∈ table' /\ ev_fetchedAt row = now /\ identity row = wanted (recorder_for p parsed uuid now) /\
    (table' = table ++ [snapshot_row p parsed uuid now] /\ row = snapshot_row p parsed uuid now \/
     table' = touch_row (ev_id row) now table /\ exists old, old ∈ table /\ row = touched now old).
Proof.
  intros Ht Hid. pose proof (snapshot_exclusive _ Ht) as Hx. set (r := recorder_for p parsed uuid now).
  assert (Hr : recorder_ok table r) by done. unfold record. fold r. destruct (find_publication p parsed table) as [old|] eqn:Ef.
  - right. destruct (find_publication_some r _ _ Hx Ef) as [Hin Hw].
    exists (touch_row (ev_id old) now table), (touched now old).
    assert (E : run_recorder 3 table r = (touch_row (ev_id old) now table, recorder_at r (Filed (touched now old)))).
    { cbn [run_recorder]. unfold recorder_step at 1. cbn [r recorder_for rc_pc rc_publisher rc_parsed]. by rewrite Ef. }
    rewrite E. split; [done|]. split; [apply (table_ok_touched table); [apply touch_row_same|done]|].
    split; [|split; [done|split; [done|right; split; [done|by exists old]]]].
    unfold touch_row. apply list_elem_of_fmap. exists old. by rewrite jeqb_refl.
  - apply (find_publication_none r _ Hx) in Ef as Hw.
    assert (Hc : existsb (clashes (new_row r)) table = false).
    { apply not_true_iff_false. by rewrite (no_clash r table Hx Hid). }
    change (snapshot_row p parsed uuid now) with (new_row r). destruct (accepts_snapshot (new_row r)) eqn:Ha.
    2:{ left. split; [|done]. cbn [run_recorder]. unfold recorder_step at 1. cbn [r recorder_for rc_pc rc_publisher rc_parsed]. rewrite Ef.
        change (new_row _) with (new_row r) in *. unfold recorder_step at 1. cbn [recorder_at rc_pc].
        change (new_row (recorder_at _ _)) with (new_row r). rewrite Hc, Ha. cbn [orb negb]. unfold recorder_step at 1.
        cbn [recorder_at rc_pc rc_publisher rc_parsed r recorder_for]. by rewrite Ef. }
    right. exists (table ++ [new_row r]), (new_row r).
    assert (Hstep : recorder_step table (recorder_at r Inserting) = Some (table ++ [new_row r], recorder_at r (Filed (new_row r)))).
    { unfold recorder_step. cbn [recorder_at rc_pc]. change (new_row (recorder_at _ _)) with (new_row r). by rewrite Hc, Ha. }
    assert (E : run_recorder 3 table r = (table ++ [new_row r], recorder_at r (Filed (new_row r)))).
    { cbn [run_recorder]. unfold recorder_step at 1. cbn [r recorder_for rc_pc rc_publisher rc_parsed]. rewrite Ef.
      change (recorder_at _ Inserting) with (recorder_at r Inserting). by rewrite Hstep. }
    rewrite E. split; [done|].
    split; [by eapply (recorder_step_ok table (recorder_at r Inserting)); [done| |exact Hstep]|].
    split; [apply elem_of_app; right; by apply list_elem_of_singleton|]. split; [done|]. split; [apply new_row_facts|by left].
Qed.
End Replicas.

(** ** Two replicas at one publication *)

Definition sample_publication (issuedAt : Z) (fingerprint : jstr) : ParsedEvidenceBundle :=
  {| pb_hostname := "api.test"; pb_issuedAt := issuedAt; pb_digest := {| dg_canonical := "sha256/a"; dg_hex := "aa" |};
     pb_certFingerprint := fingerprint; pb_quoteFormat := None; pb_containerImages := ["app"]; pb_workloads := [];
     pb_chainSummary := []; pb_measurements := None; pb_jws := "a.b.c"; pb_bundle := JObject [] |}.

Definition sample_poller (uuid : jstr) (now : Z) : recorder :=
  recorder_for (own_endpoint "e") (sample_publication 100 "f") uuid now.

(** A quote format of more than 64 characters does not fit its column. *)
#[local] Instance sample_database : SnapshotDatabase :=
  {| accepts_snapshot row := match ev_quoteFormat row with Some f => jlength f <=? 64 | None => true end |}.

Definition overlong_publication : ParsedEvidenceBundle :=
  {| pb_hostname := "api.test"; pb_issuedAt := 100; pb_digest := {| dg_canonical := "sha256/a"; dg_hex := "aa" |};
     pb_certFingerprint := "f"; pb_quoteFormat := Some (jrepeat 97 65); pb_containerImages := ["app"]; pb_workloads := [];
     pb_chainSummary := []; pb_measurements := None; pb_jws := "a.b.c"; pb_bundle := JObject [] |}.

(** What such a publisher publishes is never filed: the poll of it fails, every time. *)
Example an_overlong_quote_format_is_not_filed :
  record (own_endpoint "e") overlong_publication "u1" 200 [] = ([], None).
Proof. vm_compute. reflexivity. Qed.

(** Both look, both try to insert; the second reads the row of the first. *)
Lemma each_publication_is_filed_once_witness :
  let rs := [sample_poller "u1" 200; sample_poller "u2" 201] in
  exists table rs', nsteps replica_step 5 ([], rs) (table, rs') /\ map ev_id table = ["u1"] /\
    table_ok table /\ Forall (fun r => rc_pc r = Lost \/ exists row, rc_pc r = Filed row) rs'.
Proof.
  cbn zeta. assert (Hn : exists s, nsteps replica_step 5 ([], [sample_poller "u1" 200; sample_poller "u2" 201]) s /\
    map ev_id (fst s) = ["u1"] /\ Forall (fun r => recorder_step (fst s) r = None) (snd s)).
  { eexists. split.
    - eapply nsteps_l; [eapply (replica_step_at 0); reflexivity|]. eapply nsteps_l; [eapply (replica_step_at 1); reflexivity|].
    eapply nsteps_l; [eapply (replica_step_at 0); reflexivity|]. eapply nsteps_l; [eapply (replica_step_at 1); vm_compute; reflexivity|].
    eapply nsteps_l; [eapply (replica_step_at 1); vm_compute; reflexivity|]. apply nsteps_O.
    - cbn [fst snd]. split; [vm_compute; reflexivity|]. vm_compute. repeat constructor. }
  destruct Hn as ([table rs'] & Hn & Hids & Hdone). exists table, rs'.
  split; [exact Hn|]. apply each_publication_is_filed_once in Hn as (Ht & _ & _ & _ & _ & Hstuck).
  - split; [exact Hids|]. split; [exact Ht|]. apply Hstuck. intros s Hs. inversion Hs as [i ? ? r ? ? Hi Hst]. subst.
    cbn [fst snd] in Hdone. rewrite Forall_lookup in Hdone. rewrite (Hdone i r Hi) in Hst. discriminate Hst.
  - split; constructor.
  - apply (bool_decide_eq_true_1 (NoDup _)). vm_compute. reflexivity.
  - repeat constructor; apply not_elem_of_nil.
Defined.
