(* ===== verification/EvidenceService.v ===== *)
(** * The router's own evidence: fetching, filing and reading

    [evidence/evidence.service.ts], [evidence-fetcher.ts], [evidence-state.ts],
    [evidence-poller.service.ts] and [coverage.service.ts].  The rows and how one is
    filed are [Snapshots].  What a host answers is an argument of a fetch: the
    events of its body, in order. *)

From Stdlib Require Import QArith Qround.
From stdpp Require Import sorting.
From S2P Require Import Prelude JsString JsNumber Json EvidenceDigest SecretEnvelope SidecarConfig ConfigCatalog Metering EvidenceBundle Snapshots.
#[local] Open Scope Z_scope.

(** ** [evidence-state.ts] *)

Inductive EvidenceState := PUBLISHED | STALE | NOT_PUBLISHED.

Definition quoteAgeMs (issuedAt now : Z) : Z := Z.max 0 (now - issuedAt).

Definition evidenceStateOf (issuedAt : option Z) (freshnessWindowMs now : Z) : EvidenceState :=
  match issuedAt with
  | None => NOT_PUBLISHED
  | Some issuedAt => if quoteAgeMs issuedAt now <=? freshnessWindowMs then PUBLISHED else STALE
  end.

(** ** Readers of the table *)

(** [ORDER BY issuedAt DESC, fetchedAt DESC]; rows that tie come as the table has them. *)
Definition newer_snapshot (a b : EvidenceSnapshot) : bool :=
  (ev_issuedAt b <? ev_issuedAt a) || (ev_issuedAt a =? ev_issuedAt b) && (ev_fetchedAt b <? ev_fetchedAt a).

Definition of_endpoint (p : publisher) (table : list EvidenceSnapshot) : list EvidenceSnapshot :=
  sort_by newer_snapshot (List.filter (of_publisher p) table).

Definition latestFor (endpointId : jstr) (table : list EvidenceSnapshot) : option EvidenceSnapshot :=
  head (of_endpoint (own_endpoint endpointId) table).

(** The map, as its entries in order. *)
Definition latestForMany (endpointIds : list jstr) (table : list EvidenceSnapshot) : list (jstr * EvidenceSnapshot) :=
  omap (fun endpointId => pair endpointId <$> latestFor endpointId table) (distinct [] endpointIds).

Definition stateOfSnapshot (freshnessWindow : Z) (snapshot : option EvidenceSnapshot) (now : Z) : EvidenceState :=
  evidenceStateOf (ev_issuedAt <$> snapshot) freshnessWindow now.

Definition stateOf (freshnessWindow : Z) (endpointId : jstr) (now : Z) (table : list EvidenceSnapshot) : EvidenceState :=
  stateOfSnapshot freshnessWindow (latestFor endpointId table) now.

Definition MAX_TIME_VALUE : Z := 8640000000000000.

Definition encodeCursor (issuedAt : Z) : jstr := Js (base64UrlEncode (units (jstring_of_Z issuedAt))).

Definition snapshotCursor (snapshot : EvidenceSnapshot) : jstr := encodeCursor (ev_issuedAt snapshot).

(** [Some None] is an invalid date. *)
Definition decodeCursor (utf8 : list N -> jstr) (other_number : jstr -> option Q) (cursor : option jstr) : option (option Z) :=
  match cursor with
  | Some cursor =>
      if jlength cursor =? 0 then None
      else match Number_of_text other_number (utf8 (from_base64url (units cursor))) with
           | Some value =>
               if negb (Qle_bool value 0)
               then Some (if Qle_bool value (inject_Z MAX_TIME_VALUE) then Some (Qfloor value) else None)
               else None
           | None => None
           end
  | None => None
  end.

Record SnapshotPage := { sp_nodes : list EvidenceSnapshot; sp_hasNextPage : bool; sp_endCursor : option jstr }.

(** [LessThan(cursor)]: an invalid date is above nothing. *)
Definition before_cursor (cursor : option Z) (row : EvidenceSnapshot) : bool :=
  match cursor with Some t => ev_issuedAt row <? t | None => false end.

Definition page_limit (first : Z) : nat := Z.to_nat (Z.min (Z.max first 1) 100).

Definition snapshots (utf8 : list N -> jstr) (other_number : jstr -> option Q) (endpointId : jstr) (first : Z) (after : option jstr)
    (table : list EvidenceSnapshot) : SnapshotPage :=
  let limit := page_limit first in
  let rows := take (limit + 1)
    match decodeCursor utf8 other_number after with
    | Some cursor => sort_by newer_snapshot
        (List.filter (fun row => of_publisher (own_endpoint endpointId) row && before_cursor cursor row) table)
    | None => of_endpoint (own_endpoint endpointId) table
    end in
  let nodes := take limit rows in
  {| sp_nodes := nodes; sp_hasNextPage := (limit <? length rows)%nat; sp_endCursor := snapshotCursor <$> last nodes |}.

Record DigestChange := {
  dc_evidenceDigest : jstr;
  dc_evidenceDigestHex : jstr;
  dc_firstIssuedAt : Z;
  dc_lastIssuedAt : Z;
  dc_snapshots : Z
}.

(** [MAX] of a text column. *)
Definition max_text (l : list jstr) : jstr := foldr (fun a b => if jltb b a then a else b) (Js []) l.

Definition digest_group (rows : list EvidenceSnapshot) (digest : jstr) : list EvidenceSnapshot :=
  List.filter (fun row => jeqb (ev_evidenceDigest row) digest) rows.

(** [GROUP BY evidenceDigest]. *)
Definition change_of (digest : jstr) (group : list EvidenceSnapshot) : DigestChange :=
  let instants := map ev_issuedAt group in
  {| dc_evidenceDigest := digest;
     dc_evidenceDigestHex := max_text (map ev_evidenceDigestHex group);
     dc_firstIssuedAt := foldr Z.min (default 0 (head instants)) instants;
     dc_lastIssuedAt := foldr Z.max (default 0 (head instants)) instants;
     dc_snapshots := Z.of_nat (length group) |}.

Definition digestHistory (endpointId : jstr) (limit : Z) (table : list EvidenceSnapshot) : list DigestChange :=
  let rows := List.filter (of_publisher (own_endpoint endpointId)) table in
  take (page_limit limit)
    (sort_by (fun a b => dc_lastIssuedAt b <? dc_lastIssuedAt a)
       (map (fun digest => change_of digest (digest_group rows digest)) (distinct [] (map ev_evidenceDigest rows)))).

(** ** Which endpoint *)

(** [find({ where: { enabled: true }, order: { name: 'ASC' } })], names as the
    database compares bytes. *)
Definition activeEndpoints (endpoints : list Endpoint) : list Endpoint :=
  sort_by (fun a b => jltb (ep_name a) (ep_name b)) (List.filter ep_enabled endpoints).

Definition endpointByNameOrHostname (value : jstr) (endpoints : list Endpoint) : option Endpoint :=
  match find_first (fun e => jeqb (ep_name e) value) endpoints with
  | Some e => Some e
  | None => find_first (fun e => jeqb (ep_hostname e) value) endpoints
  end.

Definition hostnameOf `{UrlParser} (url : jstr) : option jstr := url_hostname <$> URL_parse url.

Definition ownEndpoint `{UrlParser} (publicBaseUrl : jstr) (endpoints : list Endpoint) : option Endpoint :=
  let match_ := match hostnameOf publicBaseUrl with
                | Some hostname => if jlength hostname =? 0 then None
                                   else find_first (fun e => jeqb (ep_hostname e) hostname) endpoints
                | None => None
                end in
  match match_ with
  | Some e => Some e
  | None => match activeEndpoints endpoints with [e] => Some e | _ => None end
  end.

(** ** [evidence-fetcher.ts] *)

Definition EVIDENCE_PATH : jstr := "/.well-known/swarm-evidence".
Definition MAX_BUNDLE_BYTES : Z := 512 * 1024.

Inductive EvidenceFetchError :=
| get_failed | returned (status : Z) | declared_bytes (declared : Q) | over_budget | body_failed | body_not_json.

(** What the reader of a body answers in turn; past the last event the timeout of the
    request fails the read. *)
Inductive body_event := chunk (bytes : list N) | body_done | read_error.

Record Response := {
  rs_status : Z;
  rs_contentLength : option jstr;
  rs_body : option (list body_event)
}.

Definition rs_ok (r : Response) : bool := (200 <=? rs_status r) && (rs_status r <=? 299).

Definition evidenceUrlFor (hostname : jstr) (evidenceUrl : option jstr) : jstr :=
  default ("https://" +++ hostname +++ EVIDENCE_PATH) evidenceUrl.

(** The loop of [readCapped], with the bytes it holds. *)
Fixpoint read_chunks (maxBytes : Z) (held : list N) (events : list body_event) : result EvidenceFetchError (list N) :=
  match events with
  | body_done :: _ => Ok held
  | chunk bytes :: events =>
      if maxBytes <? Z.of_nat (length (held ++ bytes)) then Err over_budget
      else read_chunks maxBytes (held ++ bytes) events
  | read_error :: _ | [] => Err body_failed
  end.

Section Fetching.
Context `{JsonEngine} `{EvidencePlatform} `{UrlParser} {D : SnapshotDatabase} (other_number : jstr -> option Q).

Definition readCapped (response : Response) (maxBytes : Z) : result EvidenceFetchError jstr :=
  let declared := match rs_contentLength response with
                  | Some text => Number_of_text other_number text
                  | None => Some 0%Q                       (* [Number(null)] *)
                  end in
  match declared with
  | Some d => if negb (Qle_bool d (inject_Z maxBytes)) then Err (declared_bytes d) else Ok tt
  | None => Ok tt
  end ≫= fun _ =>
  match rs_body response with
  | None => Ok (Js [])
  | Some events => utf8_text <$> read_chunks maxBytes [] events
  end.

(** [fetcher url] is what the platform's [fetch] settles with, [None] its rejection. *)
Definition fetchEvidenceBundle (fetcher : jstr -> option Response) (hostname : jstr) (evidenceUrl : option jstr)
    : result EvidenceFetchError json :=
  match fetcher (evidenceUrlFor hostname evidenceUrl) with
  | None => Err get_failed
  | Some response =>
      if negb (rs_ok response) then Err (returned (rs_status response))
      else body ← readCapped response MAX_BUNDLE_BYTES;
           match json_parse body with Some raw => Ok raw | None => Err body_not_json end
  end.

Inductive refresh_error :=
| fetch_error (e : EvidenceFetchError) | bundle_error (e : EvidenceBundleError) | not_recorded.

Definition parsed_bundle_of (fetcher : jstr -> option Response) (endpoint : Endpoint) : result refresh_error ParsedEvidenceBundle :=
  match fetchEvidenceBundle fetcher (ep_hostname endpoint) (ep_evidenceUrl endpoint) with
  | Err e => Err (fetch_error e)
  | Ok raw => match parseEvidenceBundle raw (ep_hostname endpoint) with
              | Err e => Err (bundle_error e)
              | Ok parsed => Ok parsed
              end
  end.

(** [uuid] is what [randomUUID] draws while this endpoint is refreshed. *)
Definition refresh (fetcher : jstr -> option Response) (uuid : jstr) (endpoint : Endpoint) (now : Z) (table : list EvidenceSnapshot)
    : list EvidenceSnapshot * result refresh_error EvidenceSnapshot :=
  match parsed_bundle_of fetcher endpoint with
  | Err e => (table, Err e)
  | Ok parsed =>
      let '(table', row) := record (own_endpoint (ep_id endpoint)) parsed uuid now table in
      (table', match row with Some row => Ok row | None => Err not_recorded end)
  end.

(** ** [evidence-poller.service.ts] *)

Record PollReport := { polled : Z; stored_ : Z; failed : Z }.

Definition no_poll : PollReport := {| polled := 0; stored_ := 0; failed := 0 |}.

(** The loop, and the endpoints whose failure it logs. *)
Fixpoint poll_each (fetcher : jstr -> option Response) (uuid : jstr -> jstr) (now : Z) (endpoints : list Endpoint)
    (table : list EvidenceSnapshot) (report : PollReport) (logged : list (jstr * refresh_error))
    : list EvidenceSnapshot * PollReport * list (jstr * refresh_error) :=
  match endpoints with
  | [] => (table, report, logged)
  | endpoint :: endpoints =>
      let '(table, outcome) := refresh fetcher (uuid (ep_id endpoint)) endpoint now table in
      let polled' := polled report + 1 in
      match outcome with
      | Ok _ => poll_each fetcher uuid now endpoints table
                  {| polled := polled'; stored_ := stored_ report + 1; failed := failed report |} logged
      | Err e => poll_each fetcher uuid now endpoints table
                   {| polled := polled'; stored_ := stored_ report; failed := failed report + 1 |}
                   (logged ++ [(ep_name endpoint, e)])
      end
  end.

(** One pass by a poller whose latch is [running]; [endpoints] is what the database
    answers, [None] when it does not.  The latch is down again however the pass ends. *)
Definition pollAll (fetcher : jstr -> option Response) (uuid : jstr -> jstr) (now : Z) (endpoints : option (list Endpoint))
    (running : bool) (table : list EvidenceSnapshot)
    : bool * list EvidenceSnapshot * option PollReport * list (jstr * refresh_error) :=
  if running then (running, table, Some no_poll, [])
  else match endpoints with
       | None => (false, table, None, [])
       | Some endpoints =>
           let '(table, report, logged) := poll_each fetcher uuid now (activeEndpoints endpoints) table no_poll [] in
           (false, table, Some report, logged)
       end.
End Fetching.

(** ** [coverage.service.ts] *)

Record CoverageWindow := { cw_workspaceId : jstr; cw_from : Z; cw_to : Z; cw_endpointId : option jstr }.

Record Coverage := { cv_requests : Z; cv_covered : Z; cv_ratio : option Q }.

Definition coverageOf (covered requests : Z) : Coverage :=
  {| cv_requests := requests; cv_covered := covered;
     cv_ratio := if 0 <? requests then Some (covered # Z.to_pos requests)%Q else None |}.

Definition in_window (w : CoverageWindow) (g : Generation) : bool :=
  jeqb (ge_workspaceId g) (cw_workspaceId w) && (cw_from w <=? ge_createdAt g) && (ge_createdAt g <? cw_to w).

(** [if (window.endpointId)]: an empty text asks for no endpoint. *)
Definition at_endpoint (w : CoverageWindow) (g : Generation) : bool :=
  match cw_endpointId w with
  | Some id => if jlength id =? 0 then true else bool_decide (ge_endpointId g = Some id)
  | None => true
  end.

Definition coverage_summary (w : CoverageWindow) (generations : list Generation) : Coverage :=
  let rows := List.filter (fun g => in_window w g && negb (is_some (ge_externalEndpointId g)) && at_endpoint w g) generations in
  coverageOf (Z.of_nat (length (List.filter (fun g => is_some (ge_evidenceSnapshotId g)) rows))) (Z.of_nat (length rows)).

Definition tokens_of (g : Generation) : Z := ge_promptTokens g + ge_completionTokens g.

Definition tokensByEndpoint (w : CoverageWindow) (generations : list Generation) : list (jstr * Z) :=
  let rows := List.filter (in_window w) generations in
  map (fun id => (id, sumZ (map tokens_of (List.filter (fun g => bool_decide (ge_endpointId g = Some id)) rows))))
    (distinct [] (omap ge_endpointId rows)).

(** ** Lemmas: the order of the listing *)

Lemma newer_snapshot_spec a b : newer_snapshot a b = true <->
  ev_issuedAt b < ev_issuedAt a \/ ev_issuedAt a = ev_issuedAt b /\ ev_fetchedAt b < ev_fetchedAt a.
Proof. unfold newer_snapshot. by rewrite orb_true_iff, andb_true_iff, !Z.ltb_lt, Z.eqb_eq. Qed.

Lemma newer_snapshot_false a b : newer_snapshot b a = false <->
  ev_issuedAt b < ev_issuedAt a \/ ev_issuedAt a = ev_issuedAt b /\ ev_fetchedAt b <= ev_fetchedAt a.
Proof. rewrite <- not_true_iff_false, newer_snapshot_spec. lia. Qed.

Lemma newest_first l : StronglySorted (fun a b => newer_snapshot b a = false) (sort_by newer_snapshot l).
Proof.
  apply sort_by_sorted.
  - intros a b. rewrite !newer_snapshot_false. lia.
  - intros a b c. rewrite !newer_snapshot_false. lia.
Qed.

Lemma elem_of_endpoint p table row : row ∈ of_endpoint p table <-> row ∈ table /\ of_publisher p row = true.
Proof. unfold of_endpoint. rewrite sort_by_perm, !list_elem_of_In, filter_In. done. Qed.

(** The head of the listing is the newest of the publisher's rows. *)
Lemma newest_spec p table :
  match head (of_endpoint p table) with
  | Some row => row ∈ table /\ of_publisher p row = true /\
                forall r, r ∈ table -> of_publisher p r = true -> newer_snapshot r row = false
  | None => forall r, r ∈ table -> of_publisher p r = false
  end.
Proof.
  destruct (of_endpoint p table) as [|row l] eqn:E; cbn.
  - intros r Hr. destruct (of_publisher p r) eqn:Ep; [|done].
    assert (Hin : r ∈ of_endpoint p table) by by apply elem_of_endpoint. rewrite E in Hin. set_solver.
  - assert (Hin : row ∈ of_endpoint p table) by (rewrite E; set_solver). apply elem_of_endpoint in Hin as [Hin Hp].
    split_and!; [done..|]. intros r Hr Hpr. assert (Hr' : r ∈ of_endpoint p table) by by apply elem_of_endpoint.
    pose proof (newest_first (List.filter (of_publisher p) table)) as Hs. fold (of_endpoint p table) in Hs. rewrite E in Hs, Hr'.
    apply StronglySorted_inv in Hs as [_ Hs]. rewrite Forall_forall in Hs.
    apply elem_of_cons in Hr' as [->|Hr']; [|by apply Hs]. apply newer_snapshot_false. lia.
Qed.

(** What the router says of an endpoint's evidence: published when some snapshot of it is
    inside the freshness window, stale when it has snapshots and none is, not published
    when it has none. *)
Theorem state_is_of_the_newest_snapshot freshnessWindow endpointId now table :
  (stateOf freshnessWindow endpointId now table = PUBLISHED <->
     exists row, row ∈ table /\ ev_endpointId row = Some endpointId /\ quoteAgeMs (ev_issuedAt row) now <= freshnessWindow) /\
  (stateOf freshnessWindow endpointId now table = NOT_PUBLISHED <-> forall row, row ∈ table -> ev_endpointId row <> Some endpointId) /\
  (stateOf freshnessWindow endpointId now table = STALE <->
     (exists row, row ∈ table /\ ev_endpointId row = Some endpointId) /\
     forall row, row ∈ table -> ev_endpointId row = Some endpointId -> freshnessWindow < quoteAgeMs (ev_issuedAt row) now).
Proof.
  pose proof (newest_spec (own_endpoint endpointId) table) as Hn. unfold stateOf, stateOfSnapshot, latestFor, evidenceStateOf.
  cbn [of_publisher] in Hn. destruct (head _) as [row|]; cbn [fmap option_fmap option_map].
  - destruct Hn as (Hin & Hp%bool_decide_eq_true & Hmax).
    assert (Hage : forall r, r ∈ table -> ev_endpointId r = Some endpointId -> quoteAgeMs (ev_issuedAt row) now <= quoteAgeMs (ev_issuedAt r) now).
    { intros r Hr Hpr. specialize (Hmax r Hr ltac:(by apply bool_decide_eq_true)). apply newer_snapshot_false in Hmax.
      unfold quoteAgeMs. lia. }
    destruct (Z.leb_spec (quoteAgeMs (ev_issuedAt row) now) freshnessWindow) as [Hle|Hlt].
    + split_and!; split; try done; [by intros _; exists row| |].
      * intros H. by destruct (H row Hin).
      * intros [_ H]. specialize (H row Hin Hp). lia.
    + split_and!; split; try done.
      * intros (r & Hr & Hpr & Hw). specialize (Hage r Hr Hpr). lia.
      * intros H. by destruct (H row Hin).
      * intros _. split; [by exists row|]. intros r Hr Hpr. specialize (Hage r Hr Hpr). lia.
  - assert (Hno : forall r, r ∈ table -> ev_endpointId r <> Some endpointId).
    { intros r Hr Hp. specialize (Hn r Hr). apply bool_decide_eq_false in Hn. done. }
    split_and!; split; try done; [intros (r & Hr & Hp & _)|intros [(r & Hr & Hp) _]]; by destruct (Hno r Hr).
Qed.

(** ** Lemmas: paging *)

Section Paging.
Context (utf8 : list N -> jstr) (other_number : jstr -> option Q) (endpointId : jstr) (first : Z).

(** A reader of the console: the first page, then the one after its end cursor while
    there is one. *)
Fixpoint walk_snapshots (fuel : nat) (after : option jstr) (table : list EvidenceSnapshot) : list EvidenceSnapshot :=
  match fuel with
  | O => []
  | S fuel =>
      let p := snapshots utf8 other_number endpointId first after table in
      sp_nodes p ++ if sp_hasNextPage p then walk_snapshots fuel (sp_endCursor p) table else []
  end.

Hypothesis utf8_ascii : forall u, forallb (fun c => c <? 128)%N u = true -> utf8 u = Js u.

Lemma decode_encode_instant t : 0 < t <= MAX_TIME_VALUE -> decodeCursor utf8 other_number (Some (encodeCursor t)) = Some (Some t).
Proof.
  intros [Hpos Hmax]. unfold jstring_of_Z, decodeCursor, encodeCursor.
  assert (Hu : units (jstring_of_Z t) = digits_of (Z.to_N t)).
  { unfold jstring_of_Z. destruct (Z.ltb_spec t 0) as [?|_]; [lia|]. done. }
  assert (Hd : forallb is_digit (digits_of (Z.to_N t)) = true) by apply digits_of_digit.
  assert (Hb : bytes_ok (digits_of (Z.to_N t))).
  { apply Forall_forall. intros c Hc. rewrite forallb_forall in Hd. specialize (Hd c (proj1 (list_elem_of_In _ _) Hc)).
    unfold is_digit in Hd. rewrite andb_true_iff, !N.leb_le in Hd. lia. }
  rewrite Hu. cbn [units]. rewrite from_base64url_encode by done.
  assert (Hne : (jlength (Js (base64UrlEncode (digits_of (Z.to_N t)))) =? 0) = false).
  { apply Z.eqb_neq. unfold jlength. cbn [units]. pose proof (encoded_nonempty _ Hb (digits_of_nonempty _)).
    destruct (base64UrlEncode _); [done|]. cbn [length]. lia. }
  rewrite Hne. rewrite utf8_ascii.
  2:{ apply (forallb_impl is_digit); [|done]. intros c. unfold is_digit. rewrite andb_true_iff, !N.leb_le, N.ltb_lt. lia. }
  rewrite Number_of_digits, Z2N.id by lia.
  assert (E1 : Qle_bool (inject_Z t) 0 = false).
  { apply not_true_iff_false. rewrite Qle_bool_iff. change 0%Q with (inject_Z 0). rewrite <- Zle_Qle. lia. }
  assert (E2 : Qle_bool (inject_Z t) (inject_Z MAX_TIME_VALUE) = true) by (rewrite Qle_bool_iff, <- Zle_Qle; lia).
  by rewrite E1, E2, Qfloor_Z.
Qed.

Definition instants (l : list EvidenceSnapshot) : list Z := map ev_issuedAt l.

Definition datable (l : list EvidenceSnapshot) : Prop := Forall (fun row => 0 < ev_issuedAt row <= MAX_TIME_VALUE) l.

(** With an instant each, the rows before one are the rest of the listing. *)
Lemma before_is_the_rest (table seen left : list EvidenceSnapshot) x :
  NoDup (instants (List.filter (of_publisher (own_endpoint endpointId)) table)) ->
  of_endpoint (own_endpoint endpointId) table = seen ++ x :: left ->
  sort_by newer_snapshot (List.filter (fun row => of_publisher (own_endpoint endpointId) row && before_cursor (Some (ev_issuedAt x)) row) table)
    = left.
Proof.
  intros Hnd Hl. set (mine := List.filter (of_publisher (own_endpoint endpointId)) table) in *.
  assert (Hp : mine ≡ₚ seen ++ x :: left) by (rewrite <- Hl; symmetry; apply sort_by_perm).
  assert (Hs : StronglySorted (fun a b => newer_snapshot b a = false) (seen ++ x :: left)) by (rewrite <- Hl; apply newest_first).
  assert (Hnd' : NoDup (instants (seen ++ x :: left))) by (unfold instants; by rewrite <- Hp).
  assert (Hinj : forall a b, a ∈ seen ++ x :: left -> b ∈ seen ++ x :: left -> ev_issuedAt a = ev_issuedAt b -> a = b)
    by (intros a b; by apply (nodup_map_inj ev_issuedAt)).
  assert (Hf : List.filter (fun row => of_publisher (own_endpoint endpointId) row && before_cursor (Some (ev_issuedAt x)) row) table
               ≡ₚ left).
  { rewrite filter_andb. fold mine. rewrite Hp, List.filter_app. cbn [List.filter before_cursor]. rewrite Z.ltb_irrefl.
    rewrite (filter_nothing _ seen), (filter_all _ left); [done| |].
    - apply Forall_forall. intros r Hr. cbn. apply Z.ltb_lt. apply StronglySorted_app_1_r in Hs. apply StronglySorted_inv in Hs as [_ Hs].
      rewrite Forall_forall in Hs. specialize (Hs r Hr). apply newer_snapshot_false in Hs.
      destruct (Z.eq_dec (ev_issuedAt x) (ev_issuedAt r)) as [Eq|]; [|lia]. exfalso.
      unfold instants in Hnd'. rewrite map_app in Hnd'. cbn in Hnd'. apply NoDup_app in Hnd' as (_ & _ & Hnd'). apply NoDup_cons in Hnd' as [Hn _].
      apply Hn. rewrite Eq. by apply list_elem_of_fmap_2.
    - apply Forall_forall. intros r Hr. cbn. apply Z.ltb_ge. apply StronglySorted_app_1_elem_of with (x1 := r) (x2 := x) in Hs; [|done|set_solver].
      apply newer_snapshot_false in Hs. lia. }
  apply (StronglySorted_unique_strong (fun a b => newer_snapshot b a = false)).
  - intros a b Ha Hb H1 H2. rewrite sort_by_perm, Hf in Ha. rewrite newer_snapshot_false in H1, H2.
    apply Hinj; [set_solver..|lia].
  - apply newest_first.
  - by apply StronglySorted_app_1_r, StronglySorted_inv in Hs as [Hs _].
  - by rewrite sort_by_perm.
Qed.
Definition mine (table : list EvidenceSnapshot) : list EvidenceSnapshot := List.filter (of_publisher (own_endpoint endpointId)) table.

Definition cursor_after (seen : list EvidenceSnapshot) : option jstr := snapshotCursor <$> last seen.

(** A page asked after the rows already seen. *)
Lemma page_after (table seen left : list EvidenceSnapshot) :
  NoDup (instants (mine table)) -> datable (mine table) -> of_endpoint (own_endpoint endpointId) table = seen ++ left ->
  snapshots utf8 other_number endpointId first (cursor_after seen) table =
    {| sp_nodes := take (page_limit first) left; sp_hasNextPage := (page_limit first <? length left)%nat;
       sp_endCursor := cursor_after (take (page_limit first) left) |}.
Proof.
  intros Hnd Hdate Hl.
  assert (Hrows : forall rows, rows = left ->
    {| sp_nodes := take (page_limit first) (take (page_limit first + 1) rows);
       sp_hasNextPage := (page_limit first <? length (take (page_limit first + 1) rows))%nat;
       sp_endCursor := snapshotCursor <$> last (take (page_limit first) (take (page_limit first + 1) rows)) |} =
    {| sp_nodes := take (page_limit first) left; sp_hasNextPage := (page_limit first <? length left)%nat;
       sp_endCursor := cursor_after (take (page_limit first) left) |}).
  { intros rows ->. rewrite take_take, Nat.min_l by lia. f_equal. rewrite length_take. apply eq_bool_prop_intro.
    split; intros H%Is_true_true%Nat.ltb_lt; apply Is_true_true, Nat.ltb_lt; lia. }
  apply Hrows. unfold cursor_after. destruct (last seen) as [x|] eqn:Ex; cbn [fmap option_fmap option_map].
  - apply last_Some in Ex as [seen' ->]. rewrite <- app_assoc in Hl. cbn [app] in Hl.
    assert (Hx : x ∈ mine table).
    { apply list_elem_of_In, filter_In. rewrite <- list_elem_of_In. apply elem_of_endpoint. rewrite Hl. set_solver. }
    unfold datable in Hdate. rewrite Forall_forall in Hdate. unfold snapshotCursor. rewrite decode_encode_instant by by apply Hdate.
    by apply (before_is_the_rest table seen').
  - apply last_None in Ex. by rewrite Ex in Hl.
Qed.

Lemma page_limit_pos : (1 <= page_limit first)%nat.
Proof. unfold page_limit. lia. Qed.

Lemma walk_rest fuel (table seen left : list EvidenceSnapshot) :
  NoDup (instants (mine table)) -> datable (mine table) -> of_endpoint (own_endpoint endpointId) table = seen ++ left ->
  (length left < fuel)%nat -> walk_snapshots fuel (cursor_after seen) table = left.
Proof.
  intros Hnd Hdate. revert seen left; induction fuel as [|fuel IH]; intros seen left Hl Hlen; [lia|]. cbn [walk_snapshots].
  rewrite (page_after table seen left) by done. cbn [sp_nodes sp_hasNextPage sp_endCursor].
  pose proof page_limit_pos as Hpos. destruct (Nat.ltb_spec (page_limit first) (length left)) as [Hlt|Hge].
  2:{ rewrite app_nil_r. by apply take_ge. }
  destruct (last (take (page_limit first) left)) as [x|] eqn:Ex.
  2:{ apply last_None in Ex. apply (f_equal length) in Ex. rewrite length_take in Ex. cbn in Ex. lia. }
  assert (Ec : cursor_after (take (page_limit first) left) = cursor_after (seen ++ take (page_limit first) left)).
  { unfold cursor_after. by rewrite last_app, Ex. }
  rewrite Ec, (IH _ (drop (page_limit first) left)); [apply take_drop| |rewrite length_drop; lia].
  by rewrite <- app_assoc, take_drop.
Qed.

Lemma strictly_newer l : StronglySorted (fun a b => newer_snapshot b a = false) l -> NoDup (instants l) ->
  StronglySorted (fun a b => ev_issuedAt b < ev_issuedAt a) l.
Proof.
  induction 1 as [|x l Hs IH Hx]; [constructor|]. intros [Hn Hnd]%NoDup_cons. constructor; [by apply IH|].
  rewrite Forall_forall in *. intros y Hy. specialize (Hx y Hy). apply newer_snapshot_false in Hx.
  destruct (Z.eq_dec (ev_issuedAt x) (ev_issuedAt y)) as [E|]; [|lia]. destruct Hn. rewrite E. by apply list_elem_of_fmap_2.
Qed.

(** Paging through an endpoint's snapshots ends and shows each of them once, newest
    first, when no two were issued in the same millisecond. *)
Theorem snapshot_pages_are_the_listing table :
  NoDup (instants (mine table)) -> datable (mine table) ->
  forall fuel, (length (mine table) < fuel)%nat ->
  walk_snapshots fuel None table = of_endpoint (own_endpoint endpointId) table /\
  StronglySorted (fun a b => ev_issuedAt b < ev_issuedAt a) (walk_snapshots fuel None table) /\
  (forall row, row ∈ walk_snapshots fuel None table <-> row ∈ table /\ ev_endpointId row = Some endpointId).
Proof.
  intros Hnd Hdate fuel Hfuel.
  assert (Hw : walk_snapshots fuel None table = of_endpoint (own_endpoint endpointId) table).
  { apply (walk_rest fuel table []); [done..|]. unfold of_endpoint. by rewrite sort_by_perm. }
  rewrite Hw. split_and!; [done| |intros row; rewrite elem_of_endpoint; cbn; by rewrite bool_decide_eq_true].
  assert (Hnd' : NoDup (instants (of_endpoint (own_endpoint endpointId) table))).
  { unfold instants, of_endpoint. by rewrite sort_by_perm. }
  pose proof (newest_first (mine table)) as Hs. fold (of_endpoint (own_endpoint endpointId) table) in Hs.
  by apply strictly_newer.
Qed.
End Paging.

(** ** Lemmas: the history of digests *)

Lemma digest_group_spec rows digest row : row ∈ digest_group rows digest <-> row ∈ rows /\ ev_evidenceDigest row = digest.
Proof. unfold digest_group. by rewrite !list_elem_of_In, filter_In, jeqb_eq. Qed.

Lemma foldr_max_spec d l : d ∈ l -> foldr Z.max d l ∈ l /\ forall z, z ∈ l -> z <= foldr Z.max d l.
Proof.
  intros Hd. assert (H : (foldr Z.max d l = d \/ foldr Z.max d l ∈ l) /\ forall z, z ∈ l -> z <= foldr Z.max d l).
  { clear Hd. induction l as [|x l [IH1 IH2]]; cbn; [split; [by left|set_solver]|]. split.
    - destruct (Z.max_spec x (foldr Z.max d l)) as [[_ ->]|[_ ->]]; [destruct IH1; [by left|right; set_solver]|right; set_solver].
    - intros z [->|Hz]%elem_of_cons; [lia|]. specialize (IH2 z Hz). lia. }
  destruct H as [[->|H1] H2]; split; done.
Qed.

Lemma foldr_min_spec d l : d ∈ l -> foldr Z.min d l ∈ l /\ forall z, z ∈ l -> foldr Z.min d l <= z.
Proof.
  intros Hd. assert (H : (foldr Z.min d l = d \/ foldr Z.min d l ∈ l) /\ forall z, z ∈ l -> foldr Z.min d l <= z).
  { clear Hd. induction l as [|x l [IH1 IH2]]; cbn; [split; [by left|set_solver]|]. split.
    - destruct (Z.min_spec x (foldr Z.min d l)) as [[_ ->]|[_ ->]]; [right; set_solver|destruct IH1; [by left|right; set_solver]].
    - intros z [->|Hz]%elem_of_cons; [lia|]. specialize (IH2 z Hz). lia. }
  destruct H as [[->|H1] H2]; split; done.
Qed.

(** The window of a group: attained at both ends, and around every row of it. *)
Lemma change_of_spec digest group row0 : row0 ∈ group ->
  let c := change_of digest group in
  (exists row, row ∈ group /\ ev_issuedAt row = dc_firstIssuedAt c) /\ (exists row, row ∈ group /\ ev_issuedAt row = dc_lastIssuedAt c) /\
  (forall row, row ∈ group -> dc_firstIssuedAt c <= ev_issuedAt row <= dc_lastIssuedAt c).
Proof.
  intros Hin. cbn. set (d := default 0 (head (map ev_issuedAt group))).
  assert (Hd : d ∈ map ev_issuedAt group) by (destruct group; cbn; set_solver).
  destruct (foldr_max_spec d _ Hd) as [Hm1 Hm2], (foldr_min_spec d _ Hd) as [Hn1 Hn2].
  apply list_elem_of_fmap in Hm1 as (r1 & E1 & H1), Hn1 as (r2 & E2 & H2). split_and!; [by exists r2|by exists r1|].
  intros row Hr. apply (list_elem_of_fmap_2 ev_issuedAt) in Hr. split; [by apply Hn2|by apply Hm2].
Qed.

Lemma take_sublist {A} n (l : list A) : sublist (take n l) l.
Proof. rewrite <- (take_drop n l) at 2. apply sublist_inserts_r. done. Qed.

(** The history shown for an endpoint: each digest it published at most once, newest
    first, with the window its snapshots span and their number; what a limit leaves out is
    no newer than what is shown. *)
Theorem digest_history_windows endpointId limit table :
  let h := digestHistory endpointId limit table in
  let mine := List.filter (of_publisher (own_endpoint endpointId)) table in
  NoDup (map dc_evidenceDigest h) /\
  StronglySorted (fun a b => dc_lastIssuedAt b <= dc_lastIssuedAt a) h /\
  Forall (fun c => c = change_of (dc_evidenceDigest c) (digest_group mine (dc_evidenceDigest c)) /\
    (exists row, row ∈ digest_group mine (dc_evidenceDigest c) /\ ev_issuedAt row = dc_firstIssuedAt c) /\
    (exists row, row ∈ digest_group mine (dc_evidenceDigest c) /\ ev_issuedAt row = dc_lastIssuedAt c) /\
    (forall row, row ∈ mine -> ev_evidenceDigest row = dc_evidenceDigest c -> dc_firstIssuedAt c <= ev_issuedAt row <= dc_lastIssuedAt c)) h /\
  (forall row, row ∈ mine -> ev_evidenceDigest row ∈ map dc_evidenceDigest h \/
     length h = page_limit limit /\ Forall (fun c => ev_issuedAt row <= dc_lastIssuedAt c) h).
Proof.
  cbn zeta. unfold digestHistory. set (mine := List.filter _ table).
  set (changes := map (fun digest => change_of digest (digest_group mine digest)) (distinct [] (map ev_evidenceDigest mine))).
  set (sorted := sort_by _ changes).
  assert (Hp : sorted ≡ₚ changes) by apply sort_by_perm.
  assert (Hs : StronglySorted (fun a b => dc_lastIssuedAt b <= dc_lastIssuedAt a) sorted).
  { eapply StronglySorted_weaken; [|apply sort_by_sorted]; intros; rewrite ?Z.ltb_ge in *; lia. }
  assert (Hdig : map dc_evidenceDigest changes = distinct [] (map ev_evidenceDigest mine)).
  { unfold changes. rewrite map_map. cbn. apply map_id. }
  destruct (distinct_spec [] (map ev_evidenceDigest mine)) as [Hnd Hin].
  assert (Hc : Forall (fun c => c = change_of (dc_evidenceDigest c) (digest_group mine (dc_evidenceDigest c)) /\ dc_evidenceDigest c ∈ map ev_evidenceDigest mine) changes).
  { apply Forall_forall. intros c (d & -> & Hd)%list_elem_of_fmap. split; [done|]. by apply Hin in Hd as [Hd _]. }
  assert (Htake : take (page_limit limit) sorted ++ drop (page_limit limit) sorted = sorted) by apply take_drop.
  split_and!.
  - eapply sublist_NoDup; [apply map_sublist, take_sublist|]. by rewrite Hp, Hdig.
  - rewrite <- Htake in Hs. by apply StronglySorted_app_1_l in Hs.
  - apply Forall_take. rewrite Hp. eapply Forall_impl; [exact Hc|]. intros c [Ec (row0 & Ed & Hr0)%list_elem_of_fmap].
    split; [done|]. assert (Hg : row0 ∈ digest_group mine (dc_evidenceDigest c)) by by apply digest_group_spec.
    destruct (change_of_spec (dc_evidenceDigest c) _ _ Hg) as (H1 & H2 & H3). rewrite <- Ec in H1, H2, H3.
    split_and!; [done..|]. intros row Hrow E. apply H3. by apply digest_group_spec.
  - intros row Hrow.
    assert (Hd : ev_evidenceDigest row ∈ map dc_evidenceDigest sorted).
    { rewrite Hp, Hdig. apply Hin. split; [by apply list_elem_of_fmap_2|set_solver]. }
    rewrite <- Htake, map_app in Hd. apply elem_of_app in Hd as [?|Hd]; [by left|right].
    apply list_elem_of_fmap in Hd as (c & Ed & Hc'). split.
    + apply length_take_le. destruct (Nat.le_gt_cases (page_limit limit) (length sorted)) as [?|Hlt]; [done|].
      rewrite drop_ge in Hc' by lia. set_solver.
    + rewrite <- Htake in Hs. apply Forall_forall. intros c' Hc''. transitivity (dc_lastIssuedAt c).
      * assert (Hch : c ∈ changes) by (rewrite <- Hp, <- Htake; set_solver). rewrite Forall_forall in Hc. destruct (Hc c Hch) as [Ec _].
        assert (Hg : row ∈ digest_group mine (dc_evidenceDigest c)) by by apply digest_group_spec.
        destruct (change_of_spec (dc_evidenceDigest c) _ _ Hg) as (_ & _ & H3). rewrite <- Ec in H3. by apply H3.
      * by apply StronglySorted_app_1_elem_of with (x1 := c') (x2 := c) in Hs.
Qed.

(** ** Lemmas: the budget of a fetch *)

Lemma read_chunks_budget maxBytes held events bytes : Z.of_nat (length held) <= maxBytes ->
  read_chunks maxBytes held events = Ok bytes -> Z.of_nat (length bytes) <= maxBytes.
Proof.
  revert held; induction events as [|[b| |] events IH]; intros held Hh; cbn; [done| |by intros [= ->]|done].
  destruct (Z.ltb_spec maxBytes (Z.of_nat (length (held ++ b)))) as [|Hle]; [done|]. by apply IH.
Qed.

(** The bytes of a body up to its end. *)
Fixpoint body_bytes (events : list body_event) : option (list N) :=
  match events with
  | chunk bytes :: events => app bytes <$> body_bytes events
  | body_done :: _ => Some []
  | read_error :: _ | [] => None
  end.

Lemma read_chunks_spec maxBytes held events bytes : body_bytes events = Some bytes -> Z.of_nat (length held) <= maxBytes ->
  read_chunks maxBytes held events =
    if maxBytes <? Z.of_nat (length (held ++ bytes)) then Err over_budget else Ok (held ++ bytes).
Proof.
  revert held bytes; induction events as [|[b| |] events IH]; intros held bytes; cbn; [done| | |done].
  - destruct (body_bytes events) as [rest|] eqn:E; [|done]. cbn. intros [= <-] Hh. rewrite (app_assoc held b rest).
    destruct (Z.ltb_spec maxBytes (Z.of_nat (length (held ++ b)))) as [Hlt|Hle].
    + rewrite (length_app _ rest). destruct (Z.ltb_spec maxBytes (Z.of_nat (length (held ++ b) + length rest))); [done|lia].
    + by rewrite (IH (held ++ b) rest eq_refl Hle).
  - intros [= <-] Hh. rewrite app_nil_r. by destruct (Z.ltb_spec maxBytes (Z.of_nat (length held))); [lia|].
Qed.

Lemma read_chunks_ok maxBytes held events bytes : read_chunks maxBytes held events = Ok bytes ->
  exists rest, body_bytes events = Some rest /\ bytes = held ++ rest.
Proof.
  revert held; induction events as [|[b| |] events IH]; intros held; cbn; [done| | |done].
  - destruct (_ <? _); [done|]. intros (rest & -> & ->)%IH. exists (b ++ rest). by rewrite app_assoc.
  - intros [= <-]. exists []. by rewrite app_nil_r.
Qed.

Section Polling.
Context `{JsonEngine} `{EvidencePlatform} `{UrlParser} {D : SnapshotDatabase} (other_number : jstr -> option Q).

(** A bundle is taken from a success within the budget, and is the JSON of the whole
    body; a body past the budget is refused whatever length it declares, or none. *)
Theorem fetched_bundle_is_within_budget fetcher hostname evidenceUrl :
  match fetchEvidenceBundle other_number fetcher hostname evidenceUrl with
  | Ok raw => exists response, fetcher (evidenceUrlFor hostname evidenceUrl) = Some response /\ 200 <= rs_status response <= 299 /\
      ((rs_body response = None /\ json_parse (Js []) = Some raw) \/
       exists events bytes, rs_body response = Some events /\ body_bytes events = Some bytes /\
         Z.of_nat (length bytes) <= MAX_BUNDLE_BYTES /\ json_parse (utf8_text bytes) = Some raw)
  | Err _ => forall response events bytes, fetcher (evidenceUrlFor hostname evidenceUrl) = Some response ->
      200 <= rs_status response <= 299 -> rs_contentLength response = None -> rs_body response = Some events ->
      body_bytes events = Some bytes ->
      MAX_BUNDLE_BYTES < Z.of_nat (length bytes) \/ json_parse (utf8_text bytes) = None
  end.
Proof.
  unfold fetchEvidenceBundle. destruct (fetcher _) as [response|] eqn:Ef; [|by intros].
  unfold rs_ok. destruct ((200 <=? rs_status response) && (rs_status response <=? 299)) eqn:Es; cbn [negb].
  2:{ intros ? ? ? [= <-] Hs _ _ _. apply andb_false_iff in Es as [Es|Es]; rewrite Z.leb_gt in Es; lia. }
  apply andb_true_iff in Es as [Hlo%Z.leb_le Hhi%Z.leb_le]. unfold readCapped.
  set (check := match _ with Some d => _ | None => Ok tt end).
  assert (Hcheck : rs_contentLength response = None -> check = Ok tt) by (unfold check; by intros ->).
  destruct check as [u|e]; cbn [mbind result_bind]; [|by intros ? ? ? [= <-] _ Hn%Hcheck; discriminate Hn].
  destruct (rs_body response) as [events|] eqn:Eb; cbn [mbind result_bind fmap result_fmap].
  2:{ destruct (json_parse (Js [])) as [raw|] eqn:Ej; [|congruence]. exists response. split_and!; [done..|by left]. }
  destruct (read_chunks MAX_BUNDLE_BYTES [] events) as [bytes|e] eqn:Er.
  - destruct (read_chunks_ok _ _ _ _ Er) as (rest & Hrest & ->). cbn [app] in *.
    cbn [fmap result_fmap mbind result_bind]. destruct (json_parse (utf8_text rest)) as [raw|] eqn:Ej.
    2:{ intros ? events' bytes [= <-] _ _ Hb Hbytes. rewrite Eb in Hb. injection Hb as <-. right. congruence. }
    exists response. split_and!; [done..|right]. exists events, rest. split_and!; [done..| |done].
    by apply (read_chunks_budget _ [] events); [unfold MAX_BUNDLE_BYTES; cbn; lia|].
  - cbn [fmap result_fmap mbind result_bind]. intros ? events' bytes [= <-] _ _ Hb Hbytes. rewrite Eb in Hb. injection Hb as <-. rewrite (read_chunks_spec _ _ _ _ Hbytes) in Er by (unfold MAX_BUNDLE_BYTES; cbn; lia).
    cbn [app] in Er. destruct (Z.ltb_spec MAX_BUNDLE_BYTES (Z.of_nat (length bytes))); [by left|done].
Qed.

(** What the log says of an endpoint that gave nothing. *)
Definition failure_of (fetcher : jstr -> option Response) (e : Endpoint) : option (jstr * refresh_error) :=
  match parsed_bundle_of other_number fetcher e with Err err => Some (ep_name e, err) | Ok _ => None end.

Definition answers (fetcher : jstr -> option Response) (e : Endpoint) : bool := is_ok (parsed_bundle_of other_number fetcher e).

(** What one refresh that works leaves. *)
Record refreshed (now : Z) (uuid : jstr) (id : jstr) (parsed : ParsedEvidenceBundle) (table table' : list EvidenceSnapshot) : Prop := {
  rf_table : table_ok table';
  rf_row : exists row, row ∈ table' /\ ev_fetchedAt row = now /\ identity row = (Some id, None, parsed_publication parsed);
  rf_ids : forall i, i ∈ map ev_id table' -> i = uuid \/ i ∈ map ev_id table;
  rf_others : forall r, ev_endpointId r <> Some id -> r ∈ table' <-> r ∈ table;
  rf_kept : forall r, r ∈ table -> stored table' r
}.

Lemma touch_row_spec id now table r : r ∈ touch_row id now table <->
  (r ∈ table /\ ev_id r <> id) \/ exists old, old ∈ table /\ ev_id old = id /\ r = touched now old.
Proof.
  unfold touch_row. rewrite list_elem_of_fmap. split.
  - intros (old & -> & Hin). destruct (jeqb (ev_id old) id) eqn:E.
    + right. exists old. by apply jeqb_eq in E.
    + left. by apply jeqb_neq in E.
  - intros [[Hin Hne]|(old & Hin & Hid & ->)]; [exists r; by rewrite (proj2 (jeqb_neq _ _) Hne)|].
    exists old. by rewrite Hid, jeqb_refl.
Qed.

Lemma refresh_works fetcher uuid e now table parsed : table_ok table -> uuid ∉ map ev_id table ->
  parsed_bundle_of other_number fetcher e = Ok parsed -> accepts_snapshot (snapshot_row (own_endpoint (ep_id e)) parsed uuid now) = true ->
  exists table' row, refresh other_number fetcher uuid e now table = (table', Ok row) /\ refreshed now uuid (ep_id e) parsed table table'.
Proof.
  intros Ht Hu Hp Hfits. unfold refresh. rewrite Hp.
  destruct (record_spec (own_endpoint (ep_id e)) parsed uuid now table Ht Hu)
    as [[_ Hno]|(table' & row & -> & Ht' & Hrow & Hnow & Hid & Hcase)]; [congruence|].
  exists table', row. split; [done|]. split; [done|by exists row| | |].
  - intros i Hi. destruct Hcase as [[-> _]|[-> _]].
    + rewrite map_app in Hi. apply elem_of_app in Hi as [?|Hi]; [by right|left]. cbn in Hi. set_solver.
    + right. by rewrite (map_of_touched ev_id _ _ (fun _ _ => eq_refl) (touch_row_same _ _ _)) in Hi.
  - intros r Hr. destruct Hcase as [[-> _]|[-> (old & Hold & ->)]].
    + rewrite elem_of_app, list_elem_of_singleton. split; [intros [?| ->]; [done|by destruct Hr]|by left].
    + assert (Howner : forall o, o ∈ table -> ev_id o = ev_id old -> ev_endpointId o = Some (ep_id e)).
      { intros o Ho E. assert (o = old) as -> by (apply (nodup_map_inj ev_id table); [apply Ht|done..]). exact (f_equal (fun t => fst (fst t)) Hid). }
      rewrite touch_row_spec. split.
      * intros [[? _]|(o & Ho & E & ->)]; [done|]. destruct Hr. exact (Howner o Ho E).
      * intros Hin. left. split; [done|]. intros E. by destruct Hr; apply Howner.
  - intros r Hr. destruct Hcase as [[-> _]|[-> _]]; [by exists r; split; [apply elem_of_app; left|]|].
    apply touched_map_in in Hr. rewrite <- (touch_row_same (ev_id row) now table) in Hr. apply list_elem_of_fmap in Hr as (r' & Er & Hr'). by exists r'.
Qed.

Lemma refresh_fails fetcher uuid e now table err : parsed_bundle_of other_number fetcher e = Err err ->
  refresh other_number fetcher uuid e now table = (table, Err err).
Proof. intros Hp. unfold refresh. by rewrite Hp. Qed.

(** What an endpoint publishes is a row the database takes. *)
Definition fileable (fetcher : jstr -> option Response) (uuid : jstr -> jstr) (now : Z) (e : Endpoint) : Prop :=
  forall parsed, parsed_bundle_of other_number fetcher e = Ok parsed ->
    accepts_snapshot (snapshot_row (own_endpoint (ep_id e)) parsed (uuid (ep_id e)) now) = true.

Lemma poll_each_spec fetcher uuid now endpoints : Forall (fileable fetcher uuid now) endpoints -> forall table report logged,
  table_ok table -> NoDup (map ep_id endpoints) -> NoDup (map (fun e => uuid (ep_id e)) endpoints) ->
  Forall (fun e => uuid (ep_id e) ∉ map ev_id table) endpoints ->
  exists table' report', poll_each other_number fetcher uuid now endpoints table report logged
      = (table', report', logged ++ omap (failure_of fetcher) endpoints) /\
    table_ok table' /\
    report' = {| polled := polled report + Z.of_nat (length endpoints);
                 stored_ := stored_ report + Z.of_nat (length (List.filter (answers fetcher) endpoints));
                 failed := failed report + Z.of_nat (length (omap (failure_of fetcher) endpoints)) |} /\
    (forall e parsed, e ∈ endpoints -> parsed_bundle_of other_number fetcher e = Ok parsed ->
       exists row, row ∈ table' /\ ev_fetchedAt row = now /\ identity row = (Some (ep_id e), None, parsed_publication parsed)) /\
    (forall r, (forall e, e ∈ endpoints -> answers fetcher e = true -> ev_endpointId r <> Some (ep_id e)) -> r ∈ table' <-> r ∈ table) /\
    (forall r, r ∈ table -> stored table' r).
Proof.
  induction 1 as [|e endpoints Hfits _ IH]; intros table report logged Ht Hids Huuids Hfresh.
  { exists table, report. cbn. rewrite app_nil_r. split_and!; try done; [destruct report; cbn; f_equal; lia| |intros r Hr; by exists r].
    by intros ? ? ?%elem_of_nil. }
  cbn [map] in Hids, Huuids. apply NoDup_cons in Hids as [Hid Hids], Huuids as [Huuid Huuids]. apply Forall_cons in Hfresh as [Hu Hfresh].
  cbn [poll_each]. destruct (parsed_bundle_of other_number fetcher e) as [parsed|err] eqn:Ep.
  - destruct (refresh_works fetcher (uuid (ep_id e)) e now table parsed Ht Hu Ep (Hfits parsed Ep)) as (t1 & row & -> & [Ht1 Hrow Hids1 Hoth1 Hkept1]).
    assert (Hfresh1 : Forall (fun e => uuid (ep_id e) ∉ map ev_id t1) endpoints).
    { rewrite Forall_forall in *. intros e' He' [Eq|Hin]%Hids1; [|by apply (Hfresh e')]. apply Huuid. rewrite <- Eq.
      by apply (list_elem_of_fmap_2 (fun e => uuid (ep_id e))). }
    destruct (IH t1 {| polled := polled report + 1; stored_ := stored_ report + 1; failed := failed report |} logged Ht1 Hids Huuids Hfresh1)
      as (t2 & report2 & -> & Ht2 & -> & Hrows2 & Hoth2 & Hkept2).
    assert (Ha : answers fetcher e = true) by (unfold answers; by rewrite Ep).
    assert (Hf : failure_of fetcher e = None) by (unfold failure_of; by rewrite Ep).
    eexists t2, _. cbn [omap list_omap List.filter length polled stored_ failed]. rewrite Hf, Ha. split_and!; [done|done| | | |].
    + cbn [length]. f_equal; lia.
    + intros e' parsed' [->|He']%elem_of_cons Hp'; [|by apply Hrows2]. rewrite Ep in Hp'. injection Hp' as <-.
      destruct Hrow as (row1 & Hin1 & Hnow1 & Hid1). exists row1. split_and!; [|done..]. apply Hoth2; [|done].
      intros e' He' _ E. apply (f_equal (fun t => fst (fst t))) in Hid1 as E1. cbn in E1. rewrite E in E1. injection E1 as E1. apply Hid. rewrite <- E1. by apply list_elem_of_fmap_2.
    + intros r Hr. rewrite Hoth2 by (intros e' He'; apply Hr; by right). apply Hoth1. apply Hr; [by left|done].
    + intros r Hr. apply (stored_trans t1); [done|by apply Hkept1].
  - rewrite (refresh_fails _ _ _ _ _ _ Ep).
    destruct (IH table {| polled := polled report + 1; stored_ := stored_ report; failed := failed report + 1 |}
                (logged ++ [(ep_name e, err)]) Ht Hids Huuids Hfresh)
      as (t2 & report2 & -> & Ht2 & -> & Hrows2 & Hoth2 & Hkept2).
    assert (Ha : answers fetcher e = false) by (unfold answers; by rewrite Ep).
    assert (Hf : failure_of fetcher e = Some (ep_name e, err)) by (unfold failure_of; by rewrite Ep).
    eexists t2, _. cbn [omap list_omap List.filter length polled stored_ failed]. rewrite Hf, Ha, <- app_assoc. split_and!; [done|done| | | |done].
    + cbn [length]. f_equal; lia.
    + intros e' parsed' [->|He']%elem_of_cons Hp'; [congruence|by apply Hrows2].
    + intros r Hr. apply Hoth2. intros e' He'. apply Hr. by right.
Qed.

Lemma failures_and_answers fetcher endpoints :
  (length (List.filter (answers fetcher) endpoints) + length (omap (failure_of fetcher) endpoints) = length endpoints)%nat.
Proof.
  induction endpoints as [|e endpoints IH]; [done|]. cbn [List.filter omap list_omap]. unfold answers at 1, failure_of at 1.
  destruct (parsed_bundle_of other_number fetcher e); cbn [is_ok length]; revert IH; unfold omap; lia.
Qed.

(** One endpoint that gives nothing stops no other, where every publication fits the table: a pass asks every enabled endpoint,
    files what each of those that answered published, seen now, and touches no row of the
    others; it reports each failure once, loses no row, and leaves the latch down.  A pass
    that finds the latch up does nothing. *)
Theorem a_failed_endpoint_stops_no_other fetcher uuid now endpoints (running : bool) table :
  table_ok table -> NoDup (map ep_id endpoints) -> NoDup (map (fun e => uuid (ep_id e)) endpoints) ->
  Forall (fun e => uuid (ep_id e) ∉ map ev_id table) endpoints -> Forall (fileable fetcher uuid now) endpoints ->
  if running then pollAll other_number fetcher uuid now (Some endpoints) running table = (true, table, Some no_poll, [])
  else exists (table' : list EvidenceSnapshot) (report : PollReport) (logged : list (jstr * refresh_error)),
    pollAll other_number fetcher uuid now (Some endpoints) running table = (false, table', Some report, logged) /\
    table_ok table' /\ logged = omap (failure_of fetcher) (activeEndpoints endpoints) /\
    polled report = Z.of_nat (length (List.filter ep_enabled endpoints)) /\
    stored_ report + failed report = polled report /\ failed report = Z.of_nat (length logged) /\
    (forall e parsed, e ∈ endpoints -> ep_enabled e = true -> parsed_bundle_of other_number fetcher e = Ok parsed ->
       exists row, row ∈ table' /\ ev_fetchedAt row = now /\ identity row = (Some (ep_id e), None, parsed_publication parsed)) /\
    (forall r, (forall e, e ∈ endpoints -> ep_enabled e = true -> answers fetcher e = true -> ev_endpointId r <> Some (ep_id e)) ->
       r ∈ table' <-> r ∈ table) /\
    (forall r, r ∈ table -> stored table' r).
Proof.
  intros Ht Hids Huuids Hfresh Hfits. destruct running; [done|].
  assert (Hact : activeEndpoints endpoints ≡ₚ List.filter ep_enabled endpoints) by apply sort_by_perm.
  assert (Hin : forall e, e ∈ activeEndpoints endpoints <-> e ∈ endpoints /\ ep_enabled e = true).
  { intros e. rewrite Hact, !list_elem_of_In, filter_In. done. }
  assert (Hsub : forall {B} (f : Endpoint -> B), NoDup (map f endpoints) -> NoDup (map f (activeEndpoints endpoints))).
  { intros B f Hf. rewrite Hact. eapply sublist_NoDup; [apply map_sublist, filter_sublist|done]. }
  assert (Hfits' : Forall (fileable fetcher uuid now) (activeEndpoints endpoints)).
  { rewrite Forall_forall in *. intros e [He _]%Hin. by apply Hfits. }
  destruct (poll_each_spec fetcher uuid now (activeEndpoints endpoints) Hfits' table no_poll []) as (t' & report & E & Ht' & -> & Hrows & Hoth & Hkept).
  - done.
  - by apply Hsub.
  - by apply (Hsub _ (fun e => uuid (ep_id e))).
  - rewrite Forall_forall in *. intros e [He _]%Hin. by apply Hfresh.
  - eexists t', _, _. unfold pollAll. rewrite E. cbn [app polled stored_ failed no_poll]. split_and!; try done.
    + by rewrite Hact.
    + pose proof (failures_and_answers fetcher (activeEndpoints endpoints)). cbn [polled stored_ failed no_poll]. lia.
    + intros e parsed He Hen. apply Hrows. by apply Hin.
    + intros r Hr. apply Hoth. intros e [He Hen]%Hin. by apply Hr.
Qed.
End Polling.

(** ** Lemmas: coverage *)

Lemma sumZ_by_key {A} (key : A -> option jstr) (weight : A -> Z) l ids : NoDup ids ->
  (forall x id, x ∈ l -> key x = Some id -> id ∈ ids) ->
  sumZ (map (fun id => sumZ (map weight (List.filter (fun x => bool_decide (key x = Some id)) l))) ids) =
  sumZ (map weight (List.filter (fun x => is_some (key x)) l)).
Proof.
  intros Hnd. induction l as [|x l IH]; intros Hall; cbn [List.filter].
  { cbn [map]. clear. induction ids as [|i ids IH]; [done|]. cbn [map]. change (sumZ (?a :: ?l)) with (a + sumZ l). by rewrite IH. }
  assert (Hrest := IH (fun y id Hy => Hall y id (proj2 (elem_of_cons _ _ _) (or_intror Hy)))).
  destruct (key x) as [k|] eqn:Ek; cbn [is_some map].
  - assert (Hk : k ∈ ids) by (apply (Hall x); [by left|done]).
    change (sumZ (weight x :: map weight (List.filter (fun x => is_some (key x)) l)))
      with (weight x + sumZ (map weight (List.filter (fun x => is_some (key x)) l))).
    rewrite <- Hrest. clear Hrest IH Hall. revert Hnd Hk. induction ids as [|i ids IHi]; [set_solver|]. intros [Hn Hnd]%NoDup_cons Hk.
    cbn [map]. change (sumZ (?a :: ?l)) with (a + sumZ l). destruct (decide (i = k)) as [->|Hne].
    + rewrite bool_decide_true by done. cbn [map]. change (sumZ (weight x :: ?l)) with (weight x + sumZ l).
      assert (E : map (fun id => sumZ (map weight (if bool_decide (Some k = Some id) then x :: List.filter (fun x => bool_decide (key x = Some id)) l
                    else List.filter (fun x => bool_decide (key x = Some id)) l))) ids =
                  map (fun id => sumZ (map weight (List.filter (fun x => bool_decide (key x = Some id)) l))) ids).
      { apply map_ext_in. intros i Hi%list_elem_of_In. rewrite bool_decide_false; [done|]. by intros [= ->]. }
      rewrite E. lia.
    + rewrite bool_decide_false by congruence. rewrite IHi; [lia|done|set_solver].
  - rewrite <- Hrest. f_equal.
Qed.

(** Coverage never exceeds the traffic it is of, and there is no ratio of nothing; an
    upstream's generation counts in neither; the tokens by endpoint add up to those of
    the window's own generations, each endpoint once. *)
Theorem coverage_is_of_own_traffic w generations :
  let c := coverage_summary w generations in
  0 <= cv_covered c <= cv_requests c /\
  (cv_ratio c = None <-> cv_requests c = 0) /\
  (forall q, cv_ratio c = Some q -> (0 <= q <= 1)%Q) /\
  (forall g, is_some (ge_externalEndpointId g) = true -> coverage_summary w (g :: generations) = c) /\
  NoDup (map fst (tokensByEndpoint w generations)) /\
  sumZ (map snd (tokensByEndpoint w generations)) =
    sumZ (map tokens_of (List.filter (fun g => is_some (ge_endpointId g)) (List.filter (in_window w) generations))).
Proof.
  cbn zeta. unfold coverage_summary. set (rows := List.filter _ generations).
  assert (Hle : (length (List.filter (fun g => is_some (ge_evidenceSnapshotId g)) rows) <= length rows)%nat).
  { apply sublist_length, filter_sublist. }
  cbn [coverageOf cv_covered cv_requests cv_ratio]. split_and!; [lia|lia| | | | |].
  - destruct (Z.ltb_spec 0 (Z.of_nat (length rows))); split; (done || lia).
  - intros q. destruct (Z.ltb_spec 0 (Z.of_nat (length rows))); [|done]. intros [= <-]. unfold Qle. cbn. lia.
  - intros g Hg. cbn [List.filter]. rewrite Hg. cbn [negb]. rewrite andb_false_r. done.
  - unfold tokensByEndpoint. rewrite map_map. cbn. rewrite map_id. apply distinct_spec.
  - unfold tokensByEndpoint. rewrite map_map. cbn [snd].
    apply (sumZ_by_key ge_endpointId tokens_of (List.filter (in_window w) generations)); [apply distinct_spec|].
    intros g id Hg Hid. apply distinct_spec. split; [|set_solver]. apply list_elem_of_omap. by exists g.
Qed.

(** ** Examples *)

Definition sample_row (id : jstr) (digest : jstr) (issuedAt : Z) : EvidenceSnapshot :=
  {| ev_id := id; ev_endpointId := Some "e"; ev_externalEndpointId := None; ev_fetchedAt := issuedAt + 1; ev_issuedAt := issuedAt;
     ev_evidenceDigest := digest; ev_evidenceDigestHex := digest; ev_certFingerprint := id; ev_quoteFormat := None;
     ev_containerImages := []; ev_chainSummary := []; ev_workloads := None; ev_measurements := None; ev_jws := "a.b.c";
     ev_bundle := JObject [] |}.

Definition no_number (_ : jstr) : option Q := None.

Lemma snapshot_pages_are_the_listing_witness :
  map ev_id (walk_snapshots Js no_number "e" 2 4 None [sample_row "1" "a" 100; sample_row "2" "a" 300; sample_row "3" "b" 200]) = ["2"; "3"; "1"].
Proof.
  destruct (snapshot_pages_are_the_listing Js no_number "e" 2 (fun u _ => eq_refl)
    [sample_row "1" "a" 100; sample_row "2" "a" 300; sample_row "3" "b" 200]) with (fuel := 4%nat) as [E _].
  - apply (bool_decide_eq_true_1 (NoDup _)). vm_compute. reflexivity.
  - repeat (apply Forall_cons_2; [cbn; unfold MAX_TIME_VALUE; lia|]). apply Forall_nil_2.
  - vm_compute. lia.
  - rewrite E. vm_compute. reflexivity.
Defined.

(** Two snapshots of one instant at the end of a page: the cursor is the instant alone,
    so the second is on no page. *)
Example a_tied_snapshot_is_on_no_page :
  map ev_id (walk_snapshots Js no_number "e" 1 4 None [sample_row "1" "a" 100; sample_row "2" "a" 300; sample_row "3" "b" 300]) = ["2"; "1"].
Proof. vm_compute. reflexivity. Qed.

(** A digest that comes back after another is one entry whose window covers the other's:
    the history does not show that it changed twice. *)
Example a_returning_digest_is_one_entry :
  map (fun c => (dc_evidenceDigest c, dc_firstIssuedAt c, dc_lastIssuedAt c, dc_snapshots c))
    (digestHistory "e" 20 [sample_row "1" "a" 100; sample_row "2" "b" 200; sample_row "3" "a" 300]) =
  [("a" : jstr, 100, 300, 2); ("b" : jstr, 200, 200, 1)].
Proof. vm_compute. reflexivity. Qed.

Definition sample_endpoint (id host : jstr) : Endpoint :=
  {| ep_id := id; ep_name := id; ep_hostname := host; ep_evidenceUrl := None; ep_declaredImages := None; ep_enabled := true; ep_updatedAt := 0 |}.

Definition sample_fetcher (url : jstr) : option Response :=
  if jeqb url "https://api.test/.well-known/swarm-evidence"
  then Some {| rs_status := 200; rs_contentLength := None; rs_body := Some [chunk [123%N; 32%N; 125%N]; body_done] |} else None.

#[local] Instance sample_json : JsonEngine :=
  {| json_parse s := if jlength s =? 3 then Some sample_raw else Some sample_payload; json_stringify := String_json |}.

#[local] Instance sample_snapshot_table : SnapshotDatabase := {| accepts_snapshot _ := true |}.

#[local] Instance sample_service_platform : EvidencePlatform :=
  {| iso_instant _ := Some 1782907200000; Date_of _ := Some 0; utf8_text u := Js u;
     read_certificate _ := Some {| x5_subject := "s"; x5_issuer := "i"; x5_validTo := "t"; x5_raw := [] |};
     sha256_of _ := repeat 0%N 32 |}.

(** Of two endpoints one is unreachable; the other's bundle is filed. *)
Lemma a_failed_endpoint_stops_no_other_witness :
  exists table report, pollAll no_number sample_fetcher (fun id => "uuid-" +++ id) 500
      (Some [sample_endpoint "down" "gone.test"; sample_endpoint "up" "api.test"]) false [] =
    (false, table, Some report, [("down", fetch_error get_failed)]) /\
  polled report = 2 /\ failed report = 1 /\ map ev_endpointId table = [Some ("up" : jstr)] /\ table_ok table.
Proof.
  destruct (a_failed_endpoint_stops_no_other no_number sample_fetcher (fun id => "uuid-" +++ id) 500
    [sample_endpoint "down" "gone.test"; sample_endpoint "up" "api.test"] false []) as (table & report & logged & E & Ht & El & _).
  - split; constructor.
  - apply (bool_decide_eq_true_1 (NoDup _)). vm_compute. reflexivity.
  - apply (bool_decide_eq_true_1 (NoDup _)). vm_compute. reflexivity.
  - repeat constructor; apply not_elem_of_nil.
  - by repeat constructor.
  - exists table, report. rewrite E. vm_compute in El. subst logged. split; [done|]. vm_compute in E. injection E as <- <-.
    split_and!; [reflexivity..|exact Ht].
Defined.
