(* ===== verification/ExternalEvidence.v ===== *)
(** * The evidence of external upstreams

    [external-endpoints/external-evidence.service.ts] with its poller, and the relay of
    [evidence/evidence.controller.ts] that answers from both services.  A bundle is
    fetched and parsed by [EvidenceService] and filed by [Snapshots] under the other
    publisher column; what a host answers and what the mail provider answers are
    arguments. *)

From Stdlib Require Import QArith.
From S2P Require Import Prelude JsString JsDate Json EvidenceDigest SidecarConfig StatusProjection Liveness OperatorAlerts ExternalCatalog ConfigCatalog EvidenceBundle Snapshots EvidenceService.
#[local] Open Scope Z_scope.

Record ExternalEvidenceConfig := {
  evidenceRefreshAfter : Z;
  evidenceStaleAfter : Z;
  xc_alerts : AlertsConfig;
  xc_transport : Transport
}.

Inductive external_refresh_error :=
| xe_fetch (e : EvidenceFetchError) | xe_bundle (e : EvidenceBundleError) | xe_unbound | xe_not_recorded.

(** A line of the log, with the call that goes with it. *)
Inductive evidence_line :=
| no_summary (endpoint : jstr) (e : external_refresh_error)
| stale_line (issuedAt : Z) (line : jstr) (raised : Raised)
| current_line (issuedAt : Z) (line : jstr) (raised : Raised).

(** The process beside the table: what was asked and when, what was declared stale, the
    alert channel and the log. *)
Record ExternalEvidenceService := {
  xs_table : list EvidenceSnapshot;
  xs_asked : gmap jstr (jstr * Z);
  xs_declaredStale : gmap jstr Z;
  xs_alerts : OperatorAlertsService;
  xs_log : list evidence_line
}.

Definition with_evidence_table (s : ExternalEvidenceService) (table : list EvidenceSnapshot) : ExternalEvidenceService :=
  {| xs_table := table; xs_asked := xs_asked s; xs_declaredStale := xs_declaredStale s; xs_alerts := xs_alerts s; xs_log := xs_log s |}.

Definition with_asked (s : ExternalEvidenceService) (asked : gmap jstr (jstr * Z)) : ExternalEvidenceService :=
  {| xs_table := xs_table s; xs_asked := asked; xs_declaredStale := xs_declaredStale s; xs_alerts := xs_alerts s; xs_log := xs_log s |}.

Definition with_declared (s : ExternalEvidenceService) (declared : gmap jstr Z) : ExternalEvidenceService :=
  {| xs_table := xs_table s; xs_asked := xs_asked s; xs_declaredStale := declared; xs_alerts := xs_alerts s; xs_log := xs_log s |}.

Definition with_raised (s : ExternalEvidenceService) (alerts : OperatorAlertsService) (line : evidence_line) : ExternalEvidenceService :=
  {| xs_table := xs_table s; xs_asked := xs_asked s; xs_declaredStale := xs_declaredStale s; xs_alerts := alerts; xs_log := xs_log s ++ [line] |}.

(** ** Readers *)

(** [WHERE externalEndpointId = .. AND evidenceDigest = ..] *)
Definition of_deployment (externalEndpointId digest : jstr) (row : EvidenceSnapshot) : bool :=
  of_publisher (external_upstream externalEndpointId) row && jeqb (ev_evidenceDigest row) digest.

Definition externalEndpointByNameOrHostname (value : jstr) (endpoints : list ExternalEndpoint) : option ExternalEndpoint :=
  match find_first (fun e => jeqb (ee_name e) value) endpoints with
  | Some e => Some e
  | None => find_first (fun e => jeqb (ee_hostname e) value) endpoints
  end.

Definition latestAdmitted (e : ExternalEndpoint) (table : list EvidenceSnapshot) : option EvidenceSnapshot :=
  match evidenceDigestSeen (ee_columns e) with
  | Some seen =>
      if (jlength seen =? 0) || negb (bool_decide (Some seen = ee_pinnedEvidenceDigest e)) then None
      else head (sort_by newer_snapshot (List.filter (of_deployment (ee_id e) seen) table))
  | None => None
  end.

(** The rows behind a set of pairs, oldest first, and the last of each pair. *)
Definition summary_rows (pairs : list (jstr * jstr)) (table : list EvidenceSnapshot) : list EvidenceSnapshot :=
  sort_by (fun a b => newer_snapshot b a)
    (List.filter (fun row => match ev_externalEndpointId row with
                             | Some id => existsb (jeqb id) (map fst pairs) && existsb (jeqb (ev_evidenceDigest row)) (map snd pairs)
                             | None => false
                             end) table).

Definition put_summary (byEndpoint : gmap jstr (gmap jstr EvidenceSnapshot)) (row : EvidenceSnapshot) : gmap jstr (gmap jstr EvidenceSnapshot) :=
  match ev_externalEndpointId row with
  | Some id => <[id := <[ev_evidenceDigest row := row]> (default ∅ (byEndpoint !! id))]> byEndpoint
  | None => byEndpoint
  end.

Definition summariesFor (pairs : list (jstr * jstr)) (table : list EvidenceSnapshot) : gmap jstr (gmap jstr EvidenceSnapshot) :=
  match pairs with
  | [] => ∅
  | _ => foldl put_summary ∅ (summary_rows pairs table)
  end.

(** [filed]: the retrieval time of the copy last retrieved. *)
Definition filed (externalEndpointId digest : jstr) (table : list EvidenceSnapshot) : option Z :=
  ev_fetchedAt <$> head (sort_by (fun a b => ev_fetchedAt b <? ev_fetchedAt a) (List.filter (of_deployment externalEndpointId digest) table)).

(** ** The stale relay *)

Definition staleRelayLine (name : jstr) (issuedAt now : Z) : jstr :=
  "The evidence this router relays for external endpoint " +++ dquote +++ name +++ dquote +++ " was signed " +++
  durationSince (Some issuedAt) now +++ " ago (" +++ toISOString issuedAt +++ ") and is no longer advancing. " +++
  "Past 24 hours every verifier refuses it, so the console’s upstream-evidence panel reports that the endpoint’s evidence did not check out and anyone verifying it through GET /v1/evidence answers the same — while the upstream itself may be publishing a fresh bundle every minute.".

Definition freshRelayLine (name : jstr) (issuedAt now : Z) : jstr :=
  "The evidence this router relays for external endpoint " +++ dquote +++ name +++ dquote +++ " is current again (signed " +++
  durationSince (Some issuedAt) now +++ " ago).".

Definition relay_facts (name : jstr) (issuedAt now : Z) : list (jstr * jstr) :=
  [("Endpoint" : jstr, name); ("Relayed copy signed" : jstr, toISOString issuedAt); ("Age" : jstr, durationSince (Some issuedAt) now)].

Definition staleRelayAlert (name : jstr) (issuedAt now : Z) : OperatorAlert :=
  {| al_title := "Evidence relayed for “" +++ name +++ "” has stopped advancing";
     al_summary := "This router is still handing out a copy of “" +++ name +++ "”’s evidence that was signed " +++
       durationSince (Some issuedAt) now +++ " ago. The upstream is serving — its models still route — but the relayed document is ageing, and once it passes 24 hours every verifier refuses it: the console reports that this endpoint’s evidence did not check out, and so does anyone who verifies it through this router. It is the copy that is old, not necessarily the upstream.";
     al_facts := relay_facts name issuedAt now;
     al_action := "Nothing needs approving: the digest has not changed. Check that this deployment can still reach the upstream’s /.well-known/swarm-evidence — a refresh that has been failing is in this router’s log as “No evidence summary for external endpoint”." |}.

Definition freshRelayAlert (name : jstr) (issuedAt now : Z) : OperatorAlert :=
  {| al_title := "Evidence relayed for “" +++ name +++ "” is current again";
     al_summary := "This router has refreshed its copy of “" +++ name +++ "”’s evidence; verifiers will accept it again.";
     al_facts := relay_facts name issuedAt now;
     al_action := "No action needed." |}.

Definition reportStaleRelay (cfg : ExternalEvidenceConfig) (e : ExternalEndpoint) (now : Z) (s : ExternalEvidenceService)
    : ExternalEvidenceService * bool :=
  if evidenceStaleAfter cfg <=? 0 then (s, false)
  else match latestAdmitted e (xs_table s) with
  | None => (with_declared s (delete (ee_id e) (xs_declaredStale s)), false)
  | Some relayed =>
      let issuedAt := ev_issuedAt relayed in
      let stale := evidenceStaleAfter cfg <=? now - issuedAt in
      let declared := xs_declaredStale s !! ee_id e in
      if stale && negb (bool_decide (declared = Some issuedAt)) then
        let s := with_declared s (<[ee_id e := issuedAt]> (xs_declaredStale s)) in
        let '(alerts, raised) := raise (xc_alerts cfg) (xc_transport cfg) (xs_alerts s) (staleRelayAlert (ee_name e) issuedAt now) now false in
        (with_raised s alerts (stale_line issuedAt (staleRelayLine (ee_name e) issuedAt now) raised), true)
      else if negb stale && is_some declared then
        let s := with_declared s (delete (ee_id e) (xs_declaredStale s)) in
        let '(alerts, raised) := raise (xc_alerts cfg) (xc_transport cfg) (xs_alerts s) (freshRelayAlert (ee_name e) issuedAt now) now true in
        (with_raised s alerts (current_line issuedAt (freshRelayLine (ee_name e) issuedAt now) raised), stale)
      else (s, stale)
  end.

(** ** A pass *)

Definition due (cfg : ExternalEvidenceConfig) (externalEndpointId digest : jstr) (now : Z) (s : ExternalEvidenceService) : bool :=
  match xs_asked s !! externalEndpointId with
  | Some (asked, at_) => if jeqb asked digest && (now - at_ <? evidenceRefreshAfter cfg) then false else true
  | None => true
  end &&
  match filed externalEndpointId digest (xs_table s) with
  | None => true
  | Some fetchedAt => evidenceRefreshAfter cfg <=? now - fetchedAt
  end.

Record ExternalEvidenceReport := { xr_polled : Z; xr_stored : Z; xr_failed : Z; xr_stale : Z }.

Definition no_report : ExternalEvidenceReport := {| xr_polled := 0; xr_stored := 0; xr_failed := 0; xr_stale := 0 |}.

Section Passes.
Context `{JsonEngine} `{EvidencePlatform} {D : SnapshotDatabase} (other_number : jstr -> option Q).

Definition external_bundle_of (fetcher : jstr -> option Response) (e : ExternalEndpoint) : result external_refresh_error ParsedEvidenceBundle :=
  match fetchEvidenceBundle other_number fetcher (ee_hostname e) (Some (ee_baseUrl e +++ EVIDENCE_PATH)) with
  | Err err => Err (xe_fetch err)
  | Ok raw =>
      match parseEvidenceBundle raw (ee_hostname e) with
      | Err err => Err (xe_bundle err)
      | Ok parsed =>
          if bool_decide (Some (pb_certFingerprint parsed) = observedCertFingerprint (ee_columns e)) then Ok parsed else Err xe_unbound
      end
  end.

Definition refresh_external (fetcher : jstr -> option Response) (uuid : jstr) (e : ExternalEndpoint) (now : Z) (table : list EvidenceSnapshot)
    : list EvidenceSnapshot * result external_refresh_error EvidenceSnapshot :=
  match external_bundle_of fetcher e with
  | Err err => (table, Err err)
  | Ok parsed =>
      let '(table', row) := record (external_upstream (ee_id e)) parsed uuid now table in
      (table', match row with Some row => Ok row | None => Err xe_not_recorded end)
  end.

(** The fetch of a pass, when it is due: whether it stored. *)
Definition ask (fetcher : jstr -> option Response) (uuid : jstr) (e : ExternalEndpoint) (digest : jstr) (now : Z) (s : ExternalEvidenceService)
    : ExternalEvidenceService * bool :=
  let '(table, outcome) := refresh_external fetcher uuid e now (xs_table s) in
  let s := with_evidence_table s table in
  match outcome with
  | Ok _ => (with_asked s (<[ee_id e := (digest, now)]> (xs_asked s)), true)
  | Err err =>
      let s := match err with
               | xe_fetch _ => s
               | _ => with_asked s (<[ee_id e := (digest, now)]> (xs_asked s))
               end in
      (with_raised s (xs_alerts s) (no_summary (ee_name e) err), false)
  end.

Definition visit (cfg : ExternalEvidenceConfig) (fetcher : jstr -> option Response) (uuid : jstr) (now : Z) (e : ExternalEndpoint)
    (s : ExternalEvidenceService) (r : ExternalEvidenceReport) : ExternalEvidenceService * ExternalEvidenceReport :=
  match evidenceDigestSeen (ee_columns e) with
  | Some digest =>
      if (jlength digest =? 0) || negb (truthy (observedCertFingerprint (ee_columns e))) then (s, r)
      else
        let '(s, r) := if due cfg (ee_id e) digest now s then
                         let '(s, ok) := ask fetcher uuid e digest now s in
                         (s, {| xr_polled := xr_polled r + 1; xr_stored := if ok then xr_stored r + 1 else xr_stored r;
                                xr_failed := if ok then xr_failed r else xr_failed r + 1; xr_stale := xr_stale r |})
                       else (s, r) in
        let '(s, stale) := reportStaleRelay cfg e now s in
        (s, {| xr_polled := xr_polled r; xr_stored := xr_stored r; xr_failed := xr_failed r;
               xr_stale := if stale then xr_stale r + 1 else xr_stale r |})
  | None => (s, r)
  end.

(** [WHERE enabled AND observedCertFingerprint IS NOT NULL] *)
Definition askable (e : ExternalEndpoint) : bool := ee_enabled e && is_some (observedCertFingerprint (ee_columns e)).

Definition refreshAll (cfg : ExternalEvidenceConfig) (fetcher : jstr -> option Response) (uuid : jstr -> jstr) (now : Z)
    (endpoints : list ExternalEndpoint) (s : ExternalEvidenceService) : ExternalEvidenceService * ExternalEvidenceReport :=
  foldl (fun '(s, r) e => visit cfg fetcher (uuid (ee_id e)) now e s r) (s, no_report) (List.filter askable endpoints).

(** [pollOnce]: the latch is down again however the pass ends; [endpoints] is [None] when
    the database does not answer. *)
Definition pollOnce (cfg : ExternalEvidenceConfig) (fetcher : jstr -> option Response) (uuid : jstr -> jstr) (now : Z)
    (endpoints : option (list ExternalEndpoint)) (running : bool) (s : ExternalEvidenceService) : bool * ExternalEvidenceService :=
  if running then (running, s)
  else match endpoints with
       | None => (false, s)
       | Some endpoints => (false, fst (refreshAll cfg fetcher uuid now endpoints s))
       end.
End Passes.

(** ** The relay: [evidence.controller.ts] *)

Inductive relay_error :=
| unknown_endpoint (ref : jstr) | no_own_endpoint
| evidence_not_fetched (name : jstr) (publishedAt : jstr).

(** [404] and [503]. *)
Definition relay_status (e : relay_error) : Z :=
  match e with unknown_endpoint _ | no_own_endpoint => 404 | evidence_not_fetched _ _ => 503 end.

Definition well_known (hostname : jstr) : jstr := "https://" +++ hostname +++ EVIDENCE_PATH.

Definition bundleOf (e : Endpoint) (table : list EvidenceSnapshot) : result relay_error json :=
  match latestFor (ep_id e) table with
  | Some snapshot => Ok (ev_bundle snapshot)
  | None => Err (evidence_not_fetched (ep_name e) (well_known (ep_hostname e)))
  end.

Definition externalBundleOf (e : ExternalEndpoint) (table : list EvidenceSnapshot) : result relay_error json :=
  match latestAdmitted e table with
  | Some snapshot => Ok (ev_bundle snapshot)
  | None => Err (evidence_not_fetched (ee_name e) (well_known (ee_hostname e)))
  end.

Definition relay_own `{UrlParser} (publicBaseUrl : jstr) (endpoints : list Endpoint) (table : list EvidenceSnapshot) : result relay_error json :=
  match ownEndpoint publicBaseUrl endpoints with
  | Some e => bundleOf e table
  | None => Err no_own_endpoint
  end.

Definition relay_latest (ref : jstr) (endpoints : list Endpoint) (externals : list ExternalEndpoint) (table : list EvidenceSnapshot)
    : result relay_error json :=
  match endpointByNameOrHostname ref endpoints with
  | Some e => bundleOf e table
  | None =>
      match externalEndpointByNameOrHostname ref externals with
      | Some e => externalBundleOf e table
      | None => Err (unknown_endpoint ref)
      end
  end.

(** ** Lemmas: what a pass files *)

Lemma run_recorder_grown {D : SnapshotDatabase} fuel table r table' r' : run_recorder fuel table r = (table', r') ->
  forall row, row ∈ table' -> stored table row \/ touched 0 row = touched 0 (new_row r).
Proof.
  revert table r; induction fuel as [|fuel IH]; intros table r; cbn [run_recorder].
  { intros [= <- <-] row Hin. left. by exists row. }
  destruct (recorder_step table r) as [[t1 r1]|] eqn:Es; [|intros [= <- <-] row Hin; left; by exists row].
  intros H row Hin. destruct (recorder_step_same _ _ _ _ Es) as (_ & _ & En & _).
  destruct (IH _ _ H row Hin) as [(row1 & Hin1 & E1)|E]; [|right; by rewrite <- En].
  apply touched_map_in in Hin1. destruct (recorder_step_grown _ _ _ _ Es) as [Hg|[Hg _]]; rewrite Hg in Hin1.
  - left. apply list_elem_of_fmap in Hin1 as (row0 & E0 & H0). exists row0. split; [done|congruence].
  - apply elem_of_app in Hin1 as [Hin1|Hin1%list_elem_of_singleton]; [left|right; congruence].
    apply list_elem_of_fmap in Hin1 as (row0 & E0 & H0). exists row0. split; [done|congruence].
Qed.

Lemma record_grown {D : SnapshotDatabase} p parsed uuid now table table' o : record p parsed uuid now table = (table', o) ->
  forall row, row ∈ table' -> stored table row \/ touched 0 row = touched 0 (snapshot_row p parsed uuid now).
Proof.
  unfold record. destruct (run_recorder 3 table _) as [t r] eqn:E. intros [= <- _]. exact (run_recorder_grown _ _ _ _ _ E).
Qed.

Lemma parsed_bundle_is_raw `{JsonEngine} `{EvidencePlatform} raw hostname parsed :
  parseEvidenceBundle raw hostname = Ok parsed -> pb_bundle parsed = raw.
Proof.
  unfold parseEvidenceBundle. repeat case_match; try done. intros (payload & _ & Hr)%bind_ok. revert Hr.
  case_match; [done|]. case_match; [|done]. intros (summary & _ & [= <-])%bind_ok. done.
Qed.

Section Safety.
Context `{JsonEngine} `{EvidencePlatform} {D : SnapshotDatabase} (other_number : jstr -> option Q) (cfg : ExternalEvidenceConfig).

(** A pass: what the hosts answer, what is drawn, when, and the upstreams registered. *)
Record pass := {
  ps_fetcher : jstr -> option Response;
  ps_uuid : jstr -> jstr;
  ps_now : Z;
  ps_endpoints : list ExternalEndpoint
}.

Definition run_pass (s : ExternalEvidenceService) (p : pass) : ExternalEvidenceService :=
  fst (refreshAll other_number cfg (ps_fetcher p) (ps_uuid p) (ps_now p) (ps_endpoints p) s).

Definition run_passes (passes : list pass) (s : ExternalEvidenceService) : ExternalEvidenceService := foldl run_pass s passes.

(** A row filed by a pass for an upstream: the body its base URL answered, naming its
    hostname and claiming the leaf the sidecar observed. *)
Definition filed_by (p : pass) (row : EvidenceSnapshot) : Prop :=
  exists e parsed, e ∈ ps_endpoints p /\ askable e = true /\ ev_externalEndpointId row = Some (ee_id e) /\
    fetchEvidenceBundle other_number (ps_fetcher p) (ee_hostname e) (Some (ee_baseUrl e +++ EVIDENCE_PATH)) = Ok (ev_bundle row) /\
    parseEvidenceBundle (ev_bundle row) (ee_hostname e) = Ok parsed /\ publication row = parsed_publication parsed /\
    observedCertFingerprint (ee_columns e) = Some (ev_certFingerprint row).

Lemma external_bundle_of_ok fetcher e parsed : external_bundle_of other_number fetcher e = Ok parsed ->
  fetchEvidenceBundle other_number fetcher (ee_hostname e) (Some (ee_baseUrl e +++ EVIDENCE_PATH)) = Ok (pb_bundle parsed) /\
  parseEvidenceBundle (pb_bundle parsed) (ee_hostname e) = Ok parsed /\
  observedCertFingerprint (ee_columns e) = Some (pb_certFingerprint parsed).
Proof.
  unfold external_bundle_of. destruct (fetchEvidenceBundle _ _ _ _) as [raw|] eqn:Ef; [|done].
  destruct (parseEvidenceBundle raw _) as [p|] eqn:Ep; [|done]. case_bool_decide as Hb; [|done]. intros [= <-].
  by rewrite (parsed_bundle_is_raw _ _ _ Ep).
Qed.

(** The table apart, what a visit leaves to [reportStaleRelay] it does not touch. *)
Lemma reportStaleRelay_table e now s s' b : reportStaleRelay cfg e now s = (s', b) ->
  xs_table s' = xs_table s /\ xs_asked s' = xs_asked s.
Proof.
  unfold reportStaleRelay. repeat case_match; intros [= <- <-]; done.
Qed.

Lemma refresh_external_grown fetcher uuid e now table table' o : refresh_external other_number fetcher uuid e now table = (table', o) ->
  forall row, row ∈ table' -> stored table row \/
    exists parsed, external_bundle_of other_number fetcher e = Ok parsed /\
      touched 0 row = touched 0 (snapshot_row (external_upstream (ee_id e)) parsed uuid now).
Proof.
  unfold refresh_external. destruct (external_bundle_of _ _ e) as [parsed|] eqn:Ep; [|by intros [= <- _] row Hin; left; exists row].
  destruct (record _ _ _ _ _) as [t r] eqn:Er. intros [= <- _] row Hin.
  destruct (record_grown _ _ _ _ _ _ _ Er row Hin); [by left|right]. by exists parsed.
Qed.

Lemma ask_table fetcher uuid e digest now s s' b : ask other_number fetcher uuid e digest now s = (s', b) ->
  xs_table s' = fst (refresh_external other_number fetcher uuid e now (xs_table s)).
Proof. unfold ask. destruct (refresh_external _ _ _ _ _ _) as [t [row|[err|err| |]]]; by intros [= <- _]. Qed.

Lemma visit_table fetcher uuid now e s r s' r' : visit other_number cfg fetcher uuid now e s r = (s', r') ->
  xs_table s' = xs_table s \/ xs_table s' = fst (refresh_external other_number fetcher uuid e now (xs_table s)).
Proof.
  unfold visit. destruct (evidenceDigestSeen _) as [digest|]; [|intros [= <- _]; by left].
  destruct (_ || _); [intros [= <- _]; by left|]. destruct (due _ _ _ _ _).
  - destruct (ask _ _ _ _ _ _ _) as [s1 ok] eqn:Ea. destruct (reportStaleRelay _ _ _ s1) as [s2 b] eqn:Er. intros [= <- _].
    right. rewrite (proj1 (reportStaleRelay_table _ _ _ _ _ Er)). by eapply ask_table.
  - destruct (reportStaleRelay _ _ _ s) as [s2 b] eqn:Er. intros [= <- _]. left. by apply reportStaleRelay_table in Er as [? _].
Qed.

Lemma touched_fields row row' : touched 0 row = touched 0 row' ->
  ev_externalEndpointId row = ev_externalEndpointId row' /\ publication row = publication row' /\ ev_bundle row = ev_bundle row'.
Proof.
  intros E. split; [exact (f_equal ev_externalEndpointId E)|]. split; [exact (f_equal publication E)|exact (f_equal ev_bundle E)].
Qed.

Lemma filed_by_touched p row row' : touched 0 row = touched 0 row' -> filed_by p row' -> filed_by p row.
Proof.
  intros E (e & parsed & He & Ha & Hx & Hf & Hp & Hpub & Ho). destruct (touched_fields _ _ E) as (E1 & E2 & E3).
  assert (E4 : ev_certFingerprint row = ev_certFingerprint row') by exact (f_equal ev_certFingerprint E).
  exists e, parsed. rewrite E1, E2, E3, E4. done.
Qed.

Lemma run_pass_files p s row : row ∈ xs_table (run_pass s p) -> stored (xs_table s) row \/ filed_by p row.
Proof.
  unfold run_pass, refreshAll. set (visits := List.filter askable (ps_endpoints p)).
  assert (Hv : forall e, e ∈ visits -> e ∈ ps_endpoints p /\ askable e = true) by (intros e; unfold visits; by rewrite !list_elem_of_In, filter_In).
  generalize no_report. revert s row. induction visits as [|e visits IH]; intros s row r; cbn [foldl fst].
  { intros Hin. left. by exists row. }
  destruct (visit _ _ _ _ _ _ s r) as [s1 r1] eqn:Ev. intros Hin.
  destruct (IH (fun e He => Hv e (proj2 (elem_of_cons _ _ _) (or_intror He))) s1 row r1 Hin) as [(row1 & Hin1 & E1)|?]; [|by right].
  destruct (visit_table _ _ _ _ _ _ _ _ Ev) as [Et|Et]; rewrite Et in Hin1; [left; by exists row1|].
  destruct (refresh_external _ _ _ _ _ _) as [t o] eqn:Er. cbn [fst] in Hin1.
  destruct (refresh_external_grown _ _ _ _ _ _ _ Er row1 Hin1) as [(row0 & Hr0 & E0)|(parsed & Hp & E0)].
  { left. exists row0. split; [done|congruence]. }
  right. apply (filed_by_touched p row (snapshot_row (external_upstream (ee_id e)) parsed (ps_uuid p (ee_id e)) (ps_now p))); [congruence|].
  destruct (external_bundle_of_ok _ _ _ Hp) as (Hf & Hparse & Ho). destruct (Hv e) as [He Ha]; [by left|].
  exists e, parsed. split_and!; done.
Qed.

Lemma run_passes_file passes s row : row ∈ xs_table (run_passes passes s) ->
  stored (xs_table s) row \/ exists p, p ∈ passes /\ filed_by p row.
Proof.
  revert s; induction passes as [|p passes IH]; intros s; cbn [run_passes foldl]; [intros Hin; left; by exists row|].
  intros Hin. destruct (IH (run_pass s p) Hin) as [(row1 & Hin1 & E1)|(p' & Hp' & Hf)].
  - destruct (run_pass_files p s row1 Hin1) as [(row0 & Hr0 & E0)|Hf]; [left; exists row0; split; [done|congruence]|].
    right. exists p. split; [by left|]. by eapply filed_by_touched.
  - right. exists p'. split; [by right|done].
Qed.

Lemma latestAdmitted_some e table row : latestAdmitted e table = Some row ->
  row ∈ table /\ ev_externalEndpointId row = Some (ee_id e) /\
  evidenceDigestSeen (ee_columns e) = Some (ev_evidenceDigest row) /\ ee_pinnedEvidenceDigest e = Some (ev_evidenceDigest row) /\
  forall r, r ∈ table -> ev_externalEndpointId r = Some (ee_id e) -> ev_evidenceDigest r = ev_evidenceDigest row -> newer_snapshot r row = false.
Proof.
  unfold latestAdmitted. destruct (evidenceDigestSeen _) as [seen|]; [|done]. destruct (_ || _) eqn:Eg; [done|].
  apply orb_false_iff in Eg as [_ Ep%negb_false_iff%bool_decide_eq_true].
  set (l := sort_by _ _). assert (Hin : forall r, r ∈ l <-> r ∈ table /\ of_deployment (ee_id e) seen r = true).
  { intros r. unfold l. rewrite sort_by_perm, !list_elem_of_In, filter_In. done. }
  pose proof (newest_first (List.filter (of_deployment (ee_id e) seen) table)) as Hs. fold l in Hs.
  assert (Hof : forall r, of_deployment (ee_id e) seen r = true <-> ev_externalEndpointId r = Some (ee_id e) /\ ev_evidenceDigest r = seen).
  { intros r. unfold of_deployment. rewrite andb_true_iff, jeqb_eq. cbn. by rewrite bool_decide_eq_true. }
  destruct l as [|row0 rest]; [done|]. intros [= ->]. destruct (proj1 (Hin row)) as [Ht [Hx Hd]%Hof]; [by left|]. subst seen.
  split_and!; [done..|]. intros r Hr Hrx Hrd. assert (Hm : r ∈ row :: rest) by (apply Hin; split; [done|by apply Hof]).
  apply elem_of_cons in Hm as [->|Hm]; [apply newer_snapshot_false; lia|].
  apply StronglySorted_inv in Hs as [_ Hs]. rewrite Forall_forall in Hs. by apply Hs.
Qed.

(** What the relay hands out for an upstream is the newest filed publication of the one
    deployment its admin pinned and its last verdict saw; and each publication the
    passes filed for an upstream was its own host's answer, naming its hostname and
    claiming the TLS leaf the sidecar had observed. *)
Theorem relayed_bundle_is_bound passes s e row :
  latestAdmitted e (xs_table (run_passes passes s)) = Some row ->
  externalBundleOf e (xs_table (run_passes passes s)) = Ok (ev_bundle row) /\
  ee_pinnedEvidenceDigest e = Some (ev_evidenceDigest row) /\ evidenceDigestSeen (ee_columns e) = Some (ev_evidenceDigest row) /\
  (forall r, r ∈ xs_table (run_passes passes s) -> ev_externalEndpointId r = Some (ee_id e) ->
     ev_evidenceDigest r = ev_evidenceDigest row -> ev_issuedAt r <= ev_issuedAt row) /\
  (stored (xs_table s) row \/ exists p, p ∈ passes /\ filed_by p row) /\ ev_externalEndpointId row = Some (ee_id e).
Proof.
  intros Hl. destruct (latestAdmitted_some _ _ _ Hl) as (Hin & Hx & Hseen & Hpin & Hnew).
  split_and!; [by unfold externalBundleOf; rewrite Hl|done|done| |by apply run_passes_file|done].
  intros r Hr Hrx Hrd. specialize (Hnew r Hr Hrx Hrd). apply newer_snapshot_false in Hnew. lia.
Qed.

(** ** An answer stands for the window *)

(** The upstream's answer was not lost in transport. *)
Definition answered (fetcher : jstr -> option Response) (e : ExternalEndpoint) : Prop :=
  match external_bundle_of other_number fetcher e with Err (xe_fetch _) => False | _ => True end.

Definition asked_at (s : ExternalEvidenceService) (id digest : jstr) (t : Z) : Prop := xs_asked s !! id = Some (digest, t).

Lemma asked_not_due s id digest t now : asked_at s id digest t -> now < t + evidenceRefreshAfter cfg -> due cfg id digest now s = false.
Proof.
  unfold asked_at, due. intros -> Hlt. rewrite jeqb_refl. cbn [andb].
  by destruct (Z.ltb_spec (now - t) (evidenceRefreshAfter cfg)); [|lia].
Qed.

Lemma ask_other fetcher uuid e digest now s s' b id : ask other_number fetcher uuid e digest now s = (s', b) ->
  ee_id e <> id -> xs_asked s' !! id = xs_asked s !! id.
Proof.
  unfold ask. intros Ha Hne. destruct (refresh_external _ _ _ _ _ _) as [t [row|[err|err| |]]]; injection Ha as <- _; cbn; by rewrite ?lookup_insert_ne.
Qed.

Lemma ask_records fetcher uuid e digest now s s' b : ask other_number fetcher uuid e digest now s = (s', b) ->
  answered fetcher e -> asked_at s' (ee_id e) digest now.
Proof.
  unfold ask, answered, refresh_external, asked_at. destruct (external_bundle_of _ _ e) as [parsed|[err|err| |]]; try done.
  - destruct (record _ _ _ _ _) as [t [row|]]; intros [= <- _] _; cbn; apply lookup_insert_eq.
  - intros [= <- _] _; cbn; apply lookup_insert_eq.
  - intros [= <- _] _; cbn; apply lookup_insert_eq.
  - intros [= <- _] _; cbn; apply lookup_insert_eq.
Qed.

Definition same_but (id : jstr) (endpoints : list ExternalEndpoint) (fetcher fetcher' : jstr -> option Response) : Prop :=
  forall e, e ∈ endpoints -> ee_id e <> id -> fetcher (ee_baseUrl e +++ EVIDENCE_PATH) = fetcher' (ee_baseUrl e +++ EVIDENCE_PATH).

Lemma external_bundle_same fetcher fetcher' e : fetcher (ee_baseUrl e +++ EVIDENCE_PATH) = fetcher' (ee_baseUrl e +++ EVIDENCE_PATH) ->
  external_bundle_of other_number fetcher e = external_bundle_of other_number fetcher' e.
Proof. intros E. unfold external_bundle_of, fetchEvidenceBundle, evidenceUrlFor. cbn [from_option id]. by rewrite E. Qed.

Lemma visit_same fetcher fetcher' uuid now e s r : fetcher (ee_baseUrl e +++ EVIDENCE_PATH) = fetcher' (ee_baseUrl e +++ EVIDENCE_PATH) ->
  visit other_number cfg fetcher uuid now e s r = visit other_number cfg fetcher' uuid now e s r.
Proof. intros E. unfold visit, ask, refresh_external. by rewrite (external_bundle_same _ _ _ E). Qed.

(** A visit to an upstream whose answer stands asks nobody. *)
Lemma visit_settled fetcher fetcher' uuid now e s r digest t : asked_at s (ee_id e) digest t -> now < t + evidenceRefreshAfter cfg ->
  evidenceDigestSeen (ee_columns e) = Some digest ->
  visit other_number cfg fetcher uuid now e s r = visit other_number cfg fetcher' uuid now e s r /\
  xs_asked (fst (visit other_number cfg fetcher uuid now e s r)) = xs_asked s.
Proof.
  intros Ha Hlt Hseen. unfold visit. rewrite Hseen. destruct (_ || _); [done|].
  rewrite (asked_not_due _ _ _ _ _ Ha Hlt). split; [done|]. destruct (reportStaleRelay _ _ _ s) as [s1 b] eqn:Er. cbn.
  by apply reportStaleRelay_table in Er as [_ ?].
Qed.

Lemma visit_asked_other fetcher uuid now e s r id : ee_id e <> id ->
  xs_asked (fst (visit other_number cfg fetcher uuid now e s r)) !! id = xs_asked s !! id.
Proof.
  intros Hne. unfold visit. destruct (evidenceDigestSeen _) as [digest|]; [|done]. destruct (_ || _); [done|].
  destruct (due _ _ _ _ _).
  - destruct (ask _ _ _ _ _ _ s) as [s1 ok] eqn:Ea. destruct (reportStaleRelay _ _ _ s1) as [s2 b] eqn:Er. cbn.
    rewrite (proj2 (reportStaleRelay_table _ _ _ _ _ Er)). by eapply ask_other.
  - destruct (reportStaleRelay _ _ _ s) as [s2 b] eqn:Er. cbn. by rewrite (proj2 (reportStaleRelay_table _ _ _ _ _ Er)).
Qed.

Lemma pass_settled fetcher fetcher' uuid now endpoints s digest id t : asked_at s id digest t -> now < t + evidenceRefreshAfter cfg ->
  same_but id endpoints fetcher fetcher' ->
  (forall e, e ∈ endpoints -> ee_id e = id -> evidenceDigestSeen (ee_columns e) = Some digest) ->
  refreshAll other_number cfg fetcher uuid now endpoints s = refreshAll other_number cfg fetcher' uuid now endpoints s /\
  asked_at (fst (refreshAll other_number cfg fetcher uuid now endpoints s)) id digest t.
Proof.
  intros Ha Hlt Hsame Hseen. unfold refreshAll. set (visits := List.filter askable endpoints).
  assert (Hv : forall e, e ∈ visits -> e ∈ endpoints) by (intros e; unfold visits; rewrite !list_elem_of_In, filter_In; tauto).
  clearbody visits. generalize no_report. revert s Ha. induction visits as [|e visits IH]; intros s Ha r; [done|]. cbn [foldl].
  assert (Hrest : forall e', e' ∈ visits -> e' ∈ endpoints) by (intros e' He'; apply Hv; by right).
  destruct (decide (ee_id e = id)) as [E|Hne].
  - destruct (visit_settled fetcher fetcher' (uuid (ee_id e)) now e s r digest t) as [Ev Eask]; [by rewrite E|done|by apply Hseen; [apply Hv; left|]|].
    rewrite <- Ev. destruct (visit _ _ fetcher _ _ e s r) as [s1 r1]. cbn [fst] in Eask. apply (IH Hrest). unfold asked_at. by rewrite Eask.
  - rewrite (visit_same fetcher fetcher') by (apply Hsame; [apply Hv; by left|done]).
    pose proof (visit_asked_other fetcher' (uuid (ee_id e)) now e s r id Hne) as Eask.
    destruct (visit _ _ fetcher' _ _ e s r) as [s1 r1]. cbn [fst] in Eask. apply (IH Hrest). unfold asked_at. by rewrite Eask.
Qed.

(** An upstream that answered, whatever it answered, is not asked about the same
    deployment again before the refresh window is over: each later pass of the process
    inside the window comes out the same whatever the upstream would have answered. *)
Theorem an_answer_stands_for_the_window fetcher uuid e digest now s s1 b passes :
  ask other_number fetcher uuid e digest now s = (s1, b) -> answered fetcher e ->
  Forall (fun p => ps_now p < now + evidenceRefreshAfter cfg /\
    forall e', e' ∈ ps_endpoints p -> ee_id e' = ee_id e -> evidenceDigestSeen (ee_columns e') = Some digest) passes ->
  forall answers_ : pass -> jstr -> option Response,
  Forall (fun p => same_but (ee_id e) (ps_endpoints p) (ps_fetcher p) (answers_ p)) passes ->
  run_passes passes s1 =
  run_passes (map (fun p => {| ps_fetcher := answers_ p; ps_uuid := ps_uuid p; ps_now := ps_now p; ps_endpoints := ps_endpoints p |}) passes) s1.
Proof.
  intros Ha Hans Hpasses answers_ Hsame. pose proof (ask_records _ _ _ _ _ _ _ _ Ha Hans) as Hat. clear Ha Hans. revert s1 Hat.
  induction passes as [|p passes IH]; intros s1 Hat; [done|]. apply Forall_cons in Hpasses as [[Hlt Hseen] Hpasses], Hsame as [Hs Hsame].
  cbn [run_passes foldl map]. destruct (pass_settled _ _ (ps_uuid p) (ps_now p) _ s1 digest _ now Hat Hlt Hs Hseen) as [E Hat'].
  unfold run_pass at 2 4. cbn [ps_fetcher ps_uuid ps_now ps_endpoints]. rewrite <- E. by apply IH.
Qed.

(** A copy filed for a deployment keeps every process from asking within the window. *)
Lemma filed_copy_not_due s id digest row now : row ∈ xs_table s -> of_deployment id digest row = true ->
  now < ev_fetchedAt row + evidenceRefreshAfter cfg -> due cfg id digest now s = false.
Proof.
  intros Hin Hof Hlt. unfold due, filed. set (l := sort_by _ _).
  assert (Hm : row ∈ l) by (unfold l; rewrite sort_by_perm, list_elem_of_In, filter_In, <- list_elem_of_In; done).
  assert (Hs : StronglySorted (fun a b => (ev_fetchedAt a <? ev_fetchedAt b) = false) l) by (apply sort_by_sorted; intros; rewrite ?Z.ltb_ge in *; lia).
  destruct l as [|row0 rest]; [by apply elem_of_nil in Hm|]. cbn. apply andb_false_iff. right. apply Z.leb_gt.
  apply elem_of_cons in Hm as [->|Hm]; [lia|]. apply StronglySorted_inv in Hs as [_ Hs]. rewrite Forall_forall in Hs.
  specialize (Hs row Hm). cbn in Hs. apply Z.ltb_ge in Hs. lia.
Qed.
End Safety.

(** ** A stale relay is declared once *)

(** What one look at a relayed publication does to what is declared, and the line it
    writes: [true] says stale, [false] current again. *)
Definition declare (staleAfter : Z) (declared : option Z) (issuedAt now : Z) : option Z * list (bool * Z) :=
  if staleAfter <=? now - issuedAt then
    if bool_decide (declared = Some issuedAt) then (declared, []) else (Some issuedAt, [(true, issuedAt)])
  else match declared with Some _ => (None, [(false, issuedAt)]) | None => (None, []) end.

Definition declares (staleAfter : Z) (looks : list (Z * Z)) : option Z * list (bool * Z) :=
  foldl (fun '(d, lines) '(issuedAt, now) => let '(d', new) := declare staleAfter d issuedAt now in (d', lines ++ new)) (None, []) looks.

Definition stale_instants (lines : list (bool * Z)) : list Z := omap (fun '(stale, t) => if stale : bool then Some t else None) lines.

Definition relay_line (line : evidence_line) : option (bool * Z) :=
  match line with stale_line t _ _ => Some (true, t) | current_line t _ _ => Some (false, t) | no_summary _ _ => None end.

Definition relay_lines (log : list evidence_line) : list (bool * Z) := omap relay_line log.

Record declared_ok (staleAfter : Z) (looks : list (Z * Z)) (d : option Z) (lines : list (bool * Z)) : Prop := {
  do_sorted : StronglySorted Z.lt (stale_instants lines);
  do_seen : forall t, t ∈ stale_instants lines <-> exists now, (t, now) ∈ looks /\ staleAfter <= now - t;
  do_last : match d with Some t => last lines = Some (true, t) | None => match last lines with Some (true, _) => False | _ => True end end;
  do_alternate : forall pre t post, lines = pre ++ (false, t) :: post -> exists t', last pre = Some (true, t');
  do_bound : match last looks with
             | Some (issuedAt, _) => match d with
                                     | Some t => t <= issuedAt
                                     | None => Forall (fun t => t < issuedAt) (stale_instants lines)
                                     end
             | None => lines = [] /\ d = None
             end
}.

Lemma stale_instants_app l1 l2 : stale_instants (l1 ++ l2) = stale_instants l1 ++ stale_instants l2.
Proof. apply omap_app. Qed.

Lemma strongly_sorted_snoc l t : StronglySorted Z.lt l -> Forall (fun x => x < t) l -> StronglySorted Z.lt (l ++ [t]).
Proof.
  intros Hs Ht. apply StronglySorted_app. split_and!; [|done|by repeat constructor].
  intros x y Hx ->%list_elem_of_singleton. rewrite Forall_forall in Ht. by apply Ht.
Qed.

(** The last declared instant is above the others. *)
Lemma declared_above lines t : StronglySorted Z.lt (stale_instants lines) -> last lines = Some (true, t) -> Forall (fun x => x <= t) (stale_instants lines).
Proof.
  intros Hs Hl. apply last_Some in Hl as [pre ->]. rewrite stale_instants_app in *. cbn in *.
  apply Forall_app. split; [|by constructor; [lia|]]. apply Forall_forall. intros x Hx.
  apply Z.lt_le_incl. apply StronglySorted_app_1_elem_of with (x1 := x) (x2 := t) in Hs; [done|done|set_solver].
Qed.

Lemma declare_step_ok staleAfter looks d lines issuedAt now :
  declared_ok staleAfter looks d lines ->
  match last looks with Some (issuedAt0, _) => issuedAt0 <= issuedAt | None => True end ->
  Forall (fun look => snd look <= now) looks ->
  let '(d', new) := declare staleAfter d issuedAt now in declared_ok staleAfter (looks ++ [(issuedAt, now)]) d' (lines ++ new).
Proof.
  intros [Hs Hseen Hlast Halt Hb] Hi Hn.
  assert (Hlooks : forall t, (exists now0, (t, now0) ∈ looks ++ [(issuedAt, now)] /\ staleAfter <= now0 - t) <->
    t ∈ stale_instants lines \/ (t = issuedAt /\ staleAfter <= now - issuedAt)).
  { intros t. rewrite Hseen. split.
    - intros (n & [Hin|Hin]%elem_of_app & Hst); [left; by exists n|right]. apply list_elem_of_singleton in Hin. by injection Hin as -> ->.
    - intros [(n & Hin & Hst)|[-> Hst]]; [exists n|exists now]; split; try done; apply elem_of_app; [by left|right; set_solver]. }
  assert (Hbelow : d <> Some issuedAt -> Forall (fun x => x < issuedAt) (stale_instants lines)).
  { intros Hd. destruct (last looks) as [[i0 n0]|]; [|by destruct Hb as [-> _]; constructor].
    destruct d as [t|]; [|eapply Forall_impl; [exact Hb|]; cbn; lia].
    eapply Forall_impl; [by apply declared_above|]. cbn. intros x Hx.
    assert (t <> issuedAt) by (intros ->; by apply Hd). lia. }
  unfold declare. destruct (Z.leb_spec staleAfter (now - issuedAt)) as [Hst|Hfresh].
  - case_bool_decide as Hd.
    + rewrite app_nil_r. split; try done; [|rewrite last_snoc; subst d; lia].
      intros t. rewrite Hlooks. split; [by left|]. intros [?|[-> _]]; [done|]. subst d.
      apply last_Some in Hlast as [pre ->]. rewrite stale_instants_app. set_solver.
    + split; rewrite ?stale_instants_app; cbn [stale_instants omap list_omap].
      * by apply strongly_sorted_snoc; [|apply Hbelow].
      * intros t. rewrite Hlooks, elem_of_app, list_elem_of_singleton. naive_solver.
      * apply last_snoc.
      * intros pre t post E. destruct post as [|x post] using rev_ind; [by apply app_inj_tail in E as [_ [=]]|].
        rewrite app_comm_cons, app_assoc in E. apply app_inj_tail in E as [E _]. by eapply Halt.
      * rewrite last_snoc. lia.
  - destruct d as [t|].
    + split; rewrite ?stale_instants_app; cbn [stale_instants omap list_omap]; rewrite ?app_nil_r; [done| |by rewrite last_snoc| |].
      * intros t'. rewrite Hlooks. split; [by left|]. intros [?|[_ ?]]; [done|lia].
      * intros pre t' post E. destruct post as [|x post] using rev_ind.
        -- apply app_inj_tail in E as [<- _]. by exists t.
        -- rewrite app_comm_cons, app_assoc in E. apply app_inj_tail in E as [E _]. by eapply Halt.
      * rewrite last_snoc. apply Forall_forall. intros x (n & Hin & Hstx)%Hseen. rewrite Forall_forall in Hn. specialize (Hn _ Hin). cbn in Hn. lia.
    + rewrite app_nil_r. split; try done; [|rewrite last_snoc; by apply Hbelow].
      intros t'. rewrite Hlooks. split; [by left|]. intros [?|[_ ?]]; [done|lia].
Qed.

Lemma declares_ok staleAfter looks : Sorted Z.le (map fst looks) -> Sorted Z.le (map snd looks) ->
  declared_ok staleAfter looks (fst (declares staleAfter looks)) (snd (declares staleAfter looks)).
Proof.
  induction looks as [|[issuedAt now] looks IH] using rev_ind; intros Hi Hn.
  { split; cbn; try done; [constructor| |by intros [|? ?] ? ? ?]. intros t. split; [by intros ?%elem_of_nil|]. by intros (n & ?%elem_of_nil & _). }
  rewrite map_app in Hi, Hn. apply Sorted_StronglySorted in Hi; [|exact Z.le_trans]. apply Sorted_StronglySorted in Hn; [|exact Z.le_trans].
  assert (Hi' : Sorted Z.le (map fst looks)) by by apply StronglySorted_app_1_l, StronglySorted_Sorted in Hi.
  assert (Hn' : Sorted Z.le (map snd looks)) by by apply StronglySorted_app_1_l, StronglySorted_Sorted in Hn.
  specialize (IH Hi' Hn'). unfold declares in *. rewrite foldl_app. cbn [foldl]. destruct (foldl _ _ looks) as [d lines]. cbn [fst snd] in IH.
  pose proof (declare_step_ok staleAfter looks d lines issuedAt now IH) as Hstep. destruct (declare _ d issuedAt now) as [d' new]. apply Hstep.
  - destruct (last looks) as [[i0 n0]|] eqn:El; [|done]. apply last_Some in El as [pre ->].
    apply StronglySorted_app_1_elem_of with (x1 := i0) (x2 := issuedAt) in Hi; [done|rewrite map_app; set_solver|set_solver].
  - apply Forall_forall. intros [i0 n0] Hin. cbn. apply StronglySorted_app_1_elem_of with (x1 := n0) (x2 := now) in Hn; [done| |set_solver].
    apply (list_elem_of_fmap_2 snd) in Hin. done.
Qed.

Section Watching.
Context (cfg : ExternalEvidenceConfig).

(** The looks a process takes at one upstream, over the tables and rows of the moment. *)
Definition watch (looks : list (ExternalEndpoint * list EvidenceSnapshot * Z)) (s : ExternalEvidenceService) : ExternalEvidenceService :=
  foldl (fun s '(e, table, now) => fst (reportStaleRelay cfg e now (with_evidence_table s table))) s looks.

Lemma report_declares e now s row : 0 < evidenceStaleAfter cfg -> latestAdmitted e (xs_table s) = Some row ->
  let s' := fst (reportStaleRelay cfg e now s) in
  let d := declare (evidenceStaleAfter cfg) (xs_declaredStale s !! ee_id e) (ev_issuedAt row) now in
  xs_declaredStale s' !! ee_id e = fst d /\ relay_lines (xs_log s') = relay_lines (xs_log s) ++ snd d.
Proof.
  intros Hpos Hl. cbn zeta. unfold reportStaleRelay, declare. destruct (Z.leb_spec (evidenceStaleAfter cfg) 0); [lia|]. rewrite Hl.
  destruct (evidenceStaleAfter cfg <=? now - ev_issuedAt row).
  - destruct (decide (xs_declaredStale s !! ee_id e = Some (ev_issuedAt row))) as [Hd|Hd].
    + rewrite !bool_decide_true by done. cbn. by rewrite app_nil_r.
    + rewrite !bool_decide_false by done. cbn [andb negb]. destruct (raise _ _ _ _ _ _) as [alerts raised]. cbn.
      rewrite lookup_insert_eq. split; [done|]. unfold relay_lines. by rewrite omap_app.
  - cbn [andb negb]. destruct (xs_declaredStale s !! ee_id e) as [t|] eqn:Ed; cbn [is_some].
    + destruct (raise _ _ _ _ _ _) as [alerts raised]. cbn. rewrite lookup_delete_eq. split; [done|]. unfold relay_lines. by rewrite omap_app.
    + cbn. rewrite app_nil_r. done.
Qed.

(** While a publication of an upstream is relayed, each one is declared stale at most
    once, in the order of issue, and exactly when a look found it past the limit; a line
    that it is current again follows a declaration. *)
Theorem a_stale_relay_is_declared_once id looks seen s :
  0 < evidenceStaleAfter cfg ->
  Forall2 (fun '(e, table, now) look => ee_id e = id /\ ev_issuedAt <$> latestAdmitted e table = Some (fst look) /\ now = snd look) looks seen ->
  Sorted Z.le (map fst seen) -> Sorted Z.le (map snd seen) ->
  xs_declaredStale s !! id = None -> xs_log s = [] ->
  let lines := relay_lines (xs_log (watch looks s)) in
  StronglySorted Z.lt (stale_instants lines) /\
  (forall t, t ∈ stale_instants lines <-> exists now, (t, now) ∈ seen /\ evidenceStaleAfter cfg <= now - t) /\
  (forall pre t post, lines = pre ++ (false, t) :: post -> exists t', last pre = Some (true, t')).
Proof.
  intros Hpos Hall Hi Hn Hd Hlog. cbn zeta.
  assert (H : xs_declaredStale (watch looks s) !! id = fst (declares (evidenceStaleAfter cfg) seen) /\
              relay_lines (xs_log (watch looks s)) = snd (declares (evidenceStaleAfter cfg) seen)).
  { clear Hi Hn. revert looks Hall. induction seen as [|look seen IH] using rev_ind; intros looks Hall.
    { apply Forall2_nil_inv_r in Hall as ->. cbn. by rewrite Hlog. }
    apply Forall2_app_inv_r in Hall as (looks1 & looks2 & Hall & Hone & ->).
    apply Forall2_cons_inv_r in Hone as ([[e table] now] & rest & (Hid & Hrel & ->) & Hnil & ->). apply Forall2_nil_inv_r in Hnil as ->.
    destruct (IH _ Hall) as [IHd IHl]. unfold watch in *. rewrite foldl_app. cbn [foldl]. unfold declares in *. rewrite foldl_app. cbn [foldl].
    destruct (foldl _ _ seen) as [d lines]. destruct look as [issuedAt now]. cbn [fst snd] in *.
    destruct (latestAdmitted e table) as [row|] eqn:El; [|done]. injection Hrel as <-.
    pose proof (report_declares e now (with_evidence_table (foldl (fun s '(e, table, now) => fst (reportStaleRelay cfg e now (with_evidence_table s table))) s looks1) table) row Hpos El) as [E1 E2].
    cbn [with_evidence_table xs_declaredStale xs_log] in E1, E2. rewrite Hid, IHd in E1. rewrite Hid, IHd, IHl in E2.
    destruct (declare _ d (ev_issuedAt row) now) as [d' new]. done. }
  destruct H as [_ ->]. destruct (declares_ok (evidenceStaleAfter cfg) seen Hi Hn) as [H1 H2 _ H4 _]. done.
Qed.
End Watching.

(** ** Summaries *)

Definition summary_at (byEndpoint : gmap jstr (gmap jstr EvidenceSnapshot)) (id digest : jstr) : option EvidenceSnapshot :=
  byEndpoint !! id ≫= fun digests => digests !! digest.

Lemma put_summary_at byEndpoint row id digest :
  summary_at (put_summary byEndpoint row) id digest =
    if of_deployment id digest row then Some row else summary_at byEndpoint id digest.
Proof.
  unfold summary_at, put_summary, of_deployment. cbn [of_publisher]. destruct (ev_externalEndpointId row) as [i|].
  2:{ by rewrite bool_decide_false. }
  destruct (decide (i = id)) as [->|Hi].
  - rewrite bool_decide_true, lookup_insert_eq by done. cbn [mbind option_bind andb]. destruct (jeqb (ev_evidenceDigest row) digest) eqn:E.
    + apply jeqb_eq in E as ->. apply lookup_insert_eq.
    + apply jeqb_neq in E. rewrite lookup_insert_ne by done. by destruct (byEndpoint !! id) as [m|]; cbn; [|apply lookup_empty].
  - rewrite bool_decide_false, lookup_insert_ne by congruence. done.
Qed.

(** What a screen is given for a deployment it asked about is the newest of its filed
    publications, and nothing exactly when none is filed. *)
Theorem summaries_are_the_newest pairs table id digest : (id, digest) ∈ pairs ->
  match summary_at (summariesFor pairs table) id digest with
  | Some row => row ∈ table /\ of_deployment id digest row = true /\
                forall r, r ∈ table -> of_deployment id digest r = true -> newer_snapshot r row = false
  | None => forall r, r ∈ table -> of_deployment id digest r = false
  end.
Proof.
  intros Hpair. assert (E : summariesFor pairs table = foldl put_summary ∅ (summary_rows pairs table)) by (by destruct pairs; [apply elem_of_nil in Hpair|]).
  rewrite E. clear E.
  assert (Hin : forall r, of_deployment id digest r = true -> r ∈ summary_rows pairs table <-> r ∈ table).
  { intros r Hr. unfold summary_rows. rewrite sort_by_perm, list_elem_of_In, filter_In, <- list_elem_of_In. split; [tauto|]. intros Ht. split; [done|].
    unfold of_deployment in Hr. apply andb_true_iff in Hr as [Hx%bool_decide_eq_true Hd%jeqb_eq]. rewrite Hx, Hd.
    apply andb_true_iff. split; apply existsb_exists.
    - exists id. split; [apply list_elem_of_In; by apply (list_elem_of_fmap_2 fst) in Hpair|apply jeqb_refl].
    - exists digest. split; [apply list_elem_of_In; by apply (list_elem_of_fmap_2 snd) in Hpair|apply jeqb_refl]. }
  assert (Hs : StronglySorted (fun a b => newer_snapshot a b = false) (summary_rows pairs table)).
  { apply sort_by_sorted; intros *; rewrite ?newer_snapshot_false; lia. }
  assert (Hfold : forall l, StronglySorted (fun a b => newer_snapshot a b = false) l ->
    match summary_at (foldl put_summary ∅ l) id digest with
    | Some row => row ∈ l /\ of_deployment id digest row = true /\ forall r, r ∈ l -> of_deployment id digest r = true -> newer_snapshot r row = false
    | None => forall r, r ∈ l -> of_deployment id digest r = false
    end).
  { induction l as [|x l IH] using rev_ind; intros Hsl; [cbn; unfold summary_at; rewrite lookup_empty; by intros r ?%elem_of_nil|]. rewrite foldl_app. cbn [foldl]. rewrite put_summary_at.
    specialize (IH (StronglySorted_app_1_l _ _ _ Hsl)). destruct (of_deployment id digest x) eqn:Ex.
    - split_and!; [set_solver|done|]. intros r [Hr| ->%list_elem_of_singleton]%elem_of_app _; [|apply newer_snapshot_false; lia].
      by apply StronglySorted_app_1_elem_of with (x1 := r) (x2 := x) in Hsl; [|done|set_solver].
    - destruct (summary_at _ id digest) as [row|].
      + destruct IH as (H1 & H2 & H3). split_and!; [set_solver|done|]. intros r [Hr| ->%list_elem_of_singleton]%elem_of_app Hof; [by apply H3|congruence].
      + intros r [Hr| ->%list_elem_of_singleton]%elem_of_app; [by apply IH|done]. }
  specialize (Hfold _ Hs). destruct (summary_at _ id digest) as [row|].
  - destruct Hfold as (H1 & H2 & H3). split_and!; [by apply Hin|done|]. intros r Hr Hof. apply H3; [by apply Hin|done].
  - intros r Hr. destruct (of_deployment id digest r) eqn:Eo; [|done]. rewrite <- Eo. apply Hfold. by apply Hin.
Qed.

(** ** The relay *)

(** By name, then by hostname. *)
Lemma named_spec {A} (name host : A -> jstr) ref l :
  match match find_first (fun e => jeqb (name e) ref) l with
        | Some e => Some e
        | None => find_first (fun e => jeqb (host e) ref) l
        end with
  | Some e => (name e = ref \/ host e = ref) /\ e ∈ l
  | None => forall e, e ∈ l -> name e <> ref /\ host e <> ref
  end.
Proof.
  destruct (find_first (fun e => jeqb (name e) ref) l) as [e|] eqn:E1; [apply find_first_some in E1 as [? ?%jeqb_eq]; auto|].
  destruct (find_first (fun e => jeqb (host e) ref) l) as [e|] eqn:E2; [apply find_first_some in E2 as [? ?%jeqb_eq]; auto|].
  intros e He. split; apply jeqb_neq; [by apply (proj1 (find_first_none _ _) E1)|by apply (proj1 (find_first_none _ _) E2)].
Qed.

(** What [GET /v1/evidence/:endpoint] hands out is a stored bundle: for a name or hostname
    of an endpoint of the router the newest of that endpoint, whatever upstream shares
    the spelling, else an upstream's admitted one; 404 exactly when nothing bears the
    name, 503 when there is nothing to hand out. *)
Theorem relay_answers ref endpoints externals table :
  match endpointByNameOrHostname ref endpoints, externalEndpointByNameOrHostname ref externals with
  | Some e, _ => (ep_name e = ref \/ ep_hostname e = ref) /\ e ∈ endpoints /\
      match relay_latest ref endpoints externals table with
      | Ok bundle => exists row, row ∈ table /\ ev_bundle row = bundle /\ ev_endpointId row = Some (ep_id e) /\
          forall r, r ∈ table -> ev_endpointId r = Some (ep_id e) -> ev_issuedAt r <= ev_issuedAt row
      | Err err => relay_status err = 503 /\ forall r, r ∈ table -> ev_endpointId r <> Some (ep_id e)
      end
  | None, Some e => (ee_name e = ref \/ ee_hostname e = ref) /\ e ∈ externals /\
      match relay_latest ref endpoints externals table with
      | Ok bundle => exists row, row ∈ table /\ ev_bundle row = bundle /\ ev_externalEndpointId row = Some (ee_id e) /\
          ee_pinnedEvidenceDigest e = Some (ev_evidenceDigest row)
      | Err err => relay_status err = 503 /\ latestAdmitted e table = None
      end
  | None, None => relay_latest ref endpoints externals table = Err (unknown_endpoint ref) /\
      (forall e, e ∈ endpoints -> ep_name e <> ref /\ ep_hostname e <> ref) /\
      (forall e, e ∈ externals -> ee_name e <> ref /\ ee_hostname e <> ref)
  end.
Proof.
  pose proof (named_spec ep_name ep_hostname ref endpoints) as Hown. fold (endpointByNameOrHostname ref endpoints) in Hown.
  pose proof (named_spec ee_name ee_hostname ref externals) as Hext. fold (externalEndpointByNameOrHostname ref externals) in Hext.
  unfold relay_latest. destruct (endpointByNameOrHostname ref endpoints) as [e|].
  - destruct Hown as [Hn Hin]. split_and!; [done..|]. unfold bundleOf, latestFor.
    pose proof (newest_spec (own_endpoint (ep_id e)) table) as Hnew. destruct (head _) as [row|].
    + destruct Hnew as (Hrow & Hp%bool_decide_eq_true & Hmax). exists row. split_and!; [done..|]. intros r Hr Hpr.
      specialize (Hmax r Hr (proj2 (bool_decide_eq_true _) Hpr)). apply newer_snapshot_false in Hmax. lia.
    + split; [done|]. intros r Hr. specialize (Hnew r Hr). by apply bool_decide_eq_false in Hnew.
  - destruct (externalEndpointByNameOrHostname ref externals) as [e|]; [|done]. destruct Hext as [Hn Hin]. split_and!; [done..|].
    unfold externalBundleOf. destruct (latestAdmitted e table) as [row|] eqn:El; [|done].
    destruct (latestAdmitted_some _ _ _ El) as (H1 & H2 & _ & H4 & _). by exists row.
Qed.

(** ** Examples *)

#[local] Instance sample_reader : JsonEngine :=
  {| json_parse s := if jlength s =? 3 then Some sample_raw else Some sample_payload; json_stringify := String_json |}.

#[local] Instance sample_snapshots : SnapshotDatabase := {| accepts_snapshot _ := true |}.

#[local] Instance sample_host : EvidencePlatform :=
  {| iso_instant _ := Some 1000; Date_of _ := Some 0; utf8_text u := Js u;
     read_certificate _ := Some {| x5_subject := "s"; x5_issuer := "i"; x5_validTo := "t"; x5_raw := [] |};
     sha256_of _ := repeat 0%N 32 |}.

Definition sample_leaf : jstr := "sha256/47DEQpj8HBSa-_TImW-5JCeuQeRkm5NMpJWZG3hSuFU".

Definition sample_upstream : ExternalEndpoint :=
  {| ee_id := "x"; ee_name := "cloud"; ee_hostname := "api.test"; ee_baseUrl := "https://api.test:8443"; ee_listenPort := 1;
     ee_apiKeyCiphertext := Js []; ee_enabled := true; ee_pinnedEvidenceDigest := Some sample_leaf;
     ee_columns := {| status := verified; lastCheckedAt := None; lastStage := None; lastReason := None; measurementSeen := None;
                      measurementSource := None; measurementInRegistry := None; evidenceDigestSeen := Some sample_leaf;
                      pinnedCertFingerprint := Some sample_leaf; observedCertFingerprint := Some sample_leaf; lastSuccessAt := None;
                      lastFailureAt := None; notServingSince := None; consecutiveFailures := 0; upstreamUnreachable := None |} |}.

Definition sample_answer (url : jstr) : option Response :=
  if jeqb url "https://api.test:8443/.well-known/swarm-evidence"
  then Some {| rs_status := 200; rs_contentLength := None; rs_body := Some [chunk [123%N; 32%N; 125%N]; body_done] |} else None.

Definition no_answer (_ : jstr) : option Response := None.

Definition sample_evidence_config : ExternalEvidenceConfig :=
  {| evidenceRefreshAfter := 3600; evidenceStaleAfter := 21600; xc_alerts := example_config; xc_transport := fun _ => Some (fun _ => None) |}.

Definition fresh_process (table : list EvidenceSnapshot) : ExternalEvidenceService :=
  {| xs_table := table; xs_asked := ∅; xs_declaredStale := ∅; xs_alerts := alerts_initial; xs_log := [] |}.

Definition sample_pass (now : Z) (fetcher : jstr -> option Response) : pass :=
  {| ps_fetcher := fetcher; ps_uuid := fun id => "uuid-" +++ id; ps_now := now; ps_endpoints := [sample_upstream] |}.

Lemma relayed_bundle_is_bound_witness :
  exists row, latestAdmitted sample_upstream (xs_table (run_passes no_number sample_evidence_config [sample_pass 2000 sample_answer] (fresh_process []))) = Some row /\
    ev_bundle row = sample_raw /\ externalBundleOf sample_upstream
      (xs_table (run_passes no_number sample_evidence_config [sample_pass 2000 sample_answer] (fresh_process []))) = Ok sample_raw /\
    exists p, p ∈ [sample_pass 2000 sample_answer] /\ filed_by no_number p row.
Proof.
  destruct (latestAdmitted sample_upstream (xs_table (run_passes no_number sample_evidence_config [sample_pass 2000 sample_answer] (fresh_process []))))
    as [row|] eqn:E; [|vm_compute in E; discriminate E].
  exists row. split; [reflexivity|]. destruct (relayed_bundle_is_bound no_number sample_evidence_config _ _ _ _ E) as (H1 & _ & _ & _ & [(r & Hr & _)|H2] & _).
  - cbn in Hr. by apply elem_of_nil in Hr.
  - assert (Hb : ev_bundle row = sample_raw) by (vm_compute in E; injection E as <-; reflexivity).
    split; [exact Hb|]. rewrite <- Hb. split; [exact H1|exact H2].
Defined.

Lemma an_answer_stands_for_the_window_witness :
  let s1 := fst (ask no_number sample_answer "uuid" sample_upstream sample_leaf 2000 (fresh_process [])) in
  run_passes no_number sample_evidence_config [sample_pass 3000 sample_answer; sample_pass 5599 sample_answer] s1 =
  run_passes no_number sample_evidence_config [sample_pass 3000 no_answer; sample_pass 5599 no_answer] s1.
Proof.
  cbn zeta. destruct (ask no_number sample_answer "uuid" sample_upstream sample_leaf 2000 (fresh_process [])) as [s1 b] eqn:E. cbn [fst].
  apply (an_answer_stands_for_the_window no_number sample_evidence_config sample_answer "uuid" sample_upstream sample_leaf 2000 (fresh_process []) s1 b) with (answers_ := fun _ => no_answer).
  - exact E.
  - vm_compute. exact I.
  - repeat (apply Forall_cons_2; [split; [cbn; lia|by intros e ->%list_elem_of_singleton]|]). apply Forall_nil_2.
  - repeat (apply Forall_cons_2; [by intros e ->%list_elem_of_singleton Hne|]). apply Forall_nil_2.
Defined.

Definition sample_filed (issuedAt : Z) : EvidenceSnapshot :=
  snapshot_row (external_upstream "x")
    {| pb_hostname := "api.test"; pb_issuedAt := issuedAt; pb_digest := {| dg_canonical := sample_leaf; dg_hex := "aa" |};
       pb_certFingerprint := sample_leaf; pb_quoteFormat := None; pb_containerImages := []; pb_workloads := [];
       pb_chainSummary := []; pb_measurements := None; pb_jws := "a.b.c"; pb_bundle := JObject [] |} (jstring_of_Z issuedAt) issuedAt.

(** Stale at the second look and the third, current at the fourth. *)
Lemma a_stale_relay_is_declared_once_witness :
  relay_lines (xs_log (watch sample_evidence_config
    [(sample_upstream, [sample_filed 0], 100); (sample_upstream, [sample_filed 0], 21600); (sample_upstream, [sample_filed 0], 21700);
     (sample_upstream, [sample_filed 0; sample_filed 21750], 21800)] (fresh_process []))) = [(true, 0); (false, 21750)] /\
  (0 ∈ stale_instants [(true, 0); (false, 21750)] <-> exists now, (0, now) ∈ [(0, 100); (0, 21600); (0, 21700); (21750, 21800)] /\ 21600 <= now - 0).
Proof.
  destruct (a_stale_relay_is_declared_once sample_evidence_config "x"
    [(sample_upstream, [sample_filed 0], 100); (sample_upstream, [sample_filed 0], 21600); (sample_upstream, [sample_filed 0], 21700);
     (sample_upstream, [sample_filed 0; sample_filed 21750], 21800)] [(0, 100); (0, 21600); (0, 21700); (21750, 21800)] (fresh_process [])) as (_ & H & _).
  - reflexivity.
  - repeat (apply Forall2_cons_2; [split; [reflexivity|split; vm_compute; reflexivity]|]). apply Forall2_nil_2.
  - repeat (constructor; cbn; try lia).
  - repeat (constructor; cbn; try lia).
  - reflexivity.
  - reflexivity.
  - assert (E : relay_lines (xs_log (watch sample_evidence_config
      [(sample_upstream, [sample_filed 0], 100); (sample_upstream, [sample_filed 0], 21600); (sample_upstream, [sample_filed 0], 21700);
       (sample_upstream, [sample_filed 0; sample_filed 21750], 21800)] (fresh_process []))) = [(true, 0); (false, 21750)]) by (vm_compute; reflexivity).
    rewrite E in H. split; [exact E|exact (H 0)].
Defined.

Lemma summaries_are_the_newest_witness :
  exists row, summary_at (summariesFor [("x" : jstr, sample_leaf)] [sample_filed 5; sample_filed 9; sample_filed 7]) "x" sample_leaf = Some row /\ ev_issuedAt row = 9 /\
    row ∈ [sample_filed 5; sample_filed 9; sample_filed 7].
Proof.
  pose proof (summaries_are_the_newest [("x" : jstr, sample_leaf)] [sample_filed 5; sample_filed 9; sample_filed 7] "x" sample_leaf) as H.
  destruct (summary_at _ "x" sample_leaf) as [row|] eqn:E; [|vm_compute in E; discriminate E]. exists row. split; [reflexivity|].
  destruct H as (Hin & _); [by apply list_elem_of_singleton|]. split; [vm_compute in E; injection E as <-; reflexivity|exact Hin].
Defined.
