(* ===== verification/ModelDiscovery.v ===== *)
(** * Asking upstreams: the models one serves, and the sidecar's verdicts

    [external-endpoints/external-model-discovery.service.ts] and
    [sidecar-admin.client.ts].  A discovery sends at most one request, through the
    sidecar's loopback listener; what is sent is part of the answer here.  What a
    request settles with, the JSON reader, AES-GCM and UTF-8 are parameters. *)

From Stdlib Require Import QArith.
From S2P Require Import Prelude JsString JsNumber Money Json SecretEnvelope StatusProjection ExternalCatalog EndpointAdmin EvidenceBundle EvidenceService.

#[local] Open Scope Z_scope.

(** ** The list an upstream answers with *)

Definition MAX_DISCOVERED_MODELS : nat := 100.
Definition MAX_LIST_BYTES : Z := 2000000.

Record ListedModel := {
  lm_upstreamModel : jstr;
  lm_name : option jstr;
  lm_contextLength : option Z;
  lm_promptPer1mMicros : option Z;
  lm_completionPer1mMicros : option Z
}.

Record DiscoveredModel := { dm_model : ListedModel; dm_registeredAs : option jstr }.

(** The integer a finite number is, if it is one. *)
Definition integer_of (text : jstr) : option Z :=
  '(sign, scaled, shift) ← number_parts text;
  if 0 <=? shift then Some (sign * scaled * 10 ^ shift)
  else if scaled mod 10 ^ (- shift) =? 0 then Some (sign * (scaled / 10 ^ (- shift))) else None.

(** [Number.isSafeInteger(value) && value >= least ? value : null] *)
Definition safe_from (least : Z) (value : option Z) : option Z :=
  match value with Some z => if isSafeInteger z && (least <=? z) then Some z else None | None => None end.

Definition positiveInt (value : option json) : option Z :=
  match value with Some (JNumber text) => safe_from 1 (integer_of text) | _ => None end.

Definition nonNegativeInt (value : option json) : option Z :=
  match value with
  | Some (JNumber text) => safe_from 0 (integer_of text)
  | Some (JString s) => if all_digits (units s) then safe_from 0 (Some (value_of (units s))) else None
  | _ => None
  end.

(** [(value ?? {})] *)
Definition or_empty (v : option json) : option json := match v with None | Some JNull => Some (JObject []) | v => v end.

Definition entry_id (entry : json) : jstr :=
  match chain (or_empty (Some entry)) "id" with Some (JString s) => jtrim s | _ => Js [] end.

Definition usable_id (id : jstr) : bool := negb (jlength id =? 0) && (jlength id <=? 255).

Definition listed_model (entry : json) : ListedModel :=
  let row := or_empty (Some entry) in
  let pricing := or_empty (chain row "pricing") in
  {| lm_upstreamModel := entry_id entry;
     lm_name := match chain row "name" with
                | Some (JString s) => if jlength (jtrim s) =? 0 then None else Some (jtake 255 (jtrim s))
                | _ => None
                end;
     lm_contextLength := match positiveInt (chain row "context_length") with Some n => Some n | None => positiveInt (chain row "max_model_len") end;
     lm_promptPer1mMicros := nonNegativeInt (chain pricing "prompt_per_1m_micros");
     lm_completionPer1mMicros := nonNegativeInt (chain pricing "completion_per_1m_micros") |}.

(** [models] are those already taken, in reverse. *)
Fixpoint read_entries (seen : list jstr) (models : list ListedModel) (data : list json) : list ListedModel :=
  match data with
  | [] => reverse models
  | entry :: rest =>
      let id := entry_id entry in
      if negb (usable_id id) || listed id seen then read_entries seen models rest
      else
        let models := listed_model entry :: models in
        if (length models =? MAX_DISCOVERED_MODELS)%nat then reverse models else read_entries (id :: seen) models rest
  end.

Definition parseModelList (body : option json) : option (list ListedModel) :=
  match chain body "data" with Some (JArray data) => Some (read_entries [] [] data) | _ => None end.

(** ** The refusals *)

Definition text_or (fallback : jstr) (v : option json) : jstr := match nonempty_string v with Some s => s | None => fallback end.

Definition gatekeeperDenialOf (body : option json) : option jstr :=
  if is_text "gatekeeper_error" (chain (chain body "error") "type")
  then Some (text_or "policy" (chain body "stage") +++ ": " +++ text_or "no valid verdict" (chain body "reason"))
  else None.

Definition quoted (name : jstr) : jstr := Js [34%N] +++ name +++ Js [34%N].

Definition refusalOf (name : jstr) (status : Z) (body : option json) : jstr :=
  match gatekeeperDenialOf body with
  | Some denial => "The router's egress refused " +++ quoted name +++ " (" +++ denial +++ "); nothing was sent upstream."
  | None =>
      if (status =? 401) || (status =? 403) then quoted name +++ " refused the stored API key (" +++ jstring_of_Z status +++ "). Rotate it and ask again."
      else if (status =? 404) || (status =? 405) then quoted name +++ " does not serve GET /v1/models (" +++ jstring_of_Z status +++ "). Enter its models by hand instead."
      else quoted name +++ " answered " +++ jstring_of_Z status +++ " to GET /v1/models. Try again later."
  end.

(** ** Discovery *)

Record ListRequest := { lr_url : jstr; lr_authorization : jstr }.

Definition list_request (port : Z) (apiKey : jstr) : ListRequest :=
  {| lr_url := "http://127.0.0.1:" +++ jstring_of_Z port +++ "/v1/models"; lr_authorization := "Bearer " +++ apiKey |}.

Section Discovery.
Context `{JsonEngine} `{EvidencePlatform} `{Aead}.

(** The bytes of a body, up to [limit] of them. *)
Definition readCapped (response : Response) (limit : Z) : result EvidenceFetchError jstr :=
  match rs_body response with
  | None => Ok (Js [])
  | Some events => utf8_text <$> read_chunks limit [] events
  end.

Definition openKey (env : option jstr) (key : option (list N)) (endpoint : ExternalEndpoint) : result admin_error jstr :=
  match open env key (ee_apiKeyCiphertext endpoint) (ee_id endpoint) with
  | Ok apiKey => Ok apiKey
  | Err _ => Err (ServiceUnavailable ("The stored API key for " +++ quoted (ee_name endpoint) +++ " cannot be opened with this deployment's data key " +++
                    "(CR_API_SECRETS_KEY unset or changed since it was stored). Rotate the key to store it again."))
  end.

(** What [fetcher] settles a request with; [None] is its rejection.  The requests sent
    come first. *)
Definition fetchModels (env : option jstr) (key : option (list N)) (fetcher : ListRequest -> option Response) (endpoint : ExternalEndpoint)
    : list ListRequest * result admin_error (list ListedModel) :=
  let name := ee_name endpoint in
  match openKey env key endpoint with
  | Err e => ([], Err e)
  | Ok apiKey =>
      let request := list_request (ee_listenPort endpoint) apiKey in
      ([request],
       match fetcher request with
       | None => Err (Conflict (quoted name +++ " did not answer GET /v1/models in time through the egress; try again."))
       | Some response =>
           match readCapped response MAX_LIST_BYTES with
           | Err over_budget => Err (Conflict (quoted name +++ " answered GET /v1/models with more than 2 MB; enter its models by hand."))
           | Err _ => Err (Conflict (quoted name +++ " did not answer GET /v1/models in time through the egress; try again."))
           | Ok text =>
               let body := match json_parse text with Some v => Some v | None => Some JNull end in
               if negb (rs_ok response) then Err (Conflict (refusalOf name (rs_status response) body))
               else match parseModelList body with
                    | None => Err (Conflict (quoted name +++ " did not answer GET /v1/models with an OpenAI model list."))
                    | Some models => Ok models
                    end
           end
       end)
  end.

(** [new Map(registered.map(...)).get(id)]: the last row of a name decides. *)
Definition publicIdOf (registered : list Model) (upstreamModel : jstr) : option jstr :=
  m_id <$> find_first (fun m => jeqb (m_litellmModel m) upstreamModel) (reverse registered).

Definition registered_by (endpoint : ExternalEndpoint) (m : Model) : bool :=
  bool_decide (m_externalEndpointId m = Some (ee_id endpoint)) && m_enabled m.

Definition discover (env : option jstr) (key : option (list N)) (fetcher : ListRequest -> option Response) (externalEndpointId : jstr)
    (endpoints : list ExternalEndpoint) (models : list Model) : list ListRequest * result admin_error (list DiscoveredModel) :=
  match find_first (fun e => jeqb (ee_id e) externalEndpointId) endpoints with
  | None => ([], Err (NotFound "External endpoint not found."))
  | Some endpoint =>
      if negb (ee_enabled endpoint) || negb (status_eqb (status (ee_columns endpoint)) verified) then
        ([], Err (Conflict (quoted (ee_name endpoint) +++ " is not verified by this router yet (status " +++
               Js (map upper_unit (units (status_text (status (ee_columns endpoint))))) +++ "), " +++
               "so it has not been asked for its models: discovery only talks to an attested upstream.")))
      else
        let '(sent, listed) := fetchModels env key fetcher endpoint in
        (sent, listed ≫= fun listed =>
               Ok (map (fun m => {| dm_model := m; dm_registeredAs := publicIdOf (List.filter (registered_by endpoint) models) (lm_upstreamModel m) |}) listed))
  end.
End Discovery.

(** ** The sidecar's admin API *)

Definition REQUEST_TIMEOUT_MS : Z := 5000.

Record AdminTarget := { at_socketPath : option jstr; at_host : jstr; at_port : option Q }.

Fixpoint last_index_of (c : N) (u : list N) : option nat :=
  match u with
  | [] => None
  | d :: r => match last_index_of c r with
              | Some i => Some (S i)
              | None => if (d =? c)%N then Some O else None
              end
  end.

Section Target.
Context (other_number : jstr -> option Q).

Definition splitHostPort (listen : jstr) : jstr * option Q :=
  match last_index_of 58 (units listen) with
  | None => (listen, None)
  | Some i => (jtake (Z.of_nat i) listen,
               match Number_of_text other_number (jdrop (Z.of_nat i + 1) listen) with
               | Some q => if Qeq_bool q 0 then None else Some q
               | None => None
               end)
  end.

Definition admin_target (adminListen : jstr) : AdminTarget :=
  let socketPath := if jstartsWith adminListen "unix:" then Some (jdrop 5 adminListen) else None in
  match present socketPath with
  | Some path => {| at_socketPath := Some path; at_host := "localhost"; at_port := None |}
  | None => let '(host, port) := splitHostPort adminListen in {| at_socketPath := socketPath; at_host := host; at_port := port |}
  end.
End Target.

(** What the call and its response emit, in turn. *)
Inductive call_event :=
| responded (statusCode : Z)
| data_chunk (bytes : list N)
| response_end
| response_error (message : jstr)
| call_timeout
| call_error (message : jstr).

Inductive call_failure := answered_status (statusCode : Z) | body_is_not_JSON | emitted_error (message : jstr) | not_an_array.

(** The chunks of a response that is being read, whether the socket was closed here, and
    what the promise settled with. *)
Record Call := { cl_chunks : option (list N); cl_destroyed : bool; cl_settled : option (result call_failure json) }.

Definition call_start : Call := {| cl_chunks := None; cl_destroyed := false; cl_settled := None |}.

(** [resolve] and [reject]: the first decides. *)
Definition settle (r : result call_failure json) (c : Call) : Call :=
  {| cl_chunks := cl_chunks c; cl_destroyed := cl_destroyed c; cl_settled := match cl_settled c with None => Some r | s => s end |}.

Section Calling.
Context `{JsonEngine} (utf8 : list N -> jstr).

Definition on_event (e : call_event) (c : Call) : Call :=
  match e with
  | responded statusCode =>
      if negb (statusCode =? 200) then settle (Err (answered_status statusCode)) c
      else {| cl_chunks := Some []; cl_destroyed := cl_destroyed c; cl_settled := cl_settled c |}
  | data_chunk bytes => {| cl_chunks := (fun held => held ++ bytes) <$> cl_chunks c; cl_destroyed := cl_destroyed c; cl_settled := cl_settled c |}
  | response_end =>
      match cl_chunks c with
      | None => c                                 (* the body of a refused answer is drained *)
      | Some held => settle (match json_parse (utf8 held) with Some v => Ok v | None => Err body_is_not_JSON end) c
      end
  | response_error message | call_error message => settle (Err (emitted_error message)) c
  | call_timeout => {| cl_chunks := cl_chunks c; cl_destroyed := true; cl_settled := cl_settled c |}
  end.

Definition get (events : list call_event) : Call := foldl (fun c e => on_event e c) call_start events.

(** [None] while the call has not settled. *)
Definition fetchSidecarVerdicts (events : list call_event) : option (result call_failure (list json)) :=
  match cl_settled (get events) with
  | None => None
  | Some (Err e) => Some (Err e)
  | Some (Ok (JArray verdicts)) => Some (Ok verdicts)
  | Some (Ok _) => Some (Err not_an_array)
  end.
End Calling.

(** ** Lemmas: the list *)







Section Asking.
Context `{JsonEngine} `{EvidencePlatform} `{Aead}.

Definition attested (endpoints : list ExternalEndpoint) (id : jstr) (e : ExternalEndpoint) : Prop :=
  e ∈ endpoints /\ ee_id e = id /\ ee_enabled e = true /\ status (ee_columns e) = verified.

Lemma discover_cases env key fetcher id endpoints models sent answer :
  discover env key fetcher id endpoints models = (sent, answer) ->
  (sent = [] /\ exists e, answer = Err e) \/
  exists e apiKey, attested endpoints id e /\ open env key (ee_apiKeyCiphertext e) (ee_id e) = Ok apiKey /\
    sent = [list_request (ee_listenPort e) apiKey] /\
    forall listed, answer = Ok listed ->
      exists response text body data,
        fetcher (list_request (ee_listenPort e) apiKey) = Some response /\ rs_ok response = true /\
        readCapped response MAX_LIST_BYTES = Ok text /\ json_parse text = Some body /\ member "data" body = Some (JArray data) /\
        listed = map (fun m => {| dm_model := m; dm_registeredAs := publicIdOf (List.filter (registered_by e) models) (lm_upstreamModel m) |}) (read_entries [] [] data).
Proof.
  unfold discover. destruct (find_first _ endpoints) as [e|] eqn:Ef; [|intros [= <- <-]; left; eauto].
  apply find_first_some in Ef as [Hin Hid%jeqb_eq]. destruct (negb (ee_enabled e) || _) eqn:Ea; [intros [= <- <-]; left; eauto|].
  apply orb_false_iff in Ea as [Hen%negb_false_iff Hst%negb_false_iff]. assert (Hv : status (ee_columns e) = verified) by (by destruct (status (ee_columns e))). clear Hst.
  unfold fetchModels, openKey. destruct (open _ _ _ _) as [apiKey|err] eqn:Eo; [|intros [= <- <-]; left; cbn; eauto].
  cbv beta iota zeta. intros [= <- <-]. right. exists e, apiKey. split; [done|]. split; [done|]. split; [done|].
  intros listed. destruct (fetcher _) as [response|]; [|done]. destruct (readCapped _ _) as [text|err] eqn:Er; [|by destruct err].
  destruct (negb (rs_ok response)) eqn:Ek; [done|]. apply negb_false_iff in Ek. unfold parseModelList.
  destruct (json_parse text) as [body|] eqn:Ej; [|done]. cbn [chain]. destruct (member "data" body) as [[]|] eqn:Em; try done.
  intros [= <-]. by eexists response, text, body, _.
Qed.


(** ** Theorems *)

(** Discovery comes after attestation: at most one request is sent, for an endpoint
    that is there, switched on and verified, to the sidecar's loopback listener under
    that endpoint's own port and with its own key; a list is only answered for a
    request that was sent. *)
Theorem discovery_asks_the_attested env key fetcher id endpoints models sent answer :
  discover env key fetcher id endpoints models = (sent, answer) ->
  (sent = [] /\ exists e, answer = Err e) \/
  exists e apiKey, attested endpoints id e /\ open env key (ee_apiKeyCiphertext e) (ee_id e) = Ok apiKey /\
    sent = [list_request (ee_listenPort e) apiKey].
Proof. intros [?|(e & apiKey & Ha & Ho & -> & _)]%discover_cases; [by left|]. right. by exists e, apiKey. Qed.



End Asking.

(** ** Lemmas: the call *)

Section Settling.
Context `{JsonEngine} (utf8 : list N -> jstr).

Definition quiet (e : call_event) : bool := match e with data_chunk _ | call_timeout => true | _ => false end.

(** What a run of such events carries. *)
Definition carried (events : list call_event) : list N := concat (map (fun e => match e with data_chunk b => b | _ => [] end) events).

Definition settled_by (c : Call) : option (result call_failure json) := cl_settled c.

Lemma settled_stays events c r : cl_settled c = Some r -> cl_settled (foldl (fun c e => on_event utf8 e c) c events) = Some r.
Proof.
  revert c. induction events as [|e events IH]; intros c Hc; [done|]. cbn [foldl]. apply IH.
  destruct e; cbn [on_event]; try done; [destruct (negb _); cbn; by rewrite ?Hc| |cbn; by rewrite Hc..].
  destruct (cl_chunks c); [cbn; by rewrite Hc|done].
Qed.

Lemma settled_now events r c : cl_settled c = None ->
  cl_settled (foldl (fun c e => on_event utf8 e c) (settle r c) events) = Some r.
Proof. intros Hc. apply settled_stays. cbn. by rewrite Hc. Qed.

(** A call that resolves was answered 200, and resolves with the whole of what followed. *)
Lemma resolved_whole events c v : cl_settled (foldl (fun c e => on_event utf8 e c) c events) = Some (Ok v) -> cl_settled c = None ->
  (exists held mid post, cl_chunks c = Some held /\ events = mid ++ response_end :: post /\ forallb quiet mid = true /\
     json_parse (utf8 (held ++ carried mid)) = Some v) \/
  exists pre mid post, events = pre ++ responded 200 :: mid ++ response_end :: post /\ forallb quiet mid = true /\
     json_parse (utf8 (carried mid)) = Some v.
Proof.
  revert c. induction events as [|e events IH]; intros c Hr Hc; cbn [foldl] in Hr; [by rewrite Hc in Hr|].
  assert (Hlater : (exists pre mid post, events = pre ++ responded 200 :: mid ++ response_end :: post /\ forallb quiet mid = true /\ json_parse (utf8 (carried mid)) = Some v) ->
     exists pre mid post, e :: events = pre ++ responded 200 :: mid ++ response_end :: post /\ forallb quiet mid = true /\ json_parse (utf8 (carried mid)) = Some v).
  { intros (pre & mid & post & -> & ? & ?). by exists (e :: pre), mid, post. }
  destruct e as [statusCode|bytes| |message| |message]; cbn [on_event] in *.
  - destruct (Z.eqb_spec statusCode 200) as [->|Hne]; cbn [negb] in *.
    + destruct (IH _ Hr Hc) as [(held & mid & post & [= <-] & -> & Hq & Hj)|Hl]; [|right; by apply Hlater].
      right. by exists [], mid, post.
    + by rewrite settled_now in Hr.
  - destruct (IH _ Hr Hc) as [(held & mid & post & Hh & -> & Hq & Hj)|Hl]; [|right; by apply Hlater].
    cbn in Hh. destruct (cl_chunks c) as [h|] eqn:Ec; [|done]. injection Hh as <-. left. exists h, (data_chunk bytes :: mid), post.
    split; [done|]. split; [done|]. split; [done|]. cbn. by rewrite app_assoc.
  - destruct (cl_chunks c) as [held|] eqn:Ec.
    + rewrite settled_now in Hr by done. injection Hr as Hr. destruct (json_parse (utf8 held)) as [w|] eqn:Ej; [|done].
      injection Hr as <-. left. exists held, [], events. cbn. by rewrite app_nil_r.
    + destruct (IH c Hr Hc) as [(held & mid & post & Hh & _)|Hl]; [by rewrite Ec in Hh|right; by apply Hlater].
  - by rewrite settled_now in Hr.
  - destruct (IH _ Hr Hc) as [(held & mid & post & Hh & -> & Hq & Hj)|Hl]; [|right; by apply Hlater].
    left. exists held, (call_timeout :: mid), post. by cbn in *.
  - by rewrite settled_now in Hr.
Qed.

(** Verdicts are a whole answer: whatever the socket emits, in whatever order, verdicts
    are read only from an answer of 200 whose end arrived, and they are the array its
    bytes print, all of them; and the first error, end or refusal settles the call for
    good. *)
Theorem verdicts_are_a_whole_answer events verdicts :
  fetchSidecarVerdicts utf8 events = Some (Ok verdicts) ->
  exists pre mid post, events = pre ++ responded 200 :: mid ++ response_end :: post /\ forallb quiet mid = true /\
    json_parse (utf8 (carried mid)) = Some (JArray verdicts) /\
    forall more, fetchSidecarVerdicts utf8 (events ++ more) = Some (Ok verdicts).
Proof.
  unfold fetchSidecarVerdicts, get. destruct (cl_settled (foldl _ call_start events)) as [[v|e]|] eqn:E; [|done..].
  destruct v as [| | | |items|]; try done. intros [= ->].
  destruct (resolved_whole events call_start _ E eq_refl) as [(held & _ & _ & Hh & _)|(pre & mid & post & He & Hq & Hj)]; [done|].
  exists pre, mid, post. split; [done|]. split; [done|]. split; [done|]. intros more. rewrite foldl_app.
  by rewrite (settled_stays more _ _ E).
Qed.
End Settling.

(** ** Examples *)

Definition sample_env : option jstr := Some "000102030405060708090a0b0c0d0e0f101112131415161718191a1b1c1d1e1f"%js.
Definition sealed_sample : jstr :=
  match @seal toy_aead sample_env None (map N.of_nat (seq 0 12)) "sk-1" "e1" with Ok s => ss_ciphertext s | Err _ => Js [] end.

Definition asked_row : ExternalEndpoint :=
  with_patch {| ee_id := "e1"; ee_name := "cloud"; ee_hostname := "cloud.example"; ee_baseUrl := "https://cloud.example/v1"; ee_listenPort := 9001;
    ee_apiKeyCiphertext := sealed_sample; ee_enabled := true; ee_pinnedEvidenceDigest := None; ee_columns := booted_columns 0 |}
    (ee_columns (example_endpoint verified)).

Definition sample_list : json :=
  JObject [("data" : jstr, JArray [JObject [("id" : jstr, JString " large "); ("context_length" : jstr, JNumber "8192"); ("pricing" : jstr, JObject [("prompt_per_1m_micros" : jstr, JString "250")])];
                                   JNull; JObject [("id" : jstr, JString "large")]; JObject [("id" : jstr, JString "small"); ("max_model_len" : jstr, JNumber "1.5")]])].

Definition list_engine (v : json) : JsonEngine := {| json_parse _ := Some v; json_stringify := String_json |}.
Definition list_platform : EvidencePlatform :=
  {| iso_instant _ := None; Date_of _ := None; utf8_text := Js; read_certificate _ := None; sha256_of b := b |}.

Definition answers_list (r : ListRequest) : option Response :=
  if jeqb (lr_authorization r) "Bearer sk-1" then Some {| rs_status := 200; rs_contentLength := None; rs_body := Some [chunk [91%N; 93%N]; body_done] |} else None.

Definition discovered : list ListRequest * result admin_error (list DiscoveredModel) :=
  @discover (list_engine sample_list) list_platform toy_aead sample_env None answers_list "e1" [asked_row] [example_model].

Definition shown_sample : list DiscoveredModel := match snd discovered with Ok l => l | Err _ => [] end.

Example discovered_sample : map (fun d => (lm_upstreamModel (dm_model d), lm_contextLength (dm_model d), lm_promptPer1mMicros (dm_model d), dm_registeredAs d)) shown_sample =
  [("large"%js, Some 8192, Some 250, Some "acme/large"%js); ("small"%js, None, None, None)].
Proof. vm_compute. reflexivity. Qed.

Lemma discovery_asks_the_attested_witness : fst discovered = [list_request 9001 "sk-1"] /\
  (fst discovered = [] /\ (exists e, snd discovered = Err e) \/
   exists e apiKey, attested [asked_row] "e1" e /\ @open toy_aead sample_env None (ee_apiKeyCiphertext e) (ee_id e) = Ok apiKey /\
     fst discovered = [list_request (ee_listenPort e) apiKey]).
Proof.
  split; [vm_compute; reflexivity|].
  apply (@discovery_asks_the_attested (list_engine sample_list) list_platform toy_aead sample_env None answers_list "e1" [asked_row] [example_model]). apply surjective_pairing.
Defined.


Definition polled : list call_event := [responded 200; data_chunk [91%N]; call_timeout; data_chunk [93%N]; response_end; call_error "socket hang up"].

Lemma verdicts_are_a_whole_answer_witness :
  @fetchSidecarVerdicts (list_engine (JArray [JNull])) Js polled = Some (Ok [JNull]) /\
  @fetchSidecarVerdicts (list_engine (JArray [JNull])) Js (polled ++ [responded 500]) = Some (Ok [JNull]).
Proof.
  assert (E : @fetchSidecarVerdicts (list_engine (JArray [JNull])) Js polled = Some (Ok [JNull])) by (vm_compute; reflexivity).
  split; [exact E|]. destruct (@verdicts_are_a_whole_answer (list_engine (JArray [JNull])) Js polled [JNull] E) as (pre & mid & post & _ & _ & _ & Hm).
  apply Hm.
Defined.

(** The address the sidecar's API listens on, as the client reads it. *)
Example admin_targets :
  admin_target (fun _ => None) "127.0.0.1:9400" = {| at_socketPath := None; at_host := "127.0.0.1"; at_port := Some (inject_Z 9400) |} /\
  admin_target (fun _ => None) "unix:/run/gk.sock" = {| at_socketPath := Some "/run/gk.sock"%js; at_host := "localhost"; at_port := None |} /\
  admin_target (fun _ => None) "127.0.0.1" = {| at_socketPath := None; at_host := "127.0.0.1"; at_port := None |}.
Proof. vm_compute. done. Qed.
