(* ===== verification/MailDelivery.v ===== *)
(** * What the mail provider says of an address

    [mail/resend-webhook.ts], [mail/mail-webhook.controller.ts] and
    [mail/mail-delivery.service.ts]: the signature of a delivery, the events it
    carries, and the row kept for an address the provider has complained about.
    HMAC, the text codecs, case mapping, dates and JSON are the platform's. *)

From Stdlib Require Import QArith Qabs.
From S2P Require Import Prelude JsString JsNumber JsDate Json SecretEnvelope RateLimiter.
#[local] Open Scope Z_scope.

Class WebhookPlatform := {
  hmac_sha256 : list N -> list N -> list N;      (* key, message *)
  text_bytes : jstr -> list N;                   (* UTF-8 *)
  bytes_text : list N -> jstr;
  toLowerCase : jstr -> jstr;
  parse_date : jstr -> option Z;                 (* [new Date(text)] *)
  other_number : jstr -> option Q                (* [Number] of what is not a run of digits *)
}.

(** ** The signature *)

Record SvixHeaders := { sh_id : option jstr; sh_timestamp : option jstr; sh_signature : option jstr }.

Definition TIMESTAMP_TOLERANCE_MS : Z := 5 * 60000.
Definition SECRET_PREFIX : jstr := "whsec_".

Section Webhook.
Context `{WebhookPlatform} `{JsonEngine}.

Definition secret_key (secret : jstr) : list N :=
  from_base64url (units (if jstartsWith secret SECRET_PREFIX then jdrop (jlength SECRET_PREFIX) secret else secret)).

(** One entry of the header: a version, a comma and a value. *)
Definition entry_matches (expected : list N) (entry : jstr) : bool :=
  match jsplit 44%N entry with
  | version :: value :: _ => jeqb version "v1" && negb (jlength value =? 0) && bool_decide (from_base64url (units value) = expected)
  | _ => false
  end.

(** [Math.abs(now - sentAtSeconds * 1000) > TIMESTAMP_TOLERANCE_MS] *)
Definition in_tolerance (now : Z) (sentAtSeconds : Q) : bool :=
  Qle_bool (Qabs (inject_Z now - sentAtSeconds * 1000)) (inject_Z TIMESTAMP_TOLERANCE_MS).

Definition signed_content (id timestamp : jstr) (rawBody : list N) : list N :=
  text_bytes (id +++ "." +++ timestamp +++ ".") ++ rawBody.

Definition verifyResendSignature (secret : jstr) (rawBody : list N) (headers : SvixHeaders) (now : Z) : bool :=
  match present (sh_id headers), present (sh_timestamp headers), present (sh_signature headers) with
  | Some id, Some timestamp, Some signature =>
      match Number_of_text other_number timestamp with
      | Some sentAtSeconds =>
          if negb (in_tolerance now sentAtSeconds) then false
          else let expected := hmac_sha256 (secret_key secret) (signed_content id timestamp rawBody) in
               existsb (entry_matches expected) (jsplit 32%N signature)
      | None => false
      end
  | _, _, _ => false
  end.

(** ** The events *)

Inductive MailEventKind := bounced | complained | suppressed_kind | failed_kind | delayed_kind | delivered_kind | unsuppressed.

Record MailProviderEvent := {
  me_kind : MailEventKind;
  me_email : jstr;
  me_permanent : bool;
  me_occurredAt : Z;
  me_detail : option jstr;
  me_messageId : option jstr
}.

Definition MAX_DETAIL_LENGTH : Z := 512.

(** Up to the closing bracket, when something stands before it. *)
Fixpoint bracketed (seen u : list N) : option (list N) :=
  match u with
  | [] => None
  | c :: r => if (c =? 62)%N then match seen with [] => None | _ => Some (reverse seen) end else bracketed (c :: seen) r
  end.

(** The first match of an address in angle brackets. *)
Fixpoint angled (u : list N) : option (list N) :=
  match u with
  | [] => None
  | c :: r => if (c =? 60)%N then match bracketed [] r with Some a => Some a | None => angled r end else angled r
  end.

Definition normaliseAddress (email : jstr) : jstr :=
  toLowerCase (jtrim (Js (default (units email) (angled (units email))))).

Definition messageOf (primary fallback : json) : option jstr :=
  match coalesce (coalesce (coalesce (member "message" primary) (member "message" fallback)) (member "reason" primary)) (member "type" primary) with
  | Some (JString message) =>
      if 0 <? jlength (jtrim message) then Some (jtake MAX_DETAIL_LENGTH (jtrim message)) else None
  | _ => None
  end.

(** [isRecord(v) ? v : {}] *)
Definition record_or_empty (v : option json) : json := default (JObject []) (asRecord v).

Record Verdict := { vd_kind : MailEventKind; vd_permanent : bool; vd_detail : option jstr }.

Definition verdict_of_event (type : jstr) (data : json) : option Verdict :=
  if jeqb type "email.bounced" then
    let bounce := record_or_empty (member "bounce" data) in
    Some {| vd_kind := bounced; vd_permanent := is_text "Permanent" (member "type" bounce); vd_detail := messageOf bounce data |}
  else if jeqb type "email.complained" then
    Some {| vd_kind := complained; vd_permanent := true; vd_detail := messageOf (record_or_empty (member "complaint" data)) data |}
  else if jeqb type "email.suppressed" then
    Some {| vd_kind := suppressed_kind; vd_permanent := true; vd_detail := messageOf (record_or_empty (member "suppressed" data)) data |}
  else if jeqb type "suppression.added" then
    Some {| vd_kind := suppressed_kind; vd_permanent := true; vd_detail := messageOf data data |}
  else if jeqb type "email.failed" then
    Some {| vd_kind := failed_kind; vd_permanent := false; vd_detail := messageOf (record_or_empty (member "failed" data)) data |}
  else if jeqb type "email.delivery_delayed" then
    Some {| vd_kind := delayed_kind; vd_permanent := false; vd_detail := messageOf data data |}
  else if jeqb type "email.delivered" then Some {| vd_kind := delivered_kind; vd_permanent := false; vd_detail := None |}
  else if jeqb type "suppression.removed" then Some {| vd_kind := unsuppressed; vd_permanent := false; vd_detail := None |}
  else None.

Definition recipientsOf (data : json) : list jstr :=
  let raw := coalesce (coalesce (member "to" data) (member "email" data)) (member "address" data) in
  let candidates := match raw with Some (JArray items) => items | Some v => [v] | None => [] end in
  distinct [] (List.filter (fun a => 0 <? jlength a)
    (omap (fun v => match v with JString s => Some (normaliseAddress s) | _ => None end) candidates)).

Definition dateOf (value : option json) : option Z :=
  match value with Some (JString s) => parse_date s | _ => None end.

(** [or_else]: the first of two that is there. *)
Definition or_else {A} (a b : option A) : option A := match a with Some _ => a | None => b end.

Definition parseResendDelivery (rawBody : list N) (now : Z) : list MailProviderEvent :=
  match asRecord (json_parse (bytes_text rawBody)) with
  | Some payload =>
      match member "type" payload with
      | Some (JString type) =>
          let data := record_or_empty (member "data" payload) in
          match verdict_of_event type data with
          | Some verdict =>
              let occurredAt := default now (or_else (dateOf (member "created_at" payload)) (dateOf (member "created_at" data))) in
              let messageId := as_string (member "email_id" data) in
              map (fun email => {| me_kind := vd_kind verdict; me_email := email; me_permanent := vd_permanent verdict;
                                   me_occurredAt := occurredAt; me_detail := vd_detail verdict; me_messageId := messageId |})
                (recipientsOf data)
          | None => []
          end
      | _ => []
      end
  | None => []
  end.

(** ** The row of an address *)

Inductive MailAddressStateName := rejecting | delayed | delivering.

#[global] Instance mail_state_eq_dec : EqDecision MailAddressStateName.
Proof. solve_decision. Defined.

Inductive MailAddressStateReason := because_bounced | because_complained | because_suppressed | because_failed | because_delayed.

Record MailAddressState := {
  ms_id : jstr;
  ms_email : jstr;
  ms_state : MailAddressStateName;
  ms_reason : option MailAddressStateReason;
  ms_detail : option jstr;
  ms_lastDeliveryId : option jstr;
  ms_failures : Z;
  ms_firstEventAt : Z;
  ms_lastEventAt : Z;
  ms_rejectingSince : option Z;
  ms_updatedAt : Z
}.

Definition stateOf (event : MailProviderEvent) : MailAddressStateName * option MailAddressStateReason :=
  match me_kind event with
  | delivered_kind | unsuppressed => (delivering, None)
  | complained => (rejecting, Some because_complained)
  | suppressed_kind => (rejecting, Some because_suppressed)
  | bounced => if me_permanent event then (rejecting, Some because_bounced) else (delayed, Some because_bounced)
  | failed_kind => (delayed, Some because_failed)
  | delayed_kind => (delayed, Some because_delayed)
  end.

(** [findOne({ where: { email } })] *)
Definition find_address (email : jstr) (table : list MailAddressState) : option MailAddressState :=
  find_first (fun row => jeqb (ms_email row) email) table.

(** [save]: the row of that id, or a new one. *)
Fixpoint save_state (row : MailAddressState) (table : list MailAddressState) : list MailAddressState :=
  match table with
  | [] => [row]
  | r :: table => if jeqb (ms_id r) (ms_id row) then row :: table else r :: save_state row table
  end.

Definition created_state (uuid email : jstr) (event : MailProviderEvent) : MailAddressState :=
  {| ms_id := uuid; ms_email := email; ms_state := delivering; ms_reason := None; ms_detail := None; ms_lastDeliveryId := None;
     ms_failures := 0; ms_firstEventAt := me_occurredAt event; ms_lastEventAt := me_occurredAt event; ms_rejectingSince := None;
     ms_updatedAt := 0 |}.

(** The columns [apply] sets. *)
Definition applied (row : MailAddressState) (event : MailProviderEvent) (deliveryId : jstr) (now : Z) : MailAddressState :=
  let '(state, reason) := stateOf event in
  {| ms_id := ms_id row; ms_email := ms_email row; ms_state := state; ms_reason := reason; ms_detail := me_detail event;
     ms_lastDeliveryId := Some deliveryId;
     ms_failures := if decide (state = delivering) then 0 else ms_failures row + 1;
     ms_firstEventAt := ms_firstEventAt row; ms_lastEventAt := me_occurredAt event;
     ms_rejectingSince := if decide (state = rejecting) then Some (default (me_occurredAt event) (ms_rejectingSince row)) else None;
     ms_updatedAt := now |}.

Inductive mail_line := rejection_line (email : jstr) (held : bool) (event : MailProviderEvent) | retry_line (email : jstr) (event : MailProviderEvent).

(** One event, with the database answering; [held] is whether an account has the address. *)
Definition record_event (held : jstr -> bool) (uuid : jstr) (now : Z) (event : MailProviderEvent) (deliveryId : jstr)
    (table : list MailAddressState) : list MailAddressState * list mail_line :=
  let email := normaliseAddress (me_email event) in
  if jlength email =? 0 then (table, [])
  else
    let existing := find_address email table in
    let state := fst (stateOf event) in
    if bool_decide (existing ≫= ms_lastDeliveryId = Some deliveryId) then (table, [])
    else match existing, state with
         | None, delivering => (table, [])
         | _, _ =>
             let row := default (created_state uuid email event) existing in
             (save_state (applied row event deliveryId now) table,
              match state with
              | rejecting => [rejection_line email (held email) event]
              | delayed => [retry_line email event]
              | delivering => []
              end)
         end.

(** The sentence of a rejection. *)
Definition describeRejection (email : jstr) (held : bool) (event : MailProviderEvent) (kind : jstr) : jstr :=
  let colon s := match s with Some d => if jlength d =? 0 then Js [] else ": " +++ d | None => Js [] end in
  "Mail to " +++ email +++ " is being dropped by the provider (" +++ kind +++ colon (me_detail event) +++
  match me_messageId event with Some m => if jlength m =? 0 then Js [] else ", message " +++ m | None => Js [] end +++
  "). Every later message to it is accepted at SMTP time and discarded, so nothing in a send will report this again. " +++
  (if held
   then "An account on this deployment holds this address, so that account can no longer be sent a sign-in code and cannot sign in at all." : jstr
   else "No account here holds this address — a mistyped invitation is the usual cause, and the person who typed it has no way to learn that.") +++
  " Clear the address from the provider’s suppression list once the cause is fixed, or reach the person another way.".

(** [verdictOf]: [None] is an address the provider never complained about. *)
Definition verdictOf (email : jstr) (table : list MailAddressState) : option (MailAddressStateName * Z) :=
  row ← find_address (normaliseAddress email) table;
  Some (ms_state row, default (ms_lastEventAt row) (ms_rejectingSince row)).

Definition is_rejecting (row : MailAddressState) : bool := bool_decide (ms_state row = rejecting).

Definition undeliverable_status (table : list MailAddressState) : Z * option jstr :=
  let rows := List.filter is_rejecting table in
  (Z.of_nat (length rows),
   (fun row => toISOString (ms_lastEventAt row)) <$> head (sort_by (fun a b => ms_lastEventAt b <? ms_lastEventAt a) rows)).

(** ** The controller *)

Inductive webhook_answer := recorded (n : Z) | not_found_404 | rate_limited_429 (retryAfter : Z) | unauthorized_401.

Definition webhook_bucket (ip : jstr) : jstr := "mail-webhook:ip:" +++ ip.

Definition resend (config_secret : option jstr) (webhooksPerMinute : Z) (held : jstr -> bool) (uuid : jstr -> jstr) (ip : jstr)
    (headers : SvixHeaders) (rawBody : list N) (now : Z) (buckets : Buckets) (table : list MailAddressState)
    : Buckets * list MailAddressState * list mail_line * webhook_answer :=
  match present config_secret with
  | None => (buckets, table, [], not_found_404)
  | Some secret =>
      let '(buckets, decision) := consume sweep (webhook_bucket ip) {| rq_cost := 1; rq_limitPerMinute := webhooksPerMinute |} now buckets in
      if negb (rd_allowed decision) then (buckets, table, [], rate_limited_429 (rd_retryAfterSeconds decision))
      else if negb (verifyResendSignature secret rawBody headers now) then (buckets, table, [], unauthorized_401)
      else
        let events := parseResendDelivery rawBody now in
        let '(table, lines) := foldl (fun '(table, lines) event =>
            let '(table', new) := record_event held (uuid (me_email event)) now event (default (Js []) (sh_id headers)) table in
            (table', lines ++ new)) (table, []) events in
        (buckets, table, lines, recorded (Z.of_nat (length events)))
  end.
End Webhook.

(** ** Lemmas: the table of addresses *)

Section Addresses.
Context `{WebhookPlatform}.








Definition about (email : jstr) (event : MailProviderEvent) : Prop := normaliseAddress (me_email event) = email.

#[export] Instance about_dec email event : Decision (about email event).
Proof. unfold about. apply _. Defined.





Lemma empty_address e : jlength e = 0 <-> e = Js [].
Proof. destruct e as [[|c u]]; unfold jlength; cbn; split; (done || lia). Qed.

End Addresses.

(** ** The row is the history *)

(** The run of elements at the end of a list that satisfy a test. *)
Definition trailing {A} (p : A -> bool) (l : list A) : list A := foldl (fun run x => if p x then run ++ [x] else []) [] l.

Lemma trailing_snoc {A} (p : A -> bool) l x : trailing p (l ++ [x]) = if p x then trailing p l ++ [x] else [].
Proof. unfold trailing. by rewrite foldl_app. Qed.

Lemma trailing_spec {A} (p : A -> bool) l : exists pre, l = pre ++ trailing p l /\ Forall (fun x => p x = true) (trailing p l) /\
  match last pre with Some x => p x = false | None => True end.
Proof.
  induction l as [|x l (pre & E & Hall & Hlast)] using rev_ind; [by exists []|]. rewrite trailing_snoc. destruct (p x) eqn:Ep.
  - exists pre. split_and!; [by rewrite E at 1; rewrite <- app_assoc| |done]. apply Forall_app. split; [done|by constructor].
  - exists (l ++ [x]). rewrite app_nil_r, last_snoc. done.
Qed.



Section History.
Context `{WebhookPlatform} (held : jstr -> bool).

(** A call of [record]: what is drawn, the clock, the event and its delivery. *)
Record mail_call := { mc_uuid : jstr; mc_now : Z; mc_event : MailProviderEvent; mc_deliveryId : jstr }.

Definition record_all (calls : list mail_call) (table : list MailAddressState) : list MailAddressState :=
  foldl (fun table c => fst (record_event held (mc_uuid c) (mc_now c) (mc_event c) (mc_deliveryId c) table)) table calls.




















End History.

(** ** The signature of a delivery *)

(** A delivery is taken exactly when its three headers are there, its timestamp is within
    five minutes of the clock, and one version-1 entry is the HMAC, under the decoded
    secret, of the id, the timestamp and the body as they came. *)
Theorem delivery_is_signed_and_recent `{WebhookPlatform} secret rawBody headers now :
  verifyResendSignature secret rawBody headers now = true <->
  exists id timestamp signature sentAt entry rest value,
    sh_id headers = Some id /\ sh_timestamp headers = Some timestamp /\ sh_signature headers = Some signature /\
    id <> Js [] /\ timestamp <> Js [] /\ signature <> Js [] /\
    Number_of_text other_number timestamp = Some sentAt /\ (Qabs (inject_Z now - sentAt * 1000) <= inject_Z TIMESTAMP_TOLERANCE_MS)%Q /\
    entry ∈ jsplit 32%N signature /\ jsplit 44%N entry = ("v1" : jstr) :: value :: rest /\ value <> Js [] /\
    from_base64url (units value) = hmac_sha256 (secret_key secret) (signed_content id timestamp rawBody).
Proof.
  assert (Hpresent : forall h s, present h = Some s <-> h = Some s /\ s <> Js []).
  { intros [h|] s; cbn; [|split; [done|by intros [? _]]]. destruct (Z.eqb_spec (jlength h) 0) as [E|E]; rewrite empty_address in E.
    - split; [done|]. intros [[= ->] Hne]. done.
    - split; [by intros [= ->]|by intros [[= ->] _]]. }
  assert (Hentry : forall expected entry, entry_matches expected entry = true <->
    exists value rest, jsplit 44%N entry = ("v1" : jstr) :: value :: rest /\ value <> Js [] /\ from_base64url (units value) = expected).
  { intros expected entry. unfold entry_matches. destruct (jsplit 44%N entry) as [|v [|value rest]]; [split; [done|by intros (? & ? & ? & _)]..|].
    rewrite !andb_true_iff, jeqb_eq, negb_true_iff, Z.eqb_neq, empty_address, bool_decide_eq_true. naive_solver. }
  unfold verifyResendSignature. split.
  - destruct (present (sh_id headers)) as [id|] eqn:E1; [|done]. destruct (present (sh_timestamp headers)) as [timestamp|] eqn:E2; [|done].
    destruct (present (sh_signature headers)) as [signature|] eqn:E3; [|done]. apply Hpresent in E1 as [E1 N1], E2 as [E2 N2], E3 as [E3 N3].
    destruct (Number_of_text _ _) as [sentAt|] eqn:En; [|done]. destruct (in_tolerance now sentAt) eqn:Et; [|done]. cbn [negb].
    intros (entry & Hin%list_elem_of_In & (value & rest & Hs & Hv & Hm)%Hentry)%existsb_exists.
    exists id, timestamp, signature, sentAt, entry, rest, value. split_and!; try done. by apply Qle_bool_iff.
  - intros (id & timestamp & signature & sentAt & entry & rest & value & E1 & E2 & E3 & N1 & N2 & N3 & En & Ht & Hin & Hs & Hv & Hm).
    rewrite (proj2 (Hpresent _ id)), (proj2 (Hpresent _ timestamp)), (proj2 (Hpresent _ signature)), En by done.
    assert (Et : in_tolerance now sentAt = true) by (by apply Qle_bool_iff). rewrite Et. cbn [negb].
    apply existsb_exists. exists entry. split; [by apply list_elem_of_In|]. apply Hentry. by exists value, rest.
Qed.

(** ** Examples *)

#[local] Instance sample_webhooks : WebhookPlatform :=
  {| hmac_sha256 key message := take 3 (key ++ message); text_bytes := units; bytes_text := Js;
     toLowerCase s := Js (map lower_unit (units s)); parse_date _ := None; other_number _ := None |}.

Definition sample_event (kind : MailEventKind) (permanent : bool) (occurredAt : Z) : MailProviderEvent :=
  {| me_kind := kind; me_email := "Ann <Ann@Mail.test> "; me_permanent := permanent; me_occurredAt := occurredAt; me_detail := None; me_messageId := None |}.

Definition sample_call (id : jstr) (kind : MailEventKind) (permanent : bool) (at_time : Z) : mail_call :=
  {| mc_uuid := "u" +++ id; mc_now := at_time; mc_event := sample_event kind permanent at_time; mc_deliveryId := id |}.


Definition no_account (_ : jstr) : bool := false.



(** A delivery sent again after another one was applied is applied again: the one id kept
    is that of the last. *)
Example a_late_redelivery_counts_twice :
  let calls := [sample_call "1" bounced true 1; sample_call "2" bounced true 2; sample_call "1" bounced true 1] in
  ms_failures <$> find_address "ann@mail.test" (record_all no_account calls []) = Some 3 /\
  ms_lastEventAt <$> find_address "ann@mail.test" (record_all no_account calls []) = Some 1.
Proof. vm_compute. split; reflexivity. Qed.

Example a_signed_delivery :
  verifyResendSignature "whsec_AQID" [] {| sh_id := Some ("d" : jstr); sh_timestamp := Some ("100" : jstr); sh_signature := Some ("v0,AQID v1,AQID" : jstr) |} 400000 = true /\
  verifyResendSignature "whsec_AQID" [] {| sh_id := Some ("d" : jstr); sh_timestamp := Some ("100" : jstr); sh_signature := Some ("v1,AQID" : jstr) |} 400001 = false.
Proof. vm_compute. split; reflexivity. Qed.
