(* ===== verification/MailService.v ===== *)
(** * Sending mail

    [mail/mail.service.ts], [mail/recipient-window.ts], [mail/mail-settings.ts],
    [mail/email-code-throttle.ts] and the choice of a transport in
    [mail/mail-transport.ts].  What a provider answers is an argument; the words of a
    message ([templates.ts]) are not modelled, only whom it goes to and what it
    carries. *)

From S2P Require Import Prelude JsString JsDate RateLimiter OperatorAlerts MailDelivery.

(** ** At most so many per address and hour *)

Definition WINDOW_SWEEP_THRESHOLD : Z := 10000.

Abbreviation admissions := (gmap jstr (list Z)).

Definition recent_of (windowMs now : Z) (times : list Z) : list Z := List.filter (fun t => now - t <? windowMs) times.

Definition window_sweep (windowMs now : Z) (admitted : admissions) : admissions :=
  if Z.of_nat (size admitted) <? WINDOW_SWEEP_THRESHOLD then admitted
  else filter (fun kv : jstr * list Z => forallb (fun t => windowMs <=? now - t) (snd kv) = false) admitted.

Section Window.
Context `{WebhookPlatform}.

(** The key of an address: [trim().toLowerCase()]. *)
Definition window_key (key : jstr) : jstr := toLowerCase (jtrim key).

Definition window_admit (limit windowMs : Z) (key : jstr) (now : Z) (admitted : admissions) : admissions * bool :=
  let normalized := window_key key in
  let recent := recent_of windowMs now (default [] (admitted !! normalized)) in
  if limit <=? Z.of_nat (length recent) then (<[normalized := recent]> admitted, false)
  else (<[normalized := recent ++ [now]]> (window_sweep windowMs now admitted), true).
End Window.

(** ** Settings *)

Inductive MailProvider := provider_none | provider_console | provider_resend | provider_smtp.
Inductive SmtpSecurity := starttls | tls | no_tls.

#[global] Instance mail_provider_eq_dec : EqDecision MailProvider.
Proof. solve_decision. Defined.

Record SmtpConfig := {
  sc_host : jstr; sc_port : option Z; sc_security : SmtpSecurity; sc_user : option jstr; sc_password : option jstr; sc_connectTimeout : Z
}.

(** [mail], [auth.magicLink] and [server], as [resolveMailSettings] reads them. *)
Record MailConfig := {
  mf_provider : option MailProvider; mf_from : option jstr; mf_fromName : jstr; mf_replyTo : option jstr; mf_consoleUrl : option jstr;
  mf_resendApiKey : option jstr; mf_webhookSecret : option jstr; mf_smtp : option SmtpConfig;
  mf_legacyMailer : MailProvider; mf_legacyFrom : jstr; mf_legacyResendApiKey : option jstr; mf_magicLinkEnabled : option bool;
  mf_validClientOrigins : list jstr; mf_publicBaseUrl : jstr
}.

Record SmtpSettings := {
  st_host : jstr; st_port : Z; st_security : SmtpSecurity; st_user : option jstr; st_password : option jstr; st_connectTimeoutMs : Z
}.

Record MailSettings := {
  se_provider : MailProvider; se_from : jstr; se_fromName : jstr; se_replyTo : option jstr; se_consoleUrl : jstr;
  se_resendApiKey : option jstr; se_webhookSecret : option jstr; se_smtp : option SmtpSettings
}.

Definition DEFAULT_SMTP_PORT (s : SmtpSecurity) : Z := match s with starttls => 587 | tls => 465 | no_tls => 25 end.

Definition blankToUndefined (value : option jstr) : option jstr := value ≫= fun v => present (Some (jtrim v)).

Definition consoleUrlOf (explicit : option jstr) (validClientOrigins : list jstr) (publicBaseUrl : jstr) : jstr :=
  without_trailing_slashes
    (default publicBaseUrl (or_else explicit (find_first (fun o => negb (jeqb o "*")) validClientOrigins))).

Definition resolveMailSettings (c : MailConfig) : MailSettings :=
  let fromLegacy := match mf_provider c with None => true | Some _ => false end in
  {| se_provider := default (mf_legacyMailer c) (mf_provider c);
     se_from := default (mf_legacyFrom c) (mf_from c);
     se_fromName := mf_fromName c;
     se_replyTo := mf_replyTo c;
     se_consoleUrl := consoleUrlOf (mf_consoleUrl c) (mf_validClientOrigins c) (mf_publicBaseUrl c);
     se_resendApiKey := or_else (mf_resendApiKey c) (if fromLegacy then blankToUndefined (mf_legacyResendApiKey c) else None);
     se_webhookSecret := mf_webhookSecret c;
     se_smtp := (fun s => {| st_host := sc_host s; st_port := default (DEFAULT_SMTP_PORT (sc_security s)) (sc_port s);
                             st_security := sc_security s; st_user := sc_user s; st_password := sc_password s;
                             st_connectTimeoutMs := sc_connectTimeout s |}) <$> mf_smtp c |}.

Definition supportEmailOf (c : MailConfig) : option jstr := se_replyTo (resolveMailSettings c).
Definition mailEnabled (c : MailConfig) : bool := negb (bool_decide (se_provider (resolveMailSettings c) = provider_none)).
Definition magicLinkEnabled (c : MailConfig) : bool := mailEnabled c && default true (mf_magicLinkEnabled c).
Definition emailCodeEnabled (c : MailConfig) : bool := mailEnabled c.

(** ** The transport *)

Inductive transport_kind := disabled_transport | console_transport | resend_transport (key from : jstr) | smtp_transport (smtp : SmtpSettings) (from : jstr).
Inductive transport_error := console_in_production | resend_without_key | smtp_without_host.

Definition formatSender (s : MailSettings) : jstr :=
  let name := Js (List.filter (fun c => negb (existsb (N.eqb c) [34; 92; 13; 10]%N)) (units (se_fromName s))) in
  Js [34%N] +++ name +++ Js [34%N] +++ " <" +++ se_from s +++ ">".

Definition createMailTransport (s : MailSettings) (nodeEnv : option jstr) : result transport_error transport_kind :=
  let from := formatSender s in
  match se_provider s with
  | provider_none => Ok disabled_transport
  | provider_console => if bool_decide (nodeEnv = Some ("production" : jstr)) then Err console_in_production else Ok console_transport
  | provider_resend => match present (se_resendApiKey s) with Some key => Ok (resend_transport key from) | None => Err resend_without_key end
  | provider_smtp => match se_smtp s with Some smtp => Ok (smtp_transport smtp from) | None => Err smtp_without_host end
  end.

Record SmtpOptions := {
  so_host : jstr; so_port : Z; so_secure : bool; so_requireTLS : bool; so_ignoreTLS : bool; so_auth : option (jstr * jstr);
  so_connectionTimeout : Z; so_greetingTimeout : Z; so_socketTimeout : Z
}.

Definition smtpTransportOptions (s : SmtpSettings) : SmtpOptions :=
  {| so_host := st_host s; so_port := st_port s;
     so_secure := match st_security s with tls => true | _ => false end;
     so_requireTLS := match st_security s with starttls => true | _ => false end;
     so_ignoreTLS := match st_security s with no_tls => true | _ => false end;
     so_auth := (fun user => (user, default (Js []) (st_password s))) <$> present (st_user s);
     so_connectionTimeout := st_connectTimeoutMs s; so_greetingTimeout := st_connectTimeoutMs s;
     so_socketTimeout := st_connectTimeoutMs s * 3 |}.

(** ** The service *)

Inductive MailKind := magic_link | sign_in_code | welcome | operator_alert.

#[global] Instance mail_kind_eq_dec : EqDecision MailKind.
Proof. solve_decision. Defined.

Inductive MailState := mail_disabled | mail_unverified | mail_ok | mail_failing (reason : MailFailureReason).

Record MailStatus := { mst_provider : MailProvider; mst_state : MailState; mst_since : option Z }.

(** A message handed to the transport, and when. *)
Record Sent := { sn_to : jstr; sn_kind : MailKind; sn_link : option jstr; sn_code : option jstr; sn_at : Z }.

Record MailService := {
  ml_settings : MailSettings;
  ml_mailsPerAddressPerHour : Z;
  ml_codeWindow : admissions;
  ml_current : MailStatus;
  ml_outbox : list Sent
}.

Definition HOUR_MS : Z := 3600000.

Definition mail_started (s : MailSettings) (perHour : Z) : MailService :=
  {| ml_settings := s; ml_mailsPerAddressPerHour := perHour; ml_codeWindow := ∅;
     ml_current := {| mst_provider := se_provider s;
                      mst_state := if decide (se_provider s = provider_none) then mail_disabled else mail_unverified; mst_since := None |};
     ml_outbox := [] |}.

Definition mail_enabled (m : MailService) : bool := negb (bool_decide (se_provider (ml_settings m) = provider_none)).

Definition record_status (m : MailService) (state : MailState) (now : Z) : MailService :=
  {| ml_settings := ml_settings m; ml_mailsPerAddressPerHour := ml_mailsPerAddressPerHour m; ml_codeWindow := ml_codeWindow m;
     ml_current := {| mst_provider := se_provider (ml_settings m); mst_state := state; mst_since := Some now |}; ml_outbox := ml_outbox m |}.

Definition with_window (m : MailService) (w : admissions) : MailService :=
  {| ml_settings := ml_settings m; ml_mailsPerAddressPerHour := ml_mailsPerAddressPerHour m; ml_codeWindow := w;
     ml_current := ml_current m; ml_outbox := ml_outbox m |}.

Definition posted (m : MailService) (message : Sent) : MailService :=
  {| ml_settings := ml_settings m; ml_mailsPerAddressPerHour := ml_mailsPerAddressPerHour m; ml_codeWindow := ml_codeWindow m;
     ml_current := ml_current m; ml_outbox := ml_outbox m ++ [message] |}.

Section Service.
Context `{WebhookPlatform} (send : Sent -> option MailError).    (* [None]: accepted *)

(** [deliver]; the answer is the error a caller that asked to rethrow sees. *)
Definition deliver (message : Sent) (rethrow : bool) (m : MailService) : MailService * option MailError :=
  let m := posted m message in
  match send message with
  | None => (record_status m mail_ok (sn_at message), None)
  | Some error => (record_status m (mail_failing (failureReasonOf error)) (sn_at message), if rethrow then Some error else None)
  end.

Definition sendMagicLink (email url : jstr) (now : Z) (m : MailService) : MailService * option MailError :=
  deliver {| sn_to := email; sn_kind := magic_link; sn_link := Some url; sn_code := None; sn_at := now |} true m.

Definition sendSignInCode (email code : jstr) (now : Z) (m : MailService) : MailService * option MailError :=
  let '(w, admitted) := window_admit (ml_mailsPerAddressPerHour m) HOUR_MS email now (ml_codeWindow m) in
  let m := with_window m w in
  if admitted then deliver {| sn_to := email; sn_kind := sign_in_code; sn_link := None; sn_code := Some code; sn_at := now |} true m
  else (m, None).

Definition sendWelcome (email : jstr) (now : Z) (m : MailService) : MailService :=
  if negb (mail_enabled m) || undeliverable email then m
  else fst (deliver {| sn_to := email; sn_kind := welcome; sn_link := Some (se_consoleUrl (ml_settings m)); sn_code := None; sn_at := now |} false m).

(** [sendOperatorAlert]: one message each, a refusal of one not stopping the next. *)
Definition alert_each (now : Z) (address : jstr) (md : MailService * OperatorAlertDelivery) : MailService * OperatorAlertDelivery :=
  let '(m, d) := md in
  let message := {| sn_to := address; sn_kind := operator_alert; sn_link := None; sn_code := None; sn_at := now |} in
  match send message with
  | None => (record_status (posted m message) mail_ok now,
             {| dl_attempted := dl_attempted d; dl_delivered := dl_delivered d ++ [address]; dl_failed := dl_failed d; dl_skipped := None |})
  | Some error => (record_status (posted m message) (mail_failing (failureReasonOf error)) now,
                   {| dl_attempted := dl_attempted d; dl_delivered := dl_delivered d; dl_failed := dl_failed d ++ [(address, failureReasonOf error)]; dl_skipped := None |})
  end.

Definition mail_operator_alert (recipients : list jstr) (now : Z) (m : MailService) : MailService * OperatorAlertDelivery :=
  if negb (mail_enabled m) then (m, {| dl_attempted := 0; dl_delivered := []; dl_failed := []; dl_skipped := Some no_provider |})
  else match addressees recipients with
       | [] => (m, {| dl_attempted := 0; dl_delivered := []; dl_failed := []; dl_skipped := Some no_recipients |})
       | to => foldl (fun md a => alert_each now a md)
                 (m, {| dl_attempted := Z.of_nat (length to); dl_delivered := []; dl_failed := []; dl_skipped := None |}) to
       end.

(** The check at boot, of an SMTP server alone: [verify] is what it answers. *)
Definition onApplicationBootstrap (verify : option MailError) (now : Z) (m : MailService) : MailService :=
  if negb (bool_decide (se_provider (ml_settings m) = provider_smtp)) then m
  else record_status m (match verify with None => mail_ok | Some error => mail_failing (failureReasonOf error) end) now.

Inductive mail_request :=
| ask_code (email code : jstr) (at_time : Z)
| ask_link (email url : jstr) (at_time : Z)
| greet (email : jstr) (at_time : Z)
| alert_operators (recipients : list jstr) (at_time : Z).

Definition request_time (r : mail_request) : Z :=
  match r with ask_code _ _ t | ask_link _ _ t | greet _ t | alert_operators _ t => t end.

Definition serve_mail (r : mail_request) (m : MailService) : MailService :=
  match r with
  | ask_code email code t => fst (sendSignInCode email code t m)
  | ask_link email url t => fst (sendMagicLink email url t m)
  | greet email t => sendWelcome email t m
  | alert_operators recipients t => fst (mail_operator_alert recipients t m)
  end.
End Service.

(** ** In front of the two routes of an emailed code *)

Inductive throttle_answer := passed_on | too_many (retryAfter : Z) (message : jstr).

Definition throttle_bucket (bucket : jstr) (ip : option jstr) : jstr := "email-code:" +++ bucket +++ ":ip:" +++ default ("unknown" : jstr) ip.

Definition throttle (bucket message : jstr) (requestsPerMinute : Z) (method : jstr) (ip : option jstr) (now : Z) (buckets : Buckets)
    : Buckets * throttle_answer :=
  if negb (jeqb method "POST") then (buckets, passed_on)
  else
    let '(buckets, d) := consume sweep (throttle_bucket bucket ip) {| rq_cost := 1; rq_limitPerMinute := requestsPerMinute |} now buckets in
    (buckets, if rd_allowed d then passed_on else too_many (rd_retryAfterSeconds d) message).

Definition throttle_send := throttle "send" "Too many sign-in codes requested. Try again in a minute.".
Definition throttle_sign_in := throttle "sign-in" "Too many sign-in attempts. Try again in a minute.".

(** ** Lemmas: the window *)

Section WindowBound.
Context `{WebhookPlatform} (limit windowMs : Z).

Definition within (s : Z) (t : Z) : bool := (s <=? t) && (t <? s + windowMs).

(** The map holds, of each key, the admissions that still count. *)
Definition window_holds (now : Z) (admitted : admissions) (times : jstr -> list Z) : Prop :=
  forall k, (forall t, t ∈ times k -> t <= now) /\
    recent_of windowMs now (default [] (admitted !! k)) = recent_of windowMs now (times k).

Lemma recent_later now now' l : now <= now' -> recent_of windowMs now' (recent_of windowMs now l) = recent_of windowMs now' l.
Proof.
  intros Hle. unfold recent_of. induction l as [|t l IH]; [done|]. cbn [List.filter].
  destruct (Z.ltb_spec (now - t) windowMs), (Z.ltb_spec (now' - t) windowMs); cbn [List.filter];
    destruct (Z.ltb_spec (now' - t) windowMs); try lia; by rewrite IH.
Qed.

Lemma recent_app now l l' : recent_of windowMs now (l ++ l') = recent_of windowMs now l ++ recent_of windowMs now l'.
Proof. apply List.filter_app. Qed.

Lemma window_holds_later now now' admitted times : now <= now' -> window_holds now admitted times -> window_holds now' admitted times.
Proof.
  intros Hle Hw k. destruct (Hw k) as [H1 H2]. split; [intros t Ht; specialize (H1 t Ht); lia|].
  rewrite <- (recent_later now now' (times k)), <- H2, recent_later by done. done.
Qed.

Lemma recent_expired now l : forallb (fun t => windowMs <=? now - t) l = true -> recent_of windowMs now l = [].
Proof.
  intros Hl. apply filter_nothing. apply Forall_forall. intros t Ht. rewrite forallb_forall in Hl.
  specialize (Hl t (proj1 (list_elem_of_In _ _) Ht)). lia.
Qed.

Lemma window_sweep_same now admitted k :
  recent_of windowMs now (default [] (window_sweep windowMs now admitted !! k)) = recent_of windowMs now (default [] (admitted !! k)).
Proof.
  unfold window_sweep. destruct (_ <? _); [done|]. destruct (admitted !! k) as [l|] eqn:E; cbn [default from_option id].
  - destruct (forallb (fun t => windowMs <=? now - t) l) eqn:Ef.
    + rewrite (recent_expired _ _ Ef). destruct (filter _ admitted !! k) as [l'|] eqn:E'; [|done]. cbn.
      apply map_lookup_filter_Some in E' as [E' Hf]. rewrite E in E'. injection E' as <-. cbn in Hf. congruence.
    + rewrite (proj2 (map_lookup_filter_Some _ _ k l)); [done|]. by split.
  - by rewrite (proj2 (map_lookup_filter_None _ _ k)) by (by left).
Qed.

(** One request, and the admissions it adds. *)
Definition times_after (key : jstr) (now : Z) (admitted : bool) (times : jstr -> list Z) : jstr -> list Z :=
  fun k => if admitted && jeqb (window_key key) k then times k ++ [now] else times k.

Lemma window_admit_holds key now admitted times : window_holds now admitted times ->
  let '(admitted', ok) := window_admit limit windowMs key now admitted in
  window_holds now admitted' (times_after key now ok times) /\
  (ok = true -> Z.of_nat (length (recent_of windowMs now (times (window_key key)))) < limit).
Proof.
  intros Hw. unfold window_admit. set (n := window_key key). destruct (Hw n) as [_ Hn].
  destruct (Z.leb_spec limit (Z.of_nat (length (recent_of windowMs now (default [] (admitted !! n)))))) as [Hle|Hlt].
  - split; [|done]. intros k. unfold times_after. cbn [andb]. destruct (Hw k) as [H1 H2]. split; [done|].
    destruct (decide (n = k)) as [<-|Hne]; [|by rewrite lookup_insert_ne]. rewrite lookup_insert_eq. cbn [default from_option id]. by rewrite recent_later.
  - split; [|by rewrite <- Hn]. intros k. unfold times_after. cbn [andb]. fold n. destruct (Hw k) as [H1 H2]. destruct (decide (n = k)) as [<-|Hne].
    + rewrite jeqb_refl, lookup_insert_eq. cbn [default from_option id]. split; [intros t [Ht| ->%list_elem_of_singleton]%elem_of_app; [by apply H1|lia]|].
      by rewrite !recent_app, recent_later, H2 by done.
    + rewrite (proj2 (jeqb_neq n k) Hne), lookup_insert_ne by done. split; [done|]. by rewrite window_sweep_same.
Qed.

Lemma filter_length_le {A} (p q : A -> bool) l : (forall x, x ∈ l -> p x = true -> q x = true) ->
  (length (List.filter p l) <= length (List.filter q l))%nat.
Proof.
  induction l as [|x l IH]; intros Hpq; [done|]. cbn. specialize (IH (fun y Hy => Hpq y (proj2 (elem_of_cons _ _ _) (or_intror Hy)))).
  destruct (p x) eqn:Ep; [rewrite (Hpq x) by (done || by left); cbn; lia|]. destruct (q x); cbn; lia.
Qed.

(** Nothing in any window exceeds the limit, when nothing did before. *)
Lemma window_bound_step key now (ok : bool) times s : (forall k t, t ∈ times k -> t <= now) ->
  (ok = true -> Z.of_nat (length (recent_of windowMs now (times (window_key key)))) < limit) ->
  (forall k, Z.of_nat (length (List.filter (within s) (times k))) <= limit) ->
  forall k, Z.of_nat (length (List.filter (within s) (times_after key now ok times k))) <= limit.
Proof.
  intros Hold Hok Hb k. unfold times_after. destruct ok; [|by apply Hb]. cbn [andb]. destruct (jeqb (window_key key) k) eqn:E; [|by apply Hb].
  apply jeqb_eq in E as <-. specialize (Hok eq_refl). rewrite List.filter_app, length_app. cbn [List.filter].
  destruct (within s now) eqn:Ew; cbn [length]; [|specialize (Hb (window_key key)); lia].
  apply andb_true_iff in Ew as [Es%Z.leb_le Ee%Z.ltb_lt].
  pose proof (filter_length_le (within s) (fun t => now - t <? windowMs) (times (window_key key))) as Hlen.
  assert (H' : forall t, t ∈ times (window_key key) -> within s t = true -> (now - t <? windowMs) = true).
  { intros t Ht [H1%Z.leb_le H2%Z.ltb_lt]%andb_true_iff. apply Z.ltb_lt. lia. }
  specialize (Hlen H'). unfold recent_of in Hok. lia.
Qed.
End WindowBound.

(** ** Codes to one address *)

(** When a code was handed to the transport for an address. *)
Definition code_times `{WebhookPlatform} (outbox : list Sent) (k : jstr) : list Z :=
  map sn_at (List.filter (fun m => bool_decide (sn_kind m = sign_in_code) && jeqb (window_key (sn_to m)) k) outbox).

Section Codes.
Context `{WebhookPlatform} (send : Sent -> option MailError).

Record mail_service_ok (now : Z) (m : MailService) : Prop := {
  mo_window : window_holds HOUR_MS now (ml_codeWindow m) (code_times (ml_outbox m));
  mo_bound : forall s k, Z.of_nat (length (List.filter (within HOUR_MS s) (code_times (ml_outbox m) k))) <= ml_mailsPerAddressPerHour m
}.

Lemma code_times_snoc outbox message k : code_times (outbox ++ [message]) k =
  if bool_decide (sn_kind message = sign_in_code) && jeqb (window_key (sn_to message)) k then code_times outbox k ++ [sn_at message] else code_times outbox k.
Proof.
  unfold code_times. rewrite List.filter_app, map_app. cbn. destruct (_ && _); [done|]. by rewrite app_nil_r.
Qed.

(** Another kind of message changes no count. *)
Lemma other_mail_ok now m m' message : sn_kind message <> sign_in_code -> ml_outbox m' = ml_outbox m ++ [message] ->
  ml_codeWindow m' = ml_codeWindow m -> ml_mailsPerAddressPerHour m' = ml_mailsPerAddressPerHour m -> mail_service_ok now m -> mail_service_ok now m'.
Proof.
  intros Hk Ho Hw Hl [H1 H2].
  assert (E : forall k, code_times (ml_outbox m') k = code_times (ml_outbox m) k) by (intros k; rewrite Ho, code_times_snoc; by rewrite bool_decide_false).
  split; [intros k; rewrite Hw, E; apply H1|intros s k; rewrite E, Hl; apply H2].
Qed.

Lemma deliver_fields message rethrow m : let m' := fst (deliver send message rethrow m) in
  ml_outbox m' = ml_outbox m ++ [message] /\ ml_codeWindow m' = ml_codeWindow m /\
  ml_mailsPerAddressPerHour m' = ml_mailsPerAddressPerHour m.
Proof. unfold deliver. by destruct (send message). Qed.

Lemma alert_each_fields now a m d : let m' := fst (alert_each send now a (m, d)) in
  exists message, sn_kind message = operator_alert /\ ml_outbox m' = ml_outbox m ++ [message] /\ ml_codeWindow m' = ml_codeWindow m /\
  ml_mailsPerAddressPerHour m' = ml_mailsPerAddressPerHour m.
Proof. unfold alert_each. destruct (send _); (eexists; split; [|split; [reflexivity|by split]]); reflexivity. Qed.

Lemma code_request_ok email code now m : mail_service_ok now m -> mail_service_ok now (fst (sendSignInCode send email code now m)).
Proof.
  intros [Hw Hb]. unfold sendSignInCode.
  pose proof (window_admit_holds (ml_mailsPerAddressPerHour m) HOUR_MS email now _ _ Hw) as Hadm.
  destruct (window_admit _ _ _ _ _) as [w ok]. destruct Hadm as [Hw' Hok].
  destruct ok.
  - set (m' := fst (deliver send _ true (with_window m w))). destruct (deliver_fields {| sn_to := email; sn_kind := sign_in_code; sn_link := None; sn_code := Some code; sn_at := now |} true (with_window m w)) as (Ho & Hc & Hl).
    fold m' in Ho, Hc, Hl. cbn [with_window ml_outbox ml_codeWindow ml_mailsPerAddressPerHour] in Ho, Hc, Hl.
    assert (E : forall k, code_times (ml_outbox m') k = times_after email now true (code_times (ml_outbox m)) k).
    { intros k. rewrite Ho, code_times_snoc. cbn [sn_kind sn_to sn_at]. by rewrite bool_decide_true. }
    split.
    + intros k. rewrite Hc, E. apply Hw'.
    + intros s k. rewrite E, Hl. apply window_bound_step; [intros k' t; by apply (Hw k')|done|apply Hb].
  - split; [exact Hw'|exact Hb].
Qed.

Lemma serve_mail_ok r m : mail_service_ok (request_time r) m -> mail_service_ok (request_time r) (serve_mail send r m).
Proof.
  destruct r as [email code t|email url t|email t|recipients t]; cbn [request_time serve_mail].
  - apply code_request_ok.
  - unfold sendMagicLink. match goal with |- context [deliver send ?message true m] => destruct (deliver_fields message true m) as (Ho & Hc & Hl) end.
    intros Hm; eapply other_mail_ok; [|exact Ho|exact Hc|exact Hl|exact Hm]; done.
  - unfold sendWelcome. destruct (_ || _); [done|].
    match goal with |- context [deliver send ?message false m] => destruct (deliver_fields message false m) as (Ho & Hc & Hl) end.
    intros Hm; eapply other_mail_ok; [|exact Ho|exact Hc|exact Hl|exact Hm]; done.
  - unfold mail_operator_alert. destruct (negb _); [done|]. destruct (addressees recipients) as [|a0 to]; [done|].
    generalize {| dl_attempted := Z.of_nat (length (a0 :: to)); dl_delivered := []; dl_failed := []; dl_skipped := None |}.
    generalize (a0 :: to). intros l. revert m. induction l as [|a l IH]; intros m d Hok; [done|]. cbn [foldl].
    destruct (alert_each_fields t a m d) as (message & Hk & Ho & Hc & Hl). destruct (alert_each send t a (m, d)) as [m' d']. cbn [fst] in *.
    apply IH. eapply other_mail_ok; [|exact Ho|exact Hc|exact Hl|done]. by rewrite Hk.
Qed.

Lemma alert_all_limit t l md :
  ml_mailsPerAddressPerHour (fst (foldl (fun md a => alert_each send t a md) md l)) = ml_mailsPerAddressPerHour (fst md).
Proof.
  revert md. induction l as [|a l IH]; intros [m d]; [done|]. cbn [foldl]. rewrite IH.
  by destruct (alert_each_fields t a m d) as (? & _ & _ & _ & ->).
Qed.

Lemma serve_mail_limit r m : ml_mailsPerAddressPerHour (serve_mail send r m) = ml_mailsPerAddressPerHour m.
Proof.
  destruct r as [email code t|email url t|email t|recipients t]; cbn [serve_mail].
  - unfold sendSignInCode. destruct (window_admit _ _ _ _ _) as [w ok]. destruct ok; [|done]. unfold deliver. by destruct (send _).
  - unfold sendMagicLink, deliver. by destruct (send _).
  - unfold sendWelcome, deliver. destruct (_ || _); [done|]. by destruct (send _).
  - unfold mail_operator_alert. destruct (negb _); [done|]. destruct (addressees recipients); [done|]. apply alert_all_limit.
Qed.

Definition serve_mails (requests : list mail_request) (m : MailService) : MailService := foldl (fun m r => serve_mail send r m) m requests.

Lemma serve_mails_ok settings perHour requests : 0 <= perHour -> Sorted Z.le (map request_time requests) ->
  let m := serve_mails requests (mail_started settings perHour) in
  ml_mailsPerAddressPerHour m = perHour /\ forall now, (forall r, r ∈ requests -> request_time r <= now) -> mail_service_ok now m.
Proof.
  intros Hpos Hs. induction requests as [|r requests IH] using rev_ind; cbn zeta.
  { split; [done|]. intros now _. split; [intros k; cbn; split; [by intros t ?%elem_of_nil|by rewrite lookup_empty]|cbn; lia]. }
  rewrite map_app in Hs. apply Sorted_StronglySorted in Hs; [|exact Z.le_trans].
  destruct (IH (StronglySorted_Sorted (StronglySorted_app_1_l _ _ _ Hs))) as [Hl Hok]. unfold serve_mails in *.
  rewrite foldl_app. cbn [foldl]. set (m := foldl _ _ requests) in *.
  assert (Hpre : forall r', r' ∈ requests -> request_time r' <= request_time r).
  { intros r' Hr'. apply StronglySorted_app_1_elem_of with (x1 := request_time r') (x2 := request_time r) in Hs; [done| |cbn; set_solver].
    by apply (list_elem_of_fmap_2 request_time). }
  split; [by rewrite serve_mail_limit|].
  intros now Hnow. destruct (serve_mail_ok r m (Hok _ Hpre)) as [H1 H2]. split; [|done].
  eapply window_holds_later; [|exact H1]. apply Hnow. apply elem_of_app. right. by apply list_elem_of_singleton.
Qed.

Lemma requests_have_a_last (requests : list mail_request) : exists now, forall r, r ∈ requests -> request_time r <= now.
Proof.
  induction requests as [|r requests [now IH]]; [exists 0; by intros r ?%elem_of_nil|].
  exists (Z.max now (request_time r)). intros r' [->|Hr']%elem_of_cons; [lia|]. specialize (IH r' Hr'). lia.
Qed.

(** Two spellings of one inbox: the blanks around them and the case do not matter. *)
Definition same_inbox (a b : jstr) : bool := jeqb (toLowerCase (jtrim a)) (toLowerCase (jtrim b)).

(** The codes handed to the transport for an inbox in the hour from [s], however it was spelled. *)
Definition codes_in_hour (outbox : list Sent) (address : jstr) (s : Z) : list Sent :=
  List.filter (fun m => bool_decide (sn_kind m = sign_in_code) && same_inbox (sn_to m) address &&
                          (s <=? sn_at m) && (sn_at m <? s + 60 * 60 * 1000)) outbox.

Lemma codes_in_hour_times outbox address s :
  length (codes_in_hour outbox address s) = length (List.filter (within HOUR_MS s) (code_times outbox (toLowerCase (jtrim address)))).
Proof.
  unfold codes_in_hour, code_times, same_inbox, within. induction outbox as [|m outbox IH]; [done|]. cbn [List.filter].
  change (window_key (sn_to m)) with (toLowerCase (jtrim (sn_to m))). change HOUR_MS with (60 * 60 * 1000).
  destruct (bool_decide _ && jeqb _ _); cbn [andb map List.filter]; [|exact IH].
  destruct ((s <=? sn_at m) && (sn_at m <? s + 60 * 60 * 1000)); cbn [length]; by rewrite IH.
Qed.

(** C33. However requests come and whatever the provider answers, in no hour are more codes
    handed to the transport for one inbox than the configuration allows, all spellings of
    its address that differ in case or in the blanks around it taken together. *)
Theorem codes_per_address_are_bounded settings perHour requests : 0 <= perHour ->
  Sorted Z.le (map request_time requests) ->
  let m := serve_mails requests (mail_started settings perHour) in
  forall s address, Z.of_nat (length (codes_in_hour (ml_outbox m) address s)) <= perHour.
Proof.
  intros Hpos Hs m s address. destruct (serve_mails_ok settings perHour requests Hpos Hs) as [Hl Hok].
  destruct (requests_have_a_last requests) as [now Hnow]. rewrite <- Hl at 1. rewrite codes_in_hour_times. apply (mo_bound _ _ (Hok now Hnow)).
Qed.
End Codes.

(** ** A sample *)

#[local] Instance sample_mail_platform : WebhookPlatform :=
  {| hmac_sha256 key message := take 3 (key ++ message); text_bytes := units; bytes_text := Js;
     toLowerCase s := Js (map lower_unit (units s)); parse_date _ := None; other_number _ := None |}.

Definition sample_mail_settings : MailSettings :=
  {| se_provider := provider_resend; se_from := "noreply@mail.test"; se_fromName := "Router"; se_replyTo := None; se_consoleUrl := "https://console.test";
     se_resendApiKey := Some ("re_1" : jstr); se_webhookSecret := None; se_smtp := None |}.

(** The spelling of an address starts no window of its own, and a refusal by the provider still counts. *)
Definition sample_code_requests : list mail_request :=
  [ask_code "ann@mail.test" "111111" 10; ask_code " ANN@mail.test" "222222" 20; alert_operators ["ops@mail.test" : jstr] 20;
   ask_code "ann@mail.test" "333333" 30; ask_code "bob@mail.test" "444444" 40; ask_code "ann@mail.test" "555555" 3600010].

Example third_code_is_withheld :
  map sn_code (ml_outbox (serve_mails (fun _ => None) sample_code_requests (mail_started sample_mail_settings 2))) =
  [Some ("111111" : jstr); Some ("222222" : jstr); None; Some ("444444" : jstr); Some ("555555" : jstr)].
Proof. vm_compute. reflexivity. Qed.

Lemma codes_per_address_are_bounded_witness :
  let sent := codes_in_hour (ml_outbox (serve_mails (fun _ => None) sample_code_requests (mail_started sample_mail_settings 2))) "ANN@mail.test" 0 in
  map sn_to sent = ["ann@mail.test" : jstr; " ANN@mail.test"] /\ Z.of_nat (length sent) <= 2.
Proof.
  split; [vm_compute; reflexivity|].
  apply (codes_per_address_are_bounded (fun _ => None) sample_mail_settings 2 sample_code_requests); [lia|].
  repeat constructor; cbn; lia.
Defined.
