(* ===== verification/FeedbackForm.v ===== *)
(** * What the feedback form carries

    [feedback/feedback-token.ts], the signed statement the console puts in the form's
    hidden fields, and [feedback/typeform.ts], the provider's signature and the shape of
    its submissions.  The HMAC and the text codecs are those of [WebhookPlatform]. *)

From Stdlib Require Import QArith.
From Stdlib Require Qcanon.
From S2P Require Import Prelude JsString JsNumber Json EvidenceDigest SecretEnvelope MailDelivery.
Open Scope Z_scope.

(** ** The token *)

Definition VERSION : jstr := "v1".
Definition KEY_INFO : jstr := "feedback-form-token".

Record FeedbackTokenClaims := { fc_userId : jstr; fc_workspaceId : jstr; fc_issuedAt : Z }.

Inductive FeedbackTokenFailure := malformed_token | bad_signature | expired_token.

(** [Number.isSafeInteger], and the integer it is. *)
Definition safe_integer (q : Q) : option Z :=
  let r := Qred q in
  if (Qden r =? 1)%positive && (Z.abs (Qnum r) <=? 9007199254740991) then Some (Qnum r) else None.

(** [claims] of a payload whose signature held. *)
Definition payload_claims (other_number : jstr -> option Q) (payload : jstr) : option FeedbackTokenClaims :=
  match jsplit 58%N payload with
  | version :: userId :: workspaceId :: issuedAtText :: _ =>
      if negb (jeqb version VERSION) || (jlength userId =? 0) || (jlength workspaceId =? 0) then None
      else issuedAt ← (Number_of_text other_number issuedAtText ≫= safe_integer);
           Some {| fc_userId := userId; fc_workspaceId := workspaceId; fc_issuedAt := issuedAt |}
  | _ => None
  end.

Definition payloadOf (c : FeedbackTokenClaims) : jstr := jjoin ":" [VERSION; fc_userId c; fc_workspaceId c; jstring_of_Z (fc_issuedAt c)].

Section Token.
Context `{WebhookPlatform}.

Definition keyOf (secret : jstr) : list N := hmac_sha256 (text_bytes secret) (text_bytes KEY_INFO).

Definition sign (secret payload : jstr) : jstr := Js (base64UrlEncode (hmac_sha256 (keyOf secret) (text_bytes payload))).

Definition issueFeedbackToken (secret : jstr) (claims : FeedbackTokenClaims) : jstr :=
  Js (base64UrlEncode (text_bytes (payloadOf claims))) +++ "." +++ sign secret (payloadOf claims).

(** [equals]: same length and same bytes. *)
Definition same_bytes (expected actual : jstr) : bool := bool_decide (text_bytes expected = text_bytes actual).

Definition verifyFeedbackToken (secret token : jstr) (ttlMs now : Z) : result FeedbackTokenFailure FeedbackTokenClaims :=
  match jsplit 46%N token with
  | [body; signature] =>
      if (jlength body =? 0) || (jlength signature =? 0) then Err malformed_token
      else
        let payload := bytes_text (from_base64url (units body)) in
        if negb (same_bytes (sign secret payload) signature) then Err bad_signature
        else match payload_claims other_number payload with
             | None => Err malformed_token
             | Some claims =>
                 if (now <? fc_issuedAt claims) || (ttlMs <? now - fc_issuedAt claims) then Err expired_token else Ok claims
             end
  | _ => Err malformed_token
  end.

(** ** The provider *)

Definition FEEDBACK_TOKEN_FIELD : jstr := "t".
Definition SIGNATURE_PREFIX : jstr := "sha256=".

Record FeedbackDelivery := {
  fd_submissionId : jstr;
  fd_formId : option jstr;
  fd_token : option jstr;
  fd_submittedAt : Z;
  fd_answers : list json;
  fd_fields : list json
}.

Definition verifyTypeformSignature (secret : jstr) (rawBody : list N) (header : option jstr) : bool :=
  match header with
  | Some h =>
      jstartsWith h SIGNATURE_PREFIX &&
      bool_decide (from_base64url (units (jdrop (jlength SIGNATURE_PREFIX) h)) = hmac_sha256 (text_bytes secret) rawBody)
  | None => false
  end.

Definition parseTypeformDelivery `{JsonEngine} (rawBody : list N) (now : Z) : option FeedbackDelivery :=
  payload ← asRecord (json_parse (bytes_text rawBody));
  response ← asRecord (member "form_response" payload);
  if negb (is_text "form_response" (member "event_type" payload)) then None
  else
    submissionId ← present (as_string (member "token" response));
    let hidden := record_or_empty (member "hidden" response) in
    let definition := record_or_empty (member "definition" response) in
    Some {| fd_submissionId := submissionId;
            fd_formId := as_string (member "form_id" response);
            fd_token := as_string (member FEEDBACK_TOKEN_FIELD hidden);
            fd_submittedAt := default now (as_string (member "submitted_at" response) ≫= parse_date);
            fd_answers := default [] (array_items (member "answers" response));
            fd_fields := default [] (array_items (member "fields" definition)) |}.
End Token.

(** ** Lemmas *)

Definition without (c : N) (s : jstr) : bool := forallb (fun d => negb (d =? c)%N) (units s).

Lemma jsplit_app c s t : without c s = true -> jsplit c (s +++ Js [c] +++ t) = s :: jsplit c t.
Proof.
  intros Hs. unfold jsplit, japp. cbn [units]. change ([c] ++ units t) with (c :: units t). rewrite split_on_app.
  rewrite (split_on_none c (units s) Hs). cbn. by destruct s.
Qed.

Lemma jsplit_none c s : without c s = true -> jsplit c s = [s].
Proof. intros Hs. unfold jsplit. rewrite (split_on_none c (units s) Hs). cbn. by destruct s. Qed.

Lemma jsplit_two c s a b : jsplit c s = [a; b] -> s = a +++ Js [c] +++ b.
Proof.
  destruct s as [u]. unfold jsplit. cbn [units]. intros E. destruct a as [a], b as [b]. unfold japp. cbn [units]. f_equal.
  assert (E' : split_on c u = [a; b]).
  { destruct (split_on c u) as [|a' [|b' [|? ?]]]; try discriminate E. by injection E as -> ->. }
  clear E. revert a E'. induction u as [|d u IH]; intros a E; [done|]. cbn in E. destruct (N.eqb_spec d c) as [->|Hne].
  - injection E as <- E. cbn. f_equal. clear IH. revert b E. induction u as [|d u IH]; intros b E; [by injection E as <-|].
    cbn in E. destruct (d =? c)%N; [destruct u; cbn in E; repeat case_match; done|].
    destruct (split_on c u) as [|h t] eqn:Es; [injection E as <-|injection E as <- ->].
    + destruct u; cbn in Es; repeat case_match; done.
    + f_equal. by apply IH.
  - destruct (split_on c u) as [|h t] eqn:Es; [done|]. injection E as <- ->. cbn. f_equal. by apply IH.
Qed.

Lemma digits_without c n : is_digit c = false -> without c (Js (digits_of n)) = true.
Proof.
  intros Hc. apply (forallb_impl is_digit); [|apply digits_of_digit]. intros d Hd. apply negb_true_iff, N.eqb_neq. intros ->. congruence.
Qed.

Lemma b64url_without c bytes : is_b64url c = false -> bytes_ok bytes -> without c (Js (base64UrlEncode bytes)) = true.
Proof.
  intros Hc Hb. apply (forallb_impl is_b64url); [intros d Hd; apply negb_true_iff, N.eqb_neq; intros ->; congruence|].
  cbn [units]. unfold base64UrlEncode. rewrite url_safe_btoa by done. apply forallb_forall. intros d (v & <- & Hv)%in_map_iff.
  pose proof (sextets_lt bytes Hb) as Hs. rewrite List.Forall_forall in Hs. apply url_digit_spec, Hs, Hv.
Qed.

Lemma safe_integer_Z z : Z.abs z <= 9007199254740991 -> safe_integer (inject_Z z) = Some z.
Proof.
  intros Hz. unfold safe_integer. rewrite (Qcanon.Qred_identity (inject_Z z)) by (cbn; apply Z.gcd_1_r). cbn. by rewrite (proj2 (Z.leb_le _ _)).
Qed.

(** The payload of claims whose ids hold no colon reads back. *)
Lemma payload_claims_of other_number c : without 58 (fc_userId c) = true -> without 58 (fc_workspaceId c) = true ->
  fc_userId c <> Js [] -> fc_workspaceId c <> Js [] -> 0 <= fc_issuedAt c <= 9007199254740991 ->
  payload_claims other_number (payloadOf c) = Some c.
Proof.
  destruct c as [user ws t]. cbn [fc_userId fc_workspaceId fc_issuedAt]. intros Hu Hw Nu Nw Ht. unfold payload_claims, payloadOf. cbn [fc_userId fc_workspaceId fc_issuedAt jjoin].
  change (":" : jstr) with (Js [58%N]).
  rewrite (jsplit_app 58 VERSION) by reflexivity. rewrite jsplit_app, jsplit_app by done.
  assert (Et : jstring_of_Z t = Js (digits_of (Z.to_N t))) by (unfold jstring_of_Z; by rewrite (proj2 (Z.ltb_ge _ _)) by lia).
  rewrite Et, jsplit_none by (by apply digits_without). cbv iota. rewrite jeqb_refl.
  rewrite (proj2 (Z.eqb_neq (jlength user) 0)), (proj2 (Z.eqb_neq (jlength ws) 0)) by (by rewrite empty_address).
  cbn [negb orb]. rewrite Number_of_digits, Z2N.id by lia. cbn [mbind option_bind]. by rewrite safe_integer_Z by lia.
Qed.

Section TokenFacts.
Context `{WebhookPlatform}.

(** A token this deployment issued verifies, until it expires, to the claims it was
    issued for. *)
Theorem issued_token_verifies secret c ttlMs now :
  (forall s, bytes_ok (text_bytes s)) -> (forall key m, bytes_ok (hmac_sha256 key m)) ->
  bytes_text (text_bytes (payloadOf c)) = payloadOf c -> text_bytes (payloadOf c) <> [] ->
  (forall key m, hmac_sha256 key m <> []) ->
  without 58 (fc_userId c) = true -> without 58 (fc_workspaceId c) = true -> fc_userId c <> Js [] -> fc_workspaceId c <> Js [] ->
  0 <= fc_issuedAt c <= 9007199254740991 -> fc_issuedAt c <= now <= fc_issuedAt c + ttlMs ->
  verifyFeedbackToken secret (issueFeedbackToken secret c) ttlMs now = Ok c.
Proof.
  intros Hb Hm Hutf Hne Hmne Hu Hw Nu Nw Ht Hnow. unfold verifyFeedbackToken, issueFeedbackToken.
  change ("." : jstr) with (Js [46%N]). rewrite jsplit_app by (by apply b64url_without).
  rewrite jsplit_none by (by apply b64url_without).
  assert (Hlen : forall bytes, bytes_ok bytes -> bytes <> [] -> jlength (Js (base64UrlEncode bytes)) =? 0 = false).
  { intros bytes Hok Hn. apply Z.eqb_neq. rewrite empty_address. intros [= E]. apply Hn. rewrite <- (from_base64url_encode bytes) by done. by rewrite E. }
  unfold sign. rewrite !Hlen by done. cbn [orb units]. rewrite from_base64url_encode, Hutf by done.
  unfold same_bytes, sign. rewrite bool_decide_true by done. cbn [negb]. rewrite payload_claims_of by done.
  rewrite (proj2 (Z.ltb_ge _ _)), (proj2 (Z.ltb_ge _ _)) by lia. done.
Qed.

(** What an accepted token says: this deployment's key signed it, over the claims it
    names, and it is neither old nor from the future. *)
Lemma accepted_token_is_signed secret token ttlMs now c : verifyFeedbackToken secret token ttlMs now = Ok c ->
  exists payload signature body, jsplit 46%N token = [body; signature] /\ payload = bytes_text (from_base64url (units body)) /\
    text_bytes signature = text_bytes (sign secret payload) /\ payload_claims other_number payload = Some c /\
    fc_issuedAt c <= now <= fc_issuedAt c + ttlMs.
Proof.
  unfold verifyFeedbackToken. destruct (jsplit 46%N token) as [|body [|signature [|? ?]]]; try done.
  destruct (_ || _); [done|]. destruct (same_bytes _ _) eqn:Es; [|done]. cbn [negb].
  destruct (payload_claims _ _) as [claims|] eqn:Ec; [|done].
  destruct (_ || _) eqn:Et; [done|]. intros [= <-]. apply orb_false_iff in Et as [E1%Z.ltb_ge E2%Z.ltb_ge].
  exists (bytes_text (from_base64url (units body))), signature, body. apply bool_decide_eq_true in Es. split_and!; try done; lia.
Qed.
End TokenFacts.

(** ** A sample *)

#[local] Instance sample_form_platform : WebhookPlatform :=
  {| hmac_sha256 key message := map (fun c => c mod 256)%N (12%N :: take 6 (key ++ message)); text_bytes s := map (fun c => c mod 256)%N (units s);
     bytes_text := Js; toLowerCase s := s; parse_date _ := None; other_number _ := None |}.

Definition sample_claims : FeedbackTokenClaims := {| fc_userId := "user-1"; fc_workspaceId := "ws-1"; fc_issuedAt := 1000 |}.

Lemma issued_token_verifies_witness :
  verifyFeedbackToken "secret" (issueFeedbackToken "secret" sample_claims) 600000 2000 = Ok sample_claims.
Proof.
  assert (Hmod : forall l : list N, bytes_ok (map (fun c => c mod 256)%N l)).
  { intros l. apply Forall_forall. intros x (c & -> & _)%list_elem_of_fmap. by apply N.mod_lt. }
  apply (issued_token_verifies "secret" sample_claims 600000 2000); try done; [intros s; apply Hmod|intros key m; apply (Hmod (12%N :: _))].
Defined.

(** The payload is joined by colons before it is encoded, so the encoding does not keep a
    colon of an id from moving the boundary of two claims. *)
Example a_colon_moves_the_boundary :
  verifyFeedbackToken "secret" (issueFeedbackToken "secret" {| fc_userId := "a:b"; fc_workspaceId := "7"; fc_issuedAt := 1000 |}) 600000 2000 =
  Ok {| fc_userId := "a"; fc_workspaceId := "b"; fc_issuedAt := 7 |}.
Proof. vm_compute. reflexivity. Qed.
