(* ===== verification/Feedback.v ===== *)
(** * Feedback grants

    [feedback/feedback-eligibility.service.ts], [feedback-grant.recorder.ts],
    [feedback.service.ts] and [feedback.controller.ts]: who is offered the second
    credit, what a signed submission earns and what it writes.  A delivery is also a
    machine whose steps are its database round trips, so that any number of them can
    run beside each other and beside the rest of the router. *)

From S2P Require Import Prelude JsString Json Store Ledger Invites InviteAdmin RateLimiter Metering EvidenceDigest SecretEnvelope MailDelivery FeedbackForm.

(** ** Rows and settings *)

Inductive FeedbackRefusalReason := already_granted | not_eligible | unknown_account | grant_error.

Record FeedbackSubmission := {
  fs_id : jstr;
  fs_provider : jstr;
  fs_formId : option jstr;
  fs_submissionId : jstr;
  fs_userId : jstr;
  fs_workspaceId : jstr;
  fs_grantedUserId : option jstr;
  fs_grantMicros : option Z;
  fs_creditTransactionId : option jstr;
  fs_refusalReason : option FeedbackRefusalReason;
  fs_answers : list json;
  fs_fields : list json;
  fs_submittedAt : Z;
  fs_createdAt : Z
}.

Record FeedbackDb := { fb_store : Store; fb_submissions : list FeedbackSubmission; fb_generations : list Generation }.

Record FeedbackFormConfig := { ff_provider : jstr; ff_url : jstr; ff_webhookSecret : jstr }.

Record FeedbackConfig := {
  fg_form : option FeedbackFormConfig;
  fg_grantMicros : Z;
  fg_offerBelowMicros : Z;
  fg_minMeteredTokens : Z;
  fg_tokenTtl : Z;
  fg_webhooksPerMinute : Z;
  fg_authSecret : jstr
}.

(** ** Eligibility *)

Inductive FeedbackIneligibleReason := form_disabled | no_first_grant | took_grant | balance_healthy | no_usage.

Inductive FeedbackEligibility :=
| eligible (workspaceId : jstr) (grantMicros : Z)
| ineligible (reason : FeedbackIneligibleReason) (workspaceId : option jstr).

Definition granted_to (userId : jstr) (s : FeedbackSubmission) : bool := bool_decide (fs_grantedUserId s = Some userId).

Definition grantOf (userId : jstr) (db : FeedbackDb) : option FeedbackSubmission := find_first (granted_to userId) (fb_submissions db).

Definition meteredTokens (workspaceId : jstr) (db : FeedbackDb) : Z :=
  sumZ (map (fun g => ge_promptTokens g + ge_completionTokens g)
    (List.filter (fun g => jeqb (ge_workspaceId g) workspaceId) (fb_generations db))).

Definition balance_is_healthy (cfg : FeedbackConfig) (workspaceId : jstr) (db : FeedbackDb) : bool :=
  match workspaces (fb_store db) !! workspaceId with
  | Some w => fg_offerBelowMicros cfg <=? balanceMicros w
  | None => true
  end.

(** The last two tests of [evaluate]. *)
Definition judge_usage (cfg : FeedbackConfig) (workspaceId : jstr) (db : FeedbackDb) : FeedbackEligibility :=
  if meteredTokens workspaceId db <? fg_minMeteredTokens cfg then ineligible no_usage (Some workspaceId)
  else eligible workspaceId (fg_grantMicros cfg).

Definition evaluate (cfg : FeedbackConfig) (ignoreBalance : bool) (userId : jstr) (db : FeedbackDb) : FeedbackEligibility :=
  match fg_form cfg with
  | None => ineligible form_disabled None
  | Some _ =>
      match redemptionOf (fb_store db) userId with
      | None => ineligible no_first_grant None
      | Some redemption =>
          let workspaceId := ir_workspaceId redemption in
          if is_some (grantOf userId db) then ineligible took_grant (Some workspaceId)
          else if negb ignoreBalance && balance_is_healthy cfg workspaceId db then ineligible balance_healthy (Some workspaceId)
          else judge_usage cfg workspaceId db
      end
  end.

(** ** Writing *)

Inductive FeedbackDeliveryOutcome :=
| fo_granted (grantMicros : Z) (creditTransactionId : jstr)
| fo_replayed
| fo_ignored
| fo_refused (reason : FeedbackRefusalReason).

Inductive FeedbackGrantAppliedEvent :=
| event_granted (uuid distinctId : jstr) (grantMicros : Z)
| event_refused (uuid distinctId : jstr) (reason : FeedbackRefusalReason).

(** What [handleDelivery] throws: the 401, or the error of the database. *)
Inductive delivery_failure := FeedbackSignatureError | database_error.

(** Who submitted what; the ids a write draws and the clock. *)
Record settlement := {
  sl_delivery : FeedbackDelivery;
  sl_userId : jstr;
  sl_workspaceId : jstr;
  sl_rowId : jstr;
  sl_ledger : write_env;
  sl_now : Z
}.

Definition FEEDBACK_GRANT_REFERENCE : jstr := "feedback".
Definition feedback_key (userId : jstr) : jstr := "feedback:" +++ userId.

Inductive row_error := row_clash | row_without_workspace.

Definition submission_clash (row s : FeedbackSubmission) : bool :=
  jeqb (fs_id s) (fs_id row) || jeqb (fs_submissionId s) (fs_submissionId row) ||
  match fs_grantedUserId row with Some u => granted_to u s | None => false end.

(** [INSERT INTO feedback_submissions]: the primary key, the two unique indexes, and the
    workspace it refers to. *)
Definition insert_submission (row : FeedbackSubmission) (db : FeedbackDb) : result row_error FeedbackDb :=
  if existsb (submission_clash row) (fb_submissions db) then Err row_clash
  else match workspaces (fb_store db) !! fs_workspaceId row with
       | None => Err row_without_workspace
       | Some _ => Ok {| fb_store := fb_store db; fb_submissions := fb_submissions db ++ [row]; fb_generations := fb_generations db |}
       end.

Definition submission_row (provider : jstr) (sl : settlement) (paid : option (Z * jstr)) (refusal : option FeedbackRefusalReason) : FeedbackSubmission :=
  {| fs_id := sl_rowId sl; fs_provider := provider; fs_formId := fd_formId (sl_delivery sl);
     fs_submissionId := fd_submissionId (sl_delivery sl); fs_userId := sl_userId sl; fs_workspaceId := sl_workspaceId sl;
     fs_grantedUserId := (fun _ => sl_userId sl) <$> paid; fs_grantMicros := fst <$> paid; fs_creditTransactionId := snd <$> paid;
     fs_refusalReason := refusal; fs_answers := fd_answers (sl_delivery sl); fs_fields := fd_fields (sl_delivery sl);
     fs_submittedAt := fd_submittedAt (sl_delivery sl); fs_createdAt := sl_now sl |}.

Definition settled (submissionId : jstr) (db : FeedbackDb) : bool :=
  existsb (fun s => jeqb (fs_submissionId s) submissionId) (fb_submissions db).

Definition campaignOf (userId : jstr) (db : FeedbackDb) : option jstr :=
  redemption ← redemptionOf (fb_store db) userId;
  ic_campaign <$> invite_codes (fb_store db) !! ir_inviteCodeId redemption.

Definition feedback_input (sl : settlement) (grantMicros : Z) (campaign : option jstr) : LedgerEntryInput :=
  {| in_workspaceId := sl_workspaceId sl; in_kind := grant; in_amountMicros := grantMicros;
     in_reference := Some FEEDBACK_GRANT_REFERENCE;
     in_description := Some (match present campaign with
                             | Some c => "Feedback grant · " +++ c
                             | None => "Feedback grant"
                             end);
     in_idempotencyKey := feedback_key (sl_userId sl) |}.

Definition with_store (db : FeedbackDb) (store : Store) : FeedbackDb :=
  {| fb_store := store; fb_submissions := fb_submissions db; fb_generations := fb_generations db |}.

(** The transaction of [write]; [inl] says whether the error is of a unique index. *)
Definition write_grant (provider : jstr) (grantMicros : Z) (sl : settlement) (campaign : option jstr) (db : FeedbackDb)
    : bool + (FeedbackDb * jstr) :=
  match appendWithin (sl_ledger sl) (feedback_input sl grantMicros campaign) (fb_store db) with
  | Err e => inl (isUniqueViolation e)
  | Ok (store, entry) =>
      let tx := ct_id (le_transaction entry) in
      match insert_submission (submission_row provider sl (Some (grantMicros, tx)) None) (with_store db store) with
      | Err row_clash => inl true
      | Err row_without_workspace => inl false
      | Ok db' => inr (db', tx)
      end
  end.

Definition delivery_answer : Type := FeedbackDb * list FeedbackGrantAppliedEvent * result delivery_failure FeedbackDeliveryOutcome.

Definition refuse (provider : jstr) (sl : settlement) (reason : FeedbackRefusalReason) (store : bool) (db : FeedbackDb) : delivery_answer :=
  let refused db :=
    (db, [event_refused (fd_submissionId (sl_delivery sl)) (sl_userId sl) reason], Ok (fo_refused reason)) in
  if negb store then refused db
  else match insert_submission (submission_row provider sl None (Some reason)) db with
       | Ok db' => refused db'
       | Err row_clash => refused db
       | Err row_without_workspace => (db, [], Err database_error)
       end.

Definition commit_grant (provider : jstr) (grantMicros : Z) (sl : settlement) (campaign : option jstr) (db : FeedbackDb) : delivery_answer :=
  match write_grant provider grantMicros sl campaign db with
  | inr (db', tx) => (db', [event_granted tx (sl_userId sl) grantMicros], Ok (fo_granted grantMicros tx))
  | inl unique => refuse provider sl (if unique then already_granted else grant_error) false db
  end.

Definition grant_feedback (provider : jstr) (grantMicros : Z) (sl : settlement) (db : FeedbackDb) : delivery_answer :=
  commit_grant provider grantMicros sl (campaignOf (sl_userId sl) db) db.

(** ** Deciding *)

(** [refusalFor], on what [evaluate] answered. *)
Definition refusal_of (workspaceId : jstr) (eligibility : FeedbackEligibility) : option FeedbackRefusalReason :=
  match eligibility with
  | ineligible _ None => Some not_eligible
  | eligible ws _ => if jeqb ws workspaceId then None else Some unknown_account
  | ineligible reason (Some ws) =>
      if negb (jeqb ws workspaceId) then Some unknown_account
      else Some (match reason with took_grant => already_granted | _ => not_eligible end)
  end.

(** Every refusal but one keeps the answers. *)
Definition keeps_answers (reason : FeedbackRefusalReason) : bool := match reason with unknown_account => false | _ => true end.

Definition provider_of (cfg : FeedbackConfig) : jstr := default ("typeform" : jstr) (ff_provider <$> fg_form cfg).

Definition settle (cfg : FeedbackConfig) (sl : settlement) (db : FeedbackDb) : delivery_answer :=
  if settled (fd_submissionId (sl_delivery sl)) db then (db, [], Ok fo_replayed)
  else match refusal_of (sl_workspaceId sl) (evaluate cfg true (sl_userId sl) db) with
       | Some reason => refuse (provider_of cfg) sl reason (keeps_answers reason) db
       | None => grant_feedback (provider_of cfg) (fg_grantMicros cfg) sl db
       end.

Section Service.
Context `{WebhookPlatform} `{JsonEngine} `{UrlPlatform}.

Record FeedbackOffer := { fr_eligibility : FeedbackEligibility; fr_formUrl : option jstr; fr_granted : option FeedbackSubmission }.

(** [None] where [new URL] throws. *)
Definition formUrlFor (cfg : FeedbackConfig) (claims : FeedbackTokenClaims) : option (option jstr) :=
  match fg_form cfg with
  | None => Some None
  | Some form =>
      url ← new_URL (ff_url form);
      Some (Some (url_toString (searchParams_set url FEEDBACK_TOKEN_FIELD (issueFeedbackToken (fg_authSecret cfg) claims))))
  end.

Definition offerFor (cfg : FeedbackConfig) (userId : jstr) (now : Z) (db : FeedbackDb) : option FeedbackOffer :=
  let eligibility := evaluate cfg false userId db in
  let granted := grantOf userId db in
  match eligibility with
  | ineligible _ _ => Some {| fr_eligibility := eligibility; fr_formUrl := None; fr_granted := granted |}
  | eligible workspaceId _ =>
      formUrl ← formUrlFor cfg {| fc_userId := userId; fc_workspaceId := workspaceId; fc_issuedAt := now |};
      Some {| fr_eligibility := eligibility; fr_formUrl := formUrl; fr_granted := granted |}
  end.

Definition handleDelivery (cfg : FeedbackConfig) (rawBody : list N) (signature : option jstr) (rowId : jstr) (env : write_env) (now : Z)
    (db : FeedbackDb) : delivery_answer :=
  match fg_form cfg with
  | None => (db, [], Err FeedbackSignatureError)
  | Some form =>
      if negb (verifyTypeformSignature (ff_webhookSecret form) rawBody signature) then (db, [], Err FeedbackSignatureError)
      else match parseTypeformDelivery rawBody now with
           | None => (db, [], Ok fo_ignored)
           | Some delivery =>
               match verifyFeedbackToken (fg_authSecret cfg) (default (Js []) (fd_token delivery)) (fg_tokenTtl cfg) now with
               | Err _ => (db, [], Err FeedbackSignatureError)
               | Ok claims =>
                   settle cfg {| sl_delivery := delivery; sl_userId := fc_userId claims; sl_workspaceId := fc_workspaceId claims;
                                 sl_rowId := rowId; sl_ledger := env; sl_now := now |} db
               end
           end
  end.

Inductive webhook_reply := reply_not_found | reply_rate_limited (retryAfter : Z) | reply_unauthorized | reply_server_error | reply_outcome (outcome : FeedbackDeliveryOutcome).

Definition feedback_bucket (ip : option jstr) : jstr := "feedback:ip:" +++ default ("unknown" : jstr) ip.

Definition typeform (cfg : FeedbackConfig) (ip : option jstr) (rawBody : list N) (signature : option jstr) (rowId : jstr) (env : write_env)
    (now : Z) (buckets : Buckets) (db : FeedbackDb) : Buckets * FeedbackDb * list FeedbackGrantAppliedEvent * webhook_reply :=
  match fg_form cfg with
  | None => (buckets, db, [], reply_not_found)
  | Some _ =>
      let '(buckets, decision) := consume sweep (feedback_bucket ip) {| rq_cost := 1; rq_limitPerMinute := fg_webhooksPerMinute cfg |} now buckets in
      if negb (rd_allowed decision) then (buckets, db, [], reply_rate_limited (rd_retryAfterSeconds decision))
      else
        let '(db', events, answer) := handleDelivery cfg rawBody signature rowId env now db in
        (buckets, db', events,
         match answer with
         | Ok outcome => reply_outcome outcome
         | Err FeedbackSignatureError => reply_unauthorized
         | Err database_error => reply_server_error
         end)
  end.
End Service.

(** ** A delivery beside others *)

Inductive delivery_pc :=
| Settling
| Redeeming                                        (* the redemption is read *)
| Checking (first : jstr)                          (* the account's grant *)
| Counting (first : jstr)                          (* its tokens *)
| Refusing (reason : FeedbackRefusalReason)
| Attributing                                      (* the campaign of the account *)
| Writing (campaign : option jstr)
| Answered (answer : result delivery_failure FeedbackDeliveryOutcome).

Record delivery_run := { dr_pc : delivery_pc; dr_settlement : settlement; dr_events : list FeedbackGrantAppliedEvent }.

Definition run_at (r : delivery_run) (pc : delivery_pc) : delivery_run :=
  {| dr_pc := pc; dr_settlement := dr_settlement r; dr_events := dr_events r |}.

Definition answered_run (r : delivery_run) (a : delivery_answer) : FeedbackDb * delivery_run :=
  let '(db, events, answer) := a in
  (db, {| dr_pc := Answered answer; dr_settlement := dr_settlement r; dr_events := dr_events r ++ events |}).

Definition judged (r : delivery_run) (eligibility : FeedbackEligibility) : delivery_run :=
  run_at r (match refusal_of (sl_workspaceId (dr_settlement r)) eligibility with
            | Some reason => Refusing reason
            | None => Attributing
            end).

Definition delivery_step (cfg : FeedbackConfig) (db : FeedbackDb) (r : delivery_run) : option (FeedbackDb * delivery_run) :=
  let sl := dr_settlement r in
  match dr_pc r with
  | Settling =>
      Some (if settled (fd_submissionId (sl_delivery sl)) db then (db, run_at r (Answered (Ok fo_replayed))) else (db, run_at r Redeeming))
  | Redeeming =>
      Some (db, match fg_form cfg with
                | None => judged r (ineligible form_disabled None)
                | Some _ =>
                    match redemptionOf (fb_store db) (sl_userId sl) with
                    | None => judged r (ineligible no_first_grant None)
                    | Some redemption => run_at r (Checking (ir_workspaceId redemption))
                    end
                end)
  | Checking first =>
      Some (db, if is_some (grantOf (sl_userId sl) db) then judged r (ineligible took_grant (Some first)) else run_at r (Counting first))
  | Counting first => Some (db, judged r (judge_usage cfg first db))
  | Refusing reason => Some (answered_run r (refuse (provider_of cfg) sl reason (keeps_answers reason) db))
  | Attributing => Some (db, run_at r (Writing (campaignOf (sl_userId sl) db)))
  | Writing campaign => Some (answered_run r (commit_grant (provider_of cfg) (fg_grantMicros cfg) sl campaign db))
  | Answered _ => None
  end.

Fixpoint run_delivery (cfg : FeedbackConfig) (fuel : nat) (db : FeedbackDb) (r : delivery_run) : FeedbackDb * delivery_run :=
  match fuel with
  | O => (db, r)
  | S fuel => match delivery_step cfg db r with
              | Some (db', r') => run_delivery cfg fuel db' r'
              | None => (db, r)
              end
  end.

Definition fresh_run (sl : settlement) : delivery_run := {| dr_pc := Settling; dr_settlement := sl; dr_events := [] |}.

(** Any number of deliveries at one database; the rest of the router writes in between. *)
Definition feedback_world : Type := FeedbackDb * list delivery_run.

(** What runs beside: it may do anything to workspaces, codes, generations and the ledger
    but touch the submissions, rewrite the ledger or break its invariant.  The import of
    another deployment's ledger is part of it: it brings entries with the keys of this
    kind and no submissions. *)
Definition elsewhere (db db' : FeedbackDb) : Prop :=
  fb_submissions db' = fb_submissions db /\ ledger_ok (fb_store db') /\
  exists more, credit_transactions (fb_store db') = credit_transactions (fb_store db) ++ more.

Inductive feedback_step (cfg : FeedbackConfig) : feedback_world -> feedback_world -> Prop :=
| step_of_delivery i db rs r db' r' :
    rs !! i = Some r -> delivery_step cfg db r = Some (db', r') ->
    feedback_step cfg (db, rs) (db', <[i := r']> rs)
| step_elsewhere db db' rs : elsewhere db db' -> feedback_step cfg (db, rs) (db', rs).

(** ** Lemmas: the tables *)

(** A granting row and the ledger entry behind it. *)
Definition pays (s : FeedbackSubmission) (u : jstr) (t : CreditTransaction) : Prop :=
  fs_grantedUserId s = Some u /\ fs_userId s = u /\ fs_refusalReason s = None /\
  fs_creditTransactionId s = Some (ct_id t) /\ fs_grantMicros s = Some (ct_amountMicros t) /\ fs_workspaceId s = ct_workspaceId t /\
  ct_idempotencyKey t = feedback_key u /\ ct_kind t = grant /\ 0 < ct_amountMicros t.

Record feedback_ok (db : FeedbackDb) : Prop := {
  fk_ledger : ledger_ok (fb_store db);
  fk_ids : NoDup (map fs_id (fb_submissions db));
  fk_once : NoDup (map fs_submissionId (fb_submissions db));
  fk_accounts : NoDup (omap fs_grantedUserId (fb_submissions db));
  fk_paid : forall s u, s ∈ fb_submissions db -> fs_grantedUserId s = Some u ->
    exists t, t ∈ credit_transactions (fb_store db) /\ pays s u t
}.

Lemma feedback_key_inj u v : feedback_key u = feedback_key v -> u = v.
Proof. apply japp_inj_l. Qed.

Lemma elsewhere_ok db db' : elsewhere db db' -> feedback_ok db -> feedback_ok db'.
Proof.
  intros (Hs & Hl & more & Ht) [H1 H2 H3 H4 H5]. split; rewrite ?Hs; try done.
  intros s u Hin Hg. destruct (H5 s u Hin Hg) as (t & Hint & Hp). exists t. rewrite Ht. split; [|done]. apply elem_of_app. by left.
Qed.

Lemma submission_clash_false row subs : existsb (submission_clash row) subs = false ->
  (fs_id row ∉ map fs_id subs) /\ (fs_submissionId row ∉ map fs_submissionId subs) /\
  (forall u, fs_grantedUserId row = Some u -> u ∉ omap fs_grantedUserId subs).
Proof.
  intros Hc. assert (Hno : forall s, s ∈ subs -> submission_clash row s = false).
  { intros s Hs. apply not_true_iff_false. intros Ht. apply not_true_iff_false in Hc. apply Hc, existsb_exists. exists s. split; [by apply list_elem_of_In|done]. }
  unfold submission_clash in Hno. split_and!.
  - intros (s & E & Hs)%list_elem_of_fmap. specialize (Hno s Hs). by rewrite E, jeqb_refl in Hno.
  - intros (s & E & Hs)%list_elem_of_fmap. specialize (Hno s Hs). by rewrite E, jeqb_refl, orb_true_r in Hno.
  - intros u E (s & Hs & Eu)%list_elem_of_omap. specialize (Hno s Hs). rewrite E in Hno. unfold granted_to in Hno.
    by rewrite bool_decide_true, orb_true_r in Hno.
Qed.

Lemma insert_submission_ok row db db' : insert_submission row db = Ok db' ->
  fb_submissions db' = fb_submissions db ++ [row] /\ fb_store db' = fb_store db /\ fb_generations db' = fb_generations db /\
  (fs_id row ∉ map fs_id (fb_submissions db)) /\ (fs_submissionId row ∉ map fs_submissionId (fb_submissions db)) /\
  (forall u, fs_grantedUserId row = Some u -> u ∉ omap fs_grantedUserId (fb_submissions db)).
Proof.
  unfold insert_submission. destruct (existsb _ _) eqn:Ec; [done|]. destruct (workspaces _ !! _); [|done]. intros [= <-].
  destruct (submission_clash_false _ _ Ec) as (H1 & H2 & H3). by split_and!.
Qed.

(** A refusal is filed without a credit. *)
Lemma insert_refusal_ok row db db' : fs_grantedUserId row = None -> insert_submission row db = Ok db' -> feedback_ok db -> feedback_ok db'.
Proof.
  intros Hg (Hs & Hst & _ & Hi & Hu & _)%insert_submission_ok [H1 H2 H3 H4 H5]. split; rewrite ?Hs, ?Hst; try done.
  - rewrite map_app. by apply NoDup_snoc.
  - rewrite map_app. by apply NoDup_snoc.
  - rewrite omap_app. cbn. rewrite Hg. cbn. by rewrite app_nil_r.
  - intros s u [Hin| ->%list_elem_of_singleton]%elem_of_app; [by apply H5|congruence].
Qed.

(** What a committed grant wrote. *)
Lemma write_grant_some provider micros sl campaign db db' tx : write_grant provider micros sl campaign db = inr (db', tx) ->
  exists store entry row, appendWithin (sl_ledger sl) (feedback_input sl micros campaign) (fb_store db) = Ok (store, entry) /\
    tx = ct_id (le_transaction entry) /\ row = submission_row provider sl (Some (micros, tx)) None /\
    insert_submission row (with_store db store) = Ok db'.
Proof.
  unfold write_grant. destruct (appendWithin _ _ _) as [[store entry]|e]; [|done].
  destruct (insert_submission _ _) as [db1|[]] eqn:Ei; try done. intros [= <- <-]. by exists store, entry, (submission_row provider sl (Some (micros, ct_id (le_transaction entry))) None).
Qed.

Lemma write_grant_pays provider micros sl campaign db db' tx : write_grant provider micros sl campaign db = inr (db', tx) ->
  feedback_ok db ->
  exists row t, fb_submissions db' = fb_submissions db ++ [row] /\
    credit_transactions (fb_store db') = credit_transactions (fb_store db) ++ [t] /\ ct_id t = tx /\ ct_amountMicros t = micros /\
    pays row (sl_userId sl) t /\ fs_id row = sl_rowId sl /\ fs_submissionId row = fd_submissionId (sl_delivery sl) /\
    fs_workspaceId row = sl_workspaceId sl /\ ledger_ok (fb_store db') /\ insert_submission row (with_store db (fb_store db')) = Ok db'.
Proof.
  intros (store & entry & row & Ha & -> & -> & Hi)%write_grant_some Hok. unfold appendWithin in Ha.
  apply bind_ok in Ha as (u & [Hnz Hpos]%assertSign_ok & Ha). pose proof (ledger_ok_append _ _ _ _ _ (fk_ledger _ Hok) Ha) as Hled.
  apply append_ok in Ha as (w & Hw & _ & _ & Hct & _ & _ & _ & _ & Hrow & _).
  pose proof (insert_submission_ok _ _ _ Hi) as (Hs & Hst & _). cbn [with_store fb_submissions fb_store] in Hs, Hst. cbn in Hpos.
  eexists _, (le_transaction entry). rewrite Hst. split_and!; try done; try (by rewrite Hrow).
Qed.

Lemma write_grant_ok provider micros sl campaign db db' tx : write_grant provider micros sl campaign db = inr (db', tx) ->
  feedback_ok db -> feedback_ok db'.
Proof.
  intros Hw Hok. destruct (write_grant_pays _ _ _ _ _ _ _ Hw Hok) as (row & t & Hs & Ht & _ & _ & Hp & _ & _ & _ & Hled & Hi).
  apply insert_submission_ok in Hi as (_ & _ & _ & Hid & Hsub & Hacc). cbn [with_store fb_submissions] in Hid, Hsub, Hacc.
  destruct Hok as [H1 H2 H3 H4 H5]. destruct Hp as (Hg & Hp). specialize (Hacc _ Hg). split; rewrite ?Hs, ?Ht; try done.
  - rewrite map_app. by apply NoDup_snoc.
  - rewrite map_app. by apply NoDup_snoc.
  - rewrite omap_app. cbn. rewrite Hg. cbn. by apply NoDup_snoc.
  - intros s u [Hin| ->%list_elem_of_singleton]%elem_of_app Hu.
    + destruct (H5 s u Hin Hu) as (t0 & Hin0 & Hp0). exists t0. split; [apply elem_of_app; by left|done].
    + exists t. rewrite Hg in Hu. injection Hu as <-. split; [apply elem_of_app; right; by apply list_elem_of_singleton|by split].
Qed.

(** ** Lemmas: the steps *)

(** What an answer leaves: the tables stand, and a credit is on record under this run. *)
Definition told (db : FeedbackDb) (sl : settlement) (answer : result delivery_failure FeedbackDeliveryOutcome) : Prop :=
  forall micros tx, answer = Ok (fo_granted micros tx) ->
  exists row t, row ∈ fb_submissions db /\ fs_id row = sl_rowId sl /\ fs_submissionId row = fd_submissionId (sl_delivery sl) /\
    t ∈ credit_transactions (fb_store db) /\ ct_id t = tx /\ ct_amountMicros t = micros /\ ct_workspaceId t = sl_workspaceId sl /\
    pays row (sl_userId sl) t.

Definition grows (db db' : FeedbackDb) : Prop :=
  (exists more, fb_submissions db' = fb_submissions db ++ more) /\
  exists more, credit_transactions (fb_store db') = credit_transactions (fb_store db) ++ more.

#[global] Instance grows_preorder : PreOrder grows.
Proof.
  split.
  - intros db. split; exists []; by rewrite app_nil_r.
  - intros a b c [[s1 E1] [t1 F1]] [[s2 E2] [t2 F2]]. split; [exists (s1 ++ s2); by rewrite E2, E1, app_assoc|exists (t1 ++ t2); by rewrite F2, F1, app_assoc].
Qed.

Lemma told_grows db db' sl answer : grows db db' -> told db sl answer -> told db' sl answer.
Proof.
  intros [[s Es] [t Et]] Ht micros tx E. destruct (Ht micros tx E) as (row & e & H1 & H2 & H3 & H4 & H5). exists row, e.
  rewrite Es, Et. split_and!; try done; try (apply elem_of_app; by left); apply H5.
Qed.

Lemma refuse_ok provider sl reason keep db db' events answer : refuse provider sl reason keep db = (db', events, answer) ->
  feedback_ok db -> feedback_ok db' /\ grows db db' /\ told db' sl answer.
Proof.
  unfold refuse. destruct keep; cbn [negb].
  - destruct (insert_submission _ db) as [db1|[]] eqn:Ei; intros [= <- <- <-] Hok; (split; [|split; [|intros ? ?; discriminate]]); try done.
    + eapply insert_refusal_ok; [|exact Ei|exact Hok]. done.
    + apply insert_submission_ok in Ei as (Hs & Hst & _). split; [by eexists|rewrite Hst; exists []; by rewrite app_nil_r].
  - intros [= <- <- <-] Hok. split; [done|split; [done|intros ? ?; discriminate]].
Qed.

Lemma commit_grant_ok provider micros sl campaign db db' events answer :
  commit_grant provider micros sl campaign db = (db', events, answer) ->
  feedback_ok db -> feedback_ok db' /\ grows db db' /\ told db' sl answer.
Proof.
  unfold commit_grant. destruct (write_grant _ _ _ _ _) as [unique|[db1 tx]] eqn:Ew; [by apply refuse_ok|].
  intros [= <- <- <-] Hok. split; [by eapply write_grant_ok|].
  destruct (write_grant_pays _ _ _ _ _ _ _ Ew Hok) as (row & t & Hs & Ht & E1 & E2 & Hp & E3 & E4 & E5 & _ & _).
  split; [split; by eexists|]. intros m x [= <- <-]. exists row, t. rewrite Hs, Ht.
  assert (E6 : ct_workspaceId t = sl_workspaceId sl) by (rewrite <- E5; symmetry; apply Hp).
  split_and!; try done; try (apply elem_of_app; right; by apply list_elem_of_singleton); apply Hp.
Qed.

Lemma delivery_step_ok cfg db r db' r' : delivery_step cfg db r = Some (db', r') -> feedback_ok db ->
  feedback_ok db' /\ grows db db' /\ dr_settlement r' = dr_settlement r /\
  forall answer, dr_pc r' = Answered answer -> told db' (dr_settlement r') answer.
Proof.
  intros Hs Hok. unfold delivery_step in Hs.
  assert (Hjudged : forall e answer, dr_pc (judged r e) = Answered answer -> told db (dr_settlement r) answer).
  { intros e answer. unfold judged. cbn. by destruct (refusal_of _ _). }
  destruct (dr_pc r) as [| |first|first|reason| |campaign|a]; [| | | | | | |done]; apply (inj Some) in Hs.
  - destruct (settled _ db); injection Hs as <- <-; (split; [done|split; [done|split; [done|]]]); [|done]. intros answer [= <-] ? ? ?. discriminate.
  - injection Hs as <- <-. split; [done|split; [done|]]. destruct (fg_form cfg); [destruct (redemptionOf _ _)|]; (split; [done|]); [done|apply Hjudged..].
  - injection Hs as <- <-. split; [done|split; [done|]]. destruct (is_some _); (split; [done|]); [apply Hjudged|done].
  - injection Hs as <- <-. split; [done|split; [done|split; [done|]]]. apply Hjudged.
  - unfold answered_run in Hs. destruct (refuse _ _ _ _ _) as [[db1 events] answer] eqn:E. injection Hs as <- <-.
    destruct (refuse_ok _ _ _ _ _ _ _ _ E Hok) as (H1 & H2 & H3). split; [done|split; [done|split; [done|]]]. by intros ? [= <-].
  - by injection Hs as <- <-.
  - unfold answered_run in Hs. destruct (commit_grant _ _ _ _ _) as [[db1 events] answer] eqn:E. injection Hs as <- <-.
    destruct (commit_grant_ok _ _ _ _ _ _ _ _ E Hok) as (H1 & H2 & H3). split; [done|split; [done|split; [done|]]]. by intros ? [= <-].
Qed.

(** The round trips a run has left. *)
Definition trips_left (r : delivery_run) : nat :=
  match dr_pc r with
  | Settling => 6 | Redeeming => 5 | Checking _ => 4 | Counting _ => 3 | Attributing => 2 | Refusing _ | Writing _ => 1 | Answered _ => 0
  end.

Lemma judged_trips r e : (trips_left (judged r e) <= 2)%nat.
Proof. unfold trips_left, judged. cbn. destruct (refusal_of _ _); lia. Qed.

Lemma delivery_step_trips cfg db r db' r' : delivery_step cfg db r = Some (db', r') -> (trips_left r' < trips_left r)%nat.
Proof.
  unfold delivery_step. intros Hs. assert (E : trips_left r = match dr_pc r with Settling => 6 | Redeeming => 5 | Checking _ => 4 | Counting _ => 3 | Attributing => 2 | Refusing _ | Writing _ => 1 | Answered _ => 0 end%nat) by done.
  pose proof (judged_trips r) as Hj.
  destruct (dr_pc r) as [| |first|first|reason| |campaign|a]; [| | | | | | |done]; rewrite E; apply (inj Some) in Hs.
  - destruct (settled _ db); injection Hs as <- <-; cbn; lia.
  - injection Hs as <- <-. destruct (fg_form cfg); [destruct (redemptionOf _ _)|]; [cbn; lia|specialize (Hj (ineligible no_first_grant None)); lia|specialize (Hj (ineligible form_disabled None)); lia].
  - injection Hs as <- <-. destruct (is_some _); [specialize (Hj (ineligible took_grant (Some first))); lia|cbn; lia].
  - injection Hs as <- <-. specialize (Hj (judge_usage cfg first db)). lia.
  - unfold answered_run in Hs. destruct (refuse _ _ _ _ _) as [[db1 events] answer]. injection Hs as <- <-. cbn. lia.
  - injection Hs as <- <-. cbn. lia.
  - unfold answered_run in Hs. destruct (commit_grant _ _ _ _ _) as [[db1 events] answer]. injection Hs as <- <-. cbn. lia.
Qed.

Lemma run_step cfg fuel db r db' r' : delivery_step cfg db r = Some (db', r') ->
  run_delivery cfg (S fuel) db r = run_delivery cfg fuel db' r'.
Proof. intros Hs. cbn. by rewrite Hs. Qed.

Lemma run_judged cfg fuel sl db e :
  run_delivery cfg (S (S fuel)) db (judged (run_at (fresh_run sl) Settling) e) =
  let '(db', events, answer) :=
    match refusal_of (sl_workspaceId sl) e with
    | Some reason => refuse (provider_of cfg) sl reason (keeps_answers reason) db
    | None => commit_grant (provider_of cfg) (fg_grantMicros cfg) sl (campaignOf (sl_userId sl) db) db
    end in (db', {| dr_pc := Answered answer; dr_settlement := sl; dr_events := events |}).
Proof.
  unfold judged, fresh_run, run_at. cbn [dr_settlement dr_pc dr_events].
  destruct (refusal_of _ e) as [reason|]; cbn [run_delivery delivery_step dr_pc dr_settlement run_at dr_events].
  - unfold answered_run. destruct (refuse _ _ _ _ _) as [[db' events] answer]. cbn [dr_settlement dr_events app]. by destruct fuel.
  - unfold answered_run. destruct (commit_grant _ _ _ _ _) as [[db' events] answer]. cbn [dr_settlement dr_events app]. by destruct fuel.
Qed.

(** A run with nobody beside it is [settle]. *)
Lemma run_delivery_settle cfg sl db :
  run_delivery cfg 6 db (fresh_run sl) =
  let '(db', events, answer) := settle cfg sl db in (db', {| dr_pc := Answered answer; dr_settlement := sl; dr_events := events |}).
Proof.
  unfold settle, evaluate, grant_feedback. destruct (settled (fd_submissionId (sl_delivery sl)) db) eqn:E1.
  { erewrite run_step by (cbn [delivery_step fresh_run dr_pc dr_settlement]; rewrite E1; reflexivity). done. }
  erewrite run_step by (cbn [delivery_step fresh_run dr_pc dr_settlement]; rewrite E1; reflexivity).
  erewrite run_step by reflexivity. cbn [fresh_run run_at dr_settlement].
  destruct (fg_form cfg) as [form|]; [|apply (run_judged cfg 2)].
  destruct (redemptionOf (fb_store db) (sl_userId sl)) as [redemption|]; [|apply (run_judged cfg 2)].
  erewrite run_step by reflexivity. unfold run_at at 1 2, fresh_run at 1 2. cbn [dr_settlement negb andb].
  unfold fresh_run; cbn [dr_settlement]. destruct (is_some (grantOf (sl_userId sl) db)); [apply (run_judged cfg 1)|].
  erewrite run_step by reflexivity. apply (run_judged cfg 0).
Qed.

(** ** Properties *)

Record world_ok (w : feedback_world) : Prop := {
  wk_db : feedback_ok (fst w);
  wk_told : forall i r answer, snd w !! i = Some r -> dr_pc r = Answered answer -> told (fst w) (dr_settlement r) answer
}.

Lemma elsewhere_grows db db' : elsewhere db db' -> grows db db'.
Proof. intros (Hs & _ & more & Ht). split; [exists []; by rewrite Hs, app_nil_r|by exists more]. Qed.

Lemma feedback_step_ok cfg w w' : feedback_step cfg w w' -> world_ok w ->
  world_ok w' /\ map dr_settlement (snd w') = map dr_settlement (snd w).
Proof.
  intros [i db rs r db' r' Hi Hs|db db' rs He] [H1 H2]; cbn [fst snd] in *.
  - destruct (delivery_step_ok _ _ _ _ _ Hs H1) as (Hok & Hg & Hsl & Ht). split.
    + split; [done|]. cbn [fst snd]. intros j r0 answer Hj Ha. destruct (decide (i = j)) as [<-|Hne].
      * rewrite list_lookup_insert_eq in Hj by (by eapply lookup_lt_Some). injection Hj as <-. by apply Ht.
      * rewrite list_lookup_insert_ne in Hj by done. eapply told_grows; [exact Hg|by eapply H2].
    + change (dr_settlement <$> <[i:=r']> rs = dr_settlement <$> rs). rewrite list_fmap_insert, Hsl. apply list_insert_id. by rewrite list_lookup_fmap, Hi.
  - split; [|done]. split; [by eapply elsewhere_ok|]. intros j r0 answer Hj Ha. eapply told_grows; [by apply elsewhere_grows|by eapply H2].
Qed.

Lemma feedback_steps_ok cfg w w' : rtc (feedback_step cfg) w w' -> world_ok w ->
  world_ok w' /\ map dr_settlement (snd w') = map dr_settlement (snd w).
Proof.
  induction 1 as [w|w w1 w2 Hs _ IH]; intros Hok; [done|]. destruct (feedback_step_ok _ _ _ Hs Hok) as [Hok1 E1].
  destruct (IH Hok1) as [Hok2 E2]. split; [done|]. by rewrite E2.
Qed.

Lemma granted_row_eq db s1 s2 u : feedback_ok db -> s1 ∈ fb_submissions db -> s2 ∈ fb_submissions db ->
  fs_grantedUserId s1 = Some u -> fs_grantedUserId s2 = Some u -> s1 = s2.
Proof.
  intros Hok H1 H2 E1 E2. pose proof (fk_accounts _ Hok) as Hnd. revert H1 H2 Hnd. generalize (fb_submissions db). intros l.
  induction l as [|s l IH]; [by intros ?%elem_of_nil|].
  assert (Hin : forall x, x ∈ l -> fs_grantedUserId x = Some u -> u ∈ omap fs_grantedUserId l) by (intros x Hx Ex; apply list_elem_of_omap; by exists x).
  intros H1 H2. cbn. intros Hnd. apply elem_of_cons in H1 as [->|H1], H2 as [->|H2]; [done| | |].
  - rewrite E1 in Hnd. apply NoDup_cons in Hnd as [Hn _]. destruct Hn. by eapply Hin.
  - rewrite E2 in Hnd. apply NoDup_cons in Hnd as [Hn _]. destruct Hn. by eapply Hin.
  - apply IH; [done..|]. destruct (fs_grantedUserId s); [by apply NoDup_cons in Hnd as [_ Hnd]|done].
Qed.

Definition granted_run (r : delivery_run) : Prop := exists micros tx, dr_pc r = Answered (Ok (fo_granted micros tx)).

(** *** Keys already in the ledger *)

Definition ledger_keys (db : FeedbackDb) : list jstr := map ct_idempotencyKey (credit_transactions (fb_store db)).

Lemma write_grant_fresh provider micros sl campaign db db' tx : write_grant provider micros sl campaign db = inr (db', tx) ->
  feedback_key (sl_userId sl) ∉ ledger_keys db.
Proof.
  intros (store & entry & row & Ha & _)%write_grant_some. unfold appendWithin in Ha. apply bind_ok in Ha as (u & _ & Ha).
  by apply append_ok in Ha as (w & _ & _ & _ & _ & _ & _ & _ & Hk & _).
Qed.

Lemma judged_asks r e : dr_pc (judged r e) = match refusal_of (sl_workspaceId (dr_settlement r)) e with Some reason => Refusing reason | None => Attributing end.
Proof. unfold judged, run_at. cbn. by destruct (refusal_of _ _). Qed.

(** A run is told it was granted only by a step that found its account's key free. *)
Lemma granted_step_fresh cfg db r db' r' : delivery_step cfg db r = Some (db', r') -> granted_run r' ->
  feedback_key (sl_userId (dr_settlement r')) ∉ ledger_keys db.
Proof.
  intros Hs (micros & tx & G). unfold delivery_step in Hs.
  assert (Hrefuse : forall provider sl reason keep db1 events answer, refuse provider sl reason keep db = (db1, events, answer) -> answer <> Ok (fo_granted micros tx)).
  { intros provider sl reason keep db1 events answer E. unfold refuse in E. destruct (negb keep); [by injection E as _ _ <-|].
    destruct (insert_submission _ db) as [db2|[]]; by injection E as _ _ <-. }
  destruct (dr_pc r) as [| |first|first|reason| |campaign|a]; [| | | | | | |done]; apply (inj Some) in Hs.
  - destruct (settled _ db); injection Hs as _ <-; done.
  - injection Hs as _ <-. destruct (fg_form cfg); [destruct (redemptionOf _ _)|]; [done|rewrite judged_asks in G; by destruct (refusal_of _ _)..].
  - injection Hs as _ <-. destruct (is_some _); [rewrite judged_asks in G; by destruct (refusal_of _ _)|done].
  - injection Hs as _ <-. rewrite judged_asks in G. by destruct (refusal_of _ _).
  - unfold answered_run in Hs. destruct (refuse _ _ _ _ _) as [[db1 events] answer] eqn:E. injection Hs as _ <-. injection G as G.
    by destruct (Hrefuse _ _ _ _ _ _ _ E).
  - by injection Hs as _ <-.
  - unfold answered_run, commit_grant in Hs. destruct (write_grant _ _ _ _ _) as [unique|[db1 tx1]] eqn:Ew.
    + destruct (refuse _ _ _ _ _) as [[db1 events] answer] eqn:E. injection Hs as _ <-. injection G as G. by destruct (Hrefuse _ _ _ _ _ _ _ E).
    + injection Hs as _ <-. cbn [dr_settlement]. by eapply write_grant_fresh.
Qed.

Definition unpaid_before (keys : list jstr) (w : feedback_world) : Prop :=
  keys ⊆ ledger_keys (fst w) /\ forall r, r ∈ snd w -> granted_run r -> feedback_key (sl_userId (dr_settlement r)) ∉ keys.

Lemma grows_keys db db' : grows db db' -> ledger_keys db ⊆ ledger_keys db'.
Proof. intros [_ [more E]]. unfold ledger_keys. rewrite E, map_app. set_solver. Qed.

Lemma feedback_steps_fresh cfg keys w w' : rtc (feedback_step cfg) w w' -> world_ok w -> unpaid_before keys w -> unpaid_before keys w'.
Proof.
  induction 1 as [w|w w1 w2 Hs _ IH]; intros Hok Hw; [done|]. destruct (feedback_step_ok _ _ _ Hs Hok) as [Hok1 _].
  apply IH; [done|]. destruct Hw as [Hk Hr]. destruct Hs as [i db rs r db' r' Hi Hs|db db' rs He]; cbn [fst snd] in *.
  - destruct (delivery_step_ok _ _ _ _ _ Hs (wk_db _ Hok)) as (_ & Hg & _). split; [etrans; [exact Hk|by apply grows_keys]|].
    intros x Hx Gx. cbn [snd] in Hx. apply list_elem_of_lookup in Hx as [j Hj]. destruct (decide (i = j)) as [<-|Hne].
    + rewrite list_lookup_insert_eq in Hj by (by eapply lookup_lt_Some). injection Hj as <-.
      pose proof (granted_step_fresh _ _ _ _ _ Hs Gx) as Hf. set_solver.
    + rewrite list_lookup_insert_ne in Hj by done. apply Hr; [by eapply list_elem_of_lookup_2|done].
  - split; [|done]. etrans; [exact Hk|]. by apply grows_keys, elsewhere_grows.
Qed.

(** C27. However deliveries interleave, with each other and with the rest of the router,
    the import of another deployment's ledger included, an account is paid once: each
    grant on file has its credit, no two deliveries of one account or of one submission
    are both told they were granted, none is told so for an account whose entry of this
    kind was in the ledger before (with or without the answers), an account has one entry
    of this kind, each grant told is on record, and a delivery that is not yet answered can go
    on and has at most six round trips. *)
Theorem feedback_pays_once cfg db rs db' rs' :
  feedback_ok db -> Forall (fun r => dr_pc r = Settling) rs -> NoDup (map (fun r => sl_rowId (dr_settlement r)) rs) ->
  rtc (feedback_step cfg) (db, rs) (db', rs') ->
  feedback_ok db' /\
  (forall i j r1 r2, rs' !! i = Some r1 -> rs' !! j = Some r2 -> granted_run r1 -> granted_run r2 ->
     sl_userId (dr_settlement r1) = sl_userId (dr_settlement r2) \/
     fd_submissionId (sl_delivery (dr_settlement r1)) = fd_submissionId (sl_delivery (dr_settlement r2)) -> i = j) /\
  (forall t1 t2 u, t1 ∈ credit_transactions (fb_store db') -> t2 ∈ credit_transactions (fb_store db') ->
     ct_idempotencyKey t1 = feedback_key u -> ct_idempotencyKey t2 = feedback_key u -> t1 = t2) /\
  (forall r, r ∈ rs' -> granted_run r -> feedback_key (sl_userId (dr_settlement r)) ∉ ledger_keys db) /\
  (forall i r answer, rs' !! i = Some r -> dr_pc r = Answered answer -> told db' (dr_settlement r) answer) /\
  (forall r, r ∈ rs' -> (exists answer, dr_pc r = Answered answer) \/
     exists s, delivery_step cfg db' r = Some s /\ (trips_left (snd s) < trips_left r <= 6)%nat).
Proof.
  intros Hok Hfresh Hnd Hr.
  assert (Hw : world_ok (db, rs)).
  { split; [done|]. cbn. intros i r answer Hi Ha. rewrite Forall_forall in Hfresh. rewrite (Hfresh r) in Ha; [done|]. by eapply list_elem_of_lookup_2. }
  destruct (feedback_steps_ok _ _ _ Hr Hw) as [[Hok' Ht] Esl]. cbn [fst snd] in *. split_and!; [done| | | |done|].
  - intros i j r1 r2 Hi Hj (m1 & x1 & G1) (m2 & x2 & G2) Hsame.
    destruct (Ht _ _ _ Hi G1 _ _ eq_refl) as (s1 & t1 & Hs1 & Ei1 & Es1 & _ & _ & _ & _ & P1).
    destruct (Ht _ _ _ Hj G2 _ _ eq_refl) as (s2 & t2 & Hs2 & Ei2 & Es2 & _ & _ & _ & _ & P2).
    assert (s1 = s2) as ->.
    { destruct Hsame as [Eu|Esub].
      - eapply granted_row_eq; [exact Hok'|done..|apply P1|]. rewrite Eu. apply P2.
      - eapply (nodup_map_inj fs_submissionId); [apply (fk_once _ Hok')|done..|]. by rewrite Es1, Es2. }
    assert (Hnd' : NoDup (map sl_rowId (map dr_settlement rs'))) by (by rewrite Esl, map_map).
    rewrite map_map in Hnd'. eapply NoDup_lookup; [exact Hnd'| |].
    + change (map ?f rs') with (f <$> rs'). by rewrite list_lookup_fmap, Hi.
    + change (map ?f rs') with (f <$> rs'). rewrite list_lookup_fmap, Hj. cbn. congruence.
  - intros t1 t2 u H1 H2 K1 K2. eapply (nodup_map_inj ct_idempotencyKey); [apply (ok_keys _ (fk_ledger _ Hok'))|done..|congruence].
  - apply (feedback_steps_fresh _ (ledger_keys db) _ _ Hr Hw). split; [done|]. intros r Hin (micros & tx & G).
    rewrite Forall_forall in Hfresh. rewrite (Hfresh r Hin) in G. done.
  - intros r _. destruct (delivery_step cfg db' r) as [[db1 r1]|] eqn:E.
    + right. exists (db1, r1). split; [done|]. split; [by eapply delivery_step_trips|]. unfold trips_left. destruct (dr_pc r); lia.
    + left. unfold delivery_step in E. destruct (dr_pc r); try done. by eexists.
Qed.

(** ** What a delivery has to be *)

Section Earned.
Context `{WebhookPlatform} `{JsonEngine}.

Lemma refuse_store provider sl reason keep db : let '(db', _, answer) := refuse provider sl reason keep db in
  fb_store db' = fb_store db /\ forall micros tx, answer <> Ok (fo_granted micros tx).
Proof.
  unfold refuse. destruct keep; cbn [negb]; [|done]. destruct (insert_submission _ db) as [db1|[]] eqn:Ei; try done.
  apply insert_submission_ok in Ei as (_ & -> & _). done.
Qed.

Lemma refusal_of_none ws e : refusal_of ws e = None <-> exists micros, e = eligible ws micros.
Proof.
  split; [|intros [micros ->]; cbn; by rewrite jeqb_refl].
  destruct e as [ws' micros|reason [ws'|]]; cbn; [| |done].
  - destruct (jeqb ws' ws) eqn:E; [|done]. apply jeqb_eq in E as ->. by exists micros.
  - by destruct (negb _).
Qed.

Lemma evaluate_eligible cfg user db ws micros : evaluate cfg true user db = eligible ws micros ->
  micros = fg_grantMicros cfg /\ grantOf user db = None /\ fg_minMeteredTokens cfg <= meteredTokens ws db /\
  exists redemption, redemptionOf (fb_store db) user = Some redemption /\ ir_workspaceId redemption = ws.
Proof.
  unfold evaluate, judge_usage. destruct (fg_form cfg); [|done]. destruct (redemptionOf _ _) as [redemption|]; [|done].
  destruct (grantOf user db); [done|]. cbn [is_some negb andb]. destruct (Z.ltb_spec (meteredTokens (ir_workspaceId redemption) db) (fg_minMeteredTokens cfg)); [done|].
  intros [= <- <-]. split_and!; try done. by exists redemption.
Qed.

(** The account a submission names, the conditions of the offer but the balance, and what
    it wrote. *)
Definition earned (cfg : FeedbackConfig) (user ws : jstr) (rowId : jstr) (delivery : FeedbackDelivery) (db db' : FeedbackDb) (micros : Z) (tx : jstr) : Prop :=
  micros = fg_grantMicros cfg /\ settled (fd_submissionId delivery) db = false /\ grantOf user db = None /\
  fg_minMeteredTokens cfg <= meteredTokens ws db /\
  (exists redemption, redemptionOf (fb_store db) user = Some redemption /\ ir_workspaceId redemption = ws) /\
  (exists w, workspaces (fb_store db) !! ws = Some w /\ workspaces (fb_store db') = <[ws := add_balance micros w]> (workspaces (fb_store db))) /\
  exists row t, fb_submissions db' = fb_submissions db ++ [row] /\ credit_transactions (fb_store db') = credit_transactions (fb_store db) ++ [t] /\
    pays row user t /\ ct_id t = tx /\ ct_amountMicros t = micros /\ ct_workspaceId t = ws /\
    fs_id row = rowId /\ fs_submissionId row = fd_submissionId delivery.

Lemma settle_earned cfg sl db db' events answer : feedback_ok db -> settle cfg sl db = (db', events, answer) ->
  match answer with
  | Ok (fo_granted micros tx) =>
      earned cfg (sl_userId sl) (sl_workspaceId sl) (sl_rowId sl) (sl_delivery sl) db db' micros tx /\ events = [event_granted tx (sl_userId sl) micros]
  | _ => fb_store db' = fb_store db
  end.
Proof.
  intros Hok. unfold settle. destruct (settled _ db) eqn:Es; [by intros [= <- <- <-]|].
  destruct (refusal_of _ _) as [reason|] eqn:Er.
  - intros Hr. pose proof (refuse_store (provider_of cfg) sl reason (keeps_answers reason) db) as Hst. rewrite Hr in Hst.
    destruct Hst as [Hst Hng]. destruct answer as [[]|]; try done. by destruct (Hng grantMicros creditTransactionId).
  - apply refusal_of_none in Er as [m He]. apply evaluate_eligible in He as (-> & Hg & Htok & Hred).
    unfold grant_feedback, commit_grant. destruct (write_grant _ _ _ _ _) as [unique|[db1 tx]] eqn:Ew.
    + intros Hr. pose proof (refuse_store (provider_of cfg) sl (if unique then already_granted else grant_error) false db) as Hst. rewrite Hr in Hst.
      destruct Hst as [Hst Hng]. destruct answer as [[]|]; done.
    + intros [= <- <- <-]. split; [|done]. pose proof (write_grant_pays _ _ _ _ _ _ _ Ew Hok) as (row & t & H1 & H2 & H3 & H4 & H5 & H6 & H7 & H8 & _).
      assert (Hws : exists w, workspaces (fb_store db) !! sl_workspaceId sl = Some w /\
        workspaces (fb_store db1) = <[sl_workspaceId sl := add_balance (fg_grantMicros cfg) w]> (workspaces (fb_store db))).
      { apply write_grant_some in Ew as (store & entry & row' & Ha & _ & _ & Hi). apply insert_submission_ok in Hi as (_ & Hst & _).
        unfold appendWithin in Ha. apply bind_ok in Ha as (u & _ & Ha). apply append_ok in Ha as (w & Hw & _ & Hws & _).
        exists w. split; [exact Hw|]. rewrite Hst. exact Hws. }
      assert (H9 : ct_workspaceId t = sl_workspaceId sl) by (rewrite <- H8; symmetry; apply H5).
      split; [done|]. split; [done|]. split; [done|]. split; [done|]. split; [done|]. split; [done|]. by exists row, t.
Qed.

(** Credit moves only for a submission the provider signed, that carries a token this
    deployment signed, recently, for an account that took a first grant in the workspace
    it names, spent it and was never paid before; then that workspace gains the grant
    and one entry and one submission record it.  Any other answer, errors included,
    leaves balances and ledger as they were. *)
Theorem only_earned_feedback_pays cfg rawBody signature rowId env now db db' events answer :
  feedback_ok db -> handleDelivery cfg rawBody signature rowId env now db = (db', events, answer) ->
  match answer with
  | Ok (fo_granted micros tx) =>
      exists form delivery payload claims,
        fg_form cfg = Some form /\ verifyTypeformSignature (ff_webhookSecret form) rawBody signature = true /\
        parseTypeformDelivery rawBody now = Some delivery /\
        (exists body mac, fd_token delivery = Some (body +++ "." +++ mac) /\ payload = bytes_text (from_base64url (units body)) /\
           text_bytes mac = text_bytes (sign (fg_authSecret cfg) payload)) /\
        payload_claims other_number payload = Some claims /\ fc_issuedAt claims <= now <= fc_issuedAt claims + fg_tokenTtl cfg /\
        earned cfg (fc_userId claims) (fc_workspaceId claims) rowId delivery db db' micros tx /\
        events = [event_granted tx (fc_userId claims) micros]
  | _ => fb_store db' = fb_store db
  end.
Proof.
  intros Hok. unfold handleDelivery. destruct (fg_form cfg) as [form|] eqn:Ef; [|by intros [= <- <- <-]].
  destruct (verifyTypeformSignature _ _ _) eqn:Ev; cbn [negb]; [|by intros [= <- <- <-]].
  destruct (parseTypeformDelivery rawBody now) as [delivery|] eqn:Ep; [|by intros [= <- <- <-]].
  destruct (verifyFeedbackToken _ _ _ _) as [claims|] eqn:Et; [|by intros [= <- <- <-]].
  intros Hs. pose proof (settle_earned _ _ _ _ _ _ Hok Hs) as He. destruct answer as [[micros tx| | |]|]; try done.
  destruct He as [He ->]. destruct (accepted_token_is_signed _ _ _ _ _ Et) as (payload & mac & body & Hsplit & Hpay & Hmac & Hclaims & Hnow).
  exists form, delivery, payload, claims.
  split; [done|split; [done|split; [done|split; [|split; [done|split; [lia|split; [apply He|done]]]]]]]. exists body, mac. split_and!; try done.
  destruct (fd_token delivery) as [token|] eqn:Etok; cbn [default from_option id] in Hsplit; [|done]. f_equal. by apply jsplit_two.
Qed.
End Earned.

(** ** A sample *)

#[local] Instance sample_feedback_platform : WebhookPlatform :=
  {| hmac_sha256 key message := map (fun c => c mod 256)%N (12%N :: take 6 (key ++ message)); text_bytes s := map (fun c => c mod 256)%N (units s);
     bytes_text := Js; toLowerCase s := s; parse_date _ := None; other_number _ := None |}.

Definition sample_feedback_config : FeedbackConfig :=
  {| fg_form := Some {| ff_provider := "typeform"; ff_url := "https://form.test"; ff_webhookSecret := "whs" |}; fg_grantMicros := 100;
     fg_offerBelowMicros := 10; fg_minMeteredTokens := 0; fg_tokenTtl := 600000; fg_webhooksPerMinute := 60; fg_authSecret := "secret" |}.

Definition sample_feedback_db : FeedbackDb :=
  {| fb_store := {| workspaces := {["ws-1" := plain_workspace 0]}; credit_transactions := []; invite_codes := ∅;
       invite_redemptions := [{| ir_id := "r-1"; ir_inviteCodeId := "c-1"; ir_userId := "user-1"; ir_workspaceId := "ws-1";
         ir_creditTransactionId := "t-0"; ir_ipHash := None; ir_userAgentHash := None; ir_redeemedAt := 0 |}] |};
     fb_submissions := []; fb_generations := [] |}.

Lemma sample_feedback_ok : feedback_ok sample_feedback_db.
Proof.
  split; cbn; try by constructor.
  - destruct (one_workspace_ok "ws-1") as [H1 H2 H3 H4]. by split.
  - by intros s u ?%elem_of_nil.
Qed.

Definition sample_submission (id : jstr) : FeedbackDelivery :=
  {| fd_submissionId := id; fd_formId := None; fd_token := Some (issueFeedbackToken "secret" {| fc_userId := "user-1"; fc_workspaceId := "ws-1"; fc_issuedAt := 1000 |});
     fd_submittedAt := 2000; fd_answers := []; fd_fields := [] |}.

Definition sample_settlement (row id : jstr) : settlement :=
  {| sl_delivery := sample_submission id; sl_userId := "user-1"; sl_workspaceId := "ws-1"; sl_rowId := row;
     sl_ledger := {| env_uuid := "t-" +++ row; env_now := 2000 |}; sl_now := 2000 |}.

(** Two submissions of one account pass every check before either writes. *)
Definition racing_deliveries : list delivery_run := [fresh_run (sample_settlement "a" "s1"); fresh_run (sample_settlement "b" "s2")].

Definition deliver_at (cfg : FeedbackConfig) (i : nat) (w : feedback_world) : feedback_world :=
  match snd w !! i with
  | Some r => match delivery_step cfg (fst w) r with Some (db', r') => (db', <[i := r']> (snd w)) | None => w end
  | None => w
  end.

Lemma deliver_at_step cfg i w : rtc (feedback_step cfg) w (deliver_at cfg i w).
Proof.
  destruct w as [db rs]. unfold deliver_at. cbn [fst snd]. destruct (rs !! i) as [r|] eqn:Ei; [|apply rtc_refl].
  destruct (delivery_step cfg db r) as [[db' r']|] eqn:Es; [|apply rtc_refl]. apply rtc_once. by econstructor.
Qed.

Definition race_schedule : list nat := [0; 1; 0; 1; 0; 1; 0; 1; 0; 1; 1; 0]%nat.

Definition raced_world : feedback_world := foldl (fun w i => deliver_at sample_feedback_config i w) (sample_feedback_db, racing_deliveries) race_schedule.

Lemma schedule_steps cfg schedule w : rtc (feedback_step cfg) w (foldl (fun w i => deliver_at cfg i w) w schedule).
Proof.
  revert w. induction schedule as [|i schedule IH]; intros w; [apply rtc_refl|]. cbn [foldl]. etrans; [apply deliver_at_step|apply IH].
Qed.

Example the_second_delivery_is_refused :
  map dr_pc (snd raced_world) = [Answered (Ok (fo_refused already_granted)); Answered (Ok (fo_granted 100 "t-b"))] /\
  map ct_amountMicros (credit_transactions (fb_store (fst raced_world))) = [100] /\ map fs_submissionId (fb_submissions (fst raced_world)) = ["s2" : jstr].
Proof. split_and!; vm_compute; reflexivity. Qed.

Lemma feedback_pays_once_witness :
  exists r1 r2, snd raced_world = [r1; r2] /\ ~ (granted_run r1 /\ granted_run r2).
Proof.
  assert (Hl : length (snd raced_world) = 2%nat) by (vm_compute; reflexivity).
  assert (E : map (fun r => sl_userId (dr_settlement r)) (snd raced_world) = ["user-1" : jstr; "user-1"]) by (vm_compute; reflexivity).
  destruct (feedback_pays_once sample_feedback_config sample_feedback_db racing_deliveries (fst raced_world) (snd raced_world)) as (_ & Hone & _).
  - exact sample_feedback_ok.
  - repeat constructor.
  - cbn. by apply (bool_decide_unpack _).
  - rewrite <- surjective_pairing. apply schedule_steps.
  - destruct (snd raced_world) as [|r1 [|r2 [|? ?]]]; [discriminate Hl..| |discriminate Hl]. exists r1, r2. split; [done|].
    intros [G1 G2]. assert (0%nat = 1%nat); [|done]. apply (Hone 0%nat 1%nat r1 r2 eq_refl eq_refl G1 G2). left. cbn in E. congruence.
Defined.

#[local] Instance sample_feedback_json : JsonEngine :=
  {| json_parse _ := Some (JObject [("event_type" : jstr, JString "form_response");
       ("form_response" : jstr, JObject [("token" : jstr, JString "s1"); ("hidden" : jstr, JObject [("t" : jstr, JString (default (Js []) (fd_token (sample_submission "s1"))))])])]);
     json_stringify _ := Js [] |}.

Definition sample_signature : jstr := SIGNATURE_PREFIX +++ Js (base64UrlEncode (hmac_sha256 (text_bytes "whs") [1; 2]%N)).

Definition sample_handled : delivery_answer :=
  handleDelivery sample_feedback_config [1; 2]%N (Some sample_signature) "a" {| env_uuid := "t-a"; env_now := 2000 |} 2000 sample_feedback_db.

Lemma only_earned_feedback_pays_witness :
  snd sample_handled = Ok (fo_granted 100 "t-a") /\
  exists claims delivery, fc_issuedAt claims <= 2000 <= fc_issuedAt claims + 600000 /\
    earned sample_feedback_config (fc_userId claims) (fc_workspaceId claims) "a" delivery sample_feedback_db (fst (fst sample_handled)) 100 "t-a".
Proof.
  assert (E : snd sample_handled = Ok (fo_granted 100 "t-a")) by (vm_compute; reflexivity). split; [exact E|].
  assert (Es : sample_handled = (fst (fst sample_handled), snd (fst sample_handled), Ok (fo_granted 100 "t-a"))) by (rewrite <- E; by rewrite <- !surjective_pairing).
  destruct (only_earned_feedback_pays sample_feedback_config [1; 2]%N (Some sample_signature) "a" {| env_uuid := "t-a"; env_now := 2000 |} 2000
    sample_feedback_db _ _ _ sample_feedback_ok Es) as (form & delivery & payload & claims & _ & _ & _ & _ & _ & Ht & He & _).
  exists claims, delivery. split; [exact Ht|exact He].
Defined.
