(* ===== verification/Activity.v ===== *)
(** * Activity

    [activity/buckets.ts] and [activity/activity.service.ts]: the numbers of the
    Activity, Overview and Profile screens, aggregated over the generations.  An
    aggregate is a function of the rows it ranges over; a ratio is exact where the
    code has the double next to it; which of two equal spends is listed first is the
    database's choice, here that of a stable sort. *)

From Stdlib Require Import QArith.
From S2P Require Import Prelude JsString ClientDimension StreamRelay Metering.
Open Scope Z_scope.

(** ** Buckets *)

Inductive BucketSize := hour | day.

Definition BUCKET_MS (size : BucketSize) : Z := match size with hour => 3600000 | day => 86400000 end.

(** The loop: [bucket < to], a step at a time. *)
Fixpoint starts_from (fuel : nat) (bucket to step : Z) : list Z :=
  match fuel with
  | O => []
  | S fuel => if bucket <? to then bucket :: starts_from fuel (bucket + step) to step else []
  end.

Definition bucketStarts (from to : Z) (size : BucketSize) : list Z :=
  let step := BUCKET_MS size in
  let first := from / step * step in
  starts_from (Z.to_nat ((to - first) / step + 1)) first to step.

(** [average] and [coverage]: no ratio over nothing. *)
Definition ratio (sum samples : Z) : option Q := if samples =? 0 then None else Some (inject_Z sum / inject_Z samples)%Q.

(** ** Totals *)

Record ActivityTotals := {
  at_requests : Z;
  at_coveredRequests : Z;
  at_coverableRequests : Z;
  at_promptTokens : Z;
  at_completionTokens : Z;
  at_spendMicros : Z;
  at_evidenceCoverage : option Q
}.

Definition sum_of (f : Generation -> Z) (rows : list Generation) : Z := sumZ (map f rows).

Definition is_covered (g : Generation) : Z := if is_some (ge_evidenceSnapshotId g) then 1 else 0.
Definition is_coverable (g : Generation) : Z := if is_some (ge_externalEndpointId g) then 0 else 1.

(** [TOTALS_SELECTS] and [totalsOf]. *)
Definition totalsOf (rows : list Generation) : ActivityTotals :=
  {| at_requests := Z.of_nat (length rows);
     at_coveredRequests := sum_of is_covered rows;
     at_coverableRequests := sum_of is_coverable rows;
     at_promptTokens := sum_of ge_promptTokens rows;
     at_completionTokens := sum_of ge_completionTokens rows;
     at_spendMicros := sum_of ge_costMicros rows;
     at_evidenceCoverage := ratio (sum_of is_covered rows) (sum_of is_coverable rows) |}.

Definition EMPTY_TOTALS : ActivityTotals :=
  {| at_requests := 0; at_coveredRequests := 0; at_coverableRequests := 0; at_promptTokens := 0; at_completionTokens := 0;
     at_spendMicros := 0; at_evidenceCoverage := None |}.

(** ** The service *)

Record ActivityRange := { rg_workspaceId : jstr; rg_from : Z; rg_to : Z }.

Definition MAX_RANGE_DAYS : Z := 400.

Inductive range_error := end_before_start | range_too_long.

Definition in_scope (range : ActivityRange) (g : Generation) : bool :=
  jeqb (ge_workspaceId g) (rg_workspaceId range) && (rg_from range <=? ge_createdAt g) && (ge_createdAt g <? rg_to range).

Definition scope (range : ActivityRange) (table : list Generation) : result range_error (list Generation) :=
  if rg_to range <=? rg_from range then Err end_before_start
  else if MAX_RANGE_DAYS * BUCKET_MS day <? rg_to range - rg_from range then Err range_too_long
  else Ok (List.filter (in_scope range) table).

Record ActivitySummary := {
  as_totals : ActivityTotals;
  as_avgTimeToFirstTokenMs : option Q;
  as_avgTokensPerSecond : option Q;            (* thousandths *)
  as_timedRequests : Z;
  as_ratedRequests : Z
}.

(** [SUM(CASE … IS NULL THEN 0 …)] and [COUNT] of a nullable column. *)
Definition sum_column (f : Generation -> option Z) (rows : list Generation) : Z := sum_of (fun g => default 0 (f g)) rows.
Definition count_column (f : Generation -> option Z) (rows : list Generation) : Z := Z.of_nat (length (omap f rows)).

Definition summary (range : ActivityRange) (table : list Generation) : result range_error ActivitySummary :=
  rows ← scope range table;
  Ok {| as_totals := totalsOf rows;
        as_avgTimeToFirstTokenMs := ratio (sum_column ge_timeToFirstTokenMs rows) (count_column ge_timeToFirstTokenMs rows);
        as_avgTokensPerSecond := ratio (sum_column ge_tokensPerSecond rows) (count_column ge_tokensPerSecond rows);
        as_timedRequests := count_column ge_timeToFirstTokenMs rows;
        as_ratedRequests := count_column ge_tokensPerSecond rows |}.

(** [GROUP BY]: the keys that occur, each with its rows. *)
Definition group_by {K} `{EqDecision K} (key : Generation -> K) (rows : list Generation) : list (K * list Generation) :=
  map (fun k => (k, List.filter (fun g => bool_decide (key g = k)) rows)) (remove_dups (map key rows)).

(** [((createdAt / step) * step)], the division of SQL. *)
Definition bucketExpression (size : BucketSize) (g : Generation) : Z := Z.quot (ge_createdAt g) (BUCKET_MS size) * BUCKET_MS size.

Definition series (range : ActivityRange) (size : BucketSize) (table : list Generation) : result range_error (list (Z * ActivityTotals)) :=
  rows ← scope range table;
  let byBucket := map (fun kr => (fst kr, totalsOf (snd kr))) (group_by (bucketExpression size) rows) in
  Ok (map (fun start => (start, default EMPTY_TOTALS (snd <$> find_first (fun b => fst b =? start) byBucket)))
        (bucketStarts (rg_from range) (rg_to range) size)).

(** [ORDER BY "spendMicros" DESC] *)
Definition dearer {A} (a b : A * ActivityTotals) : bool := at_spendMicros (snd b) <? at_spendMicros (snd a).

Definition by_spend {K} (groups : list (K * list Generation)) : list (K * ActivityTotals) :=
  sort_by dearer (map (fun kr => (fst kr, totalsOf (snd kr))) groups).

Record KeyUsage := { ku_apiKeyId : option jstr; ku_name : jstr; ku_prefix : option jstr; ku_totals : ActivityTotals }.

(** [apiKeys] and [models] are the joined tables. *)
Definition topKeys (apiKeys : jstr -> option (jstr * jstr)) (range : ActivityRange) (limit : nat) (table : list Generation)
    : result range_error (list KeyUsage) :=
  rows ← scope range table;
  Ok (map (fun kt => let joined := fst kt ≫= apiKeys in
                     {| ku_apiKeyId := fst kt; ku_name := default ("Deleted key" : jstr) (fst <$> joined); ku_prefix := snd <$> joined;
                        ku_totals := snd kt |})
        (take limit (by_spend (group_by ge_apiKeyId rows)))).

Record ModelUsage := { mu_modelId : jstr; mu_name : jstr; mu_totals : ActivityTotals }.

Definition usageByModel (models : jstr -> option jstr) (range : ActivityRange) (limit : option nat) (table : list Generation)
    : result range_error (list ModelUsage) :=
  rows ← scope range table;
  let listed := by_spend (group_by ge_modelId rows) in
  Ok (map (fun kt => {| mu_modelId := fst kt; mu_name := default (fst kt) (models (fst kt)); mu_totals := snd kt |})
        (match limit with Some n => take n listed | None => listed end)).

Definition signedResponseDays (workspaceId : jstr) (days now : Z) (table : list Generation) : result range_error (list Z) :=
  rows ← scope {| rg_workspaceId := workspaceId; rg_from := now - days * BUCKET_MS day; rg_to := now |} table;
  Ok (sort_by Z.ltb (remove_dups (map (bucketExpression day) (List.filter (fun g => is_some (ge_evidenceSnapshotId g)) rows)))).

(** ** Lemmas *)

(** The columns that add up. *)
Definition measures : list (ActivityTotals -> Z) :=
  [at_requests; at_coveredRequests; at_coverableRequests; at_promptTokens; at_completionTokens; at_spendMicros].

Lemma measure_is_sum g : In g measures -> exists f, forall rows, g (totalsOf rows) = sum_of f rows.
Proof.
  assert (Hone : forall rows : list Generation, Z.of_nat (length rows) = sum_of (fun _ => 1) rows).
  { intros rows. unfold sum_of. induction rows as [|r rows IH]; [done|]. cbn [length map sumZ foldr]. fold (sumZ (map (fun _ : Generation => 1) rows)). lia. }
  intros [<-|[<-|[<-|[<-|[<-|[<-|[]]]]]]]; [exists (fun _ => 1); apply Hone|by eexists..].
Qed.

Lemma sum_of_cons f g rows : sum_of f (g :: rows) = f g + sum_of f rows.
Proof. done. Qed.

Lemma sumZ_map_add {A} (f g : A -> Z) l : sumZ (map (fun x => f x + g x) l) = sumZ (map f l) + sumZ (map g l).
Proof. induction l as [|x l IH]; [done|]. cbn [map sumZ foldr]. fold (sumZ (map (fun x => f x + g x) l)) (sumZ (map f l)) (sumZ (map g l)). lia. Qed.

(** Rows grouped by a key, over any list of distinct keys that has them all. *)
Lemma sum_by_key {K} `{EqDecision K} (key : Generation -> K) f keys rows : NoDup keys -> (forall g, g ∈ rows -> key g ∈ keys) ->
  sumZ (map (fun k => sum_of f (List.filter (fun g => bool_decide (key g = k)) rows)) keys) = sum_of f rows.
Proof.
  intros Hnd. induction rows as [|g rows IH]; intros Hin.
  { unfold sum_of. cbn. clear. induction keys as [|k keys IH]; [done|]. cbn. unfold sumZ in IH. lia. }
  rewrite sum_of_cons, <- IH by (intros x Hx; apply Hin; by right).
  transitivity (sumZ (map (fun k => (if decide (key g = k) then f g else 0) + sum_of f (List.filter (fun x => bool_decide (key x = k)) rows)) keys)).
  { f_equal. apply map_ext. intros k. cbn [List.filter]. destruct (decide (key g = k)) as [E|E]; [by rewrite bool_decide_true|by rewrite bool_decide_false]. }
  rewrite sumZ_map_add. f_equal. specialize (Hin g (list_elem_of_here _ _)). clear IH.
  induction keys as [|k keys IHk]; [by apply elem_of_nil in Hin|]. apply NoDup_cons in Hnd as [Hk Hnd]. cbn [map sumZ foldr].
  fold (sumZ (map (fun k => if decide (key g = k) then f g else 0) keys)). destruct (decide (key g = k)) as [<-|E].
  - assert (Hz : sumZ (map (fun k => if decide (key g = k) then f g else 0) keys) = 0); [|lia].
    revert Hk. clear. induction keys as [|k keys IH]; [done|]. intros [Hne Hk]%not_elem_of_cons. cbn. rewrite decide_False by done. by apply IH.
  - apply elem_of_cons in Hin as [Hin|Hin]; [by destruct E|]. rewrite (IHk Hnd Hin). lia.
Qed.

Lemma group_adds_up {K} `{EqDecision K} (key : Generation -> K) g rows : In g measures ->
  sumZ (map (fun kr => g (totalsOf (snd kr))) (group_by key rows)) = g (totalsOf rows).
Proof.
  intros [f Hf]%measure_is_sum. unfold group_by. rewrite map_map. cbn [snd]. rewrite Hf.
  transitivity (sumZ (map (fun k => sum_of f (List.filter (fun g => bool_decide (key g = k)) rows)) (remove_dups (map key rows)))).
  { f_equal. apply map_ext. intros k. by rewrite Hf. }
  apply sum_by_key; [apply NoDup_remove_dups|]. intros x Hx. apply elem_of_remove_dups. by apply list_elem_of_fmap_2.
Qed.

(** *** The buckets *)

Lemma starts_from_spec fuel bucket to step b : 0 < step -> to - bucket < Z.of_nat fuel * step ->
  b ∈ starts_from fuel bucket to step <-> exists k, 0 <= k /\ b = bucket + k * step /\ b < to.
Proof.
  intros Hs. revert bucket. induction fuel as [|fuel IH]; intros bucket Hf; cbn [starts_from].
  - split; [by intros ?%elem_of_nil|]. intros (k & Hk & -> & Hlt). nia.
  - destruct (Z.ltb_spec bucket to) as [Hlt|Hge].
    + rewrite elem_of_cons, IH by lia. split.
      * intros [->|(k & Hk & -> & Hb)]; [exists 0; lia|]. exists (k + 1). lia.
      * intros (k & Hk & -> & Hb). destruct (decide (k = 0)) as [->|Hne]; [left; lia|]. right. exists (k - 1). lia.
    + split; [by intros ?%elem_of_nil|]. intros (k & Hk & -> & Hlt). nia.
Qed.

Lemma starts_from_sorted fuel bucket to step : 0 < step ->
  StronglySorted Z.lt (starts_from fuel bucket to step) /\ Forall (fun b => bucket <= b) (starts_from fuel bucket to step).
Proof.
  intros Hs. revert bucket. induction fuel as [|fuel IH]; intros bucket; cbn [starts_from]; [by split; constructor|].
  destruct (bucket <? to); [|by split; constructor]. destruct (IH (bucket + step)) as [H1 H2]. split.
  - constructor; [done|]. eapply Forall_impl; [exact H2|]. cbn. lia.
  - constructor; [lia|]. eapply Forall_impl; [exact H2|]. cbn. lia.
Qed.

Lemma BUCKET_MS_pos size : 0 < BUCKET_MS size.
Proof. by destruct size. Qed.

Lemma bucketStarts_spec from to size b : b ∈ bucketStarts from to size <->
  from - BUCKET_MS size < b < to /\ (BUCKET_MS size | b).
Proof.
  unfold bucketStarts. pose proof (BUCKET_MS_pos size) as Hs. set (step := BUCKET_MS size) in *.
  pose proof (Z.div_mod from step ltac:(lia)) as Hd. pose proof (Z.mod_pos_bound from step Hs) as Hm.
  set (first := from / step * step). assert (Hfirst : from - step < first <= from) by (unfold first; lia).
  assert (Hfuel : to - first < Z.of_nat (Z.to_nat ((to - first) / step + 1)) * step).
  { pose proof (Z.div_mod (to - first) step ltac:(lia)). pose proof (Z.mod_pos_bound (to - first) step Hs).
    destruct (Z.le_gt_cases 0 ((to - first) / step + 1)); [rewrite Z2Nat.id by done; lia|]. rewrite Z2Nat.nonpos by lia. nia. }
  rewrite starts_from_spec by done. split.
  - intros (k & Hk & -> & Hb). split; [nia|]. exists (from / step + k). unfold first. lia.
  - intros [Hb [q ->]]. exists (q - from / step). unfold first in *. nia.
Qed.

Lemma bucketStarts_sorted from to size : StronglySorted Z.lt (bucketStarts from to size).
Proof. apply starts_from_sorted, BUCKET_MS_pos. Qed.

Lemma sorted_lt_nodup l : StronglySorted Z.lt l -> NoDup l.
Proof.
  induction 1 as [|x l Hl IH Hx]; constructor; [|done]. intros Hin. rewrite Forall_forall in Hx. specialize (Hx x Hin). lia.
Qed.

(** A row of the range is in exactly one bucket of it. *)
Lemma bucket_of_row range size g : in_scope range g = true -> 0 <= ge_createdAt g ->
  bucketExpression size g ∈ bucketStarts (rg_from range) (rg_to range) size.
Proof.
  intros Hin Hpos. apply bucketStarts_spec. unfold in_scope in Hin. apply andb_true_iff in Hin as [[_ H1]%andb_true_iff H2].
  unfold bucketExpression. pose proof (BUCKET_MS_pos size) as Hs. rewrite Z.quot_div_nonneg by lia.
  pose proof (Z.div_mod (ge_createdAt g) (BUCKET_MS size) ltac:(lia)). pose proof (Z.mod_pos_bound (ge_createdAt g) (BUCKET_MS size) Hs).
  split; [lia|]. by exists (ge_createdAt g / BUCKET_MS size).
Qed.

Lemma scope_ok range table rows : scope range table = Ok rows -> rows = List.filter (in_scope range) table.
Proof. unfold scope. repeat case_match; congruence. Qed.

(** The totals a point carries. *)
Lemma point_totals {K} `{EqDecision K} (key : Generation -> K) (eqb : K -> K -> bool) rows k : (forall a b, eqb a b = true <-> a = b) ->
  default EMPTY_TOTALS (snd <$> find_first (fun b => eqb (fst b) k) (map (fun kr => (fst kr, totalsOf (snd kr))) (group_by key rows))) =
  totalsOf (List.filter (fun g => bool_decide (key g = k)) rows).
Proof.
  intros Heq. set (found := find_first _ _). destruct found as [[k' t]|] eqn:E.
  - apply find_first_some in E as [E1 E2]. cbn [fst] in E2. apply Heq in E2 as ->.
    unfold group_by in E1. rewrite map_map in E1. apply list_elem_of_fmap in E1 as (k' & E1 & _). cbn in E1. injection E1 as <- ->. done.
  - unfold found in E. rewrite find_first_none in E. cbn. destruct (List.filter (fun g => bool_decide (key g = k)) rows) as [|g l] eqn:Ef; [done|].
    assert (Hg : g ∈ List.filter (fun g => bool_decide (key g = k)) rows) by (rewrite Ef; by left).
    apply list_elem_of_In, filter_In in Hg as [Hg Ek]. apply bool_decide_eq_true in Ek.
    exfalso. assert (Hin : (k, totalsOf (List.filter (fun g => bool_decide (key g = k)) rows)) ∈ map (fun kr => (fst kr, totalsOf (snd kr))) (group_by key rows)).
    { unfold group_by. rewrite map_map. cbn [fst snd]. apply list_elem_of_fmap. exists k. split; [done|]. apply elem_of_remove_dups. rewrite <- Ek. apply list_elem_of_fmap_2. by apply list_elem_of_In. }
    specialize (E _ Hin). cbn in E. apply not_true_iff_false in E. apply E. by apply Heq.
Qed.

Lemma by_spend_perm {K} (groups : list (K * list Generation)) : by_spend groups ≡ₚ map (fun kr => (fst kr, totalsOf (snd kr))) groups.
Proof. apply sort_by_perm. Qed.

Lemma by_spend_adds_up {K} `{EqDecision K} (key : Generation -> K) g rows : In g measures ->
  sumZ (map (fun kt => g (snd kt)) (by_spend (group_by key rows))) = g (totalsOf rows).
Proof.
  intros Hg. rewrite <- (group_adds_up key g rows Hg). etrans; [apply sumZ_perm; by rewrite by_spend_perm|]. by rewrite map_map.
Qed.

Lemma by_spend_sorted {K} (groups : list (K * list Generation)) :
  StronglySorted (fun a b => at_spendMicros (snd b) <= at_spendMicros (snd a)) (by_spend groups).
Proof.
  eapply StronglySorted_weaken; [|apply sort_by_sorted].
  - intros a b Hab. unfold dearer in Hab. lia.
  - intros a b. unfold dearer. lia.
  - intros a b c. unfold dearer. lia.
Qed.

Lemma sorted_map {A B} (f : A -> B) (R : B -> B -> Prop) l : StronglySorted (fun a b => R (f a) (f b)) l -> StronglySorted R (map f l).
Proof. induction 1; cbn; constructor; [done|]. by apply Forall_map. Qed.

Lemma by_spend_keys {K} `{EqDecision K} (key : Generation -> K) rows : NoDup (map fst (by_spend (group_by key rows))).
Proof.
  rewrite by_spend_perm. unfold group_by. rewrite !map_map. cbn [fst]. rewrite map_id. apply NoDup_remove_dups.
Qed.

Lemma sort_ltb_sorted l : NoDup l -> StronglySorted Z.lt (sort_by Z.ltb l).
Proof.
  intros Hnd. assert (Hs : StronglySorted (fun a b => (b <? a) = false) (sort_by Z.ltb l)) by (apply (sort_by_sorted Z.ltb); [intros a b; rewrite !Z.ltb_ge; lia|intros a b c H1 H2; apply Z.ltb_ge in H1, H2; apply Z.ltb_ge; lia]).
  assert (Hnd' : NoDup (sort_by Z.ltb l)) by (by rewrite sort_by_perm). induction Hs as [|x r Hr IH Hx]; [constructor|].
  apply NoDup_cons in Hnd' as [Hn Hnd']. constructor; [by apply IH|]. apply Forall_forall. intros y Hy. rewrite Forall_forall in Hx.
  specialize (Hx y Hy). assert (x <> y) by (intros ->; done). lia.
Qed.

(** ** Properties *)

(** The screens agree: over one range the points of the series (each bucket once, in
    order, quiet ones at zero), the models and the keys each add up to the summary in
    every count, and the lists come dearest first. *)
Theorem activity_adds_up apiKeys models range size table s : Forall (fun g => 0 <= ge_createdAt g) table ->
  summary range table = Ok s ->
  exists points usage keys,
    series range size table = Ok points /\ usageByModel models range None table = Ok usage /\
    (forall limit, exists l, topKeys apiKeys range limit table = Ok l /\ l = take limit keys) /\
    map fst points = bucketStarts (rg_from range) (rg_to range) size /\ StronglySorted Z.lt (map fst points) /\
    (forall g, In g measures ->
       sumZ (map (fun p => g (snd p)) points) = g (as_totals s) /\ sumZ (map (fun u => g (mu_totals u)) usage) = g (as_totals s) /\
       sumZ (map (fun k => g (ku_totals k)) keys) = g (as_totals s)) /\
    StronglySorted (fun a b => at_spendMicros (mu_totals b) <= at_spendMicros (mu_totals a)) usage /\
    StronglySorted (fun a b => at_spendMicros (ku_totals b) <= at_spendMicros (ku_totals a)) keys /\
    NoDup (map mu_modelId usage) /\ NoDup (map ku_apiKeyId keys).
Proof.
  intros Hpos. unfold summary, series, usageByModel, topKeys. destruct (scope range table) as [rows|e] eqn:Es; [|done]. intros [= <-].
  cbn [mbind result_bind as_totals]. pose proof (scope_ok _ _ _ Es) as Hrows.
  set (starts := bucketStarts (rg_from range) (rg_to range) size).
  eexists _, _, (map _ (by_spend (group_by ge_apiKeyId rows))). split_and!; [done|done| | | | | | | |].
  - intros limit. eexists. split; [done|]. by rewrite firstn_map.
  - rewrite map_map. cbn [fst]. apply map_id.
  - rewrite map_map. cbn [fst]. rewrite map_id. apply bucketStarts_sorted.
  - intros g Hg. split_and!; [|rewrite map_map; by apply (by_spend_adds_up ge_modelId)|rewrite map_map; by apply (by_spend_adds_up ge_apiKeyId)].
    rewrite map_map. cbn [snd]. destruct (measure_is_sum g Hg) as [f Hf]. rewrite Hf.
    rewrite <- (sum_by_key (bucketExpression size) f starts rows).
    + f_equal. apply map_ext. intros k. rewrite (point_totals (bucketExpression size) Z.eqb rows k Z.eqb_eq). apply Hf.
    + apply sorted_lt_nodup, bucketStarts_sorted.
    + intros x Hx. rewrite Hrows in Hx. apply list_elem_of_In, filter_In in Hx as [Hx Hin]. apply bucket_of_row; [done|].
      rewrite Forall_forall in Hpos. by apply Hpos, list_elem_of_In.
  - apply sorted_map. cbn. apply by_spend_sorted.
  - apply sorted_map. cbn. apply by_spend_sorted.
  - rewrite map_map. cbn [mu_modelId]. apply by_spend_keys.
  - rewrite map_map. cbn [ku_apiKeyId]. apply by_spend_keys.
Qed.

(** A ratio of coverage is one: between nothing and everything, when no row names both an
    external endpoint and evidence of this deployment. *)
Lemma coverage_is_a_share rows q : Forall (fun g => is_some (ge_evidenceSnapshotId g) = true -> ge_externalEndpointId g = None) rows ->
  at_evidenceCoverage (totalsOf rows) = Some q -> (0 <= q <= 1)%Q.
Proof.
  intros Hrows. cbn. unfold ratio. destruct (Z.eqb_spec (sum_of is_coverable rows) 0) as [|Hne]; [done|]. intros [= <-].
  assert (H : 0 <= sum_of is_covered rows <= sum_of is_coverable rows).
  { clear Hne. induction Hrows as [|g rows Hg _ IH]; [done|]. rewrite !sum_of_cons.
    assert (0 <= is_covered g <= is_coverable g); [|lia]. unfold is_covered, is_coverable.
    destruct (is_some (ge_evidenceSnapshotId g)); [rewrite (Hg eq_refl)|destruct (is_some (ge_externalEndpointId g))]; cbn; lia. }
  assert (Hp : (0 < inject_Z (sum_of is_coverable rows))%Q) by (change 0%Q with (inject_Z 0); rewrite <- Zlt_Qlt; lia).
  split.
  - apply Qle_shift_div_l; [done|]. rewrite Qmult_0_l. change 0%Q with (inject_Z 0). rewrite <- Zle_Qle. lia.
  - apply Qle_shift_div_r; [done|]. rewrite Qmult_1_l. rewrite <- Zle_Qle. lia.
Qed.

(** The days of the heatmap are the days of the window with a covered request, each once,
    oldest first. *)
Theorem signed_days_are_covered_days workspaceId days now table l : signedResponseDays workspaceId days now table = Ok l ->
  StronglySorted Z.lt l /\
  forall d, d ∈ l <-> exists g, g ∈ table /\ ge_workspaceId g = workspaceId /\ now - days * BUCKET_MS day <= ge_createdAt g < now /\
    is_some (ge_evidenceSnapshotId g) = true /\ d = bucketExpression day g.
Proof.
  unfold signedResponseDays. destruct (scope _ table) as [rows|e] eqn:Es; [|done]. intros [= <-]. apply scope_ok in Es as ->. split.
  - apply sort_ltb_sorted, NoDup_remove_dups.
  - intros d. rewrite (sort_by_perm Z.ltb). rewrite elem_of_remove_dups, list_elem_of_fmap. split.
    + intros (g & -> & Hg). apply list_elem_of_In, filter_In in Hg as [Hg Hc]. apply filter_In in Hg as [Hg Hs].
      unfold in_scope in Hs. cbn [rg_workspaceId rg_from rg_to] in Hs. apply andb_true_iff in Hs as [[H1%jeqb_eq H2]%andb_true_iff H3]. exists g. split_and!; [by apply list_elem_of_In|done|lia|lia|done|done].
    + intros (g & Hg & Hw & Ht & Hc & ->). exists g. split; [done|]. apply list_elem_of_In, filter_In. split; [|done]. apply filter_In. split; [by apply list_elem_of_In|].
      unfold in_scope. cbn [rg_workspaceId rg_from rg_to]. rewrite (proj2 (jeqb_eq _ _) Hw). cbn [andb]. apply andb_true_iff. split; lia.
Qed.

(** ** A sample *)

Definition sample_generation (id key model : jstr) (tokens cost at_time : Z) (snapshot : option jstr) : Generation :=
  {| ge_id := id; ge_workspaceId := "w"; ge_apiKeyId := Some key; ge_modelId := model; ge_endpointId := Some ("e" : jstr); ge_externalEndpointId := None;
     ge_evidenceSnapshotId := snapshot; ge_evidenceDigest := None; ge_promptTokens := tokens; ge_completionTokens := tokens; ge_costMicros := cost;
     ge_promptPer1mMicros := 0; ge_completionPer1mMicros := 0; ge_streamed := false; ge_status := generation_ok; ge_errorCode := None; ge_finishReason := None;
     ge_latencyMs := 5; ge_timeToFirstTokenMs := None; ge_tokensPerSecond := None; ge_requestId := None; ge_clientIpHash := None; ge_client := other;
     ge_createdAt := at_time |}.

Definition sample_generations : list Generation :=
  [sample_generation "g1" "k1" "m1" 5 10 1000 None; sample_generation "g2" "k2" "m1" 5 30 3600000 (Some ("s" : jstr));
   sample_generation "g3" "k1" "m2" 7 15 90000000 (Some ("s" : jstr))].

Definition sample_range : ActivityRange := {| rg_workspaceId := "w"; rg_from := 0; rg_to := 100000000 |}.

Lemma activity_adds_up_witness :
  exists points keys, series sample_range day sample_generations = Ok points /\ map fst points = [0; 86400000] /\
    sumZ (map (fun p => at_spendMicros (snd p)) points) = 55 /\ sumZ (map (fun k => at_spendMicros (ku_totals k)) keys) = 55 /\ length keys = 2%nat.
Proof.
  destruct (summary sample_range sample_generations) as [s|e] eqn:E; [|by vm_compute in E].
  destruct (activity_adds_up (fun _ => None) (fun _ => None) sample_range day sample_generations s) as (points & usage & keys & H1 & _ & H2 & H3 & _ & H4 & _).
  - repeat constructor; vm_compute; congruence.
  - exact E.
  - assert (Es : at_spendMicros (as_totals s) = 55) by (vm_compute in E; injection E as <-; reflexivity).
    assert (Hin : In at_spendMicros measures) by (unfold measures; cbn; tauto).
    destruct (H4 at_spendMicros Hin) as (H5 & _ & H6). exists points, keys. split_and!; [exact H1|rewrite H3; vm_compute; reflexivity|congruence|congruence|].
    destruct (H2 5%nat) as (l & Hl & El). vm_compute in Hl. injection Hl as Hl. destruct (H2 (length keys)) as (l' & Hl' & El').
    rewrite firstn_all in El'. subst l'. destruct keys as [|k1 [|k2 [|k3 keys]]]; rewrite <- Hl in El; try discriminate El. reflexivity.
Defined.

Lemma signed_days_are_covered_days_witness :
  exists l, signedResponseDays "w" 2 172800000 sample_generations = Ok l /\ StronglySorted Z.lt l /\ l = [0; 86400000].
Proof.
  eexists. split; [vm_compute; reflexivity|]. split; [|reflexivity].
  apply (signed_days_are_covered_days "w" 2 172800000 sample_generations). vm_compute. reflexivity.
Defined.
