(* ===== verification/GenerationLog.v ===== *)
(** * The generation log

    [activity/generation-log.service.ts] and the CSV of [activity/activity.controller.ts]:
    the filtered, sorted, cursor-paginated view of the generations, and the same query
    streamed chunk by chunk into a file. *)

From S2P Require Import Prelude JsString JsDate ClientDimension StreamRelay Metering LedgerPages Csv.

(** ** The query *)

Inductive GenerationSortField := sort_createdAt | sort_costMicros | sort_latencyMs | sort_totalTokens.
Inductive SortDirection := ASC | DESC.

Record GenerationSort := { so_field : GenerationSortField; so_direction : SortDirection }.

#[global] Instance status_eq_dec : EqDecision GenerationStatus.
Proof. solve_decision. Defined.

(** An absent list and an empty one ask for nothing. *)
Record GenerationFilter := {
  gf_from : option Z; gf_to : option Z; gf_modelIds : list jstr; gf_apiKeyIds : list jstr; gf_statuses : list GenerationStatus
}.

Record GenerationLogQuery := {
  gq_workspaceId : jstr; gq_filter : GenerationFilter; gq_sort : option GenerationSort; gq_first : option Z; gq_after : option jstr
}.

Record GenerationRow := { gr_generation : Generation; gr_modelName : jstr; gr_apiKeyName : option jstr }.

Record GenerationPage := {
  gp_edges : list (jstr * GenerationRow); gp_hasNextPage : bool; gp_endCursor : option jstr; gp_totalCount : Z
}.

Definition DEFAULT_LOG_PAGE_SIZE : Z := 50.
Definition MAX_LOG_PAGE_SIZE : Z := 200.
Definition EXPORT_CHUNK : nat := 500.

Definition log_page_size (first : option Z) : nat := Z.to_nat (Z.min (Z.max (default DEFAULT_LOG_PAGE_SIZE first) 1) MAX_LOG_PAGE_SIZE).

Definition sortValueOf (field : GenerationSortField) (g : Generation) : Z :=
  match field with
  | sort_createdAt => ge_createdAt g
  | sort_costMicros => ge_costMicros g
  | sort_latencyMs => ge_latencyMs g
  | sort_totalTokens => ge_promptTokens g + ge_completionTokens g
  end.

(** [field IN (…)] *)
Definition among {A} `{EqDecision A} (wanted : list A) (x : A) : bool :=
  match wanted with [] => true | _ => existsb (fun w => bool_decide (w = x)) wanted end.

Definition log_scope (workspaceId : jstr) (filter : GenerationFilter) (g : Generation) : bool :=
  jeqb (ge_workspaceId g) workspaceId &&
  match gf_from filter with Some from => from <=? ge_createdAt g | None => true end &&
  match gf_to filter with Some to => ge_createdAt g <? to | None => true end &&
  among (gf_modelIds filter) (ge_modelId g) &&
  match gf_apiKeyIds filter with [] => true | ids => match ge_apiKeyId g with Some id => among ids id | None => false end end &&
  among (gf_statuses filter) (ge_status g).

Definition log_cursor (field : GenerationSortField) (g : Generation) : Cursor := {| cursor_value := sortValueOf field g; cursor_id := ge_id g |}.

(** [ORDER BY field direction, id direction]: [a] comes before [b]. *)
Definition descends (v : Z) (i : jstr) (w : Z) (j : jstr) : bool := (w <? v) || (v =? w) && jltb j i.

Definition precedes (sort : GenerationSort) (a b : Generation) : bool :=
  let v := sortValueOf (so_field sort) in
  match so_direction sort with
  | DESC => descends (v a) (ge_id a) (v b) (ge_id b)
  | ASC => descends (v b) (ge_id b) (v a) (ge_id a)
  end.

(** [field < :value OR (field = :value AND id < :id)], or [>] on an ascending sort. *)
Definition beyond (sort : GenerationSort) (c : Cursor) (g : Generation) : bool :=
  let value := sortValueOf (so_field sort) g in
  match so_direction sort with
  | DESC => (value <? cursor_value c) || (value =? cursor_value c) && jltb (ge_id g) (cursor_id c)
  | ASC => (cursor_value c <? value) || (value =? cursor_value c) && jltb (cursor_id c) (ge_id g)
  end.

(** A member of the query string: given once or several times. *)
Inductive query_value := one_value (v : jstr) | many_values (vs : list jstr).

Definition toList (value : option query_value) : option (list jstr) :=
  let entries vs := List.filter (fun v => negb (jlength v =? 0)) (map jtrim vs) in
  match value with
  | None => None
  | Some (one_value v) => if jlength v =? 0 then None else Some (entries (jsplit 44%N v))
  | Some (many_values vs) => Some (entries vs)
  end.

Section Log.
Context {K : CursorCodec}.

(** [sorted] and [take]. *)
Definition sorted_rows (sort : GenerationSort) (after : option jstr) (n : nat) (rows : list Generation) : result page_error (list Generation) :=
  match present after with
  | None => Ok (take n (sort_by (precedes sort) rows))
  | Some after =>
      cursor ← decodeCursor after;
      Ok (take n (sort_by (precedes sort) (List.filter (beyond sort cursor) rows)))
  end.

(** [resolveNames]; the tables of models and keys by id. *)
Definition resolveNames (models apiKeys : jstr -> option jstr) (rows : list Generation) : list GenerationRow :=
  map (fun g => {| gr_generation := g; gr_modelName := default (ge_modelId g) (models (ge_modelId g));
                   gr_apiKeyName := present (ge_apiKeyId g) ≫= apiKeys |}) rows.

Definition log_sort (query : GenerationLogQuery) : GenerationSort :=
  default {| so_field := sort_createdAt; so_direction := DESC |} (gq_sort query).

Definition log_page (models apiKeys : jstr -> option jstr) (query : GenerationLogQuery) (table : list Generation) : result page_error GenerationPage :=
  let sort := log_sort query in
  let size := log_page_size (gq_first query) in
  let mine := List.filter (log_scope (gq_workspaceId query) (gq_filter query)) table in
  rows ← sorted_rows sort (gq_after query) (S size) mine;
  let hasNextPage := (size <? length rows)%nat in
  let nodes := if hasNextPage then take size rows else rows in
  let edges := map (fun row => (encodeCursor (log_cursor (so_field sort) (gr_generation row)), row)) (resolveNames models apiKeys nodes) in
  Ok {| gp_edges := edges; gp_hasNextPage := hasNextPage; gp_endCursor := fst <$> last edges; gp_totalCount := Z.of_nat (length mine) |}.

Definition oldest_first : GenerationSort := {| so_field := sort_createdAt; so_direction := ASC |}.

(** The loop of [exportCsv]: the chunks it yields. *)
Fixpoint export_chunks (fuel chunk : nat) (after : option jstr) (mine : list Generation) : result page_error (list (list Generation)) :=
  match fuel with
  | O => Ok []
  | S fuel =>
      rows ← sorted_rows oldest_first after chunk mine;
      match last rows with
      | None => Ok []
      | Some final =>
          if (length rows <? chunk)%nat then Ok [rows]
          else rest ← export_chunks fuel chunk (Some (encodeCursor (log_cursor sort_createdAt final))) mine; Ok (rows :: rest)
      end
  end.

Definition exportCsv (workspaceId : jstr) (filter : GenerationFilter) (table : list Generation) : result page_error (list (list Generation)) :=
  let mine := List.filter (log_scope workspaceId filter) table in
  export_chunks (S (length mine)) EXPORT_CHUNK None mine.

(** ** The file *)

Definition CSV_HEADER : list (option jstr) :=
  map Some ["id" : jstr; "createdAt"; "modelId"; "endpointId"; "externalEndpointId"; "apiKeyId"; "status"; "finishReason"; "promptTokens";
            "completionTokens"; "costMicros"; "latencyMs"; "timeToFirstTokenMs"; "tokensPerSecond"; "streamed"; "evidenceDigest"].

Definition generation_status_text (s : GenerationStatus) : jstr :=
  match s with generation_ok => "ok" | generation_error => "error" | generation_aborted => "aborted" end.

(** [String] of a number of thousandths. *)
Definition thousandths_text (z : Z) : jstr :=
  let r := z mod 1000 in
  jstring_of_Z (z / 1000) +++
  (if r =? 0 then Js []
   else "." +++ (if r mod 100 =? 0 then jstring_of_Z (r / 100)
                 else if r mod 10 =? 0 then jpadStart (jstring_of_Z (r / 10)) 2 48
                 else jpadStart (jstring_of_Z r) 3 48)).

Definition csv_cells (g : Generation) : list (option jstr) :=
  [Some (ge_id g); Some (toISOString (ge_createdAt g)); Some (ge_modelId g); ge_endpointId g; ge_externalEndpointId g; ge_apiKeyId g;
   Some (generation_status_text (ge_status g)); ge_finishReason g; Some (jstring_of_Z (ge_promptTokens g));
   Some (jstring_of_Z (ge_completionTokens g)); Some (jstring_of_Z (ge_costMicros g)); Some (jstring_of_Z (ge_latencyMs g));
   jstring_of_Z <$> ge_timeToFirstTokenMs g; thousandths_text <$> ge_tokensPerSecond g;
   Some (if ge_streamed g then "true" : jstr else "false"); ge_evidenceDigest g].

(** What [generationsCsv] writes for a member of the workspace. *)
Definition generationsCsv (workspaceId : jstr) (filter : GenerationFilter) (table : list Generation) : result page_error jstr :=
  chunks ← exportCsv workspaceId filter table;
  Ok (Js (concat (map (fun values => units (csvRow values)) (CSV_HEADER :: map csv_cells (concat chunks))))).
End Log.

(** ** Lemmas: the order *)

Section Order.
Context (sort : GenerationSort).

Lemma precedes_irrefl g : precedes sort g g = false.
Proof. unfold precedes, descends. destruct (so_direction sort); rewrite Z.ltb_irrefl, jltb_irrefl; cbn; by rewrite andb_false_r. Qed.

Lemma descends_trans v i w j x k : descends v i w j = true -> descends w j x k = true -> descends v i x k = true.
Proof.
  unfold descends. rewrite !orb_true_iff, !andb_true_iff, !Z.ltb_lt, !Z.eqb_eq. intros [H1|[-> H1]] [H2|[-> H2]]; [left; lia..|].
  right. split; [done|]. by eapply jltb_trans.
Qed.

Lemma descends_total v i w j : i <> j -> descends v i w j = false -> descends w j v i = true.
Proof.
  unfold descends. intros Hne. rewrite orb_false_iff, andb_false_iff, Z.ltb_ge, Z.eqb_neq, orb_true_iff, andb_true_iff, Z.ltb_lt, Z.eqb_eq.
  intros [H1 [H2|H2]]; [left; lia|]. destruct (decide (v = w)) as [->|]; [|left; lia]. right. split; [done|].
  apply not_false_iff_true. intros H3. by apply Hne, jltb_total.
Qed.

Lemma precedes_trans a b c : precedes sort a b = true -> precedes sort b c = true -> precedes sort a c = true.
Proof. unfold precedes. destruct (so_direction sort); intros H1 H2; eapply descends_trans; eassumption. Qed.

Lemma precedes_asym a b : precedes sort a b = true -> precedes sort b a = false.
Proof.
  intros H1. apply not_true_iff_false. intros H2. pose proof (precedes_trans _ _ _ H1 H2) as H. by rewrite precedes_irrefl in H.
Qed.

Lemma precedes_total a b : ge_id a <> ge_id b -> precedes sort a b = false -> precedes sort b a = true.
Proof. intros Hne. unfold precedes. destruct (so_direction sort); apply descends_total; congruence. Qed.

Lemma precedes_tie a b : precedes sort a b = false -> precedes sort b a = false -> ge_id a = ge_id b.
Proof. intros H1 H2. destruct (decide (ge_id a = ge_id b)) as [|Hne]; [done|]. rewrite (precedes_total a b Hne H1) in H2. done. Qed.

Definition listed (l : list Generation) : Prop := StronglySorted (fun a b => precedes sort a b = true) l.

Lemma listed_unique l1 l2 : listed l1 -> listed l2 -> l1 ≡ₚ l2 -> l1 = l2.
Proof. apply StronglySorted_unique_strong. intros a b _ _ H1 H2. apply precedes_asym in H1. congruence. Qed.

Lemma sort_listed rows : NoDup (map ge_id rows) -> listed (sort_by (precedes sort) rows).
Proof.
  intros Hnd. assert (Hs : StronglySorted (fun a b => precedes sort b a = false) (sort_by (precedes sort) rows)).
  { apply sort_by_sorted.
    - intros a b. destruct (precedes sort a b) eqn:E; [right; by apply precedes_asym|by left].
    - intros a b c H1 H2. apply not_true_iff_false. intros H3. destruct (precedes sort a b) eqn:E1; [pose proof (precedes_trans _ _ _ H3 E1); congruence|].
      destruct (precedes sort b c) eqn:E2; [pose proof (precedes_trans _ _ _ E2 H3); congruence|].
      assert (Eab : ge_id a = ge_id b) by (by apply precedes_tie). assert (Ebc : ge_id b = ge_id c) by (by apply precedes_tie).
      assert (Hval : sortValueOf (so_field sort) a = sortValueOf (so_field sort) b /\ sortValueOf (so_field sort) b = sortValueOf (so_field sort) c).
      { revert H1 H2 E1 E2. unfold precedes, descends. rewrite Eab, Ebc. destruct (so_direction sort); rewrite jltb_irrefl, !andb_false_r, !orb_false_r, !Z.ltb_ge; lia. }
      revert H3. unfold precedes, descends. rewrite Eab, Ebc. destruct Hval as [-> ->]. destruct (so_direction sort); rewrite jltb_irrefl, Z.ltb_irrefl, andb_false_r; done. }
  assert (Hnd' : NoDup (map ge_id (sort_by (precedes sort) rows))) by (by rewrite (sort_by_perm (precedes sort) rows)).
  clear Hnd. induction Hs as [|x l Hl IH Hx]; [constructor|]. cbn [map] in Hnd'. apply NoDup_cons in Hnd' as [Hn Hnd'].
  constructor; [by apply IH|]. apply Forall_forall. intros y Hy. rewrite Forall_forall in Hx.
  apply precedes_total; [|by apply Hx]. intros E. apply Hn. rewrite <- E. by apply list_elem_of_fmap_2.
Qed.

Lemma sort_filter p rows : NoDup (map ge_id rows) ->
  sort_by (precedes sort) (List.filter p rows) = List.filter p (sort_by (precedes sort) rows).
Proof.
  intros Hnd. apply listed_unique.
  - apply sort_listed. eapply sublist_NoDup; [|exact Hnd]. apply map_sublist, filter_sublist.
  - pose proof (sort_listed rows Hnd) as Hs. induction Hs as [|x l Hl IH Hx]; [constructor|]. cbn. destruct (p x); [|done].
    constructor; [done|]. apply Forall_forall. intros y Hy%list_elem_of_In%filter_In. rewrite Forall_forall in Hx. apply Hx, list_elem_of_In, Hy.
  - rewrite (sort_by_perm (precedes sort) (List.filter p rows)). apply filter_perm. by rewrite (sort_by_perm (precedes sort) rows).
Qed.

Lemma beyond_precedes x g : beyond sort (log_cursor (so_field sort) x) g = precedes sort x g.
Proof. unfold beyond, precedes, descends. destruct (so_direction sort); cbn [log_cursor cursor_value cursor_id]; [done|]. by rewrite (Z.eqb_sym (sortValueOf _ g)). Qed.

Lemma beyond_suffix l x k : listed (l ++ x :: k) -> List.filter (beyond sort (log_cursor (so_field sort) x)) (l ++ x :: k) = k.
Proof.
  intros Hs. rewrite List.filter_app. cbn [List.filter]. rewrite beyond_precedes, precedes_irrefl.
  rewrite (filter_all _ k), (filter_nothing _ l); [done| |]; apply Forall_forall; intros y Hy; rewrite beyond_precedes.
  - apply precedes_asym. apply StronglySorted_app in Hs as [Hs _]. apply Hs; [done|constructor].
  - apply StronglySorted_app_1_r in Hs. inversion_clear Hs as [|?? _ Hx]. rewrite Forall_forall in Hx. by apply Hx.
Qed.
End Order.

(** ** Lemmas: the pages *)

(** A row as the meter stores it, its sort value within the safe range. *)
Definition storable (sort : GenerationSort) (g : Generation) : Prop :=
  Z.abs (sortValueOf (so_field sort) g) <= MAX_TIME /\ ascii_text (ge_id g) = true.

Section Pages.
Context {K : CursorCodec} {L : CursorCodecLaws K}.

Lemma sorted_rows_first sort n rows : sorted_rows sort None n rows = Ok (take n (sort_by (precedes sort) rows)).
Proof. done. Qed.

Lemma sorted_rows_next sort n rows seen x left : NoDup (map ge_id rows) -> storable sort x ->
  sort_by (precedes sort) rows = seen ++ x :: left ->
  sorted_rows sort (Some (encodeCursor (log_cursor (so_field sort) x))) n rows = Ok (take n left).
Proof.
  intros Hnd [H1 H2] Hl. unfold sorted_rows, present. rewrite encode_nonempty, decode_encode_cursor by done. cbn.
  rewrite sort_filter, Hl by done. rewrite beyond_suffix; [done|]. rewrite <- Hl. by apply sort_listed.
Qed.

Lemma take_last {A} n (l : list A) x : last (take n l) = Some x -> exists seen, take n l = seen ++ [x] /\ l = seen ++ x :: drop n l.
Proof.
  intros Hx. apply last_Some in Hx as [seen E]. exists seen. split; [done|]. rewrite <- (take_drop n l) at 1. rewrite E, <- app_assoc. done.
Qed.

(** The chunks from a row on. *)
Lemma export_chunks_from fuel chunk mine seen left after : (0 < chunk)%nat -> NoDup (map ge_id mine) -> Forall (storable oldest_first) mine ->
  sort_by (precedes oldest_first) mine = seen ++ left -> (length left < fuel)%nat ->
  sorted_rows oldest_first after chunk mine = Ok (take chunk left) ->
  exists chunks, export_chunks fuel chunk after mine = Ok chunks /\ concat chunks = left /\
    Forall (fun rows => rows <> [] /\ (length rows <= chunk)%nat) chunks.
Proof.
  intros Hc Hnd Hst. revert seen left after. induction fuel as [|fuel IH]; intros seen left after Hl Hf Hrows; [lia|].
  cbn [export_chunks]. rewrite Hrows. cbn [mbind result_bind]. destruct (last (take chunk left)) as [x|] eqn:Ex.
  - destruct (take_last _ _ _ Ex) as (before & Etake & Eleft). pose proof (f_equal length Etake) as Elen. rewrite length_take, length_app in Elen. cbn in Elen.
    destruct (Nat.ltb_spec (length (take chunk left)) chunk) as [Hlt|Hge]; rewrite length_take in *.
    + exists [take chunk left]. rewrite take_ge by lia. cbn. rewrite app_nil_r. split_and!; [done|done|]. repeat constructor; [|lia]. intros ->. cbn in Elen. lia.
    + destruct (IH (seen ++ before ++ [x]) (drop chunk left) (Some (encodeCursor (log_cursor sort_createdAt x)))) as (chunks & E & Hcat & Hall).
      * rewrite Hl, Eleft at 1. by rewrite <- !app_assoc.
      * rewrite length_drop. lia.
      * apply (sorted_rows_next oldest_first chunk mine (seen ++ before) x); [done| |].
        { rewrite Forall_forall in Hst. apply Hst. rewrite <- (sort_by_perm (precedes oldest_first) mine), Hl, Eleft. set_solver. }
        rewrite Hl, Eleft at 1. by rewrite <- app_assoc.
      * exists (take chunk left :: chunks). rewrite E. cbn. rewrite Hcat, take_drop. split_and!; [done|done|]. constructor; [|done].
        rewrite length_take. split; [|lia]. intros E0. rewrite E0 in Ex. done.
  - exists []. apply last_None in Ex. split_and!; [done| |constructor]. destruct left; [done|]. by destruct chunk; [lia|].
Qed.

Lemma exportCsv_spec workspaceId filter table : let mine := List.filter (log_scope workspaceId filter) table in
  NoDup (map ge_id table) -> Forall (storable oldest_first) mine ->
  exists chunks, exportCsv workspaceId filter table = Ok chunks /\ concat chunks = sort_by (precedes oldest_first) mine /\
    Forall (fun rows => rows <> [] /\ (length rows <= EXPORT_CHUNK)%nat) chunks.
Proof.
  intros mine Hnd Hst. apply (export_chunks_from _ EXPORT_CHUNK mine [] (sort_by (precedes oldest_first) mine) None); try done.
  - unfold EXPORT_CHUNK. lia.
  - eapply sublist_NoDup; [|exact Hnd]. apply map_sublist, filter_sublist.
  - rewrite (Permutation_length (sort_by_perm (precedes oldest_first) mine)). apply Nat.lt_succ_diag_r.
Qed.

(** A reader of the log: a page, then the one after its end cursor while there is one. *)
Fixpoint walk_log (fuel : nat) (models apiKeys : jstr -> option jstr) (query : GenerationLogQuery) (table : list Generation)
    : result page_error (list GenerationPage) :=
  match fuel with
  | O => Ok []
  | S fuel =>
      p ← log_page models apiKeys query table;
      if gp_hasNextPage p then
        rest ← walk_log fuel models apiKeys {| gq_workspaceId := gq_workspaceId query; gq_filter := gq_filter query; gq_sort := gq_sort query;
                                               gq_first := gq_first query; gq_after := gp_endCursor p |} table;
        Ok (p :: rest)
      else Ok [p]
  end.

Definition page_rows (p : GenerationPage) : list GenerationRow := map snd (gp_edges p).

Lemma log_page_size_pos first : (0 < log_page_size first <= 200)%nat.
Proof. unfold log_page_size, DEFAULT_LOG_PAGE_SIZE, MAX_LOG_PAGE_SIZE. lia. Qed.

Lemma walk_log_from fuel models apiKeys query table seen left : let mine := List.filter (log_scope (gq_workspaceId query) (gq_filter query)) table in
  NoDup (map ge_id table) -> Forall (storable (log_sort query)) mine ->
  sort_by (precedes (log_sort query)) mine = seen ++ left -> (length left < fuel)%nat ->
  (forall n, sorted_rows (log_sort query) (gq_after query) n mine = Ok (take n left)) ->
  exists pages, walk_log fuel models apiKeys query table = Ok pages /\ concat (map page_rows pages) = resolveNames models apiKeys left /\
    Forall (fun p => gp_totalCount p = Z.of_nat (length mine) /\ (length (page_rows p) <= log_page_size (gq_first query))%nat) pages.
Proof.
  intros mine Hnd Hst. revert query seen left mine Hst. induction fuel as [|fuel IH]; intros query seen left mine Hst Hl Hf Hrows; [lia|].
  pose proof (log_page_size_pos (gq_first query)) as Hsize. set (size := log_page_size (gq_first query)) in *.
  assert (Hmine : NoDup (map ge_id mine)) by (eapply sublist_NoDup; [|exact Hnd]; apply map_sublist, filter_sublist).
  set (edge := fun row => (encodeCursor (log_cursor (so_field (log_sort query)) (gr_generation row)), row)).
  assert (Hedges : forall rows, map snd (map edge (resolveNames models apiKeys rows)) = resolveNames models apiKeys rows).
  { intros rows. rewrite map_map. apply map_id. }
  cbn [walk_log]. unfold log_page. fold mine size. rewrite Hrows. cbn [mbind result_bind gp_hasNextPage]. rewrite length_take.
  destruct (Nat.ltb_spec size (S size `min` length left)) as [Hmore|Hend].
  - rewrite take_take, Nat.min_l by lia. cbn [gp_endCursor]. fold edge.
    destruct (last (take size left)) as [x|] eqn:Ex.
    2:{ apply last_None in Ex. apply (f_equal length) in Ex. rewrite length_take in Ex. cbn in Ex. lia. }
    destruct (take_last _ _ _ Ex) as (before & Etake & Eleft).
    assert (Ecur : fst <$> last (map edge (resolveNames models apiKeys (take size left))) = Some (encodeCursor (log_cursor (so_field (log_sort query)) x))).
    { rewrite Etake. unfold resolveNames. rewrite !map_app. cbn [map]. by rewrite last_snoc. }
    rewrite Ecur. set (query' := {| gq_after := _ |}).
    destruct (IH query' (seen ++ before ++ [x]) (drop size left)) as (pages & E & Hcat & Hall).
    + exact Hst.
    + change (seen ++ before ++ [x]) with (seen ++ (before ++ [x])). fold mine. change (log_sort query') with (log_sort query).
      change (List.filter _ table) with mine. rewrite Hl, Eleft at 1. by rewrite <- !app_assoc.
    + rewrite length_drop. lia.
    + intros n. apply (sorted_rows_next (log_sort query) n mine (seen ++ before) x); [done| |].
      { rewrite Forall_forall in Hst. apply Hst. rewrite <- (sort_by_perm (precedes (log_sort query)) mine), Hl, Eleft. set_solver. }
      rewrite Hl, Eleft at 1. by rewrite <- app_assoc.
    + rewrite E. eexists. split; [done|]. cbn [map concat]. rewrite Hcat. unfold page_rows at 1. cbn [gp_edges]. rewrite Hedges. split.
      * unfold resolveNames. rewrite <- map_app, take_drop. done.
      * constructor; [|exact Hall]. cbn [gp_totalCount]. split; [done|]. unfold page_rows. cbn [gp_edges]. rewrite Hedges. unfold resolveNames. rewrite length_map, length_take. lia.
  - eexists. split; [done|]. fold edge. rewrite take_ge by lia. cbn [map concat]. unfold page_rows. cbn [gp_edges]. rewrite Hedges, app_nil_r. split; [done|].
    repeat constructor. cbn [gp_edges]. rewrite Hedges. unfold resolveNames. rewrite length_map. lia.
Qed.

(** ** Properties *)

(** Whatever the filter, the sort and the page size, following the cursors lists every row
    of the filter once, in the order asked for, with its names; each page says how many
    there are and is no longer than asked. *)
Theorem log_pages_are_the_log models apiKeys query table fuel :
  let mine := List.filter (log_scope (gq_workspaceId query) (gq_filter query)) table in
  NoDup (map ge_id table) -> Forall (storable (log_sort query)) mine -> gq_after query = None -> (length mine < fuel)%nat ->
  exists pages, walk_log fuel models apiKeys query table = Ok pages /\
    concat (map page_rows pages) = resolveNames models apiKeys (sort_by (precedes (log_sort query)) mine) /\
    listed (log_sort query) (sort_by (precedes (log_sort query)) mine) /\
    Forall (fun p => gp_totalCount p = Z.of_nat (length mine) /\ (length (page_rows p) <= 200)%nat) pages.
Proof.
  intros mine Hnd Hst Hafter Hf.
  destruct (walk_log_from fuel models apiKeys query table [] (sort_by (precedes (log_sort query)) mine)) as (pages & E & Hcat & Hall); try done.
  - by rewrite (Permutation_length (sort_by_perm (precedes (log_sort query)) mine)).
  - intros n. by rewrite Hafter.
  - exists pages. split_and!; [done|done| |].
    + apply sort_listed. eapply sublist_NoDup; [|exact Hnd]. apply map_sublist, filter_sublist.
    + eapply Forall_impl; [exact Hall|]. intros p [H1 H2]. split; [done|]. pose proof (log_page_size_pos (gq_first query)). lia.
Qed.

(** The file holds the header and one record per row of the filter, oldest first, whatever
    the rows' texts contain. *)
Theorem csv_lists_the_log workspaceId filter table : let mine := List.filter (log_scope workspaceId filter) table in
  NoDup (map ge_id table) -> Forall (storable oldest_first) mine ->
  exists file, generationsCsv workspaceId filter table = Ok file /\
    parseCsv file = Ok (map (map text_of) (CSV_HEADER :: map csv_cells (sort_by (precedes oldest_first) mine))).
Proof.
  intros mine Hnd Hst. destruct (exportCsv_spec workspaceId filter table Hnd Hst) as (chunks & E & Hcat & _).
  unfold generationsCsv. rewrite E. cbn [mbind result_bind]. eexists. split; [done|]. rewrite Hcat. apply parse_rows; [|done].
  constructor; [done|]. apply Forall_map, Forall_forall. intros g _. done.
Qed.
End Pages.

Example both_spellings_of_a_list : toList (Some (one_value "a, b,,c")) = toList (Some (many_values ["a" : jstr; " b"; "c "])).
Proof. vm_compute. reflexivity. Qed.

(** ** A sample *)

Definition sample_logged (id : jstr) (cost at_time : Z) : Generation :=
  {| ge_id := id; ge_workspaceId := "w"; ge_apiKeyId := Some ("k1" : jstr); ge_modelId := "m=1"; ge_endpointId := Some ("e" : jstr); ge_externalEndpointId := None;
     ge_evidenceSnapshotId := None; ge_evidenceDigest := None; ge_promptTokens := 3; ge_completionTokens := 4; ge_costMicros := cost;
     ge_promptPer1mMicros := 0; ge_completionPer1mMicros := 0; ge_streamed := true; ge_status := generation_ok; ge_errorCode := None;
     ge_finishReason := Some (Js [97; 44; 34]%N); ge_latencyMs := 5; ge_timeToFirstTokenMs := None; ge_tokensPerSecond := Some 12340; ge_requestId := None;
     ge_clientIpHash := None; ge_client := other; ge_createdAt := at_time |}.

Definition sample_log : list Generation := [sample_logged "g1" 10 1000; sample_logged "g2" 30 2000; sample_logged "g3" 10 3000].

Definition no_filter : GenerationFilter := {| gf_from := None; gf_to := None; gf_modelIds := []; gf_apiKeyIds := []; gf_statuses := [] |}.

Definition sample_log_query : GenerationLogQuery :=
  {| gq_workspaceId := "w"; gq_filter := no_filter; gq_sort := Some {| so_field := sort_costMicros; so_direction := DESC |}; gq_first := Some 1; gq_after := None |}.

Lemma sample_log_storable sort : Forall (storable sort) sample_log.
Proof. repeat (apply List.Forall_cons; [split; [unfold MAX_TIME; destruct sort as [[] []]; cbn; lia|reflexivity]|]). constructor. Qed.

Lemma log_pages_are_the_log_witness :
  exists pages, walk_log (K := plain_codec) 4 (fun _ => None) (fun _ => None) sample_log_query sample_log = Ok pages /\
    map (fun row => ge_id (gr_generation row)) (concat (map page_rows pages)) = ["g2" : jstr; "g3"; "g1"].
Proof.
  destruct (log_pages_are_the_log (K := plain_codec) (fun _ => None) (fun _ => None) sample_log_query sample_log 4) as (pages & E & Hcat & _).
  - apply (bool_decide_unpack _). vm_compute. reflexivity.
  - change (Forall (storable (log_sort sample_log_query)) sample_log). apply sample_log_storable.
  - reflexivity.
  - vm_compute. lia.
  - exists pages. split; [exact E|]. rewrite Hcat. vm_compute. reflexivity.
Defined.

Lemma csv_lists_the_log_witness :
  exists file records, generationsCsv (K := plain_codec) "w" no_filter sample_log = Ok file /\ parseCsv file = Ok records /\
    map head records = [Some ("id" : jstr); Some ("g1" : jstr); Some ("g2" : jstr); Some ("g3" : jstr)].
Proof.
  destruct (csv_lists_the_log (K := plain_codec) "w" no_filter sample_log) as (file & E & Hp).
  - apply (bool_decide_unpack _). vm_compute. reflexivity.
  - change (Forall (storable oldest_first) sample_log). apply sample_log_storable.
  - eexists file, _. split; [exact E|]. split; [exact Hp|]. vm_compute. reflexivity.
Defined.

Example rate_texts : map thousandths_text [12340; 12000; 12345; 12005; 50] = ["12.34" : jstr; "12"; "12.345"; "12.005"; "0.05"].
Proof. vm_compute. reflexivity. Qed.
