(* ===== verification/ConsoleApi.v ===== *)
(** * What the console may ask for

    [api/graphql/errors.ts] with [common/validation-error.ts], and the resolvers of keys,
    credits and invitations ([api-keys.resolver.ts], [credits.resolver.ts],
    [invites.resolver.ts]) with the anonymous lookup of [invites.controller.ts]: each
    call behind the session's membership, over the services modelled in [Workspaces],
    [ApiKeys], [Payments], [LedgerPages], [Invites] and [InviteWithdrawal].  Field
    presentation that copies a row is left out. *)

From Stdlib Require Import QArith.
From S2P Require Import Prelude JsString JsNumber Money Store Workspaces Ledger InviteCodes Invites InviteWithdrawal Json LedgerPages Payments ApiKeys RateLimiter Analytics SignUpRequest SignUp ExternalCatalog ConfigCatalog Metering FeedbackForm.

#[local] Open Scope Z_scope.

(** ** Thrown errors *)

(** A Nest exception with its status and response body, an error that carries another as
    [originalError], or any other value. *)
Inductive thrown :=
| HttpException (status : Z) (response : json)
| Wrapped (original : thrown)
| OtherThrown.

Definition CONSOLE_ERROR_CODES (status : Z) : option jstr :=
  if status =? 400 then Some "BAD_USER_INPUT"%js
  else if status =? 401 then Some "UNAUTHENTICATED"%js
  else if status =? 402 then Some "PAYMENT_REQUIRED"%js
  else if status =? 403 then Some "FORBIDDEN"%js
  else if status =? 404 then Some "NOT_FOUND"%js
  else if status =? 409 then Some "CONFLICT"%js
  else if status =? 422 then Some "BAD_USER_INPUT"%js
  else if status =? 429 then Some "TOO_MANY_REQUESTS"%js
  else if status =? 503 then Some "SERVICE_UNAVAILABLE"%js
  else None.

Definition INTERNAL_ERROR_CODE : jstr := "INTERNAL_SERVER_ERROR".
Definition INTERNAL_ERROR_MESSAGE : jstr := "Internal server error.".

Definition APOLLO_CODES : list jstr :=
  ["BAD_REQUEST"; "BAD_USER_INPUT"; "GRAPHQL_PARSE_FAILED"; "GRAPHQL_VALIDATION_FAILED"; "OPERATION_RESOLUTION_FAILURE";
   "PERSISTED_QUERY_NOT_FOUND"; "PERSISTED_QUERY_NOT_SUPPORTED"].

(** [room] is [4 - depth]. *)
Fixpoint exceptionOf (room : nat) (e : thrown) : option (Z * json) :=
  match e with
  | HttpException status response => Some (status, response)
  | Wrapped original => match room with O => None | S room => exceptionOf room original end
  | OtherThrown => None
  end.

(** ** Validation refusals *)

Inductive ValidationError := validation_error (property : jstr) (constraints : list jstr) (children : list ValidationError).

Record ValidationFailure := { vf_messages : list jstr; vf_fields : list (jstr * json) }.

(** [fields[path] ??= message] *)
Definition name_field (path message : jstr) (fields : list (jstr * json)) : list (jstr * json) :=
  match member path (JObject fields) with None | Some JNull => set_member path (JString message) fields | Some _ => fields end.

Definition assign (fields nested : list (jstr * json)) : list (jstr * json) := foldl (fun f kv => set_member (fst kv) (snd kv) f) fields nested.

Definition child_path (parent property : jstr) : jstr := if jlength parent =? 0 then property else parent +++ "." +++ property.

(** One error under [parent], added to what came before it. *)
Fixpoint failure_of (parent : jstr) (e : ValidationError) (acc : ValidationFailure) : ValidationFailure :=
  match e with
  | validation_error property constraints children =>
      let path := child_path parent property in
      let own := foldl (fun a message => {| vf_messages := vf_messages a ++ [message]; vf_fields := name_field path message (vf_fields a) |}) acc constraints in
      match children with
      | [] => own
      | _ =>
          let nested := (fix all es acc := match es with [] => acc | e :: es => all es (failure_of path e acc) end) children {| vf_messages := []; vf_fields := [] |} in
          {| vf_messages := vf_messages own ++ vf_messages nested; vf_fields := assign (vf_fields own) (vf_fields nested) |}
      end
  end.

Definition failureOf (errors : list ValidationError) : ValidationFailure :=
  foldl (fun acc e => failure_of (Js []) e acc) {| vf_messages := []; vf_fields := [] |} errors.

Definition validationException (errors : list ValidationError) : thrown :=
  let failure := failureOf errors in
  HttpException 400 (JObject [("statusCode" : jstr, JInt 400); ("error" : jstr, JString "Bad Request");
                              ("message" : jstr, JArray (map JString (vf_messages failure))); ("fields" : jstr, JObject (vf_fields failure))]).

Definition validationFailureOf (e : option (Z * json)) : option ValidationFailure :=
  match e with
  | None => None
  | Some (_, response) =>
      match member "message" response with
      | Some (JArray (m :: ms)) =>
          Some {| vf_messages := omap (fun v => as_string (Some v)) (m :: ms);
                  vf_fields := match member "fields" response with Some v => if is_object v then spread v else [] | None => [] end |}
      | _ => None
      end
  end.

(** ** The answer a client sees *)

Record FormattedError := { fm_message : jstr; fm_extensions : list (jstr * json) }.

Definition formatConsoleError (formatted : FormattedError) (raw : thrown) (exposeInternals : bool) : FormattedError :=
  let exception := exceptionOf 4 raw in
  let status := fst <$> exception in
  let code :=
    match member "code" (JObject (fm_extensions formatted)) with
    | Some (JString existing) => if listed existing APOLLO_CODES then Some existing else None
    | _ => None
    end in
  let code := match code with
              | Some existing => existing
              | None => match status with
                        | None => INTERNAL_ERROR_CODE
                        | Some s => match CONSOLE_ERROR_CODES s with
                                    | Some c => c
                                    | None => if s <? 500 then "BAD_REQUEST" else INTERNAL_ERROR_CODE
                                    end
                        end
              end in
  let internal := jeqb code INTERNAL_ERROR_CODE in
  let extensions := set_member "code" (JString code) (fm_extensions formatted) in
  let extensions := match status with Some s => set_member "status" (JInt s) extensions | None => extensions end in
  let masked := internal && negb exposeInternals in
  let validation := if masked then None else validationFailureOf exception in
  let message := match validation with Some v => jjoin " " (vf_messages v) | None => fm_message formatted end in
  let extensions := match validation with
                    | Some v => match vf_fields v with [] => extensions | fields => set_member "fields" (JObject fields) extensions end
                    | None => extensions
                    end in
  let extensions := if exposeInternals then extensions
                    else delete_member "exception" (delete_member "stacktrace" (delete_member "originalError" extensions)) in
  {| fm_message := if masked then INTERNAL_ERROR_MESSAGE else message; fm_extensions := extensions |}.

(** ** What resolvers throw *)

Inductive api_error :=
| refused_with (status : Z) (message : jstr)
| internal_error.

Definition api_of_scope (e : scope_error) : api_error :=
  match e with access_refused m => refused_with 403 m | no_workspace m => refused_with 404 m end.

(** [provider] is what the payment provider's own exception is answered with. *)
Definition api_of_error (provider : jstr -> api_error) (e : error) : api_error :=
  match e with
  | NotFoundException m => refused_with 404 m
  | Store.BadRequestException m | InviteTargetError m => refused_with 400 m
  | InsufficientCreditsError balance amount =>
      refused_with 402 ("Insufficient credits: the balance is " +++ jstring_of_Z balance +++ " micro-USD and this entry would remove " +++
                        jstring_of_Z (- amount) +++ ".")
  | ProviderError m => provider m
  | LedgerSignError _ _ | InviteClaimLostError _ | InvalidAmount _ | UniqueViolation => internal_error
  end.

Definition lift_api {E A} (f : E -> api_error) (r : result E A) : result api_error A :=
  match r with Ok a => Ok a | Err e => Err (f e) end.

(** ** Keys *)



Section Resolvers.
Context (other_number : jstr -> option Q) (t : Tenancy).

Definition member_of (minimumRole : WorkspaceRole) (userId workspaceId : jstr) : result api_error jstr :=
  lift_api api_of_scope (requireMembership userId workspaceId minimumRole t).


Section Keys.
Context (catalog : CatalogService) (sha256_hex : jstr -> jstr) (sha256 : jstr -> list N).













End Keys.

(** ** Credits *)

Section Credits.
Context (config : BillingConfig) (provider : PaymentProvider) (provider_thrown : jstr -> api_error) (set_query : jstr -> jstr -> jstr -> jstr).

(** [InvalidMicroAmountError] is no Nest exception. *)
Definition api_of_money (e : money_error) : api_error := internal_error.

Definition creditBalance (userId workspaceId : jstr) (db : Store) : result api_error CreditsView :=
  _ ← member_of role_member userId workspaceId; lift_api (api_of_error provider_thrown) (creditsView config provider db workspaceId).

Definition checkout (userId workspaceId amountMicros : jstr) (email : option jstr) (db : Store) : result api_error CheckoutSession :=
  _ ← member_of role_owner userId workspaceId;
  amount ← lift_api api_of_money (parseMicros amountMicros "amountMicros");
  lift_api (api_of_error provider_thrown) (createCheckout config provider set_query db workspaceId amount email).

(** A null or an empty text sets nothing. *)
Definition optional_micros (value : option jstr) (field : jstr) : result api_error (option Z) :=
  match present value with
  | None => Ok None
  | Some text => Some <$> lift_api api_of_money (parseMicros text field)
  end.

Definition set_auto_top_up (userId workspaceId : jstr) (enabled : bool) (thresholdMicros amountMicros : option jstr) (db : Store)
    : Store * result api_error CreditsView :=
  match (_ ← member_of role_owner userId workspaceId;
         threshold ← optional_micros thresholdMicros "thresholdMicros";
         amount ← optional_micros amountMicros "amountMicros";
         Ok {| at_enabled := enabled; at_thresholdMicros := threshold; at_amountMicros := amount |}) with
  | Err e => (db, Err e)
  | Ok settings => let '(db, view) := setAutoTopUp config provider workspaceId settings db in (db, lift_api (api_of_error provider_thrown) view)
  end.
End Credits.

(** The page of the ledger. *)
Definition creditTransactions `{CursorCodec} (userId : jstr) (query : LedgerPageQuery) (table : list CreditTransaction) : result api_error LedgerPage :=
  _ ← member_of role_member userId (pq_workspaceId query);
  lift_api (fun e => match e with LedgerPages.BadRequestException m => refused_with 400 m end) (page query table).
End Resolvers.

(** ** Invitations *)

Inductive InviteRefusalReason := NOT_FOUND | EXPIRED | EXHAUSTED | DISABLED | ALREADY_REDEEMED | ERROR.

Record InviteGrant := { gi_creditTransactionId : jstr; gi_grantMicros : Z; gi_campaign : jstr; gi_redeemedAt : Z }.

Definition INVITE_RATE_LIMITED : api_error := refused_with 429 "Too many invitation lookups. Try again shortly.".

Section Invitations.
Context (toUpperCase : jstr -> jstr) (lookupsPerMinute : Z).

(** The redemption, when its code is still there. *)
Definition redeemed_grant (db : Store) (userId : jstr) : option (InviteRedemption * InviteCode) :=
  r ← redemptionOf db userId; code ← invite_codes db !! ir_inviteCodeId r; Some (r, code).

Definition grantOf (rc : InviteRedemption * InviteCode) : InviteGrant :=
  {| gi_creditTransactionId := ir_creditTransactionId (fst rc); gi_grantMicros := ic_grantMicros (snd rc); gi_campaign := ic_campaign (snd rc);
     gi_redeemedAt := ir_redeemedAt (fst rc) |}.

Definition inviteGrant (db : Store) (userId : jstr) : option InviteGrant := grantOf <$> redeemed_grant db userId.

Definition refusalOf (l : InviteLookup) : InviteRefusalReason :=
  match l with
  | lookup_valid _ _ => ERROR
  | lookup_invalid expired => EXPIRED
  | lookup_invalid exhausted => EXHAUSTED
  | lookup_invalid disabled => DISABLED
  | lookup_invalid not_found => NOT_FOUND
  end.

Definition admit_lookup (bucket : jstr) (now : Z) (buckets : Buckets) : Buckets * RateLimitDecision :=
  consume sweep bucket {| rq_cost := 1; rq_limitPerMinute := lookupsPerMinute |} now buckets.

(** The argument may be absent, null or a text. *)
Definition inviteGrantStatus (userId : jstr) (code : option (option jstr)) (now : Z) (db : Store) (buckets : Buckets)
    : Buckets * result api_error (option InviteGrant * option InviteRefusalReason) :=
  match redeemed_grant db userId with
  | Some rc =>
      match code with
      | Some None => (buckets, Err internal_error)            (* [normaliseInviteCode(null)] throws *)
      | Some (Some code) =>
          let other := negb (jeqb (normaliseInviteCode toUpperCase code) (ic_code (snd rc))) in
          (buckets, Ok (Some (grantOf rc), if other then Some ALREADY_REDEEMED else None))
      | None => (buckets, Ok (Some (grantOf rc), None))
      end
  | None =>
      match code with
      | None => (buckets, Ok (None, None))
      | Some None => (buckets, Err internal_error)            (* [null.trim()] *)
      | Some (Some code) =>
          if jlength (jtrim code) =? 0 then (buckets, Ok (None, None))
          else
            let '(buckets, d) := admit_lookup ("invite:user:" +++ userId) now buckets in
            if negb (rd_allowed d) then (buckets, Err INVITE_RATE_LIMITED)
            else (buckets, Ok (None, Some (refusalOf (lookup_code toUpperCase db code now))))
      end
  end.

(** [GET /v1/invites/:code]: what an anonymous caller is told; [None] is [unavailable]. *)
Definition lookup_invite (ip : option jstr) (code : jstr) (now : Z) (db : Store) (buckets : Buckets)
    : Buckets * result api_error (option (Z * jstr)) :=
  let '(buckets, d) := admit_lookup ("invite:ip:" +++ default "unknown" ip) now buckets in
  if negb (rd_allowed d) then (buckets, Err INVITE_RATE_LIMITED)
  else (buckets, Ok (match lookup_code toUpperCase db code now with lookup_valid amount campaign => Some (amount, campaign) | lookup_invalid _ => None end)).

(** ** The operator's two mutations *)

Inductive guarded := refused_guard (g : guard_answer) | refused_api (e : api_error).

Section Operators.
Context (toLowerCase : jstr -> jstr) (adminEmails : list jstr).

(** What the log may show of a target. *)
Definition loggable (code : option jstr) (target : jstr) : jstr :=
  match present (jtrim <$> code) with
  | Some _ => maskInviteCode (normaliseInviteCode toUpperCase (default (Js []) code))
  | None => target
  end.

Definition withdrawal_line (email : jstr) (code : option jstr) (r : InviteWithdrawal) : jstr :=
  "Invitation codes withdrawn by " +++ email +++ " — " +++
  describeWithdrawal {| wd_target := loggable code (wd_target r); wd_matched := wd_matched r; wd_withdrawn := wd_withdrawn r;
                        wd_alreadyWithdrawn := wd_alreadyWithdrawn r; wd_spent := wd_spent r |}.

Definition restoration_line (email : jstr) (code : option jstr) (r : InviteRestoration) : jstr :=
  "Invitation codes restored by " +++ email +++ " — " +++
  describeRestoration {| rs_target := loggable code (rs_target r); rs_matched := rs_matched r; rs_restored := rs_restored r; rs_alreadyUsable := rs_alreadyUsable r |}.

(** [session] is the user's address; the answer comes with the line the log gets. *)
Definition disableInviteCodes (session : option jstr) (request : InviteWithdrawalRequest) (now : Z) (db : Store)
    : result guarded (Store * InviteWithdrawal * jstr) :=
  match guard_admin toLowerCase adminEmails session, session with
  | let_through, Some email =>
      match withdraw toUpperCase request now db with
      | Ok (db, r) => Ok (db, r, withdrawal_line email (wr_code request) r)
      | Err e => Err (refused_api (api_of_error (fun _ => internal_error) e))
      end
  | g, _ => Err (refused_guard g)
  end.

Definition restoreInviteCodes (session : option jstr) (request : InviteWithdrawalRequest) (db : Store)
    : result guarded (Store * InviteRestoration * jstr) :=
  match guard_admin toLowerCase adminEmails session, session with
  | let_through, Some email =>
      match restore toUpperCase request db with
      | Ok (db, r) => Ok (db, r, restoration_line email (wr_code request) r)
      | Err e => Err (refused_api (api_of_error (fun _ => internal_error) e))
      end
  | g, _ => Err (refused_guard g)
  end.
End Operators.
End Invitations.

(** ** Lemmas: what a client is told *)

(** The code of an answer. *)
Definition code_of (formatted : FormattedError) (raw : thrown) : jstr :=
  match member "code" (JObject (fm_extensions (formatConsoleError formatted raw true))) with Some (JString c) => c | _ => Js [] end.

Ltac names_differ := let E := fresh in intros E; vm_compute in E; discriminate E.

Lemma hidden_member name l : name ∈ (["originalError"; "stacktrace"; "exception"] : list jstr) ->
  member name (JObject (delete_member "exception" (delete_member "stacktrace" (delete_member "originalError" l)))) = None.
Proof.
  intros [-> | [-> | ->%list_elem_of_singleton]%elem_of_cons]%elem_of_cons.
  - rewrite member_delete_ne by names_differ. rewrite member_delete_ne by names_differ. apply member_delete_eq.
  - rewrite member_delete_ne by names_differ. apply member_delete_eq.
  - apply member_delete_eq.
Qed.

Lemma shown_member name l : name ∉ (["originalError"; "stacktrace"; "exception"] : list jstr) ->
  member name (JObject (delete_member "exception" (delete_member "stacktrace" (delete_member "originalError" l)))) = member name (JObject l).
Proof.
  rewrite !not_elem_of_cons. intros (H1 & H2 & H3 & _). by rewrite !member_delete_ne.
Qed.

Lemma validation_kept errors : vf_messages (failureOf errors) <> [] ->
  validationFailureOf (exceptionOf 4 (validationException errors)) = Some (failureOf errors).
Proof.
  intros Hm. unfold validationException. destruct (failureOf errors) as [ms fs]. cbn [vf_messages vf_fields] in *.
  cbn [exceptionOf validationFailureOf]. cbn. destruct ms as [|m ms]; [done|]. cbn. f_equal. f_equal.
  f_equal. clear. induction ms as [|x ms IH]; [done|]. cbn. by rewrite IH.
Qed.

Fixpoint wrapped (n : nat) (e : thrown) : thrown := match n with O => e | S n => Wrapped (wrapped n e) end.

Lemma exceptionOf_wrapped n room e : (n <= room)%nat -> exceptionOf room (wrapped n e) = exceptionOf (room - n) e.
Proof. revert room. induction n as [|n IH]; intros [|room] H; cbn; [done|done|lia|]. rewrite IH by lia. done. Qed.

(** ** Theorems: errors *)

(** What is internal stays inside: where internals are not exposed an answer carries
    none of the members Apollo parks an exception in, whatever was thrown; every answer
    has a code; and one whose code is the internal one says the fixed sentence and
    nothing that depends on the message of what was thrown. *)
Theorem internals_stay_inside formatted raw :
  let answer := formatConsoleError formatted raw false in
  (forall name, name ∈ (["originalError"; "stacktrace"; "exception"] : list jstr) -> member name (JObject (fm_extensions answer)) = None) /\
  exists code, member "code" (JObject (fm_extensions answer)) = Some (JString code) /\
    (code = INTERNAL_ERROR_CODE -> fm_message answer = INTERNAL_ERROR_MESSAGE /\
       forall message, formatConsoleError {| fm_message := message; fm_extensions := fm_extensions formatted |} raw false = answer).
Proof.
  cbn zeta. split.
  - intros name Hn. unfold formatConsoleError. cbn [fm_extensions]. by apply hidden_member.
  - unfold formatConsoleError. cbn [fm_extensions fm_message]. set (code := match _ with Some existing => existing | None => _ end).
    exists code. split.
    + rewrite shown_member by (rewrite !not_elem_of_cons; split_and!; [names_differ..|by intros ?%elem_of_nil]).
      destruct (if jeqb code INTERNAL_ERROR_CODE && negb false then None else validationFailureOf (exceptionOf 4 raw)) as [v|].
      * destruct (vf_fields v); [|rewrite member_set_ne by names_differ]; (destruct (fst <$> exceptionOf 4 raw); [rewrite member_set_ne by names_differ|]); apply member_set_eq.
      * destruct (fst <$> exceptionOf 4 raw); [rewrite member_set_ne by names_differ|]; apply member_set_eq.
    + intros ->. rewrite jeqb_refl. done.
Qed.

(** A refused input names its fields: however often the exception was wrapped on its way,
    up to four times, and whether or not internals are exposed, the client reads every
    message the validator gave, in its order, and the map of fields the validator
    built, under a code for bad input. *)
Theorem a_refusal_names_its_fields formatted errors n expose :
  (n <= 4)%nat -> vf_messages (failureOf errors) <> [] -> member "code" (JObject (fm_extensions formatted)) = None ->
  let answer := formatConsoleError formatted (wrapped n (validationException errors)) expose in
  fm_message answer = jjoin " " (vf_messages (failureOf errors)) /\
  member "code" (JObject (fm_extensions answer)) = Some (JString "BAD_USER_INPUT") /\
  (vf_fields (failureOf errors) <> [] -> member "fields" (JObject (fm_extensions answer)) = Some (JObject (vf_fields (failureOf errors)))).
Proof.
  intros Hn Hm Hc. cbn zeta. unfold formatConsoleError. rewrite Hc, exceptionOf_wrapped by done.
  assert (He : exceptionOf (4 - n) (validationException errors) = exceptionOf 4 (validationException errors)) by (by destruct (4 - n)%nat).
  rewrite He. set (exn := exceptionOf 4 (validationException errors)). assert (Hv : validationFailureOf exn = Some (failureOf errors)) by by apply validation_kept.
  assert (Hs : fst <$> exn = Some 400) by done. rewrite Hs. change (CONSOLE_ERROR_CODES 400) with (Some "BAD_USER_INPUT"%js). cbv beta iota.
  change (jeqb "BAD_USER_INPUT" INTERNAL_ERROR_CODE) with false. cbn [andb]. rewrite Hv. cbn [fm_message fm_extensions].
  set (base := set_member "status" _ _). assert (Hb : member "code" (JObject base) = Some (JString "BAD_USER_INPUT")).
  { unfold base. rewrite member_set_ne by names_differ. apply member_set_eq. }
  split; [done|]. split.
  - assert (Hf : member "code" (JObject (match vf_fields (failureOf errors) with [] => base | fields => set_member "fields" (JObject fields) base end)) = Some (JString "BAD_USER_INPUT")).
    { destruct (vf_fields (failureOf errors)); [done|]. rewrite member_set_ne by names_differ. done. }
    destruct expose; [done|]. rewrite shown_member; [done|]. rewrite !not_elem_of_cons. split_and!; [names_differ..|by intros ?%elem_of_nil].
  - intros Hne. destruct (vf_fields (failureOf errors)) as [|f fs]; [done|]. destruct expose; [apply member_set_eq|].
    rewrite shown_member; [apply member_set_eq|]. rewrite !not_elem_of_cons. split_and!; [names_differ..|by intros ?%elem_of_nil].
Qed.

(** ** Lemmas: whose keys *)

Section Tenants.
Context (other_number : jstr -> option Q) (t : Tenancy).







Section KeyCalls.
Context (catalog : CatalogService) (sha256_hex : jstr -> jstr) (sha256 : jstr -> list N).

End KeyCalls.

Section Money.
Context (config : BillingConfig) (provider : PaymentProvider) (provider_thrown : jstr -> api_error) (set_query : jstr -> jstr -> jstr -> jstr).

(** Only an owner spends a workspace's money: to anyone else a checkout and the settings
    of the automatic top-up are refused with the same sentence, before an amount is
    read, a provider asked or a row written; and an owner's settings reach no other
    workspace, no balance and no row of the ledger. *)
Theorem only_owners_spend userId w :
  (roleOf userId w t <> Some role_owner ->
     (forall amount email db, checkout t config provider provider_thrown set_query userId w amount email db =
        Err (refused_with 403 "You do not have access to this workspace.")) /\
     (forall enabled threshold amount db, set_auto_top_up t config provider provider_thrown userId w enabled threshold amount db =
        (db, Err (refused_with 403 "You do not have access to this workspace.")))) /\
  (forall enabled threshold amount db db' r,
     set_auto_top_up t config provider provider_thrown userId w enabled threshold amount db = (db', r) ->
     credit_transactions db' = credit_transactions db /\ (forall i, i <> w -> workspaces db' !! i = workspaces db !! i) /\
     (balanceMicros <$> workspaces db' !! w) = (balanceMicros <$> workspaces db !! w)).
Proof.
  split.
  - intros Hr. assert (Hm : member_of t role_owner userId w = Err (refused_with 403 "You do not have access to this workspace.")).
    { unfold member_of, requireMembership. destruct (roleOf userId w t) as [[]|]; [done|done|done]. }
    split; intros; unfold checkout, set_auto_top_up; by rewrite Hm.
  - intros enabled threshold amount db db' r. unfold set_auto_top_up. destruct (_ ← member_of _ _ _ _; _) as [settings|]; [|by intros [= <- _]].
    unfold setAutoTopUp. match goal with |- context [match ?c with Ok _ => _ | Err _ => _ end] => destruct c as [u|]; [|by intros [= <- _]] end.
    intros [= <- _]. unfold update_workspace. destruct (workspaces db !! w) as [x|] eqn:Ew; cbn; [|by rewrite Ew].
    split; [done|]. split; [intros i Hi; by rewrite lookup_insert_ne|]. by rewrite lookup_insert_eq.
Qed.
End Money.
End Tenants.

(** ** Lemmas: invitations *)

Section Guests.
Context (toUpperCase : jstr -> jstr) (lookupsPerMinute : Z).

Lemma redeem_read_found env input db id invite : redeem_read toUpperCase env input db = inr (id, invite) ->
  invite_codes db !! id = Some invite /\ ic_code invite = normaliseInviteCode toUpperCase (default "" (si_code (ri_invite input))).
Proof.
  unfold redeem_read. destruct (negb _); [done|]. destruct (find_by_code db _) as [[id' c]|] eqn:E; [|done]. destruct (unusableReason _ _); [done|].
  intros [= -> ->]. unfold find_by_code in E. apply find_first_some in E as [H1%elem_of_map_to_list H2%jeqb_eq]. done.
Qed.

(** The screen behind the sign-up tells the truth: an account whose sign-up redeemed
    its code reads, right after, the grant that was made, its amount, its campaign and
    the ledger row it is, and no complaint about the code it typed; asking spends none
    of its lookups. *)
Theorem who_redeemed_reads_the_grant sha256_hex secret env input db db' grantMicros campaign tx rid now buckets :
  redeemOnSignUp toUpperCase sha256_hex secret env input db = (db', Invites.granted grantMicros campaign tx rid) ->
  inviteGrantStatus toUpperCase lookupsPerMinute (ri_userId input) (Some <$> si_code (ri_invite input)) now db' buckets =
    (buckets, Ok (Some {| gi_creditTransactionId := tx; gi_grantMicros := grantMicros; gi_campaign := campaign; gi_redeemedAt := re_now env |}, None)) /\
  inviteGrant db' (ri_userId input) =
    Some {| gi_creditTransactionId := tx; gi_grantMicros := grantMicros; gi_campaign := campaign; gi_redeemedAt := re_now env |} /\
  tx ∈ map ct_id (credit_transactions db').
Proof.
  intros H. destruct (redeem_cases _ _ _ _ _ _ _ _ H) as [[_ [? | [? ?]]]|(id & invite & Hp & Hr & Ha)]; [done..|].
  destruct (redeem_read_found _ _ _ _ _ Hr) as [Hi Hcode]. revert Ha. unfold redemption_answer. rewrite Hi.
  destruct (unusableReason _ _); [done|]. destruct (_ <=? 0); [done|]. destruct (workspaces db !! _) as [w|]; [|done].
  destruct (ledger_clash _ _ _ || _) eqn:Ec; [done|]. intros [= <- <- <- <- <-]. apply orb_false_iff in Ec as [_ [_ Hu]%redemption_clash_false]. change (ir_userId (redemption_row sha256_hex secret env id input)) with (ri_userId input) in Hu.
  set (row := redemption_row sha256_hex secret env id input).
  assert (Hg : redeemed_grant (redeemed sha256_hex secret env id invite invite w input db) (ri_userId input) = Some (row, take_seat invite)).
  { unfold redeemed_grant, redemptionOf. cbn [redeemed invite_redemptions invite_codes]. rewrite find_first_app, (proj2 (find_key_none ir_userId _ _) Hu).
    cbn [find_first List.find]. change (ir_userId row) with (ri_userId input). rewrite jeqb_refl. cbn. by rewrite lookup_insert_eq. }
  split; [|split].
  - unfold inviteGrantStatus. rewrite Hg. destruct (si_code (ri_invite input)) as [code|]; [|done]. cbn [fmap option_fmap option_map snd fst].
    change (ic_code (take_seat invite)) with (ic_code invite). rewrite Hcode. cbn [default from_option]. by rewrite jeqb_refl.
  - unfold inviteGrant. by rewrite Hg.
  - cbn [redeemed credit_transactions]. rewrite map_app, elem_of_app. right. by left.
Qed.

(** A guess teaches nothing: an anonymous caller is told the same, at the same price,
    of every code that cannot be used, whatever the reason; and what is shown of one
    that can is its amount and its campaign. *)
Theorem a_guess_teaches_nothing ip now db buckets :
  (forall c1 c2 r1 r2, lookup_code toUpperCase db c1 now = lookup_invalid r1 -> lookup_code toUpperCase db c2 now = lookup_invalid r2 ->
     lookup_invite toUpperCase lookupsPerMinute ip c1 now db buckets = lookup_invite toUpperCase lookupsPerMinute ip c2 now db buckets) /\
  (forall code grantMicros campaign, snd (lookup_invite toUpperCase lookupsPerMinute ip code now db buckets) = Ok (Some (grantMicros, campaign)) ->
     exists id c, invite_codes db !! id = Some c /\ ic_code c = normaliseInviteCode toUpperCase code /\ unusableReason c now = None /\
       ic_grantMicros c = grantMicros /\ ic_campaign c = campaign).
Proof.
  split.
  - intros c1 c2 r1 r2 H1 H2. unfold lookup_invite. destruct (admit_lookup _ _ _ _) as [b d]. destruct (negb _); [done|]. by rewrite H1, H2.
  - intros code g campaign. unfold lookup_invite. destruct (admit_lookup _ _ _ _) as [b d]. destruct (negb _); [done|]. cbn [snd].
    unfold lookup_code. destruct (negb _); [done|]. destruct (find_by_code db _) as [[id c]|] eqn:E; [|done].
    destruct (unusableReason c now) eqn:Eu; [done|]. intros [= <- <-]. exists id, c.
    unfold find_by_code in E. apply find_first_some in E as [Hin%elem_of_map_to_list Hc%jeqb_eq]. done.
Qed.

(** Only operators withdraw and restore, and the log they leave cannot be redeemed: a
    caller without a session, or whose address is not on the list, is refused and the
    codes stand; and the line a withdrawal writes is the same for every code that
    begins with the same group, so it shows no more than that of a live one. *)
Theorem operators_withdraw_and_the_log_stays_safe toLowerCase adminEmails :
  (forall session request now db, guard_admin toLowerCase adminEmails session <> let_through ->
     disableInviteCodes toUpperCase toLowerCase adminEmails session request now db = Err (refused_guard (guard_admin toLowerCase adminEmails session)) /\
     restoreInviteCodes toUpperCase toLowerCase adminEmails session request db = Err (refused_guard (guard_admin toLowerCase adminEmails session))) /\
  (forall email c1 c2 r target, let n1 := normaliseInviteCode toUpperCase c1 in let n2 := normaliseInviteCode toUpperCase c2 in
     looksLikeInviteCode n1 = true -> looksLikeInviteCode n2 = true -> jtake GROUP_LENGTH n1 = jtake GROUP_LENGTH n2 ->
     present (Some (jtrim c1)) <> None -> present (Some (jtrim c2)) <> None ->
     withdrawal_line toUpperCase email (Some c1) r =
     withdrawal_line toUpperCase email (Some c2) {| wd_target := target; wd_matched := wd_matched r; wd_withdrawn := wd_withdrawn r;
       wd_alreadyWithdrawn := wd_alreadyWithdrawn r; wd_spent := wd_spent r |}).
Proof.
  split.
  - intros session request now db Hg. unfold disableInviteCodes, restoreInviteCodes. by destruct (guard_admin toLowerCase adminEmails session).
  - intros email c1 c2 r target n1 n2 H1 H2 Ht Hp1 Hp2. unfold withdrawal_line. cbn [wd_target wd_matched wd_withdrawn wd_alreadyWithdrawn wd_spent].
    assert (Hl : loggable toUpperCase (Some c1) (wd_target r) = loggable toUpperCase (Some c2) target); [|by rewrite Hl].
    unfold loggable. cbn [fmap option_fmap option_map default from_option]. destruct (present (Some (jtrim c1))); [|done]. destruct (present (Some (jtrim c2))); [|done].
    change (maskInviteCode n1 = maskInviteCode n2). unfold maskInviteCode. rewrite Ht. unfold looksLikeInviteCode in *.
    apply andb_true_iff in H1 as [H1%Z.eqb_eq _], H2 as [H2%Z.eqb_eq _]. by rewrite H1, H2.
Qed.
End Guests.

(** ** Examples *)

Definition two_rooms : Tenancy :=
  {| tn_names := <["w1" : jstr := {| wn_name := "A"; wn_slug := "a" |}]> (<["w2" : jstr := {| wn_name := "B"; wn_slug := "b" |}]> ∅);
     tn_members := [{| dm_workspaceId := "w1"; dm_userId := "u1"; dm_role := role_owner; dm_createdAt := 1 |};
                    {| dm_workspaceId := "w2"; dm_userId := "u2"; dm_role := role_owner; dm_createdAt := 1 |}];
     tn_store := one_workspace "w1" |}.



Definition short_name : ValidationError :=
  validation_error "input" [] [validation_error "name" ["name should not be empty"; "name must be a string"] []; validation_error "limit" ["limit must be a number"] []].

Definition wrapped_refusal : thrown := wrapped 2 (validationException [short_name]).
Definition resolver_error : FormattedError := {| fm_message := "Bad Request Exception"; fm_extensions := [("stacktrace" : jstr, JArray [JString "at ..."])] |}.

Lemma a_refusal_names_its_fields_witness :
  fm_message (formatConsoleError resolver_error wrapped_refusal false) = "name should not be empty name must be a string limit must be a number"%js /\
  member "fields" (JObject (fm_extensions (formatConsoleError resolver_error wrapped_refusal false))) =
    Some (JObject [("input.name" : jstr, JString "name should not be empty"); ("input.limit" : jstr, JString "limit must be a number")]).
Proof.
  destruct (a_refusal_names_its_fields resolver_error [short_name] 2 false) as (Hm & _ & Hf); [lia|by vm_compute|reflexivity|].
  split; [exact Hm|]. apply Hf. by vm_compute.
Defined.

Definition capitals (s : jstr) : jstr := Js (map upper_unit (units s)).

Definition redeemed_example : Store * InviteRedemptionOutcome :=
  redeemOnSignUp capitals (fun s => s) "secret" (example_redeem_env "u1" "r1") (example_signup "alice") example_store.

Lemma who_redeemed_reads_the_grant_witness :
  snd redeemed_example = Invites.granted 100 "launch" "u1" "r1" /\
  inviteGrantStatus capitals 30 "alice" (Some (Some "abcd-efgh-2345"%js)) 9 (fst redeemed_example) ∅ =
    (∅, Ok (Some {| gi_creditTransactionId := "u1"; gi_grantMicros := 100; gi_campaign := "launch"; gi_redeemedAt := 7 |}, None)).
Proof.
  split; [vm_compute; reflexivity|].
  apply (who_redeemed_reads_the_grant capitals 30 (fun s => s) "secret" (example_redeem_env "u1" "r1") (example_signup "alice") example_store
    (fst redeemed_example) 100 "launch" "u1" "r1" 9 ∅). vm_compute. reflexivity.
Defined.

(** The argument of the grant's status is nullable in the schema; a null one throws. *)
Example a_null_code_throws : snd (inviteGrantStatus capitals 30 "alice" (Some None) 9 example_store ∅) = Err internal_error.
Proof. reflexivity. Qed.

(** An amount that is no whole number of cents passes the input's own checks and the
    bounds, and is answered as a fault of the deployment. *)
Definition plain_billing : BillingConfig :=
  {| bc_allowOverdraftMicros := 0; bc_minTopUpMicros := 5000000; bc_maxTopUpMicros := 500000000; bc_autoTopUpCooldown := 0; bc_checkoutReturnUrl := "https://x" |}.

Example odd_cents_are_an_internal_error :
  checkout two_rooms plain_billing DisabledPaymentProvider (fun m => refused_with 503 m) (fun url _ _ => url) "u1" "w1" "5000001" None (tn_store two_rooms) =
    Err internal_error /\
  checkout two_rooms plain_billing DisabledPaymentProvider (fun m => refused_with 503 m) (fun url _ _ => url) "u1" "w1" "5000000" None (tn_store two_rooms) =
    Err (refused_with 503 PURCHASES_DISABLED_MESSAGE).
Proof. split; vm_compute; reflexivity. Qed.
