(* ===== verification/DeploymentGraph.v ===== *)
(** * The deployment graph of the attested document

    [router-ui/src/components/chat/attestation/graph-model.ts]: the graph the chat's
    attestation panel draws out of the signed snapshot.  The three published shapes
    of a snapshot, the resources by kind, the hosts an Ingress answers on, the
    containers of a workload, the verdict on an image, the nodes and edges of the four
    layers, and the layout.  A position is in the canvas's units. *)

From S2P Require Import Prelude JsString EvidenceDigest Json Sse.

#[local] Set Warnings "-register-all".

(** ** Reading the document *)

Fixpoint at_path (value : option json) (path : list jstr) : option json :=
  match path with
  | [] => value
  | key :: path => match value with
                   | Some (JObject m) => at_path (member key (JObject m)) path
                   | _ => None
                   end
  end.

Definition stringAt (value : option json) (path : list jstr) : option jstr := nonempty_string (at_path value path).

Definition recordAt (value : option json) (path : list jstr) : option (list (jstr * json)) :=
  match at_path value path with Some (JObject m) => Some m | _ => None end.

Definition arrayAt (value : option json) (path : list jstr) : list json :=
  match at_path value path with Some (JArray items) => items | _ => [] end.

Definition nameOf (resource : json) : option jstr :=
  match stringAt (Some resource) ["metadata"; "name"] with Some n => Some n | None => stringAt (Some resource) ["name"] end.

Definition namespaceOf (resource : json) : option jstr :=
  match stringAt (Some resource) ["metadata"; "namespace"] with Some n => Some n | None => stringAt (Some resource) ["namespace"] end.

(** ** The three shapes of a snapshot *)

Definition GROUPED_KEYS : list (jstr * jstr) :=
  [("ingresses", "Ingress"); ("services", "Service"); ("deployments", "Deployment"); ("statefulSets", "StatefulSet");
   ("daemonSets", "DaemonSet"); ("pods", "Pod"); ("configMaps", "ConfigMap"); ("secrets", "Secret")]%js.

Definition WORKLOAD_KINDS : list jstr := ["Deployment"; "StatefulSet"; "DaemonSet"; "ReplicaSet"; "Job"; "CronJob"; "Pod"].

Definition stampKind (item : json) (kind : jstr) : json :=
  match item with
  | JObject m => match nonempty_string (member "kind" item) with
                 | Some _ => item
                 | None => with_member "kind" (JString kind) item
                 end
  | _ => item
  end.

(** [None] for [null]: the value is not a snapshot at all. *)
Definition resourcesOf (snapshot : option json) : option (list json) :=
  match snapshot with
  | Some (JObject m) =>
      match member "resources" (JObject m) with
      | Some (JArray resources) => Some resources
      | _ =>
          let group '(key, kind) := map (fun item => stampKind item kind) (arrayAt snapshot [key]) in
          if existsb (fun '(key, _) => is_some (array_items (member key (JObject m)))) GROUPED_KEYS
          then Some (flat_map group GROUPED_KEYS)
          else None
      end
  | _ => None
  end.

Definition kind_of (resource : json) : jstr := default "unknown" (nonempty_string (member "kind" resource)).

(** A [Map] to arrays: [byKind.get(kind)?.push(resource)], or a first entry. *)
Definition bucket {A} (kind : jstr) (byKind : list (jstr * list A)) : list A :=
  match find_first (fun b => jeqb (fst b) kind) byKind with Some b => snd b | None => [] end.

Definition bucket_push {A} (kind : jstr) (x : A) (byKind : list (jstr * list A)) : list (jstr * list A) :=
  set_member kind (bucket kind byKind ++ [x]) byKind.

Definition groupByKind (resources : list json) : list (jstr * list json) :=
  fold_left (fun byKind r => bucket_push (kind_of r) r byKind) resources [].

(** ** Images and the operator's allow-list *)

Record ImageReference := { image_raw : jstr; image_name : jstr; image_digest : option jstr; image_tag : option jstr }.

Record DeclaredImage := { declared_name : jstr; declared_digest : jstr }.

Inductive ImageVerdict :=
| declared (declaredDigest : jstr)
| digest_mismatch (declaredDigests : list jstr)
| not_declared
| not_pinned
| no_allow_list.

(** [lastIndexOf] of a unit, [-1] when it is absent. *)
Fixpoint last_unit (c : N) (u : list N) : Z :=
  match u with
  | [] => -1
  | d :: r => let i := last_unit c r in
              if 0 <=? i then i + 1 else if (d =? c)%N then 0 else -1
  end.

Definition splitOnce (value : jstr) (separator : jstr) : jstr * option jstr :=
  match index_of (units separator) (units value) with
  | None => (value, None)
  | Some i => (Js (take i (units value)), Some (Js (drop (i + length (units separator)) (units value))))
  end.

(** [/^sha256:[0-9a-f]{64}$/] *)
Definition is_image_digest (digest : jstr) : bool :=
  jstartsWith digest "sha256:" && (jlength digest =? 71) && forallb is_hex (drop 7 (units digest)).

Definition parseImageReference (reference : option jstr) : option ImageReference :=
  match reference ≫= fun r => present (Some r) with
  | None => None
  | Some reference =>
      let '(beforeDigest, digest) := splitOnce reference "@" in
      let slash := last_unit 47 (units beforeDigest) in
      let colon := last_unit 58 (units beforeDigest) in
      let hasTag := slash <? colon in
      Some {| image_raw := reference;
              image_name := if hasTag then jslice 0 colon beforeDigest else beforeDigest;
              image_digest := match digest with
                              | Some d => if is_image_digest d then Some d else None
                              | None => None
                              end;
              image_tag := if hasTag then Some (jdrop (colon + 1) beforeDigest) else None |}
  end.

Definition verdictFor (image : option ImageReference) (allowed : option (list DeclaredImage)) : option ImageVerdict :=
  match image with
  | None => None
  | Some image =>
      Some match allowed, image_digest image with
           | None, _ => no_allow_list
           | Some _, None => not_pinned
           | Some allowed, Some digest =>
               let sameName := List.filter (fun e => jeqb (declared_name e) (image_name image)) allowed in
               match find_first (fun e => jeqb (declared_digest e) digest) sameName with
               | Some exact => declared (declared_digest exact)
               | None => match sameName with
                         | [] => not_declared
                         | _ => digest_mismatch (map declared_digest sameName)
                         end
               end
           end
  end.

(** ** Hosts, selectors and containers *)

Record IngressHost := { host_name : jstr; anyHost : bool; host_services : list jstr }.

Definition upsert (defaultBackend : option jstr) (name : jstr) (any : bool) (hosts : list (jstr * IngressHost)) :=
  match find_first (fun h => jeqb (fst h) name) hosts with
  | Some _ => hosts
  | None => hosts ++ [(name, {| host_name := name; anyHost := any; host_services := option_list defaultBackend |})]
  end.

Definition route_to (name : jstr) (service : jstr) (hosts : list (jstr * IngressHost)) : list (jstr * IngressHost) :=
  match find_first (fun h => jeqb (fst h) name) hosts with
  | None => hosts
  | Some (_, h) =>
      if listed service (host_services h) then hosts
      else set_member name {| host_name := host_name h; anyHost := anyHost h; host_services := host_services h ++ [service] |} hosts
  end.

Definition host_rule (defaultBackend : option jstr) (hosts : list (jstr * IngressHost)) (rule : json) :=
  let host := stringAt (Some rule) ["host"] in
  let name := default "*" host in
  fold_left (fun hosts path => match stringAt (Some path) ["backend"; "service"; "name"] with
                               | Some service => route_to name service hosts
                               | None => hosts
                               end)
            (arrayAt (Some rule) ["http"; "paths"]) (upsert defaultBackend name (negb (is_some host)) hosts).

Definition hostsOf (ingress : json) : list IngressHost :=
  let defaultBackend := stringAt (Some ingress) ["spec"; "defaultBackend"; "service"; "name"] in
  let hosts := fold_left (host_rule defaultBackend) (arrayAt (Some ingress) ["spec"; "rules"]) [] in
  let hosts := fold_left (fun hosts host => match nonempty_string (Some host) with
                                            | Some host => upsert defaultBackend host false hosts
                                            | None => hosts
                                            end)
                         (flat_map (fun tls => arrayAt (Some tls) ["hosts"]) (arrayAt (Some ingress) ["spec"; "tls"])) hosts in
  let hosts := match hosts, defaultBackend with
               | [], Some _ => upsert defaultBackend "*" true hosts
               | _, _ => hosts
               end in
  map snd hosts.

(** [labels[key] === value]: two values of a parsed document are one object only when they
    are one place of it, and a selector and a pod's labels are not. *)
Definition same_value (a : option json) (b : json) : bool :=
  match a, b with
  | Some JNull, JNull => true
  | Some (JBool x), JBool y => Bool.eqb x y
  | Some (JNumber x), JNumber y => jeqb x y
  | Some (JString x), JString y => jeqb x y
  | _, _ => false
  end.

Definition selects (selector labels : option (list (jstr * json))) : bool :=
  match selector, labels with
  | Some (_ :: _ as pairs), Some labels =>
      forallb (fun '(key, value) => same_value (member key (JObject labels)) value) pairs
  | _, _ => false
  end.

Definition podLabelsOf (resource : json) : option (list (jstr * json)) :=
  match recordAt (Some resource) ["spec"; "template"; "metadata"; "labels"] with
  | Some l => Some l
  | None => match recordAt (Some resource) ["spec"; "selector"; "matchLabels"] with
            | Some l => Some l
            | None => recordAt (Some resource) ["metadata"; "labels"]
            end
  end.

Record GraphContainer := { container_name : jstr; container_image : option jstr; container_init : bool; container_raw : json }.

Definition container_of (init : bool) (container : json) : list GraphContainer :=
  match container with
  | JObject _ =>
      let name := nonempty_string (member "name" container) in
      let image := nonempty_string (member "image" container) in
      match name, image with
      | None, None => []
      | Some name, _ => [{| container_name := name; container_image := image; container_init := init; container_raw := container |}]
      | None, Some i => [{| container_name := i; container_image := image; container_init := init; container_raw := container |}]
      end
  | _ => []
  end.

Definition SPEC_PATHS : list (list jstr) :=
  [[]; ["spec"]; ["spec"; "template"; "spec"]; ["spec"; "jobTemplate"; "spec"; "template"; "spec"]].

Definition containersOf (resource : json) : list GraphContainer :=
  flat_map (fun spec => flat_map (container_of false) (arrayAt (Some resource) (spec ++ ["containers"])) ++
                        flat_map (container_of true) (arrayAt (Some resource) (spec ++ ["initContainers"]))) SPEC_PATHS.

(** ** Nodes and edges *)

Inductive NodeKind := host_kind | service_kind | workload_kind | container_kind.

Inductive EdgeRelation := routes_to | selects_it | runs.

Record GraphNode := {
  node_id : jstr; node_kind : NodeKind; node_name : jstr; node_detail : option jstr; node_namespace : option jstr;
  layer : Z; node_image : option ImageReference; node_verdict : option ImageVerdict; node_raw : json }.

Record GraphEdge := { edge_source : jstr; edge_target : jstr; edge_relation : EdgeRelation }.

Definition edge_id (e : GraphEdge) : jstr := edge_source e +++ "->" +++ edge_target e.

Definition pushEdge (edges : list GraphEdge) (e : GraphEdge) : list GraphEdge :=
  if listed (edge_id e) (map edge_id edges) then edges else edges ++ [e].

Definition drawing : Type := list GraphNode * list GraphEdge.

Definition host_node (ingress : json) (h : IngressHost) : GraphNode :=
  {| node_id := "host:" +++ host_name h; node_kind := host_kind; node_name := host_name h;
     node_detail := Some (if anyHost h then "any host" else "Ingress"); node_namespace := namespaceOf ingress;
     layer := 0; node_image := None; node_verdict := None; node_raw := ingress |}.

Definition draw_host (ingress : json) (d : drawing) (h : IngressHost) : drawing :=
  let '(nodes, edges) := d in
  let node := host_node ingress h in
  (if listed (node_id node) (map node_id nodes) then nodes else nodes ++ [node],
   fold_left (fun edges service => pushEdge edges {| edge_source := node_id node; edge_target := "service:" +++ service;
                                                     edge_relation := routes_to |}) (host_services h) edges).

Definition draw_hosts (ingresses : list json) : drawing :=
  fold_left (fun d ingress => fold_left (draw_host ingress) (hostsOf ingress) d) ingresses ([], []).

Definition service_node (service : json) (name : jstr) : GraphNode :=
  {| node_id := "service:" +++ name; node_kind := service_kind; node_name := name;
     node_detail := Some (default "ClusterIP" (stringAt (Some service) ["spec"; "type"]));
     node_namespace := namespaceOf service; layer := 1; node_image := None; node_verdict := None; node_raw := service |}.

Definition service_nodes (services : list json) : list GraphNode :=
  flat_map (fun service => match nameOf service with Some name => [service_node service name] | None => [] end) services.

Definition workload_node (kind : jstr) (raw : json) (name : jstr) : GraphNode :=
  {| node_id := "workload:" +++ kind +++ "/" +++ name; node_kind := workload_kind; node_name := name;
     node_detail := Some kind; node_namespace := namespaceOf raw; layer := 2; node_image := None; node_verdict := None;
     node_raw := raw |}.

Definition container_node (allowed : option (list DeclaredImage)) (kind : jstr) (raw : json) (name : jstr) (c : GraphContainer) : GraphNode :=
  let image := parseImageReference (container_image c) in
  {| node_id := "container:" +++ kind +++ "/" +++ name +++ "/" +++ container_name c; node_kind := container_kind;
     node_name := container_name c;
     node_detail := if container_init c then Some "init container" else image ≫= image_tag;
     node_namespace := namespaceOf raw; layer := 3; node_image := image; node_verdict := verdictFor image allowed;
     node_raw := container_raw c |}.

(** The edges from the services whose selector picks the workload. *)
Definition select_edges (services : list json) (raw : json) (id : jstr) (edges : list GraphEdge) : list GraphEdge :=
  fold_left (fun edges service =>
               match nameOf service with
               | Some s => if selects (recordAt (Some service) ["spec"; "selector"]) (podLabelsOf raw)
                           then pushEdge edges {| edge_source := "service:" +++ s; edge_target := id; edge_relation := selects_it |}
                           else edges
               | None => edges
               end) services edges.

Definition draw_container (allowed : option (list DeclaredImage)) (kind : jstr) (raw : json) (name : jstr) (d : drawing) (c : GraphContainer) : drawing :=
  let inner := container_node allowed kind raw name c in
  (fst d ++ [inner],
   pushEdge (snd d) {| edge_source := node_id (workload_node kind raw name); edge_target := node_id inner; edge_relation := runs |}).

Definition draw_workload (services : list json) (allowed : option (list DeclaredImage)) (d : drawing) (w : jstr * json) : drawing :=
  let '(kind, raw) := w in
  match nameOf raw with
  | None => d
  | Some name =>
      let node := workload_node kind raw name in
      fold_left (draw_container allowed kind raw name) (containersOf raw)
                (fst d ++ [node], select_edges services raw (node_id node) (snd d))
  end.

(** ** Layout and the graph *)

Definition COLUMN_WIDTH : Z := 300.
Definition ROW_HEIGHT : Z := 96.

Record PositionedNode := { of_node : GraphNode; pos_x : Z; pos_y : Z }.

(** [used] counts the rows a layer has. *)
Fixpoint positioned_from (used : Z -> Z) (nodes : list GraphNode) : list PositionedNode :=
  match nodes with
  | [] => []
  | node :: r =>
      let row := used (layer node) in
      {| of_node := node; pos_x := layer node * COLUMN_WIDTH; pos_y := row * ROW_HEIGHT |}
      :: positioned_from (fun l => if l =? layer node then row + 1 else used l) r
  end.

Definition positioned : list GraphNode -> list PositionedNode := positioned_from (fun _ => 0).

Definition LAYER_LABELS (kind : NodeKind) : jstr :=
  match kind with
  | host_kind => "Ingress host"
  | service_kind => "Service"
  | workload_kind => "Workload"
  | container_kind => "Container"
  end.

Record UndrawnKind := { undrawn_kind : jstr; undrawn_count : Z }.

Record DeploymentGraph := {
  graph_nodes : list PositionedNode; graph_edges : list GraphEdge; namespaces : list jstr;
  containers : list PositionedNode; resourceCount : Z; undrawn : list UndrawnKind; problem : option jstr }.

Definition drawn_kind (kind : jstr) : bool := jeqb kind "Ingress" || jeqb kind "Service" || listed kind WORKLOAD_KINDS.

Definition is_container (n : PositionedNode) : bool := match node_kind (of_node n) with container_kind => true | _ => false end.

Definition no_snapshot : jstr :=
  "The signed evidence carries a digest but not the deployment snapshot behind it, so there is nothing to draw. The digest is still the value to pin, and Gatekeeper reads the same bundle.".
Definition unreadable_snapshot : jstr :=
  "The signed deployment snapshot is not in a shape this panel can read, so no graph is drawn from it. The raw document is still what the digest covers.".

Definition workloads_of (byKind : list (jstr * list json)) : list (jstr * json) :=
  flat_map (fun kind => map (pair kind) (bucket kind byKind)) WORKLOAD_KINDS.

Definition bucket_size (b : jstr * list json) : Z := Z.of_nat (length (snd b)).

Definition undrawn_of (byKind : list (jstr * list json)) : list UndrawnKind :=
  sort_by (fun a b => jltb (undrawn_kind a) (undrawn_kind b))
    (map (fun b => {| undrawn_kind := fst b; undrawn_count := bucket_size b |})
         (List.filter (fun b => negb (drawn_kind (fst b))) byKind)).

(** The four layers before the edges are pruned. *)
Definition drawing_of (byKind : list (jstr * list json)) (declaredImages : option (list DeclaredImage)) : drawing :=
  let services := bucket "Service" byKind in
  let '(nodes, edges) := draw_hosts (bucket "Ingress" byKind) in
  fold_left (draw_workload services declaredImages) (workloads_of byKind) (nodes ++ service_nodes services, edges).

Definition buildDeploymentGraph (snapshot : option json) (declaredImages : option (list DeclaredImage)) : DeploymentGraph :=
  match resourcesOf snapshot with
  | None =>
      {| graph_nodes := []; graph_edges := []; namespaces := []; containers := []; resourceCount := 0; undrawn := [];
         problem := Some (match snapshot with None | Some JNull => no_snapshot | _ => unreadable_snapshot end) |}
  | Some resources =>
      let byKind := groupByKind resources in
      let '(nodes, edges) := drawing_of byKind declaredImages in
      let present id := listed id (map node_id nodes) in
      let laidOut := positioned nodes in
      {| graph_nodes := laidOut;
         graph_edges := List.filter (fun e => present (edge_source e) && present (edge_target e)) edges;
         namespaces := sort_by jltb (distinct [] (flat_map (fun n => option_list (node_namespace (of_node n))) laidOut));
         containers := List.filter is_container laidOut;
         resourceCount := Z.of_nat (length resources);
         undrawn := undrawn_of byKind;
         problem := None |}
  end.

(** ** The resources by kind *)

Lemma find_key_set {A} k k' (v : A) m :
  find_first (fun b => jeqb (fst b) k) (set_member k' v m) =
  if jeqb k' k then Some (k', v) else find_first (fun b => jeqb (fst b) k) m.
Proof.
  induction m as [|[j w] m IH]; cbn; [done|]. destruct (jeqb j k') eqn:E; cbn.
  - apply jeqb_eq in E as ->. by destruct (jeqb k' k).
  - destruct (jeqb j k) eqn:E'; [|done]. apply jeqb_eq in E' as ->. by rewrite jeqb_sym, E.
Qed.

Lemma bucket_pushed {A} k k' (x : A) m : bucket k (bucket_push k' x m) = bucket k m ++ (if jeqb k' k then [x] else []).
Proof.
  unfold bucket at 1. unfold bucket_push. rewrite find_key_set. destruct (jeqb k' k) eqn:E; cbn.
  - by apply jeqb_eq in E as ->.
  - by rewrite app_nil_r.
Qed.

Lemma groupByKind_snoc rs r : groupByKind (rs ++ [r]) = bucket_push (kind_of r) r (groupByKind rs).
Proof. unfold groupByKind. by rewrite fold_left_app. Qed.

(** A bucket holds the resources of its kind in document order. *)
Lemma bucket_grouped k rs : bucket k (groupByKind rs) = List.filter (fun r => jeqb (kind_of r) k) rs.
Proof.
  induction rs as [|r rs IH] using rev_ind; [done|].
  rewrite groupByKind_snoc, bucket_pushed, IH, List.filter_app. done.
Qed.

Lemma set_member_keys {A} k (v : A) m : map fst (set_member k v m) = if listed k (map fst m) then map fst m else map fst m ++ [k].
Proof.
  unfold listed. induction m as [|[j w] m IH]; cbn; [done|]. destruct (jeqb j k) eqn:E; cbn; [done|]. rewrite IH.
  by destruct (existsb _ _).
Qed.

Lemma grouped_keys_nodup rs : NoDup (map fst (groupByKind rs)).
Proof.
  induction rs as [|r rs IH] using rev_ind; [constructor|]. rewrite groupByKind_snoc. unfold bucket_push. rewrite set_member_keys.
  destruct (listed _ _) eqn:E; [done|]. apply listed_false in E. apply NoDup_app. split; [done|]. split; [|apply NoDup_singleton].
  intros x Hx ->%list_elem_of_singleton. done.
Qed.

Lemma grouped_bucket rs k items : (k, items) ∈ groupByKind rs -> items = bucket k (groupByKind rs).
Proof.
  intros Hin. unfold bucket. pose proof (grouped_keys_nodup rs) as Hnd. revert Hin Hnd.
  induction (groupByKind rs) as [|[j w] m IH]; cbn; [by intros ?%elem_of_nil|].
  intros [[= -> ->]|Hin]%elem_of_cons [Hj Hnd]%NoDup_cons; [by rewrite jeqb_refl|].
  rewrite (proj2 (jeqb_neq j k)); [by apply IH|]. intros ->. apply Hj. apply list_elem_of_fmap. by exists (k, items).
Qed.

Definition size_of (p : jstr -> bool) (m : list (jstr * list json)) : Z :=
  sumZ (map bucket_size (List.filter (fun b => p (fst b)) m)).

Lemma pushed_size p k r m : size_of p (bucket_push k r m) = size_of p m + (if p k then 1 else 0).
Proof.
  unfold bucket_push, bucket. induction m as [|[j w] m IH]; [unfold size_of; cbn; by destruct (p k)|].
  cbn [find_first List.find set_member fst snd]. destruct (jeqb j k) eqn:E.
  - apply jeqb_eq in E as ->. unfold size_of. cbn. destruct (p k); cbn; unfold bucket_size; cbn; rewrite ?length_app; cbn; lia.
  - unfold size_of in IH |- *. cbn [List.filter fst]. destruct (p j); [|apply IH]. cbn [map].
    unfold sumZ in IH |- *. cbn [foldr]. unfold find_first in IH. rewrite IH. lia.
Qed.

(** The buckets of some kinds hold the resources of those kinds. *)
Lemma grouped_size p rs : size_of p (groupByKind rs) = Z.of_nat (length (List.filter (fun r => p (kind_of r)) rs)).
Proof.
  induction rs as [|r rs IH] using rev_ind; [done|].
  rewrite groupByKind_snoc, pushed_size, IH, List.filter_app, length_app. cbn. destruct (p (kind_of r)); cbn; lia.
Qed.

Lemma grouped_present rs r : r ∈ rs -> (kind_of r, bucket (kind_of r) (groupByKind rs)) ∈ groupByKind rs.
Proof.
  intros Hr. unfold bucket. destruct (find_first _ (groupByKind rs)) as [[k items]|] eqn:E.
  - apply find_first_some in E as [Hin Hk]. apply jeqb_eq in Hk. cbn in Hk. by subst k.
  - exfalso. assert (r ∈ bucket (kind_of r) (groupByKind rs)) as Hb.
    { rewrite bucket_grouped. apply elem_of_filter_b. split; [done|apply jeqb_refl]. }
    unfold bucket in Hb. rewrite E in Hb. by apply elem_of_nil in Hb.
Qed.

(** ** The nodes *)

Section Drawing.
Context (allowed : option (list DeclaredImage)).

Definition containers_drawn (w : jstr * json) : list GraphNode :=
  match nameOf (snd w) with
  | Some name => map (container_node allowed (fst w) (snd w) name) (containersOf (snd w))
  | None => []
  end.

Definition workload_drawn (w : jstr * json) : list GraphNode :=
  match nameOf (snd w) with
  | Some name => workload_node (fst w) (snd w) name :: containers_drawn w
  | None => []
  end.

Lemma draw_containers_nodes kind raw name cs d :
  fst (fold_left (draw_container allowed kind raw name) cs d) = fst d ++ map (container_node allowed kind raw name) cs.
Proof.
  revert d. induction cs as [|c cs IH]; intros d; cbn [fold_left map]; [by rewrite app_nil_r|].
  rewrite IH. unfold draw_container. cbn [fst]. by rewrite <- app_assoc.
Qed.

Lemma draw_workload_nodes services d w : fst (draw_workload services allowed d w) = fst d ++ workload_drawn w.
Proof.
  destruct w as [kind raw]. unfold draw_workload, workload_drawn, containers_drawn. cbn [fst snd].
  destruct (nameOf raw) as [name|]; [|by rewrite app_nil_r]. rewrite draw_containers_nodes. cbn [fst]. by rewrite <- app_assoc.
Qed.

Lemma draw_workloads_nodes services ws d :
  fst (fold_left (draw_workload services allowed) ws d) = fst d ++ flat_map workload_drawn ws.
Proof.
  revert d. induction ws as [|w ws IH]; intros d; cbn [fold_left flat_map]; [by rewrite app_nil_r|].
  by rewrite IH, draw_workload_nodes, app_assoc.
Qed.

Lemma draw_hosts_nodes ingresses : Forall (fun n => node_kind n = host_kind) (fst (draw_hosts ingresses)).
Proof.
  unfold draw_hosts. assert (Forall (fun n => node_kind n = host_kind) (fst (([], []) : drawing))) as H by constructor.
  revert H. generalize (([], []) : drawing). induction ingresses as [|i rest IH]; [done|]. intros d H. cbn [fold_left]. apply IH.
  revert d H. induction (hostsOf i) as [|h hs IHh]; [done|]. intros [nodes edges] H. cbn [fold_left]. apply IHh. cbn [draw_host fst].
  destruct (listed _ _); [done|]. apply Forall_app. split; [done|]. by constructor.
Qed.

Lemma drawing_nodes byKind :
  fst (drawing_of byKind allowed) =
  fst (draw_hosts (bucket "Ingress" byKind)) ++ service_nodes (bucket "Service" byKind) ++ flat_map workload_drawn (workloads_of byKind).
Proof.
  unfold drawing_of. destruct (draw_hosts _) as [nodes edges]. rewrite draw_workloads_nodes. cbn [fst]. by rewrite <- app_assoc.
Qed.

Definition container_like (n : GraphNode) : bool := match node_kind n with container_kind => true | _ => false end.

Lemma containers_of_drawing byKind :
  List.filter container_like (fst (drawing_of byKind allowed)) = flat_map containers_drawn (workloads_of byKind).
Proof.
  rewrite drawing_nodes, !List.filter_app, (filter_nothing _ (fst _)), (filter_nothing _ (service_nodes _)); cbn [app].
  - induction (workloads_of byKind) as [|w ws IH]; [done|]. cbn [flat_map]. rewrite List.filter_app, IH. f_equal.
    unfold workload_drawn, containers_drawn. destruct (nameOf _); [|done]. cbn [List.filter container_like node_kind workload_node].
    apply filter_all, Forall_map, Forall_true. done.
  - unfold service_nodes. induction (bucket "Service" byKind) as [|s ss IH]; [constructor|]. cbn [flat_map].
    apply Forall_app. split; [|done]. destruct (nameOf s); by repeat constructor.
  - eapply Forall_impl; [apply draw_hosts_nodes|]. intros n Hn. unfold container_like. by rewrite Hn.
Qed.
End Drawing.

(** ** The layout *)

Lemma positioned_nodes used nodes : map of_node (positioned_from used nodes) = nodes.
Proof. revert used. induction nodes as [|n r IH]; intros used; cbn; [done|]. by rewrite IH. Qed.

Lemma positioned_bound used nodes p : p ∈ positioned_from used nodes ->
  pos_x p = layer (of_node p) * COLUMN_WIDTH /\ used (layer (of_node p)) * ROW_HEIGHT <= pos_y p.
Proof.
  revert used. induction nodes as [|n r IH]; intros used; cbn; [by intros ?%elem_of_nil|].
  intros [->|Hin]%elem_of_cons; cbn; [lia|]. destruct (IH _ Hin) as [Hx Hy]. split; [done|]. revert Hy.
  unfold ROW_HEIGHT. destruct (Z.eqb_spec (layer (of_node p)) (layer n)) as [->|]; lia.
Qed.

Lemma positioned_apart used nodes : NoDup (map (fun p => (pos_x p, pos_y p)) (positioned_from used nodes)).
Proof.
  revert used. induction nodes as [|n r IH]; intros used; cbn; [constructor|]. apply NoDup_cons. split; [|apply IH].
  intros (p & Hp & Hin)%list_elem_of_fmap. destruct (positioned_bound _ _ _ Hin) as [Hx Hy]. injection Hp as Ex Ey.
  unfold COLUMN_WIDTH, ROW_HEIGHT in *. assert (layer (of_node p) = layer n) as E by lia. rewrite E, Z.eqb_refl in Hy. lia.
Qed.

Lemma filter_positioned used nodes : map of_node (List.filter is_container (positioned_from used nodes)) = List.filter container_like nodes.
Proof.
  revert used. induction nodes as [|n r IH]; intros used; cbn [positioned_from List.filter]; [done|].
  unfold is_container at 1, container_like at 1. cbn [of_node]. destruct (node_kind n); cbn [map of_node]; by rewrite IH.
Qed.

(** ** The edges *)

Lemma pushEdge_in edges e e' : e' ∈ pushEdge edges e -> e' ∈ edges \/ e' = e.
Proof. unfold pushEdge. destruct (listed _ _); [by left|]. intros [H|H%list_elem_of_singleton]%elem_of_app; auto. Qed.

Lemma pushEdge_nodup edges e : NoDup (map edge_id edges) -> NoDup (map edge_id (pushEdge edges e)).
Proof.
  intros H. unfold pushEdge. destruct (listed _ _) eqn:E; [done|]. apply listed_false in E. rewrite map_app. apply NoDup_app.
  split; [done|]. split; [|apply NoDup_singleton]. by intros x Hx ->%list_elem_of_singleton.
Qed.

(** Why an edge may be there. *)
Inductive warranted (rs : list json) : GraphEdge -> Prop :=
| routed ingress h service : ingress ∈ rs -> kind_of ingress = "Ingress"%js -> h ∈ hostsOf ingress -> service ∈ host_services h ->
    warranted rs {| edge_source := "host:" +++ host_name h; edge_target := "service:" +++ service; edge_relation := routes_to |}
| selected service s raw name : service ∈ rs -> kind_of service = "Service"%js -> nameOf service = Some s ->
    raw ∈ rs -> kind_of raw ∈ WORKLOAD_KINDS -> nameOf raw = Some name ->
    selects (recordAt (Some service) ["spec"; "selector"]%js) (podLabelsOf raw) = true ->
    warranted rs {| edge_source := "service:" +++ s; edge_target := "workload:" +++ kind_of raw +++ "/" +++ name; edge_relation := selects_it |}
| ran raw name c : raw ∈ rs -> kind_of raw ∈ WORKLOAD_KINDS -> nameOf raw = Some name -> c ∈ containersOf raw ->
    warranted rs {| edge_source := "workload:" +++ kind_of raw +++ "/" +++ name;
                    edge_target := "container:" +++ kind_of raw +++ "/" +++ name +++ "/" +++ container_name c; edge_relation := runs |}.

Definition sound_edges (rs : list json) (edges : list GraphEdge) : Prop := NoDup (map edge_id edges) /\ Forall (warranted rs) edges.

Lemma sound_push rs edges e : sound_edges rs edges -> warranted rs e -> sound_edges rs (pushEdge edges e).
Proof.
  intros [Hn Hf] He. split; [by apply pushEdge_nodup|]. apply Forall_forall. intros x [Hx| ->]%pushEdge_in; [|done].
  by eapply Forall_forall in Hf.
Qed.

Lemma fold_keeps {A B} (P : A -> Prop) (f : A -> B -> A) l a :
  P a -> (forall a x, x ∈ l -> P a -> P (f a x)) -> P (fold_left f l a).
Proof.
  revert a. induction l as [|x l IH]; intros a Ha Hf; [done|]. cbn. apply IH; [apply Hf; [left|done]|].
  intros b y Hy. apply Hf. by right.
Qed.

Lemma in_bucket rs k r : r ∈ bucket k (groupByKind rs) <-> r ∈ rs /\ kind_of r = k.
Proof. rewrite bucket_grouped, elem_of_filter_b. by rewrite jeqb_eq. Qed.

Lemma workloads_in rs w : w ∈ workloads_of (groupByKind rs) -> snd w ∈ rs /\ kind_of (snd w) = fst w /\ fst w ∈ WORKLOAD_KINDS.
Proof.
  unfold workloads_of. intros Hw. apply list_elem_of_In, in_flat_map in Hw as (k & Hk & Hw). apply in_map_iff in Hw as (r & <- & Hr).
  apply list_elem_of_In, in_bucket in Hr as [Hr Hkind]. apply list_elem_of_In in Hk. done.
Qed.

Lemma hosts_sound rs ingresses : (forall i, i ∈ ingresses -> i ∈ rs /\ kind_of i = "Ingress"%js) ->
  sound_edges rs (snd (draw_hosts ingresses)).
Proof.
  intros Hi. unfold draw_hosts. apply (fold_keeps (fun d => sound_edges rs (snd d))); [by split; constructor|].
  intros d ingress Hin Hd. destruct (Hi _ Hin) as [Hrs Hk]. apply (fold_keeps (fun d => sound_edges rs (snd d))); [done|].
  intros [nodes edges] h Hh He. cbn [draw_host snd]. apply fold_keeps; [done|].
  intros es s Hs Hes. apply sound_push; [done|]. by apply (routed rs ingress).
Qed.

Lemma selection_sound rs services raw name edges : (forall s, s ∈ services -> s ∈ rs /\ kind_of s = "Service"%js) ->
  raw ∈ rs -> kind_of raw ∈ WORKLOAD_KINDS -> nameOf raw = Some name ->
  sound_edges rs edges -> sound_edges rs (select_edges services raw ("workload:" +++ kind_of raw +++ "/" +++ name) edges).
Proof.
  intros Hs Hr Hk Hn He. unfold select_edges. apply fold_keeps; [done|]. intros es s Hin Hes. destruct (Hs _ Hin) as [Hsr Hsk].
  destruct (nameOf s) eqn:En; [|done]. destruct (selects _ _) eqn:Es; [|done]. apply sound_push; [done|].
  by apply (selected rs s j raw name).
Qed.

Lemma workload_sound rs services allowed d w : (forall s, s ∈ services -> s ∈ rs /\ kind_of s = "Service"%js) ->
  snd w ∈ rs -> kind_of (snd w) = fst w -> fst w ∈ WORKLOAD_KINDS ->
  sound_edges rs (snd d) -> sound_edges rs (snd (draw_workload services allowed d w)).
Proof.
  intros Hs Hr Hk HW Hd. destruct w as [kind raw]. cbn [fst snd] in *. subst kind. unfold draw_workload.
  destruct (nameOf raw) as [name|] eqn:En; [|done]. apply (fold_keeps (fun d => sound_edges rs (snd d))).
  - cbn [snd]. by apply selection_sound.
  - intros d' c Hc Hd'. unfold draw_container. cbn [snd]. apply sound_push; [done|]. by apply (ran rs raw name c).
Qed.

Lemma drawing_sound rs allowed : sound_edges rs (snd (drawing_of (groupByKind rs) allowed)).
Proof.
  unfold drawing_of. pose proof (hosts_sound rs (bucket "Ingress" (groupByKind rs))) as Hh.
  destruct (draw_hosts _) as [nodes edges]. apply (fold_keeps (fun d => sound_edges rs (snd d))).
  - apply Hh. intros i Hi. by apply in_bucket.
  - intros d w Hw Hd. destruct (workloads_in _ _ Hw) as (? & ? & ?). apply workload_sound; try done. intros s Hs. by apply in_bucket.
Qed.

(** ** The verdict on an image *)

Lemma declared_iff image allowed d : verdictFor (Some image) allowed = Some (declared d) <->
  exists l, allowed = Some l /\ image_digest image = Some d /\ {| declared_name := image_name image; declared_digest := d |} ∈ l.
Proof.
  unfold verdictFor. destruct allowed as [l|]; [|split; [done|by intros (? & ? & _)]].
  destruct (image_digest image) as [digest|]; [|split; [done|by intros (? & _ & ? & _)]].
  destruct (find_first _ _) as [exact|] eqn:E.
  - apply find_first_some in E as [Hin Hd]. apply elem_of_filter_b in Hin as [Hin Hname]. apply jeqb_eq in Hd, Hname.
    split; [intros [= <-]|intros (? & _ & [= <-] & _); by rewrite Hd]. exists l. rewrite <- Hname, Hd.
    destruct exact. cbn in *. by subst.
  - split; [by destruct (List.filter _ _)|]. intros (l' & [= <-] & [= ->] & Hin). rewrite find_first_none in E.
    specialize (E {| declared_name := image_name image; declared_digest := d |}). cbn in E. rewrite jeqb_refl in E.
    discriminate E. apply elem_of_filter_b. split; [done|]. cbn. apply jeqb_refl.
Qed.

Lemma same_name image l x :
  x ∈ map declared_digest (List.filter (fun e => jeqb (declared_name e) (image_name image)) l) <->
  {| declared_name := image_name image; declared_digest := x |} ∈ l.
Proof.
  rewrite list_elem_of_fmap. split.
  - intros (e & -> & [Hin Hn]%elem_of_filter_b). apply jeqb_eq in Hn. rewrite <- Hn. by destruct e.
  - intros Hin. eexists. split; [|apply elem_of_filter_b; split; [exact Hin|apply jeqb_refl]]. done.
Qed.

(** Each of the five answers says what it means: the mismatch names exactly the digests
    declared for the repository, none of them the image's own. *)
Theorem verdict_says_why image allowed v : verdictFor (Some image) allowed = Some v ->
  match v with
  | declared d => exists l, allowed = Some l /\ image_digest image = Some d /\ {| declared_name := image_name image; declared_digest := d |} ∈ l
  | digest_mismatch ds => exists l d, allowed = Some l /\ image_digest image = Some d /\ d ∉ ds /\ ds <> [] /\
      forall x, x ∈ ds <-> {| declared_name := image_name image; declared_digest := x |} ∈ l
  | not_declared => exists l, allowed = Some l /\ image_digest image <> None /\
      forall x, {| declared_name := image_name image; declared_digest := x |} ∉ l
  | not_pinned => (exists l, allowed = Some l) /\ image_digest image = None
  | no_allow_list => allowed = None
  end.
Proof.
  intros Hv. destruct v as [d|ds| | |]; [by apply declared_iff|..]; unfold verdictFor in Hv; (destruct allowed as [l|]; [|done]);
    (destruct (image_digest image) as [d|]; [|done || by split; [exists l|]]); pose proof (same_name image l) as Hs;
    (destruct (find_first _ (List.filter _ l)) eqn:E; [done|]); (destruct (List.filter _ l) as [|e r]; try done).
  - injection Hv as <-. exists l, d. do 2 (split; [done|]). split; [|by split; [|apply Hs]]. intros Hin.
    apply (list_elem_of_fmap declared_digest (e :: r)) in Hin as (x & -> & Hx). rewrite find_first_none in E. specialize (E x Hx). cbn in E.
    by rewrite jeqb_refl in E.
  - exists l. repeat split; [done|]. intros x Hx. apply Hs in Hx. by apply elem_of_nil in Hx.
Qed.

(** *** Splitting a reference *)

Lemma last_unit_spec c u : let i := last_unit c u in
  -1 <= i < Z.of_nat (length u) /\ (0 <= i -> u !! Z.to_nat i = Some c) /\ forall j, i < Z.of_nat j -> u !! j <> Some c.
Proof.
  cbn zeta. induction u as [|d u (Hb & Hat & Hafter)]; cbn [last_unit length]; [split; [lia|]; split; [lia|]; by intros []|].
  destruct (Z.leb_spec 0 (last_unit c u)) as [H|H].
  - split; [lia|]. split; [intros _; replace (Z.to_nat (last_unit c u + 1)) with (S (Z.to_nat (last_unit c u))) by lia; by apply Hat|].
    intros [|j] Hj; [lia|]. apply Hafter. lia.
  - assert (forall j, u !! j <> Some c) as Hno by (intros j; apply Hafter; lia).
    destruct (N.eqb_spec d c) as [->|Hne]; (split; [lia|]; split; [done || lia|]).
    + intros [|j] Hj; [lia|]. apply Hno.
    + intros [|j] _; cbn; [congruence|apply Hno].
Qed.

Lemma split_at_unit c u i : i = last_unit c u -> 0 <= i -> u = take (Z.to_nat i) u ++ c :: drop (Z.to_nat (i + 1)) u.
Proof.
  intros -> Hi. destruct (last_unit_spec c u) as (Hb & Hat & _). replace (Z.to_nat (last_unit c u + 1)) with (S (Z.to_nat (last_unit c u))) by lia.
  symmetry. by apply take_drop_middle, Hat.
Qed.

Definition suffixed (mark : jstr) (part : option jstr) : jstr := match part with Some p => mark +++ p | None => Js [] end.

Lemma splitOnce_joins value separator before after : splitOnce value separator = (before, after) ->
  value = before +++ suffixed separator after.
Proof.
  unfold splitOnce. destruct (index_of _ _) as [i|] eqn:E; intros [= <- <-]; unfold suffixed, japp; cbn [units].
  - rewrite <- (index_of_split _ _ _ E). by destruct value.
  - rewrite app_nil_r. by destruct value.
Qed.

Lemma kept_digest reference before digest : splitOnce reference "@" = (before, digest) ->
  match digest with Some d => if is_image_digest d then Some d else None | None => None end <> None \/
  index_of (units "@") (units reference) = None ->
  suffixed "@" (match digest with Some d => if is_image_digest d then Some d else None | None => None end) = suffixed "@" digest.
Proof.
  intros Hs [Hd|Hd].
  - destruct digest as [d|]; [|done]. by destruct (is_image_digest d).
  - unfold splitOnce in Hs. rewrite Hd in Hs. injection Hs as _ <-. done.
Qed.

(** The parts a reader compares are the reference: nothing of it is dropped but a digest
    that is not one, and a registry's port is never taken for a tag. *)
Theorem reference_is_its_parts reference image : parseImageReference (Some reference) = Some image ->
  image_raw image = reference /\
  (image_digest image <> None \/ index_of (units "@") (units reference) = None ->
   reference = image_name image +++ suffixed ":" (image_tag image) +++ suffixed "@" (image_digest image)) /\
  (forall tag, image_tag image = Some tag -> 47%N ∉ units tag).
Proof.
  unfold parseImageReference. cbn [mbind option_bind]. unfold present. destruct (jlength reference =? 0); [done|].
  destruct (splitOnce reference "@") as [before digest] eqn:Es. pose proof (splitOnce_joins _ _ _ _ Es) as Hj.
  intros [= <-]. cbn [image_raw image_name image_digest image_tag]. split; [done|].
  destruct (last_unit_spec 47 (units before)) as (Hb & _ & Hafter). split.
  - intros Hd. rewrite Hj.
    set (hasTag := last_unit 47 (units before) <? last_unit 58 (units before)).
    assert (before = (if hasTag then jslice 0 (last_unit 58 (units before)) before else before) +++
                     suffixed ":" (if hasTag then Some (jdrop (last_unit 58 (units before) + 1) before) else None)) as Hbefore.
    { subst hasTag. destruct (Z.ltb_spec (last_unit 47 (units before)) (last_unit 58 (units before))) as [H|H].
      - unfold suffixed, jslice, jtake, jdrop, japp. cbn [units]. rewrite drop_0, Z.sub_0_r. change (units ":") with [58%N]. cbn [app].
        rewrite <- (split_at_unit 58 (units before)) by (done || lia). by destruct before.
      - unfold suffixed, japp. cbn [units]. rewrite app_nil_r. by destruct before. }
    rewrite japp_assoc, <- Hbefore. f_equal. symmetry. apply (kept_digest _ _ _ Es Hd).
  - intros tag. destruct (Z.ltb_spec (last_unit 47 (units before)) (last_unit 58 (units before))) as [H|H]; [|done].
    intros [= <-] Hin. unfold jdrop in Hin. cbn [units] in Hin. apply list_elem_of_lookup in Hin as (j & Hlj). rewrite lookup_drop in Hlj.
    by apply (Hafter _) in Hlj; [|lia].
Qed.

(** ** What is drawn and what is counted *)

Lemma undrawn_perm byKind : undrawn_of byKind ≡ₚ
  map (fun b => {| undrawn_kind := fst b; undrawn_count := bucket_size b |}) (List.filter (fun b => negb (drawn_kind (fst b))) byKind).
Proof. apply sort_by_perm. Qed.

Lemma undrawn_sum rs : sumZ (map undrawn_count (undrawn_of (groupByKind rs))) =
  Z.of_nat (length (List.filter (fun r => negb (drawn_kind (kind_of r))) rs)).
Proof.
  rewrite <- (grouped_size (fun k => negb (drawn_kind k))). unfold size_of.
  rewrite (sumZ_perm _ _ (Permutation_map undrawn_count (undrawn_perm (groupByKind rs)))), map_map. done.
Qed.

Lemma undrawn_nodup rs : NoDup (map undrawn_kind (undrawn_of (groupByKind rs))).
Proof.
  rewrite (Permutation_map undrawn_kind (undrawn_perm (groupByKind rs))), map_map.
  apply (sublist_NoDup _ (map fst (groupByKind rs))); [apply map_sublist, filter_sublist|apply grouped_keys_nodup].
Qed.

Lemma undrawn_counts rs r : r ∈ rs -> drawn_kind (kind_of r) = false ->
  {| undrawn_kind := kind_of r; undrawn_count := Z.of_nat (length (List.filter (fun x => jeqb (kind_of x) (kind_of r)) rs)) |}
  ∈ undrawn_of (groupByKind rs).
Proof.
  intros Hr Hd. rewrite undrawn_perm. rewrite <- bucket_grouped. apply list_elem_of_fmap.
  exists (kind_of r, bucket (kind_of r) (groupByKind rs)). split; [done|]. apply elem_of_filter_b. split; [by apply grouped_present|].
  cbn. by rewrite Hd.
Qed.

Lemma partition_length {A} (p : A -> bool) l :
  length l = (length (List.filter p l) + length (List.filter (fun x => negb (p x)) l))%nat.
Proof. induction l as [|x l IH]; [done|]. cbn. destruct (p x); cbn; lia. Qed.

Lemma named_drawn allowed rs r name : r ∈ rs -> kind_of r = "Service"%js \/ kind_of r ∈ WORKLOAD_KINDS -> nameOf r = Some name ->
  exists n, n ∈ fst (drawing_of (groupByKind rs) allowed) /\ node_raw n = r.
Proof.
  intros Hr Hk Hn. rewrite drawing_nodes. destruct Hk as [Hk|Hk].
  - exists (service_node r name). split; [|done]. apply elem_of_app; right. apply elem_of_app; left.
    apply list_elem_of_In, in_flat_map. exists r. rewrite Hn. split; [|by left]. by apply list_elem_of_In, in_bucket.
  - exists (workload_node (kind_of r) r name). split; [|done]. apply elem_of_app; right. apply elem_of_app; right.
    apply list_elem_of_In, in_flat_map. exists (kind_of r, r). unfold workload_drawn. cbn [fst snd]. rewrite Hn. split; [|by left].
    apply in_flat_map. exists (kind_of r). split; [by apply list_elem_of_In|]. apply in_map, list_elem_of_In. by apply in_bucket.
Qed.

(** ** What the panel shows *)

Section Panel.
Context (snapshot : option json) (allowed : option (list DeclaredImage)) (rs : list json).
Context (Hread : resourcesOf snapshot = Some rs).

#[local] Notation g := (buildDeploymentGraph snapshot allowed).

Lemma graph_drawn : map of_node (graph_nodes g) = fst (drawing_of (groupByKind rs) allowed) /\
  map of_node (containers g) = flat_map (containers_drawn allowed) (workloads_of (groupByKind rs)).
Proof.
  unfold buildDeploymentGraph. rewrite Hread, <- containers_of_drawing.
  destruct (drawing_of _ _) as [nodes edges]. cbn [graph_nodes containers fst]. split; [apply positioned_nodes|apply filter_positioned].
Qed.

(** The image list is the containers of the named workloads of the signed document, by
    kind and in document order, each with the verdict on its own signed reference. *)
Theorem panel_lists_every_container :
  map of_node (containers g) =
  flat_map (containers_drawn allowed)
    (flat_map (fun kind => map (pair kind) (List.filter (fun r => jeqb (kind_of r) kind) rs)) WORKLOAD_KINDS).
Proof.
  rewrite (proj2 graph_drawn). unfold workloads_of. f_equal. rewrite !flat_map_concat_map. f_equal. apply map_ext. intros kind.
  by rewrite bucket_grouped.
Qed.

(** Every line of the picture is one the document warrants, is drawn once, and joins two
    nodes that are drawn; and no two nodes are drawn in one place. *)
Theorem picture_is_the_document :
  NoDup (map edge_id (graph_edges g)) /\
  (forall e, e ∈ graph_edges g -> warranted rs e /\
     edge_source e ∈ map (fun p => node_id (of_node p)) (graph_nodes g) /\
     edge_target e ∈ map (fun p => node_id (of_node p)) (graph_nodes g)) /\
  NoDup (map (fun p => (pos_x p, pos_y p)) (graph_nodes g)).
Proof.
  pose proof (drawing_sound rs allowed) as [Hnd Hf]. unfold buildDeploymentGraph. rewrite Hread.
  destruct (drawing_of _ _) as [nodes edges]. cbn [graph_edges graph_nodes snd] in *. split; [|split].
  - apply (sublist_NoDup _ (map edge_id edges)); [apply map_sublist, filter_sublist|done].
  - intros e [He Hp]%elem_of_filter_b. zbool. split; [by eapply Forall_forall in Hf|].
    unfold positioned. rewrite <- (map_map of_node node_id), positioned_nodes. by rewrite <- !listed_iff.
  - apply positioned_apart.
Qed.

(** What is not drawn is counted: the undrawn kinds are named once each, none of them is
    one of the drawn kinds, their counts are the resources of those kinds, and every
    resource is of a drawn kind or of one of them; and a service or a workload with a name
    has a node that shows it. *)
Theorem nothing_named_is_hidden :
  resourceCount g = Z.of_nat (length (List.filter (fun r => drawn_kind (kind_of r)) rs)) + sumZ (map undrawn_count (undrawn g)) /\
  NoDup (map undrawn_kind (undrawn g)) /\
  (forall r, r ∈ rs ->
     (drawn_kind (kind_of r) = false /\
      {| undrawn_kind := kind_of r; undrawn_count := Z.of_nat (length (List.filter (fun x => jeqb (kind_of x) (kind_of r)) rs)) |} ∈ undrawn g) \/
     kind_of r = "Ingress"%js \/ nameOf r = None \/ exists p, p ∈ graph_nodes g /\ node_raw (of_node p) = r).
Proof.
  pose proof graph_drawn as [Hn _]. revert Hn. unfold buildDeploymentGraph. rewrite Hread.
  pose proof (named_drawn allowed rs) as Hnamed. destruct (drawing_of (groupByKind rs) allowed) as [nodes edges].
  cbn [graph_nodes resourceCount undrawn fst] in *. intros Hn. split; [|split].
  - rewrite undrawn_sum, (partition_length (fun r => drawn_kind (kind_of r)) rs). lia.
  - apply undrawn_nodup.
  - intros r Hr. destruct (drawn_kind (kind_of r)) eqn:Hd; [right|left; split; [done|by apply undrawn_counts]].
    destruct (decide (kind_of r = "Ingress"%js)) as [|Hi]; [by left|right]. destruct (nameOf r) as [name|] eqn:En; [right|by left].
    destruct (Hnamed r name Hr) as (n & Hin & Hraw); [|done|].
    + unfold drawn_kind in Hd. apply orb_true_iff in Hd as [Hd|Hd]; [|right; by apply listed_iff].
      apply orb_true_iff in Hd as [Hd|Hd]; apply jeqb_eq in Hd; [done|by left].
    + rewrite <- Hn in Hin. apply list_elem_of_fmap in Hin as (p & -> & Hp). by exists p.
Qed.

End Panel.

(** ** Concrete documents *)

Definition some_digest : jstr := "sha256:" +++ jrepeat 97 64.
Definition other_digest : jstr := "sha256:" +++ jrepeat 98 64.

Definition workload_document (kind : jstr) (metadata : list (jstr * json)) (labels : list (jstr * json)) (image : jstr) : json :=
  JObject [("kind", JString kind); ("metadata", JObject metadata);
           ("spec", JObject [("template", JObject [("metadata", JObject [("labels", JObject labels)]);
              ("spec", JObject [("containers", JArray [JObject [("name", JString "main"); ("image", JString image)]])])])])]%js.

Definition service_document (metadata : list (jstr * json)) (selector : list (jstr * json)) : json :=
  JObject [("kind", JString "Service"); ("metadata", JObject metadata); ("spec", JObject [("selector", JObject selector)])]%js.

Definition app_label (app : jstr) : list (jstr * json) := [("app"%js, JString app)].
Definition named (name namespace : jstr) : list (jstr * json) := [("name"%js, JString name); ("namespace"%js, JString namespace)].

Definition snapshot_of (resources : list json) : option json :=
  Some (JObject [("version", JInt 2); ("resources", JArray resources)]%js).


Definition api_allowed : option (list DeclaredImage) :=
  Some [{| declared_name := "registry.internal:5000/router/api"; declared_digest := some_digest |}].




(** A deployed build the operator did not declare is named as one, and the Secret beside
    it is counted. *)
Example another_build :
  let g := buildDeploymentGraph (snapshot_of [workload_document "Deployment" (named "api" "router") (app_label "api")
             ("registry.internal:5000/router/api:1.4@" +++ other_digest); JObject [("kind"%js, JString "Secret")]]) api_allowed in
  map (fun p => node_verdict (of_node p)) (containers g) = [Some (digest_mismatch [some_digest])] /\
  undrawn g = [{| undrawn_kind := "Secret"; undrawn_count := 1 |}] /\ resourceCount g = 2.
Proof. vm_compute. auto. Qed.

(** A workload with no name is neither drawn nor counted, and its containers, which the
    enclave runs, go with it. *)
Example nameless_workloads_vanish :
  let g := buildDeploymentGraph (snapshot_of [workload_document "Deployment" [] (app_label "api") ("ghcr.io/evil@" +++ other_digest)]) api_allowed in
  graph_nodes g = [] /\ containers g = [] /\ undrawn g = [] /\ problem g = None /\ resourceCount g = 1.
Proof. vm_compute. auto. Qed.

(** Names are compared without their namespaces: the service of one namespace is shown
    selecting the pods of another, and two services of one name share a node's id. *)
Example namespaces_are_merged :
  let g := buildDeploymentGraph (snapshot_of
    [service_document (named "web" "shop") (app_label "web"); service_document (named "web" "bank") (app_label "web");
     workload_document "Deployment" (named "web" "bank") (app_label "web") ("ghcr.io/web@" +++ some_digest)]) None in
  map (fun p => node_id (of_node p)) (graph_nodes g) =
    ["service:web"; "service:web"; "workload:Deployment/web"; "container:Deployment/web/main"]%js /\
  map edge_id (graph_edges g) = ["service:web->workload:Deployment/web"; "workload:Deployment/web->container:Deployment/web/main"]%js.
Proof. vm_compute. auto. Qed.
